(* ===== verification/_CoqProject ===== *)
-Q . S2P
Prelude.v
Rotation.v
CustomerLimit.v
Ids.v
Text.v
Contract.v
Request.v
Provider.v
KeyPool.v
ProviderCost.v
DecisionPrice.v
UsageEstimate.v
Answers.v
Adapter.v
Parameters.v
Inventory.v
Retry.v
Emitter.v
Routes.v
Settle.v
Executor.v
ExecutorPermits.v
ExecutorReport.v
PublicContract.v
RealtimeContract.v
SessionOpen.v
Replay.v
Realtime.v
RealtimeLog.v
RealtimeEnd.v
RealtimeCommands.v
RealtimeSettle.v
RealtimeManager.v
Sort.v
Grant.v
PublicRoutes.v
PublicPlan.v
Hedge.v
Sse.v
RealtimeParameters.v
Meter.v
InputTranscript.v
Redaction.v
RealtimeWire.v
Base64.v
Sha256.v
Lines.v
EdgeAuth.v
Authorize.v
Outbox.v
Settler.v
PublicLane.v
AudioBytes.v
AudioFrames.v
AudioBoxes.v
AudioProbe.v
RealtimeUpstream.v
ProviderConfig.v
Translated.v
ChatTranslate.v
StreamWatch.v
Reports.v
ChatStream.v
AnthropicStream.v
Anthropic.v
Withholding.v
Publisher.v
PublicText.v
PublicRequests.v
