(* ===== verification/Prelude.v ===== *)
(** * Kaana inference data plane: a verification development

    Kaana (the Go module under src/) serves inference requests.  Oxy decides who
    may spend and signs it, as a request with its ordered list of routes (the
    internal lane) or as a grant (the public lane); Kaana resolves what was
    signed against its inventory, asks circuit breakers whether a route may
    serve, leases an upstream credential, runs a provider adapter, frames what
    the adapter reports as one event stream, and settles the request with a
    usage report and an upstream-cost record.  Realtime sessions go through the
    same admission and settlement around a long-lived WebSocket.  This library
    models the code that decides and proves the properties it is built around.

    ** Conventions

    Go's strings are [string], byte for byte; [int] and [int64] are [Z] with
    [wrap64] where a sum or product is not bounded; a [time.Time] is a [Z] of
    nanoseconds since Go's zero time and a clock read is an argument; a pointer
    is an [option]; a slice is a list (an [option] of one where nil is told from
    empty); a map is a [gmap], and where Go's iteration order could show, the
    model says which order it takes.  Functions return [option] or a sum for an
    error, with the text of a refusal only where a decision reads it.  A mutex's
    critical section is one step; what other goroutines do between two of them
    is an argument (a list of operations or a function of the step), so a
    theorem holds for every interleaving.  What Kaana does not own (JSON codecs,
    HTTP, WebSocket, SQL drivers, Ed25519, other processes) is an argument: its
    outcome is given, and the laws a theorem needs of it are hypotheses stated
    beside it.  Of Ed25519 no more is assumed than its documentation says: an
    accepted signature was made by its key's holder over that very text, or is
    itself exhibited as a forgery.

    ** The files

    Foundations.  Prelude.v: integers, instants, sorting, chains of checks and
    the [checks]/[bool_cases] automation.  Text.v: UTF-8, UTF-16 lengths, spaces
    and JSON text.  Ids.v (contract/ids.go): the contract's grammars, run by
    derivatives of regular expressions.  Base64.v, Sha256.v, Lines.v: encodings,
    SHA-256, splitting and decimal text.  Sort.v: [sort.SliceStable].

    The contract (internal/contract).  Contract.v: vocabularies, errors, stream
    events, usage reports.  Request.v: the signed envelope and [Validate].
    Parameters.v, RealtimeContract.v, RealtimeParameters.v: parameter sets and
    the realtime wire.  PublicContract.v: the public error.  Grant.v: grants,
    settlements and their rules.

    Providers and money.  Provider.v, KeyPool.v (internal/provider): failures,
    funding, credential pools and the walk of one request over them.  Rotation.v
    (internal/rotation): circuit breakers.  CustomerLimit.v
    (internal/customerlimit): cooldowns of customer credentials.  ProviderCost.v,
    DecisionPrice.v, UsageEstimate.v: rate cards, prices and fallback usage.
    Adapter.v: the registry.  Inventory.v: the published rows and resolution.
    ProviderConfig.v: what each protocol and model serves.

    Execution (internal/kaana).  Routes.v: the signed list to candidates.
    Retry.v: classification and backoff.  Emitter.v: the event stream.
    Answers.v: decision answers.  Settle.v: an attempt's report.  Executor.v,
    ExecutorPermits.v, ExecutorReport.v: the loop over routes, its breakers'
    permits, and the agreement of report and stream.

    Realtime (internal/realtime, internal/kaana).  SessionOpen.v; Replay.v;
    Realtime.v with RealtimeLog.v, RealtimeEnd.v, RealtimeCommands.v,
    RealtimeSettle.v for its groups of properties; RealtimeManager.v; Meter.v;
    InputTranscript.v; RealtimeWire.v, RealtimeUpstream.v and Redaction.v
    (internal/provider/openairealtime).

    Adapters.  Hedge.v, Sse.v, ChatTranslate.v, ChatStream.v, Reports.v
    (internal/provider/openaicompat); Anthropic.v, AnthropicStream.v
    (internal/provider/anthropic), over Translated.v, what the two translations
    share; StreamWatch.v (internal/provider/stall.go).
    AudioBytes.v, AudioFrames.v, AudioBoxes.v, AudioProbe.v
    (internal/audioprobe): every container parser over checked reads.

    The edge.  EdgeAuth.v (internal/edgeauth): signatures.  Authorize.v,
    PublicRoutes.v with PublicPlan.v, PublicLane.v (internal/publicapi): the
    public lane's credential and grant, its resolution into routes, what the
    executor does with them and what is settled of it.
    Outbox.v and Settler.v (internal/publicapi/settle.go and
    internal/credentialstore with its migration 0022): the settlement of a
    granted request, written once and delivered until acknowledged.
    PublicRequests.v and PublicText.v (internal/publicapi/text.go and wire.go):
    what a public body asks and executes, and the answers it gets back, whole or
    streamed.

    The inventory (internal/publisher).  Withholding.v (withholding.go): when a
    deployment is left out and until when.  Publisher.v (snapshot.go,
    publisher.go, attribution.go, families.go): the snapshot that is built and
    the dates carried from one cycle to the next.

    ** What the theorems show

    Only what was signed is executed, with only the credentials and funding it
    names, in its order (Routes, Executor, SessionOpen, PublicPlan, Authorize,
    EdgeAuth); the loops end (Executor, KeyPool, AudioProbe); every stream is
    well formed and agrees with the report that is settled (Emitter, Settle,
    ExecutorReport, ChatStream, AnthropicStream, Replay, the Realtime files);
    every attempt is accounted, every settlement is kept and delivered, and all
    but an embedding's are shown valid (Settle, ProviderCost, Meter,
    RealtimeSettle, Outbox, Settler, PublicLane);
    breakers let one trial through and outages end (Rotation, ExecutorPermits);
    a public answer is the stream's, whole or streamed, and a refused one says
    no words (PublicText, PublicRequests);
    what is translated is exact (ChatTranslate, Anthropic, RealtimeWire,
    RealtimeUpstream), any audio is measured or refused and WAV and ADTS audio
    is measured exactly (AudioProbe); a published line keeps its reference and
    what is withheld comes back (Publisher, Withholding).  Where
    the code does something else than it says, a lemma exhibits it.

    ** Fuel and bounds

    The executor's loop takes [Executor.enough] turns of fuel, which
    [execute_terminates] shows is always enough; the key walk and the stream
    readers recurse on what they consume.  Parsers of audio recurse on the bytes
    left, and [AudioBytes.scan_yields] shows a scan never runs out.  A date is
    read off twelve months, which [every_day_ok] shows hold every day of a year,
    for the years 1 to 9999.  Other loops are structural.

    ** Not modelled

    HTTP handlers and JSON codecs (internal/httpapi, and those of
    internal/publicapi with its speech, transcription and realtime endpoints and
    its catalogue), SQL other than the settlement outbox, KMS and SSM, the
    publisher's discovery over HTTP with the metadata it observes, control-plane
    handlers, telemetry and logs, start-up and the conformance and fake test
    servers: input and output around the decisions above.  Of the adapters, the
    speech, transcription and decisions lanes are left out. *)

From Stdlib Require Export ZArith Lia.
From Stdlib Require Export Floats.SpecFloat Strings.Ascii.
From stdpp Require Export base tactics list gmap strings option sorting.

#[global] Set Default Goal Selector "!".
#[global] Unset Program Cases.

Declare Scope kaana_scope.
Delimit Scope kaana_scope with kaana.

(** String equality as the boolean test a Go [==] or [switch] performs. *)
Infix "=s" := String.eqb (at level 70, no associativity) : kaana_scope.
Open Scope kaana_scope.

(** ** Machine integers

    Go's [int64] (and [int] on the 64-bit targets Kaana is built for) as an
    integer in two's complement range, with its wrap-around written out. *)

Definition int64_max : Z := 9223372036854775807.
Definition int64_min : Z := -9223372036854775808.
Definition in_int64 (z : Z) : Prop := (int64_min <= z <= int64_max)%Z.

Definition wrap64 (z : Z) : Z := ((z + 2 ^ 63) mod 2 ^ 64 - 2 ^ 63)%Z.

(** Saturation to the [int64] range, as [time.Time.Sub] performs it. *)
Definition clamp64 (z : Z) : Z := Z.max int64_min (Z.min int64_max z).

(** ** Instants and durations

    A [time.Time] is the number of nanoseconds since Go's zero time
    (0001-01-01T00:00:00Z), so the zero value is [0]; a [time.Duration] is an
    [int64] number of nanoseconds. *)

Abbreviation Instant := Z (only parsing).
Abbreviation Duration := Z (only parsing).

Definition Nanosecond : Duration := 1.
Definition Millisecond : Duration := 1000000.
Definition Second : Duration := 1000000000.
Definition Minute : Duration := 60000000000.
Definition Hour : Duration := 3600000000000.

Definition IsZero (t : Instant) : bool := (t =? 0)%Z.
Definition Before (t u : Instant) : bool := (t <? u)%Z.
Definition After (t u : Instant) : bool := (u <? t)%Z.
Definition Add (t : Instant) (d : Duration) : Instant := (t + d)%Z.
Definition Sub (t u : Instant) : Duration := clamp64 (t - u).
(** [Duration.Milliseconds] truncates towards zero. *)
Definition Milliseconds (d : Duration) : Z := Z.quot d Millisecond.

(** ** float64

    IEEE 754 binary64 through the standard library's executable
    specification of floating-point arithmetic. *)

Abbreviation float64 := spec_float (only parsing).

Definition f64_of_Z (z : Z) : float64 := binary_normalize 53 1024 z 0 false.
Definition f64_add (x y : float64) : float64 := SFadd 53 1024 x y.
Definition f64_sub (x y : float64) : float64 := SFsub 53 1024 x y.
Definition f64_mul (x y : float64) : float64 := SFmul 53 1024 x y.
Definition f64_div (x y : float64) : float64 := SFdiv 53 1024 x y.

(** The conversion [int(f)]: truncation towards zero.  A value outside the
    range (which the language leaves to the implementation) is the amd64
    result, the smallest [int64]. *)
Definition f64_to_int (f : float64) : Z :=
  match f with
  | S754_zero _ => 0
  | S754_infinity _ | S754_nan => int64_min
  | S754_finite s m e =>
      let magnitude :=
        match e with
        | Z0 => Zpos m
        | Zpos p => (Zpos m * 2 ^ Zpos p)%Z
        | Zneg p => (Zpos m / 2 ^ Zpos p)%Z
        end in
      let signed := if s then (- magnitude)%Z else magnitude in
      if ((int64_min <=? signed) && (signed <=? int64_max))%Z then signed else int64_min
  end.

(** ** A state monad

    [ST S A] threads a state [S] through a computation that returns an [A]. *)

Definition ST (S A : Type) : Type := S -> A * S.

#[export] Instance ST_ret {S} : MRet (ST S) := fun A a s => (a, s).
#[export] Instance ST_bind {S} : MBind (ST S) :=
  fun A B f m s => let '(a, s') := m s in f a s'.

Definition st_get {S} : ST S S := fun s => (s, s).
Definition st_put {S} (s : S) : ST S unit := fun _ => (tt, s).
Definition st_modify {S} (f : S -> S) : ST S unit := fun s => (tt, f s).

(** ** Strings and closed vocabularies *)

(** [isMember] (internal/contract/request.go) over string-typed vocabularies. *)
Definition isMember (value : string) (allowed : list string) : bool :=
  existsb (String.eqb value) allowed.

(** Sorting by a string key, as [sort.Slice] with [<] on the key does; the
    sort is the standard merge sort. *)
Definition key_le {A} (key : A -> string) (x y : A) : Prop := String.le (key x) (key y).

#[export] Instance key_le_dec {A} (key : A -> string) : RelDecision (key_le key).
Proof. intros x y. unfold key_le. apply _. Defined.

#[export] Instance key_le_total {A} (key : A -> string) : Total (key_le key).
Proof. intros x y. unfold key_le. apply (total String.le). Qed.

Definition sort_by {A} (key : A -> string) (l : list A) : list A := merge_sort (key_le key) l.

Lemma StronglySorted_fmap {A B} (R : B -> B -> Prop) (f : A -> B) l :
  StronglySorted R (f <$> l) <-> StronglySorted (fun x y => R (f x) (f y)) l.
Proof.
  induction l as [|x l IH]; [split; constructor|]. rewrite fmap_cons.
  split; intros [Hs Hall]%StronglySorted_inv; constructor; try by apply IH.
  - by rewrite Forall_fmap in Hall.
  - by rewrite Forall_fmap.
Qed.

(** [sort.SliceStable] by an integer key: the stable sort is unique, and
    insertion computes it. *)
Fixpoint insert_by {A} (key : A -> Z) (x : A) (l : list A) : list A :=
  match l with
  | [] => [x]
  | y :: l' => if (key x <=? key y)%Z then x :: l else y :: insert_by key x l'
  end.

Definition sort_stable_by {A} (key : A -> Z) (l : list A) : list A := foldr (insert_by key) [] l.

(** ** Tactics *)

(** Split every [if], [match] and boolean test of the goal, closing what is
    contradictory. *)
Ltac bool_cases :=
  repeat match goal with
  | H : (_ && _)%bool = true |- _ => apply andb_true_iff in H as [? ?]
  | H : (_ || _)%bool = false |- _ => apply orb_false_iff in H as [? ?]
  | H : negb _ = true |- _ => apply negb_true_iff in H
  | H : negb _ = false |- _ => apply negb_false_iff in H
  | H : (_ =s _) = true |- _ => apply String.eqb_eq in H
  | H : (_ =s _) = false |- _ => apply String.eqb_neq in H
  | H : (_ <? _)%Z = true |- _ => apply Z.ltb_lt in H
  | H : (_ <? _)%Z = false |- _ => apply Z.ltb_ge in H
  | H : (_ <=? _)%Z = true |- _ => apply Z.leb_le in H
  | H : (_ <=? _)%Z = false |- _ => apply Z.leb_gt in H
  | H : (_ =? _)%Z = true |- _ => apply Z.eqb_eq in H
  | H : (_ =? _)%Z = false |- _ => apply Z.eqb_neq in H
  end.

Ltac split_ifs :=
  repeat (case_match; simplify_eq/=; bool_cases; try done).

(** Unfold the clock operations so that [lia] decides them. *)
Ltac time_lia :=
  unfold Before, After, Add, Sub, clamp64, int64_min, int64_max, IsZero, in_int64,
    Millisecond, Second, Minute, Hour in *; bool_cases; lia.

(** ** Lemmas the components share *)

Create HintDb kaana discriminated.
Create Rewrite HintDb kaana_rewrite.

Lemma wrap64_id z : in_int64 z -> wrap64 z = z.
Proof.
  unfold in_int64, int64_min, int64_max, wrap64. intros H.
  rewrite Z.mod_small; lia.
Qed.

Lemma wrap64_add_l a b : wrap64 (wrap64 a + b) = wrap64 (a + b).
Proof.
  unfold wrap64. f_equal.
  replace ((a + 2 ^ 63) mod 2 ^ 64 - 2 ^ 63 + b + 2 ^ 63)%Z with ((a + 2 ^ 63) mod 2 ^ 64 + b)%Z by lia.
  rewrite Z.add_mod_idemp_l by lia. f_equal. lia.
Qed.

Lemma wrap64_add_r a b : wrap64 (a + wrap64 b) = wrap64 (a + b).
Proof. by rewrite Z.add_comm, wrap64_add_l, Z.add_comm. Qed.

Lemma wrap64_range z : in_int64 (wrap64 z).
Proof.
  unfold in_int64, int64_min, int64_max, wrap64.
  pose proof (Z.mod_pos_bound (z + 2 ^ 63) (2 ^ 64) ltac:(lia)). lia.
Qed.

Lemma clamp64_id z : in_int64 z -> clamp64 z = z.
Proof. unfold in_int64, clamp64. lia. Qed.

Lemma Sub_id t u : in_int64 (t - u) -> Sub t u = (t - u)%Z.
Proof. apply clamp64_id. Qed.

Lemma isMember_spec value allowed : isMember value allowed = true <-> value ∈ allowed.
Proof.
  unfold isMember. rewrite existsb_exists. split.
  - intros (x & Hin & Heq). bool_cases. subst. by apply list_elem_of_In.
  - intros Hin. exists value. rewrite String.eqb_refl. split; [by apply list_elem_of_In | done].
Qed.

Lemma isMember_false value allowed : isMember value allowed = false <-> value ∉ allowed.
Proof. by rewrite <-not_true_iff_false, isMember_spec. Qed.

(** One step of a loop that refuses a key it has [seen] before. *)
Lemma seen_step {A} (f : A -> string) seen x xs :
  (NoDup (f <$> x :: xs) /\ Forall (fun y => f y ∉ seen) (x :: xs)) <->
  f x ∉ seen /\ NoDup (f <$> xs) /\ Forall (fun y => f y ∉ f x :: seen) xs.
Proof.
  rewrite fmap_cons, NoDup_cons, Forall_cons, list_elem_of_fmap, !Forall_forall. split.
  - intros [[Hx Hnd] [Hs Hxs]]. split_and!; try done. intros y Hy.
    rewrite not_elem_of_cons. split; [|auto]. intros Heq. apply Hx. by exists y.
  - intros (Hs & Hnd & Hxs). split_and!; try done.
    + intros (y & Heq & Hy). apply Hxs in Hy. rewrite not_elem_of_cons in Hy. by destruct Hy.
    + intros y Hy. apply Hxs in Hy. rewrite not_elem_of_cons in Hy. by destruct Hy.
Qed.

Lemma str_app_cons c (s1 s2 : string) : String c s1 +:+ s2 = String c (s1 +:+ s2).
Proof. done. Qed.

Lemma str_app_assoc (s1 s2 s3 : string) : (s1 +:+ s2) +:+ s3 = s1 +:+ s2 +:+ s3.
Proof. induction s1 as [|c s1 IH]; [done|]. change (String c ((s1 +:+ s2) +:+ s3) = String c (s1 +:+ s2 +:+ s3)). by rewrite IH. Qed.

Lemma str_app_nil_r (s : string) : s +:+ "" = s.
Proof. induction s as [|c s IH]; [done|]. change (String c (s +:+ "") = String c s). by rewrite IH. Qed.

Lemma sort_by_permutation {A} (key : A -> string) l : sort_by key l ≡ₚ l.
Proof. apply merge_sort_Permutation. Qed.

Lemma sort_by_sorted {A} (key : A -> string) l : Sorted (key_le key) (sort_by key l).
Proof. apply (Sorted_merge_sort _). Qed.

Lemma insert_by_permutation {A} (key : A -> Z) x l : insert_by key x l ≡ₚ x :: l.
Proof.
  induction l as [|y l IH]; simpl; [done|]. case_match; [done|].
  rewrite IH. apply Permutation_swap.
Qed.

Lemma sort_stable_by_permutation {A} (key : A -> Z) l : sort_stable_by key l ≡ₚ l.
Proof.
  induction l as [|x l IH]; simpl; [done|]. by rewrite insert_by_permutation, IH.
Qed.

Lemma sort_stable_by_sorted {A} (key : A -> Z) l :
  StronglySorted (fun x y => key x <= key y)%Z (sort_stable_by key l).
Proof.
  induction l as [|x l IH]; simpl; [constructor|].
  set (s := sort_stable_by key l) in *. fold s. clearbody s. clear l.
  induction IH as [|y s Hs IHs Hy]; simpl; [repeat constructor|].
  destruct (key x <=? key y)%Z eqn:E; bool_cases.
  - constructor; [by constructor|]. constructor; [done|].
    eapply Forall_impl; [exact Hy|]. simpl. lia.
  - constructor; [done|]. rewrite insert_by_permutation. constructor; [lia|done].
Qed.

(** Elements of one key keep their order. *)
Lemma sort_stable_by_stable {A} (key : A -> Z) k l :
  filter (fun x => key x = k) (sort_stable_by key l) = filter (fun x => key x = k) l.
Proof.
  induction l as [|x l IH]; [done|]. cbn [sort_stable_by foldr]. fold (sort_stable_by key l).
  pose proof (sort_stable_by_sorted key l) as Hs.
  rewrite filter_cons. rewrite <-IH. clear IH. set (s := sort_stable_by key l) in *. clearbody s.
  induction Hs as [|y s Hs IHs Hy]; simpl.
  - rewrite filter_cons, filter_nil. done.
  - destruct (key x <=? key y)%Z eqn:E; bool_cases.
    + rewrite (filter_cons _ x). done.
    + rewrite filter_cons, IHs, (filter_cons _ y). case_decide as Hyk; [|by case_decide].
      case_decide as Hxk; [lia|done].
Qed.

Lemma StronglySorted_impl_in {A} (R R' : A -> A -> Prop) l :
  (forall x y, x ∈ l -> y ∈ l -> R x y -> R' x y) -> StronglySorted R l -> StronglySorted R' l.
Proof.
  intros H Hs. induction Hs as [|x l Hs IH Hx]; constructor.
  - apply IH. intros y z Hy Hz. apply H; by apply elem_of_cons; right.
  - rewrite Forall_forall in Hx |- *. intros y Hy. apply H; [by apply elem_of_cons; left|by apply elem_of_cons; right|auto].
Qed.

Lemma StronglySorted_snoc {A} (R : A -> A -> Prop) l x :
  StronglySorted R l -> (forall y, y ∈ l -> R y x) -> StronglySorted R (l ++ [x]).
Proof.
  intros Hs Hx. apply StronglySorted_app_2; [|done|repeat constructor].
  intros y z Hy ->%list_elem_of_singleton. auto.
Qed.

#[export] Hint Resolve wrap64_range sort_by_permutation sort_by_sorted : kaana.
#[export] Hint Rewrite wrap64_id clamp64_id using (unfold in_int64, int64_min, int64_max in *; lia) : kaana_rewrite.

(** ** Chains of checks

    A validator returns the first refusal of a chain of checks, or nothing. *)

Definition refuse_if (refused : bool) (message : string) : option string :=
  if refused then Some message else None.

Definition or_else (first second : option string) : option string :=
  match first with Some refusal => Some refusal | None => second end.

Notation "c1 ;; c2" := (or_else c1 c2) (at level 100, c2 at level 200, right associativity) : kaana_scope.

(** [for _, x := range xs { if err := f(x); err != nil { return err } }]. *)
Fixpoint first_refusal {A} (f : A -> option string) (xs : list A) : option string :=
  match xs with [] => None | x :: xs => f x ;; first_refusal f xs end.

Definition validate_some {A} (f : A -> option string) (o : option A) : option string :=
  match o with Some x => f x | None => None end.

Lemma refuse_if_None b m : refuse_if b m = None <-> b = false.
Proof. by destruct b. Qed.

Lemma or_else_None c1 c2 : or_else c1 c2 = None <-> c1 = None /\ c2 = None.
Proof. destruct c1; naive_solver. Qed.

Lemma first_refusal_None {A} (f : A -> option string) xs :
  first_refusal f xs = None <-> Forall (fun x => f x = None) xs.
Proof.
  induction xs as [|x xs IH]; simpl; [done|]. by rewrite or_else_None, IH, Forall_cons.
Qed.

Lemma validate_some_None {A} (f : A -> option string) o :
  validate_some f o = None <-> forall x, o = Some x -> f x = None.
Proof. destruct o; simpl; naive_solver. Qed.

Create Rewrite HintDb kaana_checks.
#[export] Hint Rewrite @or_else_None refuse_if_None @first_refusal_None @validate_some_None
  orb_false_iff andb_false_iff negb_false_iff String.eqb_eq String.eqb_neq
  isMember_spec isMember_false Z.eqb_eq Z.eqb_neq Z.ltb_lt Z.ltb_ge Z.leb_le Z.leb_gt : kaana_checks.

(** Turn "every check of the chain passed" into the conjunction of what each
    check asks. *)
Ltac checks := autorewrite with kaana_checks in *.

(** ** Boolean filters *)

Lemma sublist_list_filter {A} (p : A -> bool) l : List.filter p l `sublist_of` l.
Proof. induction l as [|x l IH]; cbn; [constructor|]. destruct (p x); by constructor. Qed.

Lemma list_filter_fmap {A B} (f : A -> B) (p : B -> bool) l : List.filter p (f <$> l) = f <$> List.filter (fun x => p (f x)) l.
Proof. induction l as [|x l IH]; cbn; [done|]. by destruct (p (f x)); cbn; rewrite IH. Qed.

Lemma list_filter_and {A} (p q : A -> bool) l : List.filter (fun x => p x && q x) l = List.filter q (List.filter p l).
Proof. induction l as [|x l IH]; cbn; [done|]. destruct (p x); cbn; [|done]. by destruct (q x); rewrite IH. Qed.

Lemma list_filter_all {A} (p : A -> bool) l : Forall (fun x => p x = true) l -> List.filter p l = l.
Proof. induction 1 as [|x l Hx _ IH]; cbn; [done|]. by rewrite Hx, IH. Qed.

Lemma list_filter_none {A} (p : A -> bool) l : Forall (fun x => p x = false) l -> List.filter p l = [].
Proof. induction 1 as [|x l Hx _ IH]; cbn; [done|]. by rewrite Hx. Qed.

(** What holds of the first of a sorted list is a prefix of it. *)
Lemma sorted_filter_prefix {A} (R : A -> A -> Prop) (p : A -> bool) l :
  StronglySorted R l -> (forall x y, R x y -> p y = true -> p x = true) -> List.filter p l `prefix_of` l.
Proof.
  intros Hs Hp. induction Hs as [|x l _ IH Hx]; cbn; [done|]. destruct (p x) eqn:E; [by apply prefix_cons|].
  rewrite list_filter_none; [apply prefix_nil|]. eapply Forall_impl; [exact Hx|]. cbn. intros y Hy.
  destruct (p y) eqn:Ey; [|done]. rewrite (Hp x y Hy Ey) in E. done.
Qed.

Lemma StronglySorted_list_filter {A} (R : A -> A -> Prop) (p : A -> bool) l : StronglySorted R l -> StronglySorted R (List.filter p l).
Proof.
  induction 1 as [|x l _ IH Hx]; cbn; [constructor|]. destruct (p x); [|done]. constructor; [done|].
  apply Forall_forall. intros y Hy. apply list_elem_of_In, filter_In in Hy as [Hy _]. rewrite Forall_forall in Hx.
  by apply Hx, list_elem_of_In.
Qed.

Lemma fmap_prefix {A B} (f : A -> B) l k : l `prefix_of` k -> f <$> l `prefix_of` f <$> k.
Proof. intros [r ->]. rewrite fmap_app. by eexists. Qed.
