(* ===== verification/Rotation.v ===== *)
(** * Circuit breakers (internal/rotation)

    One breaker and one health score per deployment.  The registry is explicit
    state; the injected clock is the [now] argument each operation receives,
    one reading per call, as the code reads it.  A permit is a value the
    caller threads: [report] returns the permit with its [reported] flag set. *)

From S2P Require Import Prelude.

(** ** Data *)

Inductive State := StateClosed | StateOpen | StateHalfOpen.

#[export] Instance State_eq_dec : EqDecision State.
Proof. solve_decision. Defined.

Record Policy := mkPolicy {
  FailuresToOpen : Z;
  Cooldown : Duration;
  MaxCooldown : Duration;
  SuccessesToClose : Z;
  ScoreWeight : float64;
}.

(** 0.2 as the nearest binary64. *)
Definition f64_0_2 : float64 := S754_finite false 7205759403792794 (-55).
Definition f64_0_5 : float64 := S754_finite false 4503599627370496 (-53).
Definition f64_1 : float64 := f64_of_Z 1.
Definition f64_0 : float64 := S754_zero false.

Definition DefaultPolicy : Policy :=
  {| FailuresToOpen := 3;
     Cooldown := 5 * Second;
     MaxCooldown := 2 * Minute;
     SuccessesToClose := 1;
     ScoreWeight := f64_0_2 |}.

Record breaker := mkBreaker {
  state : State;
  consecutiveFailures : Z;
  trialSuccesses : Z;
  trialInFlight : bool;
  cooldown : Duration;
  probesAt : Instant;
  score : float64;
}.

Definition set_state (s : State) (b : breaker) : breaker :=
  mkBreaker s (consecutiveFailures b) (trialSuccesses b) (trialInFlight b) (cooldown b) (probesAt b) (score b).
Definition set_consecutiveFailures (n : Z) (b : breaker) : breaker :=
  mkBreaker (state b) n (trialSuccesses b) (trialInFlight b) (cooldown b) (probesAt b) (score b).
Definition set_trialSuccesses (n : Z) (b : breaker) : breaker :=
  mkBreaker (state b) (consecutiveFailures b) n (trialInFlight b) (cooldown b) (probesAt b) (score b).
Definition set_trialInFlight (f : bool) (b : breaker) : breaker :=
  mkBreaker (state b) (consecutiveFailures b) (trialSuccesses b) f (cooldown b) (probesAt b) (score b).
Definition set_cooldown (d : Duration) (b : breaker) : breaker :=
  mkBreaker (state b) (consecutiveFailures b) (trialSuccesses b) (trialInFlight b) d (probesAt b) (score b).
Definition set_probesAt (t : Instant) (b : breaker) : breaker :=
  mkBreaker (state b) (consecutiveFailures b) (trialSuccesses b) (trialInFlight b) (cooldown b) t (score b).
Definition set_score (s : float64) (b : breaker) : breaker :=
  mkBreaker (state b) (consecutiveFailures b) (trialSuccesses b) (trialInFlight b) (cooldown b) (probesAt b) s.

Record Registry := mkRegistry { policy : Policy; breakers : gmap string breaker }.

Definition set_breakers (m : gmap string breaker) (r : Registry) : Registry :=
  mkRegistry (policy r) m.

Record Permit := mkPermit { permit_id : string; trial : bool; reported : bool }.

Inductive outcome := outcomeServed | outcomeFailed | outcomeIrrelevant.

#[export] Instance outcome_eq_dec : EqDecision outcome.
Proof. solve_decision. Defined.

(** ** Operations *)

Definition maxDuration (a b : Duration) : Duration := if (b <? a)%Z then a else b.

Definition NewRegistry (policy : Policy) : Registry :=
  let defaults := DefaultPolicy in
  let failuresToOpen :=
    if (FailuresToOpen policy <=? 0)%Z then FailuresToOpen defaults else FailuresToOpen policy in
  let cooldown := if (Cooldown policy <=? 0)%Z then Cooldown defaults else Cooldown policy in
  let maxCooldown :=
    if (MaxCooldown policy <? cooldown)%Z
    then maxDuration (MaxCooldown defaults) cooldown else MaxCooldown policy in
  let successesToClose :=
    if (SuccessesToClose policy <=? 0)%Z then SuccessesToClose defaults else SuccessesToClose policy in
  let scoreWeight :=
    if SFleb (ScoreWeight policy) f64_0 || SFltb f64_1 (ScoreWeight policy)
    then ScoreWeight defaults else ScoreWeight policy in
  mkRegistry (mkPolicy failuresToOpen cooldown maxCooldown successesToClose scoreWeight) ∅.

Definition new_breaker : breaker := mkBreaker StateClosed 0 0 false 0 0 f64_1.

Definition breakerLocked (id : string) (r : Registry) : breaker * Registry :=
  match breakers r !! id with
  | Some entry => (entry, r)
  | None => (new_breaker, set_breakers (<[id := new_breaker]> (breakers r)) r)
  end.

(** A permit and the answer [Admit] gives; no permit is a refusal. *)
Definition Admit (now : Instant) (id : string) (r : Registry) : option Permit * Registry :=
  let '(entry, r) := breakerLocked id r in
  let write e := set_breakers (<[id := e]> (breakers r)) r in
  match state entry with
  | StateClosed => (Some (mkPermit id false false), r)
  | StateOpen =>
      if Before now (probesAt entry) then (None, r)
      else (Some (mkPermit id true false),
            write (set_trialInFlight true (set_trialSuccesses 0 (set_state StateHalfOpen entry))))
  | StateHalfOpen =>
      if trialInFlight entry then (None, r)
      else (Some (mkPermit id true false), write (set_trialInFlight true entry))
  end.

Definition blend (p : Policy) (current observed : float64) : float64 :=
  f64_add (f64_mul current (f64_sub f64_1 (ScoreWeight p))) (f64_mul observed (ScoreWeight p)).

Definition escalate (p : Policy) (current : Duration) : Duration :=
  if (current <=? 0)%Z then Cooldown p
  else
    let doubled := wrap64 (current * 2) in
    if (MaxCooldown p <? doubled)%Z then MaxCooldown p else doubled.

(** The body of [record] on the breaker it looked up. *)
Definition record_entry (p : Policy) (now : Instant) (trial : bool) (result : outcome)
    (entry : breaker) : breaker :=
  let entry := if trial then set_trialInFlight false entry else entry in
  match result with
  | outcomeIrrelevant => entry
  | outcomeServed =>
      let entry := set_consecutiveFailures 0 (set_score (blend p (score entry) f64_1) entry) in
      if negb trial then entry
      else
        let entry := set_trialSuccesses (trialSuccesses entry + 1) entry in
        if (SuccessesToClose p <=? trialSuccesses entry)%Z
        then set_cooldown 0 (set_trialSuccesses 0 (set_state StateClosed entry))
        else entry
  | outcomeFailed =>
      let entry := set_score (blend p (score entry) f64_0) entry in
      let entry := set_consecutiveFailures (consecutiveFailures entry + 1) entry in
      let open entry :=
        let entry := set_cooldown (escalate p (cooldown entry)) entry in
        set_probesAt (Add now (cooldown entry)) (set_state StateOpen entry) in
      if trial then set_trialSuccesses 0 (open entry)
      else if (FailuresToOpen p <=? consecutiveFailures entry)%Z then open entry
      else entry
  end.

Definition record (now : Instant) (id : string) (trial : bool) (result : outcome)
    (r : Registry) : Registry :=
  let '(entry, r) := breakerLocked id r in
  set_breakers (<[id := record_entry (policy r) now trial result entry]> (breakers r)) r.

(** [Permit.report]; [None] is the nil permit. *)
Definition report (now : Instant) (result : outcome) (p : option Permit) (r : Registry)
    : option Permit * Registry :=
  match p with
  | None => (None, r)
  | Some p =>
      if reported p then (Some p, r)
      else (Some (mkPermit (permit_id p) (trial p) true),
            record now (permit_id p) (trial p) result r)
  end.

Definition Succeeded now p r := report now outcomeServed p r.
Definition Failed now p r := report now outcomeFailed p r.
Definition NotAttributable now p r := report now outcomeIrrelevant p r.

Definition soonest_step (m : gmap string breaker) (at_ : Instant) (acc : Duration * bool) (id : string)
    : Duration * bool :=
  let '(soonest, found) := acc in
  match m !! id with
  | None => acc
  | Some entry =>
      let wait := Sub (probesAt entry) at_ in
      let wait := if (wait <? 0)%Z then 0%Z else wait in
      if negb found || (wait <? soonest)%Z then (wait, true) else acc
  end.

Definition SoonestProbe (ids : list string) (at_ : Instant) (r : Registry) : Duration * bool :=
  foldl (soonest_step (breakers r) at_) (0%Z, false) ids.

Record Health := mkHealth {
  DeploymentID : string;
  health_state : State;
  Score : float64;
  health_consecutiveFailures : Z;
  ProbesAt : option Instant;
}.

Definition roundScore (score : float64) : float64 :=
  f64_div (f64_of_Z (f64_to_int (f64_add (f64_mul score (f64_of_Z 1000)) f64_0_5))) (f64_of_Z 1000).

Definition project_entry (id : string) (entry : breaker) : Health :=
  {| DeploymentID := id;
     health_state := state entry;
     Score := roundScore (score entry);
     health_consecutiveFailures := consecutiveFailures entry;
     ProbesAt := if decide (state entry = StateClosed) then None else Some (probesAt entry) |}.

Fixpoint Project (ids : list string) (r : Registry) : list Health * Registry :=
  match ids with
  | [] => ([], r)
  | id :: rest =>
      let '(entry, r) := breakerLocked id r in
      let '(projected, r) := Project rest r in
      (project_entry id entry :: projected, r)
  end.

Definition Retain (known : list string) (r : Registry) : Registry :=
  set_breakers (filter (fun kv => kv.1 ∈ known) (breakers r)) r.

(** ** Executions

    One registry shared by many requests: [Admit] hands out permits and each
    outstanding permit may be reported, in any order and at any time. *)

Record Sys := mkSys { sys_registry : Registry; sys_permits : list Permit }.

Inductive Action :=
| AdmitAction (now : Instant) (id : string)
| ReportAction (now : Instant) (index : nat) (result : outcome)
| ProjectAction (ids : list string)
| RetainAction (known : list string).

Definition exec (a : Action) (s : Sys) : Sys :=
  match a with
  | AdmitAction now id =>
      let '(p, r) := Admit now id (sys_registry s) in
      mkSys r (sys_permits s ++ option_list p)
  | ReportAction now i result =>
      let '(p, r) := report now result (sys_permits s !! i) (sys_registry s) in
      mkSys r (match p with Some p => <[i := p]> (sys_permits s) | None => sys_permits s end)
  | ProjectAction ids => mkSys (Project ids (sys_registry s)).2 (sys_permits s)
  | RetainAction known => mkSys (Retain known (sys_registry s)) (sys_permits s)
  end.

Definition run (actions : list Action) (s : Sys) : Sys := foldl (fun s a => exec a s) s actions.
Definition init (p : Policy) : Sys := mkSys (NewRegistry p) [].

Definition entry_of (id : string) (r : Registry) : breaker := default new_breaker (breakers r !! id).

(** The trial permits of [id] whose outcome has not been reported yet. *)
Definition is_outstanding (id : string) (p : Permit) : bool :=
  (permit_id p =s id) && trial p && negb (reported p).
Definition outstanding (id : string) (ps : list Permit) : nat :=
  length (filter (fun p => is_outstanding id p = true) ps).

(** A step of an execution in which no permit admitted while the breaker was
    closed reports a failure after the breaker has left the closed state, and
    no snapshot drops the deployment. *)
Definition quiet (id : string) (s : Sys) (a : Action) : Prop :=
  match a with
  | ReportAction _ i outcomeFailed =>
      forall p, sys_permits s !! i = Some p -> permit_id p = id -> trial p = false ->
        reported p = false -> state (entry_of id (sys_registry s)) = StateClosed
  | RetainAction known => id ∈ known
  | _ => True
  end.

Inductive quiet_reachable (id : string) (p : Policy) : Sys -> Prop :=
| quiet_init : quiet_reachable id p (init p)
| quiet_step s a : quiet_reachable id p s -> quiet id s a -> quiet_reachable id p (exec a s).

(** The latest clock reading of an action list is at most [t]. *)
Definition action_before (t : Instant) (a : Action) : Prop :=
  match a with
  | AdmitAction now _ | ReportAction now _ _ => (now <= t)%Z
  | _ => True
  end.

(** The declarative reading of "consecutive attributable failures": a stretch
    of outcomes that holds [n] failures and no served request. *)
Definition failing_stretch (n : Z) (results : list outcome) : Prop :=
  exists before stretch after, (results = before ++ stretch ++ after) /\
    (outcomeServed ∉ stretch) /\
    (n <= Z.of_nat (length (filter (fun o => o = outcomeFailed) stretch)))%Z.

(** The outcomes of ordinary (non-trial) permits, folded over one breaker. *)
Definition record_all (p : Policy) (entry : breaker) (results : list (Instant * outcome)) : breaker :=
  foldl (fun e tr => record_entry p tr.1 false tr.2 e) entry results.

(** A policy as [NewRegistry] leaves it. *)
Definition normalized (p : Policy) : Prop :=
  (0 < FailuresToOpen p /\ 0 < Cooldown p <= MaxCooldown p /\ 0 < SuccessesToClose p)%Z.

(** ** Lemmas on single operations *)

Lemma breakerLocked_spec id r :
  breakerLocked id r =
    (entry_of id r, set_breakers (<[id := entry_of id r]> (breakers r)) r).
Proof.
  unfold breakerLocked, entry_of. destruct r as [p m]; simpl.
  destruct (m !! id) as [b|] eqn:H; simpl; [|done].
  unfold set_breakers; simpl. by rewrite insert_id.
Qed.

Lemma entry_of_insert id id' b r :
  entry_of id' (set_breakers (<[id := b]> (breakers r)) r) =
    if decide (id = id') then b else entry_of id' r.
Proof. unfold entry_of; simpl. rewrite lookup_insert. by case_decide. Qed.

(** Writing one breaker back, which is all any operation does to the store. *)
Definition put (id : string) (b : breaker) (r : Registry) : Registry :=
  set_breakers (<[id := b]> (breakers r)) r.

Lemma entry_of_put id id' b r :
  entry_of id' (put id b r) = if decide (id = id') then b else entry_of id' r.
Proof. apply entry_of_insert. Qed.

Lemma policy_put id b r : policy (put id b r) = policy r.
Proof. done. Qed.

Lemma put_put id b b' r : put id b (put id b' r) = put id b r.
Proof. unfold put, set_breakers; simpl. by rewrite insert_insert_eq. Qed.

#[export] Hint Rewrite entry_of_put policy_put put_put : kaana_rewrite.

Lemma record_spec now id t result r :
  record now id t result r = put id (record_entry (policy r) now t result (entry_of id r)) r.
Proof.
  unfold record. rewrite breakerLocked_spec. unfold put, set_breakers; simpl.
  by rewrite insert_insert_eq.
Qed.

(** What [Admit] answers, and the breaker it leaves, as a function of the
    breaker it finds. *)
Definition admit_entry (now : Instant) (b : breaker) : option bool * breaker :=
  match state b with
  | StateClosed => (Some false, b)
  | StateOpen =>
      if Before now (probesAt b) then (None, b)
      else (Some true, set_trialInFlight true (set_trialSuccesses 0 (set_state StateHalfOpen b)))
  | StateHalfOpen =>
      if trialInFlight b then (None, b) else (Some true, set_trialInFlight true b)
  end.

Lemma Admit_spec now id r :
  Admit now id r =
    ((fun t => mkPermit id t false) <$> (admit_entry now (entry_of id r)).1,
     put id (admit_entry now (entry_of id r)).2 r).
Proof.
  unfold Admit, admit_entry. rewrite breakerLocked_spec.
  unfold put, set_breakers; simpl.
  destruct (state (entry_of id r)); [|case_match|case_match]; simpl;
    by rewrite ?insert_insert_eq.
Qed.

Lemma Project_entry_of ids id r : entry_of id (Project ids r).2 = entry_of id r.
Proof.
  revert r. induction ids as [|i ids IH]; intros r; simpl; [done|].
  rewrite breakerLocked_spec. specialize (IH (put i (entry_of i r) r)). unfold put in IH.
  destruct (Project ids _) as [l r'] eqn:E; simpl in *. rewrite IH.
  rewrite entry_of_insert. by case_decide; subst.
Qed.

Lemma Project_policy ids r : policy (Project ids r).2 = policy r.
Proof.
  revert r. induction ids as [|i ids IH]; intros r; simpl; [done|].
  rewrite breakerLocked_spec. specialize (IH (put i (entry_of i r) r)). unfold put in IH.
  destruct (Project ids _) as [l r'] eqn:E; simpl in *. by rewrite IH.
Qed.

Lemma Retain_entry_of known id r : id ∈ known -> entry_of id (Retain known r) = entry_of id r.
Proof.
  intros Hin. unfold entry_of, Retain; simpl. rewrite map_lookup_filter.
  destruct (breakers r !! id); simpl; [|done].
  by rewrite option_guard_True.
Qed.

Lemma Retain_dropped known id r : id ∉ known -> entry_of id (Retain known r) = new_breaker.
Proof.
  intros Hin. unfold entry_of, Retain; simpl. rewrite map_lookup_filter.
  destruct (breakers r !! id); simpl; [|done].
  by rewrite option_guard_False.
Qed.

Lemma report_spec now result p r :
  reported p = false ->
  report now result (Some p) r =
    (Some (mkPermit (permit_id p) (trial p) true),
     put (permit_id p) (record_entry (policy r) now (trial p) result (entry_of (permit_id p) r)) r).
Proof. intros H. unfold report. by rewrite H, record_spec. Qed.

(** ** The half-open trial *)

Lemma outstanding_app id ps qs :
  outstanding id (ps ++ qs) = (outstanding id ps + outstanding id qs)%nat.
Proof. unfold outstanding. by rewrite filter_app, length_app. Qed.

Lemma outstanding_nil id : outstanding id [] = 0%nat.
Proof. done. Qed.

Lemma outstanding_single id p : outstanding id [p] = Nat.b2n (is_outstanding id p).
Proof. unfold outstanding. rewrite filter_cons, filter_nil. by destruct (is_outstanding id p). Qed.

Lemma outstanding_cons id p ps :
  outstanding id (p :: ps) = (Nat.b2n (is_outstanding id p) + outstanding id ps)%nat.
Proof. change (p :: ps) with ([p] ++ ps). by rewrite outstanding_app, outstanding_single. Qed.

Lemma outstanding_insert id ps i p q :
  ps !! i = Some p ->
  (outstanding id (<[i := q]> ps) + Nat.b2n (is_outstanding id p) =
   outstanding id ps + Nat.b2n (is_outstanding id q))%nat.
Proof.
  intros Hi. pose proof (lookup_lt_Some _ _ _ Hi) as Hlt.
  rewrite <- (take_drop_middle ps i p Hi) at 2.
  rewrite insert_take_drop by done.
  rewrite !outstanding_app.
  rewrite !outstanding_cons. lia.
Qed.

(** One breaker against the number of its outstanding trial permits. *)
Definition trial_inv (b : breaker) (n : nat) : Prop :=
  (n <= 1)%nat /\ (trialInFlight b = true <-> n = 1%nat) /\ (n = 1%nat -> state b = StateHalfOpen).

Lemma trial_inv_idle b n :
  trial_inv b n -> state b <> StateHalfOpen \/ trialInFlight b = false -> n = 0%nat.
Proof.
  intros (Hle & Hiff & Hst) Hidle. destruct n as [|[|n]]; [done| |lia].
  destruct Hidle as [Hs|Hf]; [by specialize (Hst eq_refl)|].
  destruct Hiff as [_ Hiff]. rewrite Hiff in Hf by done. done.
Qed.

Lemma trial_inv_admit now b n :
  trial_inv b n ->
  trial_inv (admit_entry now b).2
    (n + match (admit_entry now b).1 with Some true => 1 | _ => 0 end)%nat.
Proof.
  intros H. pose proof (trial_inv_idle b n H) as Hidle. unfold admit_entry.
  destruct (state b) eqn:E; [by rewrite Nat.add_0_r|..].
  - rewrite Hidle in H |- * by (by left).
    destruct (Before now (probesAt b)); simpl; [done|].
    unfold trial_inv; simpl. split_and!; [lia|done|done].
  - destruct (trialInFlight b) eqn:F; simpl; [by rewrite Nat.add_0_r|].
    rewrite Hidle by (by right). unfold trial_inv; simpl. split_and!; [lia|done|done].
Qed.

Lemma trial_inv_record p now t result b n :
  trial_inv b n ->
  (t = true -> n = 1%nat) ->
  (t = false -> result = outcomeFailed -> state b = StateClosed) ->
  trial_inv (record_entry p now t result b) (n - Nat.b2n t)%nat.
Proof.
  intros H Ht Hquiet. pose proof (trial_inv_idle b n H) as Hidle.
  destruct t; simpl.
  - rewrite (Ht eq_refl). simpl.
    destruct result; simpl; [case_match|..]; unfold trial_inv; simpl; (split_and!; [lia|done|done]).
  - rewrite Nat.sub_0_r. destruct result; simpl; [done| |done].
    rewrite Hidle in H |- * by (left; by rewrite Hquiet).
    destruct H as (_ & Hf & _). case_match; unfold trial_inv; simpl; (split_and!; [lia|done|done]).
Qed.

Lemma is_outstanding_true id p :
  is_outstanding id p = true <-> permit_id p = id /\ trial p = true /\ reported p = false.
Proof.
  unfold is_outstanding. rewrite !andb_true_iff, negb_true_iff, String.eqb_eq. tauto.
Qed.

Lemma outstanding_reported id ps i p q :
  ps !! i = Some p -> reported q = true ->
  outstanding id (<[i := q]> ps) = (outstanding id ps - Nat.b2n (is_outstanding id p))%nat.
Proof.
  intros Hi Hq. pose proof (outstanding_insert id ps i p q Hi) as H.
  assert (is_outstanding id q = false) as Hf.
  { unfold is_outstanding. rewrite Hq. by rewrite andb_false_r. }
  rewrite Hf in H. simpl in H. lia.
Qed.

Lemma outstanding_pos id ps i p :
  ps !! i = Some p -> is_outstanding id p = true -> (0 < outstanding id ps)%nat.
Proof.
  intros Hi Hp. pose proof (outstanding_insert id ps i p (mkPermit id false true) Hi) as H.
  assert (is_outstanding id (mkPermit id false true) = false) as Hq
    by (unfold is_outstanding; simpl; by rewrite !andb_false_r).
  rewrite Hp, Hq in H. simpl in H. lia.
Qed.

Lemma quiet_inv id p s :
  quiet_reachable id p s ->
  trial_inv (entry_of id (sys_registry s)) (outstanding id (sys_permits s)).
Proof.
  induction 1 as [|s a _ IH Hq]; [simpl; rewrite outstanding_nil; unfold trial_inv; simpl; by (split_and!; [lia|..])|].
  destruct a as [now id'|now i result|ids|known]; simpl in *.
  - rewrite Admit_spec. simpl. rewrite entry_of_put, outstanding_app.
    case_decide as Hid; subst.
    + pose proof (trial_inv_admit now _ _ IH) as H.
      destruct (admit_entry now _) as [[[]|] b']; simpl in *;
        unfold outstanding at 2, is_outstanding; rewrite ?filter_cons, ?filter_nil; simpl;
        rewrite ?String.eqb_refl; simpl; exact H.
    + destruct (admit_entry now _) as [[t|] b']; simpl; [|by rewrite Nat.add_0_r].
      rewrite outstanding_single. unfold is_outstanding; simpl.
      rewrite (proj2 (String.eqb_neq _ _)) by done. simpl. by rewrite Nat.add_0_r.
  - destruct (sys_permits s !! i) as [q|] eqn:Hi; [|done].
    destruct (reported q) eqn:Hr.
    { unfold report. rewrite Hr. simpl. by rewrite list_insert_id. }
    rewrite report_spec by done. simpl. rewrite entry_of_put.
    rewrite (outstanding_reported id _ i q) by done.
    case_decide as Hid.
    + assert (is_outstanding id q = trial q) as ->.
      { unfold is_outstanding. rewrite Hr, Hid, String.eqb_refl. by destruct (trial q). }
      rewrite Hid. apply trial_inv_record; [done|..].
      * intros Ht. destruct IH as (Hle & _).
        pose proof (outstanding_pos id _ i q Hi) as Hpos.
        rewrite is_outstanding_true in Hpos. specialize (Hpos (conj Hid (conj Ht Hr))). lia.
      * intros Ht ->. by apply (Hq q).
    + assert (is_outstanding id q = false) as ->.
      { unfold is_outstanding. by rewrite (proj2 (String.eqb_neq _ _)). }
      simpl. by rewrite Nat.sub_0_r.
  - by rewrite Project_entry_of.
  - by rewrite Retain_entry_of.
Qed.

(** ** Cooldowns *)

Lemma escalate_bounds p d :
  normalized p -> (MaxCooldown p < 2 ^ 62)%Z -> (d = 0 \/ Cooldown p <= d <= MaxCooldown p)%Z ->
  (Cooldown p <= escalate p d <= MaxCooldown p)%Z.
Proof.
  unfold normalized, escalate. intros (_ & Hc & _) Hmax Hd.
  case_match; bool_cases; [lia|].
  rewrite wrap64_id by (unfold in_int64, int64_min, int64_max; lia).
  case_match; bool_cases; lia.
Qed.

(** What holds of a breaker whose failures were all recorded by instant [t]. *)
Definition cooldown_inv (p : Policy) (t : Instant) (b : breaker) : Prop :=
  (cooldown b = 0 \/ Cooldown p <= cooldown b <= MaxCooldown p)%Z /\
  (state b = StateOpen -> (probesAt b <= t + MaxCooldown p)%Z) /\
  (state b <> StateClosed -> (Cooldown p <= cooldown b)%Z).

Lemma cooldown_inv_new p t : cooldown_inv p t new_breaker.
Proof. by split_and!; [left|..]. Qed.

Lemma cooldown_inv_admit p t now b :
  cooldown_inv p t b -> cooldown_inv p t (admit_entry now b).2.
Proof.
  unfold cooldown_inv, admit_entry. intros (Hc & Hp & Hs).
  destruct (state b) eqn:E; [|case_match|case_match]; simpl; rewrite ?E;
    (split_and!; [done|try done; tauto|intros ?; by apply Hs]).
Qed.

Lemma cooldown_inv_record p t now tr result b :
  normalized p -> (MaxCooldown p < 2 ^ 62)%Z -> (now <= t)%Z ->
  cooldown_inv p t b -> cooldown_inv p t (record_entry p now tr result b).
Proof.
  intros Hn Hmax Hnow (Hc & Hp & Hs).
  pose proof (escalate_bounds p (cooldown b) Hn Hmax Hc) as He.
  assert (cooldown_inv p t b) as Hb by done.
  assert (forall f, cooldown_inv p t (set_trialInFlight f b)) as Hf by done.
  destruct tr, result; simpl; try (case_match; simpl); try done;
    unfold cooldown_inv; simpl; split_and!; try done; try (by left);
    try (by right); unfold Add; intros; lia.
Qed.

Lemma NewRegistry_normalized p : normalized (policy (NewRegistry p)).
Proof.
  unfold NewRegistry, normalized, maxDuration, DefaultPolicy; simpl.
  repeat case_match; bool_cases; unfold Second, Minute in *; split_and!; lia.
Qed.

Lemma exec_policy a s : policy (sys_registry (exec a s)) = policy (sys_registry s).
Proof.
  destruct a as [now id|now i result|ids|known]; simpl.
  - rewrite Admit_spec. by destruct (admit_entry _ _) as [[t|] b].
  - destruct (sys_permits s !! i) as [q|]; [|done].
    destruct (reported q) eqn:Hr; [unfold report; by rewrite Hr|].
    by rewrite report_spec.
  - apply Project_policy.
  - done.
Qed.

(** An operation on one deployment, or a snapshot that keeps another, leaves
    the other's breaker alone. *)
Definition concerns (id : string) (s : Sys) (a : Action) : Prop :=
  match a with
  | AdmitAction _ id' => id' = id
  | ReportAction _ i _ => exists p, sys_permits s !! i = Some p /\ permit_id p = id
  | ProjectAction _ => False
  | RetainAction known => id ∉ known
  end.

Lemma exec_other id a s :
  ~ concerns id s a -> entry_of id (sys_registry (exec a s)) = entry_of id (sys_registry s).
Proof.
  destruct a as [now id'|now i result|ids|known]; simpl; intros Hc.
  - rewrite Admit_spec. destruct (admit_entry _ _) as [[t|] b]; simpl;
      rewrite entry_of_put; by case_decide.
  - destruct (sys_permits s !! i) as [q|] eqn:Hi; [|done].
    destruct (reported q) eqn:Hr; [unfold report; by rewrite Hr|].
    rewrite report_spec by done. simpl. rewrite entry_of_put.
    case_decide; [|done]. exfalso. apply Hc. by exists q.
  - apply Project_entry_of.
  - destruct (decide (id ∈ known)); [by apply Retain_entry_of|done].
Qed.

(** What [exec] does to the one breaker it may change. *)
Lemma exec_entry (P : breaker -> Prop) id a s :
  let b := entry_of id (sys_registry s) in
  P b -> P new_breaker ->
  (forall now, a = AdmitAction now id -> P (admit_entry now b).2) ->
  (forall now i result t, a = ReportAction now i result ->
     P (record_entry (policy (sys_registry s)) now t result b)) ->
  P (entry_of id (sys_registry (exec a s))).
Proof.
  intros b Hb Hnew Hadmit Hrecord. unfold b in *. clear b.
  destruct a as [now id'|now i result|ids|known]; simpl.
  - rewrite Admit_spec. destruct (admit_entry _ _) as [o b'] eqn:E; simpl.
    rewrite entry_of_put. case_decide as Hid; [|done]. subst.
    specialize (Hadmit now eq_refl). by rewrite E in Hadmit.
  - destruct (sys_permits s !! i) as [q|] eqn:Hi; [|done].
    destruct (reported q) eqn:Hr; [unfold report; by rewrite Hr|].
    rewrite report_spec by done. simpl. rewrite entry_of_put.
    case_decide as Hid; [|done]. rewrite Hid. by eapply Hrecord.
  - by rewrite Project_entry_of.
  - destruct (decide (id ∈ known)).
    + by rewrite Retain_entry_of.
    + by rewrite Retain_dropped.
Qed.

Lemma run_cooldown_inv p t id acts :
  (MaxCooldown (policy (NewRegistry p)) < 2 ^ 62)%Z ->
  Forall (action_before t) acts ->
  let s := run acts (init p) in
  policy (sys_registry s) = policy (NewRegistry p) /\
  cooldown_inv (policy (NewRegistry p)) t (entry_of id (sys_registry s)).
Proof.
  intros Hmax Hacts. unfold run.
  induction acts as [|a acts IHacts] using rev_ind.
  { split; [done|]. apply cooldown_inv_new. }
  apply Forall_app in Hacts as [Hacts Ha]. specialize (IHacts Hacts) as [IHp IH].
  apply Forall_cons in Ha as [Ha _]. rewrite foldl_snoc.
  split; [by rewrite exec_policy|].
  apply exec_entry; [done|apply cooldown_inv_new| |].
  - intros now _. by apply cooldown_inv_admit.
  - intros now i result tr ->. rewrite IHp. simpl in Ha.
    apply cooldown_inv_record; [apply NewRegistry_normalized|done..].
Qed.

(** ** Consecutive failures *)

Lemma record_all_open p entry l :
  state entry = StateOpen -> state (record_all p entry l) = StateOpen.
Proof.
  revert entry. induction l as [|[now r] l IH]; intros entry H; [done|].
  apply IH. destruct r; simpl; [done| |done]. by case_match.
Qed.

Definition failures (l : list outcome) : Z :=
  Z.of_nat (length (filter (fun o => o = outcomeFailed) l)).

Lemma failures_cons o l :
  failures (o :: l) = ((if decide (o = outcomeFailed) then 1 else 0) + failures l)%Z.
Proof. unfold failures. rewrite filter_cons. case_decide; simpl; lia. Qed.

Lemma failures_nonneg l : (0 <= failures l)%Z.
Proof. unfold failures. lia. Qed.

Ltac not_served :=
  rewrite ?not_elem_of_cons; split_and?; first [done | apply not_elem_of_nil].

(** The stretch may have started [k] failures before the list. *)
Definition failing_from (n k : Z) (l : list outcome) : Prop :=
  failing_stretch n l \/
  exists stretch after, l = stretch ++ after /\ (outcomeServed ∉ stretch) /\ (n <= k + failures stretch)%Z.

Lemma failing_stretch_cons n o l :
  failing_stretch n l -> failing_stretch n (o :: l).
Proof. intros (b & s & a & -> & Hs & Hn). exists (o :: b), s, a. done. Qed.

Lemma failing_from_cons n k o l :
  (0 <= k < n)%Z ->
  failing_from n k (o :: l) <->
  match o with
  | outcomeServed => failing_from n 0 l
  | outcomeFailed => (n <= k + 1)%Z \/ failing_from n (k + 1) l
  | outcomeIrrelevant => failing_from n k l
  end.
Proof.
  intros Hk. unfold failing_from. split.
  - (* a stretch of the longer list, by where it begins *)
    intros [(b & s & a & Heq & Hs & Hn)|(s & a & Heq & Hs & Hn)].
    + destruct b as [|o' b]; simplify_eq/=.
      * destruct s as [|o' s]; simplify_eq/=; [unfold failures in *; simpl in *; lia|].
        fold (failures (o' :: s)) in Hn. rewrite failures_cons in Hn.
        apply not_elem_of_cons in Hs as [Ho Hs].
        destruct o'; case_decide; try done; [right|]; right; exists s, a; (split_and!; [done..|lia]).
      * destruct o'; [|right|]; left; by exists b, s, a.
    + destruct s as [|o' s]; simplify_eq/=; [unfold failures in *; simpl in *; lia|].
      rewrite failures_cons in Hn. apply not_elem_of_cons in Hs as [Ho Hs].
      destruct o'; case_decide; try done; [right|]; right; exists s, a; (split_and!; [done..|lia]).
  - destruct o.
    + intros [H|(s & a & -> & Hs & Hn)]; left; [by apply failing_stretch_cons|].
      exists [outcomeServed], s, a. split_and!; [done..|]. fold (failures s). lia.
    + intros [H|[H|(s & a & -> & Hs & Hn)]]; [right|left; by apply failing_stretch_cons|right].
      * exists [outcomeFailed], l. split_and!; [done|by not_served|]. unfold failures; simpl. lia.
      * exists (outcomeFailed :: s), a. split_and!; [done|by not_served|].
        rewrite failures_cons. case_decide; [lia|done].
    + intros [H|(s & a & -> & Hs & Hn)]; [left; by apply failing_stretch_cons|right].
      exists (outcomeIrrelevant :: s), a. split_and!; [done|by not_served|].
      rewrite failures_cons. case_decide; [done|lia].
Qed.

Lemma record_all_closed p entry l :
  state entry = StateClosed ->
  (0 <= consecutiveFailures entry < FailuresToOpen p)%Z ->
  state (record_all p entry l) = StateOpen <->
  failing_from (FailuresToOpen p) (consecutiveFailures entry) (l.*2).
Proof.
  revert entry.
  induction l as [|[now o] l IH]; intros entry Hst Hk.
  { simpl. rewrite Hst. split; [done|].
    intros [(b & s & a & Heq & _ & Hn)|(s & a & Heq & _ & Hn)].
    - symmetry in Heq. apply app_nil in Heq as [-> Heq]. apply app_nil in Heq as [-> ->].
      simpl in Hn. lia.
    - symmetry in Heq. apply app_nil in Heq as [-> ->]. unfold failures in Hn; simpl in Hn. lia. }
  change (((now, o) :: l).*2) with (o :: l.*2). rewrite failing_from_cons by done.
  change (record_all p entry ((now, o) :: l)) with (record_all p (record_entry p now false o entry) l).
  destruct o; simpl; [by rewrite IH by (simpl; done || lia)| |by apply IH].
  case_match; bool_cases.
  - rewrite record_all_open by done. split; [|done]. intros _. by left.
  - rewrite IH by (simpl; done || lia). simpl. split; [by right|]. intros [?|?]; [lia|done].
Qed.

(** ** Properties *)

(** C19. At most one half-open trial.  In every execution of a registry in which
    a permit admitted while the breaker was closed does not report a failure
    after the breaker has left the closed state (and no snapshot drops the
    deployment), a deployment never has two trial permits outstanding, its
    [trialInFlight] flag says exactly whether it has one, and an outstanding
    trial means the breaker is half open. *)
Theorem at_most_one_trial id p s :
  quiet_reachable id p s ->
  let b := entry_of id (sys_registry s) in
  let n := outstanding id (sys_permits s) in
  (n <= 1)%nat /\ (trialInFlight b = true <-> n = 1%nat) /\
  (n = 1%nat -> state b = StateHalfOpen).
Proof. apply quiet_inv. Qed.

(** Three failures open the breaker; the request at 5s is the trial. *)
Definition outage : list Action :=
  [AdmitAction 1 "d"; ReportAction 1 0 outcomeFailed;
   AdmitAction 2 "d"; ReportAction 2 1 outcomeFailed;
   AdmitAction 3 "d"; ReportAction 3 2 outcomeFailed;
   AdmitAction 5000000003 "d"].

Lemma quiet_run id p acts :
  (forall before a after, acts = before ++ a :: after -> quiet id (run before (init p)) a) ->
  quiet_reachable id p (run acts (init p)).
Proof.
  unfold run. induction acts as [|a acts IH] using rev_ind; intros H; [constructor|].
  rewrite foldl_snoc. constructor; [|by apply (H acts a [])].
  apply IH. intros b a' af ->. apply (H b a' (af ++ [a])). by rewrite <- app_assoc.
Qed.

(** The same condition, decided along a run. *)
Definition quietb (id : string) (s : Sys) (a : Action) : bool :=
  match a with
  | ReportAction _ i outcomeFailed =>
      match sys_permits s !! i with
      | Some p =>
          if (permit_id p =s id) && negb (trial p) && negb (reported p)
          then bool_decide (state (entry_of id (sys_registry s)) = StateClosed) else true
      | None => true
      end
  | RetainAction known => bool_decide (id ∈ known)
  | _ => true
  end.

Fixpoint quiet_run_from (id : string) (s : Sys) (acts : list Action) : bool :=
  match acts with
  | [] => true
  | a :: acts => quietb id s a && quiet_run_from id (exec a s) acts
  end.

Lemma quietb_quiet id s a : quietb id s a = true -> quiet id s a.
Proof.
  destruct a as [now id'|now i []|ids|known]; simpl; try done.
  - intros H p Hp Hid Ht Hr. rewrite Hp, Ht, Hr, (proj2 (String.eqb_eq _ _) Hid) in H.
    by apply bool_decide_eq_true in H.
  - by intros H%bool_decide_eq_true.
Qed.

Lemma quiet_run_reachable id p s acts :
  quiet_reachable id p s -> quiet_run_from id s acts = true -> quiet_reachable id p (run acts s).
Proof.
  revert s. induction acts as [|a acts IH]; intros s Hs H; simpl in *; [done|].
  apply andb_true_iff in H as [Ha H].
  apply IH; [|done]. constructor; [done|by apply quietb_quiet].
Qed.

Lemma at_most_one_trial_witness :
  let s := run outage (init DefaultPolicy) in
  outstanding "d" (sys_permits s) = 1%nat /\ trialInFlight (entry_of "d" (sys_registry s)) = true /\
  state (entry_of "d" (sys_registry s)) = StateHalfOpen.
Proof.
  assert (quiet_reachable "d" DefaultPolicy (run outage (init DefaultPolicy))) as H.
  { apply quiet_run_reachable; [apply quiet_init|vm_compute; reflexivity]. }
  pose proof (at_most_one_trial "d" DefaultPolicy _ H) as (_ & Hiff & Hst).
  split; [vm_compute; reflexivity|]. split; [apply Hiff|apply Hst]; vm_compute; reflexivity.
Defined.

(** The side condition of the previous property is needed: a request
    admitted while the breaker was closed that fails after the trial began
    re-opens the breaker under the outstanding trial, and once the longer
    cooldown expires a second trial is admitted while the first is still in
    flight; the first trial's report then clears the slot and a third is
    admitted. *)
Theorem stale_failure_breaks_single_trial :
  exists acts,
    outstanding "d" (sys_permits (run acts (init DefaultPolicy))) = 2%nat /\
    (exists now, (Admit now "d" (sys_registry (run acts (init DefaultPolicy)))).1 = None) /\
    forall now, exists permit,
      (Admit now "d" (sys_registry (run (acts ++ [ReportAction now 4 outcomeIrrelevant])
         (init DefaultPolicy)))).1 = Some permit /\ trial permit = true.
Proof.
  exists [AdmitAction 1 "d"; AdmitAction 1 "d"; AdmitAction 1 "d"; AdmitAction 1 "d";
     ReportAction 2 0 outcomeFailed; ReportAction 2 1 outcomeFailed; ReportAction 2 2 outcomeFailed;
     AdmitAction 5000000002 "d"; ReportAction 5000000003 3 outcomeFailed;
     AdmitAction 15000000003 "d"].
  split; [vm_compute; reflexivity|]. split; [exists 15000000004%Z; vm_compute; reflexivity|].
  intros now. eexists (mkPermit "d" true false). split; [vm_compute; reflexivity|reflexivity].
Qed.

(** C20. An outage is bounded.  Whatever the policy handed to [NewRegistry]
    (its ceiling below 2^62 ns, so that doubling cannot wrap) and whatever the
    order of admissions and reports, once the clock is [MaxCooldown] past the
    last recorded event an open breaker admits a request, as a trial, and is
    half open. *)
Theorem outage_is_bounded p acts t now id :
  let s := run acts (init p) in
  let pol := policy (NewRegistry p) in
  (MaxCooldown pol < 2 ^ 62)%Z ->
  Forall (action_before t) acts ->
  state (entry_of id (sys_registry s)) = StateOpen ->
  (t + MaxCooldown pol <= now)%Z ->
  exists r, Admit now id (sys_registry s) = (Some (mkPermit id true false), r) /\
    state (entry_of id r) = StateHalfOpen /\ trialInFlight (entry_of id r) = true.
Proof.
  intros s pol Hmax Hacts Hopen Hnow.
  pose proof (run_cooldown_inv p t id acts Hmax Hacts) as [_ (_ & Hprobe & _)].
  fold s in Hprobe. specialize (Hprobe Hopen). fold pol in Hprobe.
  rewrite Admit_spec. unfold admit_entry. rewrite Hopen.
  assert (Before now (probesAt (entry_of id (sys_registry s))) = false) as ->
    by (unfold Before; lia).
  eexists. split; [done|]. rewrite entry_of_put. by case_decide.
Qed.

Lemma outage_is_bounded_witness :
  exists r, Admit 130000000000 "d" (sys_registry (run (take 6 outage) (init DefaultPolicy)))
    = (Some (mkPermit "d" true false), r) /\
    state (entry_of "d" r) = StateHalfOpen /\ trialInFlight (entry_of "d" r) = true.
Proof.
  apply (outage_is_bounded DefaultPolicy (take 6 outage) 3).
  - vm_compute; reflexivity.
  - repeat constructor; simpl; lia.
  - vm_compute; reflexivity.
  - vm_compute; discriminate.
Defined.

(** A breaker opens exactly on consecutive attributable failures.  Folding
    the outcomes of ordinary requests over a fresh breaker leaves it open if
    and only if some stretch of them holds [FailuresToOpen] failures and no
    served request; requests that are not attributable neither add to the
    stretch nor break it. *)
Theorem opens_iff_consecutive_failures p results :
  (0 < FailuresToOpen p)%Z ->
  state (record_all p new_breaker results) = StateOpen <->
  failing_stretch (FailuresToOpen p) (results.*2).
Proof.
  intros Hp. rewrite record_all_closed by (simpl; done || lia).
  unfold failing_from. split; [|by left].
  intros [H|(s & a & -> & Hs & Hn)]; [done|].
  exists [], s, a. split_and!; [done..|]. fold (failures s). simpl in Hn. lia.
Qed.

Lemma opens_iff_consecutive_failures_witness :
  state (record_all DefaultPolicy new_breaker
    [(1, outcomeFailed); (2, outcomeIrrelevant); (3, outcomeFailed); (4, outcomeFailed)]%Z) = StateOpen /\
  ~ failing_stretch 3 [outcomeFailed; outcomeFailed; outcomeServed; outcomeFailed].
Proof.
  split.
  - apply (opens_iff_consecutive_failures DefaultPolicy); [vm_compute; reflexivity|].
    exists [], [outcomeFailed; outcomeIrrelevant; outcomeFailed; outcomeFailed], [].
    split_and!; [done|by not_served|vm_compute; discriminate].
  - intros H. apply (opens_iff_consecutive_failures DefaultPolicy
      [(1, outcomeFailed); (2, outcomeFailed); (3, outcomeServed); (4, outcomeFailed)]%Z) in H;
      [vm_compute in H; discriminate|vm_compute; reflexivity].
Defined.

(** The reference for the doubling backoff. *)
Definition backoff (p : Policy) (n : nat) : Duration :=
  Z.min (MaxCooldown p) (Cooldown p * 2 ^ Z.of_nat n).

Lemma escalate_backoff p n :
  normalized p -> (MaxCooldown p < 2 ^ 62)%Z -> escalate p (backoff p n) = backoff p (S n).
Proof.
  unfold normalized, escalate, backoff. intros (_ & Hc & _) Hmax.
  rewrite Nat2Z.inj_succ, Z.pow_succ_r by lia.
  assert (0 < 2 ^ Z.of_nat n)%Z by (apply Z.pow_pos_nonneg; lia).
  assert (Cooldown p <= Cooldown p * 2 ^ Z.of_nat n)%Z by nia.
  case_match; bool_cases; [lia|].
  rewrite wrap64_id by (unfold in_int64, int64_min, int64_max; lia).
  case_match; bool_cases; lia.
Qed.

(** Doubling with a ceiling.  The [n+1]-th failed trial in a row leaves a
    breaker that had just opened for the first time out of rotation for
    [min MaxCooldown (Cooldown * 2^(n+1))] from the instant it failed; no
    arithmetic wraps. *)
Theorem failed_trials_back_off p entry times now :
  normalized p ->
  (MaxCooldown p < 2 ^ 62)%Z ->
  cooldown entry = Cooldown p ->
  let b := record_entry p now true outcomeFailed
    (foldl (fun e t => record_entry p t true outcomeFailed e) entry times) in
  state b = StateOpen /\ cooldown b = backoff p (S (length times)) /\
  probesAt b = (now + backoff p (S (length times)))%Z.
Proof.
  intros Hn Hmax Hentry.
  assert (cooldown (foldl (fun e t => record_entry p t true outcomeFailed e) entry times) =
    backoff p (length times)) as Hfold.
  { induction times as [|t times IH] using rev_ind.
    - simpl. rewrite Hentry. unfold backoff. destruct Hn as (_ & ? & _). simpl. lia.
    - rewrite foldl_snoc, length_app, Nat.add_1_r.
      set (e := foldl _ entry times) in *. simpl. rewrite IH. by apply escalate_backoff. }
  set (e := foldl _ entry times) in *. simpl. by rewrite Hfold, escalate_backoff by done.
Qed.

Lemma failed_trials_back_off_witness :
  let p := DefaultPolicy in
  let opened := record_all p new_breaker [(1, outcomeFailed); (2, outcomeFailed); (3, outcomeFailed)]%Z in
  let b := record_entry p 90 true outcomeFailed
    (foldl (fun e t => record_entry p t true outcomeFailed e) opened [10; 20]%Z) in
  state b = StateOpen /\ cooldown b = (40 * Second)%Z /\ probesAt b = (90 + 40 * Second)%Z.
Proof.
  refine (failed_trials_back_off DefaultPolicy
    (record_all DefaultPolicy new_breaker [(1, outcomeFailed); (2, outcomeFailed); (3, outcomeFailed)]%Z)
    [10; 20]%Z 90 _ _ _).
  - unfold normalized; vm_compute. split; [|split]; [reflexivity| |reflexivity].
    split; [reflexivity|discriminate].
  - vm_compute; reflexivity.
  - vm_compute; reflexivity.
Defined.

(** The waits [SoonestProbe] takes the least of. *)
Definition known_waits (ids : list string) (at_ : Instant) (r : Registry) : list Duration :=
  omap (fun id => (fun b => Z.max 0 (Sub (probesAt b) at_)) <$> breakers r !! id) ids.

Lemma soonest_fold ids at_ r w found :
  let '(w', found') := foldl (soonest_step (breakers r) at_) (w, found) ids in
  let waits := (if found then [w] else []) ++ known_waits ids at_ r in
  found' = negb (bool_decide (waits = [])) /\
  (found' = true -> w' ∈ waits /\ Forall (fun x => (w' <= x)%Z) waits).
Proof.
  revert w found. induction ids as [|id ids IH]; intros w found; simpl.
  - rewrite app_nil_r. destruct found; simpl; [|done].
    split; [done|]. intros _. split; [set_solver|]. by apply Forall_singleton.
  - destruct (breakers r !! id) as [b|] eqn:Hb; simpl; [|apply IH].
    set (v := Z.max 0 (Sub (probesAt b) at_)).
    assert ((if (Sub (probesAt b) at_ <? 0)%Z then 0%Z else Sub (probesAt b) at_) = v) as ->
      by (unfold v; case_match; bool_cases; lia).
    destruct (negb found || (v <? w)%Z) eqn:E.
    + specialize (IH v true). destruct (foldl _ _ ids) as [w' f']. destruct IH as [-> IH]. simpl in *.
      split; [by destruct found|]. intros _. specialize (IH eq_refl) as [Hin Hall].
      destruct found; simpl in *; [|done].
      split; [set_solver|]. bool_cases. constructor; [|done].
      apply Forall_cons in Hall as [? _]. lia.
    + apply orb_false_iff in E as [Hf E]. apply negb_false_iff in Hf as ->. bool_cases.
      specialize (IH w true). destruct (foldl _ _ ids) as [w' f']. destruct IH as [-> IH]. simpl in *.
      split; [done|]. intros _. specialize (IH eq_refl) as [Hin Hall].
      apply Forall_cons in Hall as [? Hall].
      split; [set_solver|]. constructor; [done|]. constructor; [lia|done].
Qed.

(** The retry hint.  [SoonestProbe] reports a wait exactly when one of the
    deployments has a breaker, and the wait is the least over those breakers of
    the time left until their next probe, zero when it has passed. *)
Theorem SoonestProbe_least ids at_ r :
  let '(wait, found) := SoonestProbe ids at_ r in
  (found = true <-> exists id, id ∈ ids /\ is_Some (breakers r !! id)) /\
  (found = true -> wait ∈ known_waits ids at_ r /\
    Forall (fun w => (0 <= wait <= w)%Z) (known_waits ids at_ r)).
Proof.
  unfold SoonestProbe. pose proof (soonest_fold ids at_ r 0 false) as H.
  destruct (foldl _ _ ids) as [w f]. destruct H as [-> H]. simpl in *.
  assert (forall x, x ∈ known_waits ids at_ r -> (0 <= x)%Z) as Hpos.
  { intros x. unfold known_waits. rewrite list_elem_of_omap. intros (id & _ & Hx).
    destruct (breakers r !! id); simplify_eq/=. lia. }
  split.
  - rewrite negb_true_iff, bool_decide_eq_false. unfold known_waits. split.
    + intros Hne. destruct (omap _ ids) as [|x l] eqn:E; [done|].
      assert (x ∈ omap (fun id => (fun b => Z.max 0 (Sub (probesAt b) at_)) <$> breakers r !! id) ids)
        as Hx by (rewrite E; set_solver).
      apply list_elem_of_omap in Hx as (id & Hid & Hx). exists id. split; [done|].
      destruct (breakers r !! id); [by eexists|done].
    + intros (id & Hid & b & Hb) Hnil.
      assert (Z.max 0 (Sub (probesAt b) at_) ∈ []) as Hx; [|by apply not_elem_of_nil in Hx].
      rewrite <- Hnil, list_elem_of_omap. exists id. by rewrite Hb.
  - intros Hf. specialize (H Hf) as [Hin Hall]. split; [done|].
    eapply Forall_impl; [exact Hall|]. intros x Hx. simpl in Hx. split; [by apply Hpos|done].
Qed.
