(* ===== verification/CustomerLimit.v ===== *)
(** * Customer credential limits (internal/customerlimit)

    Transient throttle and refusal state of one exact customer credential
    generation.  The key is the signed selector of that generation
    (internal/credentialstore/customer.go); the clock is the [now] argument of
    each operation, one reading per call. *)

From S2P Require Import Prelude.

(** ** Data *)

Record CustomerCredentialIdentity := mkIdentity {
  Provider : string;
  OwnerAccountID : string;
  ConnectionID : string;
  Environment : string;
}.

Record CustomerCredentialScope := mkScope {
  Identity : CustomerCredentialIdentity;
  CredentialHandle : string;
  Revision : Z;
}.

#[export] Instance Identity_eq_dec : EqDecision CustomerCredentialIdentity.
Proof. solve_decision. Defined.
#[export] Instance Scope_eq_dec : EqDecision CustomerCredentialScope.
Proof. solve_decision. Defined.

Definition scope_tuple (s : CustomerCredentialScope) : string * string * string * string * string * Z :=
  let i := Identity s in
  (Provider i, OwnerAccountID i, ConnectionID i, Environment i, CredentialHandle s, Revision s).
Definition tuple_scope (t : string * string * string * string * string * Z) : CustomerCredentialScope :=
  let '(p, o, c, e, h, r) := t in mkScope (mkIdentity p o c e) h r.

#[export] Instance Scope_countable : Countable CustomerCredentialScope.
Proof. apply (inj_countable' scope_tuple tuple_scope). by intros [[] ? ?]. Defined.

Inductive Reason := ReasonNone | ReasonThrottled | ReasonRejected.

#[export] Instance Reason_eq_dec : EqDecision Reason.
Proof. solve_decision. Defined.

Definition defaultThrottleCooldown : Duration := 5 * Second.
Definition defaultRejectedCooldown : Duration := 15 * Minute.
Definition staleEntryAge : Duration := Hour.

Record Refusal := mkRefusal { refusal_reason : Reason; RetryAfter : Duration }.
Definition no_refusal : Refusal := mkRefusal ReasonNone 0.

Record entry := mkEntry {
  reason : Reason;
  probesAt : Instant;
  trialInFlight : bool;
  lastSeen : Instant;
}.

Definition Registry := gmap CustomerCredentialScope entry.

Record Permit := mkPermit { scope : CustomerCredentialScope; reported : bool }.

(** ** Operations *)

Definition NewRegistry : gmap CustomerCredentialScope entry := ∅.

Definition stale (now : Instant) (e : entry) : bool :=
  negb (trialInFlight e) && negb (Before now (probesAt e)) && (staleEntryAge <? Sub now (lastSeen e))%Z.

Definition removeStaleLocked (now : Instant) (r : gmap CustomerCredentialScope entry)
    : gmap CustomerCredentialScope entry :=
  filter (fun kv => stale now kv.2 = false) r.

Definition Admit (now : Instant) (s : CustomerCredentialScope) (r : gmap CustomerCredentialScope entry)
    : option Permit * Refusal * gmap CustomerCredentialScope entry :=
  let r := removeStaleLocked now r in
  match r !! s with
  | None => (Some (mkPermit s false), no_refusal, r)
  | Some e =>
      let e := mkEntry (reason e) (probesAt e) (trialInFlight e) now in
      if Before now (probesAt e)
      then (None, mkRefusal (reason e) (Sub (probesAt e) now), <[s := e]> r)
      else if trialInFlight e
      then (None, mkRefusal (reason e) 0, <[s := e]> r)
      else (Some (mkPermit s false), no_refusal,
            <[s := mkEntry (reason e) (probesAt e) true (lastSeen e)]> r)
  end.

Definition entryFor (reason : Reason) (probesAt lastSeen : Instant) : entry :=
  mkEntry reason probesAt false lastSeen.

(** [Permit.report]; [None] is the nil permit. *)
Definition report (now : Instant) (reason_ : Reason) (cooldown : Duration) (success : bool)
    (p : option Permit) (r : gmap CustomerCredentialScope entry)
    : option Permit * gmap CustomerCredentialScope entry :=
  match p with
  | None => (None, r)
  | Some p =>
      if reported p then (Some p, r)
      else
        let p' := Some (mkPermit (scope p) true) in
        if success then (p', delete (scope p) r)
        else if decide (reason_ <> ReasonNone)
        then (p', <[scope p := entryFor reason_ (Add now cooldown) now]> r)
        else match r !! scope p with
             | Some e => (p', <[scope p := mkEntry (reason e) (probesAt e) false now]> r)
             | None => (p', r)
             end
  end.

Definition Succeeded now p r := report now ReasonNone 0 true p r.
Definition Rejected now p r := report now ReasonRejected defaultRejectedCooldown false p r.
Definition Throttled now (retryAfter : Duration) p r :=
  report now ReasonThrottled
    (if (retryAfter <=? 0)%Z then defaultThrottleCooldown else retryAfter) false p r.
Definition NotAttributable now p r := report now ReasonNone 0 false p r.

(** ** Lemmas *)

Lemma removeStale_lookup now r s :
  removeStaleLocked now r !! s =
    match r !! s with Some e => if stale now e then None else Some e | None => None end.
Proof.
  unfold removeStaleLocked. rewrite map_lookup_filter.
  destruct (r !! s) as [e|]; simpl; [|done].
  destruct (stale now e) eqn:E; [by rewrite option_guard_False by (simpl; congruence)|].
  by rewrite option_guard_True by (simpl; congruence).
Qed.

Lemma Admit_other now s s' r :
  s <> s' -> (Admit now s r).2 !! s' = removeStaleLocked now r !! s'.
Proof.
  intros Hne. unfold Admit. case_match; [|done].
  case_match; simpl; [by rewrite lookup_insert_ne|].
  case_match; simpl; by rewrite lookup_insert_ne.
Qed.

Lemma report_other now re d ok p r s' :
  scope p <> s' -> (report now re d ok (Some p) r).2 !! s' = r !! s'.
Proof.
  intros Hne. unfold report. case_match; [done|]. case_match; simpl; [by rewrite lookup_delete_ne|].
  case_decide; simpl; [by rewrite lookup_insert_ne|].
  case_match; simpl; [by rewrite lookup_insert_ne|done].
Qed.

(** The answer [Admit] gives for a generation depends on that generation's
    entry alone. *)
Definition answer (now : Instant) (o : option entry) (s : CustomerCredentialScope)
    : option Permit * Refusal :=
  match o with
  | None => (Some (mkPermit s false), no_refusal)
  | Some e =>
      if stale now e then (Some (mkPermit s false), no_refusal)
      else if Before now (probesAt e) then (None, mkRefusal (reason e) (Sub (probesAt e) now))
      else if trialInFlight e then (None, mkRefusal (reason e) 0)
      else (Some (mkPermit s false), no_refusal)
  end.

Lemma Admit_answer now s r : (Admit now s r).1 = answer now (r !! s) s.
Proof.
  unfold Admit, answer. rewrite removeStale_lookup.
  destruct (r !! s) as [e|]; [|done]. destruct (stale now e); [done|]. simpl.
  repeat (case_match; try done).
Qed.

(** ** Executions *)

Inductive Action :=
| AdmitAction (now : Instant) (s : CustomerCredentialScope)
| ReportAction (now : Instant) (p : Permit) (re : Reason) (d : Duration) (ok : bool).

Definition exec (a : Action) (r : gmap CustomerCredentialScope entry)
    : gmap CustomerCredentialScope entry :=
  match a with
  | AdmitAction now s => (Admit now s r).2
  | ReportAction now p re d ok => (report now re d ok (Some p) r).2
  end.

Definition run (acts : list Action) (r : gmap CustomerCredentialScope entry) :=
  foldl (fun r a => exec a r) r acts.

Definition action_scope (a : Action) : CustomerCredentialScope :=
  match a with AdmitAction _ s => s | ReportAction _ p _ _ _ => scope p end.
Definition action_now (a : Action) : Instant :=
  match a with AdmitAction now _ => now | ReportAction now _ _ _ _ => now end.

Lemma stale_later now now' e :
  (now <= now')%Z -> (0 <= lastSeen e)%Z -> (now' - lastSeen e <= int64_max)%Z ->
  stale now e = true -> stale now' e = true.
Proof.
  unfold stale. intros Hle H0 Hmax H.
  destruct (trialInFlight e); [done|]. simpl in *. apply andb_true_iff in H as [Hb Hs].
  apply andb_true_iff. unfold staleEntryAge in *. split; time_lia.
Qed.

Lemma others_entry s acts now r :
  Forall (fun a => action_scope a <> s /\ (action_now a <= now)%Z) acts ->
  let r' := run acts r in
  r' !! s = r !! s \/
  (r' !! s = None /\ exists e t, (t <= now)%Z /\ r !! s = Some e /\ stale t e = true).
Proof.
  intros Hacts. induction acts as [|a acts IH] using rev_ind; [by left|].
  apply Forall_app in Hacts as [Hacts Ha]. apply Forall_cons in Ha as [[Hne Hnow] _].
  cbv zeta. unfold run in *. rewrite foldl_snoc. specialize (IH Hacts). cbv zeta in IH.
  set (r' := foldl _ r acts) in *.
  destruct a as [t s'|t p re d ok]; cbn [exec action_scope action_now] in *.
  - rewrite Admit_other, removeStale_lookup by done.
    destruct IH as [->|[-> IH]]; [|by right].
    destruct (r !! s) as [e|] eqn:He; [|by left].
    destruct (stale t e) eqn:Hst; [|by left]. right. split; [done|]. by exists e, t.
  - by rewrite report_other by done.
Qed.

(** ** The cooldown of one generation *)

(** While a generation cools down, traffic that only asks for it keeps the
    window it was given. *)
Definition cooling (until : Instant) (since : Instant) (o : option entry) : Prop :=
  exists seen, (since <= seen)%Z /\ o = Some (mkEntry ReasonThrottled until false seen).

Definition only_asks (s : CustomerCredentialScope) (since until : Instant) (a : Action) : Prop :=
  (since <= action_now a < until)%Z /\
  match a with AdmitAction _ _ => True | ReportAction _ p _ _ _ => scope p <> s end.

Lemma cooling_not_stale until now seen :
  (now < until)%Z -> stale now (mkEntry ReasonThrottled until false seen) = false.
Proof.
  intros H. unfold stale. cbn. assert (Before now until = true) as -> by (apply Z.ltb_lt; lia). done.
Qed.

Lemma cooling_exec s since until a r :
  only_asks s since until a -> cooling until since (r !! s) -> cooling until since (exec a r !! s).
Proof.
  intros [Hnow Ha] (seen & Hseen & Hr). destruct a as [t s'|t p re d ok]; cbn [exec action_now] in *.
  - destruct (decide (s' = s)) as [->|Hne].
    + unfold Admit. rewrite removeStale_lookup, Hr, cooling_not_stale by lia. cbn [probesAt reason].
      assert (Before t until = true) as -> by (apply Z.ltb_lt; lia). cbn.
      exists t. rewrite lookup_insert_eq. split; [lia|done].
    + exists seen. split; [done|]. by rewrite Admit_other, removeStale_lookup, Hr, cooling_not_stale by (done || lia).
  - exists seen. split; [done|]. by rewrite report_other.
Qed.

Lemma cooling_run s since until acts r :
  Forall (only_asks s since until) acts -> cooling until since (r !! s) ->
  cooling until since (run acts r !! s).
Proof.
  revert r. unfold run. induction acts as [|a acts IH]; [done|]. intros r Hacts Hr.
  apply Forall_cons in Hacts as [Ha Hacts]. cbn. eapply IH; [done|]. by eapply cooling_exec.
Qed.

Lemma Throttled_cooling now d p r :
  reported p = false -> (0 < d)%Z ->
  cooling (now + d) now ((Throttled now d (Some p) r).2 !! scope p).
Proof.
  intros Hp Hd. unfold Throttled, report. rewrite Hp.
  assert ((d <=? 0)%Z = false) as -> by (apply Z.leb_gt; lia). rewrite decide_True by done. cbn [snd].
  exists now. rewrite lookup_insert_eq. split; [lia|done].
Qed.

Definition wait_of (o : option Permit * Refusal * gmap CustomerCredentialScope entry) : option Refusal :=
  match o.1.1 with None => Some o.1.2 | Some _ => None end.

(** A throttled generation is refused for exactly the window its provider
    named: whatever other generations do and however often this one is asked
    for meanwhile, each refusal carries exactly the time that is left; once the
    window is over (and the generation was seen within [staleEntryAge]) one
    request is admitted as a trial and every further one is refused until that
    trial reports. *)
Theorem cooldown_is_honoured now d p r acts :
  reported p = false -> (0 < d <= int64_max)%Z ->
  Forall (only_asks (scope p) now (now + d)) acts ->
  let r' := run acts (Throttled now d (Some p) r).2 in
  (forall t, (now <= t < now + d)%Z ->
     wait_of (Admit t (scope p) r') = Some (mkRefusal ReasonThrottled (now + d - t))) /\
  (forall t t', (now + d <= t <= now + staleEntryAge)%Z -> (t <= t')%Z ->
     (Admit t (scope p) r').1 = (Some (mkPermit (scope p) false), no_refusal) /\
     wait_of (Admit t' (scope p) (Admit t (scope p) r').2) = Some (mkRefusal ReasonThrottled 0)).
Proof.
  intros Hp Hd Hacts r'.
  destruct (cooling_run (scope p) now (now + d) acts _ Hacts
              (Throttled_cooling now d p r Hp ltac:(lia))) as (seen & Hseen & Hr).
  fold r' in Hr. split.
  - intros t Ht. unfold wait_of. rewrite Admit_answer, Hr. unfold answer.
    rewrite cooling_not_stale by lia. cbn [probesAt reason].
    assert (Before t (now + d) = true) as -> by (apply Z.ltb_lt; lia). cbn.
    by rewrite Sub_id by (unfold in_int64, int64_min, int64_max in *; lia).
  - intros t t' Ht Ht'.
    assert (stale t (mkEntry ReasonThrottled (now + d) false seen) = false) as Hst.
    { unfold stale, staleEntryAge in *. cbn. apply andb_false_iff. right. apply Z.ltb_ge. time_lia. }
    assert (Before t (now + d) = false) as Hb by (apply Z.ltb_ge; lia).
    assert (Before t' (now + d) = false) as Hb' by (apply Z.ltb_ge; lia).
    assert (Admit t (scope p) r' =
      (Some (mkPermit (scope p) false), no_refusal,
       <[scope p := mkEntry ReasonThrottled (now + d) true t]> (removeStaleLocked t r'))) as ->.
    { unfold Admit. rewrite removeStale_lookup, Hr, Hst. cbn. by rewrite Hb. }
    split; [done|]. cbn [snd]. unfold wait_of. rewrite Admit_answer, lookup_insert_eq.
    unfold answer, stale. cbn. by rewrite Hb'.
Qed.

Lemma cooldown_is_honoured_witness :
  let s := mkScope (mkIdentity "openai" "acct" "conn" "production") "h" 3 in
  let s' := mkScope (mkIdentity "openai" "acct" "conn" "production") "h" 4 in
  let r' := run [AdmitAction (5 * Second) s; AdmitAction (6 * Second) s';
                 ReportAction (7 * Second) (mkPermit s' false) ReasonRejected (15 * Minute) false]
              (Throttled (5 * Second) (10 * Second) (Some (mkPermit s false)) NewRegistry).2 in
  wait_of (Admit (8 * Second) s r') = Some (mkRefusal ReasonThrottled (7 * Second)) /\
  (Admit (15 * Second) s r').1 = (Some (mkPermit s false), no_refusal).
Proof.
  assert (forall a b c, (a <= b < c)%Z <-> ((a <=? b) && (b <? c))%Z = true) as Hz.
  { intros a b c. rewrite andb_true_iff, Z.leb_le, Z.ltb_lt. done. }
  destruct (cooldown_is_honoured (5 * Second) (10 * Second)
    (mkPermit (mkScope (mkIdentity "openai" "acct" "conn" "production") "h" 3) false) NewRegistry
    [AdmitAction (5 * Second) (mkScope (mkIdentity "openai" "acct" "conn" "production") "h" 3);
     AdmitAction (6 * Second) (mkScope (mkIdentity "openai" "acct" "conn" "production") "h" 4);
     ReportAction (7 * Second)
       (mkPermit (mkScope (mkIdentity "openai" "acct" "conn" "production") "h" 4) false)
       ReasonRejected (15 * Minute) false])
    as [H1 H2]; [done|by vm_compute| |split].
  - repeat (apply Forall_cons; split; [split; [by apply Hz; vm_compute|by vm_compute] |]). apply Forall_nil. done.
  - apply (H1 (8 * Second)%Z). apply Hz. by vm_compute.
  - eapply (H2 (15 * Second)%Z (15 * Second)%Z); by vm_compute.
Defined.

(** ** Isolation *)

Lemma answer_stale now e s : stale now e = true -> answer now (Some e) s = answer now None s.
Proof. intros H. unfold answer. by rewrite H. Qed.

(** One customer's generation never decides for another: after any sequence of
    admissions and reports on other generations (another revision, another
    connection, another account) the answer the registry gives for a generation
    is the one it would have given without them. *)
Theorem generations_are_isolated s acts now r :
  Forall (fun a => action_scope a <> s /\ (action_now a <= now)%Z) acts ->
  (forall e, r !! s = Some e -> 0 <= lastSeen e)%Z -> (now <= int64_max)%Z ->
  (Admit now s (run acts r)).1 = (Admit now s r).1.
Proof.
  intros Hacts Hseen Hmax. rewrite !Admit_answer.
  destruct (others_entry s acts now r Hacts) as [->|(-> & e & t & Ht & He & Hst)]; [done|].
  rewrite He, answer_stale; [done|]. specialize (Hseen e He). apply (stale_later t); [lia..|done].
Qed.

Lemma generations_are_isolated_witness :
  let s := mkScope (mkIdentity "openai" "acct" "conn" "production") "h" 3 in
  let s' := mkScope (mkIdentity "openai" "acct" "conn" "production") "h" 4 in
  (Admit Minute s (run [ReportAction Second (mkPermit s' false) ReasonRejected (15 * Minute) false]
                     NewRegistry)).1
  = (Some (mkPermit s false), no_refusal).
Proof.
  intros s s'.
  change (Some (mkPermit s false), no_refusal) with (Admit Minute s NewRegistry).1.
  apply generations_are_isolated.
  - apply Forall_cons. split; [split; [by vm_compute|by vm_compute]|apply Forall_nil; done].
  - intros e. by vm_compute.
  - by vm_compute.
Defined.

(** ** What a permit admitted before the throttle can do *)

(** A request admitted while its generation was healthy can end the single
    trial of a later half-open window: two requests are admitted at time 1, one
    of them is throttled for a second, the window ends and a trial is admitted;
    when the other early request then ends with a failure that is nobody's
    fault, a second trial is admitted while the first is still in flight. *)
Theorem stale_permit_frees_the_trial :
  let s := mkScope (mkIdentity "openai" "acct" "conn" "production") "h" 1 in
  let early := Some (mkPermit s false) in
  let throttled := (Throttled 2 Second early NewRegistry).2 in
  let '(first_trial, _, r1) := Admit (2 * Second) s throttled in
  let '(refused, _, r2) := Admit (2 * Second + 1) s r1 in
  let '(_, r3) := NotAttributable (2 * Second + 2) early r2 in
  let '(second_trial, _, _) := Admit (2 * Second + 3) s r3 in
  (Admit 1 s NewRegistry).1 = (early, no_refusal) /\
  first_trial = Some (mkPermit s false) /\ refused = None /\
  second_trial = Some (mkPermit s false).
Proof. vm_compute. done. Qed.
