(* ===== verification/Ids.v ===== *)
(** * Identifiers (internal/contract/ids.go)

    The grammars Kaana validates identifiers against.  The source writes them
    as regular expressions matched against a whole string ([^...$]); they are
    transcribed into a small regular-expression type, executed by derivatives,
    with the language they denote as an inductive predicate. *)

From S2P Require Import Prelude.

(** ** Regular expressions *)

Module Regex.

Inductive regex :=
| Never
| Eps
| Class (member : ascii -> bool)
| Seq (r1 r2 : regex)
| Alt (r1 r2 : regex)
| Star (r : regex).

Fixpoint nullable (r : regex) : bool :=
  match r with
  | Never | Class _ => false
  | Eps | Star _ => true
  | Seq r1 r2 => nullable r1 && nullable r2
  | Alt r1 r2 => nullable r1 || nullable r2
  end.

Fixpoint derive (c : ascii) (r : regex) : regex :=
  match r with
  | Never | Eps => Never
  | Class member => if member c then Eps else Never
  | Seq r1 r2 =>
      if nullable r1 then Alt (Seq (derive c r1) r2) (derive c r2) else Seq (derive c r1) r2
  | Alt r1 r2 => Alt (derive c r1) (derive c r2)
  | Star r => Seq (derive c r) (Star r)
  end.

(** [MatchString] of a pattern anchored at both ends. *)
Fixpoint matches (r : regex) (s : string) : bool :=
  match s with
  | EmptyString => nullable r
  | String c s => matches (derive c r) s
  end.

Definition Opt (r : regex) : regex := Alt Eps r.
Definition Char (c : ascii) : regex := Class (Ascii.eqb c).
Fixpoint Repeat (n : nat) (r : regex) : regex :=
  match n with O => Eps | S n => Seq r (Repeat n r) end.
(** [r{lo,lo+extra}]. *)
Fixpoint RepeatUpTo (extra : nat) (r : regex) : regex :=
  match extra with O => Eps | S n => Opt (Seq r (RepeatUpTo n r)) end.
Definition RepeatRange (lo extra : nat) (r : regex) : regex := Seq (Repeat lo r) (RepeatUpTo extra r).

(** The language of an expression. *)
Inductive In : regex -> string -> Prop :=
| in_eps : In Eps ""
| in_class member c : member c = true -> In (Class member) (String c "")
| in_seq r1 r2 s1 s2 : In r1 s1 -> In r2 s2 -> In (Seq r1 r2) (s1 +:+ s2)
| in_alt_l r1 r2 s : In r1 s -> In (Alt r1 r2) s
| in_alt_r r1 r2 s : In r2 s -> In (Alt r1 r2) s
| in_star_nil r : In (Star r) ""
| in_star_cons r s1 s2 : In r s1 -> In (Star r) s2 -> In (Star r) (s1 +:+ s2).

Lemma app_nil_l_inv s1 s2 : "" = s1 +:+ s2 -> s1 = "" /\ s2 = "".
Proof. destruct s1; [by intros ->|done]. Qed.

Lemma in_never s : ~ In Never s.
Proof. inversion 1. Qed.

Lemma in_seq_inv r1 r2 s : In (Seq r1 r2) s -> exists s1 s2, s = s1 +:+ s2 /\ In r1 s1 /\ In r2 s2.
Proof. inversion 1; subst. eauto. Qed.

Lemma in_alt_inv r1 r2 s : In (Alt r1 r2) s <-> In r1 s \/ In r2 s.
Proof. split; [inversion 1; subst; eauto|intros [H|H]; by constructor]. Qed.

Lemma nullable_spec r : nullable r = true <-> In r "".
Proof.
  induction r as [| |f|r1 IH1 r2 IH2|r1 IH1 r2 IH2|r IH]; simpl.
  - split; [done|]. intros []%in_never.
  - split; [constructor|done].
  - split; [done|]. by inversion 1.
  - rewrite andb_true_iff, IH1, IH2. split.
    + intros [H1 H2]. by apply (in_seq r1 r2 "" "").
    + intros (s1 & s2 & Hs & H1 & H2)%in_seq_inv. apply app_nil_l_inv in Hs as [-> ->]. done.
  - by rewrite orb_true_iff, IH1, IH2, in_alt_inv.
  - split; [constructor|done].
Qed.

Lemma in_star_String r c s :
  In (Star r) (String c s) -> exists s1 s2, s = s1 +:+ s2 /\ In r (String c s1) /\ In (Star r) s2.
Proof.
  intros H. remember (Star r) as e eqn:He. remember (String c s) as t eqn:Ht. revert c s Ht.
  induction H as [| | | | | |r' s1 s2 H1 _ H2 IH2]; intros c' s' Ht; try discriminate.
  injection He as ->. destruct s1 as [|c1 s1]; simpl in Ht.
  - by apply IH2.
  - injection Ht as <- <-. by exists s1, s2.
Qed.

Lemma derive_spec r c s : In (derive c r) s <-> In r (String c s).
Proof.
  revert s. induction r as [| |f|r1 IH1 r2 IH2|r1 IH1 r2 IH2|r IH]; intros s; simpl.
  - split; by intros []%in_never.
  - split; [by intros []%in_never|inversion 1].
  - destruct (f c) eqn:Hf; split.
    + inversion 1; subst. by constructor.
    + inversion 1; subst. constructor.
    + by intros []%in_never.
    + inversion 1; subst. congruence.
  - assert (In (Seq (derive c r1) r2) s <->
            exists s1 s2, s = s1 +:+ s2 /\ In r1 (String c s1) /\ In r2 s2) as Hseq.
    { split.
      - intros (s1 & s2 & -> & H1 & H2)%in_seq_inv. exists s1, s2. by rewrite <-IH1.
      - intros (s1 & s2 & -> & H1 & H2). constructor; [by apply IH1|done]. }
    assert (In (Seq r1 r2) (String c s) <->
            In (Seq (derive c r1) r2) s \/ (In r1 "" /\ In r2 (String c s))) as ->.
    { rewrite Hseq. split.
      - intros (s1 & s2 & Hs & H1 & H2)%in_seq_inv. destruct s1 as [|c1 s1]; simpl in Hs.
        + right. change (String c s = s2) in Hs. by subst.
        + injection Hs as -> ->. left. eauto.
      - intros [(s1 & s2 & -> & H1 & H2)|[H1 H2]].
        + by apply (in_seq r1 r2 (String c s1) s2).
        + by apply (in_seq r1 r2 "" (String c s)). }
    rewrite <-nullable_spec. destruct (nullable r1).
    + rewrite in_alt_inv, IH2. intuition.
    + naive_solver.
  - by rewrite !in_alt_inv, IH1, IH2.
  - split.
    + intros (s1 & s2 & -> & H1 & H2)%in_seq_inv.
      apply (in_star_cons r (String c s1) s2); [by apply IH|done].
    + intros (s1 & s2 & -> & H1 & H2)%in_star_String. constructor; [by apply IH|done].
Qed.

Lemma matches_spec r s : matches r s = true <-> In r s.
Proof.
  revert r. induction s as [|c s IH]; intros r; simpl.
  - apply nullable_spec.
  - by rewrite IH, derive_spec.
Qed.

End Regex.

(** ** Character classes *)

Definition in_range (lo hi c : ascii) : bool :=
  ((Ascii.N_of_ascii lo <=? Ascii.N_of_ascii c) && (Ascii.N_of_ascii c <=? Ascii.N_of_ascii hi))%N.

Definition is_lower : ascii -> bool := in_range "a" "z".
Definition is_upper : ascii -> bool := in_range "A" "Z".
Definition is_digit : ascii -> bool := in_range "0" "9".
(** [[a-z0-9]], [[a-z0-9._-]], [[a-zA-Z0-9]], [[a-zA-Z0-9._-]]. *)
Definition lower_alnum (c : ascii) : bool := is_lower c || is_digit c.
Definition punct (c : ascii) : bool := Ascii.eqb c "." || Ascii.eqb c "_" || Ascii.eqb c "-".
Definition slug_char (c : ascii) : bool := lower_alnum c || punct c.
Definition alnum (c : ascii) : bool := lower_alnum c || is_upper c.
Definition revision_char (c : ascii) : bool := alnum c || punct c.

(** ** The patterns *)

Import Regex.

(** [[x](?:[y]*[x])?]. *)
Definition delimited (edge inner : ascii -> bool) : regex :=
  Seq (Class edge) (Opt (Seq (Star (Class inner)) (Class edge))).

Definition providerSlugPattern : regex := delimited lower_alnum slug_char.
Definition regionPattern : regex := delimited lower_alnum slug_char.
Definition modelIDPattern : regex :=
  Seq (delimited lower_alnum slug_char) (Seq (Char "/") (delimited lower_alnum slug_char)).
Definition modelReferencePattern : regex :=
  Seq (delimited lower_alnum slug_char)
    (Seq (Char "/")
      (Seq (delimited lower_alnum slug_char)
        (Opt (Seq (Char "@") (delimited alnum revision_char))))).

(** ** Model references *)

Definition len (s : string) : Z := Z.of_nat (String.length s).

Lemma len_app s1 s2 : len (s1 +:+ s2) = (len s1 + len s2)%Z.
Proof. unfold len. induction s1 as [|c s1 IH]; [done|]. change (String c s1 +:+ s2) with (String c (s1 +:+ s2)). cbn [String.length]. lia. Qed.

Lemma len_nonneg s : (0 <= len s)%Z.
Proof. unfold len. lia. Qed.

Definition ModelReference_Valid (r : string) : bool :=
  (len r <=? 194)%Z && matches modelReferencePattern r.

Fixpoint contains_char (c : ascii) (s : string) : bool :=
  match s with EmptyString => false | String d s => Ascii.eqb c d || contains_char c s end.

(** [strings.Contains(r, "@")]. *)
Definition Pinned (r : string) : bool := contains_char "@" r.

(** The text before the first occurrence of a character. *)
Fixpoint before_char (c : ascii) (s : string) : string :=
  match s with
  | EmptyString => EmptyString
  | String d s => if Ascii.eqb c d then EmptyString else String d (before_char c s)
  end.

(** [ModelReference.ModelID]: the unpinned model line. *)
Definition ModelID (r : string) : string := if Pinned r then before_char "@" r else r.

Definition ModelID_Valid (m : string) : bool := (len m <=? 129)%Z && matches modelIDPattern m.
Definition ProviderSlug_Valid (p : string) : bool :=
  (0 <? len p)%Z && (len p <=? 64)%Z && matches providerSlugPattern p.
Definition RoutingProfileID_Valid (id : string) : bool := (0 <? len id)%Z && (len id <=? 128)%Z.
Definition Region_Valid (r : string) : bool :=
  (0 <? len r)%Z && (len r <=? 64)%Z && matches regionPattern r.

(** ** Lemmas *)

Definition over (f : ascii -> bool) (s : string) : Prop := forall c, contains_char c s = true -> f c = true.

Lemma contains_char_app c s1 s2 : contains_char c (s1 +:+ s2) = contains_char c s1 || contains_char c s2.
Proof. induction s1 as [|d s1 IH]; simpl; [done|]. by rewrite IH, orb_assoc. Qed.

Lemma over_app f s1 s2 : over f s1 -> over f s2 -> over f (s1 +:+ s2).
Proof. intros H1 H2 c. rewrite contains_char_app. intros [?|?]%orb_true_iff; auto. Qed.

Lemma over_single f c : f c = true -> over f (String c "").
Proof.
  intros Hc d. simpl. rewrite orb_false_r. intros ->%Ascii.eqb_eq. done.
Qed.

Lemma over_star f s : Regex.In (Star (Class f)) s -> over f s.
Proof.
  intros H. remember (Star (Class f)) as e eqn:He.
  induction H as [| | | | |r|r s1 s2 H1 _ H2 IH]; try discriminate.
  injection He as ->. apply over_app; [|by apply IH].
  inversion H1; subst. by apply over_single.
Qed.

Lemma delimited_over edge inner s :
  (forall c, edge c = true -> inner c = true) ->
  Regex.In (delimited edge inner) s -> over inner s.
Proof.
  intros Hsub (s1 & s2 & -> & H1 & H2)%in_seq_inv. apply over_app.
  - inversion H1; subst. apply over_single. auto.
  - apply in_alt_inv in H2 as [H2|H2]; [inversion H2; by intros c|].
    apply in_seq_inv in H2 as (s3 & s4 & -> & H3 & H4). apply over_app; [by apply over_star|].
    inversion H4; subst. apply over_single. auto.
Qed.

Lemma over_no_char f c s : over f s -> f c = false -> contains_char c s = false.
Proof. intros H Hf. destruct (contains_char c s) eqn:E; [|done]. apply H in E. congruence. Qed.

Lemma before_char_app c s1 s2 :
  contains_char c s1 = false -> before_char c (s1 +:+ String c s2) = s1.
Proof.
  induction s1 as [|d s1 IH]; simpl; [by rewrite Ascii.eqb_refl|].
  intros [-> H]%orb_false_iff. by rewrite IH.
Qed.

Lemma slug_no_at s : Regex.In (delimited lower_alnum slug_char) s -> contains_char "@" s = false.
Proof.
  intros H. eapply over_no_char; [eapply delimited_over; [|done]|done].
  intros c Hc. unfold slug_char. by rewrite Hc.
Qed.

(** A well-formed model reference is a model line, alone or with an [@] and
    a revision.  It is pinned exactly when a revision is there, and its model
    line is what stands before the revision, itself of the model-id grammar and
    unpinned. *)
Theorem ModelReference_grammar r :
  ModelReference_Valid r = true ->
  matches modelIDPattern (ModelID r) = true /\ Pinned (ModelID r) = false /\
  ((Pinned r = false /\ r = ModelID r) \/
   (Pinned r = true /\ exists revision,
      r = ModelID r +:+ "@" +:+ revision /\ matches (delimited alnum revision_char) revision = true)).
Proof.
  unfold ModelReference_Valid. intros [_ H]%andb_true_iff. apply matches_spec in H.
  apply in_seq_inv in H as (publisher & rest & -> & Hp & H).
  apply in_seq_inv in H as (slash & rest' & -> & Hs & H).
  apply in_seq_inv in H as (model & pin & -> & Hm & H).
  inversion Hs as [|m c Hc | | | | |]; subst. apply Ascii.eqb_eq in Hc as <-.
  assert (Regex.In modelIDPattern (publisher +:+ "/" +:+ model)) as Hline.
  { constructor; [done|]. constructor; [by constructor|done]. }
  assert (contains_char "@" (publisher +:+ "/" +:+ model) = false) as Hno.
  { rewrite !contains_char_app, (slug_no_at publisher), (slug_no_at model) by done. done. }
  assert (forall s, publisher +:+ String "/" "" +:+ model +:+ s = (publisher +:+ "/" +:+ model) +:+ s) as Hassoc.
  { intros s. by rewrite !str_app_assoc. }
  rewrite Hassoc. unfold ModelID, Pinned. apply in_alt_inv in H as [H|H].
  - inversion H; subst. rewrite str_app_nil_r, Hno.
    split; [by apply matches_spec|]. split; [done|]. by left.
  - apply in_seq_inv in H as (at_sign & revision & -> & Ha & Hr).
    inversion Ha as [|m c Hc | | | | |]; subst. apply Ascii.eqb_eq in Hc as <-.
    rewrite contains_char_app, Hno.
    assert (contains_char "@" ("@" +:+ revision) = true) as -> by done. cbn [orb].
    change ("@" +:+ revision) with (String "@" revision). rewrite before_char_app by done.
    split; [by apply matches_spec|]. split; [done|]. right. split; [done|].
    exists revision. split; [done|by apply matches_spec].
Qed.

Lemma ModelReference_grammar_witness :
  matches modelIDPattern (ModelID "meta/llama-3.1@2024-07") = true /\
  ModelID "meta/llama-3.1@2024-07" = "meta/llama-3.1".
Proof.
  split; [|done]. apply (ModelReference_grammar "meta/llama-3.1@2024-07"). by vm_compute.
Defined.
