(* ===== verification/Text.v ===== *)
(** * UTF-8 and JSON text

    What the source uses of Go's [unicode/utf8], [unicode/utf16] and
    [encoding/json], [encoding/base64]: decoding a byte string into code points the way
    [utf8.DecodeRuneInString] does, UTF-16 lengths, and the text
    [json.Marshal] writes for a value. *)

From S2P Require Import Prelude.

Definition byte (c : ascii) : Z := Z.of_N (Ascii.N_of_ascii c).
Definition RuneError : Z := 65533.

Definition in_byte_range (lo hi : Z) (c : ascii) : bool := (lo <=? byte c)%Z && (byte c <=? hi)%Z.
Definition continuation : ascii -> bool := in_byte_range 128 191.

(** The range the second byte may lie in, by the first byte: no overlong form,
    no surrogate, nothing beyond U+10FFFF. *)
Definition second_ok (b0 : Z) (c1 : ascii) : bool :=
  if (b0 =? 224)%Z then in_byte_range 160 191 c1
  else if (b0 =? 237)%Z then in_byte_range 128 159 c1
  else if (b0 =? 240)%Z then in_byte_range 144 191 c1
  else if (b0 =? 244)%Z then in_byte_range 128 143 c1
  else continuation c1.

Definition low6 (c : ascii) : Z := Z.land (byte c) 63.

(** The code points of a string, each with the number of bytes it took; a byte
    that starts no valid encoding is one [RuneError] of size 1. *)
Fixpoint runes (s : string) : list (Z * Z) :=
  match s with
  | EmptyString => []
  | String c0 s1 =>
      let b0 := byte c0 in
      if (b0 <? 128)%Z then (b0, 1%Z) :: runes s1
      else if (b0 <? 194)%Z || (244 <? b0)%Z then (RuneError, 1%Z) :: runes s1
      else match s1 with
      | EmptyString => (RuneError, 1%Z) :: runes s1
      | String c1 s2 =>
          if negb (second_ok b0 c1) then (RuneError, 1%Z) :: runes s1
          else if (b0 <? 224)%Z
          then (Z.lor (Z.shiftl (Z.land b0 31) 6) (low6 c1), 2%Z) :: runes s2
          else match s2 with
          | EmptyString => (RuneError, 1%Z) :: runes s1
          | String c2 s3 =>
              if negb (continuation c2) then (RuneError, 1%Z) :: runes s1
              else if (b0 <? 240)%Z
              then (Z.lor (Z.lor (Z.shiftl (Z.land b0 15) 12) (Z.shiftl (low6 c1) 6)) (low6 c2), 3%Z)
                     :: runes s3
              else match s3 with
              | EmptyString => (RuneError, 1%Z) :: runes s1
              | String c3 s4 =>
                  if negb (continuation c3) then (RuneError, 1%Z) :: runes s1
                  else (Z.lor (Z.lor (Z.shiftl (Z.land b0 7) 18) (Z.shiftl (low6 c1) 12))
                          (Z.lor (Z.shiftl (low6 c2) 6) (low6 c3)), 4%Z) :: runes s4
              end
          end
      end
  end.

(** [utf16.RuneLen]; surrogates and values beyond U+10FFFF, which no decoding
    yields, count as -1 there. *)
Definition utf16_RuneLen (r : Z) : Z := if (r <? 65536)%Z then 1 else 2.

(** [utf16Length] (internal/contract/realtime.go). *)
Definition utf16Length (value : string) : Z :=
  foldr (fun r n => utf16_RuneLen r.1 + n)%Z 0%Z (runes value).

(** ** Spaces *)

(** [unicode.IsSpace]. *)
Definition IsSpace (r : Z) : bool :=
  ((9 <=? r) && (r <=? 13))%Z || (r =? 32)%Z || (r =? 133)%Z || (r =? 160)%Z || (r =? 5760)%Z
  || ((8192 <=? r) && (r <=? 8202))%Z || (r =? 8232)%Z || (r =? 8233)%Z || (r =? 8239)%Z
  || (r =? 8287)%Z || (r =? 12288)%Z.

(** How many bytes of spaces a list of code points starts with. *)
Fixpoint leading_spaces (rs : list (Z * Z)) : Z :=
  match rs with
  | (r, size) :: rs => if IsSpace r then (size + leading_spaces rs)%Z else 0%Z
  | [] => 0%Z
  end.

(** [strings.TrimSpace]. *)
Definition TrimSpace (s : string) : string :=
  let rs := runes s in
  let front := leading_spaces rs in
  let back := leading_spaces (reverse rs) in
  String.substring (Z.to_nat front) (Z.to_nat (Z.of_nat (String.length s) - front - back)) s.

(** ** Prefixes *)

(** [strings.HasPrefix], [strings.TrimPrefix] and [strings.CutPrefix]. *)
Fixpoint HasPrefix (prefix s : string) : bool :=
  match prefix, s with
  | EmptyString, _ => true
  | String p prefix, String c s => Ascii.eqb p c && HasPrefix prefix s
  | _, EmptyString => false
  end.

Definition TrimPrefix (prefix s : string) : string :=
  if HasPrefix prefix s then String.substring (String.length prefix) (String.length s - String.length prefix) s else s.

Fixpoint CutPrefix (s prefix : string) : option string :=
  match prefix, s with
  | EmptyString, _ => Some s
  | String p prefix, String c s => if Ascii.eqb p c then CutPrefix s prefix else None
  | _, EmptyString => None
  end.

(** [strings.ToLower] as far as an ASCII pattern can tell: the letters of ASCII
    and the two other code points whose lower case is one of them. *)
Fixpoint lower_runes (rs : list (Z * Z)) (s : string) : string :=
  match rs with
  | [] => ""
  | (r, size) :: rs =>
      let rest := String.substring (Z.to_nat size) (String.length s - Z.to_nat size) s in
      (if (65 <=? r)%Z && (r <=? 90)%Z then String (ascii_of_nat (Z.to_nat (r + 32))) ""
       else if (r =? 304)%Z then "i"
       else if (r =? 8490)%Z then "k"
       else String.substring 0 (Z.to_nat size) s) +:+ lower_runes rs rest
  end.
Definition ToLower (s : string) : string := lower_runes (runes s) s.

Fixpoint Contains (s part : string) : bool :=
  HasPrefix part s || match s with String _ s => Contains s part | EmptyString => false end.

(** [strings.HasSuffix]. *)
Fixpoint HasSuffix (s suffix : string) : bool :=
  (s =s suffix) || match s with String _ s => HasSuffix s suffix | EmptyString => false end.

Lemma str_length_app s t : String.length (s +:+ t) = (String.length s + String.length t)%nat.
Proof. induction s as [|c s IH]; [done|]. rewrite str_app_cons. cbn [String.length]. by rewrite IH. Qed.

Lemma HasPrefix_app p s : HasPrefix p (p +:+ s) = true.
Proof. induction p as [|c p IH]; [done|]. rewrite str_app_cons. cbn [HasPrefix]. by rewrite Ascii.eqb_refl. Qed.

Lemma substring_whole s : String.substring 0 (String.length s) s = s.
Proof. induction s as [|c s IH]; [done|]. cbn [String.length String.substring]. by rewrite IH. Qed.

Lemma TrimPrefix_app p s : TrimPrefix p (p +:+ s) = s.
Proof.
  unfold TrimPrefix. rewrite HasPrefix_app, str_length_app, Nat.add_comm, Nat.add_sub.
  induction p as [|c p IH]; [apply substring_whole|]. rewrite str_app_cons. exact IH.
Qed.

Lemma HasPrefix_CutPrefix s prefix : HasPrefix prefix s = match CutPrefix s prefix with Some _ => true | None => false end.
Proof.
  revert s. induction prefix as [|p prefix IH]; intros s; [by destruct s|]. destruct s as [|c s]; [done|].
  cbn. destruct (Ascii.eqb p c); [apply IH|done].
Qed.

Lemma CutPrefix_Some s prefix rest : CutPrefix s prefix = Some rest -> s = prefix +:+ rest.
Proof.
  revert s. induction prefix as [|p prefix IH]; intros s.
  - destruct s; intros [= <-]; reflexivity.
  - destruct s as [|c s]; [done|]. cbn [CutPrefix]. destruct (Ascii.eqb p c) eqn:E; [|done]. apply Ascii.eqb_eq in E as ->.
    intros H%IH. by rewrite H.
Qed.

(** ** Decimal integers *)

Definition digit_value (c : ascii) : option Z :=
  if in_byte_range 48 57 c then Some (byte c - 48)%Z else None.

Fixpoint digits_value (acc : Z) (s : string) : option Z :=
  match s with
  | EmptyString => Some acc
  | String c s => d ← digit_value c; digits_value (acc * 10 + d)%Z s
  end.

(** [strconv.ParseInt(s, 10, 64)]; [None] is its error. *)
Definition ParseInt (s : string) : option Z :=
  let '(sign, digits) :=
    match s with
    | String c rest =>
        if (byte c =? 45)%Z then ((-1)%Z, rest) else if (byte c =? 43)%Z then (1%Z, rest) else (1%Z, s)
    | EmptyString => (1%Z, s)
    end in
  match digits with
  | EmptyString => None
  | _ =>
      n ← digits_value 0 digits;
      let value := (sign * n)%Z in
      if ((int64_min <=? value) && (value <=? int64_max))%Z then Some value else None
  end.

(** Decimal digits of a non-negative integer, most significant first. *)
Fixpoint decimal_digits (fuel : nat) (n : Z) (acc : string) : string :=
  match fuel with
  | O => acc
  | S fuel =>
      let acc := String (ascii_of_nat (Z.to_nat (48 + n mod 10))) acc in
      if (n <? 10)%Z then acc else decimal_digits fuel (n / 10) acc
  end.

(** [strconv.Itoa]: an [int64] has at most 19 digits. *)
Definition Itoa (n : Z) : string :=
  if (n <? 0)%Z then "-" +:+ decimal_digits 20 (- n) "" else decimal_digits 20 n "".

Example Itoa_min : Itoa int64_min = "-9223372036854775808".
Proof. reflexivity. Qed.

Example TrimSpace_nbsp : TrimSpace "  a b 	" = "a b".
Proof. reflexivity. Qed.

(** ** JSON *)

Inductive Json :=
| JNull
| JBool (b : bool)
| JNumber (text : string)
| JString (s : string)
| JArray (items : list Json)
| JObject (members : list (string * Json)).

Definition quote : string := String (ascii_of_nat 34) "".
Definition backslash : string := String (ascii_of_nat 92) "".

Definition hex_digit (n : Z) : ascii :=
  ascii_of_nat (Z.to_nat (if (n <? 10)%Z then 48 + n else 87 + n)).

Definition unicode_escape (r : Z) : string :=
  backslash +:+ "u00" +:+ String (hex_digit (Z.shiftr r 4)) (String (hex_digit (Z.land r 15)) "").

(** How [json.Marshal] writes one ASCII byte of a string, HTML characters
    escaped. *)
Definition json_ascii (c : ascii) : string :=
  let b := byte c in
  if (b =? 34)%Z || (b =? 92)%Z then backslash +:+ String c ""
  else if (b =? 8)%Z then backslash +:+ "b"
  else if (b =? 12)%Z then backslash +:+ "f"
  else if (b =? 10)%Z then backslash +:+ "n"
  else if (b =? 13)%Z then backslash +:+ "r"
  else if (b =? 9)%Z then backslash +:+ "t"
  else if (b <? 32)%Z || (b =? 60)%Z || (b =? 62)%Z || (b =? 38)%Z then unicode_escape b
  else String c "".

Fixpoint json_text (rs : list (Z * Z)) (s : string) : string :=
  match rs with
  | [] => ""
  | (r, size) :: rs =>
      let rest := json_text rs (String.substring (Z.to_nat size) (String.length s) s) in
      let written :=
        if (r <? 128)%Z then match s with String c _ => json_ascii c | _ => "" end
        else if (r =? RuneError)%Z && (size =? 1)%Z then backslash +:+ "ufffd"
        else if (r =? 8232)%Z then backslash +:+ "u2028"
        else if (r =? 8233)%Z then backslash +:+ "u2029"
        else String.substring 0 (Z.to_nat size) s in
      written +:+ rest
  end.

Definition json_string (s : string) : string := quote +:+ json_text (runes s) s +:+ quote.

Fixpoint join (sep : string) (items : list string) : string :=
  match items with
  | [] => ""
  | [s] => s
  | s :: rest => s +:+ sep +:+ join sep rest
  end.

(** The members of an object are written in the order given: a struct's
    declaration order, a map's sorted keys ([json_map]). *)
Fixpoint json_encode (j : Json) : string :=
  match j with
  | JNull => "null"
  | JBool b => if b then "true" else "false"
  | JNumber text => text
  | JString s => json_string s
  | JArray items => "[" +:+ join "," (map json_encode items) +:+ "]"
  | JObject members =>
      "{" +:+ join "," (map (fun m => json_string m.1 +:+ ":" +:+ json_encode m.2) members) +:+ "}"
  end.

Definition json_map (members : list (string * Json)) : Json := JObject (sort_by fst members).

(** ** Base64

    [base64.StdEncoding.EncodeToString]: three bytes are four digits of the
    standard alphabet, the last group padded with [=]. *)

Definition base64_digit (n : Z) : ascii :=
  ascii_of_nat (Z.to_nat
    (if (n <? 26)%Z then 65 + n else if (n <? 52)%Z then 71 + n
     else if (n <? 62)%Z then n - 4 else if (n =? 62)%Z then 43 else 47)).

Fixpoint base64_encode (s : string) : string :=
  match s with
  | EmptyString => EmptyString
  | String c0 EmptyString =>
      let b := Z.shiftl (byte c0) 16 in
      String (base64_digit (Z.shiftr b 18)) (String (base64_digit (Z.land (Z.shiftr b 12) 63)) "==")
  | String c0 (String c1 EmptyString) =>
      let b := Z.lor (Z.shiftl (byte c0) 16) (Z.shiftl (byte c1) 8) in
      String (base64_digit (Z.shiftr b 18)) (String (base64_digit (Z.land (Z.shiftr b 12) 63))
        (String (base64_digit (Z.land (Z.shiftr b 6) 63)) "="))
  | String c0 (String c1 (String c2 rest)) =>
      let b := Z.lor (Z.lor (Z.shiftl (byte c0) 16) (Z.shiftl (byte c1) 8)) (byte c2) in
      String (base64_digit (Z.shiftr b 18)) (String (base64_digit (Z.land (Z.shiftr b 12) 63))
        (String (base64_digit (Z.land (Z.shiftr b 6) 63)) (String (base64_digit (Z.land b 63))
          (base64_encode rest))))
  end.

Example base64_hi : base64_encode "hello?>" = "aGVsbG8/Pg==".
Proof. reflexivity. Qed.

(** ** Lemmas *)

Lemma runes_ascii c s : (byte c < 128)%Z -> runes (String c s) = (byte c, 1%Z) :: runes s.
Proof. intros H. simpl. by rewrite (proj2 (Z.ltb_lt _ _) H). Qed.

Example runes_euro : runes "a€" = [(97, 1); (8364, 3)]%Z.
Proof. reflexivity. Qed.

Example json_escape : json_encode (json_map [("b", JString "<a>"); ("a", JNull)]) =
  "{" +:+ quote +:+ "a" +:+ quote +:+ ":null," +:+ quote +:+ "b" +:+ quote +:+ ":" +:+ quote +:+
  backslash +:+ "u003ca" +:+ backslash +:+ "u003e" +:+ quote +:+ "}".
Proof. vm_compute. reflexivity. Qed.

Lemma substring_all s : String.substring 0 (String.length s) s = s.
Proof. induction s as [|c s IH]; [done|]. cbn. by rewrite IH. Qed.

Lemma substring_split n s :
  (n <= String.length s)%nat -> s = String.substring 0 n s +:+ String.substring n (String.length s - n) s /\
  String.length (String.substring 0 n s) = n /\ String.length (String.substring n (String.length s - n) s) = (String.length s - n)%nat.
Proof.
  revert n. induction s as [|c s IH]; intros n H; cbn [String.length] in *.
  { assert (n = 0)%nat as -> by lia. done. }
  destruct n as [|n]; cbn [String.substring Nat.sub].
  - split; [|split; [done|]]; [by rewrite substring_all|]. cbn. by rewrite substring_all.
  - destruct (IH n ltac:(lia)) as (H1 & H2 & H3). rewrite str_app_cons, <-H1. cbn [String.length]. by rewrite H2, H3.
Qed.
