(* ===== verification/Contract.v ===== *)
(** * The Oxy contract (internal/contract)

    Closed vocabularies, the error body, stream events, the usage report and
    the signed request envelope with the rules [Validate] applies to them.  A
    Go string type is a [string] and its members are constants, so a [switch]
    is a chain of string comparisons with its default branch; a pointer field
    is an [option]; a slice whose nil is told apart from an empty one is an
    [option] of a list.  Refusals carry the text of their message without the
    values it interpolates.  The human-readable message of an error body is not
    modelled (no decision reads it). *)

From S2P Require Import Prelude Ids.

(** ** Vocabularies (enums.go, errors.go, stream.go) *)

Definition EnvironmentDevelopment := "development".
Definition EnvironmentStaging := "staging".
Definition EnvironmentProduction := "production".
Definition environmentValues := [EnvironmentDevelopment; EnvironmentStaging; EnvironmentProduction].

Definition FundingTierFree := "free".
Definition FundingTierCredit := "credit".
Definition FundingTierPaid := "paid".
Definition fundingTierValues := [FundingTierFree; FundingTierCredit; FundingTierPaid].
Definition FundingTier_Valid (t : string) : bool := isMember t fundingTierValues.

Definition ScopeInvoke := "inference:invoke".
Definition scopeValues :=
  [ScopeInvoke; "inference:models:read"; "inference:usage:read"; "inference:routing:read";
   "inference:routing:write"; "inference:providers:read"; "inference:providers:write"].

Definition ModalityText := "text".
Definition ModalityImage := "image".
Definition ModalityAudio := "audio".
Definition ModalityVideo := "video".
Definition ModalityEmbedding := "embedding".
Definition modalityValues := [ModalityText; ModalityImage; ModalityAudio; ModalityVideo; ModalityEmbedding].

Definition RoleSystem := "system".
Definition RoleDeveloper := "developer".
Definition RoleUser := "user".
Definition RoleAssistant := "assistant".
Definition RoleTool := "tool".
Definition messageRoleValues := [RoleSystem; RoleDeveloper; RoleUser; RoleAssistant; RoleTool].

Definition APIFormatDecisions := "decisions".
Definition APIFormatResponses := "responses".
Definition APIFormatChatCompletions := "chat_completions".
Definition APIFormatEmbeddings := "embeddings".
Definition APIFormatImagesGenerations := "images_generations".
Definition APIFormatAudioTranscriptions := "audio_transcriptions".
Definition APIFormatAudioSpeech := "audio_speech".
Definition APIFormatRerank := "rerank".
Definition APIFormatBatches := "batches".
Definition apiFormatValues :=
  [APIFormatResponses; APIFormatChatCompletions; APIFormatEmbeddings; APIFormatImagesGenerations;
   APIFormatAudioTranscriptions; APIFormatAudioSpeech; APIFormatRerank; APIFormatBatches;
   APIFormatDecisions].

Definition ChannelOutputText := "output_text".
Definition ChannelReasoning := "reasoning".
Definition ChannelRefusal := "refusal".
Definition ChannelOutputAudioTranscript := "output_audio_transcript".
Definition deltaChannelValues :=
  [ChannelOutputText; ChannelReasoning; ChannelRefusal; ChannelOutputAudioTranscript].

Definition FinishStop := "stop".
Definition FinishLength := "length".
Definition FinishToolCalls := "tool_calls".
Definition FinishContentFilter := "content_filter".
Definition FinishRefusal := "refusal".
Definition FinishCancelled := "cancelled".
Definition finishReasonValues :=
  [FinishStop; FinishLength; FinishToolCalls; FinishContentFilter; FinishRefusal; FinishCancelled].

Definition SwitchDeploymentUnavailable := "deployment_unavailable".
Definition SwitchProviderError := "provider_error".
Definition SwitchProviderTimeout := "provider_timeout".
Definition SwitchProviderOverloaded := "provider_overloaded".
Definition SwitchRateLimited := "rate_limited".
Definition SwitchCapacity := "capacity".
Definition SwitchPolicyPreference := "policy_preference".

Definition OutcomeCompleted := "completed".
Definition OutcomePartial := "partial".
Definition OutcomeCancelled := "cancelled".
Definition OutcomeFailed := "failed".
Definition requestOutcomeValues := [OutcomeCompleted; OutcomePartial; OutcomeCancelled; OutcomeFailed].

Definition UnitInputTokens := "input_tokens".
Definition UnitCachedInputTokens := "cached_input_tokens".
Definition UnitOutputTokens := "output_tokens".
Definition UnitReasoningTokens := "reasoning_tokens".
Definition UnitRequests := "requests".
Definition UnitImages := "images".
Definition UnitAudioInputMilliseconds := "audio_input_milliseconds".
Definition UnitAudioOutputMilliseconds := "audio_output_milliseconds".
Definition UnitVideoMilliseconds := "video_milliseconds".
Definition UnitCharacters := "characters".
Definition UnitEmbeddings := "embeddings".
Definition UnitAudioInputTokens := "audio_input_tokens".
Definition UnitCachedAudioInputTokens := "cached_audio_input_tokens".
Definition UnitAudioOutputTokens := "audio_output_tokens".
Definition UnitSessionMilliseconds := "session_milliseconds".
Definition UnitInputTranscriptionMilliseconds := "input_transcription_milliseconds".
Definition usageUnitValues :=
  [UnitInputTokens; UnitCachedInputTokens; UnitOutputTokens; UnitReasoningTokens;
   UnitRequests; UnitImages; UnitAudioInputMilliseconds; UnitAudioOutputMilliseconds;
   UnitVideoMilliseconds; UnitCharacters; UnitEmbeddings;
   UnitAudioInputTokens; UnitCachedAudioInputTokens; UnitAudioOutputTokens;
   UnitSessionMilliseconds; UnitInputTranscriptionMilliseconds].
Definition UsageUnit_Valid (u : string) : bool := isMember u usageUnitValues.

Definition UsageProviderReported := "provider_reported".
Definition UsageOxyMeasured := "oxy_measured".
Definition UsageEstimated := "estimated".
Definition usageSourceValues := [UsageProviderReported; UsageOxyMeasured; UsageEstimated].

Definition UpstreamRateLimit := "rate_limit".
Definition UpstreamQuota := "quota".
Definition UpstreamTimeout := "timeout".
Definition UpstreamOverloaded := "overloaded".
Definition UpstreamServerError := "server_error".
Definition UpstreamContentFilter := "content_filter".
Definition UpstreamInvalidReq := "invalid_request".
Definition UpstreamAuthentication := "authentication".
Definition UpstreamUnknown := "unknown".
Definition upstreamErrorCategoryValues :=
  [UpstreamRateLimit; UpstreamQuota; UpstreamTimeout; UpstreamOverloaded; UpstreamServerError;
   UpstreamContentFilter; UpstreamInvalidReq; UpstreamAuthentication; UpstreamUnknown].

Definition reasoningEffortValues := ["low"; "medium"; "high"].
Definition ReasoningEffort_Valid (e : string) : bool := isMember e reasoningEffortValues.

(** *** Error codes *)

Definition CodeInvalidRequest := "invalid_request".
Definition CodeAuthenticationFailed := "authentication_failed".
Definition CodePermissionDenied := "permission_denied".
Definition CodeInsufficientScope := "insufficient_scope".
Definition CodeModelNotFound := "model_not_found".
Definition CodeUnsupportedModality := "unsupported_modality".
Definition CodeContextLengthExceeded := "context_length_exceeded".
Definition CodeRequestTooLarge := "request_too_large".
Definition CodeOutputLimitExceeded := "output_limit_exceeded".
Definition CodeIdempotencyConflict := "idempotency_conflict".
Definition CodeInsufficientBalance := "insufficient_balance".
Definition CodeSpendingLimitExceeded := "spending_limit_exceeded".
Definition CodeQuotaExceeded := "quota_exceeded".
Definition CodeBYOKCredentialInvalid := "byok_credential_invalid".
Definition CodePolicyViolation := "policy_violation".
Definition CodeCommercialPermissionDenied := "commercial_permission_denied".
Definition CodeNoRouteAvailable := "no_route_available".
Definition CodeUpstreamContentFiltered := "upstream_content_filtered".
Definition CodeCancelled := "cancelled".
Definition CodeRateLimited := "rate_limited".
Definition CodeDeploymentUnavailable := "deployment_unavailable".
Definition CodeProviderError := "provider_error".
Definition CodeProviderTimeout := "provider_timeout".
Definition CodeProviderOverloaded := "provider_overloaded".
Definition CodeProviderCredentialInvalid := "provider_credential_invalid".
Definition CodeProviderBillingRefused := "provider_billing_refused".
Definition CodeServiceUnavailable := "service_unavailable".
Definition CodeInternalError := "internal_error".

Definition errorCodeValues :=
  [CodeInvalidRequest; CodeAuthenticationFailed; CodePermissionDenied; CodeInsufficientScope;
   CodeModelNotFound; CodeUnsupportedModality; CodeContextLengthExceeded; CodeRequestTooLarge;
   CodeOutputLimitExceeded; CodeIdempotencyConflict; CodeInsufficientBalance;
   CodeSpendingLimitExceeded; CodeQuotaExceeded; CodeBYOKCredentialInvalid; CodePolicyViolation;
   CodeCommercialPermissionDenied; CodeNoRouteAvailable; CodeUpstreamContentFiltered;
   CodeCancelled; CodeRateLimited; CodeDeploymentUnavailable; CodeProviderError;
   CodeProviderTimeout; CodeProviderOverloaded; CodeProviderCredentialInvalid;
   CodeProviderBillingRefused; CodeServiceUnavailable; CodeInternalError].

Definition nonRetryableErrorCodes :=
  [CodeInvalidRequest; CodeAuthenticationFailed; CodePermissionDenied; CodeInsufficientScope;
   CodeModelNotFound; CodeUnsupportedModality; CodeContextLengthExceeded; CodeRequestTooLarge;
   CodeOutputLimitExceeded; CodeIdempotencyConflict; CodeInsufficientBalance;
   CodeSpendingLimitExceeded; CodeQuotaExceeded; CodeBYOKCredentialInvalid; CodePolicyViolation;
   CodeCommercialPermissionDenied; CodeNoRouteAvailable; CodeUpstreamContentFiltered; CodeCancelled;
   CodeProviderCredentialInvalid; CodeProviderBillingRefused].

(** [ErrorCode.Retryable]. *)
Definition Retryable (code : string) : bool := negb (isMember code nonRetryableErrorCodes).

(** ** The error body (errors.go) *)

Record ProviderErrorPassthrough := mkPassthrough {
  pass_Provider : string;
  pass_Status : option Z;
  pass_Code : option string;
}.

Record Error := mkError {
  err_Code : string;
  err_Retryable : bool;
  err_RequestID : string;
  err_RetryAfterMs : option Z;
  err_Param : option string;
  err_UpstreamCategory : option string;
  err_ProviderError : option ProviderErrorPassthrough;
}.

Definition NewError (requestID code : string) : Error :=
  mkError code (Retryable code) requestID None None None None.

Definition WithParam (param : string) (e : Error) : Error :=
  mkError (err_Code e) (err_Retryable e) (err_RequestID e) (err_RetryAfterMs e) (Some param)
    (err_UpstreamCategory e) (err_ProviderError e).

Definition WithRetryAfter (milliseconds : Z) (e : Error) : Error :=
  if negb (err_Retryable e) || (milliseconds <? 0)%Z then e
  else mkError (err_Code e) (err_Retryable e) (err_RequestID e) (Some milliseconds) (err_Param e)
         (err_UpstreamCategory e) (err_ProviderError e).

Definition WithoutRetry (e : Error) : Error :=
  mkError (err_Code e) false (err_RequestID e) None (err_Param e)
    (err_UpstreamCategory e) (err_ProviderError e).

Definition WithUpstream (category : string) (passthrough : option ProviderErrorPassthrough)
    (e : Error) : Error :=
  let truncate p :=
    mkPassthrough (pass_Provider p) (pass_Status p)
      match pass_Code p with
      | Some code => Some (if (128 <? len code)%Z then String.substring 0 128 code else code)
      | None => None
      end in
  mkError (err_Code e) (err_Retryable e) (err_RequestID e) (err_RetryAfterMs e) (err_Param e)
    (Some category)
    match passthrough with Some p => Some (truncate p) | None => err_ProviderError e end.

(** ** Timestamps (ids.go)

    A timestamp is the instant its text spells, or a text that spells none. *)

Inductive Timestamp := Spells (at_ : Instant) | NotAnInstant.

(** The canonical spelling keeps whole milliseconds. *)
Definition NewTimestamp (at_ : Instant) : Timestamp := Spells (at_ - at_ mod Millisecond).
Definition Timestamp_Time (t : Timestamp) : option Instant :=
  match t with Spells at_ => Some at_ | NotAnInstant => None end.

(** ** Attribution (attribution.go) *)

Definition AuthorityFirstParty := "first_party".
Definition AuthorityExternal := "external".
Definition serviceAuthorityValues := [AuthorityFirstParty; AuthorityExternal].

Record AuthenticatedPrincipal := mkPrincipal {
  Authority : option string;
  Billing_AccountID : string;
  ApplicationID : string;
  CredentialID : string;
  principal_Environment : string;
  InferenceScopes : option (list string);
}.

Record Attribution := mkAttribution {
  Principal : AuthenticatedPrincipal;
  UserID : option string;
  attribution_RequestID : string;
  attribution_GenerationID : option string;
}.

Definition isFirstParty (authority : option string) : bool :=
  match authority with Some a => a =s AuthorityFirstParty | None => false end.
Definition IsFirstParty (p : AuthenticatedPrincipal) : bool := isFirstParty (Authority p).
Definition HasScope (a : Attribution) (scope : string) : bool :=
  isMember scope (default [] (InferenceScopes (Principal a))).

Definition validateAuthority (authority : option string) (scopes : option (list string))
    : option string :=
  if match authority with Some a => negb (isMember a serviceAuthorityValues) | None => false end
  then Some "contract: unknown service authority"
  else if negb (forallb (fun scope => isMember scope scopeValues) (default [] scopes))
  then Some "contract: unknown external inference scope"
  else if isFirstParty authority && match scopes with Some _ => true | None => false end
  then Some "contract: first-party instructions do not carry scopes"
  else None.

(** ** Stream events (stream.go) *)

Record UsageQuantity := mkQuantity { Unit : string; Quantity : Z }.

#[export] Instance UsageQuantity_eq_dec : EqDecision UsageQuantity.
Proof. solve_decision. Defined.

Definition SwitchScopeDeployment := "deployment".
Definition SwitchScopeModel := "model".

Record RouteSwitchDetail := mkSwitchDetail {
  switch_Scope : string;
  ToProvider : string;
  switch_ModelReference : option string;
  ToDeploymentID : option string;
  RequestedModelID : option string;
  FromModelReference : option string;
  ToModelReference : option string;
  switch_AuthorizedByPolicy : option bool;
}.

(** The eight messages; the first two arguments of each are its [requestId] and
    its [sequence]. *)
Inductive StreamEvent :=
| StreamStartEvent (requestID : string) (seq : Z) (generationID : option string)
    (resolvedModelReference servingProvider : string) (startedAt : Timestamp)
| StreamDeltaEvent (requestID : string) (seq : Z) (outputIndex : Z) (channel text : string)
| StreamAudioEvent (requestID : string) (seq : Z) (outputIndex : Z) (mediaType data : string)
| StreamToolCallEvent (requestID : string) (seq : Z) (toolCallID : string)
    (name argumentsDelta : option string) (complete : bool)
| StreamUsageEvent (requestID : string) (seq : Z) (deploymentID : string)
    (units : list UsageQuantity) (usageSource : string)
| StreamRouteSwitchEvent (requestID : string) (seq : Z) (reason : string)
    (detail : RouteSwitchDetail) (occurredAt : Timestamp)
| StreamErrorEvent (requestID : string) (seq : Z) (error : Error)
| StreamDoneEvent (requestID : string) (seq : Z) (generationID : option string)
    (finishReason : string) (completedAt : Timestamp).

Definition Sequence (e : StreamEvent) : Z :=
  match e with
  | StreamStartEvent _ seq _ _ _ _ | StreamDeltaEvent _ seq _ _ _ | StreamAudioEvent _ seq _ _ _
  | StreamToolCallEvent _ seq _ _ _ _ | StreamUsageEvent _ seq _ _ _
  | StreamRouteSwitchEvent _ seq _ _ _ | StreamErrorEvent _ seq _ | StreamDoneEvent _ seq _ _ _ => seq
  end.

Inductive StreamEventType :=
| EventStart | EventDelta | EventAudio | EventToolCall | EventUsage | EventRouteSwitch | EventError | EventDone.

Definition EventType (e : StreamEvent) : StreamEventType :=
  match e with
  | StreamStartEvent _ _ _ _ _ _ => EventStart
  | StreamDeltaEvent _ _ _ _ _ => EventDelta
  | StreamAudioEvent _ _ _ _ _ => EventAudio
  | StreamToolCallEvent _ _ _ _ _ _ => EventToolCall
  | StreamUsageEvent _ _ _ _ _ => EventUsage
  | StreamRouteSwitchEvent _ _ _ _ _ => EventRouteSwitch
  | StreamErrorEvent _ _ _ => EventError
  | StreamDoneEvent _ _ _ _ _ => EventDone
  end.

(** ** The usage report (usage.go) *)

Definition UsageReportSchemaVersion : Z := 2.

Record UsageReport := mkReport {
  report_SchemaVersion : Z;
  report_RequestID : string;
  report_GenerationID : option string;
  report_Attribution : Attribution;
  Outcome : string;
  Units : list UsageQuantity;
  UsageSource : string;
  ResolvedModelReference : string;
  ServingProvider : string;
  report_DeploymentID : string;
  RouteSwitches : Z;
  report_FundingTier : option string;
  StartedAt : Timestamp;
  CompletedAt : Timestamp;
  TimeToFirstTokenMs : option Z;
}.

Fixpoint validateUnits (seen : list string) (units : list UsageQuantity) : option string :=
  match units with
  | [] => None
  | q :: rest =>
      refuse_if (negb (isMember (Unit q) usageUnitValues)) "contract: not a usage unit" ;;
      refuse_if (Quantity q <? 0)%Z "contract: quantity is negative" ;;
      refuse_if (isMember (Unit q) seen) "contract: each unit is reported once, as a total" ;;
      validateUnits (Unit q :: seen) rest
  end.

Definition UsageReport_Validate (r : UsageReport) : option string :=
  refuse_if (negb (report_SchemaVersion r =? UsageReportSchemaVersion)%Z)
    "contract: usage report schemaVersion" ;;
  refuse_if (report_RequestID r =s "") "contract: usage report requestId is required" ;;
  refuse_if (negb (isMember (Outcome r) requestOutcomeValues)) "contract: not a request outcome" ;;
  refuse_if (negb (isMember (UsageSource r) usageSourceValues)) "contract: not a usage source" ;;
  refuse_if (negb (ModelReference_Valid (ResolvedModelReference r))) "contract: not a model reference" ;;
  refuse_if (negb (ProviderSlug_Valid (ServingProvider r))) "contract: not a provider slug" ;;
  refuse_if ((len (report_DeploymentID r) =? 0)%Z || (128 <? len (report_DeploymentID r))%Z)
    "contract: deploymentId must contain between 1 and 128 characters" ;;
  refuse_if ((RouteSwitches r <? 0)%Z || (100 <? RouteSwitches r)%Z)
    "contract: routeSwitches is outside the contract's range" ;;
  refuse_if ((Outcome r =s OutcomeCompleted) && (Z.of_nat (length (Units r)) =? 0)%Z)
    "contract: a completed request must report at least one usage unit" ;;
  validateUnits [] (Units r) ;;
  match Timestamp_Time (StartedAt r) with
  | None => Some "contract: startedAt"
  | Some started =>
      match Timestamp_Time (CompletedAt r) with
      | None => Some "contract: completedAt"
      | Some completed =>
          refuse_if (Before completed started)
            "contract: a request cannot complete before it started"
      end
  end.

(** ** What a usage report must be *)

Definition unit_well_formed (q : UsageQuantity) : Prop := Unit q ∈ usageUnitValues /\ (0 <= Quantity q)%Z.

Lemma validateUnits_spec seen units :
  validateUnits seen units = None <->
  Forall unit_well_formed units /\ NoDup (Unit <$> units) /\ Forall (fun q => Unit q ∉ seen) units.
Proof.
  revert seen. induction units as [|q units IH]; intros seen; cbn [validateUnits].
  - split; [intros _|done]. repeat split; constructor.
  - checks. rewrite IH, (seen_step Unit), Forall_cons. unfold unit_well_formed at 2. tauto.
Qed.

(** What settlement can be run against. *)
Record settleable (r : UsageReport) : Prop := {
  st_version : report_SchemaVersion r = UsageReportSchemaVersion;
  st_request : report_RequestID r <> "";
  st_outcome : Outcome r ∈ requestOutcomeValues;
  st_source : UsageSource r ∈ usageSourceValues;
  st_reference : ModelReference_Valid (ResolvedModelReference r) = true;
  st_provider : ProviderSlug_Valid (ServingProvider r) = true;
  st_deployment : (1 <= len (report_DeploymentID r) <= 128)%Z;
  st_switches : (0 <= RouteSwitches r <= 100)%Z;
  st_completed : Outcome r = OutcomeCompleted -> Units r <> [];
  st_units : Forall unit_well_formed (Units r) /\ NoDup (Unit <$> Units r);
  st_order : exists started completed,
    StartedAt r = Spells started /\ CompletedAt r = Spells completed /\ (started <= completed)%Z;
}.

Lemma UsageReport_Validate_settleable r : UsageReport_Validate r = None <-> settleable r.
Proof.
  unfold UsageReport_Validate. checks.
  rewrite validateUnits_spec.
  pose proof (len_nonneg (report_DeploymentID r)).
  assert (Z.of_nat (length (Units r)) <> 0 <-> Units r <> [])%Z as ->.
  { destruct (Units r); simpl; split; (done || lia). }
  assert (match Timestamp_Time (StartedAt r) with
    | Some started =>
        match Timestamp_Time (CompletedAt r) with
        | Some completed => refuse_if (Before completed started)
            "contract: a request cannot complete before it started"
        | None => Some "contract: completedAt" end
    | None => Some "contract: startedAt" end = None
    <-> exists started completed,
      StartedAt r = Spells started /\ CompletedAt r = Spells completed /\ (started <= completed)%Z) as ->.
  { destruct (StartedAt r) as [s|], (CompletedAt r) as [c|]; simpl; try naive_solver.
    checks. unfold Before. naive_solver. }
  split.
  - intros. destruct_and!. constructor; try done; try lia.
    intros Hc. destruct_or!; [congruence|done].
  - intros []. split_and!; try done; try lia.
    + destruct (decide (Outcome r = OutcomeCompleted)); [right; auto|by left].
    + by destruct st_units0.
    + by destruct st_units0.
    + apply Forall_forall. by intros ? ? []%not_elem_of_nil.
Qed.
