(* ===== verification/Request.v ===== *)
(** * The signed request envelope (internal/contract/request.go, decisions.go, image.go)

    The envelope Oxy's edge forwards, and the whole of what Kaana checks about
    its structure before it resolves a route. *)

From S2P Require Import Prelude Ids Text Contract.
Import Regex.

(** ** Data *)

Definition ContentSourceURL := "url".
Definition ContentSourceInline := "inline".

Record ContentSource := mkSource {
  source_Kind : string;
  URL : option string;
  MediaType : option string;
  Data : option string;
}.

Definition ContentPartText := "text".
Definition ContentPartImage := "image".
Definition ContentPartAudio := "audio".
Definition ContentPartFile := "file".
Definition ContentPartRefusal := "refusal".

Record ContentPart := mkPart {
  part_Type : string;
  part_Text : option string;
  part_Source : option ContentSource;
  part_Detail : option string;
  Filename : option string;
}.

Record ToolCall := mkToolCall { call_ID : string; call_Name : string; Arguments_ : string }.

Record Message := mkMessage {
  Role : string;
  Content : list ContentPart;
  message_Name : option string;
  ToolCallID : option string;
  ToolCalls : option (list ToolCall);
}.

Record DecisionQuestion := mkQuestion {
  question_ID : string;
  question_Kind : string;
  question_Question : string;
  Criteria : option string;
  Options : option (list string);
  Levels : option (list string);
}.

Record DecisionInput := mkDecisionInput {
  decision_State : string;
  Instructions : option string;
  Questions : list DecisionQuestion;
  decision_Effort : option string;
}.

Definition InputMessages := "messages".
Definition InputText := "text".
Definition InputTextBatch := "text_batch".
Definition InputDecisions := "decisions".

Record Input := mkInput {
  Decisions : option DecisionInput;
  Format : string;
  Messages : option (list Message);
  input_Text : option string;
  Texts : option (list string);
}.

Record SamplingParameters := mkSampling {
  Temperature : option float64;
  TopP : option float64;
  TopK : option Z;
  FrequencyPenalty : option float64;
  PresencePenalty : option float64;
  Seed : option Z;
  StopSequences : option (list string);
}.

Record ToolDefinition := mkTool {
  tool_Type : string;
  tool_Name : string;
  Description : option string;
  Parameters_ : option (list (string * Json));
  tool_Strict : option bool;
}.

Record ToolChoice := mkToolChoice { choice_Mode : option string; choice_Function : option string }.

Record ResponseFormat := mkResponseFormat {
  format_Type : string;
  format_Name : option string;
  Schema : option (list (string * Json));
  format_Strict : option bool;
}.

Definition TargetModel := "model".
Definition TargetRoutingProfileID := "routing_profile_id".

Record RoutingTarget := mkTarget {
  Kind : string;
  target_ModelReference : option string;
  target_RoutingProfileID : option string;
}.

Definition SubstitutionSameModel := "same_model".
Definition SubstitutionCrossModel := "cross_model".
Definition routeSubstitutionValues := [SubstitutionSameModel; SubstitutionCrossModel].

Record CustomerProviderCredential := mkCustomerCredential {
  binding_CredentialHandle : string;
  CredentialRevision : Z;
  binding_OwnerAccountID : string;
  binding_ConnectionID : string;
  binding_Environment : string;
}.

Record AuthorizedRoute := mkAuthorizedRoute {
  Substitution : string;
  DeploymentID : string;
  ModelReference : string;
  route_Provider : string;
  Regions : option (list string);
  AuthorizedByPolicy : option bool;
  MaxFundingTier : option string;
  route_Credential : option CustomerProviderCredential;
}.

Record SpeechParameters := mkSpeech { speech_Voice : string; speech_Format : string; Speed : option float64 }.
Record TranscriptionParameters := mkTranscription { Language : option string; Prompt : option string }.
Record AudioOutputParameters := mkAudioOutput { audio_Voice : string; audio_Format : string }.

Record Request := mkRequest {
  Speech : option SpeechParameters;
  Transcription : option TranscriptionParameters;
  AudioOutput : option AudioOutputParameters;
  SchemaVersion : Z;
  request_Attribution : Attribution;
  Target : RoutingTarget;
  Modality : string;
  request_Input : Input;
  Stream : bool;
  MaxOutputTokens : option Z;
  Sampling : SamplingParameters;
  Reasoning : option string;
  Tools : list ToolDefinition;
  request_ToolChoice : option ToolChoice;
  request_ResponseFormat : option ResponseFormat;
  APIFormat : string;
  AuthorizedRoutes : list AuthorizedRoute;
}.

Definition request_RequestID (r : Request) : string := attribution_RequestID (request_Attribution r).

(** ** Routing *)

Definition RoutingTarget_validate (t : RoutingTarget) : option string :=
  if Kind t =s TargetModel then
    match target_ModelReference t with
    | None => Some "contract: a model target must name a model reference"
    | Some reference =>
        refuse_if (negb (ModelReference_Valid reference)) "contract: not a model reference" ;;
        refuse_if (bool_decide (is_Some (target_RoutingProfileID t)))
          "contract: a model target cannot also name a routing profile id"
    end
  else if Kind t =s TargetRoutingProfileID then
    match target_RoutingProfileID t with
    | None => Some "contract: a routing-profile target must name an exact profile id"
    | Some id =>
        refuse_if (negb (RoutingProfileID_Valid id))
          "contract: routingProfileId must contain between 1 and 128 characters" ;;
        refuse_if (bool_decide (is_Some (target_ModelReference t)))
          "contract: a routing-profile target cannot also name a model"
    end
  else Some "contract: not a routing-target kind".

Definition base32_lower (c : ascii) : bool := is_lower c || in_range "2" "7" c.

(** [^kcred_[a-z2-7]{26}$]. *)
Definition kaanaCredentialHandlePattern : regex :=
  Seq (Char "k") (Seq (Char "c") (Seq (Char "r") (Seq (Char "e") (Seq (Char "d") (Seq (Char "_")
    (Repeat 26 (Class base32_lower))))))).

Definition validKaanaCredentialHandle (handle : string) : bool :=
  matches kaanaCredentialHandlePattern handle.

Definition CustomerProviderCredential_validate (c : CustomerProviderCredential) : option string :=
  refuse_if (negb (validKaanaCredentialHandle (binding_CredentialHandle c)))
    "credentialHandle must be kcred_ plus 26 lowercase base32 characters" ;;
  refuse_if ((CredentialRevision c <=? 0)%Z || (2 ^ 53 - 1 <? CredentialRevision c)%Z)
    "credentialRevision must be a positive safe integer" ;;
  refuse_if ((len (binding_OwnerAccountID c) =? 0)%Z || (64 <? len (binding_OwnerAccountID c))%Z)
    "ownerAccountId must contain between 1 and 64 characters" ;;
  refuse_if ((len (binding_ConnectionID c) =? 0)%Z || (128 <? len (binding_ConnectionID c))%Z)
    "connectionId must contain between 1 and 128 characters" ;;
  refuse_if (negb (isMember (binding_Environment c) environmentValues))
    "not a credential environment".

Definition AuthorizedRoute_validate (r : AuthorizedRoute) : option string :=
  refuse_if (negb (isMember (Substitution r) routeSubstitutionValues))
    "not an authorized-route substitution" ;;
  refuse_if ((len (DeploymentID r) =? 0)%Z || (128 <? len (DeploymentID r))%Z)
    "deploymentId must contain between 1 and 128 characters" ;;
  refuse_if (negb (ModelReference_Valid (ModelReference r)) || negb (Pinned (ModelReference r)))
    "modelReference must pin an immutable revision" ;;
  refuse_if (negb (ProviderSlug_Valid (route_Provider r))) "not a provider slug" ;;
  match Regions r with
  | None => Some "regions must be an explicit array"
  | Some regions => first_refusal (fun region => refuse_if (negb (Region_Valid region)) "not a region") regions
  end ;;
  match route_Credential r with
  | Some credential => CustomerProviderCredential_validate credential
  | None => None
  end ;;
  match MaxFundingTier r with
  | Some tier =>
      refuse_if (negb (FundingTier_Valid tier)) "maxFundingTier: not a funding tier" ;;
      refuse_if (bool_decide (is_Some (route_Credential r)))
        "maxFundingTier: a funding ceiling bounds platform keys"
  | None => None
  end ;;
  (if Substitution r =s SubstitutionSameModel
   then refuse_if (bool_decide (is_Some (AuthorizedByPolicy r)))
          "same_model cannot carry authorizedByPolicy"
   else if Substitution r =s SubstitutionCrossModel
   then refuse_if (negb (bool_decide (AuthorizedByPolicy r = Some true)))
          "cross_model requires authorizedByPolicy=true"
   else None).

Fixpoint validateRoutes (seen : list string) (routes : list AuthorizedRoute) : option string :=
  match routes with
  | [] => None
  | route :: rest =>
      AuthorizedRoute_validate route ;;
      refuse_if (isMember (DeploymentID route) seen)
        "contract: authorizedRoutes: each deployment appears at most once" ;;
      validateRoutes (DeploymentID route :: seen) rest
  end.

Definition validateRouteList (routes : list AuthorizedRoute) : option string :=
  match routes with
  | [] => Some "contract: authorizedRoutes must contain at least one route"
  | _ => validateRoutes [] routes
  end.

(** The rules of the last loop of [validateAuthorizedRoutes], on one route. *)
Definition validateSubstitution (primaryLine : string) (route : AuthorizedRoute) : option string :=
  let line := ModelID (ModelReference route) in
  refuse_if ((Substitution route =s SubstitutionSameModel) && negb (line =s primaryLine))
    "contract: route is a cross-model substitute" ;;
  refuse_if ((Substitution route =s SubstitutionCrossModel) && (line =s primaryLine))
    "contract: route is same-model failover".

Definition validateAuthorizedRoutes (target : RoutingTarget) (routes : list AuthorizedRoute)
    : option string :=
  validateRouteList routes ;;
  match routes with
  | [] => None
  | primary :: _ =>
      let primaryLine := ModelID (ModelReference primary) in
      refuse_if (negb (Substitution primary =s SubstitutionSameModel))
        "contract: the first authorized route is the primary and cannot be a substitution" ;;
      (if Kind target =s TargetModel then
         match target_ModelReference target with
         | Some targetReference =>
             refuse_if (Pinned targetReference && negb (ModelReference primary =s targetReference))
               "contract: a pinned request is served on exactly the revision it pinned" ;;
             refuse_if (negb (Pinned targetReference) && negb (primaryLine =s ModelID targetReference))
               "contract: the primary authorized route must serve the model the request named" ;;
             (if Pinned targetReference then
                first_refusal (fun route =>
                  refuse_if (Substitution route =s SubstitutionCrossModel)
                    "contract: a request that pinned a revision authorizes no cross-model substitute")
                  routes
              else None)
         | None => None
         end
       else None) ;;
      first_refusal (validateSubstitution primaryLine) routes
  end.

(** ** Input *)

Definition ContentSource_validate (s : ContentSource) : option string :=
  if source_Kind s =s ContentSourceURL then
    refuse_if (default "" (URL s) =s "") "a url source must carry a url"
  else if source_Kind s =s ContentSourceInline then
    refuse_if (negb (bool_decide (is_Some (MediaType s)) && bool_decide (is_Some (Data s))))
      "an inline source must carry a media type and data"
  else Some "not a content-source kind".

Definition ContentPart_validate (p : ContentPart) : option string :=
  if (part_Type p =s ContentPartText) || (part_Type p =s ContentPartRefusal) then
    refuse_if (negb (bool_decide (is_Some (part_Text p)))) "the part must carry text"
  else if (part_Type p =s ContentPartImage) || (part_Type p =s ContentPartAudio)
          || (part_Type p =s ContentPartFile) then
    match part_Source p with
    | None => Some "the part must carry a source"
    | Some source => ContentSource_validate source
    end
  else Some "not a content-part type".

Definition Message_validate (m : Message) : option string :=
  let assistant := Role m =s RoleAssistant in
  let tool := Role m =s RoleTool in
  let answers := bool_decide (is_Some (ToolCallID m)) in
  refuse_if (negb (isMember (Role m) messageRoleValues)) "not a message role" ;;
  refuse_if (tool && negb answers) "a tool message must name the tool call it answers" ;;
  refuse_if (negb tool && answers) "only a tool message answers a tool call" ;;
  refuse_if (negb assistant && bool_decide (is_Some (ToolCalls m)))
    "only an assistant message makes tool calls" ;;
  first_refusal (fun part =>
    refuse_if (negb assistant && (part_Type part =s ContentPartRefusal))
      "only an assistant message carries a refusal" ;;
    ContentPart_validate part) (Content m).

(** *** Decisions (decisions.go) *)

Definition DecisionTotalBudget : Z := 64000.
Definition DecisionContextBudget : Z := 32000.
Definition DecisionGatewayBudget : Z := 32000.
Definition DecisionGatewayAllowance : Z := 4096.
Definition decisionModelAllowance : nat := 255.

Definition opt_member (name : string) (value : option Json) : list (string * Json) :=
  match value with Some v => [(name, v)] | None => [] end.

(** An [omitempty] string slice. *)
Definition list_member (name : string) (values : option (list string)) : list (string * Json) :=
  match values with
  | Some (_ :: _ as l) => [(name, JArray (map JString l))]
  | _ => []
  end.

(** A Go map built from a list of assignments, marshalled: the last assignment
    to a key wins and keys are sorted. *)
Definition json_of_assignments (assignments : list (string * Json)) : Json :=
  json_map (map_to_list (list_to_map (reverse assignments) : gmap string Json)).

Definition DecisionWireQuestion (d : DecisionInput) (q : DecisionQuestion) : Json :=
  let instructions :=
    json_map ([("question", JString (question_Question q))]
              ++ opt_member "instructions" (JString <$> Instructions d)
              ++ opt_member "criteria" (JString <$> Criteria q)) in
  let criteria :=
    if question_Kind q =s "choice" then
      Some (json_of_assignments (map (fun label => (label, JNull)) (default [] (Options q))))
    else if question_Kind q =s "score" then
      Some match Levels q with Some levels => JArray (map JString levels) | None => JNull end
    else None in
  JObject ([("type", JString (question_Kind q)); ("instructions", instructions)]
           ++ opt_member "criteria" criteria).

Definition DecisionWireQuestions (d : DecisionInput) (questions : list DecisionQuestion) : Json :=
  json_of_assignments (map (fun q => (question_ID q, DecisionWireQuestion d q)) questions).

Definition question_json (q : DecisionQuestion) : Json :=
  JObject ([("id", JString (question_ID q)); ("kind", JString (question_Kind q));
            ("question", JString (question_Question q))]
           ++ opt_member "criteria" (JString <$> Criteria q)
           ++ list_member "options" (Options q) ++ list_member "levels" (Levels q)).

Fixpoint repeat_string (n : nat) (s : string) : string :=
  match n with O => "" | S n => s +:+ repeat_string n s end.

Definition measure (d : DecisionInput) (questions : list DecisionQuestion) : Z :=
  let model := JString (repeat_string decisionModelAllowance "x") in
  let normalized :=
    JObject ([("state", JString (decision_State d))]
             ++ opt_member "instructions" (JString <$> Instructions d)
             ++ [("questions", JArray (map question_json questions))]
             ++ opt_member "effort" (JString <$> decision_Effort d) ++ [("model", model)]) in
  let wire :=
    JObject ([("model", model); ("state", JString (decision_State d));
              ("questions", DecisionWireQuestions d questions)]
             ++ opt_member "effort" (JString <$> decision_Effort d)) in
  Z.max (len (json_encode normalized)) (len (json_encode wire)).

Record DecisionBudget := mkBudget { Total : Z; Context_ : Z; Gateway : Z }.

Definition Budget (d : DecisionInput) : DecisionBudget :=
  let total := measure d (Questions d) in
  let context := foldl (fun context q => Z.max context (measure d [q])) 0%Z (Questions d) in
  mkBudget total context (total + DecisionGatewayAllowance).

Definition FitsGateway (d : DecisionInput) : bool := (Gateway (Budget d) <=? DecisionGatewayBudget)%Z.

Definition decisionText (s : string) : bool := (0 <? len s)%Z && (utf16Length s <=? 65536)%Z.

Definition decisionEffortValues := ["instant"; "low"; "medium"; "high"; "xhigh"].

Definition count {A} (l : option (list A)) : Z := Z.of_nat (length (default [] l)).

(** The labels loop: each well formed, none repeated. *)
Fixpoint validateLabels (unique : list string) (labels : list string) : option string :=
  match labels with
  | [] => None
  | label :: rest =>
      refuse_if (negb (decisionText label) || isMember label unique)
        "contract: invalid or repeated decision label" ;;
      validateLabels (label :: unique) rest
  end.

Definition validateQuestion (q : DecisionQuestion) : option string :=
  refuse_if match Criteria q with Some c => negb (decisionText c) | None => false end
    "contract: invalid decision criteria" ;;
  if question_Kind q =s "choice" then
    refuse_if ((count (Options q) <? 2)%Z || (255 <? count (Options q))%Z
               || bool_decide (is_Some (Levels q))) "contract: invalid choice options" ;;
    validateLabels [] (default [] (Options q))
  else if question_Kind q =s "score" then
    refuse_if ((count (Levels q) <? 2)%Z || (10 <? count (Levels q))%Z
               || bool_decide (is_Some (Options q))) "contract: invalid score levels" ;;
    validateLabels [] (default [] (Levels q))
  else if question_Kind q =s "noul" then
    refuse_if (bool_decide (is_Some (Levels q)) || bool_decide (is_Some (Options q)))
      "contract: noul carries no labels"
  else Some "contract: unknown decision kind".

Fixpoint validateQuestions (seen : list string) (questions : list DecisionQuestion) : option string :=
  match questions with
  | [] => None
  | q :: rest =>
      refuse_if ((question_ID q =s "") || (128 <? utf16Length (question_ID q))%Z
                 || isMember (question_ID q) seen || negb (decisionText (question_Question q)))
        "contract: invalid or repeated decision question" ;;
      validateQuestion q ;;
      validateQuestions (question_ID q :: seen) rest
  end.

(** [DecisionInput.Validate]; the budget [ValidatedBudget] also returns is [Budget d]. *)
Definition DecisionInput_Validate (d : DecisionInput) : option string :=
  let n := Z.of_nat (length (Questions d)) in
  refuse_if ((n <? 1)%Z || (255 <? n)%Z || (65536 <? utf16Length (decision_State d))%Z
             || match decision_Effort d with
                | Some effort => negb (isMember effort decisionEffortValues) | None => false end)
    "contract: invalid decisions state, questions or effort" ;;
  refuse_if match Instructions d with Some i => negb (decisionText i) | None => false end
    "contract: invalid decisions instructions" ;;
  validateQuestions [] (Questions d) ;;
  refuse_if ((DecisionTotalBudget <? Total (Budget d))%Z
             || (DecisionContextBudget <? Context_ (Budget d))%Z)
    "contract: decisions exceed the serialized budget".

Definition Input_validate (i : Input) : option string :=
  if Format i =s InputDecisions then
    match Decisions i with
    | None => Some "contract: decisions input is required"
    | Some decisions => DecisionInput_Validate decisions
    end
  else if Format i =s InputMessages then
    match Messages i with
    | None | Some [] => Some "contract: a messages input must carry at least one message"
    | Some messages => first_refusal Message_validate messages
    end
  else if Format i =s InputText then
    refuse_if (negb (bool_decide (is_Some (input_Text i)))) "contract: a text input must carry text"
  else if Format i =s InputTextBatch then
    refuse_if (count (Texts i) =? 0)%Z "contract: a text_batch input must carry at least one text"
  else Some "contract: not an input format".

(** *** Images (image.go) *)

Definition MaxInputImages : Z := 20.
Definition MaxInputImageBytes : Z := 3750000.
Definition inputImageMediaTypes := ["image/png"; "image/jpeg"; "image/webp"; "image/gif"].

Inductive ImageIssueField :=
| ImageIssueRole | ImageIssueSource | ImageIssueMediaType | ImageIssueData | ImageIssueCount.

Record ImageInputIssue := mkIssue {
  MessageIndex : Z;
  PartIndex : option Z;
  Field : ImageIssueField;
}.

Definition base64_char (c : ascii) : bool := alnum c || Ascii.eqb c "+" || Ascii.eqb c "/".

Fixpoint all_chars (f : ascii -> bool) (s : string) : bool :=
  match s with EmptyString => true | String c s => f c && all_chars f s end.

Definition has_suffix (suffix s : string) : bool :=
  (String.length suffix <=? String.length s)%nat
  && (String.substring (String.length s - String.length suffix) (String.length suffix) s =s suffix).

Definition Base64DecodedLength (data : string) : option Z :=
  let n := len data in
  if (n =? 0)%Z || negb (n mod 4 =? 0)%Z then None
  else
    let padding := if has_suffix "==" data then 2%Z else if has_suffix "=" data then 1%Z else 0%Z in
    if all_chars base64_char (String.substring 0 (Z.to_nat (n - padding)) data)
    then Some (n / 4 * 3 - padding)%Z else None.

(** The issues of one image part. *)
Definition check_image (messageIndex partIndex : Z) (role : string) (part : ContentPart)
    : list ImageInputIssue :=
  let at_ field := mkIssue messageIndex (Some partIndex) field in
  (if negb (role =s RoleUser) && negb (role =s RoleTool) then [at_ ImageIssueRole] else []) ++
  match part_Source part with
  | None => [at_ ImageIssueSource]
  | Some source =>
      if negb (source_Kind source =s ContentSourceInline) then [at_ ImageIssueSource]
      else
        (if match MediaType source with
            | None => true | Some t => negb (isMember t inputImageMediaTypes) end
         then [at_ ImageIssueMediaType] else []) ++
        match Base64DecodedLength (default "" (Data source)) with
        | None => [at_ ImageIssueData]
        | Some bytes => if (MaxInputImageBytes <? bytes)%Z then [at_ ImageIssueData] else []
        end
  end.

Definition is_image (part : ContentPart) : bool := part_Type part =s ContentPartImage.

Definition check_message (messageIndex : nat) (message : Message) : list ImageInputIssue :=
  concat (imap (fun partIndex part =>
    if is_image part
    then check_image (Z.of_nat messageIndex) (Z.of_nat partIndex) (Role message) part else [])
    (Content message)).

Definition CheckImageInput (messages : list Message) : Z * list ImageInputIssue :=
  let images := Z.of_nat (length (filter (fun part => is_image part = true)
                                    (concat (map Content messages)))) in
  (images,
   concat (imap check_message messages) ++
   if (MaxInputImages <? images)%Z
   then [mkIssue (Z.of_nat (length messages) - 1) None ImageIssueCount] else []).

(** ** The envelope *)

Definition speechFormatValues := ["mp3"; "opus"; "aac"; "flac"; "wav"; "pcm"].
Definition AudioOutputPCM := "pcm".
Definition audioOutputFormatValues := ["wav"; "mp3"; "flac"; "opus"; "pcm"].

(** [^[A-Za-z]{2,3}(?:-[A-Za-z0-9]{2,8})*$] (public.go). *)
Definition languageTagPattern : regex :=
  Seq (RepeatRange 2 1 (Class (fun c => is_lower c || is_upper c)))
    (Star (Seq (Char "-") (RepeatRange 2 6 (Class alnum)))).
Definition LanguageTag_Valid (t : string) : bool := (len t <=? 35)%Z && matches languageTagPattern t.

Definition f64_0_25 : float64 := S754_finite false 4503599627370496 (-54).
Definition f64_4 : float64 := f64_of_Z 4.

Definition LegacyRequestEnvelopeVersion : Z := 1.
Definition RequestEnvelopeVersion : Z := 2.
Definition SupportsRequestEnvelopeVersion (version : Z) : bool :=
  (version =? LegacyRequestEnvelopeVersion)%Z || (version =? RequestEnvelopeVersion)%Z.

Fixpoint toolNamesRepeat (seen : list string) (tools : list ToolDefinition) : bool :=
  match tools with
  | [] => false
  | tool :: rest => isMember (tool_Name tool) seen || toolNamesRepeat (tool_Name tool :: seen) rest
  end.

Definition validateToolDeclarations (tools : list ToolDefinition) (choice : option ToolChoice)
    : option string :=
  refuse_if (bool_decide (is_Some choice) && match tools with [] => true | _ => false end)
    "contract: a tool choice requires at least one tool definition" ;;
  refuse_if (toolNamesRepeat [] tools) "contract: tool names must be unique within one request".

Definition present {A} (o : option A) : bool := match o with Some _ => true | None => false end.

Definition validateDecisionRoutes (target : RoutingTarget) (routes : list AuthorizedRoute)
    : option string :=
  if Kind target =s TargetModel then
    match target_ModelReference target with
    | None => Some "contract: a decisions model target names its model"
    | Some reference =>
        first_refusal (fun route =>
          let revision :=
            if Pinned reference then reference
            else match routes with primary :: _ => ModelReference primary | [] => "" end in
          refuse_if (negb (ModelReference route =s revision) || negb (Pinned revision)
                     || negb (ModelID revision =s ModelID reference)
                     || negb (Substitution route =s SubstitutionSameModel))
            "contract: decisions cannot substitute model revisions") routes
    end
  else if Kind target =s TargetRoutingProfileID then
    first_refusal (fun route =>
      refuse_if (negb (Pinned (ModelReference route))) "contract: decisions are served on pinned routes")
      routes
  else Some "contract: decisions require a model or policy target".

Definition ValidateDecisionsEnvelope (r : Request) : option string :=
  let i := request_Input r in
  let s := Sampling r in
  refuse_if (negb (APIFormat r =s APIFormatDecisions) || negb (Format i =s InputDecisions)
             || negb (present (Decisions i)) || negb (Modality r =s ModalityText) || Stream r
             || present (MaxOutputTokens r) || negb (Z.of_nat (length (Tools r)) =? 0)%Z
             || present (request_ToolChoice r) || present (request_ResponseFormat r)
             || present (Reasoning r) || present (Speech r) || present (Transcription r)
             || present (AudioOutput r) || present (Messages i) || present (input_Text i)
             || present (Texts i))
    "contract: decisions require typed nonstreaming text without generation controls" ;;
  validateDecisionRoutes (Target r) (AuthorizedRoutes r) ;;
  refuse_if (present (Temperature s) || present (TopP s) || present (TopK s)
             || present (FrequencyPenalty s) || present (PresencePenalty s) || present (Seed s)
             || present (StopSequences s))
    "contract: decisions carry no sampling controls" ;;
  match Decisions i with Some decisions => DecisionInput_Validate decisions | None => None end.

Definition validateAudioOutput (r : Request) (a : AudioOutputParameters) : option string :=
  refuse_if (negb (APIFormat r =s APIFormatChatCompletions))
    "contract: audioOutput: requires the chat_completions API format" ;;
  refuse_if (negb (Modality r =s ModalityAudio) || negb (Format (request_Input r) =s InputMessages))
    "contract: audioOutput: requires audio modality and a messages input" ;;
  refuse_if ((len (audio_Voice a) =? 0)%Z || (64 <? utf16Length (audio_Voice a))%Z)
    "contract: audioOutput.voice must be 1 to 64 characters" ;;
  refuse_if (negb (isMember (audio_Format a) audioOutputFormatValues))
    "contract: audioOutput.format is not an audio output format" ;;
  refuse_if (Stream r && negb (audio_Format a =s AudioOutputPCM))
    "contract: audioOutput.format: streamed spoken output is pcm".

Definition validateSpeech (r : Request) (s : SpeechParameters) : option string :=
  refuse_if (negb (APIFormat r =s APIFormatAudioSpeech) || negb (Modality r =s ModalityAudio)
             || negb (Format (request_Input r) =s InputText))
    "contract: speech requires audio_speech with text input" ;;
  refuse_if ((len (speech_Voice s) =? 0)%Z || (64 <? utf16Length (speech_Voice s))%Z
             || negb (isMember (speech_Format s) speechFormatValues))
    "contract: invalid speech voice or response format" ;;
  refuse_if match Speed s with
            | Some speed => SFltb speed f64_0_25 || SFltb f64_4 speed | None => false end
    "contract: invalid speech speed".

Definition validateTranscription (r : Request) (t : TranscriptionParameters) : option string :=
  refuse_if (negb (APIFormat r =s APIFormatAudioTranscriptions) || negb (Modality r =s ModalityAudio)
             || negb (Format (request_Input r) =s InputMessages))
    "contract: transcription parameters require audio_transcriptions with audio messages input" ;;
  refuse_if match Language t with Some tag => negb (LanguageTag_Valid tag) | None => false end
    "contract: transcription.language is not a BCP 47 language tag".

Definition Request_Validate (r : Request) : option string :=
  let i := request_Input r in
  let principal := Principal (request_Attribution r) in
  (if (Format i =s InputDecisions) || (APIFormat r =s APIFormatDecisions)
   then ValidateDecisionsEnvelope r
   else refuse_if (present (Decisions i)) "contract: decisions require decisions input format") ;;
  validate_some (validateAudioOutput r) (AudioOutput r) ;;
  validate_some (validateSpeech r) (Speech r) ;;
  validate_some (validateTranscription r) (Transcription r) ;;
  refuse_if (negb (SupportsRequestEnvelopeVersion (SchemaVersion r)))
    "contract: envelope schemaVersion is not implemented by this build" ;;
  refuse_if ((SchemaVersion r =? LegacyRequestEnvelopeVersion)%Z && negb (Kind (Target r) =s TargetModel))
    "contract: envelope schemaVersion accepts only a direct model target" ;;
  refuse_if (request_RequestID r =s "") "contract: attribution.requestId is required" ;;
  validateAuthority (Authority principal) (InferenceScopes principal) ;;
  refuse_if (Billing_AccountID principal =s "")
    "contract: attribution.principal.billing.accountId is required" ;;
  RoutingTarget_validate (Target r) ;;
  Input_validate i ;;
  (if Format i =s InputMessages
   then refuse_if match (CheckImageInput (default [] (Messages i))).2 with [] => false | _ => true end
          "contract: image"
   else None) ;;
  refuse_if (negb (isMember (Modality r) modalityValues)) "contract: not a modality" ;;
  refuse_if (negb (isMember (APIFormat r) apiFormatValues)) "contract: not an api format" ;;
  refuse_if match Reasoning r with Some effort => negb (ReasoningEffort_Valid effort) | None => false end
    "contract: reasoning.effort is not a reasoning effort" ;;
  refuse_if match MaxOutputTokens r with Some n => (n <=? 0)%Z | None => false end
    "contract: maxOutputTokens must be positive" ;;
  validateToolDeclarations (Tools r) (request_ToolChoice r) ;;
  validateAuthorizedRoutes (Target r) (AuthorizedRoutes r).

(** ** Authorized routes *)

(** What one authorized route must be. *)
Record route_well_formed (r : AuthorizedRoute) : Prop := {
  wf_deployment : (1 <= len (DeploymentID r) <= 128)%Z;
  wf_reference : ModelReference_Valid (ModelReference r) = true /\ Pinned (ModelReference r) = true;
  wf_provider : ProviderSlug_Valid (route_Provider r) = true;
  wf_regions : exists regions, Regions r = Some regions /\ Forall (fun g => Region_Valid g = true) regions;
  wf_credential : forall c, route_Credential r = Some c -> CustomerProviderCredential_validate c = None;
  wf_ceiling : forall tier, MaxFundingTier r = Some tier ->
    FundingTier_Valid tier = true /\ route_Credential r = None;
  wf_substitution :
    (Substitution r = SubstitutionSameModel /\ AuthorizedByPolicy r = None) \/
    (Substitution r = SubstitutionCrossModel /\ AuthorizedByPolicy r = Some true);
}.

Lemma AuthorizedRoute_validate_spec r : AuthorizedRoute_validate r = None <-> route_well_formed r.
Proof.
  unfold AuthorizedRoute_validate. checks.
  pose proof (len_nonneg (DeploymentID r)) as Hlen.
  assert (match Regions r with
    | Some regions => first_refusal (fun region => refuse_if (negb (Region_Valid region)) "not a region") regions
    | None => Some "regions must be an explicit array" end = None
    <-> exists regions, Regions r = Some regions /\ Forall (fun g => Region_Valid g = true) regions) as ->.
  { destruct (Regions r); checks; [|naive_solver]. setoid_rewrite refuse_if_None.
    setoid_rewrite negb_false_iff. naive_solver. }
  assert (match MaxFundingTier r with
    | Some tier => refuse_if (negb (FundingTier_Valid tier)) "maxFundingTier: not a funding tier" ;;
        refuse_if (bool_decide (is_Some (route_Credential r)))
          "maxFundingTier: a funding ceiling bounds platform keys"
    | None => None end = None
    <-> forall tier, MaxFundingTier r = Some tier -> FundingTier_Valid tier = true /\ route_Credential r = None) as ->.
  { destruct (MaxFundingTier r); checks; [|naive_solver].
    rewrite bool_decide_eq_false, <-eq_None_not_Some. naive_solver. }
  assert (match route_Credential r with
    | Some credential => CustomerProviderCredential_validate credential | None => None end = None
    <-> forall c, route_Credential r = Some c -> CustomerProviderCredential_validate c = None) as ->.
  { destruct (route_Credential r); naive_solver. }
  assert (Substitution r ∈ routeSubstitutionValues ->
    (if Substitution r =s SubstitutionSameModel
     then refuse_if (bool_decide (is_Some (AuthorizedByPolicy r))) "same_model cannot carry authorizedByPolicy"
     else if Substitution r =s SubstitutionCrossModel
     then refuse_if (negb (bool_decide (AuthorizedByPolicy r = Some true))) "cross_model requires authorizedByPolicy=true"
     else None) = None
    <-> (Substitution r = SubstitutionSameModel /\ AuthorizedByPolicy r = None) \/
        (Substitution r = SubstitutionCrossModel /\ AuthorizedByPolicy r = Some true)) as Hsub.
  { unfold routeSubstitutionValues. rewrite !elem_of_cons, elem_of_nil.
    intros [->|[->|[]]]; simpl; checks.
    - rewrite bool_decide_eq_false, <-eq_None_not_Some. naive_solver.
    - rewrite bool_decide_eq_true. naive_solver. }
  split.
  - intros (H1 & [? ?] & [? ?] & ? & ? & ? & ? & H9). specialize (Hsub H1). constructor; try done; [lia|].
    by apply Hsub.
  - intros []. assert (Substitution r ∈ routeSubstitutionValues) as H1.
    { unfold routeSubstitutionValues. rewrite !elem_of_cons. naive_solver. }
    rewrite Hsub by done. repeat (split; [done || lia|]). done.
Qed.

Lemma validateRoutes_spec seen routes :
  validateRoutes seen routes = None <->
  Forall route_well_formed routes /\ NoDup (DeploymentID <$> routes) /\
  Forall (fun r => DeploymentID r ∉ seen) routes.
Proof.
  revert seen. induction routes as [|r routes IH]; intros seen; cbn [validateRoutes].
  - repeat split; constructor.
  - checks. rewrite AuthorizedRoute_validate_spec, IH, (seen_step DeploymentID), Forall_cons. tauto.
Qed.

(** What a signed route list must be for the target it serves. *)
Record routes_authorized (target : RoutingTarget) (primary : AuthorizedRoute)
    (routes : list AuthorizedRoute) : Prop := {
  ra_well_formed : Forall route_well_formed routes;
  ra_distinct : NoDup (DeploymentID <$> routes);
  ra_primary : Substitution primary = SubstitutionSameModel;
  ra_substitutions : Forall (fun r =>
    Substitution r = SubstitutionSameModel <->
    ModelID (ModelReference r) = ModelID (ModelReference primary)) routes;
  ra_target : forall reference, Kind target = TargetModel -> target_ModelReference target = Some reference ->
    if Pinned reference
    then ModelReference primary = reference /\ Forall (fun r => Substitution r = SubstitutionSameModel) routes
    else ModelID (ModelReference primary) = ModelID reference;
}.

Lemma validateSubstitution_spec primaryLine r :
  route_well_formed r ->
  validateSubstitution primaryLine r = None <->
  (Substitution r = SubstitutionSameModel <-> ModelID (ModelReference r) = primaryLine).
Proof.
  intros Hr. unfold validateSubstitution. checks.
  destruct (wf_substitution r Hr) as [[-> _]|[-> _]]; naive_solver.
Qed.

(** The envelope's route rules accept exactly the lists that authorize an
    execution: at least one route; each well formed, pinned to a revision, on
    its own deployment; the first one the requested model itself (the exact
    revision when the request pinned one, the same line otherwise); every route
    marked [same_model] on the primary's line and every other one a
    cross-model substitute signed [authorizedByPolicy=true]; and no substitute
    at all under a pinned request. *)
Theorem validateAuthorizedRoutes_spec target routes :
  validateAuthorizedRoutes target routes = None <->
  exists primary rest, routes = primary :: rest /\ routes_authorized target primary routes.
Proof.
  unfold validateAuthorizedRoutes, validateRouteList.
  destruct routes as [|primary rest]; [checks; naive_solver|].
  set (routes := primary :: rest). checks. rewrite validateRoutes_spec.
  assert (Forall route_well_formed routes ->
    Forall (fun r => validateSubstitution (ModelID (ModelReference primary)) r = None) routes <->
    Forall (fun r => Substitution r = SubstitutionSameModel <->
                     ModelID (ModelReference r) = ModelID (ModelReference primary)) routes) as Hsubs.
  { rewrite !Forall_forall. intros Hwf.
    split; intros H r Hin; specialize (H r Hin); [by apply validateSubstitution_spec in H; auto|].
    by apply validateSubstitution_spec; auto. }
  assert ((if Kind target =s TargetModel then
      match target_ModelReference target with
      | Some reference =>
          refuse_if (Pinned reference && negb (ModelReference primary =s reference))
            "contract: a pinned request is served on exactly the revision it pinned" ;;
          refuse_if (negb (Pinned reference) && negb (ModelID (ModelReference primary) =s ModelID reference))
            "contract: the primary authorized route must serve the model the request named" ;;
          (if Pinned reference then
             first_refusal (fun route => refuse_if (Substitution route =s SubstitutionCrossModel)
               "contract: a request that pinned a revision authorizes no cross-model substitute") routes
           else None)
      | None => None end else None) = None
    <-> forall reference, Kind target = TargetModel -> target_ModelReference target = Some reference ->
      if Pinned reference
      then ModelReference primary = reference /\
           Forall (fun r => Substitution r <> SubstitutionCrossModel) routes
      else ModelID (ModelReference primary) = ModelID reference) as ->.
  { destruct (Kind target =s TargetModel) eqn:Hk; bool_cases; [|naive_solver].
    destruct (target_ModelReference target) as [reference|]; [|naive_solver].
    destruct (Pinned reference) eqn:Hp; simpl; checks.
    - setoid_rewrite refuse_if_None. setoid_rewrite String.eqb_neq. split.
      + intros H ? _ [= <-]. rewrite Hp. unfold routes. rewrite Forall_cons. tauto.
      + intros H. specialize (H reference Hk eq_refl). rewrite Hp in H.
        unfold routes in H. rewrite Forall_cons in H. tauto.
    - split.
      + intros H ? _ [= <-]. rewrite Hp. tauto.
      + intros H. specialize (H reference Hk eq_refl). rewrite Hp in H. tauto. }
  assert (Forall route_well_formed routes ->
    Forall (fun r => Substitution r <> SubstitutionCrossModel) routes <->
    Forall (fun r => Substitution r = SubstitutionSameModel) routes) as Hsame.
  { rewrite !Forall_forall. intros Hwf.
    split; intros H r Hin; specialize (H r Hin);
      destruct (wf_substitution r (Hwf r Hin)) as [[E _]|[E _]]; rewrite E in *; done. }
  split.
  - intros ((Hwf & Hnd & _) & Hp & Ht & Hs). exists primary, rest. split; [done|].
    constructor; try done; [by apply Hsubs|]. intros reference Hk Href. specialize (Ht reference Hk Href).
    destruct (Pinned reference); [|done]. by rewrite <-Hsame.
  - intros (? & ? & [= <- <-] & [Hwf Hnd Hp Hs Ht]). split; [|split; [done|split]].
    + split; [done|]. split; [done|]. apply Forall_forall. by intros ? ? []%not_elem_of_nil.
    + intros reference Hk Href. specialize (Ht reference Hk Href).
      destruct (Pinned reference); [|done]. by rewrite Hsame.
    + by apply Hsubs.
Qed.

(** ** An example *)

Definition example_principal : AuthenticatedPrincipal :=
  mkPrincipal (Some AuthorityFirstParty) "acct" "app" "cred" EnvironmentProduction None.

Definition example_route : AuthorizedRoute :=
  mkAuthorizedRoute SubstitutionSameModel "dep" "acme/m@1" "acme" (Some []) None None None.

(** A chat request for one model, authorized on one deployment. *)
Definition example_request : Request :=
  mkRequest None None None 2 (mkAttribution example_principal None "req" None)
    (mkTarget TargetModel (Some "acme/m") None) ModalityText
    (mkInput None InputText None (Some "hello") None) true None
    (mkSampling None None None None None None None) None [] None None APIFormatChatCompletions [example_route].

Example example_request_valid : Request_Validate example_request = None.
Proof. vm_compute. reflexivity. Qed.
