(* ===== verification/Provider.v ===== *)
(** * Provider failures and funding (internal/provider/errors.go, funding.go)

    The error vocabulary adapters classify their failures in, what the breakers
    and the executor read from it, and the economic order of platform keys. *)

From S2P Require Import Prelude Contract.

(** ** Errors *)

(** [ErrUpstream]. *)
Record Upstream := mkUpstream {
  Code : string;
  Category : string;
  RetryAfterMs : Z;
  Passthrough : option ProviderErrorPassthrough;
  RecursOnThisRoute : bool;
}.

(** A Go error value: the provider's error types, the sentinels compared with
    [errors.Is], an error wrapped by [fmt.Errorf("%w")], and any other. *)
Inductive GoError :=
| ErrUnsupported (code param : string)
| ErrUpstream (u : Upstream)
| ErrCustomerCredential (code : string)
| ErrCustomerUpstream (failure : Upstream)
| Sentinel (name : string)
| Wrapped (inner : GoError)
| Opaque.

Definition ContextCanceled := Sentinel "context canceled".
Definition DeadlineExceeded := Sentinel "context deadline exceeded".

Definition Unwrap (e : GoError) : option GoError :=
  match e with
  | ErrCustomerUpstream failure => Some (ErrUpstream failure)
  | Wrapped inner => Some inner
  | _ => None
  end.

(** [errors.Is] against a sentinel. *)
Fixpoint Is (e : GoError) (sentinel : string) : bool :=
  match e with
  | Sentinel name => name =s sentinel
  | Wrapped inner => Is inner sentinel
  | _ => false
  end.

(** [errors.As] into each error type: the first of the unwrap chain. *)
Fixpoint AsUpstream (e : GoError) : option Upstream :=
  match e with
  | ErrUpstream u | ErrCustomerUpstream u => Some u
  | Wrapped inner => AsUpstream inner
  | _ => None
  end.

Fixpoint AsCustomerUpstream (e : GoError) : option Upstream :=
  match e with
  | ErrCustomerUpstream u => Some u
  | Wrapped inner => AsCustomerUpstream inner
  | _ => None
  end.

Fixpoint AsCustomerCredential (e : GoError) : option string :=
  match e with
  | ErrCustomerCredential code => Some code
  | Wrapped inner => AsCustomerCredential inner
  | _ => None
  end.

Fixpoint AsUnsupported (e : GoError) : option (string * string) :=
  match e with
  | ErrUnsupported code param => Some (code, param)
  | Wrapped inner => AsUnsupported inner
  | _ => None
  end.

(** [ErrUpstream.ContractError]. *)
Definition ContractError (requestID : string) (e : Upstream) : Error :=
  let failure := NewError requestID (Code e) in
  let failure := if (0 <? RetryAfterMs e)%Z then WithRetryAfter (RetryAfterMs e) failure else failure in
  WithUpstream (Category e) (Passthrough e) failure.

(** The failure of a call made with a key that is, or is not, a customer's. *)
Definition CustomerCredentialFailure (customerOwned : bool) (failure : Upstream) : GoError :=
  if negb customerOwned then ErrUpstream failure
  else if (Code failure =s CodeProviderCredentialInvalid) || (Code failure =s CodeProviderBillingRefused)
  then ErrCustomerCredential (Code failure)
  else if Code failure =s CodeRateLimited then ErrCustomerUpstream failure
  else ErrUpstream failure.

Definition AttributableCategory (category : string) : bool :=
  if (category =s UpstreamRateLimit) || (category =s UpstreamQuota) || (category =s UpstreamTimeout)
     || (category =s UpstreamOverloaded) || (category =s UpstreamServerError)
     || (category =s UpstreamAuthentication)
  then true
  else if (category =s UpstreamInvalidReq) || (category =s UpstreamContentFilter)
          || (category =s UpstreamUnknown)
  then false
  else false.

Definition DeploymentAttributable (err : GoError) : bool :=
  match AsCustomerUpstream err with
  | Some _ => false
  | None =>
      match AsUpstream err with
      | None => false
      | Some upstream => AttributableCategory (Category upstream)
      end
  end.

(** ** Funding *)

Inductive Funding := FundingFree | FundingPromotional | FundingPrepaid | FundingPaid | FundingUnstated.

#[export] Instance Funding_eq_dec : EqDecision Funding.
Proof. solve_decision. Defined.

Inductive FundingTier := TierFree | TierCredit | TierPaid | TierNone.

#[export] Instance FundingTier_eq_dec : EqDecision FundingTier.
Proof. solve_decision. Defined.

(** The tier a signed ceiling names, and the text a report carries for one. *)
Definition tier_of_string (t : string) : FundingTier :=
  if t =s FundingTierFree then TierFree
  else if t =s FundingTierCredit then TierCredit
  else if t =s FundingTierPaid then TierPaid
  else TierNone.

Definition tier_string (t : FundingTier) : string :=
  match t with
  | TierFree => FundingTierFree | TierCredit => FundingTierCredit
  | TierPaid => FundingTierPaid | TierNone => ""
  end.

Definition FundingTier_rank (t : FundingTier) : Z :=
  match t with TierFree => 0 | TierCredit => 1 | TierPaid => 2 | TierNone => 3 end.

Definition Tier (f : Funding) : FundingTier :=
  match f with
  | FundingFree => TierFree
  | FundingPromotional | FundingPrepaid => TierCredit
  | FundingPaid => TierPaid
  | FundingUnstated => TierNone
  end.

Definition Admits (t : FundingTier) (funding : Funding) : bool :=
  if decide (t = TierNone) then true
  else
    let tier := Tier funding in
    negb (bool_decide (tier = TierNone)) && (FundingTier_rank tier <=? FundingTier_rank t)%Z.

Definition Funding_rank (f : Funding) : Z :=
  match f with
  | FundingFree => 0 | FundingPromotional => 1 | FundingPrepaid => 2 | FundingPaid => 3
  | FundingUnstated => 4
  end.

Definition KeyClassFree := "free".
Definition KeyClassPaid := "paid".
Definition KeyClassUnstated := "".

(** [None] is the error. *)
Definition FundingFor (class capacityCategory : string) : option Funding :=
  fromClass ←
    (if class =s KeyClassFree then Some FundingFree
     else if class =s KeyClassPaid then Some FundingPaid
     else if class =s KeyClassUnstated then Some FundingUnstated
     else None);
  if capacityCategory =s "" then Some fromClass
  else
    fromCategory ←
      (if (capacityCategory =s "trial") || (capacityCategory =s "promotional") then Some FundingPromotional
       else if capacityCategory =s "prepaid" then Some FundingPrepaid
       else if capacityCategory =s "paid" then Some FundingPaid
       else None);
    if bool_decide (fromClass = FundingUnstated) || (Funding_rank fromClass <=? Funding_rank fromCategory)%Z
    then Some fromCategory else Some fromClass.

(** ** Lemmas *)

Lemma Admits_spec t f :
  Admits t f = true <->
  t = TierNone \/ (Tier f <> TierNone /\ (FundingTier_rank (Tier f) <= FundingTier_rank t)%Z).
Proof. destruct t, f; vm_compute; naive_solver. Qed.

(** A retry hint is carried only by an error a retry could survive. *)
Lemma ContractError_retry requestID u ms :
  err_RetryAfterMs (ContractError requestID u) = Some ms ->
  Retryable (Code u) = true /\ ms = RetryAfterMs u /\ (0 < ms)%Z.
Proof.
  unfold ContractError, WithUpstream, WithRetryAfter, NewError. simpl.
  destruct (0 <? RetryAfterMs u)%Z eqn:E; simpl; [|done]. bool_cases.
  destruct (Retryable (Code u)); simpl; [|done].
  destruct (RetryAfterMs u <? 0)%Z eqn:E2; simpl; [done|]. intros [= <-]. done.
Qed.

Lemma ContractError_retryable requestID u :
  err_Retryable (ContractError requestID u) = Retryable (Code u).
Proof. unfold ContractError, WithUpstream, WithRetryAfter, NewError. simpl. by repeat case_match. Qed.

(** A failure on a customer's own key never reaches the shared breaker unless
    it says something about the provider itself: an authentication, billing or
    rate-limit verdict on that key is never attributed to the deployment, and
    every other failure keeps the classification it would have on a platform
    key. *)
Theorem customer_key_failures_stay_with_the_customer u :
  let err := CustomerCredentialFailure true u in
  (Code u ∈ [CodeProviderCredentialInvalid; CodeProviderBillingRefused; CodeRateLimited] ->
   DeploymentAttributable err = false) /\
  (Code u ∉ [CodeProviderCredentialInvalid; CodeProviderBillingRefused; CodeRateLimited] ->
   err = CustomerCredentialFailure false u).
Proof.
  unfold CustomerCredentialFailure. simpl. rewrite !elem_of_cons, elem_of_nil.
  destruct (Code u =s CodeProviderCredentialInvalid) eqn:E1; [by bool_cases; naive_solver|].
  destruct (Code u =s CodeProviderBillingRefused) eqn:E2; [by bool_cases; naive_solver|].
  destruct (Code u =s CodeRateLimited) eqn:E3; bool_cases; naive_solver.
Qed.

(** The funding of a key is never read cheaper than either statement about
    it: when its class and its capacity category both state a funding, the
    dearer of the two is the one it is spent and bounded by, and an unstated
    key is admitted under no ceiling. *)
Theorem FundingFor_is_the_dearer_statement class category f :
  FundingFor class category = Some f ->
  (forall c, FundingFor class "" = Some c -> c <> FundingUnstated -> (Funding_rank c <= Funding_rank f)%Z) /\
  (forall c, category <> "" -> FundingFor "" category = Some c -> (Funding_rank c <= Funding_rank f)%Z) /\
  (forall t, t <> TierNone -> f = FundingUnstated -> Admits t f = false) /\
  (forall t, Admits t f = true -> t <> TierNone ->
     (forall c, FundingFor class "" = Some c -> c <> FundingUnstated -> Admits t c = true)).
Proof.
  unfold FundingFor. intros Hf.
  destruct (class =s KeyClassFree) eqn:E1; [|destruct (class =s KeyClassPaid) eqn:E2;
    [|destruct (class =s KeyClassUnstated) eqn:E3; [|done]]]; simpl in *;
  (destruct (category =s "") eqn:E4; simpl in *;
   [|destruct ((category =s "trial") || (category =s "promotional")) eqn:E5; simpl in *;
     [|destruct (category =s "prepaid") eqn:E6; simpl in *;
       [|destruct (category =s "paid") eqn:E7; simpl in *; [|done]]]]);
  injection Hf as <-; bool_cases; subst;
  (split_and!; [intros c [= <-] ?; done || (simpl; lia)
               |intros c ? [= <-]; done || (simpl; lia)
               |intros []; done
               |intros [] ? ? c [= <-] ?; done]).
Qed.

Lemma FundingFor_is_the_dearer_statement_witness :
  (Funding_rank FundingPromotional <= Funding_rank FundingPaid)%Z /\
  (Funding_rank FundingPaid <= Funding_rank FundingPaid)%Z.
Proof.
  destruct (FundingFor_is_the_dearer_statement "paid" "trial" FundingPaid eq_refl) as (H1 & H2 & _).
  split.
  - apply (H2 FundingPromotional); [done|reflexivity].
  - apply (H1 FundingPaid); [reflexivity|done].
Defined.
