(* ===== verification/KeyPool.v ===== *)
(** * Credential pools (internal/provider/credential.go)

    A provider credential is a pool of keys; one request walks it.  A view
    (an operator pin, a funding ceiling, or both) owns no credential state: it
    is a [View] over a root [KeyPool], and every mutation is applied to the
    root, which is explicit state here.  The durable runtime a key may be
    coordinated through is code outside the walk: its answers are inputs. *)

From S2P Require Import Prelude Text Contract Provider.

Definition DefaultKeyRetirement : Duration := 15 * Minute.

(** ** Verdicts *)

Inductive CredentialVerdict :=
| CredentialHealthy | CredentialExhausted | CredentialRejected | CredentialRequestFault.

#[export] Instance CredentialVerdict_eq_dec : EqDecision CredentialVerdict.
Proof. solve_decision. Defined.

Definition CredentialVerdictFor (err : GoError) : CredentialVerdict :=
  match AsUpstream err with
  | None => CredentialHealthy
  | Some upstream =>
      let code := Code upstream in
      if code =s CodeProviderCredentialInvalid then CredentialRejected
      else if code =s CodeBYOKCredentialInvalid then CredentialRequestFault
      else if code =s CodeProviderBillingRefused then CredentialExhausted
      else if isMember code [CodeQuotaExceeded; CodeInsufficientBalance; CodeSpendingLimitExceeded]
      then CredentialRequestFault
      else if isMember code
        [CodeInvalidRequest; CodeModelNotFound; CodeUnsupportedModality; CodeContextLengthExceeded;
         CodeRequestTooLarge; CodeOutputLimitExceeded; CodeUpstreamContentFiltered;
         CodePermissionDenied; CodeAuthenticationFailed]
      then CredentialRequestFault
      else CredentialHealthy
  end.

Definition Throttled (err : GoError) : bool :=
  match AsUpstream err with
  | None => false
  | Some upstream => Category upstream =s UpstreamRateLimit
  end.

(** ** Keys *)

Inductive KeyRetirement := KeyExhausted | KeyRejected.

#[export] Instance KeyRetirement_eq_dec : EqDecision KeyRetirement.
Proof. solve_decision. Defined.

Record CredentialRuntimeState := mkRuntimeState {
  Reason : option KeyRetirement;
  Evidence : string;
  ObservedAt : Instant;
  RetiredUntil : Instant;
  LeaseUntil : Instant;
}.

Record KeyDeclaration := mkDeclaration {
  KeyID : string;
  Secret : string;
  Class : string;
  decl_Funding : Funding;
  (** whether a durable runtime coordinates the key *)
  Runtime : bool;
  State : CredentialRuntimeState;
}.

Record Key := mkKey {
  Position : Z;
  ID : string;
  key_Class : string;
  key_Funding : Funding;
  key_secret : string;
  key_customerOwned : bool;
  key_runtime : bool;
  recovery : bool;
}.

Record pooledKey := mkPooledKey {
  position : Z;
  keyID : string;
  class : string;
  funding : Funding;
  secret : string;
  retiredUntil : Instant;
  reason : option KeyRetirement;
  runtime : bool;
  evidence : string;
  observedAt : Instant;
}.

Record KeyPolicy := mkKeyPolicy { Retirement : Duration; OnSeparateAccounts : bool }.

(** *** Quota telemetry *)

Inductive QuotaState := QuotaHealthy | QuotaExhausted | QuotaUnavailable | QuotaUnknown.
Inductive QuotaSignal := SignalRemainingCredits | SignalResetAt.

#[export] Instance QuotaState_eq_dec : EqDecision QuotaState.
Proof. solve_decision. Defined.

(** A declared mapping, as the list of its entries in the order one [range]
    over the Go map visits them (which the language leaves open). *)
Definition QuotaHeaders := list (string * QuotaSignal).

(** A response's headers: what [header.Get] returns for a name, empty when
    absent.  [None] is a nil header. *)
Definition Header := string -> string.

Record QuotaObservation := mkObservation { obs_State : QuotaState; ResetAt : Instant }.

(** [time.Unix(seconds, 0)]. *)
Definition unix_epoch : Instant := 62135596800000000000.
Definition time_Unix (seconds : Z) : Instant := (unix_epoch + seconds * Second)%Z.

Record KeyPool := mkPool {
  pool_provider : string;
  policy : KeyPolicy;
  signals : QuotaHeaders;
  pool_customerOwned : bool;
  keys : list pooledKey;
}.

Definition set_keys (ks : list pooledKey) (p : KeyPool) : KeyPool :=
  mkPool (pool_provider p) (policy p) (signals p) (pool_customerOwned p) ks.

(** What a view restricts the root pool to; the root itself is [whole]. *)
Record View := mkView { onlyKeyID : string; ceiling : FundingTier }.
Definition whole : View := mkView "" TierNone.

Section Telemetry.
(** [strconv.ParseFloat(s, 64)]; [None] is its error. *)
Context (ParseFloat : string -> option float64).

Definition read_signal (header : Header) (observation : QuotaObservation) (entry : string * QuotaSignal)
    : QuotaObservation :=
  let '(name, signal) := entry in
  let raw := TrimSpace (header name) in
  if raw =s "" then observation
  else match signal with
  | SignalRemainingCredits =>
      match ParseFloat raw with
      | None => mkObservation QuotaUnavailable (ResetAt observation)
      | Some remaining =>
          if SFleb remaining (S754_zero false) then mkObservation QuotaExhausted (ResetAt observation)
          else if decide (obs_State observation = QuotaExhausted) then observation
          else mkObservation QuotaHealthy (ResetAt observation)
      end
  | SignalResetAt =>
      match ParseInt raw with
      | Some seconds =>
          if (seconds <=? 0)%Z then observation
          else mkObservation (obs_State observation) (time_Unix seconds)
      | None => observation
      end
  end.

(** [QuotaHeaders.Read]. *)
Definition Read (m : QuotaHeaders) (header : option Header) : QuotaObservation :=
  match header with
  | None => mkObservation QuotaUnknown 0
  | Some header => foldl (read_signal header) (mkObservation QuotaUnknown 0) m
  end.

(** ** The pool *)

Definition visible_ascii (c : ascii) : bool := in_byte_range 33 126 c.

Fixpoint every_char (f : ascii -> bool) (s : string) : bool :=
  match s with EmptyString => true | String c s => f c && every_char f s end.

Definition ValidateCustomerCredential (secret : string) : bool :=
  (0 <? Z.of_nat (String.length secret))%Z && (Z.of_nat (String.length secret) <=? 4096)%Z
  && every_char visible_ascii secret.

Definition valid_class (class : string) : bool := isMember class [KeyClassFree; KeyClassPaid; KeyClassUnstated].

(** The runtime state a declaration may carry. *)
Definition valid_state (s : CredentialRuntimeState) : bool :=
  match Reason s with
  | None => IsZero (RetiredUntil s) && IsZero (LeaseUntil s)
  | Some _ => negb (IsZero (RetiredUntil s))
  end.

Definition declared_key (position : Z) (keyID : string) (d : KeyDeclaration) : pooledKey :=
  let funding :=
    if decide (decl_Funding d = FundingUnstated)
    then default FundingUnstated (FundingFor (Class d) "") else decl_Funding d in
  let retiredUntil :=
    if After (LeaseUntil (State d)) (RetiredUntil (State d))
    then LeaseUntil (State d) else RetiredUntil (State d) in
  mkPooledKey position keyID (Class d) funding (Secret d) retiredUntil (Reason (State d))
    (Runtime d) (Evidence (State d)) (ObservedAt (State d)).

(** The loop of [newKeyPool]; [None] is a refusal. *)
Fixpoint declare (position : Z) (seenSecret seenID : list string) (declarations : list KeyDeclaration)
    : option (list pooledKey) :=
  match declarations with
  | [] => Some []
  | d :: rest =>
      if negb (ValidateCustomerCredential (Secret d)) then None
      else if isMember (Secret d) seenSecret then None
      else
        let trimmed := TrimSpace (KeyID d) in
        let keyID := if trimmed =s "" then "key-" +:+ Itoa position else trimmed in
        if isMember keyID seenID then None
        else if negb (valid_class (Class d)) then None
        else if negb (valid_state (State d)) then None
        else
          keys ← declare (position + 1) (Secret d :: seenSecret) (keyID :: seenID) rest;
          Some (declared_key position keyID d :: keys)
  end.

Definition newKeyPool (slug : string) (declarations : list KeyDeclaration) (policy : KeyPolicy)
    (signals : QuotaHeaders) (customerOwned : bool) : option KeyPool :=
  let policy :=
    if (Retirement policy <=? 0)%Z then mkKeyPolicy DefaultKeyRetirement (OnSeparateAccounts policy)
    else policy in
  keys ← declare 1 [] [] declarations;
  Some (mkPool slug policy signals customerOwned (sort_stable_by (fun k => Funding_rank (funding k)) keys)).

Definition NewKeyPool slug declarations policy signals :=
  newKeyPool slug declarations policy signals false.

Definition no_state : CredentialRuntimeState := mkRuntimeState None "" 0 0 0.

Definition NewCustomerKeyPool (slug secret : string) : option KeyPool :=
  if ValidateCustomerCredential secret
  then newKeyPool slug [mkDeclaration "customer-byok" secret KeyClassUnstated FundingUnstated false no_state]
         (mkKeyPolicy 0 false) [] true
  else None.

Definition Destroy (p : KeyPool) : KeyPool := if pool_customerOwned p then set_keys [] p else p.

(** *** Views *)

Definition Bind (id : string) (v : View) (p : KeyPool) : option View :=
  if negb (TrimSpace id =s id) || (id =s "") then None
  else if existsb (fun k => keyID k =s id) (keys p) then Some (mkView id (ceiling v)) else None.

Definition WithinFunding (tier : FundingTier) (v : View) (p : KeyPool) : option View :=
  if decide (tier = TierNone) then Some v
  else if pool_customerOwned p then None
  else if existsb (fun k => ((onlyKeyID v =s "") || (keyID k =s onlyKeyID v)) && Admits tier (funding k)) (keys p)
  then Some (mkView (onlyKeyID v) tier) else None.

Definition FundingOf (id : string) (p : KeyPool) : option Funding :=
  if id =s "" then None
  else funding <$> List.find (fun k => keyID k =s id) (keys p).

Definition ExactBinding (v : View) : option string :=
  if onlyKeyID v =s "" then None else Some (onlyKeyID v).

(** *** Mutations *)

(** Apply [f] to the key at a position: the loops that break at the first match. *)
Fixpoint at_position (pos : Z) (f : pooledKey -> pooledKey) (ks : list pooledKey) : list pooledKey :=
  match ks with
  | [] => []
  | k :: ks => if (position k =? pos)%Z then f k :: ks else k :: at_position pos f ks
  end.

Definition set_retired (until : Instant) (why : option KeyRetirement) (source : string) (at_ : Instant)
    (k : pooledKey) : pooledKey :=
  mkPooledKey (position k) (keyID k) (class k) (funding k) (secret k) until why (runtime k) source at_.

Definition set_evidence (source : string) (k : pooledKey) : pooledKey :=
  mkPooledKey (position k) (keyID k) (class k) (funding k) (secret k) (retiredUntil k) (reason k)
    (runtime k) source (observedAt k).

Definition retirement_end (p : KeyPool) (at_ until : Instant) : Instant :=
  if After until at_ then until else Add at_ (Retirement (policy p)).

Definition Retire (pos : Z) (why : KeyRetirement) (at_ until : Instant) (p : KeyPool) : KeyPool :=
  set_keys (at_position pos (set_retired (retirement_end p at_ until) (Some why) "provider_error" at_)
              (keys p)) p.

Definition markUsable (pos : Z) (source : string) (at_ : Instant) (p : KeyPool) : KeyPool :=
  set_keys (at_position pos (set_retired 0 None source at_) (keys p)) p.

Definition recover (pos : Z) (p : KeyPool) : KeyPool := markUsable pos "" 0 p.

(** The answer is whether the headers exhausted the key, and until when. *)
Definition observe (pos : Z) (header : option Header) (at_ : Instant) (p : KeyPool)
    : option Instant * KeyPool :=
  let observation := Read (signals p) header in
  if decide (obs_State observation = QuotaExhausted) then
    let p := Retire pos KeyExhausted at_ (ResetAt observation) p in
    let p := set_keys (at_position pos (set_evidence "quota_header") (keys p)) p in
    (Some (retirement_end p at_ (ResetAt observation)), p)
  else (None, p).

(** *** When nothing can be leased *)

Definition in_view (v : View) (k : pooledKey) : bool :=
  ((onlyKeyID v =s "") || (keyID k =s onlyKeyID v)) && Admits (ceiling v) (funding k).

Definition earliest_return (ks : list pooledKey) : Instant :=
  foldl (fun earliest k =>
    if IsZero earliest || Before (retiredUntil k) earliest then retiredUntil k else earliest) 0%Z ks.

Definition NoUsableCredential (at_ : Instant) (v : View) (p : KeyPool) : GoError :=
  let passthrough := Some (mkPassthrough (pool_provider p) None None) in
  match keys p with
  | [] => ErrUpstream (mkUpstream CodeProviderCredentialInvalid UpstreamAuthentication 0 passthrough false)
  | _ =>
      let visible := filter (fun k => in_view v k = true) (keys p) in
      let category :=
        if existsb (fun k => bool_decide (reason k = Some KeyRejected)) visible
        then UpstreamAuthentication else UpstreamQuota in
      let wait := Sub (earliest_return visible) at_ in
      ErrUpstream (mkUpstream CodeDeploymentUnavailable category
        (if (0 <? wait)%Z then Milliseconds wait else 0) passthrough false)
  end.

(** ** One request's walk *)

(** [CredentialAttemptSequence]: the next index and the keys that failed this
    request transiently. *)
Record CredentialAttemptSequence := mkSequence { seq_next : Z; transient : list (string * string) }.
Definition new_sequence : CredentialAttemptSequence := mkSequence 0 [].

Definition markTransient (slug id : string) (s : CredentialAttemptSequence) : CredentialAttemptSequence :=
  mkSequence (seq_next s) ((slug, id) :: transient s).
Definition failedTransiently (slug id : string) (s : CredentialAttemptSequence) : bool :=
  bool_decide ((slug, id) ∈ transient s).
Definition Take (s : CredentialAttemptSequence) : Z * CredentialAttemptSequence :=
  (seq_next s, mkSequence (seq_next s + 1) (transient s)).

Record KeyAttempt := mkAttempt { view : View; tried : list Z; throttleRotations : Z }.
Definition Begin (v : View) : KeyAttempt := mkAttempt v [] 0.

Definition leasable (a : KeyAttempt) (at_ : Instant) (allowRecovery : bool) (k : pooledKey) : bool :=
  in_view (view a) k && negb (bool_decide (position k ∈ tried a))
  && negb (After (retiredUntil k) at_) && (allowRecovery || bool_decide (reason k = None)).

Definition not_recovering (k : Key) : Key :=
  mkKey (Position k) (ID k) (key_Class k) (key_Funding k) (key_secret k) (key_customerOwned k)
    (key_runtime k) false.

Definition leased_key (p : KeyPool) (k : pooledKey) : Key :=
  mkKey (position k) (keyID k) (class k) (funding k) (secret k) (pool_customerOwned p) (runtime k)
    (bool_decide (reason k <> None)).

(** [KeyAttempt.next]: two passes over one order. *)
Definition next (avoid : string -> bool) (at_ : Instant) (allowRecovery : bool) (p : KeyPool) (a : KeyAttempt)
    : option Key * KeyAttempt :=
  let usable := leasable a at_ allowRecovery in
  let found :=
    match List.find (fun k => usable k && negb (avoid (keyID k))) (keys p) with
    | Some k => Some k
    | None => List.find usable (keys p)
    end in
  match found with
  | Some k => (Some (leased_key p k), mkAttempt (view a) (position k :: tried a) (throttleRotations a))
  | None => (None, a)
  end.

Definition AllowThrottleRotation (p : KeyPool) (a : KeyAttempt) : bool * KeyAttempt :=
  if negb (OnSeparateAccounts (policy p)) || (0 <? throttleRotations a)%Z then (false, a)
  else (true, mkAttempt (view a) (tried a) (throttleRotations a + 1)).

Record CredentialedAttempt := mkCredentialed {
  att_Header : option Header;
  Accepted : bool;
  Failure : GoError;
  Transport : bool;
}.

(** The answer of the durable runtime to a recovery claim. *)
Inductive Claim := ClaimError (err : GoError) | Claimed | ClaimBusy | ClaimUsable | ClaimUnknown.

(** Other requests mutate the same root pool between the steps of a walk. *)
Inductive PoolEvent :=
| OtherRetired (pos : Z) (why : KeyRetirement) (at_ until : Instant)
| OtherUsable (pos : Z) (source : string) (at_ : Instant).

Definition apply_event (p : KeyPool) (e : PoolEvent) : KeyPool :=
  match e with
  | OtherRetired pos why at_ until => Retire pos why at_ until p
  | OtherUsable pos source at_ => markUsable pos source at_ p
  end.

(** The outside world of one iteration: what other requests did before it and
    during its exchange, the two clock readings, the runtime's answer, and what
    the upstream answered each key. *)
Record Exchange := mkExchange {
  before_ : list PoolEvent;
  now_ : Instant;
  claim : Claim;
  try_ : Key -> CredentialedAttempt;
  during_ : list PoolEvent;
  observedAt_ : Instant;
}.

(** [CredentialAttempt], as the durable runtime is asked to record it. *)
Record CredentialAttempt := mkCredentialAttempt {
  Index : Z;
  attempt_KeyID : string;
  attempt_Outcome : string;
  attempt_Evidence : string;
  OccurredAt : Instant;
  attempt_RetiredUntil : Instant;
}.

(** How a walk ended: the value of an accepted exchange, or the error and the
    key of the last exchange, if there was one. *)
Inductive WalkResult :=
| WalkAccepted (k : Key)
| WalkFailed (k : option Key) (err : GoError).

(** Everything a walk changes: the root pool, the request's sequence, the
    exchanges made (in order) and the attempts recorded. *)
Record WalkState := mkWalk {
  w_pool : KeyPool;
  w_sequence : CredentialAttemptSequence;
  w_attempt : KeyAttempt;
  w_refused : option (Key * GoError);
  w_calls : list (Key * CredentialedAttempt);
  w_records : list CredentialAttempt;
}.

Section Walk.
(** Whether the call carries a request id (attempts of one that does not are
    not recorded). *)
Context (hasRequestID : bool).

(** [recordCredentialAttempt]. *)
Definition record_attempt (key : Key) (index : Z) (outcome source : string) (at_ until : Instant)
    (records : list CredentialAttempt) : list CredentialAttempt :=
  if key_runtime key && hasRequestID
  then records ++ [mkCredentialAttempt index (ID key) outcome source at_ until] else records.

Inductive Step := Stop (r : WalkResult) | Continue.

(** What the walk does with the answer of an exchange that reached the
    provider, after its quota headers were observed. *)
Definition judge (key : Key) (index : Z) (result : CredentialedAttempt) (headerUntil : option Instant)
    (at_ : Instant) (w : WalkState) : Step * WalkState :=
  let p := w_pool w in
  let exhausted := bool_decide (headerUntil <> None) in
  let with_record outcome source until p seq attempt refused :=
    mkWalk p seq attempt refused (w_calls w)
      (record_attempt key index outcome source at_ until (w_records w)) in
  let fault fallback :=
    with_record (if exhausted then "exhausted" else fallback)
      (if exhausted then "quota_header" else "provider_error") (default 0%Z headerUntil) p in
  if Accepted result then
    let source := if exhausted then "quota_header" else "response_status" in
    let w' := with_record (if exhausted then "exhausted" else "accepted") source (default 0%Z headerUntil)
                (if exhausted then p else markUsable (Position key) source at_ p)
                (w_sequence w) (w_attempt w) (w_refused w) in
    (Stop (WalkAccepted key), w')
  else match CredentialVerdictFor (Failure result) with
  | CredentialExhausted =>
      (Continue, with_record "exhausted" "provider_error" (Add at_ (Retirement (policy p)))
                   (Retire (Position key) KeyExhausted at_ 0 p)
                   (w_sequence w) (w_attempt w) (Some (key, Failure result)))
  | CredentialRejected =>
      (Continue, with_record "rejected" "provider_error" (Add at_ (Retirement (policy p)))
                   (Retire (Position key) KeyRejected at_ 0 p)
                   (w_sequence w) (w_attempt w) (Some (key, Failure result)))
  | CredentialRequestFault =>
      (Stop (WalkFailed (Some key) (Failure result)),
       fault "request_fault" (w_sequence w) (w_attempt w) (w_refused w))
  | CredentialHealthy =>
      let seq := if pool_customerOwned p then w_sequence w
                 else markTransient (pool_provider p) (ID key) (w_sequence w) in
      if Throttled (Failure result) then
        let '(rotate, attempt) := AllowThrottleRotation p (w_attempt w) in
        if rotate
        then (Continue, fault "healthy_failure" seq attempt (Some (key, Failure result)))
        else (Stop (WalkFailed (Some key) (Failure result)), fault "healthy_failure" seq attempt (w_refused w))
      else (Stop (WalkFailed (Some key) (Failure result)),
            fault "healthy_failure" seq (w_attempt w) (w_refused w))
  end.

(** One upstream exchange with a leased key. *)
Definition exchange (x : Exchange) (key : Key) (w : WalkState) : Step * WalkState :=
  let '(index, seq) := Take (w_sequence w) in
  let result := try_ x key in
  let p := foldl apply_event (w_pool w) (during_ x) in
  let at_ := observedAt_ x in
  let calls := w_calls w ++ [(key, result)] in
  if Transport result then
    (Stop (WalkFailed (Some key) (Failure result)),
     mkWalk p (markTransient (pool_provider p) (ID key) seq) (w_attempt w) (w_refused w) calls
       (record_attempt key index "transport_failure" "transport" at_ 0 (w_records w)))
  else
    let '(headerUntil, p) := observe (Position key) (att_Header result) at_ p in
    judge key index result headerUntil at_ (mkWalk p seq (w_attempt w) (w_refused w) calls (w_records w)).

(** One iteration of the loop of [WalkAttempts]. *)
Definition iterate (x : Exchange) (w : WalkState) : Step * WalkState :=
  let p := foldl apply_event (w_pool w) (before_ x) in
  let avoid id := failedTransiently (pool_provider p) id (w_sequence w) in
  let '(leased, attempt) := next avoid (now_ x) true p (w_attempt w) in
  let w := mkWalk p (w_sequence w) attempt (w_refused w) (w_calls w) (w_records w) in
  match leased with
  | None =>
      (Stop match w_refused w with
            | Some (key, err) => WalkFailed (Some key) err
            | None => WalkFailed None (NoUsableCredential (now_ x) (view attempt) p)
            end, w)
  | Some key =>
      if recovery key && key_runtime key then
        match claim x with
        | ClaimError err => (Stop (WalkFailed (Some key) (Wrapped err)), w)
        | ClaimUnknown => (Stop (WalkFailed (Some key) Opaque), w)
        | ClaimBusy => (Continue, w)
        | Claimed => exchange x key w
        | ClaimUsable =>
            exchange x (not_recovering key)
              (mkWalk (recover (Position key) p) (w_sequence w) attempt (w_refused w) (w_calls w) (w_records w))
        end
      else exchange x key w
  end.

Fixpoint walk (fuel : nat) (world : list Exchange -> Exchange) (past : list Exchange) (w : WalkState)
    : option (WalkResult * WalkState) :=
  match fuel with
  | O => None
  | S fuel =>
      let x := world past in
      match iterate x w with
      | (Stop r, w) => Some (r, w)
      | (Continue, w) => walk fuel world (past ++ [x]) w
      end
  end.

(** [WalkAttempts]: the outside world may answer by everything that happened
    before.  One iteration more than the pool has keys is enough. *)
Definition WalkAttempts (world : list Exchange -> Exchange) (v : View) (p : KeyPool)
    (sequence : CredentialAttemptSequence) : option (WalkResult * WalkState) :=
  walk (S (length (keys p))) world [] (mkWalk p sequence (Begin v) None [] []).


(** ** Lemmas: what never changes in a pool *)

(** A key without what requests change of it. *)
Definition identity (k : pooledKey) : Z * string * string * Funding * string * bool :=
  (position k, keyID k, class k, funding k, secret k, runtime k).

Record same_pool (p p' : KeyPool) : Prop := {
  same_keys : identity <$> keys p = identity <$> keys p';
  same_policy : policy p = policy p';
  same_signals : signals p = signals p';
  same_owner : pool_customerOwned p = pool_customerOwned p';
}.

#[global] Instance same_pool_equiv : Equivalence same_pool.
Proof.
  split.
  - by intros p.
  - by intros p p' [].
  - intros p p' p'' [] []. split; by etrans.
Qed.

Lemma at_position_identity pos f ks :
  (forall k, identity (f k) = identity k) -> identity <$> at_position pos f ks = identity <$> ks.
Proof.
  intros Hf. induction ks as [|k ks IH]; simpl; [done|].
  case_match; csimpl; [by rewrite Hf|by rewrite IH].
Qed.

Lemma set_keys_same pos f p :
  (forall k, identity (f k) = identity k) -> same_pool p (set_keys (at_position pos f (keys p)) p).
Proof. intros Hf. split; simpl; [by rewrite at_position_identity|done..]. Qed.

Lemma Retire_same pos why at_ until p : same_pool p (Retire pos why at_ until p).
Proof. by apply set_keys_same. Qed.

Lemma markUsable_same pos source at_ p : same_pool p (markUsable pos source at_ p).
Proof. by apply set_keys_same. Qed.

Lemma observe_same pos header at_ p : same_pool p (observe pos header at_ p).2.
Proof.
  unfold observe. case_decide; simpl; [|done].
  etrans; [apply Retire_same|]. by apply set_keys_same.
Qed.

Lemma apply_events_same es p : same_pool p (foldl apply_event p es).
Proof.
  revert p. induction es as [|e es IH]; intros p; simpl; [done|].
  etrans; [|apply IH]. destruct e; [apply Retire_same|apply markUsable_same].
Qed.

Lemma in_view_identity v k k' : identity k = identity k' -> in_view v k = in_view v k'.
Proof. destruct k, k'. unfold identity, in_view. simpl. by intros [= -> -> -> -> -> ->]. Qed.

(** ** Lemmas: leasing *)

(** A leased key is some key of the pool, not used before by this request, in
    its view, and in rotation. *)
Lemma next_spec avoid at_ recovers p a key a' :
  next avoid at_ recovers p a = (Some key, a') ->
  exists k, k ∈ keys p /\ leasable a at_ recovers k = true /\ key = leased_key p k /\
    a' = mkAttempt (view a) (position k :: tried a) (throttleRotations a) /\
    ((avoid (keyID k) = true /\
      forall k', k' ∈ keys p -> leasable a at_ recovers k' = true -> avoid (keyID k') = true) \/
     avoid (keyID k) = false).
Proof.
  unfold next. intros H.
  destruct (List.find (fun k => leasable a at_ recovers k && negb (avoid (keyID k))) (keys p)) as [k|] eqn:E.
  - apply List.find_some in E as [Hin Hk]. injection H as <- <-. bool_cases.
    exists k. rewrite list_elem_of_In. split_and!; auto.
  - destruct (List.find _ (keys p)) as [k|] eqn:E2 in H; [|done]. injection H as <- <-.
    apply List.find_some in E2 as [Hin Hk]. exists k. rewrite list_elem_of_In. split_and!; try done.
    destruct (avoid (keyID k)) eqn:Ha; [|by right]. left. split; [done|].
    intros k' Hin'%list_elem_of_In Hk'. apply (List.find_none _ _ E) in Hin'. rewrite Hk' in Hin'.
    simpl in Hin'. by apply negb_false_iff in Hin'.
Qed.

Lemma next_None avoid at_ recovers p a a' :
  next avoid at_ recovers p a = (None, a') -> a' = a.
Proof. unfold next. repeat case_match; naive_solver. Qed.

Lemma leasable_view a at_ recovers k : leasable a at_ recovers k = true -> in_view (view a) k = true.
Proof. unfold leasable. intros H. by bool_cases. Qed.

Lemma leasable_untried a at_ recovers k : leasable a at_ recovers k = true -> position k ∉ tried a.
Proof.
  unfold leasable. intros H. bool_cases.
  match goal with E : bool_decide _ = false |- _ => by apply bool_decide_eq_false in E end.
Qed.

(** ** Lemmas: one exchange *)

(** A walk moves to another key only after an answer that refused this exact
    credential, or a throttle on a pool of separate accounts. *)
Definition refused_credential (a : CredentialedAttempt) : Prop :=
  Transport a = false /\ Accepted a = false /\
  (CredentialVerdictFor (Failure a) = CredentialExhausted \/
   CredentialVerdictFor (Failure a) = CredentialRejected).

Definition throttled_answer (a : CredentialedAttempt) : bool :=
  negb (Transport a) && negb (Accepted a)
  && bool_decide (CredentialVerdictFor (Failure a) = CredentialHealthy) && Throttled (Failure a).

Lemma judge_spec key index result until at_ w s w' :
  judge key index result until at_ w = (s, w') -> Transport result = false ->
  same_pool (w_pool w) (w_pool w') /\ w_calls w' = w_calls w /\
  view (w_attempt w') = view (w_attempt w) /\ tried (w_attempt w') = tried (w_attempt w) /\
  ((s <> Continue /\ throttleRotations (w_attempt w') = throttleRotations (w_attempt w)) \/
   (s = Continue /\ refused_credential result /\
    throttleRotations (w_attempt w') = throttleRotations (w_attempt w)) \/
   (s = Continue /\ throttled_answer result = true /\ OnSeparateAccounts (policy (w_pool w)) = true /\
    (throttleRotations (w_attempt w) <= 0)%Z /\
    throttleRotations (w_attempt w') = (throttleRotations (w_attempt w) + 1)%Z)).
Proof.
  unfold judge, refused_credential, throttled_answer. intros H HT.
  destruct (Accepted result) eqn:HA.
  { injection H as <- <-. simpl. split_and!; try done; [case_match; [done|apply markUsable_same]|by left]. }
  destruct (CredentialVerdictFor (Failure result)) eqn:HV.
  - destruct (Throttled (Failure result)) eqn:HTh.
    + unfold AllowThrottleRotation in H.
      destruct (negb (OnSeparateAccounts (policy (w_pool w))) || (0 <? throttleRotations (w_attempt w))%Z) eqn:Hr;
        injection H as <- <-; simpl; (split_and!; try done); [by left|].
      right; right. rewrite HT. bool_cases. split_and!; done || lia.
    + injection H as <- <-. simpl. split_and!; try done. by left.
  - injection H as <- <-. simpl. split_and!; try done; [apply Retire_same|]. right; left. split_and!; auto.
  - injection H as <- <-. simpl. split_and!; try done; [apply Retire_same|]. right; left. split_and!; auto.
  - injection H as <- <-. simpl. split_and!; try done. by left.
Qed.

Lemma exchange_spec x key w s w' :
  exchange x key w = (s, w') ->
  same_pool (w_pool w) (w_pool w') /\ w_calls w' = w_calls w ++ [(key, try_ x key)] /\
  view (w_attempt w') = view (w_attempt w) /\ tried (w_attempt w') = tried (w_attempt w) /\
  ((s <> Continue /\ throttleRotations (w_attempt w') = throttleRotations (w_attempt w)) \/
   (s = Continue /\ refused_credential (try_ x key) /\
    throttleRotations (w_attempt w') = throttleRotations (w_attempt w)) \/
   (s = Continue /\ throttled_answer (try_ x key) = true /\ OnSeparateAccounts (policy (w_pool w)) = true /\
    (throttleRotations (w_attempt w) <= 0)%Z /\
    throttleRotations (w_attempt w') = (throttleRotations (w_attempt w) + 1)%Z)).
Proof.
  unfold exchange, Take. intros H.
  pose proof (apply_events_same (during_ x) (w_pool w)) as Hsame.
  destruct (Transport (try_ x key)) eqn:HT.
  { injection H as <- <-. simpl. split_and!; try done. by left. }
  destruct (observe _ _ _ _) as [until p] eqn:Hobs.
  pose proof (observe_same (Position key) (att_Header (try_ x key)) (observedAt_ x)
    (foldl apply_event (w_pool w) (during_ x))) as Hsame2.
  rewrite Hobs in Hsame2. simpl in Hsame2.
  apply judge_spec in H as (H1 & H2 & H3 & H4 & H5); [|done]. simpl in *.
  assert (same_pool (w_pool w) p) as Hp by (by etrans). split_and!; try done; [by etrans|].
  rewrite (same_policy _ _ Hp). done.
Qed.

(** ** Lemmas: the loop *)

(** The key [key] was leased from [k]. *)
Definition leased_from (k : pooledKey) (key : Key) : Prop :=
  Position key = position k /\ ID key = keyID k /\ key_secret key = secret k /\ key_Funding key = funding k.

Record walk_inv (v : View) (p : KeyPool) (w : WalkState) : Prop := {
  inv_pool : same_pool p (w_pool w);
  inv_view : view (w_attempt w) = v;
  inv_tried : NoDup (tried (w_attempt w));
  inv_known : tried (w_attempt w) ⊆ position <$> keys p;
  inv_once : NoDup ((fun c => Position c.1) <$> w_calls w);
  inv_called : Forall (fun c => Position c.1 ∈ tried (w_attempt w) /\
    exists k, k ∈ keys p /\ in_view v k = true /\ leased_from k c.1) (w_calls w);
}.

Definition count_throttles (calls : list (Key * CredentialedAttempt)) : nat :=
  length (filter (fun c => throttled_answer c.2 = true) calls).

Record moves_inv (p : KeyPool) (w : WalkState) : Prop := {
  inv_moves : Forall (fun c => refused_credential c.2 \/
    (throttled_answer c.2 = true /\ OnSeparateAccounts (policy p) = true)) (w_calls w);
  inv_rotations : (Z.of_nat (count_throttles (w_calls w)) <= throttleRotations (w_attempt w) <= 1)%Z;
}.

Lemma same_pool_elem p p' k' :
  same_pool p p' -> k' ∈ keys p' -> exists k, k ∈ keys p /\ identity k = identity k'.
Proof.
  intros Hs Hin. assert (identity k' ∈ identity <$> keys p) as (k & ? & ?)%list_elem_of_fmap.
  { rewrite (same_keys _ _ Hs). by apply list_elem_of_fmap_2. }
  by exists k.
Qed.

Lemma refused_not_throttled a : refused_credential a -> throttled_answer a = false.
Proof.
  unfold throttled_answer. intros (-> & -> & [-> | ->]); done.
Qed.

Lemma count_throttles_snoc calls c :
  count_throttles (calls ++ [c]) = (count_throttles calls + if throttled_answer c.2 then 1 else 0)%nat.
Proof.
  unfold count_throttles. rewrite filter_app, length_app, filter_cons, filter_nil.
  destruct (throttled_answer c.2); [by rewrite decide_True|by rewrite decide_False].
Qed.

(** What an exchange with the key just leased does to both invariants. *)
Lemma exchange_inv v p x key w s w' k :
  walk_inv v p w -> moves_inv p w -> k ∈ keys p -> in_view v k = true -> leased_from k key ->
  position k ∈ tried (w_attempt w) -> (forall c, c ∈ w_calls w -> Position c.1 <> position k) ->
  exchange x key w = (s, w') ->
  walk_inv v p w' /\ tried (w_attempt w') = tried (w_attempt w) /\
  (s = Continue -> moves_inv p w') /\ w_calls w' = w_calls w ++ [(key, try_ x key)].
Proof.
  intros [] [] Hk Hv Hl Ht Hnew (H1 & H2 & H3 & H4 & H5)%exchange_spec. split_and!; try done.
  - split; try rewrite H4; try rewrite H3; try rewrite H2; try done; [by etrans|..].
    + rewrite fmap_app, NoDup_app. split_and!; try done; [|by apply NoDup_singleton].
      intros pos (c & -> & Hc)%list_elem_of_fmap Hin. apply list_elem_of_singleton in Hin.
      destruct Hl as [Hpos _]. apply (Hnew c Hc). by rewrite <-Hpos.
    + apply Forall_app. split; [done|]. apply Forall_singleton. split; [by destruct Hl as [Hpos _]; cbn; rewrite Hpos|]. by exists k.
  - intros ->. rewrite <-(same_policy _ _ inv_pool0) in H5.
    destruct H5 as [[? _]|[(_ & Href & Hr)|(_ & Hth & Hsep & Hz & Hr)]]; [done|..].
    + split; rewrite H2; [apply Forall_app; split; [done|]; apply Forall_singleton; by left|].
      rewrite count_throttles_snoc, Hr, (refused_not_throttled (key, try_ x key).2) by done. lia.
    + split; rewrite H2; [apply Forall_app; split; [done|]; apply Forall_singleton; by right|].
      rewrite count_throttles_snoc, Hr. simpl. rewrite Hth. lia.
Qed.

Lemma leased_key_from p k : leased_from k (leased_key p k).
Proof. done. Qed.

Lemma identity_leased k k' key : identity k = identity k' -> leased_from k' key -> leased_from k key.
Proof. destruct k, k'. unfold identity, leased_from. simpl. by intros [= -> -> -> -> -> ->]. Qed.

Lemma iterate_inv v p x w s w' :
  walk_inv v p w -> moves_inv p w -> iterate x w = (s, w') ->
  walk_inv v p w' /\
  (exists last, w_calls w' = w_calls w ++ last /\ (length last <= 1)%nat) /\
  (s = Continue -> moves_inv p w' /\
     length (tried (w_attempt w')) = S (length (tried (w_attempt w)))).
Proof.
  intros Hw Hm. unfold iterate.
  set (q := foldl apply_event (w_pool w) (before_ x)).
  assert (same_pool p q) as Hq by (etrans; [apply Hw|apply apply_events_same]).
  destruct (next _ _ _ _ _) as [[key|] attempt] eqn:Hnext; cycle 1.
  { apply next_None in Hnext as ->. intros [= <- <-]. split_and!; try done.
    - destruct Hw. by split.
    - exists []. rewrite app_nil_r. split_and!; simpl; auto with lia. }
  apply next_spec in Hnext as (k' & Hin & Hl & -> & -> & _).
  destruct (same_pool_elem p q k' Hq Hin) as (k & Hk & Hid).
  assert (position k = position k') as Hpos by (unfold identity in Hid; by simplify_eq).
  assert (in_view v k = true) as Hv.
  { rewrite (in_view_identity v k k') by done. rewrite <-(inv_view _ _ _ Hw). by eapply leasable_view. }
  pose proof (leasable_untried _ _ _ _ Hl) as Hnot.
  set (attempt := mkAttempt _ _ _).
  assert (forall pool, same_pool p pool ->
    walk_inv v p (mkWalk pool (w_sequence w) attempt (w_refused w) (w_calls w) (w_records w))) as Hw'.
  { intros pool Hpool. destruct Hw. split; simpl; try done.
    - by constructor.
    - intros pos [->|?]%elem_of_cons; [|by apply inv_known0]. rewrite <-Hpos. by apply list_elem_of_fmap_2.
    - eapply Forall_impl; [exact inv_called0|]. intros c [? ?]. rewrite elem_of_cons. auto. }
  assert (forall pool, moves_inv p (mkWalk pool (w_sequence w) attempt (w_refused w) (w_calls w) (w_records w)))
    as Hm' by (intros pool; by destruct Hm).
  assert (forall key s w' pool, same_pool p pool -> leased_from k key ->
    exchange x key (mkWalk pool (w_sequence w) attempt (w_refused w) (w_calls w) (w_records w)) = (s, w') ->
    walk_inv v p w' /\
    (exists last, w_calls w' = w_calls w ++ last /\ (length last <= 1)%nat) /\
    (s = Continue -> moves_inv p w' /\
      length (tried (w_attempt w')) = S (length (tried (w_attempt w))))) as Hex.
  { intros key s0 w0 pool Hpool Hfrom He.
    eapply (exchange_inv v p) in He as (H1 & H2 & H3 & H4); eauto.
    - split_and!; try done.
      + exists [(key, try_ x key)]. simpl in *. auto.
      + intros Hs. split; [auto|]. by rewrite H2.
    - simpl. rewrite Hpos. apply elem_of_cons. by left.
    - simpl. intros c Hc Heq. destruct Hw. rewrite Forall_forall in inv_called0.
      apply inv_called0 in Hc as [Hc _]. rewrite Heq, Hpos in Hc. done. }
  assert (leased_from k (leased_key q k')) as Hfrom by by eapply identity_leased.
  destruct (recovery _ && key_runtime _); [|by apply Hex].
  destruct (claim x) as [err| | | |]; [|by apply Hex| |apply Hex; [|by destruct Hfrom]|].
  - intros [= <- <-]. split_and!; [by apply Hw'| |done]. exists []. rewrite app_nil_r. simpl. auto with lia.
  - intros [= <- <-]. split_and!; [by apply Hw'| |done]. exists []. rewrite app_nil_r. simpl. auto with lia.
  - etrans; [exact Hq|apply markUsable_same].
  - intros [= <- <-]. split_and!; [by apply Hw'| |done]. exists []. rewrite app_nil_r. simpl. auto with lia.
Qed.

Lemma walk_inv_tried v p w : walk_inv v p w -> (length (tried (w_attempt w)) <= length (keys p))%nat.
Proof.
  intros []. rewrite <-(length_fmap position (keys p)).
  apply submseteq_length, NoDup_submseteq; [done|]. intros pos. apply inv_known0.
Qed.

Lemma walk_ends fuel world past v p w :
  walk_inv v p w -> moves_inv p w ->
  (length (keys p) < fuel + length (tried (w_attempt w)))%nat ->
  exists r w' moved last, walk fuel world past w = Some (r, w') /\ walk_inv v p w' /\
    w_calls w' = moved ++ last /\ (length last <= 1)%nat /\
    Forall (fun c => refused_credential c.2 \/
      (throttled_answer c.2 = true /\ OnSeparateAccounts (policy p) = true)) moved /\
    (count_throttles moved <= 1)%nat.
Proof.
  revert past w. induction fuel as [|fuel IH]; intros past w Hw Hm Hfuel.
  - pose proof (walk_inv_tried _ _ _ Hw). lia.
  - cbn [walk]. destruct (iterate (world past) w) as [s w1] eqn:Hit.
    destruct (iterate_inv _ _ _ _ _ _ Hw Hm Hit) as (Hw1 & (last & Hlast & Hlen) & Hc).
    destruct s as [r|].
    + exists r, w1, (w_calls w), last. destruct Hm as [Hmoves Hrot].
      split_and!; try done. lia.
    + destruct (Hc eq_refl) as [Hm1 Hlen1]. apply IH; [done..|lia].
Qed.

Lemma walk_inv_start v p seq : walk_inv v p (mkWalk p seq (Begin v) None [] []).
Proof. split; simpl; try done; [constructor|set_solver|constructor]. Qed.

Lemma moves_inv_start v p seq : moves_inv p (mkWalk p seq (Begin v) None [] []).
Proof. split; simpl; [done|]. unfold count_throttles. simpl. lia. Qed.

Lemma WalkAttempts_ends world v p seq :
  exists r w moved last, WalkAttempts world v p seq = Some (r, w) /\ walk_inv v p w /\
    w_calls w = moved ++ last /\ (length last <= 1)%nat /\
    Forall (fun c => refused_credential c.2 \/
      (throttled_answer c.2 = true /\ OnSeparateAccounts (policy p) = true)) moved /\
    (count_throttles moved <= 1)%nat.
Proof.
  apply walk_ends; [apply walk_inv_start|apply moves_inv_start|simpl; lia].
Qed.

(** C21. A walk always ends, whatever the providers answer and whatever other
    requests do to the pool meanwhile, and it calls each key at most once: no
    request makes more upstream calls than its provider has keys, and every
    credential it sends is one of the pool's, within the operator pin and the
    funding ceiling of its view. *)
Theorem walk_calls_each_key_at_most_once world v p seq :
  exists r w, WalkAttempts world v p seq = Some (r, w) /\
    NoDup ((fun c => Position c.1) <$> w_calls w) /\
    (length (w_calls w) <= length (keys p))%nat /\
    Forall (fun c => exists k, k ∈ keys p /\ leased_from k c.1 /\
      (onlyKeyID v = "" \/ keyID k = onlyKeyID v) /\ Admits (ceiling v) (funding k) = true) (w_calls w).
Proof.
  destruct (WalkAttempts_ends world v p seq) as (r & w & moved & last & Hr & Hw & _).
  exists r, w. destruct Hw. split_and!; try done.
  - rewrite <-(length_fmap (fun c => Position c.1)), <-(length_fmap position (keys p)).
    apply submseteq_length, NoDup_submseteq; [done|].
    intros pos (c & -> & Hc)%list_elem_of_fmap. rewrite Forall_forall in inv_called0.
    by apply inv_known0, inv_called0.
  - eapply Forall_impl; [exact inv_called0|]. intros c (_ & k & Hk & Hv & Hl). exists k.
    unfold in_view in Hv. apply andb_true_iff in Hv as [Hv Ha]. split_and!; try done.
    apply orb_true_iff in Hv as [Hv|Hv]; bool_cases; auto.
Qed.

(** A walk re-sends a request only after an answer that proves the last one
    did nothing for it: the provider refused that exact credential (spent or
    rejected), or throttled it on a pool whose keys are declared to sit on
    separate accounts, and that at most once.  After an accepted exchange, a
    transport failure, a request fault or any other failure no further call is
    made. *)
Theorem walk_resends_only_after_a_refused_credential world v p seq :
  exists r w moved last, WalkAttempts world v p seq = Some (r, w) /\
    w_calls w = moved ++ last /\ (length last <= 1)%nat /\
    Forall (fun c => refused_credential c.2 \/
      (throttled_answer c.2 = true /\ OnSeparateAccounts (policy p) = true)) moved /\
    (count_throttles moved <= 1)%nat.
Proof.
  destruct (WalkAttempts_ends world v p seq) as (r & w & moved & last & ? & ? & ?).
  by exists r, w, moved, last.
Qed.

End Walk.
End Telemetry.

(** ** Building a pool *)

(** What [newKeyPool] accepts and builds, before ordering. *)
Lemma declare_spec declarations pos seenSecret seenID ks :
  declare pos seenSecret seenID declarations = Some ks ->
  position <$> ks = ((fun i => (pos + Z.of_nat i)%Z) <$> seq 0 (length declarations)) /\
  secret <$> ks = Secret <$> declarations /\
  Forall (fun k => secret k ∉ seenSecret /\ keyID k ∉ seenID /\ ValidateCustomerCredential (secret k) = true) ks /\
  NoDup (secret <$> ks) /\ NoDup (keyID <$> ks).
Proof.
  revert pos seenSecret seenID ks. induction declarations as [|d rest IH]; intros pos seenSecret seenID ks; cbn [declare].
  { intros [= <-]. split_and!; try done; constructor. }
  destruct (negb (ValidateCustomerCredential (Secret d))) eqn:E1; [done|].
  destruct (isMember (Secret d) seenSecret) eqn:E2; [done|].
  set (id := if TrimSpace (KeyID d) =s "" then _ else _).
  destruct (isMember id seenID) eqn:E3; [done|].
  destruct (negb (valid_class (Class d))); [done|]. destruct (negb (valid_state (State d))); [done|].
  destruct (declare (pos + 1) _ _ rest) as [ks'|] eqn:Hrest; [|done]. cbn [mbind option_bind].
  intros [= <-]. apply IH in Hrest as (Hpos & Hsec & Hall & Hnd1 & Hnd2). apply isMember_false in E2, E3.
  apply negb_false_iff in E1. rewrite Forall_forall in Hall.
  assert (secret (declared_key pos id d) ∉ secret <$> ks') as Hs.
  { intros (k & Heq & Hk)%list_elem_of_fmap. apply Hall in Hk as (Hk & _). rewrite <-Heq in Hk.
    apply Hk. cbn. apply elem_of_cons. by left. }
  assert (keyID (declared_key pos id d) ∉ keyID <$> ks') as Hi.
  { intros (k & Heq & Hk)%list_elem_of_fmap. apply Hall in Hk as (_ & Hk & _). rewrite <-Heq in Hk.
    apply Hk. cbn. apply elem_of_cons. by left. }
  split_and!.
  - rewrite fmap_cons, Hpos. cbn [length seq]. rewrite fmap_cons, <-fmap_S_seq, <-list_fmap_compose.
    f_equal; [cbn; lia|]. apply list_fmap_ext. intros i n _. cbn. lia.
  - by rewrite fmap_cons, Hsec.
  - apply Forall_cons. split; [done|]. apply Forall_forall. intros k Hk. apply Hall in Hk as (H1 & H2 & H3).
    rewrite !not_elem_of_cons in *. naive_solver.
  - rewrite fmap_cons. by constructor.
  - rewrite fmap_cons. by constructor.
Qed.

(** A pool is built only from distinct, well-formed credentials under
    distinct names, one key per declaration, and it is ordered cheapest stated
    funding first, keys of one funding in the order the operator declared
    them. *)
Theorem newKeyPool_spec slug declarations pol sigs owned p :
  newKeyPool slug declarations pol sigs owned = Some p ->
  NoDup (secret <$> keys p) /\ NoDup (keyID <$> keys p) /\ NoDup (position <$> keys p) /\
  secret <$> keys p ≡ₚ Secret <$> declarations /\
  Forall (fun k => ValidateCustomerCredential (secret k) = true) (keys p) /\
  StronglySorted (fun k k' => Funding_rank (funding k) <= Funding_rank (funding k'))%Z (keys p) /\
  (forall f, StronglySorted (fun k k' => position k < position k')%Z
     (filter (fun k => Funding_rank (funding k) = Funding_rank f) (keys p))) /\
  (0 < Retirement (policy p))%Z.
Proof.
  unfold newKeyPool. destruct (declare 1 [] [] declarations) as [ks|] eqn:Hd; [|done].
  cbn [mbind option_bind]. intros [= <-]. cbn [keys policy].
  apply declare_spec in Hd as (Hpos & Hsec & Hall & Hnd1 & Hnd2).
  set (rank := fun k => Funding_rank (funding k)).
  pose proof (sort_stable_by_permutation rank ks) as Hperm.
  assert (StronglySorted (fun k k' => position k < position k')%Z ks) as Hincr.
  { assert (StronglySorted Z.lt (position <$> ks)) as Hz.
    { rewrite Hpos. generalize (length declarations) as n. generalize 0%nat as start.
      intros start n. revert start. induction n as [|n IHn]; intros start; csimpl.
      - constructor.
      - constructor; [apply IHn|]. apply Forall_fmap, Forall_forall. intros i Hi%elem_of_seq. cbn. lia. }
    exact (proj1 (StronglySorted_fmap Z.lt position ks) Hz). }
  split_and!.
  - by rewrite Hperm.
  - by rewrite Hperm.
  - rewrite Hperm, Hpos. apply NoDup_fmap_2; [intros ? ? ?; lia|apply NoDup_seq].
  - by rewrite Hperm, Hsec.
  - rewrite Hperm. eapply Forall_impl; [exact Hall|]. naive_solver.
  - apply sort_stable_by_sorted.
  - intros f. rewrite (sort_stable_by_stable rank). clear -Hincr.
    induction Hincr as [|k ks Hs IH Hk]; [constructor|]. rewrite filter_cons. case_decide; [|done].
    constructor; [done|]. apply Forall_forall. intros k' [_ Hk']%list_elem_of_filter.
    rewrite Forall_forall in Hk. auto.
  - destruct (Retirement pol <=? 0)%Z eqn:E; bool_cases; simpl; [|lia].
    unfold DefaultKeyRetirement, Minute. lia.
Qed.

Lemma newKeyPool_spec_witness :
  exists p, newKeyPool "openai"
    [mkDeclaration "b" "sk-b" "paid" FundingUnstated false no_state;
     mkDeclaration "a" "sk-a" "free" FundingUnstated false no_state]
    (mkKeyPolicy 0 false) [] false = Some p /\
  NoDup (secret <$> keys p) /\ (keyID <$> keys p) = ["a"; "b"].
Proof.
  eexists. split; [reflexivity|]. split; [|reflexivity].
  eapply (newKeyPool_spec "openai"
    [mkDeclaration "b" "sk-b" "paid" FundingUnstated false no_state;
     mkDeclaration "a" "sk-a" "free" FundingUnstated false no_state] (mkKeyPolicy 0 false) [] false).
  reflexivity.
Defined.

(** ** Which key is leased *)

(** The funding order of a pool survives every mutation. *)
Definition cheapest_first (p : KeyPool) : Prop :=
  StronglySorted (fun k k' => Funding_rank (funding k) <= Funding_rank (funding k'))%Z (keys p).

Lemma same_pool_cheapest_first p p' : same_pool p p' -> cheapest_first p -> cheapest_first p'.
Proof.
  intros Hs. unfold cheapest_first.
  assert (forall q, (fun k => Funding_rank (funding k)) <$> keys q =
    (fun i : Z * string * string * Funding * string * bool => Funding_rank i.1.1.2) <$> (identity <$> keys q)) as Hq.
  { intros q. rewrite <-list_fmap_compose. by apply list_fmap_ext. }
  rewrite <-!(StronglySorted_fmap Z.le (fun k => Funding_rank (funding k))), !Hq.
  by rewrite (same_keys _ _ Hs).
Qed.

Lemma find_first {A} (f : A -> bool) l x :
  List.find f l = Some x ->
  exists l1 l2, l = l1 ++ x :: l2 /\ f x = true /\ Forall (fun y => f y = false) l1.
Proof.
  induction l as [|y l IH]; simpl; [done|]. destruct (f y) eqn:Hy.
  - intros [= <-]. exists [], l. auto.
  - intros (l1 & l2 & -> & Hx & Hall)%IH. exists (y :: l1), l2. auto.
Qed.

Lemma find_sorted (f : pooledKey -> bool) ks k k' :
  StronglySorted (fun k k' => Funding_rank (funding k) <= Funding_rank (funding k'))%Z ks ->
  List.find f ks = Some k -> k' ∈ ks -> f k' = true ->
  (Funding_rank (funding k) <= Funding_rank (funding k'))%Z.
Proof.
  intros Hs (l1 & l2 & -> & Hk & Hall)%find_first Hin Hk'. rewrite Forall_forall in Hall.
  apply elem_of_app in Hin as [Hin|[->|Hin]%elem_of_cons]; [|done|].
  - apply Hall in Hin. congruence.
  - clear -Hs Hin. induction l1 as [|y l1 IH]; simpl in Hs; apply StronglySorted_inv in Hs as [Hs Hall]; [|auto].
    rewrite Forall_forall in Hall. auto.
Qed.

(** Whatever happened to a pool since it was built, the key a request is
    leased is the cheapest it may use: no other key that is in rotation, within
    the request's view and not yet tried has a cheaper stated funding, unless
    that key already failed this request transiently; and a key that failed
    this request is leased only when every usable key did. *)
Theorem leases_cheapest_usable_key slug declarations pol sigs owned p0 p avoid at_ a key a' :
  newKeyPool slug declarations pol sigs owned = Some p0 -> same_pool p0 p ->
  next avoid at_ true p a = (Some key, a') ->
  (forall k, k ∈ keys p -> leasable a at_ true k = true -> avoid (keyID k) = avoid (ID key) ->
     (Funding_rank (key_Funding key) <= Funding_rank (funding k))%Z) /\
  (avoid (ID key) = true -> forall k, k ∈ keys p -> leasable a at_ true k = true -> avoid (keyID k) = true).
Proof.
  intros Hnew Hsame Hnext.
  assert (cheapest_first p) as Hs.
  { apply (same_pool_cheapest_first p0); [done|]. unfold newKeyPool in Hnew.
    destruct (declare _ _ _ _); [|done]. injection Hnew as <-. apply sort_stable_by_sorted. }
  unfold next in Hnext.
  destruct (List.find (fun k => leasable a at_ true k && negb (avoid (keyID k))) (keys p)) as [k0|] eqn:E.
  - injection Hnext as <- <-. apply List.find_some in E as Hk0. destruct Hk0 as [Hin0 Hk0]. bool_cases.
    split; [|cbn; congruence]. intros k Hin Hk Ha. cbn in *.
    eapply find_sorted; [exact Hs|exact E|done|]. cbv beta. rewrite Hk, Ha. apply andb_true_iff. split; [done|].
    by apply negb_true_iff.
  - destruct (List.find _ (keys p)) as [k0|] eqn:E2 in Hnext; [|done]. injection Hnext as <- <-. split.
    + intros k Hin Hk _. by eapply find_sorted.
    + intros _ k Hin%list_elem_of_In Hk. apply (List.find_none _ _ E) in Hin. cbv beta in Hin. rewrite Hk in Hin. cbn in Hin.
      by apply negb_false_iff in Hin.
Qed.

Lemma leases_cheapest_usable_key_witness :
  exists p key a', newKeyPool "openai"
    [mkDeclaration "b" "sk-b" "paid" FundingUnstated false no_state;
     mkDeclaration "a" "sk-a" "free" FundingUnstated false no_state]
    (mkKeyPolicy 0 false) [] false = Some p /\
  next (fun _ => false) 5 true p (Begin whole) = (Some key, a') /\ ID key = "a" /\
  (forall k, k ∈ keys p -> leasable (Begin whole) 5 true k = true -> false = false ->
     (Funding_rank (key_Funding key) <= Funding_rank (funding k))%Z).
Proof.
  eexists _, _, _. split; [reflexivity|]. split; [reflexivity|]. split; [reflexivity|].
  eapply (leases_cheapest_usable_key "openai"
    [mkDeclaration "b" "sk-b" "paid" FundingUnstated false no_state;
     mkDeclaration "a" "sk-a" "free" FundingUnstated false no_state]
    (mkKeyPolicy 0 false) [] false _ _ (fun _ => false) 5 (Begin whole)); reflexivity.
Defined.

(** ** What takes a key out of rotation *)

Section Retirement.
Context (ParseFloat : string -> option float64) (hasRequestID : bool).

(** The answer says that its key has nothing left, or was refused. *)
Definition retiring (p : KeyPool) (a : CredentialedAttempt) : Prop :=
  Transport a = false /\
  (obs_State (Read ParseFloat (signals p) (att_Header a)) = QuotaExhausted \/
   (Accepted a = false /\ (CredentialVerdictFor (Failure a) = CredentialExhausted \/
                            CredentialVerdictFor (Failure a) = CredentialRejected))).

(** A key after a walk: as it was, back in rotation, or out of it because of an
    answer it was itself given. *)
Definition explained (p : KeyPool) (calls : list (Key * CredentialedAttempt)) (k k' : pooledKey) : Prop :=
  identity k = identity k' /\
  (k' = k \/ (reason k' = None /\ retiredUntil k' = 0%Z) \/
   exists c, c ∈ calls /\ Position c.1 = position k /\ retiring p c.2).

Lemma explained_more p calls c k k' : explained p calls k k' -> explained p (calls ++ [c]) k k'.
Proof.
  intros [Hid [?|[?|(c' & Hc & ? & ?)]]]; split; auto.
  right; right. exists c'. rewrite elem_of_app. auto.
Qed.

Lemma at_position_explained p calls pos f ks ks' :
  (forall k, identity (f k) = identity k) ->
  (forall k k', position k = pos -> explained p calls k k' ->
     (reason (f k') = None /\ retiredUntil (f k') = 0%Z) \/
     exists c, c ∈ calls /\ Position c.1 = position k /\ retiring p c.2) ->
  Forall2 (explained p calls) ks ks' -> Forall2 (explained p calls) ks (at_position pos f ks').
Proof.
  intros Hid Hf. induction 1 as [|k k' ks ks' Hk Hks IH]; [constructor|]. cbn [at_position].
  destruct (position k' =? pos)%Z eqn:E; [|by constructor]. constructor; [|done]. bool_cases.
  assert (position k = pos) as Hpos.
  { destruct Hk as [Hi _]. unfold identity in Hi. simplify_eq. congruence. }
  split; [by rewrite Hid; apply Hk|]. right. by apply (Hf k k').
Qed.

Lemma observe_explained p calls pos header at_ q :
  signals q = signals p ->
  (obs_State (Read ParseFloat (signals p) header) = QuotaExhausted ->
     exists c, c ∈ calls /\ Position c.1 = pos /\ retiring p c.2) ->
  Forall2 (explained p calls) (keys p) (keys q) ->
  Forall2 (explained p calls) (keys p) (keys (observe ParseFloat pos header at_ q).2).
Proof.
  intros Hsig Hex Hall. unfold observe. rewrite Hsig. case_decide as Hst; [|done]. cbn [snd].
  destruct (Hex Hst) as (c & Hc & Hpos & Hret).
  unfold set_keys, Retire. cbn [keys].
  repeat (apply at_position_explained; [done| |]); [..|done].
  all: intros k k' Hk _; right; exists c; by rewrite Hk.
Qed.

Lemma exchange_explained p x key w s w' :
  during_ x = [] -> same_pool p (w_pool w) ->
  Forall2 (explained p (w_calls w)) (keys p) (keys (w_pool w)) ->
  exchange ParseFloat hasRequestID x key w = (s, w') ->
  Forall2 (explained p (w_calls w')) (keys p) (keys (w_pool w')).
Proof.
  intros Hquiet Hsame Hall. unfold exchange, Take. rewrite Hquiet. cbn [foldl].
  set (a := try_ x key). set (calls := w_calls w ++ [(key, a)]).
  assert (Forall2 (explained p calls) (keys p) (keys (w_pool w))) as Hcalls.
  { eapply Forall2_impl; [exact Hall|]. intros k k'. apply explained_more. }
  destruct (Transport a) eqn:HT; [by intros [= <- <-]|].
  assert (forall (P : Prop), P -> retiring p a -> exists c, c ∈ calls /\ Position c.1 = Position key /\ retiring p c.2) as Hwhy.
  { intros _ _ Hret. exists (key, a). split_and!; try done. apply elem_of_app. right. by apply list_elem_of_singleton. }
  pose proof (observe_explained p calls (Position key) (att_Header a) (observedAt_ x) (w_pool w)
    (eq_sym (same_signals _ _ Hsame))) as Hobs.
  destruct (observe ParseFloat _ _ _ _) as [until q] eqn:Eobs. cbn [snd] in Hobs.
  assert (Forall2 (explained p calls) (keys p) (keys q)) as Hq.
  { apply Hobs; [|done]. intros Hst. apply (Hwhy True); [done|]. split; auto. }
  clear Hobs Eobs. unfold judge.
  assert (forall why, CredentialVerdictFor (Failure a) = why -> Accepted a = false ->
    (why = CredentialExhausted \/ why = CredentialRejected) ->
    forall reason at_ u, Forall2 (explained p calls) (keys p) (keys (Retire (Position key) reason at_ u q))) as Hret.
  { intros why Hv HA Hor reason at_ u. apply at_position_explained; [done| |done].
    intros k k' Hk _. right. rewrite Hk. apply (Hwhy True); [done|]. split; [done|]. right. rewrite Hv. auto. }
  destruct (Accepted a) eqn:HA.
  { intros [= <- <-]. cbn. case_match; [done|]. apply at_position_explained; [done| |done]. by left. }
  destruct (CredentialVerdictFor (Failure a)) eqn:HV.
  - destruct (Throttled (Failure a)); [|by intros [= <- <-]].
    destruct (AllowThrottleRotation _ _) as [[] ?]; by intros [= <- <-].
  - intros [= <- <-]. cbn. by apply (Hret CredentialExhausted); auto.
  - intros [= <- <-]. cbn. by apply (Hret CredentialRejected); auto.
  - by intros [= <- <-].
Qed.

Lemma iterate_explained p x w s w' :
  before_ x = [] -> during_ x = [] -> same_pool p (w_pool w) ->
  Forall2 (explained p (w_calls w)) (keys p) (keys (w_pool w)) ->
  iterate ParseFloat hasRequestID x w = (s, w') ->
  Forall2 (explained p (w_calls w')) (keys p) (keys (w_pool w')) /\ same_pool p (w_pool w').
Proof.
  intros Hb Hd Hsame Hall. unfold iterate. rewrite Hb. cbn [foldl].
  destruct (next _ _ _ _ _) as [[key|] attempt]; [|by intros [= <- <-]].
  assert (forall key s w' pool, same_pool p pool -> Forall2 (explained p (w_calls w)) (keys p) (keys pool) ->
    exchange ParseFloat hasRequestID x key
      (mkWalk pool (w_sequence w) attempt (w_refused w) (w_calls w) (w_records w)) = (s, w') ->
    Forall2 (explained p (w_calls w')) (keys p) (keys (w_pool w')) /\ same_pool p (w_pool w')) as Hex.
  { intros key0 s0 w0 pool Hp Ha He. split; [by eapply exchange_explained in He|].
    apply exchange_spec in He as [He _]. by etrans. }
  destruct (recovery key && key_runtime key); [|by apply Hex].
  destruct (claim x); [by intros [= <- <-]|by apply Hex|by intros [= <- <-]| |by intros [= <- <-]].
  apply Hex; [etrans; [exact Hsame|apply markUsable_same]|].
  apply at_position_explained; [done| |done]. by left.
Qed.

Lemma walk_explained fuel world past p w r w' :
  (forall past, before_ (world past) = [] /\ during_ (world past) = []) -> same_pool p (w_pool w) ->
  Forall2 (explained p (w_calls w)) (keys p) (keys (w_pool w)) ->
  walk ParseFloat hasRequestID fuel world past w = Some (r, w') ->
  Forall2 (explained p (w_calls w')) (keys p) (keys (w_pool w')).
Proof.
  intros Hquiet. revert past w. induction fuel as [|fuel IH]; intros past w Hsame Hall; cbn [walk]; [done|].
  destruct (iterate _ _ _ _) as [s w1] eqn:Hit. destruct (Hquiet past) as [Hb Hd].
  apply (iterate_explained p) in Hit as [Hall1 Hsame1]; [|done..].
  destruct s; [by intros [= <- <-]|]. by apply IH.
Qed.

(** Nothing but evidence about a key takes it out of rotation: after a walk
    every key is as it was, or back in rotation, or was called in this walk and
    answered that it is spent, that it is refused, or that a declared quota
    header reads zero.  Timeouts, rate limits, server errors, refused requests
    and transport failures retire nothing. *)
Theorem only_evidence_retires_a_key world v p seq r w :
  (forall past, before_ (world past) = [] /\ during_ (world past) = []) ->
  WalkAttempts ParseFloat hasRequestID world v p seq = Some (r, w) ->
  Forall2 (explained p (w_calls w)) (keys p) (keys (w_pool w)).
Proof.
  intros Hquiet H. eapply walk_explained in H; [done|done|done|]. cbn.
  apply Forall_Forall2_diag, Forall_forall. intros k _. split; auto.
Qed.
End Retirement.

Section Examples.
Definition no_float (s : string) : option float64 :=
  if s =s "0" then Some (S754_zero false) else None.

Definition example_key (pos : Z) (id : string) : pooledKey :=
  mkPooledKey pos id "" FundingUnstated id 0 None true "" 0.
Definition example_pool (sigs : QuotaHeaders) : KeyPool :=
  mkPool "openai" (mkKeyPolicy (15 * Minute) false) sigs false [example_key 1 "a"; example_key 2 "b"].

Definition upstream (code category : string) : GoError := ErrUpstream (mkUpstream code category 0 None false).

(** The first key is throttled. *)
Definition throttled_world (past : list Exchange) : Exchange :=
  mkExchange [] 5 Claimed (fun _ => mkCredentialed None false (upstream CodeRateLimited UpstreamRateLimit) false) [] 6.

Lemma only_evidence_retires_a_key_witness :
  exists r w, WalkAttempts no_float true throttled_world whole (example_pool []) new_sequence = Some (r, w) /\
    r = WalkFailed (Some (leased_key (example_pool []) (example_key 1 "a"))) (upstream CodeRateLimited UpstreamRateLimit) /\
    Forall2 (explained no_float (example_pool []) (w_calls w)) (keys (example_pool [])) (keys (w_pool w)).
Proof.
  eexists _, _. split; [reflexivity|]. split; [reflexivity|].
  apply (only_evidence_retires_a_key no_float true throttled_world whole (example_pool []) new_sequence
    (WalkFailed (Some (leased_key (example_pool []) (example_key 1 "a"))) (upstream CodeRateLimited UpstreamRateLimit)));
    [done|reflexivity].
Defined.

(** The provider answers that the key is spent until an instant. *)
Definition reset_header (name : string) : string :=
  if name =s "x-remaining" then "0" else if name =s "x-reset" then "4102444800" else "".
Definition spent_world (past : list Exchange) : Exchange :=
  mkExchange [] 5 Claimed
    (fun _ => mkCredentialed (Some reset_header) false (upstream CodeProviderBillingRefused UpstreamQuota) false) [] 6.
Definition declared_signals : QuotaHeaders :=
  [("x-remaining", SignalRemainingCredits); ("x-reset", SignalResetAt)].

(** A provider that refuses a spent key and says when its capacity returns is
    not believed: the headers alone retire the key until the stated instant,
    but when the refusal carrying the same headers is also classified as
    exhausted the key is retired for the policy's flat window instead. *)
Theorem exhausted_refusal_forgets_reset :
  let p := example_pool declared_signals in
  let reset := time_Unix 4102444800 in
  (observe no_float 1 (Some reset_header) 6 p).1 = Some reset /\
  (retiredUntil <$> keys (observe no_float 1 (Some reset_header) 6 p).2) = [reset; 0%Z] /\
  match WalkAttempts no_float true spent_world whole p new_sequence with
  | Some (_, w) => (retiredUntil <$> keys (w_pool w)) = [Add 6 (15 * Minute); Add 6 (15 * Minute)]
  | None => False
  end.
Proof. vm_compute. done. Qed.

End Examples.
