(* ===== verification/ProviderCost.v ===== *)
(** * Upstream cost (internal/providercost)

    What a request cost at its providers: exact decimal amounts in units of
    1e-12, rate cards, the measurement of every attempt of a request, and the
    operator-only events that persist it.  Amounts are [int64]; sums and
    products wrap as the code lets them. *)

From S2P Require Import Prelude Ids Text Contract.
Import Regex.

(** ** Strings *)

Fixpoint repeat_char (n : nat) (c : ascii) : string :=
  match n with O => "" | S n => String c (repeat_char n c) end.

(** [strings.Cut(s, ".")]: the parts around the first dot, or [s] alone. *)
Fixpoint Cut (s : string) : string * string * bool :=
  match s with
  | EmptyString => ("", "", false)
  | String c s =>
      if Ascii.eqb c "." then ("", s, true)
      else let '(before, after, found) := Cut s in (String c before, after, found)
  end.

Definition is_digit_char (c : ascii) : bool := in_byte_range 48 57 c.

Fixpoint every (f : ascii -> bool) (s : string) : bool :=
  match s with EmptyString => true | String c s => f c && every f s end.

Definition has_prefix_char (c : ascii) (s : string) : bool :=
  match s with String d _ => Ascii.eqb c d | EmptyString => false end.

(** [strings.TrimLeft(s, "0")] and [strings.TrimRight(s, "0")]. *)
Fixpoint TrimLeft0 (s : string) : string :=
  match s with
  | String c s' => if Ascii.eqb c "0" then TrimLeft0 s' else s
  | EmptyString => EmptyString
  end.

Fixpoint TrimRight0 (s : string) : string :=
  match s with
  | EmptyString => EmptyString
  | String c s =>
      match TrimRight0 s with
      | EmptyString => if Ascii.eqb c "0" then EmptyString else String c EmptyString
      | rest => String c rest
      end
  end.

(** ** Money *)

Definition Scale : Z := 12.
Definition picos : Z := 1000000000000.

Record Money := mkMoney { Currency : string; Amount : Z }.

#[export] Instance Money_eq_dec : EqDecision Money.
Proof. solve_decision. Defined.

(** [^[A-Z]{3}$]. *)
Definition currencyPattern : regex := Repeat 3 (Class is_upper).

(** The accumulation loop of [ParseDecimal]; [None] is an amount past [int64]. *)
Fixpoint accumulate (amount : Z) (digits : string) : option Z :=
  match digits with
  | EmptyString => Some amount
  | String c rest =>
      let digit := (byte c - 48)%Z in
      if (Z.quot (int64_max - digit) 10 <? amount)%Z then None
      else accumulate (amount * 10 + digit)%Z rest
  end.

(** What both decimal parsers refuse before looking at the digits. *)
Definition signed_or_spaced (value : string) : bool :=
  (value =s "") || negb (TrimSpace value =s value) || has_prefix_char "-" value || has_prefix_char "+" value.

Definition ParseDecimal (currency value : string) : option Money :=
  if negb (matches currencyPattern currency) then None
  else if signed_or_spaced value then None
  else
    let '(whole, fraction, found) := Cut value in
    let fraction := if found then fraction else "" in
    if (whole =s "") || (Scale <? len fraction)%Z || contains_char "." fraction then None
    else if negb (every is_digit_char whole && every is_digit_char fraction) then None
    else
      amount ← accumulate 0 (whole +:+ fraction +:+ repeat_char (Z.to_nat (Scale - len fraction)) "0");
      Some (mkMoney currency amount).

(** [fmt.Sprintf("%0<width>d", n)] for a non-negative [n]. *)
Definition pad_left (width : nat) (s : string) : string :=
  repeat_char (width - String.length s) "0" +:+ s.

Definition decimal_part (m : Money) : string :=
  Itoa (Z.quot (Amount m) picos) +:+ "." +:+ pad_left 12 (Itoa (Z.abs (Z.rem (Amount m) picos))).

Definition Money_String (m : Money) : string :=
  if Currency m =s "" then "unmeasured" else Currency m +:+ " " +:+ decimal_part m.

(** *** List prices (listprice.go) *)

Definition canonicalDecimal (value : string) : string :=
  let '(whole, fraction, _) := Cut value in
  let whole := TrimLeft0 whole in
  let whole := if whole =s "" then "0" else whole in
  let fraction := TrimRight0 fraction in
  if fraction =s "" then whole else whole +:+ "." +:+ fraction.

(** Pad a fraction with zeros to [exponent] digits. *)
Definition pad_right (exponent : nat) (fraction : string) : string :=
  fraction +:+ repeat_char (exponent - String.length fraction) "0".

Definition shiftDecimal (value : string) (exponent : nat) : option string :=
  if signed_or_spaced value then None
  else
    let '(whole, fraction, found) := Cut value in
    if (whole =s "") || contains_char "." fraction || (found && (fraction =s "")) then None
    else if negb (every is_digit_char (whole +:+ fraction)) then None
    else
      let fraction := pad_right exponent fraction in
      Some (canonicalDecimal
        (whole +:+ String.substring 0 exponent fraction +:+ "." +:+
         String.substring exponent (String.length fraction - exponent) fraction)).

Record ListPrice := mkListPrice { list_Currency : string; list_Input : string; list_Output : string }.

Definition tokensPerQuotedUnitExponent : nat := 6.

Definition ListPrice_Validate (p : ListPrice) : option string :=
  refuse_if (bool_decide (ParseDecimal (list_Currency p) (list_Input p) = None)) "list price input" ;;
  refuse_if (bool_decide (ParseDecimal (list_Currency p) (list_Output p) = None)) "list price output" ;;
  refuse_if (negb (canonicalDecimal (list_Input p) =s list_Input p)
             || negb (canonicalDecimal (list_Output p) =s list_Output p))
    "list price amounts must be canonical decimals".

Definition ListPriceFromPerToken (currency inputPerToken outputPerToken : string) : option ListPrice :=
  input ← shiftDecimal inputPerToken tokensPerQuotedUnitExponent;
  output ← shiftDecimal outputPerToken tokensPerQuotedUnitExponent;
  let price := mkListPrice currency input output in
  match ListPrice_Validate price with None => Some price | Some _ => None end.

(** ** Rate cards *)

Record Rate := mkRate { rate_Unit : string; AmountPerUnit : Z }.

Record Card := mkCard {
  card_DeploymentID : string;
  card_Currency : string;
  Rates : list Rate;
  card_RequestInputTokens : Z;
}.

Definition RateCardProviderAPI := "provider_api".
Definition RateCardProviderDocumentation := "provider_documentation".
Definition RateCardOperator := "operator".

Record RateCardObservation := mkRateCardObservation {
  VersionID : string;
  obs_Source : string;
  SourceVersion : string;
  obs_ObservedAt : Instant;
  EffectiveAt : Instant;
  ExpiresAt : option Instant;
  RateCards : list Card;
}.

(** A loaded rate table; a nil table is the [None] of its users. *)
Record Cards := mkCards {
  byDeployment : gmap string Card;
  observations : gmap string RateCardObservation;
  deploymentObservation : gmap string string;
}.

(** A decoded rate-card document. *)
Record cardFile := mkCardFile { file_SchemaVersion : Z; file_Observation : RateCardObservation }.

Definition ObservationForDeployment (id : string) (c : Cards) : option RateCardObservation :=
  versionID ← deploymentObservation c !! id;
  observations c !! versionID.

Definition Observations (c : Cards) : list RateCardObservation :=
  (snd <$> sort_by fst (map_to_list (observations c))).

Definition Observation (c : Cards) : option RateCardObservation :=
  match map_to_list (observations c) with [(_, o)] => Some o | _ => None end.

(** The last assignment of a list of keys to a map, refusing a repeated key. *)
Fixpoint insert_all {A} (entries : list (string * A)) (m : gmap string A) : option (gmap string A) :=
  match entries with
  | [] => Some m
  | (k, v) :: rest => match m !! k with Some _ => None | None => insert_all rest (<[k := v]> m) end
  end.

Definition empty_cards : Cards := mkCards ∅ ∅ ∅.

(** One table of [combine]. *)
Definition combine_table (result : Cards) (table : Cards) : option Cards :=
  obs ← insert_all (map_to_list (observations table)) (observations result);
  cards ← insert_all (map_to_list (byDeployment table)) (byDeployment result);
  Some (mkCards cards obs
          (foldl (fun m kv =>
             match deploymentObservation table !! kv.1 with
             | Some versionID => <[kv.1 := versionID]> m
             | None => <[kv.1 := ""]> m
             end) (deploymentObservation result) (map_to_list (byDeployment table)))).

Fixpoint combine_from (result : Cards) (tables : list Cards) : option Cards :=
  match tables with
  | [] => Some result
  | table :: rest => result ← combine_table result table; combine_from result rest
  end.

Definition combine (tables : list Cards) : option Cards := combine_from empty_cards tables.

Fixpoint validateRates (seen : list string) (rates : list Rate) : option string :=
  match rates with
  | [] => None
  | rate :: rest =>
      refuse_if (negb (UsageUnit_Valid (rate_Unit rate))) "prices something which is not a usage unit" ;;
      refuse_if (AmountPerUnit rate <? 0)%Z "prices a unit negatively" ;;
      refuse_if (isMember (rate_Unit rate) seen) "prices a unit twice" ;;
      validateRates (rate_Unit rate :: seen) rest
  end.

Definition validateCard (card : Card) : option string :=
  refuse_if (card_DeploymentID card =s "") "a rate card names no deployment" ;;
  refuse_if (negb (matches currencyPattern (card_Currency card))) "not a currency code" ;;
  refuse_if match Rates card with [] => true | _ => false end "declares no rates" ;;
  refuse_if (card_RequestInputTokens card <? 0)%Z "declares negative request input tokens" ;;
  validateRates [] (Rates card).

(** The loop of [Parse] over the declared cards. *)
Fixpoint parse_cards (versionID : string) (c : Cards) (cards : list Card) : option Cards :=
  match cards with
  | [] => Some c
  | card :: rest =>
      match validateCard card, byDeployment c !! card_DeploymentID card with
      | None, None =>
          parse_cards versionID
            (mkCards (<[card_DeploymentID card := card]> (byDeployment c)) (observations c)
               (<[card_DeploymentID card := versionID]> (deploymentObservation c))) rest
      | _, _ => None
      end
  end.

Definition Parse (parsed : cardFile) : option Cards :=
  let o := file_Observation parsed in
  if negb (file_SchemaVersion parsed =? 1)%Z || negb (TrimSpace (VersionID o) =s VersionID o)
     || (VersionID o =s "") || negb (TrimSpace (SourceVersion o) =s SourceVersion o)
     || (SourceVersion o =s "") || IsZero (obs_ObservedAt o) || IsZero (EffectiveAt o)
  then None
  else if negb (isMember (obs_Source o) [RateCardProviderAPI; RateCardProviderDocumentation; RateCardOperator])
  then None
  else if match ExpiresAt o with Some expiry => negb (After expiry (EffectiveAt o)) | None => false end
  then None
  else if match RateCards o with [] => true | _ => false end then None
  else
    c ← parse_cards (VersionID o) empty_cards (RateCards o);
    Some (mkCards (byDeployment c) (<[VersionID o := o]> (observations c)) (deploymentObservation c)).

Definition Cards_RequestInputTokens (admits : string -> bool) (c : option Cards) : Z :=
  match c with
  | None => 0
  | Some c =>
      map_fold (fun id card most =>
        if ((most <? card_RequestInputTokens card)%Z && admits id) then card_RequestInputTokens card else most)
        0%Z (byDeployment c)
  end.

Definition Priced_deployment (deployment : string) (c : option Cards) : bool :=
  match c with None => false | Some c => bool_decide (is_Some (byDeployment c !! deployment)) end.

(** ** Measurement *)

Inductive Source := SourceUnknown | SourceRateCard | SourceProviderReported.

#[export] Instance Source_eq_dec : EqDecision Source.
Proof. solve_decision. Defined.

Record Measurement := mkMeasurement {
  Cost : Money;
  measured_Source : Source;
  RateCardVersionID : string;
  ProviderBilledCustomer : bool;
  Priced : bool;
  UnpricedUnits : list string;
}.

Definition no_money : Money := mkMoney "" 0.
Definition unknown_measurement : Measurement := mkMeasurement no_money SourceUnknown "" false false [].

Definition Complete (m : Measurement) : bool :=
  ProviderBilledCustomer m || (Priced m && match UnpricedUnits m with [] => true | _ => false end).

(** The rate a card states for a unit: the last one, as its map holds it. *)
Definition rate_of (rates : list Rate) (unit : string) : option Z :=
  AmountPerUnit <$> List.find (fun r => rate_Unit r =s unit) (reverse rates).

Definition price_unit (rates : list Rate) (acc : Z * list string) (q : UsageQuantity) : Z * list string :=
  match rate_of rates (Unit q) with
  | None => (acc.1, acc.2 ++ [Unit q])
  | Some rate => (wrap64 (acc.1 + wrap64 (rate * Quantity q)), acc.2)
  end.

(** [measureAt]; [now] is the clock it reads when given no instant. *)
Definition measureAt (now : Instant) (deployment : string) (units : list UsageQuantity) (at_ : Instant)
    (c : option Cards) : Measurement :=
  match c with
  | None => unknown_measurement
  | Some c =>
      let at_ := if IsZero at_ then now else at_ in
      match ObservationForDeployment deployment c with
      | None => unknown_measurement
      | Some observation =>
          if Before at_ (EffectiveAt observation)
             || match ExpiresAt observation with Some expiry => negb (Before at_ expiry) | None => false end
          then unknown_measurement
          else match byDeployment c !! deployment with
          | None => unknown_measurement
          | Some card =>
              let '(amount, unpriced) := foldl (price_unit (Rates card)) (0%Z, []) units in
              mkMeasurement (mkMoney (card_Currency card) amount) SourceRateCard (VersionID observation)
                false true (sort_by id unpriced)
          end
      end
  end.

(** ** One request, several attempts *)

Inductive AttemptOutcome := AttemptSucceeded | AttemptFailed | AttemptCancelled.

Record AttemptTelemetry := mkTelemetry {
  telemetry_StartedAt : Instant;
  Latency : Duration;
  TimeToFirstOutput : Duration;
  telemetry_Outcome : AttemptOutcome;
  FailureCode : string;
}.

Record AttemptUsage := mkUsage {
  AttemptIndex : Z;
  usage_DeploymentID : string;
  usage_Provider : string;
  usage_ModelReference : string;
  usage_OccurredAt : Instant;
  usage_ProviderBilledCustomer : bool;
  usage_KeyID : string;
  KeyClass : string;
  ProviderReportedCost : option Money;
  Served : bool;
  usage_Units : list UsageQuantity;
  Telemetry : AttemptTelemetry;
}.

Record AttemptCost := mkAttemptCost { cost_Usage : AttemptUsage; cost_Measurement : Measurement }.

Record Record_ := mkRecord {
  record_RequestID : string;
  Attempts : list AttemptCost;
  Totals : list Money;
  record_Complete : bool;
}.

Definition measure_attempt (now : Instant) (c : option Cards) (attempt : AttemptUsage) : Measurement :=
  if usage_ProviderBilledCustomer attempt
  then mkMeasurement no_money SourceUnknown "" true false []
  else match ProviderReportedCost attempt with
  | Some cost => mkMeasurement cost SourceProviderReported "" false true []
  | None => measureAt now (usage_DeploymentID attempt) (usage_Units attempt) (usage_OccurredAt attempt) c
  end.

Definition add_total (totals : gmap string Z) (m : Measurement) : gmap string Z :=
  if Priced m && negb (ProviderBilledCustomer m)
  then <[Currency (Cost m) := wrap64 (default 0%Z (totals !! Currency (Cost m)) + Amount (Cost m))]> totals
  else totals.

Definition MeasureRequest (now : Instant) (requestID : string) (attempts : list AttemptUsage)
    (c : option Cards) : Record_ :=
  let measured := map (fun a => mkAttemptCost a (measure_attempt now c a)) attempts in
  let totals := foldl add_total ∅ (map cost_Measurement measured) in
  mkRecord requestID measured
    (sort_by Currency (map (fun kv => mkMoney kv.1 kv.2) (map_to_list totals)))
    (forallb (fun a => Complete (cost_Measurement a)) measured
     && match attempts with [] => false | _ => true end).

(** ** Events *)

Record Event := mkEvent {
  event_RequestID : string;
  event_AttemptIndex : Z;
  event_Provider : string;
  event_KeyID : string;
  event_DeploymentID : string;
  event_ModelReference : string;
  event_Cost : Money;
  event_Source : Source;
  event_RateCardVersionID : string;
  event_Complete : bool;
  event_Served : bool;
  event_OccurredAt : Instant;
  event_Units : list UsageQuantity;
  event_Telemetry : AttemptTelemetry;
}.

Definition maxPersistenceBatchEvents : nat := 64.
Definition maxTelemetryMilliseconds : Z := 2147483647.

(** [^[a-z][a-z0-9_]{0,63}$]. *)
Definition failureCodePattern : regex :=
  Seq (Class is_lower) (RepeatUpTo 63 (Class (fun c => lower_alnum c || Ascii.eqb c "_"))).

Definition sortedUnits (units : list UsageQuantity) : list UsageQuantity := sort_by Unit units.

Fixpoint validateEventUnits (seen : list string) (units : list UsageQuantity) : option string :=
  match units with
  | [] => None
  | q :: rest =>
      refuse_if (negb (UsageUnit_Valid (Unit q)) || (Quantity q <? 0)%Z) "an invalid usage quantity" ;;
      refuse_if (isMember (Unit q) seen) "reports a unit twice" ;;
      validateEventUnits (Unit q :: seen) rest
  end.

Definition validateTelemetry (e : Event) : option string :=
  let t := event_Telemetry e in
  refuse_if (IsZero (telemetry_StartedAt t) || (Latency t <? 0)%Z || (TimeToFirstOutput t <? 0)%Z
             || (Latency t <? TimeToFirstOutput t)%Z) "telemetry is incomplete or inconsistent" ;;
  refuse_if (maxTelemetryMilliseconds <? Milliseconds (Latency t))%Z "latency exceeds the recordable range" ;;
  match telemetry_Outcome t with
  | AttemptSucceeded | AttemptCancelled =>
      refuse_if (negb (FailureCode t =s "")) "did not fail but carries a failure code"
  | AttemptFailed =>
      refuse_if (negb (matches failureCodePattern (FailureCode t))) "failed attempt has no failure code"
  end ;;
  validateEventUnits [] (event_Units e).

Definition validateEvent (e : Event) : option string :=
  refuse_if ((event_RequestID e =s "") || (event_AttemptIndex e <? 0)%Z || (event_Provider e =s "")
             || (event_KeyID e =s "") || (event_DeploymentID e =s "") || (event_ModelReference e =s "")
             || IsZero (event_OccurredAt e)) "event identity is incomplete" ;;
  validateTelemetry e ;;
  match event_Source e with
  | SourceProviderReported | SourceRateCard =>
      refuse_if (negb (matches currencyPattern (Currency (event_Cost e))) || (Amount (event_Cost e) <? 0)%Z)
        "a priced event has invalid money" ;;
      refuse_if (bool_decide (event_Source e = SourceRateCard)
                 && ((event_RateCardVersionID e =s "") || (256 <? len (event_RateCardVersionID e))%Z))
        "a rate-card event has no exact rate-card version" ;;
      refuse_if (bool_decide (event_Source e = SourceProviderReported)
                 && negb (event_RateCardVersionID e =s ""))
        "a provider-reported event carries a rate-card version"
  | SourceUnknown =>
      refuse_if (negb (Currency (event_Cost e) =s "") || negb (Amount (event_Cost e) =? 0)%Z
                 || event_Complete e || negb (event_RateCardVersionID e =s ""))
        "an unknown event carries a cost or claims completeness"
  end.

(** A platform attempt that leased a key: the attempts that are events. *)
Definition billable (a : AttemptUsage) : bool :=
  negb (usage_ProviderBilledCustomer a) && negb (usage_KeyID a =s "").

Definition event_of (requestID : string) (a : AttemptCost) : Event :=
  let u := cost_Usage a in
  let m := cost_Measurement a in
  mkEvent requestID (AttemptIndex u) (usage_Provider u) (usage_KeyID u) (usage_DeploymentID u)
    (usage_ModelReference u) (Cost m) (measured_Source m) (RateCardVersionID m) (Complete m) (Served u)
    (usage_OccurredAt u) (sortedUnits (usage_Units u)) (Telemetry u).

Fixpoint events_from (requestID : string) (seen : list Z) (attempts : list AttemptCost)
    : option (list Event) :=
  match attempts with
  | [] => Some []
  | a :: rest =>
      if negb (billable (cost_Usage a)) then events_from requestID seen rest
      else
        let event := event_of requestID a in
        match validateEvent event with
        | Some _ => None
        | None =>
            if bool_decide (event_AttemptIndex event ∈ seen) then None
            else events ← events_from requestID (event_AttemptIndex event :: seen) rest;
                 Some (event :: events)
        end
  end.

(** [None] is a refusal. *)
Definition Events (record : Record_) : option (list Event) :=
  if (maxPersistenceBatchEvents <? length (Attempts record))%nat then None
  else events_from (record_RequestID record) [] (Attempts record).

(** *** The recorder

    Each try of the batch writer is a call of [write]; [cancelled n] says
    whether the context ended during the wait after try [n]. *)

Inductive RecordResult := RecordOK | RecordRefused | RecordCancelled | RecordFailed.

Fixpoint record_batch (fuel : nat) (write cancelled : nat -> bool) (tries : nat) (retryDelay : Duration)
    : RecordResult * nat :=
  match fuel with
  | O => (RecordFailed, tries)
  | S fuel =>
      if write tries then (RecordOK, S tries)
      else if (100 * Millisecond <? retryDelay)%Z then (RecordFailed, S tries)
      else if cancelled tries then (RecordCancelled, S tries)
      else record_batch fuel write cancelled (S tries) (wrap64 (retryDelay * 4))
  end.

(** [Recorder.Record] with a batch writer: the result and the number of writes. *)
Definition Recorder_Record (write cancelled : nat -> bool) (record : Record_) : RecordResult * nat :=
  match Events record with
  | None => (RecordRefused, 0%nat)
  | Some [] => (RecordOK, 0%nat)
  | Some _ => record_batch 3 write cancelled 0 (25 * Millisecond)
  end.

(** ** Lemmas: numerals *)

(** The number a string of digits spells, after the digits of [acc]. *)
Fixpoint value (acc : Z) (s : string) : Z :=
  match s with EmptyString => acc | String c s => value (acc * 10 + (byte c - 48)) s end.

Lemma digit_range c : is_digit_char c = true -> (0 <= byte c - 48 <= 9)%Z.
Proof. unfold is_digit_char, in_byte_range. intros H. bool_cases. lia. Qed.

Lemma every_app f s1 s2 : every f (s1 +:+ s2) = every f s1 && every f s2.
Proof. induction s1 as [|c s1 IH]; [done|]. rewrite str_app_cons. cbn. rewrite IH. by rewrite andb_assoc. Qed.

Lemma value_app acc s1 s2 : value acc (s1 +:+ s2) = value (value acc s1) s2.
Proof. revert acc. induction s1 as [|c s1 IH]; intros acc; [done|]. rewrite str_app_cons. cbn. apply IH. Qed.

Lemma value_acc acc s : value acc s = (acc * 10 ^ len s + value 0 s)%Z.
Proof.
  revert acc. induction s as [|c s IH]; intros acc; [cbn [value]; change (len "") with 0%Z; lia|].
  cbn [value]. rewrite IH, (IH (0 * 10 + _)%Z). unfold len. cbn [String.length].
  rewrite Nat2Z.inj_succ, Z.pow_succ_r by lia. lia.
Qed.

Lemma value_ge acc s : every is_digit_char s = true -> (0 <= acc)%Z -> (acc <= value acc s)%Z.
Proof.
  revert acc. induction s as [|c s IH]; intros acc H Hacc; cbn in *; [lia|]. bool_cases.
  pose proof (digit_range c ltac:(done)). specialize (IH (acc * 10 + (byte c - 48))%Z ltac:(done) ltac:(lia)). lia.
Qed.

Lemma accumulate_spec acc s n :
  every is_digit_char s = true -> (0 <= acc <= int64_max)%Z ->
  accumulate acc s = Some n <-> n = value acc s /\ (n <= int64_max)%Z.
Proof.
  revert acc. induction s as [|c s IH]; intros acc Hs Hacc; cbn [accumulate value].
  { split; [intros [= <-]; split; [done|lia]|by intros [-> _]]. }
  cbn in Hs. bool_cases. pose proof (digit_range c ltac:(done)) as Hd.
  assert ((Z.quot (int64_max - (byte c - 48)) 10 <? acc)%Z = true <-> (int64_max < acc * 10 + (byte c - 48))%Z) as Hov.
  { rewrite Z.ltb_lt. unfold int64_max in *. Z.to_euclidean_division_equations. lia. }
  destruct (_ <? acc)%Z.
  - split; [done|]. intros [-> Hn]. exfalso.
    pose proof (proj1 Hov eq_refl). pose proof (value_ge (acc * 10 + (byte c - 48)) s ltac:(done)). lia.
  - apply IH; [done|]. destruct (decide (int64_max < acc * 10 + (byte c - 48))%Z) as [H'|H']; [|lia].
    by apply Hov in H'.
Qed.

Lemma value_zeros acc n : value acc (repeat_char n "0") = (acc * 10 ^ Z.of_nat n)%Z.
Proof.
  revert acc. induction n as [|n IH]; intros acc; [cbn; lia|]. cbn [repeat_char value].
  rewrite IH, Nat2Z.inj_succ, Z.pow_succ_r by lia. change (byte "0" - 48)%Z with 0%Z. lia.
Qed.

Lemma every_zeros n : every is_digit_char (repeat_char n "0") = true.
Proof. by induction n. Qed.

(** *** Cutting at the dot *)

Lemma digits_no_dot s : every is_digit_char s = true -> contains_char "." s = false.
Proof.
  induction s as [|c s IH]; [done|]. cbn [every contains_char]. intros [Hc Hs]%andb_true_iff.
  rewrite IH, orb_false_r by done.
  destruct (Ascii.eqb "." c) eqn:E; [|done]. apply Ascii.eqb_eq in E as <-. done.
Qed.

Lemma Cut_spec s whole fraction found :
  Cut s = (whole, fraction, found) ->
  contains_char "." whole = false /\
  ((found = true /\ s = whole +:+ "." +:+ fraction) \/ (found = false /\ s = whole /\ fraction = "")).
Proof.
  revert whole fraction found. induction s as [|c s IH]; intros whole fraction found; cbn [Cut].
  - intros [= <- <- <-]. auto.
  - destruct (Ascii.eqb c ".") eqn:E.
    + apply Ascii.eqb_eq in E as ->. intros [= <- <- <-]. auto.
    + destruct (Cut s) as [[w f] b] eqn:Hs. intros [= <- <- <-].
      destruct (IH w f b eq_refl) as [Hw H].
      split; [cbn [contains_char]; by rewrite Ascii.eqb_sym, E, Hw|].
      destruct H as [[-> ->]|(-> & -> & ->)]; auto.
Qed.

Lemma Cut_dot whole fraction :
  contains_char "." whole = false -> Cut (whole +:+ "." +:+ fraction) = (whole, fraction, true).
Proof.
  induction whole as [|c w IH]; [done|]. rewrite str_app_cons. cbn [Cut contains_char].
  intros [Hc Hw]%orb_false_iff. rewrite Ascii.eqb_sym, Hc, IH by done. done.
Qed.

Lemma Cut_no_dot s : contains_char "." s = false -> Cut s = (s, "", false).
Proof.
  induction s as [|c s IH]; [done|]. cbn [Cut contains_char]. intros [Hc Hs]%orb_false_iff.
  rewrite Ascii.eqb_sym, Hc, IH by done. done.
Qed.

(** *** Plain text is not trimmed *)

Definition plain (c : ascii) : bool := is_digit_char c || Ascii.eqb c ".".

Lemma plain_byte c : plain c = true -> (byte c < 128)%Z /\ IsSpace (byte c) = false.
Proof.
  unfold plain. intros [H|H]%orb_true_iff; [|apply Ascii.eqb_eq in H as ->; by vm_compute].
  unfold is_digit_char, in_byte_range in H. bool_cases. split; [lia|].
  unfold IsSpace. repeat (apply orb_false_iff; split); try apply andb_false_iff; lia.
Qed.

Lemma runes_unspaced s : every plain s = true -> Forall (fun r => IsSpace r.1 = false) (runes s).
Proof.
  induction s as [|c s IH]; [constructor|]. cbn [every]. intros [Hc Hs]%andb_true_iff.
  apply plain_byte in Hc as [Hlt Hsp]. rewrite runes_ascii by done. constructor; auto.
Qed.

Lemma leading_none rs : Forall (fun r => IsSpace r.1 = false) rs -> leading_spaces rs = 0%Z.
Proof. destruct 1 as [|[r n] rs Hr _]; [done|]. cbn in *. by rewrite Hr. Qed.

Lemma TrimSpace_every_plain s : every plain s = true -> TrimSpace s = s.
Proof.
  intros H%runes_unspaced. unfold TrimSpace. rewrite !leading_none by (try done; by apply Forall_reverse).
  rewrite !Z.sub_0_r, Nat2Z.id. apply substring_all.
Qed.

Lemma digits_plain s : every is_digit_char s = true -> every plain s = true.
Proof. induction s as [|c s IH]; [done|]. cbn. unfold plain. intros [-> H]%andb_true_iff. cbn. auto. Qed.

Lemma plain_sign c s : plain c = false -> every plain s = true -> has_prefix_char c s = false.
Proof.
  intros Hc. destruct s as [|d s]; [done|]. cbn. intros [Hd _]%andb_true_iff.
  destruct (Ascii.eqb c d) eqn:E; [|done]. apply Ascii.eqb_eq in E as <-. congruence.
Qed.

Lemma plain_not_signed s : every plain s = true -> s <> "" -> signed_or_spaced s = false.
Proof.
  intros H Hne. unfold signed_or_spaced. rewrite TrimSpace_every_plain by done.
  rewrite !plain_sign by done. rewrite String.eqb_refl. cbn. rewrite !orb_false_r. by apply String.eqb_neq.
Qed.

(** ** Decimal amounts *)

(** [text] is written as these whole and fraction digits. *)
Inductive decimal : string -> string -> string -> Prop :=
| decimal_whole whole : decimal whole whole ""
| decimal_dot whole fraction : decimal (whole +:+ "." +:+ fraction) whole fraction.

(** [text] spells [amount] picos exactly: digits, optionally a dot and at most
    twelve more digits. *)
Definition spells (text : string) (amount : Z) : Prop :=
  exists whole fraction, decimal text whole fraction /\
    whole <> "" /\ every is_digit_char whole = true /\ every is_digit_char fraction = true /\
    (len fraction <= Scale)%Z /\
    amount = (value 0 whole * 10 ^ Scale + value 0 fraction * 10 ^ (Scale - len fraction))%Z.

Lemma decimal_Cut text whole fraction :
  decimal text whole fraction -> every is_digit_char whole = true ->
  exists found, Cut text = (whole, fraction, found).
Proof.
  destruct 1; intros Hw%digits_no_dot; [rewrite Cut_no_dot by done|rewrite Cut_dot by done]; by eexists.
Qed.

Lemma Cut_decimal text whole fraction found :
  Cut text = (whole, fraction, found) -> decimal text whole (if found then fraction else "").
Proof.
  intros [_ [[-> ->]|(-> & -> & ->)]]%Cut_spec; constructor.
Qed.

Lemma decimal_plain text whole fraction :
  decimal text whole fraction -> every is_digit_char whole = true -> every is_digit_char fraction = true ->
  every plain text = true.
Proof.
  destruct 1; intros Hw%digits_plain Hf%digits_plain; [done|].
  rewrite !every_app, Hw, Hf. done.
Qed.

Lemma decimal_text_nonempty text whole fraction : decimal text whole fraction -> whole <> "" -> text <> "".
Proof. destruct 1; [done|]. by destruct whole. Qed.

Lemma padded_value whole fraction :
  (len fraction <= Scale)%Z ->
  value 0 (whole +:+ fraction +:+ repeat_char (Z.to_nat (Scale - len fraction)) "0") =
  (value 0 whole * 10 ^ Scale + value 0 fraction * 10 ^ (Scale - len fraction))%Z.
Proof.
  intros Hlen. pose proof (len_nonneg fraction). rewrite !value_app, value_zeros, Z2Nat.id by lia.
  rewrite (value_acc (value 0 whole)), Z.mul_add_distr_r, <-Z.mul_assoc, <-Z.pow_add_r by lia.
  do 3 f_equal. lia.
Qed.

Lemma ParseDecimal_spells currency text m :
  matches currencyPattern currency = true ->
  ParseDecimal currency text = Some m <->
  Currency m = currency /\ spells text (Amount m) /\ (Amount m <= int64_max)%Z.
Proof.
  intros Hcur. unfold ParseDecimal. rewrite Hcur. cbn [negb].
  assert (forall whole fraction, every is_digit_char whole = true -> every is_digit_char fraction = true ->
    (len fraction <= Scale)%Z -> forall n,
    accumulate 0 (whole +:+ fraction +:+ repeat_char (Z.to_nat (Scale - len fraction)) "0") = Some n <->
    n = (value 0 whole * 10 ^ Scale + value 0 fraction * 10 ^ (Scale - len fraction))%Z /\ (n <= int64_max)%Z) as Hacc.
  { intros whole fraction Hw Hf Hlen n. rewrite accumulate_spec by (rewrite ?every_app, ?every_zeros, ?Hw, ?Hf; done).
    by rewrite padded_value. }
  split.
  - destruct (signed_or_spaced text) eqn:Hs; [done|].
    destruct (Cut text) as [[whole fraction0] found] eqn:Hcut. apply Cut_decimal in Hcut as Hdec.
    set (fraction := if found then fraction0 else "") in *.
    destruct (_ || contains_char "." fraction) eqn:E1; [done|].
    destruct (negb _) eqn:E2; [done|]. bool_cases.
    destruct (accumulate _ _) as [n|] eqn:En; [|done]. intros [= <-]. cbn.
    apply Hacc in En as [-> Hn]; [|done..]. split_and!; [done| |done]. by exists whole, fraction.
  - intros (<- & (whole & fraction & Hdec & Hne & Hw & Hf & Hlen & Ham) & Hmax).
    rewrite plain_not_signed by (by eauto using decimal_plain, decimal_text_nonempty).
    destruct (decimal_Cut _ _ _ Hdec Hw) as [found Hcut]. rewrite Hcut.
    assert ((if found then fraction else "") = fraction) as ->.
    { apply Cut_spec in Hcut as [_ [[-> _]|(-> & _ & ->)]]; done. }
    apply String.eqb_neq in Hne as ->. rewrite (digits_no_dot fraction), Hw, Hf by done.
    assert ((Scale <? len fraction)%Z = false) as -> by (apply Z.ltb_ge; lia). cbn [orb negb andb].
    rewrite (proj2 (Hacc _ _ Hw Hf Hlen (Amount m))) by done. by destruct m.
Qed.

(** A decimal amount a provider reports is read exactly or refused: with a
    currency code, the text is accepted precisely when it is plain digits with
    at most twelve decimal places whose amount fits [int64], and then the
    amount is exactly what the text spells. *)
Theorem ParseDecimal_exact currency text m :
  matches currencyPattern currency = true ->
  ParseDecimal currency text = Some m <->
  Currency m = currency /\ spells text (Amount m) /\ (Amount m <= int64_max)%Z.
Proof. apply ParseDecimal_spells. Qed.

Lemma ParseDecimal_exact_witness :
  ParseDecimal "USD" "1.5" = Some (mkMoney "USD" 1500000000000) /\ spells "1.5" 1500000000000.
Proof.
  split; [reflexivity|].
  apply (ParseDecimal_exact "USD" "1.5" (mkMoney "USD" 1500000000000)); reflexivity.
Defined.

(** *** Writing amounts *)

Definition digit_char (d : Z) : ascii := ascii_of_nat (Z.to_nat (48 + d)).

Lemma digit_char_spec d : (0 <= d <= 9)%Z -> is_digit_char (digit_char d) = true /\ byte (digit_char d) = (48 + d)%Z.
Proof.
  intros H. assert (d = 0 \/ d = 1 \/ d = 2 \/ d = 3 \/ d = 4 \/ d = 5 \/ d = 6 \/ d = 7 \/ d = 8 \/ d = 9)%Z
    as Hd by lia.
  repeat (destruct Hd as [-> | Hd]; [by vm_compute|]). subst. by vm_compute.
Qed.

Lemma decimal_digits_spec fuel n acc :
  (0 <= n < 10 ^ Z.of_nat fuel)%Z -> (0 < fuel)%nat ->
  exists s, decimal_digits fuel n acc = s +:+ acc /\ every is_digit_char s = true /\ value 0 s = n /\
    s <> "" /\ forall k, (1 <= k)%Z -> (n < 10 ^ k)%Z -> (len s <= k)%Z.
Proof.
  revert n acc. induction fuel as [|fuel IH]; intros n acc Hn Hf; [lia|]. cbn [decimal_digits].
  pose proof (Z.mod_pos_bound n 10 ltac:(lia)) as Hmod.
  destruct (digit_char_spec (n mod 10) ltac:(lia)) as [Hd Hb]. fold (digit_char (n mod 10)).
  destruct (n <? 10)%Z eqn:E; bool_cases.
  - exists (String (digit_char (n mod 10)) ""). split; [done|]. split; [|split; [|split; [done|]]].
    + cbn [every]. by rewrite Hd.
    + cbn [value]. rewrite Hb, Z.mod_small by lia. lia.
    + intros k Hk _. by change (1 <= k)%Z.
  - assert (0 < fuel)%nat as Hf' by (destruct fuel; [cbn in Hn|]; lia).
    rewrite Nat2Z.inj_succ, Z.pow_succ_r in Hn by lia.
    destruct (IH (n / 10)%Z (String (digit_char (n mod 10)) acc)) as (s & Hs & Hev & Hval & Hne & Hlen).
    { split; [apply Z.div_pos; lia|]. apply Z.div_lt_upper_bound; lia. }
    { done. }
    exists (s +:+ String (digit_char (n mod 10)) "").
    rewrite Hs, str_app_assoc, every_app, value_app, Hev, Hval. split; [done|]. split; [|split; [|split]].
    + cbn [every]. by rewrite Hd.
    + cbn [value]. rewrite Hb. pose proof (Z.div_mod n 10 ltac:(lia)). lia.
    + by destruct s.
    + intros k Hk Hlt. rewrite len_app. change (len (String _ "")) with 1%Z.
      assert (1 <= k - 1)%Z as Hk1.
      { destruct (decide (k = 1)%Z) as [->|]; [|lia]. cbn in Hlt. lia. }
      assert (len s <= k - 1)%Z; [|lia]. apply Hlen; [done|].
      apply Z.div_lt_upper_bound; [lia|]. rewrite <-Z.pow_succ_r by lia. by replace (Z.succ (k - 1)) with k by lia.
Qed.

Lemma Itoa_spec n :
  (0 <= n < 10 ^ 20)%Z ->
  every is_digit_char (Itoa n) = true /\ value 0 (Itoa n) = n /\ Itoa n <> "" /\
  forall k, (1 <= k)%Z -> (n < 10 ^ k)%Z -> (len (Itoa n) <= k)%Z.
Proof.
  intros H. unfold Itoa. rewrite (proj2 (Z.ltb_ge n 0)) by lia.
  destruct (decimal_digits_spec 20 n "") as (s & -> & Hs); [done|lia|]. by rewrite str_app_nil_r.
Qed.

Lemma pad_left_spec width s :
  every is_digit_char s = true -> (len s <= Z.of_nat width)%Z ->
  every is_digit_char (pad_left width s) = true /\ value 0 (pad_left width s) = value 0 s /\
  len (pad_left width s) = Z.of_nat width.
Proof.
  intros Hs Hlen. unfold pad_left. rewrite every_app, every_zeros, Hs, value_app, value_zeros, len_app.
  split_and!; [done|f_equal; lia|].
  assert (forall n, len (repeat_char n "0") = Z.of_nat n) as ->.
  { intros n. unfold len. induction n; cbn; lia. }
  unfold len in *. lia.
Qed.

(** An amount survives being written for the operator log: the decimal the
    log shows for any non-negative [int64] amount parses back to exactly that
    amount, in that currency. *)
Theorem amount_round_trip m :
  matches currencyPattern (Currency m) = true -> (0 <= Amount m <= int64_max)%Z ->
  Money_String m = Currency m +:+ " " +:+ decimal_part m /\
  ParseDecimal (Currency m) (decimal_part m) = Some m.
Proof.
  intros Hcur Ham. split.
  { unfold Money_String. by destruct (Currency m). }
  unfold decimal_part, picos, int64_max in *.
  rewrite Z.rem_mod_nonneg, Z.quot_div_nonneg by lia.
  pose proof (Z.mod_pos_bound (Amount m) 1000000000000 ltac:(lia)) as Hmod.
  rewrite Z.abs_eq by lia.
  pose proof (Z.div_mod (Amount m) 1000000000000 ltac:(lia)) as Hdm.
  set (q := (Amount m / 1000000000000)%Z) in *. set (r := (Amount m mod 1000000000000)%Z) in *.
  destruct (Itoa_spec q) as (Hq1 & Hq2 & Hq3 & _); [lia|].
  destruct (Itoa_spec r) as (Hr1 & Hr2 & _ & Hr4); [lia|].
  destruct (pad_left_spec 12 (Itoa r)) as (Hp1 & Hp2 & Hp3); [done|by apply Hr4; lia|].
  apply ParseDecimal_spells; [done|]. split_and!; [done| |unfold int64_max; lia].
  exists (Itoa q), (pad_left 12 (Itoa r)).
  split; [constructor|]. split; [exact Hq3|]. split; [exact Hq1|]. split; [exact Hp1|].
  split; [by rewrite Hp3|]. rewrite Hp3, Hp2, Hq2, Hr2. unfold Scale. cbn. lia.
Qed.

Lemma amount_round_trip_witness :
  ParseDecimal "USD" (decimal_part (mkMoney "USD" 12345)) = Some (mkMoney "USD" 12345).
Proof. apply (amount_round_trip (mkMoney "USD" 12345)); [reflexivity|by vm_compute]. Defined.

(** ** Lemmas: measurement *)

Definition sum (l : list Z) : Z := foldr Z.add 0%Z l.

Lemma sum_snoc l x : sum (l ++ [x]) = (sum l + x)%Z.
Proof. induction l as [|y l IH]; unfold sum in *; cbn in *; lia. Qed.

Lemma omap_snoc {A B} (f : A -> option B) l x :
  omap f (l ++ [x]) = omap f l ++ match f x with Some y => [y] | None => [] end.
Proof.
  induction l as [|y l IH]; cbn; [by destruct (f x)|]. destruct (f y); cbn; by rewrite IH.
Qed.

(** What each unit adds to an attempt's cost under a card. *)
Definition unit_cost (rates : list Rate) (q : UsageQuantity) : option Z :=
  (fun rate => rate * Quantity q)%Z <$> rate_of rates (Unit q).
Definition unpriced_unit (rates : list Rate) (q : UsageQuantity) : option string :=
  match rate_of rates (Unit q) with None => Some (Unit q) | Some _ => None end.

Lemma price_units_spec rates units :
  foldl (price_unit rates) (0%Z, []) units =
    (wrap64 (sum (omap (unit_cost rates) units)), omap (unpriced_unit rates) units).
Proof.
  induction units as [|q units IH] using rev_ind; [done|].
  rewrite foldl_snoc, IH, !omap_snoc. unfold price_unit, unit_cost, unpriced_unit.
  destruct (rate_of rates (Unit q)); cbn.
  - rewrite app_nil_r, sum_snoc, wrap64_add_l, wrap64_add_r. done.
  - by rewrite !app_nil_r.
Qed.

(** The amount an attempt adds to the totals of a currency. *)
Definition expense (cur : string) (m : Measurement) : option Z :=
  if Priced m && negb (ProviderBilledCustomer m) && (Currency (Cost m) =s cur)
  then Some (Amount (Cost m)) else None.

Lemma totals_spec ms cur :
  foldl add_total ∅ ms !! cur =
    match omap (expense cur) ms with [] => None | l => Some (wrap64 (sum l)) end.
Proof.
  induction ms as [|m ms IH] using rev_ind; [done|].
  rewrite foldl_snoc, omap_snoc. unfold add_total at 1, expense at 2.
  destruct (Priced m && negb (ProviderBilledCustomer m)) eqn:E; cbn [andb]; [|by rewrite app_nil_r].
  destruct (Currency (Cost m) =s cur) eqn:Ec; bool_cases.
  - subst cur. rewrite lookup_insert_eq, IH. set (l := omap _ ms).
    destruct (l ++ [Amount (Cost m)]) as [|x l'] eqn:El; [by destruct l|]. rewrite <-El, sum_snoc.
    destruct l; cbn [default from_option]; unfold id; [done|]. by rewrite wrap64_add_l.
  - by rewrite lookup_insert_ne, app_nil_r.
Qed.

(** The record of a request accounts for every attempt once: its totals hold
    one amount per currency, sorted, each the (two's complement) sum of what
    the priced attempts in that currency cost, a customer-billed attempt adding
    nothing; and it calls itself complete exactly when there was an attempt and
    each was either billed to the customer or priced unit by unit. *)
Theorem MeasureRequest_accounts now id attempts c :
  let measured := measure_attempt now c <$> attempts in
  let record := MeasureRequest now id attempts c in
  (forall cur amount, mkMoney cur amount ∈ Totals record <->
     omap (expense cur) measured <> [] /\ amount = wrap64 (sum (omap (expense cur) measured))) /\
  NoDup (Currency <$> Totals record) /\ Sorted (key_le Currency) (Totals record) /\
  (record_Complete record = true <->
     attempts <> [] /\ Forall (fun m => ProviderBilledCustomer m = true \/
                                 (Priced m = true /\ UnpricedUnits m = [])) measured).
Proof.
  intros measured record. unfold record, MeasureRequest.
  assert (map cost_Measurement (map (fun a => mkAttemptCost a (measure_attempt now c a)) attempts) = measured) as Hm.
  { rewrite map_map. done. }
  cbn [Totals record_Complete]. rewrite Hm. set (totals := foldl add_total ∅ measured).
  set (l := map _ (map_to_list totals)). pose proof (sort_by_permutation Currency l) as Hperm.
  assert (Currency <$> l = (map_to_list totals).*1) as Hfst.
  { unfold l. rewrite <-list_fmap_compose. apply list_fmap_ext. by intros i [cur amount] _. }
  split_and!.
  - intros cur amount. rewrite Hperm. unfold l. rewrite list_elem_of_fmap.
    assert ((exists x, mkMoney cur amount = (fun kv => mkMoney kv.1 kv.2) x /\ x ∈ map_to_list totals) <->
      totals !! cur = Some amount) as ->.
    { rewrite <-elem_of_map_to_list. split; [|by exists (cur, amount)]. by intros ([? ?] & [= <- <-] & ?). }
    unfold totals. rewrite totals_spec. destruct (omap (expense cur) measured) eqn:E; [naive_solver|].
    split; [by intros [= <-]|by intros [_ ->]].
  - rewrite Hperm, Hfst. apply NoDup_fst_map_to_list.
  - apply sort_by_sorted.
  - rewrite andb_true_iff, forallb_forall.
    assert ((forall x, List.In x (map (fun a => mkAttemptCost a (measure_attempt now c a)) attempts) ->
      Complete (cost_Measurement x) = true) <-> Forall (fun m => Complete m = true) measured) as ->.
    { rewrite <-Hm, Forall_fmap, Forall_forall. by setoid_rewrite list_elem_of_In. }
    assert (forall m, Complete m = true <-> ProviderBilledCustomer m = true \/ (Priced m = true /\ UnpricedUnits m = [])) as Hc.
    { intros m. unfold Complete. rewrite orb_true_iff, andb_true_iff. destruct (UnpricedUnits m); naive_solver. }
    rewrite !Forall_forall. setoid_rewrite Hc. destruct attempts; naive_solver.
Qed.

(** A rate card large enough makes a plausible wrong number: the product of a
    rate and a quantity wraps, so an accepted card prices four tokens at
    nothing, and the measurement calls itself complete. *)
Theorem rate_card_product_wraps :
  let observation := mkRateCardObservation "v1" RateCardOperator "s1" 1 1 None
    [mkCard "d1" "USD" [mkRate UnitInputTokens (2 ^ 62)] 0] in
  match Parse (mkCardFile 1 observation) with
  | Some cards =>
      let m := measureAt 2 "d1" [mkQuantity UnitInputTokens 4] 2 (Some cards) in
      Cost m = mkMoney "USD" 0 /\ Complete m = true
  | None => False
  end.
Proof. vm_compute. done. Qed.

(** ** Lemmas: events *)

Lemma events_from_spec id seen attempts evs :
  events_from id seen attempts = Some evs <->
  evs = event_of id <$> filter (fun a => billable (cost_Usage a) = true) attempts /\
  Forall (fun e => validateEvent e = None) evs /\
  NoDup (event_AttemptIndex <$> evs) /\ Forall (fun e => event_AttemptIndex e ∉ seen) evs.
Proof.
  revert seen evs. induction attempts as [|a rest IH]; intros seen evs; cbn [events_from].
  { split; [intros [= <-]; split_and!; constructor|by intros [-> _]]. }
  rewrite filter_cons. destruct (billable (cost_Usage a)) eqn:Hb; cbn [negb]; cycle 1.
  { rewrite decide_False by done. apply IH. }
  rewrite decide_True by done. rewrite fmap_cons. set (e := event_of id a). destruct (validateEvent e) eqn:Hv.
  { split; [done|]. intros (-> & Hall & _). apply Forall_cons in Hall as [? _]. congruence. }
  case_bool_decide as Hseen.
  { split; [done|]. intros (-> & _ & _ & Hall). by apply Forall_cons in Hall as [? _]. }
  destruct (events_from id (event_AttemptIndex e :: seen) rest) as [evs'|] eqn:Hrest; cbn [mbind option_bind].
  - apply IH in Hrest as (-> & Hval & Hnd & Hns). rewrite Forall_forall in Hns. split.
    + intros [= <-]. split_and!; [done|by constructor| |].
      * rewrite fmap_cons. constructor; [|done]. intros (e' & Heq & He')%list_elem_of_fmap.
        apply Hns in He'. rewrite <-Heq in He'. apply He', elem_of_cons. by left.
      * constructor; [done|]. apply Forall_forall. intros e' He'%Hns. rewrite not_elem_of_cons in He'. by destruct He'.
    + by intros [-> _].
  - split; [done|]. intros (-> & Hval & Hnd & Hns). exfalso.
    apply Forall_cons in Hval as [_ Hval]. apply Forall_cons in Hns as [_ Hns].
    rewrite fmap_cons in Hnd. apply NoDup_cons in Hnd as [Hin Hnd].
    assert (events_from id (event_AttemptIndex e :: seen) rest =
      Some (event_of id <$> filter (fun a => billable (cost_Usage a) = true) rest)) as Hc; [|congruence].
    apply IH. split_and!; try done. rewrite Forall_forall in Hns. apply Forall_forall. intros e' He'.
    rewrite not_elem_of_cons. split; [|auto]. intros Heq. apply Hin. rewrite <-Heq. by apply list_elem_of_fmap_2.
Qed.

(** What is persisted of a request is exactly one event per platform attempt
    that leased a key, in order, every one of them valid and under its own
    attempt index, at most sixty-four of them; anything else is refused
    whole, so no prefix of a request is written. *)
Theorem Events_spec record evs :
  Events record = Some evs <->
  (length (Attempts record) <= maxPersistenceBatchEvents)%nat /\
  evs = event_of (record_RequestID record) <$> filter (fun a => billable (cost_Usage a) = true) (Attempts record) /\
  Forall (fun e => validateEvent e = None) evs /\ NoDup (event_AttemptIndex <$> evs).
Proof.
  unfold Events. destruct (_ <? _)%nat eqn:E.
  - apply Nat.ltb_lt in E. split; [done|]. intros [? _]. lia.
  - apply Nat.ltb_ge in E. rewrite events_from_spec. split; [naive_solver|].
    intros (? & ? & ? & ?). split_and!; try done. apply Forall_forall. by intros ? ? []%not_elem_of_nil.
Qed.
