(* ===== verification/DecisionPrice.v ===== *)
(** * Decision prices (internal/providercost/decisions.go)

    The amount a provider bills for a decisions call, read from a JSON number
    without a float, and the price ceiling of a decisions deployment, derived
    from its rate card.  Arithmetic on exponents is [int]; slicing outside a
    string and repeating past the address space panic, and are a result of
    their own here. *)

From S2P Require Import Prelude Ids Text Contract ProviderCost.
Import Regex.

(** ** The reported cost *)

(** The four groups [jsonNumber] captures. *)
Record JsonLiteral := mkLiteral {
  lit_Sign : bool;
  lit_Whole : string;
  lit_Fraction : string;
  lit_Exponent : string;
}.

(** The longest run of digits a string starts with, and the rest. *)
Fixpoint digit_run (s : string) : string * string :=
  match s with
  | String c s' =>
      if is_digit_char c then let '(run, rest) := digit_run s' in (String c run, rest) else ("", s)
  | EmptyString => ("", "")
  end.

(** [(?:[eE]([+-]?[0-9]+))?$]. *)
Definition exponent_of (s : string) : option string :=
  match s with
  | EmptyString => Some ""
  | String e s' =>
      if negb (Ascii.eqb e "e" || Ascii.eqb e "E") then None
      else
        let '(sign, digits) :=
          match s' with
          | String c rest => if Ascii.eqb c "+" || Ascii.eqb c "-" then (String c "", rest) else ("", s')
          | EmptyString => ("", s')
          end in
        if negb (digits =s "") && every is_digit_char digits then Some (sign +:+ digits) else None
  end.

(** [(?:\.([0-9]+))?] and what follows it. *)
Definition fraction_of (s : string) : option (string * string) :=
  match s with
  | String c s' =>
      if Ascii.eqb c "."
      then let '(fraction, rest) := digit_run s' in
           if fraction =s "" then None else Some (fraction, rest)
      else Some ("", s)
  | EmptyString => Some ("", s)
  end.

(** [jsonNumber.FindStringSubmatch]. *)
Definition jsonNumber (s : string) : option JsonLiteral :=
  let '(sign, s) :=
    match s with String c rest => if Ascii.eqb c "-" then (true, rest) else (false, s) | _ => (false, s) end in
  let '(whole, rest) := digit_run s in
  if (whole =s "") || (has_prefix_char "0" whole && negb (whole =s "0")) then None
  else
    '(fraction, rest) ← fraction_of rest;
    exponent ← exponent_of rest;
    Some (mkLiteral sign whole fraction exponent).

(** What [ReportedCost] does: an unknown amount, an exact one, or a panic. *)
Inductive Reported := Unknown | Exactly (m : Money) | Panics.

Definition USD := "USD".

Definition all_zero (s : string) : bool := every (Ascii.eqb "0") s.

(** [s[:index]] and [s[index:]]; [None] is out of range. *)
Definition slice_at (index : Z) (s : string) : option (string * string) :=
  if (index <? 0)%Z || (len s <? index)%Z then None
  else Some (String.substring 0 (Z.to_nat index) s,
             String.substring (Z.to_nat index) (String.length s - Z.to_nat index) s).

(** The most a Go program can allocate; [strings.Repeat] past it panics. *)
Definition max_alloc : Z := 281474976710656.

(** The tail of [ReportedCost]: an empty or over-long numeral is unknown. *)
Definition amount_of (digits : string) : Reported :=
  if digits =s "" then Unknown
  else match ParseInt digits with Some amount => Exactly (mkMoney USD amount) | None => Unknown end.

Definition scaled (digits : string) (shift : Z) : Reported :=
  if (shift <? 0)%Z then
    if (len digits <? wrap64 (- shift))%Z then Unknown
    else match slice_at (wrap64 (len digits + shift)) digits with
    | None => Panics
    | Some (kept, dropped) => if all_zero dropped then amount_of kept else Unknown
    end
  else if (19 <? wrap64 (len digits + shift))%Z then Unknown
  else if (max_alloc <? shift)%Z then Panics
  else amount_of (digits +:+ repeat_char (Z.to_nat shift) "0").

(** The shift in units of 10^-[Scale], computed in [int]. *)
Definition shift_of (exponent : Z) (fraction : string) : Z := wrap64 (wrap64 (exponent - len fraction) + Scale).

Definition ReportedCost (cost : string) : Reported :=
  match jsonNumber cost with
  | None => Unknown
  | Some l =>
      if lit_Sign l then Unknown
      else
        let digits := TrimLeft0 (lit_Whole l +:+ lit_Fraction l) in
        if digits =s "" then Exactly (mkMoney USD 0)
        else if lit_Exponent l =s "" then scaled digits (shift_of 0 (lit_Fraction l))
        else match ParseInt (lit_Exponent l) with
        | None => Unknown
        | Some exponent => scaled digits (shift_of exponent (lit_Fraction l))
        end
  end.

(** ** The price ceiling *)

(** A plain decimal: no sign, no leading zero, no exponent. *)
Definition decisionDecimal : regex :=
  let digit := Class is_digit_char in
  Seq (Alt (Char "0") (Seq (Class (in_byte_range 49 57)) (Star digit)))
    (Opt (Seq (Char ".") (Seq digit (Star digit)))).

(** A [DecisionTokenPrice] is its decimal text. *)
Definition ParseDecisionTokenPrice (value : string) : option string :=
  if (256 <? len value)%Z || negb (matches decisionDecimal value) then None else Some value.

(** [strings.Trim(p.decimal, "0.") == ""]. *)
Definition price_IsZero (price : string) : bool :=
  every (fun c => Ascii.eqb c "0" || Ascii.eqb c ".") price.

Record DecisionPriceLimit := mkLimit { limit_Prompt : string; limit_Completion : string }.

Definition zero_limit : DecisionPriceLimit := mkLimit "" "".

(** [fmt.Sprintf("%d.%06d", a/1_000_000, a%1_000_000)] for a non-negative rate. *)
Definition per_million (a : Z) : string :=
  Itoa (Z.quot a 1000000) +:+ "." +:+ pad_left 6 (Itoa (Z.rem a 1000000)).

(** One turn of the loop over a card's rates: the limit, and whether an input
    and an output rate were seen. *)
Definition limit_step (state : DecisionPriceLimit * bool * bool) (rate : Rate)
    : option (DecisionPriceLimit * bool * bool) :=
  let '(limit, input, output) := state in
  if (AmountPerUnit rate <? 0)%Z then None
  else
    price ← ParseDecisionTokenPrice (per_million (AmountPerUnit rate));
    if rate_Unit rate =s UnitInputTokens
    then if input then None else Some (mkLimit price (limit_Completion limit), true, output)
    else if rate_Unit rate =s UnitOutputTokens
    then if output then None else Some (mkLimit (limit_Prompt limit) price, input, true)
    else None.

Fixpoint limit_loop (state : DecisionPriceLimit * bool * bool) (rates : list Rate)
    : option (DecisionPriceLimit * bool * bool) :=
  match rates with
  | [] => Some state
  | rate :: rest => state ← limit_step state rate; limit_loop state rest
  end.

(** [Cards.DecisionPriceLimit]; [None] is its false answer. *)
Definition Cards_DecisionPriceLimit (id : string) (at_ : Instant) (c : option Cards) : option DecisionPriceLimit :=
  c ← c;
  observation ← ObservationForDeployment id c;
  if Before at_ (EffectiveAt observation)
     || match ExpiresAt observation with Some expiry => negb (Before at_ expiry) | None => false end
  then None
  else
    card ← byDeployment c !! id;
    if negb (card_Currency card =s USD) || negb (length (Rates card) =? 2)%nat then None
    else
      '(limit, input, output) ← limit_loop (zero_limit, false, false) (Rates card);
      if input && output && negb (price_IsZero (limit_Prompt limit)) && price_IsZero (limit_Completion limit)
      then Some limit else None.

(** ** Lemmas *)

Example cost_plain : ReportedCost "0.0125" = Exactly (mkMoney USD 12500000000).
Proof. reflexivity. Qed.
Example cost_exponent : ReportedCost "1.25e-2" = Exactly (mkMoney USD 12500000000).
Proof. reflexivity. Qed.
Example cost_too_fine : ReportedCost "1e-13" = Unknown.
Proof. reflexivity. Qed.
Example cost_panics : ReportedCost "1.00000000000e9223372036854775807" = Panics.
Proof. reflexivity. Qed.
Example cost_panics' : ReportedCost "1e9223372036854775795" = Panics.
Proof. reflexivity. Qed.

Lemma digit_run_spec s run rest : digit_run s = (run, rest) -> every is_digit_char run = true.
Proof.
  revert run rest. induction s as [|c s IH]; intros run rest; cbn [digit_run]; [by intros [= <- _]|].
  destruct (is_digit_char c) eqn:Hc; [|by intros [= <- _]].
  destruct (digit_run s) as [r t]. intros [= <- <-]. cbn [every]. rewrite Hc. by apply (IH r t).
Qed.

Lemma jsonNumber_digits s l :
  jsonNumber s = Some l -> every is_digit_char (lit_Whole l) = true /\ every is_digit_char (lit_Fraction l) = true.
Proof.
  unfold jsonNumber. destruct (match s with EmptyString => _ | _ => _ end) as [sign s'].
  destruct (digit_run s') as [whole rest] eqn:Hw. apply digit_run_spec in Hw.
  destruct (_ || _); [done|]. destruct (fraction_of rest) as [[fraction rest']|] eqn:Hf; [|done]. cbn [mbind option_bind].
  destruct (exponent_of rest'); [|done]. cbn [mbind option_bind]. intros [= <-]. split; [done|]. cbn [lit_Fraction].
  unfold fraction_of in Hf. destruct rest as [|c rest]; [by injection Hf as <- _|].
  destruct (Ascii.eqb c "."); [|by injection Hf as <- _].
  destruct (digit_run rest) as [r t] eqn:Hr. apply digit_run_spec in Hr. destruct (r =s ""); [done|].
  by injection Hf as <- _.
Qed.

Lemma value_bounds s : every is_digit_char s = true -> (0 <= value 0 s < 10 ^ len s)%Z.
Proof.
  induction s as [|c s IH]; intros H; [done|]. cbn [every] in H. apply andb_true_iff in H as [Hc Hs].
  pose proof (digit_range c Hc). specialize (IH Hs). cbn [value]. rewrite value_acc.
  unfold len in *. cbn [String.length]. rewrite Nat2Z.inj_succ, Z.pow_succ_r by lia.
  pose proof (Z.pow_pos_nonneg 10 (Z.of_nat (String.length s)) ltac:(lia) ltac:(lia)). nia.
Qed.

(** A numeral that does not start with a zero. *)
Definition leading_digit (s : string) : Prop :=
  every is_digit_char s = true /\ s <> "" /\ has_prefix_char "0" s = false.

Lemma leading_digit_value s : leading_digit s -> (10 ^ (len s - 1) <= value 0 s)%Z.
Proof.
  intros (Hs & Hne & Hz). destruct s as [|c s]; [done|]. cbn [every has_prefix_char] in *.
  apply andb_true_iff in Hs as [Hc Hs]. pose proof (digit_range c Hc). pose proof (value_bounds s Hs).
  cbn [value]. rewrite value_acc. unfold len in *. cbn [String.length]. rewrite Nat2Z.inj_succ.
  replace (Z.succ (Z.of_nat (String.length s)) - 1)%Z with (Z.of_nat (String.length s)) by lia.
  assert (byte c <> 48)%Z as Hne0.
  { intros Hb. apply Ascii.eqb_neq in Hz. apply Hz. rewrite <-(ascii_N_embedding c), <-(ascii_N_embedding "0").
    f_equal. unfold byte in Hb. change (N_of_ascii "0") with 48%N. lia. }
  nia.
Qed.

Lemma TrimLeft0_spec s :
  every is_digit_char s = true ->
  value 0 (TrimLeft0 s) = value 0 s /\ (len (TrimLeft0 s) <= len s)%Z /\
  (TrimLeft0 s = "" \/ leading_digit (TrimLeft0 s)).
Proof.
  induction s as [|c s IH]; cbn [every TrimLeft0]; intros H; [cbn; auto with lia|].
  apply andb_true_iff in H as [Hc Hs]. destruct (Ascii.eqb c "0") eqn:E.
  - apply Ascii.eqb_eq in E as ->. destruct (IH Hs) as (H1 & H2 & H3). split; [|split; [|done]].
    + rewrite H1. done.
    + unfold len in *. cbn [String.length]. lia.
  - split; [done|]. split; [lia|]. right. split; [cbn [every]; by rewrite Hc|].
    split; [done|]. cbn [has_prefix_char]. by rewrite Ascii.eqb_sym.
Qed.

Lemma digits_value_spec acc s : every is_digit_char s = true -> digits_value acc s = Some (value acc s).
Proof.
  revert acc. induction s as [|c s IH]; intros acc; [done|]. cbn [every digits_value value].
  intros [Hc Hs]%andb_true_iff. unfold digit_value. unfold is_digit_char in Hc. rewrite Hc. cbn. by apply IH.
Qed.

Lemma amount_of_spec s m :
  every is_digit_char s = true -> s <> "" ->
  amount_of s <> Panics /\
  (amount_of s = Exactly m <-> m = mkMoney USD (value 0 s) /\ (value 0 s <= int64_max)%Z).
Proof.
  intros Hs Hne. unfold amount_of. rewrite (proj2 (String.eqb_neq s "")) by done.
  assert (ParseInt s = if (value 0 s <=? int64_max)%Z then Some (value 0 s) else None) as ->.
  { unfold ParseInt. destruct s as [|c s]; [done|]. pose proof Hs as Hall. cbn [every] in Hs.
    apply andb_true_iff in Hs as [Hc Hs]. pose proof (digit_range c Hc).
    rewrite (proj2 (Z.eqb_neq _ 45)), (proj2 (Z.eqb_neq _ 43)) by lia.
    rewrite digits_value_spec by done. cbn [mbind option_bind]. rewrite Z.mul_1_l.
    pose proof (value_bounds _ Hall). rewrite (proj2 (Z.leb_le int64_min _)) by (unfold int64_min; lia). done. }
  destruct (_ <=? _)%Z eqn:E; bool_cases; (split; [done|]); split; try done.
  - by intros [= <-].
  - by intros [-> _].
  - lia.
Qed.

Lemma slice_at_spec i s :
  (0 <= i <= len s)%Z ->
  exists p q, slice_at i s = Some (p, q) /\ s = p +:+ q /\ len q = (len s - i)%Z.
Proof.
  intros Hi. unfold slice_at. rewrite (proj2 (Z.ltb_ge i 0)), (proj2 (Z.ltb_ge (len s) i)) by lia. cbn [orb].
  eexists _, _. split; [done|].
  unfold len in *. destruct (substring_split (Z.to_nat i) s ltac:(lia)) as (H1 & _ & H2).
  split; [done|]. rewrite H2. lia.
Qed.

Lemma all_zero_spec s : every is_digit_char s = true -> all_zero s = true <-> value 0 s = 0%Z.
Proof.
  unfold all_zero. induction s as [|c s IH]; intros H; [done|]. cbn [every] in *.
  apply andb_true_iff in H as [Hc Hs]. pose proof (digit_range c Hc). pose proof (value_bounds s Hs).
  cbn [value]. rewrite value_acc, andb_true_iff, IH by done.
  pose proof (Z.pow_pos_nonneg 10 (len s) ltac:(lia) ltac:(apply len_nonneg)).
  rewrite Ascii.eqb_eq. split.
  - intros [<- H']. rewrite H'. change (byte "0" - 48)%Z with 0%Z. lia.
  - intros Hv. assert (0 <= (0 * 10 + (byte c - 48)) * 10 ^ len s)%Z as Hpos by (apply Z.mul_nonneg_nonneg; lia).
    assert ((0 * 10 + (byte c - 48)) * 10 ^ len s = 0)%Z as [Hb'|Hb']%Z.mul_eq_0 by lia; [|lia].
    assert (byte c = 48)%Z as Hb by lia. split; [|lia].
    rewrite <-(ascii_N_embedding c), <-(ascii_N_embedding "0"). f_equal. unfold byte in Hb.
    change (N_of_ascii "0") with 48%N. lia.
Qed.

Lemma pow_split k n : (0 <= k)%Z -> (0 <= n)%Z -> (10 ^ (k + n) = 10 ^ k * 10 ^ n)%Z.
Proof. intros. by rewrite Z.pow_add_r. Qed.

(** What a shift stands for: [amount] is [n] moved by [shift] decimal places. *)
Definition shifted (n shift amount : Z) : Prop :=
  (amount * 10 ^ Z.max 0 (- shift) = n * 10 ^ Z.max 0 shift)%Z.

Lemma scaled_spec s shift m :
  leading_digit s -> (len s < 2 ^ 61)%Z -> (- 2 ^ 63 < shift < 2 ^ 62)%Z ->
  scaled s shift <> Panics /\
  (scaled s shift = Exactly m <->
   Currency m = USD /\ (0 <= Amount m <= int64_max)%Z /\ shifted (value 0 s) shift (Amount m)).
Proof.
  intros Hld Hlen Hshift. pose proof (leading_digit_value s Hld) as Hge. destruct Hld as (Hs & Hne & _).
  pose proof (value_bounds s Hs) as Hlt. pose proof (len_nonneg s) as Hl0.
  assert (1 <= len s)%Z as Hl1 by (destruct s; [done|unfold len; cbn [String.length]; lia]).
  assert (0 < value 0 s)%Z as Hpos.
  { pose proof (Z.pow_pos_nonneg 10 (len s - 1) ltac:(lia) ltac:(lia)). lia. }
  unfold scaled, shifted. destruct (shift <? 0)%Z eqn:Eneg; bool_cases.
  - rewrite !wrap64_id by (unfold in_int64, int64_min, int64_max; lia).
    rewrite (Z.max_r 0 (- shift)), (Z.max_l 0 shift), Z.pow_0_r, Z.mul_1_r by lia.
    destruct (len s <? - shift)%Z eqn:Elong; bool_cases.
    + split; [done|]. split; [done|]. intros (_ & Ha & Heq). exfalso.
      assert (10 ^ len s <= 10 ^ (- shift))%Z by (apply Z.pow_le_mono_r; lia).
      destruct (decide (Amount m = 0)%Z) as [H0|H0]; [rewrite H0 in Heq; lia|].
      assert (1 * 10 ^ (- shift) <= Amount m * 10 ^ (- shift))%Z by (apply Z.mul_le_mono_nonneg_r; lia). lia.
    + destruct (slice_at_spec (len s + shift) s ltac:(lia)) as (p & q & -> & Hpq & Hq).
      rewrite Hpq, every_app in Hs. apply andb_true_iff in Hs as [Hp Hq'].
      pose proof (value_bounds q Hq') as Hqb. replace (len q) with (- shift)%Z in Hqb by lia.
      assert (value 0 s = value 0 p * 10 ^ (- shift) + value 0 q)%Z as Hv.
      { rewrite Hpq, value_app, value_acc. do 2 f_equal. f_equal. lia. }
      pose proof (all_zero_spec q Hq') as Hz. destruct (all_zero q).
      * assert (value 0 q = 0)%Z as Hq0 by by apply Hz. rewrite Hq0, Z.add_0_r in Hv.
        assert (p <> "") as Hpne by (intros ->; cbn in Hv; lia).
        destruct (amount_of_spec p m Hp Hpne) as [H1 H2]. split; [done|]. rewrite H2.
        pose proof (value_bounds p Hp). split.
        { intros [-> Hmax]. cbn [Currency Amount]. auto with lia. }
        intros (Hc & Ha & Heq). assert (Amount m = value 0 p) as Heqp.
        { eapply Z.mul_cancel_r; [|rewrite Heq; exact Hv]. apply Z.pow_nonzero; lia. }
        rewrite <-Heqp. split; [|lia]. destruct m. cbn in *. by subst.
      * split; [done|]. split; [done|]. intros (_ & Ha & Heq).
        assert (value 0 q = 0)%Z as Hq0.
        { assert (value 0 q = (Amount m - value 0 p) * 10 ^ (- shift))%Z as He by lia.
          rewrite <-(Z.mod_small (value 0 q) (10 ^ (- shift))), He by lia. apply Z.mod_mul. lia. }
        apply Hz in Hq0. done.
  - rewrite wrap64_id by (unfold in_int64, int64_min, int64_max; lia).
    rewrite (Z.max_l 0 (- shift)), (Z.max_r 0 shift), Z.pow_0_r, Z.mul_1_r by lia.
    destruct (19 <? len s + shift)%Z eqn:Elong; bool_cases.
    + split; [done|]. split; [done|]. intros (_ & Ha & Heq). exfalso.
      assert (10 ^ 19 <= 10 ^ (len s - 1 + shift))%Z as Hp by (apply Z.pow_le_mono_r; lia).
      rewrite pow_split in Hp by lia. unfold int64_max in Ha.
      pose proof (Z.pow_pos_nonneg 10 shift ltac:(lia) ltac:(lia)). nia.
    + rewrite (proj2 (Z.ltb_ge max_alloc shift)) by (unfold max_alloc; lia).
      assert (value 0 (s +:+ repeat_char (Z.to_nat shift) "0") = value 0 s * 10 ^ shift)%Z as Hv.
      { rewrite value_app, value_zeros, Z2Nat.id by lia. done. }
      destruct (amount_of_spec (s +:+ repeat_char (Z.to_nat shift) "0") m) as [H1 H2].
      { by rewrite every_app, Hs, every_zeros. }
      { by destruct s. }
      split; [done|]. rewrite H2, Hv. pose proof (Z.pow_pos_nonneg 10 shift ltac:(lia) ltac:(lia)). split.
      * intros [-> Hmax]. cbn [Currency Amount]. split; [done|]. split; [nia|done].
      * intros (Hc & Ha & Heq). rewrite <-Heq. split; [|lia]. destruct m. cbn in *. by subst.
Qed.

Definition literal_exponent (l : JsonLiteral) : option Z :=
  if lit_Exponent l =s "" then Some 0%Z else ParseInt (lit_Exponent l).

(** The amount a provider bills is read exactly or is unknown, never
    rounded: for a non-negative JSON number whose exponent fits, the cost is
    [m] precisely when [m]'s integer count of 1e-12 dollars, a non-negative
    [int64], is the number the literal spells. *)
Theorem ReportedCost_exact cost l e m :
  jsonNumber cost = Some l -> lit_Sign l = false -> literal_exponent l = Some e ->
  (Z.abs e < 2 ^ 61)%Z -> (len (lit_Whole l +:+ lit_Fraction l) < 2 ^ 61)%Z ->
  ReportedCost cost <> Panics /\
  (ReportedCost cost = Exactly m <->
   Currency m = USD /\ (0 <= Amount m <= int64_max)%Z /\
   shifted (value 0 (lit_Whole l +:+ lit_Fraction l)) (e - len (lit_Fraction l) + Scale) (Amount m)).
Proof.
  intros Hl Hsign He Hbound Hlen. destruct (jsonNumber_digits cost l Hl) as [Hw Hf].
  pose proof (len_nonneg (lit_Fraction l)) as Hf0. pose proof (len_nonneg (lit_Whole l)) as Hw0.
  pose proof (len_app (lit_Whole l) (lit_Fraction l)) as Happ.
  destruct (TrimLeft0_spec (lit_Whole l +:+ lit_Fraction l)) as (Hv & Hle & Hcases).
  { by rewrite every_app, Hw, Hf. }
  unfold ReportedCost. rewrite Hl, Hsign, <-Hv. set (digits := TrimLeft0 _) in *.
  destruct (digits =s "") eqn:E; bool_cases.
  - split; [done|]. rewrite E. cbn [value]. unfold shifted. rewrite Z.mul_0_l. split.
    + intros [= <-]. cbn. unfold int64_max. split; [done|]. split; [lia|]. by rewrite Z.mul_0_l.
    + intros (Hc & _ & [Ha|Ha]%Z.mul_eq_0).
      * destruct m. cbn in *. by subst.
      * exfalso. revert Ha. apply Z.pow_nonzero; lia.
  - destruct Hcases as [?|Hlead]; [done|].
    assert (shift_of e (lit_Fraction l) = (e - len (lit_Fraction l) + Scale)%Z) as Hs.
    { unfold shift_of, Scale. rewrite wrap64_add_l. apply wrap64_id. unfold in_int64, int64_min, int64_max. lia. }
    unfold literal_exponent in He. rewrite <-Hs.
    assert (scaled digits (shift_of e (lit_Fraction l)) <> Panics /\
      (scaled digits (shift_of e (lit_Fraction l)) = Exactly m <->
       Currency m = USD /\ (0 <= Amount m <= int64_max)%Z /\
       shifted (value 0 digits) (shift_of e (lit_Fraction l)) (Amount m))) as Hgoal.
    { apply scaled_spec; [done|lia|]. rewrite Hs. unfold Scale. lia. }
    destruct (lit_Exponent l =s "") eqn:Ee; [by injection He as <-|]. by rewrite He.
Qed.

Lemma ReportedCost_exact_witness :
  ReportedCost "1.25e-2" = Exactly (mkMoney USD 12500000000) /\ ReportedCost "1.25e-2" <> Panics.
Proof.
  destruct (ReportedCost_exact "1.25e-2" (mkLiteral false "1" "25" "-2") (-2) (mkMoney USD 12500000000))
    as [H1 H2]; [reflexivity..|].
  split; [|exact H1]. apply H2. split; [reflexivity|]. split; [by vm_compute|reflexivity].
Defined.

(** A number a provider may legally write makes the reader panic: the
    exponent arithmetic wraps [int], so the index of a slice is negative or a
    repeat count exceeds the address space, instead of the amount being
    unknown. *)
Theorem ReportedCost_exponent_panics :
  ReportedCost "1.00000000000e9223372036854775807" = Panics /\
  ReportedCost "0.000000000001e-9223372036854775808" = Panics /\
  ReportedCost "1e9223372036854775795" = Panics.
Proof. split_and!; reflexivity. Qed.

(** *** The ceiling is the rate card's *)

Lemma decimal_digits_leading fuel n acc :
  (0 < n < 10 ^ Z.of_nat fuel)%Z ->
  exists s, decimal_digits fuel n acc = s +:+ acc /\ s <> "" /\ has_prefix_char "0" s = false.
Proof.
  revert n acc. induction fuel as [|fuel IH]; intros n acc Hn; [cbn in Hn; lia|]. cbn [decimal_digits].
  pose proof (Z.mod_pos_bound n 10 ltac:(lia)) as Hmod.
  destruct (digit_char_spec (n mod 10) ltac:(lia)) as [_ Hb]. fold (digit_char (n mod 10)).
  destruct (n <? 10)%Z eqn:E; bool_cases.
  - exists (String (digit_char (n mod 10)) ""). split; [done|]. split; [done|].
    rewrite Z.mod_small in * by lia. cbn [has_prefix_char]. apply Ascii.eqb_neq. intros H.
    rewrite <-H in Hb. change (byte "0") with 48%Z in Hb. lia.
  - rewrite Nat2Z.inj_succ, Z.pow_succ_r in Hn by lia.
    destruct (IH (n / 10)%Z (String (digit_char (n mod 10)) acc)) as (s & Hs & Hne & Hz).
    { split; [apply Z.div_str_pos; lia|apply Z.div_lt_upper_bound; lia]. }
    exists (s +:+ String (digit_char (n mod 10)) ""). rewrite Hs, str_app_assoc. split; [done|].
    by destruct s.
Qed.

Lemma Itoa_canonical n :
  (0 <= n < 10 ^ 20)%Z -> Itoa n = "0" \/ leading_digit (Itoa n).
Proof.
  intros H. destruct (Itoa_spec n H) as (Hd & _ & Hne & _).
  destruct (decide (n = 0)%Z) as [->|Hn]; [by left|]. right. split; [done|]. split; [done|].
  unfold Itoa. rewrite (proj2 (Z.ltb_ge n 0)) by lia.
  destruct (decimal_digits_leading 20 n "" ltac:(lia)) as (s & -> & _ & Hz). by rewrite str_app_nil_r.
Qed.

Lemma in_star_digits s : every is_digit_char s = true -> Regex.In (Star (Class is_digit_char)) s.
Proof.
  induction s as [|c s IH]; intros H; [constructor|]. cbn [every] in H. apply andb_true_iff in H as [Hc Hs].
  apply (in_star_cons _ (String c "") s); [by constructor|auto].
Qed.

Lemma decisionDecimal_match whole fraction :
  (whole = "0" \/ leading_digit whole) -> every is_digit_char fraction = true -> fraction <> "" ->
  matches decisionDecimal (whole +:+ "." +:+ fraction) = true.
Proof.
  intros Hw Hf Hne. apply matches_spec. constructor.
  - destruct Hw as [->|(Hd & Hne' & Hz)]; [apply in_alt_l; by constructor|apply in_alt_r].
    destruct whole as [|c whole]; [done|]. cbn [every has_prefix_char] in *.
    apply andb_true_iff in Hd as [Hc Hd].
    apply (in_seq _ _ (String c "") whole); [|by apply in_star_digits]. constructor.
    unfold is_digit_char, in_byte_range in *. bool_cases. apply andb_true_iff. rewrite !Z.leb_le. split; [|done].
    apply Ascii.eqb_neq in Hz. destruct (decide (byte c = 48)%Z) as [Hb|]; [|lia].
    exfalso. apply Hz. rewrite <-(ascii_N_embedding c), <-(ascii_N_embedding "0").
    f_equal. unfold byte in Hb. change (N_of_ascii "0") with 48%N. lia.
  - apply in_alt_r. apply (in_seq _ _ "." fraction); [by constructor|].
    destruct fraction as [|c fraction]; [done|]. cbn [every] in Hf. apply andb_true_iff in Hf as [Hc Hf].
    apply (in_seq _ _ (String c "") fraction); [by constructor|by apply in_star_digits].
Qed.

Lemma price_zero_digits s : every is_digit_char s = true -> price_IsZero s = all_zero s.
Proof.
  unfold price_IsZero, all_zero. induction s as [|c s IH]; [done|]. cbn [every]. intros [Hc Hs]%andb_true_iff.
  rewrite IH by done. f_equal. rewrite (Ascii.eqb_sym "0" c). destruct (Ascii.eqb c ".") eqn:E; [|apply orb_false_r].
  apply Ascii.eqb_eq in E as ->. by vm_compute in Hc.
Qed.

Lemma per_million_spec a :
  (0 <= a <= int64_max)%Z ->
  ParseDecisionTokenPrice (per_million a) = Some (per_million a) /\
  spells (per_million a) (a * 1000000) /\ (price_IsZero (per_million a) = true <-> a = 0%Z).
Proof.
  intros Ha. unfold per_million, int64_max in *.
  rewrite Z.rem_mod_nonneg, Z.quot_div_nonneg by lia.
  pose proof (Z.mod_pos_bound a 1000000 ltac:(lia)) as Hmod.
  pose proof (Z.div_mod a 1000000 ltac:(lia)) as Hdm.
  set (q := (a / 1000000)%Z) in *. set (r := (a mod 1000000)%Z) in *.
  destruct (Itoa_spec q ltac:(lia)) as (Hq1 & Hq2 & Hq3 & Hq4).
  destruct (Itoa_spec r ltac:(lia)) as (Hr1 & Hr2 & _ & Hr4).
  destruct (pad_left_spec 6 (Itoa r) Hr1) as (Hp1 & Hp2 & Hp3); [by apply Hr4; lia|].
  specialize (Hq4 20%Z ltac:(lia) ltac:(lia)). split; [|split].
  - unfold ParseDecisionTokenPrice. rewrite decisionDecimal_match.
    + rewrite !len_app, Hp3. change (len ".") with 1%Z.
      rewrite (proj2 (Z.ltb_ge 256 _)) by lia. done.
    + apply Itoa_canonical. lia.
    + done.
    + intros Heq. rewrite Heq in Hp3. done.
  - exists (Itoa q), (pad_left 6 (Itoa r)). split; [constructor|]. split; [exact Hq3|]. split; [exact Hq1|].
    split; [exact Hp1|]. split; [by rewrite Hp3|]. rewrite Hp3, Hp2, Hq2, Hr2. unfold Scale. cbn. lia.
  - unfold price_IsZero. rewrite !every_app. change (every _ ".") with true. cbn [andb].
    fold (price_IsZero (Itoa q)) (price_IsZero (pad_left 6 (Itoa r))).
    rewrite (price_zero_digits _ Hq1), (price_zero_digits _ Hp1), andb_true_iff, (all_zero_spec _ Hq1),
      (all_zero_spec _ Hp1), Hp2, Hq2, Hr2. lia.
Qed.

Lemma limit_step_spec limit input output unit a :
  (a <= int64_max)%Z ->
  limit_step (limit, input, output) (mkRate unit a) =
  if (a <? 0)%Z then None
  else if unit =s UnitInputTokens
  then if input then None else Some (mkLimit (per_million a) (limit_Completion limit), true, output)
  else if unit =s UnitOutputTokens
  then if output then None else Some (mkLimit (limit_Prompt limit) (per_million a), input, true)
  else None.
Proof.
  intros Ha. unfold limit_step. cbn [AmountPerUnit rate_Unit]. destruct (a <? 0)%Z eqn:E; [done|]. bool_cases.
  destruct (per_million_spec a ltac:(lia)) as [-> _]. reflexivity.
Qed.

(** What [limit_loop] returns on a card of two rates. *)
Lemma limit_loop_two r1 r2 limit :
  (AmountPerUnit r1 <= int64_max)%Z -> (AmountPerUnit r2 <= int64_max)%Z ->
  limit_loop (zero_limit, false, false) [r1; r2] = Some (limit, true, true) <->
  exists input output, (0 <= input)%Z /\ (0 <= output)%Z /\
    [r1; r2] ≡ₚ [mkRate UnitInputTokens input; mkRate UnitOutputTokens output] /\
    limit = mkLimit (per_million input) (per_million output).
Proof.
  destruct r1 as [u1 a1], r2 as [u2 a2]. cbn [AmountPerUnit]. intros H1 H2. cbn [limit_loop].
  assert (forall st, (st ← limit_step st (mkRate u2 a2); Some st) = limit_step st (mkRate u2 a2)) as Hret.
  { intros st. by destruct (limit_step st _). }
  rewrite limit_step_spec by done. split.
  - destruct (a1 <? 0)%Z eqn:E1; [done|]. bool_cases.
    destruct (u1 =s UnitInputTokens) eqn:Eu1; [|destruct (u1 =s UnitOutputTokens) eqn:Eu1'; [|done]];
      bool_cases; subst u1; cbn [mbind option_bind limit_Prompt limit_Completion]; rewrite Hret, limit_step_spec by done;
      (destruct (a2 <? 0)%Z eqn:E2; [done|]; bool_cases);
      (destruct (u2 =s UnitInputTokens) eqn:Eu2; [|destruct (u2 =s UnitOutputTokens) eqn:Eu2'; [|done]]);
      bool_cases; subst u2; try done; intros [= <-].
    + exists a1, a2. split; [lia|]. split; [lia|]. split; reflexivity.
    + exists a2, a1. split; [lia|]. split; [lia|]. split; [by apply Permutation_swap|reflexivity].
  - intros (i & o & Hi & Ho & Hp & ->).
    assert ((UnitInputTokens =s UnitInputTokens) = true) as E1 by reflexivity.
    assert ((UnitOutputTokens =s UnitInputTokens) = false) as E2 by reflexivity.
    assert ((UnitOutputTokens =s UnitOutputTokens) = true) as E3 by reflexivity.
    apply Permutation_length_2_inv in Hp as [Hp|Hp]; injection Hp as ????; subst u1 a1 u2 a2;
      rewrite (proj2 (Z.ltb_ge _ 0)) by lia; rewrite ?E1, ?E2, ?E3; cbn [mbind option_bind];
      rewrite Hret, limit_step_spec by done; rewrite (proj2 (Z.ltb_ge _ 0)) by lia;
      rewrite ?E1, ?E2, ?E3; reflexivity.
Qed.

(** The card of a deployment at an instant: current, in dollars. *)
Definition current_card (c : Cards) (id : string) (at_ : Instant) (card : Card) : Prop :=
  exists observation, ObservationForDeployment id c = Some observation /\
    (EffectiveAt observation <= at_)%Z /\ (forall expiry, ExpiresAt observation = Some expiry -> (at_ < expiry)%Z) /\
    byDeployment c !! id = Some card.

Lemma limit_loop_units state limit input output rates :
  limit_loop state rates = Some (limit, input, output) ->
  (length rates = 2)%nat -> exists r1 r2, rates = [r1; r2].
Proof. intros _. destruct rates as [|r1 [|r2 [|]]]; cbn; try done. by exists r1, r2. Qed.

(** The price ceiling of a decisions deployment is its reviewed rate card
    and nothing else: there is one exactly when the card is current, in
    dollars, and prices two units only, a positive input rate and a zero
    output rate; and then the decimal sent is that rate exactly, per million
    tokens. *)
Theorem DecisionPriceLimit_is_the_reviewed_rate c id at_ limit :
  (forall card rate, byDeployment c !! id = Some card -> rate ∈ Rates card -> (AmountPerUnit rate <= int64_max)%Z) ->
  Cards_DecisionPriceLimit id at_ (Some c) = Some limit <->
  exists card input, current_card c id at_ card /\ card_Currency card = USD /\ (0 < input <= int64_max)%Z /\
    Rates card ≡ₚ [mkRate UnitInputTokens input; mkRate UnitOutputTokens 0] /\
    limit = mkLimit (per_million input) (per_million 0) /\ spells (per_million input) (input * 1000000).
Proof.
  intros Hmax. unfold Cards_DecisionPriceLimit, current_card. cbn [mbind option_bind].
  destruct (ObservationForDeployment id c) as [observation|]; cbn [mbind option_bind];
    [|split; [done|]; by intros (? & ? & (? & ? & _) & _)].
  destruct (_ || _) eqn:Ewin.
  { split; [done|]. intros (card & input & (o & [= <-] & He & Hx & _) & _).
    apply orb_true_iff in Ewin as [Ewin|Ewin]; [time_lia|].
    destruct (ExpiresAt observation) as [expiry|]; [|done]. specialize (Hx expiry eq_refl). time_lia. }
  apply orb_false_iff in Ewin as [Hb Hx].
  destruct (byDeployment c !! id) as [card|]; cbn [mbind option_bind];
    [|split; [done|]; by intros (? & ? & (? & ? & ? & ? & ?) & _)].
  specialize (Hmax card). split.
  - destruct (_ || _) eqn:Ec; [done|]. apply orb_false_iff in Ec as [Ec%negb_false_iff El%negb_false_iff].
    apply String.eqb_eq in Ec. apply Nat.eqb_eq in El.
    destruct (limit_loop _ _) as [[[lim i] o]|] eqn:Eloop; [|done]. cbn [mbind option_bind].
    destruct (_ && _) eqn:Efin; [|done]. intros [= ->]. bool_cases. subst i o.
    destruct (limit_loop_units _ _ _ _ _ Eloop El) as (r1 & r2 & Hr). rewrite Hr in *.
    apply limit_loop_two in Eloop as (input & output & Hi & Ho & Hp & ->);
      [|apply Hmax; [done|]; rewrite !elem_of_cons; auto..].
    assert (forall r, r ∈ [mkRate UnitInputTokens input; mkRate UnitOutputTokens output] -> (AmountPerUnit r <= int64_max)%Z) as Hle.
    { intros r Hin. apply Hmax; [done|]. by rewrite Hp. }
    assert (input <= int64_max)%Z by (apply (Hle (mkRate UnitInputTokens input)), elem_of_cons; by left).
    assert (output <= int64_max)%Z by (apply (Hle (mkRate UnitOutputTokens output)); rewrite !elem_of_cons; auto).
    destruct (per_million_spec input ltac:(lia)) as (_ & Hsp & Hz).
    destruct (per_million_spec output ltac:(lia)) as (_ & _ & Hz').
    cbn [limit_Prompt limit_Completion] in *.
    assert (output = 0%Z) as -> by by apply Hz'.
    assert (input <> 0%Z) by (intros Hi0; apply Hz in Hi0; congruence).
    exists card, input. split; [|split; [done|]; split; [lia|]; by rewrite Hr].
    exists observation. split; [done|]. split; [time_lia|]. split; [|done].
    intros expiry Hex. rewrite Hex in Hx. time_lia.
  - intros (card' & input & (o & _ & _ & _ & [= <-]) & Hc & Hi & Hp & -> & _).
    rewrite Hc. change (USD =s USD) with true. cbn [negb orb].
    pose proof (Permutation_length Hp) as Hl. cbn in Hl. rewrite Hl. cbn [Nat.eqb negb].
    destruct (Rates card) as [|r1 [|r2 [|]]] eqn:Hr; try done.
    assert (limit_loop (zero_limit, false, false) [r1; r2] =
      Some (mkLimit (per_million input) (per_million 0), true, true)) as ->.
    { apply limit_loop_two; [apply Hmax; [done|]; rewrite !elem_of_cons; auto..|]. exists input, 0%Z. split; [lia|]. split; [lia|]. by split. }
    cbn [mbind option_bind limit_Prompt limit_Completion andb].
    destruct (per_million_spec input ltac:(lia)) as (_ & _ & Hz).
    destruct (price_IsZero (per_million input)); [|done]. specialize (proj1 Hz eq_refl). lia.
Qed.

Definition example_card : Card := mkCard "dep" USD [mkRate UnitOutputTokens 0; mkRate UnitInputTokens 1500000] 0.
Definition example_cards : Cards :=
  mkCards {["dep" := example_card]}
    {["v1" := mkRateCardObservation "v1" RateCardOperator "s" 1 1 None [example_card]]} {["dep" := "v1"]}.

Lemma DecisionPriceLimit_is_the_reviewed_rate_witness :
  Cards_DecisionPriceLimit "dep" 5 (Some example_cards) = Some (mkLimit "1.500000" "0.000000").
Proof.
  apply (DecisionPriceLimit_is_the_reviewed_rate example_cards "dep" 5).
  - intros card rate Hc Hin. change (Some example_card = Some card) in Hc. injection Hc as <-.
    change (rate ∈ [mkRate UnitOutputTokens 0; mkRate UnitInputTokens 1500000]) in Hin.
    rewrite !elem_of_cons, elem_of_nil in Hin. destruct Hin as [->|[->|[]]]; by vm_compute.
  - exists example_card, 1500000%Z. split.
    { eexists. split; [reflexivity|]. split; [by vm_compute|]. split; [done|reflexivity]. }
    split; [reflexivity|]. split; [by vm_compute|]. split; [apply Permutation_swap|].
    split; [reflexivity|]. apply per_million_spec. by vm_compute.
Defined.
