(* ===== verification/UsageEstimate.v ===== *)
(** * Usage estimation (internal/kaana/usage_estimate.go)

    The deterministic fallback for an attempt whose provider reported no final
    usage: counters of the characters of the request and of the output the
    sink accepted, read as tokens, and merged with what the provider did
    report. *)

From S2P Require Import Prelude Text Contract Request.

Record tokenEstimate := mkTokens { asciiCharacters : Z; nonASCIICharacters : Z }.

Record usageEstimate := mkEstimate {
  est_input : tokenEstimate;
  est_output : tokenEstimate;
  est_reasoning : tokenEstimate;
  outputDelivered : bool;
}.

Definition no_tokens : tokenEstimate := mkTokens 0 0.
Definition empty_estimate : usageEstimate := mkEstimate no_tokens no_tokens no_tokens false.

(** One decoded code point. *)
Definition add_rune (e : tokenEstimate) (r : Z * Z) : tokenEstimate :=
  if (r.1 <=? 127)%Z then mkTokens (asciiCharacters e + 1) (nonASCIICharacters e)
  else mkTokens (asciiCharacters e) (nonASCIICharacters e + 1).

Definition add (text : string) (e : tokenEstimate) : tokenEstimate := foldl add_rune e (runes text).

Definition tokens (e : tokenEstimate) : Z := (Z.quot (asciiCharacters e + 3) 4 + nonASCIICharacters e)%Z.

Definition add_option (text : option string) (e : tokenEstimate) : tokenEstimate :=
  match text with Some text => add text e | None => e end.

(** A decoded [any]: every object is a Go map, marshalled by sorted keys. *)
Fixpoint any_json (j : Json) : Json :=
  match j with
  | JArray items => JArray (map any_json items)
  | JObject members => json_map (map (fun m => (m.1, any_json m.2)) members)
  | j => j
  end.

(** [addJSON] of a [map[string]any]; a nil map is [null]. *)
Definition addJSON (value : option (list (string * Json))) (e : tokenEstimate) : tokenEstimate :=
  add (json_encode match value with Some members => any_json (JObject members) | None => JNull end) e.

Definition add_part (e : tokenEstimate) (part : ContentPart) : tokenEstimate :=
  if (part_Type part =s ContentPartText) || (part_Type part =s ContentPartRefusal)
  then add_option (part_Text part) e
  else if part_Type part =s ContentPartFile then add_option (Filename part) e
  else e.

Definition add_message (e : tokenEstimate) (message : Message) : tokenEstimate :=
  let e := add (Role message) e in
  let e := add_option (message_Name message) e in
  let e := add_option (ToolCallID message) e in
  let e := foldl add_part e (Content message) in
  foldl (fun e call => add (Arguments_ call) (add (call_Name call) e)) e (default [] (ToolCalls message)).

Definition add_tool (e : tokenEstimate) (tool : ToolDefinition) : tokenEstimate :=
  addJSON (Parameters_ tool) (add_option (Description tool) (add (tool_Name tool) e)).

Definition add_input (i : Input) (e : tokenEstimate) : tokenEstimate :=
  if Format i =s InputMessages then foldl add_message e (default [] (Messages i))
  else if Format i =s InputText then add_option (input_Text i) e
  else if Format i =s InputTextBatch then foldl (fun e text => add text e) e (default [] (Texts i))
  else e.

Definition newUsageEstimate (request : Request) : usageEstimate :=
  let e := add_input (request_Input request) no_tokens in
  let e := foldl add_tool e (Tools request) in
  let e := match request_ToolChoice request with
           | Some choice => add_option (choice_Function choice) (add_option (choice_Mode choice) e)
           | None => e
           end in
  let e := match request_ResponseFormat request with
           | Some format => addJSON (Schema format) (add_option (format_Name format) (add (format_Type format) e))
           | None => e
           end in
  mkEstimate e no_tokens no_tokens false.

Definition set_delivered (e : usageEstimate) : usageEstimate :=
  mkEstimate (est_input e) (est_output e) (est_reasoning e) true.

Definition addDelta (channel text : string) (e : usageEstimate) : usageEstimate :=
  let e := if text =s "" then e else set_delivered e in
  if channel =s ChannelReasoning
  then mkEstimate (est_input e) (est_output e) (add text (est_reasoning e)) (outputDelivered e)
  else mkEstimate (est_input e) (add text (est_output e)) (est_reasoning e) (outputDelivered e).

Definition addToolCall (name arguments : string) (e : usageEstimate) : usageEstimate :=
  mkEstimate (est_input e) (add arguments (add name (est_output e))) (est_reasoning e) true.

Definition estimated (unit : string) (e : tokenEstimate) : list UsageQuantity :=
  if (0 <? tokens e)%Z then [mkQuantity unit (tokens e)] else [].

Definition units (e : usageEstimate) : list UsageQuantity :=
  [mkQuantity UnitRequests 1] ++ estimated UnitInputTokens (est_input e)
  ++ estimated UnitOutputTokens (est_output e) ++ estimated UnitReasoningTokens (est_reasoning e).

(** *** Merging with what the provider reported

    [positions] of the source maps a unit to the index of its last
    occurrence. *)

Definition position_of (unit : string) (result : list UsageQuantity) : option nat :=
  fst <$> last (filter (fun iq => Unit iq.2 = unit) (imap pair result)).

Definition supplement_one (result : list UsageQuantity) (q : UsageQuantity) : list UsageQuantity :=
  match position_of (Unit q) result with
  | None => result ++ [q]
  | Some index =>
      match result !! index with
      | Some reported =>
          if ((Unit q =s UnitOutputTokens) || (Unit q =s UnitReasoningTokens))
             && (Quantity reported <? Quantity q)%Z
          then <[index := mkQuantity (Unit reported) (Quantity q)]> result
          else result
      | None => result
      end
  end.

Definition supplement (reported : list UsageQuantity) (e : usageEstimate) : list UsageQuantity :=
  foldl supplement_one reported (units e).

(** ** Lemmas *)

(** A list that reports each unit once, as the map it stands for. *)
Definition quantities (l : list UsageQuantity) : gmap string Z :=
  list_to_map (map (fun q => (Unit q, Quantity q)) l).

Lemma quantities_fst l : (map (fun q => (Unit q, Quantity q)) l).*1 = Unit <$> l.
Proof. rewrite <-list_fmap_compose. by apply list_fmap_ext. Qed.

Lemma quantities_app l q :
  quantities (l ++ [q]) = quantities l ∪ {[Unit q := Quantity q]}.
Proof. unfold quantities. rewrite map_app, list_to_map_app. by cbn; rewrite insert_empty. Qed.

Lemma quantities_None l u : quantities l !! u = None <-> u ∉ Unit <$> l.
Proof. unfold quantities. by rewrite <-quantities_fst, not_elem_of_list_to_map. Qed.

Lemma quantities_Some l u n :
  NoDup (Unit <$> l) -> quantities l !! u = Some n <-> mkQuantity u n ∈ l.
Proof.
  intros Hnd. unfold quantities. rewrite <-elem_of_list_to_map by by rewrite quantities_fst.
  rewrite list_elem_of_fmap. split.
  - by intros ([v k] & [= -> ->] & ?).
  - intros ?. by exists (mkQuantity u n).
Qed.

Lemma position_of_Some u l i :
  position_of u l = Some i -> exists q, l !! i = Some q /\ Unit q = u.
Proof.
  unfold position_of. destruct (last _) as [[j q]|] eqn:E; [|done]. intros [= <-].
  apply last_Some_elem_of in E. apply list_elem_of_filter in E as [Hu Hin].
  apply elem_of_lookup_imap in Hin as (k & q' & [= -> ->] & Hk). by exists q'.
Qed.

Lemma position_of_None u l : position_of u l = None -> u ∉ Unit <$> l.
Proof.
  unfold position_of. destruct (last _) eqn:E; [done|]. intros _ (q & -> & Hq)%list_elem_of_fmap.
  apply last_None in E. apply list_elem_of_lookup in Hq as [i Hi].
  assert ((i, q) ∈ filter (fun iq : nat * UsageQuantity => Unit iq.2 = Unit q) (imap pair l)) as Hin.
  { apply list_elem_of_filter. split; [done|]. apply elem_of_lookup_imap. by exists i, q. }
  rewrite E in Hin. by apply elem_of_nil in Hin.
Qed.

Lemma quantities_insert l i q n :
  NoDup (Unit <$> l) -> l !! i = Some q ->
  quantities (<[i := mkQuantity (Unit q) n]> l) = <[Unit q := n]> (quantities l).
Proof.
  intros Hnd Hi. apply list_elem_of_split_length in Hi as (l1 & l2 & -> & ->).
  rewrite insert_app_r_alt, Nat.sub_diag by done. cbn.
  rewrite fmap_app, NoDup_app, fmap_cons in Hnd. destruct Hnd as (_ & Hdis & _).
  unfold quantities. rewrite !map_app, !list_to_map_app. cbn [map list_to_map].
  assert (quantities l1 !! Unit q = None) as Hnone.
  { apply (quantities_None l1). intros Hin. apply (Hdis _ Hin), elem_of_cons. by left. }
  rewrite !list_to_map_cons. cbn [Unit Quantity]. rewrite <-!insert_union_r by exact Hnone. by rewrite insert_insert_eq.
Qed.

Lemma insert_units (l : list UsageQuantity) (i : nat) q n :
  l !! i = Some q -> Unit <$> <[i := mkQuantity (Unit q) n]> l = Unit <$> l.
Proof.
  intros Hi. rewrite list_fmap_insert. apply list_insert_id. by rewrite list_lookup_fmap, Hi.
Qed.

(** Which of two counts of one unit stands. *)
Definition merge_count (u : string) (reported estimate : option Z) : option Z :=
  match reported, estimate with
  | Some a, Some b =>
      if (u =s UnitOutputTokens) || (u =s UnitReasoningTokens) then Some (Z.max a b) else Some a
  | Some a, None => Some a
  | None, b => b
  end.

Lemma supplement_one_spec l q :
  NoDup (Unit <$> l) ->
  NoDup (Unit <$> supplement_one l q) /\
  forall u, quantities (supplement_one l q) !! u =
    if decide (u = Unit q) then merge_count u (quantities l !! u) (Some (Quantity q)) else quantities l !! u.
Proof.
  intros Hnd. unfold supplement_one. destruct (position_of (Unit q) l) as [i|] eqn:Hpos.
  - apply position_of_Some in Hpos as (r & Hi & Hr). rewrite Hi.
    assert (quantities l !! Unit q = Some (Quantity r)) as Hq.
    { apply quantities_Some; [done|]. apply list_elem_of_lookup. exists i. rewrite Hi, <-Hr. by destruct r. }
    destruct (((Unit q =s UnitOutputTokens) || (Unit q =s UnitReasoningTokens)) && (Quantity r <? Quantity q)%Z) eqn:E.
    + rewrite insert_units by done. split; [done|]. intros u. rewrite quantities_insert, Hr by done.
      case_decide as Hu; [subst u|by rewrite lookup_insert_ne].
      rewrite lookup_insert_eq, Hq. apply andb_true_iff in E as [Hor Hlt]. cbn. rewrite Hor.
      apply Z.ltb_lt in Hlt. f_equal. lia.
    + split; [done|]. intros u. case_decide as Hu; [subst u|done]. rewrite Hq. cbn.
      destruct ((Unit q =s UnitOutputTokens) || (Unit q =s UnitReasoningTokens)); [|done].
      apply Z.ltb_ge in E. f_equal. lia.
  - apply position_of_None in Hpos as Hnin. split.
    + rewrite fmap_app. apply NoDup_app. split_and!; [done| |apply NoDup_singleton].
      intros u Hu ->%list_elem_of_singleton. done.
    + intros u. rewrite quantities_app. case_decide as Hu.
      * subst u. apply quantities_None in Hnin as Hn. rewrite Hn. cbn.
        by rewrite lookup_union_r, lookup_singleton_eq by done.
      * rewrite lookup_union_l; [done|]. by rewrite lookup_singleton_ne.
Qed.

Lemma supplement_all_spec l qs :
  NoDup (Unit <$> l) -> NoDup (Unit <$> qs) ->
  NoDup (Unit <$> foldl supplement_one l qs) /\
  forall u, quantities (foldl supplement_one l qs) !! u = merge_count u (quantities l !! u) (quantities qs !! u).
Proof.
  revert l. induction qs as [|q qs IH]; intros l Hl Hqs; cbn [foldl].
  { split; [done|]. intros u. unfold quantities at 3. cbn. by destruct (quantities l !! u). }
  rewrite fmap_cons in Hqs. apply NoDup_cons in Hqs as [Hq Hqs].
  destruct (supplement_one_spec l q Hl) as [H1 H2]. destruct (IH _ H1 Hqs) as [H3 H4]. split; [done|].
  intros u. rewrite H4, H2. change (quantities (q :: qs)) with (<[Unit q := Quantity q]> (quantities qs)).
  case_decide as Hu; [subst u|by rewrite lookup_insert_ne].
  apply quantities_None in Hq. rewrite lookup_insert_eq, Hq. cbn.
  destruct (quantities l !! Unit q); cbn; [|done]. by case_match.
Qed.

Lemma estimated_units u e : Unit <$> estimated u e = [] \/ Unit <$> estimated u e = [u].
Proof. unfold estimated. case_match; auto. Qed.

Lemma units_NoDup e : NoDup (Unit <$> units e).
Proof.
  unfold units. rewrite !fmap_app.
  destruct (estimated_units UnitInputTokens (est_input e)) as [-> | ->],
    (estimated_units UnitOutputTokens (est_output e)) as [-> | ->],
    (estimated_units UnitReasoningTokens (est_reasoning e)) as [-> | ->]; cbn;
  repeat (constructor; [rewrite ?elem_of_cons, elem_of_nil; naive_solver|]); constructor.
Qed.

Lemma units_well_formed e : Forall unit_well_formed (units e).
Proof.
  assert (forall u t, u ∈ usageUnitValues -> Forall unit_well_formed (estimated u t)) as Hest.
  { intros u t Hu. unfold estimated. destruct (0 <? tokens t)%Z eqn:E; [|constructor]. bool_cases.
    constructor; [|constructor]. split; [done|cbn; lia]. }
  unfold units. rewrite !Forall_app. split_and!; try (apply Hest; apply isMember_spec; reflexivity).
  constructor; [|constructor]. split; [by apply isMember_spec|cbn; lia].
Qed.

Lemma supplement_spec l e :
  NoDup (Unit <$> l) ->
  NoDup (Unit <$> supplement l e) /\
  forall u, quantities (supplement l e) !! u = merge_count u (quantities l !! u) (quantities (units e) !! u).
Proof. intros Hl. apply supplement_all_spec; [done|]. apply units_NoDup. Qed.

Lemma supplement_well_formed l e :
  NoDup (Unit <$> l) -> Forall unit_well_formed l -> Forall unit_well_formed (supplement l e).
Proof.
  intros Hnd Hl. destruct (supplement_spec l e Hnd) as [Hnd' Hq].
  pose proof (units_well_formed e) as Hu. rewrite Forall_forall in *.
  intros [u n] Hin. apply (quantities_Some _ _ _ Hnd') in Hin. rewrite Hq in Hin.
  destruct (quantities l !! u) as [a|] eqn:Ea, (quantities (units e) !! u) as [b|] eqn:Eb; cbn in Hin;
    try apply (quantities_Some _ _ _ Hnd), Hl in Ea as [Hmem Ha];
    try apply (quantities_Some _ _ _ (units_NoDup e)), Hu in Eb as [Hmem' Hb]; cbn in *.
  - destruct (_ || _); injection Hin as <-; split; cbn; (done || lia).
  - by injection Hin as <-.
  - by injection Hin as <-.
  - done.
Qed.

(** Estimating never replaces what a provider reported: from a report that
    names each unit once, every unit keeps its count, except that output and
    reasoning tokens are raised to the estimate of what the sink accepted when
    that is more; a unit the provider did not report takes its estimate; and
    the result is a list settlement accepts and never empty. *)
Theorem supplement_keeps_reported l e :
  NoDup (Unit <$> l) -> Forall unit_well_formed l ->
  (forall u, quantities (supplement l e) !! u = merge_count u (quantities l !! u) (quantities (units e) !! u)) /\
  validateUnits [] (supplement l e) = None /\ supplement l e <> [].
Proof.
  intros Hnd Hwf. destruct (supplement_spec l e Hnd) as [Hnd' Hq]. split_and!; [done| |].
  - apply validateUnits_spec. split_and!; [by apply supplement_well_formed|done|].
    apply Forall_forall. by intros ? ? []%not_elem_of_nil.
  - intros Hnil. specialize (Hq UnitRequests). rewrite Hnil in Hq. cbn in Hq.
    change (quantities (units e)) with
      (<[UnitRequests := 1%Z]> (quantities (tail (units e)))) in Hq.
    rewrite lookup_insert_eq in Hq. by destruct (quantities l !! UnitRequests).
Qed.

Lemma supplement_keeps_reported_witness :
  let e := addDelta ChannelOutputText "hello, world" empty_estimate in
  let l := [mkQuantity UnitInputTokens 9; mkQuantity UnitOutputTokens 1] in
  supplement l e = [mkQuantity UnitInputTokens 9; mkQuantity UnitOutputTokens 3; mkQuantity UnitRequests 1] /\
  validateUnits [] (supplement l e) = None.
Proof.
  split; [reflexivity|].
  apply (supplement_keeps_reported [mkQuantity UnitInputTokens 9; mkQuantity UnitOutputTokens 1]).
  - cbn. repeat (constructor; [rewrite ?elem_of_cons, elem_of_nil; naive_solver|]). constructor.
  - repeat (constructor; [split; [by apply isMember_spec|by vm_compute]|]). constructor.
Defined.
