(* ===== verification/Answers.v ===== *)
(** * Decision answers (internal/contract/decisions.go)

    What an adapter returns for a decisions request, and the check that binds
    every answer to the question it answers.  Probabilities are binary64. *)

From S2P Require Import Prelude Contract Request.

Record DecisionReply := mkReply { Label : option string; Score : option float64 }.

Record DecisionAnswer := mkAnswer {
  Reply : option DecisionReply;
  Confidence : option float64;
  answer_ID : string;
  answer_Kind : string;
  Probabilities : option (list float64);
  Mean : option float64;
  Distribution : option (list float64);
  Probability : option float64;
}.

Definition KindChoice := "choice".
Definition KindScore := "score".
Definition KindNoul := "noul".

(** ** binary64 comparisons *)

Definition f64_is_nan (x : float64) : bool := match x with S754_nan => true | _ => false end.
Definition f64_is_inf (x : float64) : bool := match x with S754_infinity _ => true | _ => false end.
Definition f64_ltb (x y : float64) : bool := SFltb x y.
Definition f64_leb (x y : float64) : bool := SFleb x y.

(** The built-in [max]: a NaN argument is the result. *)
Definition f64_max (x y : float64) : float64 :=
  if f64_is_nan x || f64_is_nan y then S754_nan else if f64_ltb x y then y else x.

Definition f64_0 : float64 := S754_zero false.
Definition f64_1' : float64 := f64_of_Z 1.
Definition f64_9 : float64 := f64_of_Z 9.
(** [1e-6], the quotient of two exact integers correctly rounded. *)
Definition f64_tolerance : float64 := f64_div (f64_of_Z 1) (f64_of_Z 1000000).

Definition decisionProbability (p : float64) : bool :=
  negb (f64_is_nan p) && negb (f64_is_inf p) && f64_leb f64_0 p && f64_leb p f64_1'.

Definition within_0_9 (x : float64) : bool :=
  negb (f64_is_nan x) && negb (f64_is_inf x) && negb (f64_ltb x f64_0) && negb (f64_ltb f64_9 x).

Definition far (x y : float64) : bool := f64_ltb f64_tolerance (SFabs (f64_sub x y)).

(** ** The check *)

(** The loop over a choice's options: the index of the reply, and the highest
    probability. *)
Fixpoint choose (reply : string) (labels : list string) (probabilities : list float64) (selected : option float64)
    (highest : float64) : option float64 * float64 :=
  match labels, probabilities with
  | label :: labels, p :: probabilities =>
      choose reply labels probabilities (if label =s reply then Some p else selected) (f64_max highest p)
  | _, _ => (selected, highest)
  end.

(** The last loop: every value a probability, their sum and their mean. *)
Fixpoint sum_values (i : Z) (values : list float64) (sum mean : float64) : option (float64 * float64) :=
  match values with
  | [] => Some (sum, mean)
  | p :: values =>
      if decisionProbability p
      then sum_values (i + 1) values (f64_add sum p) (f64_add mean (f64_mul (f64_of_Z i) p))
      else None
  end.

Definition check_values (a : DecisionAnswer) (values : list float64) : option string :=
  match sum_values 0 values f64_0 f64_0 with
  | None => Some "probability_value"
  | Some (sum, mean) =>
      refuse_if (far sum f64_1') "probability_sum" ;;
      refuse_if ((answer_Kind a =s KindScore)
                 && match Mean a with Some m => negb (within_0_9 m) || far m mean | None => false end)
        "score_distribution"
  end.

Definition absent {A} (o : option A) : bool := match o with None => true | Some _ => false end.

(** One answer against the question it names. *)
Definition check_answer (q : DecisionQuestion) (a : DecisionAnswer) : option string :=
  refuse_if (negb (answer_Kind a =s KindNoul)
             && (match Confidence a with Some c => negb (decisionProbability c) | None => true end || absent (Reply a)))
    "reply_confidence" ;;
  if answer_Kind a =s KindChoice then
    refuse_if (negb (length (default [] (Probabilities a)) =? length (default [] (Options q)))%nat
               || negb (absent (Mean a)) || negb (absent (Probability a)) || negb (absent (Distribution a)))
      "choice_value" ;;
    match Reply a with
    | Some (mkReply (Some label) None) =>
        let '(selected, highest) := choose label (default [] (Options q)) (default [] (Probabilities a)) None f64_0 in
        refuse_if match selected with
                  | None => true
                  | Some p => f64_ltb (f64_add p f64_tolerance) highest
                  end "choice_maximum" ;;
        check_values a (default [] (Probabilities a))
    | _ => Some "choice_reply"
    end
  else if answer_Kind a =s KindScore then
    match Mean a with
    | None => Some "score_value"
    | Some mean =>
        refuse_if (negb (length (default [] (Distribution a)) =? length (default [] (Levels q)))%nat
                   || negb (absent (Probability a)) || negb (absent (Probabilities a))) "score_value" ;;
        match Reply a with
        | Some (mkReply None (Some score)) =>
            refuse_if (negb (within_0_9 score) || far score mean) "score_reply" ;;
            check_values a (default [] (Distribution a))
        | _ => Some "score_reply"
        end
    end
  else if answer_Kind a =s KindNoul then
    refuse_if (negb (absent (Reply a)) || negb (absent (Confidence a))
               || match Probability a with Some p => negb (decisionProbability p) | None => true end
               || negb (absent (Mean a)) || negb (absent (Probabilities a)) || negb (absent (Distribution a)))
      "noul_value"
  else Some "answer_kind".

Fixpoint check_answers (questions : gmap string DecisionQuestion) (answers : list DecisionAnswer) : option string :=
  match answers with
  | [] => None
  | a :: answers =>
      match questions !! answer_ID a with
      | None => Some "answer_identity"
      | Some q =>
          refuse_if (negb (answer_Kind a =s question_Kind q)) "answer_identity" ;;
          check_answer q a ;;
          check_answers (delete (answer_ID a) questions) answers
      end
  end.

(** [ValidateDecisionAnswers]: the reason of the refusal, or [None]. *)
Definition ValidateDecisionAnswers (input : DecisionInput) (answers : list DecisionAnswer) : option string :=
  refuse_if (negb (length answers =? length (Questions input))%nat) "answer_count" ;;
  check_answers (foldl (fun m q => <[question_ID q := q]> m) ∅ (Questions input)) answers.

(** ** Lemmas *)

Definition by_id (questions : list DecisionQuestion) : gmap string DecisionQuestion :=
  foldl (fun m q => <[question_ID q := q]> m) ∅ questions.

Lemma by_id_lookup questions id q :
  by_id questions !! id = Some q -> q ∈ questions /\ question_ID q = id.
Proof.
  unfold by_id. rewrite <-(reverse_involutive questions). generalize (reverse questions) as l. intros l.
  induction l as [|x l IH]; [rewrite reverse_nil; cbn; by rewrite lookup_empty|]. rewrite reverse_cons, foldl_snoc.
  intros [[<- <-]|[_ H]]%lookup_insert_Some.
  - split; [apply elem_of_app; right; by apply list_elem_of_singleton|done].
  - destruct (IH H) as [Hin Hid]. split; [apply elem_of_app; by left|done].
Qed.

Lemma by_id_size questions : (size (by_id questions) <= length questions)%nat.
Proof.
  unfold by_id. rewrite <-(reverse_involutive questions). generalize (reverse questions) as l. intros l.
  induction l as [|x l IH]; [by rewrite reverse_nil|]. rewrite reverse_cons, foldl_snoc, length_app.
  cbn [length]. rewrite map_size_insert. case_match; cbn; lia.
Qed.

(** What an accepted list of answers is, against the questions left. *)
Lemma check_answers_spec questions answers :
  check_answers questions answers = None ->
  NoDup (answer_ID <$> answers) /\
  Forall (fun a => exists q, questions !! answer_ID a = Some q /\ answer_Kind a = question_Kind q /\
    check_answer q a = None) answers.
Proof.
  revert questions. induction answers as [|a answers IH]; intros questions; cbn [check_answers].
  { intros _. by split; constructor. }
  destruct (questions !! answer_ID a) as [q|] eqn:Hq; [|done].
  rewrite !or_else_None, refuse_if_None. intros (Hk & Hc & Hrest). bool_cases.
  destruct (IH _ Hrest) as [Hnd Hall]. rewrite fmap_cons. split.
  - constructor; [|done]. intros (b & Hid & Hb)%list_elem_of_fmap. rewrite Forall_forall in Hall.
    destruct (Hall b Hb) as (q' & Hq' & _). by rewrite <-Hid, lookup_delete_eq in Hq'.
  - constructor; [by exists q|]. eapply Forall_impl; [exact Hall|]. intros b (q' & Hq' & Hb).
    exists q'. apply lookup_delete_Some in Hq' as [_ Hq']. by split.
Qed.

(** Accepted decisions answer what was asked: the answers name exactly the
    questions of the request, each once, in its own kind, with a probability
    (or one probability per option or level, in order) that passed every
    numeric check. *)
Theorem accepted_answers_cover_the_questions input answers :
  ValidateDecisionAnswers input answers = None ->
  answer_ID <$> answers ≡ₚ question_ID <$> Questions input /\
  Forall (fun a => exists q, q ∈ Questions input /\ question_ID q = answer_ID a /\
    answer_Kind a = question_Kind q /\ check_answer q a = None) answers.
Proof.
  unfold ValidateDecisionAnswers. fold (by_id (Questions input)). rewrite or_else_None, refuse_if_None.
  intros [Hlen%negb_false_iff%Nat.eqb_eq Hc]. apply check_answers_spec in Hc as [Hnd Hall].
  assert (Forall (fun a => exists q, q ∈ Questions input /\ question_ID q = answer_ID a /\
    answer_Kind a = question_Kind q /\ check_answer q a = None) answers) as Hall'.
  { eapply Forall_impl; [exact Hall|]. intros a (q & Hq & Hk & Ha).
    apply by_id_lookup in Hq as [Hin Hid]. by exists q. }
  split; [|done]. apply submseteq_length_Permutation.
  - apply NoDup_submseteq; [done|]. intros id (a & -> & Ha)%list_elem_of_fmap.
    rewrite Forall_forall in Hall'. destruct (Hall' a Ha) as (q & Hq & Hid & _). rewrite <-Hid.
    by apply list_elem_of_fmap_2.
  - rewrite !length_fmap. lia.
Qed.

Definition example_question : DecisionQuestion := mkQuestion "q1" KindChoice "which?" None (Some ["a"; "b"]) None.
Definition example_answer : DecisionAnswer :=
  mkAnswer (Some (mkReply (Some "b") None)) (Some f64_1') "q1" KindChoice
    (Some [f64_div (f64_of_Z 1) (f64_of_Z 4); f64_div (f64_of_Z 3) (f64_of_Z 4)]) None None None.

Lemma accepted_answers_cover_the_questions_witness :
  ValidateDecisionAnswers (mkDecisionInput "s" None [example_question] None) [example_answer] = None /\
  ["q1"] ≡ₚ ["q1"].
Proof.
  split; [by vm_compute|].
  apply (accepted_answers_cover_the_questions (mkDecisionInput "s" None [example_question] None) [example_answer]).
  by vm_compute.
Defined.
