(* ===== verification/Adapter.v ===== *)
(** * Adapters and their registry (internal/provider/adapter.go)

    What the executor hands an adapter and what an adapter does with it.  An
    adapter's execution is any finite interaction with the emitter: at each
    point it either reports something and looks at the answer, or returns.
    The registry maps a provider slug to one implementation and decides which
    platform credentials a deployment executes on. *)

From S2P Require Import Prelude Ids Text Contract Request Provider KeyPool ProviderCost DecisionPrice Answers.

(** ** Routes, calls, outcomes *)

Record Route := mkRoute {
  r_DeploymentID : string;
  r_Provider : string;
  r_ModelReference : string;
  r_UpstreamModelID : string;
  r_Regions : list string;
  r_AcceptedParameters : option (list string);
  r_CustomerProviderCredential : option CustomerProviderCredential;
  r_DecisionPriceLimit : option DecisionPriceLimit;
}.

Definition set_DecisionPriceLimit (limit : DecisionPriceLimit) (r : Route) : Route :=
  mkRoute (r_DeploymentID r) (r_Provider r) (r_ModelReference r) (r_UpstreamModelID r) (r_Regions r)
    (r_AcceptedParameters r) (r_CustomerProviderCredential r) (Some limit).

Definition set_CustomerProviderCredential (binding : option CustomerProviderCredential) (r : Route) : Route :=
  mkRoute (r_DeploymentID r) (r_Provider r) (r_ModelReference r) (r_UpstreamModelID r) (r_Regions r)
    (r_AcceptedParameters r) binding (r_DecisionPriceLimit r).

(** A translated request; the encoded body is opaque. *)
Record Call := mkCall { call_Route : Route; call_Body : string; call_RequestID : string }.

Definition set_RequestID (id : string) (c : Call) : Call := mkCall (call_Route c) (call_Body c) id.

Record EmbeddingResult := mkEmbedding {
  Dimension : Z;
  Data : list (Z * list float64);
  emb_InputTokens : Z;
  emb_TotalTokens : Z;
}.

(** [Outcome]. *)
Record AdapterOutcome := mkOutcome {
  out_Decisions : option (list DecisionAnswer);
  out_Embedding : option EmbeddingResult;
  out_DetectedLanguage : option string;
  out_Units : list UsageQuantity;
  out_UsageSource : string;
  out_FinishReason : string;
  out_KeyID : string;
  out_KeyClass : string;
  out_ProviderReportedCost : option Money;
  out_AbandonedExchanges : Z;
}.

Definition no_outcome : AdapterOutcome := mkOutcome None None None [] "" "" "" "" None 0.

Definition set_units (units : list UsageQuantity) (source : string) (o : AdapterOutcome) : AdapterOutcome :=
  mkOutcome (out_Decisions o) (out_Embedding o) (out_DetectedLanguage o) units source (out_FinishReason o)
    (out_KeyID o) (out_KeyClass o) (out_ProviderReportedCost o) (out_AbandonedExchanges o).

(** ** What an adapter may report *)

Record ToolCallDelta := mkToolCall { ID : string; Name : string; ArgumentsDelta : string; Complete_ : bool }.

(** The methods of [Emitter] and [AudioEmitter]. *)
Inductive EmitterOp :=
| OpStart (resolved : string) (at_ : Instant)
| OpDelta (outputIndex : Z) (channel text : string)
| OpToolCall (call : ToolCallDelta)
| OpUsage (units : list UsageQuantity) (source : string)
| OpAudio (outputIndex : Z) (mediaType data : string).

(** One execution: report at an instant and go on with the emitter's answer,
    or return an outcome and an error. *)
Inductive Script :=
| Return (outcome : AdapterOutcome) (err : option GoError)
| Emit (now : Instant) (op : EmitterOp) (rest : option GoError -> Script).

(** The credentials an execution may lease: a pool through one of its views. *)
Record Credentials := mkCredentials { c_pool : KeyPool; c_view : View }.

Record ChatOutput := mkChatOutput { ChatText : bool; ChatSpoken : bool }.

(** A request adapter.  [a_Stream n] is its n-th execution; [a_Credentials] is
    the pool it sources platform credentials from when it sources any, and
    [a_ChatOutputs] what it declares when it declares anything. *)
Record Adapter := mkAdapter {
  a_Provider : string;
  a_APIFormats : list string;
  a_Translate : Request -> Route -> Call + GoError;
  a_Stream : nat -> Call -> option Credentials -> Script;
  a_ChatOutputs : option (Route -> ChatOutput);
  a_Credentials : option (option KeyPool);
}.

(** A realtime session adapter, as far as the registry reads it. *)
Record RealtimeAdapter := mkRealtime {
  s_Provider : string;
  s_Kinds : list string;
  s_Credentials : option (option KeyPool);
}.

(** What is registered, by the interfaces its type satisfies. *)
Inductive Registrant :=
| OneShot (adapter : Adapter)
| Session (session : RealtimeAdapter)
| BothKinds (adapter : Adapter) (session : RealtimeAdapter)
| NeitherKind (slug : string).

Definition registrant_Provider (r : Registrant) : string :=
  match r with
  | OneShot a | BothKinds a _ => a_Provider a
  | Session s => s_Provider s
  | NeitherKind slug => slug
  end.

Definition PlatformCredentials (r : Registrant) : option (option KeyPool) :=
  match r with
  | OneShot a | BothKinds a _ => a_Credentials a
  | Session s => s_Credentials s
  | NeitherKind _ => None
  end.

(** ** The registry *)

Record CredentialBinding := mkBinding {
  bind_DeploymentID : string;
  bind_Provider : string;
  bind_KeyID : string;
}.

Record Registry := mkRegistry {
  adapters : gmap string Adapter;
  sessions : gmap string RealtimeAdapter;
  bindings : gmap string CredentialBinding;
  bindingsRequired : bool;
}.

Definition realtimeSessionKindValues := ["conversation"; "transcription"; "translation"].

Definition APIFormat_Valid (format : string) : bool := isMember format apiFormatValues.

Definition serves (slug : string) (r : Registry) : bool :=
  bool_decide (is_Some (adapters r !! slug)) || bool_decide (is_Some (sessions r !! slug)).

Definition registrant (slug : string) (r : Registry) : option Registrant :=
  match adapters r !! slug with
  | Some a => Some (OneShot a)
  | None => Session <$> sessions r !! slug
  end.

Definition register (r : Registry) (reg : Registrant) : option Registry :=
  let slug := registrant_Provider reg in
  if negb (ProviderSlug_Valid slug) || serves slug r then None
  else match reg with
  | BothKinds _ _ | NeitherKind _ => None
  | OneShot a =>
      if match a_APIFormats a with [] => true | _ => false end || negb (forallb APIFormat_Valid (a_APIFormats a))
      then None
      else Some (mkRegistry (<[slug := a]> (adapters r)) (sessions r) (bindings r) (bindingsRequired r))
  | Session s =>
      if match s_Kinds s with [] => true | _ => false end
         || negb (forallb (fun kind => isMember kind realtimeSessionKindValues) (s_Kinds s))
      then None
      else Some (mkRegistry (adapters r) (<[slug := s]> (sessions r)) (bindings r) (bindingsRequired r))
  end.

Fixpoint register_all (r : Registry) (regs : list Registrant) : option Registry :=
  match regs with [] => Some r | reg :: regs => r ← register r reg; register_all r regs end.

Definition empty_registry : Registry := mkRegistry ∅ ∅ ∅ false.

Definition NewRegistry (regs : list Registrant) : option Registry := register_all empty_registry regs.

Definition Configured (p : KeyPool) : bool := match keys p with [] => false | _ => true end.

(** [KeyPool.Bind] on what a source returned, which may be nil. *)
Definition Bind_source (id : string) (pool : option KeyPool) : option Credentials :=
  p ← pool; v ← Bind id whole p; Some (mkCredentials p v).

(** [platformCredential]: the outer [None] is an error, the inner one nil
    credentials. *)
Definition platformCredential (deploymentID slug : string) (reg : Registrant) (r : Registry)
    : option (option Credentials) :=
  if negb (bindingsRequired r) then Some None
  else match PlatformCredentials reg with
  | None => None
  | Some pool =>
      match bindings r !! deploymentID with
      | Some binding =>
          if negb (bind_Provider binding =s slug) then None
          else Some <$> Bind_source (bind_KeyID binding) pool
      | None =>
          match pool with
          | Some p => if Configured p then Some (Some (mkCredentials p whole)) else None
          | None => None
          end
      end
  end.

Definition ResolveExecution (deploymentID slug : string) (platform : bool) (r : Registry)
    : option (Adapter * option Credentials) :=
  adapter ← adapters r !! slug;
  if negb platform then Some (adapter, None)
  else pool ← platformCredential deploymentID slug (OneShot adapter) r; Some (adapter, pool).

Definition ResolveRealtimeExecution (deploymentID slug : string) (r : Registry)
    : option (RealtimeAdapter * option Credentials) :=
  session ← sessions r !! slug;
  pool ← platformCredential deploymentID slug (Session session) r; Some (session, pool).

Definition ResolveCredential (deploymentID slug : string) (r : Registry) : option (option Credentials) :=
  reg ← registrant slug r; platformCredential deploymentID slug reg r.

(** [ServingKinds]: the session kinds, whether it is a request adapter, and
    whether the slug is served. *)
Definition ServingKinds (slug : string) (r : option Registry) : list string * bool * bool :=
  match r with
  | None => ([], false, false)
  | Some r =>
      match sessions r !! slug with
      | Some s => (s_Kinds s, false, true)
      | None => if bool_decide (is_Some (adapters r !! slug)) then ([], true, true) else ([], false, false)
      end
  end.

Definition Serves (slug : string) (r : Registry) : bool := serves slug r.
Definition Lookup (slug : string) (r : Registry) : option Adapter := adapters r !! slug.

Fixpoint bind_all (r : Registry) (bs : list CredentialBinding) : option Registry :=
  match bs with
  | [] => Some r
  | b :: bs =>
      if (bind_DeploymentID b =s "") || negb (ProviderSlug_Valid (bind_Provider b)) || (bind_KeyID b =s "") then None
      else if bool_decide (is_Some (bindings r !! bind_DeploymentID b)) then None
      else
        reg ← registrant (bind_Provider b) r;
        pool ← PlatformCredentials reg;
        _ ← Bind_source (bind_KeyID b) pool;
        bind_all (mkRegistry (adapters r) (sessions r) (<[bind_DeploymentID b := b]> (bindings r))
                    (bindingsRequired r)) bs
  end.

(** [ReplaceGeneration]: the whole new registry, or [None] and the old one stays. *)
Definition ReplaceGeneration (bs : list CredentialBinding) (regs : list Registrant) (r : Registry) : option Registry :=
  replacement ← NewRegistry regs;
  replacement ← bind_all replacement bs;
  Some (mkRegistry (adapters replacement) (sessions replacement) (bindings replacement) true).

Definition Replace (regs : list Registrant) (r : Registry) : option Registry :=
  replacement ← NewRegistry regs;
  Some (mkRegistry (adapters replacement) (sessions replacement) (bindings r) (bindingsRequired r)).

Definition Executes (a : Adapter) (format : string) : bool := existsb (String.eqb format) (a_APIFormats a).

Definition ChatOutputsOf (a : Adapter) (route : Route) : ChatOutput :=
  match a_ChatOutputs a with Some outputs => outputs route | None => mkChatOutput true false end.

(** ** Lemmas *)

(** One slug resolves to one implementation, under its own slug. *)
Record registry_wf (r : Registry) : Prop := {
  wf_adapters : forall slug a, adapters r !! slug = Some a -> a_Provider a = slug /\ sessions r !! slug = None;
  wf_sessions : forall slug s, sessions r !! slug = Some s -> s_Provider s = slug /\ adapters r !! slug = None;
}.

Lemma serves_false slug r : serves slug r = false <-> adapters r !! slug = None /\ sessions r !! slug = None.
Proof. unfold serves. rewrite orb_false_iff, !bool_decide_eq_false, <-!eq_None_not_Some. done. Qed.

Lemma register_spec r reg r' :
  registry_wf r -> register r reg = Some r' ->
  registry_wf r' /\ serves (registrant_Provider reg) r = false /\
  registrant (registrant_Provider reg) r' = Some reg /\ bindings r' = bindings r /\
  forall slug, slug <> registrant_Provider reg -> registrant slug r' = registrant slug r.
Proof.
  intros [Ha Hs]. unfold register. set (slug := registrant_Provider reg).
  destruct (_ || serves slug r) eqn:E; [done|]. apply orb_false_iff in E as [_ Hserves].
  pose proof (proj1 (serves_false _ _) Hserves) as [Hna Hns].
  destruct reg as [a|s|a s|sl]; try done; (destruct (_ || _); [done|]); intros [= <-];
    subst slug; cbn [registrant_Provider] in *.
  - split; [|split_and!; try done].
    + constructor; cbn [adapters sessions].
      * intros x b [[<- <-]|[Hne Hb]]%lookup_insert_Some; [done|auto].
      * intros x b Hb. destruct (Hs x b Hb) as [? ?]. split; [done|].
        apply lookup_insert_None. split; [done|]. intros Heq. congruence.
    + unfold registrant. cbn. by rewrite lookup_insert_eq.
    + intros x Hx. unfold registrant. cbn. by rewrite lookup_insert_ne.
  - split; [|split_and!; try done].
    + constructor; cbn [adapters sessions].
      * intros x b Hb. destruct (Ha x b Hb) as [? ?]. split; [done|].
        apply lookup_insert_None. split; [done|]. intros Heq. congruence.
      * intros x b [[<- <-]|[Hne Hb]]%lookup_insert_Some; [done|auto].
    + unfold registrant. cbn. rewrite Hna. by rewrite lookup_insert_eq.
    + intros x Hx. unfold registrant. cbn. by rewrite lookup_insert_ne.
Qed.

Lemma register_all_spec r regs r' :
  registry_wf r -> register_all r regs = Some r' ->
  registry_wf r' /\ bindings r' = bindings r /\
  NoDup (registrant_Provider <$> regs) /\
  Forall (fun reg => serves (registrant_Provider reg) r = false) regs /\
  Forall (fun reg => registrant (registrant_Provider reg) r' = Some reg) regs /\
  (forall slug, slug ∉ registrant_Provider <$> regs -> registrant slug r' = registrant slug r).
Proof.
  revert r. induction regs as [|reg regs IH]; intros r Hwf; cbn [register_all].
  { intros [= <-]. split_and!; try done; constructor. }
  destruct (register r reg) as [r1|] eqn:E; [|done]. cbn [mbind option_bind]. intros Hall.
  destruct (register_spec _ _ _ Hwf E) as (Hwf1 & Hserves & Hreg & Hb & Hothers).
  destruct (IH _ Hwf1 Hall) as (Hwf' & Hb' & Hnd & Hnot & Hin & Hrest).
  assert (forall slug x, registrant slug r1 = Some x -> serves slug r1 = true) as Hsv.
  { intros slug x Hx. apply not_false_iff_true. intros [H1 H2]%serves_false.
    unfold registrant in Hx. rewrite H1, H2 in Hx. done. }
  assert (registrant_Provider reg ∉ registrant_Provider <$> regs) as Hnin.
  { intros (reg' & Heq & Hin')%list_elem_of_fmap. rewrite Forall_forall in Hnot.
    specialize (Hnot reg' Hin'). rewrite <-Heq in Hnot. apply Hsv in Hreg. congruence. }
  rewrite fmap_cons. split; [done|]. split; [congruence|]. split; [by constructor|]. split; [|split].
  - constructor; [done|]. rewrite Forall_forall in *. intros x Hx. specialize (Hnot x Hx).
    apply serves_false in Hnot as [H1 H2]. apply serves_false.
    assert (registrant_Provider x <> registrant_Provider reg) as Hne.
    { intros Heq. apply Hnin. rewrite <-Heq. by apply list_elem_of_fmap_2. }
    specialize (Hothers _ Hne). unfold registrant in Hothers. rewrite H1, H2 in Hothers.
    destruct (adapters r !! _); [done|]. by destruct (sessions r !! _).
  - constructor; [by rewrite Hrest|done].
  - intros slug [Hne Hns]%not_elem_of_cons. rewrite Hrest by done. by apply Hothers.
Qed.

Lemma bind_all_spec r bs r' :
  bind_all r bs = Some r' ->
  adapters r' = adapters r /\ sessions r' = sessions r /\
  NoDup (bind_DeploymentID <$> bs) /\ Forall (fun b => bindings r !! bind_DeploymentID b = None) bs /\
  (forall d b, bindings r' !! d = Some b <-> bindings r !! d = Some b \/ (b ∈ bs /\ bind_DeploymentID b = d)) /\
  Forall (fun b => exists reg pool c, registrant (bind_Provider b) r = Some reg /\ PlatformCredentials reg = Some pool /\
    Bind_source (bind_KeyID b) pool = Some c) bs.
Proof.
  revert r. induction bs as [|b bs IH]; intros r; cbn [bind_all].
  { intros [= <-]. do 2 (split; [done|]). do 2 (split; [constructor|]). split; [|constructor].
    intros d b. rewrite elem_of_nil. tauto. }
  destruct (_ || _); [done|]. destruct (bool_decide _) eqn:Eb; [done|].
  apply bool_decide_eq_false, eq_None_not_Some in Eb.
  destruct (registrant _ r) as [reg|] eqn:Ereg; [|done]. cbn [mbind option_bind].
  destruct (PlatformCredentials reg) as [pool|] eqn:Epool; [|done]. cbn [mbind option_bind].
  destruct (Bind_source _ pool) as [c|] eqn:Ec; [|done]. cbn [mbind option_bind].
  intros (H1 & H2 & Hnd & Hnone & Hlook & Hall)%IH. cbn [adapters sessions bindings] in *.
  rewrite Forall_forall in Hnone.
  assert (bind_DeploymentID b ∉ bind_DeploymentID <$> bs) as Hnin.
  { intros (b' & Heq & Hin)%list_elem_of_fmap. specialize (Hnone b' Hin).
    rewrite <-Heq, lookup_insert_eq in Hnone. done. }
  rewrite fmap_cons. split; [done|]. split; [done|]. split; [by constructor|]. split; [|split].
  - constructor; [done|]. apply Forall_forall. intros b' Hin. specialize (Hnone b' Hin).
    by apply lookup_insert_None in Hnone as [? _].
  - intros d b'. rewrite Hlook, lookup_insert_Some, elem_of_cons. split.
    + intros [[[<- <-]|[Hne Hd]]|[Hin Hd]]; auto.
    + intros [Hd|[[->|Hin] <-]]; auto. left. right. split; [|done]. intros Heq. rewrite Heq in Eb. congruence.
  - constructor; [by exists reg, pool, c|]. exact Hall.
Qed.

Lemma Bind_source_spec id pool c :
  Bind_source id pool = Some c ->
  id <> "" /\ pool = Some (c_pool c) /\ onlyKeyID (c_view c) = id /\ exists k, k ∈ keys (c_pool c) /\ keyID k = id.
Proof.
  unfold Bind_source, Bind. destruct pool as [p|]; [|done]. cbn [mbind option_bind].
  destruct (_ || _) eqn:E0; [done|]. destruct (existsb _ _) eqn:E; [|done]. cbn [mbind option_bind]. intros [= <-].
  bool_cases. cbn. split; [done|]. split; [done|]. split; [done|]. apply existsb_exists in E as (k & Hin & Hk). bool_cases.
  exists k. by rewrite list_elem_of_In.
Qed.

Lemma pinned_view id v k : onlyKeyID v = id -> id <> "" -> in_view v k = true -> keyID k = id.
Proof.
  unfold in_view. intros -> Hne. rewrite (proj2 (String.eqb_neq _ "") Hne). cbn [orb].
  intros [Hin _]%andb_true_iff. by apply String.eqb_eq.
Qed.

(** What a platform resolution hands out: the pool the provider's own adapter
    was registered with, on the pinned key where there is a pin; nothing only
    where no bindings are required. *)
Lemma resolved_credentials d slug a creds r :
  ResolveExecution d slug true r = Some (a, creds) ->
  adapters r !! slug = Some a /\
  match creds with
  | None => bindingsRequired r = false
  | Some c => a_Credentials a = Some (Some (c_pool c)) /\
      forall b, bindings r !! d = Some b -> bind_Provider b = slug /\ bind_KeyID b <> "" /\ onlyKeyID (c_view c) = bind_KeyID b
  end.
Proof.
  unfold ResolveExecution. destruct (adapters r !! slug) as [a'|]; [|done]. cbn [mbind option_bind negb].
  unfold platformCredential. cbn [PlatformCredentials]. destruct (bindingsRequired r); [|by intros [= <- <-]]. cbn [negb].
  destruct (a_Credentials a') as [pool|] eqn:Epool; [|done]. destruct (bindings r !! d) as [b|].
  - destruct (negb (bind_Provider b =s slug)) eqn:Eslug; [done|]. bool_cases.
    destruct (Bind_source (bind_KeyID b) pool) as [c|] eqn:Ec; [|done]. cbn. intros [= <- <-].
    apply Bind_source_spec in Ec as (Hne & -> & Honly & Hk). do 2 (split; [done|]). by intros b' [= <-].
  - destruct pool as [p|]; [|done]. destruct (Configured p); [|done]. cbn. by intros [= <- <-].
Qed.

(** A pin is final.  Once bindings are in force, a deployment pinned to a
    key executes on that key alone: resolution succeeds only when the pin names
    the deployment's own provider and the provider's pool still holds the key,
    every key the credentials may lease is that key, and in every other case
    the deployment has no credentials at all, never another key. *)
Theorem pins_are_final d slug b r :
  bindingsRequired r = true -> bindings r !! d = Some b ->
  forall a creds, ResolveExecution d slug true r = Some (a, creds) ->
  adapters r !! slug = Some a /\ bind_Provider b = slug /\
  exists c, creds = Some c /\ a_Credentials a = Some (Some (c_pool c)) /\
    (exists k, k ∈ keys (c_pool c) /\ keyID k = bind_KeyID b) /\
    forall k, in_view (c_view c) k = true -> keyID k = bind_KeyID b.
Proof.
  intros Hreq Hb a creds. unfold ResolveExecution, platformCredential.
  destruct (adapters r !! slug) as [a'|] eqn:Ha; [|done]. cbn [mbind option_bind negb PlatformCredentials].
  rewrite Hreq, Hb. cbn [negb].
  destruct (a_Credentials a') as [pool|] eqn:Epool; [|done].
  destruct (negb (bind_Provider b =s slug)) eqn:Eslug; [done|]. bool_cases.
  destruct (Bind_source (bind_KeyID b) pool) as [c|] eqn:Ec; [|done]. cbn. intros [= <- <-].
  apply Bind_source_spec in Ec as (Hne & -> & Honly & Hk). split; [done|]. split; [done|]. exists c.
  do 3 (split; [done|]). intros k. by apply pinned_view.
Qed.

Definition example_script (n : nat) (call : Call) (c : option Credentials) : Script :=
  Emit 10 (OpStart "a/m@1" 10) (fun _ => Emit 11 (OpDelta 0 ChannelOutputText "hi") (fun _ => Return no_outcome None)).

Definition example_adapter : Adapter :=
  mkAdapter "acme" [APIFormatChatCompletions] (fun _ route => inl (mkCall route "{}" "")) example_script None
    (Some (Some (example_pool []))).

Definition example_registry : Registry :=
  mkRegistry {["acme" := example_adapter]} ∅ {["dep" := mkBinding "dep" "acme" "b"]} true.

Lemma pins_are_final_witness :
  exists a creds, ResolveExecution "dep" "acme" true example_registry = Some (a, creds) /\
    exists c, creds = Some c /\ forall k, in_view (c_view c) k = true -> keyID k = "b".
Proof.
  eexists _, _. split; [reflexivity|].
  destruct (pins_are_final "dep" "acme" (mkBinding "dep" "acme" "b") example_registry eq_refl eq_refl _ _ eq_refl)
    as (_ & _ & c & Hc & _ & _ & Hk). by exists c.
Defined.

(** A reload is all or nothing, and what it installs is what it was given:
    every registrant is served under its own slug and no other, the bindings
    are exactly the given ones, one per deployment, and each resolves to the
    key it names. *)
Theorem ReplaceGeneration_installs bs regs r r' :
  ReplaceGeneration bs regs r = Some r' ->
  bindingsRequired r' = true /\ NoDup (registrant_Provider <$> regs) /\ NoDup (bind_DeploymentID <$> bs) /\
  (forall slug reg, registrant slug r' = Some reg <-> reg ∈ regs /\ registrant_Provider reg = slug) /\
  (forall d b, bindings r' !! d = Some b <-> b ∈ bs /\ bind_DeploymentID b = d) /\
  (forall b, b ∈ bs -> exists c, ResolveCredential (bind_DeploymentID b) (bind_Provider b) r' = Some (Some c) /\
     onlyKeyID (c_view c) = bind_KeyID b).
Proof.
  unfold ReplaceGeneration, NewRegistry. destruct (register_all empty_registry regs) as [r1|] eqn:E1; [|done].
  cbn [mbind option_bind]. destruct (bind_all r1 bs) as [r2|] eqn:E2; [|done]. cbn [mbind option_bind]. intros [= <-].
  apply register_all_spec in E1 as (_ & Hb & Hnd & _ & Hin & Hout); [|by split].
  apply bind_all_spec in E2 as (Ha & Hs & Hndb & _ & Hlook & Hall). rewrite Hb in Hlook. cbn [bindings empty_registry] in Hlook.
  assert (forall slug, registrant slug (mkRegistry (adapters r2) (sessions r2) (bindings r2) true) = registrant slug r1) as Hreg.
  { intros slug. unfold registrant. cbn. by rewrite Ha, Hs. }
  assert (forall slug reg, registrant slug r1 = Some reg <-> reg ∈ regs /\ registrant_Provider reg = slug) as Hchar.
  { rewrite Forall_forall in Hin. intros slug reg. split; [|intros [Hr <-]; auto]. intros Hr.
    destruct (decide (slug ∈ registrant_Provider <$> regs)) as [(reg' & -> & Hin')%list_elem_of_fmap|Hno].
    - rewrite (Hin reg' Hin') in Hr. by injection Hr as <-.
    - rewrite (Hout slug Hno) in Hr. done. }
  assert (forall d b, bindings r2 !! d = Some b <-> b ∈ bs /\ bind_DeploymentID b = d) as Hbind.
  { intros d b. rewrite Hlook, lookup_empty. naive_solver. }
  split; [done|]. split; [done|]. split; [done|]. split; [intros slug reg; by rewrite Hreg|]. split; [done|].
  intros b Hin'. rewrite Forall_forall in Hall. destruct (Hall b Hin') as (reg & pool & c & Hr & Hpool & Hc).
  exists c. split; [|by apply Bind_source_spec in Hc as (_ & _ & ? & _)].
  unfold ResolveCredential. rewrite Hreg, Hr. cbn [mbind option_bind]. unfold platformCredential. cbn [negb bindingsRequired bindings].
  rewrite Hpool, (proj2 (Hbind _ b)) by done. rewrite String.eqb_refl. cbn [negb]. by rewrite Hc.
Qed.

Lemma ReplaceGeneration_installs_witness :
  exists r', ReplaceGeneration [mkBinding "dep" "acme" "b"] [OneShot example_adapter] empty_registry = Some r' /\
    registrant "acme" r' = Some (OneShot example_adapter).
Proof.
  eexists. split; [vm_compute; reflexivity|].
  eapply (ReplaceGeneration_installs [mkBinding "dep" "acme" "b"] [OneShot example_adapter] empty_registry);
    [vm_compute; reflexivity|]. split; [by apply list_elem_of_singleton|reflexivity].
Defined.
