(* ===== verification/Parameters.v ===== *)
(** * Accepted parameters (internal/provider/parameters.go)

    The caller controls a deployment may or may not accept, how a stated set of
    them is read, and how two statements about one model combine. *)

From S2P Require Import Prelude Request Adapter.

Definition ParameterToolChoice := "toolChoice".
Definition ParameterToolChoiceFunction := "toolChoice.function".
Definition ParameterToolChoiceNone := "toolChoice.none".
Definition ParameterToolChoiceRequired := "toolChoice.required".

(** The whole vocabulary, sorted. *)
Definition RequestParameters : list string :=
  ["maxOutputTokens"; "reasoning.effort"; "responseFormat"; "sampling.frequencyPenalty";
   "sampling.presencePenalty"; "sampling.seed"; "sampling.stopSequences"; "sampling.temperature";
   "sampling.topP"; ParameterToolChoice; ParameterToolChoiceFunction; ParameterToolChoiceNone;
   ParameterToolChoiceRequired; "tools"].

Definition ToolChoiceValues : list string :=
  [ParameterToolChoiceFunction; ParameterToolChoiceNone; ParameterToolChoiceRequired].

Definition isToolChoiceValue (p : string) : bool := isMember p ToolChoiceValues.

Definition Field (p : string) : string := if isToolChoiceValue p then ParameterToolChoice else p.

Definition ToolChoiceAuto := "auto".
Definition ToolChoiceNone := "none".
Definition ToolChoiceRequired := "required".

Definition ToolChoiceParameters (choice : option ToolChoice) : list string :=
  match choice with
  | None => []
  | Some choice =>
      match choice_Function choice, choice_Mode choice with
      | Some _, _ => [ParameterToolChoice; ParameterToolChoiceFunction]
      | None, None => [ParameterToolChoice]
      | None, Some mode =>
          if mode =s ToolChoiceAuto then []
          else if mode =s ToolChoiceNone then [ParameterToolChoice; ParameterToolChoiceNone]
          else if mode =s ToolChoiceRequired then [ParameterToolChoice; ParameterToolChoiceRequired]
          else [ParameterToolChoice]
      end
  end.

(** The [present] map of [CanonicalParameterSet], after its two rules. *)
Definition present_in (parameters : list string) (p : string) : bool :=
  let values := existsb isToolChoiceValue parameters in
  isMember p parameters
  || (if values then p =s ParameterToolChoice
      else isMember ParameterToolChoice parameters && isToolChoiceValue p).

Definition CanonicalParameterSet (parameters : list string) : list string :=
  List.filter (present_in parameters) RequestParameters.

(** The field is dropped when no value survives. *)
Definition drop_field (result : list string) : list string :=
  if existsb isToolChoiceValue result then result
  else List.filter (fun p => negb (p =s ParameterToolChoice)) result.

Definition IntersectParameterSets (first second : option (list string)) : option (list string) :=
  match first, second with
  | None, None => None
  | None, Some stated | Some stated, None => Some (drop_field (CanonicalParameterSet stated))
  | Some first, Some second =>
      let other := CanonicalParameterSet second in
      Some (drop_field (List.filter (fun p => isMember p other) (CanonicalParameterSet first)))
  end.

Definition RequestParameter_Valid (p : string) : bool := isMember p RequestParameters.

Fixpoint ValidateParameterSet_from (previous : option string) (parameters : list string) : option string :=
  match parameters with
  | [] => None
  | p :: rest =>
      refuse_if (negb (RequestParameter_Valid p)) "is not a request parameter" ;;
      refuse_if match previous with Some q => negb (String.ltb q p) | None => false end
        "must be sorted and name each parameter once" ;;
      ValidateParameterSet_from (Some p) rest
  end.

Definition ValidateParameterSet (parameters : list string) : option string :=
  ValidateParameterSet_from None parameters.

(** [Route.UnacceptedParameter]: the first refused control, if any. *)
Definition UnacceptedParameter (r : Route) (sent : list string) : option string :=
  match r_AcceptedParameters r with
  | None => None
  | Some stated =>
      let accepted := CanonicalParameterSet stated in
      List.find (fun p => isMember p sent && negb (isMember p accepted)) RequestParameters
  end.

(** ** Lemmas *)

(** What a statement accepts once read. *)
Definition accepts (stated : list string) (p : string) : bool :=
  isMember p RequestParameters && present_in stated p.

(** What both of two statements leave. *)
Definition both (f g : string -> bool) (p : string) : bool :=
  if p =s ParameterToolChoice then existsb (fun v => f v && g v) ToolChoiceValues else f p && g p.

Lemma isMember_filter f l p : isMember p (List.filter f l) = isMember p l && f p.
Proof.
  apply eq_true_iff_eq. rewrite andb_true_iff, !isMember_spec, !list_elem_of_In. apply filter_In.
Qed.

Lemma canonical_member l p : isMember p (CanonicalParameterSet l) = accepts l p.
Proof. apply isMember_filter. Qed.

Lemma existsb_member f l : existsb f l = true <-> exists p, isMember p l = true /\ f p = true.
Proof.
  rewrite existsb_exists. split; intros (p & Hin & Hf); exists p; (split; [|done]).
  - apply isMember_spec. by apply list_elem_of_In.
  - apply list_elem_of_In. by apply isMember_spec.
Qed.

Lemma values_known p : isToolChoiceValue p = true -> isMember p RequestParameters = true.
Proof.
  unfold isToolChoiceValue. rewrite !isMember_spec. intros H.
  assert (forall v, v ∈ ToolChoiceValues -> v ∈ RequestParameters) as Hall; [|auto].
  intros v Hv. apply isMember_spec. revert v Hv. rewrite <-Forall_forall. repeat constructor.
Qed.

Lemma value_not_field p : isToolChoiceValue p = true -> (p =s ParameterToolChoice) = false.
Proof.
  unfold isToolChoiceValue. rewrite isMember_spec. revert p. rewrite <-Forall_forall. repeat constructor.
Qed.

(** [f] accepts the field exactly when it accepts one of its values. *)
Definition coherent (f : string -> bool) : Prop := existsb f ToolChoiceValues = f ParameterToolChoice.

Lemma coherent_iff f :
  coherent f <-> (f ParameterToolChoice = true <-> exists p, isToolChoiceValue p = true /\ f p = true).
Proof.
  unfold coherent, isToolChoiceValue. rewrite <-existsb_member.
  destruct (existsb f ToolChoiceValues), (f ParameterToolChoice); split; try done; intuition congruence.
Qed.

Lemma accepts_coherent l : coherent (accepts l).
Proof.
  apply coherent_iff. unfold accepts, present_in. cbn zeta.
  change (isMember ParameterToolChoice RequestParameters) with true.
  rewrite String.eqb_refl. cbn [andb]. split.
  - intros H. destruct (existsb isToolChoiceValue l) eqn:E.
    + apply existsb_member in E as (p & Hin & Hv). exists p. by rewrite Hv, values_known, Hin.
    + exists ParameterToolChoiceNone. split; [done|].
      change (isToolChoiceValue ParameterToolChoice) with false in H. rewrite andb_false_r, orb_false_r in H.
      change (isMember ParameterToolChoiceNone RequestParameters) with true. rewrite H.
      by rewrite orb_true_r.
  - intros (p & Hv & H). apply andb_true_iff in H as [_ H]. rewrite value_not_field, Hv, andb_true_r in H by done.
    destruct (existsb isToolChoiceValue l) eqn:E; [by rewrite orb_true_r|].
    rewrite orb_true_iff in H. destruct H as [H|H]; [|by rewrite H].
    rewrite <-not_true_iff_false in E. exfalso. apply E. apply existsb_member. by exists p.
Qed.

Lemma filter_ext_vocabulary f g :
  (forall p, isMember p RequestParameters = true -> f p = g p) ->
  List.filter f RequestParameters = List.filter g RequestParameters.
Proof. intros H. apply filter_ext_in. intros p Hp. apply H, isMember_spec. by apply list_elem_of_In. Qed.

Lemma values_of_filter f :
  existsb isToolChoiceValue (List.filter f RequestParameters) = existsb f ToolChoiceValues.
Proof.
  apply eq_true_iff_eq. rewrite !existsb_member. split; intros (p & H1 & H2).
  - rewrite isMember_filter in H1. apply andb_true_iff in H1 as [_ H1]. by exists p.
  - exists p. split; [|done]. rewrite isMember_filter. by rewrite values_known.
Qed.

(** A coherent set is read as it is written. *)
Lemma canonical_coherent f :
  coherent f -> CanonicalParameterSet (List.filter f RequestParameters) = List.filter f RequestParameters.
Proof.
  intros Hf. apply filter_ext_vocabulary. intros p Hp. unfold present_in.
  rewrite values_of_filter, !isMember_filter, Hp. cbn [andb]. rewrite Hf.
  change (isMember ParameterToolChoice RequestParameters) with true. cbn [andb].
  destruct (f ParameterToolChoice) eqn:E; cbn [andb]; [|apply orb_false_r].
  destruct (p =s ParameterToolChoice) eqn:Ep; [|apply orb_false_r]. bool_cases. subst. by rewrite E.
Qed.

(** A set over the vocabulary, in its order. *)
Definition listed (f : string -> bool) : list string := List.filter f RequestParameters.

Lemma filter_twice (f g : string -> bool) l : List.filter g (List.filter f l) = List.filter (fun p => f p && g p) l.
Proof.
  induction l as [|x l IH]; [done|]. cbn. destruct (f x); cbn; [|done]. destruct (g x); by rewrite IH.
Qed.

Lemma drop_field_listed f :
  drop_field (listed f) = listed (fun p => f p && (negb (p =s ParameterToolChoice) || existsb f ToolChoiceValues)).
Proof.
  unfold drop_field, listed. rewrite values_of_filter. destruct (existsb f ToolChoiceValues).
  - apply filter_ext_vocabulary. intros p _. by rewrite orb_true_r, andb_true_r.
  - rewrite filter_twice. apply filter_ext_vocabulary. intros p _. by rewrite orb_false_r.
Qed.

Lemma canonical_listed l : CanonicalParameterSet l = listed (accepts l).
Proof. apply filter_ext_vocabulary. intros p Hp. unfold accepts. by rewrite Hp. Qed.

Lemma accepts_listed f p : coherent f -> accepts (listed f) p = isMember p RequestParameters && f p.
Proof. intros Hf. rewrite <-canonical_member. unfold listed. by rewrite (canonical_coherent f Hf), isMember_filter. Qed.

Lemma existsb_values_ext f g :
  (forall p, isToolChoiceValue p = true -> f p = g p) -> existsb f ToolChoiceValues = existsb g ToolChoiceValues.
Proof. intros H. apply eq_true_iff_eq. rewrite !existsb_member. split; intros (p & Hv & Hf); exists p; (split; [done|]); by rewrite <-Hf, H. Qed.

Lemma both_value f g p : isToolChoiceValue p = true -> both f g p = f p && g p.
Proof. intros H. unfold both. by rewrite value_not_field. Qed.

Lemma both_coherent f g : coherent (both f g).
Proof.
  unfold coherent. unfold both at 2. rewrite String.eqb_refl. apply existsb_values_ext. apply both_value.
Qed.

Lemma Intersect_one a : IntersectParameterSets (Some a) None = Some (listed (accepts a)).
Proof.
  cbn [IntersectParameterSets]. rewrite canonical_listed, drop_field_listed. f_equal.
  apply filter_ext_vocabulary. intros p _. rewrite (accepts_coherent a).
  destruct (p =s ParameterToolChoice) eqn:E; cbn [negb orb]; [|apply andb_true_r]. bool_cases. subst. apply andb_diag.
Qed.

Lemma Intersect_two a b : IntersectParameterSets (Some a) (Some b) = Some (listed (both (accepts a) (accepts b))).
Proof.
  cbn [IntersectParameterSets]. rewrite (canonical_listed a). unfold listed at 1. rewrite filter_twice.
  fold (listed (fun p => accepts a p && isMember p (CanonicalParameterSet b))). rewrite drop_field_listed. f_equal.
  apply filter_ext_vocabulary. intros p _. rewrite canonical_member. unfold both.
  rewrite (existsb_values_ext (fun p => accepts a p && isMember p (CanonicalParameterSet b)) (fun v => accepts a v && accepts b v))
    by (intros; by rewrite canonical_member).
  destruct (p =s ParameterToolChoice) eqn:E; cbn [negb orb]; [|apply andb_true_r]. bool_cases. subst.
  destruct (existsb (fun v => accepts a v && accepts b v) ToolChoiceValues) eqn:Ex; [|apply andb_false_r].
  apply existsb_member in Ex as (v & Hv & Hab). apply andb_true_iff in Hab as [Ha Hb].
  rewrite <-(accepts_coherent a), <-(accepts_coherent b), andb_true_r. apply andb_true_iff.
  split; apply existsb_member; by exists v.
Qed.

Lemma listed_ext f g : (forall p, isMember p RequestParameters = true -> f p = g p) -> listed f = listed g.
Proof. apply filter_ext_vocabulary. Qed.

Lemma both_ext f f' g g' p :
  (forall p, isMember p RequestParameters = true -> f p = f' p) ->
  (forall p, isMember p RequestParameters = true -> g p = g' p) ->
  isMember p RequestParameters = true -> both f g p = both f' g' p.
Proof.
  intros Hf Hg Hp. unfold both. rewrite Hf, Hg by done. destruct (p =s _); [|done].
  apply existsb_values_ext. intros v Hv%values_known. by rewrite Hf, Hg.
Qed.

Lemma Intersect_comm a b : IntersectParameterSets a b = IntersectParameterSets b a.
Proof.
  destruct a as [a|], b as [b|]; try done. rewrite !Intersect_two. f_equal. apply listed_ext. intros p _.
  unfold both. rewrite andb_comm. destruct (p =s _); [|done]. apply existsb_values_ext. intros. apply andb_comm.
Qed.

Lemma both_assoc f g h p : both (both f g) h p = both f (both g h) p.
Proof.
  unfold both at 1 3. destruct (p =s ParameterToolChoice) eqn:E.
  - apply existsb_values_ext. intros v Hv. rewrite !both_value by done. symmetry. apply andb_assoc.
  - unfold both. rewrite E. symmetry. apply andb_assoc.
Qed.

Lemma Intersect_assoc a b c :
  IntersectParameterSets (IntersectParameterSets a b) c = IntersectParameterSets a (IntersectParameterSets b c).
Proof.
  assert (forall l p, isMember p RequestParameters = true -> accepts (listed (accepts l)) p = accepts l p) as Hone.
  { intros l p Hp. rewrite accepts_listed by apply accepts_coherent. by rewrite Hp. }
  assert (forall f g p, isMember p RequestParameters = true -> accepts (listed (both f g)) p = both f g p) as Htwo.
  { intros f g p Hp. rewrite accepts_listed by apply both_coherent. by rewrite Hp. }
  destruct a as [a|], b as [b|], c as [c|]; rewrite ?(Intersect_comm None (Some _)), ?Intersect_one, ?Intersect_two;
    rewrite ?(Intersect_comm None (Some _)), ?Intersect_one, ?Intersect_two; try done; f_equal; apply listed_ext; intros p Hp.
  - rewrite (both_ext _ (both (accepts a) (accepts b)) _ (accepts c)) by auto.
    rewrite (both_ext (accepts a) (accepts a) _ (both (accepts b) (accepts c))) by auto. apply both_assoc.
  - rewrite Htwo by done. symmetry. apply both_ext; auto.
  - rewrite (both_ext _ (accepts a) _ (accepts c)) by auto. symmetry. apply both_ext; auto.
  - by rewrite Hone.
  - rewrite Htwo by done. apply both_ext; auto.
  - by rewrite Hone.
Qed.

(** What a model line accepts does not depend on the order its deployments
    are read in, and is exactly what all of them accept: a control is in the
    intersection when every statement accepts it, the tool-choice field when
    some value survives in every statement, and the result is already read as
    it is written, so it can never widen to every value. *)
Theorem IntersectParameterSets_meet a b statements statements' :
  (statements ≡ₚ statements' ->
   foldl IntersectParameterSets None statements = foldl IntersectParameterSets None statements') /\
  exists l, IntersectParameterSets (Some a) (Some b) = Some l /\ CanonicalParameterSet l = l /\
    (forall p, p <> ParameterToolChoice ->
       p ∈ l <-> p ∈ CanonicalParameterSet a /\ p ∈ CanonicalParameterSet b) /\
    (ParameterToolChoice ∈ l <->
       exists v, v ∈ ToolChoiceValues /\ v ∈ CanonicalParameterSet a /\ v ∈ CanonicalParameterSet b).
Proof.
  split.
  - intros Hp. generalize (@None (list string)) as acc.
    induction Hp as [|x l l' _ IH|x y l|l1 l2 l3 _ IH1 _ IH2]; intros acc; cbn [foldl].
    + done.
    + apply IH.
    + by rewrite !Intersect_assoc, (Intersect_comm x y).
    + by rewrite IH1.
  - eexists. split; [apply Intersect_two|]. split; [apply canonical_coherent, both_coherent|].
    unfold listed. split.
    + intros p Hp. rewrite <-!isMember_spec, !canonical_member, isMember_filter. unfold both.
      rewrite (proj2 (String.eqb_neq p _)) by done. unfold accepts. rewrite !andb_true_iff. tauto.
    + rewrite <-isMember_spec, isMember_filter. unfold both. rewrite String.eqb_refl.
      change (isMember ParameterToolChoice RequestParameters) with true. cbn [andb]. rewrite existsb_member.
      split; intros (v & H); exists v.
      * rewrite andb_true_iff, <-!canonical_member, !isMember_spec in H. by destruct H as (? & ? & ?).
      * rewrite andb_true_iff, <-!canonical_member, !isMember_spec. by destruct H as (? & ? & ?).
Qed.

Lemma IntersectParameterSets_meet_witness :
  foldl IntersectParameterSets None [Some [ParameterToolChoice]; None; Some [ParameterToolChoiceNone; "tools"]] =
  foldl IntersectParameterSets None [None; Some [ParameterToolChoice]; Some [ParameterToolChoiceNone; "tools"]].
Proof.
  apply (IntersectParameterSets_meet [] []). apply Permutation_swap.
Defined.
