(* ===== verification/Inventory.v ===== *)
(** * Deployment inventory (internal/inventory/inventory.go, store.go)

    A snapshot of which deployments serve which pinned model reference, how a
    reference resolves to routes, and the store that keeps the last good
    snapshot.  A decoded file stands for its JSON.  The catalogue's realtime
    and audio statements are not modelled. *)

From S2P Require Import Prelude Ids Text Contract Request ProviderCost Adapter Parameters.

(** ** Data *)

Definition DefaultMaxSnapshotAge : Duration := Hour.
Definition MaxDisplayNameLength : Z := 200.

Record Observed := mkObserved {
  DisplayName : option string;
  CreatedAt : option Timestamp;
  ContextTokens : option Z;
  obs_MaxOutputTokens : option Z;
  InputModalities : option (list string);
  OutputModalities : option (list string);
  SupportsTools : option bool;
  ReasoningEfforts : option (list string);
  AcceptedParameters : option (list string);
  obs_ListPrice : option ListPrice;
}.

(** One declared row. *)
Record Deployment := mkDeployment {
  d_DeploymentID : string;
  d_Provider : string;
  d_ModelReference : string;
  d_UpstreamModelID : string;
  d_Regions : list string;
  Current : bool;
  d_Observed : option Observed;
}.

Record Endpoint := mkEndpoint {
  ep_DeploymentID : string;
  ep_Provider : string;
  ep_UpstreamModelID : string;
  ep_Regions : list string;
  ep_Observed : option Observed;
}.

Record RouteSet := mkRouteSet { reference : string; endpoints : list Endpoint }.

Record Inventory := mkInventory {
  snapshotID : string;
  issuedAt : Instant;
  maxAge : Duration;
  byReference : gmap string RouteSet;
  currentOf : gmap string RouteSet;
}.

(** A decoded snapshot file; an absent [issuedAt] is [None]. *)
Record file := mkFile {
  file_SnapshotID : string;
  file_IssuedAt : option Timestamp;
  Deployments_ : list Deployment;
}.

(** ** Observations *)

Definition in_range_z (lo hi z : Z) : bool := (lo <=? z)%Z && (z <=? hi)%Z.

(** [unicode.IsControl]. *)
Definition IsControl (r : Z) : bool := in_range_z 0 31 r || in_range_z 127 159 r.

(** [utf8.ValidString]. *)
Definition ValidString (s : string) : bool :=
  forallb (fun r => negb ((r.1 =? RuneError)%Z && (r.2 =? 1)%Z)) (runes s).

Definition RuneCount (s : string) : Z := Z.of_nat (length (runes s)).

Definition modality_char (c : ascii) : bool :=
  in_byte_range 97 122 c || Ascii.eqb c "_" || Ascii.eqb c "-" || in_byte_range 48 57 c.

Definition ValidModality (m : string) : bool :=
  negb ((len m =? 0)%Z || (32 <? len m)%Z) && every modality_char m.

(** [sort.StringsAreSorted]. *)
Fixpoint StringsAreSorted (l : list string) : bool :=
  match l with
  | x :: (y :: _) as rest => negb (String.ltb y x) && StringsAreSorted rest
  | _ => true
  end.

Fixpoint validate_modalities_from (previous : option string) (l : list string) : option string :=
  match l with
  | [] => None
  | m :: rest =>
      refuse_if (negb (ValidModality m)) "is not a modality token" ;;
      refuse_if match previous with Some p => p =s m | None => false end "names a modality twice" ;;
      validate_modalities_from (Some m) rest
  end.

Definition validate_modalities (field : option (list string)) : option string :=
  match field with
  | None => None
  | Some l =>
      refuse_if match l with [] => true | _ => false end "must be omitted rather than empty" ;;
      refuse_if (negb (StringsAreSorted l)) "must be sorted" ;;
      validate_modalities_from None l
  end.

Fixpoint validate_efforts (seen efforts : list string) : option string :=
  match efforts with
  | [] => None
  | e :: rest =>
      refuse_if (negb (ReasoningEffort_Valid e)) "is not a reasoning effort" ;;
      refuse_if (isMember e seen) "names an effort twice" ;;
      validate_efforts (e :: seen) rest
  end.

Definition validate_name (name : string) : option string :=
  refuse_if ((name =s "") || negb (TrimSpace name =s name) || (MaxDisplayNameLength <? RuneCount name)%Z
             || negb (ValidString name)) "displayName must be trimmed and bounded" ;;
  refuse_if (existsb (fun r => IsControl r.1) (runes name)) "displayName must not contain control characters".

Definition positive (n : Z) : option string := refuse_if (n <=? 0)%Z "must be positive when present".

Definition Observed_Validate (o : Observed) : option string :=
  validate_some validate_name (DisplayName o) ;;
  validate_some (fun t => refuse_if (bool_decide (Timestamp_Time t = None)) "createdAt") (CreatedAt o) ;;
  validate_some positive (ContextTokens o) ;;
  validate_some positive (obs_MaxOutputTokens o) ;;
  validate_modalities (InputModalities o) ;;
  validate_modalities (OutputModalities o) ;;
  validate_some (validate_efforts []) (ReasoningEfforts o) ;;
  validate_some ValidateParameterSet (AcceptedParameters o) ;;
  validate_some ListPrice_Validate (obs_ListPrice o).

(** ** Parsing *)

Fixpoint validate_regions (seen regions : list string) : option string :=
  match regions with
  | [] => None
  | r :: rest =>
      refuse_if (negb (Region_Valid r)) "is not a region" ;;
      refuse_if (isMember r seen) "declares a region twice" ;;
      validate_regions (r :: seen) rest
  end.

Definition validate_deployment (d : Deployment) : option string :=
  refuse_if ((len (d_DeploymentID d) =? 0)%Z || (128 <? len (d_DeploymentID d))%Z)
    "deploymentId must contain between 1 and 128 characters" ;;
  refuse_if (negb (ProviderSlug_Valid (d_Provider d))) "is not a provider slug" ;;
  refuse_if (negb (ModelReference_Valid (d_ModelReference d))) "is not a model reference" ;;
  refuse_if (negb (Pinned (d_ModelReference d))) "must pin an immutable revision" ;;
  refuse_if (d_UpstreamModelID d =s "") "declares no upstream model id" ;;
  validate_some Observed_Validate (d_Observed d) ;;
  validate_regions [] (d_Regions d).

Definition endpoint_of (d : Deployment) : Endpoint :=
  mkEndpoint (d_DeploymentID d) (d_Provider d) (d_UpstreamModelID d) (d_Regions d) (d_Observed d).

(** The loop state: the sets, the ids seen, and each line's current revision. *)
Record ParseState := mkParse {
  p_byReference : gmap string RouteSet;
  seenIDs : list string;
  currentReference : gmap string string;
}.

Definition add_endpoint (d : Deployment) (sets : gmap string RouteSet) : gmap string RouteSet :=
  <[d_ModelReference d :=
      mkRouteSet (d_ModelReference d)
        (match sets !! d_ModelReference d with Some set => endpoints set | None => [] end ++ [endpoint_of d])]> sets.

Definition parse_deployment (s : ParseState) (d : Deployment) : option ParseState :=
  match validate_deployment d with
  | Some _ => None
  | None =>
      if isMember (d_DeploymentID d) (seenIDs s) then None
      else
        let sets := add_endpoint d (p_byReference s) in
        let ids := d_DeploymentID d :: seenIDs s in
        if Current d then
          let line := ModelID (d_ModelReference d) in
          if match currentReference s !! line with
             | Some existing => negb (existing =s d_ModelReference d)
             | None => false
             end
          then None
          else Some (mkParse sets ids (<[line := d_ModelReference d]> (currentReference s)))
        else Some (mkParse sets ids (currentReference s))
  end.

Fixpoint parse_deployments (s : ParseState) (ds : list Deployment) : option ParseState :=
  match ds with [] => Some s | d :: ds => s ← parse_deployment s d; parse_deployments s ds end.

Definition Parse (parsed : file) (age : Duration) : option Inventory :=
  if (age <=? 0)%Z then None
  else if match Deployments_ parsed with [] => true | _ => false end then None
  else if file_SnapshotID parsed =s "" then None
  else
    stamp ← file_IssuedAt parsed;
    at_ ← Timestamp_Time stamp;
    s ← parse_deployments (mkParse ∅ [] ∅) (Deployments_ parsed);
    Some (mkInventory (file_SnapshotID parsed) at_ age (p_byReference s)
            (omap (fun r => p_byReference s !! r) (currentReference s))).

(** ** Resolution *)

Definition acceptedParametersOf (o : option Observed) : option (list string) := o ← o; AcceptedParameters o.

Definition route_of (ref : string) (ep : Endpoint) : Route :=
  mkRoute (ep_DeploymentID ep) (ep_Provider ep) ref (ep_UpstreamModelID ep) (ep_Regions ep)
    (acceptedParametersOf (ep_Observed ep)) None None.

Definition Candidates (s : RouteSet) : list Route := map (route_of (reference s)) (endpoints s).

Inductive ResolveError := ErrNoRoute | ErrSnapshotTooStale.

Definition Age (i : Inventory) (at_ : Instant) : Duration := Sub at_ (issuedAt i).
Definition ServesUnpinned (i : Inventory) (at_ : Instant) : bool := (Age i at_ <=? maxAge i)%Z.

Definition Resolve (ref : string) (at_ : Instant) (i : Inventory) : RouteSet + ResolveError :=
  match byReference i !! ref with
  | Some set => inl set
  | None =>
      if Pinned ref then inr ErrNoRoute
      else if negb (ServesUnpinned i at_) then inr ErrSnapshotTooStale
      else match currentOf i !! ModelID ref with Some set => inl set | None => inr ErrNoRoute end
  end.

Definition all_sets (i : Inventory) : list RouteSet := (map_to_list (byReference i)).*2.

(** [Inventory.Deployment]; [None] is absent or ambiguous. *)
Definition Inventory_Deployment (id : string) (i : Inventory) : option Route :=
  match List.filter (fun r => r_DeploymentID r =s id) (concat (map Candidates (all_sets i))) with
  | [r] => Some r
  | _ => None
  end.

(** [Deployments]: one endpoint per id, sorted. *)
Definition Deployments (i : Inventory) : list Endpoint :=
  let seen := foldl (fun m ep => <[ep_DeploymentID ep := ep]> m) (∅ : gmap string Endpoint)
                (concat (map endpoints (all_sets i))) in
  sort_by ep_DeploymentID (map_to_list seen).*2.

Record DeploymentDescriptor := mkDescriptor {
  desc_DeploymentID : string;
  desc_ModelReference : string;
  desc_Provider : string;
  desc_Regions : list string;
  desc_AcceptedParameters : option (list string);
}.

Definition descriptor_of (ref : string) (ep : Endpoint) : DeploymentDescriptor :=
  mkDescriptor (ep_DeploymentID ep) ref (ep_Provider ep) (ep_Regions ep) (acceptedParametersOf (ep_Observed ep)).

Definition DeploymentDescriptors (i : Inventory) : list DeploymentDescriptor :=
  sort_by desc_DeploymentID
    (concat (map (fun set => map (descriptor_of (reference set)) (endpoints set)) (all_sets i))).

Definition PinnedOnlyReferences (i : Inventory) : list string :=
  let current := map reference (map_to_list (currentOf i)).*2 in
  sort_by id
    (map fst (filter (fun rs => endpoints rs.2 <> [] /\ rs.1 ∉ current) (map_to_list (byReference i)))).

Definition Providers (i : Inventory) : list string :=
  sort_by id (remove_dups (map ep_Provider (Deployments i))).

(** ** The store (store.go)

    What is served, and whether the last reload failed. *)

Record Store := mkStore { current : Inventory; store_maxAge : Duration; lastReloadFailed : bool }.

Definition store_age (configured : Duration) : Duration :=
  if (configured <=? 0)%Z then DefaultMaxSnapshotAge else configured.

(** [NewStore]; [read] is the decoded file, [None] when it cannot be read. *)
Definition NewStore (configured : Duration) (read : option file) : option Store :=
  f ← read; loaded ← Parse f (store_age configured); Some (mkStore loaded (store_age configured) false).

Definition reloadFailed (s : Store) : Store := mkStore (current s) (store_maxAge s) true.

(** [ReloadValidated]; [validate] is [None] when nothing is checked.  True is
    the success answer. *)
Definition ReloadValidated (validate : option (Inventory -> bool)) (read : option file) (s : Store) : bool * Store :=
  match read with
  | None => (false, reloadFailed s)
  | Some f =>
      match Parse f (store_maxAge s) with
      | None => (false, reloadFailed s)
      | Some loaded =>
          if match validate with Some check => negb (check loaded) | None => false end then (false, reloadFailed s)
          else (true, mkStore loaded (store_maxAge s) false)
      end
  end.

(** ** Lemmas *)

(** The rows of a file for one reference, in file order. *)
Definition declared (ref : string) (ds : list Deployment) : list Deployment :=
  filter (fun d => d_ModelReference d = ref) ds.

Definition set_for (ref : string) (ds : list Deployment) : RouteSet :=
  mkRouteSet ref (map endpoint_of (declared ref ds)).

(** The current revision a file declares for a model line. *)
Definition is_current (ds : list Deployment) (line ref : string) : Prop :=
  exists d, d ∈ ds /\ Current d = true /\ ModelID (d_ModelReference d) = line /\ d_ModelReference d = ref.

Definition all_routes (sets : gmap string RouteSet) : list (string * Endpoint) :=
  concat (map (fun rs => map (pair (reference rs.2)) (endpoints rs.2)) (map_to_list sets)).

Record parsed_ok (ds : list Deployment) (s : ParseState) : Prop := {
  po_sets : forall ref, p_byReference s !! ref =
    match declared ref ds with [] => None | _ => Some (set_for ref ds) end;
  po_ids : NoDup (d_DeploymentID <$> ds);
  po_seen : forall id, id ∈ seenIDs s <-> id ∈ d_DeploymentID <$> ds;
  po_current : forall line ref, currentReference s !! line = Some ref <-> is_current ds line ref;
  po_valid : Forall (fun d => validate_deployment d = None) ds;
  po_routes : all_routes (p_byReference s) ≡ₚ map (fun d => (d_ModelReference d, endpoint_of d)) ds;
}.

Lemma map_to_list_update {A} (m : gmap string A) k v0 v :
  m !! k = Some v0 ->
  exists l, map_to_list m ≡ₚ (k, v0) :: l /\ map_to_list (<[k := v]> m) ≡ₚ (k, v) :: l.
Proof.
  intros Hk. exists (map_to_list (delete k m)). split.
  - rewrite <-(insert_delete_id m k v0 Hk) at 1. rewrite map_to_list_insert; [done|]. apply lookup_delete_eq.
  - rewrite <-insert_delete_eq. rewrite map_to_list_insert; [done|]. apply lookup_delete_eq.
Qed.

Lemma all_routes_add d sets :
  (forall ref set, sets !! ref = Some set -> reference set = ref) ->
  all_routes (add_endpoint d sets) ≡ₚ all_routes sets ++ [(d_ModelReference d, endpoint_of d)].
Proof.
  intros Hwf. unfold all_routes, add_endpoint. destruct (sets !! d_ModelReference d) as [set|] eqn:E.
  - destruct (map_to_list_update sets _ set (mkRouteSet (d_ModelReference d) (endpoints set ++ [endpoint_of d])) E)
      as (l & H1 & H2).
    rewrite H1, H2. cbn [map concat]. cbn. rewrite (Hwf _ _ E), map_app. cbn.
    rewrite <-!app_assoc. apply Permutation_app_head. cbn. apply Permutation_cons_append.
  - rewrite map_to_list_insert by done. cbn. apply Permutation_cons_append.
Qed.

Lemma declared_snoc ref ds d :
  declared ref (ds ++ [d]) = declared ref ds ++ (if decide (d_ModelReference d = ref) then [d] else []).
Proof. unfold declared. rewrite filter_app, filter_cons, filter_nil. done. Qed.

Lemma parse_deployment_ok ds s d s' :
  parsed_ok ds s -> parse_deployment s d = Some s' -> parsed_ok (ds ++ [d]) s'.
Proof.
  intros [Hsets Hids Hseen Hcur Hval Hroutes]. unfold parse_deployment.
  destruct (validate_deployment d) eqn:Ev; [done|].
  destruct (isMember _ _) eqn:Em; [done|]. apply isMember_false in Em. rewrite Hseen in Em.
  set (sets := add_endpoint d (p_byReference s)).
  assert (forall ref, sets !! ref = match declared ref (ds ++ [d]) with [] => None | _ => Some (set_for ref (ds ++ [d])) end) as Hsets'.
  { intros ref. unfold sets, add_endpoint, set_for. rewrite declared_snoc.
    destruct (decide (d_ModelReference d = ref)) as [<-|Hne].
    - rewrite lookup_insert_eq, Hsets. unfold set_for.
      destruct (declared (d_ModelReference d) ds) as [|x l]; [done|]. cbn. by rewrite map_app.
    - rewrite lookup_insert_ne, Hsets, app_nil_r by done. done. }
  assert (all_routes sets ≡ₚ map (fun d => (d_ModelReference d, endpoint_of d)) (ds ++ [d])) as Hroutes'.
  { unfold sets. rewrite all_routes_add, Hroutes, map_app; [done|]. intros ref set. rewrite Hsets.
    destruct (declared ref ds); [done|]. by intros [= <-]. }
  assert (NoDup (d_DeploymentID <$> ds ++ [d])) as Hids'.
  { rewrite fmap_app. apply NoDup_app. split; [done|]. split; [|apply NoDup_singleton].
    by intros id Hid ->%list_elem_of_singleton. }
  assert (forall id, id ∈ d_DeploymentID d :: seenIDs s <-> id ∈ d_DeploymentID <$> ds ++ [d]) as Hseen'.
  { intros id. rewrite fmap_app, elem_of_app, elem_of_cons, Hseen. change (d_DeploymentID <$> [d]) with [d_DeploymentID d].
    rewrite list_elem_of_singleton. tauto. }
  assert (Forall (fun d => validate_deployment d = None) (ds ++ [d])) as Hval'.
  { apply Forall_app. by split; [|constructor]. }
  assert (forall line ref, is_current (ds ++ [d]) line ref <->
    is_current ds line ref \/ (Current d = true /\ ModelID (d_ModelReference d) = line /\ d_ModelReference d = ref)) as Hcur'.
  { intros line ref. unfold is_current. split.
    - intros (x & Hin & Hx). apply elem_of_app in Hin as [Hin| ->%list_elem_of_singleton]; [left; by exists x|by right].
    - intros [(x & Hin & Hx)|Hd]; [exists x|exists d]; (split; [apply elem_of_app|done]); [by left|right].
      by apply list_elem_of_singleton. }
  destruct (Current d) eqn:Ec.
  - destruct (match currentReference s !! _ with Some existing => _ | None => false end) eqn:Eamb; [done|]. intros [= <-].
    constructor; cbn; try done. intros line ref. rewrite Hcur', lookup_insert_Some, Hcur. split.
    + intros [[<- <-]|[Hne H]]; auto.
    + intros [H|(_ & <- & <-)]; [|by left]. destruct (decide (ModelID (d_ModelReference d) = line)) as [<-|Hne]; [|by right].
      left. split; [done|]. apply Hcur in H. rewrite H in Eamb. bool_cases. congruence.
  - intros [= <-]. constructor; cbn; try done. intros line ref. rewrite Hcur', Hcur. intuition congruence.
Qed.

Lemma parse_deployments_ok ds0 s ds s' :
  parsed_ok ds0 s -> parse_deployments s ds = Some s' -> parsed_ok (ds0 ++ ds) s'.
Proof.
  revert ds0 s. induction ds as [|d ds IH]; intros ds0 s Hok; cbn [parse_deployments].
  { intros [= <-]. by rewrite app_nil_r. }
  destruct (parse_deployment s d) as [s1|] eqn:E; [|done]. cbn [mbind option_bind]. intros H.
  apply (parse_deployment_ok _ _ _ _ Hok) in E. apply (IH _ _ E) in H. by rewrite <-app_assoc in H.
Qed.

Lemma Parse_ok f age i :
  Parse f age = Some i ->
  exists s, parsed_ok (Deployments_ f) s /\ byReference i = p_byReference s /\
    currentOf i = omap (fun r => p_byReference s !! r) (currentReference s) /\
    maxAge i = age /\ (0 < age)%Z /\ Deployments_ f <> [] /\
    exists stamp, file_IssuedAt f = Some stamp /\ Timestamp_Time stamp = Some (issuedAt i).
Proof.
  unfold Parse. destruct (age <=? 0)%Z eqn:Ea; [done|]. destruct (Deployments_ f) as [|d ds] eqn:Ed; [done|].
  destruct (_ =s ""); [done|]. destruct (file_IssuedAt f) as [stamp|]; [|done]. cbn [mbind option_bind].
  destruct (Timestamp_Time stamp) as [at_|] eqn:Et; [|done]. cbn [mbind option_bind].
  destruct (parse_deployments _ _) as [s|] eqn:Es; [|done]. cbn [mbind option_bind]. intros [= <-]. bool_cases.
  exists s. split; [|do 5 (split; [done|]); by exists stamp].
  apply (parse_deployments_ok []) in Es; [done|]. constructor; cbn; try done.
  - constructor.
  - intros line ref. rewrite lookup_empty. split; [done|]. by intros (? & ?%elem_of_nil & _).
Qed.

Lemma deployments_pinned ds s d : parsed_ok ds s -> d ∈ ds -> Pinned (d_ModelReference d) = true.
Proof.
  intros Hok Hin. pose proof (po_valid _ _ Hok) as Hv. rewrite Forall_forall in Hv. specialize (Hv d Hin).
  unfold validate_deployment in Hv. checks. destruct_and!. by destruct (Pinned (d_ModelReference d)).
Qed.

Lemma declared_nonempty ref ds d : d ∈ declared ref ds <-> d ∈ ds /\ d_ModelReference d = ref.
Proof. unfold declared. rewrite list_elem_of_filter. tauto. Qed.

(** Resolution substitutes nothing.  From any accepted snapshot, at any
    instant, a pinned reference resolves, whatever the snapshot's age, to
    exactly the rows declared for that very revision, in file order, or to
    nothing; an unpinned one resolves only while the snapshot is within its
    horizon, to the rows of the one revision the file marks current for its
    model line.  Every candidate route carries the resolved revision. *)
Theorem Resolve_exact f age i ref at_ set :
  Parse f age = Some i ->
  (Resolve ref at_ i = inl set <->
   (Pinned ref = true /\ declared ref (Deployments_ f) <> [] /\ set = set_for ref (Deployments_ f)) \/
   (Pinned ref = false /\ (Age i at_ <= age)%Z /\
    exists cur, is_current (Deployments_ f) (ModelID ref) cur /\ set = set_for cur (Deployments_ f))) /\
  Forall (fun r => r_ModelReference r = reference set /\ r_CustomerProviderCredential r = None) (Candidates set).
Proof.
  intros (s & Hok & Hby & Hcur & Hage & _ & _ & _)%Parse_ok. split.
  2:{ unfold Candidates. rewrite Forall_map. apply Forall_true. intros ep. done. }
  pose proof Hok as [Hsets _ _ Hcurrent _ _]. unfold Resolve, ServesUnpinned. rewrite Hby, Hsets, Hcur, Hage.
  assert (forall r, is_current (Deployments_ f) (ModelID ref) r -> declared r (Deployments_ f) <> []) as Hne.
  { intros r (d & Hin & _ & _ & Hr) Hnil. assert (d ∈ declared r (Deployments_ f)) as H by by apply declared_nonempty.
    rewrite Hnil in H. by apply elem_of_nil in H. }
  destruct (Pinned ref) eqn:Ep.
  - destruct (declared ref (Deployments_ f)) as [|d l] eqn:Ed.
    + split; [done|]. by intros [(_ & ? & _)|(? & _)].
    + split; [intros [= <-]; by left|]. by intros [(_ & _ & ->)|(? & _)].
  - assert (declared ref (Deployments_ f) = []) as ->.
    { destruct (declared ref (Deployments_ f)) as [|d l] eqn:Ed; [done|].
      assert (d ∈ declared ref (Deployments_ f)) as [Hin Hr]%declared_nonempty by (rewrite Ed; apply elem_of_cons; by left).
      apply (deployments_pinned _ _ _ Hok) in Hin. congruence. }
    rewrite lookup_omap. destruct (Age i at_ <=? age)%Z eqn:Ea; bool_cases; cbn [negb].
    + destruct (currentReference s !! ModelID ref) as [cur|] eqn:Ec; cbn [mbind option_bind].
      * apply Hcurrent in Ec as Hc. rewrite Hsets. specialize (Hne _ Hc).
        destruct (declared cur (Deployments_ f)) as [|d l] eqn:Ed; [done|]. split.
        -- intros [= <-]. right. split; [done|]. split; [done|]. by exists cur.
        -- intros [(? & _)|(_ & _ & cur' & Hc' & ->)]; [done|]. apply Hcurrent in Hc'. congruence.
      * split; [done|]. intros [(? & _)|(_ & _ & cur & Hc & _)]; [done|]. apply Hcurrent in Hc. congruence.
    + split; [done|]. intros [(? & _)|(_ & ? & _)]; [done|lia].
Qed.

Definition example_row : Deployment := mkDeployment "dep" "acme" "acme/m@1" "m-1" ["eu-west"] true None.
Definition example_file : file := mkFile "snap" (Some (Spells 1000)) [example_row].
Definition example_inventory : Inventory :=
  mkInventory "snap" 1000 Hour {["acme/m@1" := set_for "acme/m@1" [example_row]]}
    {["acme/m" := set_for "acme/m@1" [example_row]]}.

Lemma Resolve_exact_witness :
  Parse example_file Hour = Some example_inventory /\
  Resolve "acme/m" 2000 example_inventory = inl (set_for "acme/m@1" [example_row]).
Proof.
  split; [vm_compute; reflexivity|].
  apply (Resolve_exact example_file Hour example_inventory "acme/m" 2000); [vm_compute; reflexivity|].
  right. split; [reflexivity|]. split; [by vm_compute|]. exists "acme/m@1". split; [|reflexivity].
  exists example_row. split; [by apply list_elem_of_singleton|]. by split_and!.
Defined.

Lemma routes_of_sets i :
  concat (map Candidates (all_sets i)) = map (fun re => route_of re.1 re.2) (all_routes (byReference i)).
Proof.
  unfold all_sets, all_routes. rewrite concat_map, !map_map. f_equal. unfold fmap, list_fmap.
  induction (map_to_list (byReference i)) as [|[k set] l IH]; [done|]. cbn [map]. rewrite IH. f_equal.
  unfold Candidates. rewrite map_map. done.
Qed.

Lemma descriptors_of_sets i :
  concat (map (fun set => map (descriptor_of (reference set)) (endpoints set)) (all_sets i)) =
  map (fun re => descriptor_of re.1 re.2) (all_routes (byReference i)).
Proof.
  unfold all_sets, all_routes. rewrite concat_map, !map_map. f_equal.
  induction (map_to_list (byReference i)) as [|[k set] l IH]; [done|]. cbn [map fmap list_fmap]. rewrite <-IH. f_equal.
  rewrite map_map. done.
Qed.

(** At most one element of a list has a key of which it has no duplicate. *)
Lemma filter_unique {A} (key : A -> string) id l :
  NoDup (key <$> l) ->
  match List.filter (fun x => key x =s id) l with
  | [] => forall x, x ∈ l -> key x <> id
  | [x] => forall y, y ∈ l /\ key y = id <-> y = x
  | _ => False
  end.
Proof.
  induction l as [|x l IH]; intros Hnd; [by intros ? ?%elem_of_nil|].
  rewrite fmap_cons in Hnd. apply NoDup_cons in Hnd as [Hx Hnd]. specialize (IH Hnd). cbn [List.filter].
  destruct (key x =s id) eqn:E; bool_cases.
  - assert (forall y, y ∈ l -> key y <> id) as Hno.
    { intros y Hy Hk. apply Hx. rewrite E, <-Hk. by apply list_elem_of_fmap_2. }
    destruct (List.filter _ l) as [|y [|]]; [|destruct (proj2 (IH y) eq_refl) as [H1 H2]; by apply Hno in H2|done].
    intros y. rewrite elem_of_cons. split; [intros [[->|Hy] Hk]; [done|by apply Hno in Hk]|intros ->; auto].
  - destruct (List.filter _ l) as [|y [|]]; [| |done].
    + intros y [->|Hy]%elem_of_cons; auto.
    + intros z. rewrite <-(IH z), elem_of_cons. split; [intros [[->|Hz] Hk]; [done|done]|intros [Hz Hk]; auto].
Qed.

(** A snapshot neither loses nor invents a deployment: the operator's list
    holds exactly one descriptor per row of the file, with that row's
    reference, provider and regions, sorted by id; and looking an id up finds
    a route precisely when a row declares the id, and then exactly that
    row's. *)
Theorem deployments_are_the_rows f age i id r :
  Parse f age = Some i ->
  DeploymentDescriptors i ≡ₚ map (fun d => descriptor_of (d_ModelReference d) (endpoint_of d)) (Deployments_ f) /\
  Sorted (key_le desc_DeploymentID) (DeploymentDescriptors i) /\
  NoDup (desc_DeploymentID <$> DeploymentDescriptors i) /\
  (Inventory_Deployment id i = Some r <->
   exists d, d ∈ Deployments_ f /\ d_DeploymentID d = id /\ r = route_of (d_ModelReference d) (endpoint_of d)).
Proof.
  intros (s & Hok & Hby & _)%Parse_ok. pose proof Hok as [_ Hids _ _ _ Hroutes]. rewrite <-Hby in Hroutes.
  assert (DeploymentDescriptors i ≡ₚ map (fun d => descriptor_of (d_ModelReference d) (endpoint_of d)) (Deployments_ f)) as Hd.
  { unfold DeploymentDescriptors. rewrite sort_by_permutation, descriptors_of_sets, Hroutes, map_map. done. }
  split; [done|]. split; [apply sort_by_sorted|]. split.
  { rewrite Hd. change (map ?g ?l) with (g <$> l). rewrite <-list_fmap_compose. exact Hids. }
  unfold Inventory_Deployment. rewrite routes_of_sets.
  assert (map (fun re => route_of re.1 re.2) (all_routes (byReference i)) ≡ₚ
    map (fun d => route_of (d_ModelReference d) (endpoint_of d)) (Deployments_ f)) as Hr by by rewrite Hroutes, map_map.
  set (l := map _ (all_routes _)) in *. clearbody l.
  assert (NoDup (r_DeploymentID <$> l)) as Hnd.
  { rewrite Hr. change (map ?g ?l) with (g <$> l). rewrite <-list_fmap_compose. exact Hids. }
  pose proof (filter_unique r_DeploymentID id l Hnd) as Huniq.
  assert (forall r, r ∈ l /\ r_DeploymentID r = id <->
    exists d, d ∈ Deployments_ f /\ d_DeploymentID d = id /\ r = route_of (d_ModelReference d) (endpoint_of d)) as Hmem.
  { intros x. rewrite Hr. change (map ?g ?l) with (g <$> l). rewrite list_elem_of_fmap. split.
    - intros [(d & -> & Hin) Hid]. by exists d.
    - intros (d & Hin & Hid & ->). split; [by exists d|done]. }
  rewrite <-Hmem. destruct (List.filter _ l) as [|x [|y m]]; [| |done].
  - split; [done|]. intros [Hin Hk]. by apply Huniq in Hin.
  - rewrite Huniq. split; [by intros [= ->]|by intros ->].
Qed.

Lemma deployments_are_the_rows_witness :
  Parse example_file Hour = Some example_inventory /\
  Inventory_Deployment "dep" example_inventory = Some (route_of "acme/m@1" (endpoint_of example_row)).
Proof.
  split; [vm_compute; reflexivity|].
  apply (deployments_are_the_rows example_file Hour example_inventory "dep"); [vm_compute; reflexivity|].
  exists example_row. split; [by apply list_elem_of_singleton|]. by split_and!.
Defined.

(** A failed reload changes nothing that is served: after any sequence of
    reloads the snapshot in force is the one of the last reload that
    succeeded, whole, or the first snapshot when none did. *)
Theorem last_good_snapshot_is_served reads s :
  current (foldl (fun s r => (ReloadValidated r.1 r.2 s).2) s reads) =
  default (current s)
    (last (omap (fun r => f ← r.2; loaded ← Parse f (store_maxAge s);
                          if match r.1 with Some check => check loaded | None => true end
                          then Some loaded else None) reads)).
Proof.
  assert (forall v r s, store_maxAge (ReloadValidated v r s).2 = store_maxAge s) as Hage.
  { intros v r s0. unfold ReloadValidated. destruct r as [f|]; [|done]. destruct (Parse f _); [|done].
    by destruct (match v with Some _ => _ | None => false end). }
  revert s. induction reads as [|[v r] reads IH]; intros s; [done|]. cbn [foldl omap list_omap].
  rewrite IH, Hage. cbn [fst snd]. unfold ReloadValidated. destruct r as [f|]; cbn [mbind option_bind]; [|done].
  destruct (Parse f (store_maxAge s)) as [loaded|]; cbn [mbind option_bind]; [|done].
  destruct v as [check|]; [destruct (check loaded); cbn [negb]|]; cbn [snd current]; try done.
  all: set (l := omap _ _); rewrite last_cons; by destruct (last l).
Qed.
