(* ===== verification/Retry.v ===== *)
(** * Failure classification and the retry policy (internal/kaana/executor.go)

    How an attempt's error is read: as a cancellation, as a failure the same
    route could survive, as the reason of a route switch, as the error the
    customer is shown; and how long the request waits before trying the route
    again. *)

From S2P Require Import Prelude CustomerLimit.
From S2P Require Import Contract Request Provider ProviderCost Adapter.

Definition ErrClientGone : GoError := Sentinel "kaana: the event sink is gone".

(** [isCancellation]; [ctx_cancelled] says whether the context's own error is
    a cancellation. *)
Definition isCancellation (ctx_cancelled : bool) (err : GoError) : bool :=
  Is err "context canceled" || Is err "kaana: the event sink is gone" || ctx_cancelled.

(** ** Retries on the same route *)

Record RetryPolicy := mkRetryPolicy { MaxRetriesPerRoute : Z; Backoff : Duration; RetryBudget : Duration }.

Definition DefaultRetryPolicy : RetryPolicy := mkRetryPolicy 2 Second (15 * Second).

(** [transientFailure]: the provider's own Retry-After when the failure is
    transient. *)
Definition transientFailure (err : GoError) : option Duration :=
  if negb (DeploymentAttributable err) then None
  else match AsUpstream err with
  | None => None
  | Some upstream =>
      if RecursOnThisRoute upstream then None
      else
        let retryAfter := wrap64 (RetryAfterMs upstream * Millisecond) in
        if (Category upstream =s UpstreamQuota) || (Category upstream =s UpstreamAuthentication) then None
        else if (Code upstream =s CodeRateLimited) || (Code upstream =s CodeProviderOverloaded)
                || (Code upstream =s CodeProviderTimeout)
        then Some retryAfter
        else if Code upstream =s CodeProviderError
        then if Category upstream =s UpstreamServerError then Some retryAfter else None
        else None
  end.

(** [RetryPolicy.next]; [jitter n] is the random draw below [n]. *)
Definition next (jitter : Duration -> Duration) (err : GoError) (retried : Z) (waited : Duration) (p : RetryPolicy)
    : option Duration :=
  if (MaxRetriesPerRoute p <=? retried)%Z then None
  else match transientFailure err with
  | None => None
  | Some retryAfter =>
      let wait := wrap64 (Z.shiftl (Backoff p) retried) in
      let half := Z.quot wait 2 in
      let wait := if (0 <? half)%Z then wrap64 (half + jitter (wrap64 (wait - half + 1))) else wait in
      let wait := Z.max wait retryAfter in
      if (RetryBudget p <? wrap64 (waited + wait))%Z then None else Some wait
  end.

(** ** What the customer is told *)

Definition switchReason (err : GoError) : string :=
  match AsUpstream err with
  | None => SwitchProviderError
  | Some upstream =>
      if Category upstream =s UpstreamRateLimit then SwitchRateLimited
      else if Category upstream =s UpstreamQuota then SwitchCapacity
      else if Category upstream =s UpstreamTimeout then SwitchProviderTimeout
      else if Category upstream =s UpstreamOverloaded then SwitchProviderOverloaded
      else SwitchProviderError
  end.

Definition translationFailure (requestID : string) (err : GoError) : Error :=
  match AsUnsupported err with
  | Some (code, param) =>
      let failure := NewError requestID code in
      if param =s "" then failure else WithParam param failure
  | None => NewError requestID CodeInvalidRequest
  end.

Definition upstreamFailure (requestID slug : string) (err : GoError) : Error :=
  match AsCustomerCredential err with
  | Some _ => NewError requestID CodeBYOKCredentialInvalid
  | None =>
      match AsUpstream err with
      | Some upstream => ContractError requestID upstream
      | None =>
          if Is err "context deadline exceeded"
          then WithUpstream UpstreamTimeout None (NewError requestID CodeProviderTimeout)
          else WithUpstream UpstreamUnknown (Some (mkPassthrough slug None None)) (NewError requestID CodeProviderError)
      end
  end.

Definition customerCredentialRefusal (requestID : string) (refusal : Refusal) : Error :=
  if decide (refusal_reason refusal = ReasonThrottled) then
    let failure := WithUpstream UpstreamRateLimit None (NewError requestID CodeRateLimited) in
    if (0 <? RetryAfter refusal)%Z then
      let milliseconds := Milliseconds (RetryAfter refusal) in
      WithRetryAfter (if (milliseconds =? 0)%Z then 1 else milliseconds) failure
    else failure
  else NewError requestID CodeBYOKCredentialInvalid.

(** [reportCustomerLimitOutcome]. *)
Definition reportCustomerLimitOutcome (now : Instant) (permit : option CustomerLimit.Permit) (err : option GoError)
    (r : gmap CustomerCredentialScope entry) : gmap CustomerCredentialScope entry :=
  match err with
  | None => (CustomerLimit.Succeeded now permit r).2
  | Some err =>
      match AsCustomerCredential err with
      | Some _ => (CustomerLimit.Rejected now permit r).2
      | None =>
          match AsCustomerUpstream err with
          | Some failure =>
              if Code failure =s CodeRateLimited
              then (CustomerLimit.Throttled now (wrap64 (RetryAfterMs failure * Millisecond)) permit r).2
              else (CustomerLimit.NotAttributable now permit r).2
          | None => (CustomerLimit.NotAttributable now permit r).2
          end
      end
  end.

(** The selector of the customer credential a route is bound to. *)
Definition customerCredentialScope (slug : string) (binding : CustomerProviderCredential) : CustomerCredentialScope :=
  mkScope (mkIdentity slug (binding_OwnerAccountID binding) (binding_ConnectionID binding) (binding_Environment binding))
    (binding_CredentialHandle binding) (CredentialRevision binding).

(** [reportCustomerCredentialValidation]: the verdict submitted on the exact
    connection generation, if any; true is valid. *)
Definition credentialVerdict (binding : option CustomerProviderCredential) (err : option GoError) : option bool :=
  match binding with
  | None => None
  | Some _ =>
      match err with
      | None => Some true
      | Some err =>
          match AsCustomerCredential err with
          | None => None
          | Some code => if code =s CodeProviderCredentialInvalid then Some false else None
          end
      end
  end.

(** [attemptTelemetry]; [latency] is the monotonic time since [clock]. *)
Definition attemptTelemetry (ctx_cancelled : bool) (requestID slug : string) (err : option GoError)
    (startedAt clock firstOutputAt : Instant) (latency : Duration) : AttemptTelemetry :=
  let first :=
    if negb (IsZero firstOutputAt) && negb (Before firstOutputAt clock)
    then Z.min (Sub firstOutputAt clock) latency else 0%Z in
  match err with
  | None => mkTelemetry startedAt latency first AttemptSucceeded ""
  | Some err =>
      if isCancellation ctx_cancelled err then mkTelemetry startedAt latency first AttemptCancelled ""
      else mkTelemetry startedAt latency first AttemptFailed (err_Code (upstreamFailure requestID slug err))
  end.

(** ** Lemmas *)

Lemma AttributableCategory_spec c :
  AttributableCategory c = true <->
  c = UpstreamRateLimit \/ c = UpstreamQuota \/ c = UpstreamTimeout \/ c = UpstreamOverloaded \/
  c = UpstreamServerError \/ c = UpstreamAuthentication.
Proof.
  split.
  - unfold AttributableCategory. intros H. destruct (_ || _) eqn:E in H; [|case_match; discriminate].
    rewrite !orb_true_iff, !String.eqb_eq in E. tauto.
  - by intros [-> | [-> | [-> | [-> | [-> | ->]]]]].
Qed.

(** What is retried on the same route: exactly a failure blamed on the
    deployment, that does not recur there, and whose code is a rate limit, an
    overload or a timeout (of no quota or authentication verdict), or a server
    error; in particular never a customer credential's own failure, a
    cancellation, or an error no adapter classified. *)
Theorem transientFailure_spec err retryAfter :
  transientFailure err = Some retryAfter <->
  exists upstream, AsUpstream err = Some upstream /\ AsCustomerUpstream err = None /\
    retryAfter = wrap64 (RetryAfterMs upstream * Millisecond) /\ RecursOnThisRoute upstream = false /\
    (((Category upstream = UpstreamRateLimit \/ Category upstream = UpstreamTimeout \/
       Category upstream = UpstreamOverloaded \/ Category upstream = UpstreamServerError) /\
      (Code upstream = CodeRateLimited \/ Code upstream = CodeProviderOverloaded \/ Code upstream = CodeProviderTimeout)) \/
     (Category upstream = UpstreamServerError /\ Code upstream = CodeProviderError)).
Proof.
  unfold transientFailure, DeploymentAttributable.
  destruct (AsCustomerUpstream err) as [c|]; [split; [done|]; by intros (? & _ & ? & _)|].
  destruct (AsUpstream err) as [u|]; [|split; [done|]; by intros (? & ? & _)].
  split.
  - intros H. exists u. split; [done|]. split; [done|].
    destruct (AttributableCategory (Category u)) eqn:Ha; [|discriminate H].
    apply AttributableCategory_spec in Ha. cbn [negb] in H.
    destruct (RecursOnThisRoute u); [discriminate H|].
    destruct Ha as [Ha|[Ha|[Ha|[Ha|[Ha|Ha]]]]]; rewrite Ha in H |- *; cbn in H; try discriminate H;
      destruct (_ || _) eqn:E in H; try (destruct (_ =s _) eqn:F in H); simplify_eq;
      rewrite ?orb_true_iff, ?String.eqb_eq in *; tauto.
  - intros (u' & [= <-] & _ & -> & -> & H). destruct H as [[Hc Hk]|[Hc Hk]].
    + destruct Hc as [Hc|[Hc|[Hc|Hc]]], Hk as [Hk|[Hk|Hk]]; rewrite Hc, Hk; reflexivity.
    + rewrite Hc, Hk. reflexivity.
Qed.

(** The random draw a wait uses: [mathrand.N] answers below its argument. *)
Definition draws (jitter : Duration -> Duration) : Prop :=
  forall n, (0 < n)%Z -> (0 <= jitter n < n)%Z.

(** The wait drawn between half the doubled backoff and the whole of it. *)
Lemma jittered_bounds jitter w :
  draws jitter -> (0 <= w < int64_max)%Z ->
  (Z.quot w 2 <= (if (0 <? Z.quot w 2)%Z then wrap64 (Z.quot w 2 + jitter (wrap64 (w - Z.quot w 2 + 1))) else w) <= w)%Z.
Proof.
  intros Hj Hw. assert (Hq : Z.quot w 2 = (w / 2)%Z) by (apply Z.quot_div_nonneg; lia).
  rewrite Hq. pose proof (Z.div_mod w 2 ltac:(lia)) as Hd. pose proof (Z.mod_pos_bound w 2 ltac:(lia)) as Hm.
  unfold int64_max in Hw. destruct (0 <? w / 2)%Z eqn:E; bool_cases; [|lia].
  rewrite (wrap64_id (w - w / 2 + 1)) by (unfold in_int64, int64_min, int64_max; lia).
  specialize (Hj (w - w / 2 + 1)%Z ltac:(lia)).
  rewrite wrap64_id by (unfold in_int64, int64_min, int64_max; lia). lia.
Qed.

(** A retry on the same route: the route has retries left, the failure is
    transient, the wait is at least the provider's Retry-After and at least half
    the backoff doubled for every earlier retry, and what the request has waited
    with it stays within the budget; and a transient failure whose longest wait
    the budget has room for is always retried. The durations are those that fit
    the machine integers the code computes them in. *)
Theorem next_respects_the_policy jitter err retried waited p retryAfter :
  draws jitter -> (0 <= retried)%Z -> (0 <= Backoff p)%Z ->
  transientFailure err = Some retryAfter ->
  (0 <= waited)%Z -> (waited + Z.max (Backoff p * 2 ^ retried) retryAfter < int64_max)%Z ->
  (forall wait, next jitter err retried waited p = Some wait ->
    (retried < MaxRetriesPerRoute p)%Z /\ (retryAfter <= wait)%Z /\
    (Z.quot (Backoff p * 2 ^ retried) 2 <= wait)%Z /\
    (wait <= Z.max (Backoff p * 2 ^ retried) retryAfter)%Z /\ (waited + wait <= RetryBudget p)%Z) /\
  ((retried < MaxRetriesPerRoute p)%Z -> (waited + Z.max (Backoff p * 2 ^ retried) retryAfter <= RetryBudget p)%Z ->
    is_Some (next jitter err retried waited p)).
Proof.
  intros Hj Hr Hb Ht Hw Hfit. unfold next. rewrite Ht, Z.shiftl_mul_pow2 by done.
  set (e := (Backoff p * 2 ^ retried)%Z) in *.
  assert (He : (0 <= e < int64_max)%Z) by (unfold e in *; pose proof (Z.pow_nonneg 2 retried); nia).
  rewrite (wrap64_id e) by (unfold in_int64, int64_min; lia).
  pose proof (jittered_bounds jitter e Hj He) as Hd. cbv zeta.
  set (d := if (0 <? Z.quot e 2)%Z then _ else _) in *.
  assert (0 <= d)%Z by (pose proof (Z.quot_pos e 2); lia).
  rewrite (wrap64_id (waited + _)) by (unfold in_int64, int64_min; lia).
  clearbody d e. split.
  - intros wait. destruct (_ <=? retried)%Z eqn:E1; [done|]. destruct (_ <? _)%Z eqn:E2; [done|].
    intros [= <-]. bool_cases. lia.
  - intros H1 H2. destruct (_ <=? retried)%Z eqn:E1; bool_cases; [lia|].
    destruct (_ <? _)%Z eqn:E2; bool_cases; [lia|done].
Qed.

Definition throttled (retryAfterMs : Z) : GoError :=
  ErrUpstream (mkUpstream CodeRateLimited UpstreamRateLimit retryAfterMs None false).

(** The first retry of a route throttled for three seconds, under the
    production policy: 3 s, past the backoff drawn between 0.5 s and 1 s. *)
Lemma next_respects_the_policy_witness :
  next (fun _ => 0%Z) (throttled 3000) 0 0 DefaultRetryPolicy = Some (3 * Second)%Z /\
  is_Some (next (fun _ => 0%Z) (throttled 3000) 0 0 DefaultRetryPolicy).
Proof.
  split; [reflexivity|].
  refine (proj2 (next_respects_the_policy (fun _ => 0%Z) (throttled 3000) 0 0 DefaultRetryPolicy (3 * Second)
    _ _ _ _ _ _) _ _); try reflexivity; cbn; unfold int64_max, Second; try lia. intros n Hn. lia.
Defined.

(** A Retry-After about as long as a machine duration holds, which a
    provider may send as a date, is not refused by the budget: the sum of the
    waits wraps, and the request waits for 292 years on a 15 second budget. *)
Theorem retry_budget_overflows :
  next (fun _ => 0%Z) (throttled 9223372036854) 1 Second DefaultRetryPolicy = Some 9223372036854000000%Z /\
  (RetryBudget DefaultRetryPolicy < 9223372036854000000)%Z.
Proof. split; reflexivity. Qed.
