(* ===== verification/Emitter.v ===== *)
(** * The stream emitter (internal/kaana/emitter.go)

    The framing of one request's events: identity, sequence numbers, order,
    terminality and the deferred start.  Every event handed to the sink is
    kept in [log] with the sink's answer.  An operation is a state transformer
    that returns a Go error or nil. *)

From S2P Require Import Prelude Ids Text Contract Request Provider Adapter UsageEstimate.

(** What the sink answers to an event, after the events it was handed before;
    [None] accepts it. *)
Definition Sink := list StreamEvent -> StreamEvent -> option GoError.

Record emitter := mkEmitter {
  e_requestID : string;
  e_generationID : option string;
  e_admittedAt : Instant;
  provider : string;
  deployment : string;
  sequence : Z;
  started : bool;
  attemptStarted : bool;
  pendingStart : option StreamEvent;
  pending : list StreamEvent;
  terminated : bool;
  sinkFailed : bool;
  firstOutputAt : Instant;
  attemptOutputAt : Instant;
  estimate : usageEstimate;
  log : list (StreamEvent * option GoError);
}.

(** The events handed to the sink, in order. *)
Definition events (e : emitter) : list StreamEvent := (log e).*1.

Definition newEmitter (request : Request) (generationID : option string) (admittedAt : Instant) : emitter :=
  mkEmitter (request_RequestID request) generationID admittedAt "" "" 0 false false None [] false false 0 0
    (newUsageEstimate request) [].

(** ** Field updates *)

Definition set_sequence (n : Z) (e : emitter) : emitter :=
  mkEmitter (e_requestID e) (e_generationID e) (e_admittedAt e) (provider e) (deployment e) n (started e)
    (attemptStarted e) (pendingStart e) (pending e) (terminated e) (sinkFailed e) (firstOutputAt e)
    (attemptOutputAt e) (estimate e) (log e).

(** The attempt's held events, and whether it has started. *)
Definition set_attempt (st : bool) (start : option StreamEvent) (held : list StreamEvent) (e : emitter) : emitter :=
  mkEmitter (e_requestID e) (e_generationID e) (e_admittedAt e) (provider e) (deployment e) (sequence e) (started e)
    st start held (terminated e) (sinkFailed e) (firstOutputAt e) (attemptOutputAt e) (estimate e) (log e).

Definition set_started (e : emitter) : emitter :=
  mkEmitter (e_requestID e) (e_generationID e) (e_admittedAt e) (provider e) (deployment e) (sequence e) true
    (attemptStarted e) (pendingStart e) (pending e) (terminated e) (sinkFailed e) (firstOutputAt e)
    (attemptOutputAt e) (estimate e) (log e).

Definition set_terminated (e : emitter) : emitter :=
  mkEmitter (e_requestID e) (e_generationID e) (e_admittedAt e) (provider e) (deployment e) (sequence e) (started e)
    (attemptStarted e) (pendingStart e) (pending e) true (sinkFailed e) (firstOutputAt e)
    (attemptOutputAt e) (estimate e) (log e).

Definition set_output (first attempt : Instant) (e : emitter) : emitter :=
  mkEmitter (e_requestID e) (e_generationID e) (e_admittedAt e) (provider e) (deployment e) (sequence e) (started e)
    (attemptStarted e) (pendingStart e) (pending e) (terminated e) (sinkFailed e) first attempt (estimate e) (log e).

Definition set_estimate (u : usageEstimate) (e : emitter) : emitter :=
  mkEmitter (e_requestID e) (e_generationID e) (e_admittedAt e) (provider e) (deployment e) (sequence e) (started e)
    (attemptStarted e) (pendingStart e) (pending e) (terminated e) (sinkFailed e) (firstOutputAt e)
    (attemptOutputAt e) u (log e).

Definition set_route (slug id : string) (e : emitter) : emitter :=
  mkEmitter (e_requestID e) (e_generationID e) (e_admittedAt e) slug id (sequence e) (started e)
    (attemptStarted e) (pendingStart e) (pending e) (terminated e) (sinkFailed e) (firstOutputAt e)
    (attemptOutputAt e) (estimate e) (log e).

Definition failed_answer (answer : option GoError) : bool := match answer with Some _ => true | None => false end.

Definition push (event : StreamEvent) (answer : option GoError) (e : emitter) : emitter :=
  mkEmitter (e_requestID e) (e_generationID e) (e_admittedAt e) (provider e) (deployment e) (sequence e) (started e)
    (attemptStarted e) (pendingStart e) (pending e) (terminated e) (sinkFailed e || failed_answer answer)
    (firstOutputAt e) (attemptOutputAt e) (estimate e) (log e ++ [(event, answer)]).

(** ** Operations *)

Definition Op := emitter -> option GoError * emitter.

(** [if err := m(); err != nil { return err }; k()]. *)
Definition and_then (m k : Op) : Op :=
  fun e => match m e with (Some err, e) => (Some err, e) | (None, e) => k e end.
Notation "m ;>> k" := (and_then m k) (at level 60, right associativity) : kaana_scope.

Definition refuse : Op := fun e => (Some Opaque, e).
Definition ok : Op := fun e => (None, e).
Definition guard (refused : bool) : Op := if refused then refuse else ok.

Definition serving (slug id : string) (e : emitter) : emitter :=
  set_attempt false None [] (set_output (firstOutputAt e) 0 (set_route slug id e)).

Definition markOutput (now : Instant) (e : emitter) : emitter :=
  set_output (if IsZero (firstOutputAt e) then now else firstOutputAt e)
    (if IsZero (attemptOutputAt e) then now else attemptOutputAt e) e.

Definition next (e : emitter) : Z * emitter := (sequence e, set_sequence (sequence e + 1) e).

Section WithSink.
Variable sink : Sink.

Definition send (event : StreamEvent) : Op :=
  fun e =>
    if terminated e then (Some Opaque, e)
    else let err := sink (events e) event in (err, push event err e).

(** The next sequence number, given to an event that is then sent. *)
Definition send_next (event : Z -> StreamEvent) : Op := fun e => let '(n, e) := next e in send (event n) e.

(** [stampSequence]: only the kinds that can be held are stamped. *)
Definition stampSequence (event : StreamEvent) (n : Z) : StreamEvent :=
  match event with
  | StreamUsageEvent id _ dep units source => StreamUsageEvent id n dep units source
  | StreamDeltaEvent id _ index channel text => StreamDeltaEvent id n index channel text
  | event => event
  end.

Definition stamp_start (event : StreamEvent) (n : Z) : StreamEvent :=
  match event with
  | StreamStartEvent id _ gen ref prov at_ => StreamStartEvent id n gen ref prov at_
  | event => event
  end.

Definition sendOrHold (event : StreamEvent) : Op :=
  fun e =>
    if started e then send_next (stampSequence event) e
    else (None, set_attempt (attemptStarted e) (pendingStart e) (pending e ++ [event]) e).

Fixpoint send_held (held : list StreamEvent) : Op :=
  match held with
  | [] => ok
  | event :: held => send_next (stampSequence event) ;>> send_held held
  end.

Definition commit : Op :=
  fun e =>
    if started e then (None, e)
    else match pendingStart e with
    | None => (Some Opaque, e)
    | Some start =>
        (send_next (stamp_start start) ;>> send_held (pending e))
          (set_attempt (attemptStarted e) None [] (set_started e))
    end.

Definition requireStarted : Op := fun e => if attemptStarted e then (None, e) else (Some Opaque, e).

Definition Start (resolved : string) (at_ : Instant) : Op :=
  fun e =>
    if started e || attemptStarted e then (Some Opaque, e)
    else if negb (Pinned resolved) then (Some Opaque, e)
    else
      (None, set_attempt true
               (Some (StreamStartEvent (e_requestID e) 0 (e_generationID e) resolved (provider e) (NewTimestamp at_)))
               (pending e) e).

(** Send an event and, when the sink accepted it, account for its output. *)
Definition send_output (event : Z -> StreamEvent) (account : usageEstimate -> usageEstimate) : Op :=
  fun e =>
    match send_next event e with
    | (None, e) => (None, set_estimate (account (estimate e)) e)
    | failed => failed
    end.

Definition Delta (now : Instant) (outputIndex : Z) (channel text : string) : Op :=
  requireStarted ;>> guard (outputIndex <? 0)%Z ;>>
  fun e =>
    let event n := StreamDeltaEvent (e_requestID e) n outputIndex channel text in
    if text =s "" then sendOrHold (event 0%Z) e
    else (commit ;>> send_output event (addDelta channel text)) (markOutput now e).

Definition optional (s : string) : option string := if s =s "" then None else Some s.

Definition ToolCall (call : ToolCallDelta) : Op :=
  requireStarted ;>> guard (ID call =s "") ;>> commit ;>>
  fun e =>
    send_output (fun n => StreamToolCallEvent (e_requestID e) n (ID call) (optional (Name call))
                            (optional (ArgumentsDelta call)) (Complete_ call))
      (addToolCall (Name call) (ArgumentsDelta call)) e.

Definition Usage (units : list UsageQuantity) (source : string) : Op :=
  requireStarted ;>> guard (Nat.eqb (length units) 0) ;>>
  fun e => sendOrHold (StreamUsageEvent (e_requestID e) 0 (deployment e) units source) e.

Definition MaxAudioChunkBytes : Z := 49152.
Definition audioMediaTypes :=
  ["audio/mpeg"; "audio/wav"; "audio/ogg"; "audio/aac"; "audio/flac"; "audio/pcm"].

Definition Audio (now : Instant) (outputIndex : Z) (mediaType data : string) : Op :=
  requireStarted ;>>
  guard ((outputIndex <? 0)%Z || (len data =? 0)%Z || (MaxAudioChunkBytes <? len data)%Z) ;>>
  guard (negb (isMember mediaType audioMediaTypes)) ;>>
  fun e =>
    (commit ;>>
     fun e => send_output (fun n => StreamAudioEvent (e_requestID e) n outputIndex mediaType (base64_encode data))
                set_delivered e)
    (markOutput now e).

Definition errSwitchTooLate : GoError := Sentinel "a route switch follows the start event".

Definition routeSwitch (reason requestedModelID : string) (from to : Route) (at_ : Instant) : Op :=
  fun e =>
    if started e then (Some errSwitchTooLate, e)
    else
      let event detail n := StreamRouteSwitchEvent (e_requestID e) n reason detail (NewTimestamp at_) in
      if r_ModelReference from =s r_ModelReference to then
        send_next (event (mkSwitchDetail SwitchScopeDeployment (r_Provider to) (Some (r_ModelReference to))
                            (Some (r_DeploymentID to)) None None None None)) e
      else if ModelID (r_ModelReference from) =s ModelID (r_ModelReference to) then (Some Opaque, e)
      else if negb (ModelID_Valid requestedModelID) then (Some Opaque, e)
      else
        send_next (event (mkSwitchDetail SwitchScopeModel (r_Provider to) None None (Some requestedModelID)
                            (Some (r_ModelReference from)) (Some (r_ModelReference to)) (Some true))) e.

Definition finishWithDone (reason : string) (at_ : Instant) : Op :=
  requireStarted ;>> commit ;>>
  fun e =>
    let '(err, e) :=
      send_next (fun n => StreamDoneEvent (e_requestID e) n (e_generationID e) reason (NewTimestamp at_)) e in
    (err, set_terminated e).

Definition finishWithError (failure : Error) : Op :=
  fun e =>
    if terminated e then (Some Opaque, e)
    else let '(err, e) := send_next (fun n => StreamErrorEvent (e_requestID e) n failure) e in
         (err, set_terminated e).

(** What an adapter may call. *)
Definition apply_op (now : Instant) (op : EmitterOp) : Op :=
  match op with
  | OpStart resolved at_ => Start resolved at_
  | OpDelta outputIndex channel text => Delta now outputIndex channel text
  | OpToolCall call => ToolCall call
  | OpUsage units source => Usage units source
  | OpAudio outputIndex mediaType data => Audio now outputIndex mediaType data
  end.

(** [adapter.Stream]: play a script against the emitter. *)
Fixpoint play (s : Script) (e : emitter) : AdapterOutcome * option GoError * emitter :=
  match s with
  | Return outcome err => (outcome, err, e)
  | Emit now op rest => let '(answer, e) := apply_op now op e in play (rest answer) e
  end.

(** [provider.EmitAudio]: chunks of at most [MaxAudioChunkBytes]; [ctx_err]
    is what the context answers before each chunk. *)
Fixpoint EmitAudio (fuel : nat) (ctx_err : nat -> option GoError) (now : Instant) (outputIndex : Z)
    (mediaType data : string) : Op :=
  match fuel with
  | O => ok
  | S fuel' =>
      if data =s "" then ok
      else match ctx_err fuel with
      | Some err => fun e => (Some err, e)
      | None =>
          let size := Nat.min (String.length data) (Z.to_nat MaxAudioChunkBytes) in
          Audio now outputIndex mediaType (String.substring 0 size data) ;>>
          EmitAudio fuel' ctx_err now outputIndex mediaType
            (String.substring size (String.length data - size) data)
      end
  end.

End WithSink.

Definition timeToFirstToken (e : emitter) : Duration :=
  if IsZero (firstOutputAt e) || IsZero (e_admittedAt e) then 0 else Sub (firstOutputAt e) (e_admittedAt e).

Definition hasDeliveredOutput (e : emitter) : bool := outputDelivered (estimate e).

(** ** The grammar of a stream *)

Inductive phase := Opening | Streaming | Closed.

(** Route switches, then one start, then output and usage, then one terminal
    event; or an error before any start. *)
Definition phase_step (p : phase) (event : StreamEvent) : option phase :=
  match p, EventType event with
  | Opening, EventRouteSwitch => Some Opening
  | Opening, EventStart => Some Streaming
  | Streaming, (EventDelta | EventAudio | EventToolCall | EventUsage) => Some Streaming
  | Streaming, EventDone => Some Closed
  | (Opening | Streaming), EventError => Some Closed
  | _, _ => None
  end.

Definition phase_of (l : list StreamEvent) : option phase :=
  foldl (fun p event => p ≫= fun p => phase_step p event) (Some Opening) l.

Definition EventRequestID (event : StreamEvent) : string :=
  match event with
  | StreamStartEvent id _ _ _ _ _ | StreamDeltaEvent id _ _ _ _ | StreamAudioEvent id _ _ _ _
  | StreamToolCallEvent id _ _ _ _ _ | StreamUsageEvent id _ _ _ _ | StreamRouteSwitchEvent id _ _ _ _
  | StreamErrorEvent id _ _ | StreamDoneEvent id _ _ _ _ => id
  end.

(** What an accepted event adds to the estimate of the output delivered. *)
Definition account (u : usageEstimate) (entry : StreamEvent * option GoError) : usageEstimate :=
  match entry with
  | (StreamDeltaEvent _ _ _ channel text, None) => addDelta channel text u
  | (StreamToolCallEvent _ _ _ name arguments _, None) => addToolCall (default "" name) (default "" arguments) u
  | (StreamAudioEvent _ _ _ _ _, None) => set_delivered u
  | _ => u
  end.

(** An event an attempt may hold. *)
Definition holdable (id : string) (event : StreamEvent) : Prop :=
  match event with
  | StreamUsageEvent id' _ _ _ _ => id' = id
  | StreamDeltaEvent id' _ _ _ text => id' = id /\ text = ""
  | _ => False
  end.

Definition current (e : emitter) : phase :=
  if terminated e then Closed else if started e then Streaming else Opening.

(** Everything handed to the sink is numbered from zero without a gap, belongs
    to the request, and its accepted part is what the estimate counts. *)
Record framed (u0 : usageEstimate) (p : phase) (e : emitter) : Prop := {
  fr_phase : phase_of (events e) = Some p;
  fr_sequence : Sequence <$> events e = seqZ 0 (Z.of_nat (length (log e)));
  fr_request : Forall (fun event => EventRequestID event = e_requestID e) (events e);
  fr_estimate : estimate e = foldl account u0 (log e);
  fr_next : terminated e = false -> sequence e = Z.of_nat (length (log e));
}.

Record emitter_inv (u0 : usageEstimate) (e : emitter) : Prop := {
  inv_framed : framed u0 (current e) e;
  inv_committed : started e = true -> pendingStart e = None /\ pending e = [];
  inv_start : started e = false -> attemptStarted e = true -> exists resolved at_, Pinned resolved = true /\
    pendingStart e =
      Some (StreamStartEvent (e_requestID e) 0 (e_generationID e) resolved (provider e) (NewTimestamp at_));
  inv_idle : attemptStarted e = false -> pendingStart e = None;
  inv_held : Forall (holdable (e_requestID e)) (pending e);
}.

(** All of an emitter but what it handed to the sink. *)
Definition rest_of (e : emitter) : emitter :=
  mkEmitter (e_requestID e) (e_generationID e) (e_admittedAt e) (provider e) (deployment e) 0
    (started e) (attemptStarted e) (pendingStart e) (pending e) (terminated e) false
    (firstOutputAt e) (attemptOutputAt e) (estimate e) [].

(** [e'] differs from [e] in what was handed to the sink only. *)
Definition wrote (e e' : emitter) : Prop := rest_of e' = rest_of e /\ exists l, log e' = log e ++ l.

Section Lemmas.
Variable sink : Sink.
Variable u0 : usageEstimate.

Lemma wrote_refl e : wrote e e.
Proof. split; [done|]. exists []. by rewrite app_nil_r. Qed.

Lemma wrote_trans e1 e2 e3 : wrote e1 e2 -> wrote e2 e3 -> wrote e1 e3.
Proof.
  intros (H1 & l1 & Hl1) (H2 & l2 & Hl2). split; [by rewrite H2|]. exists (l1 ++ l2). by rewrite Hl2, Hl1, app_assoc.
Qed.

Lemma phase_of_snoc l event : phase_of (l ++ [event]) = phase_of l ≫= fun p => phase_step p event.
Proof. unfold phase_of. by rewrite foldl_snoc. Qed.

(** Sending the next event: nothing past a terminal one, else exactly this one. *)
Lemma send_next_spec event e :
  send_next sink event e =
  if terminated e then (Some Opaque, set_sequence (sequence e + 1) e)
  else let ev := event (sequence e) in
       (sink (events e) ev, push ev (sink (events e) ev) (set_sequence (sequence e + 1) e)).
Proof. unfold send_next, send, next. destruct e; cbn. by destruct terminated0. Qed.

Lemma send_next_wrote event e : wrote e (send_next sink event e).2.
Proof.
  rewrite send_next_spec. destruct (terminated e); (split; [done|]); cbn; [exists []; by rewrite app_nil_r|by eexists].
Qed.

Lemma push_framed p p' ev answer e :
  framed u0 p e -> terminated e = false -> phase_step p ev = Some p' -> Sequence ev = sequence e ->
  EventRequestID ev = e_requestID e ->
  framed u0 p' (set_estimate (account (estimate e) (ev, answer)) (push ev answer (set_sequence (sequence e + 1) e))).
Proof.
  intros [Hp Hs Hr He Hn] Hlive Hstep Hseq Hid. specialize (Hn Hlive).
  constructor; cbn; unfold events in *; cbn; rewrite ?fmap_app, ?length_app; cbn [length fmap list_fmap].
  - by rewrite phase_of_snoc, Hp.
  - cbn. rewrite Hs, Hseq, Hn, Nat2Z.inj_add, seqZ_app by lia. done.
  - apply Forall_app. split; [done|]. by constructor.
  - by rewrite foldl_snoc, He.
  - intros _. rewrite Hn. lia.
Qed.

Lemma terminated_framed p e : framed u0 p e -> terminated e = true -> framed u0 p (set_sequence (sequence e + 1) e).
Proof. intros [] Ht. constructor; try done. cbn. congruence. Qed.

(** An event that is not output leaves the estimate as it is. *)
Lemma send_next_framed p p' event e :
  framed u0 p e -> (terminated e = true -> p = p') ->
  (forall n, Sequence (event n) = n /\ EventRequestID (event n) = e_requestID e /\
     (terminated e = false -> phase_step p (event n) = Some p') /\
     (forall answer, account (estimate e) (event n, answer) = estimate e)) ->
  framed u0 p' (send_next sink event e).2.
Proof.
  intros Hf Hp Hev. rewrite send_next_spec. destruct (Hev (sequence e)) as (H1 & H2 & H3 & H4).
  destruct (terminated e) eqn:Ht; cbn [snd].
  - rewrite <-Hp by done. by apply terminated_framed.
  - pose proof (push_framed p p' _ (sink (events e) (event (sequence e))) e Hf Ht (H3 eq_refl) H1 H2) as Hpush.
    rewrite H4 in Hpush. by destruct e.
Qed.

Lemma addDelta_empty channel u : addDelta channel "" u = u.
Proof. destruct u. unfold addDelta. cbn. by destruct (channel =s ChannelReasoning). Qed.

Lemma holdable_stamped id event n u answer :
  holdable id event ->
  Sequence (stampSequence event n) = n /\ EventRequestID (stampSequence event n) = id /\
  phase_step Streaming (stampSequence event n) = Some Streaming /\
  account u (stampSequence event n, answer) = u.
Proof.
  destruct event; cbn [holdable]; intros H; try done; destruct_and?; subst;
    (split; [done|]; split; [done|]; split; [done|]); destruct answer; try done.
  cbn. apply addDelta_empty.
Qed.

Lemma wrote_fields e e' :
  wrote e e' -> e_requestID e' = e_requestID e /\ terminated e' = terminated e /\ started e' = started e /\
  attemptStarted e' = attemptStarted e /\ pendingStart e' = pendingStart e /\ pending e' = pending e /\
  estimate e' = estimate e /\ provider e' = provider e /\ e_generationID e' = e_generationID e /\
  firstOutputAt e' = firstOutputAt e.
Proof. intros [[=] _]. split_and!; done. Qed.

Definition streaming (e : emitter) : phase := if terminated e then Closed else Streaming.

(** Writing held events. *)
Lemma send_held_framed held e :
  Forall (holdable (e_requestID e)) held -> framed u0 (streaming e) e ->
  wrote e (send_held sink held e).2 /\ framed u0 (streaming e) (send_held sink held e).2.
Proof.
  revert e. induction held as [|event held IH]; intros e Hall Hf; cbn [send_held].
  { split; [apply wrote_refl|done]. }
  apply Forall_cons in Hall as [Hev Hall]. unfold and_then.
  pose proof (send_next_wrote (stampSequence event) e) as Hw.
  assert (framed u0 (streaming e) (send_next sink (stampSequence event) e).2) as Hf'.
  { apply send_next_framed with (p := streaming e); [done|done|]. intros n.
    destruct (holdable_stamped _ _ n (estimate e) None Hev) as (H1 & H2 & H3 & _).
    split; [done|]. split; [done|]. unfold streaming. split; [by intros ->|].
    intros answer. by apply (holdable_stamped _ _ n (estimate e) answer Hev). }
  destruct (send_next sink (stampSequence event) e) as [[err|] e']; cbn [snd] in *; [by split|].
  destruct (wrote_fields _ _ Hw) as (Hid & Ht & _). rewrite <-Hid in Hall.
  assert (streaming e' = streaming e) as Hst by (unfold streaming; by rewrite Ht).
  rewrite <-Hst in *. destruct (IH e' Hall Hf') as [Hw' Hf'']. split; [by eapply wrote_trans|done].
Qed.

(** The start event of the attempt being served. *)
Definition start_of (e : emitter) (event : StreamEvent) : Prop :=
  exists n resolved at_, Pinned resolved = true /\
    event = StreamStartEvent (e_requestID e) n (e_generationID e) resolved (provider e) (NewTimestamp at_).

(** What an operation of an adapter does to the emitter. *)
Record op_ok (e e' : emitter) : Prop := {
  ok_inv : emitter_inv u0 e';
  ok_request : e_requestID e' = e_requestID e;
  ok_generation : e_generationID e' = e_generationID e;
  ok_provider : provider e' = provider e;
  ok_terminated : terminated e' = terminated e;
  ok_started : started e = true -> started e' = true;
  ok_log : exists l, log e' = log e ++ l;
  ok_trace : started e' = false -> log e' = log e /\ forall slug id, serving slug id e' = serving slug id e;
  ok_first : started e = false -> started e' = true -> terminated e = false ->
    exists event answer rest, log e' = log e ++ (event, answer) :: rest /\ start_of e event;
}.

Lemma op_ok_refl e : emitter_inv u0 e -> op_ok e e.
Proof. intros H. constructor; try done; [exists []; by rewrite app_nil_r|congruence]. Qed.

Lemma op_ok_trans e1 e2 e3 : op_ok e1 e2 -> op_ok e2 e3 -> op_ok e1 e3.
Proof.
  intros [] []. constructor; try done; try congruence; try auto.
  - destruct ok_log0 as [l1 Hl1], ok_log1 as [l2 ->]. rewrite Hl1. exists (l1 ++ l2). by rewrite app_assoc.
  - intros H3. assert (started e2 = false) as H2.
    { destruct (started e2) eqn:E; [|done]. rewrite ok_started1 in H3; done. }
    destruct (ok_trace0 H2) as [Hl1 Hs1], (ok_trace1 H3) as [Hl2 Hs2].
    split; [congruence|]. intros slug id. by rewrite Hs2.
  - intros H1 H3 Hlive. destruct (started e2) eqn:E2.
    + destruct (ok_first0 H1 eq_refl Hlive) as (event & answer & rest & Hl & Hst).
      destruct ok_log1 as [l Hl']. exists event, answer, (rest ++ l). rewrite Hl', Hl, <-app_assoc. done.
    + destruct (ok_first1 eq_refl H3 ltac:(congruence)) as (event & answer & rest & Hl & n & ref & at_ & Hp & ->).
      destruct (ok_trace0 eq_refl) as [Hl0 _]. eexists _, answer, rest. rewrite Hl, Hl0. split; [done|].
      exists n, ref, at_. split; [done|]. congruence.
Qed.

Lemma framed_ext p e e' :
  framed u0 p e -> log e' = log e -> e_requestID e' = e_requestID e -> estimate e' = estimate e ->
  terminated e' = terminated e -> sequence e' = sequence e -> framed u0 p e'.
Proof.
  intros [H1 H2 H3 H4 H5] Hl Hr He Ht Hs. unfold events in *.
  constructor; unfold events; rewrite ?Hl, ?Hr, ?He, ?Ht, ?Hs; done.
Qed.

Lemma commit_ok e :
  emitter_inv u0 e -> attemptStarted e = true ->
  op_ok e (commit sink e).2 /\ started (commit sink e).2 = true /\ attemptStarted (commit sink e).2 = true.
Proof.
  intros Hinv Hatt. unfold commit. destruct (started e) eqn:Est; [split; [by apply op_ok_refl|by split]|].
  destruct Hinv as [Hf _ Hstart _ Hheld]. destruct (Hstart Est Hatt) as (resolved & at_ & Hpin & Hps). rewrite Hps.
  set (start := StreamStartEvent _ _ _ _ _ _). set (e0 := set_attempt (attemptStarted e) None [] (set_started e)).
  assert (framed u0 (current e) e0) as Hf0 by (by apply (framed_ext _ e)).
  unfold and_then. pose proof (send_next_wrote (stamp_start start) e0) as Hw.
  assert (framed u0 (streaming e0) (send_next sink (stamp_start start) e0).2) as Hf1.
  { apply send_next_framed with (p := current e); [done| |].
    - intros Ht. unfold current, streaming. cbn in Ht |- *. by rewrite Ht.
    - intros n. split; [done|]. split; [done|]. split; [|done]. intros Ht.
      unfold current, streaming. cbn in Ht |- *. by rewrite Ht, Est. }
  assert (log (send_next sink (stamp_start start) e0).2 =
    if terminated e then log e else log e ++ [(stamp_start start (sequence e), sink (events e0) (stamp_start start (sequence e)))]) as Hlog.
  { rewrite send_next_spec. cbn. by destruct (terminated e). }
  destruct (send_next sink (stamp_start start) e0) as [answer e1]. cbn [snd] in *.
  set (e2 := (match answer with Some err => (Some err, e1) | None => send_held sink (pending e) e1 end).2).
  assert (wrote e1 e2 /\ framed u0 (streaming e0) e2) as [Hw' Hf2].
  { destruct (wrote_fields _ _ Hw) as (Hid & Ht & _). subst e2. destruct answer; [split; [apply wrote_refl|done]|].
    assert (streaming e1 = streaming e0) as Hst by (unfold streaming; by rewrite Ht).
    rewrite <-Hst in *. apply send_held_framed; [|done]. rewrite Hid. done. }
  clearbody e2. pose proof (wrote_trans _ _ _ Hw Hw') as Hw2.
  destruct (wrote_fields _ _ Hw2) as (Hid & Ht & Hs & Ha & Hps2 & Hpd & He & Hpr & Hg & Hfo). cbn in Hid, Ht, Hs, Ha, Hps2, Hpd, He, Hpr, Hg.
  split; [|split; [done|congruence]]. constructor; try done.
  - constructor.
    + assert (current e2 = streaming e0) as ->; [|done]. unfold current, streaming. cbn. by rewrite Hs, Ht.
    + done.
    + congruence.
    + congruence.
    + rewrite Hpd. constructor.
  - destruct Hw2 as (_ & l & Hl). by exists l.
  - congruence.
  - intros _ _ Hlive. rewrite Hlive in Hlog. destruct Hw' as (_ & l & Hl). rewrite Hl, Hlog, <-app_assoc.
    eexists _, _, l. split; [done|]. exists (sequence e), resolved, at_. done.
Qed.

(** A committed stream stays committed. *)
Lemma committed_output e e' :
  emitter_inv u0 e -> started e = true -> terminated e = false -> framed u0 Streaming e' ->
  e_requestID e' = e_requestID e -> e_generationID e' = e_generationID e -> provider e' = provider e ->
  terminated e' = terminated e -> started e' = started e -> attemptStarted e' = attemptStarted e ->
  pendingStart e' = pendingStart e -> pending e' = pending e -> (exists l, log e' = log e ++ l) -> op_ok e e'.
Proof.
  intros [_ Hc _ _ _] Hst Ht Hf Hr Hg Hp Ht' Hs Ha Hps Hpd Hl. destruct (Hc Hst) as [Hc1 Hc2].
  constructor; try done; try congruence. constructor; try congruence.
  - replace (current e') with Streaming; [done|]. unfold current. by rewrite Ht', Ht, Hs, Hst.
  - intros _. split; congruence.
  - rewrite Hpd, Hc2. constructor.
Qed.

(** Sending output once committed. *)
Lemma send_output_ok event f e :
  emitter_inv u0 e -> started e = true ->
  (forall n, Sequence (event n) = n /\ EventRequestID (event n) = e_requestID e /\
     phase_step Streaming (event n) = Some Streaming /\
     account (estimate e) (event n, None) = f (estimate e) /\
     forall err, account (estimate e) (event n, Some err) = estimate e) ->
  op_ok e (send_output sink event f e).2.
Proof.
  intros Hinv Hst Hev. pose proof Hinv as [Hf Hc Hs Hi Hh]. destruct (Hc Hst) as [Hps Hpd]. unfold send_output. rewrite send_next_spec.
  destruct (Hev (sequence e)) as (H1 & H2 & H3 & H4 & H5).
  destruct (terminated e) eqn:Ht.
  - constructor; try done; [|exists []; by rewrite app_nil_r|cbn; congruence|congruence]. constructor; cbn; try done.
    + replace (current _) with (current e) by done. by apply terminated_framed.
  - cbn zeta. set (answer := sink (events e) (event (sequence e))).
    assert (current e = Streaming) as Hcur by (unfold current; by rewrite Ht, Hst). rewrite Hcur in Hf.
    pose proof (push_framed _ _ _ answer e Hf Ht H3 H1 H2) as Hpush.
    clearbody answer. destruct answer as [err|]; cbn [snd].
    + rewrite H5 in Hpush. apply (framed_ext _ _ (push (event (sequence e)) (Some err) (set_sequence (sequence e + 1) e)))
        in Hpush; [|done..]. apply committed_output; try done. by eexists.
    + rewrite H4 in Hpush. apply committed_output; try done. by eexists.
Qed.

(** *** Every operation of an adapter *)

Lemma op_then (m k : Op) e :
  op_ok e (m e).2 -> (forall e', m e = (None, e') -> op_ok e' (k e').2) -> op_ok e (and_then m k e).2.
Proof.
  unfold and_then. destruct (m e) as [[err|] e']; cbn [snd]; [done|]. intros H1 H2.
  by apply (op_ok_trans _ _ _ H1), H2.
Qed.

(** A guard, and a requirement that the attempt has started. *)
Lemma op_guard b k e : emitter_inv u0 e -> op_ok e (k e).2 -> op_ok e (and_then (guard b) k e).2.
Proof. intros Hinv Hk. unfold and_then, guard, refuse, ok. destruct b; cbn; [by apply op_ok_refl|done]. Qed.

Lemma op_require k e :
  emitter_inv u0 e -> (attemptStarted e = true -> op_ok e (k e).2) -> op_ok e (and_then requireStarted k e).2.
Proof.
  intros Hinv Hk. unfold and_then, requireStarted. destruct (attemptStarted e) eqn:E; cbn; [auto|by apply op_ok_refl].
Qed.

Lemma op_commit k e :
  emitter_inv u0 e -> attemptStarted e = true ->
  (forall e', emitter_inv u0 e' -> started e' = true -> op_ok e' (k e').2) -> op_ok e (and_then (commit sink) k e).2.
Proof.
  intros Hinv Hatt Hk. destruct (commit_ok e Hinv Hatt) as (Hok & Hst & _).
  apply op_then; [done|]. intros e' He'. rewrite He' in *. apply Hk; [apply Hok|done].
Qed.

Lemma sendOrHold_ok event e :
  emitter_inv u0 e -> attemptStarted e = true -> holdable (e_requestID e) event -> op_ok e (sendOrHold sink event e).2.
Proof.
  intros Hinv Hatt Hev. unfold sendOrHold. destruct (started e) eqn:Est.
  - pose proof (send_next_wrote (stampSequence event) e) as Hw.
    destruct (wrote_fields _ _ Hw) as (Hid & Ht & Hs & Ha & Hps & Hpd & He & Hpr & Hg & Hfo).
    pose proof Hinv as [Hf Hc _ _ _]. destruct (Hc Est) as [Hc1 Hc2].
    assert (framed u0 (current e) (send_next sink (stampSequence event) e).2) as Hf'.
    { apply send_next_framed with (p := current e); [done|done|]. intros n.
      destruct (holdable_stamped _ _ n (estimate e) None Hev) as (H1 & H2 & H3 & _).
      split; [done|]. split; [done|]. unfold current. split; [intros ->; by rewrite Est|].
      intros answer. by apply (holdable_stamped _ _ n (estimate e) answer Hev). }
    destruct Hw as [_ Hl]. constructor; try done; try congruence. constructor; try congruence.
    + assert (current (send_next sink (stampSequence event) e).2 = current e) as ->; [|done].
      unfold current. by rewrite Ht, Hs.
    + intros _. split; congruence.
    + rewrite Hpd, Hc2. constructor.
  - destruct Hinv as [Hf Hc Hs Hi Hh]. constructor; try done; cbn; [|exists []; by rewrite app_nil_r|congruence].
    constructor; cbn; try done.
    + replace (current _) with (current e) by done. by apply (framed_ext _ e).
    + congruence.
    + apply Forall_app. split; [done|]. by constructor.
Qed.

Lemma markOutput_ok e now k :
  emitter_inv u0 e -> attemptStarted e = true ->
  (forall e', emitter_inv u0 e' -> started e' = true -> e_requestID e' = e_requestID e -> op_ok e' (k e').2) ->
  op_ok e (and_then (commit sink) k (markOutput now e)).2.
Proof.
  intros Hinv Hatt Hk.
  assert (emitter_inv u0 (markOutput now e)) as Hm.
  { destruct Hinv as [Hf Hc Hs Hi Hh]. constructor; try done.
    replace (current _) with (current e) by done. by apply (framed_ext _ e). }
  destruct (commit_ok (markOutput now e) Hm Hatt) as (Hok & Hst & _).
  assert (op_ok (markOutput now e) (and_then (commit sink) k (markOutput now e)).2) as Hall.
  { apply op_then; [done|]. intros e' He'. rewrite He' in *. apply Hk; [apply Hok|done|apply Hok]. }
  assert (started (and_then (commit sink) k (markOutput now e)).2 = true) as Hst'.
  { unfold and_then. destruct (commit sink (markOutput now e)) as [[err|] e']; cbn [snd] in *; [done|].
    apply Hk; [apply Hok|done|apply Hok|done]. }
  destruct Hall. constructor; try done. congruence.
Qed.

Lemma Start_ok resolved at_ e : emitter_inv u0 e -> op_ok e (Start resolved at_ e).2.
Proof.
  intros Hinv. unfold Start. destruct (started e) eqn:Est; [by apply op_ok_refl|].
  destruct (attemptStarted e) eqn:Eat; cbn [orb]; [by apply op_ok_refl|].
  destruct (negb (Pinned resolved)) eqn:Epin; [by apply op_ok_refl|]. bool_cases.
  destruct Hinv as [Hf Hc Hs Hi Hh]. constructor; try done; cbn; [|exists []; by rewrite app_nil_r|congruence].
  constructor; cbn; try done; [|congruence|by exists resolved, at_].
  replace (current _) with (current e) by done. by apply (framed_ext _ e).
Qed.

Lemma apply_op_ok now op e : emitter_inv u0 e -> op_ok e (apply_op sink now op e).2.
Proof.
  intros Hinv. destruct op as [resolved at_|outputIndex channel text|call|units source|outputIndex mediaType data];
    cbn [apply_op].
  - by apply Start_ok.
  - apply op_require; [done|]. intros Hatt. apply op_guard; [done|].
    destruct (text =s "") eqn:E; bool_cases; [subst text; by apply sendOrHold_ok|].
    apply markOutput_ok; [done..|]. intros e' Hinv' Hst Hid. rewrite <-Hid. apply send_output_ok; [done..|].
    intros n. by split_and!.
  - apply op_require; [done|]. intros Hatt. apply op_guard; [done|]. apply op_commit; [done..|].
    intros e' Hinv' Hst. apply send_output_ok; [done..|]. intros n. split_and!; try done. cbn.
    unfold optional. destruct (Name call =s "") eqn:E1, (ArgumentsDelta call =s "") eqn:E2; bool_cases; cbn; congruence.
  - apply op_require; [done|]. intros Hatt. apply op_guard; [done|]. by apply sendOrHold_ok.
  - apply op_require; [done|]. intros Hatt. apply op_guard; [done|]. apply op_guard; [done|].
    apply markOutput_ok; [done..|]. intros e' Hinv' Hst Hid. apply send_output_ok; [done..|]. intros n. by split_and!.
Qed.

Lemma play_ok s e : emitter_inv u0 e -> op_ok e (play sink s e).2.
Proof.
  revert e. induction s as [outcome err|now op rest IH]; intros e Hinv; cbn [play]; [by apply op_ok_refl|].
  pose proof (apply_op_ok now op e Hinv) as Hok. destruct (apply_op sink now op e) as [answer e'].
  eapply op_ok_trans; [exact Hok|]. apply IH, Hok.
Qed.

Lemma serving_inv slug id e : emitter_inv u0 e -> emitter_inv u0 (serving slug id e).
Proof.
  intros [Hf Hc Hs Hi Hh]. constructor; cbn; try done; try congruence.
  replace (current _) with (current e) by done. by apply (framed_ext _ e).
Qed.

(** *** The executor's own events *)

Definition keeps (e e' : emitter) : Prop := emitter_inv u0 e' /\ e_requestID e' = e_requestID e.

Lemma switch_inv reason requested from to at_ e :
  emitter_inv u0 e -> keeps e (routeSwitch sink reason requested from to at_ e).2.
Proof.
  intros Hinv. unfold routeSwitch. destruct (started e) eqn:Est; [done|].
  assert (forall detail, keeps e
    (send_next sink (fun n => StreamRouteSwitchEvent (e_requestID e) n reason detail (NewTimestamp at_)) e).2) as Hsend.
  { intros detail. set (event := fun n => _).
    destruct (wrote_fields _ _ (send_next_wrote event e)) as (Hid & Ht & Hs & Ha & Hps & Hpd & He & Hpr & Hg & Hfo).
    destruct Hinv as [Hf Hc Hst Hi Hh].
    assert (framed u0 (current e) (send_next sink event e).2) as Hf'.
    { apply send_next_framed with (p := current e); [done|done|]. intros n. split; [done|]. split; [done|].
      split; [|done]. unfold current. intros ->. by rewrite Est. }
    split; [|done]. constructor; rewrite ?Hid, ?Hpr, ?Hg, ?Hps, ?Hpd, ?Hs, ?Ha; try done.
    assert (current (send_next sink event e).2 = current e) as ->; [|done]. unfold current. by rewrite Ht, Hs. }
  destruct (_ =s _); [apply Hsend|]. destruct (_ =s _); [done|]. destruct (negb _); [done|apply Hsend].
Qed.

Lemma terminal_inv event e :
  emitter_inv u0 e ->
  (forall n, Sequence (event n) = n /\ EventRequestID (event n) = e_requestID e /\
     (terminated e = false -> phase_step (current e) (event n) = Some Closed) /\
     (forall answer, account (estimate e) (event n, answer) = estimate e)) ->
  keeps e (set_terminated (send_next sink event e).2).
Proof.
  intros [Hf Hc Hst Hi Hh] Hev.
  destruct (wrote_fields _ _ (send_next_wrote event e)) as (Hid & Ht & Hs & Ha & Hps & Hpd & He & Hpr & Hg & Hfo).
  assert (framed u0 Closed (send_next sink event e).2) as Hf'.
  { apply send_next_framed with (p := current e); [done| |done]. unfold current. by intros ->. }
  set (e1 := (send_next sink event e).2) in *. clearbody e1. split; [|done].
  constructor; cbn; rewrite ?Hid, ?Hpr, ?Hg, ?Hps, ?Hpd, ?Hs, ?Ha; try done.
  destruct Hf'. by constructor.
Qed.

Lemma done_inv reason at_ e : emitter_inv u0 e -> keeps e (finishWithDone sink reason at_ e).2.
Proof.
  intros Hinv. unfold finishWithDone, and_then, requireStarted.
  destruct (attemptStarted e) eqn:Hatt; [|done]. destruct (commit_ok e Hinv Hatt) as (Hok & Hst & _).
  destruct (commit sink e) as [[err|] e']; cbn [snd] in *; [split; apply Hok|].
  pose proof (terminal_inv (fun n => StreamDoneEvent (e_requestID e') n (e_generationID e') reason (NewTimestamp at_)) e'
    ltac:(apply Hok)) as Hterm.
  destruct (send_next sink _ e') as [err e'']. unfold keeps. rewrite <-(ok_request _ _ Hok). apply Hterm. intros n. split; [done|]. split; [done|]. split; [|done].
  unfold current. intros ->. by rewrite Hst.
Qed.

Lemma error_inv failure e : emitter_inv u0 e -> keeps e (finishWithError sink failure e).2.
Proof.
  intros Hinv. unfold finishWithError. destruct (terminated e) eqn:Ht; [done|].
  pose proof (terminal_inv (fun n => StreamErrorEvent (e_requestID e) n failure) e Hinv) as Hterm.
  destruct (send_next sink _ e) as [err e']. apply Hterm. intros n. split; [done|]. split; [done|]. split; [|done].
  unfold current. intros ->. by destruct (started e).
Qed.

Lemma new_inv request generationID at_ :
  u0 = newUsageEstimate request -> emitter_inv u0 (newEmitter request generationID at_).
Proof. intros ->. constructor; cbn; try done. Qed.

End Lemmas.

(** ** Whole streams *)

(** One call on an emitter, by the executor or by the adapter it is running. *)
Inductive Action :=
| Serve (slug id : string)
| Report (now : Instant) (op : EmitterOp)
| Switch (reason requestedModelID : string) (from to : Route) (at_ : Instant)
| Finish (reason : string) (at_ : Instant)
| Fail_ (failure : Error).

Definition act (sink : Sink) (e : emitter) (a : Action) : emitter :=
  match a with
  | Serve slug id => serving slug id e
  | Report now op => (apply_op sink now op e).2
  | Switch reason requested from to at_ => (routeSwitch sink reason requested from to at_ e).2
  | Finish reason at_ => (finishWithDone sink reason at_ e).2
  | Fail_ failure => (finishWithError sink failure e).2
  end.

Definition stream (sink : Sink) (request : Request) (generationID : option string) (at_ : Instant)
    (actions : list Action) : emitter :=
  foldl (act sink) (newEmitter request generationID at_) actions.

Lemma act_keeps u0 sink e a : emitter_inv u0 e -> keeps u0 e (act sink e a).
Proof.
  intros H. destruct a; cbn [act];
    [split; [by apply serving_inv|done]| |by apply switch_inv|by apply done_inv|by apply error_inv].
  pose proof (apply_op_ok sink u0 now op e H) as Hok. split; apply Hok.
Qed.

Lemma stream_keeps sink request generationID at_ actions :
  keeps (newUsageEstimate request) (newEmitter request generationID at_) (stream sink request generationID at_ actions).
Proof.
  unfold stream. pose proof (new_inv (newUsageEstimate request) request generationID at_ eq_refl) as H.
  revert H. generalize (newEmitter request generationID at_) as e. induction actions as [|a actions IH]; [done|].
  intros e H. cbn [foldl]. destruct (act_keeps _ sink e a H) as [Hinv Hid].
  destruct (IH _ Hinv) as [H1 H2]. split; [done|congruence].
Qed.

(** C2. Whatever an adapter reports and whatever the sink answers, the events
    handed to the sink are one well-formed stream of this request: route
    switches, then at most one start, then output and usage, then at most one
    terminal event and nothing after it; an error may end a stream that never
    started.  They are numbered from zero without a gap, all carry the
    request's id, and the estimate counts exactly the output the sink
    accepted. *)
Theorem stream_is_well_formed sink request generationID at_ actions :
  let e := stream sink request generationID at_ actions in
  (exists p, phase_of (events e) = Some p /\ (p = Closed <-> terminated e = true)) /\
  Sequence <$> events e = seqZ 0 (Z.of_nat (length (events e))) /\
  Forall (fun event => EventRequestID event = request_RequestID request) (events e) /\
  estimate e = foldl account (newUsageEstimate request) (log e).
Proof.
  cbn zeta. destruct (stream_keeps sink request generationID at_ actions) as [[[Hp Hs Hr He _] _ _ _ _] Hid].
  set (e := stream _ _ _ _ _) in *. change (e_requestID (newEmitter _ _ _)) with (request_RequestID request) in Hid.
  split; [|split; [|split; [by rewrite <-Hid|done]]].
  - exists (current e). split; [done|]. unfold current. by destruct (terminated e), (started e).
  - rewrite Hs. unfold events. by rewrite length_fmap.
Qed.

(** An attempt commits with its own start or leaves no trace.  Whatever an
    adapter does while it is served on a live stream that has not started,
    either the first event it causes is the start event that names the
    provider being served and a pinned reference, or nothing at all reached
    the sink and serving the next route finds the emitter as if the attempt
    had never been made. *)
Theorem attempt_commits_or_leaves_no_trace sink request generationID at_ actions slug id script :
  let e := stream sink request generationID at_ actions in
  started e = false -> terminated e = false ->
  let e' := (play sink script (serving slug id e)).2 in
  (started e' = true /\ exists n resolved start answer rest, Pinned resolved = true /\
     log e' = log e ++ (StreamStartEvent (request_RequestID request) n (e_generationID e) resolved slug
                          (NewTimestamp start), answer) :: rest) \/
  (started e' = false /\ log e' = log e /\ forall slug' id', serving slug' id' e' = serving slug' id' e).
Proof.
  cbn zeta. destruct (stream_keeps sink request generationID at_ actions) as [Hinv Hid].
  set (e := stream _ _ _ _ _) in *. change (e_requestID (newEmitter _ _ _)) with (request_RequestID request) in Hid.
  clearbody e. intros Hst Ht.
  pose proof (play_ok sink _ script _ (serving_inv _ slug id e Hinv)) as [_ _ _ _ _ _ _ Htrace Hfirst].
  destruct (started (play sink script (serving slug id e)).2) eqn:E; [left|right].
  - split; [done|]. destruct (Hfirst Hst eq_refl Ht) as (event & answer & rest & Hl & n & resolved & start & Hpin & Hev).
    exists n, resolved, start, answer, rest. split; [done|]. rewrite Hl, Hev, <-Hid. done.
  - destruct (Htrace eq_refl) as [Hl Hs]. split; [done|]. split; [done|]. intros slug' id'. rewrite Hs. done.
Qed.

Lemma attempt_commits_or_leaves_no_trace_witness :
  let sink : Sink := fun _ _ => None in
  let e := stream sink example_request None 5 [] in
  let e' := (play sink (example_script 0 (mkCall (mkRoute "dep" "acme" "acme/m@1" "m" [] None None None) "" "") None)
               (serving "acme" "dep" e)).2 in
  started e' = true /\ exists n resolved start answer rest, Pinned resolved = true /\
     log e' = log e ++ (StreamStartEvent (request_RequestID example_request) n (e_generationID e) resolved "acme"
                          (NewTimestamp start), answer) :: rest.
Proof.
  destruct (attempt_commits_or_leaves_no_trace (fun _ _ => None) example_request None 5 [] "acme" "dep"
    (example_script 0 (mkCall (mkRoute "dep" "acme" "acme/m@1" "m" [] None None None) "" "") None) eq_refl eq_refl)
    as [H|[H _]]; [exact H|]. vm_compute in H. discriminate H.
Defined.

(** ** Audio in bounded chunks *)

Section AudioChunks.
Variables (id media : string) (index : Z).

(** The events of a run of chunks. *)
Definition audio_events (first : Z) (chunks : list string) : list (StreamEvent * option GoError) :=
  imap (fun i chunk => (StreamAudioEvent id (first + Z.of_nat i) index media (base64_encode chunk), None)) chunks.

Lemma Audio_accepted sink now data e :
  (forall l event, sink l event = None) -> started e = true -> attemptStarted e = true -> terminated e = false ->
  e_requestID e = id -> (0 <= index)%Z -> media ∈ audioMediaTypes -> (1 <= len data <= MaxAudioChunkBytes)%Z ->
  exists e', Audio sink now index media data e = (None, e') /\ started e' = true /\ attemptStarted e' = true /\
    terminated e' = false /\ e_requestID e' = id /\ sequence e' = (sequence e + 1)%Z /\
    log e' = log e ++ audio_events (sequence e) [data].
Proof.
  intros Hsink Hst Hatt Ht Hid Hix Hm Hlen. unfold Audio, and_then, requireStarted. rewrite Hatt.
  rewrite (proj2 (Z.ltb_ge index 0)), (proj2 (Z.eqb_neq (len data) 0)), (proj2 (Z.ltb_ge MaxAudioChunkBytes _)) by lia.
  apply isMember_spec in Hm as ->. cbn [orb negb guard ok]. unfold commit. cbn [started markOutput set_output].
  rewrite Hst. unfold send_output. rewrite send_next_spec. cbn [terminated markOutput set_output]. rewrite Ht. cbn zeta.
  rewrite Hsink. eexists. split; [reflexivity|]. cbn. rewrite Hid, Z.add_0_r. done.
Qed.

Lemma audio_events_cons n chunk chunks :
  audio_events n (chunk :: chunks) = audio_events n [chunk] ++ audio_events (n + 1) chunks.
Proof.
  unfold audio_events. rewrite imap_cons. cbn. rewrite Z.add_0_r. f_equal. apply imap_ext. intros i x _. cbn.
  do 2 f_equal. lia.
Qed.


Lemma EmitAudio_chunks sink now fuel data e :
  (forall l event, sink l event = None) -> started e = true -> attemptStarted e = true -> terminated e = false ->
  e_requestID e = id -> (0 <= index)%Z -> media ∈ audioMediaTypes -> (String.length data <= fuel)%nat ->
  exists e' chunks, EmitAudio sink fuel (fun _ => None) now index media data e = (None, e') /\
    String.concat "" chunks = data /\ Forall (fun chunk => (1 <= len chunk <= MaxAudioChunkBytes)%Z) chunks /\
    log e' = log e ++ audio_events (sequence e) chunks.
Proof.
  intros Hsink. revert data e. induction fuel as [|fuel IH]; intros data e Hst Hatt Ht Hid Hix Hm Hfuel; cbn [EmitAudio].
  { destruct data; [|cbn in Hfuel; lia]. exists e, []. rewrite app_nil_r. by split_and!. }
  destruct (data =s "") eqn:E; bool_cases; [subst; exists e, []; rewrite app_nil_r; by split_and!|].
  assert (1 <= String.length data)%nat as Hpos by (destruct data; [done|cbn; lia]).
  set (size := Nat.min (String.length data) (Z.to_nat MaxAudioChunkBytes)).
  assert (1 <= size <= String.length data)%nat as Hsize by (unfold size, MaxAudioChunkBytes; lia).
  assert (Z.of_nat size <= MaxAudioChunkBytes)%Z as Hmax by (unfold size, MaxAudioChunkBytes; lia).
  clearbody size. destruct (substring_split size data) as (Hdata & Hl1 & Hl2); [lia|].
  assert (1 <= len (String.substring 0 size data) <= MaxAudioChunkBytes)%Z as Hlen by (unfold len; rewrite Hl1; lia).
  destruct (Audio_accepted sink now _ e Hsink Hst Hatt Ht Hid Hix Hm Hlen)
    as (e1 & He1 & Hst1 & Hatt1 & Ht1 & Hid1 & Hseq1 & Hlog1).
  destruct (IH (String.substring size (String.length data - size) data) e1 Hst1 Hatt1 Ht1 Hid1 Hix Hm ltac:(lia))
    as (e2 & chunks & He2 & Hcat & Hall & Hlog2).
  exists e2, (String.substring 0 size data :: chunks). unfold and_then. rewrite He1, He2. split; [done|].
  split; [|split].
  - rewrite Hdata at 2. rewrite <-Hcat. destruct chunks; [|done]. cbn. by rewrite str_app_nil_r.
  - by constructor.
  - by rewrite Hlog2, Hlog1, Hseq1, (audio_events_cons (sequence e) _ chunks), app_assoc.
Qed.

End AudioChunks.

(** Audio is split without loss: on a live, committed stream whose sink
    accepts, any number of bytes is sent as consecutive audio events, each of
    at least one and at most 49152 bytes, whose contents concatenate to exactly
    the bytes given; one chunk per byte is fuel enough. *)
Theorem EmitAudio_splits_without_loss sink now index media data e :
  (forall l event, sink l event = None) -> started e = true -> attemptStarted e = true -> terminated e = false ->
  (0 <= index)%Z -> media ∈ audioMediaTypes ->
  exists e' chunks, EmitAudio sink (String.length data) (fun _ => None) now index media data e = (None, e') /\
    String.concat "" chunks = data /\ Forall (fun chunk => (1 <= len chunk <= MaxAudioChunkBytes)%Z) chunks /\
    log e' = log e ++ audio_events (e_requestID e) media index (sequence e) chunks.
Proof. intros. by apply EmitAudio_chunks. Qed.

Lemma EmitAudio_splits_without_loss_witness :
  let sink : Sink := fun _ _ => None in
  let e := stream sink example_request None 5 [Serve "acme" "dep"; Report 6 (OpStart "acme/m@1" 6);
                                               Report 7 (OpDelta 0 ChannelOutputText "x")] in
  exists e' chunks, EmitAudio sink 3 (fun _ => None) 8 0 "audio/wav" "abc" e = (None, e') /\
    String.concat "" chunks = "abc" /\ Forall (fun chunk => (1 <= len chunk <= MaxAudioChunkBytes)%Z) chunks /\
    log e' = log e ++ audio_events "req" "audio/wav" 0 2 chunks.
Proof.
  apply (EmitAudio_splits_without_loss (fun _ _ => None) 8 0 "audio/wav" "abc");
    [reflexivity..|by apply isMember_spec].
Defined.

(** Output delivered as a tool call is not timed: an accepted tool call
    commits the stream and counts as delivered output, yet the time to the
    first output stays zero, which means that none was produced; the same
    answer as text is timed. *)
Theorem tool_call_output_is_not_timed :
  let sink : Sink := fun _ _ => None in
  let serve := [Serve "acme" "dep"; Report 6 (OpStart "acme/m@1" 6)] in
  let called := stream sink example_request None 5 (serve ++ [Report 9 (OpToolCall (mkToolCall "t" "f" "{}" true))]) in
  let spoken := stream sink example_request None 5 (serve ++ [Report 9 (OpDelta 0 ChannelOutputText "x")]) in
  hasDeliveredOutput called = true /\ timeToFirstToken called = 0%Z /\ attemptOutputAt called = 0%Z /\
  hasDeliveredOutput spoken = true /\ timeToFirstToken spoken = 4%Z /\ attemptOutputAt spoken = 9%Z.
Proof. vm_compute. repeat split. Qed.
