(* ===== verification/Routes.v ===== *)
(** * From the signed list to routes (internal/kaana/executor.go)

    How a request's authorized routes become the ordered candidates it may be
    executed on, what a candidate's platform credentials are narrowed to, and
    how a request is translated for one. *)

From S2P Require Import Prelude Rotation Ids Text CustomerLimit.
From S2P Require Import Contract Request Provider KeyPool ProviderCost DecisionPrice Adapter Inventory Retry.

Record candidate := mkCandidate { c_route : Route; fundingCeiling : FundingTier }.

Definition invalidAuthorizedRoute (requestID : string) (index : nat) : Error :=
  WithParam ("authorizedRoutes[" +:+ Itoa (Z.of_nat index) +:+ "]") (NewError requestID CodeInvalidRequest).

(** ** The signed list against the inventory *)

(** The loop that crosses each signed region off the inventoried ones. *)
Fixpoint cross_off (inventoried : gset string) (regions : list string) : option (gset string) :=
  match regions with
  | [] => Some inventoried
  | region :: regions =>
      if decide (region ∈ inventoried) then cross_off (inventoried ∖ {[region]}) regions else None
  end.

Definition regionsMatch (authorized resolved : list string) : bool :=
  Nat.eqb (length authorized) (length resolved) &&
  match cross_off (list_to_set resolved) authorized with
  | Some left_over => bool_decide (left_over = ∅)
  | None => false
  end.

(** The inventory's route for one signed entry, or a disagreement. *)
Definition identify (snapshot : Inventory) (at_ : Instant) (authorized : AuthorizedRoute) : option Route :=
  match Resolve (ModelReference authorized) at_ snapshot with
  | inr _ => None
  | inl set =>
      match List.find (fun r => r_DeploymentID r =s DeploymentID authorized) (Candidates set) with
      | None => None
      | Some resolved =>
          if negb (r_Provider resolved =s route_Provider authorized) then None
          else if negb (regionsMatch (default [] (Regions authorized)) (r_Regions resolved)) then None
          else Some resolved
      end
  end.

Definition candidate_for (authorized : AuthorizedRoute) (resolved : Route) : candidate :=
  mkCandidate (set_CustomerProviderCredential (route_Credential authorized) resolved)
    match MaxFundingTier authorized with Some tier => tier_of_string tier | None => TierNone end.

(** The loop of [resolveAuthorizedRoutes], from an index and the revision seen
    of each model line. *)
Fixpoint resolve_from (snapshot : Inventory) (requestID : string) (at_ : Instant) (index : nat)
    (resolvedRevisions : gmap string string) (routes : list AuthorizedRoute) : list candidate + Error :=
  match routes with
  | [] => inl []
  | authorized :: routes =>
      match identify snapshot at_ authorized with
      | None => inr (invalidAuthorizedRoute requestID index)
      | Some resolved =>
          let line := ModelID (r_ModelReference resolved) in
          if match resolvedRevisions !! line with
             | Some revision => negb (revision =s r_ModelReference resolved)
             | None => false
             end
          then inr (invalidAuthorizedRoute requestID index)
          else match resolve_from snapshot requestID at_ (S index)
                       (<[line := r_ModelReference resolved]> resolvedRevisions) routes with
          | inl candidates => inl (candidate_for authorized resolved :: candidates)
          | inr failure => inr failure
          end
      end
  end.

Definition resolveAuthorizedRoutes (snapshot : Inventory) (requestID : string) (routes : list AuthorizedRoute)
    (at_ : Instant) : list candidate + Error :=
  resolve_from snapshot requestID at_ 0 ∅ routes.

(** The first route a concrete model target does not allow. *)
Fixpoint other_model (primary : string) (index : nat) (routes : list AuthorizedRoute) : option nat :=
  match routes with
  | [] => None
  | route :: routes =>
      if (Substitution route =s SubstitutionCrossModel) || negb (ModelReference route =s primary)
      then Some index else other_model primary (S index) routes
  end.

(** A decisions candidate under the ceiling of its reviewed card. *)
Definition price_candidate (costs : option Cards) (at_ : Instant) (c : candidate) : option candidate :=
  limit ← Cards_DecisionPriceLimit (r_DeploymentID (c_route c)) at_ costs;
  Some (mkCandidate (set_DecisionPriceLimit limit (c_route c)) (fundingCeiling c)).

(** [Executor.resolve]. *)
Definition resolve (snapshot : Inventory) (costs : option Cards) (request : Request) (at_ : Instant)
    : list candidate + Error :=
  let requestID := request_RequestID request in
  match AuthorizedRoutes request with
  | [] => inr (WithParam "authorizedRoutes" (NewError requestID CodeInvalidRequest))
  | primary :: _ =>
      match Request_Validate request with
      | Some _ => inr (NewError requestID CodeInvalidRequest)
      | None =>
          if negb (IsFirstParty (Principal (request_Attribution request)))
             && negb (HasScope (request_Attribution request) ScopeInvoke)
          then inr (NewError requestID CodeInsufficientScope)
          else match (if Kind (Target request) =s TargetModel
                      then other_model (ModelReference primary) 0 (AuthorizedRoutes request) else None) with
          | Some index => inr (invalidAuthorizedRoute requestID index)
          | None =>
              match resolveAuthorizedRoutes snapshot requestID (AuthorizedRoutes request) at_ with
              | inr failure => inr failure
              | inl candidates =>
                  if negb (APIFormat request =s APIFormatDecisions) then inl candidates
                  else match omap (price_candidate costs at_) candidates with
                  | [] => inr (NewError requestID CodeNoRouteAvailable)
                  | priced => inl priced
                  end
              end
          end
      end
  end.

(** ** One candidate *)

Definition boundedPool (credentials : option Credentials) (ceiling : FundingTier) : option (option Credentials) :=
  match credentials with
  | None => None
  | Some c =>
      match WithinFunding ceiling (c_view c) (c_pool c) with
      | Some v => Some (Some (mkCredentials (c_pool c) v))
      | None => None
      end
  end.

(** [attemptFunding]; the credentials are those of the route before any
    customer's replaced them. *)
Definition attemptFunding (credentials : option Credentials) (route : Route) (keyID : string) : Funding :=
  match credentials, r_CustomerProviderCredential route with
  | Some c, None => default FundingUnstated (FundingOf keyID (c_pool c))
  | _, _ => FundingUnstated
  end.

(** [credentialsForRoute]; [authority] is the customer credential resolver,
    if any, and what it answers for a scope. *)
Definition credentialsForRoute (authority : option (CustomerCredentialScope -> option string)) (requestID : string)
    (route : Route) (platformCredentials : option Credentials) : option Credentials + Error :=
  match r_CustomerProviderCredential route with
  | None => inl platformCredentials
  | Some binding =>
      let failure := inr (NewError requestID CodeBYOKCredentialInvalid) in
      match authority with
      | None => failure
      | Some ResolveForInference =>
          match ResolveForInference (customerCredentialScope (r_Provider route) binding) with
          | None => failure
          | Some plaintext =>
              match NewCustomerKeyPool (r_Provider route) plaintext with
              | Some pool => inl (Some (mkCredentials pool whole))
              | None => failure
              end
          end
      end
  end.

(** [translate]. *)
Definition translate (adapter : Adapter) (request : Request) (route : Route) : Call + GoError :=
  if negb (Executes adapter (APIFormat request)) then inr (ErrUnsupported CodeUnsupportedModality "client.apiFormat")
  else
    let outputs := ChatOutputsOf adapter route in
    let spoken := present (AudioOutput request) in
    if (APIFormat request =s APIFormatChatCompletions) && spoken && negb (ChatSpoken outputs)
    then inr (ErrUnsupported CodeUnsupportedModality "audioOutput")
    else if (APIFormat request =s APIFormatChatCompletions) && negb spoken && negb (ChatText outputs)
    then inr (ErrUnsupported CodeInvalidRequest "audioOutput")
    else a_Translate adapter request route.

(** [everyRouteOutOfRotation]. *)
Definition everyRouteOutOfRotation (requestID : string) (skipped : list string) (at_ : Instant)
    (rotation : Rotation.Registry) : Error :=
  let failure := NewError requestID CodeDeploymentUnavailable in
  let '(wait, known) := Rotation.SoonestProbe skipped at_ rotation in
  if known then WithRetryAfter (Milliseconds wait) failure else failure.

(** ** Lemmas *)

Lemma cross_off_spec inventoried regions left_over :
  cross_off inventoried regions = Some left_over <->
  NoDup regions /\ list_to_set regions ⊆ inventoried /\ left_over = inventoried ∖ list_to_set regions.
Proof.
  revert inventoried. induction regions as [|region regions IH]; intros inventoried; cbn [cross_off list_to_set].
  - rewrite difference_empty_L. split; [intros [= <-]; split; [constructor|set_solver]|by intros (_ & _ & ->)].
  - rewrite NoDup_cons. destruct (decide (region ∈ inventoried)) as [Hin|Hin]; [|split; [done|set_solver]].
    rewrite IH. split.
    + intros (Hnd & Hsub & ->). set_solver.
    + intros ([Hno Hnd] & Hsub & ->). split; [done|]. set_solver.
Qed.

Lemma regionsMatch_spec authorized resolved :
  regionsMatch authorized resolved = true <-> NoDup authorized /\ authorized ≡ₚ resolved.
Proof.
  unfold regionsMatch. rewrite andb_true_iff, Nat.eqb_eq. split.
  - intros [Hlen H]. destruct (cross_off _ authorized) as [left_over|] eqn:E; [|done].
    apply cross_off_spec in E as (Hnd & Hsub & _). split; [done|].
    apply submseteq_length_Permutation; [|lia]. apply NoDup_submseteq; [done|].
    intros x Hx. apply (elem_of_list_to_set (C:=gset string)), Hsub. by apply elem_of_list_to_set.
  - intros [Hnd Hp]. split; [by apply Permutation_length|].
    assert (cross_off (list_to_set resolved) authorized = Some ∅) as ->; [|by apply bool_decide_eq_true].
    apply cross_off_spec. split; [done|].
    rewrite (list_to_set_perm_L (C:=gset string) _ _ Hp), difference_diag_L. done.
Qed.

Lemma request_routes request :
  Request_Validate request = None ->
  AuthorizedRoutes request <> [] /\ Forall route_well_formed (AuthorizedRoutes request).
Proof.
  unfold Request_Validate. checks. intros H.
  assert (validateAuthorizedRoutes (Target request) (AuthorizedRoutes request) = None) as Hr by tauto. clear H.
  unfold validateAuthorizedRoutes, validateRouteList in Hr. checks.
  destruct Hr as [Hr _]. destruct (AuthorizedRoutes request) as [|primary rest]; [checks; naive_solver|].
  split; [done|]. by apply (validateRoutes_spec []) in Hr as [Hr _].
Qed.

Lemma other_model_None primary index routes :
  other_model primary index routes = None <->
  Forall (fun r => Substitution r <> SubstitutionCrossModel /\ ModelReference r = primary) routes.
Proof.
  revert index. induction routes as [|r routes IH]; intros index; cbn [other_model]; [split; [constructor|done]|].
  rewrite Forall_cons, <-(IH (S index)). destruct (_ || _) eqn:E.
  - rewrite orb_true_iff, String.eqb_eq, negb_true_iff, String.eqb_neq in E. split; [done|tauto].
  - bool_cases. tauto.
Qed.

(** The row a signed entry names, and the route it is executed on. *)
Definition row_for (ds : list Deployment) (a : AuthorizedRoute) (r : Route) : Prop :=
  exists d, d ∈ ds /\ d_DeploymentID d = DeploymentID a /\ d_ModelReference d = ModelReference a /\
    d_Provider d = route_Provider a /\ NoDup (default [] (Regions a)) /\ default [] (Regions a) ≡ₚ d_Regions d /\
    r = route_of (d_ModelReference d) (endpoint_of d).

Lemma identify_row f age i at_ a r :
  Parse f age = Some i -> Pinned (ModelReference a) = true ->
  identify i at_ a = Some r <-> row_for (Deployments_ f) a r.
Proof.
  intros (s & Hok & Hby & _)%Parse_ok Hpin. unfold identify, Resolve. rewrite Hby, (po_sets _ _ Hok), Hpin.
  set (ds := Deployments_ f) in *. transitivity (exists d, d ∈ declared (ModelReference a) ds /\
    d_DeploymentID d = DeploymentID a /\ d_Provider d = route_Provider a /\
    regionsMatch (default [] (Regions a)) (d_Regions d) = true /\ r = route_of (ModelReference a) (endpoint_of d)).
  2:{ unfold row_for. split.
      - intros (d & [Hin Href]%declared_nonempty & Hid & Hp & [Hnd Hreg]%regionsMatch_spec & ->).
        exists d. rewrite Href. done.
      - intros (d & Hin & Hid & Href & Hp & Hnd & Hreg & ->). exists d. rewrite declared_nonempty, regionsMatch_spec, Href.
        done. }
  assert (forall d d', d ∈ declared (ModelReference a) ds -> d' ∈ declared (ModelReference a) ds ->
    d_DeploymentID d = d_DeploymentID d' -> d = d') as Huniq.
  { intros d d' [Hd _]%declared_nonempty [Hd' _]%declared_nonempty Heq.
    apply list_elem_of_lookup in Hd as [j Hj], Hd' as [k Hk]. pose proof (po_ids _ _ Hok) as Hnd.
    assert (j = k) as <-; [|congruence].
    apply (NoDup_lookup _ j k (d_DeploymentID d) Hnd); rewrite list_lookup_fmap;
      [by rewrite Hj|by rewrite Hk, Heq]. }
  unfold set_for, Candidates. set (rows := declared (ModelReference a) ds) in *. clearbody rows.
  transitivity (match List.find (fun r => r_DeploymentID r =s DeploymentID a)
      (map (route_of (ModelReference a)) (map endpoint_of rows)) with
    | Some resolved =>
        if negb (r_Provider resolved =s route_Provider a) then None
        else if negb (regionsMatch (default [] (Regions a)) (r_Regions resolved)) then None else Some resolved
    | None => None
    end = Some r); [by destruct rows|].
  rewrite map_map. destruct (List.find _ _) as [x|] eqn:E.
  - apply List.find_some in E as [Hx Hid]. apply list_elem_of_In in Hx.
    change (map ?g ?l) with (g <$> l) in Hx. apply list_elem_of_fmap in Hx as (d & -> & Hd). cbn in Hid |- *. bool_cases.
    split.
    + intros H. split_ifs. by exists d.
    + intros (d' & Hd' & Hid' & Hp & Hreg & ->). assert (d' = d) as -> by (apply Huniq; congruence).
      rewrite Hp, String.eqb_refl, Hreg. done.
  - split; [done|]. intros (d & Hd & Hid & _). exfalso.
    assert ((d_DeploymentID d =s DeploymentID a) = false) as Hno; [|by rewrite Hid, String.eqb_refl in Hno].
    apply (List.find_none _ _ E (route_of (ModelReference a) (endpoint_of d))), List.in_map_iff.
    exists d. split; [done|]. by apply list_elem_of_In.
Qed.

Lemma Forall2_iff_in {A B} (P Q : A -> B -> Prop) l k :
  (forall x y, x ∈ l -> P x y <-> Q x y) -> Forall2 P l k <-> Forall2 Q l k.
Proof.
  intros H. split; intros Hf; revert H; induction Hf as [|x y l k Hxy Hf IH]; intros H; constructor;
    try (apply H; [by apply elem_of_cons; left|done]); apply IH; intros; apply H; by apply elem_of_cons; right.
Qed.

Definition one_revision (routes : list AuthorizedRoute) : Prop :=
  forall a b, a ∈ routes -> b ∈ routes ->
    ModelID (ModelReference a) = ModelID (ModelReference b) -> ModelReference a = ModelReference b.

(** The revisions seen so far agree with a route. *)
Definition seen_agrees (seen : gmap string string) (a : AuthorizedRoute) : Prop :=
  forall revision, seen !! ModelID (ModelReference a) = Some revision -> revision = ModelReference a.

Lemma seen_agrees_insert seen a b :
  seen_agrees (<[ModelID (ModelReference a) := ModelReference a]> seen) b /\ seen_agrees seen a <->
  (ModelID (ModelReference a) = ModelID (ModelReference b) -> ModelReference a = ModelReference b) /\
  seen_agrees seen b /\ seen_agrees seen a.
Proof.
  unfold seen_agrees. destruct (decide (ModelID (ModelReference a) = ModelID (ModelReference b))) as [Heq|Hne].
  - rewrite <-Heq, lookup_insert_eq. split.
    + intros [H1 H2]. specialize (H1 _ eq_refl). split; [done|]. split; [by rewrite <-H1|done].
    + intros (H1 & H2 & H3). split; [|done]. intros ? [= <-]. auto.
  - rewrite lookup_insert_ne by done. tauto.
Qed.

Lemma resolve_from_spec i requestID at_ index seen routes cs :
  (forall a r, a ∈ routes -> identify i at_ a = Some r -> r_ModelReference r = ModelReference a) ->
  resolve_from i requestID at_ index seen routes = inl cs <->
  Forall2 (fun a c => exists r, identify i at_ a = Some r /\ c = candidate_for a r) routes cs /\
  Forall (seen_agrees seen) routes /\ one_revision routes.
Proof.
  revert index seen cs. induction routes as [|a routes IH]; intros index seen cs Hid; cbn [resolve_from].
  { split.
    - intros [= <-]. split; [constructor|]. split; [constructor|]. by intros ? ? ?%elem_of_nil.
    - by intros (->%Forall2_nil_inv_l & _). }
  assert (one_revision (a :: routes) <-> Forall (fun b => ModelID (ModelReference a) = ModelID (ModelReference b) ->
    ModelReference a = ModelReference b) routes /\ one_revision routes) as Hone.
  { unfold one_revision. rewrite Forall_forall. split.
    - intros H. split; [intros b Hb|intros b c Hb Hc]; apply H; rewrite elem_of_cons; auto.
    - intros [H1 H2] b c [->|Hb]%elem_of_cons [->|Hc]%elem_of_cons; auto. intros Heq. symmetry. auto. }
  rewrite Forall_cons, Hone. destruct (identify i at_ a) as [r|] eqn:Er.
  2:{ split; [done|]. intros (H & _). apply Forall2_cons_inv_l in H as (c & cs' & (r & ? & _) & _). congruence. }
  assert (r_ModelReference r = ModelReference a) as Href by (apply (Hid a); [by apply elem_of_cons; left|done]).
  rewrite Href.
  assert ((match seen !! ModelID (ModelReference a) with
    | Some revision => negb (revision =s ModelReference a) | None => false end) = false <-> seen_agrees seen a) as Hseen.
  { unfold seen_agrees. destruct (seen !! _) as [v|]; [|naive_solver]. rewrite negb_false_iff, String.eqb_eq. naive_solver. }
  destruct (match seen !! _ with Some _ => _ | None => _ end).
  { split; [done|]. intros (_ & [H _] & _). by apply Hseen in H. }
  pose proof (proj1 Hseen eq_refl) as Ha.
  specialize (IH (S index) (<[ModelID (ModelReference a) := ModelReference a]> seen)).
  assert (Forall (seen_agrees (<[ModelID (ModelReference a) := ModelReference a]> seen)) routes <->
    Forall (fun b => ModelID (ModelReference a) = ModelID (ModelReference b) -> ModelReference a = ModelReference b) routes /\
    Forall (seen_agrees seen) routes) as Hins.
  { rewrite !Forall_forall. split.
    - intros H. split; intros b Hb; by apply (proj1 (seen_agrees_insert seen a b)); auto.
    - intros [H1 H2] b Hb. apply (proj2 (seen_agrees_insert seen a b)). auto. }
  setoid_rewrite Hins in IH.
  destruct (resolve_from _ _ _ _ _ routes) as [cs'|failure].
  - split.
    + intros [= <-]. destruct (proj1 (IH cs' ltac:(intros; eapply Hid; [by apply elem_of_cons; right|done])) eq_refl)
        as (H1 & [H2 H3] & H4). split; [constructor; [by exists r|done]|]. done.
    + intros (H1 & [_ H2] & H3 & H4). apply Forall2_cons_inv_l in H1 as (c & cs'' & (r' & Hr' & ->) & H1 & ->).
      assert (r' = r) as -> by congruence.
      do 2 f_equal. assert (inl (B:=Error) cs' = inl cs'') as [= ->]; [|done].
      apply IH; [|done]. intros; eapply Hid; [by apply elem_of_cons; right|done].
  - split; [done|]. intros (H1 & [_ H2] & H3 & H4).
    apply Forall2_cons_inv_l in H1 as (c & cs'' & (r' & Hr' & ->) & H1 & ->).
      assert (r' = r) as -> by congruence.
    assert (inr failure = inl (B:=Error) cs''); [|done]. apply IH; [|done].
    intros; eapply Hid; [by apply elem_of_cons; right|done].
Qed.

(** The candidate a signed entry becomes: the inventory's own row of that
    deployment and revision, under the signed credential and ceiling. *)
Definition executes_as (ds : list Deployment) (a : AuthorizedRoute) (c : candidate) : Prop :=
  exists r, row_for ds a r /\ c = candidate_for a r.

(** [resolveAuthorizedRoutes] against an accepted snapshot: one row per signed
    entry, in order. *)
Lemma resolveAuthorizedRoutes_spec f age i requestID routes at_ all :
  Parse f age = Some i -> Forall route_well_formed routes ->
  resolveAuthorizedRoutes i requestID routes at_ = inl all <->
  Forall2 (executes_as (Deployments_ f)) routes all /\ one_revision routes.
Proof.
  intros Hparse Hwf. rewrite Forall_forall in Hwf.
  assert (forall a r, a ∈ routes -> identify i at_ a = Some r <-> row_for (Deployments_ f) a r) as Hrow.
  { intros a r Ha. apply (identify_row f age); [done|]. apply wf_reference, Hwf, Ha. }
  unfold resolveAuthorizedRoutes. rewrite resolve_from_spec.
  2:{ intros a r Ha Hi. apply Hrow in Hi as (d & _ & _ & Href & _ & _ & _ & ->); [|done]. by rewrite <-Href. }
  assert (Forall (seen_agrees ∅) routes) as Hseen.
  { apply Forall_forall. intros a _ v. by rewrite lookup_empty. }
  rewrite (Forall2_iff_in _ (executes_as (Deployments_ f))); [tauto|].
  intros a c Ha. unfold executes_as. setoid_rewrite Hrow; [done|done].
Qed.


Definition global_row : Deployment := mkDeployment "dep" "acme" "acme/m@1" "m-1" [] true None.
Definition global_file : file := mkFile "snap" (Some (Spells 1000)) [global_row].
Definition global_inventory : Inventory :=
  mkInventory "snap" 1000 Hour {["acme/m@1" := set_for "acme/m@1" [global_row]]}
    {["acme/m" := set_for "acme/m@1" [global_row]]}.

