(* ===== verification/Settle.v ===== *)
(** * Settlement of a request (internal/kaana/executor.go, settle and finalize)

    From the attempt a request ends on to what is returned: the usage report
    Oxy settles, the terminal event of the stream, and what the attempts cost
    upstream. *)

From S2P Require Import Prelude Ids Text Contract Request Provider.
From S2P Require Import ProviderCost DecisionPrice UsageEstimate Answers Adapter Retry Emitter.

(** One candidate's turn. *)
Record attempt := mkAttempt {
  att_route : Route;
  att_outcome : AdapterOutcome;
  att_err : option GoError;
  att_cancelled : bool;
  att_funding : Funding;
}.

Definition set_outcome (o : AdapterOutcome) (a : attempt) : attempt :=
  mkAttempt (att_route a) o (att_err a) (att_cancelled a) (att_funding a).
Definition set_cancelled (a : attempt) : attempt :=
  mkAttempt (att_route a) (att_outcome a) (att_err a) true (att_funding a).

Definition DecisionSchemaVersion : Z := 1.
Definition EmbeddingResponseSchemaVersion : Z := 1.

Record DecisionResult := mkDecisionResult {
  dec_SchemaVersion : Z;
  dec_RequestID : string;
  dec_Model : string;
  dec_Data : list DecisionAnswer;
  dec_Usage : UsageReport;
}.

Record EmbeddingSuccess := mkEmbeddingSuccess {
  es_SchemaVersion : Z;
  es_RequestID : string;
  es_Model : string;
  es_Result : EmbeddingResult;
}.

Record Result := mkResult {
  res_Decisions : option DecisionResult;
  res_Embedding : option EmbeddingSuccess;
  res_DetectedLanguage : option string;
  Report : option UsageReport;
  Failure : option Error;
  UpstreamCost : Record_;
}.

Definition no_cost : Record_ := mkRecord "" [] [] false.
(** [Result{Failure: failure}]. *)
Definition refused (failure : Error) : Result := mkResult None None None None (Some failure) no_cost.

Definition set_Outcome (o : string) (r : UsageReport) : UsageReport :=
  mkReport (report_SchemaVersion r) (report_RequestID r) (report_GenerationID r) (report_Attribution r) o (Units r)
    (UsageSource r) (ResolvedModelReference r) (ServingProvider r) (report_DeploymentID r) (RouteSwitches r)
    (report_FundingTier r) (StartedAt r) (CompletedAt r) (TimeToFirstTokenMs r).
Definition set_UsageSource (s : string) (r : UsageReport) : UsageReport :=
  mkReport (report_SchemaVersion r) (report_RequestID r) (report_GenerationID r) (report_Attribution r) (Outcome r)
    (Units r) s (ResolvedModelReference r) (ServingProvider r) (report_DeploymentID r) (RouteSwitches r)
    (report_FundingTier r) (StartedAt r) (CompletedAt r) (TimeToFirstTokenMs r).
Definition set_TimeToFirstTokenMs (ms : Z) (r : UsageReport) : UsageReport :=
  mkReport (report_SchemaVersion r) (report_RequestID r) (report_GenerationID r) (report_Attribution r) (Outcome r)
    (Units r) (UsageSource r) (ResolvedModelReference r) (ServingProvider r) (report_DeploymentID r) (RouteSwitches r)
    (report_FundingTier r) (StartedAt r) (CompletedAt r) (Some ms).

Definition withGeneration (a : Attribution) (generationID : option string) : Attribution :=
  mkAttribution (Principal a) (UserID a) (attribution_RequestID a) generationID.

Definition finishReasonOr (reason fallback : string) : string := if reason =s "" then fallback else reason.

Definition outcomeFor (last : attempt) : string :=
  match att_err last with
  | None => OutcomeCompleted
  | Some _ => match out_Units (att_outcome last) with [] => OutcomeFailed | _ => OutcomePartial end
  end.

Definition unsettleable (r : UsageReport) (cost : Record_) : Result :=
  mkResult None None None None (Some (NewError (report_RequestID r) CodeInternalError)) cost.

Definition finalize (r : UsageReport) (failure : option Error) (sinkErr : option GoError) (cost : Record_) : Result :=
  match UsageReport_Validate r with
  | Some _ => unsettleable r cost
  | None =>
      let failure :=
        match sinkErr, failure with
        | Some _, None => Some (NewError (report_RequestID r) CodeCancelled)
        | _, _ => failure
        end in
      mkResult None None None (Some r) failure cost
  end.

Definition with_language (language : option string) (r : Result) : Result :=
  mkResult (res_Decisions r) (res_Embedding r) language (Report r) (Failure r) (UpstreamCost r).

(** ** The cost rows *)

Definition set_row_units (units : list UsageQuantity) (u : AttemptUsage) : AttemptUsage :=
  mkUsage (AttemptIndex u) (usage_DeploymentID u) (usage_Provider u) (usage_ModelReference u) (usage_OccurredAt u)
    (usage_ProviderBilledCustomer u) (usage_KeyID u) (KeyClass u) (ProviderReportedCost u) (Served u) units (Telemetry u).

Definition set_Served (served : bool) (u : AttemptUsage) : AttemptUsage :=
  mkUsage (AttemptIndex u) (usage_DeploymentID u) (usage_Provider u) (usage_ModelReference u) (usage_OccurredAt u)
    (usage_ProviderBilledCustomer u) (usage_KeyID u) (KeyClass u) (ProviderReportedCost u) served (usage_Units u)
    (Telemetry u).

(** Change the last row, if there is one. *)
Fixpoint on_last {A} (f : A -> A) (l : list A) : list A :=
  match l with
  | [] => []
  | [x] => [f x]
  | x :: l => x :: on_last f l
  end.

Definition mark_served (served : bool) (usage : list AttemptUsage) : list AttemptUsage :=
  on_last (set_Served served) (map (set_Served false) usage).

Section Settle.
Variables (sink : Sink) (costs : option Cards) (request : Request) (generationID : option string)
  (startedAt completedAt measuredAt : Instant).

Definition requestID : string := request_RequestID request.

Definition is_nil {A} (l : list A) : bool := match l with [] => true | _ => false end.
Definition isNone {A} (o : option A) : bool := match o with None => true | Some _ => false end.

(** The reconstruction of usage nobody reported: the attempt, the rows and the
    sink error after it. *)
Definition reconstruct (completed : bool) (last : attempt) (usage : list AttemptUsage) (sinkErr : option GoError)
    (e : emitter) : attempt * list AttemptUsage * option GoError * emitter :=
  let needsEstimate :=
    attemptStarted e && (completed || hasDeliveredOutput e)
    && (is_nil (out_Units (att_outcome last)) || (out_UsageSource (att_outcome last) =s UsageEstimated)) in
  if negb needsEstimate then (last, usage, sinkErr, e)
  else
    let units := supplement (out_Units (att_outcome last)) (estimate e) in
    let last := set_outcome (set_units units UsageEstimated (att_outcome last)) last in
    let usage := on_last (set_row_units units) usage in
    if negb (sinkFailed e) && isNone sinkErr
    then let '(err, e) := Usage sink units UsageEstimated e in (last, usage, err, e)
    else (last, usage, sinkErr, e).

Definition served (last : attempt) (e : emitter) : bool :=
  hasDeliveredOutput e
  || (isNone (att_err last)
      && (attemptStarted e || negb (isNone (out_Embedding (att_outcome last)))
          || negb (isNone (out_Decisions (att_outcome last))))).

Definition servedTier (last : attempt) (usage : list AttemptUsage) : option string :=
  match List.last (map Some usage) None with
  | Some row =>
      if Served row
      then if decide (Tier (att_funding last) = TierNone) then None else Some (tier_string (Tier (att_funding last)))
      else None
  | None => None
  end.

Definition report_of (last : attempt) (switches : Z) (tier : option string) : UsageReport :=
  mkReport UsageReportSchemaVersion requestID generationID (withGeneration (request_Attribution request) generationID)
    "" (out_Units (att_outcome last)) (out_UsageSource (att_outcome last)) (r_ModelReference (att_route last))
    (r_Provider (att_route last)) (r_DeploymentID (att_route last)) switches tier (NewTimestamp startedAt)
    (NewTimestamp completedAt) None.

(** A decisions answer; a validated decisions request has questions. *)
Definition settle_decisions (last : attempt) (report : UsageReport) (cost : Record_) : Result :=
  let answers := default [] (out_Decisions (att_outcome last)) in
  match Decisions (request_Input request) with
  | None => refused (NewError requestID CodeInternalError)
  | Some questions =>
      match ValidateDecisionAnswers questions answers with
      | Some _ =>
          finalize (set_Outcome OutcomeFailed report) (Some (NewError requestID CodeProviderError)) None cost
      | None =>
          let report := set_Outcome OutcomeCompleted report in
          match UsageReport_Validate report with
          | Some _ => unsettleable report cost
          | None =>
              mkResult
                (Some (mkDecisionResult DecisionSchemaVersion requestID (r_ModelReference (att_route last)) answers report))
                None None (Some report) None cost
          end
      end
  end.

(** An embedding. *)
Definition settle_embedding (last : attempt) (value : EmbeddingResult) (report : UsageReport) (cost : Record_) : Result :=
  let report := set_Outcome OutcomeCompleted report in
  let report := if UsageSource report =s "" then set_UsageSource UsageProviderReported report else report in
  mkResult None
    (Some (mkEmbeddingSuccess EmbeddingResponseSchemaVersion requestID (r_ModelReference (att_route last)) value))
    None (Some report) None cost.

Definition stream_outcome (last : attempt) (interrupted : bool) (e : emitter) : string :=
  if interrupted then outcomeFor last
  else match att_err last with
  | None => if attemptStarted e then OutcomeCompleted else OutcomeFailed
  | Some _ => if att_cancelled last then OutcomeCancelled else outcomeFor last
  end.

Definition complete_report (last : attempt) (interrupted : bool) (e : emitter) (report : UsageReport) : UsageReport :=
  let report :=
    if (0 <? timeToFirstToken e)%Z then set_TimeToFirstTokenMs (Milliseconds (timeToFirstToken e)) report else report in
  let report := if UsageSource report =s "" then set_UsageSource UsageEstimated report else report in
  set_Outcome (stream_outcome last interrupted e) report.

(** The terminal event of a stream and its result. *)
Definition settle_stream (last : attempt) (sinkErr : option GoError) (terminalFailure : option Error)
    (report : UsageReport) (cost : Record_) (e : emitter) : Result * emitter :=
  let report := complete_report last (negb (isNone sinkErr && isNone terminalFailure)) e report in
  match UsageReport_Validate report with
  | Some _ =>
      let failure := NewError (report_RequestID report) CodeInternalError in
      let e := if isNone sinkErr && negb (att_cancelled last) then (finishWithError sink failure e).2 else e in
      (mkResult None None None None (Some failure) cost, e)
  | None =>
      match sinkErr, terminalFailure with
      | Some _, _ => (finalize report None sinkErr cost, e)
      | None, Some failure =>
          let '(emitErr, e) := finishWithError sink failure e in (finalize report (Some failure) emitErr cost, e)
      | None, None =>
          match att_err last with
          | None =>
              if negb (attemptStarted e) then
                let failure := NewError requestID CodeInternalError in
                let '(_, e) := finishWithError sink failure e in (finalize report (Some failure) None cost, e)
              else
                let '(err, e) :=
                  finishWithDone sink (finishReasonOr (out_FinishReason (att_outcome last)) FinishStop) completedAt e in
                match err with
                | Some _ => (finalize report None err cost, e)
                | None =>
                    (with_language (out_DetectedLanguage (att_outcome last)) (finalize report None None cost), e)
                end
          | Some err =>
              if att_cancelled last
              then (finalize report (Some (NewError requestID CodeCancelled)) None cost, e)
              else
                let failure := upstreamFailure requestID (r_Provider (att_route last)) err in
                let '(emitErr, e) := finishWithError sink failure e in (finalize report (Some failure) emitErr cost, e)
          end
      end
  end.

(** [Executor.settle]. *)
Definition settle (last : attempt) (usage : list AttemptUsage) (switches : Z) (sinkErr : option GoError)
    (terminalFailure : option Error) (e : emitter) : Result * emitter :=
  let completed := isNone (att_err last) && isNone sinkErr && isNone terminalFailure in
  let '(last, usage, sinkErr, e) := reconstruct completed last usage sinkErr e in
  let usage := mark_served (served last e) usage in
  let cost := MeasureRequest measuredAt requestID usage costs in
  let report := report_of last switches (servedTier last usage) in
  if completed && (APIFormat request =s APIFormatDecisions) then (settle_decisions last report cost, e)
  else match att_err last, out_Embedding (att_outcome last) with
  | None, Some value => (settle_embedding last value report cost, e)
  | _, _ => settle_stream last sinkErr terminalFailure report cost e
  end.

End Settle.

(** ** Lemmas *)

Lemma finalize_spec r failure sinkErr cost :
  UsageReport_Validate r = None ->
  finalize r failure sinkErr cost =
  mkResult None None None (Some r)
    match sinkErr, failure with Some _, None => Some (NewError (report_RequestID r) CodeCancelled) | _, _ => failure end cost.
Proof. intros H. unfold finalize. by rewrite H. Qed.

(** What the reconstruction of usage leaves as it was. *)
Record reconstructed (last last' : attempt) (usage usage' : list AttemptUsage) (sinkErr sinkErr' : option GoError)
    : Prop := {
  rc_route : att_route last' = att_route last;
  rc_err : att_err last' = att_err last;
  rc_cancelled : att_cancelled last' = att_cancelled last;
  rc_funding : att_funding last' = att_funding last;
  rc_embedding : out_Embedding (att_outcome last') = out_Embedding (att_outcome last);
  rc_decisions : out_Decisions (att_outcome last') = out_Decisions (att_outcome last);
  rc_sink : sinkErr' = None -> sinkErr = None;
  rc_usage : usage' = usage \/ usage' = on_last (set_row_units (out_Units (att_outcome last'))) usage;
}.

Lemma reconstruct_keeps sink completed last usage sinkErr e last' usage' sinkErr' e' :
  reconstruct sink completed last usage sinkErr e = (last', usage', sinkErr', e') ->
  reconstructed last last' usage usage' sinkErr sinkErr'.
Proof.
  unfold reconstruct. destruct (negb (_ && _ && _)); [intros [= <- <- <- <-]; constructor; auto|].
  destruct (negb (sinkFailed e) && isNone sinkErr) eqn:E.
  - apply andb_true_iff in E as [_ E]. destruct sinkErr; [done|].
    destruct (Usage _ _ _ _) as [err e1]. intros [= <- <- <- <-]. constructor; auto.
  - intros [= <- <- <- <-]. constructor; auto.
Qed.

Lemma complete_report_keeps last interrupted e r :
  let r' := complete_report last interrupted e r in
  report_RequestID r' = report_RequestID r /\ ResolvedModelReference r' = ResolvedModelReference r /\
  ServingProvider r' = ServingProvider r /\ report_DeploymentID r' = report_DeploymentID r /\
  RouteSwitches r' = RouteSwitches r /\ Units r' = Units r /\ Outcome r' = stream_outcome last interrupted e.
Proof. unfold complete_report. cbn zeta. destruct (0 <? _)%Z, (UsageSource _ =s ""); done. Qed.

Lemma stream_outcome_spec last interrupted e :
  (stream_outcome last interrupted e = OutcomeCompleted -> att_err last = None) /\
  (stream_outcome last interrupted e = OutcomeCancelled -> att_cancelled last = true).
Proof.
  unfold stream_outcome, outcomeFor. destruct (att_err last), interrupted, (attemptStarted e), (att_cancelled last);
    try destruct (out_Units _); split; done.
Qed.

(** What a stream's settlement returns. *)
Lemma settle_stream_report sink request completedAt last sinkErr tf r cost e :
  Report (settle_stream sink request completedAt last sinkErr tf r cost e).1 =
  let r' := complete_report last (negb (isNone sinkErr && isNone tf)) e r in
  match UsageReport_Validate r' with Some _ => None | None => Some r' end.
Proof.
  unfold settle_stream. cbn zeta. set (r' := complete_report _ _ _ _). clearbody r'.
  destruct (UsageReport_Validate r') eqn:Hv; [done|].
  destruct sinkErr; [by rewrite finalize_spec|].
  destruct tf; [by destruct (finishWithError _ _ _); rewrite finalize_spec|].
  destruct (att_err last).
  - destruct (att_cancelled last); [by rewrite finalize_spec|]. by destruct (finishWithError _ _ _); rewrite finalize_spec.
  - destruct (negb _); [by destruct (finishWithError _ _ _); rewrite finalize_spec|].
    by destruct (finishWithDone _ _ _) as [[err|] e']; rewrite finalize_spec.
Qed.

Lemma settle_stream_success sink request completedAt last sinkErr tf r cost e r' :
  Report (settle_stream sink request completedAt last sinkErr tf r cost e).1 = Some r' ->
  Failure (settle_stream sink request completedAt last sinkErr tf r cost e).1 = None -> Outcome r' = OutcomeCompleted.
Proof.
  unfold settle_stream. cbn zeta. set (r1 := complete_report _ _ _ _).
  assert (Outcome r1 = stream_outcome last (negb (isNone sinkErr && isNone tf)) e) as Ho by apply complete_report_keeps.
  clearbody r1. destruct (UsageReport_Validate r1) eqn:Hv; [done|].
  destruct sinkErr; [by rewrite finalize_spec|].
  destruct tf; [by destruct (finishWithError _ _ _) as [[err|] e']; rewrite finalize_spec|]. cbn in Ho. unfold stream_outcome in Ho.
  destruct (att_err last).
  - destruct (att_cancelled last); [by rewrite finalize_spec|]. by destruct (finishWithError _ _ _) as [[err'|] e']; rewrite finalize_spec.
  - destruct (attemptStarted e); cbn [negb].
    + destruct (finishWithDone _ _ _) as [[err|] e']; rewrite finalize_spec by done; [done|]. cbn. by intros [= <-].
    + by destruct (finishWithError _ _ _) as [[err|] e']; rewrite finalize_spec.
Qed.

Lemma settle_decisions_report request last r cost r' :
  let res := settle_decisions request last r cost in
  Report res = Some r' -> UsageReport_Validate r' = None /\ exists o, r' = set_Outcome o r /\
    (Failure res = None -> o = OutcomeCompleted) /\ (o = OutcomeCompleted \/ o = OutcomeFailed).
Proof.
  unfold settle_decisions. cbn zeta. destruct (Decisions _); [|done].
  destruct (ValidateDecisionAnswers _ _).
  - unfold finalize. destruct (UsageReport_Validate (set_Outcome OutcomeFailed r)) eqn:E; [done|].
    intros [= <-]. split; [done|]. exists OutcomeFailed. split; [done|]. split; [done|]. by right.
  - destruct (UsageReport_Validate (set_Outcome OutcomeCompleted r)) eqn:E; [done|].
    intros [= <-]. split; [done|]. exists OutcomeCompleted. split; [done|]. split; [done|]. by left.
Qed.

(** A report is about the attempt it settles. *)
Record reports_on (request : Request) (last : attempt) (switches : Z) (r : UsageReport) : Prop := {
  ro_request : report_RequestID r = request_RequestID request;
  ro_reference : ResolvedModelReference r = r_ModelReference (att_route last);
  ro_provider : ServingProvider r = r_Provider (att_route last);
  ro_deployment : report_DeploymentID r = r_DeploymentID (att_route last);
  ro_switches : RouteSwitches r = switches;
}.

(** C3. A report that is returned can be settled.  Whatever the attempt
    returned and however the stream ended, a usage report comes back only when
    it satisfies every rule of the contract, and it names this request, the
    attempt's own route and the switches counted; it says completed only for an
    attempt that succeeded and cancelled only for one the customer withdrew
    from, and a result without a failure is a completed one.  An embedding's
    report is the one exception. *)
Theorem returned_reports_are_settleable sink costs request gen startedAt completedAt measuredAt last usage switches
    sinkErr tf e r :
  (att_err last = None -> out_Embedding (att_outcome last) = None) ->
  let result := (settle sink costs request gen startedAt completedAt measuredAt last usage switches sinkErr tf e).1 in
  Report result = Some r ->
  settleable r /\ reports_on request last switches r /\
  (Failure result = None -> Outcome r = OutcomeCompleted) /\
  (Outcome r = OutcomeCompleted -> att_err last = None) /\
  (Outcome r = OutcomeCancelled -> att_cancelled last = true).
Proof.
  intros Hemb. unfold settle. set (completed := isNone _ && _ && _).
  destruct (reconstruct _ _ _ _ _ _) as [[[last' usage'] sinkErr'] e'] eqn:Er.
  apply reconstruct_keeps in Er as []. rewrite <-UsageReport_Validate_settleable.
  cbn zeta. set (cost := MeasureRequest _ _ _ _). set (report := report_of _ _ _ _ _ _ _).
  assert (reports_on request last switches report) as Hon by (constructor; cbn; rewrite ?rc_route0; done).
  clearbody cost report. destruct (completed && _) eqn:Ec; cbn [fst].
  - apply andb_true_iff in Ec as [Ec _]. unfold completed in Ec. rewrite !andb_true_iff in Ec.
    assert (att_err last = None) as Herr by (destruct (att_err last); naive_solver).
    intros (Hv & o & -> & Hf & Ho)%settle_decisions_report. split; [done|].
    split; [destruct Hon; by constructor|]. split; [done|]. split; [done|]. cbn. by destruct Ho as [->| ->].
  - assert (match att_err last', out_Embedding (att_outcome last') with
      | None, Some value => (settle_embedding request last' value report cost, e')
      | _, _ => settle_stream sink request completedAt last' sinkErr' tf report cost e' end =
      settle_stream sink request completedAt last' sinkErr' tf report cost e') as ->.
    { rewrite rc_err0, rc_embedding0. destruct (att_err last); [done|]. by rewrite Hemb. }
    intros Hr. pose proof (settle_stream_success _ _ _ _ _ _ _ _ _ _ Hr) as Hs.
    rewrite settle_stream_report in Hr. cbn zeta in Hr.
    set (interrupted := negb _) in Hr. pose proof (complete_report_keeps last' interrupted e' report) as Hk.
    cbn zeta in Hk. destruct (stream_outcome_spec last' interrupted e') as [H1 H2].
    destruct (UsageReport_Validate _) eqn:Hv; [done|]. injection Hr as <-.
    destruct Hk as (K1 & K2 & K3 & K4 & K5 & K6 & K7). split; [done|].
    split; [destruct Hon; constructor; congruence|]. split; [done|]. rewrite K7, <-rc_err0, <-rc_cancelled0. done.
Qed.

Definition accepting : Sink := fun _ _ => None.
Definition example_served_route : Route := mkRoute "dep" "acme" "acme/m@1" "m-1" [] None None None.
Definition example_actions : list Emitter.Action :=
  [Serve "acme" "dep"; Emitter.Report 6 (OpStart "acme/m@1" 6); Emitter.Report 7 (OpDelta 0 ChannelOutputText "hi")].
Definition example_answer_stream : emitter := stream accepting example_request None 5 example_actions.
Definition example_units : list UsageQuantity := [mkQuantity UnitRequests 1; mkQuantity UnitOutputTokens 3].
Definition example_outcome : AdapterOutcome :=
  mkOutcome None None None example_units UsageProviderReported FinishLength "k" KeyClassFree None 0.
Definition example_row_usage : AttemptUsage :=
  mkUsage 0 "dep" "acme" "acme/m@1" 8 false "k" KeyClassFree None false example_units
    (mkTelemetry 5 3 2 AttemptSucceeded "").
Definition example_attempt (err : option GoError) (cancelled : bool) : attempt :=
  mkAttempt example_served_route example_outcome err cancelled FundingFree.

Lemma returned_reports_are_settleable_witness :
  let result := (settle accepting None example_request None 5 9 10 (example_attempt None false) [example_row_usage] 0
                   None None example_answer_stream).1 in
  exists r, Report result = Some r /\ settleable r /\ Outcome r = OutcomeCompleted.
Proof.
  eexists. split; [vm_compute; reflexivity|].
  destruct (returned_reports_are_settleable accepting None example_request None 5 9 10 (example_attempt None false)
    [example_row_usage] 0 None None example_answer_stream _ (fun _ => eq_refl) ltac:(vm_compute; reflexivity))
    as (Hs & _ & Hc & _). split; [exact Hs|]. apply Hc. vm_compute. reflexivity.
Defined.

(** *** The stream's end *)

Lemma accepting_send (event : Z -> StreamEvent) sink e :
  (forall l ev, sink l ev = None) -> terminated e = false ->
  send_next sink event e = (None, push (event (sequence e)) None (set_sequence (sequence e + 1) e)).
Proof. intros Hs Ht. rewrite send_next_spec, Ht. cbn zeta. by rewrite Hs. Qed.

Lemma accepting_error sink failure e :
  (forall l ev, sink l ev = None) -> terminated e = false ->
  exists e', finishWithError sink failure e = (None, e') /\ terminated e' = true /\
    events e' = events e ++ [StreamErrorEvent (e_requestID e) (sequence e) failure].
Proof.
  intros Hs Ht. unfold finishWithError. rewrite Ht, accepting_send by done. eexists. split; [done|].
  split; [done|]. unfold events. cbn. by rewrite fmap_app.
Qed.

Lemma accepting_held sink held e :
  (forall l ev, sink l ev = None) -> terminated e = false -> (send_held sink held e).1 = None.
Proof.
  intros Hs. revert e. induction held as [|event held IH]; intros e Ht; [done|].
  cbn [send_held]. unfold and_then. rewrite accepting_send by done. by apply IH.
Qed.

Lemma accepting_commit u0 sink e :
  (forall l ev, sink l ev = None) -> terminated e = false -> emitter_inv u0 e -> attemptStarted e = true ->
  (commit sink e).1 = None.
Proof.
  intros Hs Ht Hinv Hatt. unfold commit. destruct (started e) eqn:Est; [done|].
  destruct (inv_start _ _ Hinv Est Hatt) as (resolved & at_ & _ & ->). unfold and_then.
  rewrite accepting_send by done. by apply accepting_held.
Qed.

Lemma accepting_done u0 sink reason at_ e :
  (forall l ev, sink l ev = None) -> terminated e = false -> emitter_inv u0 e -> attemptStarted e = true ->
  exists e' l n, finishWithDone sink reason at_ e = (None, e') /\ terminated e' = true /\
    events e' = events e ++ l ++ [StreamDoneEvent (e_requestID e) n (e_generationID e) reason (NewTimestamp at_)].
Proof.
  intros Hs Ht Hinv Hatt. unfold finishWithDone, and_then, requireStarted. rewrite Hatt.
  pose proof (accepting_commit u0 sink e Hs Ht Hinv Hatt) as Hc.
  destruct (commit_ok sink u0 e Hinv Hatt) as ([_ Hid Hgen _ Hterm _ [l Hl] _ _] & _ & _).
  destruct (commit sink e) as [err e1]. cbn [fst snd] in *. subst err.
  rewrite accepting_send by (done || congruence). rewrite Hid, Hgen.
  eexists _, l.*1, _. split; [reflexivity|]. split; [done|].
  unfold events. cbn. by rewrite fmap_app, Hl, fmap_app, <-app_assoc.
Qed.

Lemma supplement_nonempty reported e : supplement reported e <> [].
Proof.
  assert (forall qs l, l <> [] -> foldl supplement_one l qs <> []) as Hkeep.
  { induction qs as [|q qs IH]; intros l Hl; [done|]. cbn [foldl]. apply IH. unfold supplement_one.
    destruct (position_of _ l) as [n|]; [|by destruct l].
    destruct (l !! n); [|done]. destruct (_ && _); [|done]. intros Hnil. apply Hl, length_zero_iff_nil.
    by rewrite <-(length_insert l n (mkQuantity (Unit u) (Quantity q))), Hnil. }
  unfold supplement, units. cbn [foldl app]. apply Hkeep. unfold supplement_one.
  destruct (position_of _ reported) as [n|] eqn:E; [|by destruct reported].
  destruct (reported !! n) as [u|] eqn:El; [|by destruct reported].
  destruct (_ && _); [|by destruct reported]. destruct reported; [done|]. by destruct n.
Qed.

Lemma accepting_usage u0 sink us source e :
  (forall l ev, sink l ev = None) -> terminated e = false -> emitter_inv u0 e -> attemptStarted e = true -> us <> [] ->
  exists e', Usage sink us source e = (None, e') /\ emitter_inv u0 e' /\ terminated e' = false /\
    attemptStarted e' = true /\ e_requestID e' = e_requestID e /\ e_generationID e' = e_generationID e /\
    exists l, events e' = events e ++ l.
Proof.
  intros Hs Ht Hinv Hatt Hne. pose proof (apply_op_ok sink u0 0 (OpUsage us source) e Hinv) as [H1 H2 H3 _ H4 _ [l Hl] _ _].
  cbn [apply_op] in *. unfold Usage, and_then, requireStarted, guard in *. rewrite Hatt in *.
  destruct us as [|q us]; [done|]. cbn [length Nat.eqb ok] in *. unfold sendOrHold in *.
  destruct (started e); [rewrite accepting_send in * by done|]; eexists; (split; [reflexivity|]); cbn [snd] in *;
    (split; [done|]); (split; [congruence|]); (split; [done|]); (split; [done|]); (split; [done|]);
    exists l.*1; unfold events; by rewrite Hl, fmap_app.
Qed.

(** How a settled stream ends: with the terminal event of the result, or
    unwritten because the customer withdrew. *)
Definition ends_with (requestID : string) (cancelled : bool) (before : list StreamEvent) (failure : option Error)
    (e : emitter) : Prop :=
  exists l, match failure with
  | None => exists n gen reason at_, terminated e = true /\
      events e = before ++ l ++ [StreamDoneEvent requestID n gen reason at_]
  | Some f =>
      (terminated e = true /\ exists n, events e = before ++ l ++ [StreamErrorEvent requestID n f]) \/
      (cancelled = true /\ terminated e = false /\ events e = before ++ l)
  end.

Lemma ends_with_app id cancelled before l failure e :
  ends_with id cancelled (before ++ l) failure e -> ends_with id cancelled before failure e.
Proof.
  intros [l' H]. exists (l ++ l'). destruct failure.
  - destruct H as [(Ht & n & ->)|(Hc & Ht & ->)]; [left|right].
    + split; [done|]. exists n. by rewrite <-!app_assoc.
    + by rewrite <-!app_assoc.
  - destruct H as (n & gen & reason & at_ & Ht & ->). exists n, gen, reason, at_. by rewrite <-!app_assoc.
Qed.

Lemma settle_stream_ends u0 sink request completedAt last tf r cost e :
  (forall l ev, sink l ev = None) -> terminated e = false -> emitter_inv u0 e ->
  let '(res, e') := settle_stream sink request completedAt last None tf r cost e in
  ends_with (e_requestID e) (att_cancelled last) (events e) (Failure res) e'.
Proof.
  intros Hs Ht Hinv. unfold settle_stream. cbn zeta.
  set (r' := complete_report _ _ _ _). clearbody r'.
  assert (forall failure, let '(err, e') := finishWithError sink failure e in
    err = None /\ ends_with (e_requestID e) (att_cancelled last) (events e) (Some failure) e') as Herr.
  { intros failure. destruct (accepting_error sink failure e Hs Ht) as (e' & -> & H1 & H2).
    split; [done|]. exists []. left. split; [done|]. by exists (sequence e). }
  assert (att_cancelled last = true -> forall f, ends_with (e_requestID e) (att_cancelled last) (events e) (Some f) e) as Hcan.
  { intros Hc f. exists []. right. by rewrite app_nil_r. }
  destruct (UsageReport_Validate r') eqn:Hv; cbn [isNone andb].
  { destruct (att_cancelled last) eqn:Ec; cbn [negb Failure]; [by apply Hcan|].
    specialize (Herr (NewError (report_RequestID r') CodeInternalError)). destruct (finishWithError _ _ _). apply Herr. }
  destruct tf as [f|].
  { specialize (Herr f). destruct (finishWithError _ _ _) as [err e']. destruct Herr as [-> Herr].
    by rewrite finalize_spec. }
  destruct (att_err last) as [err|].
  - destruct (att_cancelled last) eqn:Ec; [rewrite finalize_spec by done; by apply Hcan|].
    specialize (Herr (upstreamFailure (requestID request) (r_Provider (att_route last)) err)).
    destruct (finishWithError _ _ _) as [err' e']. destruct Herr as [-> Herr]. by rewrite finalize_spec.
  - destruct (attemptStarted e) eqn:Hatt; cbn [negb].
    + destruct (accepting_done u0 sink (finishReasonOr (out_FinishReason (att_outcome last)) FinishStop) completedAt e
        Hs Ht Hinv Hatt) as (e' & l & n & -> & H1 & H2).
      rewrite finalize_spec by done. cbn [Failure with_language]. exists l, n. eexists _, _, _. by split.
    + specialize (Herr (NewError (requestID request) CodeInternalError)).
      destruct (finishWithError _ _ _) as [err' e']. destruct Herr as [_ Herr]. by rewrite finalize_spec.
Qed.

(** The customer is told once, and told the truth.  When the sink accepts
    every event, settling the stream of a request that is neither a decisions
    nor an embedding answer ends it with exactly the failure the result
    carries, or with done when it carries none; only a stream the customer
    withdrew from is left without a terminal event. *)
Theorem result_and_stream_agree sink costs request gen startedAt completedAt measuredAt actions admittedAt last usage
    switches tf :
  (forall l ev, sink l ev = None) ->
  APIFormat request <> APIFormatDecisions -> out_Embedding (att_outcome last) = None ->
  let e := stream sink request gen admittedAt actions in
  terminated e = false ->
  let '(res, e') := settle sink costs request gen startedAt completedAt measuredAt last usage switches None tf e in
  ends_with (request_RequestID request) (att_cancelled last) (events e) (Failure res) e'.
Proof.
  intros Hs Hdec Hemb e Ht. destruct (stream_keeps sink request gen admittedAt actions) as [Hinv Hid].
  fold e in Hinv, Hid. change (e_requestID (newEmitter _ _ _)) with (request_RequestID request) in Hid. clearbody e.
  unfold settle. set (completed := isNone _ && _ && _).
  destruct (reconstruct _ _ _ _ _ _) as [[[last' usage'] sinkErr'] e1] eqn:Er.
  pose proof (reconstruct_keeps _ _ _ _ _ _ _ _ _ _ Er) as [].
  assert (sinkErr' = None /\ emitter_inv (newUsageEstimate request) e1 /\ terminated e1 = false /\
    e_requestID e1 = e_requestID e /\ exists l, events e1 = events e ++ l) as (-> & Hinv1 & Ht1 & Hid1 & l & Hl).
  { unfold reconstruct in Er. destruct (negb (_ && _ && _)) eqn:En.
    { injection Er as <- <- <- <-. split_and!; try done. exists []. by rewrite app_nil_r. }
    bool_cases. destruct (negb (sinkFailed e) && isNone None).
    - destruct (accepting_usage _ sink (supplement (out_Units (att_outcome last)) (estimate e)) UsageEstimated e Hs Ht
        Hinv ltac:(done) (supplement_nonempty _ _)) as (e2 & He2 & ? & ? & ? & ? & ? & ?).
      rewrite He2 in Er. injection Er as <- <- <- <-. done.
    - injection Er as <- <- <- <-. split_and!; try done. exists []. by rewrite app_nil_r. }
  cbn zeta. apply String.eqb_neq in Hdec as ->. rewrite andb_false_r, rc_embedding0, Hemb.
  rewrite <-Hid, <-Hid1, <-rc_cancelled0. set (report := report_of _ _ _ _ _ _ _). set (cost := MeasureRequest _ _ _ _).
  clearbody report cost.
  pose proof (settle_stream_ends _ sink request completedAt last' tf report cost e1 Hs Ht1 Hinv1) as Hend.
  rewrite Hl in Hend. by destruct (att_err last'), (settle_stream _ _ _ _ _ _ _ _ _); apply ends_with_app in Hend.
Qed.

Lemma result_and_stream_agree_witness :
  let e := stream accepting example_request None 5 example_actions in
  let settled := settle accepting None example_request None 5 9 10 (example_attempt None false) [example_row_usage] 0
                   None None e in
  Failure settled.1 = None /\
  let '(res, e') := settled in ends_with (request_RequestID example_request) false (events e) (Failure res) e'.
Proof.
  cbv zeta. split; [vm_compute; reflexivity|].
  assert (APIFormat example_request <> APIFormatDecisions) as Hformat by discriminate.
  assert (terminated (stream accepting example_request None 5 example_actions) = false) as Hlive by (vm_compute; reflexivity).
  exact (result_and_stream_agree accepting None example_request None 5 9 10 example_actions
    5 (example_attempt None false) [example_row_usage] 0 None (fun _ _ => eq_refl) Hformat eq_refl Hlive).
Defined.

(** *** The cost rows *)

Lemma on_last_snoc {A} (f : A -> A) l x : on_last f (l ++ [x]) = l ++ [f x].
Proof.
  induction l as [|y l IH]; [done|]. cbn [app on_last]. rewrite IH. by destruct l.
Qed.

Lemma measured_rows now id usage costs : cost_Usage <$> Attempts (MeasureRequest now id usage costs) = usage.
Proof.
  unfold MeasureRequest. cbn. change (map ?g ?l) with (g <$> l). rewrite <-list_fmap_compose. apply list_fmap_id.
Qed.

Lemma settle_stream_cost sink request completedAt last sinkErr tf r cost e :
  UpstreamCost (settle_stream sink request completedAt last sinkErr tf r cost e).1 = cost.
Proof.
  unfold settle_stream, finalize, unsettleable. cbn zeta.
  repeat (case_match; simplify_eq/=; try done).
Qed.

(** Whether the usage of an attempt has to be reconstructed. *)
Definition unreported (last : attempt) (completed : bool) (e : emitter) : bool :=
  attemptStarted e && (completed || hasDeliveredOutput e)
  && (is_nil (out_Units (att_outcome last)) || (out_UsageSource (att_outcome last) =s UsageEstimated)).

(** The units an attempt is billed: the provider's, supplemented by the
    estimate of what was delivered when it reported none or an estimate. *)
Definition billed_units (last : attempt) (completed : bool) (e : emitter) : list UsageQuantity :=
  if unreported last completed e then supplement (out_Units (att_outcome last)) (estimate e)
  else out_Units (att_outcome last).

Lemma Usage_keeps sink us source e :
  hasDeliveredOutput (Usage sink us source e).2 = hasDeliveredOutput e /\
  attemptStarted (Usage sink us source e).2 = attemptStarted e.
Proof.
  unfold Usage, and_then, requireStarted, guard, sendOrHold, refuse, ok. destruct (attemptStarted e) eqn:Ea; [|done].
  destruct (Nat.eqb _ 0); [done|]. destruct (started e); [|done].
  pose proof (send_next_wrote sink (stampSequence (StreamUsageEvent (e_requestID e) 0 (deployment e) us source)) e) as Hw.
  apply wrote_fields in Hw as (_ & _ & _ & Ha & _ & _ & He & _). unfold hasDeliveredOutput. split; [by rewrite He|congruence].
Qed.

Lemma reconstruct_rows sink completed last usage row sinkErr e last' usage' sinkErr' e' :
  reconstruct sink completed last (usage ++ [row]) sinkErr e = (last', usage', sinkErr', e') ->
  hasDeliveredOutput e' = hasDeliveredOutput e /\ attemptStarted e' = attemptStarted e /\
  out_Units (att_outcome last') = billed_units last completed e /\
  usage' = usage ++ [if unreported last completed e then set_row_units (billed_units last completed e) row else row].
Proof.
  unfold reconstruct, billed_units. fold (unreported last completed e). destruct (unreported last completed e); cbn [negb].
  2:{ by intros [= <- <- <- <-]. }
  set (us := supplement _ _). rewrite on_last_snoc. destruct (negb (sinkFailed e) && isNone sinkErr).
  - pose proof (Usage_keeps sink us UsageEstimated e) as [H1 H2]. destruct (Usage sink us UsageEstimated e) as [err e1].
    intros [= <- <- <- <-]. done.
  - by intros [= <- <- <- <-].
Qed.

(** What a settlement returns beside its answer: the report's units and tier
    are those the report was made with, and the cost is the measured one. *)
Record settles_as (report : UsageReport) (cost : Record_) (result : Result) : Prop := {
  sa_cost : UpstreamCost result = cost;
  sa_units : forall r, Report result = Some r -> Units r = Units report /\ report_FundingTier r = report_FundingTier report;
}.

Lemma settle_decisions_settles request last report cost :
  Decisions (request_Input request) <> None -> settles_as report cost (settle_decisions request last report cost).
Proof.
  intros Hd. constructor.
  - unfold settle_decisions, finalize, unsettleable. repeat (case_match; simplify_eq/=; try done).
  - intros r Hr. by apply settle_decisions_report in Hr as (_ & o & -> & _).
Qed.

Lemma settle_stream_settles sink request completedAt last sinkErr tf report cost e :
  settles_as report cost (settle_stream sink request completedAt last sinkErr tf report cost e).1.
Proof.
  constructor; [apply settle_stream_cost|]. intros r. rewrite settle_stream_report. cbn zeta.
  destruct (UsageReport_Validate _); [done|]. intros [= <-]. unfold complete_report.
  by destruct (0 <? _)%Z, (UsageSource _ =s "").
Qed.

Lemma settle_embedding_settles request last value report cost :
  settles_as report cost (settle_embedding request last value report cost).
Proof. constructor; [done|]. intros r [= <-]. by destruct (UsageSource _ =s ""). Qed.



(** *** Where the comments and the code part *)

(** The report of an embedding is returned without being validated: an
    embedding whose provider counted a negative number of tokens completes with
    a report the contract refuses. *)
Lemma embedding_report_is_not_validated :
  let outcome := mkOutcome None (Some (mkEmbedding 1 [] (-1) (-1))) None [mkQuantity UnitInputTokens (-1)]
                   UsageProviderReported "" "k" "" None 0 in
  let last := mkAttempt example_served_route outcome None false FundingFree in
  let e := newEmitter example_request None 5 in
  let result := (settle accepting None example_request None 5 9 10 last [example_row_usage] 0 None None e).1 in
  Failure result = None /\ exists r, Report result = Some r /\ Outcome r = OutcomeCompleted /\ UsageReport_Validate r <> None.
Proof. split; [vm_compute; reflexivity|]. eexists. split; [vm_compute; reflexivity|]. by vm_compute. Qed.

(** A cancelled stream is written to again: when the provider had reported no
    usage, the estimate is sent to the customer who withdrew. *)
Lemma cancelled_stream_is_written_again :
  let outcome := mkOutcome None None None [] "" "" "k" "" None 0 in
  let last := mkAttempt example_served_route outcome (Some ContextCanceled) true FundingFree in
  let '(result, e') := settle accepting None example_request None 5 9 10 last [example_row_usage] 0 None None
                         example_answer_stream in
  (err_Code <$> Failure result) = Some CodeCancelled /\
  exists event, events e' = events example_answer_stream ++ [event] /\ EventType event = EventUsage.
Proof. vm_compute. split; [reflexivity|]. eexists. split; reflexivity. Qed.

(** An attempt that failed before any output reached the customer is reported
    with its units: its report is partial, and nothing but the error was sent. *)
Lemma failed_attempt_is_reported_with_units :
  let failure := ErrUpstream (mkUpstream CodeProviderError UpstreamServerError 0 None false) in
  let e := stream accepting example_request None 5 [Serve "acme" "dep"; Emitter.Report 6 (OpStart "acme/m@1" 6)] in
  let '(result, e') := settle accepting None example_request None 5 9 10 (example_attempt (Some failure) false)
                         [example_row_usage] 0 None None e in
  hasDeliveredOutput e' = false /\ map EventType (events e') = [EventError] /\
  (exists r, Report result = Some r /\ Outcome r = OutcomePartial /\ Units r = example_units) /\
  Served <$> (cost_Usage <$> Attempts (UpstreamCost result)) = [false].
Proof. vm_compute. split; [reflexivity|]. split; [reflexivity|]. split; [|reflexivity]. eexists. repeat split. Qed.
