(* ===== verification/Executor.v ===== *)
(** * The executor (internal/kaana/executor.go)

    One request over its candidates: breaker and customer-limit admission,
    credentials, translation, the announced route switch, one upstream
    execution, its accounting, and the decision to retry, move on or settle.

    Everything outside the request is a [Turn], one per passage of the loop:
    the clock, what other requests did to the shared registries meanwhile, the
    adapters in force, the customer credential authority, the random draw and
    the request's context. *)

From S2P Require Import Prelude Rotation Ids Text CustomerLimit.
From S2P Require Import Contract Request Provider KeyPool ProviderCost DecisionPrice UsageEstimate Answers.
From S2P Require Import Adapter Inventory Retry Emitter Routes Settle.

(** ** State *)

(** What requests share. *)
Record Shared := mkShared {
  rotation : Rotation.Registry;
  customerLimits : gmap CustomerLimit.CustomerCredentialScope CustomerLimit.entry;
}.

Record Turn := mkTurn {
  t_before : Shared -> Shared;            (* other requests, before admission *)
  t_during : Shared -> Shared;            (* other requests, during the execution *)
  t_registry : Adapter.Registry;          (* the adapters in force *)
  t_authority : option (CustomerLimit.CustomerCredentialScope -> option string);
  t_admit : Instant;
  t_switch : Instant;
  t_start : Instant;
  t_clock : Instant;
  t_latency : Duration;
  t_occurred : Instant;
  t_report : Instant;
  t_cancelled : bool;                     (* the context, right after the execution *)
  t_withdrawn : bool;                     (* the context, a little later *)
  t_jitter : Duration -> Duration;
  t_waited : bool;                        (* the back-off was not interrupted *)
  t_completed : Instant;
  t_measured : Instant;
}.

(** One upstream execution, as it was started. *)
Record UpstreamCall := mkUpstreamCall {
  uc_index : nat;
  uc_call : Call;
  uc_credentials : option Credentials;
  uc_started : bool;                      (* whether the stream had started *)
}.

Record Loop := mkLoop {
  emit : emitter;
  usage : list AttemptUsage;
  switches : Z;
  skipped : list string;
  abandoned : option attempt;
  retrySame : bool;
  routeRetries : Z;
  waited : Duration;
  shared : Shared;
  verdicts : list (CustomerProviderCredential * bool);  (* submitted to Oxy *)
  calls : list UpstreamCall;
}.

Definition set_emit (e : emitter) (s : Loop) : Loop :=
  mkLoop e (usage s) (switches s) (skipped s) (abandoned s) (retrySame s) (routeRetries s) (waited s) (shared s)
    (verdicts s) (calls s).
Definition set_shared (r : Shared) (s : Loop) : Loop :=
  mkLoop (emit s) (usage s) (switches s) (skipped s) (abandoned s) (retrySame s) (routeRetries s) (waited s) r
    (verdicts s) (calls s).
Definition set_abandoned (a : option attempt) (s : Loop) : Loop :=
  mkLoop (emit s) (usage s) (switches s) (skipped s) a (retrySame s) (routeRetries s) (waited s) (shared s)
    (verdicts s) (calls s).
Definition skip (id : string) (s : Loop) : Loop :=
  mkLoop (emit s) (usage s) (switches s) (skipped s ++ [id]) (abandoned s) (retrySame s) (routeRetries s) (waited s)
    (shared s) (verdicts s) (calls s).
Definition count_switch (s : Loop) : Loop :=
  mkLoop (emit s) (usage s) (switches s + 1) (skipped s) (abandoned s) (retrySame s) (routeRetries s) (waited s)
    (shared s) (verdicts s) (calls s).

(** The top of a passage: a retry is consumed, another route starts afresh. *)
Definition begin_turn (s : Loop) : Loop :=
  mkLoop (emit s) (usage s) (switches s) (skipped s) (abandoned s) false
    (if retrySame s then routeRetries s else 0) (waited s) (shared s) (verdicts s) (calls s).

(** [routeRetries++; waited += wait; retrySame = true]. *)
Definition retry_after (wait : Duration) (s : Loop) : Loop :=
  mkLoop (emit s) (usage s) (switches s) (skipped s) (abandoned s) true (routeRetries s + 1) (wrap64 (waited s + wait))
    (shared s) (verdicts s) (calls s).

(** What an execution leaves: its events, its rows, its call, its verdict. *)
Definition record_call (e : emitter) (rows : list AttemptUsage) (call : UpstreamCall)
    (verdict : list (CustomerProviderCredential * bool)) (s : Loop) : Loop :=
  mkLoop e (usage s ++ rows) (switches s) (skipped s) (abandoned s) (retrySame s) (routeRetries s) (waited s)
    (shared s) (verdicts s ++ verdict) (calls s ++ [call]).

(** ** The permits of a turn *)

Record Permits := mkPermits {
  permit : option Rotation.Permit;
  customerPermit : option CustomerLimit.Permit;
}.

(** [permit.NotAttributable(); customerPermit.NotAttributable()]. *)
Definition release (now : Instant) (p : Permits) (r : Shared) : Shared :=
  mkShared (Rotation.NotAttributable now (permit p) (rotation r)).2
    (CustomerLimit.NotAttributable now (customerPermit p) (customerLimits r)).2.

(** The outcome of an attempt, reported to the breaker. *)
Definition report_permit (now : Instant) (err : option GoError) (cancelled : bool) (p : Permits) (r : Shared) : Shared :=
  mkShared
    (match err with
     | None => Rotation.Succeeded now (permit p) (rotation r)
     | Some failure =>
         if cancelled || negb (DeploymentAttributable failure)
         then Rotation.NotAttributable now (permit p) (rotation r)
         else Rotation.Failed now (permit p) (rotation r)
     end).2
    (customerLimits r).

(** [reportCustomerLimitOutcome] on the shared state. *)
Definition report_customer (now : Instant) (err : option GoError) (p : Permits) (r : Shared) : Shared :=
  mkShared (rotation r) (reportCustomerLimitOutcome now (customerPermit p) err (customerLimits r)).

(** Why a turn goes no further than admission. *)
Inductive Admission :=
| Permitted (p : Permits)
| CustomerRefused (refusal : CustomerLimit.Refusal)
| OutOfRotation.

Definition admitRoute (now : Instant) (route : Route) (r : Shared) : Admission * Shared :=
  match r_CustomerProviderCredential route with
  | Some binding =>
      let '(p, refusal, limits) :=
        CustomerLimit.Admit now (customerCredentialScope (r_Provider route) binding) (customerLimits r) in
      (match p with Some p => Permitted (mkPermits None (Some p)) | None => CustomerRefused refusal end,
       mkShared (rotation r) limits)
  | None =>
      let '(p, breakers) := Rotation.Admit now (r_DeploymentID route) (rotation r) in
      (match p with Some p => Permitted (mkPermits (Some p) None) | None => OutOfRotation end,
       mkShared breakers (customerLimits r))
  end.

Section Execute.
Variables (sink : Sink) (costs : option Cards) (retry : RetryPolicy) (request : Request)
  (generationID : option string) (startedAt : Instant).

Definition isPlatform (route : Route) : bool := isNone (r_CustomerProviderCredential route).

(** The adapter and the platform credentials a candidate is executed on,
    narrowed to its funding ceiling; [None] is an unroutable candidate. *)
Definition executable (w : Turn) (c : candidate) : option (Adapter * option Credentials) :=
  let route := c_route c in
  match ResolveExecution (r_DeploymentID route) (r_Provider route) (isPlatform route) (t_registry w) with
  | None => None
  | Some (adapter, credentials) =>
      if negb (bool_decide (fundingCeiling c = TierNone)) && isPlatform route
      then credentials ← boundedPool credentials (fundingCeiling c); Some (adapter, credentials)
      else Some (adapter, credentials)
  end.

(** What a passage of the loop ends in: a result, the next route, the same
    route again, or leaving the loop with the attempt that settles. *)
Inductive Ending :=
| Return_ (r : Result)
| NextRoute
| SameRoute
| Leave (last : option attempt).

Definition settle_now (w : Turn) (last : attempt) (sinkErr : option GoError) (failure : option Error) (s : Loop)
    : Result * Loop :=
  let '(r, e) :=
    settle sink costs request generationID startedAt (t_completed w) (t_measured w) last (usage s) (switches s)
      sinkErr failure (emit s) in
  (r, set_emit e s).

(** A failure before the upstream: it settles the attempt being abandoned, or
    is all there is. *)
Definition refuse_turn (w : Turn) (failure : Error) (s : Loop) : Ending * Loop :=
  match abandoned s with
  | Some a => let '(r, s) := settle_now w a None (Some failure) s in (Return_ r, s)
  | None => (Return_ (refused failure), set_emit (finishWithError sink failure (emit s)).2 s)
  end.

Definition skip_turn (route : Route) (s : Loop) : Ending * Loop := (NextRoute, skip (r_DeploymentID route) s).

(** The rows an execution leaves: one per hedged exchange it abandoned, then
    its own. *)
Definition row (w : Turn) (route : Route) (index : Z) (o : AdapterOutcome) (telemetry : AttemptTelemetry)
    (cost : option Money) : AttemptUsage :=
  mkUsage index (r_DeploymentID route) (r_Provider route) (r_ModelReference route) (t_occurred w)
    (negb (isPlatform route)) (out_KeyID o) (out_KeyClass o) cost false (out_Units o) telemetry.

Definition rows_of (w : Turn) (route : Route) (first : Z) (o : AdapterOutcome) (telemetry : AttemptTelemetry)
    : list AttemptUsage :=
  let hedged := if is_nil (out_Units o) then 0%nat else Z.to_nat (out_AbandonedExchanges o) in
  map (fun i => row w route (first + Z.of_nat i) o (mkTelemetry (t_start w) (Latency telemetry) 0 AttemptCancelled "") None)
    (seq 0 hedged)
  ++ [row w route (first + Z.of_nat hedged) o telemetry (out_ProviderReportedCost o)].

(** The execution itself and everything recorded about it: the attempt. *)
Definition run_attempt (n index : nat) (w : Turn) (c : candidate) (adapter : Adapter) (call : Call)
    (platformCredentials credentials : option Credentials) (p : Permits) (s : Loop) : attempt * Loop :=
  let route := c_route c in
  let e := serving (r_Provider route) (r_DeploymentID route) (emit s) in
  let '(outcome, err, e) := play sink (a_Stream adapter n call credentials) e in
  let telemetry :=
    attemptTelemetry (t_cancelled w) (requestID request) (r_Provider route) err (t_start w) (t_clock w)
      (attemptOutputAt e) (t_latency w) in
  let verdict :=
    match r_CustomerProviderCredential route, credentialVerdict (r_CustomerProviderCredential route) err with
    | Some binding, Some verdict => [(binding, verdict)]
    | _, _ => []
    end in
  let s := record_call e (rows_of w route (Z.of_nat (length (usage s))) outcome telemetry)
             (mkUpstreamCall index call credentials (started (emit s))) verdict (set_abandoned None s) in
  let cancelled := match err with Some failure => isCancellation (t_withdrawn w) failure | None => false end in
  let r := report_customer (t_report w) err p (t_during w (shared s)) in
  let r := report_permit (t_report w) err cancelled p r in
  (mkAttempt route outcome err cancelled (attemptFunding platformCredentials route (out_KeyID outcome)),
   set_shared r s).

(** After a failure another deployment could survive. *)
Definition abandon (w : Turn) (failure : GoError) (last : attempt) (s : Loop) : Ending * Loop :=
  if APIFormat request =s APIFormatDecisions then (Leave (Some last), s)
  else
    let s := set_abandoned (Some last) s in
    if started (emit s) then (NextRoute, s)
    else match Retry.next (t_jitter w) failure (routeRetries s) (waited s) retry with
    | None => (NextRoute, s)
    | Some wait =>
        if t_waited w then (SameRoute, retry_after wait s)
        else (Leave (Some (set_cancelled last)), set_abandoned None s)
    end.

Definition after_attempt (w : Turn) (last : attempt) (s : Loop) : Ending * Loop :=
  match att_err last with
  | None => (Leave (Some last), s)
  | Some failure =>
      if att_cancelled last || negb (DeploymentAttributable failure) then (Leave (Some last), s)
      else abandon w failure last s
  end.

(** The announcement of a route switch: go on, or stop here. *)
Definition announce (w : Turn) (requested : string) (retrying : bool) (route : Route) (p : Permits) (s : Loop)
    : Loop + (Ending * Loop) :=
  match abandoned s with
  | Some a =>
      if retrying then inl s
      else
        let '(err, e) :=
          routeSwitch sink (switchReason (default Opaque (att_err a))) requested (att_route a) route (t_switch w) (emit s) in
        let s := set_emit e s in
        let released := set_shared (release (t_report w) p (shared s)) s in
        match err with
        | None => inl (count_switch s)
        | Some err =>
            if Is err "a route switch follows the start event"
            then inr (Leave (Some a), set_abandoned None released)
            else let '(r, s) := settle_now w a (Some err) None released in inr (Return_ r, s)
        end
  | None => inl s
  end.

(** One passage of the loop. *)
Definition turn (requested : string) (n index : nat) (w : Turn) (c : candidate) (s : Loop) : Ending * Loop :=
  let route := c_route c in
  let retrying := retrySame s in
  let s := begin_turn s in
  let '(admission, r) := admitRoute (t_admit w) route (t_before w (shared s)) in
  let s := set_shared r s in
  match admission with
  | CustomerRefused refusal => refuse_turn w (customerCredentialRefusal (requestID request) refusal) s
  | OutOfRotation => skip_turn route s
  | Permitted p =>
      let released := set_shared (release (t_report w) p (shared s)) s in
      match executable w c with
      | None => skip_turn route released
      | Some (adapter, platformCredentials) =>
          if match abandoned s with Some _ => started (emit s) | None => false end
          then (Leave (abandoned s), set_abandoned None released)
          else match translate adapter request route with
          | inr err => refuse_turn w (translationFailure (requestID request) err) released
          | inl call =>
              let call := set_RequestID (requestID request) call in
              match announce w requested retrying route p s with
              | inr stopped => stopped
              | inl s =>
                  match credentialsForRoute (t_authority w) (requestID request) route platformCredentials with
                  | inr failure => refuse_turn w failure (set_shared (release (t_report w) p (shared s)) s)
                  | inl credentials =>
                      let '(last, s) := run_attempt n index w c adapter call platformCredentials credentials p s in
                      after_attempt w last s
                  end
              end
          end
      end
  end.

(** The loop, and what follows it; [world n] is its n-th passage. *)
Section World.
Variables (world : nat -> Turn) (candidates : list candidate).

Definition primaryModel : string :=
  match candidates with c :: _ => ModelID (r_ModelReference (c_route c)) | [] => "" end.

Definition after_loop (w : Turn) (last : option attempt) (s : Loop) : Result * Loop :=
  match last, abandoned s with
  | Some a, _ | None, Some a => settle_now w a None None s
  | None, None =>
      let refusal := everyRouteOutOfRotation (requestID request) (skipped s) startedAt (rotation (shared s)) in
      (refused refusal, set_emit (finishWithError sink refusal (emit s)).2 s)
  end.

(** [None] is fuel run out. *)
Fixpoint loop (fuel n index : nat) (s : Loop) : option (Result * Loop) :=
  match fuel with
  | O => None
  | S fuel =>
      match candidates !! index with
      | None => Some (after_loop (world n) None s)
      | Some c =>
          match turn primaryModel n index (world n) c s with
          | (Return_ r, s) => Some (r, s)
          | (NextRoute, s) => loop fuel (S n) (S index) s
          | (SameRoute, s) => loop fuel (S n) index s
          | (Leave last, s) => Some (after_loop (world (S n)) last s)
          end
      end
  end.

End World.

Definition start (e : emitter) (r : Shared) : Loop := mkLoop e [] 0 [] None false 0 0 r [] [].

(** [Executor.execute]. *)
Definition execute (fuel : nat) (snapshot : Inventory) (world : nat -> Turn) (r : Shared) : option (Result * Loop) :=
  let e := newEmitter request generationID startedAt in
  match resolve snapshot costs request startedAt with
  | inr failure => Some (refused failure, start (finishWithError sink failure e).2 r)
  | inl candidates => loop world candidates fuel 0 0 (start e r)
  end.

End Execute.

(** A passage per retry of each route, and the one that finds no more routes. *)
Definition enough (retry : RetryPolicy) (routes : nat) : nat := S (routes * S (Z.to_nat (MaxRetriesPerRoute retry))).

(** [NewExecutor]'s check of the retry policy. *)
Definition valid_policy (p : RetryPolicy) : bool :=
  (0 <=? MaxRetriesPerRoute p)%Z && (0 <=? Backoff p)%Z && (0 <=? RetryBudget p)%Z.

(** [generationFor]; [allocated] is the id drawn when the attribution has none. *)
Definition generationFor (attribution : Attribution) (allocated : option string) : option string :=
  match attribution_GenerationID attribution with
  | Some existing => if existing =s "" then allocated else Some existing
  | None => allocated
  end.

(** [Executor.Execute]: the durable record of the cost, with its answer. *)
Definition Execute (recorder : option (Record_ -> RecordResult)) (deferred : bool) (r : Result) : option RecordResult :=
  match recorder with
  | None => None
  | Some Record =>
      if is_nil (Attempts (UpstreamCost r)) || deferred then None else Some (Record (UpstreamCost r))
  end.

(** ** Lemmas *)

Section Lemmas.
Variables (sink : Sink) (costs : option Cards) (retry : RetryPolicy) (request : Request)
  (generationID : option string) (startedAt : Instant).

#[local] Notation turn := (turn sink costs retry request generationID startedAt).
Notation refuse_turn := (refuse_turn sink costs request generationID startedAt).
Notation settle_now := (settle_now sink costs request generationID startedAt).
Notation after_attempt := (after_attempt retry request).
Notation run_attempt := (run_attempt sink request).
Notation after_loop := (after_loop sink costs request generationID startedAt).

(** What a turn that gets past admission and translation does. *)
Definition proceeds (P : Ending * Loop -> Prop) (n index : nat) (w : Turn) (c : candidate) (p : Permits)
    (adapter : Adapter) (platform : option Credentials) (call : Call) (s : Loop) : Prop :=
  (forall failure, P (refuse_turn w failure (set_shared (release (t_report w) p (shared s)) s))) /\
  forall credentials,
    credentialsForRoute (t_authority w) (requestID request) (c_route c) platform = inl credentials ->
    let '(last, s') := run_attempt n index w c adapter (set_RequestID (requestID request) call) platform credentials p s in
    P (after_attempt w last s').

(** The branches of a turn: a property of every one of them holds of the turn. *)
Lemma turn_branches (P : Ending * Loop -> Prop) requested n index w c s :
  (forall admission r, admitRoute (t_admit w) (c_route c) (t_before w (shared s)) = (admission, r) ->
    let s1 := set_shared r (begin_turn s) in
    match admission with
    | CustomerRefused refusal => P (refuse_turn w (customerCredentialRefusal (requestID request) refusal) s1)
    | OutOfRotation => P (skip_turn (c_route c) s1)
    | Permitted p =>
        let s2 := set_shared (release (t_report w) p r) s1 in
        P (skip_turn (c_route c) s2) /\
        (forall a, abandoned s = Some a -> started (emit s) = true -> P (Leave (Some a), set_abandoned None s2)) /\
        (forall failure, P (refuse_turn w failure s2)) /\
        (forall a e err, abandoned s = Some a -> started (emit s) = false ->
          routeSwitch sink (switchReason (default Opaque (att_err a))) requested (att_route a) (c_route c)
            (t_switch w) (emit s) = (Some err, e) ->
          let s3 := set_shared (release (t_report w) p r) (set_emit e s1) in
          P (Leave (Some a), set_abandoned None s3) /\
          P (let '(r, s) := settle_now w a (Some err) None s3 in (Return_ r, s))) /\
        (forall adapter platform call, executable w c = Some (adapter, platform) ->
          translate adapter request (c_route c) = inl call ->
          (abandoned s = None -> proceeds P n index w c p adapter platform call s1) /\
          (forall a, abandoned s = Some a -> started (emit s) = false -> retrySame s = true ->
             proceeds P n index w c p adapter platform call s1) /\
          (forall a e, abandoned s = Some a -> started (emit s) = false -> retrySame s = false ->
             routeSwitch sink (switchReason (default Opaque (att_err a))) requested (att_route a) (c_route c)
               (t_switch w) (emit s) = (None, e) ->
             proceeds P n index w c p adapter platform call (count_switch (set_emit e s1))))
    end) ->
  P (turn requested n index w c s).
Proof.
  intros H. unfold Executor.turn. destruct (admitRoute _ _ _) as [admission r] eqn:Ea. specialize (H _ _ eq_refl). cbv zeta in H |- *.
  destruct admission as [p|refusal|]; [|exact H|exact H].
  destruct H as (Hskip & Hleave & Hrefuse & Hsink & Hgo).
  destruct (executable w c) as [[adapter platform]|] eqn:Ee; [|exact Hskip].
  change (abandoned (set_shared r (begin_turn s))) with (abandoned s).
  change (emit (set_shared r (begin_turn s))) with (emit s).
  change (shared (set_shared r (begin_turn s))) with r.
  destruct (abandoned s) as [a|] eqn:Eab.
  - destruct (started (emit s)) eqn:Est; [by apply (Hleave a)|].
    destruct (translate adapter request (c_route c)) as [call|err] eqn:Et; [|apply Hrefuse].
    destruct (Hgo adapter platform call eq_refl Et) as (_ & Hretry & Hswitch).
    unfold announce. change (abandoned (set_shared r (begin_turn s))) with (abandoned s). rewrite Eab.
    destruct (retrySame s) eqn:Er.
    + specialize (Hretry a eq_refl eq_refl eq_refl) as [H1 H2].
      destruct (credentialsForRoute _ _ _ platform) as [credentials|failure]; [|apply H1].
      specialize (H2 credentials eq_refl). destruct (Executor.run_attempt _ _ _ _ _ _ _ _ _ _ _ _). exact H2.
    + change (emit (set_shared r (begin_turn s))) with (emit s).
      destruct (routeSwitch _ _ _ _ _ _ _) as [[err|] e] eqn:Esw; cbv beta iota zeta.
      * destruct (Hsink a e err eq_refl eq_refl Esw) as [H1 H2].
        destruct (Is err _); [exact H1|]. cbv beta iota zeta in H2. unfold Executor.settle_now in H2 |- *.
        destruct (settle _ _ _ _ _ _ _ _ _ _ _ _ _) as [r' e']. exact H2.
      * specialize (Hswitch a e eq_refl eq_refl eq_refl Esw) as [H1 H2].
        destruct (credentialsForRoute _ _ _ platform) as [credentials|failure]; [|apply H1].
      specialize (H2 credentials eq_refl). destruct (Executor.run_attempt _ _ _ _ _ _ _ _ _ _ _ _). exact H2.
  - destruct (translate adapter request (c_route c)) as [call|err] eqn:Et; [|apply Hrefuse].
    destruct (Hgo adapter platform call eq_refl Et) as (Hnew & _ & _).
    unfold announce. change (abandoned (set_shared r (begin_turn s))) with (abandoned s). rewrite Eab.
    specialize (Hnew eq_refl) as [H1 H2].
    destruct (credentialsForRoute _ _ _ platform) as [credentials|failure]; [|apply H1].
      specialize (H2 credentials eq_refl). destruct (Executor.run_attempt _ _ _ _ _ _ _ _ _ _ _ _). exact H2.
Qed.

Lemma after_attempt_branches (P : Ending * Loop -> Prop) w last s :
  P (Leave (Some last), s) ->
  (forall failure, att_err last = Some failure -> APIFormat request <> APIFormatDecisions ->
    let s' := set_abandoned (Some last) s in
    P (NextRoute, s') /\
    (started (emit s) = false -> P (Leave (Some (set_cancelled last)), set_abandoned None s')) /\
    forall wait, started (emit s) = false ->
      Retry.next (t_jitter w) failure (routeRetries s) (waited s) retry = Some wait ->
      P (SameRoute, retry_after wait s')) ->
  P (after_attempt w last s).
Proof.
  intros Hleave Hmove. unfold Executor.after_attempt, abandon. destruct (att_err last) as [failure|]; [|done].
  destruct (_ || _); [done|]. destruct (APIFormat request =s APIFormatDecisions) eqn:Ed; [done|]. bool_cases.
  destruct (Hmove failure eq_refl Ed) as (H1 & H2 & H3).
  change (started (emit (set_abandoned (Some last) s))) with (started (emit s)).
  destruct (started (emit s)) eqn:Est; [done|].
  change (routeRetries (set_abandoned (Some last) s)) with (routeRetries s).
  change (waited (set_abandoned (Some last) s)) with (waited s).
  destruct (Retry.next _ _ _ _ _) as [wait|]; [|done]. specialize (H3 wait eq_refl eq_refl).
  destruct (t_waited w); [exact H3|exact (H2 eq_refl)].
Qed.

(** What an execution leaves of the loop's state. *)
Record ran (n index : nat) (w : Turn) (c : candidate) (adapter : Adapter) (call : Call)
    (platform credentials : option Credentials) (p : Permits) (s : Loop) (last : attempt) (s' : Loop) : Prop := {
  ran_played : exists outcome err,
    play sink (a_Stream adapter n call credentials) (serving (r_Provider (c_route c)) (r_DeploymentID (c_route c)) (emit s)) =
      (outcome, err, emit s') /\
    att_outcome last = outcome /\ att_err last = err /\
    exists telemetry, usage s' = usage s ++ rows_of w (c_route c) (Z.of_nat (length (usage s))) outcome telemetry;
  ran_route : att_route last = c_route c;
  ran_switches : switches s' = switches s;
  ran_skipped : skipped s' = skipped s;
  ran_abandoned : abandoned s' = None;
  ran_retry : retrySame s' = retrySame s /\ routeRetries s' = routeRetries s /\ waited s' = waited s;
  ran_shared : shared s' = report_permit (t_report w) (att_err last) (att_cancelled last) p
                             (report_customer (t_report w) (att_err last) p (t_during w (shared s)));
  ran_calls : calls s' = calls s ++ [mkUpstreamCall index call credentials (started (emit s))];
}.

Lemma run_attempt_ran n index w c adapter call platform credentials p s :
  let '(last, s') := run_attempt n index w c adapter call platform credentials p s in
  ran n index w c adapter call platform credentials p s last s'.
Proof.
  unfold Executor.run_attempt. destruct (play _ _ _) as [[outcome err] e] eqn:Ep.
  constructor; try done. exists outcome, err. split; [exact Ep|]. split; [done|]. split; [done|]. by eexists.
Qed.

(** Settling and refusing end the request and change nothing but its stream. *)
Definition ends (s : Loop) (x : Ending * Loop) : Prop := exists r e, x = (Return_ r, set_emit e s).

Lemma settle_now_ends w a err failure s : ends s (let '(r, s) := settle_now w a err failure s in (Return_ r, s)).
Proof. unfold Executor.settle_now. destruct (settle _ _ _ _ _ _ _ _ _ _ _ _ _) as [r e]. by exists r, e. Qed.

Lemma refuse_turn_ends w failure s : ends s (refuse_turn w failure s).
Proof. unfold Executor.refuse_turn. destruct (abandoned s); [apply settle_now_ends|by eexists _, _]. Qed.

Lemma after_loop_ends w last s : exists r e, after_loop w last s = (r, set_emit e s).
Proof.
  unfold Executor.after_loop, Executor.settle_now.
  destruct last as [a|]; [|destruct (abandoned s) as [a|]; [|by eexists _, _]];
    destruct (settle _ _ _ _ _ _ _ _ _ _ _ _ _) as [r e]; by exists r, e.
Qed.

(** ** Termination *)

(** The retries the current route has already had. *)
Definition retried (s : Loop) : Z := if retrySame s then routeRetries s else 0.

Definition progress (s : Loop) (x : Ending * Loop) : Prop :=
  match x.1 with
  | NextRoute => retrySame x.2 = false
  | SameRoute => retried x.2 = (retried s + 1)%Z /\ (retried x.2 <= MaxRetriesPerRoute retry)%Z
  | _ => True
  end.

Lemma ends_progress s s' x : ends s' x -> progress s x.
Proof. by intros (r & e & ->). Qed.

Lemma turn_progress requested n index w c s : progress s (turn requested n index w c s).
Proof.
  apply turn_branches. intros admission r _. cbv zeta. destruct admission as [p|refusal|];
    [|eapply ends_progress, refuse_turn_ends|done].
  split; [done|]. split; [done|]. split; [intros; eapply ends_progress, refuse_turn_ends|].
  split; [split; [done|eapply ends_progress, settle_now_ends]|].
  intros adapter platform call _ _.
  assert (forall s1, retrySame s1 = false -> routeRetries s1 = retried s ->
    proceeds (progress s) n index w c p adapter platform call s1) as Hgo.
  { intros s1 Hrs Hrr. split; [intros; eapply ends_progress, refuse_turn_ends|]. intros credentials _.
    pose proof (run_attempt_ran n index w c adapter (set_RequestID (requestID request) call) platform credentials p s1) as Hran.
    destruct (run_attempt _ _ _ _ _ _ _ _ _ _) as [last s2].
    destruct (ran_retry _ _ _ _ _ _ _ _ _ _ _ _ Hran) as (Hr1 & Hr2 & _).
    apply after_attempt_branches; [done|]. intros failure _ _. split; [by cbn; rewrite Hr1|]. split; [done|].
    intros wait _ Hnext. unfold progress, retried at 1 3. cbn [fst snd retrySame retry_after routeRetries set_abandoned].
    rewrite Hr2, Hrr in *. split; [done|]. unfold Retry.next in Hnext.
    destruct (_ <=? retried s)%Z eqn:E; [done|]. bool_cases. lia. }
  split; [intros _; by apply Hgo|]. split; [intros; by apply Hgo|]. intros; by apply Hgo.
Qed.

Lemma loop_terminates world cs fuel n index s :
  (index <= length cs)%nat -> (0 <= retried s <= MaxRetriesPerRoute retry)%Z ->
  (retrySame s = true -> (index < length cs)%nat) ->
  ((length cs - index) * S (Z.to_nat (MaxRetriesPerRoute retry)) - Z.to_nat (retried s) < fuel)%nat ->
  exists r s', loop sink costs retry request generationID startedAt world cs fuel n index s = Some (r, s').
Proof.
  set (M := Z.to_nat (MaxRetriesPerRoute retry)).
  revert n index s. induction fuel as [|fuel IH]; intros n index s Hix Hr Hsame Hfuel; [lia|]. cbn [loop].
  destruct (cs !! index) as [c|] eqn:Ec.
  2:{ destruct (after_loop_ends (world n) None s) as (r & e & ->). by eexists _, _. }
  apply lookup_lt_Some in Ec. pose proof (turn_progress (primaryModel cs) n index (world n) c s) as Hp.
  destruct (turn _ n index _ c s) as [[r| | |last] s']; cbn in Hp.
  - by eexists _, _.
  - apply IH; [lia|unfold retried; rewrite Hp; lia|congruence|]. unfold retried at 1. rewrite Hp.
    assert (Z.to_nat (retried s) <= M)%nat by (unfold M; lia).
    replace (length cs - index)%nat with (S (length cs - S index)) in Hfuel by lia. lia.
  - destruct Hp as [Hp1 Hp2]. apply IH; [lia|lia|done|]. rewrite Hp1.
    assert (Z.to_nat (retried s) < M)%nat by (unfold M; lia).
    replace (length cs - index)%nat with (S (length cs - S index)) in Hfuel |- * by lia. lia.
  - destruct (after_loop_ends (world (S n)) last s') as (r & e & ->). by eexists _, _.
Qed.

(** An invariant of the loop's states that every turn keeps or turns into a
    final property. *)
Lemma loop_invariant (I : nat -> Loop -> Prop) (F : Result * Loop -> Prop) world cs fuel n index s x :
  (forall n index s, (length cs <= index)%nat -> I index s -> F (after_loop (world n) None s)) ->
  (forall n index c s, cs !! index = Some c -> I index s ->
    match turn (primaryModel cs) n index (world n) c s with
    | (Return_ r, s') => F (r, s')
    | (NextRoute, s') => I (S index) s'
    | (SameRoute, s') => I index s'
    | (Leave last, s') => F (after_loop (world (S n)) last s')
    end) ->
  I index s -> loop sink costs retry request generationID startedAt world cs fuel n index s = Some x -> F x.
Proof.
  intros Hend Hturn. revert n index s. induction fuel as [|fuel IH]; intros n index s Hi; [done|]. cbn [loop].
  destruct (cs !! index) as [c|] eqn:Ec.
  2:{ intros [= <-]. apply Hend with index; [by apply lookup_ge_None|done]. }
  specialize (Hturn n index c s Ec Hi). destruct (turn _ n index _ c s) as [[r| | |last] s'].
  - by intros [= <-].
  - by apply IH.
  - by apply IH.
  - by intros [= <-].
Qed.

(** ** What is executed *)

(** A call made for a candidate on its own adapter and credentials, while
    nothing of an answer had reached the customer. *)
Definition call_authorized (world : nat -> Turn) (cs : list candidate) (uc : UpstreamCall) : Prop :=
  uc_started uc = false /\
  exists n c adapter platform call,
    cs !! uc_index uc = Some c /\ executable (world n) c = Some (adapter, platform) /\
    translate adapter request (c_route c) = inl call /\ uc_call uc = set_RequestID (requestID request) call /\
    credentialsForRoute (t_authority (world n)) (requestID request) (c_route c) platform = inl (uc_credentials uc).

Definition calls_on (index : nat) (cs : list UpstreamCall) : nat :=
  length (filter (fun uc => uc_index uc = index) cs).

#[local] Arguments calls_on : simpl never.

(** The executions of a request: authorized, in the signed order, at most one
    more on each route than it may be retried, a single one for decisions. *)
Record executed (world : nat -> Turn) (cs : list candidate) (ucs : list UpstreamCall) : Prop := {
  ex_authorized : Forall (call_authorized world cs) ucs;
  ex_order : StronglySorted le (uc_index <$> ucs);
  ex_retries : forall index, (calls_on index ucs <= S (Z.to_nat (MaxRetriesPerRoute retry)))%nat;
  ex_decisions : APIFormat request = APIFormatDecisions -> (length ucs <= 1)%nat;
}.

(** Between turns: what has been executed is behind the current index, or is a
    run of retries of it. *)
Record executing (world : nat -> Turn) (cs : list candidate) (index : nat) (s : Loop) : Prop := {
  xi_executed : executed world cs (calls s);
  xi_fresh : abandoned s = None -> started (emit s) = false;
  xi_behind : Forall (fun uc => (uc_index uc <= index)%nat) (calls s);
  xi_current : (calls_on index (calls s) <= Z.to_nat (retried s))%nat;
  xi_retried : (0 <= retried s <= MaxRetriesPerRoute retry)%Z;
  xi_decisions : APIFormat request = APIFormatDecisions -> calls s = [];
}.

Lemma calls_on_snoc index ucs uc :
  calls_on index (ucs ++ [uc]) = (calls_on index ucs + if decide (uc_index uc = index) then 1 else 0)%nat.
Proof.
  unfold calls_on. rewrite filter_app, length_app. f_equal. rewrite filter_cons, filter_nil.
  by destruct (decide (uc_index uc = index)).
Qed.

Lemma calls_on_behind index ucs :
  Forall (fun uc => (uc_index uc < index)%nat) ucs -> calls_on index ucs = 0%nat.
Proof.
  intros H. unfold calls_on. apply length_zero_iff_nil. induction H as [|uc ucs Hi _ IH]; [done|].
  rewrite filter_cons. destruct (decide (uc_index uc = index)); [lia|done].
Qed.

Lemma executed_snoc world cs ucs uc index :
  executed world cs ucs -> call_authorized world cs uc -> uc_index uc = index ->
  Forall (fun u => (uc_index u <= index)%nat) ucs -> (calls_on index ucs <= Z.to_nat (MaxRetriesPerRoute retry))%nat ->
  (APIFormat request = APIFormatDecisions -> ucs = []) -> executed world cs (ucs ++ [uc]).
Proof.
  intros [Ha Ho Hr Hd] Hu Hi Hb Hc He. constructor.
  - apply Forall_app. split; [done|]. by constructor.
  - rewrite fmap_app. cbn. apply StronglySorted_snoc; [done|]. apply Forall_forall. rewrite Forall_fmap. by subst.
  - intros i. rewrite calls_on_snoc. specialize (Hr i). destruct (decide _) as [<-|]; [subst|]; lia.
  - intros Hdec. by rewrite (He Hdec).
Qed.

(** What holds of a turn's ending. *)
Definition stays_executed (world : nat -> Turn) (cs : list candidate) (index : nat) (x : Ending * Loop) : Prop :=
  executed world cs (calls x.2) /\
  match x.1 with
  | NextRoute => executing world cs (S index) x.2
  | SameRoute => executing world cs index x.2
  | _ => True
  end.

Lemma executing_next world cs index s s' :
  executing world cs index s -> calls s' = calls s -> abandoned s' = abandoned s -> emit s' = emit s ->
  retrySame s' = false -> executing world cs (S index) s'.
Proof.
  intros [Hx Hf Hb Hc Hr Hd] Ec Ea Ee Er. unfold retried in *.
  constructor; rewrite ?Ec, ?Ea, ?Ee; try done; unfold retried; rewrite ?Er; try lia.
  - eapply Forall_impl; [exact Hb|]. cbn. lia.
  - rewrite calls_on_behind; [lia|]. eapply Forall_impl; [exact Hb|]. cbn. lia.
Qed.

Lemma ends_executed world cs index s x : executed world cs (calls s) -> ends s x -> stays_executed world cs index x.
Proof. intros H (r & e & ->). by split. Qed.

Lemma turn_executed world cs requested n index c s :
  cs !! index = Some c -> executing world cs index s ->
  stays_executed world cs index (turn requested n index (world n) c s).
Proof.
  intros Ec Hx. pose proof Hx as [Hex Hf Hb Hc Hr Hd].
  apply turn_branches. intros admission r _. cbv zeta.
  assert (forall s1, calls s1 = calls s -> abandoned s1 = abandoned s -> emit s1 = emit s -> retrySame s1 = false ->
    stays_executed world cs index (skip_turn (c_route c) s1)) as Hskip.
  { intros s1 E1 E2 E3 E4. split; cbn; [by rewrite E1|]. by apply (executing_next world cs index s). }
  assert (forall s1 x, calls s1 = calls s -> ends s1 x -> stays_executed world cs index x) as Hends.
  { intros s1 x E1. apply ends_executed. by rewrite E1. }
  destruct admission as [p|refusal|]; [|eapply Hends, refuse_turn_ends; done|by apply Hskip].
  split; [by apply Hskip|]. split; [by intros; split|]. split; [intros; eapply Hends, refuse_turn_ends; done|].
  split; [split; [by split|eapply Hends, settle_now_ends; done]|].
  intros adapter platform call Hexec Htr.
  assert (forall s1, calls s1 = calls s -> started (emit s1) = false -> retrySame s1 = false -> routeRetries s1 = retried s ->
    proceeds (stays_executed world cs index) n index (world n) c p adapter platform call s1) as Hgo.
  { intros s1 E1 E2 E3 E4. split; [intros; eapply Hends, refuse_turn_ends; done|]. intros credentials Hcred.
    pose proof (run_attempt_ran n index (world n) c adapter (set_RequestID (requestID request) call) platform credentials
      p s1) as Hran.
    destruct (run_attempt _ _ _ _ _ _ _ _ _ _) as [last s2].
    destruct Hran as [_ _ _ _ _ (Hr1 & Hr2 & _) _ Hcalls]. rewrite E1, E2 in Hcalls.
    set (uc := mkUpstreamCall index _ credentials false) in *.
    assert (call_authorized world cs uc) as Huc.
    { split; [done|]. exists n, c, adapter, platform, call. done. }
    assert (executed world cs (calls s2)) as Hex2.
    { rewrite Hcalls. apply (executed_snoc _ _ _ _ index); try done. lia. }
    assert (Forall (fun u => (uc_index u <= index)%nat) (calls s2)) as Hb2.
    { rewrite Hcalls. apply Forall_app. split; [done|]. by repeat constructor. }
    apply after_attempt_branches; [by split|]. intros failure _ Hdec. split; [|split; [by split|]].
    - split; [done|]. cbn. constructor; cbn; try done; unfold retried; cbn; rewrite ?Hr1, ?E3; try lia.
      + eapply Forall_impl; [exact Hb2|]. cbn. lia.
      + rewrite calls_on_behind; [lia|]. eapply Forall_impl; [exact Hb2|]. cbn. lia.
    - intros wait Hst Hnext. split; [done|].
      assert (retried s < MaxRetriesPerRoute retry)%Z as Hlt.
      { unfold Retry.next in Hnext. rewrite Hr2, E4 in Hnext. destruct (_ <=? retried s)%Z eqn:E; [done|]. by bool_cases. }
      cbn. constructor; cbn; try done; unfold retried; cbn; rewrite ?Hr2, ?E4; try lia.
      rewrite Hcalls, calls_on_snoc. cbn. rewrite decide_True by done. lia. }
  split; [intros Hab; apply Hgo; try done; cbn; auto|].
  split; [intros a Hab Hst Hrs; by apply Hgo|]. intros a e Hab Hst Hrs Hsw. apply Hgo; try done. cbn.
  unfold routeSwitch in Hsw. rewrite Hst in Hsw.
  destruct (_ =s _); [|destruct (_ =s _); [done|]; destruct (negb _); [done|]];
    (match type of Hsw with send_next _ ?ev _ = _ => pose proof (send_next_wrote sink ev (emit s)) as Hw end);
    rewrite Hsw in Hw; apply wrote_fields in Hw as (_ & _ & Hw & _); cbn in Hw; congruence.
Qed.

End Lemmas.

Lemma resolve_from_length i requestID at_ index seen routes cs :
  resolve_from i requestID at_ index seen routes = inl cs -> length cs = length routes.
Proof.
  revert index seen cs. induction routes as [|a routes IH]; intros index seen cs; cbn [resolve_from]; [by intros [= <-]|].
  destruct (identify i at_ a) as [r|]; [|done]. destruct (match seen !! _ with Some _ => _ | None => _ end); [done|].
  destruct (resolve_from _ _ _ _ _ routes) as [cs'|] eqn:E; [|done]. intros [= <-]. cbn. f_equal. by eapply IH.
Qed.

Lemma resolve_length snapshot costs request at_ cs :
  resolve snapshot costs request at_ = inl cs -> (length cs <= length (AuthorizedRoutes request))%nat.
Proof.
  unfold resolve. destruct (AuthorizedRoutes request) as [|primary rest] eqn:Er; [done|].
  destruct (Request_Validate request); [done|]. destruct (_ && _); [done|].
  destruct (if Kind (Target request) =s TargetModel then _ else None); [done|].
  destruct (resolveAuthorizedRoutes _ _ _ _) as [all|] eqn:Ea; [|done].
  apply resolve_from_length in Ea. destruct (negb _); [intros [= <-]; lia|].
  assert (length (omap (price_candidate costs at_) all) <= length all)%nat as Hl.
  { clear. induction all as [|c all IH]; [done|]. cbn. destruct (price_candidate costs at_ c); cbn in *; lia. }
  destruct (omap _ _); [done|]. intros [= <-]. lia.
Qed.

(** C5. Every request ends.  Whatever the adapters, the sink, the clock, the
    context and the other requests do, executing a request under a retry policy
    the constructor accepts comes to a result after at most one passage per
    retry of each signed route and one more. *)
Theorem execute_terminates sink costs retry request gen at_ snapshot world r :
  valid_policy retry = true ->
  exists result s,
    execute sink costs retry request gen at_ (enough retry (length (AuthorizedRoutes request))) snapshot world r =
    Some (result, s).
Proof.
  unfold valid_policy. rewrite !andb_true_iff, !Z.leb_le. intros [[Hm _] _].
  unfold execute. destruct (resolve _ _ _ _) as [cs|failure] eqn:Er; [|by eexists _, _].
  apply resolve_length in Er.
  apply loop_terminates; [lia|cbn; lia|done|]. unfold enough, retried. cbn. nia.
Qed.

Lemma execute_executed sink costs retry request gen at_ fuel snapshot world r result s :
  valid_policy retry = true -> execute sink costs retry request gen at_ fuel snapshot world r = Some (result, s) ->
  match resolve snapshot costs request at_ with
  | inl cs => executed retry request world cs (calls s)
  | inr failure => result = refused failure /\ calls s = []
  end.
Proof.
  unfold valid_policy. rewrite !andb_true_iff, !Z.leb_le. intros [[Hm _] _]. unfold execute.
  destruct (resolve _ _ _ _) as [cs|failure]; [|by intros [= <- <-]].
  apply (loop_invariant _ _ _ _ _ _ (executing retry request world cs) (fun x => executed retry request world cs (calls x.2))).
  - intros n index s' _ [Hx _ _ _ _ _]. by destruct (after_loop_ends sink costs request gen at_ (world n) None s') as (? & ? & ->).
  - intros n index c s' Ec Hx.
    destruct (turn_executed sink costs retry request gen at_ world cs (primaryModel cs) n index c s' Ec Hx) as [H1 H2].
    destruct (turn _ _ _ _ _ _ _ _ _ _ _ _) as [[res| | |last] s'']; try done.
    by destruct (after_loop_ends sink costs request gen at_ (world (S n)) last s'') as (? & ? & ->).
  - assert (executed retry request world cs []) as Hex.
    { constructor; [constructor|constructor| |cbn; lia]. intros index. unfold calls_on. cbn. lia. }
    constructor; cbn; first [exact Hex|done|constructor; fail|unfold calls_on, retried; cbn; lia].
Qed.

(** C1. What is executed is what was signed.  Every upstream call a request
    makes is for one of its resolved candidates, with the call the route's own
    registered adapter translated the request to, and is made before anything
    of an answer has started to reach the customer; the candidates are taken
    in the signed order and never returned to, a route is called at most once
    more than it may be retried, and a decisions request makes at most one
    call of an adapter (within which the walk over the route's own credentials
    may send the body again when one is refused, see KeyPool).  A request that does not resolve makes none. *)
Theorem executes_only_what_was_signed sink costs retry request gen at_ fuel snapshot world r result s :
  valid_policy retry = true -> execute sink costs retry request gen at_ fuel snapshot world r = Some (result, s) ->
  match resolve snapshot costs request at_ with
  | inr failure => result = refused failure /\ calls s = []
  | inl cs =>
      StronglySorted le (uc_index <$> calls s) /\
      (forall index, (calls_on index (calls s) <= S (Z.to_nat (MaxRetriesPerRoute retry)))%nat) /\
      (APIFormat request = APIFormatDecisions -> (length (calls s) <= 1)%nat) /\
      forall uc, uc ∈ calls s -> uc_started uc = false /\
        exists n c adapter call, cs !! uc_index uc = Some c /\
          adapters (t_registry (world n)) !! r_Provider (c_route c) = Some adapter /\
          translate adapter request (c_route c) = inl call /\ uc_call uc = set_RequestID (request_RequestID request) call
  end.
Proof.
  intros Hp Hx. pose proof (execute_executed _ _ _ _ _ _ _ _ _ _ _ _ Hp Hx) as H.
  destruct (resolve _ _ _ _) as [cs|]; [|done]. destruct H as [Ha Ho Hr Hd].
  do 3 (split; [done|]). rewrite Forall_forall in Ha. intros uc Huc.
  destruct (Ha uc Huc) as (Hs & n & c & adapter & platform & call & Hc & He & Ht & Hcall & _). split; [done|].
  exists n, c, adapter, call. split; [done|]. split; [|done].
  unfold executable, ResolveExecution in He. destruct (adapters _ !! _) as [a|]; [|done]. cbn [mbind option_bind] in He.
  f_equal. destruct (isPlatform _); cbn [negb andb] in He.
  - destruct (platformCredential _ _ _ _) as [pool|]; [|done]. cbn [mbind option_bind] in He.
    rewrite andb_true_r in He. destruct (negb _); [|by injection He].
    destruct (boundedPool pool _); [|done]. by injection He.
  - rewrite andb_false_r in He. by injection He.
Qed.

Lemma customer_pool_spec slug plaintext pool :
  NewCustomerKeyPool slug plaintext = Some pool -> pool_customerOwned pool = true /\ map secret (keys pool) = [plaintext].
Proof.
  unfold NewCustomerKeyPool, newKeyPool. destruct (ValidateCustomerCredential plaintext) eqn:E; [|done].
  cbn [declare Secret KeyID Class State]. rewrite E. cbn [negb isMember existsb]. by intros [= <-].
Qed.

(** What a platform route resolves to: the pool its own provider's adapter was
    registered with, narrowed to the key its deployment is pinned to and to the
    signed ceiling. *)
Lemma platform_executable w c adapter platform :
  isPlatform (c_route c) = true -> executable w c = Some (adapter, platform) ->
  adapters (t_registry w) !! r_Provider (c_route c) = Some adapter /\
  match platform with
  | None => bindingsRequired (t_registry w) = false /\ fundingCeiling c = TierNone
  | Some credentials =>
      a_Credentials adapter = Some (Some (c_pool credentials)) /\
      (forall pin, bindings (t_registry w) !! r_DeploymentID (c_route c) = Some pin ->
        bind_Provider pin = r_Provider (c_route c) /\
        forall key, in_view (c_view credentials) key = true -> keyID key = bind_KeyID pin) /\
      (fundingCeiling c <> TierNone -> pool_customerOwned (c_pool credentials) = false /\
        forall key, in_view (c_view credentials) key = true -> Admits (fundingCeiling c) (funding key) = true)
  end.
Proof.
  unfold executable. intros Hp. rewrite Hp, andb_true_r.
  destruct (ResolveExecution _ _ _ _) as [[a creds]|] eqn:Er; [|done]. intros He.
  assert (a = adapter) as ->.
  { destruct (negb _); [|by injection He]. by destruct (boundedPool creds _); [injection He|]. }
  apply resolved_credentials in Er as [Ha Hc]. split; [done|].
  assert (forall cr pin, match creds with None => False | Some c => onlyKeyID (c_view c) = onlyKeyID (c_view cr) end ->
    bindings (t_registry w) !! r_DeploymentID (c_route c) = Some pin ->
    bind_Provider pin = r_Provider (c_route c) /\
    forall key, in_view (c_view cr) key = true -> keyID key = bind_KeyID pin) as Hpin.
  { intros cr pin Hv Hb. destruct creds; [|done]. destruct Hc as [_ Hc]. specialize (Hc pin Hb) as (H1 & H2 & H3).
    split; [done|]. intros key. apply pinned_view; congruence. }
  destruct (decide (fundingCeiling c = TierNone)) as [Hn|Hn].
  - rewrite bool_decide_eq_true_2 in He by done. injection He as <-. destruct creds as [cr|]; [|done].
    split; [apply Hc|]. split; [|done]. intros pin. by apply Hpin.
  - rewrite bool_decide_eq_false_2 in He by done. cbn in He. destruct creds as [cr|]; [|done].
    unfold boundedPool, WithinFunding in He. rewrite decide_False in He by done.
    destruct (pool_customerOwned _) eqn:Eo; [done|]. destruct (existsb _ _); [|done]. injection He as <-. cbn.
    split; [apply Hc|]. split; [intros pin; by apply (Hpin (mkCredentials (c_pool cr) (mkView (onlyKeyID (c_view cr)) (fundingCeiling c))))|].
    split; [done|]. intros key. unfold in_view. cbn. by intros [_ Hk]%andb_true_iff.
Qed.

(** C6. A route is paid for only as it was signed.  A call on a route bound to
    a customer's credential is made with a pool of that customer's own key
    alone, decrypted for exactly the signed owner, connection, environment,
    handle and revision, and never with a platform key.  A call on any other
    route is made on the adapter registered for the route's own provider, with
    the pool that adapter was registered with and no other: every key it may
    lease is the one its deployment is pinned to, where it is pinned, and at or
    below the funding ceiling, where one was signed.  A call carries no
    credentials only on a registry that requires no bindings, for a route
    without a ceiling. *)
Theorem calls_spend_only_their_credentials sink costs retry request gen at_ fuel snapshot world r result s cs :
  valid_policy retry = true -> execute sink costs retry request gen at_ fuel snapshot world r = Some (result, s) ->
  resolve snapshot costs request at_ = inl cs ->
  forall uc, uc ∈ calls s -> exists n c, cs !! uc_index uc = Some c /\
    match r_CustomerProviderCredential (c_route c) with
    | Some binding => exists authority plaintext pool,
        t_authority (world n) = Some authority /\
        authority (customerCredentialScope (r_Provider (c_route c)) binding) = Some plaintext /\
        uc_credentials uc = Some (mkCredentials pool whole) /\ pool_customerOwned pool = true /\
        map secret (keys pool) = [plaintext]
    | None => exists adapter, adapters (t_registry (world n)) !! r_Provider (c_route c) = Some adapter /\
        match uc_credentials uc with
        | None => bindingsRequired (t_registry (world n)) = false /\ fundingCeiling c = TierNone
        | Some credentials =>
            a_Credentials adapter = Some (Some (c_pool credentials)) /\
            (forall pin, bindings (t_registry (world n)) !! r_DeploymentID (c_route c) = Some pin ->
              bind_Provider pin = r_Provider (c_route c) /\
              forall key, in_view (c_view credentials) key = true -> keyID key = bind_KeyID pin) /\
            (fundingCeiling c <> TierNone -> pool_customerOwned (c_pool credentials) = false /\
              forall key, in_view (c_view credentials) key = true -> Admits (fundingCeiling c) (funding key) = true)
        end
    end.
Proof.
  intros Hp Hx Hres uc Huc. pose proof (execute_executed _ _ _ _ _ _ _ _ _ _ _ _ Hp Hx) as H.
  rewrite Hres in H. destruct H as [Ha _ _ _]. rewrite Forall_forall in Ha.
  destruct (Ha uc Huc) as (_ & n & c & adapter & platform & call & Hc & He & _ & _ & Hcred).
  exists n, c. split; [done|]. unfold credentialsForRoute in Hcred.
  destruct (r_CustomerProviderCredential (c_route c)) as [binding|] eqn:Eb.
  - destruct (t_authority (world n)) as [authority|]; [|done].
    destruct (authority _) as [plaintext|] eqn:Epl; [|done].
    destruct (NewCustomerKeyPool _ plaintext) as [pool|] eqn:En; [|done]. injection Hcred as <-.
    exists authority, plaintext, pool.
    do 3 (split; [done|]). by apply customer_pool_spec in En.
  - injection Hcred as <-. exists adapter. apply platform_executable; [|done].
    unfold isPlatform. by rewrite Eb.
Qed.

(** ** An example: one route under a funding ceiling, one free key *)

Definition ceiling_route : AuthorizedRoute :=
  mkAuthorizedRoute SubstitutionSameModel "dep" "acme/m@1" "acme" (Some []) None (Some FundingTierCredit) None.
Definition ceiling_request : Request :=
  mkRequest None None None 2 (request_Attribution example_request) (Target example_request) ModalityText
    (request_Input example_request) true None (Sampling example_request) None [] None None APIFormatChatCompletions
    [ceiling_route].
Definition free_pool : KeyPool :=
  mkPool "acme" (mkKeyPolicy (15 * Minute) false) [] false
    [mkPooledKey 1 "k" KeyClassFree FundingFree "s" 0 None true "" 0].
Definition answering_script (n : nat) (call : Call) (c : option Credentials) : Script :=
  Emit 2001 (OpStart "acme/m@1" 2001) (fun _ =>
    Emit 2002 (OpDelta 0 ChannelOutputText "hi") (fun _ => Return example_outcome None)).
Definition answering_adapter (script : nat -> Call -> option Credentials -> Script) : Adapter :=
  mkAdapter "acme" [APIFormatChatCompletions] (fun _ route => inl (mkCall route "{}" "")) script None
    (Some (Some free_pool)).
Definition answering_registry (script : nat -> Call -> option Credentials -> Script) : Adapter.Registry :=
  mkRegistry {["acme" := answering_adapter script]} ∅ ∅ true.
Definition idle (script : nat -> Call -> option Credentials -> Script) (n : nat) : Turn :=
  let i := (2000 + 10 * Z.of_nat n)%Z in
  mkTurn id id (answering_registry script) None i i i i 3 (i + 3) (i + 3) false false (fun _ => 0%Z) true (i + 4) (i + 5).
Definition idle_shared : Shared := mkShared (Rotation.NewRegistry Rotation.DefaultPolicy) ∅.

Definition example_execution (script : nat -> Call -> option Credentials -> Script) : option (Result * Loop) :=
  execute accepting None DefaultRetryPolicy ceiling_request None 2000 4 global_inventory (idle script) idle_shared.

Lemma execute_terminates_witness :
  exists result s, example_execution answering_script = Some (result, s).
Proof. exact (execute_terminates accepting None DefaultRetryPolicy ceiling_request None 2000 global_inventory
  (idle answering_script) idle_shared eq_refl). Defined.

Lemma executes_only_what_was_signed_witness :
  match example_execution answering_script with
  | Some (result, s) => Failure result = None /\ length (calls s) = 1%nat /\ StronglySorted le (uc_index <$> calls s)
  | None => False
  end.
Proof.
  destruct (example_execution answering_script) as [[result s]|] eqn:E; [|vm_compute in E; discriminate E].
  pose proof (executes_only_what_was_signed accepting None DefaultRetryPolicy ceiling_request None 2000 4 global_inventory
    (idle answering_script) idle_shared result s eq_refl E) as H.
  destruct (resolve _ _ _ _) as [cs|failure] eqn:Er; [|vm_compute in Er; discriminate Er].
  destruct H as [H _]. vm_compute in E. injection E as <- <-. split; [reflexivity|]. split; [reflexivity|exact H].
Defined.

Lemma calls_spend_only_their_credentials_witness :
  match example_execution answering_script with
  | Some (result, s) => forall uc, uc ∈ calls s ->
      exists credentials, uc_credentials uc = Some credentials /\ c_pool credentials = free_pool /\
        forall key, in_view (c_view credentials) key = true -> Admits TierCredit (funding key) = true
  | None => False
  end.
Proof.
  destruct (example_execution answering_script) as [[result s]|] eqn:E; [|vm_compute in E; discriminate E].
  set (cs := [candidate_for ceiling_route (route_of "acme/m@1" (endpoint_of global_row))]).
  assert (resolve global_inventory None ceiling_request 2000 = inl cs) as Hres by (vm_compute; reflexivity).
  intros uc Huc. destruct (calls_spend_only_their_credentials accepting None DefaultRetryPolicy ceiling_request None 2000 4
    global_inventory (idle answering_script) idle_shared result s cs eq_refl E Hres uc Huc) as (n & c & Hc & Hcred).
  destruct (uc_index uc) as [|[|k]]; [|discriminate Hc|discriminate Hc]. injection Hc as <-.
  destruct Hcred as (adapter & Ha & Hcred). vm_compute in Ha. injection Ha as <-.
  destruct (uc_credentials uc) as [cr|]; [|destruct Hcred as [_ Hcred]; discriminate Hcred].
  destruct Hcred as (H1 & _ & H2). exists cr. split; [reflexivity|]. split; [injection H1 as H1; exact (eq_sym H1)|].
  exact (proj2 (H2 ltac:(discriminate))).
Defined.
