(* ===== verification/ExecutorPermits.v ===== *)
(** * Every permit is given back (internal/kaana/executor.go)

    A request takes a breaker permit or a customer-limit permit per passage of
    its loop.  However the passage ends, the permit is reported before the
    request moves on, so no half-open trial stays in flight behind it; and a
    route bound to a customer's credential never touches the platform
    breakers. *)

From S2P Require Import Prelude Rotation Ids Text CustomerLimit.
From S2P Require Import Contract Request Provider KeyPool ProviderCost DecisionPrice UsageEstimate Answers.
From S2P Require Import Adapter Inventory Retry Emitter Routes Settle Executor.

(** ** In-flight trials *)

Definition breaker_trial (id : string) (r : Rotation.Registry) : bool :=
  Rotation.trialInFlight (Rotation.entry_of id r).

Definition customer_trial (s : CustomerCredentialScope) (r : gmap CustomerCredentialScope entry) : bool :=
  match r !! s with Some e => CustomerLimit.trialInFlight e | None => false end.

(** [r'] has no trial in flight that [r] did not have. *)
Definition no_new_trial (r r' : Shared) : Prop :=
  (forall id, breaker_trial id (rotation r') = true -> breaker_trial id (rotation r) = true) /\
  (forall s, customer_trial s (customerLimits r') = true -> customer_trial s (customerLimits r) = true).

#[export] Instance no_new_trial_refl : Reflexive no_new_trial.
Proof. by split. Qed.
#[export] Instance no_new_trial_trans : Transitive no_new_trial.
Proof. intros r1 r2 r3 [H1 H2] [H3 H4]. split; auto. Qed.

(** The trial of a permit. *)
Definition own_breaker (p : Permits) (id : string) : Prop :=
  exists q, permit p = Some q /\ Rotation.trial q = true /\ id = Rotation.permit_id q.
Definition own_customer (p : Permits) (s : CustomerCredentialScope) : Prop :=
  exists q, customerPermit p = Some q /\ s = CustomerLimit.scope q.

(** After admission, the only new trial is the permit's own. *)
Definition taken (p : Permits) (r r' : Shared) : Prop :=
  (forall id, breaker_trial id (rotation r') = true -> breaker_trial id (rotation r) = true \/ own_breaker p id) /\
  (forall s, customer_trial s (customerLimits r') = true -> customer_trial s (customerLimits r) = true \/ own_customer p s).

Definition fresh (p : Permits) : Prop :=
  (forall q, permit p = Some q -> Rotation.reported q = false) /\
  (forall q, customerPermit p = Some q -> CustomerLimit.reported q = false).

Lemma record_entry_trial pol now t result b :
  Rotation.trialInFlight (Rotation.record_entry pol now t result b) = Rotation.trialInFlight b && negb t.
Proof.
  unfold Rotation.record_entry. destruct b as [st cf ts tif cd pr sc], t, result; cbn;
    repeat case_match; cbn; by rewrite ?andb_true_r, ?andb_false_r.
Qed.

(** What admission takes: a permit not yet reported, and at most its own
    trial. *)
Lemma Rotation_Admit_trial now id r q r' :
  Rotation.Admit now id r = (q, r') ->
  (forall p, q = Some p -> Rotation.reported p = false) /\
  forall id', breaker_trial id' r' = true ->
    breaker_trial id' r = true \/ exists p, q = Some p /\ Rotation.trial p = true /\ id' = Rotation.permit_id p.
Proof.
  rewrite Rotation.Admit_spec. destruct (Rotation.admit_entry now (Rotation.entry_of id r)) as [o b] eqn:Ee.
  intros [= <- <-]. cbn [fst snd]. split; [by destruct o; intros p [= <-]|].
  intros id'. unfold breaker_trial. rewrite Rotation.entry_of_put. destruct (decide (id = id')) as [<-|]; [|auto].
  revert Ee. unfold Rotation.admit_entry. repeat case_match; intros; simplify_eq; eauto.
Qed.

Lemma Rotation_report_trial now result q r id :
  Rotation.reported q = false ->
  breaker_trial id (Rotation.report now result (Some q) r).2 = true ->
  breaker_trial id r = true /\ ~ (Rotation.trial q = true /\ id = Rotation.permit_id q).
Proof.
  intros Hq. rewrite Rotation.report_spec by done. cbn [snd]. unfold breaker_trial. rewrite Rotation.entry_of_put.
  destruct (decide (Rotation.permit_id q = id)) as [<-|Hne]; [|by split; [|naive_solver]].
  rewrite record_entry_trial, andb_true_iff, negb_true_iff. intros [H1 H2]. split; [done|]. intros [? _]. congruence.
Qed.

Lemma CustomerLimit_report_trial now why d ok q r s :
  CustomerLimit.reported q = false ->
  customer_trial s (CustomerLimit.report now why d ok (Some q) r).2 = true ->
  customer_trial s r = true /\ s <> CustomerLimit.scope q.
Proof.
  intros Hq. unfold customer_trial. destruct (decide (CustomerLimit.scope q = s)) as [<-|Hne].
  - unfold CustomerLimit.report. rewrite Hq. destruct ok; cbn [snd]; [by rewrite lookup_delete_eq|].
    destruct (decide (why <> ReasonNone)); cbn [snd]; [by rewrite lookup_insert_eq|].
    destruct (r !! CustomerLimit.scope q) eqn:E; cbn [snd]; [by rewrite lookup_insert_eq|by rewrite E].
  - rewrite CustomerLimit.report_other by done. intros H. split; [done|congruence].
Qed.

Lemma CustomerLimit_Admit_trial now s0 r q refusal r' s :
  CustomerLimit.Admit now s0 r = (q, refusal, r') -> customer_trial s r' = true ->
  customer_trial s r = true \/ (exists q', q = Some q' /\ s = CustomerLimit.scope q').
Proof.
  intros Ha. assert (r' = (CustomerLimit.Admit now s0 r).2) as -> by by rewrite Ha.
  assert (q = (CustomerLimit.Admit now s0 r).1.1) as -> by by rewrite Ha. clear Ha.
  assert (forall s, customer_trial s (removeStaleLocked now r) = true -> customer_trial s r = true) as Hstale.
  { intros s1. unfold customer_trial. rewrite removeStale_lookup. destruct (r !! s1) as [e|]; [|done].
    by destruct (stale now e). }
  unfold customer_trial at 1. destruct (decide (s0 = s)) as [<-|Hne].
  - pose proof (Hstale s0) as H0. unfold customer_trial at 1 in H0. unfold CustomerLimit.Admit.
    cbv zeta. destruct (removeStaleLocked now r !! s0) as [e|] eqn:El;
      cbn [fst snd CustomerLimit.trialInFlight CustomerLimit.probesAt CustomerLimit.reason CustomerLimit.lastSeen].
    + destruct (Before now _); cbn [fst snd]; [rewrite lookup_insert_eq; cbn; auto|].
      destruct (CustomerLimit.trialInFlight e) eqn:Et; cbn [fst snd]; rewrite lookup_insert_eq; cbn; [by left; auto|].
      intros _. right. by eexists.
    + by rewrite El.
  - rewrite CustomerLimit.Admit_other by done. intros H. left. apply Hstale, H.
Qed.

(** *** Admission, release and reports *)

Lemma admit_taken now route r admission r' :
  admitRoute now route r = (admission, r') ->
  match admission with
  | Permitted p => taken p r r' /\ fresh p /\
      (r_CustomerProviderCredential route <> None -> permit p = None /\ rotation r' = rotation r)
  | _ => no_new_trial r r' /\ (r_CustomerProviderCredential route <> None -> rotation r' = rotation r)
  end.
Proof.
  unfold admitRoute. destruct (r_CustomerProviderCredential route) as [binding|].
  - destruct (CustomerLimit.Admit now _ (customerLimits r)) as [[q refusal] limits] eqn:Ea.
    pose proof (fun s => CustomerLimit_Admit_trial _ _ _ _ _ _ s Ea) as Ht.
    destruct q as [q|]; intros [= <- <-].
    + assert (CustomerLimit.reported q = false) as Hq.
      { revert Ea. unfold CustomerLimit.Admit. repeat case_match; intros; by simplify_eq. }
      split; [split; cbn; [auto|]|split; [split; cbn; [done|by intros ? [= <-]]|done]].
      intros s [?|(q' & [= <-] & ->)]%Ht; [by left|right; by exists q].
    + split; [|done]. split; cbn; [done|]. intros s [?|(q' & ? & _)]%Ht; done.
  - destruct (Rotation.Admit now (r_DeploymentID route) (rotation r)) as [q breakers] eqn:Ea.
    apply Rotation_Admit_trial in Ea as [Hq Ht]. destruct q as [q|]; intros [= <- <-].
    + split; [split; cbn; [|auto]|split; [split; cbn; [by intros ? [= <-]; apply Hq|done]|done]].
      intros id' [?|(q' & [= <-] & ? & ->)]%Ht; [by left|right]. by exists q.
    + split; [|done]. split; cbn; [|done]. intros id' [?|(q' & ? & _)]%Ht; done.
Qed.

(** Reporting both permits, in any way, gives their trials back. *)
Lemma returned p r r1 r2 r3 :
  taken p r r1 -> fresh p -> no_new_trial r1 r2 ->
  (exists now result, rotation r3 = (Rotation.report now result (permit p) (rotation r2)).2) ->
  (exists now why d ok, customerLimits r3 = (CustomerLimit.report now why d ok (customerPermit p) (customerLimits r2)).2) ->
  no_new_trial r r3.
Proof.
  intros [Hb Hc] [Fb Fc] [Nb Nc] (now1 & result & Er) (now2 & why & d & ok & Ec). split.
  - intros id. rewrite Er. destruct (permit p) as [q|] eqn:Ep.
    + intros [H1 H2]%Rotation_report_trial; [|by apply Fb].
      apply Nb, Hb in H1 as [H1|(q' & Eq & Ht & ->)]; [done|]. rewrite Ep in Eq. injection Eq as <-. by destruct H2.
    + cbn [Rotation.report snd]. intros [H|(q' & Eq & _)]%Nb%Hb; congruence.
  - intros s. rewrite Ec. destruct (customerPermit p) as [q|] eqn:Ep.
    + intros [H1 H2]%CustomerLimit_report_trial; [|by apply Fc].
      apply Nc, Hc in H1 as [H1|(q' & Eq & ->)]; [done|]. congruence.
    + cbn [CustomerLimit.report snd]. intros [H|(q' & Eq & _)]%Nc%Hc; congruence.
Qed.

Lemma release_returned now p r r1 : taken p r r1 -> fresh p -> no_new_trial r (release now p r1).
Proof. intros Ht Hf. eapply returned; [done|done|reflexivity|by eexists _, _|by eexists _, _, _, _]. Qed.

Lemma report_returned now err cancelled p r r1 r2 :
  taken p r r1 -> fresh p -> no_new_trial r1 r2 ->
  no_new_trial r (report_permit now err cancelled p (report_customer now err p r2)).
Proof.
  intros Ht Hf Hn. eapply returned; [done|done|done| |].
  - cbn. exists now. destruct err as [failure|]; [|by eexists]. destruct (_ || _); by eexists.
  - cbn. exists now. unfold reportCustomerLimitOutcome.
    destruct err as [failure|]; [|by eexists _, _, _]. destruct (AsCustomerCredential failure); [by eexists _, _, _|].
    destruct (AsCustomerUpstream failure) as [u|]; [|by eexists _, _, _].
    destruct (_ =s _); [by eexists _, _, _|by eexists _, _, _].
Qed.

(** ** Over a request *)

Section Request.
Variables (sink : Sink) (costs : option Cards) (retry : RetryPolicy) (request : Request)
  (generationID : option string) (startedAt : Instant).

(** What holds of the shared state after every branch of a turn: admission,
    then either the permits released or, past other requests' own doing, their
    outcome reported. *)
Lemma turn_shared (Q : Shared -> Prop) requested n index w c s :
  (forall admission r, admitRoute (t_admit w) (c_route c) (t_before w (shared s)) = (admission, r) ->
    match admission with
    | Permitted p => Q (release (t_report w) p r) /\
        forall err cancelled,
          Q (report_permit (t_report w) err cancelled p (report_customer (t_report w) err p (t_during w r)))
    | _ => Q r
    end) ->
  Q (shared (turn sink costs retry request generationID startedAt requested n index w c s).2).
Proof.
  intros HQ. apply turn_branches. intros admission r Ha. specialize (HQ _ _ Ha). cbv zeta.
  assert (forall s1 x, Q (shared s1) -> ends s1 x -> Q (shared x.2)) as Hends by by intros s1 x Hs (? & ? & ->).
  destruct admission as [p|refusal|]; [|eapply Hends, refuse_turn_ends; done|done].
  destruct HQ as [Hrel Hrep]. split; [done|]. split; [done|]. split; [intros; eapply Hends, refuse_turn_ends; done|].
  split; [split; [done|eapply Hends, settle_now_ends; done]|]. intros adapter platform call _ _.
  assert (forall s1, shared s1 = r ->
    proceeds sink costs retry request generationID startedAt (fun x => Q (shared x.2)) n index w c p adapter platform call s1) as Hgo.
  { intros s1 Es. split; [intros; eapply Hends, refuse_turn_ends; cbn; by rewrite Es|]. intros credentials _.
    pose proof (run_attempt_ran sink request n index w c adapter (set_RequestID (requestID request) call) platform
      credentials p s1) as Hran.
    destruct (run_attempt _ _ _ _ _ _ _ _ _ _ _ _) as [last s2].
    assert (Q (shared s2)) as Hs2 by (rewrite (ran_shared _ _ _ _ _ _ _ _ _ _ _ _ _ Hran), Es; apply Hrep).
    apply after_attempt_branches; [done|]. intros failure _ _. split; [done|]. split; [done|]. intros; done. }
  split; [intros _; by apply Hgo|]. split; [intros; by apply Hgo|]. intros; by apply Hgo.
Qed.

(** A property of the shared state that every turn keeps. *)
Lemma execute_shared (Q : Shared -> Prop) fuel snapshot world r result s :
  (forall n cs index c s, resolve snapshot costs request startedAt = inl cs -> cs !! index = Some c -> Q (shared s) ->
    Q (shared (turn sink costs retry request generationID startedAt (primaryModel cs) n index (world n) c s).2)) ->
  Q r -> execute sink costs retry request generationID startedAt fuel snapshot world r = Some (result, s) -> Q (shared s).
Proof.
  intros Hturn Hr. unfold execute. destruct (resolve _ _ _ _) as [cs|failure]; [|by intros [= _ <-]].
  apply (loop_invariant _ _ _ _ _ _ (fun _ s => Q (shared s)) (fun x => Q (shared x.2))); [| |done].
  - intros n index s' _ Hs. by destruct (after_loop_ends sink costs request generationID startedAt (world n) None s') as (? & ? & ->).
  - intros n index c s' Ec Hs. specialize (Hturn n cs index c s' eq_refl Ec Hs).
    destruct (turn _ _ _ _ _ _ _ _ _ _ _ _) as [[res| | |last] s'']; try done.
    by destruct (after_loop_ends sink costs request generationID startedAt (world (S n)) last s'') as (? & ? & ->).
Qed.

End Request.

(** C7. No trial is left behind.  Among other requests that leave none, a
    request that has ended, in whatever way, leaves no half-open trial of a
    breaker or of a customer's credential in flight that was not in flight
    before it: every permit it took was reported, so no deployment or
    credential stays refused because of it. *)
Theorem no_trial_is_left_behind sink costs retry request gen at_ fuel snapshot world r result s :
  (forall n r, no_new_trial r (t_before (world n) r) /\ no_new_trial r (t_during (world n) r)) ->
  execute sink costs retry request gen at_ fuel snapshot world r = Some (result, s) ->
  no_new_trial r (shared s).
Proof.
  intros Hothers. apply execute_shared; [|reflexivity]. intros n cs index c s1 _ _ Hs.
  apply turn_shared. intros admission r1 Ha. destruct (Hothers n (shared s1)) as [Hb _]. apply admit_taken in Ha.
  destruct admission as [p|refusal|]; [|by destruct Ha as [? _]; rewrite Hs, Hb..].
  destruct Ha as (Ht & Hf & _).
  split; [rewrite Hs, Hb; by apply release_returned|].
  intros err cancelled. rewrite Hs, Hb. eapply report_returned; [done|done|]. apply Hothers.
Qed.

Lemma no_trial_is_left_behind_witness :
  match example_execution answering_script with
  | Some (_, s) => no_new_trial idle_shared (shared s)
  | None => False
  end.
Proof.
  destruct (example_execution answering_script) as [[result s]|] eqn:E; [|vm_compute in E; discriminate E].
  exact (no_trial_is_left_behind accepting None DefaultRetryPolicy ceiling_request None 2000 4 global_inventory
    (idle answering_script) idle_shared result s
    (fun n r => conj (no_new_trial_refl r) (no_new_trial_refl r)) E).
Defined.

Lemma resolve_from_credentials i requestID at_ index seen routes cs :
  resolve_from i requestID at_ index seen routes = inl cs ->
  Forall (fun c => exists a, a ∈ routes /\ r_CustomerProviderCredential (c_route c) = route_Credential a) cs.
Proof.
  revert index seen cs. induction routes as [|a routes IH]; intros index seen cs; cbn [resolve_from]; [by intros [= <-]|].
  destruct (identify i at_ a) as [r|]; [|done]. destruct (match seen !! _ with Some _ => _ | None => _ end); [done|].
  destruct (resolve_from _ _ _ _ _ routes) as [cs'|] eqn:E; [|done]. intros [= <-]. apply IH in E. constructor.
  - exists a. split; [by apply elem_of_cons; left|done].
  - eapply Forall_impl; [exact E|]. intros c (b & Hb & Hc). exists b. split; [by apply elem_of_cons; right|done].
Qed.

Lemma resolve_credentials snapshot costs request at_ cs :
  resolve snapshot costs request at_ = inl cs ->
  Forall (fun c => exists a, a ∈ AuthorizedRoutes request /\ r_CustomerProviderCredential (c_route c) = route_Credential a) cs.
Proof.
  unfold resolve. destruct (AuthorizedRoutes request) as [|primary rest]; [done|].
  destruct (Request_Validate request); [done|]. destruct (_ && _); [done|].
  destruct (if Kind (Target request) =s TargetModel then _ else None); [done|].
  destruct (resolveAuthorizedRoutes _ _ _ _) as [all|] eqn:Ea; [|done].
  apply resolve_from_credentials in Ea. destruct (negb _); [by intros [= <-]|].
  assert (Forall (fun c => exists a, a ∈ primary :: rest /\ r_CustomerProviderCredential (c_route c) = route_Credential a)
    (omap (price_candidate costs at_) all)) as Hp.
  { induction Ea as [|c all (a & Ha & Hc) _ IH]; [constructor|]. cbn. unfold price_candidate at 1.
    destruct (Cards_DecisionPriceLimit _ _ _); cbn; [|done]. constructor; [|done]. by exists a. }
  destruct (omap _ _); [done|]. by intros [= <-].
Qed.

(** A customer's own credential and the platform's breakers are apart.  A
    request all of whose routes are bound to a customer's credential leaves the
    platform breakers exactly as they were, whatever its attempts come to: no
    success closes one and no failure opens one. *)
Theorem byok_never_touches_the_breakers sink costs retry request gen at_ fuel snapshot world r result s :
  (forall n r, rotation (t_before (world n) r) = rotation r /\ rotation (t_during (world n) r) = rotation r) ->
  Forall (fun a => route_Credential a <> None) (AuthorizedRoutes request) ->
  execute sink costs retry request gen at_ fuel snapshot world r = Some (result, s) ->
  rotation (shared s) = rotation r.
Proof.
  intros Hothers Hbyok.
  apply (execute_shared _ _ _ _ _ _ (fun r' => rotation r' = rotation r)); [|done].
  intros n cs index c s1 Hres Ec Hs.
  assert (r_CustomerProviderCredential (c_route c) <> None) as Hc.
  { apply resolve_credentials in Hres. rewrite Forall_forall in Hres.
    destruct (Hres c) as (a & Ha & ->); [by apply list_elem_of_lookup_2 in Ec|].
    rewrite Forall_forall in Hbyok. by apply Hbyok. }
  apply turn_shared. intros admission r1 Ha. destruct (Hothers n (shared s1)) as [Hb _]. apply admit_taken in Ha.
  destruct admission as [p|refusal|]; [|destruct Ha as [_ Ha]; by rewrite Ha, Hb..].
  destruct Ha as (_ & _ & Hp). destruct (Hp Hc) as [Hnone Hrot]. rewrite Hb, Hs in Hrot.
  unfold release, report_permit. rewrite Hnone. cbn. split; [done|]. intros err cancelled.
  assert (rotation (t_during (world n) r1) = rotation r) as Hd by (rewrite (proj2 (Hothers n r1)); done).
  destruct err; [destruct (_ || _)|]; done.
Qed.

(** A request on one route bound to the customer's own key. *)
Definition byok_binding : CustomerProviderCredential :=
  mkCustomerCredential "kcred_abcdefghijklmnopqrstuvwxyz" 1 "acct" "conn" EnvironmentProduction.
Definition byok_request : Request :=
  mkRequest None None None 2 (request_Attribution example_request) (Target example_request) ModalityText
    (request_Input example_request) true None (Sampling example_request) None [] None None APIFormatChatCompletions
    [mkAuthorizedRoute SubstitutionSameModel "dep" "acme/m@1" "acme" (Some []) None None (Some byok_binding)].

Lemma byok_never_touches_the_breakers_witness :
  match execute accepting None DefaultRetryPolicy byok_request None 2000 4 global_inventory (idle answering_script) idle_shared with
  | Some (result, s) => (err_Code <$> Failure result) = Some CodeBYOKCredentialInvalid /\ rotation (shared s) = rotation idle_shared
  | None => False
  end.
Proof.
  destruct (execute _ _ _ byok_request _ _ _ _ _ _) as [[result s]|] eqn:E; [|vm_compute in E; discriminate E].
  split; [vm_compute in E; injection E as <- <-; reflexivity|].
  refine (byok_never_touches_the_breakers accepting None DefaultRetryPolicy byok_request None 2000 4 global_inventory
    (idle answering_script) idle_shared result s (fun n r => conj eq_refl eq_refl) _ E).
  constructor; [discriminate|constructor].
Defined.

