(* ===== verification/ExecutorReport.v ===== *)
(** * The report agrees with what happened (internal/kaana/executor.go)

    What a request returns is about the route that was actually executed last,
    and counts exactly the route switches the customer was shown. *)

From S2P Require Import Prelude Rotation Ids Text CustomerLimit.
From S2P Require Import Contract Request Provider KeyPool ProviderCost DecisionPrice UsageEstimate Answers.
From S2P Require Import Adapter Inventory Retry Emitter Routes Settle Executor.

(** ** Route switches of a stream *)

(** A route switch the sink accepted. *)
Definition accepted_switch (entry : StreamEvent * option GoError) : bool :=
  match entry with (StreamRouteSwitchEvent _ _ _ _ _, None) => true | _ => false end.

Definition accepted_switches (l : list (StreamEvent * option GoError)) : nat := length (List.filter accepted_switch l).

#[local] Arguments accepted_switches : simpl never.

Lemma accepted_switches_app l l' : accepted_switches (l ++ l') = (accepted_switches l + accepted_switches l')%nat.
Proof. unfold accepted_switches. by rewrite List.filter_app, length_app. Qed.

(** A stream that has left its opening phase never switches. *)
Lemma no_switch_after p l p' :
  p <> Opening -> foldl (fun p event => p ≫= fun p => phase_step p event) (Some p) (l.*1) = Some p' ->
  accepted_switches l = 0%nat.
Proof.
  revert p. induction l as [|[event answer] l IH]; intros p Hp H; [done|]. cbn in H.
  destruct (phase_step p event) as [q|] eqn:Es.
  2:{ exfalso. cbn in H. assert (forall m, foldl (fun p event => p ≫= fun p => phase_step p event) None m = None) as Hn
        by by induction m. by rewrite Hn in H. }
  assert (q <> Opening /\ accepted_switch (event, answer) = false) as [Hq Ha].
  { destruct p; [done| |]; destruct event; cbn in Es; simplify_eq; by split. }
  unfold accepted_switches in *. cbn [List.filter]. rewrite Ha. by apply (IH q).
Qed.

Lemma framed_switches u0 p q e e' l :
  framed u0 p e -> framed u0 q e' -> log e' = log e ++ l -> p <> Opening ->
  accepted_switches (log e') = accepted_switches (log e).
Proof.
  intros [Hp _ _ _ _] [Hq _ _ _ _] Hl Hne. rewrite Hl, accepted_switches_app.
  unfold events in *. rewrite Hl, fmap_app in Hq. unfold phase_of in *. rewrite foldl_app, Hp in Hq.
  rewrite (no_switch_after p l q Hne Hq). lia.
Qed.

Lemma framed_start_switches u0 q e e' event answer rest :
  framed u0 Opening e -> framed u0 q e' -> log e' = log e ++ (event, answer) :: rest -> EventType event = EventStart ->
  accepted_switches (log e') = accepted_switches (log e).
Proof.
  intros [Hp _ _ _ _] [Hq _ _ _ _] Hl Hev. rewrite Hl, accepted_switches_app.
  unfold events in *. rewrite Hl, fmap_app, fmap_cons in Hq. unfold phase_of in *. rewrite foldl_app, Hp in Hq.
  destruct event; try discriminate Hev. cbn in Hq.
  apply no_switch_after in Hq; [|done]. unfold accepted_switches in *. cbn [List.filter accepted_switch]. lia.
Qed.

(** Nothing an adapter does is a route switch. *)
Lemma op_ok_switches u0 e e' :
  emitter_inv u0 e -> op_ok u0 e e' -> accepted_switches (log e') = accepted_switches (log e).
Proof.
  intros Hinv Hok. pose proof (inv_framed _ _ Hinv) as Hf. pose proof (inv_framed _ _ (ok_inv _ _ _ Hok)) as Hf'.
  destruct (ok_log _ _ _ Hok) as [l Hl]. unfold current in Hf at 1.
  destruct (terminated e) eqn:Et; [by eapply framed_switches|].
  destruct (started e) eqn:Es; [by eapply framed_switches|].
  destruct (started e') eqn:Es'; [|by destruct (ok_trace _ _ _ Hok Es') as [-> _]].
  destruct (ok_first _ _ _ Hok Es Es' Et) as (event & answer & rest & Hlog & n & ref & at_ & _ & ->).
  by eapply framed_start_switches.
Qed.

Lemma send_next_switches sink event e :
  (forall n, EventType (event n) <> EventRouteSwitch) ->
  accepted_switches (log (send_next sink event e).2) = accepted_switches (log e).
Proof.
  intros Hev. rewrite send_next_spec. destruct (terminated e); [done|]. cbn. rewrite accepted_switches_app.
  specialize (Hev (sequence e)). unfold accepted_switches at 2. cbn [List.filter].
  assert (accepted_switch (event (sequence e), sink (events e) (event (sequence e))) = false) as ->
    by by destruct (event (sequence e)). cbn. lia.
Qed.

Lemma finishWithError_switches sink failure e :
  accepted_switches (log (finishWithError sink failure e).2) = accepted_switches (log e).
Proof.
  unfold finishWithError. destruct (terminated e); [done|].
  rewrite <-(send_next_switches sink (fun n => StreamErrorEvent (e_requestID e) n failure) e) by done.
  by destruct (send_next _ _ _).
Qed.

Lemma finishWithDone_switches u0 sink reason at_ e :
  emitter_inv u0 e -> accepted_switches (log (finishWithDone sink reason at_ e).2) = accepted_switches (log e).
Proof.
  intros Hinv. unfold finishWithDone, and_then, requireStarted. destruct (attemptStarted e) eqn:Hatt; [|done].
  destruct (commit_ok sink u0 e Hinv Hatt) as (Hok & _ & _). rewrite <-(op_ok_switches u0 e _ Hinv Hok).
  destruct (commit sink e) as [[err|] e1]; [done|]. cbn [snd].
  rewrite <-(send_next_switches sink (fun n => StreamDoneEvent (e_requestID e1) n (e_generationID e1) reason (NewTimestamp at_)) e1) by done.
  by destruct (send_next _ _ _).
Qed.

(** ** Settling *)

Lemma settle_stream_switches u0 sink request completedAt last sinkErr tf r cost e :
  emitter_inv u0 e ->
  accepted_switches (log (settle_stream sink request completedAt last sinkErr tf r cost e).2) = accepted_switches (log e).
Proof.
  intros Hinv. unfold settle_stream. cbn zeta. destruct (UsageReport_Validate _).
  { cbn [snd]. destruct (_ && _); [apply finishWithError_switches|done]. }
  destruct sinkErr; [done|].
  assert (forall (g : option GoError -> Result) f,
    accepted_switches (log (let '(err, e') := finishWithError sink f e in (g err, e')).2) = accepted_switches (log e)) as Herr.
  { intros g f. rewrite <-(finishWithError_switches sink f e). by destruct (finishWithError _ _ _). }
  destruct tf; [apply Herr|]. destruct (att_err last).
  - destruct (att_cancelled last); [done|apply Herr].
  - destruct (negb _); [apply (Herr (fun _ => _))|].
    rewrite <-(finishWithDone_switches u0 sink (finishReasonOr (out_FinishReason (att_outcome last)) FinishStop) completedAt e Hinv).
    by destruct (finishWithDone _ _ _ _) as [[err|] e'].
Qed.

Section Settle.
Variables (sink : Sink) (costs : option Cards) (request : Request) (generationID : option string)
  (startedAt completedAt measuredAt : Instant).

Notation settle := (settle sink costs request generationID startedAt completedAt measuredAt).

Lemma reconstruct_switches u0 completed last usage sinkErr e last' usage' sinkErr' e' :
  emitter_inv u0 e -> reconstruct sink completed last usage sinkErr e = (last', usage', sinkErr', e') ->
  emitter_inv u0 e' /\ accepted_switches (log e') = accepted_switches (log e).
Proof.
  intros Hinv. unfold reconstruct. destruct (negb (_ && _ && _)); [by intros [= _ _ _ <-]|].
  destruct (_ && isNone sinkErr); [|by intros [= _ _ _ <-]].
  set (us := supplement _ _). pose proof (apply_op_ok sink u0 0 (OpUsage us UsageEstimated) e Hinv) as Hok.
  cbn [apply_op] in Hok. destruct (Usage sink us UsageEstimated e) as [err e1]. intros [= _ _ _ <-].
  split; [apply Hok|by apply (op_ok_switches u0)].
Qed.

(** What any settlement returns: a report on its own attempt, or an internal
    failure; and no route switch. *)
Lemma settle_agrees u0 last usage switches sinkErr tf e :
  emitter_inv u0 e -> (APIFormat request = APIFormatDecisions -> Decisions (request_Input request) <> None) ->
  let '(res, e') := settle last usage switches sinkErr tf e in
  accepted_switches (log e') = accepted_switches (log e) /\
  match Report res with
  | Some r => reports_on request last switches r /\ (res_Embedding res = None -> UsageReport_Validate r = None)
  | None => (err_Code <$> Failure res) = Some CodeInternalError
  end.
Proof.
  intros Hinv Hdec. unfold Settle.settle. set (completed := isNone _ && _ && _).
  destruct (reconstruct _ _ _ _ _ _) as [[[last' usage'] sinkErr'] e1] eqn:Er.
  pose proof (reconstruct_switches u0 _ _ _ _ _ _ _ _ _ Hinv Er) as [Hinv1 <-].
  apply reconstruct_keeps in Er as [Hroute _ _ _ _ _ _ _]. cbn zeta. set (cost := MeasureRequest _ _ _ _).
  set (report := report_of _ _ _ _ _ _ _).
  assert (reports_on request last switches report) as Hon by (constructor; cbn; rewrite ?Hroute; done).
  clearbody report cost.
  assert (forall o, reports_on request last switches (set_Outcome o report)) as Hout by (intros o; destruct Hon; by constructor).
  assert (let '(res, e') := settle_stream sink request completedAt last' sinkErr' tf report cost e1 in
    accepted_switches (log e') = accepted_switches (log e1) /\
    match Report res with
    | Some r => reports_on request last switches r /\ (res_Embedding res = None -> UsageReport_Validate r = None)
    | None => (err_Code <$> Failure res) = Some CodeInternalError
    end) as Hstream.
  { pose proof (settle_stream_switches u0 sink request completedAt last' sinkErr' tf report cost e1 Hinv1) as Hsw.
    pose proof (settle_stream_report sink request completedAt last' sinkErr' tf report cost e1) as Hrep. cbn zeta in Hrep.
    set (r' := complete_report _ _ _ _) in Hrep.
    assert (reports_on request last switches r') as Hr'.
    { destruct (complete_report_keeps last' (negb (isNone sinkErr' && isNone tf)) e1 report) as (K1 & K2 & K3 & K4 & K5 & _).
      destruct Hon. unfold r'. constructor; congruence. }
    assert (UsageReport_Validate r' <> None ->
      (err_Code <$> Failure (settle_stream sink request completedAt last' sinkErr' tf report cost e1).1) = Some CodeInternalError) as Hf.
    { intros Hv. unfold settle_stream. cbn zeta. fold r'. by destruct (UsageReport_Validate r'). }
    destruct (settle_stream _ _ _ _ _ _ _ _ _) as [res e2]. cbn [fst snd] in *. split; [done|]. rewrite Hrep.
    destruct (UsageReport_Validate r') eqn:Ev; [by apply Hf|done]. }
  destruct (completed && _) eqn:Ec.
  - apply andb_true_iff in Ec as [_ Ed]. bool_cases. split; [done|]. unfold settle_decisions.
    destruct (Decisions (request_Input request)) eqn:Eq; [|by specialize (Hdec Ed)].
    destruct (ValidateDecisionAnswers _ _).
    + unfold finalize, unsettleable. destruct (UsageReport_Validate _) eqn:Ev; [done|]. split; [apply Hout|done].
    + unfold unsettleable. destruct (UsageReport_Validate _) eqn:Ev; [done|]. split; [apply Hout|done].
  - destruct (att_err last'), (out_Embedding (att_outcome last')); try exact Hstream.
    split; [done|]. cbn. split; [|done]. destruct Hon, (UsageSource report =s ""); by constructor.
Qed.

End Settle.

(** ** Over the loop *)

(** The attempt is the last call's. *)
Definition last_called (cs : list candidate) (ucs : list UpstreamCall) (a : attempt) : Prop :=
  exists l uc c, ucs = l ++ [uc] /\ cs !! uc_index uc = Some c /\ att_route a = c_route c.

Definition agrees (request : Request) (cs : list candidate) (x : Result * Loop) : Prop :=
  match Report x.1 with
  | Some r => exists a, last_called cs (calls x.2) a /\
      reports_on request a (Z.of_nat (accepted_switches (log (emit x.2)))) r /\
      (res_Embedding x.1 = None -> UsageReport_Validate r = None)
  | None => calls x.2 = [] \/ (err_Code <$> Failure x.1) = Some CodeInternalError
  end.

Section Loop.
Variables (sink : Sink) (costs : option Cards) (retry : RetryPolicy) (request : Request)
  (generationID : option string) (startedAt : Instant) (u0 : usageEstimate) (cs : list candidate).
Hypothesis questions : APIFormat request = APIFormatDecisions -> Decisions (request_Input request) <> None.

Notation settle_now := (settle_now sink costs request generationID startedAt).

Record reporting (s : Loop) : Prop := {
  ri_emit : emitter_inv u0 (emit s);
  ri_switches : switches s = Z.of_nat (accepted_switches (log (emit s)));
  ri_abandoned : match abandoned s with Some a => last_called cs (calls s) a | None => calls s = [] end;
}.

Lemma settle_now_agrees w a sinkErr failure s :
  emitter_inv u0 (emit s) -> switches s = Z.of_nat (accepted_switches (log (emit s))) -> last_called cs (calls s) a ->
  agrees request cs (settle_now w a sinkErr failure s).
Proof.
  intros He Hs Ha. unfold Executor.settle_now.
  pose proof (settle_agrees sink costs request generationID startedAt (t_completed w) (t_measured w) u0 a (usage s)
    (switches s) sinkErr failure (emit s) He questions) as H.
  destruct (settle _ _ _ _ _ _ _ _ _ _ _ _ _) as [res e']. destruct H as [Hsw H]. unfold agrees. cbn [fst snd].
  destruct (Report res) as [r|]; [|by right]. exists a. split; [done|]. cbn [emit set_emit]. rewrite Hsw, <-Hs. exact H.
Qed.

(** A turn that returns agrees; one that does not leaves the loop reporting. *)
Definition turn_agrees (x : Ending * Loop) : Prop :=
  match x.1 with
  | Return_ r => agrees request cs (r, x.2)
  | Leave (Some a) => emitter_inv u0 (emit x.2) /\ switches x.2 = Z.of_nat (accepted_switches (log (emit x.2))) /\
      last_called cs (calls x.2) a
  | Leave None => False
  | _ => reporting x.2
  end.

Lemma refuse_turn_agrees w failure s :
  reporting s -> turn_agrees (refuse_turn sink costs request generationID startedAt w failure s).
Proof.
  intros [He Hs Ha]. unfold Executor.refuse_turn. destruct (abandoned s) as [a|] eqn:Eab.
  - pose proof (settle_now_agrees w a None (Some failure) s He Hs Ha) as H. by destruct (settle_now _ _ _ _ _).
  - by left.
Qed.

Lemma routeSwitch_switches reason requested from to at_ e err e' :
  emitter_inv u0 e -> routeSwitch sink reason requested from to at_ e = (err, e') ->
  emitter_inv u0 e' /\ started e' = started e /\
  accepted_switches (log e') = (accepted_switches (log e) + match err with None => 1 | Some _ => 0 end)%nat.
Proof.
  intros Hinv Hsw. destruct (switch_inv sink u0 reason requested from to at_ e Hinv) as [Hinv' _].
  rewrite Hsw in Hinv'. split; [done|]. unfold routeSwitch in Hsw.
  destruct (started e) eqn:Est; [injection Hsw as <- <-; by rewrite Est, Nat.add_0_r|].
  assert (forall detail, send_next sink (fun n => StreamRouteSwitchEvent (e_requestID e) n reason detail (NewTimestamp at_)) e
      = (err, e') -> started e' = false /\
    accepted_switches (log e') = (accepted_switches (log e) + match err with None => 1 | Some _ => 0 end)%nat) as Hsend.
  { intros detail Hd. rewrite send_next_spec in Hd. destruct (terminated e).
    - injection Hd as <- <-. cbn. by rewrite Nat.add_0_r.
    - injection Hd as <- <-. split; [done|]. cbn. rewrite accepted_switches_app. f_equal.
      by destruct (sink _ _). }
  destruct (_ =s _); [by eapply Hsend|]. destruct (_ =s _); [injection Hsw as <- <-; by rewrite Nat.add_0_r|].
  destruct (negb _); [injection Hsw as <- <-; by rewrite Nat.add_0_r|by eapply Hsend].
Qed.

Lemma turn_reporting requested n index w c s :
  cs !! index = Some c -> reporting s ->
  turn_agrees (turn sink costs retry request generationID startedAt requested n index w c s).
Proof.
  intros Ec [He Hs Ha].
  assert (forall s1, emit s1 = emit s -> switches s1 = switches s -> abandoned s1 = abandoned s -> calls s1 = calls s ->
    reporting s1) as Hsame.
  { intros s1 E1 E2 E3 E4. by constructor; rewrite ?E1, ?E2, ?E3, ?E4. }
  apply turn_branches. intros admission r _. cbv zeta.
  destruct admission as [p|refusal|]; [|by apply refuse_turn_agrees, Hsame|by apply Hsame].
  split; [by apply Hsame|]. split.
  { intros a Hab _. cbn. rewrite Hab in Ha. done. }
  split; [intros failure; by apply refuse_turn_agrees, Hsame|]. split.
  { intros a e err Hab _ Hsw. destruct (routeSwitch_switches _ _ _ _ _ _ _ _ He Hsw) as (He' & _ & Hc).
    rewrite Hab in Ha. rewrite Nat.add_0_r in Hc. split; [cbn; by rewrite Hc|].
    set (s3 := set_shared _ _).
    pose proof (settle_now_agrees w a (Some err) None s3 He' ltac:(cbn; by rewrite Hc) Ha) as H.
    by destruct (settle_now _ _ _ _ _). }
  intros adapter platform call _ _.
  assert (forall s1, emitter_inv u0 (emit s1) -> switches s1 = Z.of_nat (accepted_switches (log (emit s1))) ->
    match abandoned s1 with Some a => last_called cs (calls s1) a | None => calls s1 = [] end ->
    proceeds sink costs retry request generationID startedAt turn_agrees n index w c p adapter platform call s1) as Hgo.
  { intros s1 He1 Hs1 Ha1. split; [intros failure; by apply refuse_turn_agrees|]. intros credentials _.
    pose proof (run_attempt_ran sink request n index w c adapter (set_RequestID (requestID request) call) platform
      credentials p s1) as Hran.
    destruct (run_attempt _ _ _ _ _ _ _ _ _ _ _ _) as [last s2].
    destruct Hran as [(outcome & err & Hplay & _) Hroute Hsw _ _ _ _ Hcalls].
    set (e1 := serving _ _ _) in Hplay.
    assert (emitter_inv u0 e1) as Hinv1 by by apply serving_inv.
    pose proof (play_ok sink u0 (a_Stream adapter n (set_RequestID (requestID request) call) credentials) e1 Hinv1) as Hok.
    rewrite Hplay in Hok. cbn [snd] in Hok.
    assert (switches s2 = Z.of_nat (accepted_switches (log (emit s2)))) as Hs2.
    { by rewrite Hsw, Hs1, (op_ok_switches u0 e1 (emit s2) Hinv1 Hok). }
    assert (last_called cs (calls s2) last) as Hl2.
    { eexists _, _, c. split; [exact Hcalls|]. by split. }
    assert (emitter_inv u0 (emit s2)) as He2 by apply Hok.
    apply after_attempt_branches; [by split|]. intros failure _ _. split; [by constructor|]. split; [by split|].
    intros wait _ _. by constructor. }
  split; [intros Hab; apply Hgo; [done|done|]; cbn; by rewrite Hab in Ha |- *|].
  split; [intros a Hab _ _; by apply Hgo|]. intros a e Hab _ _ Hsw.
  destruct (routeSwitch_switches _ _ _ _ _ _ _ _ He Hsw) as (He' & _ & Hc).
  apply Hgo; [done| |done]. cbn. rewrite Hc, Hs. lia.
Qed.

Lemma loop_agrees world fuel n s x :
  reporting s -> loop sink costs retry request generationID startedAt world cs fuel n 0 s = Some x -> agrees request cs x.
Proof.
  apply (loop_invariant _ _ _ _ _ _ (fun _ => reporting) (agrees request cs)).
  - intros m index s' _ [He Hs Ha]. unfold Executor.after_loop. destruct (abandoned s') as [a|]; [by apply settle_now_agrees|].
    by left.
  - intros m index c s' Ec Hr. pose proof (turn_reporting (primaryModel cs) m index (world m) c s' Ec Hr) as H.
    destruct (turn _ _ _ _ _ _ _ _ _ _ _ _) as [[res| | |[a|]] s'']; try done.
    destruct H as (H1 & H2 & H3). by apply settle_now_agrees.
Qed.

End Loop.

Lemma decisions_have_questions request :
  Request_Validate request = None -> APIFormat request = APIFormatDecisions -> Decisions (request_Input request) <> None.
Proof.
  unfold Request_Validate. intros Hv Hd. apply or_else_None in Hv as [Hv _].
  rewrite Hd in Hv. rewrite String.eqb_refl, orb_true_r in Hv.
  unfold ValidateDecisionsEnvelope in Hv. apply or_else_None in Hv as [Hv _]. apply refuse_if_None in Hv.
  rewrite !orb_false_iff in Hv. destruct Hv as (((((((((((((((_ & _) & Hp) & _) & _) & _) & _) & _) & _) & _) & _) & _) & _) & _) & _) & _).
  by destruct (Decisions (request_Input request)).
Qed.

Lemma execute_agrees sink costs retry request gen at_ fuel snapshot world r result s :
  execute sink costs retry request gen at_ fuel snapshot world r = Some (result, s) ->
  match Report result with
  | None => calls s = [] \/ (err_Code <$> Failure result) = Some CodeInternalError
  | Some rep =>
      exists cs a, resolve snapshot costs request at_ = inl cs /\ last_called cs (calls s) a /\
        reports_on request a (Z.of_nat (accepted_switches (log (emit s)))) rep /\
        (res_Embedding result = None -> UsageReport_Validate rep = None)
  end.
Proof.
  unfold execute. destruct (resolve _ _ _ _) as [cs|failure] eqn:Hres; [|intros [= <- <-]; by left].
  assert (Request_Validate request = None) as Hv.
  { revert Hres. unfold resolve. destruct (AuthorizedRoutes request); [done|]. by destruct (Request_Validate request). }
  intros Hloop. apply (loop_agrees _ _ _ _ _ _ (newUsageEstimate request) cs (decisions_have_questions _ Hv)) in Hloop.
  2:{ constructor; [by apply new_inv|done|done]. }
  unfold agrees in Hloop. cbn [fst snd] in Hloop. destruct (Report result) as [rep|]; [|done].
  destruct Hloop as (a & Ha & Hrep & Hval). by exists cs, a.
Qed.

(** C8. The report agrees with what happened.  A request that reached an
    adapter returns a usage report or an internal failure, and one that reached
    none returns no report; a report names this request and the provider, the
    deployment and the revision of the last route that was actually executed,
    and its route switches are exactly the switch events the customer's stream
    accepted. *)
Theorem report_agrees_with_the_stream sink costs retry request gen at_ fuel snapshot world r result s :
  execute sink costs retry request gen at_ fuel snapshot world r = Some (result, s) ->
  match Report result with
  | None => calls s = [] \/ (err_Code <$> Failure result) = Some CodeInternalError
  | Some rep =>
      RouteSwitches rep = Z.of_nat (accepted_switches (log (emit s))) /\ report_RequestID rep = request_RequestID request /\
      exists cs l uc c, resolve snapshot costs request at_ = inl cs /\ calls s = l ++ [uc] /\ cs !! uc_index uc = Some c /\
        ServingProvider rep = r_Provider (c_route c) /\ report_DeploymentID rep = r_DeploymentID (c_route c) /\
        ResolvedModelReference rep = r_ModelReference (c_route c)
  end.
Proof.
  intros H%execute_agrees. destruct (Report result) as [rep|]; [|done].
  destruct H as (cs & a & Hres & (l & uc & c & Hl & Hc & Ha) & [Hr1 Hr2 Hr3 Hr4 Hr5] & _).
  split; [done|]. split; [done|]. exists cs, l, uc, c. do 3 (split; [done|]). rewrite <-Ha. done.
Qed.

Lemma report_agrees_with_the_stream_witness :
  match example_execution answering_script with
  | Some (result, s) => exists rep, Report result = Some rep /\
      RouteSwitches rep = Z.of_nat (accepted_switches (log (emit s)))
  | None => False
  end.
Proof.
  destruct (example_execution answering_script) as [[result s]|] eqn:E; [|vm_compute in E; discriminate E].
  pose proof (report_agrees_with_the_stream accepting None DefaultRetryPolicy ceiling_request None 2000 4 global_inventory
    (idle answering_script) idle_shared result s E) as H.
  destruct (Report result) as [rep|] eqn:Er.
  - exists rep. split; [reflexivity|apply H].
  - exfalso. vm_compute in E. injection E as <- <-. discriminate Er.
Defined.
