(* ===== verification/PublicContract.v ===== *)
(** * The public surface

    src/internal/contract/public.go: what a client of kaana.ai/v1 is told.
    The public error vocabulary with its HTTP statuses, and the projection of
    an internal error onto it.  The fixed text of a code is a function of the
    code alone and is left out, as messages are throughout. *)

From S2P Require Import Prelude Contract.

Definition publicErrorCodeValues :=
  ["invalid_request"; "authentication_failed"; "permission_denied"; "insufficient_scope";
   "model_not_found"; "unsupported_modality"; "context_length_exceeded"; "request_too_large";
   "output_limit_exceeded"; "idempotency_conflict"; "insufficient_balance"; "spending_limit_exceeded";
   "quota_exceeded"; "byok_credential_invalid"; "policy_violation"; "commercial_permission_denied";
   "no_route_available"; "upstream_content_filtered"; "cancelled"; "rate_limited";
   "provider_error"; "provider_timeout"; "provider_overloaded"; "service_unavailable"; "internal_error"].

Definition PublicErrorCode_Valid (code : string) : bool := isMember code publicErrorCodeValues.

Definition publicErrorHTTPStatus : list (string * Z) :=
  [("invalid_request", 400); ("authentication_failed", 401); ("permission_denied", 403); ("insufficient_scope", 403);
   ("model_not_found", 404); ("unsupported_modality", 400); ("context_length_exceeded", 400);
   ("request_too_large", 413); ("output_limit_exceeded", 400); ("idempotency_conflict", 409);
   ("insufficient_balance", 402); ("spending_limit_exceeded", 402); ("quota_exceeded", 429);
   ("byok_credential_invalid", 400); ("policy_violation", 403); ("commercial_permission_denied", 403);
   ("no_route_available", 503); ("upstream_content_filtered", 400); ("cancelled", 499); ("rate_limited", 429);
   ("provider_error", 502); ("provider_timeout", 504); ("provider_overloaded", 503); ("service_unavailable", 503);
   ("internal_error", 500)]%Z.

Fixpoint assoc {A} (key : string) (l : list (string * A)) : option A :=
  match l with [] => None | (k, v) :: l => if key =s k then Some v else assoc key l end.

Definition HTTPStatus (code : string) : Z := default 500%Z (assoc code publicErrorHTTPStatus).

Record PublicError := mkPublicError {
  pub_Code : string;
  pub_Retryable : bool;
  pub_RequestID : string;
  pub_RetryAfterMs : option Z;
  pub_Param : option string;
  pub_UpstreamCategory : option string;
}.

Definition NewPublicError (requestID code : string) : PublicError :=
  mkPublicError code (Retryable code) requestID None None None.

Definition pub_WithParam (param : string) (e : PublicError) : PublicError :=
  mkPublicError (pub_Code e) (pub_Retryable e) (pub_RequestID e) (pub_RetryAfterMs e) (Some param) (pub_UpstreamCategory e).

Definition pub_WithRetryAfter (milliseconds : Z) (e : PublicError) : PublicError :=
  if pub_Retryable e && (0 <=? milliseconds)%Z
  then mkPublicError (pub_Code e) (pub_Retryable e) (pub_RequestID e) (Some milliseconds) (pub_Param e) (pub_UpstreamCategory e)
  else e.

(** The public code of an internal one. *)
Definition public_code (code : string) : string :=
  let public :=
    if isMember code [CodeProviderCredentialInvalid; CodeProviderBillingRefused; CodeDeploymentUnavailable]
    then CodeServiceUnavailable else code in
  if PublicErrorCode_Valid public then public else CodeInternalError.

Definition PublicErrorFrom (failure : Error) : PublicError :=
  let code := public_code (err_Code failure) in
  let public := NewPublicError (err_RequestID failure) code in
  let public :=
    match err_Param failure with
    | Some param => if code =s CodeInvalidRequest then pub_WithParam param public else public
    | None => public
    end in
  let public :=
    match err_RetryAfterMs failure with Some ms => pub_WithRetryAfter ms public | None => public end in
  mkPublicError (pub_Code public) (pub_Retryable public) (pub_RequestID public)
    (if pub_Retryable public then pub_RetryAfterMs public else None) (pub_Param public) (err_UpstreamCategory failure).

(** ** Lemmas *)

Lemma public_code_valid code : PublicErrorCode_Valid (public_code code) = true.
Proof.
  unfold public_code. cbv zeta. destruct (isMember code _); [reflexivity|].
  destruct (PublicErrorCode_Valid code) eqn:E; [done|reflexivity].
Qed.

Lemma PublicErrorFrom_code failure : pub_Code (PublicErrorFrom failure) = public_code (err_Code failure).
Proof.
  unfold PublicErrorFrom, pub_WithRetryAfter, pub_WithParam, NewPublicError. cbv zeta.
  destruct (err_Param failure); [destruct (_ =s _)|]; destruct (err_RetryAfterMs failure); cbn; try destruct (_ && _); done.
Qed.

Lemma PublicErrorFrom_retryable failure :
  pub_Retryable (PublicErrorFrom failure) = Retryable (public_code (err_Code failure)).
Proof.
  unfold PublicErrorFrom, pub_WithRetryAfter, pub_WithParam, NewPublicError. cbv zeta.
  destruct (err_Param failure); [destruct (_ =s _)|]; destruct (err_RetryAfterMs failure); cbn; try destruct (_ && _); done.
Qed.

(** What of an internal error reaches the public surface. *)
Definition public_view (failure : Error) : string * string * option Z * option string * option string :=
  (public_code (err_Code failure), err_RequestID failure, err_RetryAfterMs failure,
   if public_code (err_Code failure) =s CodeInvalidRequest then err_Param failure else None,
   err_UpstreamCategory failure).

Lemma PublicErrorFrom_view failure failure' :
  public_view failure = public_view failure' -> PublicErrorFrom failure = PublicErrorFrom failure'.
Proof.
  unfold public_view, PublicErrorFrom. intros [= Hc Hr Ha Hp Hu]. rewrite Hc, Hr, Ha, Hu in *. cbv zeta.
  destruct (public_code (err_Code failure') =s CodeInvalidRequest); [by rewrite Hp|].
  by destruct (err_Param failure), (err_Param failure').
Qed.

(** A public error is public.  Whatever failed inside, the client is told a
    code of the public vocabulary (with a status of its own), retryability
    follows that code, a wait is named only for a code that may be retried, a
    parameter only for a request at fault; and two failures that differ in
    nothing but what the provider said look the same. *)
Theorem public_errors_name_no_provider failure :
  let public := PublicErrorFrom failure in
  PublicErrorCode_Valid (pub_Code public) = true /\
  is_Some (assoc (pub_Code public) publicErrorHTTPStatus) /\
  pub_Retryable public = Retryable (pub_Code public) /\
  (forall ms, pub_RetryAfterMs public = Some ms -> pub_Retryable public = true /\ (0 <= ms)%Z) /\
  (forall param, pub_Param public = Some param -> pub_Code public = CodeInvalidRequest) /\
  (forall failure', public_view failure' = public_view failure -> PublicErrorFrom failure' = public).
Proof.
  cbv zeta. rewrite PublicErrorFrom_code, PublicErrorFrom_retryable. pose proof (public_code_valid (err_Code failure)) as Hv.
  split_and!; try done.
  - unfold PublicErrorCode_Valid in Hv. apply isMember_spec in Hv. revert Hv. generalize (public_code (err_Code failure)).
    apply Forall_forall. vm_compute. repeat (apply Forall_cons; split; [by eexists|]). constructor.
  - intros ms. unfold PublicErrorFrom. cbv zeta. cbn [pub_RetryAfterMs].
    destruct (pub_Retryable _) eqn:Er; [|done]. intros Hms.
    assert (forall e wait, pub_RetryAfterMs e = None -> pub_RetryAfterMs (pub_WithRetryAfter wait e) = Some ms -> (0 <= ms)%Z) as Hwait.
    { intros e wait He. unfold pub_WithRetryAfter. destruct (_ && _) eqn:E; [|congruence]. cbn. intros [= <-]. by bool_cases. }
    assert (forall x : PublicError, pub_RetryAfterMs
      (match err_Param failure with
       | Some param => if public_code (err_Code failure) =s CodeInvalidRequest then pub_WithParam param x else x
       | None => x end) = pub_RetryAfterMs x) as Hparam by (intros x; destruct (err_Param failure); [destruct (_ =s _)|]; reflexivity).
    destruct (err_RetryAfterMs failure) as [wait|]; [|by rewrite Hparam in Hms].
    apply Hwait in Hms; [|by rewrite Hparam]. split; [|done].
    revert Er. unfold pub_WithRetryAfter, pub_WithParam, NewPublicError.
    destruct (err_Param failure); [destruct (_ =s _)|]; cbn; destruct (_ && _); done.
  - intros param. unfold PublicErrorFrom, pub_WithRetryAfter, pub_WithParam, NewPublicError. cbv zeta.
    destruct (public_code _ =s CodeInvalidRequest) eqn:E; [by bool_cases|].
    destruct (err_Param failure), (err_RetryAfterMs failure); cbn; try destruct (_ && _); done.
  - intros failure'. apply PublicErrorFrom_view.
Qed.
