(* ===== verification/RealtimeContract.v ===== *)
(** * Realtime sessions: the contract

    src/internal/contract/realtime.go and the shapes of realtime_wire.go: the
    vocabularies, the session request with its rules, the client's commands
    with theirs, audio frames and what they count for, and the server's
    events.  A command stands for the frame that decodes into it; the strict
    JSON stage that finds it is the argument [parsed] of
    [DecodeRealtimeCommand]. *)

From S2P Require Import Prelude Ids Text Contract Request Answers PublicContract.

(** ** Vocabularies and bounds *)

Definition RealtimeSchemaVersion : Z := 1.
Definition MaxRealtimeAudioFrameBase64Length : Z := 65536.
Definition MaxRealtimeSessionDurationMs : Z := 3600000.
Definition MaxRealtimeSessionAudioBytes : Z := 172800000.
Definition MaxRealtimeResumeWindowMs : Z := 60000.
Definition MaxRealtimeItemTextChars : Z := 1048576.
Definition maxRealtimeInstructions : Z := 32768.

Definition RealtimeConversation := "conversation".
Definition RealtimeTranscription := "transcription".
Definition RealtimeTranslation := "translation".
Definition realtimeSessionKindValues := [RealtimeConversation; RealtimeTranscription; RealtimeTranslation].

Definition RealtimeWebSocket := "websocket".
Definition realtimeSessionTransportValues := [RealtimeWebSocket].

Definition RealtimePCM16 := "pcm16_24khz".
Definition RealtimeULaw := "g711_ulaw".
Definition RealtimeALaw := "g711_alaw".
Definition realtimeAudioFormatValues := [RealtimePCM16; RealtimeULaw; RealtimeALaw].

Definition RealtimeOutputText := "text".
Definition RealtimeOutputAudio := "audio".
Definition realtimeOutputModalityValues := [RealtimeOutputText; RealtimeOutputAudio].

Definition RealtimeClosedByClient := "client_closed".
Definition RealtimeMaxDuration := "max_duration".
Definition RealtimeIdleTimeout := "idle_timeout".
Definition RealtimeLimitExceeded := "limit_exceeded".
Definition RealtimeResumeExpired := "resume_expired".
Definition RealtimeUpstreamClosed := "upstream_closed".
Definition RealtimeUpstreamError := "upstream_error".
Definition RealtimeNoRouteAvailable := "no_route_available".
Definition RealtimeServerShutdown := "server_shutdown".
Definition realtimeSessionCloseReasonValues :=
  [RealtimeClosedByClient; RealtimeMaxDuration; RealtimeIdleTimeout; RealtimeLimitExceeded; RealtimeResumeExpired;
   RealtimeUpstreamClosed; RealtimeUpstreamError; RealtimeNoRouteAvailable; RealtimeServerShutdown].

(** ** Configuration *)

Definition TurnDetectionNone := "none".
Definition TurnDetectionServerVAD := "server_vad".
Definition TurnDetectionSemanticVAD := "semantic_vad".
Definition realtimeTurnDetectionTypeValues := [TurnDetectionNone; TurnDetectionServerVAD; TurnDetectionSemanticVAD].
Definition realtimeVADEagernessValues := ["low"; "medium"; "high"; "auto"].

Record RealtimeTurnDetection := mkTurnDetection {
  td_Type : string;
  Threshold : option float64;
  PrefixPaddingMs : option Z;
  SilenceDurationMs : option Z;
  Eagerness : option string;
  CreateResponse : option bool;
  InterruptResponse : option bool;
}.

Definition outside (lo hi z : Z) : bool := (z <? lo)%Z || (hi <? z)%Z.

(** A rule that only a present field can break. *)
Definition breaks {A} (f : A -> bool) (o : option A) : bool := match o with Some x => f x | None => false end.

Definition TurnDetection_validate (t : RealtimeTurnDetection) : option string :=
  let states_both := present (CreateResponse t) && present (InterruptResponse t) in
  if td_Type t =s TurnDetectionNone then
    refuse_if (present (Threshold t) || present (PrefixPaddingMs t) || present (SilenceDurationMs t)
               || present (Eagerness t) || present (CreateResponse t) || present (InterruptResponse t))
      "turnDetection none carries no parameters"
  else if td_Type t =s TurnDetectionServerVAD then
    refuse_if (present (Eagerness t)) "server_vad has no eagerness" ;;
    refuse_if (breaks (fun x => f64_ltb x f64_0 || f64_ltb f64_1' x) (Threshold t))
      "server_vad threshold is between 0 and 1" ;;
    refuse_if (breaks (outside 0 5000) (PrefixPaddingMs t)) "server_vad prefixPaddingMs is between 0 and 5000" ;;
    refuse_if (breaks (outside 0 10000) (SilenceDurationMs t))
      "server_vad silenceDurationMs is between 0 and 10000" ;;
    refuse_if (negb states_both) "server_vad states createResponse and interruptResponse"
  else if td_Type t =s TurnDetectionSemanticVAD then
    refuse_if (present (Threshold t) || present (PrefixPaddingMs t) || present (SilenceDurationMs t))
      "semantic_vad takes only eagerness" ;;
    refuse_if (match Eagerness t with Some e => negb (isMember e realtimeVADEagernessValues) | None => true end)
      "semantic_vad needs an eagerness" ;;
    refuse_if (negb states_both) "semantic_vad states createResponse and interruptResponse"
  else Some "not a turn detection".

Definition createsOrInterrupts (t : RealtimeTurnDetection) : bool :=
  breaks (fun b => b) (CreateResponse t) || breaks (fun b => b) (InterruptResponse t).

(** [boundedText] and [boundedID]: lengths in UTF-16 code units. *)
Definition boundedText (value : option string) (minimum maximum : Z) : bool :=
  match value with
  | None => true
  | Some s => (minimum <=? utf16Length s)%Z && (utf16Length s <=? maximum)%Z
  end.

Definition boundedID (value : string) : bool := negb (value =s "") && (utf16Length value <=? 128)%Z.

Record RealtimeInputTranscription := mkInputTranscription {
  it_Language : option string;
  it_Prompt : option string;
  InterimResults : option bool;
}.

Definition WantsInterim (t : option RealtimeInputTranscription) : bool :=
  breaks (fun t => breaks (fun b => b) (InterimResults t)) t.

Definition InputTranscription_validate (t : RealtimeInputTranscription) : option string :=
  refuse_if (negb (boundedText (it_Language t) 2 35)) "inputAudioTranscription.language is a BCP 47 tag" ;;
  refuse_if (negb (boundedText (it_Prompt t) 0 4096)) "inputAudioTranscription.prompt is at most 4096 characters".

Record RealtimeToolDefinition := mkRealtimeTool {
  rtool_Type : string;
  rtool_Name : string;
  rtool_Description : option string;
  rtool_Parameters : list (string * Json);
}.

Record RealtimeSessionConfig := mkSessionConfig {
  cfg_Instructions : option string;
  cfg_OutputModalities : option (list string);
  cfg_Voice : option string;
  InputAudioFormat : string;
  OutputAudioFormat : option string;
  cfg_TurnDetection : RealtimeTurnDetection;
  cfg_InputAudioTranscription : option RealtimeInputTranscription;
  Translation : option string;                     (* its target language *)
  cfg_Tools : option (list RealtimeToolDefinition);
  cfg_ToolChoice : option ToolChoice;
  cfg_MaxOutputTokens : option Z;
}.

Record RealtimeSessionConfigUpdate := mkConfigUpdate {
  up_Instructions : option string;
  up_OutputModalities : option (list string);
  up_TurnDetection : option RealtimeTurnDetection;
  up_InputAudioTranscription : option RealtimeInputTranscription;
  up_Tools : option (list RealtimeToolDefinition);
  up_ToolChoice : option ToolChoice;
  up_MaxOutputTokens : option Z;
}.

(** The loop of [validateOutputModalities]. *)
Fixpoint modalities_once (seen modalities : list string) : option string :=
  match modalities with
  | [] => None
  | m :: rest =>
      refuse_if (negb (isMember m realtimeOutputModalityValues) || isMember m seen)
        "outputModalities names text and audio at most once each" ;;
      modalities_once (m :: seen) rest
  end.

Definition validateOutputModalities (modalities : option (list string)) : option string :=
  match modalities with
  | None => None
  | Some l =>
      refuse_if (outside 1 2 (Z.of_nat (length l))) "outputModalities names one or two modalities" ;;
      modalities_once [] l
  end.

Definition validateTuning (tools : option (list RealtimeToolDefinition)) (maxOutputTokens : option Z) : option string :=
  refuse_if (128 <? Z.of_nat (length (default [] tools)))%Z "config.tools holds at most 128 tools" ;;
  refuse_if (breaks (fun n => n <=? 0)%Z maxOutputTokens) "config.maxOutputTokens must be positive".

(** [validateToolDeclarations] at the session's tool type. *)
Fixpoint sessionToolNamesRepeat (seen : list string) (tools : list RealtimeToolDefinition) : bool :=
  match tools with
  | [] => false
  | tool :: rest => isMember (rtool_Name tool) seen || sessionToolNamesRepeat (rtool_Name tool :: seen) rest
  end.

Definition validateSessionTools (tools : list RealtimeToolDefinition) (choice : option ToolChoice) : option string :=
  refuse_if (present choice && match tools with [] => true | _ => false end)
    "a tool choice requires at least one tool definition" ;;
  refuse_if (sessionToolNamesRepeat [] tools) "tool names must be unique within one session".

Definition validateSharedConfig (tools : option (list RealtimeToolDefinition)) (choice : option ToolChoice)
    (maxOutputTokens : option Z) : option string :=
  validateTuning tools maxOutputTokens ;; validateSessionTools (default [] tools) choice.

Definition SessionConfig_validate (c : RealtimeSessionConfig) : option string :=
  refuse_if (negb (boundedText (cfg_Instructions c) 0 maxRealtimeInstructions))
    "config.instructions is at most 32768 characters" ;;
  validateOutputModalities (cfg_OutputModalities c) ;;
  refuse_if (negb (boundedText (cfg_Voice c) 1 64)) "config.voice is 1 to 64 characters" ;;
  refuse_if (negb (isMember (InputAudioFormat c) realtimeAudioFormatValues)
             || breaks (fun f => negb (isMember f realtimeAudioFormatValues)) (OutputAudioFormat c))
    "config audio formats are pcm16_24khz, g711_ulaw or g711_alaw" ;;
  TurnDetection_validate (cfg_TurnDetection c) ;;
  validate_some InputTranscription_validate (cfg_InputAudioTranscription c) ;;
  refuse_if (breaks (fun t => negb (boundedText (Some t) 2 35)) (Translation c))
    "config.translation.targetLanguage is a BCP 47 tag" ;;
  validateSharedConfig (cfg_Tools c) (cfg_ToolChoice c) (cfg_MaxOutputTokens c).

(** ** The session request *)

Record RealtimeSessionLimits := mkLimits {
  MaxDurationMs : Z;
  IdleTimeoutMs : Z;
  MaxInputAudioBytes : Z;
  MaxOutputAudioBytes : Z;
  MaxResponses : Z;
}.

Record RealtimeClientMetadata := mkClient { Endpoint : string; ClientSessionID : option string; ReceivedAt : option Timestamp }.

Record RealtimeSessionRequest := mkSession {
  ses_SchemaVersion : Z;
  ses_Attribution : Attribution;
  ses_ModelReference : string;
  Kind_ : string;
  Transport : string;
  ses_Config : RealtimeSessionConfig;
  Limits : RealtimeSessionLimits;
  Client : RealtimeClientMetadata;
  ses_AuthorizedRoutes : list AuthorizedRoute;
}.

Definition ses_RequestID (r : RealtimeSessionRequest) : string := attribution_RequestID (ses_Attribution r).

Definition limits_in_range (l : RealtimeSessionLimits) : bool :=
  negb (outside 1000 MaxRealtimeSessionDurationMs (MaxDurationMs l)
        || outside 1000 MaxRealtimeSessionDurationMs (IdleTimeoutMs l)
        || outside 1 MaxRealtimeSessionAudioBytes (MaxInputAudioBytes l)
        || outside 1 MaxRealtimeSessionAudioBytes (MaxOutputAudioBytes l)
        || outside 1 10000 (MaxResponses l)).

(** What each kind of session asks of its configuration. *)
Definition validate_kind (kind : string) (c : RealtimeSessionConfig) : option string :=
  let producesAudio := isMember RealtimeOutputAudio (default [] (cfg_OutputModalities c)) in
  if kind =s RealtimeConversation then
    refuse_if (negb (present (cfg_OutputModalities c)))
      "contract: a conversation names what its responses produce" ;;
    refuse_if (producesAudio && (negb (present (cfg_Voice c)) || negb (present (OutputAudioFormat c))))
      "contract: spoken responses need a voice and an output audio format" ;;
    refuse_if (present (Translation c)) "contract: only a translation session translates"
  else if kind =s RealtimeTranscription then
    refuse_if (negb (present (cfg_InputAudioTranscription c)))
      "contract: a transcription session transcribes its input" ;;
    refuse_if (present (cfg_OutputModalities c) || present (cfg_Voice c) || present (OutputAudioFormat c)
               || present (Translation c) || present (cfg_Tools c) || present (cfg_ToolChoice c)
               || present (cfg_MaxOutputTokens c))
      "contract: a transcription session never responds" ;;
    refuse_if (createsOrInterrupts (cfg_TurnDetection c))
      "contract: a transcription session has no response to create or interrupt"
  else if kind =s RealtimeTranslation then
    refuse_if (negb (present (Translation c)) || negb (present (OutputAudioFormat c)))
      "contract: a translation session names its target language and output audio format" ;;
    refuse_if (present (cfg_Tools c) || present (cfg_ToolChoice c)) "contract: a translation session calls no tools"
  else None.

Definition ValidateSession (r : RealtimeSessionRequest) : option string :=
  let principal := Principal (ses_Attribution r) in
  validateAuthority (Authority principal) (InferenceScopes principal) ;;
  refuse_if (negb (ses_SchemaVersion r =? 1)%Z) "contract: realtime session schemaVersion must be 1" ;;
  refuse_if ((ses_RequestID r =s "") || (Billing_AccountID principal =s ""))
    "contract: realtime session attribution names its request and billing account" ;;
  refuse_if (negb (ModelReference_Valid (ses_ModelReference r))) "contract: realtime session modelReference is invalid" ;;
  refuse_if (negb (isMember (Kind_ r) realtimeSessionKindValues)
             || negb (isMember (Transport r) realtimeSessionTransportValues))
    "contract: realtime session kind or transport is invalid" ;;
  SessionConfig_validate (ses_Config r) ;;
  refuse_if (negb (limits_in_range (Limits r))) "contract: realtime session limits are out of range" ;;
  refuse_if (MaxDurationMs (Limits r) <? IdleTimeoutMs (Limits r))%Z
    "contract: an idle timeout cannot outlast the session" ;;
  refuse_if ((Endpoint (Client r) =s "") || (256 <? len (Endpoint (Client r)))%Z
             || negb (present (ReceivedAt (Client r))))
    "contract: realtime session client metadata is incomplete" ;;
  refuse_if (negb (Kind_ r =s RealtimeTranscription)
             && WantsInterim (cfg_InputAudioTranscription (ses_Config r)))
    "contract: only a transcription session sends interim text" ;;
  validate_kind (Kind_ r) (ses_Config r).

(** One route of a session, against the model it named. *)
Definition session_route (model : string) (route : AuthorizedRoute) : option string :=
  refuse_if (negb (Substitution route =s SubstitutionSameModel)
             || negb (ModelID (ModelReference route) =s ModelID model))
    "contract: every route of a session serves the model it named" ;;
  refuse_if (Pinned model && negb (ModelReference route =s model))
    "contract: a pinned session is served on exactly the revision it pinned".

Definition session_validateRoutes (r : RealtimeSessionRequest) : option string :=
  validateRouteList (ses_AuthorizedRoutes r) ;;
  first_refusal (session_route (ses_ModelReference r)) (ses_AuthorizedRoutes r).

Definition SessionRequest_Validate (r : RealtimeSessionRequest) : option string :=
  ValidateSession r ;; session_validateRoutes r.

(** ** Audio frames

    [base64.NewDecoder] over [base64.StdEncoding], as [io.Copy] drives it:
    line breaks are dropped as they are read, whole groups of four are decoded
    a buffer of 1024 at a time, and padding ends a buffer. *)

Definition base64_alphabet (c : ascii) : bool := base64_char c.
Definition line_break (c : ascii) : bool := Ascii.eqb c (ascii_of_nat 10) || Ascii.eqb c (ascii_of_nat 13).
Definition pad (c : ascii) : bool := Ascii.eqb c "=".

(** The bytes one group of four holds. *)
Definition quantum (a b c d : ascii) : option Z :=
  if negb (base64_alphabet a && base64_alphabet b) then None
  else if base64_alphabet c && base64_alphabet d then Some 3%Z
  else if base64_alphabet c && pad d then Some 2%Z
  else if pad c && pad d then Some 1%Z
  else None.

(** [Encoding.Decode] of one buffer: how many bytes it holds. *)
Fixpoint decode_buffer (l : list ascii) : option Z :=
  match l with
  | [] => Some 0%Z
  | a :: b :: c :: d :: rest =>
      held ← quantum a b c d;
      if (held =? 3)%Z then more ← decode_buffer rest; Some (3 + more)%Z
      else match rest with [] => Some held | _ => None end
  | _ => None
  end.

Definition decoder_buffer : nat := 1024.

(** [buf] is what the last buffer left over, [rest] what the reader still
    holds.  One step fills the buffer, skipping reads that were all line
    breaks, and decodes its whole groups. *)
Fixpoint decode_stream (fuel : nat) (buf rest : list ascii) : option Z :=
  match fuel with
  | O => None
  | S fuel =>
      if (length buf <? 4)%nat then
        match rest with
        | [] => match buf with [] => Some 0%Z | _ => None end
        | _ =>
            let room := (decoder_buffer - length buf)%nat in
            decode_stream fuel (buf ++ List.filter (fun c => negb (line_break c)) (take room rest)) (drop room rest)
        end
      else
        let whole := (length buf / 4 * 4)%nat in
        held ← decode_buffer (take whole buf);
        more ← decode_stream fuel (drop whole buf) rest;
        Some (held + more)%Z
  end.

(** Two steps for every character are enough. *)
Definition decoded_bytes (data : string) : option Z :=
  let l := String.list_ascii_of_string data in decode_stream (2 * length l + 2) [] l.

Definition ValidateRealtimeAudioFrame (data : string) : option string :=
  refuse_if ((len data <? 4)%Z || (MaxRealtimeAudioFrameBase64Length <? len data)%Z || negb (len data mod 4 =? 0)%Z)
    "an audio frame is 4 to 65536 characters of padded base64" ;;
  refuse_if (negb (present (decoded_bytes data))) "an audio frame is padded base64".

Definition count_pads (l : list ascii) : Z := Z.of_nat (length (List.filter pad l)).

Definition DecodedRealtimeAudioBytes (data : string) : Z :=
  let l := String.list_ascii_of_string data in (len data / 4 * 3 - count_pads (drop (length l - 2) l))%Z.

(** ** Conversation items *)

Definition RealtimeInputTextPart := "input_text".
Definition RealtimeInputAudioPart := "input_audio".
Definition RealtimeOutputTextPart := "output_text".
Definition RealtimeOutputAudioPart := "output_audio".

Record RealtimeContentPart := mkContentPart {
  cp_Type : string;
  cp_Text : option string;
  cp_Format : option string;
  cp_Data : option string;
  Transcript : option string;
}.

Definition RealtimeMessageItem := "message".
Definition RealtimeFunctionCallItem := "function_call".
Definition RealtimeFunctionCallOutputItem := "function_call_output".
Definition realtimeItemRoleValues := ["system"; "user"; "assistant"].

Record RealtimeConversationItem := mkItem {
  item_Type : string;
  item_ItemID : option string;
  item_Role : option string;
  item_Content : option (list RealtimeContentPart);
  CallID : option string;
  item_Name : option string;
  item_Arguments : option string;
  Output : option string;
}.

Definition ContentPart_validate_for (role : string) (p : RealtimeContentPart) : option string :=
  let typed t := cp_Type p =s t in
  let input := typed RealtimeInputTextPart || typed RealtimeInputAudioPart in
  refuse_if (Bool.eqb (role =s "assistant") input) "the message cannot carry this part" ;;
  refuse_if ((role =s "system") && negb (typed RealtimeInputTextPart)) "a system message is text" ;;
  (if typed RealtimeInputTextPart || typed RealtimeOutputTextPart then
     refuse_if (negb (present (cp_Text p)) || present (cp_Format p) || present (cp_Data p) || present (Transcript p))
       "a text part carries text only" ;;
     refuse_if (typed RealtimeInputTextPart && breaks (fun t => MaxRealtimeItemTextChars <? utf16Length t)%Z (cp_Text p))
       "an input_text part is at most 1048576 characters"
   else if typed RealtimeInputAudioPart || typed RealtimeOutputAudioPart then
     refuse_if (present (cp_Text p)
                || match cp_Format p with Some f => negb (isMember f realtimeAudioFormatValues) | None => true end)
       "an audio part names its format" ;;
     refuse_if (typed RealtimeOutputAudioPart && present (cp_Data p)) "an output_audio part never carries audio inline" ;;
     validate_some ValidateRealtimeAudioFrame (cp_Data p)
   else Some "not a content part").

(** A field that must be there and be an id. *)
Definition missing_id (o : option string) : bool := match o with Some s => negb (boundedID s) | None => true end.

Definition Item_Validate (i : RealtimeConversationItem) : option string :=
  refuse_if (breaks (fun s => negb (boundedID s)) (item_ItemID i)) "item.itemId is 1 to 128 characters" ;;
  (if item_Type i =s RealtimeMessageItem then
     let parts := default [] (item_Content i) in
     refuse_if (match item_Role i with Some r => negb (isMember r realtimeItemRoleValues) | None => true end
                || outside 1 64 (Z.of_nat (length parts))
                || present (CallID i) || present (item_Name i) || present (item_Arguments i) || present (Output i))
       "a message item has a role and 1 to 64 content parts, and nothing else" ;;
     first_refusal (ContentPart_validate_for (default "" (item_Role i))) parts
   else if item_Type i =s RealtimeFunctionCallItem then
     refuse_if (present (item_Role i) || present (item_Content i) || present (Output i) || missing_id (CallID i)
                || missing_id (item_Name i) || negb (present (item_Arguments i)))
       "a function_call item has a callId, name and arguments, and nothing else"
   else if item_Type i =s RealtimeFunctionCallOutputItem then
     refuse_if (present (item_Role i) || present (item_Content i) || present (item_Name i)
                || present (item_Arguments i) || missing_id (CallID i)
                || match Output i with Some o => (MaxRealtimeItemTextChars <? utf16Length o)%Z | None => true end)
       "a function_call_output item has a callId and output, and nothing else"
   else Some "not a conversation item").

(** ** Commands *)

Record CommandHeader := mkCommandHeader { cmd_SchemaVersion : Z; cmd_RequestID : string; cmd_CommandID : string }.

Record RealtimeResponseParameters := mkResponseParameters {
  rp_Instructions : option string;
  rp_OutputModalities : option (list string);
  rp_MaxOutputTokens : option Z;
  rp_ToolChoice : option ToolChoice;
}.

Inductive RealtimeCommand :=
| CmdSessionUpdate (h : CommandHeader) (config : RealtimeSessionConfigUpdate)
| CmdItemCreate (h : CommandHeader) (previousItemID : option string) (item : RealtimeConversationItem)
| CmdItemDelete (h : CommandHeader) (itemID : string)
| CmdItemTruncate (h : CommandHeader) (itemID : string) (contentIndex audioEndMs : Z)
| CmdInputAudioAppend (h : CommandHeader) (data : string)
| CmdInputAudioCommit (h : CommandHeader)
| CmdInputAudioClear (h : CommandHeader)
| CmdResponseCreate (h : CommandHeader) (response : option RealtimeResponseParameters)
| CmdResponseCancel (h : CommandHeader) (responseID : option string)
| CmdSessionResume (h : CommandHeader) (afterSequence : Z)
| CmdSessionClose (h : CommandHeader).

Definition command_header (c : RealtimeCommand) : CommandHeader :=
  match c with
  | CmdSessionUpdate h _ | CmdItemCreate h _ _ | CmdItemDelete h _ | CmdItemTruncate h _ _ _ | CmdInputAudioAppend h _
  | CmdInputAudioCommit h | CmdInputAudioClear h | CmdResponseCreate h _ | CmdResponseCancel h _
  | CmdSessionResume h _ | CmdSessionClose h => h
  end.

(** [Identity]. *)
Definition command_RequestID (c : RealtimeCommand) : string := cmd_RequestID (command_header c).
Definition command_CommandID (c : RealtimeCommand) : string := cmd_CommandID (command_header c).

Definition update_changes_nothing (u : RealtimeSessionConfigUpdate) : bool :=
  negb (present (up_Instructions u) || present (up_OutputModalities u) || present (up_TurnDetection u)
        || present (up_InputAudioTranscription u) || present (up_Tools u) || present (up_ToolChoice u)
        || present (up_MaxOutputTokens u)).

Definition ConfigUpdate_validate (u : RealtimeSessionConfigUpdate) : option string :=
  refuse_if (update_changes_nothing u) "contract: a session update changes at least one field" ;;
  refuse_if (negb (boundedText (up_Instructions u) 0 maxRealtimeInstructions))
    "contract: config.instructions is at most 32768 characters" ;;
  validateOutputModalities (up_OutputModalities u) ;;
  validate_some TurnDetection_validate (up_TurnDetection u) ;;
  validate_some InputTranscription_validate (up_InputAudioTranscription u) ;;
  validateTuning (up_Tools u) (up_MaxOutputTokens u).

Definition ResponseParameters_validate (p : RealtimeResponseParameters) : option string :=
  refuse_if (negb (boundedText (rp_Instructions p) 0 maxRealtimeInstructions))
    "contract: response.instructions is at most 32768 characters" ;;
  validateOutputModalities (rp_OutputModalities p) ;;
  refuse_if (breaks (fun n => n <=? 0)%Z (rp_MaxOutputTokens p)) "contract: response.maxOutputTokens must be positive".

Definition command_body_validate (c : RealtimeCommand) : option string :=
  match c with
  | CmdSessionUpdate _ u => ConfigUpdate_validate u
  | CmdItemCreate _ previous item =>
      refuse_if (breaks (fun s => negb (boundedID s)) previous) "contract: previousItemId is 1 to 128 characters" ;;
      Item_Validate item
  | CmdItemDelete _ itemID => refuse_if (negb (boundedID itemID)) "contract: itemId is 1 to 128 characters"
  | CmdItemTruncate _ itemID contentIndex audioEndMs =>
      refuse_if (negb (boundedID itemID) || (contentIndex <? 0)%Z || (audioEndMs <? 0)%Z)
        "contract: a truncation names an item, a content index and a non-negative audio end"
  | CmdInputAudioAppend _ data => ValidateRealtimeAudioFrame data
  | CmdResponseCreate _ response => validate_some ResponseParameters_validate response
  | CmdResponseCancel _ responseID =>
      refuse_if (breaks (fun s => negb (boundedID s)) responseID) "contract: responseId is 1 to 128 characters"
  | CmdSessionResume _ afterSequence =>
      refuse_if (afterSequence <? -1)%Z "contract: afterSequence is -1 or a sequence"
  | CmdInputAudioCommit _ | CmdInputAudioClear _ | CmdSessionClose _ => None
  end.

Definition validateRealtimeCommand (c : RealtimeCommand) (session : string) : option string :=
  refuse_if (negb (command_RequestID c =s session)) "contract: the command names another session" ;;
  refuse_if (negb (boundedID (command_CommandID c))) "contract: commandId is 1 to 128 characters" ;;
  command_body_validate c ;;
  refuse_if (negb (cmd_SchemaVersion (command_header c) =? 1)%Z) "contract: realtime commands are schemaVersion 1".

Definition DecodeRealtimeCommand (parsed : option RealtimeCommand) (session : string) : option RealtimeCommand :=
  c ← parsed;
  match validateRealtimeCommand c session with None => Some c | Some _ => None end.

(** ** Server events

    An event without its header: the session stamps it ([Stamp]) as it numbers
    it.  The last four are the public forms of the four that name a provider,
    a deployment or an internal error (internal/contract/public.go). *)

Inductive RealtimeServerEvent :=
| EvSessionCreated (resolvedModelReference servingProvider deploymentID kind : string) (config : RealtimeSessionConfig)
    (limits : RealtimeSessionLimits) (resumeWindowMs : Z) (startedAt expiresAt : Timestamp)
| EvSessionUpdated (config : RealtimeSessionConfig)
| EvSessionResumed (afterSequence : Z)
| EvCommandAccepted (duplicate : bool)
| EvItemAdded (itemID : string) (previousItemID : option string) (item : RealtimeConversationItem)
| EvItemDone (itemID : string) (item : RealtimeConversationItem)
| EvItemDeleted (itemID : string)
| EvItemTruncated (itemID : string) (contentIndex audioEndMs : Z)
| EvSpeechStarted (itemID : string) (audioStartMs : Z)
| EvSpeechStopped (itemID : string) (audioEndMs : Z)
| EvInputAudioCommitted (itemID : string) (previousItemID : option string)
| EvInputAudioCleared
| EvResponseCreated (responseID : string)
| EvOutputAudioDelta (responseID itemID : string) (contentIndex : Z) (format data : string)
| EvOutputAudioDone (responseID itemID : string) (contentIndex : Z)
| EvTranscriptDelta (source itemID : string) (contentIndex : Z) (responseID : option string) (text : string)
| EvTranscriptDone (source itemID : string) (contentIndex : Z) (responseID : option string) (transcript : string)
| EvTranscriptInterim (source itemID : string) (contentIndex : Z) (text : string)
| EvTextDelta (responseID itemID : string) (contentIndex : Z) (text : string)
| EvToolCall (responseID itemID toolCallID : string) (name argumentsDelta : option string) (complete : bool)
| EvResponseDone (responseID status : string) (finishReason : option string) (deploymentID : string)
    (units : list UsageQuantity) (usageSource : string)
| EvError (fatal : bool) (failure : Error)
| EvSessionClosed (reason : string) (deploymentID : option string) (units : list UsageQuantity) (usageSource : string)
    (closedAt : Timestamp)
| EvPublicSessionCreated (model kind : string) (config : RealtimeSessionConfig) (limits : RealtimeSessionLimits)
    (resumeWindowMs : Z) (startedAt expiresAt : Timestamp)
| EvPublicResponseDone (responseID status : string) (finishReason : option string) (units : list UsageQuantity)
    (usageSource : string)
| EvPublicError (fatal : bool) (failure : PublicError)
| EvPublicSessionClosed (reason : string) (units : list UsageQuantity) (usageSource : string) (closedAt : Timestamp).

(** The client-facing form of an event; absent units are the empty list here. *)
Definition PublicRealtimeEvent (event : RealtimeServerEvent) : RealtimeServerEvent :=
  match event with
  | EvSessionCreated model _ _ kind config limits window startedAt expiresAt =>
      EvPublicSessionCreated model kind config limits window startedAt expiresAt
  | EvResponseDone responseID status finishReason _ units source =>
      EvPublicResponseDone responseID status finishReason units source
  | EvError fatal failure => EvPublicError fatal (PublicErrorFrom failure)
  | EvSessionClosed reason _ units source closedAt => EvPublicSessionClosed reason units source closedAt
  | _ => event
  end.

(** ** Lemmas: audio frames *)

Lemma count_pads_app l l' : count_pads (l ++ l') = (count_pads l + count_pads l')%Z.
Proof. unfold count_pads. rewrite List.filter_app, length_app. lia. Qed.

Lemma alphabet_not_pad c : base64_alphabet c = true -> pad c = false.
Proof. unfold pad. destruct (Ascii.eqb_spec c "="); [by subst|done]. Qed.

Lemma count_pads_cons c l : count_pads (c :: l) = ((if pad c then 1 else 0) + count_pads l)%Z.
Proof. unfold count_pads. cbn. destruct (pad c); cbn [length]; lia. Qed.

Lemma quantum_spec a b c d held :
  quantum a b c d = Some held ->
  (1 <= held <= 3)%Z /\ held = (3 - count_pads [a; b; c; d])%Z.
Proof.
  unfold quantum. destruct (base64_alphabet a) eqn:Ea, (base64_alphabet b) eqn:Eb; try done. cbn [negb andb].
  apply alphabet_not_pad in Ea, Eb. rewrite !count_pads_cons, Ea, Eb. change (count_pads []) with 0%Z.
  destruct (base64_alphabet c) eqn:Ec, (base64_alphabet d) eqn:Ed; cbn [andb].
  all: try apply alphabet_not_pad in Ec; try apply alphabet_not_pad in Ed; rewrite ?Ec, ?Ed.
  all: destruct (pad c), (pad d); intros [= <-]; lia || done.
Qed.

(** Each group of four holds three bytes less its padding. *)
Lemma decode_buffer_spec l held :
  decode_buffer l = Some held -> exists groups, length l = (4 * groups)%nat /\ held = (3 * Z.of_nat groups - count_pads l)%Z.
Proof.
  revert held. induction l as [l IH] using (induction_ltof1 _ (@length ascii)). unfold ltof in IH. intros held.
  destruct l as [|a [|b [|c [|d rest]]]]; try done; [intros [= <-]; by exists 0%nat|].
  cbn [decode_buffer]. destruct (quantum a b c d) as [q|] eqn:Eq; [|done]. apply quantum_spec in Eq as [Hq Hp].
  cbn [mbind option_bind]. assert (count_pads (a :: b :: c :: d :: rest) = count_pads [a; b; c; d] + count_pads rest)%Z as Hc.
  { by rewrite <-count_pads_app. }
  destruct (q =? 3)%Z eqn:E3; bool_cases.
  - destruct (decode_buffer rest) as [more|] eqn:Er; [|done]. intros [= <-].
    destruct (IH rest ltac:(cbn; lia) _ Er) as (groups & Hl & Hm). exists (S groups). cbn [length]. lia.
  - destruct rest; [|done]. intros [= <-]. exists 1%nat. cbn [length]. change (count_pads []) with 0%Z in Hc. lia.
Qed.

Definition unbroken (l : list ascii) : list ascii := List.filter (fun c => negb (line_break c)) l.

Lemma decode_stream_spec fuel buf rest held :
  decode_stream fuel buf rest = Some held ->
  exists groups, (length buf + length (unbroken rest) = 4 * groups)%nat /\
    held = (3 * Z.of_nat groups - count_pads (buf ++ unbroken rest))%Z.
Proof.
  revert buf rest held. induction fuel as [|fuel IH]; intros buf rest held; [done|]. cbn [decode_stream].
  destruct (length buf <? 4)%nat eqn:E4.
  - destruct rest as [|c rest]; [destruct buf; [|done]; intros [= <-]; by exists 0%nat|].
    set (room := (decoder_buffer - length buf)%nat). intros (groups & Hl & Hh)%IH. exists groups.
    assert (unbroken (c :: rest) = unbroken (take room (c :: rest)) ++ unbroken (drop room (c :: rest))) as Hsplit.
    { unfold unbroken. by rewrite <-List.filter_app, take_drop. }
    rewrite Hsplit. rewrite length_app in Hl |- *. unfold unbroken in *. rewrite <-app_assoc in Hh. split; [lia|done].
  - set (whole := (length buf / 4 * 4)%nat). destruct (decode_buffer _) as [h|] eqn:Eb; [|done].
    apply decode_buffer_spec in Eb as (g1 & Hl1 & Hh1). cbn [mbind option_bind].
    destruct (decode_stream _ _ _) as [more|] eqn:Es; [|done]. intros [= <-].
    apply IH in Es as (g2 & Hl2 & Hh2). exists (g1 + g2)%nat.
    rewrite <-(take_drop whole buf), !length_app, <-app_assoc, count_pads_app. lia.
Qed.

Lemma filter_length_le (f : ascii -> bool) l : (length (List.filter f l) <= length l)%nat.
Proof. induction l as [|c l IH]; cbn; [lia|]. destruct (f c); cbn; lia. Qed.

Lemma unbroken_all l : length (unbroken l) = length l -> unbroken l = l.
Proof.
  induction l as [|c l IH]; [done|]. cbn. pose proof (filter_length_le (fun c => negb (line_break c)) l).
  destruct (negb (line_break c)); cbn [length]; [|intros; lia]. intros [= H']. f_equal. by apply IH.
Qed.

Lemma length_list_ascii s : Z.of_nat (length (String.list_ascii_of_string s)) = len s.
Proof. unfold len. induction s as [|c s IH]; [done|]. cbn. lia. Qed.

Lemma count_pads_bound l : (0 <= count_pads l <= Z.of_nat (length l))%Z.
Proof. unfold count_pads. pose proof (filter_length_le pad l). lia. Qed.

(** ** Lemmas: the routes of a session *)

(** The signed routes of a session: distinct, well formed, of its one model. *)
Record session_authorized (r : RealtimeSessionRequest) : Prop := {
  sa_some : ses_AuthorizedRoutes r <> [];
  sa_routes : Forall route_well_formed (ses_AuthorizedRoutes r);
  sa_distinct : NoDup (DeploymentID <$> ses_AuthorizedRoutes r);
  sa_model : Forall (fun a => Substitution a = SubstitutionSameModel /\
    ModelID (ModelReference a) = ModelID (ses_ModelReference r) /\
    (Pinned (ses_ModelReference r) = true -> ModelReference a = ses_ModelReference r)) (ses_AuthorizedRoutes r);
}.

Lemma session_validateRoutes_spec r : session_validateRoutes r = None <-> session_authorized r.
Proof.
  unfold session_validateRoutes, validateRouteList. rewrite or_else_None, first_refusal_None.
  assert (Forall (fun a => session_route (ses_ModelReference r) a = None) (ses_AuthorizedRoutes r) <->
    Forall (fun a => Substitution a = SubstitutionSameModel /\ ModelID (ModelReference a) = ModelID (ses_ModelReference r) /\
      (Pinned (ses_ModelReference r) = true -> ModelReference a = ses_ModelReference r)) (ses_AuthorizedRoutes r)) as ->.
  { apply Forall_iff. intros a. unfold session_route. checks. destruct (Pinned _); naive_solver. }
  destruct (ses_AuthorizedRoutes r) as [|a rest] eqn:E; [split; [naive_solver|intros []; congruence]|].
  rewrite validateRoutes_spec. split.
  - intros ((H1 & H2 & _) & H3). constructor; rewrite ?E; done.
  - intros [_ H1 H2 H3]. rewrite E in *. split_and!; try done. apply Forall_forall. by intros ? ? []%not_elem_of_nil.
Qed.

(** What else of an accepted session request the rest relies on. *)
Lemma SessionRequest_Validate_facts r :
  SessionRequest_Validate r = None ->
  session_authorized r /\ ses_RequestID r <> "" /\ limits_in_range (Limits r) = true.
Proof.
  unfold SessionRequest_Validate, ValidateSession. rewrite !or_else_None, session_validateRoutes_spec, !refuse_if_None.
  intros ((_ & _ & Hid & _ & _ & _ & Hl & _) & Hr). split; [done|]. by bool_cases.
Qed.

(** ** Properties *)

(** A session's audio ceilings are counted on encoded frames, and the count
    is safe.  Every frame the contract accepts decodes, and holds at most the
    bytes it is counted for; it holds exactly that many when it is one unbroken
    line padded only at its end, as the published grammar spells it. *)
Theorem audio_frames_are_never_undercounted data :
  ValidateRealtimeAudioFrame data = None ->
  exists held, decoded_bytes data = Some held /\ (held <= DecodedRealtimeAudioBytes data)%Z /\
    let l := String.list_ascii_of_string data in
    (unbroken l = l -> count_pads (take (length l - 2) l) = 0%Z -> held = DecodedRealtimeAudioBytes data).
Proof.
  unfold ValidateRealtimeAudioFrame. checks. intros [[_ Hmod] Hd]. cbv zeta.
  destruct (decoded_bytes data) as [held|] eqn:E; [|done]. exists held. split; [done|].
  unfold decoded_bytes in E. apply decode_stream_spec in E as (groups & Hl & Hh). cbn [length app Nat.add] in Hl, Hh.
  unfold DecodedRealtimeAudioBytes. pose proof (length_list_ascii data) as Hlen.
  set (l := String.list_ascii_of_string data) in *. clearbody l. rewrite <-Hlen in *.
  set (n := length l) in *. assert (count_pads l = count_pads (take (n - 2) l) + count_pads (drop (n - 2) l))%Z as Hsplit.
  { by rewrite <-count_pads_app, take_drop. }
  pose proof (count_pads_bound (take (n - 2) l)). pose proof (count_pads_bound (drop (n - 2) l)) as Hdrop.
  rewrite length_drop in Hdrop. pose proof (count_pads_bound (unbroken l)).
  assert (length (unbroken l) <= n)%nat as Hle by apply filter_length_le.
  assert (Z.of_nat n = 4 * (Z.of_nat n / 4))%Z as Hn by (apply Z_div_exact_full_2; lia).
  split.
  - destruct (decide (length (unbroken l) = n)) as [Heq|Hne]; [rewrite unbroken_all in Hh; [|done]|]; lia.
  - intros Hu Hp. rewrite Hu in *. lia.
Qed.

Lemma audio_frames_are_never_undercounted_witness :
  ValidateRealtimeAudioFrame "aGVsbG8=" = None /\ DecodedRealtimeAudioBytes "aGVsbG8=" = 5%Z /\
  exists held, decoded_bytes "aGVsbG8=" = Some held /\ (held <= 5)%Z.
Proof.
  split; [vm_compute; reflexivity|]. split; [vm_compute; reflexivity|].
  destruct (audio_frames_are_never_undercounted "aGVsbG8=" ltac:(vm_compute; reflexivity)) as (held & H1 & H2 & _).
  exists held. split; [exact H1|]. replace (DecodedRealtimeAudioBytes "aGVsbG8=") with 5%Z in H2 by (vm_compute; reflexivity).
  exact H2.
Defined.

(** A frame of four digits and four line breaks is accepted and counted twice
    over: the decoder skips what the length does not. *)
Lemma line_breaks_are_counted_as_audio :
  let nl := String (ascii_of_nat 10) in
  let data := String.append "AAAA" (nl (nl (nl (nl EmptyString)))) in
  ValidateRealtimeAudioFrame data = None /\ decoded_bytes data = Some 3%Z /\ DecodedRealtimeAudioBytes data = 6%Z.
Proof. repeat split; vm_compute; reflexivity. Qed.
