(* ===== verification/SessionOpen.v ===== *)
(** * Opening and settling a realtime session (internal/kaana/session.go)

    [OpenSession] tries the session's signed routes in order until one opens;
    [SettleSession] turns what the session measured into its usage report and
    its upstream cost.  An [OpenTurn] is everything the world decides while one
    route is tried: what other requests do to the shared breakers, the
    registry in force, the clock, and what the adapter's Open answers. *)

From S2P Require Import Prelude Rotation Ids Text CustomerLimit.
From S2P Require Import Contract Request Provider KeyPool ProviderCost DecisionPrice UsageEstimate Answers.
From S2P Require Import Adapter Inventory Retry Emitter Routes Settle Executor ExecutorPermits.
From S2P Require Import PublicContract RealtimeContract.

(** ** Data *)

(** What [Open] answers: an upstream, or a failure; either way the key spent. *)
Record OpenAnswer := mkOpenAnswer {
  open_err : option GoError;
  opened_KeyID : string;
  opened_KeyClass : string;
}.

Record OpenTurn := mkOpenTurn {
  o_before : Rotation.Registry -> Rotation.Registry;
  o_during : Rotation.Registry -> Rotation.Registry;
  o_registry : Adapter.Registry;
  o_admit : Instant;
  o_start : Instant;
  o_clock : Instant;
  o_latency : Duration;
  o_occurred : Instant;
  o_report : Instant;
  o_cancelled : bool;
  o_Open : RealtimeAdapter -> Route -> option Credentials -> OpenAnswer;
}.

Record SessionOpening := mkOpening {
  opened : bool;                         (* Upstream is not nil *)
  opening_Route : option Route;
  opening_Failure : option Error;
  opening_requestID : string;
  opening_attribution : Attribution;
  opening_generationID : option string;
  opening_startedAt : Instant;
  opening_attempts : list AttemptUsage;  (* the failed opens *)
  opening_keyID : string;
  opening_keyClass : string;
  openStartedAt : Instant;
  openClock : Instant;
}.

(** One call of an adapter's Open, as it was made. *)
Record OpenCall := mkOpenCall {
  oc_index : nat;
  oc_route : Route;
  oc_credentials : option Credentials;
  oc_opened : bool;
}.

Record OpenState := mkOpenState {
  opening : SessionOpening;
  open_rotation : Rotation.Registry;
  open_skipped : list string;
  lastErr : option GoError;
  open_calls : list OpenCall;
}.

Definition set_route (route : Route) (o : SessionOpening) : SessionOpening :=
  mkOpening (opened o) (Some route) (opening_Failure o) (opening_requestID o) (opening_attribution o)
    (opening_generationID o) (opening_startedAt o) (opening_attempts o) (opening_keyID o) (opening_keyClass o)
    (openStartedAt o) (openClock o).
Definition set_failure (failure : Error) (o : SessionOpening) : SessionOpening :=
  mkOpening (opened o) (opening_Route o) (Some failure) (opening_requestID o) (opening_attribution o)
    (opening_generationID o) (opening_startedAt o) (opening_attempts o) (opening_keyID o) (opening_keyClass o)
    (openStartedAt o) (openClock o).
Definition add_attempt (row : AttemptUsage) (o : SessionOpening) : SessionOpening :=
  mkOpening (opened o) (opening_Route o) (opening_Failure o) (opening_requestID o) (opening_attribution o)
    (opening_generationID o) (opening_startedAt o) (opening_attempts o ++ [row]) (opening_keyID o) (opening_keyClass o)
    (openStartedAt o) (openClock o).
Definition set_upstream (keyID keyClass : string) (started clock : Instant) (o : SessionOpening) : SessionOpening :=
  mkOpening true (opening_Route o) (opening_Failure o) (opening_requestID o) (opening_attribution o)
    (opening_generationID o) (opening_startedAt o) (opening_attempts o) keyID keyClass started clock.

Definition with_opening (f : SessionOpening -> SessionOpening) (s : OpenState) : OpenState :=
  mkOpenState (f (opening s)) (open_rotation s) (open_skipped s) (lastErr s) (open_calls s).
Definition with_rotation (r : Rotation.Registry) (s : OpenState) : OpenState :=
  mkOpenState (opening s) r (open_skipped s) (lastErr s) (open_calls s).
Definition skip_route (id : string) (s : OpenState) : OpenState :=
  mkOpenState (opening s) (open_rotation s) (open_skipped s ++ [id]) (lastErr s) (open_calls s).
Definition failed_with (err : GoError) (s : OpenState) : OpenState :=
  mkOpenState (opening s) (open_rotation s) (open_skipped s) (Some err) (open_calls s).
Definition called (call : OpenCall) (s : OpenState) : OpenState :=
  mkOpenState (opening s) (open_rotation s) (open_skipped s) (lastErr s) (open_calls s ++ [call]).

(** ** Opening *)

(** [EnvelopeInputTranscriptionRefused]. *)
Definition EnvelopeInputTranscriptionRefused (requestID : string) : Error :=
  WithParam "config.inputAudioTranscription" (NewError requestID CodeInvalidRequest).

Definition OpensRealtime (adapter : RealtimeAdapter) (kind : string) : bool := isMember kind (s_Kinds adapter).

(** The error of [ResolveRealtimeExecution] is [ErrNotASessionAdapter]. *)
Definition not_a_session (slug : string) (r : Adapter.Registry) : bool :=
  negb (present (sessions r !! slug)) && present (adapters r !! slug).

Inductive OpenStep := NextCandidate | Done.

Definition refuse_open (failure : Error) (s : OpenState) : OpenStep * OpenState := (Done, with_opening (set_failure failure) s).

(** The session adapter of a candidate and its credentials within its ceiling;
    the left result is a candidate that cannot be routed. *)
Definition session_executable (w : OpenTurn) (c : candidate) : option (RealtimeAdapter * option Credentials) :=
  let route := c_route c in
  '(adapter, credentials) ← ResolveRealtimeExecution (r_DeploymentID route) (r_Provider route) (o_registry w);
  if negb (bool_decide (fundingCeiling c = TierNone)) && isPlatform route
  then credentials ← boundedPool credentials (fundingCeiling c); Some (adapter, credentials)
  else Some (adapter, credentials).

(** The attempt itself, once a candidate is admitted, routable and of the right
    kind. *)
Definition try_open (index : nat) (w : OpenTurn) (requestID : string) (c : candidate) (adapter : RealtimeAdapter)
    (credentials : option Credentials) (permit : option Rotation.Permit) (s : OpenState) : OpenStep * OpenState :=
  let route := c_route c in
  let s := with_opening (set_route route) s in
  let answer := o_Open w adapter route credentials in
  let s := called (mkOpenCall index route credentials (negb (present (open_err answer)))) s in
  let s := with_rotation (o_during w (open_rotation s)) s in
  let report f := with_rotation (f (o_report w) permit (open_rotation s)).2 in
  match open_err answer with
  | None =>
      (Done, report Rotation.Succeeded
               (with_opening (set_upstream (opened_KeyID answer) (opened_KeyClass answer) (o_start w) (o_clock w)) s))
  | Some err =>
      match AsUnsupported err with
      | Some _ => refuse_open (translationFailure requestID err) (report Rotation.NotAttributable s)
      | None =>
          let cancelled := isCancellation (o_cancelled w) err in
          let telemetry :=
            attemptTelemetry (o_cancelled w) requestID (r_Provider route) (Some err) (o_start w) (o_clock w) 0 (o_latency w) in
          let row :=
            mkUsage (Z.of_nat (length (opening_attempts (opening s)))) (r_DeploymentID route) (r_Provider route)
              (r_ModelReference route) (o_occurred w) false (opened_KeyID answer) (opened_KeyClass answer) None false []
              telemetry in
          let s := failed_with err (with_opening (add_attempt row) s) in
          if cancelled then refuse_open (NewError requestID CodeCancelled) (report Rotation.NotAttributable s)
          else if negb (DeploymentAttributable err)
          then refuse_open (upstreamFailure requestID (r_Provider route) err) (report Rotation.NotAttributable s)
          else (NextCandidate, report Rotation.Failed s)
      end
  end.

(** One candidate's turn. *)
Definition open_turn (index : nat) (w : OpenTurn) (request : RealtimeSessionRequest) (c : candidate) (s : OpenState)
    : OpenStep * OpenState :=
  let route := c_route c in
  let requestID := ses_RequestID request in
  let '(permit, r) := Rotation.Admit (o_admit w) (r_DeploymentID route) (o_before w (open_rotation s)) in
  let s := with_rotation r s in
  match permit with
  | None => (NextCandidate, skip_route (r_DeploymentID route) s)
  | Some _ =>
      let released := with_rotation (Rotation.NotAttributable (o_report w) permit (open_rotation s)).2 s in
      match session_executable w c with
      | None =>
          if not_a_session (r_Provider route) (o_registry w)
          then refuse_open (WithParam "authorizedRoutes" (NewError requestID CodeUnsupportedModality)) released
          else (NextCandidate, skip_route (r_DeploymentID route) released)
      | Some (adapter, credentials) =>
          if negb (OpensRealtime adapter (Kind_ request))
          then refuse_open (WithParam "kind" (NewError requestID CodeUnsupportedModality)) released
          else try_open index w requestID c adapter credentials permit s
      end
  end.

(** When no candidate opened and none refused. *)
Definition none_opened (request : RealtimeSessionRequest) (s : OpenState) : OpenState :=
  let requestID := ses_RequestID request in
  match lastErr s with
  | Some err =>
      let slug := match opening_Route (opening s) with Some r => r_Provider r | None => "" end in
      with_opening (set_failure (upstreamFailure requestID slug err)) s
  | None =>
      with_opening (set_failure (everyRouteOutOfRotation requestID (open_skipped s) (opening_startedAt (opening s))
        (open_rotation s))) s
  end.

Fixpoint open_loop (world : nat -> OpenTurn) (request : RealtimeSessionRequest) (index : nat) (cs : list candidate)
    (s : OpenState) : OpenState :=
  match cs with
  | [] => none_opened request s
  | c :: cs =>
      match open_turn index (world index) request c s with
      | (Done, s) => s
      | (NextCandidate, s) => open_loop world request (S index) cs s
      end
  end.

(** The route an opening names before any was tried. *)
Definition first_route (request : RealtimeSessionRequest) : option Route :=
  match ses_AuthorizedRoutes request with
  | [] => None
  | a :: _ => Some (mkRoute (DeploymentID a) (route_Provider a) (ModelReference a) "" (default [] (Regions a)) None None None)
  end.

Definition initial_opening (request : RealtimeSessionRequest) (allocated : option string) (startedAt : Instant)
    : SessionOpening :=
  mkOpening false (first_route request) None (ses_RequestID request) (ses_Attribution request)
    (generationFor (ses_Attribution request) allocated) startedAt [] "" "" 0 0.

(** [resolveAuthorizedRoutes], or why nothing is tried. *)
Definition session_candidates (snapshot : Inventory) (settledByGrant : bool) (request : RealtimeSessionRequest)
    (startedAt : Instant) : list candidate + Error :=
  let requestID := ses_RequestID request in
  match SessionRequest_Validate request with
  | Some _ => inr (NewError requestID CodeInvalidRequest)
  | None =>
      if negb (IsFirstParty (Principal (ses_Attribution request))) && negb (HasScope (ses_Attribution request) ScopeInvoke)
      then inr (NewError requestID CodeInsufficientScope)
      else if present (cfg_InputAudioTranscription (ses_Config request)) && negb settledByGrant
      then inr (EnvelopeInputTranscriptionRefused requestID)
      else match list_find (fun a => is_Some (route_Credential a)) (ses_AuthorizedRoutes request) with
      | Some (index, _) =>
          inr (WithParam ("authorizedRoutes[" +:+ Itoa (Z.of_nat index) +:+ "].customerProviderCredential")
                 (NewError requestID CodeInvalidRequest))
      | None => resolveAuthorizedRoutes snapshot requestID (ses_AuthorizedRoutes request) startedAt
      end
  end.

(** [Executor.OpenSession]. *)
Definition OpenSession (snapshot : Inventory) (world : nat -> OpenTurn) (settledByGrant : bool) (allocated : option string)
    (startedAt : Instant) (request : RealtimeSessionRequest) (r : Rotation.Registry) : OpenState :=
  let s := mkOpenState (initial_opening request allocated startedAt) r [] None [] in
  match session_candidates snapshot settledByGrant request startedAt with
  | inr failure => with_opening (set_failure failure) s
  | inl candidates => open_loop world request 0 candidates s
  end.

(** ** Settling *)

Record SessionEnd := mkEnd {
  end_ClosedAt : Instant;
  end_Units : list UsageQuantity;
  end_UsageSource : string;
  end_FirstOutputAt : Instant;
  end_Outcome : AttemptOutcome;
  end_FailureCode : string;
  end_ReportOutcome : string;
}.

Record SessionSettlement := mkSettlement {
  settlement_Report : option UsageReport;
  settlement_UpstreamCost : Record_;
  settlement_CostRecordError : option RecordResult;
  settlement_ReportError : bool;
}.

(** The row of the opened attempt; [latency] is the monotonic time since
    [openClock]. *)
Definition opened_row (route : Route) (o : SessionOpening) (e : SessionEnd) (latency : Duration) : AttemptUsage :=
  let first :=
    if negb (IsZero (end_FirstOutputAt e)) && negb (Before (end_FirstOutputAt e) (openStartedAt o))
    then Z.min (Sub (end_FirstOutputAt e) (openStartedAt o)) latency else 0%Z in
  mkUsage (Z.of_nat (length (opening_attempts o))) (r_DeploymentID route) (r_Provider route) (r_ModelReference route)
    (end_ClosedAt e) false (opening_keyID o) (opening_keyClass o) None true (end_Units e)
    (mkTelemetry (openStartedAt o) latency first (end_Outcome e) (end_FailureCode e)).

Definition no_route : Route := mkRoute "" "" "" "" [] None None None.

(** [Executor.SettleSession]; [recorder] is the durable recorder, if any. *)
Definition SettleSession (costs : option Cards) (measuredAt : Instant) (recorder : option (Record_ -> RecordResult))
    (deferred : bool) (latency : Duration) (o : SessionOpening) (e : SessionEnd) : SessionSettlement :=
  let route := default no_route (opening_Route o) in
  let failed := Z.of_nat (length (opening_attempts o)) in
  let usage := opening_attempts o ++ (if opened o then [opened_row route o e latency] else []) in
  let units := if opened o then end_Units e else [] in
  let switches := if opened o then failed else Z.max (failed - 1) 0 in
  let cost := MeasureRequest measuredAt (opening_requestID o) usage costs in
  let source := if end_UsageSource e =s "" then UsageProviderReported else end_UsageSource e in
  let started := NewTimestamp (opening_startedAt o) in
  let completed := if Before (end_ClosedAt e) (opening_startedAt o) then started else NewTimestamp (end_ClosedAt e) in
  let ttft := Milliseconds (Sub (end_FirstOutputAt e) (opening_startedAt o)) in
  let first := if negb (IsZero (end_FirstOutputAt e)) && (0 <? ttft)%Z then Some ttft else None in
  let report :=
    mkReport UsageReportSchemaVersion (opening_requestID o) (opening_generationID o)
      (withGeneration (opening_attribution o) (opening_generationID o)) (end_ReportOutcome e) units source
      (r_ModelReference route) (r_Provider route) (r_DeploymentID route) (Z.min switches 100) None started completed first in
  let settleable := negb (present (UsageReport_Validate report)) in
  mkSettlement (if settleable then Some report else None) cost
    (match recorder with
     | Some Record => if is_nil (Attempts cost) || deferred then None else Some (Record cost)
     | None => None
     end)
    (negb settleable).

(** ** Lemmas: the candidates *)

(** When a session's routes are resolved at all. *)
Lemma session_candidates_spec f age i granted request startedAt cs :
  Parse f age = Some i ->
  session_candidates i granted request startedAt = inl cs <->
  SessionRequest_Validate request = None /\
  (IsFirstParty (Principal (ses_Attribution request)) = true \/ HasScope (ses_Attribution request) ScopeInvoke = true) /\
  (cfg_InputAudioTranscription (ses_Config request) <> None -> granted = true) /\
  Forall (fun a => route_Credential a = None) (ses_AuthorizedRoutes request) /\
  one_revision (ses_AuthorizedRoutes request) /\
  Forall2 (executes_as (Deployments_ f)) (ses_AuthorizedRoutes request) cs.
Proof.
  intros Hparse. unfold session_candidates. destruct (SessionRequest_Validate request) as [m|] eqn:Hv; [naive_solver|].
  apply SessionRequest_Validate_facts in Hv as ([_ Hwf _ _] & _ & _).
  destruct (negb _ && negb _) eqn:Es.
  { bool_cases. split; [done|]. intros (_ & [?|?] & _); congruence. }
  apply andb_false_iff in Es. rewrite !negb_false_iff in Es.
  destruct (present _ && _) eqn:Et.
  { bool_cases. split; [done|]. intros (_ & _ & Ht & _). destruct (cfg_InputAudioTranscription _); [|done].
    specialize (Ht ltac:(done)). congruence. }
  assert (cfg_InputAudioTranscription (ses_Config request) <> None -> granted = true) as Ht.
  { destruct (cfg_InputAudioTranscription _), granted; done. }
  destruct (list_find _ _) as [[index a]|] eqn:Ef.
  { apply list_find_Some in Ef as (Ha & [c Hc] & _). split; [done|]. intros (_ & _ & _ & Hall & _).
    rewrite Forall_forall in Hall. apply list_elem_of_lookup_2, Hall in Ha. congruence. }
  apply list_find_None in Ef. assert (Forall (fun a => route_Credential a = None) (ses_AuthorizedRoutes request)) as Hc.
  { eapply Forall_impl; [exact Ef|]. cbn. intros a. apply eq_None_not_Some. }
  rewrite resolveAuthorizedRoutes_spec by done. tauto.
Qed.

(** ** Lemmas: the loop *)

Section Loop.
Variables (world : nat -> OpenTurn) (request : RealtimeSessionRequest) (cs : list candidate) (o0 : SessionOpening).

(** A call of Open: on a candidate, its own credentials, of the asked kind. *)
Definition open_authorized (call : OpenCall) : Prop :=
  exists c adapter, cs !! oc_index call = Some c /\ oc_route call = c_route c /\
    session_executable (world (oc_index call)) c = Some (adapter, oc_credentials call) /\
    OpensRealtime adapter (Kind_ request) = true.

(** The rows of the failed opens: numbered in order, unserved, without units. *)
Definition open_rows (rows : list AttemptUsage) : Prop :=
  AttemptIndex <$> rows = Z.of_nat <$> seq 0 (length rows) /\
  Forall (fun row => Served row = false /\ usage_Units row = []) rows.

(** The calls that are accounted: those that failed otherwise than in the
    adapter's refusal to serve the request at all, which reached no upstream. *)
Definition attempted (call : OpenCall) : bool :=
  match c ← cs !! oc_index call; session_executable (world (oc_index call)) c with
  | Some (adapter, credentials) =>
      match open_err (o_Open (world (oc_index call)) adapter (oc_route call) credentials) with
      | Some err => negb (present (AsUnsupported err))
      | None => false
      end
  | None => false
  end.

Definition accounts_for (row : AttemptUsage) (call : OpenCall) : Prop :=
  usage_DeploymentID row = r_DeploymentID (oc_route call) /\ usage_Provider row = r_Provider (oc_route call) /\
  usage_ModelReference row = r_ModelReference (oc_route call).

(** The rows are those of the accounted calls, one each and in order. *)
Definition open_accounted (s : OpenState) : Prop :=
  Forall2 accounts_for (opening_attempts (opening s)) (filter (fun call => attempted call = true) (open_calls s)).

(** What every opening keeps, whatever it came to. *)
Record open_common (s : OpenState) : Prop := {
  oc_sorted : StronglySorted lt (oc_index <$> open_calls s);
  oc_auth : Forall open_authorized (open_calls s);
  oc_rows : open_rows (opening_attempts (opening s));
  oc_count : (length (opening_attempts (opening s)) <= length (open_calls s))%nat;
  oc_named : opening_Route (opening s) =
    match last (open_calls s) with Some call => Some (oc_route call) | None => opening_Route o0 end;
  oc_same : opening_requestID (opening s) = opening_requestID o0 /\ opening_attribution (opening s) = opening_attribution o0 /\
    opening_generationID (opening s) = opening_generationID o0 /\ opening_startedAt (opening s) = opening_startedAt o0;
}.

Record open_going (index : nat) (s : OpenState) : Prop := {
  og_common : open_common s;
  og_accounted : open_accounted s;
  og_before : Forall (fun call => oc_index call < index)%nat (open_calls s);
  og_closed : Forall (fun call => oc_opened call = false) (open_calls s);
  og_not : opened (opening s) = false /\ opening_Failure (opening s) = None;
}.

(** How an opening ends: refused, or on its last call. *)
Record open_ended (s : OpenState) : Prop := {
  oe_common : open_common s;
  oe_accounted : open_accounted s;
  oe_either :
    (opened (opening s) = false /\ opening_Failure (opening s) <> None /\
       Forall (fun call => oc_opened call = false) (open_calls s)) \/
    (opened (opening s) = true /\ opening_Failure (opening s) = None /\
       exists calls call, open_calls s = calls ++ [call] /\ oc_opened call = true /\
         Forall (fun call => oc_opened call = false) calls);
}.

Lemma open_common_ext s s' :
  opening_attempts (opening s') = opening_attempts (opening s) -> opening_Route (opening s') = opening_Route (opening s) ->
  opening_requestID (opening s') = opening_requestID (opening s) ->
  opening_attribution (opening s') = opening_attribution (opening s) ->
  opening_generationID (opening s') = opening_generationID (opening s) ->
  opening_startedAt (opening s') = opening_startedAt (opening s) -> open_calls s' = open_calls s ->
  open_common s -> open_common s'.
Proof. intros Ha Hr H1 H2 H3 H4 Hc []. constructor; rewrite ?Ha, ?Hr, ?H1, ?H2, ?H3, ?H4, ?Hc; done. Qed.

Lemma open_refused index failure s s' :
  open_going index s -> opening s' = opening s -> open_calls s' = open_calls s ->
  open_ended (with_opening (set_failure failure) s').
Proof.
  intros [Hc Hacc _ Hcl [Ho _]] He Hcalls. constructor.
  - eapply open_common_ext; [..|exact Hc]; cbn; by rewrite ?He.
  - unfold open_accounted in *. cbn. by rewrite He, Hcalls.
  - left. cbn. by rewrite He, Hcalls.
Qed.

Lemma seq_snoc n : Z.of_nat <$> seq 0 (S n) = (Z.of_nat <$> seq 0 n) ++ [Z.of_nat n].
Proof. by rewrite seq_S, fmap_app. Qed.

(** One more call, on the candidate at [index]. *)
Lemma open_common_call index c adapter credentials ok s :
  open_going index s -> cs !! index = Some c -> session_executable (world index) c = Some (adapter, credentials) ->
  OpensRealtime adapter (Kind_ request) = true ->
  open_common (called (mkOpenCall index (c_route c) credentials ok) (with_opening (set_route (c_route c)) s)).
Proof.
  intros [[Hs Ha Hr Hn Hl Hsame] _ Hb _ _] Hc He Hk. constructor; cbn; try done.
  - rewrite fmap_app. cbn. assert (Forall (fun i => i < index)%nat (oc_index <$> open_calls s)) as Hb' by by rewrite Forall_fmap.
    revert Hs Hb'. generalize (oc_index <$> open_calls s). intros l Hs Hb'. induction Hs as [|x l Hs IH Hx]; [repeat constructor|].
    apply Forall_cons in Hb' as [Hxi Hb']. cbn. constructor; [auto|]. apply Forall_app. by split; [|repeat constructor].
  - apply Forall_app. split; [done|]. constructor; [|done]. exists c, adapter. done.
  - rewrite length_app. cbn. lia.
  - by rewrite last_snoc.
Qed.

(** Whether the call just made is accounted is decided by what it answered. *)
Lemma accounted_call index c adapter credentials ok s rows o :
  open_accounted s -> cs !! index = Some c -> session_executable (world index) c = Some (adapter, credentials) ->
  opening_attempts o = opening_attempts (opening s) ++ rows ->
  match open_err (o_Open (world index) adapter (c_route c) credentials) with
  | Some err => if present (AsUnsupported err) then rows = [] else exists row, rows = [row] /\
      usage_DeploymentID row = r_DeploymentID (c_route c) /\ usage_Provider row = r_Provider (c_route c) /\
      usage_ModelReference row = r_ModelReference (c_route c)
  | None => rows = []
  end ->
  Forall2 accounts_for (opening_attempts o)
    (filter (fun call => attempted call = true) (open_calls s ++ [mkOpenCall index (c_route c) credentials ok])).
Proof.
  intros Hacc Hc He -> H. rewrite filter_app. apply Forall2_app; [exact Hacc|].
  rewrite filter_cons, filter_nil. unfold attempted. cbn. rewrite Hc. cbn. rewrite He.
  destruct (open_err _) as [err|]; [|by subst]. destruct (present _); [by subst|].
  destruct H as (row & -> & H). rewrite decide_True by done. by apply Forall2_cons.
Qed.

Lemma try_open_spec index c adapter credentials permit s x :
  open_going index s -> cs !! index = Some c -> session_executable (world index) c = Some (adapter, credentials) ->
  OpensRealtime adapter (Kind_ request) = true ->
  try_open index (world index) (ses_RequestID request) c adapter credentials permit s = x ->
  match x with (Done, s') => open_ended s' | (NextCandidate, s') => open_going (S index) s' end.
Proof.
  intros Hg Hc He Hk <-. unfold try_open. cbv zeta. set (answer := o_Open _ _ _ _).
  set (ok := negb (present (open_err answer))).
  pose proof (open_common_call index c adapter credentials ok s Hg Hc He Hk) as Hcommon.
  pose proof (fun rows o => accounted_call index c adapter credentials ok s rows o (og_accounted _ _ Hg) Hc He) as Hacc.
  fold answer in Hacc.
  destruct Hg as [[Hs Ha Hr Hn Hl Hsame] _ Hb Hcl [Ho Hf]].
  set (s1 := called _ _) in *. assert (oc_rows' : opening_attempts (opening s1) = opening_attempts (opening s)) by done.
  destruct (open_err answer) as [err|] eqn:Ee; cbn [fst snd].
  2:{ constructor; [by eapply open_common_ext; [..|exact Hcommon]|by apply (Hacc []); [rewrite app_nil_r|]|]. right. split; [done|]. split; [done|].
      exists (open_calls s). eexists. split; [done|]. by split. }
  assert (Forall (fun call => oc_opened call = false) (open_calls s1)) as Hcl1.
  { cbn. apply Forall_app. split; [done|]. by repeat constructor. }
  destruct (AsUnsupported err) as [u|]; cbn [present] in Hacc.
  { constructor; [by eapply open_common_ext; [..|exact Hcommon]|by apply (Hacc []); [rewrite app_nil_r|]|]. left. split_and!; done. }
  set (row := mkUsage _ _ _ _ _ _ _ _ _ _ _ _).
  assert (forall s', opening_attempts (opening s') = opening_attempts (opening s) ++ [row] ->
    opening_Route (opening s') = opening_Route (opening s1) -> opening_requestID (opening s') = opening_requestID (opening s) ->
    opening_attribution (opening s') = opening_attribution (opening s) ->
    opening_generationID (opening s') = opening_generationID (opening s) ->
    opening_startedAt (opening s') = opening_startedAt (opening s) ->
    open_calls s' = open_calls s1 -> open_common s') as Hrow.
  { intros s' Hat Hro H1 H2 H3 H4 Hca. destruct Hcommon as [Cs Ca Cr Cn Cl Csame]. constructor; rewrite ?Hca; try done.
    - rewrite Hat. destruct Hr as [Hi Hall]. split.
      + rewrite length_app, Nat.add_comm. cbn [length Nat.add]. by rewrite seq_snoc, fmap_app, Hi.
      + apply Forall_app. split; [done|]. by repeat constructor.
    - rewrite Hat, length_app. cbn. rewrite length_app. cbn. lia.
    - by rewrite Hro.
    - rewrite H1, H2, H3, H4. done. }
  assert (forall s', opening_attempts (opening s') = opening_attempts (opening s) ++ [row] -> open_calls s' = open_calls s1 ->
    open_accounted s') as Hadd.
  { intros s' Hat Hca. unfold open_accounted. rewrite Hca. apply (Hacc [row]); [done|]. by exists row. }
  destruct (isCancellation _ _); [|destruct (negb (DeploymentAttributable err))]; cbn beta iota delta [refuse_open].
  1,2: constructor; [by apply Hrow|by apply Hadd|]; left; split_and!; done.
  constructor; [by apply Hrow|by apply Hadd| |done|done].
  cbn. apply Forall_app. split; [|by repeat constructor; cbn; lia].
  eapply Forall_impl; [exact Hb|]. cbn. lia.
Qed.

Lemma open_going_next index s s' :
  open_going index s -> opening s' = opening s -> open_calls s' = open_calls s -> open_going (S index) s'.
Proof.
  intros [Hc Hacc Hb Hcl Hn] He Hcalls. constructor; rewrite ?He, ?Hcalls; try done.
  - eapply open_common_ext; [..|exact Hc]; by rewrite ?He.
  - unfold open_accounted in *. by rewrite He, Hcalls.
  - eapply Forall_impl; [exact Hb|]. cbn. lia.
Qed.

Lemma open_turn_spec index c s :
  open_going index s -> cs !! index = Some c ->
  match open_turn index (world index) request c s with
  | (Done, s') => open_ended s'
  | (NextCandidate, s') => open_going (S index) s'
  end.
Proof.
  intros Hg Hc. unfold open_turn. destruct (Rotation.Admit _ _ _) as [permit r]. cbv zeta.
  destruct permit as [permit|]; [|by eapply open_going_next].
  destruct (session_executable (world index) c) as [[adapter credentials]|] eqn:He.
  2:{ destruct (not_a_session _ _); [|by eapply open_going_next].
      by eapply open_refused. }
  destruct (OpensRealtime adapter (Kind_ request)) eqn:Hk; cbn [negb].
  2:{ by eapply open_refused. }
  set (s1 := with_rotation r s). assert (open_going index s1) as Hg1.
  { destruct Hg as [Hcom]. constructor; try done. by eapply open_common_ext; [..|exact Hcom]. }
  destruct (try_open _ _ _ _ _ _ _ s1) as [step s'] eqn:Et.
  exact (try_open_spec index c adapter credentials _ s1 _ Hg1 Hc He Hk Et).
Qed.

Lemma open_loop_spec index rest s :
  open_going index s -> drop index cs = rest -> open_ended (open_loop world request index rest s).
Proof.
  revert index s. induction rest as [|c rest IH]; intros index s Hg Hd; cbn [open_loop].
  - destruct Hg as [Hc Hacc _ Hcl [Ho Hf]]. unfold none_opened.
    destruct (lastErr s); (constructor; [by eapply open_common_ext; [..|exact Hc]|exact Hacc|]); left; split_and!; done.
  - assert (cs !! index = Some c) as Hl.
    { rewrite <-(Nat.add_0_r index), <-lookup_drop, Hd. done. }
    pose proof (open_turn_spec index c s Hg Hl) as Ht. destruct (open_turn _ _ _ _ _) as [[|] s']; [|done].
    apply IH; [done|]. rewrite <-Nat.add_1_r, <-drop_drop, Hd. done.
Qed.

End Loop.

(** ** Lemmas: trials *)

(** [r'] has no trial in flight that [r] did not have. *)
Definition no_new_breaker_trial (r r' : Rotation.Registry) : Prop :=
  forall id, breaker_trial id r' = true -> breaker_trial id r = true.

#[export] Instance no_new_breaker_trial_refl : Reflexive no_new_breaker_trial.
Proof. by intros r id. Qed.
#[export] Instance no_new_breaker_trial_trans : Transitive no_new_breaker_trial.
Proof. intros r1 r2 r3 H12 H23 id H. by apply H12, H23. Qed.

(** Admission and its report, whatever others do in between. *)
Lemma breaker_returned now id r0 r q r1 r2 now' result :
  no_new_breaker_trial r0 r -> Rotation.Admit now id r = (Some q, r1) -> no_new_breaker_trial r1 r2 ->
  no_new_breaker_trial r0 (Rotation.report now' result (Some q) r2).2.
Proof.
  intros H0 Ha H12 id' H. apply Rotation_Admit_trial in Ha as [Hq Ht].
  apply Rotation_report_trial in H as [H Hown]; [|by apply Hq].
  apply H12, Ht in H as [H|(p & [= <-] & H)]; [by apply H0|done].
Qed.

Lemma open_turn_trials index w request c s :
  no_new_breaker_trial (open_rotation s) (o_before w (open_rotation s)) ->
  (forall r, no_new_breaker_trial r (o_during w r)) ->
  no_new_breaker_trial (open_rotation s) (open_rotation (open_turn index w request c s).2).
Proof.
  intros Hb Hd. unfold open_turn. destruct (Rotation.Admit _ _ _) as [q r1] eqn:Ha. cbv zeta.
  destruct q as [q|].
  2:{ apply Rotation_Admit_trial in Ha as [_ Ht]. intros id [H|(p & ? & _)]%Ht; [by apply Hb|done]. }
  assert (forall now result, no_new_breaker_trial (open_rotation s) (Rotation.report now result (Some q) r1).2) as Hrel.
  { intros. by eapply breaker_returned. }
  assert (forall now result,
    no_new_breaker_trial (open_rotation s) (Rotation.report now result (Some q) (o_during w r1)).2) as Hrep.
  { intros. by eapply breaker_returned. }
  destruct (session_executable w c) as [[adapter credentials]|]; [|by destruct (not_a_session _ _); apply Hrel].
  destruct (OpensRealtime adapter (Kind_ request)); [|by apply Hrel]. cbn [negb]. unfold try_open. cbv zeta.
  destruct (open_err _) as [err|]; [|by apply Hrep]. destruct (AsUnsupported err); [by apply Hrep|].
  destruct (isCancellation _ _); [by apply Hrep|]. destruct (negb (DeploymentAttributable err)); by apply Hrep.
Qed.

(** ** Properties *)

Lemma session_start_going world request cs snapshot granted allocated startedAt r :
  session_candidates snapshot granted request startedAt = inl cs ->
  open_ended world request cs (initial_opening request allocated startedAt)
    (OpenSession snapshot world granted allocated startedAt request r).
Proof.
  intros Hc. unfold OpenSession. rewrite Hc. apply open_loop_spec; [|by rewrite drop_0].
  constructor; cbn; try done; [|constructor]. constructor; cbn; try done. constructor.
Qed.


(** Opening leaves no trial behind.  Among other requests that leave none,
    an opening that has ended, in whatever way, leaves no half-open trial of a
    breaker in flight that was not in flight before it, even though the session
    it opened may live for an hour. *)
Theorem sessions_leave_no_trial snapshot world granted allocated at_ request r :
  (forall n r, no_new_breaker_trial r (o_before (world n) r) /\ no_new_breaker_trial r (o_during (world n) r)) ->
  no_new_breaker_trial r (open_rotation (OpenSession snapshot world granted allocated at_ request r)).
Proof.
  intros Hothers. unfold OpenSession. destruct (session_candidates _ _ _ _) as [cs|failure]; [|reflexivity].
  set (s0 := mkOpenState _ r [] None []). change r with (open_rotation s0) at 1. clearbody s0.
  generalize 0. intros index. revert index s0. induction cs as [|c cs IH]; intros index s0; cbn [open_loop].
  - unfold none_opened. by destruct (lastErr s0).
  - destruct (Hothers index (open_rotation s0)) as [Hb _].
    pose proof (open_turn_trials index (world index) request c s0 Hb (fun r => proj2 (Hothers index r))) as Ht.
    destruct (open_turn _ _ _ _ _) as [[|] s1]; [|exact Ht]. etransitivity; [exact Ht|apply IH].
Qed.

(** *** Settlement *)

(** Spelling instants keeps their order. *)
Lemma timestamps_ordered t u : (t <= u)%Z -> (t - t mod Millisecond <= u - u mod Millisecond)%Z.
Proof.
  intros H. pose proof (Z.div_le_mono t u Millisecond eq_refl H).
  pose proof (Z.div_mod t Millisecond ltac:(done)). pose proof (Z.div_mod u Millisecond ltac:(done)).
  unfold Millisecond in *. lia.
Qed.

(** What a session must say of its end for its report to be settleable. *)
Record end_well_formed (served : bool) (e : SessionEnd) : Prop := {
  ew_outcome : end_ReportOutcome e ∈ requestOutcomeValues;
  ew_source : end_UsageSource e = "" \/ end_UsageSource e ∈ usageSourceValues;
  ew_units : Forall unit_well_formed (end_Units e) /\ NoDup (Unit <$> end_Units e);
  ew_completed : end_ReportOutcome e = OutcomeCompleted -> served = true /\ end_Units e <> [];
}.

(** A route a report may name. *)
Definition reportable (route : Route) : Prop :=
  (1 <= len (r_DeploymentID route) <= 128)%Z /\ ModelReference_Valid (r_ModelReference route) = true /\
  ProviderSlug_Valid (r_Provider route) = true.

Lemma executes_as_reportable ds a c : executes_as ds a c -> route_well_formed a -> reportable (c_route c).
Proof.
  intros (r & (d & _ & Hid & Href & Hp & _ & _ & ->) & ->) [H1 [H2 _] H3]. unfold reportable. cbn.
  by rewrite Hid, Href, Hp.
Qed.

(** What a valid request's opening names is reportable, tried or not. *)
Lemma opened_reportable f age i world granted allocated at_ request r :
  Parse f age = Some i -> SessionRequest_Validate request = None ->
  let o := opening (OpenSession i world granted allocated at_ request r) in
  (exists route, opening_Route o = Some route /\ reportable route) /\ open_rows (opening_attempts o) /\
  opening_requestID o = ses_RequestID request /\ opening_startedAt o = at_.
Proof.
  intros Hparse Hv o. pose proof (SessionRequest_Validate_facts _ Hv) as ([Hne Hwf _ _] & _ & _).
  assert (exists route, first_route request = Some route /\ reportable route) as Hfirst.
  { unfold first_route. destruct (ses_AuthorizedRoutes request) as [|a rest]; [done|].
    apply Forall_cons in Hwf as [[H1 [H2 _] H3] _]. by eexists. }
  destruct (session_candidates i granted request at_) as [cs|failure] eqn:Hc.
  - pose proof (session_start_going world request cs i granted allocated at_ r Hc) as [[_ Ha Hr _ Hn (H1 & _ & _ & H2)] _ _].
    split; [|done]. unfold o. rewrite Hn. destruct (last _) as [call|] eqn:Hl; [|done].
    eexists. split; [done|]. rewrite Forall_forall in Ha. apply last_Some_elem_of, Ha in Hl as (c & _ & Hlook & -> & _).
    apply (session_candidates_spec f age) in Hc as (_ & _ & _ & _ & _ & Hcs); [|done].
    eapply Forall2_lookup_r in Hcs as (a & Hla & Hex); [|exact Hlook].
    rewrite Forall_forall in Hwf. eapply executes_as_reportable; [exact Hex|]. by eapply Hwf, list_elem_of_lookup_2.
  - unfold o, OpenSession. rewrite Hc. cbn. split; [done|]. by repeat constructor.
Qed.

(** A well-formed end of an opening that named a reportable route settles. *)
Lemma SettleSession_settles costs measuredAt recorder deferred latency o e route :
  opening_Route o = Some route -> reportable route -> opening_requestID o <> "" -> end_well_formed (opened o) e ->
  let settled := SettleSession costs measuredAt recorder deferred latency o e in
  exists report, settlement_Report settled = Some report /\ settlement_ReportError settled = false /\
    settleable report /\ report_RequestID report = opening_requestID o /\ Outcome report = end_ReportOutcome e /\
    Units report = (if opened o then end_Units e else []) /\ report_DeploymentID report = r_DeploymentID route.
Proof.
  intros Hroute (Hdep & Href & Hprov) Hreq [Hout Hsrc Hunits Hcompl] settled.
  unfold settled, SettleSession. rewrite Hroute. cbn [default settlement_Report settlement_ReportError].
  set (report := mkReport _ _ _ _ _ _ _ _ _ _ _ _ _ _ _).
  assert (settleable report) as Hs.
  { constructor; cbn; try done.
    - destruct (end_UsageSource e =s "") eqn:E; bool_cases; [|naive_solver].
      apply isMember_spec. reflexivity.
    - destruct (opened o); lia.
    - intros [-> ?]%Hcompl. done.
    - destruct (opened o); [done|]. split; constructor.
    - destruct (Before (end_ClosedAt e) _) eqn:E; (eexists _, _; split; [done|]; split; [done|]); [lia|].
      unfold Before in E. bool_cases. by apply timestamps_ordered. }
  pose proof (proj2 (UsageReport_Validate_settleable _) Hs) as Hval. rewrite Hval. exists report. by split_and!.
Qed.

(** The rows a settlement prices: the failed opens, then the served attempt. *)
Lemma SettleSession_rows costs measuredAt recorder deferred latency o e route :
  opening_Route o = Some route ->
  cost_Usage <$> Attempts (settlement_UpstreamCost (SettleSession costs measuredAt recorder deferred latency o e)) =
    opening_attempts o ++ (if opened o then [opened_row route o e latency] else []).
Proof. intros Hroute. unfold SettleSession. rewrite Hroute. apply measured_rows. Qed.

(** A session settles.  Whatever came of opening a valid request, and
    however its session ended, a well-formed end settles into a report: it names
    the request and the route that served or refused it, counts each unit once,
    orders its times, and reports units only for a session that opened.  The
    upstream cost prices exactly the failed opens and, last, the served attempt,
    numbered in order. *)
Theorem sessions_settle f age i world granted allocated at_ request r costs measuredAt recorder deferred latency e :
  Parse f age = Some i -> SessionRequest_Validate request = None ->
  let o := opening (OpenSession i world granted allocated at_ request r) in
  end_well_formed (opened o) e ->
  let settled := SettleSession costs measuredAt recorder deferred latency o e in
  (exists report, settlement_Report settled = Some report /\ settlement_ReportError settled = false /\
     settleable report /\ report_RequestID report = ses_RequestID request /\ Outcome report = end_ReportOutcome e /\
     Units report = (if opened o then end_Units e else []) /\
     Some (report_DeploymentID report) = r_DeploymentID <$> opening_Route o) /\
  (exists served, cost_Usage <$> Attempts (settlement_UpstreamCost settled) = opening_attempts o ++ served /\
     length served = (if opened o then 1%nat else 0%nat) /\
     Forall (fun row => Served row = true /\ usage_Units row = end_Units e) served) /\
  AttemptIndex <$> (cost_Usage <$> Attempts (settlement_UpstreamCost settled)) =
    Z.of_nat <$> seq 0 (length (Attempts (settlement_UpstreamCost settled))).
Proof.
  intros Hparse Hv o He settled.
  destruct (opened_reportable f age i world granted allocated at_ request r Hparse Hv)
    as ((route & Hroute & Hrep) & [Hidx Hrows] & Hid & _). fold o in Hroute, Hidx, Hrows, Hid.
  pose proof (SessionRequest_Validate_facts _ Hv) as (_ & Hreq & _). clearbody o.
  pose proof (SettleSession_rows costs measuredAt recorder deferred latency o e route Hroute) as Hcost. fold settled in Hcost.
  split; [|split].
  - destruct (SettleSession_settles costs measuredAt recorder deferred latency o e route Hroute Hrep ltac:(congruence) He)
      as (report & H1 & H2 & H3 & H4 & H5 & H6 & H7).
    exists report. rewrite Hroute. cbn. split_and!; try done; [congruence|by rewrite H7].
  - exists (if opened o then [opened_row route o e latency] else []). rewrite Hcost. split; [done|].
    destruct (opened o); by repeat constructor.
  - rewrite <-(length_fmap cost_Usage), Hcost, length_app, fmap_app, Hidx. destruct (opened o); cbn [length fmap list_fmap].
    + by rewrite Nat.add_1_r, seq_snoc.
    + by rewrite Nat.add_0_r, app_nil_r.
Qed.

(** ** An example: the first deployment fails, the second opens *)

Definition session_route_on (id : string) : AuthorizedRoute :=
  mkAuthorizedRoute SubstitutionSameModel id "acme/m@1" "acme" (Some []) None None None.
Definition example_session : RealtimeSessionRequest :=
  mkSession 1 (mkAttribution example_principal None "req" None) "acme/m@1" RealtimeTranscription RealtimeWebSocket
    (mkSessionConfig None None None RealtimePCM16 None (mkTurnDetection TurnDetectionNone None None None None None None)
       (Some (mkInputTranscription None None None)) None None None None)
    (mkLimits 60000 60000 1000 1000 10) (mkClient "/v1" None (Some (Spells 1)))
    [session_route_on "a"; session_route_on "b"].
Definition session_rows (id : string) : Deployment := mkDeployment id "acme" "acme/m@1" "m-1" [] true None.
Definition session_file : file := mkFile "snap" (Some (Spells 1000)) [session_rows "a"; session_rows "b"].
Definition session_inventory : option Inventory := Parse session_file Hour.
Definition session_adapter : RealtimeAdapter := mkRealtime "acme" [RealtimeTranscription] (Some (Some free_pool)).
Definition opening_world (n : nat) : OpenTurn :=
  mkOpenTurn id id (mkRegistry ∅ {["acme" := session_adapter]} ∅ true) 2000 2001 0 3 2002 2003 false
    (fun _ route _ => if r_DeploymentID route =s "a" then mkOpenAnswer (Some (ErrUpstream (mkUpstream CodeProviderOverloaded UpstreamOverloaded 0 None false))) "k" KeyClassFree
                      else mkOpenAnswer None "k" KeyClassFree).

Definition example_opening : OpenState :=
  OpenSession (default global_inventory session_inventory) opening_world true None 2000 example_session
    (Rotation.NewRegistry Rotation.DefaultPolicy).
Definition example_end : SessionEnd :=
  mkEnd 5000 [mkQuantity UnitAudioInputMilliseconds 7] "" 0 AttemptSucceeded "" OutcomeCompleted.


Lemma sessions_leave_no_trial_witness :
  no_new_breaker_trial (Rotation.NewRegistry Rotation.DefaultPolicy) (open_rotation example_opening).
Proof.
  exact (sessions_leave_no_trial (default global_inventory session_inventory) opening_world true None 2000 example_session
    (Rotation.NewRegistry Rotation.DefaultPolicy)
    (fun n r => conj (no_new_breaker_trial_refl r) (no_new_breaker_trial_refl r))).
Defined.

Lemma sessions_settle_witness :
  exists report, settlement_Report (SettleSession None 6000 None false 3000 (opening example_opening) example_end) = Some report /\
    settleable report /\ report_DeploymentID report = "b" /\ RouteSwitches report = 1%Z.
Proof.
  destruct (sessions_settle session_file Hour (default global_inventory session_inventory) opening_world
    true None 2000 example_session (Rotation.NewRegistry Rotation.DefaultPolicy) None 6000 None false 3000 example_end
    ltac:(vm_compute; reflexivity) ltac:(vm_compute; reflexivity)) as ((report & H & _ & Hs & _) & _).
  { constructor; [apply isMember_spec; vm_compute; reflexivity|by left| |].
    - split; [|by apply NoDup_singleton]. constructor; [|constructor]. split; [apply isMember_spec; vm_compute; reflexivity|done].
    - intros _. split; [vm_compute; reflexivity|discriminate]. }
  exists report. split; [exact H|]. split; [exact Hs|]. vm_compute in H. injection H as <-. split; reflexivity.
Defined.
