(* ===== verification/Replay.v ===== *)
(** * The replay buffer of a realtime session (internal/realtime/replay.go)

    The most recent encoded events of one session, bounded by count and by
    bytes, forgetting the oldest first.  Its specification is the whole log:
    the buffer is the longest suffix of it the bounds allow, and [after]
    answers from the log or refuses. *)

From S2P Require Import Prelude Ids Text.

Record replay := mkReplay {
  buffered : list string;     (* events *)
  first : Z;                  (* the sequence of the oldest *)
  bytes : Z;
  maxCount : Z;
  maxBytes : Z;
}.

Definition newReplay (count size : Z) : replay := mkReplay [] 0 0 count size.

Definition event_count (l : list string) : Z := Z.of_nat (length l).

(** The condition of [push]'s loop. *)
Definition over (count size : Z) (events : list string) (held : Z) : bool :=
  (1 <? event_count events)%Z && ((count <? event_count events)%Z || (size <? held)%Z).

(** [push]'s loop: [(events, first, bytes)]. *)
Fixpoint forget (count size : Z) (events : list string) (oldest held : Z) : list string * Z * Z :=
  match events with
  | e :: rest =>
      if over count size events held then forget count size rest (oldest + 1) (held - len e) else (events, oldest, held)
  | [] => (events, oldest, held)
  end.

(** [replay.push]. *)
Definition push (sequence : Z) (encoded : string) (r : replay) : replay :=
  let oldest := match buffered r with [] => sequence | _ => first r end in
  let '(events, oldest, held) :=
    forget (maxCount r) (maxBytes r) (buffered r ++ [encoded]) oldest (bytes r + len encoded) in
  mkReplay events oldest held (maxCount r) (maxBytes r).

(** [replay.after]: the events the client has not seen, or a refusal. *)
Definition after (afterSequence next : Z) (r : replay) : option (list string) :=
  if (afterSequence <? -1)%Z || (next <=? afterSequence)%Z then None
  else if (afterSequence + 1 =? next)%Z then Some []
  else if match buffered r with [] => true | _ => false end || (afterSequence + 1 <? first r)%Z then None
  else Some (drop (Z.to_nat (afterSequence + 1 - first r)) (buffered r)).

(** ** The log it stands for *)

Definition size (l : list string) : Z := foldr (fun e n => len e + n)%Z 0%Z l.

(** The bounds a buffer keeps: one event may be over them. *)
Definition fits (count limit : Z) (l : list string) : bool :=
  (event_count l <=? 1)%Z || (event_count l <=? count)%Z && (size l <=? limit)%Z.

(** [r] holds the longest suffix of [log] that fits, and knows where it
    starts. *)
Record represents (log : list string) (r : replay) : Prop := {
  rp_suffix : buffered r = drop (length log - length (buffered r)) log;
  rp_length : (length (buffered r) <= length log)%nat;
  rp_first : log <> [] -> first r = Z.of_nat (length log - length (buffered r));
  rp_bytes : bytes r = size (buffered r);
  rp_fits : fits (maxCount r) (maxBytes r) (buffered r) = true;
  rp_longest : forall k, (length (buffered r) < k <= length log)%nat ->
    fits (maxCount r) (maxBytes r) (drop (length log - k) log) = false;
  rp_nonempty : log <> [] -> buffered r <> [];
}.

Lemma size_app l l' : size (l ++ l') = (size l + size l')%Z.
Proof. induction l as [|e l IH]; cbn; [done|]. unfold size in *. lia. Qed.

Lemma size_nonneg l : (0 <= size l)%Z.
Proof. induction l as [|e l IH]; cbn; [done|]. pose proof (len_nonneg e). unfold size in *. lia. Qed.

Lemma over_fits count limit l : over count limit l (size l) = negb (fits count limit l).
Proof.
  unfold over, fits. rewrite negb_orb, negb_andb, <-!Z.ltb_antisym. done.
Qed.

(** What does not fit still does not fit with more before or after it. *)
Lemma fits_mono count limit l1 l l2 : fits count limit l = false -> fits count limit (l1 ++ l ++ l2) = false.
Proof.
  unfold fits, event_count. rewrite !orb_false_iff, !andb_false_iff, !Z.leb_gt, !length_app, !size_app.
  pose proof (size_nonneg l1). pose proof (size_nonneg l2). lia.
Qed.

(** The loop keeps the longest suffix that fits. *)
Lemma forget_spec count limit events oldest held :
  held = size events -> events <> [] ->
  let '(kept, oldest', held') := forget count limit events oldest held in
  (length kept <= length events)%nat /\ kept = drop (length events - length kept) events /\
  oldest' = (oldest + Z.of_nat (length events - length kept))%Z /\ held' = size kept /\ kept <> [] /\
  fits count limit kept = true /\
  forall k, (length kept < k <= length events)%nat -> fits count limit (drop (length events - k) events) = false.
Proof.
  intros ->. revert oldest. induction events as [|e events IH]; intros oldest Hne; [done|]. cbn [forget].
  rewrite over_fits. destruct (fits count limit (e :: events)) eqn:Ef; cbn [negb].
  - split_and!; try done; [by rewrite Nat.sub_diag|lia|lia].
  - assert (events <> []) as Hne' by (intros ->; discriminate Ef).
    replace (size (e :: events) - len e)%Z with (size events) by (cbn; unfold size; lia).
    specialize (IH (oldest + 1)%Z Hne'). destruct (forget _ _ _ _ _) as [[kept oldest'] held'].
    destruct IH as (Hl & Hk & Ho & Hh & Hkne & Hf & Hlong). cbn [length].
    split_and!; try done; [lia| |lia|].
    + rewrite Hk at 1. by replace (S (length events) - length kept)%nat with (S (length events - length kept)) by lia.
    + intros k Hk'. destruct (decide (k = S (length events))) as [->|]; [by rewrite Nat.sub_diag|].
      replace (S (length events) - k)%nat with (S (length events - k)) by lia. cbn. apply Hlong. lia.
Qed.

Lemma newReplay_represents count limit : represents [] (newReplay count limit).
Proof. constructor; cbn; try done; lia. Qed.

Lemma drop_snoc_le {A} n (l : list A) x : (n <= length l)%nat -> drop n (l ++ [x]) = drop n l ++ [x].
Proof. intros H. by rewrite drop_app_le. Qed.

Lemma push_represents log e r :
  represents log r -> represents (log ++ [e]) (push (Z.of_nat (length log)) e r).
Proof.
  intros [Hs Hl Hf Hb Hfit Hlong Hne]. unfold push.
  pose proof (forget_spec (maxCount r) (maxBytes r) (buffered r ++ [e])
    (match buffered r with [] => Z.of_nat (length log) | _ => first r end) (bytes r + len e)) as Hg.
  destruct (forget _ _ _ _ _) as [[kept oldest] held]. destruct Hg as (Hkl & Hk & Ho & Hh & Hkne & Hkf & Hklong).
  { rewrite size_app, Hb. cbn. lia. }
  { by destruct (buffered r). }
  rewrite length_app in *. cbn [length] in *.
  assert (forall k, (k <= length (buffered r) + 1)%nat ->
    drop (length (buffered r) + 1 - k) (buffered r ++ [e]) = drop (length log + 1 - k) (log ++ [e])) as Hdrop.
  { intros k Hk'. destruct k as [|k].
    - rewrite !Nat.sub_0_r, !drop_ge by (rewrite length_app; cbn; lia). done.
    - replace (length (buffered r) + 1 - S k)%nat with (length (buffered r) - k)%nat by lia.
      replace (length log + 1 - S k)%nat with (length log - k)%nat by lia.
      rewrite (drop_snoc_le _ (buffered r)), (drop_snoc_le _ log) by lia. f_equal. rewrite Hs at 2. rewrite drop_drop.
      f_equal. lia. }
  constructor; cbn [buffered first bytes maxCount maxBytes]; rewrite ?length_app; cbn [length]; try done.
  - rewrite <-Hdrop by lia. done.
  - lia.
  - intros _. rewrite Ho. destruct (buffered r) as [|x l] eqn:Eb; cbn [length] in *; [|rewrite Hf; [lia|]].
    + destruct log; [cbn; lia|]. by destruct (Hne ltac:(done)).
    + intros ->. cbn in Hl. lia.
  - intros k Hk'. destruct (decide (k <= length (buffered r) + 1)%nat) as [Hle|Hgt].
    + rewrite <-Hdrop by done. apply Hklong. lia.
    + destruct k as [|k]; [lia|]. replace (length log + 1 - S k)%nat with (length log - k)%nat by lia.
      rewrite drop_snoc_le by lia. apply (fits_mono _ _ [] _ [e]), Hlong. lia.
Qed.

(** What [after] answers, against the log. *)
Lemma after_spec log r a l :
  represents log r ->
  after a (Z.of_nat (length log)) r = Some l <->
  (-1 <= a < Z.of_nat (length log))%Z /\
  (Z.of_nat (length log - length (buffered r)) <= a + 1)%Z /\ l = drop (Z.to_nat (a + 1)) log.
Proof.
  intros [Hs Hl Hf Hb Hfit Hlong Hne]. unfold after.
  destruct (_ || _) eqn:E1; [apply orb_true_iff in E1; rewrite Z.ltb_lt, Z.leb_le in E1; split; [done|lia]|]. bool_cases.
  destruct (a + 1 =? Z.of_nat (length log))%Z eqn:E2; bool_cases.
  { rewrite drop_ge by lia. split; [intros [= <-]; split_and!; (lia || done)|by intros (_ & _ & ->)]. }
  assert (log <> []) as Hnil by (intros ->; cbn in *; lia). specialize (Hne Hnil). rewrite Hf by done.
  destruct (buffered r) as [|x b] eqn:Eb; [done|]. cbn [orb]. rewrite <-Eb in *.
  destruct (a + 1 <? _)%Z eqn:E3; bool_cases; [split; [done|lia]|].
  rewrite Hs at 2. rewrite drop_drop. replace (length log - length (buffered r) + _)%nat with (Z.to_nat (a + 1)) by lia.
  split; [intros [= <-]; split_and!; (lia || done)|by intros (_ & _ & ->)].
Qed.

(** C22. The replay buffer stands for the whole log.  After any sequence of
    events, numbered as they come: a resume that names a sequence of the log is
    answered with exactly the later events, in order, whenever they are still
    buffered, and is refused when one of them was forgotten or the sequence was
    never assigned; nothing is guessed.  The buffer is the longest suffix of the
    log within both bounds, and the last event is always in it. *)
Theorem replay_refines_the_log count limit log :
  let r := foldl (fun r ie => push (Z.of_nat ie.1) ie.2 r) (newReplay count limit) (zip (seq 0 (length log)) log) in
  represents log r /\
  forall a l, after a (Z.of_nat (length log)) r = Some l <->
    (-1 <= a < Z.of_nat (length log))%Z /\
    (Z.of_nat (length log - length (buffered r)) <= a + 1)%Z /\ l = drop (Z.to_nat (a + 1)) log.
Proof.
  intros r. enough (represents log r) as Hr by (split; [done|]; intros; by apply after_spec).
  subst r. induction log as [|e log IH] using rev_ind; [apply newReplay_represents|].
  rewrite length_app, Nat.add_comm. cbn [length Nat.add]. rewrite seq_S, zip_with_app by by rewrite length_seq.
  rewrite foldl_app. apply push_represents, IH.
Qed.
