(* ===== verification/Realtime.v ===== *)
(** * A realtime session (internal/realtime/session.go)

    One goroutine owns a session, so the session is a state machine: each step
    takes one frame of the client, one event of the provider session, one
    resume, a timer or a shutdown, and runs to its end.  A [Moment] is what the
    world decides during a step.  The trace records what the session did to the
    outside: the events it numbered, the frames each connection was delivered,
    the commands it applied upstream, the settlement.

    The JSON codecs are arguments of the model: what encodes an event or a
    report, what a frame parses into. *)

From S2P Require Import Prelude Ids Text CustomerLimit Contract Request Provider KeyPool ProviderCost.
From S2P Require Import Adapter Inventory Retry Settle PublicContract RealtimeContract SessionOpen Replay.

(** ** State *)

(** The header the session stamps on an event. *)
Record EventHeader := mkEventHeader {
  h_SchemaVersion : Z;
  h_RequestID : string;
  h_Sequence : Z;
  h_CommandID : option string;
}.

(** What a session does to the outside. *)
Inductive Act :=
| Emitted (header : EventHeader) (event : RealtimeServerEvent) (encoded : string)
| Connected (conn : nat) (from : nat)      (* the first sequence it is sent *)
| Delivered (conn : nat) (frame : string)
| Closing (conn : nat) (code : Z)
| Applied (command : RealtimeCommand) (failure : option GoError)
| UpstreamClosed
| Settled (ending : SessionEnd) (settlement : SessionSettlement)
| HandedOver (settlement : SessionSettlement)   (* settlePublic *)
| Replied (attached : bool).

(** A timer is armed with a duration, or stopped. *)
Record session := mkSession_ {
  sequence : Z;
  s_replay : replay;
  seen : gset string;
  attached : option nat;
  units : gmap string Z;
  inputBytes : Z;
  outputBytes : Z;
  responses : Z;
  firstOutputAt : Instant;
  idle : option Duration;
  expiry : option Duration;
  resumeTimer : option Duration;
  closed : bool;
  connections : nat;
  writes : nat;
  trace : list Act;
}.

(** What the world decides during one step. *)
Record Moment := mkMoment {
  m_now : Instant;
  m_Send : RealtimeCommand -> option GoError;
  m_Measured : option (list UsageQuantity);   (* of a provider billed by measurement *)
  m_ctx_done : bool;
  m_shutdown : bool;
  m_measuredAt : Instant;
  m_latency : Duration;
}.

(** One case of the run loop's select. *)
Inductive Input :=
| InFrame (conn : nat) (text : bool) (data : string)
| InEnded (conn : nat)
| UpEvent (event : option RealtimeServerEvent) (commandID : option string) (reported : list UsageQuantity)
| UpEnded (err : GoError)
| Attach (commandID : string) (afterSequence : Z)
| IdleFired
| ExpiryFired
| ResumeFired
| Shutdown.

Definition StatusNormalClosure : Z := 1000.
Definition StatusGoingAway : Z := 1001.
Definition StatusUnsupportedData : Z := 1003.

Definition ErrRealtimeUpstreamClosed := Sentinel "provider: the upstream ended the realtime session".

(** ** Pure parts *)

(** [commandInputAudio]. *)
Definition commandInputAudio (command : RealtimeCommand) : Z :=
  match command with
  | CmdInputAudioAppend _ data => DecodedRealtimeAudioBytes data
  | CmdItemCreate _ _ item =>
      foldl (fun total part =>
        if cp_Type part =s RealtimeInputAudioPart
        then match cp_Data part with Some data => (total + DecodedRealtimeAudioBytes data)%Z | None => total end
        else total) 0%Z (default [] (item_Content item))
  | _ => 0%Z
  end.

(** [upstreamError]. *)
Definition upstreamError (requestID slug : string) (err : GoError) : Error :=
  match AsUpstream err with
  | Some upstream => ContractError requestID upstream
  | None =>
      if Is err "context deadline exceeded"
      then WithUpstream UpstreamTimeout None (NewError requestID CodeProviderTimeout)
      else WithUpstream UpstreamUnknown (Some (mkPassthrough slug None None)) (NewError requestID CodeProviderError)
  end.

(** [reportOutcome]. *)
Definition reportOutcome (reason : string) (measured opened : bool) : string :=
  if negb opened then OutcomeFailed
  else if reason =s RealtimeUpstreamError then (if measured then OutcomePartial else OutcomeFailed)
  else if (reason =s RealtimeResumeExpired) || negb measured then OutcomeCancelled
  else OutcomeCompleted.

(** [s.units[quantity.Unit] += quantity.Quantity]. *)
Definition add_units (reported : list UsageQuantity) (units : gmap string Z) : gmap string Z :=
  foldl (fun units q => <[Unit q := wrap64 (default 0%Z (units !! Unit q) + Quantity q)]> units) units reported.

(** [totals]. *)
Definition totals (units : gmap string Z) : list UsageQuantity :=
  sort_by Unit (map (fun kv => mkQuantity kv.1 kv.2) (map_to_list units)).

Definition isResponseCreate (c : RealtimeCommand) : bool := match c with CmdResponseCreate _ _ => true | _ => false end.

Definition act (a : Act) (s : session) : session :=
  mkSession_ (sequence s) (s_replay s) (seen s) (attached s) (units s) (inputBytes s) (outputBytes s)
    (responses s) (firstOutputAt s) (idle s) (expiry s) (resumeTimer s) (closed s) (connections s) (writes s)
    (trace s ++ [a]).
Definition set_attached (c : option nat) (s : session) : session :=
  mkSession_ (sequence s) (s_replay s) (seen s) c (units s) (inputBytes s) (outputBytes s) (responses s)
    (firstOutputAt s) (idle s) (expiry s) (resumeTimer s) (closed s) (connections s) (writes s) (trace s).
Definition set_resumeTimer (t : option Duration) (s : session) : session :=
  mkSession_ (sequence s) (s_replay s) (seen s) (attached s) (units s) (inputBytes s) (outputBytes s)
    (responses s) (firstOutputAt s) (idle s) (expiry s) t (closed s) (connections s) (writes s) (trace s).
Definition set_idle (t : option Duration) (s : session) : session :=
  mkSession_ (sequence s) (s_replay s) (seen s) (attached s) (units s) (inputBytes s) (outputBytes s)
    (responses s) (firstOutputAt s) t (expiry s) (resumeTimer s) (closed s) (connections s) (writes s) (trace s).
Definition set_expiry (t : option Duration) (s : session) : session :=
  mkSession_ (sequence s) (s_replay s) (seen s) (attached s) (units s) (inputBytes s) (outputBytes s)
    (responses s) (firstOutputAt s) (idle s) t (resumeTimer s) (closed s) (connections s) (writes s) (trace s).
Definition set_seen (ids : gset string) (s : session) : session :=
  mkSession_ (sequence s) (s_replay s) ids (attached s) (units s) (inputBytes s) (outputBytes s) (responses s)
    (firstOutputAt s) (idle s) (expiry s) (resumeTimer s) (closed s) (connections s) (writes s) (trace s).
Definition set_units (u : gmap string Z) (s : session) : session :=
  mkSession_ (sequence s) (s_replay s) (seen s) (attached s) u (inputBytes s) (outputBytes s) (responses s)
    (firstOutputAt s) (idle s) (expiry s) (resumeTimer s) (closed s) (connections s) (writes s) (trace s).
Definition set_inputBytes (n : Z) (s : session) : session :=
  mkSession_ (sequence s) (s_replay s) (seen s) (attached s) (units s) n (outputBytes s) (responses s)
    (firstOutputAt s) (idle s) (expiry s) (resumeTimer s) (closed s) (connections s) (writes s) (trace s).
Definition set_outputBytes (n : Z) (s : session) : session :=
  mkSession_ (sequence s) (s_replay s) (seen s) (attached s) (units s) (inputBytes s) n (responses s)
    (firstOutputAt s) (idle s) (expiry s) (resumeTimer s) (closed s) (connections s) (writes s) (trace s).
Definition set_responses (n : Z) (s : session) : session :=
  mkSession_ (sequence s) (s_replay s) (seen s) (attached s) (units s) (inputBytes s) (outputBytes s) n
    (firstOutputAt s) (idle s) (expiry s) (resumeTimer s) (closed s) (connections s) (writes s) (trace s).
Definition set_firstOutputAt (t : Instant) (s : session) : session :=
  mkSession_ (sequence s) (s_replay s) (seen s) (attached s) (units s) (inputBytes s) (outputBytes s)
    (responses s) t (idle s) (expiry s) (resumeTimer s) (closed s) (connections s) (writes s) (trace s).
Definition set_closed (s : session) : session :=
  mkSession_ (sequence s) (s_replay s) (seen s) (attached s) (units s) (inputBytes s) (outputBytes s)
    (responses s) (firstOutputAt s) None None None true (connections s) (writes s) (trace s).
Definition count_write (s : session) : session :=
  mkSession_ (sequence s) (s_replay s) (seen s) (attached s) (units s) (inputBytes s) (outputBytes s)
    (responses s) (firstOutputAt s) (idle s) (expiry s) (resumeTimer s) (closed s) (connections s) (S (writes s))
    (trace s).
Definition record_event (encoded : string) (s : session) : session :=
  mkSession_ (sequence s + 1)%Z (push (sequence s) encoded (s_replay s)) (seen s) (attached s) (units s)
    (inputBytes s) (outputBytes s) (responses s) (firstOutputAt s) (idle s) (expiry s) (resumeTimer s) (closed s)
    (connections s) (writes s) (trace s).
Definition count_connection (s : session) : session :=
  mkSession_ (sequence s) (s_replay s) (seen s) (attached s) (units s) (inputBytes s) (outputBytes s)
    (responses s) (firstOutputAt s) (idle s) (expiry s) (resumeTimer s) (closed s) (S (connections s)) (writes s)
    (trace s).

(** ** The session *)

(** What a session is run with: its request, what opening it came to, the
    manager's settings, the executor's prices, and the codecs.
    [ss_delivers n] is whether the n-th write of the session completes. *)
Record Setting := mkSetting {
  ss_request : RealtimeSessionRequest;
  ss_public : bool;
  ss_opening : SessionOpening;
  ss_resumeWindow : Duration;
  ss_replayEvents : Z;
  ss_replayBytes : Z;
  ss_costs : option Cards;
  ss_recorder : option (Record_ -> RecordResult);
  ss_encode : EventHeader -> RealtimeServerEvent -> option string;
  ss_encode_report : UsageReport -> option string;
  ss_parse_command : string -> option RealtimeCommand;
  ss_probe_commandID : string -> option string;
  ss_delivers : nat -> bool;
}.

Section Session.
Variable cfg : Setting.

Local Notation request := (ss_request cfg).
Local Notation public := (ss_public cfg).
Local Notation opening := (ss_opening cfg).
Local Notation requestID := (ses_RequestID request).
Local Notation limits := (Limits request).

(** [s.opening.Route] *)
Definition session_Route : Route := default no_route (opening_Route opening).

(** [newSession] *)
Definition newSession : session :=
  mkSession_ 0 (newReplay (ss_replayEvents cfg) (ss_replayBytes cfg)) ∅ None ∅ 0 0 0 0 None None None false 0 0 [].

(** [detach] *)
Definition detach (conn : nat) (code : Z) (s : session) : session :=
  if negb (bool_decide (attached s = Some conn)) then s
  else
    let s := act (Closing conn code) (set_attached None s) in
    if closed s then s else set_resumeTimer (Some (ss_resumeWindow cfg)) s.

(** [write] *)
Definition write (encoded : string) (s : session) : session :=
  match attached s with
  | None => s
  | Some conn =>
      if ss_delivers cfg (writes s) then act (Delivered conn encoded) (count_write s)
      else detach conn StatusGoingAway (count_write s)
  end.

(** [emit] *)
Definition emit (event : RealtimeServerEvent) (commandID : option string) (s : session) : session :=
  let event := if public then PublicRealtimeEvent event else event in
  let header := mkEventHeader RealtimeSchemaVersion requestID (sequence s) commandID in
  match ss_encode cfg header event with
  | None => s
  | Some encoded => write encoded (act (Emitted header event encoded) (record_event encoded s))
  end.

(** [connect]; [from] is the first sequence the connection is to be sent. *)
Definition connect (from : nat) (s : session) : session :=
  let conn := connections s in
  act (Connected conn from) (set_resumeTimer None (set_attached (Some conn) (count_connection s))).

(** The end a finished session settles with. *)
Definition end_of (w : Moment) (reason : string) (failure : option Error) (source : string) (s : session) : SessionEnd :=
  let measured := totals (units s) in
  let '(result, code) :=
    if reason =s RealtimeUpstreamError
    then (AttemptFailed, match failure with Some f => err_Code f | None => CodeProviderError end)
    else if (reason =s RealtimeResumeExpired) || (reason =s RealtimeClosedByClient) && present failure
    then (AttemptCancelled, "") else (AttemptSucceeded, "") in
  mkEnd (m_now w) measured source (firstOutputAt s) result code
    (reportOutcome reason (negb (is_nil measured)) (opened opening)).

(** [finish] *)
Definition finish (w : Moment) (reason : string) (failure : option Error) (commandID : option string) (code : Z)
    (s : session) : session :=
  if closed s then s
  else
    let s := set_closed s in
    let s := match failure with Some failure => emit (EvError true failure) commandID s | None => s end in
    let metered := if opened opening then m_Measured w else None in
    let s := match metered with Some measured => set_units (add_units measured (units s)) s | None => s end in
    let source := if present metered then UsageOxyMeasured else UsageProviderReported in
    let s :=
      emit (EvSessionClosed reason (if opened opening then Some (r_DeploymentID session_Route) else None)
              (if opened opening then totals (units s) else []) source (NewTimestamp (m_now w))) None s in
    let s := if opened opening then act UpstreamClosed s else s in
    let ending := end_of w reason failure source s in
    let settlement := SettleSession (ss_costs cfg) (m_measuredAt w) (ss_recorder cfg) public (m_latency w) opening ending in
    let s := act (Settled ending settlement) s in
    let s := if public then act (HandedOver settlement) s else s in
    let s :=
      match attached s, settlement_Report settlement with
      | Some _, Some report =>
          if negb public then match ss_encode_report cfg report with Some encoded => write encoded s | None => s end else s
      | _, _ => s
      end in
    match attached s with
    | Some conn => act (Closing conn code) (set_attached None s)
    | None => s
    end.

(** [commandIDOf] *)
Definition commandIDOf (data : string) : option string :=
  id ← ss_probe_commandID cfg data;
  if (id =s "") || (128 <? len id)%Z then None else Some id.

(** The command itself, past every check: acknowledged, then applied. *)
Definition apply_command (w : Moment) (command : RealtimeCommand) (s : session) : session :=
  let commandID := command_CommandID command in
  let s := set_seen ({[commandID]} ∪ seen s) s in
  let s := emit (EvCommandAccepted false) (Some commandID) s in
  match command with
  | CmdSessionClose _ => finish w RealtimeClosedByClient None None StatusNormalClosure s
  | _ =>
      let s := act (Applied command (m_Send w command)) s in
      match m_Send w command with
      | Some err =>
          match AsUnsupported err with
          | Some (code, param) =>
              let refusal := NewError requestID code in
              emit (EvError false (if param =s "" then refusal else WithParam param refusal)) (Some commandID) s
          | None =>
              finish w RealtimeUpstreamError (Some (upstreamError requestID (r_Provider session_Route) err)) (Some commandID)
                StatusNormalClosure s
          end
      | None => set_inputBytes (inputBytes s + commandInputAudio command) s
      end
  end.

(** Whether the signed-envelope lane refuses a command of this session. *)
Definition refuses_transcription (command : RealtimeCommand) : bool :=
  match command with
  | CmdSessionUpdate _ config => present (up_InputAudioTranscription config) && negb public
  | _ => false
  end.

Definition isResume (command : RealtimeCommand) : bool := match command with CmdSessionResume _ _ => true | _ => false end.

(** [receive], a frame *)
Definition receive (w : Moment) (conn : nat) (text : bool) (data : string) (s : session) : session :=
  if negb (bool_decide (attached s = Some conn)) then s
  else if negb text then
    finish w RealtimeClosedByClient (Some (NewError requestID CodeInvalidRequest)) None StatusUnsupportedData s
  else
    match DecodeRealtimeCommand (ss_parse_command cfg data) requestID with
    | None => emit (EvError false (NewError requestID CodeInvalidRequest)) (commandIDOf data) s
    | Some command =>
        let s := set_idle (Some (IdleTimeoutMs limits * Millisecond)%Z) s in
        let commandID := command_CommandID command in
        if isResume command then emit (EvError false (NewError requestID CodeInvalidRequest)) (Some commandID) s
        else if refuses_transcription command
        then emit (EvError false (EnvelopeInputTranscriptionRefused requestID)) (Some commandID) s
        else if bool_decide (commandID ∈ seen s) then emit (EvCommandAccepted true) (Some commandID) s
        else if (MaxInputAudioBytes limits <? inputBytes s + commandInputAudio command)%Z
        then finish w RealtimeLimitExceeded (Some (NewError requestID CodeRequestTooLarge)) (Some commandID)
               StatusNormalClosure s
        else if isResponseCreate command && (MaxResponses limits <=? responses s)%Z
        then finish w RealtimeLimitExceeded (Some (NewError requestID CodeOutputLimitExceeded)) (Some commandID)
               StatusNormalClosure s
        else apply_command w command s
    end.

(** [markOutput] *)
Definition markOutput (w : Moment) (s : session) : session :=
  if IsZero (firstOutputAt s) then set_firstOutputAt (m_now w) s else s.

(** The fields an upstream event adds to, or the ceiling it would pass. *)
Definition count_event (w : Moment) (event : RealtimeServerEvent) (s : session) : option session :=
  match event with
  | EvResponseCreated _ =>
      if (MaxResponses limits <=? responses s)%Z then None else Some (set_responses (responses s + 1) s)
  | EvOutputAudioDelta _ _ _ _ data =>
      let decoded := DecodedRealtimeAudioBytes data in
      if (MaxOutputAudioBytes limits <? outputBytes s + decoded)%Z then None
      else Some (markOutput w (set_outputBytes (outputBytes s + decoded) s))
  | EvTextDelta _ _ _ _ | EvTranscriptDelta _ _ _ _ _ | EvTranscriptInterim _ _ _ _ | EvToolCall _ _ _ _ _ _ =>
      Some (markOutput w s)
  | _ => Some s
  end.

Definition name_deployment (event : RealtimeServerEvent) : RealtimeServerEvent :=
  match event with
  | EvResponseDone responseID status finishReason _ reported source =>
      EvResponseDone responseID status finishReason (r_DeploymentID session_Route) reported source
  | _ => event
  end.

(** [upstream], an event *)
Definition upstream_event (w : Moment) (event : option RealtimeServerEvent) (commandID : option string)
    (reported : list UsageQuantity) (s : session) : session :=
  let s := set_units (add_units reported (units s)) s in
  match event with
  | None => s
  | Some event =>
      match count_event w event s with
      | None =>
          finish w RealtimeLimitExceeded (Some (NewError requestID CodeOutputLimitExceeded)) None StatusNormalClosure s
      | Some s => emit (name_deployment event) commandID s
      end
  end.

(** [upstream], the end *)
Definition upstream_end (w : Moment) (err : GoError) (s : session) : session :=
  if Is err "provider: the upstream ended the realtime session"
  then finish w RealtimeUpstreamClosed None None StatusNormalClosure s
  else if m_ctx_done w then finish w RealtimeServerShutdown None None StatusNormalClosure s
  else finish w RealtimeUpstreamError (Some (upstreamError requestID (r_Provider session_Route) err)) None StatusNormalClosure s.

(** [resume] *)
Definition resume (commandID : string) (afterSequence : Z) (s : session) : session :=
  if closed s then act (Replied false) s
  else
    match after afterSequence (sequence s) (s_replay s) with
    | None => act (Replied false) s
    | Some missed =>
        let s := match attached s with Some conn => detach conn StatusGoingAway s | None => s end in
        let s := connect (Z.to_nat (afterSequence + 1)) s in
        let s := foldl (fun s encoded => write encoded s) s missed in
        act (Replied true) (emit (EvSessionResumed afterSequence) (Some commandID) s)
    end.

(** One case of the select; a timer fires only while it is armed. *)
Definition step (w : Moment) (i : Input) (s : session) : session :=
  match i with
  | InFrame conn text data => receive w conn text data s
  | InEnded conn => detach conn StatusGoingAway s
  | UpEvent event commandID reported => upstream_event w event commandID reported s
  | UpEnded err => upstream_end w err s
  | Attach commandID afterSequence => resume commandID afterSequence s
  | IdleFired => if present (idle s) then finish w RealtimeIdleTimeout None None StatusNormalClosure s else s
  | ExpiryFired => if present (expiry s) then finish w RealtimeMaxDuration None None StatusNormalClosure s else s
  | ResumeFired => if present (resumeTimer s) then finish w RealtimeResumeExpired None None StatusNormalClosure s else s
  | Shutdown => finish w RealtimeServerShutdown None None StatusNormalClosure s
  end.

(** [run], up to the loop *)
Definition start (w : Moment) (s : session) : session :=
  let s := connect 0 s in
  if negb (opened opening) then
    finish w (if m_shutdown w || m_ctx_done w then RealtimeServerShutdown else RealtimeNoRouteAvailable)
      (opening_Failure opening) None StatusNormalClosure s
  else
    let s :=
      emit (EvSessionCreated (r_ModelReference session_Route) (r_Provider session_Route) (r_DeploymentID session_Route) (Kind_ request)
              (ses_Config request) limits (Milliseconds (ss_resumeWindow cfg)) (NewTimestamp (m_now w))
              (NewTimestamp (Add (m_now w) (MaxDurationMs limits * Millisecond)))) None s in
    set_idle (Some (IdleTimeoutMs limits * Millisecond)%Z) (set_expiry (Some (MaxDurationMs limits * Millisecond)%Z) s).

(** [run]: the loop takes whatever comes until the session is closed. *)
Definition run_loop (inputs : list (Moment * Input)) (s : session) : session :=
  foldl (fun s wi => if closed s then s else step wi.1 wi.2 s) s inputs.

Definition run (w : Moment) (inputs : list (Moment * Input)) : session :=
  run_loop inputs (start w newSession).

End Session.

(** ** An example: a frame of audio, a reconnection, and the client's close *)

Definition example_header (id : string) : CommandHeader := mkCommandHeader 1 "req" id.
Definition example_command (data : string) : option RealtimeCommand :=
  if data =s "append" then Some (CmdInputAudioAppend (example_header "c1") "aGVsbG8=")
  else if data =s "close" then Some (CmdSessionClose (example_header "c2")) else None.
Definition example_setting : Setting :=
  mkSetting example_session true (opening example_opening) (30 * Second) 8192 1048576 None None
    (fun h _ => Some ("event " +:+ Itoa (h_Sequence h))) (fun _ => Some "report") example_command (fun _ => None) (fun _ => true).
Definition example_moment : Moment := mkMoment 3000 (fun _ => None) None false false 6000 3000.
Definition example_heard : Input :=
  UpEvent (Some (EvTranscriptDone "input_audio" "i" 0 None "hello")) None [mkQuantity UnitAudioInputMilliseconds 7].
Definition example_inputs : list (Moment * Input) :=
  pair example_moment <$> [InFrame 0 true "append"; InFrame 0 true "append"; example_heard; InEnded 0; Attach "c3" 1].
Definition example_ended : list (Moment * Input) := example_inputs ++ [(example_moment, InFrame 1 true "close")].
