(* ===== verification/RealtimeLog.v ===== *)
(** * What a realtime session tells its client (internal/realtime/session.go)

    Every step of a session, reduced once to the few things it can do
    ([step_branches]); on it, the event log: how it is numbered, how it ends,
    what the replay buffer holds of it, and what each connection was delivered
    of it. *)

From S2P Require Import Prelude Ids Text CustomerLimit Contract Request Provider KeyPool ProviderCost.
From S2P Require Import Adapter Inventory Retry Settle PublicContract RealtimeContract SessionOpen Replay Realtime.

(** ** Readings of the trace *)

Definition emitted_of (a : Act) : option (EventHeader * RealtimeServerEvent * string) :=
  match a with Emitted h e enc => Some (h, e, enc) | _ => None end.
Definition started_of (a : Act) : option (nat * nat) := match a with Connected c from => Some (c, from) | _ => None end.
Definition frame_for (c : nat) (a : Act) : option string :=
  match a with Delivered c' frame => if decide (c' = c) then Some frame else None | _ => None end.
Definition settled_of (a : Act) : option (SessionEnd * SessionSettlement) :=
  match a with Settled e st => Some (e, st) | _ => None end.
Definition handed_of (a : Act) : option SessionSettlement := match a with HandedOver st => Some st | _ => None end.
Definition upstream_closed_of (a : Act) : option unit := match a with UpstreamClosed => Some tt | _ => None end.
Definition applied_of (a : Act) : option (RealtimeCommand * option GoError) :=
  match a with Applied c f => Some (c, f) | _ => None end.

Definition log (s : session) : list (EventHeader * RealtimeServerEvent * string) := omap emitted_of (trace s).
Definition frames (s : session) : list string := snd <$> log s.
Definition told (s : session) : list RealtimeServerEvent := (fun x => x.1.2) <$> log s.
Definition starts (s : session) : list (nat * nat) := omap started_of (trace s).
Definition delivered (c : nat) (s : session) : list string := omap (frame_for c) (trace s).
Definition settlements (s : session) : list (SessionEnd * SessionSettlement) := omap settled_of (trace s).
Definition applied (s : session) : list (RealtimeCommand * option GoError) := omap applied_of (trace s).

(** An event only a session itself tells: an adapter decides no terminality and
    acknowledges nothing (provider.RealtimeAdapter). *)
Definition session_event (e : RealtimeServerEvent) : bool :=
  match e with
  | EvSessionCreated _ _ _ _ _ _ _ _ _ | EvSessionResumed _ | EvCommandAccepted _ | EvSessionClosed _ _ _ _ _
  | EvPublicSessionCreated _ _ _ _ _ _ _ | EvPublicResponseDone _ _ _ _ _ | EvPublicError _ _
  | EvPublicSessionClosed _ _ _ _ => true
  | _ => false
  end.

Definition closing_event (e : RealtimeServerEvent) : bool :=
  match e with EvSessionClosed _ _ _ _ _ | EvPublicSessionClosed _ _ _ _ => true | _ => false end.

Definition input_honest (i : Input) : Prop :=
  match i with UpEvent (Some e) _ _ => session_event e = false | _ => True end.

(** ** Every step *)

Section Steps.
Variable cfg : Setting.
Local Notation request := (ss_request cfg).
Local Notation limits := (Limits (ss_request cfg)).
Local Notation requestID := (ses_RequestID (ss_request cfg)).

(** A state a frame reaches before it does anything: the idle timer alone may
    have been restarted. *)
Definition touched (s s' : session) : Prop :=
  s' = s \/ s' = set_idle (Some (IdleTimeoutMs limits * Millisecond)%Z) s.

(** The events that refuse or repeat, and change nothing. *)
Definition rebuff (e : RealtimeServerEvent) : Prop := (exists f, e = EvError false f) \/ e = EvCommandAccepted true.

(** What an accepted command passed. *)
Record accepted_command (s : session) (c : RealtimeCommand) : Prop := {
  ac_valid : validateRealtimeCommand c requestID = None;
  ac_new : command_CommandID c ∉ seen s;
  ac_audio : (inputBytes s + commandInputAudio c <= MaxInputAudioBytes limits)%Z;
  ac_responses : isResponseCreate c = true -> (responses s < MaxResponses limits)%Z;
}.

Definition acknowledged (c : RealtimeCommand) (s : session) : session :=
  emit cfg (EvCommandAccepted false) (Some (command_CommandID c)) (set_seen ({[command_CommandID c]} ∪ seen s) s).

(** A command, past its checks, goes one of four ways. *)
Lemma apply_branches (P : session -> Prop) w c s :
  let s1 := acknowledged c s in
  let s2 := act (Applied c (m_Send w c)) s1 in
  (forall reason failure cid code, P (finish cfg w reason failure cid code s1)) ->
  (forall reason failure cid code, m_Send w c <> None -> P (finish cfg w reason failure cid code s2)) ->
  (forall f cid, m_Send w c <> None -> P (emit cfg (EvError false f) cid s2)) ->
  (m_Send w c = None -> P (set_inputBytes (inputBytes s1 + commandInputAudio c) s2)) ->
  P (apply_command cfg w c s).
Proof.
  intros s1 s2 Hclose Hfail Hrefuse Hok. unfold apply_command. cbv zeta. fold (acknowledged c s). fold s1. fold s2.
  assert (P (match m_Send w c with
    | Some err => match AsUnsupported err with
        | Some (code, param) =>
            emit cfg (EvError false (if param =s "" then NewError requestID code else WithParam param (NewError requestID code)))
              (Some (command_CommandID c)) s2
        | None => finish cfg w RealtimeUpstreamError
            (Some (upstreamError requestID (r_Provider (session_Route cfg)) err)) (Some (command_CommandID c))
            StatusNormalClosure s2
        end
    | None => set_inputBytes (inputBytes s2 + commandInputAudio c) s2
    end)) as Hsend.
  { destruct (m_Send w c) as [err|]; [|by apply Hok]. destruct (AsUnsupported err) as [[code param]|]; [by apply Hrefuse|by apply Hfail]. }
  destruct c; [exact Hsend..|apply Hclose].
Qed.

Lemma step_branches (P : session -> Prop) w i s :
  P s ->
  (forall c, P (detach cfg c StatusGoingAway s)) ->
  (forall s' e cid, touched s s' -> rebuff e -> P (emit cfg e cid s')) ->
  (forall s' reason failure cid code, touched s s' -> P (finish cfg w reason failure cid code s')) ->
  (forall s' c, touched s s' -> accepted_command s' c -> P (apply_command cfg w c s')) ->
  (forall event cid reported, i = UpEvent event cid reported ->
     let s' := set_units (add_units reported (units s)) s in
     P s' /\ (forall reason failure cid code, P (finish cfg w reason failure cid code s')) /\
     forall e s'', event = Some e -> count_event cfg w e s' = Some s'' -> P (emit cfg (name_deployment cfg e) cid s'')) ->
  (forall cid a, i = Attach cid a -> P (resume cfg cid a s)) ->
  P (step cfg w i s).
Proof.
  intros H0 Hdetach Hrebuff Hfinish Hcommand Hup Hresume.
  assert (touched s s) as Hs by by left.
  destruct i as [conn text data|conn|event cid reported|err|cid a| | | |]; cbn [step].
  - unfold receive. destruct (bool_decide (attached s = Some conn)); cbn [negb]; [|done].
    destruct text; cbn [negb]; [|by apply Hfinish].
    destruct (DecodeRealtimeCommand _ _) as [c|] eqn:Ed; [|apply Hrebuff; [done|left; by eexists]].
    set (s' := set_idle _ s). assert (touched s s') as Hs' by by right.
    destruct (isResume c); [apply Hrebuff; [done|left; by eexists]|].
    destruct (refuses_transcription cfg c); [apply Hrebuff; [done|left; by eexists]|].
    destruct (bool_decide _) eqn:Eseen; [apply Hrebuff; [done|by right]|].
    destruct (_ <? _)%Z eqn:Ea; bool_cases; [by apply Hfinish|].
    destruct (isResponseCreate c && _) eqn:Er; [by apply Hfinish|].
    apply Hcommand; [done|]. unfold DecodeRealtimeCommand in Ed. destruct (ss_parse_command cfg data) as [c'|]; [|done].
    cbn [mbind option_bind] in Ed. destruct (validateRealtimeCommand c' requestID) eqn:Ev; [done|]. injection Ed as <-.
    constructor; [done|by apply bool_decide_eq_false in Eseen|done|].
    intros Hr. rewrite Hr in Er. cbn [andb] in Er. by bool_cases.
  - apply Hdetach.
  - destruct (Hup _ _ _ eq_refl) as (Hu & Hf & He). unfold upstream_event. cbv zeta. destruct event as [e|]; [|done].
    destruct (count_event _ _ _ _) eqn:Ec; [by apply He|apply Hf].
  - unfold upstream_end. repeat case_match; by apply Hfinish.
  - by apply Hresume.
  - destruct (present (idle s)); [by apply Hfinish|done].
  - destruct (present (expiry s)); [by apply Hfinish|done].
  - destruct (present (resumeTimer s)); [by apply Hfinish|done].
  - by apply Hfinish.
Qed.

End Steps.

(** ** What an operation leaves alone, and what it adds to the trace *)

(** The counters of a session, which telling things never changes. *)
Record same_counts (s s' : session) : Prop := {
  sc_closed : closed s' = closed s;
  sc_seen : seen s' = seen s;
  sc_units : units s' = units s;
  sc_input : inputBytes s' = inputBytes s;
  sc_output : outputBytes s' = outputBytes s;
  sc_responses : responses s' = responses s;
  sc_first : firstOutputAt s' = firstOutputAt s;
  sc_connections : connections s' = connections s;
}.

#[export] Instance same_counts_refl : Reflexive same_counts.
Proof. by constructor. Qed.
#[export] Instance same_counts_trans : Transitive same_counts.
Proof. intros s1 s2 s3 [] []. constructor; congruence. Qed.

(** What the signed ceilings are checked against. *)
Definition same_tally (s s' : session) : Prop :=
  seen s' = seen s /\ inputBytes s' = inputBytes s /\ outputBytes s' = outputBytes s /\ responses s' = responses s.

#[export] Instance same_tally_refl : Reflexive same_tally.
Proof. by intros s. Qed.
#[export] Instance same_tally_trans : Transitive same_tally.
Proof. intros s1 s2 s3 (? & ? & ? & ?) (? & ? & ? & ?). split_and!; congruence. Qed.

Lemma same_counts_tally s s' : same_counts s s' -> same_tally s s'.
Proof. by intros []. Qed.

(** Delivering or losing a frame. *)
Definition quiet (a : Act) : Prop :=
  match a with Delivered _ _ | Closing _ _ => True | _ => False end.

Section Operations.
Variable cfg : Setting.

Lemma detach_counts c code s : same_counts s (detach cfg c code s).
Proof. unfold detach. destruct (negb _); [done|]. cbv zeta. cbn [closed act set_attached]. by destruct (closed s). Qed.

Lemma write_counts e s : same_counts s (write cfg e s).
Proof.
  unfold write. destruct (attached s); [|done]. destruct (ss_delivers _ _); [done|]. etransitivity; [|apply detach_counts]. done.
Qed.

Lemma emit_counts e cid s : same_counts s (emit cfg e cid s).
Proof. unfold emit. cbv zeta. destruct (ss_encode _ _ _); [|done]. etransitivity; [|apply write_counts]. done. Qed.

Lemma detach_trace c code s :
  exists tail, trace (detach cfg c code s) = trace s ++ tail /\ Forall quiet tail /\ (length tail <= 1)%nat.
Proof.
  unfold detach. destruct (negb _); [exists []; rewrite app_nil_r; cbn; split_and!; [done|done|lia]|].
  exists [Closing c code]. destruct (closed _); cbn; (split_and!; [done|by repeat constructor|lia]).
Qed.

Lemma write_trace e s :
  exists tail, trace (write cfg e s) = trace s ++ tail /\ Forall quiet tail.
Proof.
  unfold write. destruct (attached s) as [c|]; [|exists []; by rewrite app_nil_r]. destruct (ss_delivers _ _).
  - exists [Delivered c e]. by repeat constructor.
  - destruct (detach_trace c StatusGoingAway (count_write s)) as (tail & H & Hq & _). by exists tail.
Qed.

(** The event as it is told. *)
Definition told_as (e : RealtimeServerEvent) : RealtimeServerEvent := if ss_public cfg then PublicRealtimeEvent e else e.
Definition header_of (cid : option string) (s : session) : EventHeader :=
  mkEventHeader RealtimeSchemaVersion (ses_RequestID (ss_request cfg)) (sequence s) cid.

Lemma emit_trace e cid s :
  (ss_encode cfg (header_of cid s) (told_as e) = None /\ emit cfg e cid s = s) \/
  exists enc tail, ss_encode cfg (header_of cid s) (told_as e) = Some enc /\
    trace (emit cfg e cid s) = trace s ++ Emitted (header_of cid s) (told_as e) enc :: tail /\ Forall quiet tail.
Proof.
  unfold emit. cbv zeta. fold (told_as e). fold (header_of cid s).
  destruct (ss_encode cfg (header_of cid s) (told_as e)) as [enc|]; [right|by left].
  destruct (write_trace enc (act (Emitted (header_of cid s) (told_as e) enc) (record_event enc s))) as (tail & -> & Hq).
  exists enc, tail. cbn. by rewrite <-app_assoc.
Qed.

(** A reading that quiet acts say nothing to. *)
Definition deaf {A} (f : Act -> option A) : Prop := forall a, quiet a -> f a = None.

Lemma omap_quiet {A} (f : Act -> option A) l : deaf f -> Forall quiet l -> omap f l = [].
Proof. intros Hf. induction 1 as [|a l Ha _ IH]; [done|]. cbn. by rewrite Hf, IH. Qed.

Lemma emitted_deaf : deaf emitted_of. Proof. by intros []. Qed.
Lemma started_deaf : deaf started_of. Proof. by intros []. Qed.
Lemma settled_deaf : deaf settled_of. Proof. by intros []. Qed.
Lemma handed_deaf : deaf handed_of. Proof. by intros []. Qed.
Lemma upstream_closed_deaf : deaf upstream_closed_of. Proof. by intros []. Qed.
Lemma applied_deaf : deaf applied_of. Proof. by intros []. Qed.

(** A reading that an emission adds at most its own act to. *)
Lemma omap_emit {A} (f : Act -> option A) e cid s :
  deaf f -> (forall h e' enc, f (Emitted h e' enc) = None) -> omap f (trace (emit cfg e cid s)) = omap f (trace s).
Proof.
  intros Hf He. destruct (emit_trace e cid s) as [[_ ->]|(enc & tail & _ & -> & Hq)]; [done|].
  rewrite omap_app. cbn. by rewrite He, (omap_quiet f tail), app_nil_r.
Qed.

(** The log after an emission. *)
Lemma emit_log e cid s :
  (emit cfg e cid s = s /\ ss_encode cfg (header_of cid s) (told_as e) = None) \/
  exists enc, ss_encode cfg (header_of cid s) (told_as e) = Some enc /\
    log (emit cfg e cid s) = log s ++ [(header_of cid s, told_as e, enc)].
Proof.
  destruct (emit_trace e cid s) as [[? ->]|(enc & tail & ? & Ht & Hq)]; [by left|right]. exists enc. split; [done|].
  unfold log. rewrite Ht, omap_app. cbn. by rewrite (omap_quiet emitted_of tail emitted_deaf Hq).
Qed.

End Operations.

(** ** The log, numbered *)

Section Log.
Variable cfg : Setting.

Record numbered (s : session) : Prop := {
  nm_sequence : sequence s = Z.of_nat (length (log s));
  nm_headers : forall k h e enc, log s !! k = Some (h, e, enc) ->
    h_SchemaVersion h = RealtimeSchemaVersion /\ h_RequestID h = ses_RequestID (ss_request cfg) /\
    h_Sequence h = Z.of_nat k /\ ss_encode cfg h e = Some enc;
  nm_replay : represents (frames s) (s_replay s);
}.

(** How far each connection is: [pending] is what the attached one is still to
    be sent of the log. *)
Record streams (pending : list string) (s : session) : Prop := {
  sr_starts : (starts s).*1 = seq 0 (connections s);
  sr_prefix : forall c from, (c, from) ∈ starts s ->
    (from <= length (frames s))%nat /\ delivered c s `prefix_of` drop from (frames s);
  sr_attached : forall c, attached s = Some c -> exists from, (c, from) ∈ starts s /\ delivered c s ++ pending = drop from (frames s);
  sr_fresh : forall c, (connections s <= c)%nat -> delivered c s = [];
}.

Lemma delivered_act c a s : delivered c (act a s) = delivered c s ++ match frame_for c a with Some f => [f] | None => [] end.
Proof. unfold delivered. cbn. rewrite omap_app. cbn. by destruct (frame_for c a). Qed.

Lemma numbered_ext s s' :
  sequence s' = sequence s -> log s' = log s -> s_replay s' = s_replay s -> numbered s -> numbered s'.
Proof. intros Hs Hl Hr []. constructor; unfold frames in *; rewrite ?Hs, ?Hl, ?Hr; done. Qed.

Lemma streams_ext pending s s' :
  starts s' = starts s -> connections s' = connections s -> frames s' = frames s ->
  (forall c, delivered c s' = delivered c s) -> (attached s' = attached s \/ attached s' = None) ->
  streams pending s -> streams pending s'.
Proof.
  intros Hs Hc Hf Hd Ha []. constructor.
  - by rewrite Hs, Hc.
  - intros c from. rewrite Hs, Hd, Hf. auto.
  - intros c. destruct Ha as [->| ->]; [|done]. rewrite Hs, Hd, Hf. auto.
  - intros c. rewrite Hc, Hd. auto.
Qed.

Lemma detach_numbered c code s : numbered s -> numbered (detach cfg c code s).
Proof.
  unfold detach. destruct (negb _); [done|]. cbv zeta. intros H.
  destruct (closed _); (eapply numbered_ext; [..|exact H]); try done; unfold log; cbn; by rewrite omap_app, app_nil_r.
Qed.

Lemma detach_streams pending c code s : streams pending s -> streams pending (detach cfg c code s).
Proof.
  unfold detach. destruct (negb _); [done|]. cbv zeta. intros H.
  destruct (closed _); (eapply streams_ext; [..|exact H]); try done;
    try (unfold starts, frames, log; cbn; by rewrite omap_app, app_nil_r);
    try (intros c'; cbn; apply delivered_act); try by right.
  all: intros c'; etransitivity; [apply (delivered_act c' (Closing c code) (set_attached None s))|apply app_nil_r].
Qed.

Lemma count_write_numbered s : numbered s -> numbered (count_write s).
Proof. by apply numbered_ext. Qed.

Lemma count_write_streams pending s : streams pending s -> streams pending (count_write s).
Proof. apply streams_ext; try done. by left. Qed.

Lemma write_numbered e s : numbered s -> numbered (write cfg e s).
Proof.
  unfold write. intros H. destruct (attached s); [|done]. destruct (ss_delivers _ _).
  - eapply numbered_ext; [..|exact H]; try done. unfold log; cbn. by rewrite omap_app, app_nil_r.
  - by apply detach_numbered, count_write_numbered.
Qed.

Lemma NoDup_fst_unique {A B} (l : list (A * B)) x y y' : NoDup l.*1 -> (x, y) ∈ l -> (x, y') ∈ l -> y = y'.
Proof.
  intros Hnd [i Hi]%list_elem_of_lookup [j Hj]%list_elem_of_lookup. assert (i = j) as <-; [|congruence].
  eapply NoDup_lookup; [exact Hnd|by rewrite list_lookup_fmap, Hi|by rewrite list_lookup_fmap, Hj].
Qed.

(** A connection that lost a frame is let go: what it has is still the run it
    was promised, cut short. *)
Lemma detach_drops pending pending' c code s :
  attached s = Some c -> streams pending s -> streams pending' (detach cfg c code s).
Proof.
  intros Ha H. apply (detach_streams _ c code) in H as [H1 H2 _ H4]. constructor; try done.
  intros c'. unfold detach. rewrite Ha, bool_decide_eq_true_2 by done. cbn. by destruct (closed s).
Qed.

(** The attached connection is sent the next frame, or let go. *)
Lemma write_streams e pending s : streams (e :: pending) s -> streams pending (write cfg e s).
Proof.
  intros H. unfold write. destruct (attached s) as [c|] eqn:Ea.
  2:{ destruct H. constructor; try done. by intros c; rewrite Ea. }
  destruct (ss_delivers _ _); [|by eapply (detach_drops (e :: pending)); [|apply count_write_streams]].
  destruct (sr_attached _ _ H c Ea) as (from & Hin & Hrun). destruct H as [H1 H2 H3 H4].
  set (s' := act (Delivered c e) (count_write s)).
  assert (starts s' = starts s /\ frames s' = frames s) as [Hst Hfr].
  { unfold starts, frames, log. cbn. by rewrite !omap_app, !app_nil_r. }
  assert (forall c', delivered c' s' = delivered c' s ++ if decide (c = c') then [e] else []) as Hd.
  { intros c'. unfold s'. rewrite delivered_act. cbn. by destruct (decide (c = c')). }
  assert (forall c' from', (c', from') ∈ starts s -> c = c' -> from' = from) as Huniq.
  { intros c' from' Hin' <-. apply (NoDup_fst_unique (starts s) c); [rewrite H1; apply NoDup_seq|done|done]. }
  constructor; rewrite ?Hst, ?Hfr; [done|..].
  - intros c' from' Hin'. destruct (H2 c' from' Hin') as [Hle Hpre]. split; [done|]. rewrite Hd.
    destruct (decide (c = c')) as [<-|]; [|by rewrite app_nil_r].
    rewrite (Huniq _ _ Hin' eq_refl), <-Hrun. exists pending. by rewrite <-app_assoc.
  - intros c'. change (attached s') with (attached s). rewrite Ea. intros [= <-]. exists from. split; [done|]. rewrite Hd, decide_True by done. by rewrite <-app_assoc.
  - intros c' Hc'. change (connections s <= c')%nat in Hc'. rewrite Hd, H4 by exact Hc'. destruct (decide (c = c')) as [<-|]; [|done].
    exfalso. assert (c ∈ (starts s).*1) as Hc by (apply list_elem_of_fmap; by exists (c, from)).
    rewrite H1, elem_of_seq in Hc. lia.
Qed.

(** Telling the log one more event. *)
Lemma record_numbered h e enc s :
  h_SchemaVersion h = RealtimeSchemaVersion -> h_RequestID h = ses_RequestID (ss_request cfg) ->
  h_Sequence h = sequence s -> ss_encode cfg h e = Some enc -> numbered s ->
  numbered (act (Emitted h e enc) (record_event enc s)).
Proof.
  intros Hh1 Hh2 Hh3 He [H1 H2 H3]. set (s' := act _ _). assert (log s' = log s ++ [(h, e, enc)]) as Hl.
  { unfold log, s'. cbn. by rewrite omap_app. }
  constructor; unfold frames in *; rewrite Hl.
  - rewrite length_app. cbn. rewrite H1. lia.
  - intros k h' e' enc' Hk. apply lookup_app_Some in Hk as [Hk|[Hk Hk']]; [by apply H2|].
    destruct (k - length (log s))%nat as [|k'] eqn:Ek; [|by destruct k']. injection Hk' as <- <- <-.
    split_and!; try done. rewrite Hh3, H1. lia.
  - rewrite fmap_app. cbn. rewrite H1, <-(length_fmap snd (log s)). by apply push_represents.
Qed.

Lemma record_streams h e enc s : streams [] s -> streams [enc] (act (Emitted h e enc) (record_event enc s)).
Proof.
  intros [H1 H2 H3 H4]. set (s' := act _ _).
  assert (frames s' = frames s ++ [enc] /\ starts s' = starts s) as [Hf Hs].
  { unfold frames, log, starts, s'. cbn. by rewrite !omap_app, fmap_app, app_nil_r. }
  assert (forall c, delivered c s' = delivered c s) as Hd by (intros c; unfold s'; rewrite delivered_act; apply app_nil_r).
  constructor; rewrite ?Hs; [done|..].
  - intros c from Hin. destruct (H2 c from Hin) as [Hle Hpre]. rewrite Hd, Hf, length_app, drop_snoc_le by done.
    split; [lia|]. by apply prefix_app_r.
  - intros c Ha. destruct (H3 c Ha) as (from & Hin & Hrun). exists from. split; [done|].
    destruct (H2 c from Hin) as [Hle _]. rewrite Hd, Hf, drop_snoc_le by done. by rewrite <-Hrun, app_nil_r.
  - intros c. rewrite Hd. apply H4.
Qed.

Lemma emit_keeps e cid s : numbered s -> streams [] s -> numbered (emit cfg e cid s) /\ streams [] (emit cfg e cid s).
Proof.
  intros Hn Hs. unfold emit. cbv zeta. destruct (ss_encode _ _ _) as [enc|] eqn:He; [|done].
  split; [by apply write_numbered, record_numbered|by apply write_streams, record_streams].
Qed.

(** *** Resuming *)

Lemma connect_keeps from missed s :
  (from <= length (frames s))%nat -> missed = drop from (frames s) -> numbered s -> streams [] s ->
  numbered (connect from s) /\ streams missed (connect from s).
Proof.
  intros Hle -> Hn [H1 H2 H3 H4]. unfold connect. cbv zeta. set (s' := act _ _).
  assert (starts s' = starts s ++ [(connections s, from)] /\ frames s' = frames s) as [Hs Hf].
  { unfold starts, frames, log, s'. cbn. by rewrite !omap_app, app_nil_r. }
  assert (forall c, delivered c s' = delivered c s) as Hd by (intros c; unfold s'; rewrite delivered_act; apply app_nil_r).
  split.
  { eapply numbered_ext; [..|exact Hn]; try done. unfold log, s'. cbn. by rewrite omap_app, app_nil_r. }
  constructor; rewrite ?Hs, ?Hf.
  - change (connections s') with (S (connections s)). by rewrite fmap_app, H1, seq_S.
  - intros c from'. rewrite elem_of_app, list_elem_of_singleton. intros [Hin|[= -> ->]]; [by rewrite Hd; apply H2|].
    split; [done|]. rewrite Hd, H4 by done. apply prefix_nil.
  - intros c [= <-]. exists from. split; [apply elem_of_app; right; by apply list_elem_of_singleton|].
    by rewrite Hd, H4.
  - intros c Hc. rewrite Hd. apply H4. cbn in Hc. lia.
Qed.

Lemma replay_writes missed s :
  numbered s -> streams missed s ->
  let s' := foldl (fun s encoded => write cfg encoded s) s missed in numbered s' /\ streams [] s'.
Proof.
  revert s. induction missed as [|e missed IH]; intros s Hn Hs; [done|]. cbn [foldl].
  apply IH; [by apply write_numbered|by apply write_streams].
Qed.

Definition kept (pending : list string) (s : session) : Prop := numbered s /\ streams pending s.

Lemma kept_ext pending s s' :
  sequence s' = sequence s -> s_replay s' = s_replay s -> trace s' = trace s -> attached s' = attached s ->
  connections s' = connections s -> kept pending s -> kept pending s'.
Proof.
  intros Hs Hr Ht Ha Hc [Hn Hst].
  assert (log s' = log s /\ starts s' = starts s /\ forall c, delivered c s' = delivered c s) as (Hl & Hst' & Hd).
  { unfold log, starts, delivered. by rewrite Ht. }
  split; [by eapply numbered_ext; [..|exact Hn]|]. eapply streams_ext; [..|exact Hst]; try done; [unfold frames; by rewrite Hl|by left].
Qed.

Lemma kept_act pending a s :
  emitted_of a = None -> started_of a = None -> (forall c, frame_for c a = None) -> kept pending s -> kept pending (act a s).
Proof.
  intros He Hs Hf [Hn Hst]. assert (log (act a s) = log s /\ starts (act a s) = starts s) as [Hl Hs'].
  { unfold log, starts. cbn. rewrite !omap_app. cbn. by rewrite He, Hs, !app_nil_r. }
  split; [by eapply numbered_ext; [..|exact Hn]|]. eapply streams_ext; [..|exact Hst]; try done; [unfold frames; by rewrite Hl| |by left].
  intros c. by rewrite delivered_act, Hf, app_nil_r.
Qed.

Lemma kept_emit e cid s : kept [] s -> kept [] (emit cfg e cid s).
Proof. intros [Hn Hs]. by apply emit_keeps. Qed.

Lemma kept_detach pending c code s : kept pending s -> kept pending (detach cfg c code s).
Proof. intros [Hn Hs]. split; [by apply detach_numbered|by apply detach_streams]. Qed.

(** A resume is refused and changes nothing, or the new connection is sent
    exactly what it missed, and then that it is back. *)
Lemma resume_kept cid a s : kept [] s -> kept [] (resume cfg cid a s).
Proof.
  intros H. unfold resume. destruct (closed s); [by apply kept_act|].
  destruct (after a (sequence s) (s_replay s)) as [missed|] eqn:Ea; [|by apply kept_act]. cbv zeta.
  destruct H as [Hn Hs]. rewrite (nm_sequence _ Hn), <-(length_fmap snd (log s)) in Ea.
  apply (after_spec (frames s)) in Ea as (Hrange & _ & ->); [|by destruct Hn].
  apply kept_act; [done..|]. apply kept_emit. unfold kept.
  set (s1 := match attached s with Some conn => _ | None => s end).
  assert (kept [] s1) as [Hn1 Hs1]. { unfold s1. destruct (attached s); [|by split]. by apply kept_detach. }
  assert (frames s1 = frames s) as Hf.
  { unfold s1. destruct (attached s) as [c|]; [|done]. unfold frames, log.
    destruct (detach_trace cfg c StatusGoingAway s) as (tail & -> & Hq & _).
    by rewrite omap_app, (omap_quiet emitted_of tail emitted_deaf Hq), app_nil_r. }
  destruct (connect_keeps (Z.to_nat (a + 1)) (drop (Z.to_nat (a + 1)) (frames s)) s1) as [Hn2 Hs2]; rewrite ?Hf; try done; [lia|].
  by apply replay_writes.
Qed.

(** What a connection was delivered, of the whole log: an unbroken run of it
    from where the connection started, and after the last of it, on a session
    the edge opened, at most the usage report the session settled with. *)
Definition sees_log (s : session) : Prop :=
  forall c from, (c, from) ∈ starts s -> exists run tail,
    delivered c s = run ++ tail /\ run `prefix_of` drop from (frames s) /\
    (tail = [] \/ closed s = true /\ ss_public cfg = false /\ run = drop from (frames s) /\
       exists e st report enc, (e, st) ∈ settlements s /\ settlement_Report st = Some report /\
         ss_encode_report cfg report = Some enc /\ tail = [enc]).

Lemma kept_sees s : kept [] s -> sees_log s.
Proof.
  intros [_ [_ H _ _]] c from Hin. destruct (H c from Hin) as [_ Hpre]. exists (delivered c s), [].
  rewrite app_nil_r. auto.
Qed.

(** Everything [finish] does before the report. *)
Definition finish_before (w : Moment) (reason : string) (failure : option Error) (commandID : option string) (s : session)
    : session * SessionEnd * SessionSettlement :=
  let opening := ss_opening cfg in
  let s := set_closed s in
  let s := match failure with Some failure => emit cfg (EvError true failure) commandID s | None => s end in
  let metered := if opened opening then m_Measured w else None in
  let s := match metered with Some measured => set_units (add_units measured (units s)) s | None => s end in
  let source := if present metered then UsageOxyMeasured else UsageProviderReported in
  let s :=
    emit cfg (EvSessionClosed reason (if opened opening then Some (r_DeploymentID (session_Route cfg)) else None)
            (if opened opening then totals (units s) else []) source (NewTimestamp (m_now w))) None s in
  let s := if opened opening then act UpstreamClosed s else s in
  let ending := end_of cfg w reason failure source s in
  let settlement := SettleSession (ss_costs cfg) (m_measuredAt w) (ss_recorder cfg) (ss_public cfg) (m_latency w) opening ending in
  let s := act (Settled ending settlement) s in
  (if ss_public cfg then act (HandedOver settlement) s else s, ending, settlement).

(** The report and the close of the connection, after them. *)
Definition finish_after (code : Z) (settlement : SessionSettlement) (s : session) : session :=
  let s :=
    match attached s, settlement_Report settlement with
    | Some _, Some report =>
        if negb (ss_public cfg)
        then match ss_encode_report cfg report with Some encoded => write cfg encoded s | None => s end else s
    | _, _ => s
    end in
  match attached s with
  | Some conn => act (Closing conn code) (set_attached None s)
  | None => s
  end.

Lemma finish_split w reason failure cid code s :
  closed s = false ->
  finish cfg w reason failure cid code s =
  let '(s', _, settlement) := finish_before w reason failure cid s in finish_after code settlement s'.
Proof. intros Hc. unfold finish. by rewrite Hc. Qed.

Lemma finish_before_kept w reason failure cid s :
  kept [] s -> closed s = false ->
  let '(s', ending, settlement) := finish_before w reason failure cid s in
  kept [] s' /\ closed s' = true /\ (ending, settlement) ∈ settlements s'.
Proof.
  intros H Hc. unfold finish_before. cbv zeta.
  set (s1 := match failure with Some f => emit cfg (EvError true f) cid (set_closed s) | None => set_closed s end).
  assert (kept [] s1 /\ closed s1 = true) as [H1 C1].
  { assert (kept [] (set_closed s)) by by eapply kept_ext; [..|exact H]. unfold s1. destruct failure as [f|]; [|done].
    split; [by apply kept_emit|]. by rewrite (sc_closed _ _ (emit_counts cfg (EvError true f) cid (set_closed s))). }
  clearbody s1. clear H.
  set (s2 := match (if opened (ss_opening cfg) then m_Measured w else None) with Some m => _ | None => s1 end).
  assert (kept [] s2 /\ closed s2 = true) as [H2 C2].
  { unfold s2. destruct (if opened _ then _ else _); [|done]. split; [by eapply kept_ext; [..|exact H1]|done]. }
  clearbody s2. clear H1 C1. set (ev := EvSessionClosed _ _ _ _ _).
  assert (kept [] (emit cfg ev None s2) /\ closed (emit cfg ev None s2) = true) as [H3 C3].
  { split; [by apply kept_emit|]. by rewrite (sc_closed _ _ (emit_counts cfg ev None s2)). }
  clearbody ev. set (s3 := emit cfg ev None s2) in *. clearbody s3.
  set (s4 := if opened _ then act UpstreamClosed s3 else s3).
  assert (kept [] s4 /\ closed s4 = true) as [H4 C4].
  { unfold s4. destruct (opened _); [|done]. split; [by apply kept_act|done]. }
  clearbody s4. set (e := end_of _ _ _ _ _ _). set (st := SettleSession _ _ _ _ _ _ _).
  assert (kept [] (act (Settled e st) s4)) as H5 by by apply kept_act.
  assert ((e, st) ∈ settlements (act (Settled e st) s4)) as Hin.
  { unfold settlements. cbn. rewrite omap_app. apply elem_of_app. right. by apply list_elem_of_singleton. }
  destruct (ss_public cfg); [|done]. split; [by apply kept_act|]. split; [done|].
  unfold settlements in *. cbn in *. rewrite omap_app. apply elem_of_app. by left.
Qed.

Lemma kept_close pending code s :
  kept pending s -> kept pending (match attached s with Some conn => act (Closing conn code) (set_attached None s) | None => s end).
Proof.
  intros [Hn Hs]. destruct (attached s) as [c|]; [|done]. apply kept_act; [done..|].
  split; [by eapply numbered_ext; [..|exact Hn]|]. eapply streams_ext; [..|exact Hs]; try done. by right.
Qed.

(** The report, when it is written, is the one thing a connection is sent past
    the log. *)
Lemma finish_after_sees code e st s :
  kept [] s -> closed s = true -> (e, st) ∈ settlements s ->
  numbered (finish_after code st s) /\ sees_log (finish_after code st s).
Proof.
  intros H Hc Hin. unfold finish_after.
  assert (forall s', kept [] s' -> let s2 := match attached s' with Some conn => act (Closing conn code) (set_attached None s') | None => s' end in
    numbered s2 /\ sees_log s2) as Hdone.
  { intros s' H'. pose proof (kept_close [] code s' H') as H2. split; [apply H2|by apply kept_sees]. }
  destruct (attached s) as [c|] eqn:Ea; [|apply (Hdone s H)].
  destruct (settlement_Report st) as [report|] eqn:Er; [|apply (Hdone s H)].
  destruct (ss_public cfg) eqn:Ep; cbn [negb]; [apply (Hdone s H)|].
  destruct (ss_encode_report cfg report) as [enc|] eqn:Ee; [|apply (Hdone s H)].
  unfold write. rewrite Ea. destruct (ss_delivers cfg (writes s)).
  2:{ apply Hdone, kept_detach. by eapply kept_ext; [..|exact H]. }
  destruct H as [Hn Hs]. destruct (sr_attached _ _ Hs c Ea) as (from & Hst & Hrun). rewrite app_nil_r in Hrun.
  cbn [attached act count_write]. rewrite Ea. set (s' := act (Closing c code) _).
  assert (log s' = log s /\ starts s' = starts s /\ settlements s' = settlements s) as (Hl & Hst' & Hse).
  { unfold log, starts, settlements, s'. cbn. by rewrite !omap_app, !app_nil_r. }
  assert (forall c', delivered c' s' = delivered c' s ++ if decide (c = c') then [enc] else []) as Hd.
  { intros c'. unfold s', delivered. cbn. rewrite !omap_app. cbn. rewrite app_nil_r. by destruct (decide (c = c')). }
  split; [by eapply numbered_ext; [..|exact Hn]|].
  intros c' from'. rewrite Hst', Hd. intros Hin'. unfold frames. rewrite Hl. fold (frames s).
  destruct (sr_prefix _ _ Hs c' from' Hin') as [_ Hpre]. exists (delivered c' s). eexists. split; [done|]. split; [done|].
  destruct (decide (c = c')) as [<-|]; [right|by left].
  assert (from' = from) as ->.
  { apply (NoDup_fst_unique (starts s) c); [rewrite (sr_starts _ _ Hs); apply NoDup_seq|done|done]. }
  split; [done|]. split; [done|]. split; [done|]. exists e, st, report, enc. by rewrite Hse.
Qed.

Lemma finish_sees w reason failure cid code s :
  kept [] s -> closed s = false ->
  numbered (finish cfg w reason failure cid code s) /\ sees_log (finish cfg w reason failure cid code s) /\
  closed (finish cfg w reason failure cid code s) = true.
Proof.
  intros H Hc. rewrite finish_split by done. pose proof (finish_before_kept w reason failure cid s H Hc) as Hf.
  destruct (finish_before _ _ _ _ _) as [[s' e] st]. destruct Hf as (Hk & Hc' & Hin).
  destruct (finish_after_sees code e st s' Hk Hc' Hin) as [Hn Hs]. split_and!; [done|done|].
  unfold finish_after. assert (forall s2 : session, closed s2 = true ->
    closed (match attached s2 with Some conn => act (Closing conn code) (set_attached None s2) | None => s2 end) = true) as Hcl.
  { intros s2 H2. by destruct (attached s2). }
  apply Hcl. repeat case_match; try done. by rewrite (sc_closed _ _ (write_counts cfg _ s')).
Qed.

(** The invariant of the run. *)
Definition telling (s : session) : Prop := numbered s /\ sees_log s /\ (closed s = false -> kept [] s).

Lemma kept_telling s : kept [] s -> telling s.
Proof. intros H. split; [apply H|]. split; [by apply kept_sees|done]. Qed.

Lemma finish_telling w reason failure cid code s :
  kept [] s -> closed s = false -> telling (finish cfg w reason failure cid code s).
Proof.
  intros H Hc. destruct (finish_sees w reason failure cid code s H Hc) as (H1 & H2 & H3). split; [done|]. split; [done|]. congruence.
Qed.

Lemma count_event_same w e s s' :
  count_event cfg w e s = Some s' ->
  sequence s' = sequence s /\ s_replay s' = s_replay s /\ trace s' = trace s /\ attached s' = attached s /\
  connections s' = connections s /\ closed s' = closed s /\ seen s' = seen s /\ units s' = units s /\ inputBytes s' = inputBytes s.
Proof.
  unfold count_event, markOutput. destruct e; try (by intros [= <-]); repeat case_match; try done; by intros [= <-].
Qed.

Lemma step_telling w i s : closed s = false -> kept [] s -> telling (step cfg w i s).
Proof.
  intros Hc H. apply step_branches.
  - by apply kept_telling.
  - intros c. by apply kept_telling, kept_detach.
  - intros s' e cid [->| ->] _; apply kept_telling, kept_emit; [done|]. by eapply kept_ext; [..|exact H].
  - intros s' reason failure cid code [->| ->]; apply finish_telling; try done. by eapply kept_ext; [..|exact H].
  - intros s' c Ht _. assert (kept [] (acknowledged cfg c s')) as Hk.
    { apply kept_emit. destruct Ht as [->| ->]; by eapply kept_ext; [..|exact H]. }
    assert (closed (acknowledged cfg c s') = false) as Hc'.
    { unfold acknowledged. rewrite (sc_closed _ _ (emit_counts cfg _ _ _)). by destruct Ht as [->| ->]. }
    assert (kept [] (act (Applied c (m_Send w c)) (acknowledged cfg c s'))) as Hk2 by by apply kept_act.
    apply apply_branches; intros.
    + by apply finish_telling.
    + by apply finish_telling.
    + by apply kept_telling, kept_emit.
    + apply kept_telling. by eapply kept_ext; [..|exact Hk2].
  - intros event cid reported _. assert (kept [] (set_units (add_units reported (units s)) s)) as Hk.
    { by eapply kept_ext; [..|exact H]. }
    split; [by apply kept_telling|]. split; [intros; by apply finish_telling|].
    intros e s' _ He. apply kept_telling, kept_emit. apply count_event_same in He as (? & ? & ? & ? & ? & _).
    by eapply kept_ext; [..|exact Hk].
  - intros cid a _. by apply kept_telling, resume_kept.
Qed.

Lemma newSession_kept : kept [] (newSession cfg).
Proof.
  split; constructor; cbn; try done; [apply newReplay_represents|intros ? ? []%not_elem_of_nil].
Qed.

Lemma start_telling w : telling (start cfg w (newSession cfg)).
Proof.
  unfold start. cbv zeta. set (s := connect 0 _). assert (kept [] s) as H.
  { destruct newSession_kept as [Hn Hs]. apply (connect_keeps 0 []); done || (cbn; lia). }
  assert (closed s = false) as Hc by done. clearbody s.
  destruct (opened (ss_opening cfg)); cbn [negb]; [|by apply finish_telling].
  apply kept_telling. set (ev := EvSessionCreated _ _ _ _ _ _ _ _ _). eapply kept_ext; [..|exact (kept_emit ev None s H)]; done.
Qed.

(** What holds of every state the loop reaches. *)
Lemma run_loop_invariant (P : session -> Prop) inputs s :
  (forall w i s, In (w, i) inputs -> closed s = false -> P s -> P (step cfg w i s)) -> P s -> P (run_loop cfg inputs s).
Proof.
  unfold run_loop. revert s. induction inputs as [|[w i] inputs IH]; intros s Hstep H; [done|]. cbn [foldl fst snd]. apply IH.
  - intros w' i' s' Hin. apply Hstep. by right.
  - destruct (closed s) eqn:Hc; [done|]. apply Hstep; [by left|done|done].
Qed.

Lemma run_telling w inputs : telling (run cfg w inputs).
Proof.
  unfold run. apply run_loop_invariant; [|apply start_telling]. intros w' i s _ Hc (_ & _ & H). by apply step_telling, H.
Qed.

End Log.

(** C9. One numbered log, and every connection sees a run of it.  Whatever the
    client, the provider, the timers and reconnections do, and whichever writes
    fail: every event carries the session's request id and the next sequence
    from 0; the replay buffer stands for that log; and each connection, from the
    one that opened the session to the last that resumed it, is delivered an
    unbroken run of the log from its own start - for a resume, from the event
    after the one it named - with nothing missing, repeated or reordered, and
    past the end of the log at most the usage report the session settled with. *)
Theorem connections_see_the_log cfg w inputs :
  let s := run cfg w inputs in
  (forall k h e enc, log s !! k = Some (h, e, enc) ->
     h_RequestID h = ses_RequestID (ss_request cfg) /\ h_Sequence h = Z.of_nat k /\ ss_encode cfg h e = Some enc) /\
  represents (frames s) (s_replay s) /\ sees_log cfg s.
Proof.
  intros s. destruct (run_telling cfg w inputs) as ([_ Hh Hr] & Hs & _). fold s in Hh, Hr, Hs.
  split; [|done]. intros k h e enc Hk. by destruct (Hh k h e enc Hk) as (_ & ? & ? & ?).
Qed.
