(* ===== verification/RealtimeEnd.v ===== *)
(** * How a realtime session ends (internal/realtime/session.go)

    A session ends once and settles once: [session.closed] is the last event of
    its log, the provider session is closed, and the settlement it makes is one
    its request can be settled with.  Until then its timers are armed, so it
    does end. *)

From S2P Require Import Prelude Ids Text CustomerLimit Contract Request Provider KeyPool ProviderCost.
From S2P Require Import Adapter Inventory Retry Settle PublicContract RealtimeContract SessionOpen Replay Realtime RealtimeLog.

Definition handed (s : session) : list SessionSettlement := omap handed_of (trace s).
Definition upstream_closes (s : session) : list unit := omap upstream_closed_of (trace s).

Section Ending.
Variable cfg : Setting.
Hypothesis closing_encodes : forall h e, closing_event e = true -> is_Some (ss_encode cfg h e).

(** What [finish] may say before it closes. *)
Definition last_words (a : Act) : Prop :=
  quiet a \/ exists h f enc, a = Emitted h (told_as cfg (EvError true f)) enc.

Lemma told_as_closing e : closing_event (told_as cfg e) = closing_event e.
Proof. unfold told_as. destruct (ss_public cfg); [by destruct e|done]. Qed.

(** The trace of a finish, in order. *)
Lemma finish_trace w reason failure cid code s :
  closed s = false -> exists words h ev enc q ending settlement q',
    trace (finish cfg w reason failure cid code s) =
      trace s ++ words ++ [Emitted h (told_as cfg ev) enc] ++ q ++
      (if opened (ss_opening cfg) then [UpstreamClosed] else []) ++ [Settled ending settlement] ++
      (if ss_public cfg then [HandedOver settlement] else []) ++ q' /\
    closing_event ev = true /\ Forall last_words words /\ Forall quiet q /\ Forall quiet q' /\
    attached (finish cfg w reason failure cid code s) = None /\ closed (finish cfg w reason failure cid code s) = true /\
    ending = end_of cfg w reason failure
               (if present (if opened (ss_opening cfg) then m_Measured w else None) then UsageOxyMeasured else UsageProviderReported)
               (finish cfg w reason failure cid code s) /\
    settlement = SettleSession (ss_costs cfg) (m_measuredAt w) (ss_recorder cfg) (ss_public cfg) (m_latency w)
                   (ss_opening cfg) ending /\
    units (finish cfg w reason failure cid code s) =
      add_units (if opened (ss_opening cfg) then default [] (m_Measured w) else []) (units s) /\
    same_tally s (finish cfg w reason failure cid code s).
Proof.
  intros Hc. rewrite finish_split by done. unfold finish_before. cbv zeta.
  set (s1 := match failure with Some f => emit cfg (EvError true f) cid (set_closed s) | None => set_closed s end).
  assert (same_counts (set_closed s) s1 /\ exists words, trace s1 = trace s ++ words /\ Forall last_words words) as (C1 & words & T1 & Hw).
  { unfold s1. destruct failure as [f|]; [|split; [done|exists []; by rewrite app_nil_r]]. split; [apply emit_counts|].
    destruct (emit_trace cfg (EvError true f) cid (set_closed s)) as [[_ ->]|(enc & tail & _ & -> & Hq)].
    - exists []. by rewrite app_nil_r.
    - eexists. split; [done|]. constructor; [right; eauto|]. eapply Forall_impl; [exact Hq|]. by left. }
  clearbody s1. set (s2 := match (if opened (ss_opening cfg) then m_Measured w else None) with Some m => _ | None => s1 end).
  assert (trace s2 = trace s1 /\ closed s2 = true /\
    units s2 = add_units (if opened (ss_opening cfg) then default [] (m_Measured w) else []) (units s) /\ same_tally s s2)
    as (T2 & C2 & U2 & Y2).
  { assert (same_tally s s1) as Y1 by exact (same_counts_tally (set_closed s) s1 C1).
    unfold s2. rewrite <-(sc_units _ _ C1 : units s1 = units s). destruct C1 as [C1 _ _ _ _ _ _ _].
    destruct (opened _); [destruct (m_Measured w)|]; done. }
  clearbody s2. set (ev := EvSessionClosed _ _ _ _ _). assert (closing_event ev = true) as Hev by done.
  destruct (emit_trace cfg ev None s2) as [[He _]|(enc & q & _ & T3 & Hq)].
  { destruct (closing_encodes (header_of cfg None s2) (told_as cfg ev)) as [x Hx]; [by rewrite told_as_closing|congruence]. }
  pose proof (emit_counts cfg ev None s2) as C3. set (s3 := emit cfg ev None s2) in *. clearbody s3 ev.
  set (s4 := if opened _ then act UpstreamClosed s3 else s3).
  assert (trace s4 = trace s3 ++ (if opened (ss_opening cfg) then [UpstreamClosed] else []) /\ same_counts s3 s4) as [T4 C4].
  { unfold s4. destruct (opened _); [done|]. by rewrite app_nil_r. }
  clearbody s4. set (ending := end_of _ _ _ _ _ _). set (st := SettleSession _ _ _ _ _ _ _).
  set (s5 := if ss_public cfg then _ else _).
  assert (trace s5 = trace s4 ++ [Settled ending st] ++ (if ss_public cfg then [HandedOver st] else []) /\ same_counts s4 s5) as [T5 C5].
  { unfold s5. destruct (ss_public cfg); cbn; by rewrite <-?app_assoc. }
  assert (same_counts s2 s5) as C25 by by rewrite C3, C4. clearbody s5.
  set (s6 := finish_after cfg code st s5).
  assert (exists q', trace s6 = trace s5 ++ q' /\ Forall quiet q' /\ attached s6 = None /\ same_counts s5 s6) as (q' & T6 & Hq' & A6 & C6).
  { unfold s6, finish_after. set (s5' := match attached s5 with Some _ => _ | None => s5 end).
    assert (exists q0, trace s5' = trace s5 ++ q0 /\ Forall quiet q0 /\ same_counts s5 s5') as (q0 & T0 & H0 & C0).
    { assert (exists q0, trace s5 = trace s5 ++ q0 /\ Forall quiet q0 /\ same_counts s5 s5) as Hid.
      { exists []. by rewrite app_nil_r. }
      unfold s5'. destruct (attached s5); [|done]. destruct (settlement_Report st); [|done]. destruct (negb _); [|done].
      destruct (ss_encode_report _ _) as [r|]; [|done]. destruct (write_trace cfg r s5) as (q0 & ? & ?).
      exists q0. split_and!; [done|done|apply write_counts]. }
    clearbody s5'. destruct (attached s5') as [c|] eqn:Ea.
    - exists (q0 ++ [Closing c code]). cbn. rewrite T0, <-app_assoc. split_and!; [done|apply Forall_app; by repeat constructor|done|].
      etransitivity; [exact C0|done].
    - exists q0. done. }
  assert (same_counts s2 s6) as C26 by by rewrite C25. clearbody s6.
  exists words, (header_of cfg None s2), ev, enc, q, ending, st, q'.
  split; [by rewrite T6, T5, T4, T3, T2, T1, <-!app_assoc|].
  split_and!; try done; [by rewrite (sc_closed _ _ C26)| |by rewrite (sc_units _ _ C26)|].
  2:{ etransitivity; [exact Y2|by apply same_counts_tally]. }
  unfold ending, end_of. rewrite (sc_units _ _ C26), (sc_first _ _ C26), <-(sc_units _ _ C3), <-(sc_units _ _ C4),
    <-(sc_first _ _ C3), <-(sc_first _ _ C4). done.
Qed.

(** A session that has not ended has said nothing final; one that has ended has
    said it last, and once. *)
Definition not_ended (s : session) : Prop :=
  Forall (fun e => closing_event e = false) (told s) /\ settlements s = [] /\ handed s = [] /\ upstream_closes s = [].

Definition ended_once (s : session) : Prop :=
  (exists before last, told s = before ++ [last] /\ closing_event last = true /\
     Forall (fun e => closing_event e = false) before) /\
  (exists w reason failure source, (source = UsageProviderReported \/ source = UsageOxyMeasured) /\
     let e := end_of cfg w reason failure source s in
     settlements s = [(e, SettleSession (ss_costs cfg) (m_measuredAt w) (ss_recorder cfg) (ss_public cfg) (m_latency w)
                            (ss_opening cfg) e)]) /\
  length (upstream_closes s) = (if opened (ss_opening cfg) then 1 else 0)%nat /\
  length (handed s) = (if ss_public cfg then 1 else 0)%nat /\ attached s = None.

Definition ending (s : session) : Prop := if closed s then ended_once s else not_ended s.

Lemma last_words_deaf {A} (f : Act -> option A) l :
  deaf f -> (forall h e enc, f (Emitted h e enc) = None) -> Forall last_words l -> omap f l = [].
Proof.
  intros Hf He. induction 1 as [|a l Ha _ IH]; [done|]. cbn. rewrite IH.
  destruct Ha as [Ha|(h & e & enc & ->)]; [by rewrite Hf|by rewrite He].
Qed.

Lemma last_words_told l :
  Forall last_words l -> Forall (fun e => closing_event e = false) ((fun x => x.1.2) <$> omap emitted_of l).
Proof.
  induction 1 as [|a l Ha _ IH]; [constructor|]. cbn. destruct Ha as [Ha|(h & f & enc & ->)].
  - by rewrite emitted_deaf.
  - cbn. constructor; [|done]. by rewrite told_as_closing.
Qed.

Lemma finish_ending w reason failure cid code s :
  closed s = false -> not_ended s -> ending (finish cfg w reason failure cid code s).
Proof.
  intros Hc (Ht & Hs & Hh & Hu).
  destruct (finish_trace w reason failure cid code s Hc)
    as (words & h & ev & enc & q & e & st & q' & T & Hev & Hw & Hq & Hq' & Ha & Hcl & He & Hst & _).
  unfold ending. rewrite Hcl. clear Hc Hcl. set (s' := finish cfg w reason failure cid code s) in *. clearbody s'.
  unfold ended_once. split; [|split; [|split; [|split; [|done]]]].
  - exists (told s ++ ((fun x => x.1.2) <$> omap emitted_of words)), (told_as cfg ev).
    unfold told, log in *. rewrite T, !omap_app, !fmap_app.
    rewrite (omap_quiet emitted_of q emitted_deaf Hq), (omap_quiet emitted_of q' emitted_deaf Hq').
    split; [|split; [by rewrite told_as_closing|]].
    + destruct (opened _), (ss_public cfg); cbn; by rewrite app_assoc.
    + apply Forall_app. split; [done|by apply last_words_told].
  - exists w, reason, failure. eexists. split; [|cbv zeta; rewrite <-He, <-Hst].
    { destruct (present _); [by right|by left]. }
    unfold settlements in *. rewrite T, !omap_app, Hs, (omap_quiet settled_of q settled_deaf Hq),
      (omap_quiet settled_of q' settled_deaf Hq'), (last_words_deaf settled_of words settled_deaf) by done.
    by destruct (opened _), (ss_public cfg).
  - unfold upstream_closes in *. rewrite T, !omap_app, Hu, (omap_quiet _ q upstream_closed_deaf Hq),
      (omap_quiet _ q' upstream_closed_deaf Hq'), (last_words_deaf _ words upstream_closed_deaf) by done.
    by destruct (opened _), (ss_public cfg).
  - unfold handed in *. rewrite T, !omap_app, Hh, (omap_quiet _ q handed_deaf Hq),
      (omap_quiet _ q' handed_deaf Hq'), (last_words_deaf _ words handed_deaf) by done.
    by destruct (opened _), (ss_public cfg).
Qed.

Lemma not_ended_act a s :
  emitted_of a = None -> settled_of a = None -> handed_of a = None -> upstream_closed_of a = None ->
  not_ended s -> not_ended (act a s).
Proof.
  intros H1 H2 H3 H4. unfold not_ended, told, log, settlements, handed, upstream_closes. cbn.
  rewrite !omap_app. cbn. by rewrite H1, H2, H3, H4, !app_nil_r.
Qed.

Lemma not_ended_quiet s s' tail :
  trace s' = trace s ++ tail -> Forall quiet tail -> not_ended s -> not_ended s'.
Proof.
  intros T Hq. unfold not_ended, told, log, settlements, handed, upstream_closes. rewrite T, !omap_app.
  by rewrite (omap_quiet _ tail emitted_deaf Hq), (omap_quiet _ tail settled_deaf Hq), (omap_quiet _ tail handed_deaf Hq),
    (omap_quiet _ tail upstream_closed_deaf Hq), !app_nil_r.
Qed.

Lemma not_ended_emit e cid s : closing_event e = false -> not_ended s -> not_ended (emit cfg e cid s).
Proof.
  intros He (Ht & Hs & Hh & Hu). unfold not_ended, settlements, handed, upstream_closes.
  rewrite !omap_emit by (apply settled_deaf || apply handed_deaf || apply upstream_closed_deaf || done).
  split; [|done]. unfold told in *. destruct (emit_log cfg e cid s) as [[-> _]|(enc & _ & ->)]; [done|].
  rewrite fmap_app. apply Forall_app. split; [done|]. constructor; [|constructor]. cbn. by rewrite told_as_closing.
Qed.

Lemma not_ended_write e s : not_ended s -> not_ended (write cfg e s).
Proof. destruct (write_trace cfg e s) as (tail & T & Hq). by eapply not_ended_quiet. Qed.

Lemma not_ended_ending s : closed s = false -> not_ended s -> ending s.
Proof. unfold ending. by intros ->. Qed.

Lemma honest_not_closing e : session_event e = false -> closing_event (name_deployment cfg e) = false.
Proof. by destruct e. Qed.

Lemma resume_not_ended cid a s : not_ended s -> not_ended (resume cfg cid a s).
Proof.
  intros H. unfold resume. destruct (closed s); [by apply not_ended_act|]. destruct (after _ _ _) as [missed|]; [|by apply not_ended_act].
  cbv zeta. apply not_ended_act; [done..|]. apply not_ended_emit; [done|].
  set (s1 := connect _ _). assert (not_ended s1) as H1.
  { apply not_ended_act; [done..|]. destruct (attached s) as [c|]; [|done].
    destruct (detach_trace cfg c StatusGoingAway s) as (tail & T & Hq & _). by eapply (not_ended_quiet s). }
  clearbody s1. revert s1 H1. induction missed as [|e missed IH]; [done|]. intros s1 H1. cbn. by apply IH, not_ended_write.
Qed.

Lemma resume_closed cid a s : closed (resume cfg cid a s) = closed s.
Proof.
  unfold resume. destruct (closed s) eqn:Hc; [done|]. destruct (after _ _ _) as [missed|]; [|done]. cbv zeta. cbn [closed act].
  rewrite (sc_closed _ _ (emit_counts cfg _ _ _)). set (s1 := connect _ _). assert (closed s1 = false) as H1.
  { unfold s1, connect. cbn. destruct (attached s) as [c|]; [|done]. by rewrite (sc_closed _ _ (detach_counts cfg _ _ _)). }
  clearbody s1. revert s1 H1. induction missed as [|e missed IH]; [done|]. intros s1 H1. cbn. apply IH.
  by rewrite (sc_closed _ _ (write_counts cfg _ _)).
Qed.

(** Telling something that ends nothing. *)
Lemma emit_ending e cid s : closing_event e = false -> closed s = false -> not_ended s -> ending (emit cfg e cid s).
Proof.
  intros He Hc H. apply not_ended_ending; [by rewrite (sc_closed _ _ (emit_counts cfg e cid s))|by apply not_ended_emit].
Qed.

Lemma step_ending w i s : input_honest i -> closed s = false -> not_ended s -> ending (step cfg w i s).
Proof.
  intros Hi Hc H. apply step_branches.
  - by apply not_ended_ending.
  - intros c. destruct (detach_trace cfg c StatusGoingAway s) as (tail & T & Hq & _).
    apply not_ended_ending; [by rewrite (sc_closed _ _ (detach_counts cfg c _ s))|by eapply (not_ended_quiet s)].
  - intros s' e cid [->| ->] [[f ->]| ->]; by apply emit_ending.
  - intros s' reason failure cid code [->| ->]; by apply finish_ending.
  - intros s' c Ht _. assert (closed s' = false /\ not_ended s') as [Hc' H'] by by destruct Ht as [->| ->].
    assert (not_ended (acknowledged cfg c s')) as H1 by by apply not_ended_emit.
    assert (closed (acknowledged cfg c s') = false) as Hc1.
    { unfold acknowledged. by rewrite (sc_closed _ _ (emit_counts cfg _ _ _)). }
    assert (not_ended (act (Applied c (m_Send w c)) (acknowledged cfg c s'))) as H2 by by apply not_ended_act.
    apply apply_branches; intros.
    + by apply finish_ending.
    + by apply finish_ending.
    + by apply emit_ending.
    + by apply not_ended_ending.
  - intros event cid reported ->. split; [by apply not_ended_ending|]. split; [intros; by apply finish_ending|].
    intros e s' -> He. apply count_event_same in He as (_ & _ & Ht & _ & _ & Hcl & _).
    apply emit_ending; [by apply honest_not_closing|by rewrite Hcl|].
    unfold not_ended, told, log, settlements, handed, upstream_closes in *. by rewrite Ht.
  - intros cid a _. apply not_ended_ending; [by rewrite resume_closed|by apply resume_not_ended].
Qed.

Lemma start_ending w : ending (start cfg w (newSession cfg)).
Proof.
  unfold start. cbv zeta. destruct (opened (ss_opening cfg)) eqn:Ho; cbn [negb]; [|by apply finish_ending].
  set (ev := EvSessionCreated _ _ _ _ _ _ _ _ _). exact (emit_ending ev None (connect 0 (newSession cfg)) eq_refl eq_refl
    (conj (Forall_nil_2 _) (conj eq_refl (conj eq_refl eq_refl)))).
Qed.

End Ending.

(** *** The timers of a live session *)

(** While a session is live its ceilings on time are armed. *)
Record timed (cfg : Setting) (s : session) : Prop := {
  tm_opened : opened (ss_opening cfg) = true;
  tm_expiry : expiry s = Some (MaxDurationMs (Limits (ss_request cfg)) * Millisecond)%Z;
  tm_idle : idle s = Some (IdleTimeoutMs (Limits (ss_request cfg)) * Millisecond)%Z;
  tm_resume : resumeTimer s = match attached s with Some _ => None | None => Some (ss_resumeWindow cfg) end;
}.

Definition live_timed (cfg : Setting) (s : session) : Prop := closed s = false -> timed cfg s.

Section Timers.
Variable cfg : Setting.

Lemma detach_timed c code s : live_timed cfg s -> live_timed cfg (detach cfg c code s).
Proof.
  intros H. unfold detach. destruct (negb _); [done|]. cbv zeta. cbn [closed act set_attached].
  destruct (closed s) eqn:Hc; [intros H'; cbn in H'; congruence|]. intros _. by destruct (H Hc).
Qed.

Lemma write_timed e s : live_timed cfg s -> live_timed cfg (write cfg e s).
Proof.
  intros H. unfold write. destruct (attached s) as [c|] eqn:Ha; [|done]. destruct (ss_delivers _ _).
  - intros Hc. destruct (H Hc). constructor; try done. 
  - apply detach_timed. intros Hc. destruct (H Hc). by constructor.
Qed.

Lemma emit_timed e cid s : live_timed cfg s -> live_timed cfg (emit cfg e cid s).
Proof.
  intros H. unfold emit. cbv zeta. destruct (ss_encode _ _ _); [|done]. apply write_timed. intros Hc. destruct (H Hc). by constructor.
Qed.

Lemma timed_same s s' :
  closed s' = closed s -> expiry s' = expiry s -> idle s' = idle s -> resumeTimer s' = resumeTimer s -> attached s' = attached s ->
  live_timed cfg s -> live_timed cfg s'.
Proof. intros Hc He Hi Hr Ha H Hc'. rewrite Hc in Hc'. destruct (H Hc'). constructor; rewrite ?He, ?Hi, ?Hr, ?Ha; done. Qed.

Lemma connect_timed from s : live_timed cfg s -> live_timed cfg (connect from s).
Proof. intros H Hc. destruct (H Hc). by constructor. Qed.

Lemma finish_closed w reason failure cid code s : closed s = false -> closed (finish cfg w reason failure cid code s) = true.
Proof.
  intros Hc. unfold finish. rewrite Hc. cbv zeta.
  assert (forall s2, closed s2 = true ->
    closed (match attached s2 with Some conn => act (Closing conn code) (set_attached None s2) | None => s2 end) = true) as Hcl.
  { intros s2 H2. by destruct (attached s2). }
  apply Hcl. clear Hcl. set (st := SettleSession _ _ _ _ _ _ _). clearbody st.
  set (ev := EvSessionClosed _ _ _ _ _). clearbody ev. set (en := end_of _ _ _ _ _ _). clearbody en.
  set (s1 := match failure with Some f => emit cfg (EvError true f) cid (set_closed s) | None => set_closed s end).
  assert (closed s1 = true) as H1.
  { unfold s1. destruct failure as [f|]; [|done]. by rewrite (sc_closed _ _ (emit_counts cfg (EvError true f) cid _)). }
  clearbody s1. set (s2 := match (if opened _ then _ else _) with Some m => _ | None => s1 end).
  assert (closed s2 = true) as H2 by (unfold s2; by destruct (if opened _ then _ else _)). clearbody s2.
  assert (closed (emit cfg ev None s2) = true) as H3 by by rewrite (sc_closed _ _ (emit_counts cfg ev None s2)).
  set (s3 := emit cfg ev None s2) in *. clearbody s3.
  destruct (opened (ss_opening cfg)), (ss_public cfg); cbn [negb]; repeat case_match; try done;
    by rewrite (sc_closed _ _ (write_counts cfg _ _)).
Qed.

Lemma finish_timed w reason failure cid code s : closed s = false -> live_timed cfg (finish cfg w reason failure cid code s).
Proof. intros Hc Hl. by rewrite finish_closed in Hl. Qed.

Lemma resume_timed cid a s : live_timed cfg s -> live_timed cfg (resume cfg cid a s).
Proof.
  intros H. unfold resume. destruct (closed s); [by eapply timed_same; [..|exact H]|].
  destruct (after _ _ _) as [missed|]; [|by eapply timed_same; [..|exact H]]. cbv zeta.
  set (s1 := connect _ _). assert (live_timed cfg s1) as H1.
  { apply connect_timed. destruct (attached s); [by apply detach_timed|done]. }
  clearbody s1. set (s2 := foldl _ s1 missed). assert (live_timed cfg s2) as H2.
  { unfold s2. clear s2. revert s1 H1. induction missed as [|e missed IH]; [done|]. intros s1 H1. cbn. by apply IH, write_timed. }
  eapply timed_same; [..|exact (emit_timed (EvSessionResumed a) (Some cid) s2 H2)]; done.
Qed.

Lemma step_timed w i s : live_timed cfg s -> closed s = false -> live_timed cfg (step cfg w i s).
Proof.
  intros H Hc. assert (forall s', touched cfg s s' -> live_timed cfg s' /\ closed s' = false) as Ht.
  { intros s' [->| ->]; split; try done. intros Hc'. destruct (H Hc'). by constructor. }
  apply step_branches.
  - done.
  - intros c. by apply detach_timed.
  - intros s' e cid Hs _. by apply emit_timed, Ht.
  - intros s' reason failure cid code Hs. by apply finish_timed, Ht.
  - intros s' c Hs _. destruct (Ht s' Hs) as [H' Hc'].
    assert (live_timed cfg (acknowledged cfg c s')) as H1 by (apply emit_timed; by eapply timed_same; [..|exact H']).
    assert (closed (acknowledged cfg c s') = false) as Hc1.
    { unfold acknowledged. by rewrite (sc_closed _ _ (emit_counts cfg _ _ _)). }
    assert (live_timed cfg (act (Applied c (m_Send w c)) (acknowledged cfg c s'))) as H2 by by eapply timed_same; [..|exact H1].
    apply apply_branches; intros.
    + by apply finish_timed.
    + by apply finish_timed.
    + by apply emit_timed.
    + by eapply timed_same; [..|exact H1].
  - intros event cid reported ->. assert (live_timed cfg (set_units (add_units reported (units s)) s)) as H1.
    { by eapply timed_same; [..|exact H]. }
    split; [done|]. split; [intros; by apply finish_timed|]. intros e s' _ He. apply emit_timed.
    revert He. unfold count_event, markOutput. destruct e; try (by intros [= <-]); repeat case_match; try done;
      intros [= <-]; by eapply timed_same; [..|exact H1].
  - intros cid a _. by apply resume_timed.
Qed.

Lemma start_timed w : live_timed cfg (start cfg w (newSession cfg)).
Proof.
  unfold start. cbv zeta. destruct (opened (ss_opening cfg)) eqn:Ho; cbn [negb]; [|by apply finish_timed].
  set (ev := EvSessionCreated _ _ _ _ _ _ _ _ _). set (s0 := connect 0 (newSession cfg)). clearbody ev.
  assert (forall s, closed s = false -> resumeTimer s = match attached s with Some _ => None | None => Some (ss_resumeWindow cfg) end ->
    let s' := emit cfg ev None s in
    resumeTimer s' = match attached s' with Some _ => None | None => Some (ss_resumeWindow cfg) end) as Hemit.
  { intros s Hc Hr. unfold emit. destruct (ss_encode _ _ _) as [enc|]; [|done]. unfold write. cbn [attached act record_event].
    destruct (attached s) as [c|] eqn:Ha; [|by cbn; rewrite Ha]. destruct (ss_delivers _ _); [by cbn; rewrite Ha|].
    unfold detach. cbn. rewrite Ha, bool_decide_eq_true_2 by done. cbn. by rewrite Hc. }
  intros Hc. constructor; try done. cbn. by apply Hemit.
Qed.

Lemma step_ends w i s :
  closed s = false ->
  (exists err, i = UpEnded err) \/ i = Shutdown \/ (i = IdleFired /\ idle s <> None) \/ (i = ExpiryFired /\ expiry s <> None) \/
    (i = ResumeFired /\ resumeTimer s <> None) ->
  closed (step cfg w i s) = true.
Proof.
  intros Hc. intros [[err ->]|[->|[[-> Ht]|[[-> Ht]|[-> Ht]]]]]; cbn [step].
  - unfold upstream_end. repeat case_match; by apply finish_closed.
  - by apply finish_closed.
  - destruct (idle s); [by apply finish_closed|done].
  - destruct (expiry s); [by apply finish_closed|done].
  - destruct (resumeTimer s); [by apply finish_closed|done].
Qed.

End Timers.

Lemma run_ending cfg w inputs :
  (forall h e, closing_event e = true -> is_Some (ss_encode cfg h e)) ->
  Forall (fun wi => input_honest wi.2) inputs -> ending cfg (run cfg w inputs).
Proof.
  intros Henc Hin. apply (run_loop_invariant cfg (ending cfg)); [|by apply start_ending].
  intros w' i s Hi Hc H. rewrite Forall_forall in Hin. apply step_ending; [done| |done|].
  - apply list_elem_of_In, Hin in Hi. done.
  - unfold ending in H. by rewrite Hc in H.
Qed.

(** ** Properties *)

(** C11. A session ends once, and settles once.  Provided its closing event
    encodes, and its adapter tells no event that is the session's own: a session
    that is still live has told no session.closed, settled nothing, handed
    nothing over and left its provider session open; one that has ended told
    session.closed exactly once, as the last event of its log, settled exactly
    once, for the units it had counted, handed a public settlement over exactly
    once, closed the provider
    session exactly once if it had opened, and holds no connection. *)
Theorem session_ends_once cfg w inputs :
  (forall h e, closing_event e = true -> is_Some (ss_encode cfg h e)) ->
  Forall (fun wi => input_honest wi.2) inputs ->
  let s := run cfg w inputs in
  if closed s then ended_once cfg s else not_ended s.
Proof. apply run_ending. Qed.

(** C23. A live session always ends.  Whatever has happened, a session that has
    not ended has an open provider session, its signed duration and idle
    ceilings armed, and, while no connection is attached, the resume window; and
    any of those firing, a shutdown or the end of the provider session ends it
    in that very step. *)
Theorem live_session_is_bounded cfg w inputs :
  let s := run cfg w inputs in
  closed s = false ->
  timed cfg s /\
  forall w' i, (exists err, i = UpEnded err) \/ i = Shutdown \/ i = IdleFired \/ i = ExpiryFired \/
    (i = ResumeFired /\ attached s = None) -> closed (run cfg w (inputs ++ [(w', i)])) = true.
Proof.
  intros s Hc. assert (timed cfg s) as Ht.
  { apply (run_loop_invariant cfg (live_timed cfg)); [|apply start_timed|done]. intros. by apply step_timed. }
  split; [done|]. intros w' i Hi. unfold run, run_loop. rewrite foldl_app. cbn [foldl]. fold (run_loop cfg inputs (start cfg w (newSession cfg))).
  fold (run cfg w inputs). fold s. rewrite Hc. apply step_ends; [done|]. destruct Ht as [_ He Hid Hr].
  rewrite He, Hid, Hr. cbn [fst snd]. destruct Hi as [?|[?|[?|[?|[-> ->]]]]]; naive_solver.
Qed.

Lemma example_honest : Forall (fun wi => input_honest wi.2) example_ended.
Proof. repeat constructor. Qed.

Lemma session_ends_once_witness :
  closed (run example_setting example_moment example_ended) = true /\
  ended_once example_setting (run example_setting example_moment example_ended).
Proof.
  assert (closed (run example_setting example_moment example_ended) = true) as Hc by (vm_compute; reflexivity).
  split; [exact Hc|].
  pose proof (session_ends_once example_setting example_moment example_ended (fun h e _ => mk_is_Some _ _ eq_refl) example_honest) as H.
  cbv zeta in H. rewrite Hc in H. exact H.
Defined.

Lemma live_session_is_bounded_witness :
  closed (run example_setting example_moment example_inputs) = false /\
  closed (run example_setting example_moment (example_inputs ++ [(example_moment, ExpiryFired)])) = true.
Proof.
  assert (closed (run example_setting example_moment example_inputs) = false) as Hc by (vm_compute; reflexivity).
  split; [exact Hc|].
  apply (live_session_is_bounded example_setting example_moment example_inputs Hc). right; right; right; left; reflexivity.
Defined.
