(* ===== verification/RealtimeCommands.v ===== *)
(** * What a realtime session lets its client do (internal/realtime/session.go)

    Every command is applied at most once, and acknowledged before it is; the
    signed ceilings are never passed; and a public session says nothing that
    names a provider. *)

From S2P Require Import Prelude Ids Text CustomerLimit Contract Request Provider KeyPool ProviderCost.
From S2P Require Import Adapter Inventory Retry Settle PublicContract RealtimeContract SessionOpen Replay Realtime RealtimeLog.
From S2P Require Import RealtimeEnd.

(** ** Readings *)

(** The command an event acknowledges as new. *)
Definition ack_of (a : Act) : option string :=
  match a with Emitted h (EvCommandAccepted false) _ => h_CommandID h | _ => None end.

(** The audio an event carries out, and whether it starts a response. *)
Definition audio_out (e : RealtimeServerEvent) : Z :=
  match e with EvOutputAudioDelta _ _ _ _ data => DecodedRealtimeAudioBytes data | _ => 0%Z end.
Definition starts_response (e : RealtimeServerEvent) : Z := match e with EvResponseCreated _ => 1%Z | _ => 0%Z end.

Definition total (l : list Z) : Z := foldr Z.add 0%Z l.

Definition acks (s : session) : list string := omap ack_of (trace s).
Definition audio_told (s : session) : Z := total (audio_out <$> told s).
Definition responses_told (s : session) : Z := total (starts_response <$> told s).

(** The audio the commands carried in that the provider session took. *)
Definition audio_taken (cf : RealtimeCommand * option GoError) : Z :=
  match cf.2 with None => commandInputAudio cf.1 | Some _ => 0%Z end.
Definition audio_in (s : session) : Z := total (audio_taken <$> applied s).

Definition applied_ids (s : session) : list string := (fun cf => command_CommandID cf.1) <$> applied s.

Lemma total_app l l' : total (l ++ l') = (total l + total l')%Z.
Proof. induction l as [|x l IH]; cbn; [done|]. unfold total in *. lia. Qed.

(** An act that applies, acknowledges, carries or starts nothing. *)
Definition inert (a : Act) : Prop :=
  match a with
  | Applied _ _ => False
  | Emitted _ e _ => audio_out e = 0%Z /\ starts_response e = 0%Z /\ e <> EvCommandAccepted false
  | _ => True
  end.

Lemma quiet_inert a : quiet a -> inert a.
Proof. by destruct a. Qed.

Section Commands.
Variable cfg : Setting.
Local Notation limits := (Limits (ss_request cfg)).
Hypothesis encodes : forall h e, is_Some (ss_encode cfg h e).
Hypothesis limits_ok : limits_in_range limits = true.

Record commanded (s : session) : Prop := {
  cm_acked : forall k c f, trace s !! k = Some (Applied c f) -> command_CommandID c ∈ omap ack_of (take k (trace s));
  cm_acks : NoDup (acks s) /\ forall id, id ∈ acks s -> id ∈ seen s;
  cm_once : NoDup (applied_ids s) /\ forall id, id ∈ applied_ids s -> id ∈ seen s;
  cm_valid : Forall (fun cf => validateRealtimeCommand cf.1 (ses_RequestID (ss_request cfg)) = None) (applied s);
  cm_input : inputBytes s = audio_in s /\ (inputBytes s <= MaxInputAudioBytes limits)%Z;
  cm_output : outputBytes s = audio_told s /\ (outputBytes s <= MaxOutputAudioBytes limits)%Z;
  cm_responses : responses s = responses_told s /\ (responses s <= MaxResponses limits)%Z;
}.

Lemma inert_readings tail :
  Forall inert tail ->
  omap applied_of tail = [] /\ omap ack_of tail = [] /\
  total (audio_out <$> ((fun x => x.1.2) <$> omap emitted_of tail)) = 0%Z /\
  total (starts_response <$> ((fun x => x.1.2) <$> omap emitted_of tail)) = 0%Z.
Proof.
  induction 1 as [|a tail Ha _ (IH1 & IH2 & IH3 & IH4)]; [done|]. destruct a; cbn; try done.
  destruct Ha as (H1 & H2 & H3). rewrite H1, H2. split_and!; try done. destruct event; try done. by destruct duplicate.
Qed.

(** More inert acts change nothing. *)
Lemma commanded_inert s s' tail :
  trace s' = trace s ++ tail -> Forall inert tail -> same_tally s s' -> commanded s -> commanded s'.
Proof.
  intros T Hi (Hs & Hin & Hout & Hre) [H1 H2 H3 H4 H5 H6 H7]. destruct (inert_readings tail Hi) as (I1 & I2 & I3 & I4).
  assert (acks s' = acks s /\ applied s' = applied s) as [Ea Ep].
  { unfold acks, applied. by rewrite T, !omap_app, I1, I2, !app_nil_r. }
  assert (audio_told s' = audio_told s /\ responses_told s' = responses_told s) as [Eo Er].
  { unfold audio_told, responses_told, told, log. rewrite T, omap_app, !fmap_app, !total_app, I3, I4. lia. }
  constructor; rewrite ?Ea; unfold applied_ids, audio_in in *; rewrite ?Ep, ?Eo, ?Er, ?Hs, ?Hin, ?Hout, ?Hre; try done.
  intros k c f. rewrite T. intros Hk. apply lookup_app_Some in Hk as [Hk|[_ Hk]].
  - rewrite take_app_le by (apply lookup_lt_Some in Hk; lia). by eapply H1.
  - apply list_elem_of_lookup_2 in Hk. rewrite Forall_forall in Hi. by apply Hi in Hk.
Qed.

Lemma told_as_audio e : audio_out (told_as cfg e) = audio_out e /\ starts_response (told_as cfg e) = starts_response e.
Proof. unfold told_as. by destruct (ss_public cfg), e. Qed.

Lemma told_as_accepted e : told_as cfg e = EvCommandAccepted false -> e = EvCommandAccepted false.
Proof. unfold told_as. by destruct (ss_public cfg), e. Qed.

(** Telling something inert. *)
Lemma emit_commanded e cid s :
  audio_out e = 0%Z -> starts_response e = 0%Z -> e <> EvCommandAccepted false -> commanded s -> commanded (emit cfg e cid s).
Proof.
  intros H1 H2 H3 H. destruct (emit_trace cfg e cid s) as [[_ ->]|(enc & tail & _ & T & Hq)]; [done|].
  eapply commanded_inert; [exact T| |by apply same_counts_tally, emit_counts|done].
  destruct (told_as_audio e) as [E1 E2]. constructor.
  - cbn. rewrite E1, E2. split_and!; try done. intros H4%told_as_accepted. done.
  - eapply Forall_impl; [exact Hq|apply quiet_inert].
Qed.

Lemma finish_commanded w reason failure cid code s :
  closed s = false -> commanded s -> commanded (finish cfg w reason failure cid code s).
Proof.
  intros Hc H. destruct (finish_trace cfg ltac:(intros; apply encodes) w reason failure cid code s Hc)
    as (words & h & ev & enc & q & e & st & q' & T & Hev & Hw & Hq & Hq' & _ & _ & _ & _ & _ & Ht).
  eapply commanded_inert; [exact T| |exact Ht|done].
  assert (forall l, Forall quiet l -> Forall inert l) as Hqi by (intros l Hl; eapply Forall_impl; [exact Hl|apply quiet_inert]).
  apply Forall_app. split.
  - eapply Forall_impl; [exact Hw|]. intros a [Ha|(h' & f & enc' & ->)]; [by apply quiet_inert|]. cbn.
    destruct (told_as_audio (EvError true f)) as [-> ->]. split_and!; try done. by intros ?%told_as_accepted.
  - rewrite !Forall_app. split_and!; try by apply Hqi.
    + constructor; [|constructor]. cbn. destruct (told_as_audio ev) as [-> ->].
      destruct ev; try done; split_and!; try done; by intros ?%told_as_accepted.
    + destruct (opened _); by repeat constructor.
    + by repeat constructor.
    + destruct (ss_public cfg); by repeat constructor.
Qed.

(** *** A command *)

Lemma acknowledged_commanded c s :
  accepted_command cfg s c -> commanded s ->
  commanded (acknowledged cfg c s) /\ command_CommandID c ∈ acks (acknowledged cfg c s) /\
  (command_CommandID c ∉ applied_ids (acknowledged cfg c s)) /\ inputBytes (acknowledged cfg c s) = inputBytes s.
Proof.
  intros [Hv Hnew Ha _] [H1 [H2 H2'] [H3 H3'] H4 H5 H6 H7]. unfold acknowledged. set (id := command_CommandID c) in *.
  set (s0 := set_seen ({[id]} ∪ seen s) s).
  destruct (emit_trace cfg (EvCommandAccepted false) (Some id) s0) as [[He _]|(enc & tail & _ & T & Hq)].
  { destruct (encodes (header_of cfg (Some id) s0) (told_as cfg (EvCommandAccepted false))). congruence. }
  assert (told_as cfg (EvCommandAccepted false) = EvCommandAccepted false) as Ht by (unfold told_as; by destruct (ss_public cfg)).
  rewrite Ht in T. destruct (emit_counts cfg (EvCommandAccepted false) (Some id) s0) as [_ Cs _ Ci Co Cr _ _].
  set (s1 := emit cfg (EvCommandAccepted false) (Some id) s0) in *. clearbody s1. change (trace s0) with (trace s) in T.
  change (seen s0) with ({[id]} ∪ seen s) in Cs. change (inputBytes s0) with (inputBytes s) in Ci.
  change (outputBytes s0) with (outputBytes s) in Co. change (responses s0) with (responses s) in Cr.
  destruct (inert_readings tail) as (I1 & I2 & I3 & I4); [eapply Forall_impl; [exact Hq|apply quiet_inert]|].
  assert (acks s1 = acks s ++ [id] /\ applied s1 = applied s) as [Ea Ep].
  { unfold acks, applied. rewrite T, !omap_app. cbn. by rewrite I1, I2, !app_nil_r. }
  assert (audio_told s1 = audio_told s /\ responses_told s1 = responses_told s) as [Eo Er].
  { unfold audio_told, responses_told, told, log in *. rewrite T, omap_app. cbn. rewrite !fmap_app. cbn. rewrite !total_app. cbn.
    unfold total in *. rewrite I3, I4. lia. }
  assert (id ∉ acks s) as Hfresh by (intros H%H2'; done).
  split; [|split; [|split; [|done]]].
  - constructor; unfold applied_ids, audio_in in *; rewrite ?Ea, ?Ep, ?Eo, ?Er, ?Cs, ?Ci, ?Co, ?Cr; try done.
    + intros k c' f. rewrite T. intros Hk. apply lookup_app_Some in Hk as [Hk|[_ Hk]].
      * rewrite take_app_le by (apply lookup_lt_Some in Hk; lia). by eapply H1.
      * apply list_elem_of_lookup_2, elem_of_cons in Hk as [?|Hk]; [done|]. rewrite Forall_forall in Hq. by apply Hq in Hk.
    + split; [apply NoDup_app; split_and!; try done; [by intros ? ? ->%list_elem_of_singleton|apply NoDup_singleton]|].
      intros id'. rewrite elem_of_app, list_elem_of_singleton. set_solver.
    + split; [done|]. intros id' H%H3'. set_solver.
  - rewrite Ea, elem_of_app. right. by apply list_elem_of_singleton.
  - unfold applied_ids in *. rewrite Ep. intros H%H3'. done.
Qed.

Lemma applied_commanded c f n s1 s2 :
  commanded s1 -> command_CommandID c ∈ acks s1 -> command_CommandID c ∉ applied_ids s1 ->
  validateRealtimeCommand c (ses_RequestID (ss_request cfg)) = None ->
  n = audio_taken (c, f) -> (inputBytes s1 + n <= MaxInputAudioBytes limits)%Z ->
  trace s2 = trace s1 ++ [Applied c f] -> seen s2 = seen s1 -> inputBytes s2 = (inputBytes s1 + n)%Z ->
  outputBytes s2 = outputBytes s1 -> responses s2 = responses s1 -> commanded s2.
Proof.
  intros [H1 [H2 H2'] [H3 H3'] H4 [H5 H5'] H6 H7] Hack Hnew Hv -> Hn T Es Ei Eo Er.
  assert (acks s2 = acks s1 /\ applied s2 = applied s1 ++ [(c, f)] /\ told s2 = told s1) as (Ea & Ep & Et).
  { unfold acks, applied, told, log. rewrite T, !omap_app. cbn. by rewrite !app_nil_r. }
  assert (forall id, id ∈ applied_ids s2 <-> id ∈ applied_ids s1 \/ id = command_CommandID c) as Hids.
  { intros id. unfold applied_ids. rewrite Ep, fmap_app, elem_of_app. cbn. by rewrite list_elem_of_singleton. }
  constructor; unfold audio_told, responses_told, audio_in in *; rewrite ?Ea, ?Et, ?Es, ?Ei, ?Eo, ?Er; try done.
  - intros k c' f'. rewrite T. intros Hk. apply lookup_app_Some in Hk as [Hk|[Hk Hk']].
    + rewrite take_app_le by (apply lookup_lt_Some in Hk; lia). by eapply H1.
    + destruct (k - length (trace s1))%nat as [|j] eqn:Ej; [|by destruct j]. injection Hk' as <- <-.
      replace k with (length (trace s1)) by lia. by rewrite take_app_length.
  - split.
    + unfold applied_ids in *. rewrite Ep, fmap_app. cbn. apply NoDup_app. split_and!; [done| |apply NoDup_singleton].
      by intros id Hid ->%list_elem_of_singleton.
    + intros id [Hid| ->]%Hids; auto.
  - rewrite Ep. apply Forall_app. split; [done|]. by constructor.
  - rewrite Ep, fmap_app, total_app, <-H5. cbn. lia.
Qed.

Lemma apply_commanded w c s :
  closed s = false -> accepted_command cfg s c -> commanded s -> commanded (apply_command cfg w c s).
Proof.
  intros Hc Ha H. destruct (acknowledged_commanded c s Ha H) as (H1 & Hack & Hnew & Hin). destruct Ha as [Hv _ Hle _].
  assert (closed (acknowledged cfg c s) = false) as Hc1.
  { unfold acknowledged. by rewrite (sc_closed _ _ (emit_counts cfg _ _ _)). }
  set (s1 := acknowledged cfg c s) in *.
  assert (m_Send w c <> None -> commanded (act (Applied c (m_Send w c)) s1)) as H2.
  { intros Hs. eapply (applied_commanded c (m_Send w c) 0 s1); try done; cbn; [by destruct (m_Send w c)| |lia].
    pose proof (proj2 (cm_input _ H1)). lia. }
  apply apply_branches; fold s1.
  - intros. by apply finish_commanded.
  - intros. apply finish_commanded; [done|by apply H2].
  - intros. by apply emit_commanded; [..|by apply H2].
  - intros Hs. eapply (applied_commanded c None _ s1); try done; cbn; [rewrite Hin; lia|by rewrite Hs].
Qed.

(** *** An event of the provider session *)

Lemma counted_commanded e cid s s' :
  commanded s -> trace s' = trace s -> seen s' = seen s -> inputBytes s' = inputBytes s ->
  outputBytes s' = (outputBytes s + audio_out e)%Z -> responses s' = (responses s + starts_response e)%Z ->
  (outputBytes s' <= MaxOutputAudioBytes limits)%Z -> (responses s' <= MaxResponses limits)%Z ->
  e <> EvCommandAccepted false -> commanded (emit cfg e cid s').
Proof.
  intros [H1 H2 H3 H4 H5 [H6 _] [H7 _]] T Es Ei Eo Er Lo Lr He.
  destruct (emit_trace cfg e cid s') as [[Hx _]|(enc & tail & _ & T' & Hq)].
  { destruct (encodes (header_of cfg cid s') (told_as cfg e)). congruence. }
  destruct (emit_counts cfg e cid s') as [_ Cs _ Ci Co Cr _ _]. set (s2 := emit cfg e cid s') in *. clearbody s2.
  rewrite T in T'. destruct (inert_readings tail) as (I1 & I2 & I3 & I4); [eapply Forall_impl; [exact Hq|apply quiet_inert]|].
  assert (told_as cfg e <> EvCommandAccepted false) as He' by by intros ?%told_as_accepted.
  assert (acks s2 = acks s /\ applied s2 = applied s) as [Ea Ep].
  { assert (ack_of (Emitted (header_of cfg cid s') (told_as cfg e) enc) = None) as Hack.
    { destruct (told_as cfg e); try done. by destruct duplicate. }
    unfold acks, applied. rewrite T', !omap_app. cbn [omap list_omap]. rewrite Hack, I1, I2. cbn. by rewrite !app_nil_r. }
  destruct (told_as_audio e) as [Ao Ar].
  assert (audio_told s2 = (audio_told s + audio_out e)%Z /\ responses_told s2 = (responses_told s + starts_response e)%Z) as [Et Ert].
  { unfold audio_told, responses_told, told, log in *. rewrite T', omap_app. cbn. rewrite !fmap_app. cbn. rewrite !total_app. cbn.
    unfold total in *. rewrite I3, I4, Ao, Ar. lia. }
  constructor; unfold applied_ids, audio_in in *; rewrite ?Ea, ?Ep, ?Et, ?Ert, ?Cs, ?Ci, ?Co, ?Cr, ?Es, ?Ei; try done; try lia.
  intros k c f. rewrite T'. intros Hk. apply lookup_app_Some in Hk as [Hk|[_ Hk]].
  - rewrite take_app_le by (apply lookup_lt_Some in Hk; lia). by eapply H1.
  - apply list_elem_of_lookup_2, elem_of_cons in Hk as [?|Hk]; [done|]. rewrite Forall_forall in Hq. by apply Hq in Hk.
Qed.

Lemma event_commanded w e cid s s' :
  session_event e = false -> count_event cfg w e s = Some s' -> commanded s -> commanded (emit cfg (name_deployment cfg e) cid s').
Proof.
  intros He Hcount H. pose proof (count_event_same _ _ _ _ _ Hcount) as (_ & _ & T & _ & _ & _ & Es & _ & Ei).
  pose proof (proj2 (cm_output _ H)) as Ho. pose proof (proj2 (cm_responses _ H)) as Hr.
  assert (outputBytes s' = outputBytes s + audio_out (name_deployment cfg e) /\
    responses s' = responses s + starts_response (name_deployment cfg e) /\
    outputBytes s' <= MaxOutputAudioBytes limits /\ responses s' <= MaxResponses limits)%Z as (E1 & E2 & E3 & E4).
  { revert Hcount. unfold count_event, markOutput.
    destruct e; cbn; try done; try (intros [= <-]; lia); repeat case_match; bool_cases; try done; intros [= <-]; cbn; lia. }
  eapply counted_commanded; [exact H|done..|]. by destruct e.
Qed.

(** *** Everything else *)

Lemma detach_commanded c code s : commanded s -> commanded (detach cfg c code s).
Proof.
  destruct (detach_trace cfg c code s) as (tail & T & Hq & _).
  eapply commanded_inert; [exact T| |by apply same_counts_tally, detach_counts]. eapply Forall_impl; [exact Hq|apply quiet_inert].
Qed.

Lemma write_commanded e s : commanded s -> commanded (write cfg e s).
Proof.
  destruct (write_trace cfg e s) as (tail & T & Hq).
  eapply commanded_inert; [exact T| |by apply same_counts_tally, write_counts]. eapply Forall_impl; [exact Hq|apply quiet_inert].
Qed.

Lemma act_commanded a s : inert a -> commanded s -> commanded (act a s).
Proof. intros Ha. eapply commanded_inert; [done|by repeat constructor|done]. Qed.

Lemma same_commanded s s' : trace s' = trace s -> same_tally s s' -> commanded s -> commanded s'.
Proof. intros T. eapply (commanded_inert _ _ []); [by rewrite app_nil_r|constructor]. Qed.

Lemma resume_commanded cid a s : commanded s -> commanded (resume cfg cid a s).
Proof.
  intros H. unfold resume. destruct (closed s); [by apply act_commanded|]. destruct (after _ _ _) as [missed|]; [|by apply act_commanded].
  cbv zeta. apply act_commanded; [done|]. apply emit_commanded; [done..|].
  set (s1 := connect _ _). assert (commanded s1) as H1.
  { eapply (commanded_inert (match attached s with Some conn => detach cfg conn StatusGoingAway s | None => s end));
      [done|by repeat constructor|done|]. destruct (attached s); [by apply detach_commanded|done]. }
  clearbody s1. revert s1 H1. induction missed as [|e missed IH]; [done|]. intros s1 H1. cbn. by apply IH, write_commanded.
Qed.

Lemma step_commanded w i s : input_honest i -> closed s = false -> commanded s -> commanded (step cfg w i s).
Proof.
  intros Hi Hc H. assert (forall s', touched cfg s s' -> commanded s' /\ closed s' = false) as Ht.
  { intros s' [->| ->]; [done|]. split; [|done]. by eapply same_commanded; [..|exact H]. }
  apply step_branches.
  - done.
  - intros c. by apply detach_commanded.
  - intros s' e cid Hs [[f ->]| ->]; by apply emit_commanded, Ht.
  - intros s' reason failure cid code Hs. by apply finish_commanded; apply Ht.
  - intros s' c Hs Ha. by apply apply_commanded; [apply Ht|..|apply Ht].
  - intros event cid reported ->. assert (commanded (set_units (add_units reported (units s)) s)) as H1.
    { by eapply same_commanded; [..|exact H]. }
    split; [done|]. split; [intros; by apply finish_commanded|]. intros e s' -> He. by eapply event_commanded.
  - intros cid a _. by apply resume_commanded.
Qed.

Lemma start_commanded w : commanded (start cfg w (newSession cfg)).
Proof.
  assert (commanded (connect 0 (newSession cfg))) as H.
  { unfold limits_in_range, outside in limits_ok. bool_cases.
    constructor; cbn; try done; try lia; try (split; [constructor|by intros ? []%not_elem_of_nil]).
    intros [|k] c f; [done|]. by destruct k. }
  unfold start. cbv zeta. destruct (opened (ss_opening cfg)) eqn:Ho; cbn [negb]; [|by apply finish_commanded].
  set (ev := EvSessionCreated _ _ _ _ _ _ _ _ _).
  eapply same_commanded; [..|exact (emit_commanded ev None (connect 0 (newSession cfg)) eq_refl eq_refl ltac:(discriminate) H)]; done.
Qed.

End Commands.

(** ** What a public session says *)

Section Public.
Variable cfg : Setting.
Hypothesis encodes : forall h e, closing_event e = true -> is_Some (ss_encode cfg h e).

(** An event only the internal lane tells. *)
Definition internal_event (e : RealtimeServerEvent) : bool :=
  match e with
  | EvSessionCreated _ _ _ _ _ _ _ _ _ | EvResponseDone _ _ _ _ _ _ | EvError _ _ | EvSessionClosed _ _ _ _ _ => true
  | _ => false
  end.

(** Everything told is what [emit] made of some event. *)
Definition told_through (a : Act) : Prop :=
  match a with Emitted _ e _ => exists e', e = told_as cfg e' | _ => True end.
Definition through (s : session) : Prop := Forall told_through (trace s).

Lemma quiet_through a : quiet a -> told_through a.
Proof. by destruct a. Qed.

Lemma quiet_through_all l : Forall quiet l -> Forall told_through l.
Proof. intros H. eapply Forall_impl; [exact H|apply quiet_through]. Qed.

Lemma through_app s s' tail : trace s' = trace s ++ tail -> Forall told_through tail -> through s -> through s'.
Proof. unfold through. intros -> ? ?. by apply Forall_app. Qed.

Lemma emit_through e cid s : through s -> through (emit cfg e cid s).
Proof.
  destruct (emit_trace cfg e cid s) as [[_ ->]|(enc & tail & _ & T & Hq)]; [done|].
  eapply through_app; [exact T|]. constructor; [by eexists|by apply quiet_through_all].
Qed.

Lemma act_through a s : told_through a -> through s -> through (act a s).
Proof. intros Ha. eapply through_app; [done|by repeat constructor]. Qed.

Lemma write_through e s : through s -> through (write cfg e s).
Proof. destruct (write_trace cfg e s) as (tail & T & Hq). by eapply through_app; [exact T|apply quiet_through_all]. Qed.

Lemma detach_through c code s : through s -> through (detach cfg c code s).
Proof. destruct (detach_trace cfg c code s) as (tail & T & Hq & _). by eapply through_app; [exact T|apply quiet_through_all]. Qed.

Lemma finish_through w reason failure cid code s : closed s = false -> through s -> through (finish cfg w reason failure cid code s).
Proof.
  intros Hc. destruct (finish_trace cfg encodes w reason failure cid code s Hc)
    as (words & h & ev & enc & q & e & st & q' & T & _ & Hw & Hq & Hq' & _).
  eapply through_app; [exact T|]. rewrite !Forall_app. split_and!; try by apply quiet_through_all.
  - eapply Forall_impl; [exact Hw|]. intros a [Ha|(h' & f & enc' & ->)]; [by apply quiet_through|by eexists].
  - constructor; [by eexists|constructor].
  - destruct (opened _); by repeat constructor.
  - by repeat constructor.
  - destruct (ss_public cfg); by repeat constructor.
Qed.

Lemma resume_through cid a s : through s -> through (resume cfg cid a s).
Proof.
  intros H. unfold resume. destruct (closed s); [by apply act_through|]. destruct (after _ _ _) as [missed|]; [|by apply act_through].
  cbv zeta. apply act_through; [done|]. apply emit_through. set (s1 := connect _ _). assert (through s1) as H1.
  { apply act_through; [done|]. unfold through. cbn. destruct (attached s); [by apply detach_through|done]. }
  clearbody s1. revert s1 H1. induction missed as [|e missed IH]; [done|]. intros s1 H1. cbn. by apply IH, write_through.
Qed.

Lemma step_through w i s : closed s = false -> through s -> through (step cfg w i s).
Proof.
  intros Hc H. assert (forall s', touched cfg s s' -> through s' /\ closed s' = false) as Ht by by intros s' [->| ->].
  apply step_branches.
  - done.
  - intros c. by apply detach_through.
  - intros s' e cid Hs _. by apply emit_through, Ht.
  - intros s' reason failure cid code Hs. by apply finish_through; apply Ht.
  - intros s' c Hs _. destruct (Ht s' Hs) as [H' Hc']. assert (through (acknowledged cfg c s')) as H1 by by apply emit_through.
    assert (closed (acknowledged cfg c s') = false) as Hc1.
    { unfold acknowledged. by rewrite (sc_closed _ _ (emit_counts cfg _ _ _)). }
    assert (through (act (Applied c (m_Send w c)) (acknowledged cfg c s'))) as H2 by by apply act_through.
    apply apply_branches; intros; [by apply finish_through|by apply finish_through|by apply emit_through|done].
  - intros event cid reported ->. split; [done|]. split; [intros; by apply finish_through|].
    intros e s' _ He. apply count_event_same in He as (_ & _ & T & _). apply emit_through. unfold through. by rewrite T.
  - intros cid a _. by apply resume_through.
Qed.

Lemma run_through w inputs : through (run cfg w inputs).
Proof.
  unfold run. apply (run_loop_invariant cfg through); [intros; by apply step_through|].
  unfold start. cbv zeta. assert (through (connect 0 (newSession cfg))) as H by by repeat constructor.
  destruct (opened (ss_opening cfg)); cbn [negb]; [|by apply finish_through].
  set (ev := EvSessionCreated _ _ _ _ _ _ _ _ _). exact (emit_through ev None (connect 0 (newSession cfg)) H).
Qed.

End Public.

(** ** Properties *)

(** C10. Commands are applied at most once, after they are acknowledged, within
    the signed ceilings.  Whatever the client sends, repeats or resumes, and
    whatever the provider session tells: no command id is applied twice or
    acknowledged as new twice; every command applied was acknowledged before,
    names this session and follows the contract; and the audio taken in, the
    audio told and the responses started are what the session counts and never
    pass the ceilings its request signed. *)
Theorem commands_apply_once_within_limits cfg w inputs :
  (forall h e, is_Some (ss_encode cfg h e)) -> limits_in_range (Limits (ss_request cfg)) = true ->
  Forall (fun wi => input_honest wi.2) inputs ->
  let s := run cfg w inputs in
  NoDup (applied_ids s) /\ NoDup (acks s) /\
  (forall k c f, trace s !! k = Some (Applied c f) ->
     command_CommandID c ∈ omap ack_of (take k (trace s)) /\
     validateRealtimeCommand c (ses_RequestID (ss_request cfg)) = None) /\
  (audio_in s <= MaxInputAudioBytes (Limits (ss_request cfg)))%Z /\
  (audio_told s <= MaxOutputAudioBytes (Limits (ss_request cfg)))%Z /\
  (responses_told s <= MaxResponses (Limits (ss_request cfg)))%Z.
Proof.
  intros Henc Hl Hin s. assert (commanded cfg s) as [H1 [H2 _] [H3 _] H4 [H5 H5'] [H6 H6'] [H7 H7']].
  { apply (run_loop_invariant cfg (commanded cfg)); [|by apply start_commanded].
    intros w' i s' Hi Hc H. apply step_commanded; try done. rewrite Forall_forall in Hin. by apply list_elem_of_In, Hin in Hi. }
  rewrite <-H5, <-H6, <-H7. split_and!; try done. intros k c f Hk. split; [by eapply H1|].
  rewrite Forall_forall in H4. apply (H4 (c, f)). unfold applied. apply list_elem_of_omap.
  exists (Applied c f). split; [by eapply list_elem_of_lookup_2|done].
Qed.

(** A public session names no provider.  Nothing it tells is one of the
    events that name a provider, a deployment or an internal error, and what
    a connection is delivered is a run of its event log: no usage report frame
    is ever sent. *)
Theorem public_sessions_name_no_provider cfg w inputs :
  ss_public cfg = true -> (forall h e, closing_event e = true -> is_Some (ss_encode cfg h e)) ->
  let s := run cfg w inputs in
  Forall (fun e => internal_event e = false) (told s) /\
  forall c from, (c, from) ∈ starts s -> delivered c s `prefix_of` drop from (frames s).
Proof.
  intros Hp Henc s. split.
  - pose proof (run_through cfg Henc w inputs) as H. fold s in H. unfold through, told, log in *.
    induction (trace s) as [|a l IH]; [constructor|]. apply Forall_cons in H as [Ha Hl]. cbn.
    destruct a; try by apply IH. cbn. constructor; [|by apply IH]. destruct Ha as [e ->]. unfold told_as. rewrite Hp. by destruct e.
  - intros c from Hfrom. destruct (run_telling cfg w inputs) as (_ & Hs & _). fold s in Hs.
    destruct (Hs c from Hfrom) as (sent & tail & -> & Hpre & [->|(_ & Hn & _)]); [by rewrite app_nil_r|congruence].
Qed.

Lemma commands_apply_once_within_limits_witness :
  applied_ids (run example_setting example_moment example_ended) = ["c1"] /\
  audio_in (run example_setting example_moment example_ended) = 5%Z /\
  NoDup (applied_ids (run example_setting example_moment example_ended)).
Proof.
  split; [vm_compute; reflexivity|]. split; [vm_compute; reflexivity|].
  exact (proj1 (commands_apply_once_within_limits example_setting example_moment example_ended
    (fun h e => mk_is_Some _ _ eq_refl) ltac:(vm_compute; reflexivity) example_honest)).
Defined.

Lemma public_sessions_name_no_provider_witness :
  ss_public example_setting = true /\
  Forall (fun e => internal_event e = false) (told (run example_setting example_moment example_ended)).
Proof.
  split; [reflexivity|].
  exact (proj1 (public_sessions_name_no_provider example_setting example_moment example_ended eq_refl
    (fun h e _ => mk_is_Some _ _ eq_refl))).
Defined.
