(* ===== verification/RealtimeSettle.v ===== *)
(** * What a realtime session is billed (internal/realtime/session.go)

    A session's totals are the sums of what its provider reported, plus what
    was measured of it when it ended; the report it settles with bills exactly
    them. *)

From S2P Require Import Prelude Ids Text CustomerLimit Contract Request Provider KeyPool ProviderCost.
From S2P Require Import Adapter Inventory Retry Routes Settle PublicContract RealtimeContract SessionOpen Replay Realtime RealtimeLog.
From S2P Require Import RealtimeEnd RealtimeCommands.

(** ** Totals *)

(** The quantities of one unit. *)
Definition of_unit (u : string) (l : list UsageQuantity) : list Z :=
  omap (fun q => if decide (Unit q = u) then Some (Quantity q) else None) l.

Lemma add_units_snoc l q m :
  add_units (l ++ [q]) m = <[Unit q := wrap64 (default 0%Z (add_units l m !! Unit q) + Quantity q)]> (add_units l m).
Proof. unfold add_units. by rewrite foldl_app. Qed.

Lemma add_units_app l l' m : add_units (l ++ l') m = add_units l' (add_units l m).
Proof. unfold add_units. by rewrite foldl_app. Qed.

(** One unit's total is the sum of what was added of it, at 64 bits. *)
Lemma add_units_lookup l u :
  add_units l ∅ !! u = if decide (u ∈ Unit <$> l) then Some (wrap64 (total (of_unit u l))) else None.
Proof.
  induction l as [|q l IH] using rev_ind; [by rewrite decide_False by apply not_elem_of_nil|].
  rewrite add_units_snoc, fmap_app. unfold of_unit in *. rewrite omap_app. cbn. destruct (decide (Unit q = u)) as [<-|Hne].
  - assert (Unit q ∈ (Unit <$> l) ++ [Unit q]) as Hlast by (apply elem_of_app; right; by apply list_elem_of_singleton).
    rewrite lookup_insert_eq, IH, (decide_True _ _ Hlast).
    rewrite total_app. cbn. rewrite Z.add_0_r. f_equal. case_decide as Hin; cbn; [by rewrite wrap64_add_l|].
    f_equal. assert (omap (fun q' => if decide (Unit q' = Unit q) then Some (Quantity q') else None) l = []) as ->; [|done].
    clear IH Hlast. induction l as [|q' l IHl]; [done|]. cbn in *. apply not_elem_of_cons in Hin as [Hne Hin].
    rewrite decide_False by congruence. by apply IHl.
  - rewrite lookup_insert_ne, IH by done. rewrite app_nil_r.
    assert (u ∈ (Unit <$> l) ++ [Unit q] <-> u ∈ Unit <$> l) as Hiff.
    { rewrite elem_of_app, list_elem_of_singleton. split; [intros [?| ->]; done|by left]. }
    by rewrite (decide_ext _ _ _ _ Hiff).
Qed.

(** [totals]: each unit once, sorted, as counted. *)
Lemma session_totals_spec m :
  NoDup (Unit <$> totals m) /\ Sorted (key_le Unit) (totals m) /\
  forall q, q ∈ totals m <-> m !! Unit q = Some (Quantity q).
Proof.
  unfold totals. set (l := map _ (map_to_list m)). assert (Unit <$> l = (map_to_list m).*1) as Hu.
  { unfold l. rewrite <-list_fmap_compose. by apply list_fmap_ext. }
  split_and!.
  - rewrite (fmap_Permutation Unit _ _ (sort_by_permutation Unit l)), Hu. apply NoDup_fst_map_to_list.
  - apply sort_by_sorted.
  - intros [u n]. rewrite sort_by_permutation. unfold l. rewrite list_elem_of_fmap. cbn. split.
    + intros ([u' n'] & [= -> ->] & H). by apply elem_of_map_to_list in H.
    + intros H. exists (u, n). split; [done|]. by apply elem_of_map_to_list.
Qed.

(** Units the contract knows stay so. *)
Lemma totals_known l :
  Forall (fun q => Unit q ∈ usageUnitValues) l -> Forall (fun q => Unit q ∈ usageUnitValues) (totals (add_units l ∅)).
Proof.
  rewrite !Forall_forall. intros H q Hq. apply (session_totals_spec (add_units l ∅)) in Hq. rewrite add_units_lookup in Hq.
  case_decide as Hin; [|done]. apply list_elem_of_fmap in Hin as (q' & -> & Hq'). by apply H.
Qed.

(** ** What a run consumed *)

Definition units_of_input (i : Input) : list UsageQuantity := match i with UpEvent _ _ reported => reported | _ => [] end.

Section Billing.
Variable cfg : Setting.
Hypothesis encodes : forall h e, closing_event e = true -> is_Some (ss_encode cfg h e).

(** What a meter adds when the session ends. *)
Definition measured (w : Moment) (s : session) : list UsageQuantity :=
  if closed s then (if opened (ss_opening cfg) then default [] (m_Measured w) else []) else [].

(** Everything reported while the session was live, and what ending it measured. *)
Fixpoint consumed (inputs : list (Moment * Input)) (s : session) : list UsageQuantity :=
  match inputs with
  | [] => []
  | (w, i) :: inputs =>
      if closed s then []
      else units_of_input i ++ measured w (step cfg w i s) ++ consumed inputs (step cfg w i s)
  end.

(** [s'] is [s] with [more] counted, and with what ending it measured. *)
Definition counts_on (w : Moment) (more : list UsageQuantity) (s s' : session) : Prop :=
  units s' = add_units (more ++ measured w s') (units s).

Lemma counts_on_live w more s s' : closed s' = false -> units s' = add_units more (units s) -> counts_on w more s s'.
Proof. unfold counts_on, measured. intros -> ->. by rewrite app_nil_r. Qed.

Lemma finish_counts w reason failure cid code s s0 more :
  closed s = false -> units s = add_units more (units s0) -> counts_on w more s0 (finish cfg w reason failure cid code s).
Proof.
  intros Hc Hu. destruct (finish_trace cfg encodes w reason failure cid code s Hc)
    as (_ & _ & _ & _ & _ & _ & _ & _ & _ & _ & _ & _ & _ & _ & Hcl & _ & _ & Hunits & _).
  unfold counts_on, measured. by rewrite Hcl, Hunits, Hu, add_units_app.
Qed.

Lemma same_counts_on w more s s' s'' :
  same_counts s' s'' -> counts_on w more s s' -> counts_on w more s s''.
Proof. unfold counts_on, measured. by intros [-> _ -> _ _ _ _ _]. Qed.

Lemma resume_units cid a s : units (resume cfg cid a s) = units s.
Proof.
  unfold resume. destruct (closed s); [done|]. destruct (after _ _ _) as [missed|]; [|done]. cbv zeta. cbn [units act].
  rewrite (sc_units _ _ (emit_counts cfg _ _ _)). set (s1 := connect _ _). assert (units s1 = units s) as H1.
  { unfold s1, connect. cbn. destruct (attached s) as [c|]; [|done]. by rewrite (sc_units _ _ (detach_counts cfg _ _ _)). }
  clearbody s1. revert s1 H1. induction missed as [|e missed IH]; [done|]. intros s1 H1. cbn. apply IH.
  by rewrite (sc_units _ _ (write_counts cfg _ _)).
Qed.

Lemma step_units w i s : closed s = false -> counts_on w (units_of_input i) s (step cfg w i s).
Proof.
  intros Hc. assert ((exists event cid reported, i = UpEvent event cid reported) \/
    ~ exists event cid reported, i = UpEvent event cid reported) as [(event & cid & reported & ->)|Hi].
  { destruct i; try (right; by intros (? & ? & ? & ?)). left. by eexists _, _, _. }
  - cbn [step units_of_input]. unfold upstream_event. cbv zeta. set (s' := set_units _ s).
    assert (counts_on w reported s s') as H by by apply counts_on_live.
    destruct event as [e|]; [|done]. destruct (count_event _ _ _ _) as [s''|] eqn:He; [|by apply finish_counts].
    eapply same_counts_on; [apply emit_counts|]. apply count_event_same in He as (_ & _ & _ & _ & _ & Hcl & _ & Hu & _).
    apply counts_on_live; [by rewrite Hcl|by rewrite Hu].
  - assert (units_of_input i = []) as ->. { destruct i; try done. exfalso. apply Hi. eauto. }
    assert (forall s', touched cfg s s' -> closed s' = false /\ units s' = units s) as Ht by by intros s' [->| ->].
    assert (counts_on w [] s s) as H0 by by apply counts_on_live. apply step_branches.
    + done.
    + intros c. eapply same_counts_on; [apply detach_counts|done].
    + intros s' e cid [H1 H2]%Ht _. eapply same_counts_on; [apply emit_counts|]. by apply counts_on_live.
    + intros s' reason failure cid code [H1 H2]%Ht. by apply finish_counts.
    + intros s' c [H1 H2]%Ht _. destruct (emit_counts cfg (EvCommandAccepted false) (Some (command_CommandID c))
        (set_seen ({[command_CommandID c]} ∪ seen s') s')) as [Cc _ Cu _ _ _ _ _]. cbn in Cc, Cu. rewrite H1 in Cc. rewrite H2 in Cu.
      apply apply_branches; intros.
      * by apply finish_counts.
      * by apply finish_counts.
      * eapply same_counts_on; [apply emit_counts|]. by apply counts_on_live.
      * by apply counts_on_live.
    + intros event cid reported ->. exfalso. apply Hi. eauto.
    + intros cid a _. apply counts_on_live; [by rewrite resume_closed|by rewrite resume_units].
Qed.

Lemma run_units inputs s : units (run_loop cfg inputs s) = add_units (consumed inputs s) (units s).
Proof.
  unfold run_loop. revert s. induction inputs as [|[w i] inputs IH]; intros s; [done|]. cbn [foldl consumed fst snd].
  rewrite IH. destruct (closed s) eqn:Hc.
  - destruct inputs as [|[w' i'] inputs]; cbn [consumed]; by rewrite ?Hc.
  - by rewrite app_assoc, add_units_app, <-(step_units w i s Hc).
Qed.

End Billing.

(** C12. A session bills what it consumed, once.  A session of a valid request
    that has ended settled once, into a report its request can be settled with
    (provided no unit's total left the 64-bit range): the report names the
    session, bills each unit once, and bills exactly the totals of everything
    the provider reported while the session was live and of what was measured
    of it when it ended. *)
Theorem ended_session_bills_its_totals f age i world allocated at_ r cfg w inputs :
  Parse f age = Some i -> SessionRequest_Validate (ss_request cfg) = None ->
  ss_opening cfg = opening (OpenSession i world (ss_public cfg) allocated at_ (ss_request cfg) r) ->
  (forall h e, closing_event e = true -> is_Some (ss_encode cfg h e)) ->
  Forall (fun wi => input_honest wi.2) inputs ->
  let s := run cfg w inputs in
  let bill := consumed cfg inputs (start cfg w (newSession cfg)) in
  closed s = true -> opened (ss_opening cfg) = true ->
  Forall (fun q => Unit q ∈ usageUnitValues) bill -> Forall (fun q => 0 <= Quantity q)%Z (totals (units s)) ->
  exists e st report, settlements s = [(e, st)] /\ settlement_Report st = Some report /\ settleable report /\
    report_RequestID report = ses_RequestID (ss_request cfg) /\ Units report = totals (units s) /\
    (forall u, units s !! u = if decide (u ∈ Unit <$> bill) then Some (wrap64 (total (of_unit u bill))) else None).
Proof.
  intros Hparse Hv Ho Henc Hin s bill Hc Hopen Hknown Hpos.
  pose proof (run_ending cfg w inputs Henc Hin) as Hend. fold s in Hend. unfold ending in Hend. rewrite Hc in Hend.
  destruct Hend as (_ & (w' & reason & failure & source & Hsrc & Hset) & _). cbv zeta in Hset.
  assert (units s = add_units bill ∅) as Hunits.
  { unfold s, run. rewrite run_units by done. f_equal. unfold start. cbv zeta. rewrite Hopen. cbn [negb].
    set (ev := EvSessionCreated _ _ _ _ _ _ _ _ _). exact (sc_units _ _ (emit_counts cfg ev None (connect 0 (newSession cfg)))). }
  set (e := end_of cfg w' reason failure source s) in *.
  pose proof (opened_reportable f age i world (ss_public cfg) allocated at_ (ss_request cfg) r Hparse Hv) as Hrep.
  cbv zeta in Hrep. rewrite <-Ho in Hrep. destruct Hrep as ((route & Hroute & Hrep) & _ & Hid & _).
  pose proof (SessionRequest_Validate_facts _ Hv) as (_ & Hreq & _).
  assert (end_Units e = totals (units s)) as Heu. { unfold e, end_of. by repeat case_match. }
  assert (end_well_formed (opened (ss_opening cfg)) e) as Hwf.
  { constructor; rewrite ?Heu.
    - unfold e, end_of. destruct (if reason =s RealtimeUpstreamError then _ else _) as [a b]. cbn. unfold reportOutcome.
      apply isMember_spec. repeat case_match; reflexivity.
    - right. unfold e, end_of. destruct (if reason =s RealtimeUpstreamError then _ else _) as [a b]. cbn.
      apply isMember_spec. by destruct Hsrc as [->| ->].
    - split; [|apply session_totals_spec]. rewrite Hunits in *. apply totals_known in Hknown.
      rewrite Forall_forall in *. intros q Hq. split; [by apply Hknown|by apply Hpos].
    - rewrite Hopen. unfold e, end_of. destruct (if reason =s RealtimeUpstreamError then _ else _) as [a b]. cbn.
      rewrite Hopen. unfold reportOutcome. cbn [negb]. destruct (totals (units s)); [|done]. cbn [is_nil negb orb].
      rewrite orb_true_r. by destruct (reason =s RealtimeUpstreamError). }
  destruct (SettleSession_settles (ss_costs cfg) (m_measuredAt w') (ss_recorder cfg) (ss_public cfg) (m_latency w')
    (ss_opening cfg) e route Hroute Hrep ltac:(congruence) Hwf) as (report & H1 & _ & H2 & H3 & _ & H4 & _).
  eexists _, _, report. split; [exact Hset|]. split; [exact H1|]. split; [done|]. split; [congruence|].
  rewrite Hopen, Heu in H4. split; [done|]. intros u. rewrite Hunits. apply add_units_lookup.
Qed.

Lemma ended_session_bills_its_totals_witness :
  exists e st report, settlements (run example_setting example_moment example_ended) = [(e, st)] /\
    settlement_Report st = Some report /\ settleable report /\ Units report = [mkQuantity UnitAudioInputMilliseconds 7].
Proof.
  destruct (ended_session_bills_its_totals session_file Hour (default global_inventory session_inventory) opening_world
    None 2000 (Rotation.NewRegistry Rotation.DefaultPolicy) example_setting example_moment example_ended
    ltac:(vm_compute; reflexivity) ltac:(vm_compute; reflexivity) eq_refl (fun h e _ => mk_is_Some _ _ eq_refl) example_honest
    ltac:(vm_compute; reflexivity) ltac:(vm_compute; reflexivity)) as (e & st & report & H1 & H2 & H3 & _ & H4 & _).
  - assert (consumed example_setting example_ended (start example_setting example_moment (newSession example_setting)) =
      [mkQuantity UnitAudioInputMilliseconds 7]) as -> by (vm_compute; reflexivity).
    constructor; [|constructor]. apply isMember_spec. vm_compute. reflexivity.
  - assert (totals (units (run example_setting example_moment example_ended)) = [mkQuantity UnitAudioInputMilliseconds 7]) as ->
      by (vm_compute; reflexivity).
    constructor; [discriminate|constructor].
  - exists e, st, report. split; [exact H1|]. split; [exact H2|]. split; [exact H3|].
    rewrite H4. vm_compute. reflexivity.
Defined.
