(* ===== verification/RealtimeManager.v ===== *)
(** * The session manager (internal/realtime/manager.go, public.go)

    Which sessions a task holds, who may reach one, and how it drains.  Each
    step is one critical section of the manager's mutex, so a run of the task is
    any interleaving of them.  The signature check, the owner lease and the
    admission of a public session decide a step's outcome and are its
    arguments. *)

From S2P Require Import Prelude Ids Text.

(** One session, by the identity of its run. *)
Record Held := mkHeld {
  held_run : nat;
  held_public : bool;
  held_credential : string;    (* digest; of a public session *)
}.

Record Manager := mkManager {
  sessions_held : gmap string Held;
  draining : bool;
  running : nat;               (* the wait group *)
  runs : nat;                  (* how many runs were ever started *)
}.

Definition NewManager : Manager := mkManager ∅ false 0 0.

(** [open] and the public handler past their checks: the session is registered,
    or refused.  [claimed] is whether its owner lease was taken. *)
Definition register (requestID : string) (public : bool) (credential : string) (claimed : bool) (m : Manager)
    : option nat * Manager :=
  if negb claimed then (None, m)
  else if bool_decide (is_Some (sessions_held m !! requestID)) || draining m then (None, m)
  else
    (Some (runs m),
     mkManager (<[requestID := mkHeld (runs m) public credential]> (sessions_held m)) (draining m) (S (running m)) (S (runs m))).

(** The draining check of an upgrade. *)
Definition upgrade_refused (m : Manager) : bool := draining m.

(** [resume]: the run an internal resume is handed to. *)
Definition resume_target (requestID : string) (m : Manager) : option nat :=
  match sessions_held m !! requestID with
  | Some held => if held_public held then None else Some (held_run held)
  | None => None
  end.

(** [publicResumeLocal]: the run a public resume is handed to. *)
Definition public_resume_target (requestID : string) (presented : option string) (m : Manager) : option nat :=
  match sessions_held m !! requestID, presented with
  | Some held, Some digest =>
      if held_public held && (digest =s held_credential held) then Some (held_run held) else None
  | _, _ => None
  end.

(** [remove] and the end of [run]: a session leaves only under its own name. *)
Definition remove (requestID : string) (run : nat) (m : Manager) : Manager :=
  let held :=
    match sessions_held m !! requestID with
    | Some h => if (held_run h =? run)%nat then delete requestID (sessions_held m) else sessions_held m
    | None => sessions_held m
    end in
  mkManager held (draining m) (running m - 1) (runs m).

(** [Shutdown], up to its wait; the wait is over when no run is left. *)
Definition drain (m : Manager) : Manager := mkManager (sessions_held m) true (running m) (runs m).
Definition drained (m : Manager) : bool := (running m =? 0)%nat.

Definition Open_count (m : Manager) : nat := size (sessions_held m).

(** ** Any interleaving *)

(** [live] are the runs that have started and not ended, by request. *)
Inductive reached : list (string * nat) -> Manager -> Prop :=
| Reach_new : reached [] NewManager
| Reach_register requestID public credential claimed live m run m' :
    reached live m -> register requestID public credential claimed m = (Some run, m') ->
    reached ((requestID, run) :: live) m'
| Reach_refuse requestID public credential claimed live m m' :
    reached live m -> register requestID public credential claimed m = (None, m') -> reached live m'
| Reach_end requestID run before after m :
    reached (before ++ (requestID, run) :: after) m -> reached (before ++ after) (remove requestID run m)
| Reach_drain live m : reached live m -> reached live (drain m).

Record tracks (live : list (string * nat)) (m : Manager) : Prop := {
  tr_names : NoDup live.*1;
  tr_held : forall id run, (id, run) ∈ live <-> exists h, sessions_held m !! id = Some h /\ held_run h = run;
  tr_running : running m = length live;
  tr_fresh : forall id run, (id, run) ∈ live -> (run < runs m)%nat;
  tr_runs : NoDup live.*2;
}.

Lemma manager_register_spec requestID public credential claimed m r m' :
  register requestID public credential claimed m = (r, m') ->
  (r = None /\ m' = m) \/
  (r = Some (runs m) /\ sessions_held m !! requestID = None /\ draining m = false /\
   m' = mkManager (<[requestID := mkHeld (runs m) public credential]> (sessions_held m)) false (S (running m)) (S (runs m))).
Proof.
  unfold register. destruct claimed; cbn [negb]; [|intros [= <- <-]; by left].
  destruct (bool_decide _ || draining m) eqn:E; [intros [= <- <-]; by left|]. intros [= <- <-]. right.
  apply orb_false_iff in E as [E1 E2]. apply bool_decide_eq_false in E1. rewrite E2. split_and!; try done.
  by apply eq_None_not_Some.
Qed.

Lemma reached_tracks live m : reached live m -> tracks live m.
Proof.
  induction 1 as [|id public credential claimed live m run m' _ [Hn Hh Hr Hf Hu] Hreg
    |id public credential claimed live m m' _ IH Hreg|id run before after m _ [Hn Hh Hr Hf Hu]|live m _ [Hn Hh Hr Hf Hu]].
  - constructor; cbn; try done; try (by constructor).
    + intros id run. split; [by intros ?%elem_of_nil|by intros (h & ?%lookup_empty_Some & _)].
    + by intros ? ? ?%elem_of_nil.
  - apply manager_register_spec in Hreg as [[? _]|([= ->] & Hnone & _ & ->)]; [done|].
    assert (id ∉ live.*1) as Hfresh.
    { intros ([id' run'] & [= ->] & (h & ? & _)%Hh)%list_elem_of_fmap. congruence. }
    constructor; cbn [sessions_held running runs fmap list_fmap fst snd length].
    + by constructor.
    + intros id' run'. rewrite elem_of_cons. destruct (decide (id' = id)) as [->|Hne].
      * rewrite lookup_insert_eq. split; [|by intros (h & [= <-] & <-); left].
        intros [[= ->]|Hin]; [by eexists|]. exfalso. apply Hfresh, list_elem_of_fmap. by exists (id, run').
      * rewrite lookup_insert_ne by done. rewrite <-Hh. split; [intros [[= ? ?]|?]; done|by right].
    + by rewrite Hr.
    + intros id' run'. rewrite elem_of_cons. intros [[= -> ->]|Hin]; [lia|]. apply Hf in Hin. lia.
    + constructor; [|done]. intros ([id' run'] & Heq & Hin)%list_elem_of_fmap. cbn in Heq. subst. apply Hf in Hin. lia.
  - apply manager_register_spec in Hreg as [[_ ->]|[? _]]; done.
  - rewrite !fmap_app, !fmap_cons in *. cbn [fst snd] in *. rewrite <-Permutation_middle in Hn, Hu.
    apply NoDup_cons in Hn as [Hid Hn], Hu as [Hrun Hu]. rewrite <-!fmap_app in *.
    assert ((id, run) ∈ before ++ (id, run) :: after) as Hself by (apply elem_of_app; right; apply elem_of_cons; by left).
    pose proof (proj1 (Hh id run) Hself) as (h & Hl & Hhr).
    assert (forall id' run', (id', run') ∈ before ++ after <-> (id', run') ∈ before ++ (id, run) :: after /\ id' <> id) as Hsplit.
    { intros id' run'. rewrite !elem_of_app, elem_of_cons. split.
      - intros Hin. split; [tauto|]. intros ->. apply Hid, list_elem_of_fmap. exists (id, run'). split; [done|]. by apply elem_of_app.
      - intros [[?|[[= -> ->]|?]] Hne]; tauto. }
    constructor; unfold remove; cbn [sessions_held running runs]; rewrite ?Hl, ?Hhr, ?Nat.eqb_refl; try done.
    + intros id' run'. rewrite Hsplit, Hh. destruct (decide (id' = id)) as [->|Hne].
      * rewrite lookup_delete_eq. split; [naive_solver|by intros (? & ? & _)].
      * rewrite lookup_delete_ne by done. naive_solver.
    + rewrite Hr, !length_app. cbn. lia.
    + intros id' run' Hin. apply Hsplit in Hin as [Hin _]. by eapply Hf.
  - by constructor.
Qed.

(** A task holds one run per session and drains completely.  In every
    interleaving of opens, ends and drains: the sessions held are exactly the
    runs that have started and not ended, no two for one request and no run
    under two; so a drain is over exactly when none is held; and once draining,
    no session is ever registered. *)
Theorem one_run_per_session live m :
  reached live m ->
  NoDup live.*1 /\ NoDup live.*2 /\
  (forall id run, (id, run) ∈ live <-> exists h, sessions_held m !! id = Some h /\ held_run h = run) /\
  (drained m = true <-> sessions_held m = ∅) /\
  (draining m = true -> upgrade_refused m = true /\
     forall id public credential claimed, (register id public credential claimed m).1 = None).
Proof.
  intros [Hn Hh Hr Hf Hu]%reached_tracks. split_and!; try done.
  - unfold drained. rewrite Nat.eqb_eq, Hr. split.
    + intros Hlen. apply map_empty. intros id. destruct (sessions_held m !! id) as [h|] eqn:E; [|done].
      assert ((id, held_run h) ∈ live) as Hin by (apply Hh; by exists h). destruct live; [by apply not_elem_of_nil in Hin|done].
    + intros He. destruct live as [|[id run] live]; [done|]. destruct (proj1 (Hh id run)) as (h & Hl & _); [apply elem_of_cons; by left|].
      by rewrite He in Hl.
  - intros Hd. split; [done|]. intros id public credential claimed. unfold register. rewrite Hd, orb_true_r. by destruct claimed.
Qed.

(** A resume reaches only its own lane.  An internal resume is never handed
    to a public session, and a public resume only to the public session of its
    request opened with the very credential it presents. *)
Theorem resumes_reach_their_own_lane id presented m :
  (forall run, resume_target id m = Some run ->
     exists h, sessions_held m !! id = Some h /\ held_public h = false /\ held_run h = run) /\
  (forall run, public_resume_target id presented m = Some run ->
     exists h, sessions_held m !! id = Some h /\ held_public h = true /\ held_run h = run /\ presented = Some (held_credential h)).
Proof.
  unfold resume_target, public_resume_target. split; intros run; destruct (sessions_held m !! id) as [h|]; try done.
  - destruct (held_public h) eqn:E; [done|]. intros [= <-]. by exists h.
  - destruct presented as [digest|]; [|done]. destruct (held_public h && _) eqn:E; [|done]. bool_cases. intros [= <-]. subst.
    by exists h.
Qed.

Lemma one_run_per_session_witness :
  let m := (register "req" false "" true NewManager).2 in
  draining (drain m) = true /\ (register "other" false "" true (drain m)).1 = None /\ drained (remove "req" 0 (drain m)) = true.
Proof.
  set (m := (register "req" false "" true NewManager).2). cbv zeta. split; [reflexivity|].
  assert (reached [("req", 0%nat)] (drain m)) as H.
  { apply Reach_drain. apply (Reach_register "req" false "" true [] NewManager 0 m Reach_new). reflexivity. }
  destruct (one_run_per_session _ _ H) as (_ & _ & _ & _ & Hd). split; [apply (Hd eq_refl)|reflexivity].
Defined.
