(* ===== verification/Sort.v ===== *)
(** * Stable sorting by a comparison (Go's [sort.SliceStable])

    The sort the program gives a [less] function of its own, and what it
    promises when [less] orders: a permutation, sorted, equal elements in
    place. *)

From S2P Require Import Prelude.

(** [sort.SliceStable]: each element, in order, moves back past the elements
    it is less than.  For up to twenty elements that is what the standard
    library does, whatever [less] is; for more it is its documented result
    when [less] orders. *)
Fixpoint insert_back {A} (less : A -> A -> bool) (x : A) (backwards : list A) : list A :=
  match backwards with
  | y :: rest => if less x y then y :: insert_back less x rest else x :: y :: rest
  | [] => [x]
  end.

Definition SliceStable {A} (less : A -> A -> bool) (l : list A) : list A :=
  rev (foldl (fun sorted x => insert_back less x sorted) [] l).

(** What [SliceStable] needs of [less] to sort: its complement is a total
    preorder. *)
Section SliceStable.
Context {A : Type} (less : A -> A -> bool).

Definition not_after (x y : A) : Prop := less y x = false.

Lemma insert_back_permutation x l : insert_back less x l ≡ₚ x :: l.
Proof.
  induction l as [|y l IH]; simpl; [done|]. case_match; [|done].
  rewrite IH. apply Permutation_swap.
Qed.

Lemma foldl_insert_permutation l acc :
  foldl (fun sorted x => insert_back less x sorted) acc l ≡ₚ l ++ acc.
Proof.
  revert acc. induction l as [|x l IH]; intros acc; simpl; [done|].
  rewrite IH, insert_back_permutation. by rewrite Permutation_middle.
Qed.

Lemma SliceStable_permutation l : SliceStable less l ≡ₚ l.
Proof.
  unfold SliceStable. rewrite <-Permutation_rev, foldl_insert_permutation. by rewrite app_nil_r.
Qed.

Lemma StronglySorted_rev (R : A -> A -> Prop) l :
  StronglySorted R l -> StronglySorted (fun x y => R y x) (rev l).
Proof.
  induction 1 as [|x l Hs IH Hx]; simpl; [constructor|].
  apply StronglySorted_app_2; [..|done|repeat constructor].
  intros y z Hy Hz%list_elem_of_singleton. subst z.
  rewrite Forall_forall in Hx. apply Hx. by apply list_elem_of_In, in_rev, list_elem_of_In.
Qed.

Context (ok : A -> Prop).
Context (less_asym : forall x y, ok x -> ok y -> less x y = true -> less y x = false).
Context (less_trans : forall x y z, ok x -> ok y -> ok z ->
  less y x = false -> less z y = false -> less z x = false).

Lemma insert_back_sorted x l :
  ok x -> Forall ok l -> StronglySorted (fun a b => not_after b a) l ->
  StronglySorted (fun a b => not_after b a) (insert_back less x l).
Proof.
  intros Hx Hl Hs. induction Hs as [|y l Hs IH Hy]; simpl; [repeat constructor|].
  apply Forall_cons in Hl as [Hoky Hl]. destruct (less x y) eqn:E.
  - constructor; [by apply IH|]. rewrite insert_back_permutation. constructor; [|done].
    by apply less_asym.
  - constructor; [by constructor|]. constructor; [done|].
    rewrite Forall_forall in *. intros z Hz. unfold not_after.
    apply (less_trans z y x); auto. by apply (Hy z).
Qed.

Lemma SliceStable_sorted l : Forall ok l -> StronglySorted not_after (SliceStable less l).
Proof.
  intros Hl. unfold SliceStable. apply (StronglySorted_rev (fun a b => not_after b a)).
  assert (H : forall acc, Forall ok acc -> StronglySorted (fun a b => not_after b a) acc ->
    StronglySorted (fun a b => not_after b a) (foldl (fun sorted x => insert_back less x sorted) acc l)).
  { induction Hl as [|x l Hx Hl IH]; intros acc Hok Hs; simpl; [done|]. apply IH.
    - rewrite insert_back_permutation. by constructor.
    - by apply insert_back_sorted. }
  apply H; [constructor..].
Qed.

(** Elements that a test cannot tell apart keep their order. *)
Lemma insert_back_filter (P : A -> bool) x l :
  (forall y, P x = true -> P y = true -> less x y = false) ->
  List.filter P (insert_back less x l) = List.filter P (x :: l).
Proof.
  intros H. induction l as [|y l IH]; [done|]. cbn [insert_back]. destruct (less x y) eqn:E; [|done].
  cbn [List.filter] in *. rewrite IH.
  destruct (P x) eqn:Ex; [|done]. destruct (P y) eqn:Ey; [|done].
  by rewrite (H y eq_refl Ey) in E.
Qed.

Lemma SliceStable_stable (P : A -> bool) l :
  (forall x y, P x = true -> P y = true -> less x y = false) ->
  List.filter P (SliceStable less l) = List.filter P l.
Proof.
  intros H. unfold SliceStable. rewrite List.filter_rev.
  assert (G : forall acc, List.filter P (foldl (fun sorted x => insert_back less x sorted) acc l)
    = rev (List.filter P l) ++ List.filter P acc).
  { induction l as [|x l IH]; intros acc; [done|]. cbn [foldl]. rewrite IH, insert_back_filter by auto.
    cbn [List.filter]. destruct (P x); [|done]. cbn [rev]. by rewrite <-app_assoc. }
  rewrite G, app_nil_r. apply rev_involutive.
Qed.
End SliceStable.
