(* ===== verification/Grant.v ===== *)
(** * The grant Oxy signs (internal/contract/grant.go)

    Who may spend, on what and within which limits, for every billable request
    of the public lane, and the settlement that answers it.  A grant is
    modelled from its decoded fields on: the JSON decoder is the standard
    library's.  Members no decision reads (prices, labels, the policy
    reference) are kept only where a rule names them. *)

From S2P Require Import Prelude Ids Contract Request.

Import Regex.

(** ** Vocabulary *)

Definition GrantSchemaVersion : Z := 1.
Definition AuthorizationSchemaVersion : Z := 1.
Definition SettlementSchemaVersion : Z := 1.
Definition AuthorizationKindCatalogue := "catalogue.read".
Definition GrantExecutionWindow : Duration := 60 * Second.
Definition maxGrantSteps : Z := 8.

Definition GrantRealtimeSession := "realtime_session".
Definition grantOperationValues :=
  ["responses"; "chat_completions"; "embeddings"; "audio_speech"; "audio_transcriptions";
   "images_generations"; "decisions"; GrantRealtimeSession].
Definition GrantOperation_Valid (o : string) : bool := isMember o grantOperationValues.

Definition powerLevelValues := ["auto"; "instant"; "medium"; "high"; "xhigh"; "pro"; "ultra"].
Definition PowerLevel_Valid (l : string) : bool := isMember l powerLevelValues.
Definition ParsePowerLevel (value : string) : string * bool := (value, PowerLevel_Valid value).

Definition LaneMachineCredential := "machine_credential".
Definition grantLaneValues := [LaneMachineCredential; "service_token"; "product_session"].

Definition TreatmentCommercial := "commercial".
Definition TreatmentInternalMetered := "internal_metered".
Definition TreatmentPlatformFeeOnly := "platform_fee_only".
Definition economicTreatmentValues := [TreatmentCommercial; TreatmentInternalMetered; TreatmentPlatformFeeOnly].

Definition lower_hex (c : ascii) : bool := is_digit c || in_range "a" "f" c.

(** [^[0-9a-f]{64}$]. *)
Definition sha256HexPattern : regex := Repeat 64 (Class lower_hex).
Definition ValidSHA256Hex (value : string) : bool := matches sha256HexPattern value.

(** ** Targets *)

Definition GrantTargetModel := "model".
Definition GrantTargetLevel := "level".

Record GrantTarget := mkGrantTarget {
  gt_Kind : string;
  gt_ModelLine : option string;
  gt_Revision : option string;
  gt_Level : option string;
}.

(** The text after the first occurrence of a character. *)
Fixpoint after_char (c : ascii) (s : string) : string :=
  match s with
  | EmptyString => EmptyString
  | String d s => if Ascii.eqb c d then s else after_char c s
  end.

Definition ModelTarget (reference : string) : GrantTarget :=
  mkGrantTarget GrantTargetModel (Some (ModelID reference))
    (if Pinned reference then Some (after_char "@" reference) else None) None.

Definition LevelTarget (level : string) : GrantTarget := mkGrantTarget GrantTargetLevel None None (Some level).

Definition GrantTarget_Validate (t : GrantTarget) : option string :=
  if gt_Kind t =s GrantTargetModel then
    refuse_if match gt_ModelLine t with
              | None => true
              | Some line => bool_decide (is_Some (gt_Level t)) || negb (matches modelIDPattern line)
              end "contract: a model target names one model line and no level"
  else if gt_Kind t =s GrantTargetLevel then
    refuse_if match gt_Level t with
              | None => true
              | Some level => negb (PowerLevel_Valid level) || bool_decide (is_Some (gt_ModelLine t))
                              || bool_decide (is_Some (gt_Revision t))
              end "contract: a level target names one power level and no model"
  else Some "contract: unknown grant target kind".

(** [GrantTarget.Reference]. *)
Definition Reference (t : GrantTarget) : string :=
  match gt_ModelLine t, gt_Revision t with
  | None, _ => ""
  | Some line, Some revision => line +:+ "@" +:+ revision
  | Some line, None => line
  end.

(** ** Steps *)

Record AdmittedModelLine := mkAdmitted { am_ModelLine : string; PriceVersionID : string }.

(** The limits a route is filtered by; those only Oxy can verify (retention,
    training, licences) and the shown price are not read by any decision. *)
Record GrantStepLimits := mkLimits {
  lim_MaxFundingTier : option string;
  AdmittedModelLines : list AdmittedModelLine;
  ProviderAllowlist : list string;
  ProviderDenylist : list string;
  AllowedRegions : list string;
  DeniedRegions : list string;
  SameModelFailover : option bool;
}.

Definition SameModelFailoverAllowed (l : GrantStepLimits) : bool := default true (SameModelFailover l).

Record GrantStep := mkStep { step_Target : GrantTarget; Limits : GrantStepLimits }.

Fixpoint validateAdmitted (seen : list string) (lines : list AdmittedModelLine) : option string :=
  match lines with
  | [] => None
  | line :: lines =>
      refuse_if (negb (matches modelIDPattern (am_ModelLine line)) || (PriceVersionID line =s "")
                 || (128 <? len (PriceVersionID line))%Z)
        "an admitted model line names a model id and its price version" ;;
      refuse_if (isMember (am_ModelLine line) seen) "each model line is admitted once, at one price" ;;
      validateAdmitted (am_ModelLine line :: seen) lines
  end.

Definition admitted_lines (l : GrantStepLimits) : list string := am_ModelLine <$> AdmittedModelLines l.

Definition GrantStep_validate (s : GrantStep) : option string :=
  let limits := Limits s in
  GrantTarget_Validate (step_Target s) ;;
  refuse_if match AdmittedModelLines limits with [] => true | _ => false end "a step admits at least one model line" ;;
  validateAdmitted [] (AdmittedModelLines limits) ;;
  refuse_if ((gt_Kind (step_Target s) =s GrantTargetModel)
             && negb (isMember (default "" (gt_ModelLine (step_Target s))) (admitted_lines limits)))
    "a step that names a model line admits it" ;;
  refuse_if match lim_MaxFundingTier limits with Some tier => negb (FundingTier_Valid tier) | None => false end
    "unknown funding tier" ;;
  refuse_if (existsb (fun p => isMember p (ProviderDenylist limits)) (ProviderAllowlist limits))
    "a provider cannot be both allowed and denied" ;;
  refuse_if (existsb (fun r => isMember r (DeniedRegions limits)) (AllowedRegions limits))
    "a region cannot be both allowed and denied".

(** ** The grant *)

Record GrantPrincipal := mkGrantPrincipal {
  gp_Authority : option string;
  BillingAccountID : string;
  gp_ApplicationID : string;
  gp_CredentialID : string;
  gp_Environment : string;
  gp_Scopes : option (list string);
  Lane : string;
}.

Record GrantEconomics := mkEconomics { Treatment : string; PolicyVersion : string }.
Record GrantReservation := mkReservation { ReservationID : string; FundingRestriction : option string }.

Record Grant := mkGrant {
  grant_SchemaVersion : Z;
  GrantID : string;
  grant_RequestID : string;
  Operation : string;
  IssuedAt : Timestamp;
  ExecuteBy : Timestamp;
  BodySHA256 : string;
  grant_Principal : GrantPrincipal;
  grant_UserID : option string;
  Economics : GrantEconomics;
  Reservation : option GrantReservation;
  Capacity : option string;
  Steps : list GrantStep;
  grant_Credential : option CustomerProviderCredential;
  grant_IdempotencyKey : option string;
}.

Definition grant_metered (g : Grant) : bool := Treatment (Economics g) =s TreatmentInternalMetered.
Definition byok (g : Grant) : bool := bool_decide (is_Some (grant_Credential g)).

Definition validateGrantShape (g : Grant) : option string :=
  let p := grant_Principal g in
  refuse_if (negb (grant_SchemaVersion g =? GrantSchemaVersion)%Z) "contract: grant schemaVersion" ;;
  refuse_if ((GrantID g =s "") || (128 <? len (GrantID g))%Z) "contract: a grant has an id of 1..128 characters" ;;
  refuse_if ((grant_RequestID g =s "") || (128 <? len (grant_RequestID g))%Z) "contract: a grant names its request" ;;
  refuse_if (negb (GrantOperation_Valid (Operation g))) "contract: unknown grant operation" ;;
  refuse_if (negb (ValidSHA256Hex (BodySHA256 g))) "contract: a grant binds a lowercase hex SHA-256 body" ;;
  refuse_if (negb (isMember (Lane p) grantLaneValues)) "contract: unknown grant lane" ;;
  refuse_if (negb (isMember (Treatment (Economics g)) economicTreatmentValues))
    "contract: unknown economic treatment" ;;
  refuse_if (PolicyVersion (Economics g) =s "") "contract: a grant names its economic policy version" ;;
  refuse_if (let steps := Z.of_nat (length (Steps g)) in (steps =? 0)%Z || (maxGrantSteps <? steps)%Z)
    "contract: a grant has 1..8 steps" ;;
  refuse_if ((BillingAccountID p =s "") || (gp_ApplicationID p =s "") || (gp_CredentialID p =s ""))
    "contract: a grant names its paying principal" ;;
  refuse_if (negb (isMember (gp_Environment p) environmentValues)) "contract: a grant names its environment".

Definition validateGrantWindow (g : Grant) : option string :=
  match Timestamp_Time (IssuedAt g) with
  | None => Some "contract: a grant's issuedAt is not a timestamp"
  | Some issued =>
      match Timestamp_Time (ExecuteBy g) with
      | None => Some "contract: a grant's executeBy is not a timestamp"
      | Some executeBy =>
          refuse_if (negb (After executeBy issued) || (GrantExecutionWindow <? Sub executeBy issued)%Z)
            "contract: a grant is executable for at most 60 seconds after it is issued"
      end
  end.

Definition validateGrantStep (g : Grant) (step : GrantStep) : option string :=
  GrantStep_validate step ;;
  refuse_if (byok g && bool_decide (is_Some (lim_MaxFundingTier (Limits step))))
    "contract: a funding ceiling bounds platform keys; a customer credential is billed to the customer".

(** [Grant.Validate]. *)
Definition Grant_Validate (g : Grant) : option string :=
  let p := grant_Principal g in
  refuse_if (isFirstParty (gp_Authority p) && (Lane p =s LaneMachineCredential))
    "contract: a customer API key never has first-party authority" ;;
  validateAuthority (gp_Authority p) (gp_Scopes p) ;;
  validateGrantShape g ;;
  validateGrantWindow g ;;
  refuse_if (grant_metered g && bool_decide (is_Some (Reservation g)))
    "contract: an internally metered grant holds nothing" ;;
  refuse_if (negb (grant_metered g) && bool_decide (Reservation g = None))
    "contract: a charged grant carries the hold it was sized against" ;;
  match Reservation g with
  | None => None
  | Some r =>
      refuse_if ((ReservationID r =s "") || (128 <? len (ReservationID r))%Z)
        "contract: a reservation has an id of 1..128 characters" ;;
      refuse_if match FundingRestriction r with Some f => negb (f =s "promotional-only") | None => false end
        "contract: unknown funding restriction"
  end ;;
  refuse_if (negb (Bool.eqb (byok g) (Treatment (Economics g) =s TreatmentPlatformFeeOnly)))
    "contract: a customer provider credential is exactly the platform-fee-only treatment" ;;
  match grant_Credential g with Some c => CustomerProviderCredential_validate c | None => None end ;;
  first_refusal (validateGrantStep g) (Steps g).

(** [DecodeGrant], from the strict decoder's answer. *)
Definition DecodeGrant (decoded : option Grant) : option Grant :=
  g ← decoded; match Grant_Validate g with None => Some g | Some _ => None end.

Definition Executable (now : Instant) (g : Grant) : bool :=
  match Timestamp_Time (ExecuteBy g) with Some executeBy => negb (After now executeBy) | None => false end.

(** [Grant.Attribution]; [append] onto nil makes no slice of an empty one. *)
Definition Grant_Attribution (g : Grant) : Attribution :=
  let p := grant_Principal g in
  mkAttribution
    (mkPrincipal (gp_Authority p) (BillingAccountID p) (gp_ApplicationID p) (gp_CredentialID p) (gp_Environment p)
       match gp_Scopes p with Some (s :: l) => Some (s :: l) | _ => None end)
    (grant_UserID g) (grant_RequestID g) None.

(** ** Catalogue access *)

Definition catalogueAudienceValues := ["public"; "platform_internal"].

Record CatalogueAccess := mkCatalogueAccess {
  ca_SchemaVersion : Z;
  ca_Kind : string;
  Audience : string;
  AllowedLevels : list string;
  ca_ExpiresAt : Timestamp;
}.

Definition CatalogueAccess_Validate (c : CatalogueAccess) : option string :=
  refuse_if (negb (ca_SchemaVersion c =? AuthorizationSchemaVersion)%Z || negb (ca_Kind c =s AuthorizationKindCatalogue)
             || negb (isMember (Audience c) catalogueAudienceValues))
    "contract: the catalogue access is not a catalogue.read answer" ;;
  first_refusal (fun level => refuse_if (negb (PowerLevel_Valid level)) "contract: unknown power level")
    (AllowedLevels c) ;;
  refuse_if (bool_decide (Timestamp_Time (ca_ExpiresAt c) = None)) "contract: the catalogue access has no expiry".

(** ** Settlement *)

Record Settlement := mkSettlement {
  settlement_SchemaVersion : Z;
  SettlementID : string;
  settlement_GrantID : string;
  settlement_RequestID : string;
  settlement_ReservationID : option string;
  settlement_MeteredUsageID : option string;
  ServedStep : option Z;
  Report : UsageReport;
  CreatedAt : Timestamp;
}.

Definition Settlement_Validate (s : Settlement) : option string :=
  refuse_if (negb (settlement_SchemaVersion s =? SettlementSchemaVersion)%Z)
    "contract: settlement schemaVersion is not 1" ;;
  refuse_if ((SettlementID s =s "") || (128 <? len (SettlementID s))%Z || (settlement_GrantID s =s "")
             || (128 <? len (settlement_GrantID s))%Z)
    "contract: a settlement names itself and its grant" ;;
  refuse_if (negb (report_RequestID (Report s) =s settlement_RequestID s))
    "contract: the report settles this request" ;;
  refuse_if ((Outcome (Report s) =s OutcomeCompleted) && bool_decide (ServedStep s = None))
    "contract: a completed request was served by a step of its grant" ;;
  refuse_if match ServedStep s with Some n => (n <? 0)%Z || (maxGrantSteps <=? n)%Z | None => false end
    "contract: servedStep is a position in the grant" ;;
  UsageReport_Validate (Report s).

Definition settlementStatusValues := ["settled"; "duplicate"].

Record SettlementAcknowledgement := mkAcknowledgement { ack_SchemaVersion : Z; ack_SettlementID : string; Status : string }.

Definition SettlementAcknowledgement_Validate (a : SettlementAcknowledgement) : option string :=
  refuse_if (negb (ack_SchemaVersion a =? SettlementSchemaVersion)%Z || (ack_SettlementID a =s "")
             || negb (isMember (Status a) settlementStatusValues))
    "contract: the settlement acknowledgement is invalid".

(** ** Lemmas *)

Lemma validateAdmitted_spec seen lines :
  validateAdmitted seen lines = None ->
  Forall (fun l => matches modelIDPattern (am_ModelLine l) = true) lines /\
  NoDup (am_ModelLine <$> lines) /\ Forall (fun l => am_ModelLine l ∉ seen) lines.
Proof.
  revert seen. induction lines as [|l lines IH]; intros seen; cbn [validateAdmitted]; [repeat split; constructor|].
  checks. intros (H1 & H2 & H3%IH). rewrite (seen_step am_ModelLine), Forall_cons. tauto.
Qed.

(** What the rest of the lane relies on of a step. *)
Record step_ok (s : GrantStep) : Prop := {
  so_lines : NoDup (admitted_lines (Limits s));
  so_grammar : Forall (fun l => matches modelIDPattern l = true) (admitted_lines (Limits s));
  so_target : (gt_Kind (step_Target s) = GrantTargetModel /\
      exists line, gt_ModelLine (step_Target s) = Some line /\ line ∈ admitted_lines (Limits s)) \/
    (gt_Kind (step_Target s) = GrantTargetLevel /\
      exists level, gt_Level (step_Target s) = Some level /\ level ∈ powerLevelValues);
  so_tier : forall tier, lim_MaxFundingTier (Limits s) = Some tier -> FundingTier_Valid tier = true;
}.

Lemma GrantStep_validate_ok s : GrantStep_validate s = None -> step_ok s.
Proof.
  unfold GrantStep_validate. checks. intros (Ht & Hne & Ha & Hin & Htier & _).
  apply validateAdmitted_spec in Ha as (Hg & Hnd & _).
  assert (Forall (fun l => matches modelIDPattern l = true) (admitted_lines (Limits s))) as Hg'.
  { unfold admitted_lines. by rewrite Forall_fmap. }
  constructor; [done|done| |].
  - unfold GrantTarget_Validate in Ht. destruct (gt_Kind (step_Target s) =s GrantTargetModel) eqn:Ek.
    + left. bool_cases. split; [done|]. destruct (gt_ModelLine (step_Target s)) as [line|]; [|checks; done].
      exists line. split; [done|]. by destruct Hin.
    + right. destruct (gt_Kind (step_Target s) =s GrantTargetLevel) eqn:El; [|done]. bool_cases. split; [done|].
      destruct (gt_Level (step_Target s)) as [level|]; [|checks; done]. exists level. split; [done|].
      checks. unfold PowerLevel_Valid in Ht. destruct Ht as ([Ht _] & _). by apply isMember_spec in Ht.
  - intros tier E. rewrite E in Htier. by destruct (FundingTier_Valid tier).
Qed.

(** What the rest of the lane relies on of a grant. *)
Record grant_ok (g : Grant) : Prop := {
  go_identified : GrantID g <> "" /\ (len (GrantID g) <= 128)%Z /\ grant_RequestID g <> "";
  go_steps : Steps g <> [] /\ (length (Steps g) <= 8)%nat /\ Forall step_ok (Steps g);
  go_window : exists issued executeBy, Timestamp_Time (IssuedAt g) = Some issued /\
    Timestamp_Time (ExecuteBy g) = Some executeBy /\ (issued < executeBy)%Z /\
    (Sub executeBy issued <= GrantExecutionWindow)%Z;
  go_held : Reservation g = None <-> Treatment (Economics g) = TreatmentInternalMetered;
  go_credential : forall c, grant_Credential g = Some c ->
    CustomerProviderCredential_validate c = None /\ Treatment (Economics g) = TreatmentPlatformFeeOnly /\
    Forall (fun s => lim_MaxFundingTier (Limits s) = None) (Steps g);
}.

Lemma Grant_Validate_ok g : Grant_Validate g = None -> grant_ok g.
Proof.
  unfold Grant_Validate, validateGrantShape, validateGrantWindow. checks.
  intros (_ & _ & (_ & Hid & Hrq & _ & _ & _ & _ & _ & Hn & _) & Hw & Hm & Hh & _ & Hb & Hc & Hs).
  assert (Forall (fun s => validateGrantStep g s = None) (Steps g)) as Hsteps by done.
  constructor.
  - tauto.
  - split; [|split].
    + intros E. rewrite E in Hn. by destruct Hn.
    + unfold maxGrantSteps in Hn. lia.
    + eapply Forall_impl; [exact Hsteps|]. intros s H. unfold validateGrantStep in H. checks.
      apply GrantStep_validate_ok. tauto.
  - destruct (Timestamp_Time (IssuedAt g)) as [issued|]; [|done].
    destruct (Timestamp_Time (ExecuteBy g)) as [executeBy|]; [|done]. checks. unfold After in Hw. bool_cases.
    exists issued, executeBy. destruct Hw as [Hw%Z.ltb_lt Hspan]. done.
  - unfold grant_metered in *. destruct (Treatment (Economics g) =s TreatmentInternalMetered) eqn:E; bool_cases.
    + destruct (Reservation g); naive_solver.
    + destruct (Reservation g); naive_solver.
  - intros c E. rewrite E in Hc. split; [done|]. unfold byok in *. rewrite E in Hb. split.
    + cbn in Hb. by destruct (Treatment (Economics g) =s TreatmentPlatformFeeOnly) eqn:Et; bool_cases.
    + eapply Forall_impl; [exact Hsteps|]. intros s H. unfold validateGrantStep, byok in H. rewrite E in H. checks.
      destruct (lim_MaxFundingTier (Limits s)); naive_solver.
Qed.
