(* ===== verification/PublicRoutes.v ===== *)
(** * A grant resolved into routes (internal/publicapi/routes.go)

    The public lane's own routing: the ordered steps Oxy granted become the
    ordered routes the executor is given, chosen from the inventory within each
    step's limits. *)

From S2P Require Import Prelude Ids Sort Contract Request Provider KeyPool Adapter Inventory Routes PublicContract Grant.

Import Regex.

(** ** What a platform route costs to fund (server.go) *)

Definition fundingRankUnknown : Z := 3.

(** The loop over the tiers, cheapest first, up to the ceiling. *)
Fixpoint cheapest_from (c : Credentials) (ceiling : FundingTier) (rank : Z) (tiers : list FundingTier) : Z :=
  match tiers with
  | [] => fundingRankUnknown
  | tier :: tiers =>
      if bool_decide (is_Some (WithinFunding tier (c_view c) (c_pool c))) then rank
      else if decide (tier = ceiling) then fundingRankUnknown
      else cheapest_from c ceiling (rank + 1) tiers
  end.

(** [RegistryFunding.CheapestTier]: the rank, or [None] when no key of the
    route may be spent. *)
Definition CheapestTier (registry : option Registry) (route : Route) (ceiling : FundingTier) : option Z :=
  match registry with
  | None => Some fundingRankUnknown
  | Some r =>
      match ResolveCredential (r_DeploymentID route) (r_Provider route) r with
      | None => None
      | Some None => if decide (ceiling = TierNone) then Some fundingRankUnknown else None
      | Some (Some pool) =>
          if negb (bool_decide (ceiling = TierNone))
             && negb (bool_decide (is_Some (WithinFunding ceiling (c_view pool) (c_pool pool))))
          then None
          else Some (cheapest_from pool ceiling 0 [TierFree; TierCredit; TierPaid])
      end
  end.

(** [Server.servesOperation]; [registry] is [None] when the server knows no
    kinds. *)
Definition servesOperation (registry : option Registry) (operation : string) (kind : option string)
    : option (Route -> bool) :=
  match registry with
  | None => None
  | Some r => Some (fun route =>
      let '(session_kinds, requests, known) := ServingKinds (r_Provider route) (Some r) in
      if negb known then true
      else if operation =s GrantRealtimeSession
      then match session_kinds with [] => false | _ => true end
           && match kind with None => true | Some k => isMember k session_kinds end
      else requests)
  end.

(** ** The limits of a step *)

Definition admitsRoute (limits : GrantStepLimits) (route : Route) : bool :=
  let some {A} (l : list A) := match l with [] => false | _ => true end in
  if some (ProviderAllowlist limits) && negb (isMember (r_Provider route) (ProviderAllowlist limits)) then false
  else if isMember (r_Provider route) (ProviderDenylist limits) then false
  else if some (AllowedRegions limits) || some (DeniedRegions limits) then
    some (r_Regions route) &&
    forallb (fun region =>
      negb (some (AllowedRegions limits) && negb (isMember region (AllowedRegions limits)))
      && negb (isMember region (DeniedRegions limits))) (r_Regions route)
  else true.

(** ** The plan *)

Record plan := mkPlan {
  plan_target : RoutingTarget;
  plan_routes : list AuthorizedRoute;
  plan_steps : gmap string nat;
}.

Definition stepOf (p : option plan) (deployment : string) : option nat := p ← p; plan_steps p !! deployment.

(** The [candidate] of [resolveGrant]. *)
Record offer := mkOffer { o_route : Route; o_rank : Z; o_line : nat; o_position : nat }.

(** The comparison the candidates of a step are sorted by. *)
Definition offer_less (a b : offer) : bool :=
  if negb (o_rank a =? o_rank b)%Z then (o_rank a <? o_rank b)%Z
  else if negb (Nat.eqb (o_line a) (o_line b)) then Nat.ltb (o_line a) (o_line b)
  else Nat.ltb (o_position a) (o_position b).

(** The loop's variables: the routes so far, the step of each deployment, the
    revision each line is served at. *)
Record progress := mkProgress {
  routes : list AuthorizedRoute;
  steps : gmap string nat;
  revisionOf : gmap string string;
}.

Section Resolve.
Context (grant : Grant) (snapshot : Inventory) (at_ : Instant).
Context (funding : option (Route -> FundingTier -> option Z)) (served : option (Route -> bool)).

Definition step_ceiling (limits : GrantStepLimits) : FundingTier :=
  match lim_MaxFundingTier limits with Some tier => tier_of_string tier | None => TierNone end.

(** The rank of a route under a step, or [None] when no key may be spent. *)
Definition rank_of (limits : GrantStepLimits) (route : Route) : option Z :=
  match (if byok grant then None else funding) with
  | Some cheapestTier => cheapestTier route (step_ceiling limits)
  | None => Some fundingRankUnknown
  end.

Definition consider (taken : gmap string nat) (limits : GrantStepLimits) (line position : nat) (route : Route)
    : option offer :=
  if negb (admitsRoute limits route) || negb (match served with Some f => f route | None => true end) then None
  else if bool_decide (is_Some (taken !! r_DeploymentID route)) then None
  else rank ← rank_of limits route; Some (mkOffer route rank line position).

(** The reference an admitted line is looked up at; [None] skips the line. *)
Definition line_reference (revisions : gmap string string) (target : GrantTarget) (line : string) : option string :=
  if (gt_Kind target =s GrantTargetModel) && negb (line =s default "" (gt_ModelLine target)) then None
  else match revisions !! line with
  | Some pinned => Some pinned
  | None => Some (if gt_Kind target =s GrantTargetModel then Reference target else line)
  end.

Definition line_offers (p : progress) (step : GrantStep) (index : nat) (line : string) : list offer :=
  match line_reference (revisionOf p) (step_Target step) line with
  | None => []
  | Some reference =>
      match Resolve reference at_ snapshot with
      | inr _ => []
      | inl set => omap id (imap (consider (steps p) (Limits step) index) (Candidates set))
      end
  end.

Definition step_offers (p : progress) (step : GrantStep) : list offer :=
  concat (imap (line_offers p step) (admitted_lines (Limits step))).

Definition authorize (p : progress) (limits : GrantStepLimits) (route : Route) : AuthorizedRoute :=
  let other := match routes p with
    | [] => false
    | first_route :: _ => negb (ModelID (r_ModelReference route) =s ModelID (ModelReference first_route))
    end in
  mkAuthorizedRoute (if other then SubstitutionCrossModel else SubstitutionSameModel)
    (r_DeploymentID route) (r_ModelReference route) (r_Provider route) (Some (r_Regions route))
    (if other then Some true else None) (lim_MaxFundingTier limits) (grant_Credential grant).

(** One turn of the loop over the sorted candidates; [servedInStep] are the
    lines the step serves already. *)
Definition choose (limits : GrantStepLimits) (stepIndex : nat) (chosen : offer) (s : progress * list string)
    : progress * list string :=
  let '(p, servedInStep) := s in
  let route := o_route chosen in
  let line := ModelID (r_ModelReference route) in
  if match revisionOf p !! line with Some pinned => negb (pinned =s r_ModelReference route) | None => false end
  then s
  else if negb (SameModelFailoverAllowed limits) && isMember line servedInStep then s
  else (mkProgress (routes p ++ [authorize p limits route])
          (<[r_DeploymentID route := stepIndex]> (steps p))
          (<[line := r_ModelReference route]> (revisionOf p)),
        if SameModelFailoverAllowed limits then servedInStep else line :: servedInStep).

Definition choose_all (limits : GrantStepLimits) (stepIndex : nat) (offers : list offer) (s : progress * list string)
    : progress * list string :=
  foldl (fun s chosen => choose limits stepIndex chosen s) s offers.

Definition resolve_step (p : progress) (stepIndex : nat) (step : GrantStep) : progress :=
  (choose_all (Limits step) stepIndex (SliceStable offer_less (step_offers p step)) (p, [])).1.

Fixpoint resolve_steps (p : progress) (stepIndex : nat) (todo : list GrantStep) : progress :=
  match todo with
  | [] => p
  | step :: todo => resolve_steps (resolve_step p stepIndex step) (S stepIndex) todo
  end.

Definition allOnLine (l : list AuthorizedRoute) (line : string) : bool :=
  forallb (fun a => ModelID (ModelReference a) =s line) l.

(** The executor's target; the members [Grant.Validate] makes present are read
    without a nil case. *)
Definition planTarget (first_target : GrantTarget) (l : list AuthorizedRoute) : RoutingTarget :=
  let line := default "" (gt_ModelLine first_target) in
  if (gt_Kind first_target =s GrantTargetModel) && allOnLine l line
  then mkTarget TargetModel (Some (Reference first_target)) None
  else if gt_Kind first_target =s GrantTargetModel
  then mkTarget TargetRoutingProfileID None (Some ("model:" +:+ line))
  else mkTarget TargetRoutingProfileID None (Some ("power-" +:+ default "" (gt_Level first_target))).

Definition resolveGrant : plan + PublicError :=
  let resolved := resolve_steps (mkProgress [] ∅ ∅) 0 (Steps grant) in
  match routes resolved, Steps grant with
  | [], _ | _, [] => inr (NewPublicError (grant_RequestID grant) CodeNoRouteAvailable)
  | l, first_step :: _ => inl (mkPlan (planTarget (step_Target first_step) l) l (steps resolved))
  end.

End Resolve.

(** ** Lemmas *)

Lemma offer_less_order :
  (forall x y, offer_less x y = true -> offer_less y x = false) /\
  (forall x y z, offer_less y x = false -> offer_less z y = false -> offer_less z x = false).
Proof.
  unfold offer_less. split.
  - intros x y. destruct (Z.eqb_spec (o_rank x) (o_rank y)), (Z.eqb_spec (o_rank y) (o_rank x));
      destruct (Nat.eqb_spec (o_line x) (o_line y)), (Nat.eqb_spec (o_line y) (o_line x)); cbn [negb];
      rewrite ?Z.ltb_lt, ?Z.ltb_ge, ?Nat.ltb_lt, ?Nat.ltb_ge; lia.
  - intros x y z. destruct (Z.eqb_spec (o_rank y) (o_rank x)), (Z.eqb_spec (o_rank z) (o_rank y)),
      (Z.eqb_spec (o_rank z) (o_rank x)); cbn [negb];
      destruct (Nat.eqb_spec (o_line y) (o_line x)), (Nat.eqb_spec (o_line z) (o_line y)),
        (Nat.eqb_spec (o_line z) (o_line x)); cbn [negb];
      rewrite ?Z.ltb_lt, ?Z.ltb_ge, ?Nat.ltb_lt, ?Nat.ltb_ge; lia.
Qed.

Lemma sorted_offers l : StronglySorted (fun a b => (o_rank a <= o_rank b)%Z) (SliceStable offer_less l).
Proof.
  pose proof (SliceStable_sorted offer_less (fun _ => True)
    (fun x y _ _ => proj1 offer_less_order x y) (fun x y z _ _ _ => proj2 offer_less_order x y z) l
    (proj2 (Forall_forall _ _) (fun _ _ => I))) as H.
  induction H as [|x s _ IH Hx]; constructor; [done|]. eapply Forall_impl; [exact Hx|]. intros y Hy.
  unfold not_after, offer_less in Hy. destruct (Z.eqb_spec (o_rank y) (o_rank x)); cbn [negb] in Hy; bool_cases; lia.
Qed.

(** The lines of the model-id grammar hold no [@]. *)
Lemma line_unpinned line : matches modelIDPattern line = true -> contains_char "@" line = false.
Proof.
  rewrite matches_spec. intros (publisher & rest & -> & Hp & H)%in_seq_inv.
  apply in_seq_inv in H as (slash & model & -> & Hs & Hm).
  inversion Hs as [|m c Hc | | | | |]; subst. apply Ascii.eqb_eq in Hc as <-.
  rewrite !contains_char_app, (slug_no_at publisher), (slug_no_at model) by done. done.
Qed.

Lemma ModelID_line line : contains_char "@" line = false -> ModelID line = line.
Proof. unfold ModelID, Pinned. by intros ->. Qed.

Lemma ModelID_pinned line revision : contains_char "@" line = false -> ModelID (line +:+ "@" +:+ revision) = line.
Proof.
  intros H. unfold ModelID, Pinned. rewrite contains_char_app, H. cbn [orb].
  change ("@" +:+ revision) with (String "@" revision). cbn [contains_char]. rewrite Ascii.eqb_refl. cbn [orb].
  by apply before_char_app.
Qed.

Lemma NoDup_concat_imap {A B K} (key : B -> K) (g : nat -> A -> list B) l :
  (forall n x, l !! n = Some x -> NoDup (key <$> g n x)) ->
  (forall n m x y b c, l !! n = Some x -> l !! m = Some y -> b ∈ g n x -> c ∈ g m y -> key b = key c -> n = m) ->
  NoDup (key <$> concat (imap g l)).
Proof.
  revert g. induction l as [|x l IH]; intros g Hin Hdis; [constructor|]. cbn [imap concat].
  rewrite fmap_app. apply NoDup_app. split; [by apply (Hin O)|]. split.
  - intros k (b & -> & Hb)%list_elem_of_fmap (c & Hk & Hc)%list_elem_of_fmap.
    apply list_elem_of_In, List.in_concat in Hc as (part & Hpart & Hc). apply list_elem_of_In in Hpart, Hc.
    apply elem_of_lookup_imap in Hpart as (m & y & -> & Hy).
    discriminate (Hdis O (S m) x y b c eq_refl Hy Hb Hc Hk).
  - apply (IH (g ∘ S)).
    + intros n y Hy. by apply (Hin (S n)).
    + intros n m y z b c Hy Hz Hb Hc Hk. assert (S n = S m) as [=]; [|done].
      by apply (Hdis (S n) (S m) y z b c).
Qed.

Lemma omap_imap_keys {A B K} (key : A -> K) (key' : B -> K) (h : nat -> A -> option B) l :
  (forall n x b, h n x = Some b -> key' b = key x) ->
  (key' <$> omap id (imap h l)) `sublist_of` (key <$> l).
Proof.
  revert h. induction l as [|x l IH]; intros h Hk; [constructor|]. cbn [imap omap list_omap fmap list_fmap].
  cbn [id]. destruct (h O x) as [b|] eqn:E.
  - cbn [fmap list_fmap]. rewrite (Hk _ _ _ E). apply sublist_skip, (IH (h ∘ S)). intros n. by apply Hk.
  - apply sublist_cons, (IH (h ∘ S)). intros n. by apply Hk.
Qed.

(** What the limits of a step say of a route. *)
Definition within_limits (limits : GrantStepLimits) (route : Route) : Prop :=
  (ProviderAllowlist limits = [] \/ r_Provider route ∈ ProviderAllowlist limits) /\
  r_Provider route ∉ ProviderDenylist limits /\
  (AllowedRegions limits <> [] \/ DeniedRegions limits <> [] ->
   r_Regions route <> [] /\ forall region, region ∈ r_Regions route ->
     (AllowedRegions limits = [] \/ region ∈ AllowedRegions limits) /\ region ∉ DeniedRegions limits).

Lemma admitsRoute_spec limits route : admitsRoute limits route = true <-> within_limits limits route.
Proof.
  assert (forall region,
    negb ((match AllowedRegions limits with [] => false | _ => true end)
          && negb (isMember region (AllowedRegions limits))) && negb (isMember region (DeniedRegions limits)) = true <->
    (AllowedRegions limits = [] \/ region ∈ AllowedRegions limits) /\ region ∉ DeniedRegions limits) as Hregion.
  { intros region. rewrite andb_true_iff, !negb_true_iff, isMember_false.
    destruct (AllowedRegions limits) as [|x l]; cbn [andb]; [tauto|]. rewrite negb_false_iff, isMember_spec. naive_solver. }
  unfold within_limits, admitsRoute. set (regional := if (_ || _) then _ else true).
  assert (regional = true <-> (AllowedRegions limits <> [] \/ DeniedRegions limits <> [] ->
    r_Regions route <> [] /\ forall region, region ∈ r_Regions route ->
      (AllowedRegions limits = [] \/ region ∈ AllowedRegions limits) /\ region ∉ DeniedRegions limits)) as <-.
  { setoid_rewrite <-Hregion. subst regional.
    assert (forall l : list string, forallb (fun region =>
      negb (match AllowedRegions limits with [] => false | _ => true end && negb (isMember region (AllowedRegions limits)))
      && negb (isMember region (DeniedRegions limits))) l = true <-> forall region, region ∈ l ->
      negb (match AllowedRegions limits with [] => false | _ => true end && negb (isMember region (AllowedRegions limits)))
      && negb (isMember region (DeniedRegions limits)) = true) as Hall.
    { intros l. rewrite forallb_forall. by setoid_rewrite <-list_elem_of_In. }
    rewrite <-Hall. destruct (AllowedRegions limits), (DeniedRegions limits), (r_Regions route); cbn [orb andb]; naive_solver. }
  clearbody regional. destruct (ProviderAllowlist limits) as [|p l]; cbn [andb].
  - destruct (isMember _ (ProviderDenylist limits)) eqn:E; bool_cases; [apply isMember_spec in E|apply isMember_false in E];
      naive_solver.
  - destruct (isMember (r_Provider route) (p :: l)) eqn:E1; [apply isMember_spec in E1|apply isMember_false in E1];
      cbn [negb]; [|naive_solver].
    destruct (isMember _ (ProviderDenylist limits)) eqn:E; [apply isMember_spec in E|apply isMember_false in E];
      naive_solver.
Qed.

(** The route of an inventoried row. *)
Definition row_route (d : Deployment) : Route := route_of (d_ModelReference d) (endpoint_of d).

Section Facts.
Context (f : file) (age : Duration) (snapshot : Inventory) (Hparse : Parse f age = Some snapshot).
Context (grant : Grant) (Hgrant : grant_ok grant) (at_ : Instant).
Context (funding : option (Route -> FundingTier -> option Z)) (served : option (Route -> bool)).

Let ds := Deployments_ f.

Lemma row_ids : NoDup (d_DeploymentID <$> ds).
Proof. destruct (Parse_ok _ _ _ Hparse) as (s & Hok & _). apply (po_ids _ _ Hok). Qed.

Lemma row_unique d d' : d ∈ ds -> d' ∈ ds -> d_DeploymentID d = d_DeploymentID d' -> d = d'.
Proof.
  intros Hd Hd' Heq. apply list_elem_of_lookup in Hd as [j Hj], Hd' as [k Hk]. pose proof row_ids as Hnd.
  assert (j = k) as <-; [|congruence].
  apply (NoDup_lookup _ j k (d_DeploymentID d) Hnd); rewrite list_lookup_fmap; [by rewrite Hj|by rewrite Hk, Heq].
Qed.

Lemma row_valid d : d ∈ ds -> validate_deployment d = None.
Proof.
  destruct (Parse_ok _ _ _ Hparse) as (s & Hok & _). intros Hd. pose proof (po_valid _ _ Hok) as Hv.
  rewrite Forall_forall in Hv. by apply Hv.
Qed.

Lemma row_pinned d : d ∈ ds -> Pinned (d_ModelReference d) = true.
Proof. destruct (Parse_ok _ _ _ Hparse) as (s & Hok & _). apply (deployments_pinned _ _ _ Hok). Qed.

(** A resolved set is the rows of one revision of the reference's line. *)
Lemma Resolve_rows ref set :
  Resolve ref at_ snapshot = inl set ->
  exists cur, set = set_for cur ds /\ ModelID cur = ModelID ref /\ (Pinned ref = true -> cur = ref).
Proof.
  intros H. destruct (proj1 (proj1 (Resolve_exact _ _ _ ref at_ set Hparse)) H)
    as [(Hp & _ & ->)|(Hp & _ & cur & (d & _ & _ & Hl & Hr) & ->)].
  - by exists ref.
  - exists cur. split; [done|]. split; [|congruence]. rewrite <-Hr, Hl. unfold ModelID. by rewrite Hp.
Qed.

Lemma set_routes cur : Candidates (set_for cur ds) = row_route <$> declared cur ds.
Proof.
  unfold Candidates, set_for, row_route. cbn [reference endpoints]. rewrite List.map_map.
  apply list_fmap_ext. intros n d Hd. f_equal. symmetry.
  apply list_elem_of_lookup_2 in Hd. by apply declared_nonempty in Hd as [_ ?].
Qed.

(** The revisions seen are pinned revisions of their lines. *)
Definition revisions_ok (m : gmap string string) : Prop :=
  forall line v, m !! line = Some v -> ModelID v = line /\ Pinned v = true.

(** What an offer of a step says of the row it is of. *)
Record offered (p : progress) (step : GrantStep) (c : offer) (d : Deployment) : Prop := {
  of_row : d ∈ ds;
  of_route : o_route c = row_route d;
  of_line : admitted_lines (Limits step) !! o_line c = Some (ModelID (d_ModelReference d));
  of_target : gt_Kind (step_Target step) = GrantTargetModel ->
    gt_ModelLine (step_Target step) = Some (ModelID (d_ModelReference d));
  of_pin : gt_Kind (step_Target step) = GrantTargetModel -> is_Some (gt_Revision (step_Target step)) ->
    d_ModelReference d = Reference (step_Target step) \/
    revisionOf p !! ModelID (d_ModelReference d) = Some (d_ModelReference d);
  of_admits : admitsRoute (Limits step) (row_route d) = true;
  of_served : match served with Some f => f (row_route d) | None => true end = true;
  of_fresh : steps p !! d_DeploymentID d = None;
  of_rank : rank_of grant funding (Limits step) (row_route d) = Some (o_rank c);
  of_found : exists ref set,
    line_reference (revisionOf p) (step_Target step) (ModelID (d_ModelReference d)) = Some ref /\
    Resolve ref at_ snapshot = inl set /\ row_route d ∈ Candidates set;
}.

Lemma consider_Some taken limits line position route c :
  consider grant funding served taken limits line position route = Some c <->
  admitsRoute limits route = true /\ match served with Some f => f route | None => true end = true /\
  taken !! r_DeploymentID route = None /\
  exists rank, rank_of grant funding limits route = Some rank /\ c = mkOffer route rank line position.
Proof.
  unfold consider. destruct (admitsRoute limits route); cbn [negb orb]; [|naive_solver].
  destruct (match served with Some f => f route | None => true end); cbn [negb]; [|naive_solver].
  destruct (taken !! r_DeploymentID route); cbn; [naive_solver|].
  destruct (rank_of grant funding limits route); cbn; naive_solver.
Qed.

(** The reference of a line is of that line. *)
Lemma line_reference_line p step line ref :
  revisions_ok (revisionOf p) -> step_ok step -> line ∈ admitted_lines (Limits step) ->
  line_reference (revisionOf p) (step_Target step) line = Some ref ->
  ModelID ref = line /\
  (gt_Kind (step_Target step) = GrantTargetModel -> gt_ModelLine (step_Target step) = Some line) /\
  (gt_Kind (step_Target step) = GrantTargetModel -> is_Some (gt_Revision (step_Target step)) ->
   Pinned ref = true /\ (ref = Reference (step_Target step) \/ revisionOf p !! line = Some ref)).
Proof.
  intros Hrev Hstep Hin. pose proof (so_grammar _ Hstep) as Hg. rewrite Forall_forall in Hg. specialize (Hg line Hin).
  apply line_unpinned in Hg. unfold line_reference.
  destruct (so_target _ Hstep) as [(Hk & l & Hl & _)|(Hk & _)]; rewrite Hk.
  - rewrite Hl. cbn [default]. change (GrantTargetModel =s GrantTargetModel) with true. cbn [andb].
    change (id l) with l. destruct (line =s l) eqn:El; [|done]. apply String.eqb_eq in El as <-. cbn [negb].
    destruct (revisionOf p !! line) as [v|] eqn:Ev.
    + intros [= <-]. destruct (Hrev _ _ Ev). naive_solver.
    + intros [= <-]. unfold Reference. rewrite Hl. destruct (gt_Revision _) as [r|].
      * rewrite ModelID_pinned by done. split; [done|]. split; [done|]. intros _ _. split; [|by left].
        unfold Pinned. rewrite contains_char_app, Hg. reflexivity.
      * rewrite ModelID_line by done. split; [done|]. split; [done|]. intros _ [? [=]].
  - cbn. destruct (revisionOf p !! line) as [v|] eqn:Ev; intros [= <-].
    + by destruct (Hrev _ _ Ev).
    + by rewrite ModelID_line.
Qed.

Lemma step_offers_spec p step c :
  revisions_ok (revisionOf p) -> step_ok step ->
  c ∈ step_offers grant snapshot at_ funding served p step -> exists d, offered p step c d.
Proof.
  intros Hrev Hstep. unfold step_offers.
  intros (part & Hpart & Hc)%list_elem_of_In%List.in_concat. apply list_elem_of_In in Hpart, Hc.
  apply elem_of_lookup_imap in Hpart as (n & line & -> & Hline).
  pose proof (list_elem_of_lookup_2 _ _ _ Hline) as Hin.
  unfold line_offers in Hc. destruct (line_reference _ _ _) as [ref|] eqn:Eref; [|by apply elem_of_nil in Hc].
  destruct (line_reference_line _ _ _ _ Hrev Hstep Hin Eref) as (Hid & Htarget & Hpin).
  destruct (Resolve ref at_ snapshot) as [set|] eqn:Eset; [|by apply elem_of_nil in Hc].
  destruct (Resolve_rows _ _ Eset) as (cur & -> & Hcur & Hsame). rewrite set_routes in Hc.
  apply list_elem_of_omap in Hc as (o & Ho & Heq). cbn [id] in Heq. subst o.
  apply elem_of_lookup_imap in Ho as (pos & route & Hroute & Hpos).
  symmetry in Hroute. apply consider_Some in Hroute as (Ha & Hs & Ht & rank & Hr & ->).
  rewrite list_lookup_fmap in Hpos. destruct (declared cur ds !! pos) as [d|] eqn:Ed; [|done]. injection Hpos as <-.
  apply list_elem_of_lookup_2, declared_nonempty in Ed as [Hd Href].
  assert (ModelID (d_ModelReference d) = line) as Hdl by congruence.
  exists d. constructor; cbn; try done.
  - by rewrite Hdl.
  - rewrite Hdl. exact Htarget.
  - intros Hk Hr'. rewrite Hdl, Href. destruct (Hpin Hk Hr') as [Hp Hor]. rewrite (Hsame Hp). exact Hor.
  - exists ref, (set_for cur ds). rewrite Hdl, set_routes. do 2 (split; [done|]).
    apply list_elem_of_fmap. exists d. split; [done|]. by apply declared_nonempty.
Qed.

Definition offer_id (c : offer) : string := r_DeploymentID (o_route c).

Lemma offered_id p step c d : offered p step c d -> offer_id c = d_DeploymentID d.
Proof. intros H. unfold offer_id. by rewrite (of_route _ _ _ _ H). Qed.

(** No deployment is offered twice in a step. *)
Lemma step_offers_ids p step :
  revisions_ok (revisionOf p) -> step_ok step ->
  NoDup (offer_id <$> step_offers grant snapshot at_ funding served p step).
Proof.
  intros Hrev Hstep. apply NoDup_concat_imap.
  - intros n line _. unfold line_offers. destruct (line_reference _ _ _) as [ref|]; [|constructor].
    destruct (Resolve ref at_ snapshot) as [set|] eqn:Eset; [|constructor].
    destruct (Resolve_rows _ _ Eset) as (cur & -> & _). rewrite set_routes.
    eapply sublist_NoDup; [|apply (omap_imap_keys r_DeploymentID)].
    + rewrite <-list_fmap_compose. change (r_DeploymentID ∘ row_route) with d_DeploymentID.
      eapply sublist_NoDup; [apply row_ids|]. apply (fmap_sublist d_DeploymentID), sublist_filter.
    + intros k x b Hb%consider_Some. destruct Hb as (_ & _ & _ & rank & _ & ->). done.
  - intros n m x y b c Hx Hy Hb Hc Heq.
    assert (forall k z e, admitted_lines (Limits step) !! k = Some z ->
      e ∈ line_offers grant snapshot at_ funding served p step k z ->
      o_line e = k /\ e ∈ step_offers grant snapshot at_ funding served p step) as Hin.
    { intros k z e Hz He. split.
      - unfold line_offers in He. destruct (line_reference _ _ _); [|by apply elem_of_nil in He].
        destruct (Resolve _ _ _); [|by apply elem_of_nil in He].
        apply list_elem_of_omap in He as (o & Ho & Hid). cbn [id] in Hid. subst o.
        apply elem_of_lookup_imap in Ho as (pos & route & Ho & _). symmetry in Ho.
        apply consider_Some in Ho as (_ & _ & _ & rank & _ & ->). done.
      - unfold step_offers. apply list_elem_of_In, List.in_concat. eexists. split; [|by apply list_elem_of_In].
        apply list_elem_of_In, elem_of_lookup_imap. eauto. }
    destruct (Hin _ _ _ Hx Hb) as [Hbn Hbo], (Hin _ _ _ Hy Hc) as [Hcm Hco].
    destruct (step_offers_spec _ _ _ Hrev Hstep Hbo) as [d Hd], (step_offers_spec _ _ _ Hrev Hstep Hco) as [d' Hd'].
    assert (d = d') as <-.
    { apply row_unique; [apply Hd|apply Hd'|].
      by rewrite <-(offered_id _ _ _ _ Hd), <-(offered_id _ _ _ _ Hd'). }
    pose proof (of_line _ _ _ _ Hd) as H1. pose proof (of_line _ _ _ _ Hd') as H2. rewrite Hbn in H1. rewrite Hcm in H2.
    apply (NoDup_lookup _ n m _ (so_lines _ Hstep) H1 H2).
Qed.

(** ** The invariant of the plan *)

(** A route of the plan is its row, within a step, under the step's ceiling
    and the grant's credential. *)
Record granted_route (step : GrantStep) (d : Deployment) (a : AuthorizedRoute) : Prop := {
  gr_row : d ∈ ds;
  gr_deployment : DeploymentID a = d_DeploymentID d;
  gr_reference : ModelReference a = d_ModelReference d;
  gr_provider : route_Provider a = d_Provider d;
  gr_regions : Regions a = Some (d_Regions d);
  gr_line : ModelID (ModelReference a) ∈ admitted_lines (Limits step);
  gr_target : gt_Kind (step_Target step) = GrantTargetModel ->
    gt_ModelLine (step_Target step) = Some (ModelID (ModelReference a));
  gr_admits : within_limits (Limits step) (row_route d);
  gr_served : match served with Some f => f (row_route d) | None => true end = true;
  gr_rank : is_Some (rank_of grant funding (Limits step) (row_route d));
  gr_spends : MaxFundingTier a = lim_MaxFundingTier (Limits step) /\ route_Credential a = grant_Credential grant;
}.

(** A step pinned to a revision is served at it, unless an earlier step
    already serves the line. *)
Definition pin_kept (l : list AuthorizedRoute) (taken : gmap string nat) (n : nat) (step : GrantStep)
    (a : AuthorizedRoute) : Prop :=
  gt_Kind (step_Target step) = GrantTargetModel -> is_Some (gt_Revision (step_Target step)) ->
  ModelReference a = Reference (step_Target step) \/
  exists b m, b ∈ l /\ taken !! DeploymentID b = Some m /\ (m < n)%nat /\ ModelReference b = ModelReference a.

(** Two routes in the plan's order: by step; within a step by what they cost
    to fund; and one route per line where the step forbids failover. *)
Definition in_order (taken : gmap string nat) (a b : AuthorizedRoute) : Prop :=
  forall n m, taken !! DeploymentID a = Some n -> taken !! DeploymentID b = Some m ->
  (n <= m)%nat /\
  (n = m -> forall step, Steps grant !! n = Some step ->
    (forall d e ra rb, d ∈ ds -> e ∈ ds -> d_DeploymentID d = DeploymentID a -> d_DeploymentID e = DeploymentID b ->
       rank_of grant funding (Limits step) (row_route d) = Some ra ->
       rank_of grant funding (Limits step) (row_route e) = Some rb -> (ra <= rb)%Z) /\
    (SameModelFailoverAllowed (Limits step) = false ->
     ModelID (ModelReference a) <> ModelID (ModelReference b))).

Definition substitution_of (first_route a : AuthorizedRoute) : Prop :=
  if decide (ModelID (ModelReference a) = ModelID (ModelReference first_route))
  then Substitution a = SubstitutionSameModel /\ AuthorizedByPolicy a = None
  else Substitution a = SubstitutionCrossModel /\ AuthorizedByPolicy a = Some true.

Record plan_inv (bound : nat) (p : progress) : Prop := {
  pi_steps : forall deployment n, steps p !! deployment = Some n ->
    (n < bound)%nat /\ deployment ∈ DeploymentID <$> routes p;
  pi_ids : NoDup (DeploymentID <$> routes p);
  pi_revisions : forall line v, revisionOf p !! line = Some v <->
    exists a, a ∈ routes p /\ ModelID (ModelReference a) = line /\ ModelReference a = v;
  pi_routes : forall a, a ∈ routes p -> exists n step d,
    steps p !! DeploymentID a = Some n /\ Steps grant !! n = Some step /\ granted_route step d a /\ pin_kept (routes p) (steps p) n step a;
  pi_order : StronglySorted (in_order (steps p)) (routes p);
  pi_substitutions : forall first_route, head (routes p) = Some first_route ->
    Forall (substitution_of first_route) (routes p);
}.

Lemma plan_inv_empty bound : plan_inv bound (mkProgress [] ∅ ∅).
Proof.
  constructor; cbn; try done; try constructor.
  - intros H. by rewrite lookup_empty in H.
  - by intros (a & ?%elem_of_nil & _).
  - by intros a ?%elem_of_nil.
Qed.

Lemma plan_inv_revisions bound p : plan_inv bound p -> revisions_ok (revisionOf p).
Proof.
  intros H line v (a & Ha & <- & <-)%(pi_revisions _ _ H). split; [done|].
  destruct (pi_routes _ _ H a Ha) as (n & step & d & _ & _ & Hg & _). rewrite (gr_reference _ _ _ Hg).
  apply row_pinned, Hg.
Qed.

Lemma plan_inv_mono n m p : (n <= m)%nat -> plan_inv n p -> plan_inv m p.
Proof.
  intros Hnm []. constructor; try done. intros x k Hk. destruct (pi_steps0 x k Hk). split; [lia|done].
Qed.

(** Within a step: which offers have been taken. *)
Record step_inv (n : nat) (step : GrantStep) (p0 : progress) (done_ : list offer) (s : progress * list string)
    : Prop := {
  si_plan : plan_inv (S n) s.1;
  si_here : forall a, a ∈ routes s.1 -> steps s.1 !! DeploymentID a = Some n ->
    (exists c, c ∈ done_ /\ DeploymentID a = offer_id c) /\
    (SameModelFailoverAllowed (Limits step) = false -> ModelID (ModelReference a) ∈ s.2);
  si_old : forall deployment, deployment ∉ offer_id <$> done_ -> steps s.1 !! deployment = steps p0 !! deployment;
  si_kept : forall b m, b ∈ routes p0 -> steps p0 !! DeploymentID b = Some m ->
    b ∈ routes s.1 /\ steps s.1 !! DeploymentID b = Some m;
}.

Lemma step_inv_skip n step p0 done_ c s :
  step_inv n step p0 done_ s -> step_inv n step p0 (done_ ++ [c]) s.
Proof.
  intros []. constructor; try done.
  - intros a Ha Hn. destruct (si_here0 a Ha Hn) as [(e & He & Hid) H]. split; [|done].
    exists e. split; [apply elem_of_app; by left|done].
  - intros x Hx. apply si_old0. intros H. apply Hx. rewrite fmap_app. apply elem_of_app. by left.
Qed.

(** The route taken from an offer. *)
Lemma authorize_granted p p0 step c d :
  offered p0 step c d -> granted_route step d (authorize grant p (Limits step) (o_route c)).
Proof.
  intros H. unfold authorize. rewrite (of_route _ _ _ _ H). constructor; cbn; try apply H; try done.
  2:{ apply admitsRoute_spec, H. }
  - apply (list_elem_of_lookup_2 _ (o_line c)), H.
  - rewrite (of_rank _ _ _ _ H). by eexists.
Qed.

Lemma authorize_substitution p limits route first_route :
  head (routes p ++ [authorize grant p limits route]) = Some first_route ->
  substitution_of first_route (authorize grant p limits route).
Proof.
  unfold substitution_of, authorize. destruct (routes p) as [|r l]; cbn.
  - intros [= <-]. cbn. by rewrite decide_True.
  - intros [= <-]. destruct (ModelID (r_ModelReference route) =s ModelID (ModelReference r)) eqn:E; bool_cases;
      cbn [negb]; [by rewrite decide_True|by rewrite decide_False].
Qed.

Lemma taken_route bound p a : plan_inv bound p -> a ∈ routes p -> is_Some (steps p !! DeploymentID a).
Proof. intros H Ha. destruct (pi_routes _ _ H a Ha) as (n & _ & _ & -> & _). by eexists. Qed.

Section Take.
Context (n : nat) (step : GrantStep) (Hstep : Steps grant !! n = Some step).
Context (p0 : progress) (done_ : list offer) (c : offer) (d : Deployment) (p : progress) (serves_ : list string).
Context (Hinv : step_inv n step p0 done_ (p, serves_)) (Hold : plan_inv n p0) (Hc : offered p0 step c d).
Context (Hnew : offer_id c ∉ offer_id <$> done_).
Context (Hrank : forall e, e ∈ done_ -> (o_rank e <= o_rank c)%Z).
Context (Hdone : forall e, e ∈ done_ -> exists d', offered p0 step e d').
Context (Hrevision : forall v, revisionOf p !! ModelID (d_ModelReference d) = Some v -> v = d_ModelReference d).
Context (Hfailover : SameModelFailoverAllowed (Limits step) = false -> ModelID (d_ModelReference d) ∉ serves_).

Let x := authorize grant p (Limits step) (o_route c).
Let p' := mkProgress (routes p ++ [x]) (<[r_DeploymentID (o_route c) := n]> (steps p))
  (<[ModelID (r_ModelReference (o_route c)) := r_ModelReference (o_route c)]> (revisionOf p)).

Lemma take_deployment : DeploymentID x = d_DeploymentID d /\ r_DeploymentID (o_route c) = d_DeploymentID d.
Proof. unfold x, authorize. by rewrite (of_route _ _ _ _ Hc). Qed.

Lemma take_reference : ModelReference x = d_ModelReference d /\ r_ModelReference (o_route c) = d_ModelReference d.
Proof. unfold x, authorize. by rewrite (of_route _ _ _ _ Hc). Qed.

Lemma take_fresh : steps p !! d_DeploymentID d = None.
Proof.
  pose proof (si_old _ _ _ _ _ Hinv _ Hnew) as H. cbn [fst] in H. rewrite (offered_id _ _ _ _ Hc) in H. rewrite H.
  apply (of_fresh _ _ _ _ Hc).
Qed.

Lemma take_others a : a ∈ routes p -> DeploymentID a <> d_DeploymentID d /\
  steps p' !! DeploymentID a = steps p !! DeploymentID a.
Proof.
  intros Ha. destruct (taken_route _ _ _ (si_plan _ _ _ _ _ Hinv) Ha) as [k Hk]. cbn in Hk.
  pose proof take_fresh as Hf. destruct take_deployment as [_ Hd].
  assert (DeploymentID a <> d_DeploymentID d) as Hne by congruence. split; [done|].
  cbn [p' steps]. rewrite Hd. by apply lookup_insert_ne.
Qed.

Lemma take_steps : steps p' !! DeploymentID x = Some n.
Proof. destruct take_deployment as [-> Hd]. cbn [p' steps]. rewrite Hd. apply lookup_insert_eq. Qed.

Lemma take_order : StronglySorted (in_order (steps p')) (routes p').
Proof.
  pose proof (si_plan _ _ _ _ _ Hinv) as Hp. cbn in Hp. cbn [p' routes]. apply StronglySorted_snoc.
  - eapply StronglySorted_impl_in; [|apply Hp]. intros a b Ha Hb H. unfold in_order.
    destruct (take_others a Ha) as [_ ->], (take_others b Hb) as [_ ->]. exact H.
  - intros a Ha k m. rewrite (proj2 (take_others a Ha)), take_steps. intros Hk [= <-].
    destruct (pi_steps _ _ Hp _ _ Hk) as [Hlt _]. split; [lia|]. intros -> step' Hs. simplify_eq.
    destruct (si_here _ _ _ _ _ Hinv a Ha Hk) as [(e & He & Hid) Hserved]. cbn in Hserved. split.
    + intros d1 d2 ra rb H1 H2 Hd1 Hd2 Hra Hrb. destruct (Hdone e He) as [de Hde].
      assert (d1 = de) as -> by (apply row_unique; [done|apply Hde|rewrite <-(offered_id _ _ _ _ Hde); congruence]).
      assert (d2 = d) as -> by (apply row_unique; [done|apply Hc|rewrite Hd2; apply take_deployment]).
      pose proof (of_rank _ _ _ _ Hde). pose proof (of_rank _ _ _ _ Hc). specialize (Hrank e He). simplify_eq. done.
    + intros Hf. rewrite (proj1 take_reference). intros Heq. apply (Hfailover Hf). rewrite <-Heq. auto.
Qed.

Lemma take_plan : plan_inv (S n) p'.
Proof.
  pose proof (si_plan _ _ _ _ _ Hinv) as Hp. cbn in Hp.
  destruct take_deployment as [Hxd Hcd], take_reference as [Hxr Hcr]. pose proof take_fresh as Hfresh.
  constructor.
  - intros y k. cbn [p' steps routes]. rewrite Hcd, lookup_insert_Some, fmap_app, elem_of_app.
    intros [[<- <-]|[_ Hk]]; [split; [lia|right; apply list_elem_of_singleton; by cbn]|].
    destruct (pi_steps _ _ Hp _ _ Hk). by auto.
  - cbn [p' routes]. rewrite fmap_app. apply NoDup_app. split; [apply Hp|]. split; [|apply NoDup_singleton].
    intros y (a & -> & Ha)%list_elem_of_fmap Hy%list_elem_of_singleton.
    destruct (take_others a Ha) as [Hne _]. congruence.
  - intros line v. cbn [p' revisionOf routes]. rewrite Hcr, lookup_insert_Some, (pi_revisions _ _ Hp). split.
    + intros [[<- <-]|[_ (a & Ha & H)]].
      * exists x. rewrite Hxr. split; [|done]. apply elem_of_app. right. by apply list_elem_of_singleton.
      * exists a. split; [apply elem_of_app; by left|done].
    + intros (a & [Ha|Ha%list_elem_of_singleton]%elem_of_app & <- & <-).
      * destruct (decide (ModelID (d_ModelReference d) = ModelID (ModelReference a))) as [Heq|Hne].
        -- left. split; [done|]. symmetry. apply Hrevision. apply (pi_revisions _ _ Hp). exists a. by rewrite Heq.
        -- right. split; [done|]. by exists a.
      * subst a. left. by rewrite Hxr.
  - intros a [Ha|Ha%list_elem_of_singleton]%elem_of_app.
    + destruct (pi_routes _ _ Hp a Ha) as (k & s & da & Hk & Hs & Hg & Hpin). exists k, s, da.
      rewrite (proj2 (take_others a Ha)). do 3 (split; [done|]). intros Hm Hr.
      destruct (Hpin Hm Hr) as [?|(b & m & Hb & Hbm & Hlt & Hbr)]; [by left|right]. exists b, m.
      rewrite (proj2 (take_others b Hb)). split; [apply elem_of_app; by left|done].
    + subst a. exists n, step, d. split; [apply take_steps|]. split; [done|].
      split; [by apply (authorize_granted p p0)|]. intros Hm Hr.
      destruct (of_pin _ _ _ _ Hc Hm Hr) as [H|H]; [left; by rewrite Hxr|right].
      apply (pi_revisions _ _ Hold) in H as (b & Hb & _ & Hbr).
      destruct (taken_route _ _ _ Hold Hb) as [m Hm']. destruct (pi_steps _ _ Hold _ _ Hm') as [Hlt _].
      destruct (si_kept _ _ _ _ _ Hinv b m Hb Hm') as [Hb' Hbm]. cbn in Hb', Hbm. exists b, m.
      rewrite (proj2 (take_others b Hb')), Hxr. split; [apply elem_of_app; by left|done].
  - apply take_order.
  - intros first_route Hfirst. cbn [p' routes] in Hfirst |- *. apply Forall_app. split.
    + pose proof (pi_substitutions _ _ Hp first_route) as Hsub. destruct (routes p); [constructor|by apply Hsub].
    + constructor; [|constructor]. by apply authorize_substitution.
Qed.

Lemma take_inv served' :
  (SameModelFailoverAllowed (Limits step) = false -> served' = ModelID (d_ModelReference d) :: serves_) ->
  step_inv n step p0 (done_ ++ [c]) (p', served').
Proof.
  intros Hserved. destruct take_deployment as [Hxd Hcd]. constructor; cbn [fst snd].
  - apply take_plan.
  - intros a [Ha|Ha%list_elem_of_singleton]%elem_of_app.
    + rewrite (proj2 (take_others a Ha)). intros Hk.
      destruct (si_here _ _ _ _ _ Hinv a Ha Hk) as [(e & He & Hid) Hs]. split.
      * exists e. split; [apply elem_of_app; by left|done].
      * intros Hf. rewrite (Hserved Hf). apply elem_of_cons. right. by apply Hs.
    + subst a. intros _. split.
      * exists c. split; [apply elem_of_app; right; by apply list_elem_of_singleton|].
        by rewrite (offered_id _ _ _ _ Hc).
      * intros Hf. rewrite (Hserved Hf), (proj1 take_reference). apply elem_of_cons. by left.
  - intros y Hy. rewrite fmap_app in Hy. cbn [p' steps]. rewrite lookup_insert_ne.
    + apply (si_old _ _ _ _ _ Hinv). intros H. apply Hy, elem_of_app. by left.
    + intros <-. apply Hy, elem_of_app. right. by apply list_elem_of_singleton.
  - intros b m Hb Hm. destruct (si_kept _ _ _ _ _ Hinv b m Hb Hm) as [Hb' Hm']. cbn in Hb', Hm'.
    rewrite (proj2 (take_others b Hb')). split; [apply elem_of_app; by left|done].
Qed.
End Take.

Lemma choose_inv n step p0 done_ c d s :
  Steps grant !! n = Some step -> plan_inv n p0 -> offered p0 step c d -> offer_id c ∉ offer_id <$> done_ ->
  (forall e, e ∈ done_ -> (o_rank e <= o_rank c)%Z) -> (forall e, e ∈ done_ -> exists d', offered p0 step e d') ->
  step_inv n step p0 done_ s -> step_inv n step p0 (done_ ++ [c]) (choose grant (Limits step) n c s).
Proof.
  intros Hstep Hold Hc Hnew Hrank Hdone Hinv. destruct s as [p serves_]. unfold choose.
  destruct (match revisionOf p !! _ with Some pinned => _ | None => false end) eqn:Erev; [by apply step_inv_skip|].
  destruct (negb (SameModelFailoverAllowed (Limits step)) && _) eqn:Efail; [by apply step_inv_skip|].
  rewrite (of_route _ _ _ _ Hc) in Erev, Efail. cbn [row_route route_of r_ModelReference] in Erev, Efail.
  apply (take_inv n step Hstep p0 done_ c d p serves_); try done.
  - intros v Hv. rewrite Hv in Erev. by bool_cases.
  - intros Hf. rewrite Hf in Efail. cbn [negb andb] in Efail. by apply isMember_false in Efail.
  - intros Hf. rewrite Hf, (of_route _ _ _ _ Hc). done.
Qed.

Lemma choose_all_inv n step p0 done_ offers s :
  Steps grant !! n = Some step -> plan_inv n p0 ->
  (forall e, e ∈ done_ ++ offers -> exists d, offered p0 step e d) ->
  NoDup (offer_id <$> done_ ++ offers) -> StronglySorted (fun a b => (o_rank a <= o_rank b)%Z) (done_ ++ offers) ->
  step_inv n step p0 done_ s -> step_inv n step p0 (done_ ++ offers) (choose_all grant (Limits step) n offers s).
Proof.
  intros Hstep Hold. revert done_ s.
  induction offers as [|c offers IH]; intros done_ s Hof Hnd Hsorted Hinv; [by rewrite app_nil_r|].
  assert (done_ ++ c :: offers = (done_ ++ [c]) ++ offers) as Hassoc by by rewrite <-app_assoc.
  assert (c ∈ done_ ++ c :: offers) as Hin by (apply elem_of_app; right; apply elem_of_cons; by left).
  destruct (Hof c Hin) as [d Hd].
  cbn [choose_all foldl]. rewrite Hassoc in *. apply IH; [done..|].
  apply (choose_inv _ _ _ _ _ d); try done.
  - rewrite fmap_app in Hnd. apply NoDup_app in Hnd as [Hnd _]. rewrite fmap_app in Hnd.
    apply NoDup_app in Hnd as (_ & Hnd & _). intros H. apply (Hnd _ H). by apply list_elem_of_singleton.
  - intros e He. apply StronglySorted_app_1_l in Hsorted.
    refine (StronglySorted_app_1_elem_of _ _ _ e c Hsorted He _). by apply list_elem_of_singleton.
  - intros e He. apply Hof. do 2 (apply elem_of_app; left). done.
Qed.

Lemma resolve_step_inv n step p :
  Steps grant !! n = Some step -> plan_inv n p ->
  plan_inv (S n) (resolve_step grant snapshot at_ funding served p n step).
Proof.
  intros Hstep Hp. pose proof (plan_inv_revisions _ _ Hp) as Hrev.
  assert (step_ok step) as Hok.
  { destruct (go_steps _ Hgrant) as (_ & _ & H). rewrite Forall_forall in H. apply H. by eapply list_elem_of_lookup_2. }
  unfold resolve_step. set (offers := step_offers _ _ _ _ _ p step).
  pose proof (SliceStable_permutation offer_less offers) as Hperm.
  apply (si_plan n step p (SliceStable offer_less offers)).
  apply (choose_all_inv n step p [] (SliceStable offer_less offers) (p, [])); try done.
  - intros e He. cbn [app] in He. rewrite Hperm in He. by apply step_offers_spec.
  - cbn [app]. rewrite Hperm. by apply step_offers_ids.
  - cbn [app]. apply sorted_offers.
  - constructor; cbn; try done.
    + by apply (plan_inv_mono n); [lia|].
    + intros a _ Hk. destruct (pi_steps _ _ Hp _ _ Hk). lia.
Qed.

Lemma resolve_steps_inv n p todo :
  (forall k step, todo !! k = Some step -> Steps grant !! (n + k) = Some step) -> plan_inv n p ->
  plan_inv (n + length todo) (resolve_steps grant snapshot at_ funding served p n todo).
Proof.
  revert n p. induction todo as [|step todo IH]; intros n p Hsteps Hp; cbn [resolve_steps length].
  - by rewrite Nat.add_0_r.
  - replace (n + S (length todo)) with (S n + length todo) by lia. apply IH.
    + intros k s Hk. specialize (Hsteps (S k) s Hk). by rewrite Nat.add_succ_r in Hsteps.
    + apply resolve_step_inv; [|done]. specialize (Hsteps 0 step eq_refl). by rewrite Nat.add_0_r in Hsteps.
Qed.

Definition resolved : progress := resolve_steps grant snapshot at_ funding served (mkProgress [] ∅ ∅) 0 (Steps grant).

Lemma resolved_inv : plan_inv (length (Steps grant)) resolved.
Proof. apply (resolve_steps_inv 0); [done|apply plan_inv_empty]. Qed.

Lemma resolveGrant_plan p :
  resolveGrant grant snapshot at_ funding served = inl p ->
  plan_routes p = routes resolved /\ plan_steps p = steps resolved /\ routes resolved <> [] /\
  exists step, head (Steps grant) = Some step /\ plan_target p = planTarget (step_Target step) (routes resolved).
Proof.
  unfold resolveGrant. fold resolved. destruct (routes resolved) as [|a l] eqn:E; [done|].
  destruct (Steps grant) as [|step todo]; [done|]. intros [= <-]. cbn. do 3 (split; [done|]). by exists step.
Qed.

End Facts.
