(* ===== verification/PublicPlan.v ===== *)
(** * What a granted request may run on (internal/publicapi/routes.go)

    The properties of [PublicRoutes.resolveGrant]: the plan stays within the
    grant, the executor accepts it whole, and a request is refused only when no
    step has anything left to serve it. *)

From S2P Require Import Prelude Ids Sort Contract Request Provider KeyPool Adapter Inventory Routes.
From S2P Require Import PublicContract Grant PublicRoutes.

Import Regex.


Lemma validate_regions_spec seen regions :
  validate_regions seen regions = None ->
  Forall (fun g => Region_Valid g = true) regions /\ NoDup regions /\ Forall (fun g => g ∉ seen) regions.
Proof.
  revert seen. induction regions as [|r l IH]; intros seen; cbn [validate_regions]; [repeat split; constructor|].
  checks. intros (H1 & H2 & (H3 & H4 & H5)%IH). rewrite Forall_cons, NoDup_cons, Forall_cons.
  split; [done|]. rewrite !Forall_forall in H5 |- *. split; [split; [|done]|split; [done|]].
  - intros Hr. apply (H5 r Hr). apply elem_of_cons. by left.
  - intros g Hg Hs. apply (H5 g Hg), elem_of_cons. by right.
Qed.

Lemma Forall2_exists_in {A B} (P : A -> B -> Prop) l :
  (forall x, x ∈ l -> exists y, P x y) -> exists k, Forall2 P l k.
Proof.
  induction l as [|x l IH]; intros H; [exists []; constructor|].
  destruct (H x) as [y Hy]; [apply elem_of_cons; by left|].
  destruct IH as [k Hk]; [intros z Hz; apply H, elem_of_cons; by right|]. exists (y :: k). by constructor.
Qed.

Section Plan.
Context (f : file) (age : Duration) (snapshot : Inventory) (Hparse : Parse f age = Some snapshot).
Context (grant : Grant) (Hvalid : Grant_Validate grant = None) (at_ : Instant).
Context (funding : option (Route -> FundingTier -> option Z)) (served : option (Route -> bool)).

Let ds := Deployments_ f.
Let p := resolved snapshot grant at_ funding served.
Let granted := granted_route f grant funding served.

Lemma plan_invariant : plan_inv f grant funding served (length (Steps grant)) p.
Proof. apply (resolved_inv f age); [done|by apply Grant_Validate_ok]. Qed.

Lemma plan_granted a : a ∈ routes p -> exists n step d, steps p !! DeploymentID a = Some n /\
  Steps grant !! n = Some step /\ step_ok step /\ granted step d a /\ pin_kept (routes p) (steps p) n step a.
Proof.
  intros Ha. destruct (pi_routes _ _ _ _ _ _ plan_invariant a Ha) as (n & step & d & Hn & Hs & Hg & Hp).
  exists n, step, d. do 2 (split; [done|]). split; [|done].
  destruct (go_steps _ (Grant_Validate_ok _ Hvalid)) as (_ & _ & H). rewrite Forall_forall in H.
  apply H. by eapply list_elem_of_lookup_2.
Qed.

Lemma plan_one_revision : one_revision (routes p).
Proof.
  intros a b Ha Hb Heq.
  assert (revisionOf p !! ModelID (ModelReference a) = Some (ModelReference a)) as H1.
  { apply (pi_revisions _ _ _ _ _ _ plan_invariant). by exists a. }
  assert (revisionOf p !! ModelID (ModelReference a) = Some (ModelReference b)) as H2.
  { apply (pi_revisions _ _ _ _ _ _ plan_invariant). by exists b. }
  congruence.
Qed.

(** Every route of the plan is one the signed envelope could carry. *)
Lemma plan_well_formed first_route a :
  head (routes p) = Some first_route -> a ∈ routes p -> route_well_formed a.
Proof.
  intros Hfirst Ha. destruct (plan_granted a Ha) as (n & step & d & Hn & Hs & Hok & Hg & _).
  pose proof (row_valid _ _ _ Hparse _ (gr_row _ _ _ _ _ _ _ Hg)) as Hv. unfold validate_deployment in Hv. checks.
  destruct Hv as (Hid & Hprov & Href & Hpin & _ & _ & Hreg). apply validate_regions_spec in Hreg as (Hreg & _ & _).
  pose proof (len_nonneg (d_DeploymentID d)) as Hlen.
  destruct (gr_spends _ _ _ _ _ _ _ Hg) as [Htier Hcred]. destruct (Grant_Validate_ok _ Hvalid) as [_ _ _ _ Hbyok].
  constructor.
  - rewrite (gr_deployment _ _ _ _ _ _ _ Hg). lia.
  - by rewrite (gr_reference _ _ _ _ _ _ _ Hg).
  - by rewrite (gr_provider _ _ _ _ _ _ _ Hg).
  - exists (d_Regions d). by rewrite (gr_regions _ _ _ _ _ _ _ Hg).
  - intros c Hc. rewrite Hcred in Hc. by apply Hbyok.
  - intros tier Ht. rewrite Htier in Ht. split; [by apply (so_tier _ Hok)|]. rewrite Hcred.
    destruct (grant_Credential grant) as [c|]; [|done]. destruct (Hbyok c eq_refl) as (_ & _ & Hno).
    rewrite Forall_forall in Hno. specialize (Hno step (list_elem_of_lookup_2 _ _ _ Hs)). congruence.
  - pose proof (pi_substitutions _ _ _ _ _ _ plan_invariant _ Hfirst) as Hsub. rewrite Forall_forall in Hsub.
    specialize (Hsub a Ha). unfold substitution_of in Hsub. case_decide; tauto.
Qed.

(** Each route resolves, on the executor's side, to its own row. *)
Lemma plan_executes first_route a :
  head (routes p) = Some first_route -> a ∈ routes p -> exists c, executes_as ds a c.
Proof.
  intros Hfirst Ha. destruct (plan_granted a Ha) as (n & step & d & _ & _ & _ & Hg & _).
  pose proof (row_valid _ _ _ Hparse _ (gr_row _ _ _ _ _ _ _ Hg)) as Hv. unfold validate_deployment in Hv. checks.
  destruct Hv as (_ & _ & _ & _ & _ & _ & (_ & Hnd & _)%validate_regions_spec).
  exists (candidate_for a (row_route d)), (row_route d). split; [|done]. exists d.
  rewrite (gr_regions _ _ _ _ _ _ _ Hg). split; [apply Hg|]. cbn [default].
  split; [by rewrite (gr_deployment _ _ _ _ _ _ _ Hg)|]. split; [by rewrite (gr_reference _ _ _ _ _ _ _ Hg)|].
  split; [by rewrite (gr_provider _ _ _ _ _ _ _ Hg)|]. done.
Qed.

(** The executor's list check on the routes of the plan. *)
Lemma plan_authorized target first_route rest :
  routes p = first_route :: rest ->
  (forall reference, Kind target = TargetModel -> target_ModelReference target = Some reference ->
    if Pinned reference
    then ModelReference first_route = reference /\ Forall (fun r => Substitution r = SubstitutionSameModel) (routes p)
    else ModelID (ModelReference first_route) = ModelID reference) ->
  validateAuthorizedRoutes target (routes p) = None.
Proof.
  intros Hroutes Htarget. apply validateAuthorizedRoutes_spec. exists first_route, rest. split; [done|].
  assert (head (routes p) = Some first_route) as Hfirst by by rewrite Hroutes.
  pose proof (pi_substitutions _ _ _ _ _ _ plan_invariant _ Hfirst) as Hsub. rewrite Forall_forall in Hsub.
  assert (first_route ∈ routes p) as Hin by (rewrite Hroutes; apply elem_of_cons; by left).
  constructor; [..|exact Htarget].
  - apply Forall_forall. intros a. by apply plan_well_formed with first_route.
  - apply plan_invariant.
  - specialize (Hsub _ Hin). unfold substitution_of in Hsub. rewrite decide_True in Hsub by done. apply Hsub.
  - apply Forall_forall. intros a Ha. specialize (Hsub a Ha). unfold substitution_of in Hsub.
    case_decide; destruct Hsub as [-> _]; [tauto|]. split; [discriminate|tauto].
Qed.

(** On one line, every route is of one revision and no substitute. *)
Lemma plan_on_line line first_route :
  head (routes p) = Some first_route -> allOnLine (routes p) line = true ->
  ModelID (ModelReference first_route) = line /\
  Forall (fun a => Substitution a = SubstitutionSameModel /\ ModelReference a = ModelReference first_route) (routes p).
Proof.
  intros Hfirst Hall. unfold allOnLine in Hall. rewrite forallb_forall in Hall.
  assert (first_route ∈ routes p) as Hin by (destruct (routes p); [done|injection Hfirst as ->; apply elem_of_cons; by left]).
  assert (forall a, a ∈ routes p -> ModelID (ModelReference a) = line) as Hline.
  { intros a Ha. apply String.eqb_eq, Hall. by apply list_elem_of_In. }
  split; [auto|]. apply Forall_forall. intros a Ha.
  pose proof (pi_substitutions _ _ _ _ _ _ plan_invariant _ Hfirst) as Hsub. rewrite Forall_forall in Hsub.
  assert (ModelID (ModelReference a) = ModelID (ModelReference first_route)) as Heq by by rewrite !Hline.
  specialize (Hsub a Ha). unfold substitution_of in Hsub. rewrite decide_True in Hsub by done.
  split; [apply Hsub|]. by apply plan_one_revision.
Qed.

(** The first step's routes are of the reference it names, when it pins one. *)
Lemma plan_pinned a step :
  head (Steps grant) = Some step -> a ∈ routes p -> steps p !! DeploymentID a = Some O ->
  gt_Kind (step_Target step) = GrantTargetModel -> is_Some (gt_Revision (step_Target step)) ->
  ModelReference a = Reference (step_Target step).
Proof.
  intros Hhead Ha Hn Hk Hr. destruct (plan_granted a Ha) as (n & step' & d & Hn' & Hs & _ & _ & Hp).
  assert (n = O) as -> by congruence. assert (step' = step) as -> by (destruct (Steps grant); cbn in *; congruence).
  destruct (Hp Hk Hr) as [?|(b & m & _ & _ & ? & _)]; [done|lia].
Qed.

End Plan.

(** C32. A plan never leaves its grant.  Against an accepted snapshot, every
    route a valid grant resolves to is a row of the inventory, with its
    provider, its revision and its regions, belonging to one step of the grant:
    of a model line the step admits (the very line it names, at the revision it
    pins unless an earlier step already serves the line at another), of a
    provider and regions within the step's limits, with a key to spend within
    its funding ceiling, under exactly that ceiling and the grant's own customer
    credential.  No deployment appears twice and no line at two revisions;
    routes come in the order of the grant's steps, within a step cheapest to
    fund first, and a step that forbids failover serves each line on one
    deployment. *)
Theorem plans_stay_within_the_grant f age snapshot grant at_ funding served p :
  Parse f age = Some snapshot -> Grant_Validate grant = None ->
  resolveGrant grant snapshot at_ funding served = inl p ->
  NoDup (DeploymentID <$> plan_routes p) /\
  one_revision (plan_routes p) /\
  (forall a, a ∈ plan_routes p -> exists n step d,
     stepOf (Some p) (DeploymentID a) = Some n /\ Steps grant !! n = Some step /\
     granted_route f grant funding served step d a /\ pin_kept (plan_routes p) (plan_steps p) n step a) /\
  StronglySorted (in_order f grant funding (plan_steps p)) (plan_routes p).
Proof.
  intros Hparse Hvalid (-> & Hst & _)%resolveGrant_plan. unfold stepOf. cbn [mbind option_bind]. rewrite Hst.
  pose proof (plan_invariant _ _ _ Hparse _ Hvalid at_ funding served) as Hinv.
  split; [apply Hinv|]. split; [by apply (plan_one_revision _ _ _ Hparse _ Hvalid)|]. split; [apply Hinv|apply Hinv].
Qed.

Lemma line_is_reference line :
  (len line <= 122)%Z -> matches modelIDPattern line = true -> ModelReference_Valid line = true.
Proof.
  intros Hl Hm. unfold ModelReference_Valid. apply andb_true_iff. split; [apply Z.leb_le; lia|].
  apply matches_spec. apply matches_spec in Hm.
  apply in_seq_inv in Hm as (publisher & rest & -> & Hp & H). apply in_seq_inv in H as (slash & model & -> & Hs & Hm).
  unfold modelReferencePattern. constructor; [done|]. constructor; [done|].
  rewrite <-(str_app_nil_r model). constructor; [done|]. apply in_alt_inv. left. constructor.
Qed.

(** What the executor asks of a plan. *)
Definition accepted (ds : list Deployment) (snapshot : Inventory) (requestID : string) (later : Instant)
    (target : RoutingTarget) (l : list AuthorizedRoute) : Prop :=
  RoutingTarget_validate target = None /\ validateAuthorizedRoutes target l = None /\
  (Kind target = TargetModel -> exists revision,
     Forall (fun a => Substitution a <> SubstitutionCrossModel /\ ModelReference a = revision) l) /\
  exists cs, resolveAuthorizedRoutes snapshot requestID l later = inl cs /\ Forall2 (executes_as ds) l cs.

Definition list_ok (target : RoutingTarget) (first_route : AuthorizedRoute) (l : list AuthorizedRoute) : Prop :=
  forall reference, Kind target = TargetModel -> target_ModelReference target = Some reference ->
    if Pinned reference
    then ModelReference first_route = reference /\ Forall (fun r => Substitution r = SubstitutionSameModel) l
    else ModelID (ModelReference first_route) = ModelID reference.

Lemma profile_target_ok ds snapshot requestID later l first_route profile :
  (0 < len profile <= 128)%Z ->
  (forall target, list_ok target first_route l -> validateAuthorizedRoutes target l = None) ->
  (exists cs, resolveAuthorizedRoutes snapshot requestID l later = inl cs /\ Forall2 (executes_as ds) l cs) ->
  accepted ds snapshot requestID later (mkTarget TargetRoutingProfileID None (Some profile)) l.
Proof.
  intros Hp Hauth Hexec. split.
  - unfold RoutingTarget_validate. cbn [Kind target_RoutingProfileID target_ModelReference].
    change (TargetRoutingProfileID =s TargetModel) with false.
    change (TargetRoutingProfileID =s TargetRoutingProfileID) with true. cbn iota. unfold RoutingProfileID_Valid.
    checks. split; [|done]. apply andb_true_iff. split; [apply Z.ltb_lt|apply Z.leb_le]; lia.
  - split; [apply Hauth; by intros ? [=]|]. split; [by intros [=]|done].
Qed.

Lemma model_target_ok ds snapshot requestID later l first_route target line :
  (len line <= 122)%Z -> matches modelIDPattern line = true -> gt_ModelLine target = Some line ->
  ModelID (ModelReference first_route) = line ->
  Forall (fun a => Substitution a = SubstitutionSameModel /\ ModelReference a = ModelReference first_route) l ->
  (forall target, list_ok target first_route l -> validateAuthorizedRoutes target l = None) ->
  (is_Some (gt_Revision target) ->
     (ModelReference_Valid (ModelReference first_route) = true /\ Pinned (ModelReference first_route) = true) /\
     ModelReference first_route = Reference target) ->
  (exists cs, resolveAuthorizedRoutes snapshot requestID l later = inl cs /\ Forall2 (executes_as ds) l cs) ->
  accepted ds snapshot requestID later (mkTarget TargetModel (Some (Reference target)) None) l.
Proof.
  intros Hlen Hg Hline Hid Hall Hauth Hpin Hexec.
  assert (ModelReference_Valid (Reference target) = true /\ list_ok (mkTarget TargetModel (Some (Reference target)) None)
    first_route l) as [Hvalid Hok].
  { unfold Reference in Hpin |- *. rewrite Hline in Hpin |- *. destruct (gt_Revision target) as [revision|].
    - destruct Hpin as ([Hv Hp] & Hr); [by eexists|]. rewrite <-Hr. split; [done|]. intros ? _ [= <-]. rewrite Hp.
      split; [done|]. eapply Forall_impl; [exact Hall|]. by intros a [? _].
    - split; [by apply line_is_reference|]. intros ? _ [= <-]. unfold Pinned. rewrite line_unpinned by done.
      rewrite (ModelID_line line); [done|by apply line_unpinned]. }
  split.
  - unfold RoutingTarget_validate. cbn [Kind target_RoutingProfileID target_ModelReference].
    change (TargetModel =s TargetModel) with true. cbn iota. checks. split; [done|]. apply bool_decide_eq_false. by intros [? ?].
  - split; [by apply Hauth|]. split; [|done]. intros _. exists (ModelReference first_route).
    eapply Forall_impl; [exact Hall|]. intros a [-> ?]. split; [discriminate|done].
Qed.

(** C33. What is planned is executed whole.  If the line the grant's first
    step names is short enough to name a routing profile, and, when that step
    pins a revision, it has a route of its own, then the plan is one the
    executor takes as it is: its target is well formed, its routes are an
    authorized list for that target, a model target has one revision and no
    substitute, and at any later instant on the same snapshot they resolve to
    one candidate each, in the plan's order, each the inventory's own row under
    the credential and ceiling planned. *)
Theorem plans_execute_whole f age snapshot grant at_ funding served p first_step requestID later :
  Parse f age = Some snapshot -> Grant_Validate grant = None ->
  resolveGrant grant snapshot at_ funding served = inl p -> head (Steps grant) = Some first_step ->
  (len (default "" (gt_ModelLine (step_Target first_step))) <= 122)%Z ->
  (is_Some (gt_Revision (step_Target first_step)) ->
     exists a, a ∈ plan_routes p /\ stepOf (Some p) (DeploymentID a) = Some O) ->
  accepted (Deployments_ f) snapshot requestID later (plan_target p) (plan_routes p).
Proof.
  intros Hparse Hvalid (-> & Hst & Hne & step & Hhead & ->)%resolveGrant_plan Hhead' Hlen Hpin.
  assert (step = first_step) as -> by congruence. clear Hhead'. unfold stepOf in Hpin. cbn [mbind option_bind] in Hpin.
  rewrite Hst in Hpin. set (r := resolved snapshot grant at_ funding served) in *.
  destruct (routes r) as [|first_route rest] eqn:Hroutes; [done|]. rewrite <-Hroutes in *.
  assert (head (routes r) = Some first_route) as Hfirst by by rewrite Hroutes.
  assert (first_route ∈ routes r) as Hin by (rewrite Hroutes; apply elem_of_cons; by left).
  assert (exists cs, resolveAuthorizedRoutes snapshot requestID (routes r) later = inl cs /\
    Forall2 (executes_as (Deployments_ f)) (routes r) cs) as Hexec.
  { assert (exists cs, Forall2 (executes_as (Deployments_ f)) (routes r) cs) as [cs Hcs].
    { apply Forall2_exists_in. intros a Ha. by apply (plan_executes f age snapshot Hparse grant Hvalid at_ funding served first_route). }
    exists cs. split; [|done]. apply (resolveAuthorizedRoutes_spec f age); [done| |].
    - apply Forall_forall. intros a Ha. by apply (plan_well_formed f age snapshot Hparse grant Hvalid at_ funding served first_route).
    - split; [done|]. by apply (plan_one_revision f age snapshot Hparse grant Hvalid at_ funding served). }
  assert (forall target, list_ok target first_route (routes r) -> validateAuthorizedRoutes target (routes r) = None) as Hauth.
  { intros target. by apply (plan_authorized f age snapshot Hparse grant Hvalid at_ funding served target first_route rest). }
  destruct (Grant_Validate_ok _ Hvalid) as [_ (_ & _ & Hsteps) _ _ _]. rewrite Forall_forall in Hsteps.
  assert (step_ok first_step) as Hok.
  { apply Hsteps. destruct (Steps grant); [done|]. injection Hhead as ->. apply elem_of_cons. by left. }
  unfold planTarget.
  destruct (gt_Kind (step_Target first_step) =s GrantTargetModel) eqn:Ek; cbn [andb].
  - bool_cases. destruct (so_target _ Hok) as [(_ & line & Hline & Hadm)|(Hl & _)]; [|by rewrite Ek in Hl].
    rewrite Hline in *. cbn [default] in *. change (id line) with line in *.
    pose proof (so_grammar _ Hok) as Hg. rewrite Forall_forall in Hg. specialize (Hg line Hadm).
    destruct (allOnLine (routes r) line) eqn:Eline.
    + destruct (plan_on_line f age snapshot Hparse grant Hvalid at_ funding served line first_route Hfirst Eline)
        as [Hfl Hall]. fold r in Hall.
      apply (model_target_ok _ _ _ _ _ first_route _ line); try done.
      intros Hr. destruct (Hpin Hr) as (a & Ha & Hn).
      pose proof (plan_pinned f age snapshot Hparse grant Hvalid at_ funding served a first_step Hhead Ha Hn Ek Hr) as <-.
      rewrite Forall_forall in Hall. destruct (Hall a Ha) as [_ ->]. split; [|done].
      apply wf_reference. by apply (plan_well_formed f age snapshot Hparse grant Hvalid at_ funding served first_route).
    + apply (profile_target_ok _ _ _ _ _ first_route); [|done..]. rewrite len_app. change (len "model:") with 6%Z.
      pose proof (len_nonneg line). lia.
  - destruct (so_target _ Hok) as [(Hl & _)|(_ & level & Hlevel & Hin')]; [by rewrite Hl in Ek|].
    rewrite Hlevel. cbn [default]. change (id level) with level.
    apply (profile_target_ok _ _ _ _ _ first_route); [|done..]. unfold powerLevelValues in Hin'.
    repeat (apply elem_of_cons in Hin' as [->|Hin']; [vm_compute; split; congruence|]). by apply elem_of_nil in Hin'.
Qed.

(** ** When there is a plan at all *)

(** A row a step could be served by, were it the first. *)
Definition servable (f : file) (grant : Grant) (snapshot : Inventory) (at_ : Instant)
    (funding : option (Route -> FundingTier -> option Z)) (served : option (Route -> bool))
    (step : GrantStep) (d : Deployment) : Prop :=
  let line := ModelID (d_ModelReference d) in
  let target := step_Target step in
  d ∈ Deployments_ f /\ line ∈ admitted_lines (Limits step) /\
  (gt_Kind target = GrantTargetModel -> gt_ModelLine target = Some line) /\
  (exists set, Resolve (if gt_Kind target =s GrantTargetModel then Reference target else line) at_ snapshot = inl set /\
     row_route d ∈ Candidates set) /\
  within_limits (Limits step) (row_route d) /\
  match served with Some s => s (row_route d) | None => true end = true /\
  is_Some (rank_of grant funding (Limits step) (row_route d)).

Lemma choose_all_grows grant limits n offers s :
  routes s.1 <> [] -> routes (choose_all grant limits n offers s).1 <> [].
Proof.
  revert s. induction offers as [|c offers IH]; intros s Hs; cbn [choose_all foldl]; [done|]. apply IH.
  destruct s as [p l]. unfold choose. cbn [fst] in *. destruct (match revisionOf p !! _ with Some _ => _ | None => _ end); [done|].
  destruct (_ && _); [done|]. cbn. by destruct (routes p).
Qed.

Lemma choose_all_first grant limits n c offers p :
  revisionOf p = ∅ -> routes (choose_all grant limits n (c :: offers) (p, [])).1 <> [].
Proof.
  intros Hr. cbn [choose_all foldl]. apply choose_all_grows. unfold choose. rewrite Hr, lookup_empty.
  rewrite andb_false_r. cbn. by destruct (routes p).
Qed.

Section Empty.
Context (f : file) (age : Duration) (snapshot : Inventory) (Hparse : Parse f age = Some snapshot).
Context (grant : Grant) (Hvalid : Grant_Validate grant = None) (at_ : Instant).
Context (funding : option (Route -> FundingTier -> option Z)) (served : option (Route -> bool)).

Definition nothing : progress := mkProgress [] ∅ ∅.

(** A plan without routes is the empty one. *)
Lemma empty_progress bound p : plan_inv f grant funding served bound p -> routes p = [] -> p = nothing.
Proof.
  intros H Hr. destruct p as [l taken revisions]. cbn in Hr. subst l. unfold nothing. f_equal.
  - apply map_empty. intros x. destruct (taken !! x) as [n|] eqn:E; [|done].
    destruct (pi_steps _ _ _ _ _ _ H x n E) as [_ Hx]. by apply elem_of_nil in Hx.
  - apply map_empty. intros x. destruct (revisions !! x) as [v|] eqn:E; [|done].
    apply (pi_revisions _ _ _ _ _ _ H) in E as (a & Ha & _). by apply elem_of_nil in Ha.
Qed.

Lemma offers_iff step : step_ok step ->
  (exists d, servable f grant snapshot at_ funding served step d) <->
  step_offers grant snapshot at_ funding served nothing step <> [].
Proof.
  intros Hok.
  assert (forall line, line ∈ admitted_lines (Limits step) ->
    (gt_Kind (step_Target step) = GrantTargetModel -> gt_ModelLine (step_Target step) = Some line) ->
    line_reference (revisionOf nothing) (step_Target step) line =
      Some (if gt_Kind (step_Target step) =s GrantTargetModel then Reference (step_Target step) else line)) as Hlr.
  { intros line Hin Ht. unfold line_reference, nothing. cbn [revisionOf]. rewrite lookup_empty.
    destruct (gt_Kind (step_Target step) =s GrantTargetModel) eqn:Ek; bool_cases; [|done].
    rewrite Ht by done. cbn [default]. change (id line) with line. by rewrite String.eqb_refl. }
  split.
  - intros (d & Hd & Hline & Htarget & (set & Hset & Hroute) & Hlim & Hserved & rank & Hrank) Hnil.
    pose proof (Hlr _ Hline Htarget) as Href. apply list_elem_of_lookup in Hline as [n Hn].
    apply list_elem_of_lookup in Hroute as [pos Hpos].
    assert (mkOffer (row_route d) rank n pos ∈ step_offers grant snapshot at_ funding served nothing step) as H;
      [|rewrite Hnil in H; by apply elem_of_nil in H].
    unfold step_offers. apply list_elem_of_In, List.in_concat.
    exists (line_offers grant snapshot at_ funding served nothing step n (ModelID (d_ModelReference d))).
    split; [apply list_elem_of_In, elem_of_lookup_imap; eauto|]. apply list_elem_of_In.
    unfold line_offers. rewrite Href, Hset. apply list_elem_of_omap.
    exists (Some (mkOffer (row_route d) rank n pos)). split; [|done]. apply elem_of_lookup_imap.
    exists pos, (row_route d). split; [|done]. symmetry. apply consider_Some. split; [by apply admitsRoute_spec|].
    split; [done|]. split; [apply lookup_empty|]. by exists rank.
  - intros Hne. destruct (step_offers _ _ _ _ _ nothing step) as [|c l] eqn:E; [done|].
    assert (c ∈ step_offers grant snapshot at_ funding served nothing step) as Hc by (rewrite E; apply elem_of_cons; by left).
    pose proof (plan_inv_revisions f age snapshot Hparse grant funding served 0 nothing (plan_inv_empty _ _ _ _ _)) as Hrev.
    pose proof Hc as Hc'. apply (step_offers_spec f age snapshot Hparse) in Hc' as [d Hd]; [|done..].
    exists d. pose proof (list_elem_of_lookup_2 _ _ _ (of_line _ _ _ _ _ _ _ _ _ _ Hd)) as Hline.
    split; [apply Hd|]. split; [done|]. split; [apply Hd|]. split.
    + destruct (of_found _ _ _ _ _ _ _ _ _ _ Hd) as (ref & set & Hr & Hset & Hin).
      rewrite Hlr in Hr; [|done|apply Hd]. injection Hr as <-. by exists set.
    + split; [apply admitsRoute_spec, Hd|]. split; [apply Hd|]. rewrite (of_rank _ _ _ _ _ _ _ _ _ _ Hd). by eexists.
Qed.

Lemma resolve_steps_grows p n todo :
  routes p <> [] -> routes (resolve_steps grant snapshot at_ funding served p n todo) <> [].
Proof.
  revert n p. induction todo as [|step todo IH]; intros n p Hp; cbn [resolve_steps]; [done|].
  apply IH. unfold resolve_step. by apply choose_all_grows.
Qed.

Lemma resolve_steps_empty n todo :
  (forall k step, todo !! k = Some step -> Steps grant !! (n + k) = Some step) ->
  routes (resolve_steps grant snapshot at_ funding served nothing n todo) <> [] <->
  exists step d, step ∈ todo /\ servable f grant snapshot at_ funding served step d.
Proof.
  revert n. induction todo as [|step todo IH]; intros n Hsteps; cbn [resolve_steps].
  { split; [done|]. by intros (step & d & ?%elem_of_nil & _). }
  pose proof (Hsteps 0 step eq_refl) as Hn. rewrite Nat.add_0_r in Hn.
  pose proof (Grant_Validate_ok _ Hvalid) as Hgrant.
  assert (step_ok step) as Hok.
  { destruct (go_steps _ Hgrant) as (_ & _ & H). rewrite Forall_forall in H. apply H. by eapply list_elem_of_lookup_2. }
  pose proof (offers_iff step Hok) as Hoff.
  destruct (step_offers grant snapshot at_ funding served nothing step) as [|c l] eqn:E.
  - assert (resolve_step grant snapshot at_ funding served nothing n step = nothing) as ->.
    { unfold resolve_step. by rewrite E. }
    rewrite IH by (intros k s Hk; specialize (Hsteps (S k) s Hk); by rewrite Nat.add_succ_r in Hsteps).
    split; intros (s & d & Hs & Hd); exists s, d; (split; [|done]).
    + apply elem_of_cons. by right.
    + apply elem_of_cons in Hs as [->|Hs]; [|done]. exfalso. apply (proj1 Hoff); [by exists d|done].
  - split.
    + intros _. destruct (proj2 Hoff) as [d Hd]; [done|]. exists step, d. split; [apply elem_of_cons; by left|done].
    + intros _. apply resolve_steps_grows. unfold resolve_step. rewrite E.
      pose proof (SliceStable_permutation offer_less (c :: l)) as Hperm.
      destruct (SliceStable offer_less (c :: l)) as [|c' l'] eqn:Es; [by apply Permutation_nil_cons in Hperm|].
      by apply choose_all_first.
Qed.

End Empty.

(** A granted request is refused only when nothing may serve it.  A valid
    grant resolves to a plan exactly when some step has a row of the inventory
    on a line it admits (its own line and pin, for a step that names one), that
    the snapshot serves at this instant, whose provider and regions are within
    the step's limits, that is of the operation's kind and holds a key within
    the step's funding ceiling; otherwise the answer is [no_route_available]. *)
Theorem granted_requests_find_a_route f age snapshot grant at_ funding served :
  Parse f age = Some snapshot -> Grant_Validate grant = None ->
  match resolveGrant grant snapshot at_ funding served with
  | inl _ => exists step d, step ∈ Steps grant /\ servable f grant snapshot at_ funding served step d
  | inr failure =>
      failure = NewPublicError (grant_RequestID grant) CodeNoRouteAvailable /\
      forall step d, step ∈ Steps grant -> ~ servable f grant snapshot at_ funding served step d
  end.
Proof.
  intros Hparse Hvalid. pose proof (resolve_steps_empty f age snapshot Hparse grant Hvalid at_ funding served 0
    (Steps grant) (fun k step Hk => Hk)) as H.
  destruct (Grant_Validate_ok _ Hvalid) as [_ (Hne & _) _ _ _]. unfold resolveGrant. fold nothing.
  destruct (routes (resolve_steps _ _ _ _ _ nothing 0 (Steps grant))) as [|a l].
  - split; [done|]. intros step d Hin Hd. apply (proj2 H); [by exists step, d|done].
  - destruct (Steps grant) as [|step todo]; [done|]. by apply H.
Qed.

(** ** Examples *)

Definition plan_rows : list Deployment :=
  [mkDeployment "m-1" "acme" "acme/m@1" "m" ["eu-west"] true None;
   mkDeployment "m-2" "bolt" "acme/m@1" "m" ["us-east"] true None;
   mkDeployment "n-1" "bolt" "bolt/n@7" "n" ["eu-west"] true None].
Definition plan_file : file := mkFile "snap" (Some (Spells 1000)) plan_rows.

Definition plan_inventory : Inventory :=
  mkInventory "snap" 1000 Hour
    {["acme/m@1" := set_for "acme/m@1" plan_rows; "bolt/n@7" := set_for "bolt/n@7" plan_rows]}
    {["acme/m" := set_for "acme/m@1" plan_rows; "bolt/n" := set_for "bolt/n@7" plan_rows]}.

Definition no_limits (tier : option string) (lines : list string) (failover : option bool) : GrantStepLimits :=
  mkLimits tier ((fun line => mkAdmitted line "price-1") <$> lines) [] [] [] [] failover.

Definition zeros (n : nat) : string := Nat.iter n (String "0") "".

Definition grant_of (steps : list GrantStep) : Grant :=
  mkGrant 1 "grant-1" "req-1" "responses" (Spells 0) (Spells (30 * Second)) (zeros 64)
    (mkGrantPrincipal (Some AuthorityExternal) "acct" "app" "cred" EnvironmentProduction (Some [ScopeInvoke])
       LaneMachineCredential)
    None (mkEconomics TreatmentCommercial "policy-1") (Some (mkReservation "hold-1" None)) None steps None None.

(** The line asked for, free keys only and one provider; then any line, paid. *)
Definition plan_grant : Grant :=
  grant_of [mkStep (ModelTarget "acme/m") (no_limits (Some FundingTierFree) ["acme/m"] (Some false));
            mkStep (LevelTarget "auto") (no_limits None ["acme/m"; "bolt/n"] None)].

(** Every provider has a paid key, acme a free one as well. *)
Definition plan_funding (route : Route) (ceiling : FundingTier) : option Z :=
  if r_Provider route =s "acme" then Some 0%Z
  else if decide (ceiling = TierFree) then None else Some 2%Z.

Definition plan_of (g : Grant) : plan + PublicError := resolveGrant g plan_inventory 2000 (Some plan_funding) None.

Definition planned : plan :=
  match plan_of plan_grant with inl p => p | inr _ => mkPlan (mkTarget "" None None) [] ∅ end.

Example planned_routes :
  (DeploymentID <$> plan_routes planned, Substitution <$> plan_routes planned, plan_target planned) =
  (["m-1"; "m-2"; "n-1"], [SubstitutionSameModel; SubstitutionSameModel; SubstitutionCrossModel],
   mkTarget TargetRoutingProfileID None (Some "model:acme/m")).
Proof. vm_compute. reflexivity. Qed.

Lemma plan_parses : Parse plan_file Hour = Some plan_inventory.
Proof. vm_compute. reflexivity. Qed.

Lemma plan_resolves : plan_of plan_grant = inl planned.
Proof. vm_compute. reflexivity. Qed.

Lemma plans_stay_within_the_grant_witness :
  NoDup (DeploymentID <$> plan_routes planned) /\
  exists n step d, stepOf (Some planned) "n-1" = Some n /\ Steps plan_grant !! n = Some step /\
    d_DeploymentID d = "n-1" /\ within_limits (Limits step) (row_route d).
Proof.
  destruct (plans_stay_within_the_grant plan_file Hour plan_inventory plan_grant 2000 (Some plan_funding) None planned
    plan_parses eq_refl plan_resolves) as (Hnd & _ & Hall & _).
  split; [exact Hnd|]. destruct (plan_routes planned !! 2%nat) as [a|] eqn:E; [|vm_compute in E; discriminate E].
  destruct (Hall a (list_elem_of_lookup_2 _ _ _ E)) as (n & step & d & Hn & Hs & Hg & _).
  assert (DeploymentID a = "n-1") as Ha by (vm_compute in E; injection E as <-; reflexivity).
  exists n, step, d. rewrite <-Ha. split; [exact Hn|]. split; [exact Hs|].
  split; [symmetry; apply Hg|apply Hg].
Defined.

Lemma plans_execute_whole_witness :
  validateAuthorizedRoutes (plan_target planned) (plan_routes planned) = None /\
  exists cs, resolveAuthorizedRoutes plan_inventory "req-1" (plan_routes planned) 9000 = inl cs /\ length cs = 3%nat.
Proof.
  destruct (plans_execute_whole plan_file Hour plan_inventory plan_grant 2000 (Some plan_funding) None planned
    (mkStep (ModelTarget "acme/m") (no_limits (Some FundingTierFree) ["acme/m"] (Some false))) "req-1" 9000
    plan_parses eq_refl plan_resolves eq_refl) as (_ & H & _ & cs & Hcs & Hf).
  - vm_compute. discriminate.
  - intros [? [=]].
  - split; [exact H|]. exists cs. split; [exact Hcs|]. apply Forall2_length in Hf. rewrite <-Hf. reflexivity.
Defined.

Lemma granted_requests_find_a_route_witness :
  (exists step d, step ∈ Steps plan_grant /\
     servable plan_file plan_grant plan_inventory 2000 (Some plan_funding) None step d) /\
  plan_of (grant_of [mkStep (ModelTarget "acme/m") (no_limits None ["acme/m"] None)]) <> inr
    (NewPublicError "req-1" CodeNoRouteAvailable).
Proof.
  split.
  - pose proof (granted_requests_find_a_route plan_file Hour plan_inventory plan_grant 2000 (Some plan_funding) None
      plan_parses eq_refl) as H. pose proof plan_resolves as Hr. unfold plan_of in Hr.
    rewrite Hr in H. exact H.
  - vm_compute. discriminate.
Defined.

(** A fallback grant for a long line names a profile the executor refuses. *)
Definition long_line : string := "acme/" +:+ Nat.iter 118 (String "m") "".
Definition long_rows : list Deployment :=
  [mkDeployment "m-1" "acme" (long_line +:+ "@1") "m" [] true None;
   mkDeployment "n-1" "bolt" "bolt/n@7" "n" [] true None].
Definition long_grant : Grant :=
  grant_of [mkStep (ModelTarget long_line) (no_limits None [long_line] None);
            mkStep (LevelTarget "auto") (no_limits None ["bolt/n"] None)].

Example long_line_plan_is_refused :
  match Parse (mkFile "snap" (Some (Spells 1000)) long_rows) Hour with
  | Some snapshot =>
      match resolveGrant long_grant snapshot 2000 None None with
      | inl p => Grant_Validate long_grant = None /\ (DeploymentID <$> plan_routes p) = ["m-1"; "n-1"] /\
                 RoutingTarget_validate (plan_target p) =
                   Some "contract: routingProfileId must contain between 1 and 128 characters"
      | inr _ => False
      end
  | None => False
  end.
Proof. vm_compute. split; [reflexivity|]. split; reflexivity. Qed.

(** A pinned revision nobody serves, then the same line at its current one:
    the plan claims the pin and the executor refuses it. *)
Definition stale_pin_grant : Grant :=
  grant_of [mkStep (ModelTarget "acme/m@9") (no_limits None ["acme/m"] None);
            mkStep (LevelTarget "auto") (no_limits None ["acme/m"] None)].

Example stale_pin_plan_is_refused :
  match plan_of stale_pin_grant with
  | inl p => Grant_Validate stale_pin_grant = None /\ (DeploymentID <$> plan_routes p) = ["m-1"; "m-2"] /\
             validateAuthorizedRoutes (plan_target p) (plan_routes p) =
               Some "contract: a pinned request is served on exactly the revision it pinned"
  | inr _ => False
  end.
Proof. vm_compute. split; [reflexivity|]. split; reflexivity. Qed.

(** A pinned step after one that serves the line runs at the earlier revision. *)
Definition late_pin_grant : Grant :=
  grant_of [mkStep (LevelTarget "auto")
              (mkLimits None [mkAdmitted "acme/m" "price-1"] ["acme"] [] [] [] None);
            mkStep (ModelTarget "acme/m@9") (no_limits None ["acme/m"] None)].

Example late_pin_is_not_kept :
  match plan_of late_pin_grant with
  | inl p => Grant_Validate late_pin_grant = None /\
             ((fun a => (DeploymentID a, ModelReference a)) <$> plan_routes p) = [("m-1", "acme/m@1"); ("m-2", "acme/m@1")] /\
             stepOf (Some p) "m-2" = Some 1%nat
  | inr _ => False
  end.
Proof. vm_compute. split; [reflexivity|]. split; reflexivity. Qed.
