(* ===== verification/Hedge.v ===== *)
(** * Racing an embedding across its pinned upstreams
    (internal/provider/openaicompat/hedge.go)

    A hedged call launches one exchange at once, another whenever a timer
    fires with none answered or one fails in a way another may survive, and is
    served by the first complete 2xx answer.  [Send]'s select loop is a state
    machine over the events it waits for; the moving average of how fast each
    upstream answered orders the upstreams of a race. *)

From S2P Require Import Prelude Ids Sort.
From S2P Require Request.

(** ** The call (internal/provider/adapter.go) *)

Record PinnedBody := mkPinned { pb_Upstream : string; pb_Body : string }.

Record Hedge := mkHedge { Bodies : list PinnedBody; h_After : Duration; Exchanges : Z }.

Definition embeddingHedgeBase : Duration := 450 * Millisecond.
Definition embeddingHedgePerToken : Duration := 200000.
Definition embeddingHedgeMax : Duration := 20 * Second.
Definition embeddingHedgeExchanges : Z := 4.

(** The estimated tokens of one text: [len(text)/4 + 1]. *)
Definition text_tokens (text : string) : Z := (len text / 4 + 1)%Z.

Definition hedged_texts (input : Request.Input) : list string :=
  if Request.Format input =s Request.InputText then [default "" (Request.input_Text input)]
  else default [] (Request.Texts input).

Definition embeddingHedgeAfter (input : Request.Input) : Duration :=
  let tokens := foldl (fun n text => wrap64 (n + text_tokens text)) 0%Z (hedged_texts input) in
  Z.min (wrap64 (embeddingHedgeBase + wrap64 (tokens * embeddingHedgePerToken))) embeddingHedgeMax.

(** The hedge [Adapter.Prepare] gives an embedding pinned to [order]; [encode]
    is [pinnedEmbeddingBody]'s JSON. *)
Definition prepared_hedge (encode : string -> string) (order : list string) (input : Request.Input) : option Hedge :=
  let bodies := (fun upstream => mkPinned upstream (encode upstream)) <$> order in
  if (1 <? Z.of_nat (length bodies))%Z
  then Some (mkHedge bodies (embeddingHedgeAfter input) embeddingHedgeExchanges) else None.

(** ** What an exchange delivers *)

Record Response := mkResponse { StatusCode : Z; Body : string }.

(** [Adapter.Send]: an error, or a response whose body yields bytes and then
    ends, in an error or not. *)
Inductive SendAnswer :=
| SendFailed (err : string)
| SendAnswered (status : Z) (body : string) (ends : option string).

Record hedgedResult := mkResult { index : nat; outcome : Response + string }.

Definition maxHedgedResponseBytes : Z := 16777216.

Fixpoint take_bytes (n : Z) (s : string) : string :=
  match s with
  | EmptyString => EmptyString
  | String c s' => if (n <=? 0)%Z then EmptyString else String c (take_bytes (n - 1) s')
  end.

(** [hedgedSender.exchange]: the whole answer, read through a limit, before it
    competes.  A body as long as the limit is cut there and its own end is
    never read. *)
Definition exchange (i : nat) (sent : SendAnswer) : hedgedResult :=
  mkResult i
    match sent with
    | SendFailed err => inr err
    | SendAnswered status body ends =>
        if (maxHedgedResponseBytes + 1 <=? len body)%Z
        then inl (mkResponse status (take_bytes (maxHedgedResponseBytes + 1) body))
        else match ends with
             | Some err => inr err
             | None => inl (mkResponse status body)
             end
    end.

Definition transientAnswer (result : hedgedResult) : bool :=
  match outcome result with
  | inr _ => true
  | inl response => (StatusCode response =? 429)%Z || (500 <=? StatusCode response)%Z
  end.

Definition success (result : hedgedResult) : bool :=
  match outcome result with
  | inr _ => false
  | inl response => (200 <=? StatusCode response)%Z && (StatusCode response <? 300)%Z
  end.

(** ** How fast each upstream answered *)

Definition upstreamLatency := gmap string float64.

(** [0.3] and [float64(embeddingHedgeExchanges)]. *)
Definition upstreamLatencyWeight : float64 := f64_div (f64_of_Z 3) (f64_of_Z 10).
Definition upstreamFailurePenalty : float64 := f64_of_Z embeddingHedgeExchanges.

Definition upstreamKey (model upstream : string) : string := model +:+ String "000"%char upstream.

Definition record (model upstream : string) (sample : float64) (l : upstreamLatency) : upstreamLatency :=
  let key := upstreamKey model upstream in
  match l !! key with
  | None => <[key := sample]> l
  | Some previous =>
      <[key := f64_add previous (f64_mul upstreamLatencyWeight (f64_sub sample previous))]> l
  end.

Definition observe (model upstream : string) (took after : Duration) (l : upstreamLatency) : upstreamLatency :=
  if (after <=? 0)%Z then l else record model upstream (f64_div (f64_of_Z took) (f64_of_Z after)) l.

Definition fail (model upstream : string) (l : upstreamLatency) : upstreamLatency :=
  record model upstream upstreamFailurePenalty l.

Definition score (model : string) (l : upstreamLatency) (body : PinnedBody) : float64 :=
  default (S754_zero false) (l !! upstreamKey model (pb_Upstream body)).

(** [upstreamLatency.order]: indexes are sorted by the score read once for
    each, and the bodies placed by index. *)
Definition order (model : string) (bodies : list PinnedBody) (l : upstreamLatency) : list PinnedBody :=
  let scored := (fun body => (score model l body, body)) <$> bodies in
  snd <$> SliceStable (fun a b => SFltb (fst a) (fst b)) scored.

(** ** The race *)

Record launched := mkLaunched { upstream : string; launched_at : Instant; pending : bool }.

(** The variables of [Send]: the first four do not change, [sent] is the body
    each exchange was sent. *)
Record race := mkRace {
  plan : list PinnedBody;
  limit : Z;
  model : string;
  after : Duration;
  exchanges : list launched;
  sent : list PinnedBody;
  inFlight : Z;
  launching : bool;
  failed : option hedgedResult;
  abandoned : Z;
}.

Definition set_exchanges (es : list launched) (bodies : list PinnedBody) (flight : Z) (r : race) : race :=
  mkRace (plan r) (limit r) (model r) (after r) es bodies flight (launching r) (failed r) (abandoned r).

Definition set_failed (still : bool) (result : hedgedResult) (r : race) : race :=
  mkRace (plan r) (limit r) (model r) (after r) (exchanges r) (sent r) (inFlight r) still (Some result) (abandoned r).

Definition set_abandoned (n : Z) (r : race) : race :=
  mkRace (plan r) (limit r) (model r) (after r) (exchanges r) (sent r) (inFlight r) (launching r) (failed r) n.

Definition launched_count (r : race) : Z := Z.of_nat (length (exchanges r)).

(** [start] and the [inFlight++] that follows it.  The plan is never empty. *)
Definition start (at_ : Instant) (r : race) : race :=
  match plan r !! (length (exchanges r) `mod` length (plan r))%nat with
  | Some pinned =>
      set_exchanges (exchanges r ++ [mkLaunched (pb_Upstream pinned) at_ true]) (sent r ++ [pinned])
        (inFlight r + 1) r
  | None => r
  end.

(** [Send] up to its loop. *)
Definition begin_race (model : string) (hedge : Hedge) (at_ : Instant) (already : Z) (l : upstreamLatency) : race :=
  start at_ (mkRace (order model (Bodies hedge) l) (Z.max (Exchanges hedge) 1) model (h_After hedge)
               [] [] 0 true None already).

(** What the loop waits for: the timer, or an exchange's result, with the
    clock as [Send] reads it while handling each and whether the request's
    context is over. *)
Inductive Event :=
| Fire (started : Instant)
| Finished (result : hedgedResult) (over : bool) (received : Instant) (waited : nat -> Instant) (started : Instant).

Inductive Turn :=
| Racing (r : race)
| Returned (answer : option hedgedResult) (r : race).

Definition race_of (t : Turn) : race := match t with Racing r | Returned _ r => r end.

Definition may_launch (r : race) : bool := launching r && (launched_count r <? limit r)%Z.

(** The measurements and the count of a won race: each exchange still pending
    is abandoned, and one that waited longer than the winner took is at least
    that slow. *)
Fixpoint abandon (model : string) (after took : Duration) (waited : nat -> Instant) (i : nat) (es : list launched)
    (count : Z) (l : upstreamLatency) : Z * upstreamLatency :=
  match es with
  | [] => (count, l)
  | e :: es =>
      if pending e then
        let wait := Sub (waited i) (launched_at e) in
        abandon model after took waited (S i) es (count + 1)
          (if (took <? wait)%Z then observe model (upstream e) wait after l else l)
      else abandon model after took waited (S i) es count l
  end.

Definition settled (e : launched) : launched := mkLaunched (upstream e) (launched_at e) false.

(** One turn of [Send]'s loop. *)
Definition step (ev : Event) (r : race) (l : upstreamLatency) : Turn * upstreamLatency :=
  match ev with
  | Fire started => (Racing (start started r), l)
  | Finished result over received waited started =>
      match exchanges r !! index result with
      | None => (Racing r, l)
      | Some e =>
          let r := set_exchanges (alter settled (index result) (exchanges r)) (sent r) (inFlight r - 1) r in
          let took := Sub received (launched_at e) in
          if success result then
            let '(count, l) :=
              abandon (model r) (after r) took waited 0 (exchanges r) (abandoned r)
                (observe (model r) (upstream e) took (after r) l) in
            (Returned (Some result) (set_abandoned count r), l)
          else
            let wait r := if (0 <? inFlight r)%Z then Racing r else Returned (failed r) r in
            if negb (transientAnswer result) || over then (wait (set_failed false result r), l)
            else
              let r := set_failed (launching r) result r in
              let l := fail (model r) (upstream e) l in
              if (launched_count r <? limit r)%Z then (Racing (start started r), l) else (wait r, l)
      end
  end.

(** When the loop can receive an event: the timer only while it may launch,
    and a result only from an exchange that has not delivered one. *)
Definition can_receive (ev : Event) (r : race) : bool :=
  match ev with
  | Fire _ => may_launch r
  | Finished result _ _ _ _ => match exchanges r !! index result with Some e => pending e | None => false end
  end.

(** Other requests measure the same upstreams between two turns. *)
Record Moment := mkMoment { elsewhere : upstreamLatency -> upstreamLatency; event : Event }.

Definition advance (m : Moment) (s : Turn * upstreamLatency) : Turn * upstreamLatency :=
  let '(t, l) := s in
  match t with
  | Racing r => step (event m) r (elsewhere m l)
  | Returned _ _ => (t, elsewhere m l)
  end.

(** [Send] over what happens, in order. *)
Definition race_run (ms : list Moment) (s : Turn * upstreamLatency) : Turn * upstreamLatency :=
  foldl (fun s m => advance m s) s ms.

(** Every moment is one the loop could receive. *)
Fixpoint plays (ms : list Moment) (s : Turn * upstreamLatency) : Prop :=
  match ms with
  | [] => True
  | m :: ms =>
      match fst s with Racing r => can_receive (event m) r = true | Returned _ _ => False end /\
      plays ms (advance m s)
  end.

(** ** The order of a race *)

(** [<] on float64 that are no NaN orders: finite values compare by sign,
    then exponent, then mantissa. *)
Definition not_nan (f : float64) : bool := match f with S754_nan => false | _ => true end.

Definition float_key (f : float64) : Z * Z * Z :=
  match f with
  | S754_nan => (0, 0, 0)
  | S754_infinity true => (1, 0, 0)
  | S754_finite true m e => (2, - e, Zneg m)
  | S754_zero _ => (3, 0, 0)
  | S754_finite false m e => (4, e, Zpos m)
  | S754_infinity false => (5, 0, 0)
  end%Z.

Definition key_less (x y : Z * Z * Z) : Prop :=
  (x.1.1 < y.1.1 \/ x.1.1 = y.1.1 /\ (x.1.2 < y.1.2 \/ x.1.2 = y.1.2 /\ x.2 < y.2))%Z.

Lemma SFltb_key x y : not_nan x = true -> not_nan y = true ->
  SFltb x y = true <-> key_less (float_key x) (float_key y).
Proof.
  unfold SFltb, SFcompare, key_less. change Pos.compare_cont with Pos.compare_cont.
  destruct x as [[]|[]| |[] m e], y as [[]|[]| |[] m' e']; try done; intros _ _; cbn;
    try (split; [intros; try done; lia|intros; try done; lia]).
  all: destruct (Z.compare_spec e e'); try (split; [intros; try done; lia|intros; try done; lia]).
  all: change (Pos.compare_cont Eq m m') with (Pos.compare m m'); destruct (Pos.compare_spec m m'); cbn;
    split; intros; try done; lia.
Qed.

Lemma SFltb_key_false x y : not_nan x = true -> not_nan y = true ->
  SFltb x y = false <-> ~ key_less (float_key x) (float_key y).
Proof. intros Hx Hy. rewrite <-not_true_iff_false. by rewrite SFltb_key. Qed.

(** The scores of the bodies, paired as [order] sorts them. *)
Lemma order_scored model bodies l :
  (fun body => (score model l body, body)) <$> order model bodies l =
  SliceStable (fun a b : float64 * PinnedBody => SFltb (fst a) (fst b))
    ((fun body => (score model l body, body)) <$> bodies).
Proof.
  unfold order. rewrite <-list_fmap_compose.
  set (scored := (fun body => _) <$> bodies).
  assert (H : Forall (fun p => p = (score model l p.2, p.2)) (SliceStable (fun a b => SFltb a.1 b.1) scored)).
  { rewrite SliceStable_permutation. unfold scored. rewrite Forall_fmap. by apply Forall_forall. }
  induction H as [|p ps Hp Hps IH]; [done|]. rewrite fmap_cons. unfold compose at 1. by rewrite <-Hp, IH.
Qed.

Lemma order_permutation model bodies l : order model bodies l ≡ₚ bodies.
Proof.
  unfold order. rewrite SliceStable_permutation, <-list_fmap_compose. by rewrite list_fmap_id.
Qed.

Lemma filter_fmap_bool {A B} (P : B -> bool) (f : A -> B) l :
  List.filter P (f <$> l) = f <$> List.filter (fun x => P (f x)) l.
Proof. induction l as [|x l IH]; [done|]. rewrite fmap_cons. cbn. rewrite IH. by destruct (P (f x)). Qed.

(** What a body measured, as the order compares it. *)
Definition measure (model : string) (l : upstreamLatency) (body : PinnedBody) : Z * Z * Z :=
  float_key (score model l body).

(** The upstreams of a race are the reviewed ones and no other, each as often as
    reviewed, none behind one that measured slower; those that measured alike
    - every one, while nothing is measured - keep the reviewed order. *)
Theorem order_keeps_the_reviewed_set model bodies l :
  Forall (fun body => not_nan (score model l body) = true) bodies ->
  order model bodies l ≡ₚ bodies /\
  StronglySorted (fun a b => SFltb (score model l b) (score model l a) = false) (order model bodies l) /\
  forall measured,
    List.filter (fun body => bool_decide (measure model l body = measured)) (order model bodies l) =
    List.filter (fun body => bool_decide (measure model l body = measured)) bodies.
Proof.
  intros Hok. split; [apply order_permutation|].
  set (less := fun a b : float64 * PinnedBody => SFltb a.1 b.1).
  set (pair_ := fun body => (score model l body, body)).
  assert (Hpair : Forall (fun p => not_nan (fst p) = true) (pair_ <$> bodies)) by by rewrite Forall_fmap.
  split.
  - apply (StronglySorted_fmap (not_after less) pair_). unfold pair_. rewrite order_scored.
    apply (SliceStable_sorted less (fun p => not_nan (fst p) = true)); [..|done]; unfold less.
    + intros x y Hx Hy. rewrite SFltb_key, SFltb_key_false by done. unfold key_less. lia.
    + intros x y z Hx Hy Hz. rewrite !SFltb_key_false by done. unfold key_less. lia.
  - intros measured.
    set (P := fun p : float64 * PinnedBody => not_nan p.1 && bool_decide (float_key p.1 = measured)).
    assert (Hext : forall bs, Forall (fun b => not_nan (score model l b) = true) bs ->
      List.filter (fun b => bool_decide (measure model l b = measured)) bs = List.filter (fun b => P (pair_ b)) bs).
    { intros bs Hbs. apply List.filter_ext_in. intros b Hb%list_elem_of_In. unfold P, pair_. cbn [fst].
      rewrite Forall_forall in Hbs. by rewrite Hbs. }
    rewrite !Hext; [|done|by rewrite order_permutation].
    apply (list_fmap_eq_inj pair_); [by intros x y [= _ ?]|].
    rewrite <-!filter_fmap_bool. unfold pair_. rewrite order_scored. apply SliceStable_stable.
    intros x y [Hx Ex]%andb_true_iff [Hy Ey]%andb_true_iff. unfold less.
    apply bool_decide_eq_true in Ex, Ey. rewrite SFltb_key_false by done. rewrite Ex, Ey. unfold key_less. lia.
Qed.

(** ** The race *)

Definition pending_count (es : list launched) : Z :=
  Z.of_nat (length (List.filter pending es)).

Definition delivered_of (m : Moment) : option hedgedResult :=
  match event m with Finished result _ _ _ _ => Some result | Fire _ => None end.

(** The results [Send] has received, in order. *)
Definition delivered (ms : list Moment) : list hedgedResult := omap delivered_of ms.

Lemma pending_count_app es es' : pending_count (es ++ es') = (pending_count es + pending_count es')%Z.
Proof. unfold pending_count. rewrite List.filter_app, length_app. lia. Qed.

Lemma pending_count_settled es i e : es !! i = Some e -> pending e = true ->
  pending_count (alter settled i es) = (pending_count es - 1)%Z.
Proof.
  revert i. induction es as [|e' es IH]; intros [|i] Hi Hp; try done; unfold pending_count in *; cbn.
  - injection Hi as ->. rewrite Hp. cbn. lia.
  - specialize (IH i Hi Hp). cbn in IH. change (alter settled i es) with (list_alter settled i es).
    change (alter settled i es) with (list_alter settled i es) in IH. destruct (pending e'); cbn; lia.
Qed.

Lemma pending_count_pos es : (0 < pending_count es)%Z -> exists i e, es !! i = Some e /\ pending e = true.
Proof.
  induction es as [|e es IH]; unfold pending_count in *; cbn; [lia|]. destruct (pending e) eqn:E.
  - intros _. by exists 0%nat, e.
  - intros H. destruct (IH H) as (i & e' & Hi & He). by exists (S i), e'.
Qed.

(** What abandoning counts. *)
Lemma abandon_count model after took waited i es count l :
  fst (abandon model after took waited i es count l) = (count + pending_count es)%Z.
Proof.
  revert i count l. induction es as [|e es IH]; intros i count l; unfold pending_count in *; cbn; [lia|].
  destruct (pending e); rewrite IH; cbn; lia.
Qed.

(** A race whose exchanges are of [bodies], in turns, at most [most] of them,
    of which [results] have been delivered, after [moves] turns. *)
Record racing (bodies : list PinnedBody) (most : Z) (results : list hedgedResult) (moves : nat) (r : race) : Prop := {
  rc_plan : plan r = bodies;
  rc_limit : limit r = most;
  rc_sent : forall i b, sent r !! i = Some b -> bodies !! (i `mod` length bodies)%nat = Some b;
  rc_sent_length : length (sent r) = length (exchanges r);
  rc_some : (0 < length (exchanges r))%nat;
  rc_most : (launched_count r <= most)%Z;
  rc_pending : forall i e, exchanges r !! i = Some e -> pending e = true <-> i ∉ index <$> results;
  rc_once : NoDup (index <$> results);
  rc_index : Forall (fun res => (index res < length (exchanges r))%nat) results;
  rc_count : (Z.of_nat (length results) + pending_count (exchanges r) = launched_count r)%Z;
  rc_flight : inFlight r = pending_count (exchanges r);
  rc_moves : (Z.of_nat moves + 1 <= Z.of_nat (length results) + launched_count r)%Z;
}.

Lemma start_racing bodies most results moves at_ r :
  bodies <> [] -> racing bodies most results moves r -> (launched_count r < most)%Z ->
  racing bodies most results (S moves) (start at_ r) /\
  (0 < inFlight (start at_ r))%Z /\ failed (start at_ r) = failed r /\ abandoned (start at_ r) = abandoned r /\
  launched_count (start at_ r) = (launched_count r + 1)%Z /\ launching (start at_ r) = launching r.
Proof.
  intros Hne [] Hlt. subst most. unfold start. rewrite rc_plan0.
  destruct (bodies !! _) as [pinned|] eqn:E.
  2: { apply lookup_ge_None in E. destruct bodies; [done|].
       pose proof (Nat.mod_upper_bound (length (exchanges r)) (length (p :: bodies)) ltac:(done)). lia. }
  unfold launched_count in *. cbn [exchanges sent inFlight limit plan failed abandoned launching set_exchanges].
  assert (Hpc : pending_count [mkLaunched (pb_Upstream pinned) at_ true] = 1%Z) by done.
  assert (Hnn : (0 <= pending_count (exchanges r))%Z) by (unfold pending_count; lia).
  split_and!; try done; try (rewrite ?length_app; cbn; lia).
  constructor; unfold launched_count; cbn [exchanges sent inFlight limit plan failed abandoned set_exchanges];
    rewrite ?length_app, ?pending_count_app, ?Hpc; cbn [length]; try done; try lia.
  - intros i b. rewrite lookup_app_Some. intros [Hi|[Hi Hb]]; [by apply rc_sent0|].
    apply list_lookup_singleton_Some in Hb as [Hi' <-]. replace i with (length (exchanges r)) by lia. done.
  - intros i e. rewrite lookup_app_Some. intros [Hi|[Hi Hb]]; [by apply rc_pending0|].
    apply list_lookup_singleton_Some in Hb as [Hi' <-]. cbn. split; [|done]. intros _ Hin.
    apply list_elem_of_fmap in Hin as (res & -> & Hres). rewrite Forall_forall in rc_index0. apply rc_index0 in Hres. lia.
  - eapply Forall_impl; [exact rc_index0|]. cbn. lia.
Qed.

Lemma settle_racing bodies most results moves res e r :
  racing bodies most results moves r -> exchanges r !! index res = Some e -> pending e = true ->
  racing bodies most (results ++ [res]) (S moves)
    (set_exchanges (alter settled (index res) (exchanges r)) (sent r) (inFlight r - 1) r).
Proof.
  intros [] Hi He. unfold launched_count in *.
  constructor; unfold launched_count; cbn [exchanges sent inFlight limit plan set_exchanges];
    rewrite ?length_alter, ?(pending_count_settled _ _ e), ?length_app, ?fmap_app by done; cbn [length];
    change (index <$> [res]) with [index res]; try done; try lia.
  - intros i e' Hi'. rewrite not_elem_of_app, list_elem_of_singleton.
    destruct (decide (i = index res)) as [->|Hne].
    + rewrite list_lookup_alter_eq, Hi in Hi'. injection Hi' as <-. cbn. split; [done|]. by intros [_ ?].
    + rewrite list_lookup_alter_ne in Hi' by done. rewrite (rc_pending0 _ _ Hi'). naive_solver.
  - apply NoDup_app. split; [done|]. split; [|apply NoDup_singleton].
    intros i Hin ->%list_elem_of_singleton. by apply (rc_pending0 _ _ Hi) in He.
  - apply Forall_app. split; [done|]. constructor; [|done]. by apply lookup_lt_Some in Hi.
Qed.

Lemma racing_set_failed bodies most results moves r still res :
  racing bodies most results moves r -> racing bodies most results moves (set_failed still res r).
Proof. by intros []; constructor. Qed.

Lemma racing_set_abandoned bodies most results moves r n :
  racing bodies most results moves r -> racing bodies most results moves (set_abandoned n r).
Proof. by intros []; constructor. Qed.

Lemma racing_moves bodies most results moves moves' r :
  (moves' <= moves)%nat -> racing bodies most results moves r -> racing bodies most results moves' r.
Proof. intros H []; constructor; try done. lia. Qed.

(** What a race has come to after [results] were delivered. *)
Definition come_to (bodies : list PinnedBody) (most already : Z) (results : list hedgedResult) (moves : nat)
    (t : Turn) : Prop :=
  racing bodies most results moves (race_of t) /\
  match t with
  | Racing r =>
      (0 < inFlight r)%Z /\ Forall (fun res => success res = false) results /\ failed r = last results /\
      abandoned r = already
  | Returned answer r =>
      exists earlier final, results = earlier ++ [final] /\ answer = Some final /\
        Forall (fun res => success res = false) earlier /\
        abandoned r = (already + pending_count (exchanges r))%Z /\
        (success final = false -> pending_count (exchanges r) = 0%Z)
  end.

(** A failed exchange: the loop waits for another, or returns the failure. *)
Lemma wait_comes_to bodies most already results moves still res r :
  racing bodies most (results ++ [res]) moves r -> Forall (fun res => success res = false) results ->
  success res = false -> abandoned r = already ->
  let r' := set_failed still res r in
  come_to bodies most already (results ++ [res]) moves
    (if (0 <? inFlight r')%Z then Racing r' else Returned (failed r') r').
Proof.
  intros Hr Hres Hf Ha r'. assert (Hr' : racing bodies most (results ++ [res]) moves r') by by apply racing_set_failed.
  destruct (0 <? inFlight r')%Z eqn:E; bool_cases; (split; [done|]).
  - cbn [race_of]. split; [done|]. rewrite last_snoc. split_and!; try done. apply Forall_app. by repeat constructor.
  - assert (Hp : pending_count (exchanges r') = 0%Z).
    { pose proof (rc_flight _ _ _ _ _ Hr'). unfold pending_count in *. lia. }
    exists results, res. rewrite Hp. split_and!; try done. unfold r'. cbn. lia.
Qed.

Lemma step_comes_to bodies most already results moves ev r l :
  bodies <> [] -> come_to bodies most already results moves (Racing r) -> can_receive ev r = true ->
  come_to bodies most already (results ++ match ev with Finished res _ _ _ _ => [res] | Fire _ => [] end) (S moves)
    (fst (step ev r l)).
Proof.
  intros Hne [Hr (Hfl & Hres & Hlast & Ha)] Hev. cbn [race_of] in Hr. destruct ev as [started|res over received waited started].
  - cbn [step fst can_receive] in *. rewrite app_nil_r. unfold may_launch in Hev. bool_cases.
    rewrite (rc_limit _ _ _ _ _ Hr) in *.
    destruct (start_racing bodies most results moves started r) as (Hs & ? & Hf & Hab & _); try done.
    split; [done|]. by rewrite Hf, Hab.
  - cbn [step can_receive] in *. destruct (exchanges r !! index res) as [e|] eqn:Ee; [|done].
    set (r1 := set_exchanges _ _ _ _). pose proof (settle_racing _ _ _ _ _ _ _ Hr Ee Hev) as Hr1. fold r1 in Hr1.
    destruct (success res) eqn:Es.
    + destruct (abandon _ _ _ _ _ _ _ _) as [count l'] eqn:Eab. cbn [fst].
      split; [by apply racing_set_abandoned|]. exists results, res. rewrite Es. split_and!; try done.
      cbn [abandoned set_abandoned]. replace count with (fst (count, l')) by done. rewrite <-Eab, abandon_count.
      by rewrite <-Ha.
    + destruct (negb (transientAnswer res) || over); cbn [fst].
      { by apply wait_comes_to. }
      destruct (launched_count (set_failed _ _ _) <? limit _)%Z eqn:El; cbn [fst]; [|by apply wait_comes_to].
      apply Z.ltb_lt in El. pose proof (racing_set_failed _ _ _ _ _ (launching r1) res Hr1) as Hr2.
      rewrite (rc_limit _ _ _ _ _ Hr2) in El.
      destruct (start_racing _ _ _ _ started _ Hne Hr2 El) as (Hs & ? & Hf & Hab & _).
      split; [eapply racing_moves; [|exact Hs]; lia|]. rewrite Hf, Hab, last_snoc.
      split_and!; try done. apply Forall_app. by repeat constructor.
Qed.

Lemma begin_comes_to model hedge at_ already l :
  Bodies hedge <> [] ->
  come_to (order model (Bodies hedge) l) (Z.max (Exchanges hedge) 1) already [] 0
    (Racing (begin_race model hedge at_ already l)).
Proof.
  intros Hne. unfold begin_race. set (bodies := order _ _ _).
  assert (Hb : bodies <> []).
  { intros E. apply Hne. apply Permutation_nil. rewrite <-E. unfold bodies. by rewrite order_permutation. }
  set (r0 := mkRace _ _ _ _ _ _ _ _ _ _). unfold start. cbn [plan exchanges r0 length].
  rewrite Nat.Div0.mod_0_l. destruct bodies as [|b bs] eqn:Eb; [done|]. cbn [lookup list_lookup].
  split; [|by split_and!]. constructor; cbn; unfold launched_count; cbn; try done; try lia.
  - intros [|i] b' Hb'; [|done]. injection Hb' as <-.
    change ((b :: bs) !! (0 `mod` length (b :: bs))%nat = Some b). by rewrite Nat.Div0.mod_0_l.
  - intros [|i] e He; [|done]. injection He as <-. cbn. split; [|done]. by intros _ ?%not_elem_of_nil.
  - constructor.
Qed.

Lemma race_run_comes_to bodies most already ms t l results moves :
  bodies <> [] -> come_to bodies most already results moves t -> plays ms (t, l) ->
  come_to bodies most already (results ++ delivered ms) (moves + length ms) (fst (race_run ms (t, l))).
Proof.
  intros Hne. revert t l results moves. induction ms as [|m ms IH]; intros t l results moves Ht Hp.
  { cbn. by rewrite app_nil_r, Nat.add_0_r. }
  destruct Hp as [Hm Hp]. destruct t as [r|]; [|done]. cbn [fst] in Hm.
  pose proof (step_comes_to _ _ _ _ _ (event m) r (elsewhere m l) Hne Ht Hm) as Hs.
  cbn [race_run foldl advance] in *. fold (race_run ms (step (event m) r (elsewhere m l))).
  destruct (step (event m) r (elsewhere m l)) as [t' l'] eqn:E. cbn [fst] in Hs.
  specialize (IH t' l' _ _ Hs Hp). unfold delivered in *. cbn [omap list_omap length].
  replace (moves + S (length ms))%nat with (S moves + length ms)%nat by lia.
  unfold delivered_of at 1. destruct (event m); rewrite <-app_assoc in IH; exact IH.
Qed.

(** A race sends only the call's own pinned bodies, taking turns in its
    order, never more exchanges than the hedge allows and takes fewer than
    twice that many turns.  While it runs, no exchange has succeeded and one
    is pending, so it can end.  It returns the first success, counting
    exactly the exchanges still pending as abandoned, or else the last failure,
    and then no exchange is left. *)
Theorem race_answers_once model hedge at_ already l ms :
  Bodies hedge <> [] ->
  let begun := begin_race model hedge at_ already l in
  plays ms (Racing begun, l) ->
  let t := fst (race_run ms (Racing begun, l)) in
  let r := race_of t in
  (launched_count r <= Z.max (Exchanges hedge) 1)%Z /\
  (Z.of_nat (length ms) < 2 * Z.max (Exchanges hedge) 1)%Z /\
  length (sent r) = length (exchanges r) /\
  (forall i b, sent r !! i = Some b ->
    b ∈ Bodies hedge /\ order model (Bodies hedge) l !! (i `mod` length (Bodies hedge))%nat = Some b) /\
  NoDup (index <$> delivered ms) /\
  match t with
  | Racing r =>
      Forall (fun res => success res = false) (delivered ms) /\ abandoned r = already /\
      exists i, forall out over received waited started,
        can_receive (Finished (mkResult i out) over received waited started) r = true
  | Returned answer r =>
      exists earlier final, delivered ms = earlier ++ [final] /\ answer = Some final /\
        Forall (fun res => success res = false) earlier /\
        abandoned r = (already + (launched_count r - Z.of_nat (length (delivered ms))))%Z /\
        (success final = false -> launched_count r = Z.of_nat (length (delivered ms)))
  end.
Proof.
  intros Hne begun Hp t r. pose proof (begin_comes_to model hedge at_ already l Hne) as H0. fold begun in H0.
  set (bodies := order model (Bodies hedge) l) in *.
  assert (Hperm : bodies ≡ₚ Bodies hedge) by apply order_permutation.
  assert (Hb : bodies <> []) by (intros E; rewrite E in Hperm; by apply Permutation_nil in Hperm).
  pose proof (race_run_comes_to _ _ _ _ _ _ _ _ Hb H0 Hp) as [Hr Ht]. cbn [app] in *. fold t in Hr, Ht. fold r in Hr.
  destruct Hr. split; [done|]. split.
  { unfold t in *. destruct (fst _) as [r'|answer r'] eqn:E; cbn [race_of] in *.
    - unfold r in *. cbn [race_of] in *. destruct Ht as (? & _). lia.
    - unfold r in *. cbn [race_of] in *. unfold pending_count in *. lia. }
  split; [done|]. split.
  { intros i b Hi. pose proof (rc_sent0 _ _ Hi) as Hb'. split.
    - rewrite <-Hperm. eapply list_elem_of_lookup_2; exact Hb'.
    - by rewrite <-(Permutation_length Hperm). }
  split; [done|]. destruct t as [r'|answer r']; cbn [race_of] in r; unfold r in *.
  - destruct Ht as (Hfl & Hf & _ & Ha). split; [done|]. split; [done|].
    rewrite rc_flight0 in Hfl. apply pending_count_pos in Hfl as (i & e & Hi & He). exists i. intros. cbn.
    by rewrite Hi.
  - destruct Ht as (earlier & final & Hd & Hans & Hf & Hab & Hz). exists earlier, final. split_and!; try done.
    + rewrite Hab. lia.
    + intros Hs. specialize (Hz Hs). lia.
Qed.

Definition example_hedge : Hedge := mkHedge [mkPinned "deepinfra" "d"; mkPinned "nebius" "n"] (450 * Millisecond) 4.

(** The first upstream is slow, the second is hedged to and throttles, a third
    exchange is launched at once and answers. *)
Definition example_moments : list Moment :=
  [ mkMoment id (Fire (1450 * Millisecond));
    mkMoment id (Finished (mkResult 1 (inl (mkResponse 429 ""))) false (1600 * Millisecond) (fun _ => 0%Z) (1600 * Millisecond));
    mkMoment id (Finished (mkResult 2 (inl (mkResponse 200 "vectors"))) false (1900 * Millisecond)
      (fun _ => (1900 * Millisecond)%Z) 0%Z) ].

Lemma race_answers_once_witness :
  let t := fst (race_run example_moments (Racing (begin_race "qwen" example_hedge (1000 * Millisecond) 0 ∅), ∅)) in
  pb_Upstream <$> sent (race_of t) = ["deepinfra"; "nebius"; "deepinfra"] /\
  match t with
  | Returned (Some answer) r => outcome answer = inl (mkResponse 200 "vectors") /\ abandoned r = 1%Z
  | _ => False
  end /\
  NoDup (index <$> delivered example_moments).
Proof.
  destruct (race_answers_once "qwen" example_hedge (1000 * Millisecond) 0 ∅ example_moments) as (_ & _ & _ & _ & Hnd & _).
  - done.
  - cbn [plays example_moments]. repeat split; vm_compute; reflexivity.
  - split; [vm_compute; reflexivity|]. split; [vm_compute; split; reflexivity|exact Hnd].
Defined.

(** A refusal is meant to launch nothing more, and does stop the timer; but a
    transient failure that arrives after it launches another exchange, since
    that branch does not ask whether the race is still launching. *)
Lemma refused_race_launches_again :
  let moments :=
    [ mkMoment id (Fire (1450 * Millisecond));
      mkMoment id (Finished (mkResult 0 (inl (mkResponse 401 "no"))) false (1600 * Millisecond) (fun _ => 0%Z) 0%Z);
      mkMoment id (Finished (mkResult 1 (inl (mkResponse 503 ""))) false (1700 * Millisecond) (fun _ => 0%Z)
        (1700 * Millisecond)) ] in
  let before := race_run (take 2 moments) (Racing (begin_race "qwen" example_hedge (1000 * Millisecond) 0 ∅), ∅) in
  let after := race_run moments (Racing (begin_race "qwen" example_hedge (1000 * Millisecond) 0 ∅), ∅) in
  launching (race_of (fst before)) = false /\ length (sent (race_of (fst before))) = 2%nat /\
  length (sent (race_of (fst after))) = 3%nat.
Proof. vm_compute. done. Qed.

(** ** How long a race waits *)

Definition input_tokens (texts : list string) : Z := foldr (fun text n => text_tokens text + n)%Z 0%Z texts.

Lemma text_tokens_pos text : (1 <= text_tokens text)%Z.
Proof. unfold text_tokens, len. pose proof (Z.div_pos (Z.of_nat (String.length text)) 4). lia. Qed.

Lemma input_tokens_nonneg texts : (0 <= input_tokens texts)%Z.
Proof. induction texts as [|t ts IH]; [done|]. change (0 <= text_tokens t + input_tokens ts)%Z. pose proof (text_tokens_pos t). lia. Qed.

Lemma summed_tokens texts n : (0 <= n)%Z -> in_int64 (n + input_tokens texts) ->
  foldl (fun n text => wrap64 (n + text_tokens text)) n texts = (n + input_tokens texts)%Z.
Proof.
  revert n. induction texts as [|t ts IH]; intros n Hn Hin; cbn [foldl input_tokens foldr] in *; [lia|].
  pose proof (text_tokens_pos t). pose proof (input_tokens_nonneg ts). fold (input_tokens ts) in *.
  unfold in_int64, int64_min, int64_max in *.
  rewrite wrap64_id by (unfold in_int64, int64_min, int64_max; lia). rewrite IH; lia.
Qed.

(** A race waits at least the base and at most the cap, in between in
    proportion to its input, for every input of up to 2^40 estimated tokens. *)
Theorem hedge_wait_is_bounded input :
  (input_tokens (hedged_texts input) <= 2 ^ 40)%Z ->
  embeddingHedgeAfter input =
    Z.min (embeddingHedgeBase + input_tokens (hedged_texts input) * embeddingHedgePerToken) embeddingHedgeMax /\
  (embeddingHedgeBase <= embeddingHedgeAfter input <= embeddingHedgeMax)%Z.
Proof.
  intros H. pose proof (input_tokens_nonneg (hedged_texts input)).
  unfold embeddingHedgeAfter. rewrite summed_tokens, Z.add_0_l by (unfold in_int64, int64_min, int64_max; lia).
  unfold embeddingHedgePerToken, embeddingHedgeBase, embeddingHedgeMax, Millisecond, Second in *.
  rewrite (wrap64_id (input_tokens _ * _)) by (unfold in_int64, int64_min, int64_max; lia).
  rewrite wrap64_id by (unfold in_int64, int64_min, int64_max; lia). lia.
Qed.

Lemma order_keeps_the_reviewed_set_witness :
  let measured := fail "qwen" "deepinfra" (observe "qwen" "nebius" (400 * Millisecond) (450 * Millisecond) ∅) in
  Forall (fun body => not_nan (score "qwen" measured body) = true) (Bodies example_hedge) /\
  pb_Upstream <$> order "qwen" (Bodies example_hedge) measured = ["nebius"; "deepinfra"] /\
  order "qwen" (Bodies example_hedge) measured ≡ₚ Bodies example_hedge.
Proof.
  assert (H : Forall (fun body => not_nan (score "qwen" (fail "qwen" "deepinfra"
    (observe "qwen" "nebius" (400 * Millisecond) (450 * Millisecond) ∅)) body) = true) (Bodies example_hedge)).
  { repeat constructor; vm_compute; reflexivity. }
  split; [exact H|]. split; [vm_compute; reflexivity|].
  destruct (order_keeps_the_reviewed_set _ _ _ H) as [Hp _]. exact Hp.
Defined.

Definition example_input : Request.Input :=
  Request.mkInput None Request.InputTextBatch None None (Some ["a query"; "another"]).

Lemma hedge_wait_is_bounded_witness :
  (input_tokens (hedged_texts example_input) <= 2 ^ 40)%Z /\
  embeddingHedgeAfter example_input = (450 * Millisecond + 4 * 200000)%Z /\
  (embeddingHedgeAfter example_input <= embeddingHedgeMax)%Z.
Proof.
  assert (H : (input_tokens (hedged_texts example_input) <= 2 ^ 40)%Z) by (vm_compute; discriminate).
  destruct (hedge_wait_is_bounded example_input H) as [-> [_ Hmax]]. split; [exact H|]. split; [reflexivity|exact Hmax].
Defined.
