(* ===== verification/Sse.v ===== *)
(** * Server-sent events (internal/sse/sse.go)

    The decoder of a provider's stream and the writer of Kaana's own.  What
    the decoder uses of [bufio.Scanner] - the lines, the bound on a buffered
    line, what is scanned once the reader ended - is modelled on the bytes the
    reader yields.  A connection that fails a write has taken any part of it. *)

From S2P Require Import Prelude Ids Text.

Definition maxEventBytes : Z := 8388608.

Definition LF : ascii := "010"%char.
Definition CR : ascii := "013"%char.
Definition newline : string := String LF "".

Record Event := mkEvent { Name : string; Data : string }.

(** ** bufio.Scanner over lines *)

(** Why the reader yields nothing more. *)
Inductive Ended := EOF | TooLong | Failed (err : string).

(** [unread] is what the scanner has not split off yet, whether it holds it
    already or the reader still has it; [at_end] is how the reader will end,
    and [with_data] whether it reports that together with bytes that fill the
    buffer; [scan_err] is the scanner's own error once it has met one. *)
Record Scanner := mkScanner { unread : string; at_end : Ended; with_data : bool; scan_err : option Ended }.

(** The text before the first line feed and what follows it. *)
Fixpoint cut_line (s : string) : option (string * string) :=
  match s with
  | EmptyString => None
  | String c s' =>
      if Ascii.eqb c LF then Some ("", s')
      else match cut_line s' with
           | Some (line, rest) => Some (String c line, rest)
           | None => None
           end
  end.

(** [strings.TrimSuffix(s, CR)], and the scanner's own [dropCR]. *)
Fixpoint drop_CR (s : string) : string :=
  match s with
  | EmptyString => EmptyString
  | String c EmptyString => if Ascii.eqb c CR then EmptyString else s
  | String c s' => String c (drop_CR s')
  end.

Fixpoint take_bytes (n : Z) (s : string) : string :=
  match s with
  | EmptyString => EmptyString
  | String c s' => if (n <=? 0)%Z then EmptyString else String c (take_bytes (n - 1) s')
  end.

Definition with_unread (rest : string) (err : option Ended) (sc : Scanner) : Scanner :=
  mkScanner rest (at_end sc) (with_data sc) err.

(** What is left once the scanner has an error is split as the last lines. *)
Definition scan_rest (sc : Scanner) : option string * Scanner :=
  match unread sc with
  | EmptyString => (None, sc)
  | _ =>
      match cut_line (unread sc) with
      | Some (line, rest) => (Some (drop_CR line), with_unread rest (scan_err sc) sc)
      | None => (Some (drop_CR (unread sc)), with_unread "" (scan_err sc) sc)
      end
  end.

(** [Scanner.Scan] with the [maxEventBytes] buffer: a line and its line feed
    must fit it; when they do not, the scan fails and what the buffer holds is
    all that is left. *)
Definition Scan (sc : Scanner) : option string * Scanner :=
  let too_long := (None, with_unread (take_bytes maxEventBytes (unread sc)) (Some TooLong) sc) in
  match scan_err sc with
  | Some _ => scan_rest sc
  | None =>
      match cut_line (unread sc) with
      | Some (line, rest) =>
          if (len line + 1 <=? maxEventBytes)%Z then (Some (drop_CR line), with_unread rest None sc) else too_long
      | None =>
          if (len (unread sc) <? maxEventBytes)%Z || (len (unread sc) =? maxEventBytes)%Z && with_data sc
          then scan_rest (with_unread (unread sc) (Some (at_end sc)) sc) else too_long
      end
  end.

(** ** The decoder *)

Record Decoder := mkDecoder { scanner : Scanner; err : option Ended }.

Definition NewDecoder (body : string) (ends : Ended) (eager : bool) : Decoder :=
  mkDecoder (mkScanner body ends eager None) None.

(** The frame being read. *)
Record Frame := mkFrame { f_name : string; f_data : list string }.
Definition no_frame : Frame := mkFrame "" [].

Definition frame_pending (f : Frame) : bool :=
  negb (f_name f =s "") || match f_data f with [] => false | _ => true end.

Definition event_of (f : Frame) : Event := mkEvent (f_name f) (String.concat newline (f_data f)).

(** One line of [Next]'s loop: the frame it ends, or the frame as read so
    far. *)
Definition read_line (text : string) (f : Frame) : Event + Frame :=
  let line := drop_CR text in
  if line =s "" then if frame_pending f then inl (event_of f) else inr f
  else if HasPrefix ":" line then inr f
  else if HasPrefix "data:" line
  then inr (mkFrame (f_name f) (f_data f ++ [TrimPrefix " " (TrimPrefix "data:" line)]))
  else if HasPrefix "event:" line then inr (mkFrame (TrimSpace (TrimPrefix "event:" line)) (f_data f))
  else inr f.

(** [for d.scanner.Scan()]; every line takes at least a byte, so as much fuel
    as there are bytes is enough ([next_loop_fuel]). *)
Fixpoint next_loop (fuel : nat) (f : Frame) (sc : Scanner) : (Event + Frame) * Scanner :=
  match fuel with
  | O => (inr f, sc)
  | S fuel =>
      match Scan sc with
      | (None, sc) => (inr f, sc)
      | (Some text, sc) =>
          match read_line text f with
          | inl event => (inl event, sc)
          | inr f => next_loop fuel f sc
          end
      end
  end.

(** [Decoder.Next]. *)
Definition Next (d : Decoder) : option Event * Decoder :=
  match next_loop (S (String.length (unread (scanner d)))) no_frame (scanner d) with
  | (inl event, sc) => (Some event, mkDecoder sc (err d))
  | (inr f, sc) =>
      let d := mkDecoder sc match scan_err sc with
                            | Some EOF | None => err d
                            | Some e => Some e
                            end in
      ((if frame_pending f then Some (event_of f) else None), d)
  end.

(** Reading events until there is none, as every caller does. *)
Fixpoint drain (fuel : nat) (d : Decoder) : list Event * Decoder :=
  match fuel with
  | O => ([], d)
  | S fuel =>
      match Next d with
      | (None, d) => ([], d)
      | (Some event, d) => let '(events, d) := drain fuel d in (event :: events, d)
      end
  end.

Definition decode (body : string) (ends : Ended) (eager : bool) : list Event * Decoder :=
  drain (S (String.length body)) (NewDecoder body ends eager).

(** ** The writer *)

(** [written] is what the connection took, one piece per [Write]: a whole
    frame, or what it took of one whose write failed. *)
Record Writer := mkWriter { broken : bool; written : list string }.

Inductive WriteResult := Wrote | ErrClientGone | ForgedName.

Fixpoint ContainsAny (breaks : ascii -> bool) (s : string) : bool :=
  match s with EmptyString => false | String c s => breaks c || ContainsAny breaks s end.

Definition line_break (c : ascii) : bool := Ascii.eqb c LF || Ascii.eqb c CR.

Definition frame (name payload : string) : string :=
  "event: " +:+ name +:+ newline +:+ "data: " +:+ payload +:+ newline +:+ newline.

(** [Writer.WriteEvent]; [fails] is how many bytes the connection took when its
    [Write] failed, if it did. *)
Definition WriteEvent (fails : option Z) (name payload : string) (w : Writer) : WriteResult * Writer :=
  if broken w then (ErrClientGone, w)
  else if ContainsAny line_break name then (ForgedName, w)
  else match fails with
  | None => (Wrote, mkWriter false (written w ++ [frame name payload]))
  | Some n => (ErrClientGone, mkWriter true (written w ++ [take_bytes n (frame name payload)]))
  end.

(** [NewWriter]: only a writer that can flush streams. *)
Definition NewWriter (flushes : bool) : option Writer := if flushes then Some (mkWriter false []) else None.

Example two_frames :
  fst (decode ("event: a" +:+ newline +:+ ": note" +:+ newline +:+ "data: x" +:+ newline +:+ "data:y"
    +:+ newline +:+ newline +:+ newline +:+ "data: cut") EOF true)
  = [mkEvent "a" ("x" +:+ newline +:+ "y"); mkEvent "" "cut"].
Proof. vm_compute. reflexivity. Qed.

(** ** Lines *)

Definition no_LF (s : string) : bool := negb (ContainsAny (Ascii.eqb LF) s).

Lemma ContainsAny_app f s t : ContainsAny f (s +:+ t) = ContainsAny f s || ContainsAny f t.
Proof.
  induction s as [|c s IH]; [done|]. rewrite str_app_cons. cbn [ContainsAny]. by rewrite IH, orb_assoc.
Qed.

Lemma no_LF_app s t : no_LF s = true -> no_LF t = true -> no_LF (s +:+ t) = true.
Proof. unfold no_LF. rewrite ContainsAny_app. destruct (ContainsAny _ s), (ContainsAny _ t); done. Qed.

Lemma cut_line_spec line rest : no_LF line = true -> cut_line (line +:+ newline +:+ rest) = Some (line, rest).
Proof.
  unfold no_LF. induction line as [|c line IH]; intros H; [done|].
  rewrite str_app_cons. cbn [cut_line ContainsAny] in *. rewrite Ascii.eqb_sym in H.
  destruct (Ascii.eqb c LF); [done|]. by rewrite IH.
Qed.

Lemma cut_line_length s line rest :
  cut_line s = Some (line, rest) -> (String.length rest < String.length s)%nat.
Proof.
  revert line rest. induction s as [|c s IH]; intros line rest; cbn [cut_line]; [done|].
  destruct (Ascii.eqb c LF); [intros [= <- <-]; cbn; lia|].
  destruct (cut_line s) as [[l r]|]; [|done]. intros [= <- <-]. specialize (IH _ _ eq_refl). cbn. lia.
Qed.

Lemma drop_CR_app s t : t <> "" -> drop_CR (s +:+ t) = s +:+ drop_CR t.
Proof.
  intros Ht. induction s as [|c s IH]; [done|]. rewrite !str_app_cons. cbn [drop_CR].
  rewrite IH. destruct (s +:+ t) eqn:E; [|done]. by destruct s, t.
Qed.

Definition no_CR (s : string) : bool := negb (ContainsAny (Ascii.eqb CR) s).

Lemma drop_CR_none s : no_CR s = true -> drop_CR s = s.
Proof.
  unfold no_CR. induction s as [|c s IH]; [done|]. cbn [ContainsAny drop_CR]. intros H.
  rewrite negb_orb in H. apply andb_true_iff in H as [Hc Hs]. rewrite IH by done.
  destruct s; [|done]. rewrite Ascii.eqb_sym. by destruct (Ascii.eqb CR c).
Qed.

(** ** Scanning *)

Lemma Scan_line sc line rest :
  scan_err sc = None -> unread sc = line +:+ newline +:+ rest -> no_LF line = true ->
  (len line + 1 <= maxEventBytes)%Z ->
  Scan sc = (Some (drop_CR line), with_unread rest None sc).
Proof.
  intros He Hu Hl Hlen. unfold Scan. rewrite He, Hu, cut_line_spec by done.
  by rewrite (proj2 (Z.leb_le _ _) Hlen).
Qed.

Lemma scan_rest_progress sc text sc' :
  scan_rest sc = (Some text, sc') -> (String.length (unread sc') < String.length (unread sc))%nat.
Proof.
  unfold scan_rest. destruct (unread sc) as [|c s] eqn:E; [done|].
  destruct (cut_line (String c s)) as [[line rest]|] eqn:Ec; intros [= _ <-]; cbn; [|lia].
  apply cut_line_length in Ec. cbn in Ec. lia.
Qed.

Lemma take_bytes_length n s : (String.length (take_bytes n s) <= String.length s)%nat.
Proof.
  revert n. induction s as [|c s IH]; intros n; cbn [take_bytes]; [done|]. destruct (n <=? 0)%Z; cbn; [lia|].
  specialize (IH (n - 1)%Z). lia.
Qed.

(** Every line is split off the unread bytes, and nothing is ever added. *)
Lemma Scan_progress sc sc' line :
  Scan sc = (line, sc') ->
  (String.length (unread sc') <= String.length (unread sc))%nat /\
  (line <> None -> (String.length (unread sc') < String.length (unread sc))%nat).
Proof.
  assert (Hrest : forall sc1, unread sc1 = unread sc -> scan_rest sc1 = (line, sc') ->
    (String.length (unread sc') <= String.length (unread sc))%nat /\
    (line <> None -> (String.length (unread sc') < String.length (unread sc))%nat)).
  { intros sc1 E H. destruct line as [text|].
    - apply scan_rest_progress in H. rewrite E in H. split; [lia|done].
    - unfold scan_rest in H. destruct (unread sc1) eqn:E1; [injection H as <-; rewrite E1, <-E; split; done|].
      by destruct (cut_line _) as [[? ?]|]. }
  pose proof (take_bytes_length maxEventBytes (unread sc)).
  unfold Scan. destruct (scan_err sc); [by apply Hrest|].
  destruct (cut_line (unread sc)) as [[l r]|] eqn:Ec.
  - apply cut_line_length in Ec. destruct (_ <=? _)%Z; intros [= <- <-]; cbn [unread with_unread]; split; try done; lia.
  - destruct (_ || _); [by apply Hrest|]. intros [= <- <-]. by cbn [unread with_unread].
Qed.

(** Any fuel above the unread bytes reads the same. *)
Lemma next_loop_fuel fuel fuel' f sc :
  (String.length (unread sc) < fuel)%nat -> (String.length (unread sc) < fuel')%nat ->
  next_loop fuel f sc = next_loop fuel' f sc.
Proof.
  revert fuel' f sc. induction fuel as [|fuel IH]; intros [|fuel'] f sc H H'; [lia..|]. cbn [next_loop].
  destruct (Scan sc) as [[text|] sc'] eqn:E; [|done]. apply Scan_progress in E as [_ E].
  specialize (E ltac:(done)). destruct (read_line text f); [done|]. apply IH; lia.
Qed.

Lemma next_loop_unread fuel f sc out sc' :
  next_loop fuel f sc = (out, sc') -> (String.length (unread sc') <= String.length (unread sc))%nat.
Proof.
  revert f sc. induction fuel as [|fuel IH]; intros f sc; cbn [next_loop]; [by intros [= _ <-]|].
  destruct (Scan sc) as [line sc1] eqn:E. apply Scan_progress in E as [Hle Hlt]. destruct line as [text|].
  - specialize (Hlt ltac:(done)). destruct (read_line text f); [intros [= _ <-]; lia|].
    intros H%IH. lia.
  - intros [= _ <-]. lia.
Qed.

(** A frame takes at least one line. *)
Lemma next_loop_progress fuel f sc out sc' :
  next_loop fuel f sc = (out, sc') ->
  out = inr f \/ (String.length (unread sc') < String.length (unread sc))%nat.
Proof.
  destruct fuel as [|fuel]; cbn [next_loop]; [intros [= <- _]; by left|].
  destruct (Scan sc) as [line sc1] eqn:E. apply Scan_progress in E as [_ Hlt]. destruct line as [text|].
  - specialize (Hlt ltac:(done)). destruct (read_line text f); [intros [= _ <-]; right; lia|].
    intros H%next_loop_unread. right. lia.
  - intros [= <- _]. by left.
Qed.

Lemma Next_progress d event d' :
  Next d = (Some event, d') ->
  (String.length (unread (scanner d')) < String.length (unread (scanner d)))%nat.
Proof.
  unfold Next. destruct (next_loop _ _ _) as [out sc] eqn:E. apply next_loop_progress in E.
  destruct out as [ev|f]; [intros [= _ <-]; destruct E as [E|E]; [done|exact E]|].
  destruct (frame_pending f) eqn:Ep; [|done]. intros [= _ <-]. destruct E as [[= ->]|E]; [done|exact E].
Qed.

(** ** Spaces *)

Definition sizes (rs : list (Z * Z)) : Z := foldr (fun r n => r.2 + n)%Z 0%Z rs.

Lemma runes_sizes s : sizes (runes s) = len s /\ Forall (fun r => 1 <= r.2)%Z (runes s).
Proof.
  unfold len. remember (String.length s) as n eqn:E. revert s E.
  induction (lt_wf n) as [n _ IH]. intros s ->.
  assert (H : forall s', (String.length s' < String.length s)%nat ->
    sizes (runes s') = Z.of_nat (String.length s') /\ Forall (fun r => 1 <= r.2)%Z (runes s')).
  { intros s' Hs'. by apply (IH _ Hs'). }
  assert (Hstep : forall r n s', (1 <= n)%Z -> (String.length s' < String.length s)%nat ->
    Z.of_nat (String.length s) = (n + Z.of_nat (String.length s'))%Z ->
    sizes ((r, n) :: runes s') = Z.of_nat (String.length s) /\
    Forall (fun r => 1 <= r.2)%Z ((r, n) :: runes s')).
  { intros r n s' Hn Hlt Hlen. destruct (H s' Hlt) as [Hs Hf]. split; [|by constructor].
    change (n + sizes (runes s') = Z.of_nat (String.length s))%Z. lia. }
  clear IH H. destruct s as [|c0 s1]; [done|]. cbn [runes].
  repeat case_match; (apply Hstep; cbn [String.length] in *; lia).
Qed.

Lemma leading_spaces_snoc rs r :
  leading_spaces (rs ++ [r]) =
  if forallb (fun r => IsSpace r.1) rs then (sizes rs + leading_spaces [r])%Z else leading_spaces rs.
Proof.
  remember (leading_spaces [r]) as last eqn:E. induction rs as [|[c n] rs IH].
  { change ([] ++ [r]) with [r]. rewrite <-E. change (last = 0 + last)%Z. lia. }
  change (((c, n) :: rs) ++ [r]) with ((c, n) :: (rs ++ [r])). cbn [leading_spaces forallb fst]. rewrite IH.
  destruct (IsSpace c); [|done]. cbn [andb]. destruct (forallb _ rs); [|done].
  change (sizes ((c, n) :: rs)) with (n + sizes rs)%Z. lia.
Qed.

Lemma leading_spaces_all rs : forallb (fun r => IsSpace r.1) rs = true -> leading_spaces rs = sizes rs.
Proof.
  induction rs as [|[c n] rs IH]; [done|]. cbn [forallb leading_spaces fst]. intros [-> H]%andb_true_iff.
  by rewrite IH.
Qed.

Lemma leading_spaces_nonneg rs : Forall (fun r => 1 <= r.2)%Z rs -> (0 <= leading_spaces rs)%Z.
Proof. induction 1 as [|[c n] rs Hr _ IH]; cbn [leading_spaces]; [lia|]. cbn in Hr. destruct (IsSpace c); lia. Qed.

Lemma forallb_reverse {A} (f : A -> bool) l : forallb f (reverse l) = forallb f l.
Proof.
  apply eq_true_iff_eq. rewrite !forallb_forall. setoid_rewrite <-list_elem_of_In. by setoid_rewrite elem_of_reverse.
Qed.

Lemma sizes_reverse rs : sizes (reverse rs) = sizes rs.
Proof.
  induction rs as [|r rs IH]; [done|]. rewrite reverse_cons. unfold sizes in *. rewrite foldr_app. cbn.
  rewrite <-IH. generalize (reverse rs). clear. intros l. induction l as [|x l IH]; cbn; lia.
Qed.

(** A leading space is trimmed. *)
Lemma TrimSpace_space s : TrimSpace (String " " s) = TrimSpace s.
Proof.
  destruct (runes_sizes s) as [Hsz Hpos]. unfold TrimSpace.
  change (runes (String " " s)) with ((32, 1)%Z :: runes s).
  assert (Hf : leading_spaces ((32, 1)%Z :: runes s) = (1 + leading_spaces (runes s))%Z) by reflexivity.
  rewrite Hf, reverse_cons, leading_spaces_snoc, forallb_reverse, sizes_reverse.
  pose proof (leading_spaces_nonneg _ Hpos). unfold len in *. cbn [String.length].
  replace (Z.to_nat (1 + leading_spaces (runes s))) with (S (Z.to_nat (leading_spaces (runes s)))) by lia.
  destruct (forallb _ (runes s)) eqn:E.
  - apply leading_spaces_all in E. rewrite E. cbn [leading_spaces].
    change (IsSpace 32) with true. cbn iota. rewrite Hsz.
    assert (Hr : leading_spaces (reverse (runes s)) = sizes (runes s)).
    { rewrite leading_spaces_all, sizes_reverse; [done|]. rewrite forallb_reverse.
      clear -E Hpos. revert E. generalize (runes s) Hpos. induction l as [|[c n] l IH]; [done|].
      intros Hl. apply Forall_cons in Hl as [Hn Hl]. cbn [leading_spaces forallb sizes foldr fst snd] in *.
      fold (sizes l). destruct (IsSpace c) eqn:Ec; [intros; apply IH; [done|lia]|].
      intros H0. exfalso. assert (0 <= sizes l)%Z; [|lia]. clear -Hl. induction Hl; cbn; [lia|].
      fold (sizes l). cbn in *. lia. }
    rewrite Hr, Hsz. cbn [String.substring]. f_equal. lia.
  - cbn [String.substring]. f_equal. lia.
Qed.

(** ** Frames *)

(** A line of a frame: it has no line feed, ends in no carriage return and
    fits the scanner's buffer. *)
Definition plain_line (s : string) : Prop :=
  no_LF s = true /\ drop_CR s = s /\ (len s + 1 <= maxEventBytes)%Z.

Lemma plain_line_app prefix s :
  no_LF prefix = true -> no_CR prefix = true -> no_LF s = true -> drop_CR s = s ->
  (len prefix + len s + 1 <= maxEventBytes)%Z -> plain_line (prefix +:+ s).
Proof.
  intros Hp Hc Hs Hd Hlen. split; [by apply no_LF_app|]. split; [|by rewrite len_app].
  destruct s as [|c s]; [rewrite str_app_nil_r; by apply drop_CR_none|]. by rewrite drop_CR_app, Hd.
Qed.

(** One line of the loop. *)
Lemma next_loop_line fuel f sc line rest :
  scan_err sc = None -> unread sc = line +:+ newline +:+ rest -> plain_line line ->
  next_loop (S fuel) f sc =
  match read_line line f with
  | inl event => (inl event, with_unread rest None sc)
  | inr f => next_loop fuel f (with_unread rest None sc)
  end.
Proof.
  intros He Hu (Hl & Hd & Hlen). cbn [next_loop]. rewrite (Scan_line _ line rest) by done. by rewrite Hd.
Qed.

Lemma read_event_line name f :
  drop_CR ("event: " +:+ name) = "event: " +:+ name -> TrimSpace name = name ->
  read_line ("event: " +:+ name) f = inr (mkFrame name (f_data f)).
Proof.
  intros Hd Ht. unfold read_line. rewrite Hd.
  change (TrimPrefix "event:" ("event: " +:+ name)) with (TrimPrefix "event:" ("event:" +:+ String " " name)).
  rewrite TrimPrefix_app, TrimSpace_space, Ht. reflexivity.
Qed.

Lemma read_data_line payload f :
  drop_CR ("data: " +:+ payload) = "data: " +:+ payload ->
  read_line ("data: " +:+ payload) f = inr (mkFrame (f_name f) (f_data f ++ [payload])).
Proof.
  intros Hd. unfold read_line. rewrite Hd.
  change (TrimPrefix "data:" ("data: " +:+ payload)) with (TrimPrefix "data:" ("data:" +:+ " " +:+ payload)).
  rewrite !TrimPrefix_app. reflexivity.
Qed.

Lemma read_blank f : f_data f <> [] -> read_line "" f = inl (event_of f).
Proof. intros H. unfold read_line, frame_pending. cbn. destruct (f_data f); [done|]. by rewrite orb_true_r. Qed.

(** [data:] lines, then a blank line: one event whose data is their
    concatenation. *)
Lemma next_loop_data payloads fuel f sc rest :
  scan_err sc = None -> Forall (fun p => plain_line ("data: " +:+ p)) payloads ->
  f_data f ++ payloads <> [] ->
  unread sc = foldr (fun p s => ("data: " +:+ p) +:+ newline +:+ s) (newline +:+ rest) payloads ->
  (String.length (unread sc) < fuel)%nat ->
  next_loop fuel f sc =
  (inl (event_of (mkFrame (f_name f) (f_data f ++ payloads))), with_unread rest None sc).
Proof.
  intros He Hp. revert fuel f sc He. induction Hp as [|p ps Hp Hps IH]; intros fuel f sc He Hne Hu Hf.
  - rewrite app_nil_r in *. destruct fuel as [|fuel]; [lia|].
    rewrite (next_loop_line _ _ _ "" rest) by done. rewrite read_blank by done. by destruct f.
  - destruct fuel as [|fuel]; [lia|]. cbn [foldr] in Hu. rewrite (next_loop_line _ _ _ _ _ He Hu Hp).
    destruct Hp as (_ & Hd & _). rewrite read_data_line by done.
    rewrite IH; [|done|..]; cbn [f_data f_name unread with_unread].
    + rewrite <-app_assoc. by destruct sc.
    + by destruct (f_data f).
    + done.
    + rewrite Hu in Hf.
      rewrite !str_length_app in Hf. cbn [newline String.length] in Hf. lia.
Qed.

(** ** What is written is what is read *)

(** An event whose frame a decoder reads back: its name is trimmed, its
    payload is one line, and both lines fit the decoder's buffer. *)
Record readable (e : Event) : Prop := {
  rd_trimmed : TrimSpace (Name e) = Name e;
  rd_line : no_LF (Data e) = true;
  rd_end : drop_CR (Data e) = Data e;
  rd_size : (len (Data e) + 7 <= maxEventBytes)%Z;
  rd_name : (len (Name e) + 8 <= maxEventBytes)%Z;
}.

Definition frame_of (e : Event) : string := frame (Name e) (Data e).

(** What reached the connection. *)
Definition sent_bytes (frames : list string) : string := foldr String.append "" frames.

Lemma unbroken_line name : ContainsAny line_break name = false -> no_LF name = true /\ no_CR name = true.
Proof.
  unfold no_LF, no_CR, line_break. induction name as [|c s IH]; [done|]. cbn [ContainsAny].
  rewrite (Ascii.eqb_sym LF c), (Ascii.eqb_sym CR c). intros [[-> ->]%orb_false_iff Hs]%orb_false_iff. by apply IH.
Qed.

Lemma frame_length e : (0 < String.length (frame_of e))%nat.
Proof. unfold frame_of, frame. rewrite str_length_app. change (String.length "event: ") with 7%nat. lia. Qed.

Lemma Next_frame e rest d :
  scan_err (scanner d) = None -> unread (scanner d) = frame_of e +:+ rest ->
  ContainsAny line_break (Name e) = false -> readable e ->
  Next d = (Some e, mkDecoder (with_unread rest None (scanner d)) (err d)).
Proof.
  intros He Hu [Hnl Hnc]%unbroken_line []. destruct e as [name payload]. cbn [Name Data] in *.
  assert (Hn : plain_line ("event: " +:+ name)).
  { apply plain_line_app; try done; [by apply drop_CR_none|]. change (len "event: ") with 7%Z. lia. }
  assert (Hp : plain_line ("data: " +:+ payload)).
  { apply plain_line_app; try done. change (len "data: ") with 6%Z. lia. }
  unfold frame_of, frame in Hu. cbn [Name Data] in Hu. rewrite !str_app_assoc in Hu.
  unfold Next. rewrite <-str_app_assoc in Hu. rewrite (next_loop_line _ _ _ _ _ He Hu Hn).
  rewrite read_event_line by (try done; by destruct Hn as (_ & ? & _)).
  rewrite (next_loop_data [payload] _ _ _ rest); cbn [f_data f_name no_frame app]; try done.
  - apply Forall_singleton. exact Hp.
  - cbn [unread with_unread]. rewrite Hu.
    rewrite !str_length_app. change (String.length newline) with 1%nat. lia.
Qed.

Lemma Next_end d :
  scan_err (scanner d) = None -> unread (scanner d) = "" ->
  Next d = (None, mkDecoder (with_unread "" (Some (at_end (scanner d))) (scanner d))
                    match at_end (scanner d) with EOF => err d | e => Some e end).
Proof.
  intros He Hu. unfold Next. rewrite Hu. cbn [String.length next_loop]. unfold Scan. rewrite He, Hu.
  cbn -[maxEventBytes]. by destruct (at_end (scanner d)).
Qed.

(** Once the scanner has met the end, there is nothing more. *)
Lemma Next_end_failed d e :
  scan_err (scanner d) = Some e -> unread (scanner d) = "" ->
  Next d = (None, mkDecoder (scanner d) match e with EOF => err d | e => Some e end).
Proof.
  intros He Hu. unfold Next. rewrite Hu. cbn [String.length next_loop]. unfold Scan, scan_rest. rewrite He, Hu.
  cbn. rewrite He. by destruct e.
Qed.

(** Whole frames are read first; what follows them is read next. *)
Lemma drain_frames events tail fuel d :
  scan_err (scanner d) = None -> unread (scanner d) = sent_bytes (frame_of <$> events) +:+ tail ->
  Forall (fun e => ContainsAny line_break (Name e) = false /\ readable e) events ->
  drain (length events + fuel) d =
  let '(more, d) := drain fuel (mkDecoder (with_unread tail None (scanner d)) (err d)) in (events ++ more, d).
Proof.
  revert d. induction events as [|e events IH]; intros d He Hu Hok; cbn [length Nat.add app].
  - replace (with_unread tail None (scanner d)) with (scanner d).
    2: { change (unread (scanner d) = tail) in Hu. destruct (scanner d). cbn in *. by subst. }
    destruct d. cbn. by destruct (drain _ _).
  - apply Forall_cons in Hok as [[Hb Hr] Hok]. cbn [drain].
    rewrite (Next_frame e (sent_bytes (frame_of <$> events) +:+ tail)); [|done| |done..].
    2: { by rewrite Hu, <-str_app_assoc. }
    rewrite IH by done. cbn [scanner err with_unread at_end with_data]. by destruct (drain fuel _).
Qed.

(** A last frame cut off by the end of the stream, failed or not, counts. *)
Definition cut_frame (e : Event) : string := "event: " +:+ Name e +:+ newline +:+ "data: " +:+ Data e.

Lemma cut_line_none line : no_LF line = true -> cut_line line = None.
Proof.
  unfold no_LF. induction line as [|c line IH]; intros H; [done|]. cbn [cut_line ContainsAny] in *.
  rewrite Ascii.eqb_sym in H. destruct (Ascii.eqb c LF); [done|]. by rewrite IH.
Qed.

Lemma next_loop_last fuel f sc line event :
  scan_err sc = None -> unread sc = line -> plain_line line -> line <> "" -> read_line line f = inr event ->
  next_loop (S (S fuel)) f sc = (inr event, with_unread "" (Some (at_end sc)) sc).
Proof.
  intros He Hu (Hl & Hd & Hlen) Hne Hr. cbn [next_loop].
  assert (Hs : Scan sc = (Some line, with_unread "" (Some (at_end sc)) sc)).
  { unfold Scan. rewrite He, Hu, cut_line_none by done. rewrite (proj2 (Z.ltb_lt _ _)) by lia. cbn [orb].
    unfold scan_rest. cbn [unread with_unread]. rewrite cut_line_none, Hd by done. by destruct line. }
  by rewrite Hs, Hr.
Qed.

(** ** Streams cut anywhere *)

Definition prefix (p s : string) : Prop := exists rest, p +:+ rest = s.

Lemma prefix_refl s : prefix s s.
Proof. exists "". apply str_app_nil_r. Qed.
Lemma prefix_app s p t : prefix p t -> prefix (s +:+ p) (s +:+ t).
Proof. intros [r <-]. exists r. apply str_app_assoc. Qed.
Lemma prefix_trans p s t : prefix p s -> prefix s t -> prefix p t.
Proof. intros [r <-] [r' <-]. exists (r +:+ r'). by rewrite str_app_assoc. Qed.

(** A prefix of a concatenation ends in its first part or past it. *)
Lemma prefix_split p s t : prefix p (s +:+ t) -> prefix p s \/ exists q, p = s +:+ q /\ prefix q t.
Proof.
  revert p. induction s as [|c s IH]; intros p; [intros H; right; by exists p|].
  destruct p as [|d p]; [left; by eexists|]. intros [r H]. rewrite !str_app_cons in H. injection H as -> H.
  destruct (IH p (ex_intro _ r H)) as [[r' <-]|(q & -> & Hq)]; [left; exists r'; by rewrite str_app_cons|].
  right. by exists q.
Qed.

Lemma drop_CR_prefix s : prefix (drop_CR s) s.
Proof.
  induction s as [|c s IH]; [apply prefix_refl|]. destruct s as [|d s].
  - cbn [drop_CR]. destruct (Ascii.eqb c CR); [by eexists|apply prefix_refl].
  - change (prefix (String c (drop_CR (String d s))) (String c (String d s))). by apply (prefix_app (String c "")).
Qed.

Lemma take_bytes_prefix n s : prefix (take_bytes n s) s.
Proof.
  revert n. induction s as [|c s IH]; intros n; cbn [take_bytes]; [apply prefix_refl|].
  destruct (n <=? 0)%Z; [by eexists|]. by apply (prefix_app (String c "")).
Qed.

Lemma prefix_plain p s : prefix p s -> no_LF s = true -> (len s + 1 <= maxEventBytes)%Z ->
  no_LF p = true /\ (len p + 1 <= maxEventBytes)%Z.
Proof.
  intros [r <-]. unfold no_LF. rewrite ContainsAny_app, len_app, negb_orb. intros [-> _]%andb_true_iff.
  unfold len. lia.
Qed.

(** The last line of a stream, ended by no line feed. *)
Lemma next_loop_tail fuel f sc line :
  scan_err sc = None -> unread sc = line -> no_LF line = true -> (len line + 1 <= maxEventBytes)%Z ->
  (forall event, read_line (drop_CR line) f <> inl event) ->
  next_loop (S (S fuel)) f sc =
  (inr (if line =s "" then f else match read_line (drop_CR line) f with inl _ => f | inr f' => f' end),
   with_unread "" (Some (at_end sc)) sc).
Proof.
  intros He Hu Hl Hlen Hr. cbn [next_loop].
  assert (Hs : Scan sc = ((if line =s "" then None else Some (drop_CR line)), with_unread "" (Some (at_end sc)) sc)).
  { unfold Scan. rewrite He, Hu, cut_line_none by done. rewrite (proj2 (Z.ltb_lt _ _)) by lia. cbn [orb].
    unfold scan_rest. cbn [unread with_unread]. rewrite cut_line_none by done. by destruct line. }
  rewrite Hs. destruct (line =s ""); [done|]. specialize (Hr). destruct (read_line _ f) as [event|f']; [by destruct (Hr event)|done].
Qed.

(** What a cut name line and a cut data line leave of a frame. *)
Lemma read_cut_name p name f : prefix p ("event: " +:+ name) -> no_CR name = true ->
  read_line (drop_CR p) f = inr f \/ p = "" \/
  exists q, prefix q name /\ read_line (drop_CR p) f = inr (mkFrame (TrimSpace q) (f_data f)).
Proof.
  intros [Hp|(q & -> & Hq)]%prefix_split Hc.
  - destruct Hp as [r Hr]. repeat (destruct p as [|? p]; [cbn in *; auto|injection Hr as -> Hr]).
    all: try (assert (p = "") as -> by (by destruct p)); right; right; exists ""; (split; [by exists name|reflexivity]).
  - right. right. exists q. split; [done|]. assert (no_CR q = true) as Hcq.
    { destruct Hq as [r <-]. unfold no_CR in *. rewrite ContainsAny_app, negb_orb in Hc. by apply andb_true_iff in Hc as [Hc _]. }
    assert (drop_CR ("event: " +:+ q) = "event: " +:+ q) as Hd.
    { destruct q as [|c q]; [reflexivity|]. by rewrite drop_CR_app, drop_CR_none. }
    unfold read_line. rewrite !Hd.
    change (TrimPrefix "event:" ("event: " +:+ q)) with (TrimPrefix "event:" ("event:" +:+ String " " q)).
    rewrite TrimPrefix_app, TrimSpace_space. reflexivity.
Qed.

Lemma read_cut_data p payload f : prefix p ("data: " +:+ payload) ->
  read_line (drop_CR p) f = inr f \/ p = "" \/
  exists q, prefix q payload /\ read_line (drop_CR p) f = inr (mkFrame (f_name f) (f_data f ++ [q])).
Proof.
  intros [Hp|(q & -> & Hq)]%prefix_split.
  - destruct Hp as [r Hr]. repeat (destruct p as [|? p]; [cbn in *; auto|injection Hr as -> Hr]).
    all: try (assert (p = "") as -> by (by destruct p)); right; right; exists ""; (split; [by exists payload|reflexivity]).
  - right. right. assert (exists x, prefix x q /\ drop_CR (drop_CR ("data: " +:+ q)) = "data: " +:+ x) as (x & Hx & Hd).
    { assert (forall t, exists x, prefix x t /\ drop_CR ("data: " +:+ t) = "data: " +:+ x) as Hone.
      { intros [|c t]; [exists ""; by split; [apply prefix_refl|]|]. rewrite drop_CR_app by done.
        eexists. split; [apply drop_CR_prefix|reflexivity]. }
      destruct (Hone q) as (x & Hx & ->). destruct (Hone x) as (y & Hy & ->). exists y. split; [by eapply prefix_trans|done]. }
    exists x. split; [by eapply prefix_trans|]. unfold read_line. rewrite Hd.
    change (TrimPrefix "data:" ("data: " +:+ x)) with (TrimPrefix "data:" ("data:" +:+ " " +:+ x)).
    rewrite !TrimPrefix_app. reflexivity.
Qed.

(** What the reader can make of an event whose frame is cut: the beginning of
    its name alone, or its name with the beginning of its payload. *)
Definition cut_short (e cut : Event) : Prop :=
  (exists q, prefix q (Name e) /\ Name cut = TrimSpace q /\ Data cut = "") \/
  (Name cut = Name e /\ prefix (Data cut) (Data e)).

Section Partial.
Context (e : Event) (Hbreak : ContainsAny line_break (Name e) = false) (Hreadable : readable e) (d : Decoder).
Context (He : scan_err (scanner d) = None).

(** The decoder at the end of its stream, and what it then makes of a frame. *)
Definition ended : Decoder :=
  mkDecoder (with_unread "" (Some (at_end (scanner d))) (scanner d))
    match at_end (scanner d) with EOF => err d | e => Some e end.

Definition ends_cut : Prop :=
  exists cut, Next d = (cut, ended) /\ match cut with Some cut => cut_short e cut | None => True end.

Lemma name_line : plain_line ("event: " +:+ Name e) /\ drop_CR ("event: " +:+ Name e) = "event: " +:+ Name e.
Proof.
  destruct (unbroken_line _ Hbreak) as [Hnl Hnc]. destruct Hreadable.
  assert (plain_line ("event: " +:+ Name e)) as H; [|split; [exact H|apply H]].
  apply plain_line_app; try done; [by apply drop_CR_none|]. change (len "event: ") with 7%Z. lia.
Qed.

Lemma data_line : plain_line ("data: " +:+ Data e) /\ drop_CR ("data: " +:+ Data e) = "data: " +:+ Data e.
Proof.
  destruct Hreadable. assert (plain_line ("data: " +:+ Data e)) as H; [|split; [exact H|apply H]].
  apply plain_line_app; try done. change (len "data: ") with 6%Z. lia.
Qed.

Lemma next_loop_end fuel f sc : scan_err sc = None -> unread sc = "" ->
  next_loop (S fuel) f sc = (inr f, with_unread "" (Some (at_end sc)) sc).
Proof. intros H1 H2. cbn [next_loop]. unfold Scan. rewrite H1, H2. reflexivity. Qed.

Lemma ends_at_frame f :
  next_loop (S (String.length (unread (scanner d)))) no_frame (scanner d) = (inr f, scanner ended) ->
  (frame_pending f = true -> cut_short e (event_of f)) -> ends_cut.
Proof.
  intros Hf Hcut. unfold ends_cut, Next, ended in *. cbn [scanner] in *. rewrite Hf. cbn [scan_err with_unread].
  destruct (frame_pending f).
  - exists (Some (event_of f)). split; [by destruct (at_end _)|by apply Hcut].
  - exists None. split; [by destruct (at_end _)|done].
Qed.

(** Cut in its first line. *)
Lemma Next_cut_name p : unread (scanner d) = p -> prefix p ("event: " +:+ Name e) -> ends_cut.
Proof.
  intros Hu Hp. destruct (unbroken_line _ Hbreak) as [_ Hnc].
  destruct (prefix_plain _ _ Hp ltac:(apply name_line) ltac:(apply name_line)) as [H1 H2].
  destruct (String.eqb_spec p "") as [->|Hne].
  { apply (ends_at_frame no_frame); [|done]. rewrite Hu. by apply next_loop_end. }
  destruct (String.length (unread (scanner d))) as [|n] eqn:El; [by rewrite Hu in El; destruct p|].
  destruct (read_cut_name p (Name e) no_frame Hp Hnc) as [Hr|[->|(q & Hq & Hr)]]; [|done|].
  - apply (ends_at_frame no_frame); [|done]. rewrite El, (next_loop_tail _ _ _ p) by (done || by intros; rewrite Hr).
    rewrite Hr. by destruct (p =s "").
  - apply (ends_at_frame (mkFrame (TrimSpace q) [])); [|intros _; left; by exists q].
    rewrite El, (next_loop_tail _ _ _ p) by (done || by intros; rewrite Hr). by rewrite Hr, (proj2 (String.eqb_neq _ _) Hne).
Qed.

Lemma next_loop_name fuel sc rest : scan_err sc = None -> unread sc = ("event: " +:+ Name e) +:+ newline +:+ rest ->
  next_loop (S fuel) no_frame sc = next_loop fuel (mkFrame (Name e) []) (with_unread rest None sc).
Proof.
  intros H1 H2. destruct name_line as [Hn Hn2]. rewrite (next_loop_line _ _ _ _ _ H1 H2 Hn).
  destruct Hreadable. by rewrite read_event_line.
Qed.

(** Only its name came. *)
Lemma cut_at_name : frame_pending (mkFrame (Name e) []) = true -> cut_short e (event_of (mkFrame (Name e) [])).
Proof. intros _. right. split; [done|by exists (Data e)]. Qed.

(** Cut right after its name, with or without the line's end. *)
Lemma Next_cut_line q : unread (scanner d) = ("event: " +:+ Name e) +:+ q -> prefix q newline -> ends_cut.
Proof.
  intros Hu [r Hr]. apply (ends_at_frame (mkFrame (Name e) [])); [|apply cut_at_name].
  destruct (String.length (unread (scanner d))) as [|n] eqn:El; [rewrite Hu, !str_length_app in El; cbn in El; lia|].
  destruct q as [|c q].
  - rewrite str_app_nil_r in Hu. destruct name_line as [(H1 & _ & H3) Hn].
    assert (read_line (drop_CR ("event: " +:+ Name e)) no_frame = inr (mkFrame (Name e) [])) as Hev.
    { rewrite Hn. apply read_event_line; [done|apply Hreadable]. }
    rewrite (next_loop_tail _ _ _ ("event: " +:+ Name e)) by (done || by rewrite Hev). by rewrite Hev.
  - injection Hr as -> Hr. assert (q = "") as -> by by destruct q. rewrite (next_loop_name _ _ "") by done.
    by rewrite next_loop_end.
Qed.

(** Cut in its second line. *)
Lemma Next_cut_data q : unread (scanner d) = ("event: " +:+ Name e) +:+ newline +:+ q ->
  prefix q ("data: " +:+ Data e) -> ends_cut.
Proof.
  intros Hu Hq. destruct (prefix_plain _ _ Hq ltac:(apply data_line) ltac:(apply data_line)) as [H1 H2].
  destruct (String.length (unread (scanner d))) as [|[|n]] eqn:El; [rewrite Hu, !str_length_app in El; cbn in El; lia..|].
  destruct (String.eqb_spec q "") as [->|Hne].
  { apply (ends_at_frame (mkFrame (Name e) [])); [|apply cut_at_name].
    rewrite El, (next_loop_name _ _ "") by done. by rewrite next_loop_end. }
  destruct (read_cut_data q (Data e) (mkFrame (Name e) []) Hq) as [Hr|[->|(x & Hx & Hr)]]; [|done|].
  - apply (ends_at_frame (mkFrame (Name e) [])); [|apply cut_at_name]. rewrite El, (next_loop_name _ _ q) by done.
    rewrite (next_loop_tail _ _ _ q) by (done || by intros; rewrite Hr). rewrite Hr. by destruct (q =s "").
  - apply (ends_at_frame (mkFrame (Name e) [x])); [|intros _; right; by split]. rewrite El, (next_loop_name _ _ q) by done.
    rewrite (next_loop_tail _ _ _ q) by (done || by intros; rewrite Hr). by rewrite (proj2 (String.eqb_neq _ _) Hne), Hr.
Qed.

(** All but the blank line came. *)
Lemma Next_unended : unread (scanner d) = ("event: " +:+ Name e) +:+ newline +:+ ("data: " +:+ Data e) +:+ newline ->
  ends_cut.
Proof.
  intros Hu. apply (ends_at_frame (mkFrame (Name e) [Data e])); [|intros _; right; split; [done|apply prefix_refl]].
  destruct (String.length (unread (scanner d))) as [|[|[|n]]] eqn:El; [rewrite Hu, !str_length_app in El; cbn in El; lia..|].
  destruct data_line as [Hd Hd2]. rewrite (next_loop_name _ _ (("data: " +:+ Data e) +:+ newline)) by done.
  rewrite (next_loop_line _ _ _ ("data: " +:+ Data e) "") by done. rewrite read_data_line by done.
  by rewrite next_loop_end.
Qed.

(** A frame the stream ends in, all of it but the blank line or less. *)
Lemma Next_partial p : unread (scanner d) = p -> prefix p (cut_frame e +:+ newline) -> ends_cut.
Proof.
  unfold cut_frame. rewrite !str_app_assoc, <-(str_app_assoc "event: ").
  intros Hu [Hp|(q & -> & Hq)]%prefix_split; [by eapply Next_cut_name|].
  apply prefix_split in Hq as [Hq|(q' & -> & Hq)]; [by eapply Next_cut_line|].
  rewrite <-str_app_assoc in Hq. apply prefix_split in Hq as [Hq|(q & -> & [r Hr])]; [by eapply Next_cut_data|].
  destruct q as [|c q].
  - rewrite str_app_nil_r in Hu. eapply Next_cut_data; [exact Hu|apply prefix_refl].
  - injection Hr as -> Hr. assert (q = "") as -> by by destruct q. by apply Next_unended.
Qed.

End Partial.

Lemma sent_bytes_app l l' : sent_bytes (l ++ l') = sent_bytes l +:+ sent_bytes l'.
Proof.
  induction l as [|x l IH]; [done|].
  change (x +:+ sent_bytes (l ++ l') = (x +:+ sent_bytes l) +:+ sent_bytes l'). by rewrite IH, str_app_assoc.
Qed.

Lemma sent_bytes_length events : (length events <= String.length (sent_bytes (frame_of <$> events)))%nat.
Proof.
  induction events as [|e events IH]; [done|].
  change (S (length events) <= String.length (frame_of e +:+ sent_bytes (frame_of <$> events)))%nat.
  rewrite str_length_app. pose proof (frame_length e). lia.
Qed.

Lemma prefix_length p s : prefix p s -> (String.length p <= String.length s)%nat.
Proof. intros [r <-]. rewrite str_length_app. lia. Qed.

Lemma prefix_cancel s p t : prefix (s +:+ p) (s +:+ t) -> prefix p t.
Proof.
  intros [r H]. exists r. revert H. rewrite str_app_assoc. induction s as [|c s IH]; [done|].
  rewrite !str_app_cons. intros [= H]. by apply IH.
Qed.

Definition framed_ok (e : Event) : Prop := ContainsAny line_break (Name e) = false /\ readable e.

(** A frame is cut, or came whole. *)
Lemma frame_prefix e p : prefix p (frame_of e) ->
  prefix p (cut_frame e +:+ newline) /\ (String.length p < String.length (frame_of e))%nat \/ p = frame_of e.
Proof.
  assert (frame_of e = (cut_frame e +:+ newline) +:+ newline) as ->.
  { unfold frame_of, frame, cut_frame. by rewrite !str_app_assoc. }
  rewrite str_length_app. change (String.length newline) with 1%nat. intros [Hp|(q & -> & [r Hq])]%prefix_split.
  - left. split; [done|]. apply prefix_length in Hp. lia.
  - destruct q as [|c q]; [left; rewrite str_app_nil_r; split; [apply prefix_refl|lia]|]. right.
    injection Hq as -> Hq. by assert (q = "") as -> by by destruct q.
Qed.

(** A stream cut anywhere: the whole frames that came, each once and in order,
    and of the next what its part shows, if anything. *)
Lemma drain_prefix events p fuel d :
  scan_err (scanner d) = None -> unread (scanner d) = p -> prefix p (sent_bytes (frame_of <$> events)) ->
  Forall framed_ok events -> (String.length p < fuel)%nat ->
  exists k extra d', drain fuel d = (take k events ++ extra, d') /\ (k <= length events)%nat /\
    (extra = [] \/ exists e cut, events !! k = Some e /\ extra = [cut] /\ cut_short e cut) /\
    err d' = match at_end (scanner d) with EOF => err d | e => Some e end /\
    forall j, (j <= length events)%nat -> prefix (sent_bytes (frame_of <$> take j events)) p -> (j <= k)%nat.
Proof.
  revert p fuel d. induction events as [|e events IH]; intros p [|fuel] d He Hu Hp Hok Hf; [lia| |lia|].
  { destruct Hp as [r Hr]. assert (p = "") as -> by (by destruct p). cbn [drain]. rewrite Next_end by done.
    exists 0%nat, []. eexists. split; [reflexivity|]. split_and!; [lia|by left|done|]. intros j Hj _. cbn in Hj. lia. }
  apply Forall_cons in Hok as [[Hb Hr] Hok]. rewrite fmap_cons in Hp.
  change (prefix p (frame_of e +:+ sent_bytes (frame_of <$> events))) in Hp. pose proof (frame_length e) as Hlen.
  assert (forall q, p = frame_of e +:+ q -> prefix q (sent_bytes (frame_of <$> events)) ->
    exists k extra d', drain (S fuel) d = (take k (e :: events) ++ extra, d') /\ (k <= S (length events))%nat /\
    (extra = [] \/ exists e' cut, (e :: events) !! k = Some e' /\ extra = [cut] /\ cut_short e' cut) /\
    err d' = match at_end (scanner d) with EOF => err d | e => Some e end /\
    forall j, (j <= S (length events))%nat -> prefix (sent_bytes (frame_of <$> take j (e :: events))) p -> (j <= k)%nat) as Hwhole.
  { intros q -> Hq. cbn [drain]. rewrite (Next_frame e q) by done.
    rewrite str_length_app in Hf.
    destruct (IH q fuel (mkDecoder (with_unread q None (scanner d)) (err d)) eq_refl eq_refl Hq Hok ltac:(lia))
      as (k & extra & d' & -> & Hk & Hex & Herr & Hall).
    exists (S k), extra, d'. split; [done|]. split; [lia|]. split; [done|]. split; [done|].
    intros [|j] Hj Hpre; [lia|]. apply le_n_S, Hall; [lia|]. cbn [take] in Hpre. rewrite fmap_cons in Hpre.
    by apply prefix_cancel in Hpre. }
  destruct (prefix_split p _ _ Hp) as [Hp'|(q & Hq & Hpre)]; [|by eapply Hwhole].
  destruct (frame_prefix e p Hp') as [[Hcut Hlt]|Heq]; [|apply (Hwhole ""); [by rewrite str_app_nil_r|by eexists]].
  destruct (Next_partial e Hb Hr d He p Hu Hcut) as (cut & Hn & Hc). unfold ended in Hn. cbn [drain]. rewrite Hn.
  assert (forall j, (j <= S (length events))%nat -> prefix (sent_bytes (frame_of <$> take j (e :: events))) p -> (j <= 0)%nat) as Hj.
  { intros [|j] _ Hpre; [done|]. apply prefix_length in Hpre. cbn [take] in Hpre. rewrite fmap_cons in Hpre.
    change (sent_bytes (frame_of e :: ?l)) with (frame_of e +:+ sent_bytes l) in Hpre. rewrite str_length_app in Hpre. lia. }
  destruct cut as [cut|].
  - exists 0%nat, [cut]. destruct fuel as [|fuel]; cbn [drain].
    + eexists. split; [reflexivity|]. split_and!; [lia|right; by exists e, cut|done|done].
    + rewrite (Next_end_failed _ (at_end (scanner d))) by done. eexists. split; [reflexivity|].
      split_and!; [lia|right; by exists e, cut|by destruct (at_end _)|done].
  - exists 0%nat, []. eexists. split; [reflexivity|]. split_and!; [lia|by left|done|done].
Qed.

(** ** Streams of calls *)

(** One call of [WriteEvent] per entry: how its write fails, if it does, and
    the event. *)
Fixpoint write_all (calls : list (option Z * Event)) (w : Writer) : list WriteResult * Writer :=
  match calls with
  | [] => ([], w)
  | call :: calls =>
      let '(result, w) := WriteEvent call.1 (Name call.2) (Data call.2) w in
      let '(results, w) := write_all calls w in (result :: results, w)
  end.

(** The events whose call answered that it wrote them. *)
Definition accepted (calls : list (option Z * Event)) (results : list WriteResult) : list Event :=
  omap (fun p => match p.2 with Wrote => Some p.1.2 | _ => None end) (zip calls results).

(** The events the connection was handed a frame of: those of a name that
    breaks no line, up to and with the first whose write fails. *)
Fixpoint handed (calls : list (option Z * Event)) : list Event :=
  match calls with
  | [] => []
  | (fails, e) :: calls =>
      if ContainsAny line_break (Name e) then handed calls
      else match fails with None => e :: handed calls | Some _ => [e] end
  end.

Lemma write_all_broken calls w :
  broken w = true -> write_all calls w = (repeat ErrClientGone (length calls), w).
Proof.
  intros H. induction calls as [|call calls IH]; [done|]. cbn [write_all length repeat].
  unfold WriteEvent. by rewrite H, IH.
Qed.

Lemma accepted_broken calls n : accepted calls (repeat ErrClientGone n) = [].
Proof. revert n. induction calls as [|c calls IH]; intros [|n]; [done..|]. exact (IH n). Qed.

(** The connection holds the accepted frames whole and, if one failed, a part of
    its frame. *)
Lemma write_all_spec calls w :
  broken w = false ->
  let '(results, w') := write_all calls w in
  exists failed part, handed calls = accepted calls results ++ failed /\
    sent_bytes (written w') =
      sent_bytes (written w) +:+ sent_bytes (frame_of <$> accepted calls results) +:+ part /\
    prefix part (sent_bytes (frame_of <$> failed)) /\ (length failed <= 1)%nat /\ (broken w' = false <-> failed = []).
Proof.
  revert w. induction calls as [|[fails e] calls IH]; intros w Hw.
  { exists [], "". cbn. rewrite str_app_nil_r. split_and!; try done; [apply prefix_refl|lia]. }
  cbn [write_all handed fst snd]. unfold WriteEvent. rewrite Hw. destruct (ContainsAny line_break (Name e)) eqn:Eb.
  { specialize (IH w Hw). destruct (write_all calls w) as [results w']. exact IH. }
  destruct fails as [n|].
  - rewrite write_all_broken by done. exists [e], (take_bytes n (frame_of e)).
    change (accepted ((Some n, e) :: calls) (ErrClientGone :: repeat ErrClientGone (length calls)))
      with (accepted calls (repeat ErrClientGone (length calls))).
    rewrite accepted_broken. cbn [written fmap list_fmap app length]. rewrite sent_bytes_app. cbn [sent_bytes foldr].
    rewrite str_app_nil_r. split_and!; try done. rewrite str_app_nil_r. apply take_bytes_prefix.
  - specialize (IH (mkWriter false (written w ++ [frame (Name e) (Data e)])) eq_refl).
    destruct (write_all calls _) as [results w']. destruct IH as (failed & part & Hh & Hs & Hp & Hl & Hb).
    exists failed, part. change (accepted ((None, e) :: calls) (Wrote :: results)) with (e :: accepted calls results).
    split; [by rewrite Hh|]. split; [|done]. rewrite Hs. cbn [written]. rewrite sent_bytes_app. cbn [sent_bytes foldr].
    rewrite str_app_nil_r, fmap_cons. change (sent_bytes (?f :: ?l)) with (f +:+ sent_bytes l). by rewrite !str_app_assoc.
Qed.

Lemma handed_ok calls : Forall (fun call => readable call.2) calls -> Forall framed_ok (handed calls).
Proof.
  induction 1 as [|[fails e] calls Hc _ IH]; [constructor|]. cbn [handed].
  destruct (ContainsAny line_break (Name e)) eqn:E; [done|]. by destruct fails; apply Forall_cons.
Qed.

(** C24. What a reader decodes of a written stream is what was written.  A
    writer's connection is handed the frames of the events whose name breaks no
    line, up to the first whose write fails, which may leave any part of its
    frame; the events accepted are those before it.  A reader that receives any
    beginning of what the connection took decodes every frame that came whole,
    each event once, in order and as written, and after them at most one more:
    what the part of the next frame shows of its event, the beginning of its
    name or its name with the beginning of its payload.  Of a stream no write
    failed in, received whole, it decodes exactly the accepted events.  It ends
    with the connection's error, or none.  The payloads are single lines, the
    names trimmed, and both lines fit the decoder's buffer. *)
Theorem readers_see_what_was_written calls w received ends eager :
  NewWriter true = Some w -> Forall (fun call => readable call.2) calls ->
  let '(results, w) := write_all calls w in
  prefix received (sent_bytes (written w)) ->
  (exists failed, handed calls = accepted calls results ++ failed /\ (length failed <= 1)%nat /\
     (broken w = false <-> failed = [])) /\
  exists k extra d, decode received ends eager = (take k (handed calls) ++ extra, d) /\
    (extra = [] \/ exists e cut, handed calls !! k = Some e /\ extra = [cut] /\ cut_short e cut) /\
    (forall j, (j <= length (handed calls))%nat ->
       prefix (sent_bytes (frame_of <$> take j (handed calls))) received -> (j <= k)%nat) /\
    (broken w = false -> received = sent_bytes (written w) ->
       take k (handed calls) ++ extra = accepted calls results) /\
    err d = match ends with EOF => None | e => Some e end.
Proof.
  intros [= <-] Hok. pose proof (write_all_spec calls (mkWriter false []) eq_refl) as Hw.
  destruct (write_all calls _) as [results w]. destruct Hw as (failed & part & Hh & Hs & Hp & Hl & Hb).
  change (sent_bytes (written (mkWriter false []))) with "" in Hs. change ("" +:+ ?s) with s in Hs.
  intros Hrec. split; [by exists failed|].
  assert (prefix received (sent_bytes (frame_of <$> handed calls))) as Hpre.
  { eapply prefix_trans; [exact Hrec|]. rewrite Hs, Hh, fmap_app, sent_bytes_app. by apply prefix_app. }
  destruct (drain_prefix (handed calls) received (S (String.length received)) (NewDecoder received ends eager)
    eq_refl eq_refl Hpre (handed_ok _ Hok) ltac:(lia)) as (k & extra & d & Hd & Hk & Hex & Herr & Hall).
  exists k, extra, d. split_and!; [exact Hd|exact Hex|exact Hall| |by destruct ends].
  intros Hu Hr. apply Hb in Hu as ->. rewrite app_nil_r in Hh. destruct Hp as [r Hp].
  assert (part = "") as -> by (by destruct part). rewrite str_app_nil_r in Hs.
  specialize (Hall (length (handed calls)) ltac:(lia)). rewrite take_ge in Hall by lia.
  rewrite Hr, Hs, <-Hh in Hall. specialize (Hall (prefix_refl _)). rewrite take_ge by lia.
  destruct Hex as [->|(e & cut & He & _)]; [by rewrite app_nil_r|]. apply lookup_lt_Some in He. lia.
Qed.

(** A forged name, and a connection lost twenty-two bytes into a frame. *)
Definition example_calls : list (option Z * Event) :=
  [ (None, mkEvent "event" "{}"); (None, mkEvent ("x" +:+ newline +:+ "y") "{}"); (None, mkEvent "usage" "[1]");
    (Some 22%Z, mkEvent "event" "[2,3]"); (None, mkEvent "event" "{}") ].

Lemma readers_see_what_was_written_witness :
  let '(results, w) := write_all example_calls (mkWriter false []) in
  results = [Wrote; ForgedName; Wrote; ErrClientGone; ErrClientGone] /\
  exists d, decode (sent_bytes (written w)) (Failed "reset") false
    = ([mkEvent "event" "{}"; mkEvent "usage" "[1]"; mkEvent "event" "[2,"], d) /\ err d = Some (Failed "reset").
Proof.
  pose proof (fun received => readers_see_what_was_written example_calls (mkWriter false []) received (Failed "reset") false
    eq_refl) as H.
  destruct (write_all example_calls (mkWriter false [])) as [results w] eqn:E.
  destruct (H (sent_bytes (written w))) as (_ & k & extra & d & Hd & _ & _ & _ & Herr); [|apply prefix_refl|].
  - unfold example_calls.
    repeat (apply Forall_cons; split; [constructor; vm_compute; (reflexivity || discriminate)|]). constructor.
  - vm_compute in E. injection E as <- <-. split; [reflexivity|]. exists d. split; [|exact Herr].
    rewrite Hd. f_equal. transitivity (fst (take k (handed example_calls) ++ extra, d)); [reflexivity|].
    rewrite <-Hd. vm_compute. reflexivity.
Defined.

Lemma Next_cut e d :
  scan_err (scanner d) = None -> unread (scanner d) = cut_frame e ->
  ContainsAny line_break (Name e) = false -> readable e ->
  Next d = (Some e, mkDecoder (with_unread "" (Some (at_end (scanner d))) (scanner d))
                      match at_end (scanner d) with EOF => err d | e => Some e end).
Proof.
  intros He Hu [Hnl Hnc]%unbroken_line []. destruct e as [name payload]. unfold cut_frame in Hu. cbn [Name Data] in *.
  assert (Hn : plain_line ("event: " +:+ name)).
  { apply plain_line_app; try done; [by apply drop_CR_none|]. change (len "event: ") with 7%Z. lia. }
  assert (Hp : plain_line ("data: " +:+ payload)).
  { apply plain_line_app; try done. change (len "data: ") with 6%Z. lia. }
  rewrite <-str_app_assoc in Hu. unfold Next. rewrite (next_loop_line _ _ _ _ _ He Hu Hn).
  rewrite read_event_line by (try done; by destruct Hn as (_ & ? & _)). rewrite Hu.
  destruct (String.length _) as [|[|n]] eqn:El; [rewrite !str_length_app in El; cbn in El; lia..|].
  rewrite (next_loop_last _ _ _ ("data: " +:+ payload) (mkFrame name [payload])); try done.
  2: { destruct Hp as (_ & Hd & _). by rewrite read_data_line. }
  cbn. unfold frame_pending. cbn. rewrite orb_true_r. by destruct (at_end (scanner d)).
Qed.

(** A stream cut in the middle of a frame loses nothing that was sent: every
    whole frame is decoded, then the cut one as far as it came, and the
    failure that cut it is reported, or none. *)
Theorem cut_stream_keeps_its_events events last ends eager :
  Forall (fun e => ContainsAny line_break (Name e) = false /\ readable e) (events ++ [last]) ->
  exists d, decode (sent_bytes (frame_of <$> events) +:+ cut_frame last) ends eager = (events ++ [last], d) /\
    err d = match ends with EOF => None | e => Some e end.
Proof.
  intros [Hok [[Hb Hr] _]%Forall_cons]%Forall_app. unfold decode. set (body := _ +:+ cut_frame last).
  assert (Hlen : (length events + 2 <= S (String.length body))%nat).
  { unfold body, cut_frame. rewrite !str_length_app. pose proof (sent_bytes_length events).
    change (String.length "event: ") with 7%nat. lia. }
  replace (S (String.length body)) with (length events + (S (S (S (String.length body) - length events - 2))))%nat by lia.
  rewrite (drain_frames events (cut_frame last)) by done. cbn [drain]. rewrite (Next_cut last) by done.
  rewrite (Next_end_failed _ ends) by done. eexists. split; [done|]. by destruct ends.
Qed.

Definition example_events : list Event := [mkEvent "message_start" "{}"; mkEvent "" "[1]"].

Lemma cut_stream_keeps_its_events_witness :
  exists d, decode (sent_bytes (frame_of <$> example_events) +:+ cut_frame (mkEvent "usage" "[2]")) (Failed "reset") true
    = (example_events ++ [mkEvent "usage" "[2]"], d) /\ err d = Some (Failed "reset").
Proof.
  apply (cut_stream_keeps_its_events example_events (mkEvent "usage" "[2]") (Failed "reset") true).
  unfold example_events. cbn [app].
  repeat (apply Forall_cons; split; [split; [reflexivity|constructor; vm_compute; (reflexivity || discriminate)]|]).
  constructor.
Defined.

(** Every [data:] line of an event is kept, however many: the bound is on one
    line.  An event of short lines is decoded whole whatever its size. *)
Lemma event_is_not_bounded n :
  exists body event d,
    Next (NewDecoder body EOF true) = (Some event, d) /\ (Z.of_nat n <= len (Data event))%Z /\
    body = foldr (fun p s => ("data: " +:+ p) +:+ newline +:+ s) newline (repeat "x" (S n)).
Proof.
  set (payloads := repeat "x" (S n)). set (body := foldr _ _ _).
  assert (Hp : Forall (fun p => plain_line ("data: " +:+ p)) payloads).
  { apply Forall_forall. intros p Hp%list_elem_of_In%repeat_spec. subst p. unfold plain_line. cbn. vm_compute.
    split_and!; (reflexivity || discriminate). }
  exists body, (event_of (mkFrame "" payloads)). eexists. split; [|split; [|reflexivity]].
  - unfold Next. rewrite (next_loop_data payloads _ no_frame _ ""); cbn [f_data f_name no_frame app]; try done.
    cbn [NewDecoder scanner unread]. lia.
  - unfold event_of, payloads. cbn [f_data Data]. clear. induction n as [|n IH]; [done|].
    change (repeat "x" (S (S n))) with ("x" :: repeat "x" (S n)).
    change (String.concat newline ("x" :: repeat "x" (S n)))
      with ("x" +:+ newline +:+ String.concat newline (repeat "x" (S n))).
    rewrite !len_app. change (len "x") with 1%Z. change (len newline) with 1%Z. lia.
Qed.
