(* ===== verification/RealtimeParameters.v ===== *)
(** * What a provider's realtime wire takes
    (internal/contract/realtime_parameters.go, and the reviewed statements of
    internal/providerconfig/realtime_audio.go)

    A session is configured in the contract's terms alone.  Each provider's
    wire takes less: the parameters state what, [Unservable] names what no
    translation can serve, and the rest is translated onto the wire. *)

From S2P Require Import Prelude Ids Text Contract Request Answers PublicContract RealtimeContract.

Record NumberRange := mkRange { Min : float64; Max : float64 }.

Record RealtimeTurnDetectionParameters := mkDetection {
  tdp_Type : string;
  FixedResponses : bool;
  tdp_Threshold : option NumberRange;
  MeteredUnits : list string;
}.

Record RealtimeParameters := mkParameters {
  rp_TurnDetection : list RealtimeTurnDetectionParameters;
  OutputModalities : list (list string);
  rp_ToolChoices : list string;
  rp_MaxTokens : option Z;
  InputTranscriptionPrompt : bool;
}.

Definition RealtimeToolChoiceAuto := "auto".
Definition RealtimeToolChoiceNone := "none".
Definition RealtimeToolChoiceRequired := "required".
Definition RealtimeToolChoiceFunction := "function".
Definition realtimeToolChoiceValues :=
  [RealtimeToolChoiceAuto; RealtimeToolChoiceNone; RealtimeToolChoiceRequired; RealtimeToolChoiceFunction].

(** A choice that names no function names a mode. *)
Definition RealtimeToolChoiceOf (choice : ToolChoice) : string :=
  if present (choice_Function choice) then RealtimeToolChoiceFunction else default "" (choice_Mode choice).

(** ** Translating *)

Definition TurnDetectionOf (kind : string) (p : RealtimeParameters) : option RealtimeTurnDetectionParameters :=
  List.find (fun t => tdp_Type t =s kind) (rp_TurnDetection p).

Definition WireTurnDetection (kind : string) (p : RealtimeParameters) : option RealtimeTurnDetectionParameters :=
  match TurnDetectionOf kind p with
  | Some served => Some served
  | None => if kind =s TurnDetectionSemanticVAD then TurnDetectionOf TurnDetectionServerVAD p else None
  end.

Definition ServesOutputModalities (modalities : list string) (p : RealtimeParameters) : bool :=
  let wanted := sort_by id modalities in
  existsb (fun set => bool_decide (set = wanted)) (OutputModalities p).

Definition WireOutputModalities (asked : option (list string)) (p : RealtimeParameters) : option (list string) :=
  match asked with
  | None => None
  | Some modalities => if ServesOutputModalities modalities p then asked else Some [RealtimeOutputAudio]
  end.

(** ** What cannot be served *)

Record RealtimeConfigFields := mkFields {
  f_TurnDetection : option RealtimeTurnDetection;
  f_ToolChoice : option ToolChoice;
  f_MaxOutputTokens : option Z;
}.

Definition session_Fields (c : RealtimeSessionConfig) : RealtimeConfigFields :=
  mkFields (Some (cfg_TurnDetection c)) (cfg_ToolChoice c) (cfg_MaxOutputTokens c).

Definition update_Fields (u : RealtimeSessionConfigUpdate) : RealtimeConfigFields :=
  mkFields (up_TurnDetection u) (up_ToolChoice u) (up_MaxOutputTokens u).

Definition response_Fields (r : RealtimeResponseParameters) : RealtimeConfigFields :=
  mkFields None (rp_ToolChoice r) (rp_MaxOutputTokens r).

Record RealtimeParameterIssue := mkIssue { Param : string; Message : string }.

Definition toolChoiceVerb (kind : string) : string :=
  if kind =s RealtimeToolChoiceNone then "answer one response without its tools"
  else if kind =s RealtimeToolChoiceRequired then "call a tool on every response"
  else "call one named tool".

(** A switch that is absent or off. *)
Definition off (switch : option bool) : bool := negb (default false switch).

Definition detection_issue (p : RealtimeParameters) (detection : RealtimeTurnDetection) : option RealtimeParameterIssue :=
  match WireTurnDetection (td_Type detection) p with
  | None => Some (mkIssue "turnDetection" ("this model cannot detect turns by " +:+ td_Type detection))
  | Some served =>
      if FixedResponses served && off (CreateResponse detection)
      then Some (mkIssue "turnDetection.createResponse" "this model always answers a turn it detected")
      else if FixedResponses served && off (InterruptResponse detection)
      then Some (mkIssue "turnDetection.interruptResponse" "this model always lets the caller interrupt an answer")
      else None
  end.

Definition choice_issue (prefix : string) (p : RealtimeParameters) (choice : ToolChoice) : option RealtimeParameterIssue :=
  let kind := RealtimeToolChoiceOf choice in
  let withheld := (kind =s RealtimeToolChoiceNone) && (prefix =s "config") in
  if negb (isMember kind (rp_ToolChoices p)) && negb withheld
  then Some (mkIssue "toolChoice" ("this model cannot be made to " +:+ toolChoiceVerb kind)) else None.

Definition cap_issue (p : RealtimeParameters) (cap : Z) : option RealtimeParameterIssue :=
  if present (rp_MaxTokens p) then None
  else Some (mkIssue "maxOutputTokens" "this model cannot cap the output tokens of a response").

Definition issue_of {A} (f : A -> option RealtimeParameterIssue) (field : option A) : list RealtimeParameterIssue :=
  match field with Some x => option_list (f x) | None => [] end.

(** [RealtimeParameters.Unservable]. *)
Definition Unservable (prefix : string) (fields : RealtimeConfigFields) (p : RealtimeParameters)
  : list RealtimeParameterIssue :=
  (fun issue => mkIssue (prefix +:+ "." +:+ Param issue) (Message issue)) <$>
    issue_of (detection_issue p) (f_TurnDetection fields)
    ++ issue_of (choice_issue prefix p) (f_ToolChoice fields)
    ++ issue_of (cap_issue p) (f_MaxOutputTokens fields).

(** ** A statement Kaana can translate onto *)

Definition NeverResponds (p : RealtimeParameters) : bool :=
  match OutputModalities p, rp_ToolChoices p, rp_MaxTokens p with [], [], None => true | _, _, _ => false end.

(** [slices.Index]. *)
Fixpoint index_of (x : string) (l : list string) (i : Z) : Z :=
  match l with [] => -1 | y :: l => if x =s y then i else index_of x l (i + 1) end.

(** Each of [l] comes strictly after the one before it, by [before]; [check]
    of each comes first. *)
Fixpoint ordered {A} (check : A -> option string) (before : A -> A -> bool) (message : string) (previous : option A)
    (l : list A) : option string :=
  match l with
  | [] => None
  | x :: l =>
      check x ;;
      refuse_if (match previous with Some y => negb (before y x) | None => false end) message ;;
      ordered check before message (Some x) l
  end.

Definition index_before (values : list string) (x y : string) : bool :=
  (index_of x values 0 <? index_of y values 0)%Z.

Definition string_lt (x y : string) : bool := bool_decide (String.le x y) && negb (x =s y).

(** Sorted and each once: [slices.IsSorted] and [slices.Compact]. *)
Fixpoint strictly_sorted (l : list string) : bool :=
  match l with
  | x :: (y :: _) as rest => string_lt x y && strictly_sorted rest
  | _ => true
  end.

(** [slices.Compare(a, b) < 0]. *)
Fixpoint set_lt (a b : list string) : bool :=
  match a, b with
  | _, [] => false
  | [], _ => true
  | x :: a, y :: b => string_lt x y || (x =s y) && set_lt a b
  end.

Definition empty_list {A} (l : list A) : bool := match l with [] => true | _ => false end.

(** A detection, in the order [Validate] checks one: its type, its place
    among the others, its range, its units. *)
Definition validate_detection (misplaced : bool) (t : RealtimeTurnDetectionParameters) : option string :=
  refuse_if (negb (isMember (tdp_Type t) realtimeTurnDetectionTypeValues)) "not a turn detection" ;;
  refuse_if misplaced "turnDetection is in the contract's order and names each type once" ;;
  refuse_if (match tdp_Threshold t with
             | Some r => f64_ltb (Min r) f64_0 || f64_ltb f64_1' (Max r) || f64_ltb (Max r) (Min r)
             | None => false
             end) "threshold is a range inside 0 to 1" ;;
  refuse_if (empty_list (MeteredUnits t) || negb (strictly_sorted (MeteredUnits t)))
    "meteredUnits names at least one unit, sorted, each once" ;;
  first_refusal (fun unit => refuse_if (negb (UsageUnit_Valid unit)) "not a unit") (MeteredUnits t).

Fixpoint validate_detections (previous : option string) (l : list RealtimeTurnDetectionParameters) : option string :=
  match l with
  | [] => None
  | t :: l =>
      validate_detection
        match previous with
        | Some kind => negb (index_before realtimeTurnDetectionTypeValues kind (tdp_Type t))
        | None => false
        end t ;;
      validate_detections (Some (tdp_Type t)) l
  end.

Definition validate_set (set : list string) : option string :=
  refuse_if (empty_list set || negb (strictly_sorted set)) "outputModalities is a sorted set of at least one modality" ;;
  first_refusal (fun m => refuse_if (negb (isMember m realtimeOutputModalityValues)) "not a modality") set.

Definition Parameters_Validate (p : RealtimeParameters) : option string :=
  refuse_if (empty_list (rp_TurnDetection p)) "turnDetection names at least one detection" ;;
  validate_detections None (rp_TurnDetection p) ;;
  if NeverResponds p then None
  else
    refuse_if (empty_list (OutputModalities p)) "outputModalities names at least one set" ;;
    ordered validate_set set_lt "outputModalities is sorted and names each set once" None (OutputModalities p) ;;
    refuse_if (negb (isMember RealtimeToolChoiceAuto (rp_ToolChoices p))) "toolChoice names auto" ;;
    ordered (fun c => refuse_if (negb (isMember c realtimeToolChoiceValues)) "not a tool choice")
      (index_before realtimeToolChoiceValues) "toolChoice is in the contract's order and names each kind once" None
      (rp_ToolChoices p) ;;
    refuse_if (match rp_MaxTokens p with Some n => n <=? 0 | None => false end)%Z "maxOutputTokens is positive".

(** ** The reviewed statements (internal/providerconfig/realtime_audio.go) *)

Definition openAIRealtimeTokenUnits :=
  [UnitAudioInputTokens; UnitAudioOutputTokens; UnitCachedAudioInputTokens; UnitCachedInputTokens; UnitInputTokens;
   UnitInputTranscriptionMilliseconds; UnitOutputTokens].

Definition openAIRealtimeParameters : RealtimeParameters :=
  let detection kind := mkDetection kind false None openAIRealtimeTokenUnits in
  mkParameters
    [detection TurnDetectionNone; detection TurnDetectionServerVAD; detection TurnDetectionSemanticVAD]
    [[RealtimeOutputAudio]; [RealtimeOutputText]]
    [RealtimeToolChoiceAuto; RealtimeToolChoiceNone; RealtimeToolChoiceRequired; RealtimeToolChoiceFunction]
    (Some 4096%Z) true.

Definition xAIRealtimeParameters : RealtimeParameters :=
  mkParameters
    [mkDetection TurnDetectionNone false None [UnitAudioInputMilliseconds; UnitAudioOutputMilliseconds; UnitRequests];
     mkDetection TurnDetectionServerVAD true
       (Some (mkRange (f64_div (f64_of_Z 1) (f64_of_Z 10)) (f64_div (f64_of_Z 9) (f64_of_Z 10))))
       [UnitRequests; UnitSessionMilliseconds]]
    [[RealtimeOutputAudio]; [RealtimeOutputAudio; RealtimeOutputText]]
    [RealtimeToolChoiceAuto] None false.

Example both_statements_validate :
  Parameters_Validate openAIRealtimeParameters = None /\ Parameters_Validate xAIRealtimeParameters = None.
Proof. vm_compute. done. Qed.

(** ** What is servable *)

(** A choice as the contract decodes one: a named function, or a mode. *)
Definition choice_stated (c : ToolChoice) : Prop :=
  choice_Function c <> None \/ exists mode, choice_Mode c = Some mode /\
    mode ∈ [RealtimeToolChoiceAuto; RealtimeToolChoiceNone; RealtimeToolChoiceRequired].

Lemma choice_stated_kind c : choice_stated c -> RealtimeToolChoiceOf c ∈ realtimeToolChoiceValues.
Proof.
  unfold RealtimeToolChoiceOf. intros [H|(mode & -> & H)].
  - destruct (choice_Function c); [|done]. vm_compute. set_solver.
  - destruct (choice_Function c); cbn; [vm_compute; set_solver|].
    unfold realtimeToolChoiceValues. set_solver.
Qed.

(** What a servable configuration can rely on: its turn detection runs on the
    wire, as itself or as server_vad for a semantic one, with the responses it
    asks for; its tool choice is one the wire names, or none for a session; a
    cap is only set where the wire takes one. *)
Record translatable (prefix : string) (fields : RealtimeConfigFields) (p : RealtimeParameters) : Prop := {
  tr_detection : forall d, f_TurnDetection fields = Some d ->
    exists served, WireTurnDetection (td_Type d) p = Some served /\
      (FixedResponses served = true -> CreateResponse d = Some true /\ InterruptResponse d = Some true);
  tr_choice : forall c, f_ToolChoice fields = Some c ->
    RealtimeToolChoiceOf c ∈ rp_ToolChoices p \/ RealtimeToolChoiceOf c = RealtimeToolChoiceNone /\ prefix = "config";
  tr_cap : f_MaxOutputTokens fields <> None -> rp_MaxTokens p <> None;
}.

Lemma issue_of_nil {A} (f : A -> option RealtimeParameterIssue) field :
  issue_of f field = [] <-> forall x, field = Some x -> f x = None.
Proof.
  unfold issue_of, option_list. destruct field as [x|]; [|naive_solver]. destruct (f x) eqn:E; naive_solver.
Qed.

Lemma off_false switch : off switch = false <-> switch = Some true.
Proof. destruct switch as [[]|]; naive_solver. Qed.

Lemma detection_issue_None p d :
  detection_issue p d = None <->
  exists served, WireTurnDetection (td_Type d) p = Some served /\
    (FixedResponses served = true -> CreateResponse d = Some true /\ InterruptResponse d = Some true).
Proof.
  unfold detection_issue. destruct (WireTurnDetection _ _) as [served|].
  2: { split; [done|]. by intros (? & ? & _). }
  destruct (FixedResponses served) eqn:EF; cbn [andb].
  2: { split; [|done]. intros _. exists served. split; [done|]. by rewrite EF. }
  destruct (off (CreateResponse d)) eqn:E1; [|destruct (off (InterruptResponse d)) eqn:E2]; (split; [try done|]).
  - intros (s & [= <-] & H). destruct (H EF) as [Hc _]. apply off_false in Hc. congruence.
  - intros (s & [= <-] & H). destruct (H EF) as [_ Hi]. apply off_false in Hi. congruence.
  - intros _. exists served. split; [done|]. intros _. split; by apply off_false.
  - done.
Qed.

Lemma choice_issue_None prefix p c :
  choice_issue prefix p c = None <->
  RealtimeToolChoiceOf c ∈ rp_ToolChoices p \/ RealtimeToolChoiceOf c = RealtimeToolChoiceNone /\ prefix = "config".
Proof.
  unfold choice_issue. rewrite <-isMember_spec.
  rewrite <-(String.eqb_eq _ RealtimeToolChoiceNone), <-(String.eqb_eq prefix "config").
  destruct (isMember _ _), (_ =s RealtimeToolChoiceNone), (prefix =s "config"); cbn; naive_solver.
Qed.

Lemma Unservable_nil prefix fields p : Unservable prefix fields p = [] <-> translatable prefix fields p.
Proof.
  unfold Unservable. split.
  - intros H%fmap_nil_inv. apply app_nil in H as [H1 H]. apply app_nil in H as [H2 H3].
    pose proof (proj1 (issue_of_nil _ _) H1) as Hd. pose proof (proj1 (issue_of_nil _ _) H2) as Hc.
    pose proof (proj1 (issue_of_nil _ _) H3) as Hm. clear H1 H2 H3. constructor.
    + intros d E. by apply detection_issue_None, Hd.
    + intros c E. by apply choice_issue_None, Hc.
    + destruct (f_MaxOutputTokens fields) as [n|]; [|done]. specialize (Hm n eq_refl). unfold cap_issue in Hm.
      by destruct (rp_MaxTokens p).
  - intros [H1 H2 H3]. rewrite (proj2 (issue_of_nil _ _)), (proj2 (issue_of_nil _ _)), (proj2 (issue_of_nil _ _)); [done|..].
    + intros n Hn. unfold cap_issue. destruct (rp_MaxTokens p); [done|]. exfalso. by apply H3; [rewrite Hn|].
    + intros c Hc. by apply choice_issue_None, H2.
    + intros d Hd. by apply detection_issue_None, H1.
Qed.

Lemma valid_detection_types c : SessionConfig_validate c = None -> td_Type (cfg_TurnDetection c) ∈ realtimeTurnDetectionTypeValues.
Proof.
  intros H. assert (Ht : TurnDetection_validate (cfg_TurnDetection c) = None).
  { unfold SessionConfig_validate in H. repeat apply or_else_None in H as [? H]. done. }
  unfold TurnDetection_validate in Ht. unfold realtimeTurnDetectionTypeValues.
  destruct (_ =s TurnDetectionNone) eqn:E1; [bool_cases; rewrite E1; set_solver|].
  destruct (_ =s TurnDetectionServerVAD) eqn:E2; [bool_cases; rewrite E2; set_solver|].
  destruct (_ =s TurnDetectionSemanticVAD) eqn:E3; [bool_cases; rewrite E3; set_solver|]. done.
Qed.

(** Of every valid session configuration, OpenAI's wire serves each, and
    xAI's exactly those whose detected turns are always answered and
    interruptible, that force no tool call and set no cap on a response. *)
Theorem unservable_is_the_reviewed_difference c :
  SessionConfig_validate c = None -> (forall choice, cfg_ToolChoice c = Some choice -> choice_stated choice) ->
  Unservable "config" (session_Fields c) openAIRealtimeParameters = [] /\
  (Unservable "config" (session_Fields c) xAIRealtimeParameters = [] <->
   (td_Type (cfg_TurnDetection c) <> TurnDetectionNone ->
      CreateResponse (cfg_TurnDetection c) = Some true /\ InterruptResponse (cfg_TurnDetection c) = Some true) /\
   (forall choice, cfg_ToolChoice c = Some choice ->
      RealtimeToolChoiceOf choice ∈ [RealtimeToolChoiceAuto; RealtimeToolChoiceNone]) /\
   cfg_MaxOutputTokens c = None).
Proof.
  intros Hv Hc. apply valid_detection_types in Hv. rewrite !Unservable_nil.
  set (d := cfg_TurnDetection c) in *. unfold realtimeTurnDetectionTypeValues in Hv. split.
  - constructor; cbn [session_Fields f_TurnDetection f_ToolChoice f_MaxOutputTokens].
    + intros d' [= <-]. fold d. rewrite !elem_of_cons in Hv.
      destruct Hv as [E|[E|[E|E]]]; [rewrite E; eexists; split; [reflexivity|done]..|by apply not_elem_of_nil in E].
    + intros choice Hch. left. apply choice_stated_kind, Hc, Hch.
    + intros _. done.
  - split.
    + intros [H1 H2 H3]. cbn [session_Fields f_TurnDetection f_ToolChoice f_MaxOutputTokens] in *. split_and!.
      * intros Hne. destruct (H1 _ eq_refl) as (served & Hs & Hf). fold d in Hs, Hf. apply Hf.
        rewrite !elem_of_cons in Hv.
        destruct Hv as [E|[E|[E|E]]]; [done|rewrite E in Hs; injection Hs as <-; done..|by apply not_elem_of_nil in E].
      * intros choice Hch. specialize (H2 _ Hch). cbn in H2. set_solver.
      * destruct (cfg_MaxOutputTokens c); [|done]. exfalso. by apply H3.
    + intros (H1 & H2 & H3). constructor; cbn [session_Fields f_TurnDetection f_ToolChoice f_MaxOutputTokens].
      * intros d' [= <-]. fold d. rewrite !elem_of_cons in Hv.
        destruct Hv as [E|[E|[E|E]]]; [..|by apply not_elem_of_nil in E].
        -- rewrite E. eexists. split; [reflexivity|done].
        -- rewrite E. eexists. split; [reflexivity|]. intros _. apply H1. by rewrite E.
        -- rewrite E. eexists. split; [reflexivity|]. intros _. apply H1. by rewrite E.
      * intros choice Hch. specialize (H2 _ Hch). cbn. set_solver.
      * by rewrite H3.
Qed.

Lemma WireOutputModalities_served p asked wire :
  p ∈ [openAIRealtimeParameters; xAIRealtimeParameters] -> WireOutputModalities asked p = Some wire ->
  ServesOutputModalities wire p = true /\ (asked = Some wire \/ wire = [RealtimeOutputAudio]).
Proof.
  intros Hp. unfold WireOutputModalities. destruct asked as [asked|]; [|done].
  destruct (ServesOutputModalities asked p) eqn:E; intros [= <-]; [by auto|]. split; [|by right].
  rewrite !elem_of_cons in Hp. destruct Hp as [->|[->|Hp%not_elem_of_nil]]; [vm_compute; done..|done].
Qed.

(** What either wire is asked for is a set of modalities it takes,
    whatever the client asked for, and it is what the client asked for, or
    speech. *)
Theorem wire_modalities_are_served p asked :
  p ∈ [openAIRealtimeParameters; xAIRealtimeParameters] ->
  exists wire, WireOutputModalities (Some asked) p = Some wire /\ ServesOutputModalities wire p = true /\
    (wire = asked \/ wire = [RealtimeOutputAudio]).
Proof.
  intros Hp. assert (H : exists wire, WireOutputModalities (Some asked) p = Some wire).
  { unfold WireOutputModalities. destruct (ServesOutputModalities asked p); by eexists. }
  destruct H as (wire & Hw). exists wire. destruct (WireOutputModalities_served p _ _ Hp Hw) as [Hs Ho].
  split; [done|]. split; [done|]. destruct Ho as [[= ->]|Ho]; auto.
Qed.

Definition push_to_talk : RealtimeTurnDetection := mkTurnDetection TurnDetectionNone None None None None None None.

Definition example_config : RealtimeSessionConfig :=
  mkSessionConfig None (Some ["text"]) None RealtimePCM16 None push_to_talk None None None None None.

Lemma unservable_is_the_reviewed_difference_witness :
  Unservable "config" (session_Fields example_config) openAIRealtimeParameters = [] /\
  Unservable "config" (session_Fields example_config) xAIRealtimeParameters = [].
Proof.
  assert (Hv : SessionConfig_validate example_config = None) by (vm_compute; reflexivity).
  assert (Hc : forall choice, cfg_ToolChoice example_config = Some choice -> choice_stated choice) by discriminate.
  destruct (unservable_is_the_reviewed_difference example_config Hv Hc) as [Ho Hx]. split; [exact Ho|].
  apply Hx. split; [intros H; contradiction H; reflexivity|]. split; [discriminate|reflexivity].
Defined.

Lemma wire_modalities_are_served_witness :
  exists wire, WireOutputModalities (Some ["text"]) xAIRealtimeParameters = Some wire /\ wire = [RealtimeOutputAudio].
Proof.
  assert (Hp : xAIRealtimeParameters ∈ [openAIRealtimeParameters; xAIRealtimeParameters]).
  { apply list_elem_of_further, list_elem_of_here. }
  destruct (wire_modalities_are_served xAIRealtimeParameters ["text"] Hp) as (wire & Hw & _ & [->| ->]).
  - vm_compute in Hw. discriminate.
  - eexists. split; [exact Hw|reflexivity].
Defined.
