(* ===== verification/Meter.v ===== *)
(** * The session meter (internal/provider/openairealtime/meter.go)

    A provider that bills a session by its clock, or by the audio that went
    each way, is metered by Kaana: what a command is billed is decided before
    it is written and counted once it has been. *)

From S2P Require Import Prelude Ids Text Contract Request PublicContract RealtimeContract.

(** Decoded bytes per second; 0 for no audio format. *)
Definition bytesPerSecond (format : string) : Z :=
  if format =s RealtimePCM16 then 48000
  else if (format =s RealtimeULaw) || (format =s RealtimeALaw) then 8000
  else 0.

Record measurement := mkMeasurement { inputBytes : Z; textInput : bool }.
Definition nothing_billed : measurement := mkMeasurement 0 false.

Record meter := mkMeter {
  inputRate : Z;
  outputRate : Z;
  m_inputBytes : Z;
  outBytes : Z;
  textInputs : Z;
  clock : bool;
  openedAt : Instant;
  endedAt : Instant;          (* zero until the upstream is known to be over *)
}.

Definition newMeter (config : RealtimeSessionConfig) (output : option string) (clock : bool) (openedAt : Instant) : meter :=
  mkMeter (bytesPerSecond (InputAudioFormat config)) match output with Some f => bytesPerSecond f | None => 0%Z end
    0 0 0 clock openedAt 0.

(** [end]: the first end stays. *)
Definition end_ (now : Instant) (m : meter) : meter :=
  if IsZero (endedAt m)
  then mkMeter (inputRate m) (outputRate m) (m_inputBytes m) (outBytes m) (textInputs m) (clock m) (openedAt m) now
  else m.

(** The loop over an item's parts: its decoded audio, and whether it has
    anything else. *)
Definition measure_part (part : RealtimeContentPart) (acc : Z * bool) : Z * bool :=
  if (cp_Type part =s RealtimeInputAudioPart) || (cp_Type part =s RealtimeOutputAudioPart)
  then match cp_Data part with
       | Some data => (wrap64 (acc.1 + DecodedRealtimeAudioBytes data), acc.2)
       | None => acc
       end
  else (acc.1, true).

Definition measure_parts (parts : list RealtimeContentPart) : Z * bool :=
  foldl (fun acc part => measure_part part acc) (0%Z, false) parts.

(** [meter.measure]: nothing is the refusal of an item that carries both. *)
Definition measure (command : RealtimeCommand) : option measurement :=
  match command with
  | CmdInputAudioAppend _ data => Some (mkMeasurement (DecodedRealtimeAudioBytes data) false)
  | CmdItemCreate _ _ item =>
      if item_Type item =s RealtimeFunctionCallOutputItem then Some nothing_billed
      else
        let '(audio, text) := measure_parts (default [] (item_Content item)) in
        if (0 <? audio)%Z && text then None
        else if (0 <? audio)%Z then Some (mkMeasurement audio false)
        else Some (mkMeasurement 0 true)
  | _ => Some nothing_billed
  end.

Definition record (billed : measurement) (m : meter) : meter :=
  mkMeter (inputRate m) (outputRate m) (wrap64 (m_inputBytes m + inputBytes billed)) (outBytes m)
    (if textInput billed then wrap64 (textInputs m + 1) else textInputs m) (clock m) (openedAt m) (endedAt m).

Definition output (decoded : Z) (m : meter) : meter :=
  mkMeter (inputRate m) (outputRate m) (m_inputBytes m) (wrap64 (outBytes m + decoded)) (textInputs m) (clock m)
    (openedAt m) (endedAt m).

Definition milliseconds (bytes rate : Z) : Z := Z.quot (wrap64 (wrap64 (wrap64 (bytes * 1000) + rate) - 1)) rate.

(** A unit that is only reported when there is some. *)
Definition reported (counts : bool) (unit : string) (quantity : Z) : list UsageQuantity :=
  if counts then [mkQuantity unit quantity] else [].

(** [meter.units]. *)
Definition units (now : Instant) (m : meter) : list UsageQuantity :=
  let requests := reported (0 <? textInputs m)%Z UnitRequests (textInputs m) in
  if clock m then
    let ended := if IsZero (endedAt m) then now else endedAt m in
    let open := Sub ended (openedAt m) in
    reported (0 <? open)%Z UnitSessionMilliseconds (Z.quot (wrap64 (wrap64 (open + Millisecond) - 1)) Millisecond)
    ++ requests
  else
    reported ((0 <? m_inputBytes m) && (0 <? inputRate m))%Z UnitAudioInputMilliseconds
      (milliseconds (m_inputBytes m) (inputRate m))
    ++ reported ((0 <? outBytes m) && (0 <? outputRate m))%Z UnitAudioOutputMilliseconds
         (milliseconds (outBytes m) (outputRate m))
    ++ requests.

(** ** A session of the meter *)

Inductive Op := Recorded (billed : measurement) | Heard (decoded : Z) | Ended (now : Instant).

Definition apply_op (op : Op) (m : meter) : meter :=
  match op with Recorded b => record b m | Heard n => output n m | Ended t => end_ t m end.

Definition run (ops : list Op) (m : meter) : meter := foldl (fun m op => apply_op op m) m ops.

(** What was sent, heard and asked in it, and when it first ended. *)
Definition sent_bytes (op : Op) : Z := match op with Recorded b => inputBytes b | _ => 0%Z end.
Definition heard_bytes (op : Op) : Z := match op with Heard n => n | _ => 0%Z end.
Definition texts (op : Op) : Z := match op with Recorded b => if textInput b then 1%Z else 0%Z | _ => 0%Z end.
Definition total (f : Op -> Z) (ops : list Op) : Z := foldr (fun op n => f op + n)%Z 0%Z ops.
Definition end_of (op : Op) : option Instant := match op with Ended t => Some t | _ => None end.
Definition first_end (ops : list Op) : option Instant := head (omap end_of ops).

(** Rounded up. *)
Definition ceil_div (n d : Z) : Z := (- ((- n) / d))%Z.

(** What a session's operations hold: counts, and instants the clock gives. *)
Definition op_ok (op : Op) : Prop :=
  match op with Recorded b => (0 <= inputBytes b)%Z | Heard n => (0 <= n)%Z | Ended t => (0 < t)%Z end.

Lemma total_nonneg f ops : Forall op_ok ops -> (forall op, op_ok op -> 0 <= f op)%Z -> (0 <= total f ops)%Z.
Proof.
  intros H Hf. induction H as [|op ops Hop _ IH]; [done|]. change (0 <= f op + total f ops)%Z.
  specialize (Hf op Hop). lia.
Qed.

Lemma sent_bytes_nonneg op : op_ok op -> (0 <= sent_bytes op)%Z.
Proof. by destruct op. Qed.
Lemma heard_bytes_nonneg op : op_ok op -> (0 <= heard_bytes op)%Z.
Proof. by destruct op. Qed.
Lemma texts_nonneg op : op_ok op -> (0 <= texts op)%Z.
Proof. destruct op as [b| |]; cbn; try done. by destruct (textInput b). Qed.

(** Sums that stay exact. *)
Definition exact (z : Z) : Prop := (z < 2 ^ 50)%Z.

Lemma wrap64_exact z : (0 <= z)%Z -> (z < 2 ^ 62)%Z -> wrap64 z = z.
Proof. intros. apply wrap64_id. unfold in_int64, int64_min, int64_max. lia. Qed.

(** The meter is what its operations add up to. *)
Lemma run_totals ops m :
  Forall op_ok ops -> (0 <= m_inputBytes m)%Z -> (0 <= outBytes m)%Z -> (0 <= textInputs m)%Z ->
  exact (m_inputBytes m + total sent_bytes ops) -> exact (outBytes m + total heard_bytes ops) ->
  exact (textInputs m + total texts ops) ->
  run ops m =
  mkMeter (inputRate m) (outputRate m) (m_inputBytes m + total sent_bytes ops) (outBytes m + total heard_bytes ops)
    (textInputs m + total texts ops) (clock m) (openedAt m)
    (if IsZero (endedAt m) then default 0%Z (first_end ops) else endedAt m).
Proof.
  intros Hok. revert m. induction Hok as [|op ops Hop Hok IH]; intros m H1 H2 H3 B1 B2 B3.
  { unfold run, total. cbn. rewrite !Z.add_0_r. destruct m as [? ? ? ? ? ? ? e]. cbn. unfold IsZero.
    destruct (Z.eqb_spec e 0); by subst. }
  change (run (op :: ops) m) with (run ops (apply_op op m)).
  change (total sent_bytes (op :: ops)) with (sent_bytes op + total sent_bytes ops)%Z in *.
  change (total heard_bytes (op :: ops)) with (heard_bytes op + total heard_bytes ops)%Z in *.
  change (total texts (op :: ops)) with (texts op + total texts ops)%Z in *.
  pose proof (total_nonneg _ _ Hok sent_bytes_nonneg). pose proof (total_nonneg _ _ Hok heard_bytes_nonneg).
  pose proof (total_nonneg _ _ Hok texts_nonneg). unfold exact in *.
  destruct op as [b|n|t]; cbn [apply_op sent_bytes heard_bytes texts op_ok] in *.
  - assert (Ht : (if textInput b then wrap64 (textInputs m + 1) else textInputs m)
      = (textInputs m + if textInput b then 1 else 0)%Z).
    { destruct (textInput b); [rewrite wrap64_exact; lia|lia]. }
    unfold record. rewrite Ht, wrap64_exact by lia. rewrite IH; cbn; try (destruct (textInput b); lia).
    f_equal; lia.
  - unfold output. rewrite wrap64_exact by lia. rewrite IH; cbn; try lia. f_equal; lia.
  - rewrite IH; unfold end_; destruct (IsZero (endedAt m)) eqn:E; cbn; try lia; try done.
    + unfold IsZero. rewrite (proj2 (Z.eqb_neq t 0)) by lia. f_equal; lia.
    + rewrite E. f_equal; lia.
Qed.

Lemma quot_ceil n d : (0 < n)%Z -> (0 < d)%Z -> Z.quot (n + d - 1) d = ceil_div n d.
Proof.
  intros Hn Hd. rewrite Z.quot_div_nonneg by lia. unfold ceil_div.
  pose proof (Z.div_mod n d ltac:(lia)). pose proof (Z.mod_pos_bound n d ltac:(lia)).
  destruct (Z.eq_dec (n mod d)%Z 0%Z) as [E|E].
  - rewrite Z.div_opp_l_z by lia. rewrite Z.opp_involutive.
    replace (n + d - 1)%Z with ((n / d) * d + (d - 1))%Z by lia. rewrite Z.div_add_l by lia.
    rewrite (Z.div_small (d - 1)) by lia. lia.
  - rewrite Z.div_opp_l_nz by lia. replace (n + d - 1)%Z with ((n / d + 1) * d + (n mod d - 1))%Z by lia.
    rewrite Z.div_add_l by lia. rewrite (Z.div_small (n mod d - 1)) by lia. lia.
Qed.

Lemma milliseconds_ceil bytes rate :
  (0 < bytes)%Z -> exact bytes -> (0 < rate <= 48000)%Z -> milliseconds bytes rate = ceil_div (bytes * 1000) rate.
Proof.
  intros Hb He Hr. unfold milliseconds, exact in *.
  rewrite (wrap64_exact (bytes * 1000)), (wrap64_exact (_ + rate)), wrap64_exact by lia. apply quot_ceil; lia.
Qed.

(** What a session is billed, by the clock or by its audio and never both. *)
Definition billed (input_rate output_rate : Z) (clock : bool) (opened now : Instant) (ops : list Op) : list UsageQuantity :=
  let requests := reported (0 <? total texts ops)%Z UnitRequests (total texts ops) in
  if clock then
    let open := (default now (first_end ops) - opened)%Z in
    reported (0 <? open)%Z UnitSessionMilliseconds (ceil_div open Millisecond) ++ requests
  else
    let sent := total sent_bytes ops in let heard := total heard_bytes ops in
    reported ((0 <? sent) && (0 <? input_rate))%Z UnitAudioInputMilliseconds (ceil_div (sent * 1000) input_rate)
    ++ reported ((0 <? heard) && (0 <? output_rate))%Z UnitAudioOutputMilliseconds (ceil_div (heard * 1000) output_rate)
    ++ requests.

Lemma first_end_pos ops t : Forall op_ok ops -> first_end ops = Some t -> (0 < t)%Z.
Proof.
  intros H. unfold first_end. induction H as [|op ops Hop _ IH]; [done|].
  destruct op; cbn [omap list_omap end_of head]; [exact IH..|]. by intros [= <-].
Qed.

Lemma reported_ext b unit q q' : (b = true -> q = q') -> reported b unit q = reported b unit q'.
Proof. intros H. destruct b; [|done]. by rewrite H. Qed.

Lemma bytesPerSecond_range f : (0 <= bytesPerSecond f <= 48000)%Z.
Proof. unfold bytesPerSecond. repeat case_match; lia. Qed.

(** A metered session is billed by exactly one of its clock and its audio,
    fixed when it opened: the clock from the handshake to the first end, or
    the total audio each way, rounded up once over the session, and one
    request for each text item. *)
Theorem meter_bills_each_session_once config out clock_billed opened now ops :
  Forall op_ok ops -> (0 < opened < 2 ^ 61)%Z -> (0 < now < 2 ^ 61)%Z ->
  (forall t, first_end ops = Some t -> t < 2 ^ 61)%Z ->
  exact (total sent_bytes ops) -> exact (total heard_bytes ops) -> exact (total texts ops) ->
  units now (run ops (newMeter config out clock_billed opened)) =
  billed (bytesPerSecond (InputAudioFormat config)) (match out with Some f => bytesPerSecond f | None => 0%Z end)
    clock_billed opened now ops.
Proof.
  intros Hok Ho Hn He B1 B2 B3.
  rewrite run_totals; cbn [newMeter inputRate outputRate m_inputBytes outBytes textInputs clock openedAt endedAt];
    try done; try lia.
  rewrite !Z.add_0_l. unfold units, billed.
  cbn [inputRate outputRate m_inputBytes outBytes textInputs clock openedAt endedAt].
  destruct clock_billed.
  - change (IsZero 0) with true. cbn iota.
    assert (Hend : (if IsZero (default 0%Z (first_end ops)) then now else default 0%Z (first_end ops))
      = default now (first_end ops)).
    { destruct (first_end ops) as [t|] eqn:E; cbn; [|done]. apply first_end_pos in E; [|done]. unfold IsZero.
      by rewrite (proj2 (Z.eqb_neq t 0)) by lia. }
    rewrite Hend.
    assert (Hd : (0 < default now (first_end ops) < 2 ^ 61)%Z).
    { destruct (first_end ops) as [t|] eqn:E; cbn; [|lia]. pose proof (first_end_pos _ _ Hok E). specialize (He t eq_refl). lia. }
    rewrite Sub_id by (unfold in_int64, int64_min, int64_max; lia). f_equal. apply reported_ext. intros Hpos. bool_cases.
    unfold Millisecond. rewrite (wrap64_exact (_ + _)), wrap64_exact by lia. apply quot_ceil; lia.
  - pose proof (bytesPerSecond_range (InputAudioFormat config)).
    assert (0 <= match out with Some f => bytesPerSecond f | None => 0 end <= 48000)%Z.
    { destruct out as [f|]; [apply bytesPerSecond_range|lia]. }
    f_equal; [|f_equal]; apply reported_ext; intros Hpos; bool_cases; apply milliseconds_ceil; try done; lia.
Qed.

(** What a command is billed is decided by what it carries: appended audio
    by its length, an item by its audio or as one request, a tool's output and
    everything else by nothing; an item that carries both is refused. *)
Theorem commands_are_measured_by_what_they_carry command m :
  measure command = Some m ->
  (0 < inputBytes m -> textInput m = false)%Z /\
  match command with
  | CmdInputAudioAppend _ data => m = mkMeasurement (DecodedRealtimeAudioBytes data) false
  | CmdItemCreate _ _ item =>
      let '(audio, other) := measure_parts (default [] (item_Content item)) in
      if item_Type item =s RealtimeFunctionCallOutputItem then m = nothing_billed
      else if (0 <? audio)%Z then m = mkMeasurement audio false /\ other = false else m = mkMeasurement 0 true
  | _ => m = nothing_billed
  end.
Proof.
  unfold measure. destruct command as [| | | | | | | | | |]; try (intros [= <-]; done).
  destruct (measure_parts _) as [audio other]. destruct (_ =s _); [by intros [= <-]|].
  destruct (0 <? audio)%Z eqn:E, other; cbn [andb]; intros [= <-]; (split; [|done]); try done.
Qed.

Definition example_ops : list Op :=
  [Recorded (mkMeasurement 24001 false); Heard 48000; Recorded (mkMeasurement 0 true); Ended 5000000000; Ended 9000000000].

Lemma meter_bills_each_session_once_witness :
  let config := mkSessionConfig None None None RealtimePCM16 None
    (mkTurnDetection TurnDetectionNone None None None None None None) None None None None None in
  units 10000000000 (run example_ops (newMeter config (Some RealtimePCM16) false 1000000000)) =
    [mkQuantity UnitAudioInputMilliseconds 501; mkQuantity UnitAudioOutputMilliseconds 1000; mkQuantity UnitRequests 1] /\
  units 10000000000 (run example_ops (newMeter config (Some RealtimePCM16) true 1000000001)) =
    [mkQuantity UnitSessionMilliseconds 4000; mkQuantity UnitRequests 1].
Proof.
  assert (Hok : Forall op_ok example_ops).
  { unfold example_ops. repeat (apply Forall_cons; split; [vm_compute; (reflexivity || discriminate)|]). constructor. }
  assert (He : forall t, first_end example_ops = Some t -> (t < 2 ^ 61)%Z) by (intros t H; injection H as <-; reflexivity).
  intros config. split.
  - rewrite (meter_bills_each_session_once config (Some RealtimePCM16) false 1000000000 10000000000 example_ops Hok
      ltac:(lia) ltac:(lia) He); vm_compute; reflexivity.
  - rewrite (meter_bills_each_session_once config (Some RealtimePCM16) true 1000000001 10000000000 example_ops Hok
      ltac:(lia) ltac:(lia) He); vm_compute; reflexivity.
Defined.
