(* ===== verification/InputTranscript.v ===== *)
(** * The caller's transcript
    (internal/provider/openairealtime/session.go: inputItem, inputBegun,
    inputRunning, ownText, wordKey, inputCommitted, inputTranscript)

    A provider transcribes the caller's speech in its own way: one completed
    transcript per item, or a running one revised at every pause, repeated,
    and carried into the items that follow.  The client is told each item's
    own words once: deltas that append, then one final transcript. *)

From S2P Require Import Prelude Ids Text Contract Request PublicContract RealtimeContract.

Definition RealtimeTranscriptInput := "input_audio".

(** [provider.RealtimeUpstreamEvent] (internal/provider/realtime.go). *)
Record UpstreamEvent := mkUpstreamEvent {
  up_Event : option RealtimeServerEvent;
  up_CommandID : option string;
  up_Units : list UsageQuantity;
}.

Definition unanswered (event : RealtimeServerEvent) : UpstreamEvent := mkUpstreamEvent (Some event) None [].
Definition one (event : RealtimeServerEvent) : list UpstreamEvent := [unanswered event].

(** Items are shared by pointer; here an item is named by its id, under which
    [s.inputs] holds it for as long as the session lasts. *)
Record inputItem := mkInputItem {
  committed : bool;
  transcribed : string;
  carried : option string;
  text : string;
  done : bool;
  ii_contentIndex : Z;
}.

Record transcripts := mkTranscripts {
  inputs : gmap string inputItem;
  awaiting : list string;
  lastInput : option string;
  responseEnded : bool;
}.

Definition no_transcripts : transcripts := mkTranscripts ∅ [] None false.

Definition set_item (id : string) (item : inputItem) (s : transcripts) : transcripts :=
  mkTranscripts (<[id := item]> (inputs s)) (awaiting s) (lastInput s) (responseEnded s).
Definition set_awaiting (ids : list string) (s : transcripts) : transcripts :=
  mkTranscripts (inputs s) ids (lastInput s) (responseEnded s).
Definition set_responseEnded (ended : bool) (s : transcripts) : transcripts :=
  mkTranscripts (inputs s) (awaiting s) (lastInput s) ended.

Definition set_transcribed (t : string) (i : inputItem) : inputItem :=
  mkInputItem (committed i) t (carried i) (text i) (done i) (ii_contentIndex i).
Definition set_text (t : string) (i : inputItem) : inputItem :=
  mkInputItem (committed i) (transcribed i) (carried i) t (done i) (ii_contentIndex i).
Definition set_done (i : inputItem) : inputItem :=
  mkInputItem (committed i) (transcribed i) (carried i) (text i) true (ii_contentIndex i).
Definition set_committed (i : inputItem) : inputItem :=
  mkInputItem true (transcribed i) (carried i) (text i) (done i) (ii_contentIndex i).

(** ** Words *)

Definition skip (n : Z) (s : string) : string := String.substring (Z.to_nat n) (Z.to_nat (len s - n)) s.

(** [strings.TrimLeftFunc(s, unicode.IsSpace)]. *)
Definition TrimLeft (s : string) : string := skip (leading_spaces (runes s)) s.

(** The bytes before the first space, or all of them. *)
Fixpoint word_length (rs : list (Z * Z)) : Z :=
  match rs with
  | (r, size) :: rs => if IsSpace r then 0%Z else (size + word_length rs)%Z
  | [] => 0%Z
  end.

Definition word_end (s : string) : Z := word_length (runes s).
Definition first_word (s : string) : string := String.substring 0 (Z.to_nat (word_end s)) s.

(** [strings.Fields]: a word takes at least a byte, so the length is fuel
    enough. *)
Fixpoint fields_loop (fuel : nat) (s : string) : list string :=
  match fuel with
  | O => []
  | S fuel =>
      let s := TrimLeft s in
      if s =s "" then [] else first_word s :: fields_loop fuel (skip (word_end s) s)
  end.

Definition Fields (s : string) : list string := fields_loop (S (String.length s)) s.

(** [utf8.AppendRune] of a code point. *)
Definition char (z : Z) : string := String (Ascii.ascii_of_N (Z.to_N z)) "".
Definition encode_rune (r : Z) : string :=
  if (r <? 128)%Z then char r
  else if (r <? 2048)%Z then char (Z.lor 192 (Z.shiftr r 6)) +:+ char (Z.lor 128 (Z.land r 63))
  else if (r <? 65536)%Z
  then char (Z.lor 224 (Z.shiftr r 12)) +:+ char (Z.lor 128 (Z.land (Z.shiftr r 6) 63)) +:+ char (Z.lor 128 (Z.land r 63))
  else char (Z.lor 240 (Z.shiftr r 18)) +:+ char (Z.lor 128 (Z.land (Z.shiftr r 12) 63))
       +:+ char (Z.lor 128 (Z.land (Z.shiftr r 6) 63)) +:+ char (Z.lor 128 (Z.land r 63)).

(** The tables of [unicode]: which code points are letters and digits, and
    their lower case. *)
Class UnicodeTables := {
  IsLetter : Z -> bool;
  IsDigit : Z -> bool;
  ToLower : Z -> Z;
}.

(** The ASCII part of the tables. *)
Definition between (lo hi r : Z) : bool := (lo <=? r)%Z && (r <=? hi)%Z.
Definition ascii_tables : UnicodeTables :=
  {| IsLetter := fun r => between 65 90 r || between 97 122 r;
     IsDigit := between 48 57;
     ToLower := fun r => if between 65 90 r then (r + 32)%Z else r |}.

Section Transcripts.
Context {tables : UnicodeTables}.
(** [continuesInterruptedTurns] of the dialect. *)
Context (continues : bool).

(** [strings.Map] with the mapping of [wordKey]. *)
Definition wordKey (word : string) : string :=
  foldr (fun r acc => if IsLetter r.1 || IsDigit r.1 then encode_rune (ToLower r.1) +:+ acc else acc) "" (runes word).

(** The loop of [ownText] over the carried words: the rest of the transcript
    after them; nothing yet ([Some ""]) when it ends inside them; or none when
    it no longer starts with them. *)
Fixpoint after_words (words : list string) (rest : string) : option string :=
  match words with
  | [] => Some (TrimLeft rest)
  | word :: words =>
      let rest := TrimLeft rest in
      let heard := wordKey (first_word rest) in
      if heard =s wordKey word then after_words words (skip (word_end rest) rest)
      else if (word_end rest =? len rest)%Z && HasPrefix heard (wordKey word) then Some ""
      else None
  end.

Definition ownText (item : inputItem) (s : transcripts) : string :=
  match carried item with
  | None => transcribed item
  | Some id =>
      let words := match inputs s !! id with Some other => Fields (transcribed other) | None => [] end in
      default (transcribed item) (after_words words (transcribed item))
  end.

(** [session.inputItem]: the item, begun now if it is new. *)
Definition begin_item (id : string) (contentIndex : Z) (s : transcripts) : inputItem * transcripts :=
  match inputs s !! id with
  | Some item => (item, s)
  | None =>
      let item := mkInputItem false "" (if continues && negb (responseEnded s) then lastInput s else None) "" false contentIndex in
      (item, mkTranscripts (<[id := item]> (inputs s)) (awaiting s) (Some id) false)
  end.

Definition inputBegun (transcribing : bool) (id : string) (s : transcripts) : transcripts :=
  if negb transcribing || (id =s "") then s else snd (begin_item id 0 s).

Definition delta_of (id : string) (item : inputItem) (delta : string) : RealtimeServerEvent :=
  EvTranscriptDelta RealtimeTranscriptInput id (ii_contentIndex item) None delta.
Definition done_of (id : string) (item : inputItem) (transcript : string) : RealtimeServerEvent :=
  EvTranscriptDone RealtimeTranscriptInput id (ii_contentIndex item) None transcript.

(** [session.inputRunning]. *)
Definition inputRunning (id : string) (contentIndex : Z) (next : string -> string) (s : transcripts)
  : list RealtimeServerEvent * transcripts :=
  if id =s "" then ([], s)
  else
    let '(item, s) := begin_item id contentIndex s in
    if done item then ([], s)
    else
      let item := set_transcribed (next (transcribed item)) item in
      let s := set_item id item s in
      let own := ownText item s in
      match CutPrefix own (text item) with
      | Some delta =>
          if delta =s "" then ([], s) else ([delta_of id item delta], set_item id (set_text own item) s)
      | None => ([], s)
      end.

(** One item of [inputCommitted]'s loop, with the finals and the items still
    awaiting so far. *)
Definition settle_awaiting (id other : string) (acc : list RealtimeServerEvent * list string * transcripts)
  : list RealtimeServerEvent * list string * transcripts :=
  let '(finals, still, s) := acc in
  match inputs s !! other with
  | None => (finals, still, s)
  | Some item =>
      if done item then (finals, still, s)
      else if other =s id then (finals, still ++ [other], s)
      else if negb (text item =s "")
      then (finals ++ [done_of other item (text item)], still, set_item other (set_done item) s)
      else (finals, still ++ [other], s)
  end.

(** [session.inputCommitted]. *)
Definition inputCommitted (transcribing : bool) (id : string) (s : transcripts) : list RealtimeServerEvent * transcripts :=
  if negb transcribing || (id =s "") then ([], s)
  else
    let '(finals, still, s) := foldl (fun acc other => settle_awaiting id other acc) ([], [], s) (awaiting s) in
    let '(item, s) := begin_item id 0 s in
    if negb (committed item) && negb (done item)
    then (finals, set_awaiting (still ++ [id]) (set_item id (set_committed item) s))
    else (finals, set_awaiting still s).

(** [session.inputTranscript] once its units are read, of an event that names
    an item: the final transcript of an item is its first completed one after
    the commit. *)
Definition inputCompleted (id : string) (contentIndex : Z) (transcript : string) (s : transcripts)
  : list RealtimeServerEvent * transcripts :=
  let '(events, s) := inputRunning id contentIndex (fun _ => transcript) s in
  let '(item, s) := begin_item id contentIndex s in
  if committed item && negb (done item) then
    let item := set_transcribed transcript (set_done item) in
    let s := set_item id item s in
    let own := ownText item s in
    (events ++ [done_of id item own], set_item id (set_text own item) s)
  else (events, s).

(** [charge]: the units are settled with the last event, or on their own. *)
Definition charge (units : list UsageQuantity) (events : list UpstreamEvent) : list UpstreamEvent :=
  match units with
  | [] => events
  | _ =>
      match rev events with
      | [] => [mkUpstreamEvent None None units]
      | last :: before => rev before ++ [mkUpstreamEvent (up_Event last) (up_CommandID last) units]
      end
  end.

Definition inputTranscript (transcribing : bool) (units : list UsageQuantity) (id : string) (contentIndex : Z)
    (transcript : string) (s : transcripts) : option (list UpstreamEvent * transcripts) :=
  if negb transcribing then Some (charge units [], s)
  else if id =s "" then None
  else let '(events, s) := inputCompleted id contentIndex transcript s in
       Some (charge units (unanswered <$> events), s).

End Transcripts.

(** ** What the client is told of one item *)

(** Deltas, then one final transcript, then nothing. *)
Inductive told := Telling (relayed : string) | Told (relayed final : string) | Garbled.

Definition tell (id : string) (t : told) (event : RealtimeServerEvent) : told :=
  match event with
  | EvTranscriptDelta source item _ _ delta =>
      if (source =s RealtimeTranscriptInput) && (item =s id) then
        match t with Telling relayed => Telling (relayed +:+ delta) | _ => Garbled end
      else t
  | EvTranscriptDone source item _ _ final =>
      if (source =s RealtimeTranscriptInput) && (item =s id) then
        match t with Telling relayed => Told relayed final | _ => Garbled end
      else t
  | _ => t
  end.

Definition tell_all (id : string) (t : told) (events : list RealtimeServerEvent) : told := foldl (tell id) t events.

(** What has been told of an item matches it: its relayed text until it is
    done, and then a final transcript that the deltas were, or that they did
    not lead to. *)
Definition item_told (item : option inputItem) (t : told) : Prop :=
  match item with
  | None => t = Telling ""
  | Some item =>
      if done item
      then exists relayed, t = Told relayed (text item) /\ (HasPrefix relayed (text item) = true -> relayed = text item)
      else t = Telling (text item)
  end.

(** [events] take what was told from [s] to [s']. *)
Definition tells (s : transcripts) (events : list RealtimeServerEvent) (s' : transcripts) : Prop :=
  forall id t, item_told (inputs s !! id) t -> item_told (inputs s' !! id) (tell_all id t events).

Lemma tells_nil s s' : (forall id t, item_told (inputs s !! id) t -> item_told (inputs s' !! id) t) -> tells s [] s'.
Proof. by intros H id t Ht; apply H. Qed.

Lemma tells_refl s : tells s [] s.
Proof. by apply tells_nil. Qed.

Lemma tells_trans s1 s2 s3 events1 events2 :
  tells s1 events1 s2 -> tells s2 events2 s3 -> tells s1 (events1 ++ events2) s3.
Proof. intros H1 H2 id t Ht. unfold tell_all. rewrite foldl_app. by apply H2, H1. Qed.

(** A change of one item that its events account for. *)
Lemma tells_item id item item' events s s' :
  inputs s !! id = Some item -> inputs s' = <[id := item']> (inputs s) ->
  (forall t, item_told (Some item) t -> item_told (Some item') (tell_all id t events)) ->
  (forall other t, other <> id -> tell_all other t events = t) ->
  tells s events s'.
Proof.
  intros Hi Hs Hit Hoth other t Ht. rewrite Hs. destruct (decide (other = id)) as [->|Hne].
  - rewrite lookup_insert_eq. apply Hit. by rewrite Hi in Ht.
  - rewrite lookup_insert_ne by done. by rewrite Hoth.
Qed.

Section Told.
Context {tables : UnicodeTables} (continues : bool).

(** An item just begun says nothing. *)
Lemma begin_item_tells id contentIndex s item s' :
  begin_item continues id contentIndex s = (item, s') -> tells s [] s' /\ inputs s' !! id = Some item.
Proof.
  unfold begin_item. destruct (inputs s !! id) as [i|] eqn:E; intros [= <- <-]; [split; [apply tells_refl|done]|].
  split; [|cbn [inputs]; by rewrite lookup_insert_eq].
  apply tells_nil. intros other t Ht. cbn [inputs].
  destruct (decide (other = id)) as [->|Hne]; [rewrite lookup_insert_eq; by rewrite E in Ht|].
  by rewrite lookup_insert_ne.
Qed.

(** [inputBegun], [inputRunning], [inputCommitted] and [inputCompleted] tell
    what they change. *)
Lemma inputBegun_tells transcribing id s : tells s [] (inputBegun continues transcribing id s).
Proof.
  unfold inputBegun. destruct (_ || _); [apply tells_refl|].
  destruct (begin_item continues id 0 s) as [item s'] eqn:E. by apply begin_item_tells in E as [H _].
Qed.

(** What is an item's own depends on what is transcribed, and nothing else. *)
Lemma ownText_ext item item' s s' :
  carried item = carried item' -> transcribed item = transcribed item' ->
  (forall id, transcribed <$> inputs s !! id = transcribed <$> inputs s' !! id) -> ownText item s = ownText item' s'.
Proof.
  intros Hc Ht H. unfold ownText. rewrite Hc, Ht. destruct (carried item') as [id|]; [|done].
  specialize (H id). destruct (inputs s !! id), (inputs s' !! id); try done. cbn in H. injection H as H. by rewrite H.
Qed.

Lemma transcribed_set_item id item item' s other :
  inputs s !! id = Some item -> transcribed item' = transcribed item ->
  transcribed <$> inputs (set_item id item' s) !! other = transcribed <$> inputs s !! other.
Proof.
  intros Hi Ht. cbn [inputs set_item]. destruct (decide (other = id)) as [->|Hne]; [rewrite lookup_insert_eq, Hi; cbn; by rewrite Ht|].
  by rewrite lookup_insert_ne.
Qed.

(** What a running transcript leaves: an item that is not done has the text
    last transcribed, and tells all of it that extends what was told. *)
Definition caught_up (next : string -> string) (item : inputItem) (s : transcripts) : Prop :=
  done item = false ->
  (HasPrefix (text item) (ownText item s) = true -> text item = ownText item s) /\
  exists before, transcribed item = next before.

Lemma other_untold id other t events :
  other <> id -> Forall (fun e => exists item x, e = delta_of id item x \/ e = done_of id item x) events ->
  tell_all other t events = t.
Proof.
  intros Hne H. unfold tell_all. induction H as [|e events (item & x & He) _ IH] in t |- *; [done|]. cbn [foldl].
  destruct He as [-> | ->]; cbn; rewrite (proj2 (String.eqb_neq id other)) by done; apply IH.
Qed.

Lemma inputRunning_spec id contentIndex next s events s' :
  inputRunning continues id contentIndex next s = (events, s') ->
  tells s events s' /\
  (id <> "" -> exists item, inputs s' !! id = Some item /\ caught_up next item s').
Proof.
  unfold inputRunning. destruct (id =s "") eqn:Eid; bool_cases; [intros [= <- <-]; split; [apply tells_refl|done]|].
  destruct (begin_item continues id contentIndex s) as [item s1] eqn:Eb. apply begin_item_tells in Eb as [Hb Hi].
  destruct (done item) eqn:Ed.
  { intros [= <- <-]. split; [done|]. intros _. exists item. split; [done|]. unfold caught_up. by rewrite Ed. }
  set (item1 := set_transcribed (next (transcribed item)) item). set (s2 := set_item id item1 s1).
  assert (H2 : tells s1 [] s2).
  { eapply (tells_item id item item1); [done|done| |done]. intros t. cbn. by rewrite Ed. }
  assert (Hi2 : inputs s2 !! id = Some item1) by (cbn [inputs set_item s2]; by rewrite lookup_insert_eq).
  pose proof (tells_trans _ _ _ _ _ Hb H2) as H12.
  destruct (CutPrefix (ownText item1 s2) (text item1)) as [delta|] eqn:Ecut.
  2: { intros [= <- <-]. split; [done|]. intros _. exists item1. split; [done|]. intros _.
       rewrite HasPrefix_CutPrefix, Ecut. split; [done|]. by exists (transcribed item). }
  pose proof (CutPrefix_Some _ _ _ Ecut) as Hown. destruct (delta =s "") eqn:Edelta; bool_cases; intros [= <- <-].
  { split; [done|]. intros _. exists item1. split; [done|]. intros _. split; [|by exists (transcribed item)].
    intros _. by rewrite Hown, Edelta, str_app_nil_r. }
  set (item2 := set_text (ownText item1 s2) item1).
  assert (H3 : tells s2 [delta_of id item1 delta] (set_item id item2 s2)).
  { eapply (tells_item id item1 item2); [done|done|..].
    - intros t. cbn. rewrite Ed. intros ->. rewrite String.eqb_refl. by rewrite Hown.
    - intros other t Hne. apply (other_untold id); [done|]. repeat econstructor. }
  split; [exact (tells_trans _ _ _ _ _ H12 H3)|]. intros _. exists item2. split; [cbn [inputs set_item]; by rewrite lookup_insert_eq|].
  intros _. split; [|by exists (transcribed item)]. intros _. cbn [text item2 set_text].
  apply ownText_ext; [done|done|]. intros other. symmetry. by apply (transcribed_set_item id item1).
Qed.

Lemma inputCompleted_tells id contentIndex transcript s events s' :
  id <> "" -> inputCompleted continues id contentIndex transcript s = (events, s') -> tells s events s'.
Proof.
  intros Hid. unfold inputCompleted. destruct (inputRunning continues id contentIndex (fun _ => transcript) s) as [ev s1] eqn:Er.
  apply inputRunning_spec in Er as [Ht Hit]. destruct (Hit Hid) as (item & Hi & Hc). clear Hit.
  unfold begin_item. rewrite Hi. destruct (committed item && negb (done item)) eqn:Ef; [|by intros [= <- <-]].
  apply andb_true_iff in Ef as [_ Hd%negb_true_iff]. destruct (Hc Hd) as [Hpre (before & Htr)].
  set (item1 := set_transcribed transcript (set_done item)). set (s2 := set_item id item1 s1).
  assert (Hown : ownText item1 s2 = ownText item s1).
  { apply ownText_ext; [done|done|]. intros other. by apply (transcribed_set_item id item). }
  intros [= <- <-]. eapply tells_trans; [exact Ht|].
  eapply (tells_item id item (set_text (ownText item1 s2) item1)); [done|cbn [inputs set_item s2]; by rewrite insert_insert_eq|..].
  - intros t. cbn. rewrite Hd. intros ->. rewrite String.eqb_refl. exists (text item). split; [done|]. rewrite Hown. done.
  - intros other t Hne. apply (other_untold id); [done|]. apply Forall_singleton. eexists _, _. right. done.
Qed.

Lemma settle_awaiting_tells id others finals still s finals' still' s' :
  foldl (fun acc other => settle_awaiting id other acc) (finals, still, s) others = (finals', still', s') ->
  exists more, finals' = finals ++ more /\ tells s more s'.
Proof.
  revert finals still s. induction others as [|other others IH]; intros finals still s; cbn [foldl].
  { intros [= <- <- <-]. exists []. rewrite app_nil_r. split; [done|apply tells_refl]. }
  unfold settle_awaiting at 2. destruct (inputs s !! other) as [item|] eqn:Ei; [|apply IH].
  destruct (done item) eqn:Ed; [apply IH|]. destruct (other =s id); [apply IH|].
  destruct (negb (text item =s "")) eqn:Et; [|apply IH]. intros (more & -> & Hm)%IH.
  exists (done_of other item (text item) :: more). split; [by rewrite <-app_assoc|].
  eapply (tells_trans _ _ _ [_]); [|exact Hm].
  eapply (tells_item other item (set_done item)); [done|done|..].
  - intros t. cbn. rewrite Ed. intros ->. rewrite String.eqb_refl. by exists (text item).
  - intros o t Hne. apply (other_untold other); [done|]. apply Forall_singleton. eexists _, _. right. done.
Qed.

Lemma tells_committed id item s ids :
  inputs s !! id = Some item -> tells s [] (set_awaiting ids (set_item id (set_committed item) s)).
Proof. intros Hi. eapply (tells_item id item (set_committed item)); [done|done|by intros t; cbn; destruct (done item)|done]. Qed.

Lemma inputCommitted_tells transcribing id s events s' :
  inputCommitted continues transcribing id s = (events, s') -> tells s events s'.
Proof.
  unfold inputCommitted. destruct (_ || _); [intros [= <- <-]; apply tells_refl|].
  destruct (foldl _ _ _) as [[finals still] s1] eqn:E. apply settle_awaiting_tells in E as (more & -> & Hm). cbn [app].
  destruct (begin_item continues id 0 s1) as [item s2] eqn:Eb. apply begin_item_tells in Eb as [Hb Hi].
  pose proof (tells_trans _ _ _ _ _ Hm Hb) as H. rewrite app_nil_r in H.
  destruct (negb (committed item) && negb (done item)); intros [= <- <-]; [|exact H].
  rewrite <-(app_nil_r more). eapply tells_trans; [exact H|]. by apply tells_committed.
Qed.
End Told.

(** ** A session's speech *)

(** What the session hears about the caller's speech, whether or not the
    caller has asked for transcripts at that moment. *)
Inductive Speech :=
| Begun (transcribing : bool) (id : string)
| Running (id : string) (contentIndex : Z) (next : string -> string)
| Committed (transcribing : bool) (id : string)
| Completed (id : string) (contentIndex : Z) (transcript : string)
| ResponseOver.

Section Session.
Context {tables : UnicodeTables} (continues : bool).

Definition hear (e : Speech) (s : transcripts) : list RealtimeServerEvent * transcripts :=
  match e with
  | Begun transcribing id => ([], inputBegun continues transcribing id s)
  | Running id contentIndex next => inputRunning continues id contentIndex next s
  | Committed transcribing id => inputCommitted continues transcribing id s
  | Completed id contentIndex transcript =>
      if id =s "" then ([], s) else inputCompleted continues id contentIndex transcript s
  | ResponseOver => ([], set_responseEnded true s)
  end.

Fixpoint hear_all (heard : list Speech) (s : transcripts) : list RealtimeServerEvent * transcripts :=
  match heard with
  | [] => ([], s)
  | e :: heard => let '(events, s) := hear e s in let '(more, s) := hear_all heard s in (events ++ more, s)
  end.

Lemma hear_tells e s events s' : hear e s = (events, s') -> tells s events s'.
Proof.
  destruct e as [tr id|id ci next|tr id|id ci t|]; cbn [hear].
  - intros [= <- <-]. apply inputBegun_tells.
  - intros H. by apply inputRunning_spec in H as [H _].
  - apply inputCommitted_tells.
  - destruct (id =s "") eqn:E; bool_cases; [intros [= <- <-]; apply tells_refl|]. by apply inputCompleted_tells.
  - intros [= <- <-]. by apply tells_nil.
Qed.

(** Whatever the provider transcribes and in whatever order, each item of
    the caller's speech is told as deltas that append, at most one final
    transcript, and then nothing; a final transcript that extends its deltas
    is their concatenation. *)
Theorem each_item_is_transcribed_once heard id :
  let '(events, s) := hear_all heard no_transcripts in
  match inputs s !! id with
  | None => tell_all id (Telling "") events = Telling ""
  | Some item =>
      if done item
      then exists relayed, tell_all id (Telling "") events = Told relayed (text item) /\
             (HasPrefix relayed (text item) = true -> relayed = text item)
      else tell_all id (Telling "") events = Telling (text item)
  end.
Proof.
  assert (H : forall s, let '(events, s') := hear_all heard s in tells s events s').
  { induction heard as [|e heard IH]; intros s; cbn [hear_all]; [apply tells_refl|].
    destruct (hear e s) as [events s1] eqn:E. specialize (IH s1). destruct (hear_all heard s1) as [more s2].
    eapply tells_trans; [by apply (hear_tells e)|done]. }
  specialize (H no_transcripts). destruct (hear_all heard no_transcripts) as [events s]. apply (H id (Telling "")). done.
Qed.

(** Every awaiting item exists, and awaits. *)
Record awaiting_ok (s : transcripts) : Prop := {
  aw_once : NoDup (awaiting s);
  aw_committed : forall id, id ∈ awaiting s -> exists item, inputs s !! id = Some item /\ committed item = true;
  aw_awaits : forall id item, inputs s !! id = Some item -> committed item = true -> done item = false -> id ∈ awaiting s;
}.

(** What [inputCommitted]'s loop does with an item that awaits. *)
Definition finishes (id : string) (s : transcripts) (other : string) : bool :=
  match inputs s !! other with
  | Some item => negb (done item) && negb (other =s id) && negb (text item =s "")
  | None => false
  end.

Definition still_awaits (id : string) (s : transcripts) (other : string) : bool :=
  match inputs s !! other with
  | Some item => negb (done item) && ((other =s id) || (text item =s ""))
  | None => false
  end.

Lemma settle_awaiting_spec id others finals still s finals' still' s' :
  NoDup others ->
  foldl (fun acc other => settle_awaiting id other acc) (finals, still, s) others = (finals', still', s') ->
  (forall o, inputs s' !! o =
    if bool_decide (o ∈ others) && finishes id s o then set_done <$> inputs s !! o else inputs s !! o) /\
  still' = still ++ List.filter (still_awaits id s) others /\ lastInput s' = lastInput s /\
  responseEnded s' = responseEnded s.
Proof.
  intros Hnd. revert finals still s. induction Hnd as [|a others Ha Hnd IH]; intros finals still s.
  { cbn [foldl]. intros [= <- <- <-]. rewrite app_nil_r. done. }
  cbn [foldl]. destruct (settle_awaiting id a (finals, still, s)) as [[finals1 still1] s1] eqn:E.
  assert (H1 : (forall o, inputs s1 !! o = if bool_decide (o = a) && finishes id s o then set_done <$> inputs s !! o else inputs s !! o)
    /\ still1 = still ++ (if still_awaits id s a then [a] else []) /\ lastInput s1 = lastInput s /\ responseEnded s1 = responseEnded s).
  { unfold settle_awaiting in E. unfold still_awaits, finishes.
    destruct (inputs s !! a) as [item|] eqn:Ei; [destruct (done item) eqn:Ed; [|destruct (a =s id) eqn:Eid; [|destruct (text item =s "") eqn:Et]]|];
      cbn [negb andb orb] in *; injection E as <- <- <-; rewrite ?app_nil_r.
    1-3, 5: split; [|done]; intros o; case_bool_decide as Ho; [subst o; rewrite Ei, ?Ed, ?Eid, ?Et; done|done].
    split; [|done]. intros o. cbn [inputs set_item]. case_bool_decide as Ho.
    - subst o. rewrite lookup_insert_eq, Ei. cbn. by rewrite Ed, Eid, Et.
    - by rewrite lookup_insert_ne. }
  clear E. destruct H1 as (H1 & -> & Hl & Hr). intros (H2 & -> & Hl2 & Hr2)%IH. rewrite Hl2, Hr2, Hl, Hr.
  assert (Hrest : forall o, o ∈ others -> inputs s1 !! o = inputs s !! o).
  { intros o Ho. rewrite H1. by rewrite (bool_decide_eq_false_2 (o = a)) by (intros ->; done). }
  split; [|split; [|done]].
  - intros o. rewrite H2. destruct (decide (o ∈ others)) as [Ho|Ho].
    + rewrite !bool_decide_eq_true_2 by set_solver. unfold finishes. by rewrite (Hrest o Ho).
    + rewrite (bool_decide_eq_false_2 (o ∈ others)) by done. cbn [andb]. rewrite H1.
      destruct (decide (o = a)) as [->|Hne].
      * rewrite !bool_decide_eq_true_2 by set_solver. done.
      * rewrite !bool_decide_eq_false_2 by set_solver. done.
  - rewrite <-app_assoc. f_equal. cbn [List.filter].
    assert (Hf : List.filter (still_awaits id s1) others = List.filter (still_awaits id s) others).
    { apply List.filter_ext_in. intros o Ho%list_elem_of_In. unfold still_awaits. by rewrite Hrest. }
    rewrite Hf. by destruct (still_awaits id s a).
Qed.

Lemma finishes_true id s o : finishes id s o = true ->
  exists item, inputs s !! o = Some item /\ done item = false /\ o <> id /\ text item <> "".
Proof. unfold finishes. destruct (inputs s !! o) as [item|]; [|done]. intros H. bool_cases. by exists item. Qed.

Lemma still_awaits_true id s o : still_awaits id s o = true ->
  exists item, inputs s !! o = Some item /\ done item = false /\ (o = id \/ text item = "") /\ finishes id s o = false.
Proof.
  unfold still_awaits, finishes. destruct (inputs s !! o) as [item|]; [|done]. intros [Hd H]%andb_true_iff.
  exists item. apply negb_true_iff in Hd. split; [done|]. split; [done|]. rewrite Hd.
  destruct (o =s id) eqn:E1, (text item =s "") eqn:E2; try done; bool_cases; (split; [by auto|done]).
Qed.

(** The loop, over a state whose awaiting items are all there. *)
Lemma settle_awaiting_ok id s finals still s' :
  awaiting_ok s ->
  foldl (fun acc other => settle_awaiting id other acc) ([], [], s) (awaiting s) = (finals, still, s') ->
  awaiting_ok (set_awaiting still s') /\
  (forall other item, other ∈ awaiting s -> other <> id -> inputs s !! other = Some item -> text item <> "" ->
     exists item', inputs s' !! other = Some item' /\ done item' = true) /\
  (forall other, other ∈ still -> other <> id -> exists item, inputs s' !! other = Some item /\ text item = "").
Proof.
  intros [Hnd Hc Ha]. intros (Hi & Hs & _)%settle_awaiting_spec; [|done]. cbn [app] in Hs. subst still.
  assert (Hkeep : forall o, o ∈ List.filter (still_awaits id s) (awaiting s) ->
    exists item, inputs s !! o = Some item /\ inputs s' !! o = Some item /\ o ∈ awaiting s /\ (o = id \/ text item = "")).
  { intros o Ho%list_elem_of_In%filter_In. destruct Ho as [Ho%list_elem_of_In (item & E & _ & Hor & Hf)%still_awaits_true].
    exists item. rewrite Hi, Hf, andb_false_r. done. }
  split; [constructor; cbn [awaiting set_awaiting inputs]|split].
  - apply NoDup_ListNoDup, List.NoDup_filter, NoDup_ListNoDup. done.
  - intros o Ho. destruct (Hkeep o Ho) as (item & E & E' & Hin & _). exists item. split; [done|].
    destruct (Hc o Hin) as (item' & E2 & ?). congruence.
  - intros o item E Hcom Hdone. rewrite Hi in E.
    destruct (bool_decide (o ∈ awaiting s) && finishes id s o) eqn:Ef.
    { apply andb_true_iff in Ef as [_ (i0 & E0 & _)%finishes_true]. rewrite E0 in E. injection E as <-. done. }
    pose proof (Ha _ _ E Hcom Hdone) as Hin. rewrite (bool_decide_eq_true_2 _ Hin) in Ef. cbn [andb] in Ef.
    apply list_elem_of_In, filter_In. split; [by apply list_elem_of_In|].
    unfold still_awaits, finishes in *. rewrite E, Hdone in *. cbn [negb andb] in *. by destruct (o =s id), (text item =s "").
  - intros o item Hin Hne E Ht. rewrite Hi, (bool_decide_eq_true_2 _ Hin). unfold finishes. rewrite E.
    rewrite (proj2 (String.eqb_neq o id)), (proj2 (String.eqb_neq (text item) "")) by done. cbn [negb andb].
    destruct (done item) eqn:Ed; cbn [negb andb]; [by exists item|by eexists].
  - intros o Ho Hne. destruct (Hkeep o Ho) as (item & _ & E' & _ & [?|?]); [done|]. by exists item.
Qed.

(** When an item is committed it awaits its final transcript, and every
    item still awaiting one that has anything to tell is finished with what
    it has; nothing else awaits but items without a word yet. *)
Theorem commit_finishes_the_earlier_items id s :
  id <> "" -> awaiting_ok s ->
  let '(events, s') := inputCommitted continues true id s in
  awaiting_ok s' /\
  (forall other item, other ∈ awaiting s -> other <> id -> inputs s !! other = Some item -> text item <> "" ->
     exists item', inputs s' !! other = Some item' /\ done item' = true) /\
  (forall other, other ∈ awaiting s' -> other <> id -> exists item, inputs s' !! other = Some item /\ text item = "") /\
  (exists item, inputs s' !! id = Some item /\ (done item = false -> committed item = true /\ id ∈ awaiting s')).
Proof.
  intros Hid Hok. unfold inputCommitted. rewrite (proj2 (String.eqb_neq id "")) by done. cbn [negb orb].
  destruct (foldl _ _ _) as [[finals still] s1] eqn:E. apply settle_awaiting_ok in E as (Hok1 & Hfin & Hst); [|done].
  destruct (begin_item continues id 0 s1) as [item s2] eqn:Eb.
  assert (Hs2 : inputs s2 !! id = Some item /\ (forall o, o <> id -> inputs s2 !! o = inputs s1 !! o) /\
    (inputs s1 !! id = Some item \/ inputs s1 !! id = None /\ committed item = false)).
  { unfold begin_item in Eb. destruct (inputs s1 !! id) as [i|] eqn:Ei; injection Eb as <- <-; [auto|].
    cbn [inputs]. rewrite lookup_insert_eq. split_and!; try done; [|by right]. intros o Ho. by rewrite lookup_insert_ne. }
  clear Eb. destruct Hs2 as (Hi2 & Ho2 & Hor). destruct Hok1 as [Hnd Hc Ha]. cbn [awaiting inputs set_awaiting] in *.
  assert (Hstill : id ∈ still -> committed item = true).
  { intros Hin. destruct (Hc id Hin) as (i0 & E0 & ?). destruct Hor as [E1|[E1 _]]; congruence. }
  destruct (negb (committed item) && negb (done item)) eqn:Ecd; cbn [inputs awaiting set_awaiting set_item].
  - apply andb_true_iff in Ecd as [Hcf%negb_true_iff Hdf%negb_true_iff].
    split; [constructor; cbn [awaiting inputs set_awaiting set_item]|split_and!].
    + apply NoDup_app. split; [done|]. split; [|apply NoDup_singleton]. intros o Ho ->%list_elem_of_singleton.
      rewrite Hstill in Hcf; done.
    + intros o [Ho| ->%list_elem_of_singleton]%elem_of_app; [|rewrite lookup_insert_eq; by eexists].
      destruct (decide (o = id)) as [->|Hne]; [rewrite lookup_insert_eq; by eexists|].
      rewrite lookup_insert_ne, Ho2 by done. by apply Hc.
    + intros o i0. destruct (decide (o = id)) as [->|Hne]; [intros _ _ _; apply elem_of_app; right; by apply list_elem_of_singleton|].
      rewrite lookup_insert_ne, Ho2 by done. intros. apply elem_of_app. left. by eapply Ha.
    + intros o i0 Hin Hne E0 Ht. rewrite lookup_insert_ne, Ho2 by done. by eapply Hfin.
    + intros o [Ho| ->%list_elem_of_singleton]%elem_of_app Hne; [|done]. rewrite lookup_insert_ne, Ho2 by done. by apply Hst.
    + exists (set_committed item). rewrite lookup_insert_eq. split; [done|]. intros _. split; [done|].
      apply elem_of_app. right. by apply list_elem_of_singleton.
  - assert (Haw : committed item = true -> done item = false -> id ∈ still).
    { intros Hcom Hd. destruct Hor as [E1|[_ ?]]; [by eapply Ha|congruence]. }
    split; [constructor; cbn [awaiting inputs set_awaiting set_item]|split_and!]; try done.
    + intros o Ho. destruct (decide (o = id)) as [->|Hne]; [exists item; auto|]. rewrite Ho2 by done. by apply Hc.
    + intros o i0 E0 Hcom Hd. destruct (decide (o = id)) as [->|Hne]; [rewrite Hi2 in E0; injection E0 as <-; auto|].
      rewrite Ho2 in E0 by done. by eapply Ha.
    + intros o i0 Hin Hne E0 Ht. rewrite Ho2 by done. by eapply Hfin.
    + intros o Ho Hne. rewrite Ho2 by done. by apply Hst.
    + exists item. split; [done|]. intros Hd. rewrite Hd in Ecd. destruct (committed item) eqn:Ec; [auto|done].
Qed.
End Session.

(** A caller talks over an answer: the provider transcribes the second item
    together with the first, and the client is told its own words only. *)
Definition example_heard : list Speech :=
  [ Begun true "a"; Running "a" 0 (fun _ => "Hello"); Running "a" 0 (fun _ => "Hello Alia."); Committed true "a";
    Begun true "b"; Running "b" 0 (fun _ => "hello Alia. What"); Committed true "b";
    Completed "a" 0 "Hello Alia."; Completed "b" 0 "Hello, Alia. What is it?"; Completed "b" 0 "Hello, Alia. What is it?" ].

Example interrupted_turn :
  fst (hear_all (tables := ascii_tables) true example_heard no_transcripts) =
  [ EvTranscriptDelta RealtimeTranscriptInput "a" 0 None "Hello";
    EvTranscriptDelta RealtimeTranscriptInput "a" 0 None " Alia.";
    EvTranscriptDelta RealtimeTranscriptInput "b" 0 None "What";
    EvTranscriptDone RealtimeTranscriptInput "a" 0 None "Hello Alia.";
    EvTranscriptDelta RealtimeTranscriptInput "b" 0 None " is it?";
    EvTranscriptDone RealtimeTranscriptInput "b" 0 None "What is it?" ].
Proof. vm_compute. reflexivity. Qed.

Definition example_transcripts : transcripts :=
  mkTranscripts {["a" := mkInputItem true "Hello Alia." None "Hello Alia." false 0]} ["a"] (Some "a") false.

Lemma commit_finishes_the_earlier_items_witness :
  awaiting_ok example_transcripts /\
  let '(events, s') := inputCommitted true true "b" example_transcripts in
  awaiting_ok s' /\ exists item', inputs s' !! "a" = Some item' /\ done item' = true.
Proof.
  assert (Hok : awaiting_ok example_transcripts).
  { constructor.
    - apply NoDup_singleton.
    - intros id ->%list_elem_of_singleton. eexists. split; reflexivity.
    - intros id item E _ _. apply list_elem_of_singleton. unfold example_transcripts in E. cbn [inputs] in E.
      by apply lookup_singleton_Some in E as [<- _]. }
  split; [exact Hok|].
  pose proof (commit_finishes_the_earlier_items true "b" example_transcripts ltac:(discriminate) Hok) as H.
  destruct (inputCommitted _ _ _ _) as [events s']. destruct H as (Hok' & Hfin & _). split; [exact Hok'|].
  eapply (Hfin "a"); [apply list_elem_of_here|discriminate|reflexivity|discriminate].
Defined.
