(* ===== verification/RealtimeWire.v ===== *)
(** * The OpenAI-Realtime wire and its dialects
    (internal/provider/openairealtime/wire.go and dialect.go,
    internal/providerconfig/languages.go)

    How a contract configuration, update, item and response is written for a
    provider, and how what a provider reports - usage, status, finish - is
    read back.  A wire message stands for the JSON it is marshalled into. *)

From S2P Require Import Prelude Ids Text Contract Request Provider PublicContract.
From S2P Require Import RealtimeContract RealtimeParameters InputTranscript.
From S2P Require Redaction.

(** ** Dialects *)

Record TranscriptionDialect := mkTranscription {
  t_model : string;
  languageHint : bool;
  billed : bool;
  continuesInterruptedTurns : bool;
}.

(** The reviewed statement of a protocol, as far as a session reads it. *)
Record RealtimeStatement := mkStatement {
  Languages : list string;
  LanguageDefaults : gmap string string;
  Parameters : RealtimeParameters;
}.

(** An error the provider reported. *)
Record wireError := mkWireError {
  we_Type : string;
  we_Code : option string;
  we_Message : string;
  we_EventID : option string;
}.

(** The credential a session was opened with. *)
Record SessionKey := mkSessionKey { customerOwned : bool; Secret : string }.

Record dialect := mkDialect {
  slug : string;
  statement : RealtimeStatement;
  sessionType : string;
  flatSession : bool;
  sessionModalities : bool;
  responseModalitiesField : string;
  toolChoiceField : bool;
  statusDetailsText : bool;
  outputTextPart : string;
  outputAudioPart : string;
  aliases : gmap string string;
  transcription : option TranscriptionDialect;
  classifyEvent : wireError -> SessionKey -> GoError;
}.

Definition invalidEvent (d : dialect) : GoError :=
  ErrUpstream (mkUpstream CodeProviderError UpstreamUnknown 0 (Some (mkPassthrough (slug d) None None)) false).

Definition refused (param : string) : GoError := ErrUnsupported CodeInvalidRequest param.

Definition passthroughFor (slug : string) (value : wireError) (key : SessionKey) : ProviderErrorPassthrough :=
  mkPassthrough slug None
    (if we_Type value =s "" then None
     else Some (Redaction.SafeErrorText (Redaction.RedactSecret (we_Type value) (Secret key)))).

Definition quotaExhausted (kind code : string) : bool :=
  (kind =s "insufficient_quota") || (code =s "insufficient_quota") || (code =s "credit_balance_exhausted")
  || (code =s "organization_spend_limit_exceeded") || (code =s "project_spend_limit_exceeded")
  || (code =s "organization_usage_limit_exceeded").

Definition classifyOpenAIEvent (value : wireError) (key : SessionKey) : GoError :=
  let code := default "" (we_Code value) in
  let failure c category :=
    CustomerCredentialFailure (customerOwned key)
      (mkUpstream c category 0 (Some (passthroughFor "openai-realtime" value key)) false) in
  if quotaExhausted (we_Type value) code then failure CodeProviderBillingRefused UpstreamQuota
  else if (code =s "invalid_api_key") || (we_Type value =s "authentication_error")
  then failure CodeProviderCredentialInvalid UpstreamAuthentication
  else if (we_Type value =s "rate_limit_error") || (code =s "rate_limit_exceeded") || (code =s "slow_down")
  then failure CodeRateLimited UpstreamRateLimit
  else if we_Type value =s "server_error" then failure CodeProviderError UpstreamServerError
  else if we_Type value =s "invalid_request_error" then failure CodeInvalidRequest UpstreamInvalidReq
  else failure CodeProviderError UpstreamUnknown.

Definition classifyXAIEvent (value : wireError) (key : SessionKey) : GoError :=
  let failure c category :=
    CustomerCredentialFailure (customerOwned key)
      (mkUpstream c category 0 (Some (passthroughFor "xai-realtime" value key)) false) in
  if (we_Type value =s "invalid_request_error") || (we_Type value =s "invalid_event")
  then failure CodeInvalidRequest UpstreamInvalidReq
  else if we_Type value =s "internal_error" then failure CodeProviderError UpstreamServerError
  else if (we_Type value =s "timeout") || (we_Type value =s "max_duration") then failure CodeProviderTimeout UpstreamTimeout
  else failure CodeProviderError UpstreamUnknown.

Definition XAIRealtimeLanguages :=
  ["ar-AE"; "ar-EG"; "ar-SA"; "bn"; "de"; "en"; "es-ES"; "es-MX"; "fr"; "hi";
   "id"; "it"; "ja"; "ko"; "pt-BR"; "pt-PT"; "ru"; "tr"; "vi"; "zh"].

Definition openAITranscription : TranscriptionDialect := mkTranscription "gpt-transcribe" false true false.
Definition xAITranscription : TranscriptionDialect := mkTranscription "grok-transcribe" true false true.

Definition openAIDialect : dialect :=
  mkDialect "openai-realtime" (mkStatement [] ∅ openAIRealtimeParameters) "realtime" false true "output_modalities" true
    false "output_text" "output_audio" ∅ (Some openAITranscription) classifyOpenAIEvent.

Definition xAIDialect : dialect :=
  mkDialect "xai-realtime"
    (mkStatement XAIRealtimeLanguages {["ar" := "ar-SA"; "es" := "es-MX"; "pt" := "pt-BR"]} xAIRealtimeParameters)
    "" true false "modalities" false true "text" "audio"
    {["response.text.delta" := "response.output_text.delta"; "response.audio.delta" := "response.output_audio.delta"]}
    (Some xAITranscription) classifyXAIEvent.

(** How a session is billed: by its clock under a turn detection, or by the
    tokens its responses report. *)
Definition clockBilled (d : dialect) (kind : string) : bool :=
  match TurnDetectionOf kind (Parameters (statement d)) with
  | Some served => isMember UnitSessionMilliseconds (MeteredUnits served)
  | None => false
  end.

Definition billsClock (d : dialect) : bool :=
  existsb (fun t => clockBilled d (tdp_Type t)) (rp_TurnDetection (Parameters (statement d))).

Definition tokenUsage (d : dialect) : bool :=
  existsb (fun t => isMember UnitOutputTokens (MeteredUnits t)) (rp_TurnDetection (Parameters (statement d))).

Definition contractPartType (d : dialect) (wire role : string) : string :=
  let assistant := role =s "assistant" in
  if (wire =s outputTextPart d) && negb (outputTextPart d =s "output_text")
  then if assistant then "output_text" else "input_text"
  else if (wire =s outputAudioPart d) && negb (outputAudioPart d =s "output_audio")
  then if assistant then "output_audio" else "input_audio"
  else wire.

(** ** Languages (providerconfig.NormalizeLanguage) *)

(** [strings.EqualFold] against a tag of ASCII letters, digits and dashes. *)
Fixpoint folds (listed : string) (rs : list (Z * Z)) : bool :=
  match listed, rs with
  | EmptyString, [] => true
  | String c listed, (r, _) :: rs => Redaction.folded (byte c) r && folds listed rs
  | _, _ => false
  end.
Definition EqualFold (listed tag : string) : bool := folds listed (runes tag).

(** [strings.SplitN(s, "-", 2)[0]]. *)
Fixpoint before_dash (s : string) : string :=
  match s with
  | EmptyString => EmptyString
  | String c s' => if Ascii.eqb c "-" then EmptyString else String c (before_dash s')
  end.

Section Wire.
Context {tables : UnicodeTables}.

Definition lower_case (s : string) : string :=
  foldr (fun r acc => encode_rune (ToLower r.1) +:+ acc) "" (runes s).

Definition NormalizeLanguage (tag : string) (languages : list string) (defaults : gmap string string) : option string :=
  match List.find (fun listed => EqualFold listed tag) languages with
  | Some listed => Some listed
  | None =>
      let primary := lower_case (before_dash tag) in
      if isMember primary languages then Some primary
      else
        let variant := match defaults !! primary with
                       | Some v => if isMember v languages then Some v else None
                       | None => None
                       end in
        match variant with
        | Some v => Some v
        | None => List.find (fun listed => EqualFold (before_dash listed) primary) languages
        end
  end.

(** ** Contract to provider *)

(** A translation writes, refuses a param, or dereferences an absent field. *)
Inductive Written (A : Type) := Wrote (a : A) | Refused (param : string) | Panics.
Arguments Wrote {A} a.
Arguments Refused {A} param.
Arguments Panics {A}.

Definition written_bind {A B} (w : Written A) (f : A -> Written B) : Written B :=
  match w with Wrote a => f a | Refused p => Refused p | Panics => Panics end.
Notation "x ⇐ w ;; k" := (written_bind w (fun x => k)) (at level 100, w at next level, right associativity).

Definition deref {A} (o : option A) : Written A := match o with Some a => Wrote a | None => Panics end.

Record audioFormat := mkFormat { af_Type : string; Rate : Z }.

Definition wireFormat (format : string) : option audioFormat :=
  if format =s RealtimePCM16 then Some (mkFormat "audio/pcm" 24000)
  else if format =s RealtimeULaw then Some (mkFormat "audio/pcmu" 0)
  else if format =s RealtimeALaw then Some (mkFormat "audio/pcma" 0)
  else None.

(** [math.Round]: half away from zero. *)
Definition f64_round (f : float64) : float64 :=
  match f with
  | S754_finite s m (Zneg k) =>
      let q := ((2 * Zpos m + 2 ^ Zpos k) / 2 ^ (Zpos k + 1))%Z in
      if (q =? 0)%Z then S754_zero s else f64_of_Z (if s then - q else q)
  | _ => f
  end.

(** [NumberRange.Map]. *)
Definition Map (value : float64) (r : NumberRange) : float64 :=
  f64_div (f64_round (f64_mul (f64_add (Min r) (f64_mul value (f64_sub (Max r) (Min r)))) (f64_of_Z 1000))) (f64_of_Z 1000).

Definition DefaultSilenceDurationMs : Z := 500.

(** The JSON of a turn detection. *)
Inductive wireDetection :=
| NoDetection
| SemanticVAD (eagerness : string) (createResponse interruptResponse : bool)
| FixedVAD (threshold : option float64) (prefixPaddingMs : option Z) (silenceDurationMs : Z)
| ServerVAD (threshold : option float64) (prefixPaddingMs : option Z) (silenceDurationMs : Z)
    (createResponse interruptResponse : bool).

Definition wireTurnDetection (d : dialect) (detection : RealtimeTurnDetection) : Written wireDetection :=
  if td_Type detection =s TurnDetectionNone then Wrote NoDetection
  else
    match WireTurnDetection (td_Type detection) (Parameters (statement d)) with
    | None => Refused "config.turnDetection"
    | Some served =>
        if tdp_Type served =s TurnDetectionSemanticVAD then
          eagerness ⇐ deref (Eagerness detection) ;;
          create ⇐ deref (CreateResponse detection) ;;
          interrupt ⇐ deref (InterruptResponse detection) ;;
          Wrote (SemanticVAD eagerness create interrupt)
        else
          let threshold :=
            match Threshold detection, tdp_Threshold served with
            | Some t, Some range => Some (Map t range)
            | t, _ => t
            end in
          let silence := default DefaultSilenceDurationMs (SilenceDurationMs detection) in
          if FixedResponses served then Wrote (FixedVAD threshold (PrefixPaddingMs detection) silence)
          else
            create ⇐ deref (CreateResponse detection) ;;
            interrupt ⇐ deref (InterruptResponse detection) ;;
            Wrote (ServerVAD threshold (PrefixPaddingMs detection) silence create interrupt)
    end.

(** The place of the first tool that is no function. *)
Fixpoint not_a_function (index : Z) (tools : list RealtimeToolDefinition) : option Z :=
  match tools with
  | [] => None
  | t :: tools => if rtool_Type t =s "function" then not_a_function (index + 1) tools else Some index
  end.

Definition wireTools (tools : list RealtimeToolDefinition) : Written (list RealtimeToolDefinition) :=
  match not_a_function 0 tools with
  | None => Wrote tools
  | Some index => Refused ("config.tools[" +:+ Itoa index +:+ "].type")
  end.

Definition withholdsTools (d : dialect) (choice : option ToolChoice) : bool :=
  negb (toolChoiceField d)
  && match choice with Some c => RealtimeToolChoiceOf c =s RealtimeToolChoiceNone | None => false end.

Definition wireToolChoice (d : dialect) (choice : option ToolChoice) : option ToolChoice :=
  if toolChoiceField d then choice else None.

Definition wireMaxOutputTokens (d : dialect) (limit : option Z) : option Z :=
  match limit, rp_MaxTokens (Parameters (statement d)) with
  | Some l, Some ceiling => Some (Z.min l ceiling)
  | _, _ => limit
  end.

Record transcriptionConfig := mkTranscriptionConfig {
  tc_Model : string;
  Language : option string;
  LanguageHint : option string;
  Prompt : option string;
}.

Definition wireTranscription (d : dialect) (value : RealtimeInputTranscription) : Written transcriptionConfig :=
  match transcription d with
  | None => Refused "config.inputAudioTranscription"
  | Some t =>
      let language :=
        match it_Language value with
        | Some tag => NormalizeLanguage tag (Languages (statement d)) (LanguageDefaults (statement d))
        | None => None
        end in
      Wrote (mkTranscriptionConfig (t_model t)
        (if languageHint t then None else language) (if languageHint t then language else None)
        (if InputTranscriptionPrompt (Parameters (statement d)) then it_Prompt value else None))
  end.

(** The fields of a session on the wire, each once wherever the dialect puts
    it: [flatSession] is a voice and a turn detection on the session itself. *)
Record sessionConfig := mkWireSession {
  ws_OutputModalities : option (list string);
  ws_Instructions : option string;
  ws_Voice : option string;
  ws_TurnDetection : option wireDetection;
  ws_Tools : option (list RealtimeToolDefinition);
  ws_ToolChoice : option ToolChoice;
  ws_MaxOutputTokens : option Z;
  ws_Transcription : option transcriptionConfig;
  ws_InputFormat : option audioFormat;
  ws_OutputFormat : option audioFormat;
}.

(** [refuseUnservable]: the first field no translation serves. *)
Definition refuseUnservable (d : dialect) (prefix : string) (fields : RealtimeConfigFields) : option string :=
  Param <$> head (Unservable prefix fields (Parameters (statement d))).

Definition mergeUpdate (config : RealtimeSessionConfig) (update : RealtimeSessionConfigUpdate) : RealtimeSessionConfig :=
  let over {A} (new old : option A) := match new with Some _ => new | None => old end in
  mkSessionConfig
    (over (up_Instructions update) (cfg_Instructions config))
    (over (up_OutputModalities update) (cfg_OutputModalities config))
    (cfg_Voice config) (InputAudioFormat config) (OutputAudioFormat config)
    (default (cfg_TurnDetection config) (up_TurnDetection update))
    (over (up_InputAudioTranscription update) (cfg_InputAudioTranscription config))
    (Translation config)
    (over (up_Tools update) (cfg_Tools config))
    (over (up_ToolChoice update) (cfg_ToolChoice config))
    (over (up_MaxOutputTokens update) (cfg_MaxOutputTokens config)).

(** [sessionFields.wire]; the fields are those of an update, [effective] the
    configuration once they apply. *)
Definition wire_fields (d : dialect) (f : RealtimeSessionConfigUpdate) (effective : RealtimeSessionConfig)
  : Written sessionConfig :=
  match refuseUnservable d "config" (update_Fields f) with
  | Some param => Refused param
  | None =>
      detection ⇐ match up_TurnDetection f with
                  | Some t => w ⇐ wireTurnDetection d t ;; Wrote (Some w)
                  | None => Wrote None
                  end ;;
      transcription ⇐ match up_InputAudioTranscription f with
                      | Some t => w ⇐ wireTranscription d t ;; Wrote (Some w)
                      | None => Wrote None
                      end ;;
      tools ⇐ (if present (up_Tools f) || present (up_ToolChoice f) && negb (toolChoiceField d) then
                 let tools := if withholdsTools d (cfg_ToolChoice effective) then [] else default [] (cfg_Tools effective) in
                 w ⇐ wireTools tools ;; Wrote (Some w)
               else Wrote None) ;;
      Wrote (mkWireSession
        (if sessionModalities d then WireOutputModalities (up_OutputModalities f) (Parameters (statement d)) else None)
        (up_Instructions f) None detection tools (wireToolChoice d (up_ToolChoice f))
        (wireMaxOutputTokens d (up_MaxOutputTokens f)) transcription None None)
  end.

Definition wireOutputFormat (d : dialect) (config : RealtimeSessionConfig) : option string :=
  match OutputAudioFormat config with
  | Some format => Some format
  | None =>
      match WireOutputModalities (cfg_OutputModalities config) (Parameters (statement d)) with
      | Some modalities => if isMember RealtimeOutputAudio modalities then Some RealtimePCM16 else None
      | None => None
      end
  end.

Definition config_fields (c : RealtimeSessionConfig) : RealtimeSessionConfigUpdate :=
  mkConfigUpdate (cfg_Instructions c) (cfg_OutputModalities c) (Some (cfg_TurnDetection c))
    (cfg_InputAudioTranscription c) (cfg_Tools c) (cfg_ToolChoice c) (cfg_MaxOutputTokens c).

Definition wireSession (d : dialect) (config : RealtimeSessionConfig) : Written sessionConfig :=
  if present (Translation config) then Refused "config.translation"
  else
    session ⇐ wire_fields d (config_fields config) config ;;
    match wireFormat (InputAudioFormat config) with
    | None => Refused "config.inputAudioFormat"
    | Some input =>
        output ⇐ match wireOutputFormat d config with
                 | Some format => match wireFormat format with
                                  | Some w => Wrote (Some w)
                                  | None => Refused "config.outputAudioFormat"
                                  end
                 | None => Wrote None
                 end ;;
        Wrote (mkWireSession (ws_OutputModalities session) (ws_Instructions session) (cfg_Voice config)
          (ws_TurnDetection session) (ws_Tools session) (ws_ToolChoice session) (ws_MaxOutputTokens session)
          (ws_Transcription session) (Some input) output)
    end.

Definition wireUpdate (d : dialect) (update : RealtimeSessionConfigUpdate) (projected : RealtimeSessionConfig)
  : Written sessionConfig :=
  wire_fields d update (mergeUpdate projected update).

End Wire.

Arguments Wrote {A} a.
Arguments Refused {A} param.
Arguments Panics {A}.
Notation "x ⇐ w ;; k" := (written_bind w (fun x => k)) (at level 100, w at next level, right associativity) : kaana_scope.

(** ** Items *)

Record contentPart := mkPart { p_Type : string; p_Text : option string; Audio : option string; p_Transcript : option string }.

Record item := mkWireItem {
  i_ID : option string;
  i_Type : string;
  i_Role : option string;
  i_Content : list contentPart;
  i_CallID : option string;
  i_Name : option string;
  i_Arguments : option string;
  i_Output : option string;
}.

(** A part of [wireItem]'s loop; a type the contract lacks writes nothing. *)
Definition wire_part (d : dialect) (inputFormat : string) (index : Z) (part : RealtimeContentPart) : Written (list contentPart) :=
  let param := "item.content[" +:+ Itoa index +:+ "]" in
  if cp_Type part =s RealtimeInputTextPart then Wrote [mkPart (cp_Type part) (cp_Text part) None None]
  else if cp_Type part =s RealtimeOutputTextPart then Wrote [mkPart (outputTextPart d) (cp_Text part) None None]
  else if cp_Type part =s RealtimeInputAudioPart then
    match cp_Data part with
    | None => Refused (param +:+ ".data")
    | Some data =>
        format ⇐ deref (cp_Format part) ;;
        if format =s inputFormat then Wrote [mkPart "input_audio" None (Some data) (Transcript part)]
        else Refused (param +:+ ".format")
    end
  else if cp_Type part =s RealtimeOutputAudioPart then Refused (param +:+ ".type")
  else Wrote [].

Fixpoint wire_parts (d : dialect) (inputFormat : string) (index : Z) (parts : list RealtimeContentPart) : Written (list contentPart) :=
  match parts with
  | [] => Wrote []
  | part :: parts =>
      written ⇐ wire_part d inputFormat index part ;;
      rest ⇐ wire_parts d inputFormat (index + 1) parts ;;
      Wrote (written ++ rest)
  end.

Definition wireItem (d : dialect) (value : RealtimeConversationItem) (inputFormat : string) : Written item :=
  content ⇐ wire_parts d inputFormat 0 (default [] (item_Content value)) ;;
  Wrote (mkWireItem (item_ItemID value) (item_Type value) (item_Role value) content (CallID value) (item_Name value)
    (item_Arguments value) (Output value)).

(** A part as the contract names it, or none it cannot carry. *)
Definition contract_part (d : dialect) (inputFormat : string) (outputFormat : option string) (role : string) (part : contentPart)
  : option RealtimeContentPart :=
  let kind := contractPartType d (p_Type part) role in
  if (kind =s "input_text") || (kind =s "output_text")
  then Some (mkContentPart kind (Some (default "" (p_Text part))) None None None)
  else if kind =s "input_audio" then Some (mkContentPart RealtimeInputAudioPart None (Some inputFormat) None (p_Transcript part))
  else if kind =s "output_audio" then
    match outputFormat with
    | None => None
    | Some format => Some (mkContentPart RealtimeOutputAudioPart None (Some format) None (p_Transcript part))
    end
  else None.

(** [append]ing to a nil slice: no parts leave it nil. *)
Definition nil_if_empty {A} (l : list A) : option (list A) := match l with [] => None | _ => Some l end.

(** [session.contractItem]. *)
Definition contractItem (d : dialect) (inputFormat : string) (outputFormat : option string) (value : item)
  : option RealtimeConversationItem :=
  match i_ID value with
  | None => None
  | Some id =>
      if id =s "" then None
      else
        let converted :=
          if i_Type value =s "message" then
            match i_Role value with
            | None => None
            | Some role =>
                content ← mapM (contract_part d inputFormat outputFormat role) (i_Content value);
                Some (mkItem (i_Type value) (Some id) (Some role) (nil_if_empty content) None None None None)
            end
          else if i_Type value =s "function_call" then
            Some (mkItem (i_Type value) (Some id) None None (i_CallID value) (i_Name value)
                    (Some (default "" (i_Arguments value))) None)
          else if i_Type value =s "function_call_output" then
            Some (mkItem (i_Type value) (Some id) None None (i_CallID value) None None (i_Output value))
          else None in
        match converted with
        | Some c => match Item_Validate c with None => Some c | Some _ => None end
        | None => None
        end
  end.

(** ** Usage *)

Record tokenDetails := mkTokenDetails { TextTokens : Z; AudioTokens : Z; ImageTokens : Z }.

Record usage := mkUsage {
  TotalTokens : option Z;
  InputTokens : Z;
  OutputTokens : Z;
  in_AudioTokens : Z;                    (* input_token_details.audio_tokens *)
  CachedTokens : Z;                      (* input_token_details.cached_tokens *)
  CachedAudioTokens : Z;                 (* ....cached_tokens_details.audio_tokens *)
  out_AudioTokens : Z;                   (* output_token_details.audio_tokens *)
}.

(** [usage.units]. *)
Definition usage_units (u : usage) : option (list UsageQuantity) :=
  let cachedAudio := CachedAudioTokens u in
  let audioInput := wrap64 (in_AudioTokens u - cachedAudio) in
  let cachedInput := wrap64 (CachedTokens u - cachedAudio) in
  let input := wrap64 (wrap64 (InputTokens u - CachedTokens u) - audioInput) in
  let audioOutput := out_AudioTokens u in
  let output := wrap64 (OutputTokens u - audioOutput) in
  if existsb (fun v => v <? 0)%Z [cachedAudio; audioInput; cachedInput; input; audioOutput; output] then None
  else if match TotalTokens u with
          | Some total => negb (total =? wrap64 (InputTokens u + OutputTokens u))%Z
          | None => false
          end then None
  else Some [mkQuantity UnitInputTokens input; mkQuantity UnitCachedInputTokens cachedInput;
             mkQuantity UnitAudioInputTokens audioInput; mkQuantity UnitCachedAudioInputTokens cachedAudio;
             mkQuantity UnitOutputTokens output; mkQuantity UnitAudioOutputTokens audioOutput].

(** What the JSON of a completed transcription's usage is read as. *)
Inductive transcriptionUsage :=
| NoUsage
| Unreadable
| DurationUsage (seconds : option float64)
| TokensUsage
| OtherUsage.

Definition maxTranscriptionSeconds : Z := 86400.

(** [int64(math.Round(seconds * 1e6))] of a duration in range. *)
Definition microseconds (seconds : float64) : Z := f64_to_int (f64_round (f64_mul seconds (f64_of_Z 1000000))).

Definition is_nan (f : float64) : bool := match f with S754_nan => true | _ => false end.

Definition transcriptionUnits (d : dialect) (reported : transcriptionUsage) : list UsageQuantity + GoError :=
  match transcription d with
  | None => inl []
  | Some t =>
      if negb (billed t) then inl []
      else
        match reported with
        | NoUsage => inl []
        | DurationUsage (Some seconds) =>
            if is_nan seconds || SFltb seconds (S754_zero false) || SFltb (f64_of_Z maxTranscriptionSeconds) seconds
            then inr (invalidEvent d)
            else
              let milliseconds := Z.quot (microseconds seconds + 999) 1000 in
              if (milliseconds =? 0)%Z then inl [] else inl [mkQuantity UnitInputTranscriptionMilliseconds milliseconds]
        | TokensUsage =>
            inr (ErrUpstream (mkUpstream CodeProviderError UpstreamUnknown 0 (Some (mkPassthrough (slug d) None None)) false))
        | Unreadable | DurationUsage None | OtherUsage => inr (invalidEvent d)
        end
  end.

(** ** Responses *)

Definition RealtimeResponseCompleted := "completed".
Definition RealtimeResponseCancelled := "cancelled".
Definition RealtimeResponseIncomplete := "incomplete".
Definition RealtimeResponseFailed := "failed".

Definition responseStatus (status : string) : option string :=
  if isMember status [RealtimeResponseCompleted; RealtimeResponseCancelled; RealtimeResponseIncomplete; RealtimeResponseFailed]
  then Some status else None.

(** The JSON of status_details. *)
Inductive statusDetails := NoDetails | TextDetails | ObjectDetails (reason : option string) | OtherDetails.

Record response := mkResponse {
  r_ID : string;
  r_Status : string;
  StatusDetails : statusDetails;
  r_Output : list item;
  r_Usage : option usage;
}.

Definition statusReason (d : dialect) (value : response) : option string + GoError :=
  match StatusDetails value with
  | NoDetails => inl None
  | TextDetails => if statusDetailsText d then inl None else inr (invalidEvent d)
  | ObjectDetails reason => inl reason
  | OtherDetails => inr (invalidEvent d)
  end.

Definition finishReason (value : response) (status : string) (given : option string) : option string :=
  let reason := default "" given in
  if status =s RealtimeResponseCompleted
  then Some (if existsb (fun o => i_Type o =s "function_call") (r_Output value) then FinishToolCalls else FinishStop)
  else if status =s RealtimeResponseCancelled then Some FinishCancelled
  else if reason =s "max_output_tokens" then Some FinishLength
  else if reason =s "content_filter" then Some FinishContentFilter
  else None.

(** ** What is settled of a response *)

Definition quantity_of (unit : string) (l : list UsageQuantity) : Z :=
  foldr (fun q n => if Unit q =s unit then Quantity q + n else n)%Z 0%Z l.

(** Counts a report could hold: their sums stay in range. *)
Definition countable (u : usage) : Prop :=
  Forall (fun n => -2 ^ 60 <= n <= 2 ^ 60)%Z
    [InputTokens u; OutputTokens u; in_AudioTokens u; CachedTokens u; CachedAudioTokens u; out_AudioTokens u].

(** A response's usage is a partition of the tokens the provider
    reported: every unit once, none negative, the four input units adding up
    to its input tokens and the two output units to its output tokens; a
    report that cannot be partitioned so, or whose total is not their sum, is
    refused. *)
Theorem usage_is_a_partition u :
  countable u ->
  match usage_units u with
  | Some l =>
      NoDup (Unit <$> l) /\ Forall (fun q => 0 <= Quantity q)%Z l /\
      (quantity_of UnitInputTokens l + quantity_of UnitCachedInputTokens l + quantity_of UnitAudioInputTokens l
        + quantity_of UnitCachedAudioInputTokens l = InputTokens u)%Z /\
      (quantity_of UnitOutputTokens l + quantity_of UnitAudioOutputTokens l = OutputTokens u)%Z /\
      (forall total, TotalTokens u = Some total -> total = InputTokens u + OutputTokens u)%Z
  | None =>
      ~ (0 <= CachedAudioTokens u <= in_AudioTokens u /\ CachedAudioTokens u <= CachedTokens u /\
         CachedTokens u + (in_AudioTokens u - CachedAudioTokens u) <= InputTokens u /\
         0 <= out_AudioTokens u <= OutputTokens u /\
         (forall total, TotalTokens u = Some total -> total = InputTokens u + OutputTokens u))%Z
  end.
Proof.
  intros Hc. unfold countable in Hc. repeat (apply Forall_cons in Hc as [? Hc]). clear Hc. unfold usage_units.
  assert (W : forall z, (-2 ^ 63 <= z < 2 ^ 63)%Z -> wrap64 z = z).
  { intros z Hz. apply wrap64_id. unfold in_int64, int64_min, int64_max. lia. }
  rewrite (W (in_AudioTokens u - CachedAudioTokens u)%Z), (W (CachedTokens u - CachedAudioTokens u)%Z),
    (W (InputTokens u - CachedTokens u)%Z), (W (OutputTokens u - out_AudioTokens u)%Z),
    (W (InputTokens u + OutputTokens u)%Z) by lia.
  rewrite (W (InputTokens u - CachedTokens u - (in_AudioTokens u - CachedAudioTokens u))%Z) by lia.
  destruct (existsb _ _) eqn:Eneg.
  - cbn [existsb] in Eneg. intros (? & ? & ? & ? & _). rewrite !(proj2 (Z.ltb_ge _ _)) in Eneg by lia. done.
  - cbn [existsb] in Eneg. bool_cases. destruct (TotalTokens u) as [total|] eqn:Et.
    + destruct (negb (total =? InputTokens u + OutputTokens u)%Z) eqn:Ee; bool_cases.
      * intros (_ & _ & _ & _ & Htot). specialize (Htot _ eq_refl). lia.
      * split; [repeat (apply NoDup_cons; split; [set_solver|]); constructor|].
        split; [repeat (apply Forall_cons; split; [cbn; lia|]); constructor|]. cbn. split; [lia|]. split; [lia|].
        intros t [= <-]. done.
    + split; [repeat (apply NoDup_cons; split; [set_solver|]); constructor|].
      split; [repeat (apply Forall_cons; split; [cbn; lia|]); constructor|]. cbn. split; [lia|]. split; [lia|]. done.
Qed.

Definition example_usage : usage := mkUsage (Some 130%Z) 100 30 60 40 20 25.

Lemma usage_is_a_partition_witness :
  countable example_usage /\
  exists l, usage_units example_usage = Some l /\
    (quantity_of UnitInputTokens l + quantity_of UnitCachedInputTokens l + quantity_of UnitAudioInputTokens l
      + quantity_of UnitCachedAudioInputTokens l = 100)%Z.
Proof.
  assert (Hc : countable example_usage).
  { unfold countable. repeat (apply Forall_cons; split; [cbn; lia|]). constructor. }
  split; [exact Hc|]. pose proof (usage_is_a_partition example_usage Hc) as H. eexists. split; [vm_compute; reflexivity|].
  vm_compute in H. destruct H as (_ & _ & H & _). exact H.
Defined.

(** ** What is configured *)

Lemma deref_Some {A} (o : option A) x : o = Some x -> deref o = Wrote x.
Proof. by intros ->. Qed.

(** A detection the contract accepts and the wire serves is written. *)
Lemma wireTurnDetection_written d t served :
  TurnDetection_validate t = None -> d ∈ [openAIDialect; xAIDialect] ->
  WireTurnDetection (td_Type t) (Parameters (statement d)) = Some served -> exists w, wireTurnDetection d t = Wrote w.
Proof.
  intros Hv Hd Hw. unfold wireTurnDetection. rewrite Hw. destruct (td_Type t =s TurnDetectionNone) eqn:E0; [by eexists|].
  unfold TurnDetection_validate in Hv. rewrite E0 in Hv.
  assert (Hs : (exists c, CreateResponse t = Some c) /\ (exists i, InterruptResponse t = Some i) /\
    (td_Type t = TurnDetectionSemanticVAD -> exists e, Eagerness t = Some e)).
  { destruct (td_Type t =s TurnDetectionServerVAD) eqn:E1.
    - apply or_else_None in Hv as [_ Hv]. apply or_else_None in Hv as [_ Hv]. apply or_else_None in Hv as [_ Hv].
      apply or_else_None in Hv as [_ Hv]. apply refuse_if_None, negb_false_iff in Hv. bool_cases.
      destruct (CreateResponse t), (InterruptResponse t); try done. split_and!; try by eexists. rewrite E1. done.
    - destruct (td_Type t =s TurnDetectionSemanticVAD); [|done]. apply or_else_None in Hv as [_ Hv].
      apply or_else_None in Hv as [He Hv]. apply refuse_if_None in He, Hv. apply negb_false_iff in Hv. bool_cases.
      destruct (CreateResponse t), (InterruptResponse t), (Eagerness t); try done. split_and!; by eexists. }
  destruct Hs as ((c & ->) & (i & ->) & He). cbn [deref written_bind].
  destruct (tdp_Type served =s TurnDetectionSemanticVAD) eqn:Es; [|destruct (FixedResponses served); by eexists].
  bool_cases. assert (Ht : td_Type t = TurnDetectionSemanticVAD).
  { unfold WireTurnDetection in Hw. destruct (TurnDetectionOf (td_Type t) _) as [s|] eqn:Eo.
    - injection Hw as <-. unfold TurnDetectionOf in Eo. apply List.find_some in Eo as [_ Eo]. bool_cases. congruence.
    - destruct (td_Type t =s TurnDetectionSemanticVAD) eqn:E; bool_cases; [done|done]. }
  destruct (He Ht) as (e & ->). by eexists.
Qed.

Lemma not_a_function_None index tools :
  Forall (fun t => rtool_Type t = "function") tools -> not_a_function index tools = None.
Proof.
  intros H. revert index. induction H as [|t tools Ht _ IH]; intros index; [done|]. cbn [not_a_function].
  by rewrite (proj2 (String.eqb_eq _ _) Ht), IH.
Qed.

Lemma wireFormat_known f : f ∈ realtimeAudioFormatValues -> exists w, wireFormat f = Some w.
Proof.
  unfold realtimeAudioFormatValues. rewrite !elem_of_cons.
  intros [->|[->|[->|H%not_elem_of_nil]]]; [by eexists..|done].
Qed.

Lemma valid_config_parts c : SessionConfig_validate c = None ->
  InputAudioFormat c ∈ realtimeAudioFormatValues /\
  (forall f, OutputAudioFormat c = Some f -> f ∈ realtimeAudioFormatValues) /\
  TurnDetection_validate (cfg_TurnDetection c) = None.
Proof.
  intros Hv. unfold SessionConfig_validate in Hv. apply or_else_None in Hv as [_ Hv]. apply or_else_None in Hv as [_ Hv].
  apply or_else_None in Hv as [_ Hv]. apply or_else_None in Hv as [Hf Hv]. apply or_else_None in Hv as [Ht _].
  apply refuse_if_None, orb_false_iff in Hf as [Hin Hout]. apply negb_false_iff, isMember_spec in Hin.
  split; [done|]. split; [|done]. intros f Ef. rewrite Ef in Hout. cbn [breaks] in Hout.
  by apply negb_false_iff, isMember_spec in Hout.
Qed.

Lemma wireOutputFormat_known d c f : SessionConfig_validate c = None ->
  wireOutputFormat d c = Some f -> f ∈ realtimeAudioFormatValues.
Proof.
  intros (_ & Hout & _)%valid_config_parts. unfold wireOutputFormat.
  destruct (OutputAudioFormat c) as [g|]; [intros [= <-]; by apply Hout|].
  destruct (WireOutputModalities _ _); [|done]. destruct (isMember _ _); [|done]. intros [= <-].
  unfold realtimeAudioFormatValues. apply list_elem_of_here.
Qed.

Lemma dialect_parameters d : d ∈ [openAIDialect; xAIDialect] ->
  Parameters (statement d) ∈ [openAIRealtimeParameters; xAIRealtimeParameters] /\ present (transcription d) = true.
Proof.
  rewrite !elem_of_cons. intros [->|[->|H%not_elem_of_nil]]; [..|done]; (split; [|done]).
  - by left.
  - by right; left.
Qed.

Section Configured.
Context {tables : UnicodeTables}.

(** The parts of a configuration that are written one by one. *)
Lemma wire_fields_written d f effective :
  d ∈ [openAIDialect; xAIDialect] -> Unservable "config" (update_Fields f) (Parameters (statement d)) = [] ->
  (forall t, up_TurnDetection f = Some t -> TurnDetection_validate t = None) ->
  Forall (fun t => rtool_Type t = "function") (default [] (cfg_Tools effective)) ->
  exists w, wire_fields d f effective = Wrote w /\
    ws_OutputModalities w = (if sessionModalities d then WireOutputModalities (up_OutputModalities f) (Parameters (statement d)) else None) /\
    ws_MaxOutputTokens w = wireMaxOutputTokens d (up_MaxOutputTokens f) /\
    (ws_TurnDetection w = None <-> up_TurnDetection f = None).
Proof.
  intros Hd Hu Ht Htools. unfold wire_fields, refuseUnservable. rewrite Hu. cbn [head fmap option_fmap option_map].
  apply Unservable_nil in Hu. destruct (dialect_parameters d Hd) as [_ Htrans].
  assert (Hdet : exists w, (match up_TurnDetection f with
      Some t => w ⇐ wireTurnDetection d t ;; Wrote (Some w) | None => Wrote None end) = Wrote w /\ (w = None <-> up_TurnDetection f = None)).
  { destruct (up_TurnDetection f) as [t|] eqn:E; [|by eexists].
    destruct (tr_detection _ _ _ Hu t E) as (served & Hs & _).
    destruct (wireTurnDetection_written d t served (Ht t eq_refl) Hd Hs) as (w & ->). by eexists. }
  destruct Hdet as (wt & -> & Hwt). cbn [written_bind].
  destruct (match up_InputAudioTranscription f with Some t => _ | None => _ end) as [tc|p|] eqn:Etc.
  2-3: exfalso; destruct (up_InputAudioTranscription f); [|done]; unfold wireTranscription in Etc;
    destruct (transcription d); done.
  cbn [written_bind]. destruct (present (up_Tools f) || _); cbn [written_bind].
  - unfold wireTools. rewrite not_a_function_None; [by eexists|]. destruct (withholdsTools _ _); [constructor|done].
  - by eexists.
Qed.

(** A valid conversation that the provider can serve is always written,
    with no field refused and none missing: the modalities are ones the wire
    takes, a cap is at most the wire's, turns are detected as the wire does,
    and audio has the session's formats. *)
Theorem servable_sessions_are_written d c :
  d ∈ [openAIDialect; xAIDialect] -> SessionConfig_validate c = None -> Translation c = None ->
  Forall (fun t => rtool_Type t = "function") (default [] (cfg_Tools c)) ->
  Unservable "config" (session_Fields c) (Parameters (statement d)) = [] ->
  exists w, wireSession d c = Wrote w /\
    (exists input, ws_InputFormat w = Some input /\ wireFormat (InputAudioFormat c) = Some input) /\
    ws_OutputFormat w = (f ← wireOutputFormat d c; wireFormat f) /\
    (forall m, ws_OutputModalities w = Some m -> ServesOutputModalities m (Parameters (statement d)) = true) /\
    (forall cap limit, ws_MaxOutputTokens w = Some cap -> rp_MaxTokens (Parameters (statement d)) = Some limit ->
      cap <= limit)%Z /\
    ws_TurnDetection w <> None.
Proof.
  intros Hd Hv Htr Htools Hu. destruct (valid_config_parts c Hv) as (Hin & _ & Ht).
  destruct (wire_fields_written d (config_fields c) c Hd Hu) as (w & Hw & Hm & Hc & Hdet); [|done|].
  { intros t [= <-]. done. }
  unfold wireSession. rewrite Htr. cbn [present]. rewrite Hw. cbn [written_bind].
  destruct (wireFormat_known _ Hin) as (input & Hinput). rewrite Hinput.
  assert (Hout : exists output, (match wireOutputFormat d c with
      Some format => match wireFormat format with Some w => Wrote (Some w) | None => Refused "config.outputAudioFormat" end
      | None => Wrote None end) = Wrote output /\ output = (f ← wireOutputFormat d c; wireFormat f)).
  { destruct (wireOutputFormat d c) as [f|] eqn:E; [|by eexists].
    destruct (wireFormat_known f (wireOutputFormat_known d c f Hv E)) as (wf & Hwf). cbn. rewrite Hwf. by eexists. }
  destruct Hout as (output & -> & Ho). cbn [written_bind]. eexists. split; [done|].
  cbn [ws_InputFormat ws_OutputFormat ws_OutputModalities ws_MaxOutputTokens ws_TurnDetection].
  split; [by exists input|]. split; [done|]. destruct (dialect_parameters d Hd) as [Hp _]. split; [|split].
  - intros m Em. rewrite Hm in Em. destruct (sessionModalities d); [|done].
    by apply (WireOutputModalities_served _ _ _ Hp) in Em as [? _].
  - intros cap limit Ecap Elim. rewrite Hc in Ecap. unfold wireMaxOutputTokens in Ecap. rewrite Elim in Ecap.
    destruct (up_MaxOutputTokens _); [|done]. injection Ecap as <-. lia.
  - intros E. apply Hdet in E. done.
Qed.

Lemma NormalizeLanguage_taken tag languages defaults listed :
  NormalizeLanguage tag languages defaults = Some listed -> listed ∈ languages.
Proof.
  unfold NormalizeLanguage. destruct (List.find _ languages) as [l|] eqn:E.
  { intros [= <-]. apply List.find_some in E as [Hin _]. by apply list_elem_of_In. }
  destruct (isMember _ _) eqn:Em; [intros [= <-]; by apply isMember_spec|].
  destruct (defaults !! _) as [v|]; [destruct (isMember v languages) eqn:Ev|];
    [intros [= <-]; by apply isMember_spec|..]; intros [Hin _]%List.find_some; by apply list_elem_of_In.
Qed.

End Configured.

Definition spoken_session : RealtimeSessionConfig :=
  mkSessionConfig (Some "Be brief.") (Some ["audio"]) (Some "marin") RealtimePCM16 None
    (mkTurnDetection TurnDetectionServerVAD None None (Some 500%Z) None (Some true) (Some true)) None None None None (Some 800%Z).

Lemma servable_sessions_are_written_witness :
  Unservable "config" (session_Fields spoken_session) (Parameters (statement openAIDialect)) = [] /\
  exists w, wireSession (tables := ascii_tables) openAIDialect spoken_session = Wrote w /\ ws_TurnDetection w <> None.
Proof.
  split; [vm_compute; reflexivity|].
  destruct (servable_sessions_are_written (tables := ascii_tables) openAIDialect spoken_session) as (w & Hw & _ & _ & _ & _ & Hd).
  - by left.
  - vm_compute. reflexivity.
  - reflexivity.
  - constructor.
  - vm_compute. reflexivity.
  - by exists w.
Defined.

(** ** Items there and back *)

(** A part as it comes back: the audio it carried inline does not. *)
Definition without_audio (p : RealtimeContentPart) : RealtimeContentPart :=
  mkContentPart (cp_Type p) (cp_Text p) (cp_Format p) None (Transcript p).

Definition item_without_audio (i : RealtimeConversationItem) : RealtimeConversationItem :=
  mkItem (item_Type i) (item_ItemID i) (item_Role i) (option_map (map without_audio) (item_Content i)) (CallID i) (item_Name i)
    (item_Arguments i) (Output i).

Lemma without_audio_valid role p :
  ContentPart_validate_for role p = None -> ContentPart_validate_for role (without_audio p) = None.
Proof.
  destruct p as [kind text format data transcript]. unfold ContentPart_validate_for, without_audio.
  cbn [cp_Type cp_Text cp_Format cp_Data Transcript]. rewrite !or_else_None. intros (H1 & H2 & H). split; [done|]. split; [done|].
  destruct ((kind =s RealtimeInputTextPart) || (kind =s RealtimeOutputTextPart)).
  - apply or_else_None in H as [H3 H4]. apply or_else_None. split; [|done]. apply refuse_if_None in H3. apply refuse_if_None.
    apply orb_false_iff in H3 as [H3 ?]. apply orb_false_iff in H3 as [H3 _]. apply orb_false_iff. split; [|done].
    apply orb_false_iff. by split.
  - destruct ((kind =s RealtimeInputAudioPart) || (kind =s RealtimeOutputAudioPart)); [|done].
    apply or_else_None in H as [H3 _]. rewrite H3. cbn [or_else present]. by rewrite andb_false_r.
Qed.

Definition a_dialect (d : dialect) : Prop := d ∈ [openAIDialect; xAIDialect].

Lemma contractPartType_kept d part role :
  a_dialect d -> part ∈ ["input_text"; "output_text"; "input_audio"; "output_audio"] -> contractPartType d part role = part.
Proof.
  unfold a_dialect. rewrite !elem_of_cons.
  intros [->|[->|H%not_elem_of_nil]]; [..|done]; intros [->|[->|[->|[->|H%not_elem_of_nil]]]]; done.
Qed.

Lemma part_there_and_back d inputFormat outputFormat role index p ps :
  a_dialect d -> ContentPart_validate_for role p = None -> wire_part d inputFormat index p = Wrote ps ->
  exists wp, ps = [wp] /\ contract_part d inputFormat outputFormat role wp = Some (without_audio p).
Proof.
  intros Hd Hv. unfold wire_part. destruct p as [kind text format data transcript].
  unfold ContentPart_validate_for in Hv. cbn [cp_Type cp_Text cp_Format cp_Data Transcript] in *.
  apply or_else_None in Hv as [Hrole Hv]. apply or_else_None in Hv as [_ Hv]. apply refuse_if_None in Hrole.
  destruct (kind =s RealtimeInputTextPart) eqn:E1; [|destruct (kind =s RealtimeOutputTextPart) eqn:E2;
    [|destruct (kind =s RealtimeInputAudioPart) eqn:E3; [|destruct (kind =s RealtimeOutputAudioPart) eqn:E4; [done|]]]];
    cbn [orb] in *; bool_cases; subst; try done.
  - apply or_else_None in Hv as [Hv _]. apply refuse_if_None in Hv. destruct text, format, data, transcript; try done.
    intros [= <-]. eexists. split; [done|]. unfold contract_part. cbn [p_Type].
    by rewrite contractPartType_kept by (done || by left).
  - apply or_else_None in Hv as [Hv _]. apply refuse_if_None in Hv. destruct text, format, data, transcript; try done.
    intros [= <-]. eexists. split; [done|]. unfold contract_part. cbn [p_Type].
    assert (Hk : contractPartType d (outputTextPart d) role = "output_text").
    { destruct (role =s "assistant") eqn:Er; [|done]. bool_cases. subst.
      unfold a_dialect in Hd. rewrite !elem_of_cons in Hd. by destruct Hd as [->|[->|Hd%not_elem_of_nil]]. }
    by rewrite Hk.
  - apply or_else_None in Hv as [Hv _]. apply refuse_if_None, orb_false_iff in Hv as [Ht Hf].
    destruct text; [done|]. destruct data as [data|]; [|done]. destruct format as [format|]; [|done]. cbn [deref written_bind].
    destruct (format =s inputFormat) eqn:Ef; [|done]. bool_cases. subst. intros [= <-]. eexists. split; [done|].
    unfold contract_part. cbn [p_Type]. by rewrite contractPartType_kept by (done || by right; right; left).
Qed.

Lemma parts_there_and_back d inputFormat outputFormat role index parts ps :
  a_dialect d -> Forall (fun p => ContentPart_validate_for role p = None) parts ->
  wire_parts d inputFormat index parts = Wrote ps ->
  mapM (contract_part d inputFormat outputFormat role) ps = Some (without_audio <$> parts).
Proof.
  intros Hd H. revert index ps. induction H as [|p parts Hp _ IH]; intros index ps; cbn [wire_parts].
  { by intros [= <-]. }
  destruct (wire_part d inputFormat index p) as [w| |] eqn:Ew; cbn [written_bind]; [|done..].
  destruct (wire_parts d inputFormat (index + 1) parts) as [rest| |] eqn:Er; cbn [written_bind]; [|done..].
  intros [= <-]. destruct (part_there_and_back _ _ outputFormat _ _ _ _ Hd Hp Ew) as (wp & -> & Hc).
  cbn [app mapM]. rewrite Hc. cbn. by rewrite (IH _ _ Er).
Qed.

Lemma item_without_audio_valid i : Item_Validate i = None -> Item_Validate (item_without_audio i) = None.
Proof.
  unfold Item_Validate, item_without_audio. cbn [item_Type item_ItemID item_Role item_Content CallID item_Name item_Arguments Output].
  intros H. apply or_else_None in H as [H1 H]. rewrite H1. cbn [or_else].
  destruct (_ =s RealtimeMessageItem); [|].
  - apply or_else_None in H as [H2 H3]. apply first_refusal_None in H3.
    assert (Hl : default [] (option_map (map without_audio) (item_Content i)) = without_audio <$> default [] (item_Content i)).
    { by destruct (item_Content i). }
    rewrite Hl, length_fmap, H2. cbn [or_else]. apply first_refusal_None. rewrite Forall_fmap.
    eapply Forall_impl; [exact H3|]. intros p. apply without_audio_valid.
  - assert (Hp : present (option_map (map without_audio) (item_Content i)) = present (item_Content i)) by by destruct (item_Content i).
    by rewrite Hp.
Qed.

(** An item the client created comes back from the provider as it was
    created, less the audio it carried inline: whatever the provider calls
    its parts, the item it echoes is the same contract item. *)
Theorem items_come_back_as_created d inputFormat outputFormat i id w :
  a_dialect d -> Item_Validate i = None -> item_ItemID i = Some id -> wireItem d i inputFormat = Wrote w ->
  contractItem d inputFormat outputFormat w = Some (item_without_audio i).
Proof.
  intros Hd Hv Hid. unfold wireItem. destruct (wire_parts _ _ _ _) as [ps| |] eqn:Eps; cbn [written_bind]; [|done..].
  intros [= <-]. unfold contractItem. cbn [i_ID i_Type i_Role i_Content i_CallID i_Name i_Arguments i_Output].
  rewrite Hid. pose proof (item_without_audio_valid i Hv) as Hv'.
  unfold Item_Validate in Hv. apply or_else_None in Hv as [Hb Hv]. apply refuse_if_None in Hb. rewrite Hid in Hb.
  cbn [breaks] in Hb. apply negb_false_iff in Hb. unfold boundedID in Hb. apply andb_true_iff in Hb as [Hne _].
  apply negb_true_iff in Hne. rewrite Hne.
  destruct i as [kind itemID role content callID name arguments out].
  cbn [item_Type item_ItemID item_Role item_Content CallID item_Name item_Arguments Output] in *. subst itemID.
  unfold RealtimeMessageItem, RealtimeFunctionCallItem, RealtimeFunctionCallOutputItem in *.
  destruct (kind =s "message") eqn:E1; [|destruct (kind =s "function_call") eqn:E2; [|destruct (kind =s "function_call_output") eqn:E3; [|done]]].
  - apply or_else_None in Hv as [Hr Hparts]. apply first_refusal_None in Hparts. apply refuse_if_None in Hr.
    destruct role as [role|]; [|done]. cbn [default] in Hparts.
    rewrite (parts_there_and_back _ _ outputFormat role _ _ _ Hd Hparts Eps). cbn [mbind option_bind].
    destruct content as [[|p parts]|]; [by rewrite orb_true_r in Hr| |by rewrite orb_true_r in Hr]. 1: destruct callID, name, arguments, out; try (by rewrite ?orb_true_r in Hr).
    change (nil_if_empty _) with (item_Content (item_without_audio (mkItem kind (Some id) (Some role) (Some (p :: parts)) None None None None))).
    unfold item_without_audio in *.
    cbn [item_Type item_ItemID item_Role item_Content CallID item_Name item_Arguments Output option_map] in *.
    by rewrite Hv'.
  - apply refuse_if_None in Hv. destruct role, content, out, arguments; try (by rewrite ?orb_true_r in Hv).
    unfold item_without_audio in *.
    cbn [item_Type item_ItemID item_Role item_Content CallID item_Name item_Arguments Output fmap option_fmap option_map default] in *.
    unfold Datatypes.id in *.
    by rewrite Hv'.
  - apply refuse_if_None in Hv. destruct role, content, name, arguments; try (by rewrite ?orb_true_r in Hv).
    unfold item_without_audio in *.
    cbn [item_Type item_ItemID item_Role item_Content CallID item_Name item_Arguments Output fmap option_fmap option_map default] in *.
    unfold Datatypes.id in *.
    by rewrite Hv'.
Qed.

Definition spoken_item : RealtimeConversationItem :=
  mkItem RealtimeMessageItem (Some "item_1") (Some "user")
    (Some [mkContentPart RealtimeInputTextPart (Some "hello") None None None;
           mkContentPart RealtimeInputAudioPart None (Some RealtimePCM16) (Some "AAAA") (Some "hello")]) None None None None.

Lemma items_come_back_as_created_witness :
  Item_Validate spoken_item = None /\
  exists w, wireItem xAIDialect spoken_item RealtimePCM16 = Wrote w /\
    contractItem xAIDialect RealtimePCM16 None w = Some (item_without_audio spoken_item).
Proof.
  assert (Hv : Item_Validate spoken_item = None) by (vm_compute; reflexivity).
  split; [exact Hv|]. eexists. split; [vm_compute; reflexivity|].
  apply (items_come_back_as_created xAIDialect RealtimePCM16 None spoken_item "item_1").
  - right; left.
  - exact Hv.
  - reflexivity.
  - vm_compute. reflexivity.
Defined.
