(* ===== verification/Base64.v ===== *)
(** * Standard base64 (encoding/base64 as the realtime wire uses it)

    [base64.StdEncoding.DecodeString] beside the encoder of Text.v: line
    breaks are dropped, groups of four are read, padding ends the text.  What
    was encoded decodes to itself. *)

From S2P Require Import Prelude Ids Text.

Definition base64_value (c : ascii) : option Z :=
  let n := byte c in
  if (65 <=? n)%Z && (n <=? 90)%Z then Some (n - 65)%Z
  else if (97 <=? n)%Z && (n <=? 122)%Z then Some (n - 71)%Z
  else if (48 <=? n)%Z && (n <=? 57)%Z then Some (n + 4)%Z
  else if (n =? 43)%Z then Some 62%Z
  else if (n =? 47)%Z then Some 63%Z
  else None.

Definition is_pad (c : ascii) : bool := Ascii.eqb c "=".

(** One byte of a group's value, [byte(val >> shift)]. *)
Definition group_byte (value shift : Z) : ascii := Ascii.ascii_of_N (Z.to_N (Z.land (Z.shiftr value shift) 255)).

Definition group_value (a b c d : Z) : Z :=
  Z.lor (Z.lor (Z.shiftl a 18) (Z.shiftl b 12)) (Z.lor (Z.shiftl c 6) d).

(** [Encoding.decodeQuantum], group by group: a padded group is the last. *)
Fixpoint decode_groups (s : string) : option string :=
  match s with
  | EmptyString => Some EmptyString
  | String a (String b (String c (String d rest))) =>
      match base64_value a, base64_value b with
      | Some va, Some vb =>
          match base64_value c, base64_value d with
          | Some vc, Some vd =>
              let value := group_value va vb vc vd in
              match decode_groups rest with
              | Some more => Some (String (group_byte value 16) (String (group_byte value 8) (String (group_byte value 0) more)))
              | None => None
              end
          | Some vc, None =>
              let value := group_value va vb vc 0 in
              if is_pad d && (rest =s "")
              then Some (String (group_byte value 16) (String (group_byte value 8) EmptyString)) else None
          | None, _ =>
              let value := group_value va vb 0 0 in
              if is_pad c && is_pad d && (rest =s "") then Some (String (group_byte value 16) EmptyString) else None
          end
      | _, _ => None
      end
  | _ => None
  end.

Definition is_break (c : ascii) : bool := (byte c =? 10)%Z || (byte c =? 13)%Z.

Fixpoint without_breaks (s : string) : string :=
  match s with
  | EmptyString => EmptyString
  | String c s => if is_break c then without_breaks s else String c (without_breaks s)
  end.

(** [base64.StdEncoding.DecodeString]. *)
Definition base64_decode (s : string) : option string := decode_groups (without_breaks s).

Example base64_decoded : base64_decode "aGVs
bG8/Pg==" = Some "hello?>".
Proof. reflexivity. Qed.

(** ** What was encoded decodes *)

Lemma lor_below x y n : (0 <= n)%Z -> (0 <= y < 2 ^ n)%Z -> Z.lor (Z.shiftl x n) y = (x * 2 ^ n + y)%Z.
Proof.
  intros Hn Hy. rewrite Z.shiftl_mul_pow2 by done. rewrite <-Z.add_lor_land.
  assert (Z.land (x * 2 ^ n) y = 0%Z) as ->; [|lia]. apply Z.bits_inj'. intros i Hi. rewrite Z.land_spec, Z.bits_0.
  destruct (Z.ltb_spec i n).
  - by rewrite Z.mul_pow2_bits_low.
  - assert (Z.testbit y i = false) as ->; [|by rewrite andb_false_r].
    destruct (Z.eq_dec y 0%Z) as [->|Hne]; [apply Z.bits_0|]. apply Z.bits_above_log2; [lia|].
    apply Z.log2_lt_pow2; [lia|]. pose proof (Z.pow_le_mono_r 2 n i). lia.
Qed.

Lemma group_byte_of c value shift :
  (0 <= shift)%Z -> (value / 2 ^ shift mod 256 = byte c)%Z -> group_byte value shift = c.
Proof.
  intros Hs H. unfold group_byte. change 255%Z with (Z.ones 8). rewrite Z.land_ones, Z.shiftr_div_pow2 by done.
  change (2 ^ 8)%Z with 256%Z. rewrite H. unfold byte. rewrite N2Z.id. apply Ascii.ascii_N_embedding.
Qed.

Lemma base64_value_digit n : (0 <= n < 64)%Z ->
  base64_value (base64_digit n) = Some n /\ is_break (base64_digit n) = false /\ is_pad (base64_digit n) = false.
Proof.
  intros Hn. assert (H : forallb (fun k => let n := Z.of_nat k in
    bool_decide (base64_value (base64_digit n) = Some n) && negb (is_break (base64_digit n)) && negb (is_pad (base64_digit n)))
    (List.seq 0 64) = true) by (vm_compute; reflexivity).
  rewrite forallb_forall in H. specialize (H (Z.to_nat n)). rewrite Z2Nat.id in H by lia.
  rewrite !andb_true_iff, !negb_true_iff, bool_decide_eq_true in H. destruct H as [[? ?] ?]; [|done].
  apply in_seq. lia.
Qed.

Lemma byte_bound c : (0 <= byte c < 256)%Z.
Proof. unfold byte. pose proof (Ascii.N_ascii_bounded c). lia. Qed.

(** The group of three bytes, and of its four digits. *)
Lemma three_bytes a b c : (0 <= b < 256)%Z -> (0 <= c < 256)%Z ->
  Z.lor (Z.lor (Z.shiftl a 16) (Z.shiftl b 8)) c = (a * 65536 + b * 256 + c)%Z.
Proof.
  intros Hb Hc. rewrite (lor_below a) by (rewrite ?Z.shiftl_mul_pow2; lia).
  rewrite Z.shiftl_mul_pow2 by lia. replace (a * 2 ^ 16 + b * 2 ^ 8)%Z with (Z.shiftl (a * 256 + b) 8)
    by (rewrite Z.shiftl_mul_pow2; lia).
  rewrite lor_below by lia. lia.
Qed.

Lemma four_digits a b c d : (0 <= b < 64)%Z -> (0 <= c < 64)%Z -> (0 <= d < 64)%Z ->
  group_value a b c d = (a * 262144 + b * 4096 + c * 64 + d)%Z.
Proof.
  intros Hb Hc Hd. unfold group_value. rewrite (lor_below c d 6) by lia.
  rewrite (lor_below a _ 18) by (rewrite ?Z.shiftl_mul_pow2; lia). rewrite Z.shiftl_mul_pow2 by lia.
  replace (a * 2 ^ 18 + b * 2 ^ 12)%Z with (Z.shiftl (a * 64 + b) 12) by (rewrite Z.shiftl_mul_pow2; lia).
  rewrite lor_below by lia. lia.
Qed.

(** The digits of a value below 2^24 are below 64 and give it back. *)
Lemma digits_of v : (0 <= v < 16777216)%Z ->
  let d k := Z.land (Z.shiftr v k) 63 in
  Z.shiftr v 18 = d 18%Z /\ (0 <= d 18 < 64)%Z /\ (0 <= d 12 < 64)%Z /\ (0 <= d 6 < 64)%Z /\ (0 <= Z.land v 63 < 64)%Z /\
  (d 18 * 262144 + d 12 * 4096 + d 6 * 64 + Z.land v 63 = v)%Z.
Proof.
  intros Hv d. unfold d. change 63%Z with (Z.ones 6). rewrite !Z.land_ones, !Z.shiftr_div_pow2 by lia.
  change (2 ^ 6)%Z with 64%Z. change (2 ^ 12)%Z with 4096%Z. change (2 ^ 18)%Z with 262144%Z.
  Z.to_euclidean_division_equations. lia.
Qed.

Lemma group_bytes v a b c : v = (byte a * 65536 + byte b * 256 + byte c)%Z ->
  group_byte v 16 = a /\ group_byte v 8 = b /\ group_byte v 0 = c.
Proof.
  intros ->. pose proof (byte_bound a). pose proof (byte_bound b). pose proof (byte_bound c).
  split; [|split]; apply group_byte_of; try lia;
    [change (2 ^ 16)%Z with 65536%Z|change (2 ^ 8)%Z with 256%Z|change (2 ^ 0)%Z with 1%Z];
    Z.to_euclidean_division_equations; lia.
Qed.

Lemma string_ind3 (P : string -> Prop) :
  P "" -> (forall a, P (String a "")) -> (forall a b, P (String a (String b ""))) ->
  (forall a b c s, P s -> P (String a (String b (String c s)))) -> forall s, P s.
Proof.
  intros H0 H1 H2 H3 s. enough (P s /\ (forall a, P (String a s)) /\ forall a b, P (String a (String b s))) by tauto.
  induction s as [|x s (IH0 & IH1 & IH2)]; [auto|]. split; [auto|]. split; [auto|]. intros a b. by apply H3.
Qed.

(** The four digits of a value below 2^24. *)
Definition digit (v : Z) : Prop := (0 <= v < 64)%Z.

Lemma encoded_value v : (0 <= v < 16777216)%Z ->
  exists d0 d1 d2 d3, digit d0 /\ digit d1 /\ digit d2 /\ digit d3 /\
    Z.shiftr v 18 = d0 /\ Z.land (Z.shiftr v 12) 63 = d1 /\ Z.land (Z.shiftr v 6) 63 = d2 /\ Z.land v 63 = d3 /\
    (d0 * 262144 + d1 * 4096 + d2 * 64 + d3 = v)%Z.
Proof.
  intros Hv. pose proof (digits_of v Hv) as H. cbv zeta beta in H. destruct H as (H0 & H1 & H2 & H3 & H4 & Hs).
  exists (Z.land (Z.shiftr v 18) 63), (Z.land (Z.shiftr v 12) 63), (Z.land (Z.shiftr v 6) 63), (Z.land v 63).
  unfold digit. split_and!; (done || lia).
Qed.

Lemma base64_encode_one a : exists d0 d1, digit d0 /\ digit d1 /\ (d0 * 262144 + d1 * 4096 = byte a * 65536)%Z /\
  base64_encode (String a "") = String (base64_digit d0) (String (base64_digit d1) "==").
Proof.
  pose proof (byte_bound a). cbn [base64_encode]. rewrite Z.shiftl_mul_pow2 by lia. change (2 ^ 16)%Z with 65536%Z.
  destruct (encoded_value (byte a * 65536)) as (d0 & d1 & d2 & d3 & D0 & D1 & D2 & D3 & E0 & E1 & E2 & E3 & Hs); [lia|].
  exists d0, d1. rewrite E0, E1. do 2 (split; [done|]). split; [unfold digit in *; lia|done].
Qed.

Lemma base64_encode_two a b : exists d0 d1 d2, digit d0 /\ digit d1 /\ digit d2 /\
  (d0 * 262144 + d1 * 4096 + d2 * 64 = byte a * 65536 + byte b * 256)%Z /\
  base64_encode (String a (String b "")) = String (base64_digit d0) (String (base64_digit d1) (String (base64_digit d2) "=")).
Proof.
  pose proof (byte_bound a). pose proof (byte_bound b). cbn [base64_encode].
  assert (Z.lor (Z.shiftl (byte a) 16) (Z.shiftl (byte b) 8) = byte a * 65536 + byte b * 256)%Z as ->.
  { rewrite (lor_below (byte a)) by (rewrite ?Z.shiftl_mul_pow2; lia). rewrite Z.shiftl_mul_pow2; lia. }
  destruct (encoded_value (byte a * 65536 + byte b * 256))
    as (d0 & d1 & d2 & d3 & D0 & D1 & D2 & D3 & E0 & E1 & E2 & E3 & Hs); [lia|].
  exists d0, d1, d2. rewrite E0, E1, E2. do 3 (split; [done|]). split; [unfold digit in *; lia|done].
Qed.

Lemma base64_encode_three a b c s : exists d0 d1 d2 d3, digit d0 /\ digit d1 /\ digit d2 /\ digit d3 /\
  (d0 * 262144 + d1 * 4096 + d2 * 64 + d3 = byte a * 65536 + byte b * 256 + byte c)%Z /\
  base64_encode (String a (String b (String c s))) =
    String (base64_digit d0) (String (base64_digit d1) (String (base64_digit d2) (String (base64_digit d3) (base64_encode s)))).
Proof.
  pose proof (byte_bound a). pose proof (byte_bound b). pose proof (byte_bound c). cbn [base64_encode].
  rewrite three_bytes by done.
  destruct (encoded_value (byte a * 65536 + byte b * 256 + byte c))
    as (d0 & d1 & d2 & d3 & D0 & D1 & D2 & D3 & E0 & E1 & E2 & E3 & Hs); [lia|].
  exists d0, d1, d2, d3. rewrite E0, E1, E2, E3. do 4 (split; [done|]). done.
Qed.

Lemma without_breaks_encoded s : without_breaks (base64_encode s) = base64_encode s.
Proof.
  assert (Hd : forall v, digit v -> is_break (base64_digit v) = false) by (intros; by apply base64_value_digit).
  induction s as [|a|a b|a b c s IH] using string_ind3; [done|..].
  - destruct (base64_encode_one a) as (d0 & d1 & H0 & H1 & _ & ->). cbn [without_breaks]. by rewrite !Hd.
  - destruct (base64_encode_two a b) as (d0 & d1 & d2 & H0 & H1 & H2 & _ & ->). cbn [without_breaks]. by rewrite !Hd.
  - destruct (base64_encode_three a b c s) as (d0 & d1 & d2 & d3 & H0 & H1 & H2 & H3 & _ & ->).
    cbn [without_breaks]. by rewrite !Hd, IH.
Qed.

Lemma decode_groups_encoded s : decode_groups (base64_encode s) = Some s.
Proof.
  assert (Hv : forall v, digit v -> base64_value (base64_digit v) = Some v) by (intros; by apply base64_value_digit).
  unfold digit in *. induction s as [|a|a b|a b c s IH] using string_ind3; [done|..].
  - destruct (base64_encode_one a) as (d0 & d1 & H0 & H1 & Hs & ->). cbn [decode_groups]. rewrite !Hv by done. cbn.
    rewrite four_digits by (unfold digit in *; lia). f_equal. f_equal.
    apply (group_byte_of a); [lia|]. change (2 ^ 16)%Z with 65536%Z. pose proof (byte_bound a).
    Z.to_euclidean_division_equations. lia.
  - destruct (base64_encode_two a b) as (d0 & d1 & d2 & H0 & H1 & H2 & Hs & ->). cbn [decode_groups]. rewrite !Hv by done. cbn.
    rewrite four_digits by (unfold digit in *; lia). pose proof (byte_bound a). pose proof (byte_bound b).
    rewrite (group_byte_of a), (group_byte_of b); [done|..]; try lia;
      [change (2 ^ 8)%Z with 256%Z|change (2 ^ 16)%Z with 65536%Z]; Z.to_euclidean_division_equations; lia.
  - destruct (base64_encode_three a b c s) as (d0 & d1 & d2 & d3 & H0 & H1 & H2 & H3 & Hs & ->).
    cbn [decode_groups]. rewrite !Hv, IH by done. rewrite four_digits by (unfold digit in *; lia).
    destruct (group_bytes (d0 * 262144 + d1 * 4096 + d2 * 64 + d3) a b c Hs) as (-> & -> & ->). done.
Qed.

Lemma base64_decode_encode s : base64_decode (base64_encode s) = Some s.
Proof. unfold base64_decode. rewrite without_breaks_encoded. apply decode_groups_encoded. Qed.

Lemma base64_encode_length s : (len (base64_encode s) = (len s + 2) / 3 * 4)%Z.
Proof.
  induction s as [|a|a b|a b c s IH] using string_ind3; [done..|].
  cbn [base64_encode]. unfold len in *. cbn [String.length]. rewrite !Nat2Z.inj_succ, IH. 
  Z.to_euclidean_division_equations. lia.
Qed.
