(* ===== verification/Sha256.v ===== *)
(** * SHA-256 and lower-case hex (crypto/sha256, encoding/hex)

    [sha256.Sum256] as FIPS 180-4 states it, executable, because what the
    program signs and compares are digests of exact bytes: signing inputs,
    idempotency keys, settlement bodies.  Its constants are computed from the
    primes they stand for.  [hex] is [hex.EncodeToString]. *)

From S2P Require Import Prelude Ids Text Base64.
From Stdlib Require Import Ascii.
Open Scope Z_scope.

Definition word_bits : Z := 32.
Definition word32 (z : Z) : Z := z mod 2 ^ word_bits.

Definition rotr (n x : Z) : Z := Z.lor (Z.shiftr x n) (word32 (Z.shiftl x (word_bits - n))).
Definition xor3 (x y z : Z) : Z := Z.lxor (Z.lxor x y) z.

Definition choose (x y z : Z) : Z := Z.lxor (Z.land x y) (Z.land (Z.lxor x (Z.ones word_bits)) z).
Definition majority (x y z : Z) : Z := xor3 (Z.land x y) (Z.land x z) (Z.land y z).
Definition big_sigma (r s t x : Z) : Z := xor3 (rotr r x) (rotr s x) (rotr t x).
Definition small_sigma (r s n x : Z) : Z := xor3 (rotr r x) (rotr s x) (Z.shiftr x n).

(** ** The constants *)

Definition is_prime (n : Z) : bool :=
  forallb (fun d => negb (n mod Z.of_nat d =? 0)) (List.seq 2 (Z.to_nat (Z.sqrt n) - 1)).

Definition primes (count : nat) : list Z :=
  take count (List.filter is_prime (Z.of_nat <$> List.seq 2 400)).

(** The largest root whose cube is at most [n], bit by bit. *)
Fixpoint cube_root (bit : nat) (root n : Z) : Z :=
  match bit with
  | O => root
  | S bit =>
      let candidate := root + 2 ^ Z.of_nat bit in
      cube_root bit (if candidate ^ 3 <=? n then candidate else root) n
  end.

(** The first 32 bits of the fractional parts of the cube and the square roots. *)
Definition round_constants : list Z :=
  Eval vm_compute in (fun p => word32 (cube_root 36 0 (p * 2 ^ 96))) <$> primes 64.
Definition initial_state : list Z :=
  Eval vm_compute in (fun p => word32 (Z.sqrt (p * 2 ^ 64))) <$> primes 8.

(** ** Bytes and words *)

Definition ascii_of_byte (b : Z) : ascii := ascii_of_N (Z.to_N b).
Definition bytes_of (s : string) : list Z := byte <$> String.list_ascii_of_string s.
Definition string_of_bytes (bs : list Z) : string := String.string_of_list_ascii (ascii_of_byte <$> bs).

(** [n] bytes of [z], most significant first. *)
Fixpoint big_endian (n : nat) (z : Z) : list Z :=
  match n with
  | O => []
  | S n => Z.shiftr z (8 * Z.of_nat n) mod 256 :: big_endian n z
  end.

Definition of_big_endian (bs : list Z) : Z := foldl (fun acc b => acc * 256 + b) 0 bs.

Fixpoint words (bs : list Z) : list Z :=
  match bs with
  | a :: b :: c :: d :: bs => of_big_endian [a; b; c; d] :: words bs
  | _ => []
  end.

(** A one bit, zeros up to 56 modulo 64 bytes, and the length in bits. *)
Definition padded (bs : list Z) : list Z :=
  let n := Z.of_nat (length bs) in
  bs ++ [128] ++ repeat 0 (Z.to_nat ((55 - n) mod 64)) ++ big_endian 8 (8 * n).

Fixpoint blocks (fuel : nat) (ws : list Z) : list (list Z) :=
  match fuel, ws with
  | O, _ | _, [] => []
  | S fuel, _ => take 16 ws :: blocks fuel (drop 16 ws)
  end.

(** ** The compression *)

(** The words of the rounds: the 16 of the block, then each from the window of
    the 16 before it. *)
Fixpoint schedule (rounds : nat) (window : list Z) : list Z :=
  match rounds with
  | O => []
  | S rounds =>
      let at_ i := nth i window 0 in
      let next := word32 (small_sigma 17 19 10 (at_ 14%nat) + at_ 9%nat + small_sigma 7 18 3 (at_ 1%nat) + at_ 0%nat) in
      at_ 0%nat :: schedule rounds (tail window ++ [next])
  end.

Definition round (state : list Z) (kw : Z * Z) : list Z :=
  match state with
  | [a; b; c; d; e; f; g; h] =>
      let t1 := h + big_sigma 6 11 25 e + choose e f g + kw.1 + kw.2 in
      let t2 := big_sigma 2 13 22 a + majority a b c in
      [word32 (t1 + t2); a; b; c; word32 (d + t1); e; f; g]
  | _ => state
  end.

Definition compress (state block : list Z) : list Z :=
  zip_with (fun x y => word32 (x + y)) state (foldl round state (zip round_constants (schedule 64 block))).

(** [sha256.Sum256]. *)
Definition Sum256 (body : string) : string :=
  let ws := words (padded (bytes_of body)) in
  string_of_bytes (concat (big_endian 4 <$> foldl compress initial_state (blocks (length ws) ws))).

(** [hex.EncodeToString]. *)
Definition lower_hex (n : Z) : ascii := if n <? 10 then ascii_of_byte (48 + n) else ascii_of_byte (87 + n).
Fixpoint hex (s : string) : string :=
  match s with
  | EmptyString => EmptyString
  | String c s => String (lower_hex (byte c / 16)) (String (lower_hex (byte c mod 16)) (hex s))
  end.

(** ** Published vectors *)

Example sha256_empty : hex (Sum256 "") = "e3b0c44298fc1c149afbf4c8996fb92427ae41e4649b934ca495991b7852b855".
Proof. vm_compute. reflexivity. Qed.

Example sha256_abc : hex (Sum256 "abc") = "ba7816bf8f01cfea414140de5dae2223b00361a396177a9cb410ff61f20015ad".
Proof. vm_compute. reflexivity. Qed.

Example sha256_two_blocks : hex (Sum256 "abcdbcdecdefdefgefghfghighijhijkijkljklmklmnlmnomnopnopq")
  = "248d6a61d20638b8e5c026930c3e6039a33ce45964ff2167f6ecedd419db06c1".
Proof. vm_compute. reflexivity. Qed.

(** ** What a digest looks like *)

Lemma length_round state kw : length state = 8%nat -> length (round state kw) = 8%nat.
Proof. intros H. by repeat (destruct state as [|? state]; try discriminate H). Qed.

Lemma length_compress state block : length state = 8%nat -> length (compress state block) = 8%nat.
Proof.
  intros H. unfold compress. rewrite length_zip_with, H.
  assert (Hr : forall l s, length s = 8%nat -> length (foldl round s l) = 8%nat)
    by (intros l; induction l as [|x l IH]; intros s Hs; [done|]; apply IH, length_round, Hs).
  by rewrite Hr.
Qed.

Lemma length_big_endian n z : length (big_endian n z) = n.
Proof. induction n; cbn; auto. Qed.

Lemma length_string_of_bytes bs : String.length (string_of_bytes bs) = length bs.
Proof. induction bs; cbn; auto. Qed.

Lemma length_Sum256 body : String.length (Sum256 body) = 32%nat.
Proof.
  unfold Sum256. rewrite length_string_of_bytes.
  generalize (blocks (length (words (padded (bytes_of body)))) (words (padded (bytes_of body)))) as bl. intros bl.
  assert (Hc : forall bl state, length state = 8%nat -> length (foldl compress state bl) = 8%nat).
  { intros bl'; induction bl' as [|b bl' IH]; intros state Hs; [done|]. cbn. apply IH, length_compress, Hs. }
  assert (Hl : forall l : list Z, length (concat (big_endian 4 <$> l)) = (4 * length l)%nat).
  { induction l as [|x l IH]; [done|]. cbn [fmap list_fmap concat]. rewrite length_app, IH, length_big_endian. cbn. lia. }
  by rewrite Hl, (Hc bl initial_state).
Qed.

Lemma length_hex s : String.length (hex s) = (2 * String.length s)%nat.
Proof. induction s as [|c s IH]; [done|]. cbn [hex String.length]. rewrite IH. lia. Qed.

(** A hex text has digits alone. *)
Lemma lower_hex_char n c : 0 <= n < 16 -> lower_hex n = c ->
  in_range "0" "9" c || in_range "a" "f" c = true.
Proof.
  intros Hn <-. assert (H : forallb (fun k => in_range "0" "9" (lower_hex (Z.of_nat k)) || in_range "a" "f" (lower_hex (Z.of_nat k)))
    (List.seq 0 16) = true) by (vm_compute; reflexivity).
  rewrite forallb_forall in H. rewrite <-(Z2Nat.id n) by lia. apply H, in_seq. lia.
Qed.

Lemma hex_over s : over (fun c => in_range "0" "9" c || in_range "a" "f" c) (hex s).
Proof.
  unfold over. induction s as [|c s IH]; intros x; [done|]. cbn [hex contains_char]. pose proof (byte_bound c) as Hb.
  rewrite !orb_true_iff. intros [H|[H|H]]; [| |rewrite <-orb_true_iff; by apply IH].
  - apply Ascii.eqb_eq in H. rewrite <-orb_true_iff. eapply lower_hex_char; [|exact H || exact (eq_sym H)].
    Z.to_euclidean_division_equations; lia.
  - apply Ascii.eqb_eq in H. rewrite <-orb_true_iff. eapply lower_hex_char; [|exact H || exact (eq_sym H)].
    Z.to_euclidean_division_equations; lia.
Qed.

Lemma hex_inj s t : hex s = hex t -> s = t.
Proof.
  assert (Hd : forall m n, 0 <= m < 16 -> 0 <= n < 16 -> lower_hex m = lower_hex n -> m = n).
  { intros m n Hm Hn H. assert (Hall : forallb (fun i => forallb (fun j =>
      negb (Ascii.eqb (lower_hex (Z.of_nat i)) (lower_hex (Z.of_nat j))) || Nat.eqb i j) (List.seq 0 16)) (List.seq 0 16) = true)
      by (vm_compute; reflexivity).
    rewrite forallb_forall in Hall. specialize (Hall (Z.to_nat m)). rewrite forallb_forall in Hall.
    specialize (Hall ltac:(apply in_seq; lia) (Z.to_nat n) ltac:(apply in_seq; lia)).
    rewrite !Z2Nat.id, H, Ascii.eqb_refl in Hall by lia. apply Nat.eqb_eq in Hall. lia. }
  revert t. induction s as [|c s IH]; intros [|d t]; cbn [hex]; try done. intros [= H1 H2 H3].
  pose proof (byte_bound c). pose proof (byte_bound d).
  apply Hd in H1; [|Z.to_euclidean_division_equations; lia..].
  apply Hd in H2; [|Z.to_euclidean_division_equations; lia..].
  f_equal; [|by apply IH]. assert (byte c = byte d) as E by (Z.to_euclidean_division_equations; lia).
  unfold byte in E. apply N2Z.inj in E. rewrite <-(Ascii.ascii_N_embedding c), <-(Ascii.ascii_N_embedding d). by rewrite E.
Qed.
