(* ===== verification/Lines.v ===== *)
(** * Splitting texts and reading numbers back (strings, strconv)

    [strings.Cut] and [strings.Split] at one character, and what the framed
    texts of the program rely on: a text is found again between its
    separators, and a decimal reads back as the integer it was written from. *)

From S2P Require Import Prelude Ids Text Base64.
From Stdlib Require Import Ascii.

Definition newline : ascii := "010"%char.

(** [strings.Cut] at a character. *)
Fixpoint Cut (c : ascii) (s : string) : option (string * string) :=
  match s with
  | EmptyString => None
  | String d s =>
      if Ascii.eqb c d then Some (EmptyString, s)
      else '(before, after) ← Cut c s; Some (String d before, after)
  end.

(** [strings.Split] at a character. *)
Fixpoint Split (c : ascii) (s : string) : list string :=
  match s with
  | EmptyString => [EmptyString]
  | String d s =>
      if Ascii.eqb c d then EmptyString :: Split c s
      else match Split c s with
           | piece :: pieces => String d piece :: pieces
           | [] => [String d EmptyString]
           end
  end.

(** ** Separators *)

Lemma str_app_nil_l (s : string) : "" +:+ s = s.
Proof. done. Qed.

Lemma Cut_app c a b : contains_char c a = false -> Cut c (a +:+ String c b) = Some (a, b).
Proof.
  induction a as [|d a IH]; intros H; [rewrite str_app_nil_l; cbn [Cut]; by rewrite Ascii.eqb_refl|].
  rewrite str_app_cons. cbn [contains_char] in H. apply orb_false_iff in H as [H1 H]. cbn [Cut]. by rewrite H1, IH.
Qed.

Lemma Cut_None c s : contains_char c s = false -> Cut c s = None.
Proof.
  induction s as [|d s IH]; cbn [contains_char Cut]; [done|]. intros [-> H]%orb_false_iff. by rewrite IH.
Qed.

Lemma Cut_Some c s a b : Cut c s = Some (a, b) -> s = a +:+ String c b /\ contains_char c a = false.
Proof.
  revert a b. induction s as [|d s IH]; intros a b; cbn [Cut]; [done|]. destruct (Ascii.eqb c d) eqn:E.
  - apply Ascii.eqb_eq in E as ->. intros [= <- <-]. done.
  - destruct (Cut c s) as [[x y]|]; [|done]. cbn. intros [= <- <-]. destruct (IH x y eq_refl) as [-> H].
    split; [done|]. cbn [contains_char]. by rewrite E.
Qed.

Lemma Split_whole c s : contains_char c s = false -> Split c s = [s].
Proof.
  induction s as [|d s IH]; cbn [contains_char Split]; [done|]. intros [-> H]%orb_false_iff. by rewrite IH.
Qed.

Lemma Split_app c a b : contains_char c a = false -> Split c (a +:+ String c b) = a :: Split c b.
Proof.
  induction a as [|d a IH]; intros H; [rewrite str_app_nil_l; cbn [Split]; by rewrite Ascii.eqb_refl|].
  rewrite str_app_cons. cbn [contains_char] in H. apply orb_false_iff in H as [H1 H]. cbn [Split]. by rewrite H1, IH.
Qed.

(** Pieces that do not hold the separator are found again. *)
Lemma Split_join c pieces : pieces <> [] -> Forall (fun p => contains_char c p = false) pieces ->
  Split c (join (String c EmptyString) pieces) = pieces.
Proof.
  intros Hne Hp. destruct pieces as [|p pieces]; [done|]. clear Hne. revert p Hp.
  induction pieces as [|q pieces IH]; intros p [Hp Hq]%Forall_cons; [by apply Split_whole|].
  change (join (String c EmptyString) (p :: q :: pieces))
    with (p +:+ String c EmptyString +:+ join (String c EmptyString) (q :: pieces)).
  rewrite str_app_cons. rewrite Split_app by done. f_equal. by apply IH.
Qed.

(** The first piece of a framed text, and its last, are determined. *)
Lemma first_piece c a a' s s' : contains_char c a = false -> contains_char c a' = false ->
  a +:+ String c s = a' +:+ String c s' -> a = a' /\ s = s'.
Proof. intros Ha Ha' H. apply (f_equal (Cut c)) in H. rewrite !Cut_app in H by done. by simplify_eq. Qed.

Lemma last_piece c s s' z z' : contains_char c z = false -> contains_char c z' = false ->
  s +:+ String c z = s' +:+ String c z' -> s = s' /\ z = z'.
Proof.
  intros Hz Hz'. revert s'. induction s as [|d s IH]; intros [|d' s']; rewrite ?str_app_cons, ?str_app_nil_l.
  - intros [= ->]. done.
  - intros [= <- ->]. by rewrite contains_char_app, orb_false_iff in Hz; cbn [contains_char] in Hz; rewrite Ascii.eqb_refl in Hz; destruct Hz.
  - intros [= -> <-]. by rewrite contains_char_app, orb_false_iff in Hz'; cbn [contains_char] in Hz'; rewrite Ascii.eqb_refl in Hz'; destruct Hz'.
  - intros [= <- H]. by destruct (IH s' H) as [-> ->].
Qed.

(** ** Decimals *)

Lemma decimal_char n : (0 <= n < 10)%Z -> exists c, ascii_of_nat (Z.to_nat (48 + n)) = c /\ digit_value c = Some n /\ is_digit c = true.
Proof.
  intros Hn. assert (H : forallb (fun k => let c := ascii_of_nat (Z.to_nat (48 + Z.of_nat k)) in
    bool_decide (digit_value c = Some (Z.of_nat k)) && is_digit c) (List.seq 0 10) = true) by (vm_compute; reflexivity).
  rewrite forallb_forall in H. specialize (H (Z.to_nat n) ltac:(apply in_seq; lia)). cbv zeta in H.
  rewrite Z2Nat.id, andb_true_iff, bool_decide_eq_true in H by lia. eauto.
Qed.

Lemma digits_value_decimal fuel n acc : (0 <= n < 10 ^ Z.of_nat fuel)%Z ->
  digits_value 0 (decimal_digits fuel n acc) = digits_value n acc.
Proof.
  revert n acc. induction fuel as [|fuel IH]; intros n acc Hn; [assert (n = 0)%Z as -> by lia; done|].
  cbn [decimal_digits]. pose proof (Z.mod_pos_bound n 10 ltac:(lia)) as Hm.
  destruct (decimal_char (n mod 10) Hm) as (c & -> & Hc & _).
  destruct (Z.ltb_spec n 10) as [Hlt|Hge].
  - cbn [digits_value]. rewrite Hc. cbn [mbind option_bind]. f_equal. rewrite Z.mod_small; lia.
  - rewrite IH.
    + cbn [digits_value]. rewrite Hc. cbn [mbind option_bind]. f_equal. Z.to_euclidean_division_equations; lia.
    + rewrite Nat2Z.inj_succ, Z.pow_succ_r in Hn by lia. split; [apply Z.div_pos; lia|]. apply Z.div_lt_upper_bound; lia.
Qed.

Lemma decimal_over fuel n acc : over is_digit acc -> over is_digit (decimal_digits fuel n acc).
Proof.
  revert n acc. induction fuel as [|fuel IH]; intros n acc Ha; [done|]. cbn [decimal_digits].
  assert (over is_digit (String (ascii_of_nat (Z.to_nat (48 + n mod 10))) acc)) as H.
  { destruct (decimal_char (n mod 10)) as (c & -> & _ & Hc); [apply Z.mod_pos_bound; lia|].
    intros x. cbn [contains_char]. rewrite orb_true_iff, Ascii.eqb_eq. intros [->|Hx]; [done|by apply Ha]. }
  destruct (n <? 10)%Z; [done|by apply IH].
Qed.

Lemma decimal_nonempty fuel n acc : exists c rest, decimal_digits (S fuel) n acc = String c rest.
Proof.
  cbn [decimal_digits]. destruct (n <? 10)%Z; [eauto|]. generalize (ascii_of_nat (Z.to_nat (48 + n mod 10))) as c.
  generalize (n / 10)%Z as m. clear n. revert acc. induction fuel as [|fuel IH]; intros acc m c; [cbn; eauto|].
  cbn [decimal_digits]. destruct (m <? 10)%Z; [eauto|]. apply IH.
Qed.

Lemma unsigned_text n : (0 <= n < 10 ^ 20)%Z ->
  exists c rest, decimal_digits 20 n "" = String c rest /\ (byte c =? 45)%Z = false /\ (byte c =? 43)%Z = false /\
    digits_value 0 (String c rest) = Some n /\ over is_digit (String c rest).
Proof.
  intros Hn. destruct (decimal_nonempty 19 n "") as (c & rest & E). exists c, rest.
  assert (over is_digit (String c rest)) as Ho by (rewrite <-E; apply decimal_over; done).
  assert (is_digit c = true) as Hd by (apply Ho; cbn [contains_char]; by rewrite Ascii.eqb_refl).
  split; [done|]. rewrite <-E at 1. rewrite digits_value_decimal by lia.
  split_and!; [| |done|done]; apply Z.eqb_neq; intros Hb; unfold byte in Hb;
    rewrite <-(ascii_N_embedding c) in Hd; [assert (N_of_ascii c = 45%N) as Hc by lia|assert (N_of_ascii c = 43%N) as Hc by lia];
    rewrite Hc in Hd; by vm_compute in Hd.
Qed.

(** [strconv.ParseInt] reads what [strconv.FormatInt] wrote. *)
Lemma ParseInt_Itoa n : in_int64 n -> ParseInt (Itoa n) = Some n.
Proof.
  intros Hn. unfold in_int64, int64_min, int64_max in Hn. unfold Itoa. destruct (Z.ltb_spec n 0).
  - destruct (unsigned_text (- n)) as (c & rest & E & _ & _ & Hv & _); [lia|]. unfold ParseInt. rewrite E.
    rewrite str_app_cons, str_app_nil_l. change (byte "-" =? 45)%Z with true. cbv iota beta. rewrite Hv. cbn [mbind option_bind].
    replace (-1 * - n)%Z with n by lia. unfold int64_min, int64_max.
    by rewrite (proj2 (Z.leb_le _ _)), (proj2 (Z.leb_le _ _)) by lia.
  - destruct (unsigned_text n) as (c & rest & E & H1 & H2 & Hv & _); [lia|]. unfold ParseInt. rewrite E, H1, H2, Hv.
    cbn [mbind option_bind]. rewrite Z.mul_1_l. unfold int64_min, int64_max.
    by rewrite (proj2 (Z.leb_le _ _)), (proj2 (Z.leb_le _ _)) by lia.
Qed.

Lemma Itoa_inj m n : in_int64 m -> in_int64 n -> Itoa m = Itoa n -> m = n.
Proof. intros Hm Hn H. apply (f_equal ParseInt) in H. rewrite !ParseInt_Itoa in H by done. by simplify_eq. Qed.

(** Decimals hold digits and a sign, so no separator. *)
Lemma Itoa_over n : in_int64 n -> over (fun c => is_digit c || Ascii.eqb c "-") (Itoa n).
Proof.
  intros Hn. unfold in_int64, int64_min, int64_max in Hn. unfold Itoa.
  assert (Hw : forall s, over is_digit s -> over (fun c => is_digit c || Ascii.eqb c "-") s)
    by (intros s H c Hc; by rewrite (H c Hc)).
  destruct (Z.ltb_spec n 0); [apply over_app; [by apply over_single|]|];
    (destruct (unsigned_text (if (n <? 0)%Z then - n else n)%Z) as (c & rest & E & _ & _ & _ & Ho);
      [destruct (Z.ltb_spec n 0); lia|]; destruct (Z.ltb_spec n 0); [try lia|try lia];
      rewrite E; by apply Hw).
Qed.

(** ** Texts with nothing to trim *)

(** Printable ASCII other than the space. *)
Definition plain (c : ascii) : bool := (33 <=? byte c)%Z && (byte c <=? 126)%Z.

Lemma over_cons f c s : over f (String c s) -> f c = true /\ over f s.
Proof.
  intros H. split; [apply H; cbn [contains_char]; by rewrite Ascii.eqb_refl|].
  intros x Hx. apply H. cbn [contains_char]. by rewrite Hx, orb_true_r.
Qed.

Lemma over_weaken (f g : ascii -> bool) s : (forall c, f c = true -> g c = true) -> over f s -> over g s.
Proof. intros Hfg H c Hc. by apply Hfg, H. Qed.

Lemma runes_plain s : over plain s -> runes s = (fun c => (byte c, 1%Z)) <$> String.list_ascii_of_string s.
Proof.
  induction s as [|c s IH]; [done|]. intros [Hc Hs]%over_cons. unfold plain in Hc. rewrite runes_ascii by lia.
  rewrite IH by done. done.
Qed.

Lemma not_space c : plain c = true -> IsSpace (byte c) = false.
Proof. unfold plain, IsSpace. lia. Qed.

Lemma leading_plain l : Forall (fun c => plain c = true) l -> leading_spaces ((fun c => (byte c, 1%Z)) <$> l) = 0%Z.
Proof. destruct 1 as [|c l Hc _]; [done|]. cbn [fmap list_fmap leading_spaces]. by rewrite not_space. Qed.

Lemma over_Forall f s : over f s -> Forall (fun c => f c = true) (String.list_ascii_of_string s).
Proof. induction s as [|c s IH]; [constructor|]. intros [Hc Hs]%over_cons. constructor; auto. Qed.

Lemma TrimSpace_plain s : over plain s -> TrimSpace s = s.
Proof.
  intros H. unfold TrimSpace. rewrite runes_plain, <-fmap_reverse by done. pose proof (over_Forall _ _ H) as Hf.
  rewrite !leading_plain by (done || by apply Forall_reverse). rewrite !Z.sub_0_r, Nat2Z.id. apply substring_all.
Qed.

(** Base64 texts are plain and hold no separator. *)
Definition base64_char (c : ascii) : bool :=
  alnum c || Ascii.eqb c "+" || Ascii.eqb c "/" || Ascii.eqb c "=".

Lemma base64_digit_char d : digit d -> base64_char (base64_digit d) = true.
Proof.
  intros Hd. assert (H : forallb (fun k => base64_char (base64_digit (Z.of_nat k))) (List.seq 0 64) = true)
    by (vm_compute; reflexivity).
  rewrite forallb_forall in H. unfold digit in Hd. rewrite <-(Z2Nat.id d) by lia. apply H, in_seq. lia.
Qed.

Lemma over_String (f : ascii -> bool) c s : f c = true -> over f s -> over f (String c s).
Proof. intros Hc Hs x. cbn [contains_char]. rewrite orb_true_iff, Ascii.eqb_eq. intros [->|Hx]; [done|by apply Hs]. Qed.

Lemma over_all (f : ascii -> bool) s : forallb f (String.list_ascii_of_string s) = true -> over f s.
Proof. induction s as [|c s IH]; [done|]. cbn [String.list_ascii_of_string forallb]. intros [? ?]%andb_true_iff. apply over_String; auto. Qed.

Lemma base64_encode_over s : over base64_char (base64_encode s).
Proof.
  induction s as [|a|a b|a b c s IH] using string_ind3; [done|..].
  - destruct (base64_encode_one a) as (d0 & d1 & H0 & H1 & _ & ->).
    repeat (apply over_String; [first [by apply base64_digit_char|done]|]). done.
  - destruct (base64_encode_two a b) as (d0 & d1 & d2 & H0 & H1 & H2 & _ & ->).
    repeat (apply over_String; [first [by apply base64_digit_char|done]|]). done.
  - destruct (base64_encode_three a b c s) as (d0 & d1 & d2 & d3 & H0 & H1 & H2 & H3 & _ & ->).
    repeat (apply over_String; [by apply base64_digit_char|]). done.
Qed.

Lemma base64_char_plain c : base64_char c = true -> plain c = true.
Proof. destruct c as [[] [] [] [] [] [] [] []]; by vm_compute. Qed.
