(* ===== verification/EdgeAuth.v ===== *)
(** * The signed edge (internal/edgeauth/edgeauth.go)

    Every request Kaana executes, and every grant, credential mutation and
    settlement read it takes, is signed by Oxy with Ed25519 over a text that
    names the purpose, the key, the time and the digest of the exact body.
    This file holds the verifier, the signer of Kaana's own settlements and the
    configuration forms of their keys.  Ed25519 is a parameter; SHA-256, hex
    and base64 are executable (Sha256.v, Base64.v). *)

From S2P Require Import Prelude Ids Text Base64 Sha256 Lines KeyPool.

(** ** Headers *)

(** [http.Header] under canonical names: [Get] answers the first value or
    nothing, [Set] replaces them all. *)
Abbreviation Header := (gmap string (list string)) (only parsing).

Definition header_Get (header : Header) (name : string) : string :=
  match header !! name with Some (value :: _) => value | _ => "" end.
Definition header_Set (name value : string) (header : Header) : Header := <[name := [value]]> header.

Definition HeaderKeyID := "X-Oxy-Kaana-Key-Id".
Definition HeaderTimestamp := "X-Oxy-Kaana-Timestamp".
Definition HeaderSignature := "X-Oxy-Kaana-Signature".
Definition signaturePrefix := "v1=".

(** ** Purposes *)

Definition inferenceDomainSeparator := "oxy-kaana-envelope:v1".
Definition credentialControlDomainSeparator := "oxy-kaana-credential-control:v1".
Definition platformCredentialControlDomainSeparator := "oxy-kaana-platform-credential-control:v1".
Definition credentialValidationDomainSeparator := "oxy-kaana-credential-validation:v1".
Definition providerTelemetryDomainSeparator := "oxy-kaana-provider-telemetry:v1".
Definition grantDomainSeparator := "oxy-kaana-grant:v1".
Definition settlementReadDomainSeparator := "oxy-kaana-settlement-read:v1".
Definition settlementDomainSeparator := "kaana-oxy-settlement:v1".

(** The purposes a signature can have been made for. *)
Definition purposes : list string :=
  [inferenceDomainSeparator; credentialControlDomainSeparator; platformCredentialControlDomainSeparator;
   credentialValidationDomainSeparator; providerTelemetryDomainSeparator; grantDomainSeparator;
   settlementReadDomainSeparator; settlementDomainSeparator].

(** [signingInput]. *)
Definition signingInput (domain keyID : string) (timestampMillis : Z) (body : string) : string :=
  join (String newline "") [domain; keyID; Itoa timestampMillis; hex (Sum256 body)].

Definition SigningInput := signingInput inferenceDomainSeparator.
Definition CredentialControlSigningInput := signingInput credentialControlDomainSeparator.
Definition PlatformCredentialControlSigningInput := signingInput platformCredentialControlDomainSeparator.
Definition CredentialValidationSigningInput := signingInput credentialValidationDomainSeparator.
Definition ProviderTelemetrySigningInput := signingInput providerTelemetryDomainSeparator.
Definition GrantSigningInput := signingInput grantDomainSeparator.
Definition SettlementReadSigningInput := signingInput settlementReadDomainSeparator.
Definition SettlementSigningInput := signingInput settlementDomainSeparator.

(** ** Times in milliseconds *)

(** [time.UnixMilli] and [Time.UnixMilli]. *)
Definition time_UnixMilli (milliseconds : Z) : Instant := (unix_epoch + milliseconds * Millisecond)%Z.
Definition UnixMilli (t : Instant) : Z := wrap64 ((t - unix_epoch) / Millisecond).

Definition DefaultMaxSkew : Duration := (5 * Minute)%Z.

(** ** Ed25519 (crypto/ed25519)

    The operations the program calls, and what their documentation promises of
    a pair of keys. *)

Definition SeedSize : Z := 32.
Definition PublicKeySize : Z := 32.
Definition SignatureSize : Z := 64.

Class Ed25519 := {
  ed_Public : string -> string;                    (* of NewKeyFromSeed *)
  ed_Sign : string -> string -> string;            (* a seed, a message *)
  ed_Verify : string -> string -> string -> bool;  (* a public key, a message, a signature *)
}.

Class Ed25519Laws `{Ed25519} : Prop := {
  ed_public_size seed : len seed = SeedSize -> len (ed_Public seed) = PublicKeySize;
  ed_signature_size seed message : len seed = SeedSize -> len (ed_Sign seed message) = SignatureSize;
  ed_signed seed message : len seed = SeedSize -> ed_Verify (ed_Public seed) message (ed_Sign seed message) = true;
}.

(** ** Verifier *)

Record Verifier := mkVerifier { v_keys : gmap string string; v_maxSkew : Duration; v_domain : string }.

Inductive BadKeys := NoKeys | EmptyKeyID | WrongKeySize.

(** [newVerifier]; a map is walked in no fixed order, so which of the two bad
    keys a set of several is refused for is not determined: the model names an
    empty id first. *)
Definition newVerifier (keys : gmap string string) (maxSkew : Duration) (domain : string) : Verifier + BadKeys :=
  if decide (keys = ∅) then inr NoKeys
  else if decide (is_Some (keys !! "")) then inr EmptyKeyID
  else if forallb (fun entry => (len entry.2 =? PublicKeySize)%Z) (map_to_list keys)
  then inl (mkVerifier keys (if (maxSkew <=? 0)%Z then DefaultMaxSkew else maxSkew) domain)
  else inr WrongKeySize.

(** What every failure wraps [ErrUnauthorized] with. *)
Inductive Unauthorized :=
  UnknownKeyID | UnreadableTimestamp | OutsideTheWindow | UnversionedSignature | MalformedSignature | DoesNotVerify.

Section Signatures.
Context `{Ed25519}.

(** [Verifier.Verify] at [now]; [None] is acceptance. *)
Definition Verify (v : Verifier) (now : Instant) (header : Header) (body : string) : option Unauthorized :=
  let keyID := header_Get header HeaderKeyID in
  match v_keys v !! keyID with
  | None => Some UnknownKeyID
  | Some key =>
      match ParseInt (header_Get header HeaderTimestamp) with
      | None => Some UnreadableTimestamp
      | Some milliseconds =>
          let drift := Sub now (time_UnixMilli milliseconds) in
          if (v_maxSkew v <? drift)%Z || (drift <? - v_maxSkew v)%Z then Some OutsideTheWindow
          else
            let raw := header_Get header HeaderSignature in
            if negb (HasPrefix signaturePrefix raw) then Some UnversionedSignature
            else match base64_decode (TrimPrefix signaturePrefix raw) with
            | None => Some MalformedSignature
            | Some signature =>
                if negb (len signature =? SignatureSize)%Z then Some MalformedSignature
                else if ed_Verify key (signingInput (v_domain v) keyID milliseconds body) signature then None
                else Some DoesNotVerify
            end
      end
  end.

(** ** Signer *)

Record Signer := mkSigner { s_keyID : string; s_seed : string; s_domain : string }.

(** [NewSettlementSigner]. *)
Definition NewSettlementSigner (spec : string) : option Signer :=
  '(id, encoded) ← Cut ":" (TrimSpace spec);
  let id := TrimSpace id in
  if id =s "" then None
  else
    seed ← base64_decode (TrimSpace encoded);
    if (len seed =? SeedSize)%Z then Some (mkSigner id seed settlementDomainSeparator) else None.

Definition PublicKey (s : Signer) : string := ed_Public (s_seed s).

(** [Signer.Sign] at [now]. *)
Definition Sign (s : Signer) (now : Instant) (body : string) (header : Header) : Header :=
  let timestamp := UnixMilli now in
  let signature := ed_Sign (s_seed s) (signingInput (s_domain s) (s_keyID s) timestamp body) in
  header_Set HeaderSignature (signaturePrefix +:+ base64_encode signature)
    (header_Set HeaderTimestamp (Itoa timestamp) (header_Set HeaderKeyID (s_keyID s) header)).

End Signatures.

(** ** The configuration of the public keys *)

(** The entries of the list, in order; [None] is a configuration refused. *)
Fixpoint parse_entries (entries : list string) (keys : gmap string string) : option (gmap string string) :=
  match entries with
  | [] => Some keys
  | entry :: entries =>
      let entry := TrimSpace entry in
      if entry =s "" then parse_entries entries keys
      else
        '(id, encoded) ← Cut ":" entry;
        decoded ← base64_decode (TrimSpace encoded);
        if negb (len decoded =? PublicKeySize)%Z then None
        else if decide (is_Some (keys !! TrimSpace id)) then None
        else parse_entries entries (<[TrimSpace id := decoded]> keys)
  end.

(** [ParsePublicKeys]. *)
Definition ParsePublicKeys (spec : string) : option (gmap string string) :=
  keys ← parse_entries (Split "," spec) ∅;
  if decide (keys = ∅) then None else Some keys.

(** * Facts *)

Lemma purposes_have_no_newline purpose : purpose ∈ purposes -> contains_char newline purpose = false.
Proof.
  intros H. assert (Hall : forallb (fun p => negb (contains_char newline p)) purposes = true) by (vm_compute; reflexivity).
  rewrite forallb_forall in Hall. by apply negb_true_iff, Hall, list_elem_of_In.
Qed.

Lemma hex_no_newline s : contains_char newline (hex s) = false.
Proof. eapply over_no_char; [apply hex_over|by vm_compute]. Qed.

Lemma Itoa_no_newline n : in_int64 n -> contains_char newline (Itoa n) = false.
Proof. intros Hn. eapply over_no_char; [by apply Itoa_over|by vm_compute]. Qed.

Lemma signingInput_eq domain keyID t body :
  signingInput domain keyID t body
  = domain +:+ String newline (keyID +:+ String newline (Itoa t +:+ String newline (hex (Sum256 body)))).
Proof. unfold signingInput. cbn [join]. by rewrite !str_app_cons, !str_app_nil_l. Qed.

(** A signing input determines what it was made of, the body up to its digest,
    whatever characters the key's id holds. *)
Lemma signingInput_inj domain domain' keyID keyID' t t' body body' :
  contains_char newline domain = false -> contains_char newline domain' = false -> in_int64 t -> in_int64 t' ->
  signingInput domain keyID t body = signingInput domain' keyID' t' body' ->
  domain = domain' /\ keyID = keyID' /\ t = t' /\ Sum256 body = Sum256 body'.
Proof.
  intros Hd Hd' Ht Ht'. rewrite !signingInput_eq. intros [-> H]%first_piece; [|done..].
  rewrite <-!(str_app_cons newline), <-!str_app_assoc in H.
  assert (H' : (keyID +:+ String newline (Itoa t)) +:+ String newline (hex (Sum256 body))
    = (keyID' +:+ String newline (Itoa t')) +:+ String newline (hex (Sum256 body'))).
  { rewrite !str_app_assoc, !str_app_cons in *. done. }
  apply last_piece in H' as [H1 H2]; [|apply hex_no_newline..].
  apply last_piece in H1 as [-> H1]; [|by apply Itoa_no_newline..].
  apply Itoa_inj in H1 as ->; [|done..]. by apply hex_inj in H2.
Qed.

(** ** The window *)

Lemma within_window skew now t : (0 < skew < int64_max)%Z ->
  (skew <? Sub now t)%Z || (Sub now t <? - skew)%Z = false <-> (- skew <= now - t <= skew)%Z.
Proof.
  intros Hs. rewrite orb_false_iff, !Z.ltb_ge. unfold Sub, clamp64, int64_min, int64_max in *. lia.
Qed.

Section SignatureFacts.
Context `{Ed25519}.

(** What a verifier accepts, as one condition. *)
Lemma Verify_accepts_iff v now header body :
  (0 < v_maxSkew v < int64_max)%Z ->
  Verify v now header body = None <->
  exists key t encoded signature,
    v_keys v !! header_Get header HeaderKeyID = Some key /\
    ParseInt (header_Get header HeaderTimestamp) = Some t /\
    (- v_maxSkew v <= now - time_UnixMilli t <= v_maxSkew v)%Z /\
    header_Get header HeaderSignature = signaturePrefix +:+ encoded /\
    base64_decode encoded = Some signature /\ len signature = SignatureSize /\
    ed_Verify key (signingInput (v_domain v) (header_Get header HeaderKeyID) t body) signature = true.
Proof.
  intros Hs. unfold Verify. set (raw := header_Get header HeaderSignature).
  destruct (v_keys v !! _) as [key|]; [|split; [done|by intros (? & ? & ? & ? & ? & _)]].
  destruct (ParseInt _) as [t|]; [|split; [done|by intros (? & ? & ? & ? & _ & ? & _)]]. cbv zeta.
  destruct ((v_maxSkew v <? _)%Z || _) eqn:Ew.
  { split; [done|]. intros (? & t' & ? & ? & _ & [= <-] & Hw & _). by apply within_window in Hw; [rewrite Hw in Ew|]. }
  apply within_window in Ew; [|done]. destruct (HasPrefix signaturePrefix raw) eqn:Ep; cbn [negb].
  2: { split; [done|]. intros (? & ? & enc & ? & _ & _ & _ & Hr & _). by rewrite Hr, HasPrefix_app in Ep. }
  rewrite HasPrefix_CutPrefix in Ep. destruct (CutPrefix raw signaturePrefix) as [enc|] eqn:Ec; [|done].
  apply CutPrefix_Some in Ec. rewrite Ec, TrimPrefix_app.
  destruct (base64_decode enc) as [signature|] eqn:Eb.
  2: { split; [done|]. intros (? & ? & enc' & ? & _ & _ & _ & Hr & Hb & _). rewrite <-(TrimPrefix_app signaturePrefix enc), Hr, TrimPrefix_app in Eb.
       by rewrite Hb in Eb. }
  destruct (Z.eqb_spec (len signature) SignatureSize) as [Hl|Hl]; cbn [negb].
  2: { split; [done|]. intros (? & ? & enc' & ? & _ & _ & _ & Hr & Hb & ? & _).
       rewrite <-(TrimPrefix_app signaturePrefix enc), Hr, TrimPrefix_app, Hb in Eb. by simplify_eq. }
  destruct (ed_Verify _ _ _) eqn:Ev.
  - split; [|done]. intros _. exists key, t, enc, signature. done.
  - split; [done|]. intros (key' & t' & enc' & sig' & [= <-] & [= <-] & _ & Hr & Hb & _ & Hv).
    rewrite <-(TrimPrefix_app signaturePrefix enc), Hr, TrimPrefix_app, Hb in Eb. simplify_eq. congruence.
Qed.

End SignatureFacts.

Lemma ParseInt_in_int64 s n : ParseInt s = Some n -> in_int64 n.
Proof.
  unfold ParseInt. destruct (match s with EmptyString => _ | _ => _ end) as [sign digits]. destruct digits; [done|].
  destruct (digits_value _ _); [|done]. cbn. destruct (_ && _) eqn:E; [|done]. intros [= <-]. unfold in_int64. lia.
Qed.

(** ** Only what Oxy signed, for what it signed it *)

(** What the holders of the keys signed: under a key, for a purpose, as a key
    id, at a time, over a body. *)
Record signing := mkSigning { sg_key : string; sg_purpose : string; sg_keyID : string; sg_time : Z; sg_body : string }.

Definition signed_text (s : signing) : string := signingInput (sg_purpose s) (sg_keyID s) (sg_time s) (sg_body s).

(** A signer signs for one of the purposes, at a time an [int64] holds. *)
Definition proper (s : signing) : Prop := sg_purpose s ∈ purposes /\ in_int64 (sg_time s).

Section Signed.
Context `{Ed25519} (log : list signing) (Hlog : Forall proper log).

(** A signature that verifies under a key over a text its holder never signed:
    what Ed25519 makes infeasible to produce, and what no program can detect. *)
Definition forgery (key message signature : string) : Prop :=
  ed_Verify key message signature = true /\ forall s, s ∈ log -> sg_key s = key -> signed_text s <> message.

(** The signature a header presents, over this body to this verifier at this
    time, and what its acceptance says. *)
Record presents (v : Verifier) (now : Instant) (header : Header) (body key : string) (t : Z) (signature : string) : Prop := {
  pr_key : v_keys v !! header_Get header HeaderKeyID = Some key;
  pr_time : ParseInt (header_Get header HeaderTimestamp) = Some t;
  pr_window : (Z.abs (now - time_UnixMilli t) <= v_maxSkew v)%Z;
  pr_signature : exists encoded, header_Get header HeaderSignature = signaturePrefix +:+ encoded /\
    base64_decode encoded = Some signature /\ len signature = SignatureSize;
  pr_verifies : ed_Verify key (signingInput (v_domain v) (header_Get header HeaderKeyID) t body) signature = true;
}.

(** The entry of the log a presented signature is for: made under this key, for
    this purpose, id and time, over this body up to its digest. *)
Definition signed_for (v : Verifier) (header : Header) (body key : string) (t : Z) : Prop :=
  exists s, s ∈ log /\ sg_key s = key /\ sg_purpose s = v_domain v /\ sg_keyID s = header_Get header HeaderKeyID /\
    sg_time s = t /\ Sum256 (sg_body s) = Sum256 body.

Lemma log_or_forgery key message signature : ed_Verify key message signature = true ->
  (exists s, s ∈ log /\ sg_key s = key /\ signed_text s = message) \/ forgery key message signature.
Proof using H.
  intros Hv. destruct (list_find (fun s => sg_key s = key /\ signed_text s = message) log) as [[i s]|] eqn:E.
  - apply list_find_Some in E as (Hs & [Hk Hm] & _). left. exists s. split; [by eapply list_elem_of_lookup_2|done].
  - apply list_find_None in E. right. split; [done|]. rewrite Forall_forall in E. intros s Hs Hk Hm. by apply (E s Hs).
Qed.

Lemma Verify_signed v now header body :
  (0 < v_maxSkew v < int64_max)%Z -> v_domain v ∈ purposes -> Verify v now header body = None ->
  exists key t signature, presents v now header body key t signature /\
    (signed_for v header body key t \/
     forgery key (signingInput (v_domain v) (header_Get header HeaderKeyID) t body) signature).
Proof using Hlog.
  intros Hs Hd (key & t & enc & signature & Hk & Ht & Hw & Hraw & Hdec & Hlen & Hv)%Verify_accepts_iff; [|done].
  exists key, t, signature. split; [constructor; try done; [lia|by exists enc]|].
  destruct (log_or_forgery _ _ _ Hv) as [(s & Hin & Hkey & Hm)|Hf]; [left|by right]. exists s.
  rewrite Forall_forall in Hlog. destruct (Hlog s Hin) as [Hp Hti].
  apply signingInput_inj in Hm as (H1 & H2 & H3 & H4);
    [done|by apply purposes_have_no_newline..|done|by eapply ParseInt_in_int64].
Qed.

(** C30. What a verifier accepts was signed for exactly this.  An accepted
    request presents, in the encoding the headers prescribe, a signature that
    verifies under the configured key its header names over the text of this
    verifier's purpose, that key id, the header's time and this body's digest,
    the time no further from now than the skew.  So against any record of what
    the keys' holders signed, either the holder of that key signed for this
    purpose and no other, under this key id, at this very time and over this
    body (or one of the same SHA-256), or the request carries a forgery: a
    signature that verifies over a text the holder never signed. *)
Theorem accepted_requests_were_signed v now header body :
  (0 < v_maxSkew v < int64_max)%Z -> v_domain v ∈ purposes -> Verify v now header body = None ->
  exists key t signature, presents v now header body key t signature /\
    (signed_for v header body key t \/
     forgery key (signingInput (v_domain v) (header_Get header HeaderKeyID) t body) signature).
Proof using Hlog. apply Verify_signed. Qed.

End Signed.

(** ** What is configured and signed verifies *)

(** An id a configuration can name: visible text, no separator of the form. *)
Definition id_char (c : ascii) : bool := plain c && negb (Ascii.eqb c ",") && negb (Ascii.eqb c ":").

Lemma id_plain s : over id_char s -> over plain s.
Proof. apply over_weaken. unfold id_char. intros c. by rewrite !andb_true_iff; intros [[? _] _]. Qed.

Definition key_entry (id key : string) : string := id +:+ ":" +:+ base64_encode key.

Lemma key_entry_plain id key : over id_char id -> over plain (key_entry id key).
Proof.
  intros H. apply over_app; [by apply id_plain|]. apply over_app; [by apply over_single|].
  eapply over_weaken, base64_encode_over. apply base64_char_plain.
Qed.

Lemma key_entry_no_comma id key : over id_char id -> contains_char "," (key_entry id key) = false.
Proof.
  intros H. unfold key_entry. rewrite !contains_char_app, !orb_false_iff. split; [by eapply over_no_char|].
  split; [done|]. eapply over_no_char; [apply base64_encode_over|done].
Qed.

Lemma key_entry_cut id key : over id_char id -> Cut ":" (key_entry id key) = Some (id, base64_encode key).
Proof. intros H. unfold key_entry. rewrite str_app_cons, str_app_nil_l. apply Cut_app. by eapply over_no_char. Qed.

Lemma key_entry_nonempty id key : (key_entry id key =s "") = false.
Proof. unfold key_entry. by destruct id. Qed.

Lemma parse_entries_keys entries keys :
  Forall (fun entry => over id_char entry.1 /\ len entry.2 = PublicKeySize /\ keys !! entry.1 = None) entries ->
  NoDup entries.*1 ->
  parse_entries (uncurry key_entry <$> entries) keys = Some (list_to_map (reverse entries) ∪ keys).
Proof.
  revert keys. induction entries as [|[id key] entries IH]; intros keys.
  { intros _ _. change (Some keys = Some (∅ ∪ keys)). by rewrite (left_id_L ∅ (∪)). }
  intros [(Hid & Hkey & Hnew) Hall]%Forall_cons [Hfresh Hnd]%NoDup_cons. cbn [fmap list_fmap uncurry parse_entries fst snd] in *.
  rewrite (TrimSpace_plain (key_entry id key)) by by apply key_entry_plain.
  rewrite key_entry_nonempty, key_entry_cut by done. cbn [mbind option_bind].
  rewrite (TrimSpace_plain (base64_encode key)) by (eapply over_weaken, base64_encode_over; apply base64_char_plain).
  rewrite base64_decode_encode. cbn [mbind option_bind]. rewrite Hkey, Z.eqb_refl, (TrimSpace_plain id) by by apply id_plain.
  cbn [negb]. rewrite decide_False by (rewrite Hnew; by intros [? ?]).
  rewrite IH; [|apply Forall_forall; intros [id' key'] Hin; rewrite Forall_forall in Hall|done].
  - f_equal. rewrite reverse_cons, list_to_map_app, <-(assoc_L (∪)). f_equal. cbn [list_to_map foldr].
    by rewrite insert_union_singleton_l, (right_id_L ∅ (∪)) || (cbn; by rewrite insert_empty, insert_union_singleton_l).
  - destruct (Hall _ Hin) as (? & ? & ?). split_and!; [done..|]. cbn [fst] in *.
    rewrite lookup_insert_ne; [done|]. intros <-. apply Hfresh. apply list_elem_of_fmap. by exists (id, key').
Qed.

Lemma ParsePublicKeys_configured entries :
  entries <> [] -> Forall (fun entry => over id_char entry.1 /\ len entry.2 = PublicKeySize) entries -> NoDup entries.*1 ->
  ParsePublicKeys (join "," (uncurry key_entry <$> entries)) = Some (list_to_map entries).
Proof.
  intros Hne Hall Hnd. unfold ParsePublicKeys. rewrite Split_join.
  - rewrite parse_entries_keys; [|eapply Forall_impl; [exact Hall|]; intros ? [? ?]; by rewrite lookup_empty|done].
    cbn [mbind option_bind]. rewrite (right_id_L ∅ (∪)).
    assert (list_to_map (reverse entries) = list_to_map entries :> gmap string string) as ->.
    { apply list_to_map_proper; [by rewrite reverse_Permutation|]. by rewrite reverse_Permutation. }
    rewrite decide_False; [done|]. destruct entries as [|[id key] entries]; [done|]. cbn. apply insert_non_empty.
  - by destruct entries.
  - apply Forall_fmap. eapply Forall_impl; [exact Hall|]. intros [id key] [Hid _]. by apply key_entry_no_comma.
Qed.

Lemma newVerifier_configured entries skew domain :
  entries <> [] -> Forall (fun entry => entry.1 <> "" /\ len entry.2 = PublicKeySize) entries -> NoDup entries.*1 ->
  newVerifier (list_to_map entries) skew domain
  = inl (mkVerifier (list_to_map entries) (if (skew <=? 0)%Z then DefaultMaxSkew else skew) domain).
Proof.
  intros Hne Hall Hnd. unfold newVerifier. rewrite decide_False, decide_False.
  - assert (forallb (fun entry => (len entry.2 =? PublicKeySize)%Z) (map_to_list (list_to_map entries : gmap string string)) = true) as ->; [|done].
    apply forallb_forall. intros [id key] Hin%list_elem_of_In. apply elem_of_map_to_list, elem_of_list_to_map_2 in Hin.
    rewrite Forall_forall in Hall. destruct (Hall _ Hin) as [_ Hl]. cbn in *. lia.
  - intros [key Hk]. apply elem_of_list_to_map_2 in Hk. rewrite Forall_forall in Hall. by destruct (Hall _ Hk).
  - destruct entries as [|[id key] entries]; [done|]. cbn. apply insert_non_empty.
Qed.

Lemma sent_headers `{Ed25519} s now body header :
  header_Get (Sign s now body header) HeaderKeyID = s_keyID s /\
  header_Get (Sign s now body header) HeaderTimestamp = Itoa (UnixMilli now) /\
  header_Get (Sign s now body header) HeaderSignature
  = signaturePrefix +:+ base64_encode (ed_Sign (s_seed s) (signingInput (s_domain s) (s_keyID s) (UnixMilli now) body)).
Proof.
  unfold Sign, header_Get, header_Set. split_and!;
    repeat (rewrite lookup_insert_eq || (rewrite lookup_insert_ne by done)); done.
Qed.

(** A millisecond stamp is the time it was taken, less than a millisecond late. *)
Lemma UnixMilli_round now : in_int64 ((now - unix_epoch) / Millisecond) ->
  (now - Millisecond < time_UnixMilli (UnixMilli now) <= now)%Z.
Proof.
  intros H. unfold time_UnixMilli, UnixMilli. rewrite wrap64_id by done. unfold Millisecond in *.
  Z.to_euclidean_division_equations. lia.
Qed.

Lemma NewSettlementSigner_configured id seed : over id_char id -> id <> "" -> len seed = SeedSize ->
  NewSettlementSigner (key_entry id seed) = Some (mkSigner id seed settlementDomainSeparator).
Proof.
  intros Hid Hne Hseed. unfold NewSettlementSigner. rewrite (TrimSpace_plain (key_entry id seed)) by by apply key_entry_plain.
  rewrite key_entry_cut by done. cbn [mbind option_bind]. rewrite (TrimSpace_plain id) by by apply id_plain.
  destruct (String.eqb_spec id ""); [done|].
  rewrite (TrimSpace_plain (base64_encode seed)) by (eapply over_weaken, base64_encode_over; apply base64_char_plain).
  rewrite base64_decode_encode. cbn [mbind option_bind]. by rewrite Hseed, Z.eqb_refl.
Qed.

Lemma signed_verifies `{Ed25519Laws} v s now now' body header :
  (0 < v_maxSkew v < int64_max)%Z -> len (s_seed s) = SeedSize -> s_domain s = v_domain v ->
  v_keys v !! s_keyID s = Some (PublicKey s) -> in_int64 ((now - unix_epoch) / Millisecond) ->
  (Z.abs (now' - now) + Millisecond <= v_maxSkew v)%Z ->
  Verify v now' (Sign s now body header) body = None.
Proof.
  intros Hs Hseed Hd Hk Hnow Hw. apply Verify_accepts_iff; [done|].
  destruct (sent_headers s now body header) as (-> & -> & ->). pose proof (UnixMilli_round now Hnow) as Hr.
  eexists _, (UnixMilli now), _, _. split; [exact Hk|]. split; [by apply ParseInt_Itoa, wrap64_range|].
  split; [lia|]. split; [done|]. split; [apply base64_decode_encode|]. split; [by apply ed_signature_size|].
  rewrite <-Hd. by apply ed_signed.
Qed.

(** A settlement signed with the seed of a configuration verifies with
    every verifier configured with its public key among others, whatever the
    body and the other headers, as long as the clocks agree within the skew,
    less the millisecond a stamp is rounded by: the configuration forms, the
    headers, the stamp and the encodings all read back as they were written. *)
Theorem configured_signers_are_verified `{Ed25519Laws} id seed entries skew now now' body header :
  over id_char id -> id <> "" -> len seed = SeedSize ->
  (id, ed_Public seed) ∈ entries -> NoDup entries.*1 ->
  Forall (fun entry => entry.1 <> "" /\ over id_char entry.1 /\ len entry.2 = PublicKeySize) entries ->
  (0 < skew < int64_max)%Z -> in_int64 ((now - unix_epoch) / Millisecond) -> (Z.abs (now' - now) + Millisecond <= skew)%Z ->
  exists signer keys v,
    NewSettlementSigner (key_entry id seed) = Some signer /\
    ParsePublicKeys (join "," (uncurry key_entry <$> entries)) = Some keys /\
    newVerifier keys skew settlementDomainSeparator = inl v /\
    Verify v now' (Sign signer now body header) body = None.
Proof.
  intros Hid Hne Hseed Hin Hnd Hall Hskew Hnow Hw.
  assert (entries <> []) as Hnil by (by intros ->; apply not_elem_of_nil in Hin).
  eexists _, _, _. split; [by apply NewSettlementSigner_configured|].
  split; [apply ParsePublicKeys_configured; [done| |done]; eapply Forall_impl; [exact Hall|]; tauto|].
  split; [apply newVerifier_configured; [done| |done]; eapply Forall_impl; [exact Hall|]; tauto|].
  rewrite (proj2 (Z.leb_gt skew 0)) by lia. apply signed_verifies; try done.
  by apply elem_of_list_to_map_1.
Qed.

(** ** Examples *)

(** A stand-in that signs with digests under the seed, which is its public key. *)
Definition example_ed25519 : Ed25519 :=
  let sign seed message := Sum256 (seed +:+ message) +:+ Sum256 (message +:+ seed) in
  {| ed_Public seed := seed; ed_Sign := sign; ed_Verify key message signature := signature =s sign key message |}.

Lemma example_ed25519_laws : @Ed25519Laws example_ed25519.
Proof.
  split; cbn; [done| |].
  - intros seed message _. unfold len. by rewrite str_length_app, !length_Sum256.
  - intros seed message _. apply String.eqb_refl.
Qed.

Definition example_seed : string := "0123456789abcdef0123456789abcdef".
Definition example_noon : Instant := (unix_epoch + 1786968000123 * Millisecond + 456789)%Z.

Lemma configured_signers_are_verified_witness :
  exists signer keys v,
    NewSettlementSigner (key_entry "kaana-1" example_seed) = Some signer /\
    ParsePublicKeys (join "," (uncurry key_entry <$> [("kaana-0", "fedcba9876543210fedcba9876543210"); ("kaana-1", example_seed)]))
    = Some keys /\
    newVerifier keys DefaultMaxSkew settlementDomainSeparator = inl v /\
    @Verify example_ed25519 v (example_noon + 4 * Minute)
      (@Sign example_ed25519 signer example_noon "{}" (<["Content-Type" := ["application/json"]]> ∅)) "{}" = None.
Proof.
  apply (@configured_signers_are_verified example_ed25519 example_ed25519_laws); try (vm_compute; congruence).
  - by apply over_all.
  - right. by left.
  - by apply (bool_decide_unpack _).
  - repeat constructor; (done || by apply over_all).
  - done.
  - by vm_compute.
Defined.

(** One request signed, and what else its signature was tried for. *)
Definition one_signing : signing := mkSigning example_seed inferenceDomainSeparator "oxy-1" 1786968000123 "{}".
Definition one_header : gmap string (list string) :=
  @Sign example_ed25519 (mkSigner "oxy-1" example_seed inferenceDomainSeparator) example_noon "{}" ∅.
Definition one_verifier (domain : string) : Verifier := mkVerifier {["oxy-1" := example_seed]} DefaultMaxSkew domain.

Lemma accepted_requests_were_signed_witness :
  @Verify example_ed25519 (one_verifier credentialControlDomainSeparator) example_noon one_header "{}" = Some DoesNotVerify /\
  @Verify example_ed25519 (one_verifier inferenceDomainSeparator) example_noon one_header "[]" = Some DoesNotVerify /\
  @Verify example_ed25519 (one_verifier inferenceDomainSeparator) (example_noon + 6 * Minute) one_header "{}" = Some OutsideTheWindow /\
  exists key t signature,
    @presents example_ed25519 (one_verifier inferenceDomainSeparator) example_noon one_header "{}" key t signature /\
    (signed_for [one_signing] (one_verifier inferenceDomainSeparator) one_header "{}" key t \/
     @forgery example_ed25519 [one_signing] key
       (signingInput inferenceDomainSeparator (header_Get one_header HeaderKeyID) t "{}") signature).
Proof.
  do 3 (split; [vm_compute; reflexivity|]).
  apply (@accepted_requests_were_signed example_ed25519 [one_signing]).
  - apply Forall_singleton. split; [left|by vm_compute].
  - by vm_compute.
  - left.
  - vm_compute. reflexivity.
Defined.
