(* ===== verification/Authorize.v ===== *)
(** * Asking Oxy (internal/publicapi/authorize.go)

    Every billable request of the public lane is granted, or refused, by Oxy:
    one call, whose signed answer is believed only when it verifies, decodes
    and is about this very request.  Oxy's catalogue answers are kept for a
    minute at most.  The HTTP exchange is its outcome; the JSON decoder is the
    standard library's, and what it reads is given. *)

From S2P Require Import Prelude Ids Text Sha256 Lines KeyPool EdgeAuth.
From S2P Require Import Contract PublicContract Grant.

(** ** The exchange *)

(** What came of one POST; [Reached] carries the whole answer, unread past its
    bound. *)
Inductive Reply :=
  Unencodable | NoToken | NoRequest | Unreachable (cancelled : bool) | Unread
  | Reached (status : Z) (header : Header) (body : string).

Definition maxAuthorizationResponseBytes : Z := 2 ^ 20.
Definition maxStatedRetryAfter : Duration := 15 * Minute.
Definition oxyRateLimited := "RATE_LIMITED".

(** What the decoder reads of a refusal: its members, and its [error] member
    when there is one, a text or an object. *)
Record Refusal := mkRefusal { ref_Code : string; ref_RetryAfterMs : option Z; ref_Param : option string }.
Inductive ErrorMember := NoError | ErrorText (code : string) | ErrorObject (nested : Refusal) | ErrorOther.
Record RefusalBody := mkRefusalBody { answer : Refusal; ref_Error : ErrorMember }.

(** [retryAfterMs]; the product of a duration is taken at 64 bits. *)
Definition retryAfterMs (header : Header) : Z :=
  match ParseInt (TrimSpace (header_Get header "Retry-After")) with
  | None => 1000
  | Some seconds =>
      if (seconds <=? 0)%Z then 1000
      else Milliseconds (Z.min (wrap64 (seconds * Second)) maxStatedRetryAfter)
  end.

Definition unavailable (requestID : string) : PublicError :=
  pub_WithRetryAfter 1000 (NewPublicError requestID CodeServiceUnavailable).

(** The shared error shape, at the top or nested under [error]. *)
Definition stated_refusal (b : RefusalBody) : Refusal :=
  if ref_Code (answer b) =s "" then
    match ref_Error b with ErrorObject nested => nested | _ => answer b end
  else answer b.

(** [OxyAuthorizer.refusal]. *)
Definition refusal (read : string -> RefusalBody) (requestID : string) (status : Z) (header : Header) (body : string)
    : PublicError :=
  let stated := stated_refusal (read body) in
  if ref_Code stated =s "" then
    if (500 <=? status)%Z || (status =? 429)%Z
    then pub_WithRetryAfter (retryAfterMs header) (NewPublicError requestID CodeServiceUnavailable)
    else NewPublicError requestID CodeInternalError
  else
    let internal := NewError requestID (ref_Code stated) in
    let internal := match ref_Param stated with Some param => WithParam param internal | None => internal end in
    PublicErrorFrom
      match ref_RetryAfterMs stated with Some ms => WithRetryAfter ms internal | None => internal end.

(** [OxyAuthorizer.post]. *)
Definition post (read : string -> RefusalBody) (requestID : string) (reply : Reply)
    : (Header * string) + PublicError :=
  match reply with
  | Unencodable => inr (NewPublicError requestID CodeInternalError)
  | NoToken | NoRequest | Unread => inr (unavailable requestID)
  | Unreachable cancelled => inr (if cancelled then NewPublicError requestID CodeCancelled else unavailable requestID)
  | Reached status header body =>
      if (maxAuthorizationResponseBytes <? len body)%Z then inr (unavailable requestID)
      else if (status =? 200)%Z then inl (header, body)
      else inr (refusal read requestID status header body)
  end.

(** ** Grants *)

(** The members of an authorization request a grant is held to. *)
Record InferenceAuthorizationRequest := mkAsk {
  ask_RequestID : string;
  ask_Operation : string;
  ask_BodySHA256 : string;
  ask_IdempotencyKey : option string;
}.

(** [bodyDigest] (pipeline.go). *)
Definition bodyDigest (body : string) : string := hex (Sum256 body).

Definition checkGrant (grant : Grant) (request : InferenceAuthorizationRequest) (now : Instant) : option string :=
  refuse_if (negb (grant_RequestID grant =s ask_RequestID request)) "the grant names another request" ;;
  refuse_if (negb (Operation grant =s ask_Operation request)) "the grant authorizes another operation" ;;
  refuse_if (negb (BodySHA256 grant =s ask_BodySHA256 request)) "the grant authorizes another body" ;;
  refuse_if (negb (Executable now grant)) "the grant's execution window has passed" ;;
  refuse_if match grant_IdempotencyKey grant with
            | None => false
            | Some key => match ask_IdempotencyKey request with None => true | Some asked => negb (key =s asked) end
            end "the grant names another idempotency key".

(** [OxyAuthorizer.Authorize]; the verifier and the check read the clock one
    after the other. *)
Definition Authorize `{Ed25519} (read : string -> RefusalBody) (decode : string -> option Grant) (grants : Verifier)
    (verified now : Instant) (request : InferenceAuthorizationRequest) (reply : Reply) : Grant + PublicError :=
  let unusable := inr (NewPublicError (ask_RequestID request) CodeServiceUnavailable) in
  match post read (ask_RequestID request) reply with
  | inr failure => inr failure
  | inl (header, body) =>
      match Verify grants verified header body with
      | Some _ => unusable
      | None =>
          match DecodeGrant (decode body) with
          | None => unusable
          | Some grant => match checkGrant grant request now with None => inl grant | Some _ => unusable end
          end
      end
  end.

(** ** The catalogue cache *)

Record cachedCatalogue := mkCached { access : CatalogueAccess; expires : Instant }.

Definition catalogueCacheTTL : Duration := 60 * Second.
Definition credentialDigestCacheLimit : Z := 100000.

(** When an answer taken at [now] stops being reused. *)
Definition cache_until (now : Instant) (a : CatalogueAccess) : Instant :=
  let expires := Add now catalogueCacheTTL in
  match Timestamp_Time (ca_ExpiresAt a) with
  | Some stated => if Before stated expires then stated else expires
  | None => expires
  end.

(** [OxyAuthorizer.Catalogue]; the reply is read only when nothing is cached. *)
Definition Catalogue (read : string -> RefusalBody) (decode : string -> option CatalogueAccess)
    (credential requestID : string) (now : Instant) (reply : Reply) (cache : gmap string cachedCatalogue)
    : (CatalogueAccess + PublicError) * gmap string cachedCatalogue :=
  let digest := Sum256 credential in
  let ask :=
    match post read requestID reply with
    | inr failure => (inr failure, cache)
    | inl (_, body) =>
        match decode body with
        | None => (inr (NewPublicError requestID CodeServiceUnavailable), cache)
        | Some a =>
            match CatalogueAccess_Validate a with
            | Some _ => (inr (NewPublicError requestID CodeServiceUnavailable), cache)
            | None =>
                let kept := if (credentialDigestCacheLimit <? Z.of_nat (size cache))%Z then ∅ else cache in
                (inl a, <[digest := mkCached a (cache_until now a)]> kept)
            end
        end
    end in
  match cache !! digest with
  | Some cached => if Before now (expires cached) then (inl (access cached), cache) else ask
  | None => ask
  end.

(** What the decoder reads of a receipt; the record is relayed as it is. *)
Record ReceiptAccess := mkReceipt { rec_SchemaVersion : Z; rec_Kind : string; rec_Record : string }.

(** [OxyAuthorizer.Receipt]. *)
Definition Receipt (read : string -> RefusalBody) (decode : string -> option ReceiptAccess) (requestID : string)
    (reply : Reply) : string + PublicError :=
  match post read requestID reply with
  | inr failure => inr failure
  | inl (_, body) =>
      match decode body with
      | Some a =>
          if (rec_SchemaVersion a =? AuthorizationSchemaVersion)%Z && (rec_Kind a =s "receipt.read")
             && negb (len (rec_Record a) =? 0)%Z
          then inl (rec_Record a) else inr (NewPublicError requestID CodeServiceUnavailable)
      | None => inr (NewPublicError requestID CodeServiceUnavailable)
      end
  end.

(** ** What a grant was signed for *)

Lemma post_inl read requestID reply header body :
  post read requestID reply = inl (header, body) -> reply = Reached 200 header body.
Proof.
  unfold post. destruct reply as [| | |[|]| |status h b]; try done.
  destruct (_ <? len b)%Z; [done|]. destruct (status =? 200)%Z eqn:E; [|done]. apply Z.eqb_eq in E as ->. by intros [= -> ->].
Qed.

Lemma DecodeGrant_Some decoded g : DecodeGrant decoded = Some g -> decoded = Some g /\ Grant_Validate g = None.
Proof.
  unfold DecodeGrant. destruct decoded as [g'|]; [|done]. cbn [mbind option_bind].
  destruct (Grant_Validate g') eqn:E; [done|]. by intros [= <-].
Qed.

(** The grant answers this request, still in time. *)
Record answers_request (request : InferenceAuthorizationRequest) (now : Instant) (g : Grant) : Prop := {
  an_request : grant_RequestID g = ask_RequestID request;
  an_operation : Operation g = ask_Operation request;
  an_body : BodySHA256 g = ask_BodySHA256 request;
  an_key : forall key, grant_IdempotencyKey g = Some key -> ask_IdempotencyKey request = Some key;
  an_window : exists executeBy, Timestamp_Time (ExecuteBy g) = Some executeBy /\ (now <= executeBy)%Z;
}.

Lemma checkGrant_None g request now : checkGrant g request now = None -> answers_request request now g.
Proof.
  unfold checkGrant. checks. intros (H1 & H2 & H3 & H4 & H5). constructor; try done.
  - intros key E. rewrite E in H5. destruct (ask_IdempotencyKey request) as [asked|]; [|done].
    destruct (String.eqb_spec key asked) as [->|]; done.
  - unfold Executable, After in H4. destruct (Timestamp_Time (ExecuteBy g)) as [e|]; [|done].
    exists e. split; [done|]. bool_cases. lia.
Qed.

Section Signed.
Context `{Ed25519} (log : list signing) (Hlog : Forall proper log).

(** C34. No request runs on another's grant.  Whatever reached Kaana as Oxy's
    answer, a grant is believed only when the answer presents a signature over
    its exact bytes, as a grant and for no other purpose, that verifies under a
    configured key at a time no further from now than the verifier's skew; when
    those bytes decode to a grant that satisfies the contract; and when it names
    this request, this operation, the digest of this body and this idempotency
    key, if it names any, and its execution window has not passed.  So the
    holder of that key signed those bytes (or bytes of the same SHA-256) as a
    grant, or the answer carries a forgery. *)
Theorem grants_were_signed_for_the_request read decode grants verified now request reply g :
  (0 < v_maxSkew grants < int64_max)%Z -> v_domain grants = grantDomainSeparator ->
  Authorize read decode grants verified now request reply = inl g ->
  answers_request request now g /\ Grant_Validate g = None /\
  exists header body key t signature,
    reply = Reached 200 header body /\ decode body = Some g /\ presents grants verified header body key t signature /\
    (signed_for log grants header body key t \/
     forgery log key (signingInput grantDomainSeparator (header_Get header HeaderKeyID) t body) signature).
Proof using Hlog.
  intros Hskew Hdomain. unfold Authorize. destruct (post _ _ _) as [[header body]|] eqn:Ep; [|done]. apply post_inl in Ep.
  destruct (Verify _ _ _ _) eqn:Ev; [done|]. destruct (DecodeGrant _) as [g'|] eqn:Ed; [|done].
  apply DecodeGrant_Some in Ed as [Hd Hv]. destruct (checkGrant _ _ _) eqn:Ec; [done|]. intros [= ->].
  apply checkGrant_None in Ec. do 2 (split; [done|]).
  destruct (Verify_signed log Hlog grants verified header body) as (key & t & signature & Hp & Hs); [done| |done|].
  - rewrite Hdomain. unfold purposes, grantDomainSeparator. rewrite !elem_of_cons. tauto.
  - exists header, body, key, t, signature. rewrite <-Hdomain. done.
Qed.

End Signed.

(** ** The catalogue cache *)

Record call := mkCall { c_credential : string; c_requestID : string; c_now : Instant; c_reply : Reply }.

Section Cached.
Context (read : string -> RefusalBody) (decode : string -> option CatalogueAccess).

Definition step_call (cache : gmap string cachedCatalogue) (c : call) : gmap string cachedCatalogue :=
  (Catalogue read decode (c_credential c) (c_requestID c) (c_now c) (c_reply c) cache).2.

Definition after_calls (history : list call) : gmap string cachedCatalogue := foldl step_call ∅ history.

(** Oxy answered a call with this access. *)
Definition answered (c : call) (a : CatalogueAccess) : Prop :=
  exists header body, c_reply c = Reached 200 header body /\ decode body = Some a /\ CatalogueAccess_Validate a = None.

(** Every cached answer is one Oxy gave a credential of its digest. *)
Definition cache_inv (history : list call) (cache : gmap string cachedCatalogue) : Prop :=
  (Z.of_nat (size cache) <= credentialDigestCacheLimit + 1)%Z /\
  forall digest kept, cache !! digest = Some kept -> exists c, c ∈ history /\ Sum256 (c_credential c) = digest /\
    answered c (access kept) /\ expires kept = cache_until (c_now c) (access kept).

Lemma Catalogue_spec credential requestID now reply cache history :
  cache_inv history cache ->
  let c := mkCall credential requestID now reply in
  let '(result, cache') := Catalogue read decode credential requestID now reply cache in
  cache_inv (history ++ [c]) cache' /\
  forall a, result = inl a -> answered c a \/
    exists c0, c0 ∈ history /\ Sum256 (c_credential c0) = Sum256 credential /\ answered c0 a /\
      (now < cache_until (c_now c0) a)%Z.
Proof.
  intros [Hsize Hinv] c. unfold Catalogue. set (ask := match post _ _ _ with inl _ => _ | inr _ => _ end).
  assert (cache_inv (history ++ [c]) cache) as Hsame.
  { split; [done|]. intros digest kept Hk. destruct (Hinv _ _ Hk) as (c0 & Hc & H). exists c0. split; [|done].
    apply elem_of_app. by left. }
  assert (cache_inv (history ++ [c]) ask.2 /\ forall a, ask.1 = inl a -> answered c a \/
    exists c0, c0 ∈ history /\ Sum256 (c_credential c0) = Sum256 credential /\ answered c0 a /\
      (now < cache_until (c_now c0) a)%Z) as Hask.
  { subst ask. destruct (post _ _ _) as [[header body]|] eqn:Ep; [|by split]. apply post_inl in Ep.
    destruct (decode body) as [a|] eqn:Ed; [|by split]. destruct (CatalogueAccess_Validate a) eqn:Ev; [by split|].
    assert (answered c a) as Ha by (by exists header, body).
    split; [|intros a' [= <-]; by left]. cbn [snd]. split.
    - destruct (_ <? Z.of_nat (size cache))%Z eqn:El.
      + rewrite insert_empty, map_size_singleton. unfold credentialDigestCacheLimit. lia.
      + apply Z.ltb_ge in El. rewrite map_size_insert. destruct (cache !! Sum256 credential); unfold id; lia.
    - intros digest kept Hk. apply lookup_insert_Some in Hk as [[<- <-]|[_ Hk]].
      + exists c. split; [apply elem_of_app; right; by apply list_elem_of_singleton|]. done.
      + destruct (_ <? Z.of_nat (size cache))%Z; [by rewrite lookup_empty in Hk|]. by apply Hsame. }
  clearbody ask. destruct (cache !! Sum256 credential) as [kept|] eqn:Ek; [|destruct ask; apply Hask].
  destruct (Before now (expires kept)) eqn:Eb; [|destruct ask; apply Hask].
  split; [done|]. intros a [= <-]. right. destruct (Hinv _ _ Ek) as (c0 & Hc & Hs & Ha & He). exists c0.
  unfold Before in Eb. bool_cases. rewrite He in Eb. done.
Qed.

Lemma after_calls_inv history : cache_inv history (after_calls history).
Proof.
  induction history as [|c history IH] using rev_ind; [split; [done|intros digest kept Hk; unfold after_calls in Hk; cbn [foldl] in Hk; by rewrite lookup_empty in Hk]|].
  unfold after_calls. rewrite foldl_app. cbn [foldl]. fold (after_calls history). unfold step_call.
  destruct c as [credential requestID now reply]. cbn [c_credential c_requestID c_now c_reply].
  pose proof (Catalogue_spec credential requestID now reply _ history IH) as H.
  destruct (Catalogue _ _ _ _ _ _ _) as [result cache']. apply H.
Qed.

(** A catalogue answer is Oxy's, and fresh.  After any sequence of calls,
    a credential is shown a catalogue only if Oxy just answered this call with
    it, or answered an earlier call of a credential with the same SHA-256
    digest, less than 60 seconds ago and not past the expiry Oxy stated; and
    the cache never holds more than its limit and one answers. *)
Theorem catalogue_answers_are_fresh history c a :
  (Z.of_nat (size (after_calls history)) <= credentialDigestCacheLimit + 1)%Z /\
  ((Catalogue read decode (c_credential c) (c_requestID c) (c_now c) (c_reply c) (after_calls history)).1 = inl a ->
   answered c a \/
   exists c0, c0 ∈ history /\ Sum256 (c_credential c0) = Sum256 (c_credential c) /\ answered c0 a /\
     (c_now c < Add (c_now c0) catalogueCacheTTL)%Z /\
     forall stated, Timestamp_Time (ca_ExpiresAt a) = Some stated -> (c_now c < stated)%Z).
Proof.
  pose proof (after_calls_inv history) as Hinv. split; [apply Hinv|].
  destruct c as [credential requestID now reply]. cbn [c_credential c_requestID c_now c_reply].
  pose proof (Catalogue_spec credential requestID now reply _ history Hinv) as H.
  destruct (Catalogue _ _ _ _ _ _ _) as [result cache']. intros Ha.
  destruct (proj2 H a Ha) as [?|(c0 & Hc & Hs & Ha0 & Hn)]; [by left|right]. exists c0. do 3 (split; [done|]).
  unfold cache_until, Before in Hn. destruct (Timestamp_Time (ca_ExpiresAt a)) as [stated|].
  - destruct (stated <? _)%Z eqn:E; bool_cases; (split; [lia|intros ? [= <-]; lia]).
  - split; [done|]. by intros ? [=].
Qed.

End Cached.

(** ** Examples *)

Definition zero_digest : string := Nat.iter 64 (String "0") "".
Definition example_grant : Grant :=
  mkGrant 1 "grant-1" "req-1" "responses" (Spells example_noon) (Spells (example_noon + 30 * Second)) zero_digest
    (mkGrantPrincipal (Some AuthorityExternal) "acct" "app" "cred" EnvironmentProduction (Some [ScopeInvoke])
       LaneMachineCredential)
    None (mkEconomics TreatmentCommercial "policy-1") (Some (mkReservation "hold-1" None)) None
    [mkStep (ModelTarget "acme/m") (mkLimits None [mkAdmitted "acme/m" "price-1"] [] [] [] [] None)] None None.
Definition example_ask : InferenceAuthorizationRequest := mkAsk "req-1" "responses" zero_digest None.

Definition grant_signing : signing := mkSigning example_seed grantDomainSeparator "oxy-1" 1786968000123 "{}".
Definition grant_header : gmap string (list string) :=
  @Sign example_ed25519 (mkSigner "oxy-1" example_seed grantDomainSeparator) example_noon "{}" ∅.
Definition grant_verifier : Verifier := one_verifier grantDomainSeparator.
Definition no_refusal (_ : string) : RefusalBody := mkRefusalBody (mkRefusal "" None None) NoError.

Definition example_authorize (later : Duration) : Grant + PublicError :=
  @Authorize example_ed25519 no_refusal (fun _ => Some example_grant) grant_verifier example_noon (example_noon + later)
    example_ask (Reached 200 grant_header "{}").

Lemma grant_proper : Forall proper [grant_signing].
Proof. apply Forall_singleton. split; [do 5 right; left|by vm_compute]. Qed.

Lemma grants_were_signed_for_the_request_witness :
  example_authorize Second = inl example_grant /\
  example_authorize (31 * Second) = inr (NewPublicError "req-1" CodeServiceUnavailable) /\
  answers_request example_ask (example_noon + Second) example_grant /\
  exists header body key t signature,
    Reached 200 grant_header "{}" = Reached 200 header body /\
    @presents example_ed25519 grant_verifier example_noon header body key t signature.
Proof.
  assert (example_authorize Second = inl example_grant) as H by (vm_compute; reflexivity).
  split; [exact H|]. split; [vm_compute; reflexivity|].
  destruct (fun Hlog Hskew => @grants_were_signed_for_the_request example_ed25519 [grant_signing] Hlog no_refusal
    (fun _ => Some example_grant) grant_verifier example_noon (example_noon + Second)%Z example_ask
    (Reached 200 grant_header "{}") example_grant Hskew eq_refl H)
    as (Ha & _ & header & body & key & t & signature & Hr & _ & Hp & _).
  - exact grant_proper.
  - split; vm_compute; reflexivity.
  - split; [exact Ha|]. exists header, body, key, t, signature. split; [exact Hr|exact Hp].
Defined.

Definition example_access : CatalogueAccess := mkCatalogueAccess 1 AuthorizationKindCatalogue "public" ["auto"] (Spells (10 * Second)).
Definition catalogue_calls : list call := [mkCall "key-1" "req-1" 0 (Reached 200 ∅ "{}")].

(** Ten seconds on, Oxy being unreachable, the expired answer is not reused. *)
Example expired_catalogue_is_asked_again :
  let read := no_refusal in
  let decode := fun _ => Some example_access in
  (Catalogue read decode "key-1" "req-2" (9 * Second) (Unreachable false) (after_calls read decode catalogue_calls)).1
    = inl example_access /\
  (Catalogue read decode "key-1" "req-2" (10 * Second) (Unreachable false) (after_calls read decode catalogue_calls)).1
    = inr (unavailable "req-2").
Proof. vm_compute. split; reflexivity. Qed.

(** ** Refusals *)

(** An answer that is not a readable refusal is service unavailability, for the
    seconds Oxy states up to a quarter of an hour, or a second. *)
Theorem unreadable_refusals_wait read requestID status header body :
  ref_Code (stated_refusal (read body)) = "" -> (500 <= status)%Z \/ status = 429%Z ->
  (forall seconds, ParseInt (TrimSpace (header_Get header "Retry-After")) = Some seconds -> (seconds * Second < 2 ^ 63)%Z) ->
  exists ms, refusal read requestID status header body =
    pub_WithRetryAfter ms (NewPublicError requestID CodeServiceUnavailable) /\ (1000 <= ms <= 900000)%Z /\
    pub_RetryAfterMs (refusal read requestID status header body) = Some ms.
Proof.
  intros Hcode Hstatus Hseconds. exists (retryAfterMs header).
  assert (refusal read requestID status header body =
    pub_WithRetryAfter (retryAfterMs header) (NewPublicError requestID CodeServiceUnavailable)) as ->.
  { unfold refusal. rewrite Hcode. cbn [String.eqb]. destruct (_ || _) eqn:E; [done|]. bool_cases. lia. }
  assert (1000 <= retryAfterMs header <= 900000)%Z as Hms.
  { unfold retryAfterMs. destruct (ParseInt _) as [seconds|] eqn:E; [|lia]. specialize (Hseconds _ eq_refl).
    destruct (seconds <=? 0)%Z eqn:Es; bool_cases; [lia|].
    unfold Second, Millisecond in *. rewrite wrap64_id by (unfold in_int64, int64_min, int64_max; lia).
    unfold Milliseconds, maxStatedRetryAfter, Minute, Second, Millisecond. Z.to_euclidean_division_equations. lia. }
  split; [done|]. split; [done|]. unfold pub_WithRetryAfter. cbn.
  destruct (0 <=? retryAfterMs header)%Z eqn:E; bool_cases; [done|lia].
Qed.

Lemma unreadable_refusals_wait_witness :
  pub_RetryAfterMs (refusal no_refusal "req-1" 503 {["Retry-After" := ["30"]]} "") = Some 30000%Z.
Proof.
  destruct (unreadable_refusals_wait no_refusal "req-1" 503 {["Retry-After" := ["30"]]} "") as (ms & _ & _ & H).
  - reflexivity.
  - left. lia.
  - intros seconds H. vm_compute in H. injection H as <-. vm_compute. reflexivity.
  - rewrite H. vm_compute in H. symmetry. exact H.
Defined.

(** A stated wait of 584 years is passed on as 290 milliseconds. *)
Example stated_wait_wraps :
  retryAfterMs {["Retry-After" := ["18446744074"]]} = 290%Z.
Proof. vm_compute. reflexivity. Qed.
