(* ===== verification/Outbox.v ===== *)
(** * The settlement outbox (internal/credentialstore/settlement.go and
    migrations/0022_settlement_outbox.sql)

    One row per settled grant, written in the transaction that records the
    request's provider cost events, leased to one deliverer at a time and kept
    for Oxy to reconcile against.  The database is its tables and what each of
    its functions does to them; a connection may fail at any statement, the
    commit's answer included.  An insert is refused as the constraints of the
    tables refuse it (migrations 0008, 0010, 0016), what other tables hold being
    given.  [length] of a text counts its characters. *)

From S2P Require Import Prelude Ids Text Contract ProviderCost Inventory.

(** ** The cost ledger (0016_provider_attempt_telemetry.sql)

    A row per attempt of a request, under what PostgreSQL stores of an event:
    durations in milliseconds, times as a [timestamptz] reads them. *)

Record cost_row := mkCostRow {
  cost_provider : string; cost_key : string; cost_deployment : string; cost_model : string;
  cost_money : option (string * Z); cost_source : Source; cost_complete : bool; cost_served : bool;
  cost_occurred : Z; cost_version : string; cost_units : list (string * Z); cost_started : Z;
  cost_latency : Z; cost_first_output : option Z; cost_outcome : AttemptOutcome; cost_failure : string;
}.

#[export] Instance AttemptOutcome_eq_dec : EqDecision AttemptOutcome.
Proof. solve_decision. Defined.
#[export] Instance cost_row_eq_dec : EqDecision cost_row.
Proof. solve_decision. Defined.

Abbreviation Ledger := (gmap (string * Z) cost_row) (only parsing).

(** What other tables hold that these rows refer to: the rate card versions
    (0015) and the provider credentials, by provider and key (0001). *)
Record Registered := mkRegistered { has_version : string -> bool; has_key : string -> string -> bool }.

Definition length_in (lo hi : Z) (text : string) : bool := in_range_z lo hi (RuneCount text).

(** An [INTEGER] column. *)
Definition integer (z : Z) : bool := in_range_z (-2147483648) 2147483647 z.
(** A text JSONB can hold. *)
Definition storable (text : string) : bool := negb (contains_char "000" text).
(** A time that [json.Marshal] writes and PostgreSQL reads: in the years 1 to
    9999. *)
Definition dated (t : Instant) : bool := in_range_z 0 (3652059 * 24 * Hour - 1) t.

Section Ledger.
Context (to_timestamptz : Instant -> Z) (registered : Registered).

(** [encodeProviderCostEvents], column by column. *)
Definition columns (e : Event) : cost_row :=
  let t := event_Telemetry e in
  mkCostRow (event_Provider e) (event_KeyID e) (event_DeploymentID e) (event_ModelReference e)
    (if decide (event_Source e = SourceUnknown) then None else Some (Currency (event_Cost e), Amount (event_Cost e)))
    (event_Source e) (event_Complete e) (event_Served e) (to_timestamptz (event_OccurredAt e))
    (event_RateCardVersionID e) ((fun q => (Unit q, Quantity q)) <$> event_Units e)
    (to_timestamptz (telemetry_StartedAt t)) (Milliseconds (Latency t))
    (if (0 <? TimeToFirstOutput t)%Z then Some (Milliseconds (TimeToFirstOutput t)) else None)
    (telemetry_Outcome t) (FailureCode t).

(** The constraints of a row's own columns: 0008's and 0010's, then 0016's
    telemetry check. *)
Definition cost_check (e : Event) : bool :=
  length_in 1 256 (event_RequestID e) && integer (event_AttemptIndex e) && (0 <=? event_AttemptIndex e)%Z
  && length_in 1 256 (event_DeploymentID e) && length_in 1 512 (event_ModelReference e)
  && (bool_decide (event_Source e = SourceUnknown) && negb (event_Complete e)
      || negb (bool_decide (event_Source e = SourceUnknown))
         && Regex.matches currencyPattern (Currency (event_Cost e)) && (0 <=? Amount (event_Cost e))%Z)
  && (if decide (event_Source e = SourceRateCard) then length_in 1 256 (event_RateCardVersionID e)
      else event_RateCardVersionID e =s "").

Definition telemetry_check (e : Event) : bool :=
  let t := event_Telemetry e in
  (0 <=? Milliseconds (Latency t))%Z && integer (Milliseconds (Latency t))
  && negb ((0 <? TimeToFirstOutput t)%Z && (Milliseconds (Latency t) <? Milliseconds (TimeToFirstOutput t))%Z)
  && match telemetry_Outcome t with
     | AttemptFailed => Regex.matches failureCodePattern (FailureCode t)
     | _ => FailureCode t =s ""
     end.

(** What can be inserted at all. *)
Definition insertable (e : Event) : bool :=
  forallb storable
    ([event_RequestID e; event_Provider e; event_KeyID e; event_DeploymentID e; event_ModelReference e;
      event_RateCardVersionID e; FailureCode (event_Telemetry e)] ++ (Unit <$> event_Units e))
  && dated (event_OccurredAt e) && dated (telemetry_StartedAt (event_Telemetry e))
  && cost_check e && telemetry_check e.

Definition event_key (e : Event) : string * Z := (event_RequestID e, event_AttemptIndex e).

(** The loop of [kaana_record_provider_attempt_events]; [None] is an
    exception.  A conflicting insert checks its row, and only a row that is
    inserted refers to its credential. *)
Fixpoint record_events (events : list Event) (ledger : Ledger) : option Ledger :=
  match events with
  | [] => Some ledger
  | e :: events =>
      if bool_decide (event_Source e = SourceRateCard) && negb (has_version registered (event_RateCardVersionID e))
         || negb (insertable e) then None
      else match ledger !! event_key e with
      | None =>
          if has_key registered (event_Provider e) (event_KeyID e)
          then record_events events (<[event_key e := columns e]> ledger) else None
      | Some existing => if decide (existing = columns e) then record_events events ledger else None
      end
  end.

(** The batch is one request's distinct attempts, at most 64. *)
Definition batch_ok (events : list Event) : bool :=
  Nat.leb (length events) 64 &&
  match events with
  | [] => false
  | e :: _ => forallb (fun x => event_RequestID x =s event_RequestID e) events
  end && bool_decide (NoDup (event_key <$> events)).

Definition kaana_record_provider_attempt_events (events : list Event) (ledger : Ledger) : option (Z * Ledger) :=
  if batch_ok events
  then ledger ← record_events events ledger; Some (Z.of_nat (length events), ledger) else None.

(** ** The outbox *)

Record row := mkRow {
  outbox_seq : Z;
  settlement_id : string;
  grant_id : string;
  request_id : string;
  body : string;
  created_at : Instant;
  attempts : Z;
  next_attempt_at : Instant;
  last_failure : option string;
  delivered : option (Instant * string);
}.

(** The rows in the order of their sequence, and the sequence's next value. *)
Record table := mkTable { rows : list row; next_seq : Z }.

(** [OutboxSettlement]. *)
Record OutboxSettlement := mkOutbox { SettlementID : string; GrantID : string; RequestID : string; Body : string }.

Inductive Enqueued := NewRow | Replayed | Conflict | Invalid.

Definition claims (s : OutboxSettlement) (r : row) : bool :=
  (settlement_id r =s SettlementID s) || (grant_id r =s GrantID s).

Definition same_settlement (s : OutboxSettlement) (r : row) : bool :=
  (settlement_id r =s SettlementID s) && (grant_id r =s GrantID s) && (request_id r =s RequestID s) && (body r =s Body s).

(** [kaana_enqueue_settlement]; [identities] is what the body's JSON names
    (its settlement, grant and request), [None] when it is no object.  A conflicting
    insert consumes a value of the sequence.  [Conflict] and [Invalid] are
    exceptions. *)
Definition kaana_enqueue_settlement (identities : string -> option (string * string * string)) (now : Instant)
    (s : OutboxSettlement) (t : table) : Enqueued * table :=
  if negb (length_in 1 128 (SettlementID s) && length_in 1 128 (GrantID s) && length_in 1 128 (RequestID s)
           && length_in 2 1048576 (Body s)) then (Invalid, t)
  else if negb (bool_decide (identities (Body s) = Some (SettlementID s, GrantID s, RequestID s))) then (Invalid, t)
  else
    let t' rows := mkTable rows (next_seq t + 1) in
    match List.find (claims s) (rows t) with
    | None => (NewRow, t' (rows t ++ [mkRow (next_seq t) (SettlementID s) (GrantID s) (RequestID s) (Body s) now 0 now
                                      None None]))
    | Some existing => (if same_settlement s existing then Replayed else Conflict, t' (rows t))
    end.

(** Rows a claim may take: undelivered, past their lease, not locked by another
    claim in progress. *)
Definition due (now : Instant) (locked : list string) (r : row) : bool :=
  negb (bool_decide (is_Some (delivered r))) && (next_attempt_at r <=? now)%Z && negb (isMember (settlement_id r) locked).

Definition lease_row (now : Instant) (lease : Duration) (r : row) : row :=
  mkRow (outbox_seq r) (settlement_id r) (grant_id r) (request_id r) (body r) (created_at r) (attempts r + 1)
    (now + lease) (last_failure r) (delivered r).

Definition update_rows (chosen : list string) (f : row -> row) (t : table) : table :=
  mkTable ((fun r => if isMember (settlement_id r) chosen then f r else r) <$> rows t) (next_seq t).

(** [kaana_claim_settlements]; [None] is an exception. *)
Definition kaana_claim_settlements (limit : Z) (lease : Duration) (now : Instant) (locked : list string) (t : table)
    : option (list row * table) :=
  if negb (in_range_z 1 100 limit) || (lease <? Second)%Z || (10 * Minute <? lease)%Z then None
  else
    let chosen := take (Z.to_nat limit) (sort_stable_by next_attempt_at (List.filter (due now locked) (rows t))) in
    Some (lease_row now lease <$> chosen, update_rows (settlement_id <$> chosen) (lease_row now lease) t).

Definition deliver_row (now : Instant) (status : string) (r : row) : row :=
  if bool_decide (is_Some (delivered r)) then r
  else mkRow (outbox_seq r) (settlement_id r) (grant_id r) (request_id r) (body r) (created_at r) (attempts r)
         (next_attempt_at r) None (Some (now, status)).

(** [kaana_mark_settlement_delivered]. *)
Definition kaana_mark_settlement_delivered (now : Instant) (id status : string) (t : table) : option table :=
  if isMember status ["settled"; "duplicate"] then Some (update_rows [id] (deliver_row now status) t) else None.

Definition defer_row (retry_at : Instant) (failure : string) (r : row) : row :=
  if bool_decide (is_Some (delivered r)) then r
  else mkRow (outbox_seq r) (settlement_id r) (grant_id r) (request_id r) (body r) (created_at r) (attempts r)
         retry_at (Some failure) (delivered r).

(** [kaana_defer_settlement]; its pattern is that of a failure code. *)
Definition kaana_defer_settlement (id : string) (retry_at : Instant) (failure : string) (t : table) : option table :=
  if Regex.matches failureCodePattern failure then Some (update_rows [id] (defer_row retry_at failure) t) else None.

(** [kaana_read_settlements]: rows old enough that no earlier one can still
    appear. *)
Definition readable (now : Instant) (r : row) : bool := (created_at r <? now - 15 * Second)%Z.

Definition kaana_read_settlements (after limit : Z) (now : Instant) (t : table) : option (list (Z * string)) :=
  if (after <? 0)%Z || negb (in_range_z 1 500 limit) then None
  else Some ((fun r => (outbox_seq r, body r)) <$>
         take (Z.to_nat limit) (List.filter (fun r => (after <? outbox_seq r)%Z && readable now r) (rows t))).

(** ** The store (settlement.go) *)

Record database := mkDatabase { ledger : Ledger; outbox : table }.

(** Where a connection failed: nowhere, before the transaction, before its
    commit, or at the commit, which may have been applied. *)
Inductive Fault := Clean | NoTransaction | LostBefore | CommitLost (applied : bool).

Inductive StoreError := ErrSettlementConflict | OtherStoreError.

(** [Postgres.RecordSettlement]; a rollback undoes the rows and not the
    sequence. *)
Definition RecordSettlement (identities : string -> option (string * string * string)) (fault : Fault) (now : Instant)
    (events : list Event) (s : OutboxSettlement) (db : database) : option StoreError * database :=
  if (SettlementID s =s "") || (GrantID s =s "") || (RequestID s =s "") || (len (Body s) <? 2)%Z
  then (Some OtherStoreError, db)
  else match fault with
  | NoTransaction => (Some OtherStoreError, db)
  | _ =>
      let recorded :=
        match events with
        | [] => Some (ledger db)
        | _ =>
            match kaana_record_provider_attempt_events events (ledger db) with
            | Some (n, l) => if (n =? Z.of_nat (length events))%Z then Some l else None
            | None => None
            end
        end in
      match recorded with
      | None => (Some OtherStoreError, db)
      | Some l =>
          let '(answer, t) := kaana_enqueue_settlement identities now s (outbox db) in
          let rolled_back := mkDatabase (ledger db) (mkTable (rows (outbox db)) (next_seq t)) in
          match answer with
          | Conflict => (Some ErrSettlementConflict, rolled_back)
          | Invalid => (Some OtherStoreError, rolled_back)
          | NewRow | Replayed =>
              match fault with
              | Clean => (None, mkDatabase l t)
              | CommitLost true => (Some OtherStoreError, mkDatabase l t)
              | _ => (Some OtherStoreError, rolled_back)
              end
          end
      end
  end.

End Ledger.

(** ** What the outbox keeps *)

(** One row per settlement and per grant, in the order of the sequence, its
    deliveries counted. *)
Record outbox_ok (t : table) : Prop := {
  ob_settlements : NoDup (settlement_id <$> rows t);
  ob_grants : NoDup (grant_id <$> rows t);
  ob_order : StronglySorted Z.lt (outbox_seq <$> rows t);
  ob_next : Forall (fun r => outbox_seq r < next_seq t)%Z (rows t);
  ob_attempts : Forall (fun r => 0 <= attempts r)%Z (rows t);
}.

(** The settlement a row holds never changes, and what is delivered stays so. *)
Record keeps (r r' : row) : Prop := {
  kp_seq : outbox_seq r' = outbox_seq r;
  kp_settlement : settlement_id r' = settlement_id r;
  kp_grant : grant_id r' = grant_id r;
  kp_request : request_id r' = request_id r;
  kp_body : body r' = body r;
  kp_created : created_at r' = created_at r;
  kp_attempts : (attempts r <= attempts r')%Z;
  kp_delivered : is_Some (delivered r) -> delivered r' = delivered r;
}.

#[export] Instance keeps_preorder : PreOrder keeps.
Proof.
  split; [intros r; by constructor|]. intros r1 r2 r3 [] []. constructor; try congruence; [lia|].
  intros H. rewrite kp_delivered1; [auto|]. by rewrite kp_delivered0.
Qed.

Lemma keeps_lease now lease r : keeps r (lease_row now lease r).
Proof. constructor; cbn; try done. lia. Qed.

Lemma keeps_deliver now status r : keeps r (deliver_row now status r).
Proof. unfold deliver_row. case_bool_decide as H; constructor; cbn; try done. Qed.

Lemma keeps_defer retry_at failure r : keeps r (defer_row retry_at failure r).
Proof. unfold defer_row. case_bool_decide as H; constructor; cbn; try done. Qed.

#[export] Hint Resolve keeps_lease keeps_deliver keeps_defer : kaana.

(** The tables of a step: the rows kept in place, and perhaps new ones. *)
Definition evolves (t t' : table) : Prop :=
  exists kept new, rows t' = kept ++ new /\ Forall2 keeps (rows t) kept /\ outbox_ok t'.

Lemma keeps_images {A} (g : row -> A) (l l' : list row) :
  (forall r r', keeps r r' -> g r' = g r) -> Forall2 keeps l l' -> g <$> l' = g <$> l.
Proof. intros Hg. induction 1 as [|r r' l l' Hr _ IH]; cbn; [done|]. by rewrite IH, (Hg _ _ Hr). Qed.

Lemma evolves_rows t l n :
  outbox_ok t -> Forall2 keeps (rows t) l -> (next_seq t <= n)%Z -> evolves t (mkTable l n).
Proof.
  intros [H1 H2 H3 H4 H5] Hl Hn. exists l, []. rewrite app_nil_r. split; [done|]. split; [done|].
  assert (forall A (g : row -> A), (forall r r', keeps r r' -> g r' = g r) -> g <$> l = g <$> rows t) as Himg.
  { intros A g Hg. by apply keeps_images. }
  constructor; cbn.
  - rewrite Himg; [done|]. apply kp_settlement.
  - rewrite Himg; [done|]. apply kp_grant.
  - rewrite Himg; [done|]. apply kp_seq.
  - rewrite <-(Forall_fmap outbox_seq (fun z => (z < n)%Z)), (Himg _ outbox_seq), Forall_fmap by apply kp_seq.
    eapply Forall_impl; [exact H4|]. cbn. intros r Hr. lia.
  - clear Himg H1 H2 H3 H4. revert H5. induction Hl as [|r r' k l Hr _ IH]; [done|].
    intros [H5 Hk]%Forall_cons. constructor; [|by apply IH]. pose proof (kp_attempts _ _ Hr). lia.
Qed.

Lemma evolves_update t chosen f :
  outbox_ok t -> (forall r, keeps r (f r)) -> evolves t (update_rows chosen f t).
Proof.
  intros Hok Hf. apply evolves_rows; [done| |cbn; lia]. apply Forall2_fmap_r, Forall_Forall2_diag, Forall_forall.
  intros r _. change (keeps r (if isMember (settlement_id r) chosen then f r else r)). destruct (isMember _ chosen); [apply Hf|reflexivity].
Qed.

Lemma evolves_refl t : outbox_ok t -> evolves t t.
Proof.
  intros Hok. destruct t as [l n]. apply evolves_rows; [done| |done]. cbn. apply Forall_Forall2_diag, Forall_forall. reflexivity.
Qed.

Lemma evolves_trans t1 t2 t3 : evolves t1 t2 -> evolves t2 t3 -> evolves t1 t3.
Proof.
  intros (k1 & n1 & E1 & H1 & _) (k2 & n2 & E2 & H2 & Hok). rewrite E1 in H2.
  apply Forall2_app_inv_l in H2 as (k1' & n1' & Hk & Hn & ->). exists k1', (n1' ++ n2).
  rewrite app_assoc. split; [done|]. split; [by trans k1|done].
Qed.

Lemma claims_none s t : List.find (claims s) (rows t) = None ->
  SettlementID s ∉ settlement_id <$> rows t /\ GrantID s ∉ grant_id <$> rows t.
Proof.
  intros H. pose proof (List.find_none _ _ H) as Hn.
  split; intros (r & Hr & Hin)%list_elem_of_fmap; apply list_elem_of_In in Hin; specialize (Hn r Hin);
    unfold claims in Hn; rewrite <-Hr, String.eqb_refl, ?orb_true_r in Hn; done.
Qed.

Lemma kaana_enqueue_evolves identities now s t :
  outbox_ok t -> evolves t (kaana_enqueue_settlement identities now s t).2.
Proof.
  intros Hok. unfold kaana_enqueue_settlement. destruct (negb (_ && _)); [by apply evolves_refl|].
  destruct (negb (bool_decide _)); [by apply evolves_refl|].
  destruct (List.find _ _) as [existing|] eqn:E; cbn [snd].
  - apply evolves_rows; [done| |lia]. apply Forall_Forall2_diag, Forall_forall. reflexivity.
  - apply claims_none in E as [Hs Hg]. destruct Hok as [H1 H2 H3 H4 H5].
    eexists (rows t), _. split; [reflexivity|]. split; [apply Forall_Forall2_diag, Forall_forall; reflexivity|].
    constructor; cbn [rows next_seq]; rewrite ?fmap_app.
    + apply NoDup_app. split; [done|]. split; [|apply NoDup_singleton]. intros x Hx ->%list_elem_of_singleton. done.
    + apply NoDup_app. split; [done|]. split; [|apply NoDup_singleton]. intros x Hx ->%list_elem_of_singleton. done.
    + apply StronglySorted_snoc; [done|]. intros y (r & -> & Hr)%list_elem_of_fmap. cbn.
      rewrite Forall_forall in H4. by apply H4.
    + apply Forall_app. split; [|constructor; [cbn; lia|constructor]]. eapply Forall_impl; [exact H4|]. cbn. intros; lia.
    + apply Forall_app. split; [done|]. constructor; [done|constructor].
Qed.

(** ** The ledger *)

Section Recorded.
Context (to_timestamptz : Instant -> Z) (registered : Registered).
Notation columns := (columns to_timestamptz).
Notation record_events := (record_events to_timestamptz registered).
Notation RecordSettlement := (RecordSettlement to_timestamptz registered).

Definition recorded_in (events : list Event) (l : Ledger) : Prop :=
  forall e, e ∈ events -> l !! event_key e = Some (columns e).

Lemma record_events_spec events l l' :
  record_events events l = Some l' -> l ⊆ l' /\ recorded_in events l'.
Proof.
  revert l. induction events as [|e events IH]; intros l; cbn [Outbox.record_events].
  { intros [= <-]. split; [done|]. by intros e ?%elem_of_nil. }
  destruct (_ || _); [done|].
  assert (forall m, l ⊆ m -> m !! event_key e = Some (columns e) -> record_events events m = Some l' ->
    l ⊆ l' /\ recorded_in (e :: events) l') as Hgo.
  { intros m Hm He [Hsub Hin]%IH. split; [by trans m|]. intros x [->|Hx]%elem_of_cons; [|auto].
    by apply (lookup_weaken m). }
  destruct (l !! event_key e) as [existing|] eqn:E.
  - destruct (decide (existing = columns e)) as [->|]; [|done]. by apply Hgo.
  - destruct (has_key _ _ _); [|done]. apply Hgo; [by apply insert_subseteq|apply lookup_insert_eq].
Qed.

(** Recording again what is recorded changes nothing. *)
Lemma record_events_again events l l' :
  record_events events l = Some l' -> record_events events l' = Some l'.
Proof.
  intros H. destruct (record_events_spec _ _ _ H) as [_ Hin]. revert l H Hin.
  assert (forall evs l, record_events evs l = Some l' -> recorded_in evs l' -> record_events evs l' = Some l') as Hgo.
  { induction evs as [|e evs IH]; intros l; cbn [Outbox.record_events]; [done|]. intros H Hin.
    rewrite (Hin e) by (apply elem_of_cons; by left). rewrite decide_True by done.
    assert (recorded_in evs l') as Hin' by (intros x Hx; apply Hin, elem_of_cons; by right).
    destruct (_ || _); [done|]. destruct (l !! event_key e).
    - destruct (decide _); [|done]. by apply (IH _ H).
    - destruct (has_key _ _ _); [|done]. by apply (IH _ H). }
  intros l H Hin. by apply (Hgo events l).
Qed.

(** ** One transaction *)

(** What a database holds of a settlement: its row and every cost. *)
Definition holds (s : OutboxSettlement) (events : list Event) (db : database) : Prop :=
  (exists r, r ∈ rows (outbox db) /\ same_settlement s r = true) /\ recorded_in events (ledger db).

Definition untouched (db db' : database) : Prop :=
  ledger db' = ledger db /\ rows (outbox db') = rows (outbox db).

Lemma same_settlement_new s seq now :
  same_settlement s (mkRow seq (SettlementID s) (GrantID s) (RequestID s) (Body s) now 0 now None None) = true.
Proof. unfold same_settlement. cbn. by rewrite !String.eqb_refl. Qed.

Lemma kaana_enqueue_answer identities now s t :
  match kaana_enqueue_settlement identities now s t with
  | ((NewRow | Replayed), t') => exists r, r ∈ rows t' /\ same_settlement s r = true
  | (_, t') => rows t' = rows t
  end.
Proof.
  unfold kaana_enqueue_settlement. destruct (negb (_ && _)); [done|]. destruct (negb (bool_decide _)); [done|].
  destruct (List.find _ _) as [existing|] eqn:E.
  - destruct (same_settlement s existing) eqn:Es; [|done]. exists existing. split; [|done]. cbn.
    apply List.find_some in E as [E _]. by apply list_elem_of_In.
  - eexists. split; [apply elem_of_app; right; by apply list_elem_of_singleton|]. apply same_settlement_new.
Qed.

Lemma kaana_enqueue_seq identities now s t : (next_seq t <= next_seq (kaana_enqueue_settlement identities now s t).2)%Z.
Proof.
  unfold kaana_enqueue_settlement. destruct (negb (_ && _)); [done|]. destruct (negb (bool_decide _)); [done|].
  destruct (List.find _ _); cbn; lia.
Qed.

Lemma RecordSettlement_spec identities fault now events s db :
  outbox_ok (outbox db) ->
  let '(err, db') := RecordSettlement identities fault now events s db in
  evolves (outbox db) (outbox db') /\ ledger db ⊆ ledger db' /\
  (untouched db db' \/ holds s events db') /\ (err = None -> holds s events db').
Proof.
  intros Hok. unfold Outbox.RecordSettlement.
  assert (evolves (outbox db) (outbox db)) as Hrefl by by apply evolves_refl.
  destruct (_ || _); [by split_and!; try left|].
  destruct fault eqn:Ef; [|by split_and!; try left| |].
  all: set (recorded := match events with [] => _ | _ => _ end).
  all: assert (forall l, recorded = Some l -> ledger db ⊆ l /\ recorded_in events l) as Hrec;
    [intros l; subst recorded; destruct events as [|e events]; [intros [= <-]; split; [done|by intros ? ?%elem_of_nil]|];
     unfold kaana_record_provider_attempt_events; destruct (batch_ok _); [|done];
     destruct (Outbox.record_events _ _ _ _) as [l'|] eqn:Er; [|done]; cbn [mbind option_bind];
     destruct (_ =? _)%Z; [|done]; intros [= <-]; by apply record_events_spec in Er|].
  all: clearbody recorded; destruct recorded as [l|]; [|by split_and!; try left].
  all: destruct (Hrec l eq_refl) as [Hsub Hin].
  all: pose proof (kaana_enqueue_answer identities now s (outbox db)) as Ha.
  all: pose proof (kaana_enqueue_evolves identities now s (outbox db) Hok) as He.
  all: destruct (kaana_enqueue_settlement _ _ _ _) as [answer t] eqn:Eq; cbn [snd] in He.
  all: assert (evolves (outbox db) (mkTable (rows (outbox db)) (next_seq t))) as Hroll.
  1,3,5: apply evolves_rows; [done|apply Forall_Forall2_diag, Forall_forall; reflexivity|];
    pose proof (kaana_enqueue_seq identities now s (outbox db)) as Hseq; by rewrite Eq in Hseq.
  all: destruct answer; try (destruct applied); cbn [outbox ledger];
    split_and!; try done; try (by left); try (by right); try (intros _; by split).
Qed.

(** A transaction only appends, and what it appends is due at once. *)
Lemma RecordSettlement_rows identities fault now events s db :
  exists new, rows (outbox (RecordSettlement identities fault now events s db).2) = rows (outbox db) ++ new /\
    Forall (fun r => created_at r = now /\ next_attempt_at r = now) new.
Proof.
  set (appends := fun l : list row =>
    exists new, l = rows (outbox db) ++ new /\ Forall (fun r => created_at r = now /\ next_attempt_at r = now) new).
  assert (appends (rows (outbox db))) as Hnil by (exists []; by rewrite app_nil_r).
  assert (appends (rows (kaana_enqueue_settlement identities now s (outbox db)).2)) as Henq.
  { unfold kaana_enqueue_settlement. destruct (negb (_ && _)); [done|]. destruct (negb (bool_decide _)); [done|].
    destruct (List.find _ _); [done|]. eexists. split; [reflexivity|]. by constructor. }
  change (appends (rows (outbox (RecordSettlement identities fault now events s db).2))).
  unfold Outbox.RecordSettlement. destruct (_ || _); [done|]. destruct fault as [| | |[]]; try done.
  all: destruct (match events with [] => _ | _ => _ end); [|done].
  all: destruct (kaana_enqueue_settlement _ _ _ _) as [[] t]; done.
Qed.

(** ** Histories *)

(** What workers, requests and restarts do to the database, in any order. *)
Inductive op :=
  OpRecord (fault : Fault) (now : Instant) (events : list Event) (s : OutboxSettlement)
| OpClaim (limit : Z) (lease : Duration) (now : Instant) (locked : list string)
| OpDelivered (now : Instant) (id status : string)
| OpDefer (id : string) (retry_at : Instant) (failure : string).

Context (identities : string -> option (string * string * string)).

Definition set_outbox (t : table) (db : database) : database := mkDatabase (ledger db) t.

Definition claimed (o : op) (db : database) : list row :=
  match o with
  | OpClaim limit lease now locked =>
      match kaana_claim_settlements limit lease now locked (outbox db) with Some (l, _) => l | None => [] end
  | _ => []
  end.

Definition apply_op (db : database) (o : op) : database :=
  match o with
  | OpRecord fault now events s => (RecordSettlement identities fault now events s db).2
  | OpClaim limit lease now locked =>
      match kaana_claim_settlements limit lease now locked (outbox db) with
      | Some (_, t) => set_outbox t db | None => db
      end
  | OpDelivered now id status =>
      match kaana_mark_settlement_delivered now id status (outbox db) with Some t => set_outbox t db | None => db end
  | OpDefer id retry_at failure =>
      match kaana_defer_settlement id retry_at failure (outbox db) with Some t => set_outbox t db | None => db end
  end.

Definition run_ops (db : database) (ops : list op) : database := foldl apply_op db ops.

Lemma apply_op_evolves db o : outbox_ok (outbox db) ->
  evolves (outbox db) (outbox (apply_op db o)) /\ ledger db ⊆ ledger (apply_op db o).
Proof.
  intros Hok. pose proof (evolves_refl _ Hok) as Hrefl. destruct o; cbn [apply_op].
  - pose proof (RecordSettlement_spec identities fault now events s db Hok) as H.
    destruct (Outbox.RecordSettlement _ _ _ _ _ _ _ _) as [err db']. cbn [snd]. tauto.
  - unfold kaana_claim_settlements. destruct (_ || _); [done|]. split; [|done].
    apply evolves_update; [done|]. apply keeps_lease.
  - unfold kaana_mark_settlement_delivered. destruct (isMember _ _); [|done]. split; [|done].
    apply evolves_update; [done|]. apply keeps_deliver.
  - unfold kaana_defer_settlement. destruct (Regex.matches _ _); [|done]. split; [|done].
    apply evolves_update; [done|]. apply keeps_defer.
Qed.

Lemma evolves_ok t t' : evolves t t' -> outbox_ok t'.
Proof. by intros (? & ? & _ & _ & ?). Qed.

Lemma run_ops_evolves db ops : outbox_ok (outbox db) ->
  evolves (outbox db) (outbox (run_ops db ops)) /\ ledger db ⊆ ledger (run_ops db ops).
Proof.
  revert db. induction ops as [|o ops IH]; intros db Hok; cbn [run_ops foldl]; [split; [by apply evolves_refl|done]|].
  destruct (apply_op_evolves db o Hok) as [He Hl]. destruct (IH (apply_op db o) (evolves_ok _ _ He)) as [He' Hl'].
  split; [by apply (evolves_trans _ (outbox (apply_op db o)))|by trans (ledger (apply_op db o))].
Qed.

(** C16. A settlement, once written, is kept.  Whatever transactions, claims,
    acknowledgements and deferrals follow, in any order and with any connection
    failing, every row of the outbox is still there, in its place in the
    sequence, for the same settlement, grant, request and bytes; a delivered one
    stays delivered with the status it was acknowledged with; no settlement and
    no grant ever has two rows; and no cost recorded is lost or changed. *)
Theorem settlements_are_kept db ops :
  outbox_ok (outbox db) ->
  evolves (outbox db) (outbox (run_ops db ops)) /\ outbox_ok (outbox (run_ops db ops)) /\
  ledger db ⊆ ledger (run_ops db ops).
Proof.
  intros Hok. destruct (run_ops_evolves db ops Hok) as [He Hl]. split; [done|]. split; [by eapply evolves_ok|done].
Qed.

(** A settlement and its costs are written together or not at all.  A
    transaction, wherever its connection fails, leaves the rows of both tables
    as they were or holds the settlement's row, byte for byte, and the cost of
    every attempt as encoded; and it reports success only when it holds them. *)
Theorem settlements_hold_their_costs fault now events s db :
  outbox_ok (outbox db) ->
  let '(err, db') := RecordSettlement identities fault now events s db in
  (untouched db db' \/ holds s events db') /\ (err = None -> holds s events db').
Proof.
  intros Hok. pose proof (RecordSettlement_spec identities fault now events s db Hok) as H.
  destruct (Outbox.RecordSettlement _ _ _ _ _ _ _ _). tauto.
Qed.

(** ** Leases *)

(** The row of a settlement is out of reach until an instant. *)
Definition leased (id : string) (until : Instant) (t : table) : Prop :=
  id ∈ settlement_id <$> rows t /\
  forall r, r ∈ rows t -> settlement_id r = id -> is_Some (delivered r) \/ (until <= next_attempt_at r)%Z.

Definition defers (id : string) (o : op) : bool :=
  match o with OpDefer x _ _ => x =s id | _ => false end.

Definition claim_time (o : op) : option (Instant * Duration) :=
  match o with OpClaim _ lease now _ => Some (now, lease) | _ => None end.

Lemma claim_due limit lease now locked t l t' :
  kaana_claim_settlements limit lease now locked t = Some (l, t') ->
  (Z.of_nat (length l) <= limit)%Z /\ (Second <= lease)%Z /\
  exists chosen, l = lease_row now lease <$> chosen /\ t' = update_rows (settlement_id <$> chosen) (lease_row now lease) t /\
    forall r, r ∈ chosen -> r ∈ rows t /\ due now locked r = true.
Proof.
  unfold kaana_claim_settlements. destruct (negb _ || _ || _) eqn:E; [done|]. intros [= <- <-].
  rewrite !orb_false_iff, negb_false_iff in E. destruct E as [[E1 E2] E3].
  unfold in_range_z in E1. bool_cases. rewrite length_fmap, length_take. split; [lia|]. split; [lia|].
  eexists. split; [reflexivity|]. split; [reflexivity|].
  intros r Hr. assert (r ∈ List.filter (due now locked) (rows t)) as Hin.
  { rewrite <-(sort_stable_by_permutation next_attempt_at). eapply subseteq_take; exact Hr. }
  apply list_elem_of_In, filter_In in Hin as [Hin Hd]. split; [by apply list_elem_of_In|done].
Qed.

Lemma apply_op_leased id until db o :
  outbox_ok (outbox db) -> leased id until (outbox db) -> defers id o = false ->
  (forall now lease, claim_time o = Some (now, lease) -> (now < until)%Z) ->
  leased id until (outbox (apply_op db o)) /\ id ∉ settlement_id <$> claimed o db.
Proof.
  intros Hok [Hin Hl] Hd Ht.
  assert (forall chosen f, (forall r, keeps r (f r)) ->
    (forall r, r ∈ rows (outbox db) -> settlement_id r = id -> isMember id chosen = true ->
       is_Some (delivered (f r)) \/ (until <= next_attempt_at (f r))%Z) ->
    leased id until (update_rows chosen f (outbox db))) as Hup.
  { intros chosen f Hf Hc. unfold update_rows, leased. cbn [rows]. split.
    - rewrite <-list_fmap_compose. apply list_elem_of_fmap in Hin as (r & -> & Hr). apply list_elem_of_fmap.
      exists r. split; [|done]. cbn. destruct (isMember _ chosen); [|done]. symmetry. apply Hf.
    - intros r' (r & -> & Hr)%list_elem_of_fmap. destruct (isMember (settlement_id r) chosen) eqn:Em; [|by apply Hl].
      rewrite (kp_settlement _ _ (Hf r)). intros <-. by apply Hc. }
  destruct o as [fault now events s|limit lease now locked|now x status|x retry_at failure]; cbn [apply_op claimed].
  - split; [|apply not_elem_of_nil]. pose proof (RecordSettlement_spec identities fault now events s db Hok) as H.
    destruct (RecordSettlement_rows identities fault now events s db) as (new & Hnew & _).
    destruct (Outbox.RecordSettlement _ _ _ _ _ _ _ _) as [err db']. cbn [snd] in Hnew |- *.
    destruct H as [(_ & _ & _ & _ & [Hids _ _ _ _]) _]. rewrite Hnew, fmap_app in Hids. apply NoDup_app in Hids as (_ & Hids & _).
    unfold leased. rewrite Hnew. split; [rewrite fmap_app; apply elem_of_app; by left|].
    intros r [Hr|Hr]%elem_of_app Heq; [by apply Hl|]. destruct (Hids id Hin). apply list_elem_of_fmap. by exists r.
  - destruct (kaana_claim_settlements _ _ _ _ _) as [[l t]|] eqn:Ec; [|split; [done|apply not_elem_of_nil]].
    destruct (claim_due _ _ _ _ _ _ _ Ec) as (_ & Hlease & chosen & -> & -> & Hchosen).
    specialize (Ht now lease eq_refl).
    assert (id ∉ settlement_id <$> chosen) as Hno.
    { intros (r & Heq & Hr)%list_elem_of_fmap. destruct (Hchosen r Hr) as [Hrow Hdue]. unfold due in Hdue.
      rewrite !andb_true_iff in Hdue. destruct Hdue as [[Hdue1 Hdue2] _].
      destruct (Hl r Hrow (eq_sym Heq)) as [Hdel|Hlt]; [|bool_cases; lia].
      by rewrite bool_decide_eq_true_2 in Hdue1. }
    split.
    + apply Hup; [apply keeps_lease|]. intros r _ _ Hm%isMember_spec. done.
    + rewrite <-list_fmap_compose. exact Hno.
  - split; [|apply not_elem_of_nil]. unfold kaana_mark_settlement_delivered.
    destruct (isMember status _); [|done]. apply Hup; [apply keeps_deliver|]. intros r Hr Heq _. left.
    unfold deliver_row. case_bool_decide as Hdel; [done|]. by eexists.
  - split; [|apply not_elem_of_nil]. unfold kaana_defer_settlement. destruct (Regex.matches _ _); [|done].
    apply Hup; [apply keeps_defer|]. intros r Hr Heq Hm%isMember_spec%list_elem_of_singleton. subst x.
    cbn in Hd. by rewrite String.eqb_refl in Hd.
Qed.

(** A claimed settlement is one deliverer's until its lease ends.  A claim
    takes at most its limit of rows, each undelivered and due, and returns their
    own bytes; and no later claim made before the lease is over takes any of
    them again, whatever else happens, unless its deliverer gives it back by
    deferring it. *)
Theorem leases_are_exclusive limit lease now locked db l ops o :
  outbox_ok (outbox db) -> claimed (OpClaim limit lease now locked) db = l ->
  (Z.of_nat (length l) <= Z.max 0 limit)%Z /\
  (forall r', r' ∈ l -> exists r, r ∈ rows (outbox db) /\ delivered r = None /\ (next_attempt_at r <= now)%Z /\
     keeps r r' /\ attempts r' = (attempts r + 1)%Z) /\
  (forall r', r' ∈ l ->
     Forall (fun x => defers (settlement_id r') x = false /\
       forall t d, claim_time x = Some (t, d) -> (t < now + lease)%Z) (ops ++ [o]) ->
     settlement_id r' ∉ settlement_id <$> claimed o (run_ops (apply_op db (OpClaim limit lease now locked)) ops)).
Proof.
  intros Hok <-. destruct (apply_op_evolves db (OpClaim limit lease now locked) Hok) as [Hev _].
  cbn [claimed]. destruct (kaana_claim_settlements limit lease now locked (outbox db)) as [[l t]|] eqn:Ec.
  2:{ cbn. split; [lia|]. split; by intros r' ?%elem_of_nil. }
  destruct (claim_due _ _ _ _ _ _ _ Ec) as (Hlen & Hlease & chosen & -> & -> & Hchosen).
  split; [lia|]. split.
  - intros r' (r & -> & Hr)%list_elem_of_fmap. exists r. destruct (Hchosen r Hr) as [Hrow Hdue]. unfold due in Hdue.
    rewrite !andb_true_iff in Hdue. destruct Hdue as [[Hdue1 Hdue2] _]. bool_cases.
    split; [done|]. split; [|split; [done|split; [apply keeps_lease|done]]].
    destruct (delivered r); [|done]. by rewrite bool_decide_eq_true_2 in Hdue1.
  - intros r' (r & -> & Hr)%list_elem_of_fmap Hops. cbn [settlement_id lease_row] in *.
    destruct (Hchosen r Hr) as [Hrow _]. rewrite Forall_app in Hops. destruct Hops as [Hops [Ho _]%Forall_cons].
    set (db1 := apply_op db (OpClaim limit lease now locked)) in *.
    assert (leased (settlement_id r) (now + lease) (outbox db1)) as Hleased.
    { unfold db1. cbn [apply_op]. rewrite Ec. cbn [outbox set_outbox update_rows]. unfold leased. cbn [rows]. split.
      - apply list_elem_of_fmap. exists (lease_row now lease r). split; [done|]. apply list_elem_of_fmap. exists r.
        split; [|done]. rewrite (proj2 (isMember_spec _ _)); [done|]. apply list_elem_of_fmap. by exists r.
      - intros x (y & -> & Hy)%list_elem_of_fmap. destruct (isMember (settlement_id y) _) eqn:Em; [right; cbn; lia|].
        intros Heq. apply isMember_false in Em. destruct Em. apply list_elem_of_fmap. by exists r. }
    assert (outbox_ok (outbox db1)) as Hok1 by by eapply evolves_ok.
    clearbody db1. clear Ec Hok Hev Hr Hrow. revert db1 Hleased Hok1.
    induction ops as [|x ops IH]; intros db1 Hleased Hok1; cbn [run_ops foldl].
    + destruct Ho as [Hd Ht]. exact (proj2 (apply_op_leased _ _ _ _ Hok1 Hleased Hd Ht)).
    + apply Forall_cons in Hops as [[Hd Ht] Hops]. apply IH; [done| |].
      * exact (proj1 (apply_op_leased _ _ _ _ Hok1 Hleased Hd Ht)).
      * eapply evolves_ok. by apply apply_op_evolves.
Qed.

End Recorded.

(** ** Examples *)

Definition example_registered : Registered :=
  mkRegistered (fun version => version =s "v1") (fun provider key => (provider =s "acme") && (key =s "key-1")).
Definition milliseconds_of (at_ : Instant) : Z := (at_ / Millisecond)%Z.

(** Bodies that name what they settle. *)
Definition example_identities (text : string) : option (string * string * string) :=
  if text =s "{1}" then Some ("stl_1", "grant-1", "req-1")
  else if text =s "{2}" then Some ("stl_2", "grant-2", "req-2")
  else if text =s "{1b}" then Some ("stl_9", "grant-1", "req-1") else None.

Definition example_settlement (n : string) : OutboxSettlement :=
  mkOutbox ("stl_" +:+ n) ("grant-" +:+ n) ("req-" +:+ n) ("{" +:+ n +:+ "}").

Definition example_event : Event :=
  mkEvent "req-1" 0 "acme" "key-1" "m-1" "acme/m@1" (mkMoney "USD" 7) SourceRateCard "v1" true true Second
    [mkQuantity "input_token" 3] (mkTelemetry 0 Second 0 AttemptSucceeded "").

Definition empty_database : database := mkDatabase ∅ (mkTable [] 1).

Lemma empty_ok : outbox_ok (outbox empty_database).
Proof. constructor; constructor. Qed.

Definition example_run (ops : list op) : database :=
  run_ops milliseconds_of example_registered example_identities empty_database ops.

(** A commit whose answer was lost, its retry, a claim and an acknowledgement. *)
Definition example_ops : list op :=
  [OpRecord (CommitLost true) Second [example_event] (example_settlement "1");
   OpRecord Clean (2 * Second) [example_event] (example_settlement "1");
   OpRecord Clean (3 * Second) [] (example_settlement "2");
   OpClaim 20 Minute (4 * Second) []; OpDelivered (5 * Second) "stl_1" "settled"].

Example example_rows :
  (fun r => (outbox_seq r, settlement_id r, attempts r, delivered r)) <$> rows (outbox (example_run example_ops)) =
  [(1, "stl_1", 1, Some (5 * Second, "settled")); (3, "stl_2", 1, None)]%Z.
Proof. vm_compute. reflexivity. Qed.

(** Another settlement of a settled grant is refused. *)
Example one_grant_settles_once :
  (RecordSettlement milliseconds_of example_registered example_identities Clean (6 * Second) []
     (mkOutbox "stl_9" "grant-1" "req-1" "{1b}") (example_run example_ops)).1 = Some ErrSettlementConflict.
Proof. vm_compute. reflexivity. Qed.

Lemma settlements_are_kept_witness :
  evolves (outbox empty_database) (outbox (example_run example_ops)) /\
  length (rows (outbox (example_run example_ops))) = 2.
Proof.
  split; [|vm_compute; reflexivity].
  apply (settlements_are_kept milliseconds_of example_registered example_identities empty_database example_ops empty_ok).
Defined.

Lemma settlements_hold_their_costs_witness :
  let '(err, db') := RecordSettlement milliseconds_of example_registered example_identities (CommitLost true) Second
    [example_event] (example_settlement "1") empty_database in
  err = Some OtherStoreError /\ holds milliseconds_of (example_settlement "1") [example_event] db'.
Proof.
  pose proof (settlements_hold_their_costs milliseconds_of example_registered example_identities (CommitLost true) Second
    [example_event] (example_settlement "1") empty_database empty_ok) as H.
  destruct (RecordSettlement _ _ _ _ _ _ _ _) as [err db'] eqn:E. destruct H as [[[_ Hr]|H] _].
  - vm_compute in E. injection E as _ <-. discriminate Hr.
  - split; [vm_compute in E; by injection E as <- _|exact H].
Defined.

Lemma leases_are_exclusive_witness :
  let db := example_run (take 3 example_ops) in
  let claim := OpClaim 20 Minute (4 * Second) [] in
  settlement_id <$> claimed claim db = ["stl_1"; "stl_2"] /\
  "stl_2" ∉ settlement_id <$> claimed (OpClaim 20 Minute (63 * Second) [])
    (run_ops milliseconds_of example_registered example_identities
      (apply_op milliseconds_of example_registered example_identities db claim)
      [OpDefer "stl_1" (20 * Second) "oxy_rejected"; OpClaim 20 Minute (30 * Second) []]).
Proof.
  cbv zeta. split; [vm_compute; reflexivity|].
  set (db := example_run (take 3 example_ops)).
  assert (outbox_ok (outbox db)) as Hok.
  { eapply evolves_ok, run_ops_evolves, empty_ok. }
  destruct (leases_are_exclusive milliseconds_of example_registered example_identities 20 Minute (4 * Second) [] db _
    [OpDefer "stl_1" (20 * Second) "oxy_rejected"; OpClaim 20 Minute (30 * Second) []] (OpClaim 20 Minute (63 * Second) [])
    Hok eq_refl) as (_ & _ & H).
  destruct (claimed (OpClaim 20 Minute (4 * Second) []) db !! 1) as [r|] eqn:E; [|vm_compute in E; discriminate E].
  assert (settlement_id r = "stl_2") as <- by (vm_compute in E; by injection E as <-).
  apply H; [by eapply list_elem_of_lookup_2|].
  assert (settlement_id r = "stl_2") as -> by (vm_compute in E; by injection E as <-).
  repeat constructor; cbn; try done; intros ? ? [= <- <-]; done.
Defined.
