(* ===== verification/Settler.v ===== *)
(** * Settling with Oxy (internal/publicapi/settle.go)

    A granted request's settlement is built, written to the outbox with its
    provider costs, and delivered by a worker until Oxy acknowledges it; Oxy
    reconciles against the same rows.  A worker's calls of the store are the
    operations of Outbox.v, between which other workers' stand. *)

From S2P Require Import Prelude Ids Text Contract Request ProviderCost Inventory Lines Grant Outbox.
From S2P Require Authorize.
From S2P Require Import EdgeAuth.

(** ** Bounds *)

Definition settlementBatch : Z := 20.
Definition settlementLease : Duration := Minute.
Definition settlementMaxBackoff : Duration := 10 * Minute.
Definition settlementPostTimeout : Duration := 10 * Second.
Definition maxAcknowledgementSize : Z := 64 * 1024.
Definition reconciliationDefaultLimit : Z := 100.
Definition reconciliationMaxLimit : Z := 500.

(** ** Writing *)

Definition base32_digit (d : Z) : ascii :=
  ascii_of_nat (Z.to_nat (if (d <? 26)%Z then 97 + d else 24 + d)).

(** [newSettlementID] from the sixteen bytes drawn: base32 in lower case,
    without padding. *)
Definition newSettlementID (entropy : list Z) : string :=
  let n := foldl (fun acc b => Z.lor (Z.shiftl acc 8) b) 0%Z entropy in
  "stl_" +:+ String.string_of_list_ascii
    ((fun i => base32_digit (Z.land (Z.shiftr (Z.shiftl n 2) (5 * (25 - Z.of_nat i))) 31)) <$> seq 0 26).

(** The settlement [Settle] builds; nothing served is served by no step. *)
Definition newSettlement (id : string) (now : Instant) (grant : Grant) (report : UsageReport) (servedStep : option Z)
    : Settlement :=
  let unserved := negb (Outcome report =s OutcomeCompleted) && (Z.of_nat (length (Units report)) =? 0)%Z in
  mkSettlement SettlementSchemaVersion id (Grant.GrantID grant) (grant_RequestID grant)
    (ReservationID <$> Reservation grant) (Capacity grant) (if unserved then None else servedStep) report (NewTimestamp now).

Inductive SettleError := ContractRefusal | EncodingRefusal | StoreRefusal (e : StoreError).

Section Settle.
Context (to_timestamptz : Instant -> Z) (registered : Registered).
Context (identities : string -> option (string * string * string)).
Context (Marshal : Settlement -> option string).

(** The write's attempts: [world] is how each fared and when, [cut] whether
    the write's context ended during the wait after one. *)
Fixpoint write_from (more attempt : nat) (world : nat -> Fault * Instant) (cut : nat -> bool) (events : list Event)
    (row : OutboxSettlement) (db : database) : option StoreError * database :=
  let '(err, db) :=
    RecordSettlement to_timestamptz registered identities (world attempt).1 (world attempt).2 events row db in
  match err, more with
  | None, _ | Some ErrSettlementConflict, _ | _, O => (err, db)
  | Some _, S more => if cut attempt then (err, db) else write_from more (S attempt) world cut events row db
  end.

Definition outbox_row (s : Settlement) (encoded : string) : OutboxSettlement :=
  mkOutbox (Grant.SettlementID s) (settlement_GrantID s) (settlement_RequestID s) encoded.

(** [Settler.Settle]: four attempts at most; a cost that cannot be recorded as
    measured is left out. *)
Definition Settle (entropy : list Z) (now : Instant) (grant : Grant) (report : UsageReport) (servedStep : option Z)
    (cost : Record_) (world : nat -> Fault * Instant) (cut : nat -> bool) (db : database)
    : option SettleError * database :=
  let s := newSettlement (newSettlementID entropy) now grant report servedStep in
  match Settlement_Validate s with
  | Some _ => (Some ContractRefusal, db)
  | None =>
      match Marshal s with
      | None => (Some EncodingRefusal, db)
      | Some encoded =>
          let '(err, db) := write_from 3 0 world cut (default [] (Events cost)) (outbox_row s encoded) db in
          (StoreRefusal <$> err, db)
      end
  end.

End Settle.

(** ** Delivering *)

(** [Settler.post]: Oxy's status, or a closed failure class; [decode] is the
    strict decoder's answer. *)
Definition post (decode : string -> option SettlementAcknowledgement) (settlementID : string) (reply : Authorize.Reply)
    : string + string :=
  match reply with
  | Authorize.NoToken => inr "kaana_identity_unavailable"
  | Authorize.NoRequest | Authorize.Unencodable => inr "kaana_request_invalid"
  | Authorize.Unreachable _ => inr "oxy_unreachable"
  | Authorize.Unread => inr "oxy_unreadable"
  | Authorize.Reached status _ body =>
      if (maxAcknowledgementSize <? len body)%Z then inr "oxy_unreadable"
      else if (500 <=? status)%Z || (status =? 429)%Z then inr "oxy_unavailable"
      else if negb (status =? 200)%Z then inr "oxy_rejected"
      else match decode body with
      | None => inr "oxy_unreadable"
      | Some ack =>
          match SettlementAcknowledgement_Validate ack with
          | Some _ => inr "oxy_unreadable"
          | None => if ack_SettlementID ack =s settlementID then inl (Status ack) else inr "oxy_unreadable"
          end
      end
  end.

(** The wait before the next delivery; [jitter] is the number drawn below its
    bound. *)
Definition backoff_base (attempts : Z) : Duration :=
  Z.min settlementMaxBackoff (wrap64 (Z.shiftl 1 (Z.min attempts 10) * Second)).
Definition jitter_bound (attempts : Z) : Z := (Z.quot (backoff_base attempts) 4 + 1)%Z.
Definition backoff (attempts : Z) (failure : string) (jitter : Z) : Duration :=
  if failure =s "oxy_rejected" then settlementMaxBackoff else (backoff_base attempts + jitter)%Z.

(** One delivery: what Oxy answered, when the store was told, the jitter. *)
Record delivery := mkDelivery { d_reply : Authorize.Reply; d_at : Instant; d_jitter : Z }.

(** [Settler.deliver], as the store call it ends in. *)
Definition deliver (decode : string -> option SettlementAcknowledgement) (r : row) (w : delivery) : op :=
  match post decode (settlement_id r) (d_reply w) with
  | inl status => OpDelivered (d_at w) (settlement_id r) status
  | inr failure => OpDefer (settlement_id r) (Add (d_at w) (backoff (attempts r) failure (d_jitter w))) failure
  end.

(** The claim every round of [DeliverDue] makes. *)
Definition claim_due_rows (now : Instant) (locked : list string) : op :=
  OpClaim settlementBatch settlementLease now locked.

(** ** A worker's pass *)

(** What a pass meets: a claim's clock and the rows other claims have locked,
    nothing when the context has ended or the claim fails; each delivery of the
    round and whether the store could be told of it. *)
Record pass := mkPass {
  p_claim : nat -> option (Instant * list string);
  p_delivery : nat -> nat -> delivery;
  p_told : nat -> nat -> bool;
}.

Section Pass.
Context (to_timestamptz : Instant -> Z) (registered : Registered).
Context (identities : string -> option (string * string * string)).
Context (decode : string -> option SettlementAcknowledgement).
Notation apply_op := (apply_op to_timestamptz registered identities).

(** The deliveries of one round, in the order claimed. *)
Fixpoint deliver_all (w : pass) (round i : nat) (claimed : list row) (db : database) : database :=
  match claimed with
  | [] => db
  | r :: claimed =>
      let o := deliver decode r (p_delivery w round i) in
      deliver_all w round (S i) claimed (if p_told w round i then apply_op db o else db)
  end.

(** [DeliverDue]: the settlements posted, in order, and the database after, in
    at most so many rounds. *)
Fixpoint DeliverDue (fuel : nat) (w : pass) (round : nat) (db : database) : list string * database :=
  match fuel, p_claim w round with
  | S fuel, Some (now, locked) =>
      let claim := OpClaim settlementBatch settlementLease now locked in
      let rows := claimed claim db in
      let db := deliver_all w round 0 rows (apply_op db claim) in
      let posted := settlement_id <$> rows in
      if (Z.of_nat (length rows) <? settlementBatch)%Z then (posted, db)
      else let '(more, db) := DeliverDue fuel w (S round) db in (posted ++ more, db)
  | _, _ => ([], db)
  end.

End Pass.

(** ** Reconciliation *)

Inductive Answer := Unsigned | BadRequest | StoreUnavailable | Page (text : string).

(** The query's members: the names it has, and the first value of each of the
    two read, [""] when absent. *)
Record Query := mkQuery { q_names : list string; q_cursor : string; q_limit : string }.

Definition quote := String (ascii_of_nat 34) "".

Definition page_text (rows : list (Z * string)) : string :=
  "{" +:+ quote +:+ "data" +:+ quote +:+ ":[" +:+ String.concat "," (snd <$> rows) +:+ "]" +:+
  match last rows with
  | Some (position, _) => "," +:+ quote +:+ "nextCursor" +:+ quote +:+ ":" +:+ quote +:+ Itoa position +:+ quote
  | None => ""
  end +:+ "}".

Definition after_of (q : Query) : option Z :=
  if q_cursor q =s "" then Some 0%Z
  else match ParseInt (q_cursor q) with Some n => if (n <? 0)%Z then None else Some n | None => None end.

Definition limit_of (q : Query) : option Z :=
  if q_limit q =s "" then Some reconciliationDefaultLimit
  else match ParseInt (q_limit q) with
       | Some n => if (n <? 1)%Z || (reconciliationMaxLimit <? n)%Z then None else Some n
       | None => None
       end.

Section Reconcile.
Context `{Ed25519}.

(** [ReconciliationHandler.ServeHTTP], the query as the library parses it. *)
Definition ServeHTTP (verifier : EdgeAuth.Verifier) (now : Instant) (header : Header) (rawQuery : string)
    (parsed : Query) (clock : Instant) (reachable : bool) (t : table) : Answer :=
  match EdgeAuth.Verify verifier now header rawQuery with
  | Some _ => Unsigned
  | None =>
      if negb (forallb (fun name => isMember name ["cursor"; "limit"]) (q_names parsed)) then BadRequest
      else match after_of parsed, limit_of parsed with
      | Some after, Some limit =>
          if reachable then
            match kaana_read_settlements after limit clock t with
            | Some rows => Page (page_text rows)
            | None => StoreUnavailable
            end
          else StoreUnavailable
      | _, _ => BadRequest
      end
  end.

End Reconcile.

(** ** Waits *)

Lemma backoff_base_bounds n : (0 <= n)%Z -> (Second <= backoff_base n <= settlementMaxBackoff)%Z.
Proof.
  intros Hn. unfold backoff_base. set (m := Z.min n 10). assert (0 <= m <= 10)%Z as Hm by lia. clearbody m.
  assert (m ∈ [0; 1; 2; 3; 4; 5; 6; 7; 8; 9; 10]%Z) as Hin.
  { assert (m = 0 \/ m = 1 \/ m = 2 \/ m = 3 \/ m = 4 \/ m = 5 \/ m = 6 \/ m = 7 \/ m = 8 \/ m = 9 \/ m = 10)%Z as H by lia.
    rewrite !elem_of_cons. tauto. }
  clear Hm. rewrite !elem_of_cons, elem_of_nil in Hin.
  repeat (destruct Hin as [->|Hin]; [vm_compute; split; discriminate|]). done.
Qed.

(** The longest a deferred settlement waits. *)
Definition longest_wait : Duration := (settlementMaxBackoff + 150 * Second)%Z.

Lemma backoff_bounds n failure jitter :
  (0 <= n)%Z -> (0 <= jitter)%Z ->
  (0 < backoff n failure jitter)%Z /\ (jitter < jitter_bound n -> backoff n failure jitter <= longest_wait)%Z.
Proof.
  intros Hn Hj. pose proof (backoff_base_bounds n Hn) as Hb. unfold backoff, jitter_bound, longest_wait.
  assert (0 < Second)%Z by done. assert (settlementMaxBackoff = 600 * Second)%Z as Hm by done.
  assert (Z.quot (backoff_base n) 4 <= 150 * Second)%Z as Hq.
  { rewrite Z.quot_div_nonneg by lia. apply Z.div_le_upper_bound; lia. }
  destruct (failure =s "oxy_rejected"); lia.
Qed.

Definition failures := ["kaana_identity_unavailable"; "kaana_request_invalid"; "oxy_unreachable"; "oxy_unreadable";
                        "oxy_unavailable"; "oxy_rejected"].

Lemma failures_match failure : failure ∈ failures -> Regex.matches failureCodePattern failure = true.
Proof. revert failure. apply Forall_forall. repeat (constructor; [by vm_compute|]). constructor. Qed.

(** What Oxy acknowledged: its answer, read strictly, for this settlement. *)
Definition acknowledges (decode : string -> option SettlementAcknowledgement) (id status : string)
    (reply : Authorize.Reply) : Prop :=
  exists header body ack, reply = Authorize.Reached 200 header body /\ (len body <= maxAcknowledgementSize)%Z /\
    decode body = Some ack /\ SettlementAcknowledgement_Validate ack = None /\ ack_SettlementID ack = id /\
    Status ack = status.

Lemma post_spec decode id reply :
  match post decode id reply with
  | inl status => isMember status settlementStatusValues = true /\ acknowledges decode id status reply
  | inr failure => failure ∈ failures /\ (failure = "oxy_rejected" <->
      exists status header body, reply = Authorize.Reached status header body /\
        (len body <= maxAcknowledgementSize)%Z /\ (status < 500)%Z /\ status <> 429%Z /\ status <> 200%Z)
  end.
Proof.
  assert (forall failure, bool_decide (failure ∈ failures) = true -> failure <> "oxy_rejected" ->
    (forall status header body, reply = Authorize.Reached status header body ->
      (maxAcknowledgementSize < len body)%Z \/ (500 <= status)%Z \/ status = 429%Z \/ status = 200%Z) ->
    failure ∈ failures /\ (failure = "oxy_rejected" <->
      exists status header body, reply = Authorize.Reached status header body /\
        (len body <= maxAcknowledgementSize)%Z /\ (status < 500)%Z /\ status <> 429%Z /\ status <> 200%Z)) as Hno.
  { intros failure Hin Hne Hr. split; [by apply bool_decide_eq_true in Hin|]. split; [done|].
    intros (status & header & body & Heq & Hs). specialize (Hr _ _ _ Heq). lia. }
  destruct reply as [| | |b| |status header body]; cbn [post];
    try (apply Hno; [done|done|intros ? ? ? [=]]).
  destruct (_ <? len body)%Z eqn:E1; bool_cases.
  { apply Hno; [done|done|]. intros ? ? ? [= -> -> ->]. lia. }
  destruct (_ || _) eqn:E2; [apply Hno; [done|done|]; intros ? ? ? [= -> -> ->]; bool_cases; lia|].
  destruct (status =? 200)%Z eqn:E3; cbn [negb]; bool_cases.
  2:{ split; [unfold failures; rewrite !elem_of_cons; tauto|]. split; [|done]. intros _. exists status, header, body. repeat split; lia. }
  assert (forall failure, bool_decide (failure ∈ failures) = true -> failure <> "oxy_rejected" ->
     failure ∈ failures /\ (failure = "oxy_rejected" <-> exists status0 header0 body0,
       Authorize.Reached status header body = Authorize.Reached status0 header0 body0 /\
        (len body0 <= maxAcknowledgementSize)%Z /\ (status0 < 500)%Z /\ status0 <> 429%Z /\ status0 <> 200%Z)) as Hbad.
  { intros failure Hin Hne. apply Hno; [done|done|]. intros ? ? ? [= <- <- <-]. lia. }
  destruct (decode body) as [ack|] eqn:Ed; [|by apply Hbad].
  destruct (SettlementAcknowledgement_Validate ack) eqn:Ev; [by apply Hbad|].
  destruct (_ =s id) eqn:Ei; [|by apply Hbad]. apply String.eqb_eq in Ei. split.
  - apply isMember_spec. unfold SettlementAcknowledgement_Validate in Ev. checks. by destruct Ev.
  - exists header, body, ack. subst. repeat split; try done; lia.
Qed.

(** A settlement is recorded as delivered only when Oxy acknowledged it.
    The store is told of a delivery exactly when Oxy answered 200 with a body
    that reads strictly, satisfies the contract and names this settlement, and
    with the status that body states; every other answer defers it, under a
    failure class the store takes, to an instant after now and at most twelve
    and a half minutes away, ten minutes exactly when Oxy refused it. *)
Theorem deliveries_end_in_an_answer decode r w :
  (0 <= attempts r)%Z -> (0 <= d_jitter w < jitter_bound (attempts r))%Z ->
  match deliver decode r w with
  | OpDelivered at_ id status =>
      at_ = d_at w /\ id = settlement_id r /\ status ∈ settlementStatusValues /\ acknowledges decode id status (d_reply w)
  | OpDefer id retry_at failure =>
      id = settlement_id r /\ Regex.matches failureCodePattern failure = true /\
      (d_at w < retry_at <= d_at w + longest_wait)%Z /\
      (failure = "oxy_rejected" -> retry_at = d_at w + settlementMaxBackoff)%Z /\
      ~ (exists status, acknowledges decode id status (d_reply w))
  | _ => False
  end.
Proof.
  intros Hn Hj. unfold deliver. pose proof (post_spec decode (settlement_id r) (d_reply w)) as H.
  destruct (post _ _ _) as [status|failure] eqn:Ep; [destruct H as [H1%isMember_spec H2]; done|].
  destruct H as [Hf _]. split; [done|]. split; [by apply failures_match|].
  pose proof (backoff_bounds (attempts r) failure (d_jitter w) Hn ltac:(lia)) as [Hb1 Hb2]. unfold Add.
  split; [lia|]. split; [by intros ->|].
  intros (status & header & body & ack & Hr & Hlen & Hd & Hv & Hi & _). rewrite Hr in Ep. cbn in Ep.
  rewrite (proj2 (Z.ltb_ge _ _) Hlen), Hd, Hv, Hi, String.eqb_refl in Ep. done.
Qed.

(** ** What a pass reaches *)

Section Reaches.
Context (to_timestamptz : Instant -> Z) (registered : Registered).
Context (identities : string -> option (string * string * string)).
Context (decode : string -> option SettlementAcknowledgement).
Notation apply_op := (apply_op to_timestamptz registered identities).
Notation run_ops := (run_ops to_timestamptz registered identities).
Notation deliver_all := (deliver_all to_timestamptz registered identities decode).
Notation DeliverDue := (DeliverDue to_timestamptz registered identities decode).

(** A row no claim takes until after an instant. *)
Definition past (n : Instant) (r : row) : Prop := is_Some (delivered r) \/ (n < next_attempt_at r)%Z.
#[local] Instance past_dec n r : Decision (past n r).
Proof. unfold past. apply _. Defined.

Definition pending (n : Instant) (t : table) : list string := settlement_id <$> filter (fun r => ~ past n r) (rows t).

(** What a round does: the rows claimed are put past the instant, the others
    left as they were. *)
Definition moved (n : Instant) (ids : list string) (r r' : row) : Prop :=
  settlement_id r' = settlement_id r /\ (0 <= attempts r')%Z /\
  (settlement_id r ∉ ids -> r' = r) /\ (settlement_id r ∈ ids -> past n r').

Lemma update_moved n ids chosen f l l' :
  (forall r, keeps r (f r) /\ past n (f r)) -> chosen ⊆ ids -> Forall2 (moved n ids) l l' ->
  Forall2 (moved n ids) l ((fun r => if isMember (settlement_id r) chosen then f r else r) <$> l').
Proof.
  intros Hf Hc H. apply Forall2_fmap_r. eapply Forall2_impl; [exact H|]. intros r r' (Hid & Ha & Hno & Hin).
  change (moved n ids r (if isMember (settlement_id r') chosen then f r' else r')).
  destruct (isMember _ chosen) eqn:Em; [|done]. apply isMember_spec, Hc in Em. rewrite Hid in Em.
  destruct (Hf r') as [Hk Hp]. split_and!; [|pose proof (kp_attempts _ _ Hk); lia|done|done].
  rewrite <-Hid. apply kp_settlement, Hk.
Qed.

Lemma claim_moved n now lease t chosen :
  outbox_ok t -> (n <= now)%Z -> (0 < lease)%Z ->
  Forall2 (moved n (settlement_id <$> chosen)) (rows t)
    (rows (update_rows (settlement_id <$> chosen) (lease_row now lease) t)).
Proof.
  intros Hok Hn Hl. apply Forall2_fmap_r, Forall_Forall2_diag. eapply Forall_impl; [apply (ob_attempts t Hok)|].
  intros r Hr. change (moved n (settlement_id <$> chosen) r
    (if isMember (settlement_id r) (settlement_id <$> chosen) then lease_row now lease r else r)).
  destruct (isMember _ _) eqn:Em.
  - apply isMember_spec in Em. split_and!; [done|cbn in *; lia|done|]. intros _. right. cbn. lia.
  - apply isMember_false in Em. by split_and!.
Qed.

Lemma deliver_effect n r w db :
  (0 <= attempts r)%Z -> (0 <= d_jitter w)%Z -> (n <= d_at w)%Z ->
  exists f, (forall x, keeps x (f x) /\ past n (f x)) /\
    outbox (apply_op db (deliver decode r w)) = update_rows [settlement_id r] f (outbox db).
Proof.
  intros Ha Hj Hat. unfold deliver. pose proof (post_spec decode (settlement_id r) (d_reply w)) as H.
  destruct (post _ _ _) as [status|failure]; cbn [Outbox.apply_op].
  - exists (deliver_row (d_at w) status). split.
    { intros x. split; [apply keeps_deliver|]. left. unfold deliver_row. case_bool_decide; [done|by eexists]. }
    unfold kaana_mark_settlement_delivered. destruct H as [H _]. change (isMember status ["settled"; "duplicate"] = true) in H.
    by rewrite H.
  - destruct H as [Hf%failures_match _]. eexists (defer_row _ failure). split.
    { intros x. split; [apply keeps_defer|]. unfold defer_row, past. case_bool_decide; [by left|]. right. cbn.
      pose proof (backoff_bounds (attempts r) failure (d_jitter w) Ha Hj) as [Hb _]. unfold Add.
      instantiate (1 := Add (d_at w) (backoff (attempts r) failure (d_jitter w))). unfold Add. lia. }
    unfold kaana_defer_settlement. by rewrite Hf.
Qed.

(** A pass that no failure cuts short, begun after an instant, while no other
    claim is in progress. *)
Record runs_from (n : Instant) (w : pass) : Prop := {
  rf_claim : forall round, exists now, p_claim w round = Some (now, []) /\ (n <= now)%Z;
  rf_at : forall round i, (n <= d_at (p_delivery w round i))%Z /\ (0 <= d_jitter (p_delivery w round i))%Z;
}.

Lemma deliver_all_moved n w round i chosen ids l db :
  runs_from n w -> Forall (fun r => 0 <= attempts r)%Z chosen -> settlement_id <$> chosen ⊆ ids ->
  Forall2 (moved n ids) l (rows (outbox db)) -> outbox_ok (outbox db) ->
  Forall2 (moved n ids) l (rows (outbox (deliver_all w round i chosen db))) /\
  outbox_ok (outbox (deliver_all w round i chosen db)).
Proof.
  intros Hw. revert i db. induction chosen as [|r chosen IH]; intros i db Ha Hc Hm Hok; cbn [Settler.deliver_all]; [done|].
  apply Forall_cons in Ha as [Hr Ha]. destruct (rf_at _ _ Hw round i) as [Hat Hj].
  assert (settlement_id <$> chosen ⊆ ids) as Hc' by (intros x Hx; apply Hc, elem_of_cons; by right).
  destruct (p_told w round i); [|by apply IH].
  destruct (deliver_effect n r (p_delivery w round i) db Hr Hj Hat) as (f & Hf & Hdb).
  apply IH; [done|done| |].
  - rewrite Hdb. apply update_moved; [done| |done].
    intros x ->%list_elem_of_singleton. apply Hc, elem_of_cons. by left.
  - rewrite Hdb. eapply evolves_ok, evolves_update; [done|]. apply Hf.
Qed.

Lemma moved_pending n ids l l' n1 n2 :
  Forall2 (moved n ids) l l' ->
  pending n (mkTable l' n2) = filter (fun id => id ∉ ids) (pending n (mkTable l n1)).
Proof.
  unfold pending. cbn [rows]. induction 1 as [|r r' l l' (Hid & _ & Hno & Hin) _ IH]; [done|].
  rewrite !filter_cons. destruct (decide (settlement_id r ∈ ids)) as [Hr|Hr].
  - rewrite (decide_False (P := ~ past n r')) by (intros H; by apply H, Hin). rewrite IH.
    destruct (decide (~ past n r)); [|done]. rewrite fmap_cons, filter_cons. by rewrite decide_False by tauto.
  - rewrite (Hno Hr). destruct (decide (~ past n r)); [|done]. rewrite !fmap_cons, filter_cons, IH. by rewrite decide_True.
Qed.

(** A claim takes what waited longest. *)
Lemma claim_oldest n now t chosen :
  (n <= now)%Z -> chosen = take 20 (sort_stable_by next_attempt_at (List.filter (due now []) (rows t))) ->
  Forall (fun id => id ∈ settlement_id <$> chosen) (pending n t) \/
  (settlement_id <$> chosen ⊆ pending n t /\ length chosen = 20).
Proof.
  intros Hn ->. set (sorted := sort_stable_by _ _).
  assert (forall r, r ∈ sorted <-> r ∈ rows t /\ due now [] r = true) as Hsorted.
  { intros r. unfold sorted. rewrite (sort_stable_by_permutation next_attempt_at), list_elem_of_In, filter_In.
    by rewrite <-list_elem_of_In. }
  destruct (decide (Forall (fun id => id ∈ settlement_id <$> take 20 sorted) (pending n t))) as [H|H]; [by left|right].
  apply not_Forall_Exists in H; [|apply _]. apply Exists_exists in H as (id & Hid & Hno).
  apply list_elem_of_fmap in Hid as (r & -> & Hr). apply list_elem_of_filter in Hr as [Hp Hr].
  assert (~ is_Some (delivered r)) as Hd by (intros ?; apply Hp; by left).
  assert (~ (n < next_attempt_at r)%Z) as Hlt by (intros ?; apply Hp; by right).
  assert (r ∈ sorted) as Hin.
  { apply Hsorted. split; [done|]. unfold due. rewrite bool_decide_eq_false_2 by done. cbn. bool_cases; lia. }
  rewrite <-(take_drop 20 sorted) in Hin. apply elem_of_app in Hin as [Hin|Hin].
  { destruct Hno. apply list_elem_of_fmap. by exists r. }
  split.
  - intros x (y & -> & Hy)%list_elem_of_fmap. apply list_elem_of_fmap. exists y. split; [done|].
    assert (next_attempt_at y <= next_attempt_at r)%Z as Hle.
    { pose proof (sort_stable_by_sorted next_attempt_at (List.filter (due now []) (rows t))) as Hs.
      fold sorted in Hs. rewrite <-(take_drop 20 sorted) in Hs.
      by eapply (StronglySorted_app_1_elem_of _ _ _ y r Hs). }
    assert (y ∈ sorted) as Hys by (eapply subseteq_take; exact Hy).
    apply Hsorted in Hys as [Hyr Hyd]. apply list_elem_of_filter. split; [|done]. unfold past.
    unfold due in Hyd. rewrite !andb_true_iff, negb_true_iff, bool_decide_eq_false in Hyd. intros [?|?]; [tauto|lia].
  - rewrite length_take. apply list_elem_of_lookup in Hin as [k Hk]. rewrite lookup_drop in Hk.
    apply lookup_lt_Some in Hk. lia.
Qed.

(** One round. *)
Lemma round_pending n w round now db :
  outbox_ok (outbox db) -> runs_from n w -> (n <= now)%Z ->
  let claim := OpClaim settlementBatch settlementLease now [] in
  let l := claimed claim db in
  let db' := deliver_all w round 0 l (apply_op db claim) in
  outbox_ok (outbox db') /\
  pending n (outbox db') = filter (fun id => id ∉ settlement_id <$> l) (pending n (outbox db)) /\
  (Forall (fun id => id ∈ settlement_id <$> l) (pending n (outbox db)) \/
   length l = 20 /\ length (pending n (outbox db')) + 20 <= length (pending n (outbox db))).
Proof.
  intros Hok Hw Hn. cbv zeta. cbn [claimed Outbox.apply_op]. unfold kaana_claim_settlements.
  change (negb (in_range_z 1 100 settlementBatch) || (settlementLease <? Second)%Z || (10 * Minute <? settlementLease)%Z)
    with false. cbv iota. change (Z.to_nat settlementBatch) with 20.
  set (chosen := take 20 _).
  assert (settlement_id <$> (lease_row now settlementLease <$> chosen) = settlement_id <$> chosen) as Hids
    by (by rewrite <-list_fmap_compose).
  rewrite !Hids. set (ids := settlement_id <$> chosen) in *.
  assert (forall r, r ∈ chosen -> r ∈ rows (outbox db)) as Hin.
  { intros r Hr%(subseteq_take _ _). rewrite (sort_stable_by_permutation next_attempt_at) in Hr.
    apply list_elem_of_In, filter_In in Hr as [Hr _]. by apply list_elem_of_In. }
  destruct (deliver_all_moved n w round 0 (lease_row now settlementLease <$> chosen) ids (rows (outbox db))
    (set_outbox (update_rows ids (lease_row now settlementLease) (outbox db)) db)) as [Hm Hok']; [done| | |by apply claim_moved| |].
  { apply Forall_fmap, Forall_forall. intros r Hr%Hin. pose proof (ob_attempts _ Hok) as Ha. rewrite Forall_forall in Ha.
    specialize (Ha r Hr). cbn. lia. }
  { by rewrite Hids. }
  { eapply evolves_ok, evolves_update; [done|]. apply keeps_lease. }
  set (db' := deliver_all _ _ _ _ _) in *. split; [done|].
  assert (pending n (outbox db') = filter (fun id => id ∉ ids) (pending n (outbox db))) as Hp.
  { pose proof (moved_pending n ids (rows (outbox db)) (rows (outbox db')) (next_seq (outbox db)) (next_seq (outbox db')) Hm) as Hp.
    destruct (outbox db), (outbox db'). exact Hp. }
  split; [done|]. destruct (claim_oldest n now (outbox db) chosen Hn eq_refl) as [Hall|[Hsub Hlen]]; [by left|right].
  rewrite length_fmap. split; [done|]. fold ids in Hsub. rewrite Hp. change (fun id => id ∉ ids) with (fun id => id ∉ ids).
  assert (length ids = 20) as <- by (unfold ids; by rewrite length_fmap).
  rewrite <-length_app. apply submseteq_length, NoDup_submseteq.
  - apply NoDup_app. split; [|split].
    + apply NoDup_filter. eapply sublist_NoDup; [apply (ob_settlements _ Hok)|apply fmap_sublist, sublist_filter].
    + intros x [Hx _]%list_elem_of_filter. done.
    + eapply sublist_NoDup; [|apply fmap_sublist, sublist_take]. rewrite (sort_stable_by_permutation next_attempt_at).
      eapply sublist_NoDup; [apply (ob_settlements _ Hok)|apply fmap_sublist, sublist_list_filter].
  - intros x [[_ Hx]%list_elem_of_filter|Hx]%elem_of_app; [done|by apply Hsub].
Qed.

Lemma DeliverDue_posts n w fuel round db :
  outbox_ok (outbox db) -> runs_from n w -> length (pending n (outbox db)) < 20 * fuel ->
  pending n (outbox db) ⊆ (DeliverDue fuel w round db).1.
Proof.
  intros Hok Hw. revert round db Hok. induction fuel as [|fuel IH]; intros round db Hok Hf; [lia|].
  destruct (rf_claim _ _ Hw round) as (now & Hc & Hn). cbn [Settler.DeliverDue]. rewrite Hc.
  destruct (round_pending n w round now db Hok Hw Hn) as (Hok' & Hp & Hr).
  set (l := claimed _ db) in *. set (db' := deliver_all _ _ _ _ _) in *.
  destruct Hr as [Hr|[Hlen Hr]].
  { rewrite Forall_forall in Hr. destruct (_ <? _)%Z; [exact Hr|].
    destruct (Settler.DeliverDue _ _ _ _ _ _ _ _). intros x Hx. cbn [fst]. apply elem_of_app. left. by apply Hr. }
  rewrite Hlen. change (Z.of_nat 20 <? settlementBatch)%Z with false. cbv iota.
  specialize (IH (S round) db' Hok' ltac:(lia)).
  destruct (Settler.DeliverDue _ _ _ _ _ _ _ _) as [more db'']. cbn [fst] in *. intros x Hx. apply elem_of_app.
  destruct (decide (x ∈ settlement_id <$> l)) as [Hin|Hin]; [by left|right].
  apply IH. rewrite Hp. by apply list_elem_of_filter.
Qed.

(** The store calls of the requests and workers, made until an instant. *)
Inductive call (until : Instant) : op -> Prop :=
| call_record fault now events s : (now <= until)%Z -> call until (OpRecord fault now events s)
| call_claim now locked : (now <= until)%Z -> call until (OpClaim settlementBatch settlementLease now locked)
| call_deliver r w : (0 <= attempts r)%Z -> (0 <= d_jitter w < jitter_bound (attempts r))%Z -> (d_at w <= until)%Z ->
    call until (deliver decode r w).

Definition due_by (n : Instant) (t : table) : Prop :=
  Forall (fun r => delivered r = None -> (next_attempt_at r <= n)%Z) (rows t).

Lemma update_due_by n chosen f t :
  (forall r, (delivered (f r) = None -> delivered r = None /\ (next_attempt_at (f r) <= n)%Z)) -> due_by n t -> due_by n (update_rows chosen f t).
Proof.
  intros Hf H. apply Forall_fmap. eapply Forall_impl; [exact H|]. intros r Hr.
  change (delivered (if isMember (settlement_id r) chosen then f r else r) = None ->
    (next_attempt_at (if isMember (settlement_id r) chosen then f r else r) <= n)%Z).
  destruct (isMember _ _); [|done]. intros Hd. by apply Hf.
Qed.

Lemma call_due_by until n db o :
  call until o -> (until + longest_wait <= n)%Z -> due_by n (outbox db) -> due_by n (outbox (apply_op db o)).
Proof.
  intros Ho Hn Hd. assert (settlementLease <= longest_wait)%Z as Hll by done.
  assert (0 <= settlementLease)%Z as Hl0 by done.
  destruct Ho as [fault now events s Hnow|now locked Hnow|r w Ha Hj Hat]; cbn [Outbox.apply_op].
  - destruct (RecordSettlement_rows to_timestamptz registered identities fault now events s db) as (new & Hnew & Hdue).
    unfold due_by. rewrite Hnew. apply Forall_app. split; [exact Hd|]. eapply Forall_impl; [exact Hdue|].
    cbn. intros r [_ ->] _. assert (0 <= longest_wait)%Z by done. lia.
  - destruct (kaana_claim_settlements _ _ _ _ _) as [[l t]|] eqn:Ec; [|done].
    destruct (claim_due _ _ _ _ _ _ _ Ec) as (_ & _ & chosen & -> & -> & _). apply update_due_by; [|done].
    intros r Hr. cbn in *. split; [done|lia].
  - unfold deliver. destruct (post _ _ _) as [status|failure]; cbn [Outbox.apply_op].
    + unfold kaana_mark_settlement_delivered. destruct (isMember _ _); [|done]. apply update_due_by; [|done].
      intros x. unfold deliver_row. case_bool_decide as Hx; [|done]. by destruct (delivered x); [|destruct Hx].
    + unfold kaana_defer_settlement. destruct (Regex.matches _ _); [|done]. apply update_due_by; [|done].
      intros x. unfold defer_row. case_bool_decide as Hx; [by destruct (delivered x); [|destruct Hx]|]. cbn. intros Hnone.
      split; [done|]. pose proof (backoff_bounds (attempts r) failure (d_jitter w) Ha ltac:(lia)) as [_ Hb].
      unfold Add. specialize (Hb ltac:(lia)). lia.
Qed.

(** C15. No settlement is forgotten.  Whatever transactions, claims and
    deliveries stand before, by any number of workers and failing anywhere,
    every settlement Oxy has not acknowledged comes due within twelve and a half
    minutes of the last of them; and one pass begun from then on with the
    store reachable and no other claim in progress posts every one of them, however
    many are waiting and however its own deliveries fare, in no more than one
    round for each twenty rows, and one. *)
Theorem settlements_reach_oxy until n w fuel db ops :
  outbox_ok (outbox db) -> due_by n (outbox db) -> Forall (call until) ops -> (until + longest_wait <= n)%Z ->
  runs_from n w -> length (rows (outbox (run_ops db ops))) < 20 * fuel ->
  forall r, r ∈ rows (outbox (run_ops db ops)) -> delivered r = None ->
    settlement_id r ∈ (DeliverDue fuel w 0 (run_ops db ops)).1.
Proof.
  intros Hok Hdue Hops Hn Hw Hf r Hr Hd.
  assert (outbox_ok (outbox (run_ops db ops)) /\ due_by n (outbox (run_ops db ops))) as [Hok' Hdue'].
  { clear Hf Hr. revert db Hok Hdue. induction Hops as [|o ops Ho _ IH]; intros db Hok Hdue; [done|].
    cbn [Outbox.run_ops foldl]. apply IH; [by eapply evolves_ok, apply_op_evolves|by eapply call_due_by]. }
  apply (DeliverDue_posts n w fuel 0 _ Hok' Hw).
  - pose proof (sublist_length _ _ (sublist_filter (fun r => ~ past n r) (rows (outbox (run_ops db ops))))).
    unfold pending. rewrite length_fmap. lia.
  - apply list_elem_of_fmap. exists r. split; [done|]. apply list_elem_of_filter. split; [|done].
    unfold due_by in Hdue'. rewrite Forall_forall in Hdue'. specialize (Hdue' r Hr Hd). intros [Hp|Hp]; [|lia].
    rewrite Hd in Hp. by destruct Hp.
Qed.

End Reaches.

(** ** What a write leaves *)

Section Writes.
Context (to_timestamptz : Instant -> Z) (registered : Registered).
Context (identities : string -> option (string * string * string)).
Context (Marshal : Settlement -> option string).
Notation record_events := (record_events to_timestamptz registered).
Notation RecordSettlement := (RecordSettlement to_timestamptz registered identities).
Notation write_from := (write_from to_timestamptz registered identities).
Notation Settle := (Settle to_timestamptz registered identities Marshal).
Notation holds := (holds to_timestamptz).

(** The ledger can hold these costs (they satisfy its constraints, name
    registered keys and versions, and agree with the rows already held), and the
    outbox this settlement. *)
Definition costs_fit (events : list Event) (l : Ledger) : Prop :=
  events = [] \/ batch_ok events = true /\ is_Some (record_events events l).
Definition row_fits (s : OutboxSettlement) (l : list row) : Prop :=
  length_in 1 128 (SettlementID s) && length_in 1 128 (GrantID s) && length_in 1 128 (RequestID s)
    && length_in 2 1048576 (Body s) = true /\ (2 <= len (Body s))%Z /\
  identities (Body s) = Some (SettlementID s, GrantID s, RequestID s) /\
  match List.find (claims s) l with None => True | Some existing => same_settlement s existing = true end.

Lemma claims_same s r : same_settlement s r = true -> claims s r = true.
Proof. unfold same_settlement, claims. destruct (settlement_id r =s SettlementID s); [done|discriminate]. Qed.

Lemma record_fits fault now events s db :
  costs_fit events (ledger db) -> row_fits s (rows (outbox db)) ->
  let '(err, db') := RecordSettlement fault now events s db in
  costs_fit events (ledger db') /\ row_fits s (rows (outbox db')) /\ (fault = Clean -> err = None) /\
  err <> Some ErrSettlementConflict.
Proof.
  intros Hc Hr. unfold Outbox.RecordSettlement. pose proof Hr as (Hlen & Hbody & Hident & Hfind).
  assert (forall x, length_in 1 128 x = true -> (x =s "") = false) as Hne by (intros x Hx; by destruct x).
  rewrite !andb_true_iff in Hlen. rewrite !Hne by tauto. rewrite <-!andb_true_iff in Hlen. cbn [orb]. rewrite (proj2 (Z.ltb_ge _ _) Hbody).
  assert (exists l, match events with
    | [] => Some (ledger db)
    | _ => match kaana_record_provider_attempt_events to_timestamptz registered events (ledger db) with
           | Some (n, l) => if (n =? Z.of_nat (length events))%Z then Some l else None
           | None => None
           end
    end = Some l /\ costs_fit events l) as (l & -> & Hl).
  { destruct Hc as [->|[Hb [l Hl]]]; [by eexists; split; [|left]|]. destruct events as [|e events]; [by eexists; split; [|left]|].
    exists l. unfold kaana_record_provider_attempt_events. rewrite Hb, Hl. cbn [mbind option_bind].
    rewrite Z.eqb_refl. split; [done|]. right. split; [done|]. exists l. by eapply record_events_again. }
  assert (exists answer t, kaana_enqueue_settlement identities now s (outbox db) = (answer, t) /\
    (answer = NewRow \/ answer = Replayed) /\ row_fits s (rows t)) as (answer & t & -> & Ha & Ht).
  { unfold kaana_enqueue_settlement. rewrite Hlen, bool_decide_eq_true_2 by done. cbn [negb].
    destruct (List.find _ _) as [existing|] eqn:E; [rewrite Hfind|].
    - do 2 eexists. split; [reflexivity|]. split; [by right|]. done.
    - do 2 eexists. split; [reflexivity|]. split; [by left|]. split_and!; [done..|]. cbn [rows].
      assert (forall a b, List.find (claims s) a = None -> claims s b = true -> List.find (claims s) (a ++ [b]) = Some b) as Hf.
      { intros a b. induction a as [|x a IH]; cbn; [by intros _ ->|]. by destruct (claims s x). }
      rewrite Hf; [|done|]; [apply same_settlement_new|apply claims_same, same_settlement_new]. }
  destruct Ha as [->| ->]; destruct fault as [| | |[]]; by split_and!.
Qed.

Lemma write_from_spec more attempt world cut events s db :
  outbox_ok (outbox db) ->
  let '(err, db') := write_from more attempt world cut events s db in
  evolves (outbox db) (outbox db') /\ ledger db ⊆ ledger db' /\
  (untouched db db' \/ holds s events db') /\ (err = None -> holds s events db').
Proof.
  revert attempt db. induction more as [|more IH]; intros attempt db Hok; cbn [Settler.write_from];
    pose proof (RecordSettlement_spec to_timestamptz registered identities (world attempt).1 (world attempt).2 events s db Hok) as H;
    destruct (RecordSettlement _ _ events s db) as [[[]|] db1]; try done.
  destruct (cut attempt); [done|]. destruct H as (He & Hl & Hh & _).
  specialize (IH (S attempt) db1 (evolves_ok _ _ He)). destruct (write_from _ _ _ _ _ _ _) as [err db2].
  destruct IH as (He' & Hl' & Hh' & Hs). split_and!; [by eapply evolves_trans|by trans (ledger db1)| |done].
  destruct Hh' as [[Hl1 Hr1]|Hh']; [|by right]. destruct Hh as [[Hl0 Hr0]|[(r & Hr & Hsame) Hin]]; [left; split; congruence|].
  right. split; [exists r; by rewrite Hr1|]. by rewrite Hl1.
Qed.

Lemma write_from_succeeds more attempt k world cut events s db :
  costs_fit events (ledger db) -> row_fits s (rows (outbox db)) ->
  attempt <= k <= attempt + more -> (world k).1 = Clean -> (forall j, attempt <= j < k -> cut j = false) ->
  (write_from more attempt world cut events s db).1 = None.
Proof.
  revert attempt db. induction more as [|more IH]; intros attempt db Hc Hr Hk Hclean Hcut; cbn [Settler.write_from];
    pose proof (record_fits (world attempt).1 (world attempt).2 events s db Hc Hr) as H;
    destruct (RecordSettlement _ _ events s db) as [[[]|] db1]; destruct H as (Hc1 & Hr1 & Hnone & Hno); try done.
  - assert (attempt = k) as -> by lia. by specialize (Hnone Hclean).
  - destruct (decide (attempt = k)) as [->|Hne]; [by specialize (Hnone Hclean)|].
    rewrite Hcut by lia. apply IH; [done|done|lia|done|]. intros j Hj. apply Hcut. lia.
Qed.

(** C17. A settlement is written once, costs and all.  However its four
    attempts fare, the write leaves the two tables untouched or holding the
    settlement and its costs, no row lost or doubled, and reports success only
    when they are held.  When the rows satisfy the constraints of the tables,
    what they refer to is registered and no other settlement claims the grant,
    it does succeed once any attempt meets a clean connection, provided no
    attempt before that one ended with the write's context; a commit whose
    answer was lost before it is found again and not repeated. *)
Theorem settlements_are_written_once entropy now grant report servedStep cost world cut db encoded :
  outbox_ok (outbox db) ->
  let s := newSettlement (newSettlementID entropy) now grant report servedStep in
  let events := default [] (Events cost) in
  Settlement_Validate s = None -> Marshal s = Some encoded ->
  let '(err, db') := Settle entropy now grant report servedStep cost world cut db in
  evolves (outbox db) (outbox db') /\ ledger db ⊆ ledger db' /\
  (untouched db db' \/ holds (outbox_row s encoded) events db') /\ (err = None -> holds (outbox_row s encoded) events db') /\
  (costs_fit events (ledger db) -> row_fits (outbox_row s encoded) (rows (outbox db)) ->
   (exists k, k <= 3 /\ (world k).1 = Clean /\ forall j, j < k -> cut j = false) -> err = None).
Proof.
  intros Hok s events Hv Hm. unfold Settler.Settle. fold s. rewrite Hv, Hm. fold events.
  pose proof (write_from_spec 3 0 world cut events (outbox_row s encoded) db Hok) as Hw.
  pose proof (fun k => write_from_succeeds 3 0 k world cut events (outbox_row s encoded) db) as Hs.
  destruct (write_from _ _ _ _ _ _ _) as [err db']. cbn [fst] in Hs. destruct Hw as (He & Hl & Hh & Hn).
  split_and!; [done..|by destruct err; [|auto]|]. intros Hc Hr (k & Hk & Hclean & Hcut).
  by rewrite (Hs k Hc Hr ltac:(lia) Hclean) by (intros j Hj; apply Hcut; lia).
Qed.

End Writes.

(** ** What a reader of the feed sees *)

(** The pages a reader takes, each from the last row it read, of the table as it
    stands at each visit. *)
Fixpoint read_feed (after : Z) (visits : list (Z * Instant * table)) : list (Z * string) :=
  match visits with
  | [] => []
  | (limit, clock, t) :: visits =>
      match kaana_read_settlements after limit clock t with
      | Some page => page ++ read_feed (match last page with Some (position, _) => position | None => after end) visits
      | None => read_feed after visits
      end
  end.

(** The whole feed after a position. *)
Definition feed (after : Z) (t : table) : list (Z * string) :=
  (fun r => (outbox_seq r, body r)) <$> List.filter (fun r => after <? outbox_seq r)%Z (rows t).

Definition stamp (r : row) : Z * string * Instant := (outbox_seq r, body r, created_at r).

(** Rows created in the order of their sequence. *)
Definition in_order (t : table) : Prop :=
  StronglySorted (fun r r' => outbox_seq r < outbox_seq r' /\ created_at r <= created_at r')%Z (rows t).

Lemma page_prefix after limit clock t page :
  in_order t -> kaana_read_settlements after limit clock t = Some page ->
  page `prefix_of` feed after t /\
  ((Z.of_nat (length page) < limit)%Z ->
   page = (fun r => (outbox_seq r, body r)) <$> List.filter (fun r => (after <? outbox_seq r)%Z && readable clock r) (rows t)).
Proof.
  unfold kaana_read_settlements. intros Hord. destruct (_ || _); [done|]. intros [= <-]. split.
  - unfold feed. apply fmap_prefix. etrans; [apply prefix_take|]. rewrite list_filter_and.
    eapply sorted_filter_prefix; [by apply StronglySorted_list_filter|]. cbn. intros x y [_ Hxy]. unfold readable. lia.
  - rewrite length_fmap, length_take. intros Hl. f_equal. apply take_ge. lia.
Qed.

Lemma feed_after t after page p b :
  in_order t -> page ++ [(p, b)] `prefix_of` feed after t -> feed after t = (page ++ [(p, b)]) ++ feed p t.
Proof.
  intros Hord [rest Hr]. rewrite Hr. f_equal. unfold feed in *.
  assert (exists l r l', List.filter (fun r => after <? outbox_seq r)%Z (rows t) = (l ++ [r]) ++ l' /\
    page ++ [(p, b)] = (fun r => (outbox_seq r, body r)) <$> (l ++ [r]) /\
    rest = (fun r => (outbox_seq r, body r)) <$> l' /\ outbox_seq r = p) as (l & r & l' & Hl & _ & -> & <-).
  { apply fmap_app_inv in Hr as (l1 & l' & H1 & H2 & H3). symmetry in H1. pose proof H1 as H1'.
    apply fmap_app_inv in H1 as (l & r1 & Ha & Hb & ->).
    destruct r1 as [|r [|]]; try done. injection Hb as Hb1 Hb2. exists l, r, l'. done. }
  f_equal. pose proof (StronglySorted_list_filter _ (fun r => after <? outbox_seq r)%Z _ Hord) as Hs. rewrite Hl in Hs.
  assert (List.filter (fun x => outbox_seq r <? outbox_seq x)%Z (rows t) =
    List.filter (fun x => outbox_seq r <? outbox_seq x)%Z (List.filter (fun r => after <? outbox_seq r)%Z (rows t))) as ->.
  { assert (after < outbox_seq r)%Z as Har.
    { assert (r ∈ List.filter (fun r => after <? outbox_seq r)%Z (rows t)) as Hin.
      { rewrite Hl, !elem_of_app, list_elem_of_singleton. tauto. }
      apply list_elem_of_In, filter_In in Hin as [_ Hin]. lia. }
    rewrite <-list_filter_and. apply filter_ext. intros x. lia. }
  rewrite Hl, List.filter_app, list_filter_none, list_filter_all; [done| |].
  - apply Forall_forall. intros x Hx. apply Z.ltb_lt.
    eapply (StronglySorted_app_1_elem_of _ _ _ r x Hs); [|done]. apply elem_of_app. right. by apply list_elem_of_singleton.
  - apply Forall_forall. intros x [Hx| ->%list_elem_of_singleton]%elem_of_app; [|lia].
    apply StronglySorted_app_1_l in Hs. apply Z.ltb_ge.
    enough (outbox_seq x < outbox_seq r)%Z by lia.
    eapply (StronglySorted_app_1_elem_of _ _ _ x r Hs); [done|]. by apply list_elem_of_singleton.
Qed.

Lemma stamp_feed after t : feed after t = fst <$> List.filter (fun x => after <? x.1.1)%Z (stamp <$> rows t).
Proof. unfold feed. by rewrite list_filter_fmap, <-list_fmap_compose. Qed.

Lemma evolves_stamps t t' : evolves t t' -> exists new, stamp <$> rows t' = (stamp <$> rows t) ++ new.
Proof.
  intros (kept & new & -> & Hk & _). exists (stamp <$> new). rewrite fmap_app. f_equal.
  apply keeps_images; [|done]. intros r r' [H1 _ _ _ H2 H3 _ _]. unfold stamp. congruence.
Qed.

Lemma evolves_feed after t t' : evolves t t' -> feed after t `prefix_of` feed after t'.
Proof.
  intros [new Hn]%evolves_stamps. rewrite !stamp_feed, Hn, List.filter_app. apply fmap_prefix. by eexists.
Qed.

Lemma evolves_in_order t t' : evolves t t' -> in_order t' -> in_order t.
Proof.
  intros [new Hn]%evolves_stamps. unfold in_order.
  rewrite <-!(StronglySorted_fmap (fun x y => x.1.1 < y.1.1 /\ x.2 <= y.2)%Z stamp), Hn. apply StronglySorted_app_1_l.
Qed.

Lemma read_feed_app final after visits more :
  in_order final -> Forall (fun v => evolves v.2 final) visits ->
  exists read cursor, read_feed after (visits ++ more) = read ++ read_feed cursor more /\
    read_feed after visits = read /\ feed after final = read ++ feed cursor final /\ (after <= cursor)%Z.
Proof.
  intros Hord Hv. revert after. induction Hv as [|[[limit clock] t] visits Ht _ IH]; intros after.
  { by exists [], after; split_and!. }
  cbn [app read_feed]. cbn [snd] in Ht.
  destruct (kaana_read_settlements after limit clock t) as [page|] eqn:Ep; [|apply IH].
  apply page_prefix in Ep as [Hp _]; [|by eapply evolves_in_order].
  assert (page `prefix_of` feed after final) as Hpf by (etrans; [done|by apply evolves_feed]).
  destruct page as [|x page' _] using rev_ind; [cbn; apply IH|]. rewrite last_snoc. destruct x as [p b].
  assert (after < p)%Z as Hp'.
  { assert ((p, b) ∈ feed after final) as Hin.
    { destruct Hpf as [k ->]. rewrite !elem_of_app, list_elem_of_singleton. tauto. }
    apply list_elem_of_fmap in Hin as (r & [= -> _] & Hr). apply list_elem_of_In, filter_In in Hr as [_ Hr]. lia. }
  destruct (IH p) as (read & cursor & -> & <- & Hf & Hc). exists ((page' ++ [(p, b)]) ++ read_feed p visits), cursor.
  split; [by rewrite <-!app_assoc|]. split; [done|]. split; [|lia].
  rewrite (feed_after final after page' p b Hord Hpf), Hf. by rewrite <-!app_assoc.
Qed.

(** A reconciling reader misses nothing and reads nothing twice.  Resuming
    at each visit from the last row it read, whatever is written, delivered or
    deferred between its visits, it reads the settlements from its first cursor
    on in the order of the sequence, their bytes as written, with none left out
    and none repeated; and a visit that finds every row old enough to be read
    and fills less than its page completes the feed. *)
Theorem feed_is_read_in_order final after visits limit clock :
  in_order final -> Forall (fun v => evolves v.2 final) visits -> (0 <= after)%Z -> (1 <= limit <= 500)%Z ->
  let seen := read_feed after visits in
  let next := read_feed after (visits ++ [(limit, clock, final)]) in
  seen `prefix_of` next /\ next `prefix_of` feed after final /\
  (Forall (fun r => readable clock r = true) (rows final) ->
   (Z.of_nat (length next) < Z.of_nat (length seen) + limit)%Z -> next = feed after final).
Proof.
  intros Hord Hv Hafter Hlimit. cbv zeta.
  destruct (read_feed_app final after visits [(limit, clock, final)] Hord Hv) as (read & cursor & -> & -> & Hf & Hc).
  cbn [read_feed]. destruct (kaana_read_settlements cursor limit clock final) as [page|] eqn:Ep.
  2:{ unfold kaana_read_settlements in Ep. exfalso. revert Ep. replace (cursor <? 0)%Z with false by lia.
      unfold in_range_z. replace (1 <=? limit)%Z with true by lia. by replace (limit <=? 500)%Z with true by lia. }
  rewrite app_nil_r. destruct (page_prefix _ _ _ _ _ Hord Ep) as [Hp Hs]. rewrite Hf.
  split; [by eexists|]. split; [by apply prefix_app|]. intros Hr Hl. f_equal. rewrite length_app in Hl. rewrite Hs by lia.
  unfold feed. f_equal. rewrite list_filter_and. apply list_filter_all. apply Forall_forall. intros r Hin.
  apply list_elem_of_In, filter_In in Hin as [Hin _]. rewrite Forall_forall in Hr. by apply Hr, list_elem_of_In.
Qed.

(** ** Examples *)

Definition example_report : UsageReport :=
  mkReport UsageReportSchemaVersion "req-1" None
    (mkAttribution (mkPrincipal (Some AuthorityExternal) "acct" "app" "cred" EnvironmentProduction (Some [ScopeInvoke]))
       None "req-1" None)
    OutcomeCompleted [mkQuantity "input_tokens" 3] UsageProviderReported "acme/m@1" "acme" "m-1" 0 None
    (Spells 0) (Spells Second) None.

Definition example_encoded (s : Settlement) : option string :=
  if settlement_RequestID s =s "req-1" then Some "{1}" else None.
Definition example_entropy : list Z := repeat 255%Z 16.

Example example_settlement_id : newSettlementID example_entropy = "stl_77777777777777777777777774".
Proof. vm_compute. reflexivity. Qed.

Definition names_settlement (text : string) : option (string * string * string) :=
  if text =s "{1}" then Some ("stl_77777777777777777777777774", "grant-1", "req-1") else None.

(** The first commit's answer is lost, the second attempt finds no transaction,
    the third goes through. *)
Definition lossy (attempt : nat) : Fault * Instant :=
  (match attempt with 0 => CommitLost true | 1 => NoTransaction | _ => Clean end, (Second * Z.of_nat attempt)%Z).

Definition example_settle : option SettleError * database :=
  Settle milliseconds_of example_registered names_settlement example_encoded example_entropy 0 Authorize.example_grant
    example_report (Some 0%Z) (mkRecord "req-1" [] [] true) lossy (fun _ => false) empty_database.

Example example_settle_rows :
  (example_settle.1, settlement_id <$> rows (outbox example_settle.2)) = (None, ["stl_77777777777777777777777774"]).
Proof. vm_compute. reflexivity. Qed.

Lemma settlements_are_written_once_witness :
  example_settle.1 = None /\ evolves (outbox empty_database) (outbox example_settle.2).
Proof.
  pose proof (settlements_are_written_once milliseconds_of example_registered names_settlement example_encoded
    example_entropy 0 Authorize.example_grant example_report (Some 0%Z) (mkRecord "req-1" [] [] true) lossy (fun _ => false)
    empty_database "{1}" empty_ok eq_refl eq_refl) as H.
  unfold example_settle. destruct (Settle _ _ _ _ _ _ _ _ _ _ _ _ _) as [err db'].
  destruct H as (He & _ & _ & _ & Hn). split; [|exact He]. apply Hn.
  - by left.
  - split_and!; vm_compute; try done.
  - exists 2. split_and!; [lia|done|done].
Defined.

Definition decode_ack (text : string) : option SettlementAcknowledgement :=
  if text =s "ok" then Some (mkAcknowledgement 1 "stl_1" "settled") else None.

Definition one_row (id : string) (now : Instant) : row := mkRow 1 id "grant-1" "req-1" "{1}" now 1 (now + Minute) None None.

Lemma deliveries_end_in_an_answer_witness :
  deliver decode_ack (one_row "stl_1" 0) (mkDelivery (Authorize.Reached 200 ∅ "ok") Second 0) = OpDelivered Second "stl_1" "settled" /\
  acknowledges decode_ack "stl_1" "settled" (Authorize.Reached 200 ∅ "ok").
Proof.
  split; [reflexivity|].
  pose proof (deliveries_end_in_an_answer decode_ack (one_row "stl_1" 0) (mkDelivery (Authorize.Reached 200 ∅ "ok") Second 0)) as H.
  apply H; cbn; [lia|]. vm_compute. split; [discriminate|reflexivity].
Defined.

(** A refused delivery, then a pass that finds it. *)
Definition refused : op := deliver decode_ack (one_row "stl_1" 0) (mkDelivery (Authorize.Reached 422 ∅ "no") (2 * Second) 0).
Definition waiting_ops : list op :=
  [OpRecord Clean 0 [] (example_settlement "1"); OpClaim settlementBatch settlementLease Second []; refused].
Definition later : Instant := (Second * 2 + longest_wait)%Z.
Definition quiet_pass : pass :=
  mkPass (fun _ => Some (later, [])) (fun _ _ => mkDelivery (Authorize.Reached 200 ∅ "ok") later 0) (fun _ _ => true).

Lemma settlements_reach_oxy_witness :
  refused = OpDefer "stl_1" (2 * Second + 10 * Minute) "oxy_rejected" /\
  (DeliverDue milliseconds_of example_registered example_identities decode_ack 1 quiet_pass 0 (example_run waiting_ops)).1
    = ["stl_1"] /\
  forall r, r ∈ rows (outbox (example_run waiting_ops)) -> delivered r = None -> settlement_id r ∈
    (DeliverDue milliseconds_of example_registered example_identities decode_ack 1 quiet_pass 0 (example_run waiting_ops)).1.
Proof.
  split; [vm_compute; reflexivity|]. split; [vm_compute; reflexivity|].
  apply (settlements_reach_oxy milliseconds_of example_registered example_identities decode_ack (2 * Second) later quiet_pass 1
    empty_database waiting_ops empty_ok).
  - constructor.
  - apply Forall_cons_2; [by apply call_record|]. apply Forall_cons_2; [by apply call_claim|].
    apply Forall_cons_2; [|by apply Forall_nil]. apply call_deliver; vm_compute; try done.
  - vm_compute. discriminate.
  - split; [intros round; exists later; by split|]. intros round i. split; vm_compute; discriminate.
  - vm_compute. lia.
Defined.

Lemma feed_is_read_in_order_witness :
  let t := outbox (example_run example_ops) in
  read_feed 0 [(1, Minute, t); (10, Minute, t)]%Z = [(1, "{1}"); (3, "{2}")]%Z /\
  read_feed 0 ([(1, Minute, t)] ++ [(10, Minute, t)])%Z = feed 0 t.
Proof.
  cbv zeta. set (t := outbox (example_run example_ops)). split; [vm_compute; reflexivity|].
  assert (evolves t t) as He by (apply evolves_refl; eapply evolves_ok, run_ops_evolves, empty_ok).
  destruct (feed_is_read_in_order t 0 [(1, Minute, t)]%Z 10 Minute) as (_ & _ & H).
  - unfold in_order. let l := eval vm_compute in (rows t) in replace (rows t) with l by (vm_compute; reflexivity).
    apply SSorted_cons; [apply SSorted_cons; [apply SSorted_nil|apply Forall_nil_2]|].
    apply Forall_cons_2; [by split|apply Forall_nil_2].
  - by constructor.
  - done.
  - done.
  - apply H; [apply Forall_forall|vm_compute; reflexivity]. intros r Hr%list_elem_of_In.
    revert r Hr. apply List.forallb_forall. vm_compute. reflexivity.
Defined.

(** The lease of a minute outlasts six posts of ten seconds, not a batch of
    twenty: a row still waiting its turn is another deliverer's by then. *)
Example a_batch_outlasts_its_lease :
  let db := example_run (take 3 example_ops) in
  let first_claim := OpClaim settlementBatch settlementLease (4 * Second) [] in
  let apply_op := apply_op milliseconds_of example_registered example_identities in
  (settlementLease <? settlementBatch * settlementPostTimeout)%Z = true /\
  settlement_id <$> claimed first_claim db = ["stl_1"; "stl_2"] /\
  settlement_id <$> claimed (OpClaim settlementBatch settlementLease (4 * Second + settlementLease) [])
    (apply_op db first_claim) = ["stl_1"; "stl_2"].
Proof. vm_compute. split_and!; reflexivity. Qed.
