(* ===== verification/PublicLane.v ===== *)
(** * A customer's request, from its headers to its settlement
    (internal/publicapi/pipeline.go and credential.go)

    The credential and identities a request carries, the one question asked of
    Oxy, the grant turned into an envelope for the executor, and the settlement
    of whatever the execution returned.  The local limiter is its answer: its
    buckets are floating-point. *)

From S2P Require Import Prelude Ids Text Contract Request Provider KeyPool ProviderCost Adapter PublicContract Inventory Lines Base64 Sha256.
From S2P Require Import EdgeAuth Grant Authorize PublicRoutes.
From S2P Require Redaction DecisionPrice Routes Settle Executor ExecutorReport PublicPlan Settler.

(** ** What the headers carry (credential.go) *)

Definition realtimeBearerPrefix := "kaana.bearer.".
Definition realtimeOnBehalfOfPrefix := "kaana.user.".
Definition maxCredentialBytes : Z := 8192.
Definition maxOnBehalfOfUserIDLength : Z := 64.
Definition maxIdempotencyKeyLength : Z := 255.
Definition HeaderOnBehalfOf := "X-Oxy-User-Id".
Definition HeaderIdempotencyKey := "Idempotency-Key".

(** The characters of the [ContainsAny] sets. *)
Definition is_blank (c : ascii) : bool := bool_decide (byte c ∈ [32; 9; 13; 10]%Z).

Fixpoint contains_any (p : ascii -> bool) (s : string) : bool :=
  match s with EmptyString => false | String c s => p c || contains_any p s end.

(** [base64.RawURLEncoding.DecodeString]: the URL alphabet without padding,
    read through the standard one. *)
Definition to_standard (c : ascii) : option ascii :=
  if (byte c =? 45)%Z then Some "+"%char else if (byte c =? 95)%Z then Some "/"%char
  else if bool_decide (byte c ∈ [43; 47; 61]%Z) then None else Some c.

Fixpoint map_chars (f : ascii -> option ascii) (s : string) : option string :=
  match s with
  | EmptyString => Some EmptyString
  | String c s => d ← f c; rest ← map_chars f s; Some (String d rest)
  end.

Definition raw_url_decode (s : string) : option string :=
  standard ← map_chars to_standard (without_breaks s);
  decode_groups (standard +:+ Nat.iter (Z.to_nat ((- len standard) mod 4)) (String "=") "").

(** [offeredSubprotocols]. *)
Definition offeredSubprotocols (header : Header) : list string :=
  List.filter (fun protocol => negb (protocol =s ""))
    (concat ((fun line => TrimSpace <$> Split ","%char line) <$> default [] (header !! "Sec-Websocket-Protocol"))).

Record credential := mkCredential { value : string; digest : string }.

Definition newCredential (value : string) : option credential :=
  if (value =s "") || (maxCredentialBytes <? len value)%Z || contains_any is_blank value then None
  else Some (mkCredential value (Sum256 value)).

(** What each offered protocol under a prefix encodes. *)
Definition encoded_under (prefix : string) (header : Header) : list string :=
  omap (fun protocol => CutPrefix protocol prefix) (offeredSubprotocols header).

(** [strings.EqualFold] with a word no character outside ASCII folds to. *)
Fixpoint equal_fold (s word : string) : bool :=
  match s, word with
  | EmptyString, EmptyString => true
  | String c s, String d word => Redaction.folded (byte d) (byte c) && equal_fold s word
  | _, _ => false
  end.

Definition bearerFrom (header : Header) : option credential :=
  let authorization := header_Get header "Authorization" in
  if negb (authorization =s "") then
    match Cut " "%char authorization with
    | Some (scheme, value) => if equal_fold scheme "Bearer" then newCredential (TrimSpace value) else None
    | None => None
    end
  else match encoded_under realtimeBearerPrefix header with
  | encoded :: _ => decoded ← raw_url_decode encoded; newCredential decoded
  | [] => None
  end.

(** [onBehalfOf]: [None] is a value that does not read; the last protocol
    offered wins. *)
Definition onBehalfOf (header : Header) : option (option string) :=
  let value := header_Get header HeaderOnBehalfOf in
  value ←
    (if value =s ""
     then foldl (fun value encoded => _ ← value; raw_url_decode encoded) (Some "")
            (encoded_under realtimeOnBehalfOfPrefix header)
     else Some value);
  if value =s "" then Some None
  else if (maxOnBehalfOfUserIDLength <? len value)%Z || contains_any is_blank value then None
  else Some (Some value).

Definition idempotencyKey (header : Header) : option (option string) :=
  let value := header_Get header HeaderIdempotencyKey in
  if value =s "" then Some None
  else if (maxIdempotencyKeyLength <? len value)%Z || contains_any is_break value then None
  else Some (Some value).

(** ** Admission (pipeline.go) *)

(** The members of [authorization] the lane reads; the others are only sent. *)
Record authorization := mkAuthorization {
  operation : string;
  body : string;
  ask_onBehalfOf : option string;
}.

Record admission := mkAdmission {
  requestID : string;
  receivedAt : Instant;
  grant : Grant;
  lane_plan : plan;
}.

(** What Oxy is asked: the credential and the user it acts for beside the
    members a grant is held to. *)
Record question := mkQuestion {
  q_credential : string;
  q_onBehalfOf : option string;
  q_ask : InferenceAuthorizationRequest;
}.

Definition invalid (requestID param : string) : PublicError :=
  pub_WithParam param (NewPublicError requestID CodeInvalidRequest).

(** The user a request acts for: the body's and the header's must agree. *)
Definition acting_user (named user : option string) : option (option string) :=
  match named with
  | None => Some user
  | Some n => match user with Some u => if u =s n then Some (Some n) else None | None => Some (Some n) end
  end.

(** The question a request asks, or its refusal before anything is asked;
    [limiter] is the wait of a credential past its rate. *)
Definition question_of (header : Header) (limiter : string -> option Duration) (requestID : string) (ask : authorization)
    : question + PublicError :=
  match bearerFrom header with
  | None => inr (NewPublicError requestID CodeAuthenticationFailed)
  | Some bearer =>
      match limiter (digest bearer) with
      | Some wait => inr (pub_WithRetryAfter (Milliseconds wait + 1) (NewPublicError requestID CodeRateLimited))
      | None =>
          match onBehalfOf header with
          | None => inr (invalid requestID HeaderOnBehalfOf)
          | Some user =>
              match acting_user (ask_onBehalfOf ask) user with
              | None => inr (invalid requestID "user")
              | Some user =>
                  match idempotencyKey header with
                  | None => inr (invalid requestID HeaderIdempotencyKey)
                  | Some key =>
                      inl (mkQuestion (value bearer) user
                             (mkAsk requestID (operation ask) (bodyDigest (body ask)) key))
                  end
              end
          end
      end
  end.

Section Lane.
Context `{Ed25519} (read : string -> RefusalBody) (decode : string -> option Grant) (grants : Verifier).
Context (funding : option (Route -> FundingTier -> option Z)) (serves : string -> option (Route -> bool)).

(** [Server.admit]; [oxy] answers the question, [verified], [checked] and
    [resolved] are the clock at each reading. *)
Definition admitRequest (header : Header) (limiter : string -> option Duration) (id : string) (received : Instant)
    (ask : authorization) (oxy : question -> Reply) (verified checked resolved : Instant) (snapshot : Inventory)
    : admission + PublicError :=
  match question_of header limiter id ask with
  | inr failure => inr failure
  | inl q =>
      match Authorize read decode grants verified checked (q_ask q) (oxy q) with
      | inr failure => inr failure
      | inl g =>
          match resolveGrant g snapshot resolved funding (serves (Operation g)) with
          | inr failure => inr failure
          | inl p => inl (mkAdmission id received g p)
          end
      end
  end.

End Lane.

(** ** Execution and settlement *)

(** [admission.request]: a handler fills in the rest from the body. *)
Definition request (a : admission) (modality format : string) (input : Input) : Request :=
  mkRequest None None None RequestEnvelopeVersion (Grant_Attribution (grant a)) (plan_target (lane_plan a)) modality input
    false None (mkSampling None None None None None None None) None [] None None format (plan_routes (lane_plan a)).

(** What no handler changes of it. *)
Definition runs_admission (a : admission) (r : Request) : Prop :=
  request_Attribution r = Grant_Attribution (grant a) /\ Target r = plan_target (lane_plan a) /\
  AuthorizedRoutes r = plan_routes (lane_plan a).

(** [unservedReport]; [None] is the panic of a plan without routes. *)
Definition unservedReport (a : admission) (failure : option Error) (now : Instant) : option UsageReport :=
  first_route ← head (plan_routes (lane_plan a));
  let cancelled := match failure with Some f => (err_Code f =s CodeCancelled) | None => false end in
  let started := NewTimestamp (receivedAt a) in
  Some (mkReport UsageReportSchemaVersion (requestID a) None (Grant_Attribution (grant a))
    (if cancelled then OutcomeCancelled else OutcomeFailed) [] UsageEstimated
    (ModelReference first_route) (route_Provider first_route) (DeploymentID first_route) 0 None
    started (if Before now (receivedAt a) then started else NewTimestamp now) None).

(** What [settle] passes to the settler: the report and the step that served. *)
Definition settlement_of (a : admission) (result : Settle.Result) (now : Instant) : option (UsageReport * option Z) :=
  report ← match Settle.Report result with
           | Some report => Some report
           | None => unservedReport a (Settle.Failure result) now
           end;
  Some (report, Z.of_nat <$> stepOf (Some (lane_plan a)) (report_DeploymentID report)).

(** ** What Oxy is asked *)

(** A credential worth sending: bounded, without a blank, hashed as it is. *)
Record credential_ok (c : credential) : Prop := {
  cr_value : value c <> "" /\ (len (value c) <= maxCredentialBytes)%Z /\ contains_any is_blank (value c) = false;
  cr_digest : digest c = Sum256 (value c);
}.

Lemma newCredential_ok text c : newCredential text = Some c -> credential_ok c.
Proof.
  unfold newCredential. destruct (_ || _ || _) eqn:E; [done|]. intros [= <-]. rewrite !orb_false_iff in E.
  destruct E as [[E1 E2] E3]. bool_cases. by constructor.
Qed.

Lemma bearerFrom_ok header c : bearerFrom header = Some c -> credential_ok c.
Proof.
  unfold bearerFrom. destruct (negb _).
  - destruct (Cut _ _) as [[scheme text]|]; [|done]. destruct (equal_fold _ _); [|done]. apply newCredential_ok.
  - destruct (encoded_under _ _) as [|encoded l]; [done|]. destruct (raw_url_decode encoded); [|done]. apply newCredential_ok.
Qed.

Definition user_ok (user : string) : Prop :=
  user <> "" /\ (len user <= maxOnBehalfOfUserIDLength)%Z /\ contains_any is_blank user = false.

Lemma onBehalfOf_ok header user : onBehalfOf header = Some (Some user) -> user_ok user.
Proof.
  unfold onBehalfOf. destruct (if header_Get header HeaderOnBehalfOf =s "" then _ else _) as [text|]; [|done].
  cbn [mbind option_bind].
  destruct (text =s "") eqn:E1; [done|]. destruct (_ || _) eqn:E2; [done|]. intros [= <-].
  apply orb_false_iff in E2 as [E2 E3]. bool_cases. done.
Qed.

Lemma idempotencyKey_ok header key : idempotencyKey header = Some (Some key) ->
  key = header_Get header HeaderIdempotencyKey /\ key <> "" /\ (len key <= maxIdempotencyKeyLength)%Z /\
  contains_any is_break key = false.
Proof.
  unfold idempotencyKey. destruct (_ =s "") eqn:E1; [done|]. destruct (_ || _) eqn:E2; [done|]. intros [= <-].
  apply orb_false_iff in E2 as [E2 E3]. bool_cases. done.
Qed.

(** Oxy is asked one bounded question, and only when it can be answered.  A
    request is put to Oxy exactly when its headers carry a credential, a user
    and an idempotency key that read, the credential is within its local rate
    and the body names no other user than the header; the question then carries
    that credential, bounded and without a blank, the user both agree on, the
    key on one line, and the digest of the exact body.  Otherwise nothing is
    asked and the refusal is authentication_failed without a credential,
    rate_limited with a wait past the limiter's, and invalid_request naming what
    does not read. *)
Theorem oxy_is_asked_a_bounded_question header limiter id ask :
  match question_of header limiter id ask with
  | inl q =>
      exists c user, bearerFrom header = Some c /\ credential_ok c /\ limiter (digest c) = None /\
        onBehalfOf header = Some user /\ q_credential q = value c /\
        (forall u, user = Some u -> user_ok u /\ q_onBehalfOf q = Some u) /\
        (forall n, ask_onBehalfOf ask = Some n -> q_onBehalfOf q = Some n) /\
        (q_onBehalfOf q = None <-> user = None /\ ask_onBehalfOf ask = None) /\
        ask_RequestID (q_ask q) = id /\ ask_Operation (q_ask q) = operation ask /\
        ask_BodySHA256 (q_ask q) = hex (Sum256 (body ask)) /\
        (forall key, ask_IdempotencyKey (q_ask q) = Some key ->
          key = header_Get header HeaderIdempotencyKey /\ (1 <= len key <= maxIdempotencyKeyLength)%Z /\
          contains_any is_break key = false)
  | inr e =>
      pub_RequestID e = id /\
      ((pub_Code e = CodeAuthenticationFailed /\ bearerFrom header = None) \/
       (exists c wait, pub_Code e = CodeRateLimited /\ bearerFrom header = Some c /\ limiter (digest c) = Some wait /\
          ((0 <= wait)%Z -> pub_RetryAfterMs e = Some (Milliseconds wait + 1)%Z)) \/
       (pub_Code e = CodeInvalidRequest /\
          ((pub_Param e = Some HeaderOnBehalfOf /\ onBehalfOf header = None) \/
           (pub_Param e = Some "user" /\ exists u n, onBehalfOf header = Some (Some u) /\ ask_onBehalfOf ask = Some n /\ u <> n) \/
           (pub_Param e = Some HeaderIdempotencyKey /\ idempotencyKey header = None))))
  end.
Proof.
  unfold question_of. destruct (bearerFrom header) as [c|] eqn:Eb; [|by split; [|left]].
  pose proof (bearerFrom_ok _ _ Eb) as Hc. destruct (limiter (digest c)) as [wait|] eqn:El.
  { unfold pub_WithRetryAfter. change (pub_Retryable _) with true. cbn [andb].
    destruct (0 <=? _)%Z eqn:Ew; (split; [done|]); right; left; exists c, wait; split_and!; try done.
    intros Hw. bool_cases. unfold Milliseconds in Ew. rewrite Z.quot_div_nonneg in Ew by done.
    pose proof (Z.div_pos wait Millisecond Hw ltac:(done)). lia. }
  destruct (onBehalfOf header) as [user|] eqn:Eu; [|by split; [|right; right; split; [|left]]].
  destruct (acting_user _ _) as [acting|] eqn:Ea.
  2:{ split; [done|]. right. right. split; [done|]. right. left. split; [done|]. unfold acting_user in Ea.
      destruct (ask_onBehalfOf ask) as [n|], user as [u|]; try done. destruct (u =s n) eqn:E; [done|]. bool_cases.
      by exists u, n. }
  assert ((forall u, user = Some u -> acting = Some u) /\ (forall n, ask_onBehalfOf ask = Some n -> acting = Some n) /\
    (acting = None <-> user = None /\ ask_onBehalfOf ask = None)) as (H1 & H2 & H3).
  { unfold acting_user in Ea. destruct (ask_onBehalfOf ask) as [n|], user as [u|]; try (destruct (u =s n) eqn:E; [|done]; bool_cases);
      injection Ea as <-; naive_solver. }
  destruct (idempotencyKey header) as [key|] eqn:Ek; [|by split; [|right; right; split; [|right; right]]].
  exists c, user. split_and!; try done; cbn.
  - intros u ->. split; [by eapply onBehalfOf_ok|by apply H1].
  - intros k ->. apply idempotencyKey_ok in Ek as (-> & Hne & Hl & Hb). split_and!; [done| |done|done].
    destruct (header_Get header HeaderIdempotencyKey); [done|]. unfold len. cbn. lia.
Qed.

(** ** What is settled *)

Lemma string_of_list_length l : String.length (String.string_of_list_ascii l) = length l.
Proof. induction l as [|c l IH]; cbn; [done|]. by rewrite IH. Qed.

Lemma newSettlementID_length entropy : len (Settler.newSettlementID entropy) = 30%Z.
Proof.
  unfold Settler.newSettlementID. rewrite len_app. set (digits := fmap _ _).
  assert (length digits = 26)%nat as Hd by (unfold digits; by rewrite length_fmap, length_seq).
  unfold len. rewrite string_of_list_length, Hd. reflexivity.
Qed.

Lemma resolve_from_deployments snapshot id at_ index seen l cs :
  Routes.resolve_from snapshot id at_ index seen l = inl cs ->
  Forall2 (fun a c => r_DeploymentID (Routes.c_route c) = DeploymentID a) l cs.
Proof.
  revert index seen cs. induction l as [|a l IH]; intros index seen cs; cbn [Routes.resolve_from]; [by intros [= <-]; constructor|].
  destruct (Routes.identify _ _ _) as [r|] eqn:Ei; [|done]. destruct (match seen !! _ with Some _ => _ | None => _ end); [done|].
  destruct (Routes.resolve_from _ _ _ _ _ l) as [cs'|] eqn:Er; [|done]. intros [= <-]. constructor; [|by eapply IH].
  unfold Routes.identify in Ei. destruct (Resolve _ _ _) as [set|]; [|done].
  destruct (List.find _ _) as [r'|] eqn:Ef; [|done]. apply List.find_some in Ef as [_ Ef].
  destruct (negb _); [done|]. destruct (negb _); [done|]. injection Ei as ->. cbn. by apply String.eqb_eq in Ef.
Qed.

(** Whatever a request may be executed on is one of its signed entries. *)
Lemma resolve_deployments snapshot costs r at_ cs c :
  Routes.resolve snapshot costs r at_ = inl cs -> c ∈ cs ->
  r_DeploymentID (Routes.c_route c) ∈ DeploymentID <$> AuthorizedRoutes r.
Proof.
  unfold Routes.resolve. destruct (AuthorizedRoutes r) as [|primary rest]; [done|].
  destruct (Request_Validate r); [done|]. destruct (negb _ && negb _); [done|].
  destruct (if Kind (Target r) =s TargetModel then _ else None); [done|].
  destruct (Routes.resolveAuthorizedRoutes _ _ _ _) as [all|] eqn:Er; [|done].
  apply resolve_from_deployments in Er.
  assert (forall c', c' ∈ all -> r_DeploymentID (Routes.c_route c') ∈ DeploymentID <$> primary :: rest) as Hall.
  { intros c' Hc'. destruct (list_elem_of_lookup_1 _ _ Hc') as [k Hk]. destruct (Forall2_lookup_r _ _ _ _ _ Er Hk) as (a & Ha & ->).
    apply list_elem_of_fmap. exists a. split; [done|]. by eapply list_elem_of_lookup_2. }
  destruct (negb _); [intros [= <-]; apply Hall|].
  destruct (omap _ all) as [|c0 l] eqn:Eo; [done|]. intros [= <-]. rewrite <-Eo.
  intros (c' & Hc' & Hp)%list_elem_of_omap. unfold Routes.price_candidate in Hp.
  destruct (DecisionPrice.Cards_DecisionPriceLimit _ _ _); [|done]. injection Hp as <-. cbn. by apply Hall.
Qed.

Lemma Authorize_answers `{Ed25519} read decode grants verified now q reply g :
  Authorize read decode grants verified now q reply = inl g -> answers_request q now g /\ Grant_Validate g = None.
Proof.
  unfold Authorize. destruct (post _ _ _) as [[header body]|]; [|done]. destruct (Verify _ _ _ _); [done|].
  destruct (DecodeGrant _) as [g'|] eqn:Ed; [|done]. apply DecodeGrant_Some in Ed as [_ Hv].
  destruct (checkGrant _ _ _) eqn:Ec; [done|]. intros [= ->]. split; [by apply checkGrant_None|done].
Qed.

(** An admission holds a grant of the exact request, resolved. *)
Record admitted (snapshot : Inventory) (funding : option (Route -> FundingTier -> option Z))
    (serves : string -> option (Route -> bool)) (id : string) (received : Instant) (ask : authorization) (a : admission)
    : Prop := {
  ad_id : requestID a = id /\ grant_RequestID (grant a) = id;
  ad_received : receivedAt a = received;
  ad_body : BodySHA256 (grant a) = bodyDigest (body ask) /\ Operation (grant a) = operation ask;
  ad_valid : Grant_Validate (grant a) = None;
  ad_plan : exists at_, resolveGrant (grant a) snapshot at_ funding (serves (Operation (grant a))) = inl (lane_plan a);
}.

Lemma admit_admitted `{Ed25519} read decode grants funding serves header limiter id received ask oxy verified checked
    resolved_at snapshot a :
  admitRequest read decode grants funding serves header limiter id received ask oxy verified checked resolved_at snapshot = inl a ->
  admitted snapshot funding serves id received ask a.
Proof.
  unfold admitRequest.
  destruct (question_of header limiter id ask) as [q|] eqn:Eq; [|done].
  assert (ask_RequestID (q_ask q) = id /\ ask_Operation (q_ask q) = operation ask /\
    ask_BodySHA256 (q_ask q) = bodyDigest (body ask)) as (H1 & H2 & H3).
  { revert Eq. unfold question_of. destruct (bearerFrom _); [|done]. destruct (limiter _); [done|].
    destruct (onBehalfOf _); [|done]. destruct (acting_user _ _); [|done]. destruct (idempotencyKey _); [|done].
    by intros [= <-]. }
  destruct (Authorize _ _ _ _ _ _ _) as [g|] eqn:Ea; [|done]. apply Authorize_answers in Ea as [[] Hv].
  destruct (resolveGrant _ _ _ _ _) as [p|] eqn:Er; [|done]. intros [= <-]. constructor; cbn; try done.
  - split; [done|congruence].
  - split; congruence.
  - by exists resolved_at.
Qed.

Section Settled.
Context (f : file) (age : Duration) (snapshot : Inventory) (Hparse : Parse f age = Some snapshot).
Context (funding : option (Route -> FundingTier -> option Z)) (serves : string -> option (Route -> bool)).
Context (id : string) (received : Instant) (ask : authorization) (a : admission).
Context (Hadmitted : admitted snapshot funding serves id received ask a).

(** A route of an admission is a step's, and one a report can name. *)
Lemma lane_route r : r ∈ plan_routes (lane_plan a) ->
  route_well_formed r /\ exists n step, stepOf (Some (lane_plan a)) (DeploymentID r) = Some n /\
    Steps (grant a) !! n = Some step /\ (n < 8)%nat /\ ModelID (ModelReference r) ∈ admitted_lines (Limits step) /\
    exists d, d ∈ Deployments_ f /\ d_DeploymentID d = DeploymentID r /\ within_limits (Limits step) (row_route d).
Proof.
  destruct (ad_plan _ _ _ _ _ _ _ Hadmitted) as [at_ Hplan]. pose proof (ad_valid _ _ _ _ _ _ _ Hadmitted) as Hvalid.
  apply resolveGrant_plan in Hplan as (Hroutes & Hsteps & Hne & _). rewrite Hroutes. intros Hr.
  pose proof (Grant_Validate_ok _ Hvalid) as Hok. split.
  - destruct (routes (resolved snapshot (grant a) at_ funding (serves (Operation (grant a))))) as [|r0 l] eqn:El; [done|].
    eapply (PublicPlan.plan_well_formed f age snapshot Hparse (grant a) Hvalid at_ funding _ r0); rewrite El; done.
  - destruct (PublicPlan.plan_granted f age snapshot Hparse (grant a) Hvalid at_ funding _ r Hr)
      as (n & step & d & Hn & Hs & _ & Hg & _).
    exists n, step. unfold stepOf. cbn [mbind option_bind]. rewrite Hsteps. split; [done|]. split; [done|].
    destruct (go_steps _ Hok) as (_ & Hlen & _). apply lookup_lt_Some in Hs. split; [lia|]. split; [apply Hg|].
    exists d. split; [apply Hg|]. split; [symmetry; apply Hg|apply Hg].
Qed.

Lemma lane_unserved failure now : exists report, unservedReport a failure now = Some report /\
  UsageReport_Validate report = None /\ report_RequestID report = id /\ Units report = [] /\
  Outcome report <> OutcomeCompleted /\ report_DeploymentID report ∈ DeploymentID <$> plan_routes (lane_plan a).
Proof.
  destruct (ad_plan _ _ _ _ _ _ _ Hadmitted) as [at_ Hplan]. pose proof (ad_valid _ _ _ _ _ _ _ Hadmitted) as Hvalid.
  destruct (ad_id _ _ _ _ _ _ _ Hadmitted) as [Hid Hgid]. apply resolveGrant_plan in Hplan as (Hroutes & _ & Hne & _).
  destruct (plan_routes (lane_plan a)) as [|r0 l] eqn:El; [congruence|].
  destruct (lane_route r0) as [[[Hd1 Hd2] [Href _] Hprov _ _ _ _] _]; [rewrite El; apply elem_of_cons; by left|].
  unfold unservedReport. rewrite El. cbn [head mbind option_bind]. eexists. split; [reflexivity|].
  match goal with |- context [if ?b then OutcomeCancelled else _] => set (outcome := if b then OutcomeCancelled else OutcomeFailed) end.
  assert (outcome = OutcomeCancelled \/ outcome = OutcomeFailed) as Ho by (unfold outcome; case_match; tauto).
  clearbody outcome. split; [|split; [done|split; [done|split; [|cbn; apply elem_of_cons; by left]]]].
  2:{ by destruct Ho as [->| ->]. }
  destruct (go_identified _ (Grant_Validate_ok _ Hvalid)) as (_ & _ & Hnz).
  unfold UsageReport_Validate. cbn. rewrite Href, Hprov. destruct (String.eqb_spec (requestID a) "") as [E|_]; [congruence|].
  replace (len (DeploymentID r0) =? 0)%Z with false by lia. replace (128 <? len (DeploymentID r0))%Z with false by lia.
  assert (forall t, Timestamp_Time (NewTimestamp t) = Some (t - t mod Millisecond)%Z) as Ht by done.
  destruct (Before now (receivedAt a)) eqn:Eb; unfold Before in *; rewrite ?Ht.
  - rewrite Z.ltb_irrefl. by destruct Ho as [->| ->].
  - replace (_ <? _)%Z with false; [by destruct Ho as [->| ->]|]. symmetry. apply Z.ltb_ge. apply Z.ltb_ge in Eb.
    assert (forall t, t - t mod Millisecond = Millisecond * (t / Millisecond))%Z as Hf.
    { intros t. pose proof (Z.div_mod t Millisecond ltac:(done)). lia. }
    rewrite !Hf. apply Z.mul_le_mono_nonneg_l; [done|]. by apply Z.div_le_mono.
Qed.

Lemma admitted_settles r sink costs retry gen at_ fuel snapshot' world shared result s now entropy created :
  runs_admission a r ->
  Executor.execute sink costs retry r gen at_ fuel snapshot' world shared = Some (result, s) ->
  exists report n step route,
    settlement_of a result now = Some (report, Some (Z.of_nat n)) /\
    Settlement_Validate
      (Settler.newSettlement (Settler.newSettlementID entropy) created (grant a) report (Some (Z.of_nat n))) =
      UsageReport_Validate report /\
    (Settle.res_Embedding result = None -> UsageReport_Validate report = None) /\
    report_RequestID report = id /\
    route ∈ plan_routes (lane_plan a) /\ report_DeploymentID report = DeploymentID route /\
    Steps (grant a) !! n = Some step /\
    (exists d, d ∈ Deployments_ f /\ d_DeploymentID d = DeploymentID route /\ within_limits (Limits step) (row_route d)) /\
    (Settle.Report result = None -> Units report = [] /\ Outcome report <> OutcomeCompleted).
Proof.
  intros (Hatt & Htarget & Hroutes) Hexec.
  assert (exists report, match Settle.Report result with Some report => Some report | None => unservedReport a (Settle.Failure result) now end
      = Some report /\ (Settle.res_Embedding result = None -> UsageReport_Validate report = None) /\ report_RequestID report = id /\
      report_DeploymentID report ∈ DeploymentID <$> plan_routes (lane_plan a) /\
      (Settle.Report result = None -> Units report = [] /\ Outcome report <> OutcomeCompleted)) as (report & Hrep & Hval & Hid & Hdep & Hun).
  { apply ExecutorReport.execute_agrees in Hexec. destruct (Settle.Report result) as [report|].
    - destruct Hexec as (cs & att & Hcs & (l & uc & c & _ & Hc & Hatt') & Hon & Hv). exists report. split; [done|]. split; [done|].
      destruct Hon as [Hrid _ _ Hrd _]. split; [|split; [|done]].
      + rewrite Hrid. unfold request_RequestID. rewrite Hatt. cbn. apply Hadmitted.
      + rewrite Hrd, Hatt', <-Hroutes. eapply resolve_deployments; [exact Hcs|]. by eapply list_elem_of_lookup_2.
    - destruct (lane_unserved (Settle.Failure result) now) as (report & H1 & H2 & H3 & H4 & H5 & H6). by exists report. }
  apply list_elem_of_fmap in Hdep as (route & Hdep & Hin).
  destruct (lane_route route Hin) as (_ & n & step & Hn & Hs & Hlt & _ & d & Hd).
  exists report, n, step, route. unfold settlement_of. rewrite Hrep. cbn [mbind option_bind]. rewrite Hdep, Hn.
  split; [done|]. split; [|by split_and!; try done; exists d].
  destruct (go_identified _ (Grant_Validate_ok _ (ad_valid _ _ _ _ _ _ _ Hadmitted))) as (Hg1 & Hg2 & _).
  unfold Settlement_Validate, Settler.newSettlement. cbn -[UsageReport_Validate Settler.newSettlementID].
  rewrite newSettlementID_length.
  destruct (String.eqb_spec (Settler.newSettlementID entropy) "") as [E|_]; [pose proof (newSettlementID_length entropy) as H; by rewrite E in H|].
  destruct (String.eqb_spec (GrantID (grant a)) "") as [E|_]; [done|]. replace (128 <? len (GrantID (grant a)))%Z with false by lia.
  rewrite Hid, (proj2 (ad_id _ _ _ _ _ _ _ Hadmitted)), String.eqb_refl. cbn [negb orb refuse_if or_else].
  assert (maxGrantSteps = 8)%Z as -> by done.
  destruct (Outcome report =s OutcomeCompleted) eqn:Eo; cbn [negb andb].
  - replace ((Z.of_nat n <? 0) || (8 <=? Z.of_nat n))%Z with false by lia. done.
  - destruct (_ =? 0)%Z; [done|]. replace ((Z.of_nat n <? 0) || (8 <=? Z.of_nat n))%Z with false by lia. done.
Qed.

End Settled.

(** C14. Every granted request settles.  Whatever becomes of an admitted
    request, executed against whatever inventory is current by then and on
    whatever its adapters answer, a settlement is written for it: it names the
    grant and its request, carries a report whose deployment is one of the
    grant's resolved routes, and names the step of the grant that route serves,
    whose limits the route's row is within.  The settlement satisfies the
    contract exactly when its report does, and the report does unless it is an
    embedding's, which the executor returns without validating the units the
    adapter counted.  A request refused before any attempt settles as unserved,
    with nothing consumed. *)
Theorem granted_requests_settle `{Ed25519} f age snapshot read decode grants funding serves header limiter id received ask
    oxy verified checked resolved_at a r sink costs retry gen at_ fuel snapshot' world shared result s now entropy created :
  Parse f age = Some snapshot ->
  admitRequest read decode grants funding serves header limiter id received ask oxy verified checked resolved_at snapshot = inl a ->
  runs_admission a r ->
  Executor.execute sink costs retry r gen at_ fuel snapshot' world shared = Some (result, s) ->
  BodySHA256 (grant a) = hex (Sum256 (body ask)) /\
  exists report n step route,
    settlement_of a result now = Some (report, Some (Z.of_nat n)) /\
    Settlement_Validate
      (Settler.newSettlement (Settler.newSettlementID entropy) created (grant a) report (Some (Z.of_nat n))) =
      UsageReport_Validate report /\
    (Settle.res_Embedding result = None -> UsageReport_Validate report = None) /\
    report_RequestID report = id /\
    route ∈ plan_routes (lane_plan a) /\ report_DeploymentID report = DeploymentID route /\
    Steps (grant a) !! n = Some step /\
    (exists d, d ∈ Deployments_ f /\ d_DeploymentID d = DeploymentID route /\ within_limits (Limits step) (row_route d)) /\
    (Settle.Report result = None -> Units report = [] /\ Outcome report <> OutcomeCompleted).
Proof.
  intros Hparse Ha Hr Hexec. apply admit_admitted in Ha. split; [apply (ad_body _ _ _ _ _ _ _ Ha)|].
  by apply (admitted_settles f age snapshot Hparse funding serves id received ask a Ha r sink costs retry gen at_ fuel
    snapshot' world shared result s).
Qed.

(** ** Examples *)

Definition lane_digest : string := Eval vm_compute in bodyDigest "{}".

Definition lane_grant : Grant :=
  mkGrant 1 "grant-1" "req-1" "responses" (Spells example_noon) (Spells (example_noon + 30 * Second)) lane_digest
    (mkGrantPrincipal (Some AuthorityExternal) "acct" "app" "cred" EnvironmentProduction (Some [ScopeInvoke])
       LaneMachineCredential)
    None (mkEconomics TreatmentCommercial "policy-1") (Some (mkReservation "hold-1" None)) None
    [mkStep (ModelTarget "acme/m") (mkLimits None [mkAdmitted "acme/m" "price-1"] [] [] [] [] None)] None None.

Definition lane_header : gmap string (list string) :=
  {["Authorization" := ["bearer  sk-oxy "]; "X-Oxy-User-Id" := ["u-1"]]}.
Definition lane_ask : authorization := mkAuthorization "responses" "{}" (Some "u-1").
Definition never_limited (_ : string) : option Duration := None.

Definition lane_admission : admission + PublicError :=
  @admitRequest example_ed25519 no_refusal (fun _ => Some lane_grant) grant_verifier None (fun _ => None) lane_header never_limited
    "req-1" 1500 lane_ask (fun _ => Authorize.Reached 200 grant_header "{}") example_noon (example_noon + Second) 2000
    Routes.global_inventory.

Example lane_question : question_of lane_header never_limited "req-1" lane_ask =
  inl (mkQuestion "sk-oxy" (Some "u-1") (mkAsk "req-1" "responses" lane_digest None)).
Proof. vm_compute. reflexivity. Qed.

(** A WebSocket's credential comes in a subprotocol. *)
Example lane_subprotocol :
  value <$> bearerFrom {["Sec-Websocket-Protocol" := ["kaana.v1, kaana.bearer.c2stb3h5"]]} = Some "sk-oxy".
Proof. vm_compute. reflexivity. Qed.

Definition lane_execution (a : admission) : option (Settle.Result * Executor.Loop) :=
  Executor.execute Settle.accepting None Retry.DefaultRetryPolicy
    (request a ModalityText APIFormatChatCompletions (request_Input example_request)) None 2000 4 Routes.global_inventory
    (Executor.idle Executor.answering_script) Executor.idle_shared.

Lemma granted_requests_settle_witness :
  match lane_admission with
  | inl a =>
      match lane_execution a with
      | Some (result, _) => exists report n, settlement_of a result 3000 = Some (report, Some (Z.of_nat n)) /\
          Outcome report = OutcomeCompleted /\
          Settlement_Validate (Settler.newSettlement (Settler.newSettlementID []) 4000 lane_grant report (Some (Z.of_nat n))) = None
      | None => False
      end
  | inr _ => False
  end.
Proof.
  destruct lane_admission as [a|] eqn:Ea; [|vm_compute in Ea; discriminate Ea].
  destruct (lane_execution a) as [[result s]|] eqn:E.
  2:{ exfalso. vm_compute in Ea. injection Ea as <-. vm_compute in E. discriminate E. }
  pose proof (granted_requests_settle Routes.global_file Hour Routes.global_inventory _ _ _ _ _ _ _ _ _ _ _ _ _ _ a
    (request a ModalityText APIFormatChatCompletions (request_Input example_request)) _ _ _ _ _ _ _ _ _ result s 3000 [] 4000
    eq_refl Ea (conj eq_refl (conj eq_refl eq_refl)) E) as H.
  assert (grant a = lane_grant) as Hg by (vm_compute in Ea; injection Ea as <-; reflexivity).
  assert (Settle.res_Embedding result = None /\ (Outcome <$> Settle.Report result) = Some OutcomeCompleted) as [Hemb Hout].
  { vm_compute in Ea. injection Ea as <-. vm_compute in E. injection E as <- _. split; reflexivity. }
  destruct H as (_ & report & n & _ & _ & Hs & Hv & Hval & _). exists report, n. rewrite <-Hg. split; [exact Hs|].
  split; [|rewrite Hv; exact (Hval Hemb)].
  unfold settlement_of in Hs. destruct (Settle.Report result) as [r0|]; [|discriminate Hout].
  cbn in Hs. injection Hs as <- _. by injection Hout.
Defined.
