(* ===== verification/AudioBytes.v ===== *)
(** * Reading an upload's bytes (internal/audioprobe/probe.go)

    The parsers of audioprobe read bytes a customer sent.  Every index and
    slice expression of them is checked here: one that is out of range is
    [Panics], the fault Go raises, and a loop that makes no progress is
    [Loops].  The theorems of the container files are that neither happens. *)

From S2P Require Import Prelude Ids Text Base64.
Open Scope Z_scope.

Abbreviation Bytes := (list ascii) (only parsing).

(** What a parser does: a result, a refusal and its reason, a fault, or no end. *)
Inductive Probe (A : Type) := Ok (a : A) | Refused (why : string) | Panics | Loops.
Arguments Ok {A} a.
Arguments Refused {A} why.
Arguments Panics {A}.
Arguments Loops {A}.

#[export] Instance Probe_ret : MRet Probe := @Ok.
#[export] Instance Probe_bind : MBind Probe := fun A B k m =>
  match m with Ok a => k a | Refused why => Refused why | Panics => Panics | Loops => Loops end.

Definition size_of (data : Bytes) : Z := Z.of_nat (length data).

(** ** Indexing and slicing *)

(** [data[i]]. *)
Definition at_ (data : Bytes) (i : Z) : Probe Z :=
  if (0 <=? i) && (i <? size_of data)
  then match data !! Z.to_nat i with Some c => Ok (byte c) | None => Panics end
  else Panics.

(** [data[i:]]. *)
Definition from (data : Bytes) (i : Z) : Probe Bytes :=
  if (0 <=? i) && (i <=? size_of data) then Ok (drop (Z.to_nat i) data) else Panics.

(** [data[lo:hi]]; the parsers never reach past the length into the capacity. *)
Definition slice (data : Bytes) (lo hi : Z) : Probe Bytes :=
  if (0 <=? lo) && (lo <=? hi) && (hi <=? size_of data)
  then Ok (take (Z.to_nat (hi - lo)) (drop (Z.to_nat lo) data)) else Panics.

Definition text_of (data : Bytes) : string := String.string_of_list_ascii data.

(** ** Integers of the containers *)

Definition u64 (z : Z) : Z := z mod 2 ^ 64.

Definition be16 (b : Bytes) : Probe Z := b0 ← at_ b 0; b1 ← at_ b 1; mret (Z.lor (Z.shiftl b0 8) b1).
Definition be32 (b : Bytes) : Probe Z :=
  b0 ← at_ b 0; b1 ← at_ b 1; b2 ← at_ b 2; b3 ← at_ b 3;
  mret (Z.lor (Z.lor (Z.lor (Z.shiftl b0 24) (Z.shiftl b1 16)) (Z.shiftl b2 8)) b3).
Definition be64 (b : Bytes) : Probe Z :=
  high ← be32 b; rest ← from b 4; low ← be32 rest; mret (Z.lor (Z.shiftl high 32) low).
Definition le16 (b : Bytes) : Probe Z := b0 ← at_ b 0; b1 ← at_ b 1; mret (Z.lor b0 (Z.shiftl b1 8)).
Definition le32 (b : Bytes) : Probe Z :=
  b0 ← at_ b 0; b1 ← at_ b 1; b2 ← at_ b 2; b3 ← at_ b 3;
  mret (Z.lor (Z.lor (Z.lor b0 (Z.shiftl b1 8)) (Z.shiftl b2 16)) (Z.shiftl b3 24)).
Definition le64 (b : Bytes) : Probe Z :=
  low ← le32 b; rest ← from b 4; high ← le32 rest; mret (Z.lor low (Z.shiftl high 32)).

(** Reads at an offset, [be32(data[i:])] and its kin. *)
Definition be32_at (data : Bytes) (i : Z) : Probe Z := rest ← from data i; be32 rest.
Definition le16_at (data : Bytes) (i : Z) : Probe Z := rest ← from data i; le16 rest.
Definition le32_at (data : Bytes) (i : Z) : Probe Z := rest ← from data i; le32 rest.

(** ** Loops over an upload

    Every loop of the package is [for offset := start; guard; { body }], where
    the body moves the offset or leaves the loop.  A body always moves forward
    over at least a byte, so the upload's length is fuel enough
    ([scan_yields]). *)

Inductive Step (S : Type) := Next (offset : Z) (s : S) | Leave (s : S).
Arguments Next {S} offset s.
Arguments Leave {S} s.

Fixpoint scan {S} (fuel : nat) (guard : Z -> bool) (body : Z -> S -> Probe (Step S)) (offset : Z) (s : S) : Probe S :=
  if guard offset then
    match fuel with
    | O => Loops
    | Datatypes.S fuel =>
        step ← body offset s;
        match step with
        | Next offset s => scan fuel guard body offset s
        | Leave s => mret s
        end
    end
  else mret s.

Definition each {S} (data : Bytes) (body : Z -> S -> Probe (Step S)) (start : Z) (s : S) : Probe S :=
  scan (length data) (fun offset => offset <? size_of data) body start s.

(** ** probe.go *)

Definition MaxMilliseconds : Z := 86400000.

(** [bits.Mul64] and, with a high word below the divisor, [bits.Div64]. *)
Definition Mul64 (x y : Z) : Z * Z := (x * y / 2 ^ 64, x * y mod 2 ^ 64).
Definition Add64 (x y : Z) : Z * Z := (u64 (x + y), (x + y) / 2 ^ 64).
Definition Div64 (high low y : Z) : Z * Z := ((high * 2 ^ 64 + low) / y, (high * 2 ^ 64 + low) mod y).

Definition ceilMillis (units perSecond : Z) : option Z :=
  let '(high, low) := Mul64 units 1000 in
  if perSecond <=? high then None
  else
    let '(quotient, remainder) := Div64 high low perSecond in
    Some (if 0 <? remainder then u64 (quotient + 1) else quotient).

Definition skipID3v2 (data : Bytes) : Probe Bytes :=
  if size_of data <? 10 then mret data
  else
    tag ← slice data 0 3;
    if negb (text_of tag =s "ID3") then mret data
    else
      b5 ← at_ data 5; b6 ← at_ data 6; b7 ← at_ data 7; b8 ← at_ data 8; b9 ← at_ data 9;
      let seven b := Z.land b 127 in
      let size := Z.lor (Z.lor (Z.lor (Z.shiftl (seven b6) 21) (Z.shiftl (seven b7) 14)) (Z.shiftl (seven b8) 7)) (seven b9) in
      let end_ := 10 + size + (if Z.land b5 16 =? 0 then 0 else 10) in
      if size_of data <? end_ then mret [] else from data end_.

(** * What parsers yield *)

(** A result that satisfies [P], or a refusal: no fault, and an end. *)
Definition yields {A} (P : A -> Prop) (m : Probe A) : Prop :=
  match m with Ok a => P a | Refused _ => True | Panics | Loops => False end.

Lemma yields_ret {A} (P : A -> Prop) a : P a -> yields P (mret a).
Proof. done. Qed.

Lemma yields_refused {A} (P : A -> Prop) why : yields P (Refused why).
Proof. done. Qed.

Lemma yields_bind {A B} (P : A -> Prop) (Q : B -> Prop) (m : Probe A) (k : A -> Probe B) :
  yields P m -> (forall a, P a -> yields Q (k a)) -> yields Q (m ≫= k).
Proof. destruct m; cbn; auto. Qed.

Lemma yields_weaken {A} (P Q : A -> Prop) (m : Probe A) : (forall a, P a -> Q a) -> yields P m -> yields Q m.
Proof. destruct m; cbn; auto. Qed.

Lemma size_of_nonneg data : 0 <= size_of data.
Proof. unfold size_of. lia. Qed.

Definition is_byte (z : Z) : Prop := 0 <= z < 256.

Lemma yields_at data i : 0 <= i < size_of data -> yields is_byte (at_ data i).
Proof.
  intros Hi. unfold at_. rewrite (proj2 (andb_true_iff _ _)) by lia. unfold size_of in Hi.
  destruct (lookup_lt_is_Some_2 data (Z.to_nat i)) as [c ->]; [lia|]. apply byte_bound.
Qed.

Lemma yields_from data i : 0 <= i <= size_of data -> yields (fun rest => size_of rest = size_of data - i) (from data i).
Proof.
  intros Hi. unfold from. rewrite (proj2 (andb_true_iff _ _)) by lia. cbn. unfold size_of in *. rewrite length_drop. lia.
Qed.

Lemma yields_slice data lo hi : 0 <= lo <= hi -> hi <= size_of data ->
  yields (fun part => size_of part = hi - lo) (slice data lo hi).
Proof.
  intros Hlo Hhi. unfold slice. rewrite (proj2 (Z.leb_le 0 lo)), (proj2 (Z.leb_le lo hi)), (proj2 (Z.leb_le hi _)) by lia.
  cbn. unfold size_of in *. rewrite length_take, length_drop. lia.
Qed.

(** The bits of bytes put side by side. *)
Lemma lor_bytes high low n : 0 <= n -> 0 <= low < 2 ^ n -> Z.lor (Z.shiftl high n) low = high * 2 ^ n + low.
Proof. apply lor_below. Qed.

Lemma lor_bound x y n : 0 <= n -> 0 <= x < 2 ^ n -> 0 <= y < 2 ^ n -> 0 <= Z.lor x y < 2 ^ n.
Proof.
  intros Hn Hx Hy. destruct (Z.eq_dec x 0) as [->|Hx0]; [by rewrite Z.lor_0_l|].
  destruct (Z.eq_dec y 0) as [->|Hy0]; [by rewrite Z.lor_0_r|].
  assert (H0 : 0 <= Z.lor x y) by (apply Z.lor_nonneg; lia). split; [done|].
  apply Z.log2_lt_cancel. rewrite Z.log2_lor, Z.log2_pow2 by lia.
  pose proof (proj1 (Z.log2_lt_pow2 x n ltac:(lia)) ltac:(lia)). pose proof (proj1 (Z.log2_lt_pow2 y n ltac:(lia)) ltac:(lia)). lia.
Qed.

Lemma shiftl_bound x k n : 0 <= k <= n -> 0 <= x < 2 ^ (n - k) -> 0 <= Z.shiftl x k < 2 ^ n.
Proof.
  intros Hk Hx. rewrite Z.shiftl_mul_pow2 by lia. replace n with (n - k + k) by lia. rewrite Z.pow_add_r by lia.
  pose proof (Z.pow_pos_nonneg 2 k). nia.
Qed.

Ltac bits_bound :=
  repeat first
    [ apply lor_bound; [lia| |]
    | apply shiftl_bound; [lia|]
    | match goal with H : is_byte ?b |- 0 <= ?b < 2 ^ ?n =>
        unfold is_byte in H; pose proof (Z.pow_le_mono_r 2 8 n ltac:(lia) ltac:(lia)); change (2 ^ 8) with 256 in *; lia end
    | match goal with H : 0 <= ?b < 2 ^ ?m |- 0 <= ?b < 2 ^ ?n =>
        pose proof (Z.pow_le_mono_r 2 m n ltac:(lia) ltac:(lia)); lia end ].

(** One step of a parser: a checked read whose range holds. *)
Ltac read_byte b := eapply (yields_bind is_byte); [apply yields_at; lia|intros b ?].
Tactic Notation "read" constr(lemma) "as" ident(x) ident(H) := eapply yields_bind; [apply lemma; lia|cbv beta; intros x H].

Definition fits (n z : Z) : Prop := 0 <= z < 2 ^ n.

Lemma yields_be16 b : 2 <= size_of b -> yields (fits 16) (be16 b).
Proof. intros Hb. unfold be16. read_byte b0. read_byte b1. apply yields_ret. unfold fits. bits_bound. Qed.
Lemma yields_be32 b : 4 <= size_of b -> yields (fits 32) (be32 b).
Proof.
  intros Hb. unfold be32. read_byte b0. read_byte b1. read_byte b2. read_byte b3. apply yields_ret. unfold fits. bits_bound.
Qed.
Lemma yields_le16 b : 2 <= size_of b -> yields (fits 16) (le16 b).
Proof. intros Hb. unfold le16. read_byte b0. read_byte b1. apply yields_ret. unfold fits. bits_bound. Qed.
Lemma yields_le32 b : 4 <= size_of b -> yields (fits 32) (le32 b).
Proof.
  intros Hb. unfold le32. read_byte b0. read_byte b1. read_byte b2. read_byte b3. apply yields_ret. unfold fits. bits_bound.
Qed.

Lemma yields_be64 b : 8 <= size_of b -> yields (fits 64) (be64 b).
Proof.
  intros Hb. unfold be64. read yields_be32 as high Hh.
  read yields_from as rest Hr.
  read yields_be32 as low Hl. apply yields_ret. unfold fits in *. bits_bound.
Qed.
Lemma yields_le64 b : 8 <= size_of b -> yields (fits 64) (le64 b).
Proof.
  intros Hb. unfold le64. read yields_le32 as low Hl.
  read yields_from as rest Hr.
  read yields_le32 as high Hh. apply yields_ret. unfold fits in *. bits_bound.
Qed.

Lemma yields_be32_at b i : 0 <= i -> i + 4 <= size_of b -> yields (fits 32) (be32_at b i).
Proof. intros Hi Hb. unfold be32_at. read yields_from as rest Hr. apply yields_be32. lia. Qed.
Lemma yields_le16_at b i : 0 <= i -> i + 2 <= size_of b -> yields (fits 16) (le16_at b i).
Proof. intros Hi Hb. unfold le16_at. read yields_from as rest Hr. apply yields_le16. lia. Qed.
Lemma yields_le32_at b i : 0 <= i -> i + 4 <= size_of b -> yields (fits 32) (le32_at b i).
Proof. intros Hi Hb. unfold le32_at. read yields_from as rest Hr. apply yields_le32. lia. Qed.

Create HintDb probe.
#[export] Hint Resolve yields_ret yields_refused : probe.

(** A loop whose body moves forward and keeps an invariant ends with it. *)
Lemma scan_yields {S} (I : S -> Prop) (top : Z) guard body fuel offset (s : S) :
  (forall offset, guard offset = true -> offset < top) ->
  (forall offset s, 0 <= offset -> guard offset = true -> I s ->
    yields (fun step => match step with Next offset' s => offset < offset' /\ I s | Leave s => I s end) (body offset s)) ->
  0 <= offset -> top - offset <= Z.of_nat fuel -> I s -> yields I (scan fuel guard body offset s).
Proof.
  intros Hg Hb. revert offset s. induction fuel as [|fuel IH]; intros offset s Ho Hf Hs; cbn [scan].
  - destruct (guard offset) eqn:E; [apply Hg in E; lia|done].
  - destruct (guard offset) eqn:E; [|done]. eapply yields_bind; [by apply Hb|].
    intros [offset' s'|s'] H; [|done]. destruct H as [Hlt HI]. apply Hg in E. apply IH; [lia|lia|done].
Qed.

Lemma each_yields {S} (I : S -> Prop) data body start (s : S) :
  (forall offset s, 0 <= offset < size_of data -> I s ->
    yields (fun step => match step with Next offset' s => offset < offset' /\ I s | Leave s => I s end) (body offset s)) ->
  0 <= start -> I s -> yields I (each data body start s).
Proof.
  intros Hb Hst Hs. unfold each. apply (scan_yields I (size_of data)); [intros; lia| |done|unfold size_of; lia|done].
  intros offset s' Ho Hg. apply Hb. lia.
Qed.

Lemma yields_skipID3v2 data : yields (fun rest => size_of rest <= size_of data) (skipID3v2 data).
Proof.
  unfold skipID3v2. destruct (Z.ltb_spec (size_of data) 10); [by apply yields_ret|].
  read yields_slice as tag Htag. destruct (negb _); [by apply yields_ret|].
  read_byte b5. read_byte b6. read_byte b7. read_byte b8. read_byte b9. cbv zeta.
  match goal with |- context [from data ?e] => set (end_ := e) end.
  destruct (Z.ltb_spec (size_of data) end_); [apply yields_ret; apply size_of_nonneg|].
  assert (0 <= end_).
  { unfold end_. assert (forall x, 0 <= Z.land x 127) by (intros; apply Z.land_nonneg; lia).
    assert (0 <= Z.lor (Z.lor (Z.lor (Z.shiftl (Z.land b6 127) 21) (Z.shiftl (Z.land b7 127) 14)) (Z.shiftl (Z.land b8 127) 7)) (Z.land b9 127));
      [repeat (apply Z.lor_nonneg; split); rewrite ?Z.shiftl_nonneg; auto|]. destruct (_ =? 0); lia. }
  eapply yields_weaken, yields_from; [|lia]. cbn. intros rest. lia.
Qed.

(** ** Rounding up

    [ceilMillis] is the quotient rounded up, except that a quotient of
    2^64 - 1 with a remainder wraps round to 0, below every cap. *)
Lemma ceilMillis_exact units perSecond : 0 <= units < 2 ^ 64 -> 0 < perSecond < 2 ^ 64 ->
  ceilMillis units perSecond
  = if 2 ^ 64 * perSecond <=? units * 1000 then None else Some (u64 (- (- (units * 1000) / perSecond))).
Proof.
  intros Hu Hp. unfold ceilMillis, Mul64, Div64.
  pose proof (Z.div_mod (units * 1000) (2 ^ 64) ltac:(lia)) as Hd.
  pose proof (Z.mod_pos_bound (units * 1000) (2 ^ 64) ltac:(lia)) as Hm.
  replace (units * 1000 / 2 ^ 64 * 2 ^ 64 + units * 1000 mod 2 ^ 64) with (units * 1000) by lia.
  set (n := units * 1000) in *. set (h := n / 2 ^ 64) in *.
  destruct (Z.leb_spec perSecond h), (Z.leb_spec (2 ^ 64 * perSecond) n); try done; try nia.
  f_equal. pose proof (Z.div_mod n perSecond ltac:(lia)) as Hq. pose proof (Z.mod_pos_bound n perSecond ltac:(lia)) as Hr.
  destruct (Z.ltb_spec 0 (n mod perSecond)).
  - f_equal. assert (- n / perSecond = - (n / perSecond) - 1) as ->; [|lia].
    symmetry. apply (Z.div_unique _ _ _ (perSecond - n mod perSecond)); [lia|]. nia.
  - assert (n mod perSecond = 0) as Hz by lia. rewrite Z.div_opp_l_z, Z.opp_involutive by lia.
    unfold u64. rewrite Z.mod_small; [done|]. split; [apply Z.div_pos; lia|]. apply Z.div_lt_upper_bound; lia.
Qed.

(** A duration of 2^64 ms is past every cap, and is taken for one of none. *)
Example a_duration_past_all_bounds_is_zero : ceilMillis 18428297329635842064 999 = Some 0.
Proof. vm_compute. reflexivity. Qed.
