(* ===== verification/AudioFrames.v ===== *)
(** * Durations of WAV, FLAC, MPEG, AAC and Ogg uploads
      (internal/audioprobe/wav.go, mpeg.go, ogg.go)

    What a transcription is charged for is the duration these parsers measure.
    The model follows the Go statement for statement over checked reads
    (AudioBytes.v): a duration is a count of units and the units in a second. *)

From S2P Require Import Prelude Ids Text Base64 AudioBytes.
Open Scope Z_scope.

(** ** WAV and FLAC (wav.go) *)

Record WavRead := mkWavRead {
  w_format : Z; w_rate : Z; w_blockAlign : Z;
  w_dataBytes : Z; w_factSamples : Z;
  w_haveFormat : bool; w_haveData : bool; w_haveFact : bool;
}.

Definition no_wav : WavRead := mkWavRead 0 0 0 0 0 false false false.

Definition set_format (format rate blockAlign : Z) (w : WavRead) : WavRead :=
  mkWavRead format rate blockAlign (w_dataBytes w) (w_factSamples w) true (w_haveData w) (w_haveFact w).
Definition set_fact (samples : Z) (w : WavRead) : WavRead :=
  mkWavRead (w_format w) (w_rate w) (w_blockAlign w) (w_dataBytes w) samples (w_haveFormat w) (w_haveData w) true.
Definition set_data (bytes : Z) (w : WavRead) : WavRead :=
  mkWavRead (w_format w) (w_rate w) (w_blockAlign w) bytes (w_factSamples w) (w_haveFormat w) true (w_haveFact w).

Definition WAVE_FORMAT_EXTENSIBLE : Z := 65534.

(** What a chunk is read for, by its id: [body] is where it begins, [available]
    what is left of the file from there. *)
Definition wav_chunk (data : Bytes) (id : string) (size body available : Z) (w : WavRead) : Probe WavRead :=
  if id =s "fmt " then
    if (size <? 16) || (available <? size) then Refused "the fmt chunk is truncated"
    else
      chunk ← from data body;
      format ← le16 chunk; rate ← le32_at chunk 4; blockAlign ← le16_at chunk 12;
      if format =? WAVE_FORMAT_EXTENSIBLE then
        if size <? 40 then Refused "an extensible fmt chunk names no sub-format"
        else format ← le16_at chunk 24; mret (set_format format rate blockAlign w)
      else mret (set_format format rate blockAlign w)
  else if id =s "fact" then
    if (4 <=? size) && (size <=? available) then samples ← le32_at data body; mret (set_fact samples w) else mret w
  else if id =s "data" then mret (set_data (Z.min size available) w)
  else mret w.

Definition wav_body (data : Bytes) (offset : Z) (w : WavRead) : Probe (Step WavRead) :=
  id ← slice data offset (offset + 4);
  size ← le32_at data (offset + 4);
  let body := offset + 8 in
  let available := size_of data - body in
  w ← wav_chunk data (text_of id) size body available w;
  if available <=? size then mret (Leave w) else mret (Next (body + size + Z.land size 1) w).

(** What the chunks read say of the duration. *)
Definition wav_end (w : WavRead) : Probe (Z * Z) :=
  if negb (w_haveFormat w) then Refused "no fmt chunk"
  else if negb (w_haveData w) then Refused "no data chunk"
  else if w_rate w =? 0 then Refused "the fmt chunk states no sample rate"
  else if existsb (Z.eqb (w_format w)) [1; 3; 6; 7] then
    if w_blockAlign w =? 0 then Refused "the fmt chunk states no block alignment"
    else mret (w_dataBytes w / w_blockAlign w, w_rate w)
  else if w_haveFact w then mret (w_factSamples w, w_rate w)
  else Refused "a compressed WAV with no fact chunk states no sample count".

Definition wavDuration (data : Bytes) : Probe (Z * Z) :=
  if size_of data <? 12 then Refused "not a RIFF/WAVE file"
  else
    riff ← slice data 0 4; wave ← slice data 8 12;
    if negb (text_of riff =s "RIFF") || negb (text_of wave =s "WAVE") then Refused "not a RIFF/WAVE file"
    else
      w ← scan (length data) (fun offset => offset + 8 <=? size_of data) (wav_body data) 12 no_wav;
      wav_end w.

(** The rate of a STREAMINFO block: 20 bits from its tenth byte. *)
Definition info_rate (info : Bytes) : Probe Z :=
  b10 ← at_ info 10; b11 ← at_ info 11; b12 ← at_ info 12;
  mret (Z.lor (Z.lor (Z.shiftl b10 12) (Z.shiftl b11 4)) (Z.shiftr b12 4)).

Definition streamInfo (info : Bytes) : Probe (Z * Z) :=
  rate ← info_rate info;
  b13 ← at_ info 13; rest ← slice info 14 18; low ← be32 rest;
  let total := Z.lor (Z.shiftl (Z.land b13 15) 32) low in
  if total =? 0 then Refused "STREAMINFO states no total sample count" else mret (total, rate).

Definition flacDuration (data : Bytes) : Probe (Z * Z) :=
  if size_of data <? 42 then Refused "not a FLAC stream"
  else
    mark ← slice data 0 4;
    if negb (text_of mark =s "fLaC") then Refused "not a FLAC stream"
    else
      b4 ← at_ data 4; b5 ← at_ data 5; b6 ← at_ data 6; b7 ← at_ data 7;
      if negb (Z.land b4 127 =? 0) || (Z.lor (Z.lor (Z.shiftl b5 16) (Z.shiftl b6 8)) b7 <? 34)
      then Refused "the first metadata block is not STREAMINFO"
      else info ← slice data 8 42; streamInfo info.

(** ** Ogg (ogg.go) *)

Definition streamInfoRate (info : Bytes) : Probe Z :=
  rate ← info_rate info;
  if rate =? 0 then Refused "STREAMINFO states no sample rate" else mret rate.

Definition starts (packet : Bytes) (prefix : string) : bool :=
  text_of (take (String.length prefix) packet) =s prefix.

Definition oggCodec (packet : Bytes) : Probe (Z * Z) :=
  let n := size_of packet in
  if (19 <=? n) && starts packet "OpusHead" then preSkip ← le16_at packet 10; mret (48000, preSkip)
  else if (30 <=? n) && starts packet (String "001" "vorbis") then rate ← le32_at packet 12; mret (rate, 0)
  else if (51 <=? n) && starts packet (String "127" "FLAC") && starts (drop 9 packet) "fLaC"
  then info ← slice packet 17 51; rate ← streamInfoRate info; mret (rate, 0)
  else Refused "the Ogg stream is not Opus, Vorbis or FLAC".

Record OggRead := mkOggRead {
  o_serial : Z; o_found : bool; o_rate : Z; o_preSkip : Z; o_lastGranule : Z; o_granuleCarried : bool;
}.

(** Where a page ends: its header, its lacing values and what they add up to. *)
Definition page_end (page : Bytes) : Probe (Z * Z) :=
  segments ← at_ page 26;
  if size_of page <? 27 + segments then Refused "the page is truncated"
  else
    laces ← slice page 27 (27 + segments);
    let bodyLength := foldl (fun total lace => total + byte lace) 0 laces in
    let end_ := 27 + segments + bodyLength in
    if size_of page <? end_ then Refused "the page is truncated" else mret (27 + segments, end_).

Definition begin_stream (flags pageSerial : Z) (body : Bytes) (o : OggRead) : Probe OggRead :=
  if negb (Z.land flags 2 =? 0) then
    if o_found o then Refused "more than one logical stream"
    else
      '(rate, preSkip) ← oggCodec body;
      mret (mkOggRead pageSerial true rate preSkip (o_lastGranule o) (o_granuleCarried o))
  else if negb (o_found o) then Refused "the first page does not begin a stream"
  else mret o.

Definition no_granule : Z := 2 ^ 64 - 1.

Definition ogg_body (data : Bytes) (offset : Z) (o : OggRead) : Probe (Step OggRead) :=
  page ← from data offset;
  if size_of page <? 27 then Refused "no Ogg page"
  else
    mark ← slice page 0 4; version ← at_ page 4;
    if negb (text_of mark =s "OggS") || negb (version =? 0) then Refused "no Ogg page"
    else
      '(bodyStart, end_) ← page_end page;
      body ← slice page bodyStart end_;
      pageSerial ← le32_at page 14;
      flags ← at_ page 5;
      o ← begin_stream flags pageSerial body o;
      if negb (pageSerial =? o_serial o) then Refused "more than one logical stream"
      else
        granules ← from page 6; granule ← le64 granules;
        let o := if granule =? no_granule then o
                 else mkOggRead (o_serial o) (o_found o) (o_rate o) (o_preSkip o) granule true in
        mret (Next (offset + end_) o).

Definition oggDuration (data : Bytes) : Probe (Z * Z) :=
  o ← each data (ogg_body data) 0 (mkOggRead 0 false 0 0 0 false);
  if negb (o_found o) || negb (o_granuleCarried o) then Refused "no page states a granule position"
  else if o_lastGranule o <=? o_preSkip o then Refused "no audio past the pre-skip"
  else mret (o_lastGranule o - o_preSkip o, o_rate o).

(** ** MPEG audio and ADTS (mpeg.go) *)

(** Indexing a table and dividing fault as Go's do. *)
Definition entry {A} (table : list A) (i : Z) : Probe A :=
  if 0 <=? i then match table !! Z.to_nat i with Some a => Ok a | None => Panics end else Panics.
Definition quo (x y : Z) : Probe Z := if y =? 0 then Panics else mret (x / y).

Definition mpegBitrates : list (list (list Z)) :=
  [[[0; 32; 64; 96; 128; 160; 192; 224; 256; 288; 320; 352; 384; 416; 448; 0];
    [0; 32; 48; 56; 64; 80; 96; 112; 128; 160; 192; 224; 256; 320; 384; 0];
    [0; 32; 40; 48; 56; 64; 80; 96; 112; 128; 160; 192; 224; 256; 320; 0]];
   [[0; 32; 48; 56; 64; 80; 96; 112; 128; 144; 160; 176; 192; 224; 256; 0];
    [0; 8; 16; 24; 32; 40; 48; 56; 64; 80; 96; 112; 128; 144; 160; 0];
    [0; 8; 16; 24; 32; 40; 48; 56; 64; 80; 96; 112; 128; 144; 160; 0]]].

Definition mpegSampleRates : list (list Z) :=
  [[11025; 12000; 8000]; [0; 0; 0]; [22050; 24000; 16000]; [44100; 48000; 32000]].

Record mpegFrame := mkFrame {
  f_length : Z; f_samples : Z; f_rate : Z; f_headerOffset : Z; f_layer3 : bool;
}.

(** The fields of a header, by its bytes. *)
Definition mpeg_version (h1 : Z) : Z := Z.land (Z.shiftr h1 3) 3.
Definition mpeg_layer (h1 : Z) : Z := 4 - Z.land (Z.shiftr h1 1) 3.
Definition mpeg_bitrateIndex (h2 : Z) : Z := Z.shiftr h2 4.
Definition mpeg_rateIndex (h2 : Z) : Z := Z.land (Z.shiftr h2 2) 3.

Definition side_info (mpeg1 mono : bool) : Z :=
  if mpeg1 && mono then 17 else if negb mpeg1 && mono then 9 else if negb mpeg1 then 17 else 32.

(** [None] is what the function answers false for. *)
Definition parseMPEGFrame (header : Bytes) : Probe (option mpegFrame) :=
  if size_of header <? 4 then mret None
  else
    h0 ← at_ header 0; h1 ← at_ header 1;
    if negb (h0 =? 255) || negb (Z.land h1 224 =? 224) then mret None
    else
      let version := mpeg_version h1 in
      let layer := mpeg_layer h1 in
      h2 ← at_ header 2;
      let bitrateIndex := mpeg_bitrateIndex h2 in
      let rateIndex := mpeg_rateIndex h2 in
      if (version =? 1) || (layer =? 4) || (bitrateIndex =? 0) || (bitrateIndex =? 15) || (rateIndex =? 3) then mret None
      else
        let mpeg1 := version =? 3 in
        tables ← entry mpegBitrates (if mpeg1 then 0 else 1);
        bitrates ← entry tables (layer - 1);
        kilobits ← entry bitrates bitrateIndex;
        rates ← entry mpegSampleRates version;
        rate ← entry rates rateIndex;
        let bitrate := kilobits * 1000 in
        let padding := Z.land (Z.shiftr h2 1) 1 in
        '(length_, samples) ←
          (if layer =? 1 then q ← quo (12 * bitrate) rate; mret ((q + padding) * 4, 384)
           else if (layer =? 2) || mpeg1 then q ← quo (144 * bitrate) rate; mret (q + padding, 1152)
           else q ← quo (72 * bitrate) rate; mret (q + padding, 576));
        h3 ← at_ header 3;
        let headerOffset := 4 + side_info mpeg1 (Z.shiftr h3 6 =? 3) + (if Z.land h1 1 =? 0 then 2 else 0) in
        mret (if 4 <=? length_ then Some (mkFrame length_ samples rate headerOffset (layer =? 3)) else None).

Definition isVBRHeaderFrame (frame : mpegFrame) (data : Bytes) : Probe bool :=
  if negb (f_layer3 frame) then mret false
  else
    let at' := f_headerOffset frame in
    named ← (if at' + 4 <=? size_of data
             then mark ← slice data at' (at' + 4); mret ((text_of mark =s "Xing") || (text_of mark =s "Info"))
             else mret false);
    if (named : bool) then mret true
    else if 40 <=? size_of data then mark ← slice data 36 40; mret (text_of mark =s "VBRI")
    else mret false.

Definition trailingTag (rest : Bytes) : bool :=
  (size_of rest =? 128) && starts rest "TAG" || starts rest "APETAGEX" || starts rest "LYRICSBEGIN".

(** Samples so far, the rate they are played at, and how many frames. *)
Record Counted := mkCounted { c_samples : Z; c_rate : Z; c_frames : Z }.

Definition mpeg_body (data : Bytes) (offset : Z) (c : Counted) : Probe (Step Counted) :=
  rest ← from data offset;
  if (0 <? c_frames c) && trailingTag rest then mret (Leave c)
  else
    frame ← parseMPEGFrame rest;
    match frame with
    | None => if c_frames c =? 0 then Refused "no MPEG audio frame where the stream starts"
              else Refused "the stream loses frame sync"
    | Some frame =>
        if negb (c_rate c =? 0) && negb (f_rate frame =? c_rate c) then Refused "the sample rate changes mid-stream"
        else
          silent ← (if 0 <? c_frames c then mret false else isVBRHeaderFrame frame rest);
          let samples := if (silent : bool) then c_samples c else u64 (c_samples c + f_samples frame) in
          mret (Next (offset + f_length frame) (mkCounted samples (f_rate frame) (c_frames c + 1)))
    end.

Definition counted_end (c : Counted) : Probe (Z * Z) :=
  if c_samples c =? 0 then Refused "no audio frame" else mret (c_samples c, c_rate c).

Definition mpegDuration (data : Bytes) : Probe (Z * Z) :=
  data ← skipID3v2 data;
  c ← each data (mpeg_body data) 0 (mkCounted 0 0 0);
  counted_end c.

Definition adtsSampleRates : list Z :=
  [96000; 88200; 64000; 48000; 44100; 32000; 24000; 22050; 16000; 12000; 11025; 8000; 7350].

Definition adts_body (data : Bytes) (offset : Z) (c : Counted) : Probe (Step Counted) :=
  rest ← from data offset;
  let lost := if c_frames c =? 0 then Refused "no ADTS frame where the stream starts"
              else Refused "the stream loses frame sync" in
  if (0 <? c_frames c) && trailingTag rest then mret (Leave c)
  else if size_of rest <? 7 then lost
  else
    b0 ← at_ rest 0; b1 ← at_ rest 1;
    if negb (b0 =? 255) || negb (Z.land b1 246 =? 240) then lost
    else
      b2 ← at_ rest 2;
      let index := Z.land (Z.shiftr b2 2) 15 in
      if Z.of_nat (length adtsSampleRates) <=? index then Refused "a reserved sampling frequency index"
      else
        rate ← entry adtsSampleRates index;
        if negb (c_rate c =? 0) && negb (rate =? c_rate c) then Refused "the sample rate changes mid-stream"
        else
          b3 ← at_ rest 3; b4 ← at_ rest 4; b5 ← at_ rest 5;
          let length_ := Z.lor (Z.lor (Z.shiftl (Z.land b3 3) 11) (Z.shiftl b4 3)) (Z.shiftr b5 5) in
          if length_ <? 7 then Refused "a frame states no length"
          else
            b6 ← at_ rest 6;
            mret (Next (offset + length_)
              (mkCounted (u64 (c_samples c + 1024 * (Z.land b6 3 + 1))) rate (c_frames c + 1))).

Definition adtsDuration (data : Bytes) : Probe (Z * Z) :=
  c ← each data (adts_body data) 0 (mkCounted 0 0 0);
  counted_end c.

(** * No fault, and an end, on any bytes

    What a parser measures fits the 64-bit integers it is held in. *)

Definition measured (p : Z * Z) : Prop := fits 64 p.1 /\ fits 64 p.2.

Lemma fits_weaken m n z : m <= n -> fits m z -> fits n z.
Proof. unfold fits. intros Hmn Hz. pose proof (Z.pow_le_mono_r 2 m n ltac:(lia) Hmn). lia. Qed.

Lemma fits_div n x y : 0 <= n -> 0 < y -> fits n x -> fits n (x / y).
Proof.
  unfold fits. intros Hn Hy Hx. split; [apply Z.div_pos; lia|]. apply Z.div_lt_upper_bound; [lia|]. nia.
Qed.

Definition wav_ok (w : WavRead) : Prop :=
  0 <= w_blockAlign w /\ fits 32 (w_rate w) /\ fits 32 (w_dataBytes w) /\ fits 32 (w_factSamples w).

Lemma wav_chunk_ok data id size body w :
  0 <= body <= size_of data -> fits 32 size -> wav_ok w ->
  yields wav_ok (wav_chunk data id size body (size_of data - body) w).
Proof.
  intros Hb Hsize (Ha & Hr & Hd & Hf). unfold wav_chunk, fits in *. destruct (id =s "fmt ").
  - destruct (Z.ltb_spec size 16), (Z.ltb_spec (size_of data - body) size); try apply yields_refused. cbn [orb].
    read yields_from as chunk Hc. read yields_le16 as format Hformat. read yields_le32_at as rate Hrate.
    read yields_le16_at as blockAlign Halign. unfold fits in *. destruct (format =? _).
    + destruct (Z.ltb_spec size 40); [apply yields_refused|]. read yields_le16_at as format' Hformat'.
      apply yields_ret. repeat split; cbn; unfold fits; lia.
    + apply yields_ret. repeat split; cbn; unfold fits; lia.
  - destruct (id =s "fact").
    + destruct (Z.leb_spec 4 size), (Z.leb_spec size (size_of data - body)); cbn [andb]; try (by apply yields_ret).
      read yields_le32_at as samples Hs. apply yields_ret. repeat split; cbn; unfold fits in *; lia.
    + destruct (id =s "data"); apply yields_ret; [|done]. repeat split; cbn; unfold fits; lia.
Qed.

Lemma wavDuration_ok data : yields measured (wavDuration data).
Proof.
  unfold wavDuration. destruct (Z.ltb_spec (size_of data) 12); [apply yields_refused|].
  read yields_slice as riff Hriff. read yields_slice as wave Hwave. destruct (_ || _); [apply yields_refused|].
  eapply (yields_bind wav_ok).
  - apply (scan_yields wav_ok (size_of data)).
    + intros offset. lia.
    + intros offset w Ho Hg Hw. unfold wav_body. read yields_slice as id Hid. read yields_le32_at as size Hsize.
      pose proof (wav_chunk_ok data (text_of id) size (offset + 8) w ltac:(lia) Hsize Hw) as Hc.
      eapply yields_bind; [exact Hc|]. intros w' Hw'. unfold fits in Hsize.
      destruct (Z.leb_spec (size_of data - (offset + 8)) size); apply yields_ret; [done|]. split; [|done].
      pose proof (Z.land_nonneg size 1). lia.
    + lia.
    + unfold size_of. lia.
    + unfold wav_ok, fits. cbn. lia.
  - intros w (Ha & Hr & Hd & Hf). unfold wav_end. destruct (negb _); [apply yields_refused|].
    destruct (negb _); [apply yields_refused|]. destruct (_ =? 0); [apply yields_refused|]. destruct (existsb _ _).
    + destruct (Z.eqb_spec (w_blockAlign w) 0); [apply yields_refused|]. apply yields_ret. split; cbn.
      * apply fits_div; [lia..|]. by apply (fits_weaken 32).
      * by apply (fits_weaken 32).
    + destruct (w_haveFact w); [|apply yields_refused]. apply yields_ret. split; by apply (fits_weaken 32).
Qed.

Lemma shiftr_byte b n : is_byte b -> 0 <= n -> 0 <= Z.shiftr b n < 256.
Proof.
  intros Hb Hn. unfold is_byte in Hb. rewrite Z.shiftr_div_pow2 by lia. pose proof (Z.pow_pos_nonneg 2 n).
  split; [apply Z.div_pos; lia|]. apply Z.div_lt_upper_bound; nia.
Qed.

Lemma info_rate_ok info : 13 <= size_of info -> yields (fits 20) (info_rate info).
Proof.
  intros Hi. unfold info_rate. read_byte b10. read_byte b11. read_byte b12. apply yields_ret.
  pose proof (shiftr_byte b12 4 ltac:(done) ltac:(lia)). unfold fits. bits_bound; try (unfold is_byte in *; lia).
Qed.

Lemma land_ones_bound x n : 0 <= n -> 0 <= Z.land x (Z.ones n) < 2 ^ n.
Proof. intros Hn. rewrite Z.land_ones by done. apply Z.mod_pos_bound. apply Z.pow_pos_nonneg; lia. Qed.

Lemma streamInfo_ok info : size_of info = 34 -> yields measured (streamInfo info).
Proof.
  intros Hi. unfold streamInfo. eapply yields_bind; [apply info_rate_ok; lia|]. intros rate Hrate.
  read_byte b13. read yields_slice as rest Hrest. read yields_be32 as low Hlow. cbv zeta.
  destruct (_ =? 0); [apply yields_refused|]. apply yields_ret. split; cbn; [|by apply (fits_weaken 20)].
  pose proof (land_ones_bound b13 4 ltac:(lia)) as H4. change (Z.ones 4) with 15 in H4. unfold fits in *. bits_bound; try lia.
Qed.

Lemma flacDuration_ok data : yields measured (flacDuration data).
Proof.
  unfold flacDuration. destruct (Z.ltb_spec (size_of data) 42); [apply yields_refused|].
  read yields_slice as mark Hm. destruct (negb _); [apply yields_refused|].
  read_byte b4. read_byte b5. read_byte b6. read_byte b7. destruct (_ || _); [apply yields_refused|].
  read yields_slice as info Hinfo. by apply streamInfo_ok.
Qed.

(** ** Ogg *)

Lemma oggCodec_ok packet : yields measured (oggCodec packet).
Proof.
  unfold oggCodec. pose proof (size_of_nonneg packet).
  destruct (Z.leb_spec 19 (size_of packet)); cbn [andb]; [|destruct (Z.leb_spec 30 (size_of packet)); [lia|];
    destruct (Z.leb_spec 51 (size_of packet)); [lia|]; apply yields_refused].
  destruct (starts packet "OpusHead").
  { read yields_le16_at as preSkip Hp. apply yields_ret. split; [by vm_compute|]. by apply (fits_weaken 16). }
  destruct (Z.leb_spec 30 (size_of packet)); cbn [andb]; [|destruct (Z.leb_spec 51 (size_of packet)); [lia|]; apply yields_refused].
  destruct (starts packet _).
  { read yields_le32_at as rate Hr. apply yields_ret. split; [|by vm_compute]. by apply (fits_weaken 32). }
  destruct (Z.leb_spec 51 (size_of packet)); cbn [andb]; [|apply yields_refused].
  destruct (_ && _); [|apply yields_refused]. read yields_slice as info Hinfo. unfold streamInfoRate.
  eapply (yields_bind (fits 20)).
  - eapply yields_bind; [apply info_rate_ok; lia|]. intros rate Hrate. destruct (_ =? 0); [apply yields_refused|by apply yields_ret].
  - intros rate Hrate. apply yields_ret. split; [|by vm_compute]. by apply (fits_weaken 20).
Qed.

Definition ogg_ok (o : OggRead) : Prop := fits 64 (o_rate o) /\ fits 64 (o_preSkip o) /\ fits 64 (o_lastGranule o).

Lemma page_end_ok page : 27 <= size_of page ->
  yields (fun p => 27 <= p.1 <= p.2 /\ p.2 <= size_of page) (page_end page).
Proof.
  intros Hp. unfold page_end. read_byte segments. unfold is_byte in *.
  destruct (Z.ltb_spec (size_of page) (27 + segments)); [apply yields_refused|].
  read yields_slice as laces Hl. cbv zeta. clear Hl.
  assert (Hsum : forall l acc, 0 <= acc -> 0 <= foldl (fun total lace => total + byte lace) acc l).
  { induction l as [|c l IH]; intros acc Ha; [done|]. cbn. apply IH. pose proof (byte_bound c). lia. }
  specialize (Hsum laces 0 ltac:(lia)). destruct (Z.ltb_spec (size_of page) (27 + segments + foldl (fun total lace => total + byte lace) 0 laces));
    [apply yields_refused|]. apply yields_ret. cbn. lia.
Qed.

Lemma begin_stream_ok flags serial body o : ogg_ok o -> yields ogg_ok (begin_stream flags serial body o).
Proof.
  intros (Hr & Hp & Hg). unfold begin_stream. destruct (negb (Z.land flags 2 =? 0)).
  - destruct (o_found o); [apply yields_refused|]. eapply yields_bind; [apply oggCodec_ok|]. intros [rate preSkip] [? ?].
    apply yields_ret. done.
  - destruct (negb (o_found o)); [apply yields_refused|]. by apply yields_ret.
Qed.

Lemma oggDuration_ok data : yields measured (oggDuration data).
Proof.
  unfold oggDuration. eapply (yields_bind ogg_ok).
  - apply each_yields; [|lia|by repeat split].
    intros offset o Ho Hok. unfold ogg_body. read yields_from as page Hpage.
    destruct (Z.ltb_spec (size_of page) 27); [apply yields_refused|].
    read yields_slice as mark Hm. read_byte version. destruct (_ || _); [apply yields_refused|].
    eapply yields_bind; [apply page_end_ok; lia|]. intros [bodyStart end_] Hend. cbn [fst snd] in Hend.
    read yields_slice as body Hbody. eapply yields_bind; [unfold le32_at|].
    { read yields_from as rest Hrest. apply yields_le32. lia. }
    intros pageSerial _. read_byte flags. eapply yields_bind; [by apply begin_stream_ok|].
    intros o' (Hr & Hp & Hg). destruct (negb _); [apply yields_refused|]. read yields_from as granules Hgr.
    read yields_le64 as granule Hgranule. apply yields_ret. split; [lia|]. destruct (granule =? no_granule); repeat split; cbn; (apply Hr || apply Hp || apply Hg || apply Hgranule).
  - intros o (Hr & Hp & Hg). destruct (_ || _); [apply yields_refused|].
    destruct (Z.leb_spec (o_lastGranule o) (o_preSkip o)); [apply yields_refused|]. apply yields_ret.
    split; cbn; [|done]. unfold fits in *. lia.
Qed.

(** ** Tables and frames *)

Lemma yields_entry {A} (P : A -> Prop) table i :
  0 <= i < Z.of_nat (length table) -> Forall P table -> yields P (entry table i).
Proof.
  intros Hi Hall. unfold entry. rewrite (proj2 (Z.leb_le _ _)) by lia.
  destruct (lookup_lt_is_Some_2 table (Z.to_nat i)) as [a Ha]; [lia|]. rewrite Ha. cbn.
  by eapply Forall_lookup_1 in Ha.
Qed.

Lemma yields_quo x y : 0 <= x -> 0 < y -> yields (fun q => 0 <= q) (quo x y).
Proof. intros Hx Hy. unfold quo. rewrite (proj2 (Z.eqb_neq _ _)) by lia. apply yields_ret. by apply Z.div_pos. Qed.

Definition rate_ok (rate : Z) : Prop := 0 < rate < 2 ^ 32.

Lemma mpegBitrates_ok :
  Forall (fun tables => length tables = 3%nat /\ Forall (fun row => length row = 16%nat /\ Forall (Z.le 0) row) tables) mpegBitrates.
Proof. repeat constructor; lia. Qed.

(** Only the reserved version has no rates. *)
Lemma sample_rates_ok version : 0 <= version < 4 -> version <> 1 ->
  yields (fun rates => length rates = 3%nat /\ Forall rate_ok rates) (entry mpegSampleRates version).
Proof.
  intros Hv H1. assert (version = 0 \/ version = 2 \/ version = 3) as [->|[->| ->]] by lia;
    (split; [done|]); rewrite !Forall_cons, Forall_nil; unfold rate_ok; lia.
Qed.

Lemma adts_rates_ok : Forall rate_ok adtsSampleRates.
Proof. unfold rate_ok. repeat constructor; lia. Qed.

Definition frame_ok (frame : mpegFrame) : Prop :=
  4 <= f_length frame /\ 0 <= f_samples frame /\ rate_ok (f_rate frame) /\ 0 <= f_headerOffset frame.

(** The fields of a header are in their ranges. *)
Lemma two_bits b n : is_byte b -> 0 <= n -> 0 <= Z.land (Z.shiftr b n) 3 < 4.
Proof. intros _ _. apply (land_ones_bound _ 2). lia. Qed.

Lemma one_bit b n : 0 <= Z.land (Z.shiftr b n) 1 < 2.
Proof. apply (land_ones_bound _ 1). lia. Qed.

Lemma parseMPEGFrame_ok header :
  yields (fun frame => match frame with Some frame => frame_ok frame | None => True end) (parseMPEGFrame header).
Proof.
  unfold parseMPEGFrame. destruct (Z.ltb_spec (size_of header) 4); [by apply yields_ret|].
  read_byte h0. read_byte h1. destruct (_ || _); [by apply yields_ret|]. cbv zeta. read_byte h2.
  destruct ((mpeg_version h1 =? 1) || _ || _ || _ || _) eqn:Er; [by apply yields_ret|].
  rewrite !orb_false_iff, !Z.eqb_neq in Er. destruct Er as ((((Ev & El) & Eb0) & Eb15) & Er).
  pose proof (two_bits h1 3 ltac:(done) ltac:(lia)) as Hv. pose proof (two_bits h1 1 ltac:(done) ltac:(lia)) as Hl.
  pose proof (two_bits h2 2 ltac:(done) ltac:(lia)) as Hri.
  assert (0 <= mpeg_bitrateIndex h2 < 16) as Hbi.
  { unfold mpeg_bitrateIndex, is_byte in *. rewrite Z.shiftr_div_pow2 by lia. change (2 ^ 4) with 16.
    Z.to_euclidean_division_equations; lia. }
  unfold mpeg_layer, mpeg_version, mpeg_rateIndex in *.
  eapply yields_bind; [apply (yields_entry _ mpegBitrates); [destruct (_ =? 3); cbn; lia|exact mpegBitrates_ok]|].
  intros tables [Ht Htables]. cbv beta in *. eapply yields_bind; [apply (yields_entry _ tables); [rewrite Ht; lia|exact Htables]|].
  intros bitrates [Hb Hbitrates]. eapply yields_bind; [apply (yields_entry _ bitrates); [rewrite Hb; lia|exact Hbitrates]|].
  intros kilobits Hk. eapply yields_bind; [by apply sample_rates_ok|]. intros rates [Hr Hrates].
  eapply yields_bind; [apply (yields_entry _ rates); [rewrite Hr; lia|exact Hrates]|]. intros rate Hrate.
  pose proof (one_bit h2 1) as Hpad. unfold rate_ok in Hrate.
  eapply (yields_bind (fun p => 0 <= p.2)).
  { generalize (Z.land (Z.shiftr h2 1) 1) as padding. cbv beta in Hk. clear - Hk Hrate. intros padding.
    destruct (_ =? 1); [|destruct (_ || _)];
      (eapply yields_bind; [apply yields_quo; lia|]; intros q Hq; by apply yields_ret). }
  intros [length_ samples] Hs. cbn [snd] in Hs. read_byte h3. apply yields_ret.
  destruct (Z.leb_spec 4 length_); [|done]. unfold frame_ok, side_info. cbn.
  repeat case_match; split_and!; cbn; lia || done.
Qed.

Lemma isVBRHeaderFrame_ok frame data : 0 <= f_headerOffset frame -> yields (fun _ => True) (isVBRHeaderFrame frame data).
Proof.
  intros Ho. unfold isVBRHeaderFrame. destruct (negb _); [by apply yields_ret|]. cbv zeta.
  eapply (yields_bind (fun _ => True)).
  - destruct (Z.leb_spec (f_headerOffset frame + 4) (size_of data)); [|by apply yields_ret].
    read yields_slice as mark Hm. by apply yields_ret.
  - intros [] _; [by apply yields_ret|]. destruct (Z.leb_spec 40 (size_of data)); [|by apply yields_ret].
    read yields_slice as mark Hm. by apply yields_ret.
Qed.

Definition counted_ok (c : Counted) : Prop := fits 64 (c_samples c) /\ fits 64 (c_rate c).

Lemma u64_fits z : fits 64 (u64 z).
Proof. unfold fits, u64. apply Z.mod_pos_bound. lia. Qed.

Lemma counted_end_ok c : counted_ok c -> yields measured (counted_end c).
Proof. intros [? ?]. unfold counted_end. destruct (_ =? 0); [apply yields_refused|]. by apply yields_ret. Qed.

Lemma rate_fits rate : rate_ok rate -> fits 64 rate.
Proof. unfold rate_ok, fits. lia. Qed.

Lemma mpegDuration_ok data : yields measured (mpegDuration data).
Proof.
  unfold mpegDuration. eapply yields_bind; [apply yields_skipID3v2|]. intros data' _.
  eapply (yields_bind counted_ok); [|intros c; apply counted_end_ok].
  apply each_yields; [|lia|by split]. intros offset c Ho [Hs Hr]. unfold mpeg_body.
  read yields_from as rest Hrest. destruct (_ && _); [by apply yields_ret|].
  eapply yields_bind; [apply parseMPEGFrame_ok|]. intros [frame|] Hf; [|destruct (_ =? 0); apply yields_refused].
  destruct Hf as (Hl & Hsa & Hra & Ho'). destruct (_ && _); [apply yields_refused|].
  eapply (yields_bind (fun _ => True)); [destruct (0 <? c_frames c); [by apply yields_ret|by apply isVBRHeaderFrame_ok]|].
  intros silent _. apply yields_ret. split; [lia|]. split; cbn; [|by apply rate_fits]. destruct silent; [done|apply u64_fits].
Qed.

Lemma adtsDuration_ok data : yields measured (adtsDuration data).
Proof.
  unfold adtsDuration. eapply (yields_bind counted_ok); [|intros c; apply counted_end_ok].
  apply each_yields; [|lia|by split]. intros offset c Ho [Hs Hr]. unfold adts_body.
  read yields_from as rest Hrest. cbv zeta. destruct (_ && _); [by apply yields_ret|].
  assert (Hlost : forall P, yields P (if c_frames c =? 0 then @Refused (Step Counted) "no ADTS frame where the stream starts"
    else Refused "the stream loses frame sync")) by (intros P; destruct (_ =? 0); apply yields_refused).
  destruct (Z.ltb_spec (size_of rest) 7); [apply Hlost|]. read_byte b0. read_byte b1. destruct (_ || _); [apply Hlost|].
  read_byte b2. destruct (Z.leb_spec (Z.of_nat (length adtsSampleRates)) (Z.land (Z.shiftr b2 2) 15)); [apply yields_refused|].
  pose proof (land_ones_bound (Z.shiftr b2 2) 4 ltac:(lia)) as Hi. change (Z.ones 4) with 15 in Hi.
  eapply yields_bind; [apply (yields_entry _ adtsSampleRates); [lia|exact adts_rates_ok]|]. intros rate Hrate.
  destruct (_ && _); [apply yields_refused|]. read_byte b3. read_byte b4. read_byte b5.
  match goal with |- context [?n <? 7] => destruct (Z.ltb_spec n 7) end; [apply yields_refused|].
  read_byte b6. apply yields_ret. split; [lia|]. split; [apply u64_fits|by apply rate_fits].
Qed.
