(* ===== verification/AudioBoxes.v ===== *)
(** * Durations of MP4 and Matroska uploads
      (internal/audioprobe/mp4.go, matroska.go)

    Containers of boxes and elements, each visited with the state its visitor
    closes over.  MP4 sums the samples of the sound track's tables and runs,
    Matroska spans the blocks of the audio track. *)

From S2P Require Import Prelude Ids Text Base64 AudioBytes AudioFrames.
Open Scope Z_scope.

(** ** Boxes (mp4.go) *)

(** A box's kind, where its body begins and where it ends, from its offset. *)
Definition box_at (data : Bytes) (offset : Z) : Probe (string * Z * Z) :=
  let left := size_of data - offset in
  if left <? 8 then Refused "a truncated box"
  else
    size ← be32_at data offset;
    kind ← slice data (offset + 4) (offset + 8);
    '(size, header) ←
      (if size =? 0 then mret (left, 8)
       else if size =? 1 then
         if left <? 16 then Refused "a truncated box" else large ← (rest ← from data (offset + 8); be64 rest); mret (large, 16)
       else mret (size, 8));
    if (size <? header) || (left <? size) then Refused "the box overruns the file"
    else mret (text_of kind, header, size).

Definition eachBox {S} (visit : string -> Bytes -> S -> Probe S) (data : Bytes) (s : S) : Probe S :=
  each data (fun offset s =>
    '(kind, header, size) ← box_at data offset;
    body ← slice data (offset + header) (offset + size);
    s ← visit kind body s;
    mret (Next (offset + size) s)) 0 s.

Record mp4Track := mkTrack { t_id : Z; t_sound : bool; t_timescale : Z; t_ticks : Z }.

Definition set_track_id (id : Z) (t : mp4Track) : mp4Track := mkTrack id (t_sound t) (t_timescale t) (t_ticks t).
Definition set_sound (sound : bool) (t : mp4Track) : mp4Track := mkTrack (t_id t) sound (t_timescale t) (t_ticks t).
Definition set_timescale (n : Z) (t : mp4Track) : mp4Track := mkTrack (t_id t) (t_sound t) n (t_ticks t).
Definition set_ticks (n : Z) (t : mp4Track) : mp4Track := mkTrack (t_id t) (t_sound t) (t_timescale t) n.

(** Where the first field after the times of a header box lies: its version
    says how wide the times are. *)
Definition after_times (body : Bytes) (what : string) : Probe Z :=
  version ← (if 0 <? size_of body then at_ body 0 else mret 0);
  let at' := if version =? 1 then 20 else 12 in
  if size_of body <? at' + 4 then Refused what else be32_at body at'.

(** The sum of [count × delta] over a table's entries, from [index] on. *)
Fixpoint sum_entries (entries : nat) (stts : Bytes) (index total : Z) : Probe Z :=
  match entries with
  | O => mret total
  | S entries =>
      count ← be32_at stts (8 + 8 * index); delta ← be32_at stts (8 + 8 * index + 4);
      let '(high, product) := Mul64 count delta in
      let '(total, carry) := Add64 total product in
      if negb (high =? 0) || negb (carry =? 0) then Refused "a duration past what a duration can hold"
      else sum_entries entries stts (index + 1) total
  end.

Definition mp4SampleTable (stts : Bytes) : Probe Z :=
  if size_of stts <? 8 then Refused "a truncated time-to-sample table"
  else
    entries ← be32_at stts 4;
    if size_of stts <? 8 + 8 * entries then Refused "a truncated time-to-sample table"
    else sum_entries (Z.to_nat entries) stts 0 0.

Definition mp4ReadTrack (trak : Bytes) : Probe mp4Track :=
  track ← eachBox (fun kind body track =>
    if kind =s "tkhd" then id ← after_times body "a truncated track header"; mret (set_track_id id track)
    else if kind =s "mdia" then
      eachBox (fun kind body track =>
        if kind =s "hdlr" then
          sound ← (if 12 <=? size_of body then mark ← slice body 8 12; mret (text_of mark =s "soun") else mret false);
          mret (set_sound sound track)
        else if kind =s "mdhd" then
          timescale ← after_times body "a truncated media header"; mret (set_timescale timescale track)
        else if kind =s "minf" then
          eachBox (fun kind body track =>
            if negb (kind =s "stbl") then mret track
            else eachBox (fun kind body track =>
              if negb (kind =s "stts") then mret track
              else ticks ← mp4SampleTable body; mret (set_ticks ticks track)) body track) body track
        else mret track) body track
    else mret track) trak (mkTrack 0 false 0 0);
  if t_sound track && (t_timescale track =? 0) then Refused "the sound track states no timescale" else mret track.

(** *** Fragments *)

Definition flag (flags bit : Z) : bool := negb (Z.land flags bit =? 0).

(** The durations of a run's samples, [stride] bytes apart. *)
Fixpoint sum_samples (count : nat) (trun : Bytes) (at' stride total : Z) : Probe Z :=
  match count with
  | O => mret total
  | S count =>
      duration ← be32_at trun at';
      sum_samples count trun (at' + stride) stride (u64 (total + duration))
  end.

Definition mp4Run (trun : Bytes) (fallback : Z) : Probe Z :=
  if size_of trun <? 8 then Refused "a truncated track run"
  else
    flags ← be32 trun;
    let flags := Z.land flags 16777215 in
    count ← be32_at trun 4;
    let at' := 8 + (if flag flags 1 then 4 else 0) + (if flag flags 4 then 4 else 0) in
    if negb (flag flags 256) then
      if fallback =? 0 then Refused "a track run states no sample duration and no default"
      else mret (u64 (count * fallback))
    else
      let stride := foldl (fun stride present => if flag flags present then stride + 4 else stride) 4 [512; 1024; 2048] in
      if size_of trun <? at' + stride * count then Refused "a truncated track run"
      else sum_samples (Z.to_nat count) trun at' stride 0.

(** What a fragment's boxes are read with: whether it is the sound track's, the
    duration of a sample that states none, and the ticks so far. *)
Record Fragment := mkFragment { g_mine : bool; g_fallback : Z; g_total : Z }.

Definition fragment_header (body : Bytes) (id : Z) (g : Fragment) : Probe Fragment :=
  if size_of body <? 8 then Refused "a truncated fragment header"
  else
    flags ← be32 body;
    let flags := Z.land flags 16777215 in
    track ← be32_at body 4;
    let mine := track =? id in
    let at' := 8 + (if flag flags 1 then 8 else 0) + (if flag flags 2 then 4 else 0) in
    if flag flags 8 then
      if size_of body <? at' + 4 then Refused "a truncated fragment header"
      else fallback ← be32_at body at'; mret (mkFragment mine fallback (g_total g))
    else mret (mkFragment mine (g_fallback g) (g_total g)).

Definition fragment_box (id : Z) (kind : string) (body : Bytes) (g : Fragment) : Probe Fragment :=
  if kind =s "tfhd" then fragment_header body id g
  else if kind =s "trun" then
    if negb (g_mine g) then mret g
    else ticks ← mp4Run body (g_fallback g); mret (mkFragment (g_mine g) (g_fallback g) (u64 (g_total g + ticks)))
  else mret g.

Definition mp4FragmentTicks (moof : Bytes) (id defaultDuration : Z) : Probe Z :=
  eachBox (fun kind traf total =>
    if negb (kind =s "traf") then mret total
    else
      g ← eachBox (fragment_box id) traf (mkFragment false defaultDuration total);
      mret (g_total g)) moof 0.

Record Movie := mkMovie {
  m_tracks : list mp4Track; m_fragments : list Bytes; m_defaults : gmap Z Z; m_sawMovie : bool;
}.

(** A box of the movie extends: the default sample duration of a track. *)
Definition extends_box (kind : string) (body : Bytes) (m : Movie) : Probe Movie :=
  if (kind =s "trex") && (16 <=? size_of body)
  then track ← be32_at body 4; duration ← be32_at body 12;
       mret (mkMovie (m_tracks m) (m_fragments m) (<[track := duration]> (m_defaults m)) (m_sawMovie m))
  else mret m.

Definition movie_box (kind : string) (body : Bytes) (m : Movie) : Probe Movie :=
  if kind =s "trak" then
    track ← mp4ReadTrack body;
    mret (mkMovie (m_tracks m ++ [track]) (m_fragments m) (m_defaults m) (m_sawMovie m))
  else if kind =s "mvex" then eachBox extends_box body m
  else mret m.

Definition file_box (kind : string) (body : Bytes) (m : Movie) : Probe Movie :=
  if kind =s "moov" then eachBox movie_box body (mkMovie (m_tracks m) (m_fragments m) (m_defaults m) true)
  else if kind =s "moof" then mret (mkMovie (m_tracks m) (m_fragments m ++ [body]) (m_defaults m) (m_sawMovie m))
  else mret m.

Fixpoint fragments_ticks (fragments : list Bytes) (id defaultDuration ticks : Z) : Probe Z :=
  match fragments with
  | [] => mret ticks
  | fragment :: fragments =>
      more ← mp4FragmentTicks fragment id defaultDuration;
      let '(ticks, carry) := Add64 ticks more in
      if negb (carry =? 0) then Refused "a duration past what a duration can hold"
      else fragments_ticks fragments id defaultDuration ticks
  end.

Definition mp4Duration (data : Bytes) : Probe (Z * Z) :=
  m ← eachBox file_box data (mkMovie [] [] ∅ false);
  if negb (m_sawMovie m) then Refused "no movie box"
  else
    match List.filter t_sound (m_tracks m) with
    | [] => Refused "no sound track"
    | [sound] =>
        let defaultDuration := default 0 (m_defaults m !! t_id sound) in
        ticks ← fragments_ticks (m_fragments m) (t_id sound) defaultDuration (t_ticks sound);
        if ticks =? 0 then Refused "the sound track has no samples" else mret (ticks, t_timescale sound)
    | _ => Refused "more than one sound track"
    end.

(** ** Elements (matroska.go) *)

Definition idEBML : Z := 440786851.
Definition idDocType : Z := 17026.
Definition idSegment : Z := 408125543.
Definition idInfo : Z := 357149030.
Definition idTimecodeScale : Z := 2807729.
Definition idTracks : Z := 374648427.
Definition idTrackEntry : Z := 174.
Definition idTrackNumber : Z := 215.
Definition idTrackType : Z := 131.
Definition idCodecID : Z := 134.
Definition idDefaultDuration : Z := 2352003.
Definition idCluster : Z := 524531317.
Definition idTimecode : Z := 231.
Definition idSimpleBlock : Z := 163.
Definition idBlockGroup : Z := 160.
Definition idBlock : Z := 161.
Definition idBlockDuration : Z := 155.

Definition defaultTimecodeScale : Z := 1000000.
Definition unknownSize : Z := 2 ^ 64 - 1.

Record element := mkElement { e_id : Z; e_size : Z; e_headerSize : Z }.

(** [value<<8 | b] over bytes, in 64 bits. *)
Definition shift_in (value : Z) (b : ascii) : Z := Z.lor (u64 (Z.shiftl value 8)) (byte b).
Definition readUint (body : Bytes) : Z := foldl shift_in 0 body.

(** [bits.LeadingZeros8]. *)
Definition LeadingZeros8 (b : Z) : Z := if b =? 0 then 8 else 7 - Z.log2 b.

(** The value and the length of a variable-length integer, when there is one. *)
Definition readVint (data : Bytes) (keepMarker : bool) : Probe (option (Z * Z)) :=
  if size_of data =? 0 then mret None
  else
    first ← at_ data 0;
    if first =? 0 then mret None
    else
      let length_ := LeadingZeros8 first + 1 in
      if (8 <? length_) || (size_of data <? length_) then mret None
      else
        let value := if keepMarker then first else Z.land first (Z.shiftr 255 length_) in
        rest ← slice data 1 length_;
        mret (Some (foldl shift_in value rest, length_)).

Definition readElement (data : Bytes) : Probe (option element) :=
  id ← readVint data true;
  match id with
  | None => mret None
  | Some (id, idLength) =>
      if 4 <? idLength then mret None
      else
        rest ← from data idLength;
        size ← readVint rest false;
        match size with
        | None => mret None
        | Some (size, sizeLength) =>
            let size := if size =? u64 (Z.shiftl 1 (7 * sizeLength)) - 1 then unknownSize else size in
            mret (Some (mkElement id size (idLength + sizeLength)))
        end
  end.

(** The elements of a body whose size is known. *)
Definition eachChild {S} (visit : element -> Bytes -> S -> Probe S) (body : Bytes) (s : S) : Probe S :=
  each body (fun offset s =>
    rest ← from body offset;
    child ← readElement rest;
    match child with
    | None => Refused "an unreadable child element"
    | Some child =>
        if (e_size child =? unknownSize) || (size_of body <? u64 (offset + e_headerSize child + e_size child))
        then Refused "an unreadable child element"
        else
          let start := offset + e_headerSize child in
          value ← slice body start (u64 (start + e_size child));
          s ← visit child value s;
          mret (Next (u64 (start + e_size child)) s)
    end) 0 s.

Record audioTrack := mkAudioTrack { a_number : Z; a_codec : string; a_defaultDuration : Z }.

(** [matroskaReader]; [tracks] only holds what [audio] points to. *)
Record matroskaReader := mkReader {
  r_scale : Z; r_audio : option audioTrack; r_cluster : Z; r_inCluster : bool;
  r_start : Z; r_end : Z; r_blocks : Z;
}.

Definition new_reader : matroskaReader := mkReader defaultTimecodeScale None 0 false 0 0 0.
Definition set_scale (scale : Z) (r : matroskaReader) : matroskaReader :=
  mkReader scale (r_audio r) (r_cluster r) (r_inCluster r) (r_start r) (r_end r) (r_blocks r).
Definition set_cluster (cluster : Z) (inCluster : bool) (r : matroskaReader) : matroskaReader :=
  mkReader (r_scale r) (r_audio r) cluster inCluster (r_start r) (r_end r) (r_blocks r).
Definition set_audio (track : audioTrack) (r : matroskaReader) : matroskaReader :=
  mkReader (r_scale r) (Some track) (r_cluster r) (r_inCluster r) (r_start r) (r_end r) (r_blocks r).
Definition add_block (start duration : Z) (r : matroskaReader) : matroskaReader :=
  mkReader (r_scale r) (r_audio r) (r_cluster r) (r_inCluster r)
    (if (r_blocks r =? 0) || (start <? r_start r) then start else r_start r)
    (Z.max (r_end r) (u64 (start + duration))) (r_blocks r + 1).

(** A track entry's fields, and its type. *)
Definition track_field (child : element) (value : Bytes) (s : audioTrack * Z) : Probe (audioTrack * Z) :=
  let '(track, trackType) := s in
  mret
    (if e_id child =? idTrackNumber then (mkAudioTrack (readUint value) (a_codec track) (a_defaultDuration track), trackType)
     else if e_id child =? idTrackType then (track, readUint value)
     else if e_id child =? idCodecID then (mkAudioTrack (a_number track) (text_of value) (a_defaultDuration track), trackType)
     else if e_id child =? idDefaultDuration then (mkAudioTrack (a_number track) (a_codec track) (readUint value), trackType)
     else (track, trackType)).

Definition trackEntry (body : Bytes) (r : matroskaReader) : Probe matroskaReader :=
  '(track, trackType) ← eachChild track_field body (mkAudioTrack 0 "" 0, 0);
  if negb (trackType =? 2) then mret r
  else match r_audio r with
  | Some _ => Refused "more than one audio track"
  | None => mret (set_audio track r)
  end.

(** [opusPacketDuration]; [None] is what it answers false for. *)
Definition opusPacketDuration (packet : Bytes) : Probe (option Z) :=
  if size_of packet =? 0 then mret None
  else
    toc ← at_ packet 0;
    let config := Z.shiftr toc 3 in
    frame ← (if config <? 12 then entry [10000000; 20000000; 40000000; 60000000] (config mod 4)
             else if config <? 16 then entry [10000000; 20000000] (config mod 2)
             else entry [2500000; 5000000; 10000000; 20000000] (config mod 4));
    let code := Z.land toc 3 in
    let within count := if frame * count <=? 120000000 then Some (frame * count) else None in
    if (code =? 1) || (code =? 2) then mret (within 2)
    else if code =? 3 then
      if size_of packet <? 2 then mret None
      else
        second ← at_ packet 1;
        let count := Z.land second 63 in
        if count =? 0 then mret None else mret (within count)
    else mret (within 1).

Definition int16_of (z : Z) : Z := if z <? 32768 then z else z - 65536.

(** How long a block of the audio track plays. *)
Definition block_duration (audio : audioTrack) (scale lacing : Z) (frames : Bytes) (group : option Z) : Probe Z :=
  match group with
  | Some ticks =>
      let '(high, duration) := Mul64 ticks scale in
      if negb (high =? 0) then Refused "a block duration past what a duration can hold" else mret duration
  | None =>
      if (lacing =? 0) && (0 <? a_defaultDuration audio) then mret (a_defaultDuration audio)
      else if negb (lacing =? 0) && (0 <? a_defaultDuration audio) && (0 <? size_of frames)
      then count ← at_ frames 0; mret (u64 (a_defaultDuration audio * (count + 1)))
      else if (lacing =? 0) && (a_codec audio =s "A_OPUS") then
        duration ← opusPacketDuration frames;
        match duration with Some d => mret d | None => Refused "an Opus packet whose TOC states no duration" end
      else Refused "a block states no duration"
  end.

Definition read_block (body : Bytes) (group : option Z) (r : matroskaReader) : Probe matroskaReader :=
  match r_audio r with
  | None => Refused "a block precedes the audio track's definition"
  | Some audio =>
      track ← readVint body false;
      match track with
      | None => Refused "an unreadable block header"
      | Some (track, trackLength) =>
          if size_of body <? trackLength + 3 then Refused "an unreadable block header"
          else if negb (track =? a_number audio) then mret r
          else if negb (r_inCluster r) then Refused "a block outside a cluster with a timecode"
          else
            rest ← from body trackLength; stamp ← be16 rest;
            flags ← at_ body (trackLength + 2);
            frames ← from body (trackLength + 3);
            if r_scale r =? 0 then Refused "a timecode scale of zero"
            else
              let ticks := wrap64 (wrap64 (r_cluster r) + int16_of stamp) in
              if ticks <? 0 then Refused "a block before the start of time"
              else
                let '(high, start) := Mul64 ticks (r_scale r) in
                if negb (high =? 0) then Refused "a block timecode past what a duration can hold"
                else
                  duration ← block_duration audio (r_scale r) (Z.land (Z.shiftr flags 1) 3) frames group;
                  mret (add_block start duration r)
      end
  end.

(** A block group's block and its duration. *)
Definition group_field (child : element) (value : Bytes) (s : option Bytes * option Z) : Probe (option Bytes * option Z) :=
  mret (if e_id child =? idBlock then (Some value, s.2)
        else if e_id child =? idBlockDuration then (s.1, Some (readUint value)) else s).

Definition read_element (current : element) (body : Bytes) (r : matroskaReader) : Probe matroskaReader :=
  let id := e_id current in
  if id =? idInfo then
    eachChild (fun child value r => mret (if e_id child =? idTimecodeScale then set_scale (readUint value) r else r)) body r
  else if id =? idTrackEntry then trackEntry body r
  else if id =? idTimecode then mret (set_cluster (readUint body) true r)
  else if id =? idSimpleBlock then read_block body None r
  else if id =? idBlockGroup then
    '(block, duration) ← eachChild group_field body (None, None);
    match block with
    | None => Refused "a block group carries no block"
    | Some block => read_block block duration r
    end
  else mret r.

Definition walk_body (data : Bytes) (offset : Z) (r : matroskaReader) : Probe (Step matroskaReader) :=
  rest ← from data offset;
  current ← readElement rest;
  match current with
  | None => Refused "no element"
  | Some current =>
      let bodyStart := offset + e_headerSize current in
      if (e_id current =? idSegment) || (e_id current =? idTracks) then mret (Next bodyStart r)
      else if e_id current =? idCluster then mret (Next bodyStart (set_cluster 0 false r))
      else if (e_size current =? unknownSize) || (size_of data <? u64 (bodyStart + e_size current))
      then Refused "an element overruns the file"
      else
        body ← slice data bodyStart (u64 (bodyStart + e_size current));
        r ← read_element current body r;
        mret (Next (u64 (bodyStart + e_size current)) r)
  end.

Definition walk (data : Bytes) (r : matroskaReader) : Probe matroskaReader := each data (walk_body data) 0 r.

Definition matroskaDuration (data : Bytes) : Probe (Z * Z) :=
  header ← readElement data;
  match header with
  | None => Refused "not an EBML document"
  | Some header =>
      let end_ := u64 (e_headerSize header + e_size header) in
      if negb (e_id header =? idEBML) || (e_size header =? unknownSize) || (size_of data <? end_)
      then Refused "not an EBML document"
      else
        headerBody ← slice data (e_headerSize header) end_;
        docType ← eachChild (fun child body docType => mret (if e_id child =? idDocType then text_of body else docType)) headerBody "";
        if negb (docType =s "webm") && negb (docType =s "matroska") then Refused "not WebM or Matroska"
        else
          rest ← from data end_;
          reader ← walk rest new_reader;
          if r_blocks reader =? 0 then Refused "no audio block"
          else mret (u64 (r_end reader - r_start reader), 1000000000)
  end.

(** * No fault, and an end, on any bytes *)

(** ** Boxes *)

Lemma box_at_ok data offset : 0 <= offset < size_of data ->
  yields (fun b => 8 <= b.1.2 <= b.2 /\ offset + b.2 <= size_of data) (box_at data offset).
Proof.
  intros Ho. unfold box_at. cbv zeta. destruct (Z.ltb_spec (size_of data - offset) 8); [apply yields_refused|].
  read yields_be32_at as size Hsize. read yields_slice as kind Hkind. unfold fits in Hsize.
  eapply (yields_bind (fun p => 8 <= p.2)).
  - destruct (size =? 0); [apply yields_ret; cbn; lia|]. destruct (size =? 1); [|apply yields_ret; cbn; lia].
    destruct (Z.ltb_spec (size_of data - offset) 16); [apply yields_refused|].
    eapply (yields_bind (fits 64)); [read yields_from as rest Hrest; apply yields_be64; lia|].
    intros large _. apply yields_ret. cbn. lia.
  - intros [size' header] Hh. cbn [snd] in Hh.
    destruct (Z.ltb_spec size' header), (Z.ltb_spec (size_of data - offset) size'); try apply yields_refused.
    apply yields_ret. cbn. lia.
Qed.

Lemma eachBox_yields {S} (I : S -> Prop) (visit : string -> Bytes -> S -> Probe S) data s :
  (forall kind body s, size_of body <= size_of data -> I s -> yields I (visit kind body s)) ->
  I s -> yields I (eachBox visit data s).
Proof.
  intros Hv Hs. unfold eachBox. apply each_yields; [|lia|done]. intros offset s' Ho Hs'.
  eapply yields_bind; [by apply box_at_ok|]. intros [[kind header] size] Hb. cbn [fst snd] in Hb.
  read yields_slice as body Hbody. eapply yields_bind; [apply Hv; [lia|exact Hs']|]. intros s'' Hs''.
  apply yields_ret. split; [lia|done].
Qed.

Lemma after_times_ok body what : yields (fits 32) (after_times body what).
Proof.
  unfold after_times. eapply (yields_bind (fun _ => True)).
  - destruct (Z.ltb_spec 0 (size_of body)); [|by apply yields_ret]. eapply yields_weaken, yields_at; [done|lia].
  - intros version _. cbv zeta. destruct (Z.ltb_spec (size_of body) ((if version =? 1 then 20 else 12) + 4)); [apply yields_refused|].
    apply yields_be32_at; [destruct (version =? 1); lia|lia].
Qed.

Lemma sum_entries_ok entries stts index total :
  0 <= index -> 8 + 8 * (index + Z.of_nat entries) <= size_of stts -> fits 64 total ->
  yields (fits 64) (sum_entries entries stts index total).
Proof.
  revert index total. induction entries as [|entries IH]; intros index total Hi Hs Ht; [by apply yields_ret|].
  cbn [sum_entries]. read yields_be32_at as count Hc. read yields_be32_at as delta Hd. unfold Mul64, Add64.
  destruct (_ || _); [apply yields_refused|]. apply IH; [lia|lia|apply u64_fits].
Qed.

Lemma mp4SampleTable_ok stts : yields (fits 64) (mp4SampleTable stts).
Proof.
  unfold mp4SampleTable. destruct (Z.ltb_spec (size_of stts) 8); [apply yields_refused|].
  read yields_be32_at as entries He. destruct (Z.ltb_spec (size_of stts) (8 + 8 * entries)); [apply yields_refused|].
  unfold fits in He. apply sum_entries_ok; [lia|lia|by vm_compute].
Qed.

Definition track_ok (t : mp4Track) : Prop := fits 64 (t_ticks t) /\ fits 32 (t_timescale t).

Lemma mp4ReadTrack_ok trak : yields track_ok (mp4ReadTrack trak).
Proof.
  unfold mp4ReadTrack. eapply (yields_bind track_ok).
  2: { intros track Ht. destruct (_ && _); [apply yields_refused|by apply yields_ret]. }
  apply eachBox_yields; [|by split; vm_compute]. intros kind body track _ [Ht Hs].
  destruct (kind =s "tkhd"); [eapply yields_bind; [apply after_times_ok|]; intros id _; by apply yields_ret|].
  destruct (kind =s "mdia"); [|by apply yields_ret].
  apply eachBox_yields; [|done]. clear. intros kind body' track _ [Ht Hs]. destruct (kind =s "hdlr").
  { eapply (yields_bind (fun _ => True)); [|intros sound _; by apply yields_ret].
    destruct (Z.leb_spec 12 (size_of body')); [|by apply yields_ret]. read yields_slice as mark Hm. by apply yields_ret. }
  destruct (kind =s "mdhd"); [eapply yields_bind; [apply after_times_ok|]; intros timescale Hn; by apply yields_ret|].
  destruct (kind =s "minf"); [|by apply yields_ret].
  apply eachBox_yields; [|done]. clear. intros kind body track _ Ht. destruct (negb _); [by apply yields_ret|].
  apply eachBox_yields; [|done]. clear. intros kind body' track _ [Ht Hs]. destruct (negb _); [by apply yields_ret|].
  eapply yields_bind; [apply mp4SampleTable_ok|]. intros ticks Hticks. by apply yields_ret.
Qed.

Lemma sum_samples_ok count trun at' stride total :
  0 <= at' -> 4 <= stride -> at' + stride * Z.of_nat count <= size_of trun -> fits 64 total ->
  yields (fits 64) (sum_samples count trun at' stride total).
Proof.
  revert at' total. induction count as [|count IH]; intros at' total Ha Hst Hs Ht; [by apply yields_ret|].
  cbn [sum_samples]. read yields_be32_at as duration Hd. apply IH; [lia|lia|lia|apply u64_fits].
Qed.

Lemma mp4Run_ok trun fallback : yields (fits 64) (mp4Run trun fallback).
Proof.
  unfold mp4Run. destruct (Z.ltb_spec (size_of trun) 8); [apply yields_refused|].
  read yields_be32 as flags Hf. cbv zeta. read yields_be32_at as count Hc. unfold fits in Hc.
  set (fl := Z.land flags 16777215).
  destruct (negb (flag fl 256)); [destruct (fallback =? 0); [apply yields_refused|apply yields_ret, u64_fits]|].
  set (at' := 8 + _ + _). set (stride := foldl _ 4 _).
  assert (8 <= at') by (unfold at'; destruct (flag fl 1), (flag fl 4); lia).
  assert (4 <= stride) by (unfold stride; cbn; destruct (flag fl 512), (flag fl 1024), (flag fl 2048); lia).
  clearbody at' stride. destruct (Z.ltb_spec (size_of trun) (at' + stride * count)); [apply yields_refused|].
  apply sum_samples_ok; [lia|lia|rewrite Z2Nat.id; lia|by vm_compute].
Qed.

Lemma fragment_box_ok id kind body g : fits 64 (g_total g) -> yields (fun g => fits 64 (g_total g)) (fragment_box id kind body g).
Proof.
  intros Hg. unfold fragment_box. destruct (kind =s "tfhd").
  - unfold fragment_header. destruct (Z.ltb_spec (size_of body) 8); [apply yields_refused|].
    read yields_be32 as flags Hf. cbv zeta. read yields_be32_at as track Ht. set (fl := Z.land flags 16777215).
    set (at' := 8 + _ + _). assert (8 <= at') by (unfold at'; destruct (flag fl 1), (flag fl 2); lia). clearbody at'.
    destruct (flag fl 8); [|by apply yields_ret]. destruct (Z.ltb_spec (size_of body) (at' + 4)); [apply yields_refused|].
    read yields_be32_at as fallback Hfb. by apply yields_ret.
  - destruct (kind =s "trun"); [|by apply yields_ret]. destruct (negb _); [by apply yields_ret|].
    eapply yields_bind; [apply mp4Run_ok|]. intros ticks _. apply yields_ret, u64_fits.
Qed.

Lemma mp4FragmentTicks_ok moof id d : yields (fits 64) (mp4FragmentTicks moof id d).
Proof.
  unfold mp4FragmentTicks. apply eachBox_yields; [|by vm_compute]. intros kind traf total _ Ht.
  destruct (negb _); [by apply yields_ret|]. eapply (yields_bind (fun g => fits 64 (g_total g))); [|intros g Hg; by apply yields_ret].
  apply eachBox_yields; [|done]. intros kind' body g _. apply fragment_box_ok.
Qed.

Lemma fragments_ticks_ok fragments id d ticks : fits 64 ticks -> yields (fits 64) (fragments_ticks fragments id d ticks).
Proof.
  revert ticks. induction fragments as [|fragment fragments IH]; intros ticks Ht; [by apply yields_ret|].
  cbn [fragments_ticks]. eapply yields_bind; [apply mp4FragmentTicks_ok|]. intros more _. unfold Add64.
  destruct (negb _); [apply yields_refused|]. apply IH, u64_fits.
Qed.

Lemma file_box_ok kind body m : Forall track_ok (m_tracks m) -> yields (fun m => Forall track_ok (m_tracks m)) (file_box kind body m).
Proof.
  intros Hm. unfold file_box. destruct (kind =s "moov"); [|destruct (kind =s "moof"); by apply yields_ret].
  apply eachBox_yields; [|done]. clear. intros kind body' m _ Hm. unfold movie_box. destruct (kind =s "trak").
  - eapply yields_bind; [apply mp4ReadTrack_ok|]. intros track Ht. apply yields_ret. cbn. apply Forall_app. by split; [|constructor].
  - destruct (kind =s "mvex"); [|by apply yields_ret]. apply eachBox_yields; [|done]. clear. intros kind body m _ Hm.
    unfold extends_box. destruct (kind =s "trex"); cbn [andb]; [|by apply yields_ret].
    destruct (Z.leb_spec 16 (size_of body)); [|by apply yields_ret].
    read yields_be32_at as track Ht. read yields_be32_at as duration Hd. by apply yields_ret.
Qed.

Lemma mp4Duration_ok data : yields measured (mp4Duration data).
Proof.
  unfold mp4Duration. eapply (yields_bind (fun m => Forall track_ok (m_tracks m))).
  { apply eachBox_yields; [|constructor]. intros kind body m _. apply file_box_ok. }
  intros m Hm. destruct (negb _); [apply yields_refused|].
  assert (Forall track_ok (List.filter t_sound (m_tracks m))) as Hf.
  { rewrite Forall_forall in *. intros t Ht%list_elem_of_In. apply filter_In in Ht as [Ht _]. by apply Hm, list_elem_of_In. }
  destruct (List.filter t_sound (m_tracks m)) as [|sound [|]]; try apply yields_refused.
  apply Forall_cons in Hf as [[Hticks Hscale] _]. eapply yields_bind; [by apply fragments_ticks_ok|]. intros ticks Ht.
  destruct (ticks =? 0); [apply yields_refused|]. apply yields_ret. split; [done|]. by apply (fits_weaken 32).
Qed.

(** ** Elements

    Sizes fit 56 bits and offsets stay below 2^62, so the sums of the two never
    wrap round. *)

Definition holdable_size (data : Bytes) : Prop := size_of data < 2 ^ 62.

Lemma shift_in_fits n value b : 0 <= n -> n + 8 <= 64 -> fits n value -> fits (n + 8) (shift_in value b).
Proof.
  intros Hn H64 Hv. unfold shift_in, fits in *. pose proof (byte_bound b). pose proof (shiftl_bound value 8 (n + 8) ltac:(lia)) as Hs.
  replace (n + 8 - 8) with n in Hs by lia. specialize (Hs Hv).
  pose proof (Z.pow_le_mono_r 2 (n + 8) 64 ltac:(lia) ltac:(lia)). unfold u64. rewrite Z.mod_small by lia.
  apply lor_bound; [lia|done|]. pose proof (Z.pow_le_mono_r 2 8 (n + 8) ltac:(lia) ltac:(lia)). lia.
Qed.

Lemma shift_all_fits l n value : 0 <= n -> n + 8 * Z.of_nat (length l) <= 64 -> fits n value ->
  fits (n + 8 * Z.of_nat (length l)) (foldl shift_in value l).
Proof.
  revert n value. induction l as [|b l IH]; intros n value Hn H64 Hv; cbn [foldl length] in *.
  - by replace (n + 8 * Z.of_nat 0) with n by lia.
  - replace (n + 8 * Z.of_nat (S (length l))) with (n + 8 + 8 * Z.of_nat (length l)) by lia.
    apply IH; [lia|lia|]. apply shift_in_fits; [lia|lia|done].
Qed.

Lemma readVint_ok data keepMarker :
  yields (fun v => match v with
    | Some (value, length_) => 1 <= length_ <= 8 /\ length_ <= size_of data /\ fits 64 value
        /\ (keepMarker = false -> fits (7 * length_) value)
    | None => True end) (readVint data keepMarker).
Proof.
  unfold readVint. pose proof (size_of_nonneg data). destruct (Z.eqb_spec (size_of data) 0); [by apply yields_ret|].
  read_byte lead. destruct (Z.eqb_spec lead 0) as [|Hne]; [by apply yields_ret|]. cbv zeta. unfold LeadingZeros8.
  rewrite (proj2 (Z.eqb_neq lead 0)) by done. unfold is_byte in *.
  assert (0 <= Z.log2 lead <= 7) as Hlog.
  { split; [apply Z.log2_nonneg|]. assert (Z.log2 lead < 8); [|lia]. apply Z.log2_lt_pow2; lia. }
  remember (7 - Z.log2 lead + 1) as l eqn:El. destruct (Z.ltb_spec 8 l), (Z.ltb_spec (size_of data) l); cbn [orb]; try by apply yields_ret.
  read yields_slice as rest Hrest. apply yields_ret. split; [lia|]. split; [lia|].
  assert (fits (8 - l) (Z.land lead (Z.shiftr 255 l))) as Hm.
  { assert (Z.shiftr 255 l = Z.ones (8 - l)) as ->.
    { assert (1 <= l <= 8) as Hl by lia. clear - Hl.
      assert (l = 1 \/ l = 2 \/ l = 3 \/ l = 4 \/ l = 5 \/ l = 6 \/ l = 7 \/ l = 8) as H by lia.
      repeat destruct H as [->|H]; try done. by subst. }
    apply land_ones_bound. lia. }
  unfold size_of in Hrest. pose proof (shift_all_fits rest) as Hs. rewrite Hrest in Hs.
  assert (Hbits : keepMarker = false -> fits (7 * l) (foldl shift_in (Z.land lead (Z.shiftr 255 l)) rest)).
  { intros _. specialize (Hs (8 - l) _ ltac:(lia) ltac:(lia) Hm). by replace (8 - l + 8 * (l - 1)) with (7 * l) in Hs by lia. }
  destruct keepMarker.
  - split; [|done]. specialize (Hs 8 lead ltac:(lia) ltac:(lia) ltac:(unfold fits; lia)). eapply fits_weaken; [|exact Hs]. lia.
  - split; [eapply fits_weaken; [|by apply Hbits]; lia|done].
Qed.

Definition element_ok (data : Bytes) (e : element) : Prop :=
  2 <= e_headerSize e <= size_of data /\ (e_size e = unknownSize \/ fits 56 (e_size e)).

Lemma readElement_ok data :
  yields (fun e => match e with Some e => element_ok data e | None => True end) (readElement data).
Proof.
  unfold readElement. eapply yields_bind; [apply readVint_ok|]. intros [[id idLength]|]; [|intros _; by apply yields_ret].
  intros (Hl & Hls & _ & _). destruct (4 <? idLength); [by apply yields_ret|].
  read yields_from as rest Hrest. eapply yields_bind; [apply readVint_ok|]. intros [[size sizeLength]|]; [|intros _; by apply yields_ret].
  intros (Hsl & Hsls & _ & Hbits). apply yields_ret. split; cbn; [lia|]. destruct (size =? _); [by left|right].
  eapply fits_weaken; [|by apply Hbits]. lia.
Qed.

(** The end of an element that was checked against the upload. *)
Lemma element_end data offset e : holdable_size data -> 0 <= offset -> element_ok data e -> offset + e_headerSize e <= size_of data ->
  e_size e <> unknownSize -> u64 (offset + e_headerSize e + e_size e) = offset + e_headerSize e + e_size e /\ 0 <= e_size e.
Proof.
  unfold holdable_size. intros Hd Ho [Hh [Hs|Hs]] Hle Hne; [done|]. unfold fits in Hs. split; [|lia].
  unfold u64. apply Z.mod_small. lia.
Qed.

Lemma eachChild_yields {S} (I : S -> Prop) (visit : element -> Bytes -> S -> Probe S) body s :
  holdable_size body ->
  (forall child value s, size_of value <= size_of body -> I s -> yields I (visit child value s)) ->
  I s -> yields I (eachChild visit body s).
Proof.
  intros Hd Hv Hs. unfold eachChild. apply each_yields; [|lia|done]. intros offset s' Ho Hs'.
  read yields_from as rest Hrest. eapply yields_bind; [apply readElement_ok|].
  intros [child|] Hc; [|apply yields_refused]. destruct Hc as [Hh Hsz].
  destruct (Z.eqb_spec (e_size child) unknownSize); [apply yields_refused|]. cbn [orb].
  destruct (element_end body offset child Hd ltac:(lia) (conj (ltac:(lia) : 2 <= e_headerSize child <= size_of body) Hsz) ltac:(lia) ltac:(done)) as [-> Hnn].
  destruct (Z.ltb_spec (size_of body) (offset + e_headerSize child + e_size child)); [apply yields_refused|]. cbv zeta.
  read yields_slice as value Hvalue. eapply yields_bind; [apply Hv; [lia|exact Hs']|]. intros s'' Hs''. apply yields_ret.
  split; [lia|done].
Qed.

Lemma opusPacketDuration_ok packet : yields (fun _ => True) (opusPacketDuration packet).
Proof.
  unfold opusPacketDuration. pose proof (size_of_nonneg packet). destruct (Z.eqb_spec (size_of packet) 0); [by apply yields_ret|].
  read_byte toc. cbv zeta. eapply (yields_bind (fun _ => True)).
  - pose proof (Z.mod_pos_bound (Z.shiftr toc 3) 4 ltac:(lia)). pose proof (Z.mod_pos_bound (Z.shiftr toc 3) 2 ltac:(lia)).
    assert (forall A (l : list A), Forall (fun _ => True) l) as Hall by (intros A l; by apply Forall_true).
    destruct (_ <? 12); [|destruct (_ <? 16)]; apply yields_entry; cbn; auto; lia.
  - intros frame _. destruct (_ || _); [by apply yields_ret|]. destruct (_ =? 3); [|by apply yields_ret].
    destruct (Z.ltb_spec (size_of packet) 2); [by apply yields_ret|]. read_byte second. destruct (_ =? 0); by apply yields_ret.
Qed.

Lemma block_duration_ok audio scale lacing frames group : yields (fun _ => True) (block_duration audio scale lacing frames group).
Proof.
  unfold block_duration, Mul64. destruct group as [ticks|]; [destruct (negb _); [apply yields_refused|by apply yields_ret]|].
  destruct (_ && (0 <? a_defaultDuration audio)); [by apply yields_ret|].
  destruct (negb (lacing =? 0) && (0 <? a_defaultDuration audio)); cbn [andb].
  - destruct (Z.ltb_spec 0 (size_of frames)); [read_byte count; by apply yields_ret|].
    destruct (_ && _); [|apply yields_refused]. eapply yields_bind; [apply opusPacketDuration_ok|]. by intros [d|] _.
  - destruct (_ && _); [|apply yields_refused]. eapply yields_bind; [apply opusPacketDuration_ok|]. by intros [d|] _.
Qed.

Lemma read_block_ok body group r : yields (fun _ => True) (read_block body group r).
Proof.
  unfold read_block. destruct (r_audio r) as [audio|]; [|apply yields_refused].
  eapply yields_bind; [apply readVint_ok|]. intros [[track l]|]; [|intros _; apply yields_refused].
  intros (Hl & Hls & _ & _). destruct (Z.ltb_spec (size_of body) (l + 3)); [apply yields_refused|].
  destruct (negb _); [by apply yields_ret|]. destruct (negb _); [apply yields_refused|].
  read yields_from as rest Hrest. read yields_be16 as stamp Hstamp. read_byte flags. read yields_from as frames Hframes.
  destruct (r_scale r =? 0); [apply yields_refused|]. cbv zeta. destruct (_ <? 0); [apply yields_refused|]. unfold Mul64.
  destruct (negb _); [apply yields_refused|]. eapply yields_bind; [apply block_duration_ok|]. intros d _. by apply yields_ret.
Qed.

Lemma read_element_ok current body r : holdable_size body -> yields (fun _ => True) (read_element current body r).
Proof.
  intros Hb. unfold read_element. cbv zeta.
  destruct (_ =? idInfo); [apply eachChild_yields; [done| |done]; intros; by apply yields_ret|].
  destruct (_ =? idTrackEntry).
  { unfold trackEntry. eapply (yields_bind (fun _ => True)).
    - apply eachChild_yields; [done| |done]. intros child value [track trackType] _ _. by apply yields_ret.
    - intros [track trackType] _. destruct (negb _); [by apply yields_ret|]. destruct (r_audio r); [apply yields_refused|by apply yields_ret]. }
  destruct (_ =? idTimecode); [by apply yields_ret|]. destruct (_ =? idSimpleBlock); [apply read_block_ok|].
  destruct (_ =? idBlockGroup); [|by apply yields_ret]. eapply (yields_bind (fun _ => True)).
  - apply eachChild_yields; [done| |done]. intros child value s _ _. by apply yields_ret.
  - intros [[block|] duration] _; [apply read_block_ok|apply yields_refused].
Qed.

Lemma walk_ok data r : holdable_size data -> yields (fun _ => True) (walk data r).
Proof.
  intros Hd. unfold walk. apply each_yields; [|lia|done]. intros offset r' Ho _. unfold walk_body.
  read yields_from as rest Hrest. eapply yields_bind; [apply readElement_ok|]. intros [current|] Hc; [|apply yields_refused].
  destruct Hc as [Hh Hsz]. cbv zeta.
  destruct (_ || _); [apply yields_ret; split; [lia|done]|]. destruct (_ =? idCluster); [apply yields_ret; split; [lia|done]|].
  destruct (Z.eqb_spec (e_size current) unknownSize); [apply yields_refused|]. cbn [orb].
  destruct (element_end data offset current Hd ltac:(lia) (conj (ltac:(lia) : 2 <= e_headerSize current <= size_of data) Hsz) ltac:(lia) ltac:(done)) as [-> Hnn].
  destruct (Z.ltb_spec (size_of data) (offset + e_headerSize current + e_size current)); [apply yields_refused|].
  read yields_slice as body Hbody. eapply yields_bind; [apply read_element_ok; unfold holdable_size in *; lia|].
  intros r'' _. apply yields_ret. split; [lia|done].
Qed.

Lemma matroskaDuration_ok data : holdable_size data -> yields measured (matroskaDuration data).
Proof.
  intros Hd. unfold matroskaDuration. eapply yields_bind; [apply readElement_ok|]. intros [header|] Hh; [|apply yields_refused].
  pose proof Hh as [Hhs _]. cbv zeta. destruct (negb _); [apply yields_refused|].
  destruct (Z.eqb_spec (e_size header) unknownSize); [apply yields_refused|]. cbn [orb].
  destruct (element_end data 0 header Hd ltac:(lia) Hh ltac:(lia) ltac:(done)) as [He Hnn]. rewrite Z.add_0_l in He. rewrite He.
  destruct (Z.ltb_spec (size_of data) (e_headerSize header + e_size header)); [apply yields_refused|].
  read yields_slice as headerBody Hbody. eapply (yields_bind (fun _ => True)).
  { apply eachChild_yields; [unfold holdable_size in *; lia| |done]. intros; by apply yields_ret. }
  intros docType _. destruct (_ && _); [apply yields_refused|]. read yields_from as rest Hrest.
  eapply yields_bind; [apply walk_ok; unfold holdable_size in *; lia|]. intros reader _. destruct (_ =? 0); [apply yields_refused|].
  apply yields_ret. split; [apply u64_fits|by vm_compute].
Qed.
