(* ===== verification/AudioProbe.v ===== *)
(** * How long an upload plays (internal/audioprobe/probe.go)

    [Milliseconds] over the containers of AudioFrames.v and AudioBoxes.v: the
    measure a customer is charged a transcription by.  The theorems are that it
    answers on every upload, within its cap, what its container's parser reads
    rounded up, and that for the containers whose streams can be described from
    outside (WAV and ADTS) it reads exactly the audio they hold.  That a parser
    reads what its container states is not claimed of the others, and the last
    Examples show where it does not: sums that wrap at 64 bits. *)

From S2P Require Import Prelude Ids Text Base64 AudioBytes AudioFrames AudioBoxes.
Open Scope Z_scope.

(** The units a container states, and how many a second has. *)
Definition duration_of (mediaType : string) (data : Bytes) : Probe (Z * Z) :=
  if mediaType =s "audio/wav" then wavDuration data
  else if mediaType =s "audio/flac" then data ← skipID3v2 data; flacDuration data
  else if mediaType =s "audio/mpeg" then mpegDuration data
  else if mediaType =s "audio/aac" then data ← skipID3v2 data; adtsDuration data
  else if mediaType =s "audio/ogg" then oggDuration data
  else if mediaType =s "audio/webm" then matroskaDuration data
  else if mediaType =s "audio/mp4" then mp4Duration data
  else if mediaType =s "audio/pcm" then Refused "raw PCM carries no sample rate or channel count, and the media type names none"
  else Refused "not an audio media type a transcription takes".

Definition Milliseconds (mediaType : string) (data : Bytes) : Probe Z :=
  '(units, perSecond) ← duration_of mediaType data;
  if perSecond =? 0 then Refused "the container states no rate"
  else match ceilMillis units perSecond with
  | None => Refused "the container states a duration past the cap"
  | Some milliseconds =>
      if MaxMilliseconds <? milliseconds then Refused "the container states a duration past the cap" else mret milliseconds
  end.

(** * Every upload is measured or refused *)

Lemma duration_of_ok mediaType data : holdable_size data -> yields measured (duration_of mediaType data).
Proof.
  intros Hd. unfold duration_of.
  destruct (_ =s "audio/wav"); [apply wavDuration_ok|].
  destruct (_ =s "audio/flac"); [eapply yields_bind; [apply yields_skipID3v2|]; intros rest _; apply flacDuration_ok|].
  destruct (_ =s "audio/mpeg"); [apply mpegDuration_ok|].
  destruct (_ =s "audio/aac"); [eapply yields_bind; [apply yields_skipID3v2|]; intros rest _; apply adtsDuration_ok|].
  destruct (_ =s "audio/ogg"); [apply oggDuration_ok|].
  destruct (_ =s "audio/webm"); [by apply matroskaDuration_ok|].
  destruct (_ =s "audio/mp4"); [apply mp4Duration_ok|].
  destruct (_ =s "audio/pcm"); apply yields_refused.
Qed.

(** What is rounded up to milliseconds. *)
Definition rounded_up (units perSecond : Z) : Z := - (- (units * 1000) / perSecond).

(** C31. Whatever bytes are uploaded under whatever media type, measuring them
    ends without a fault: no index or slice is out of range, no division is by
    zero and no loop stands still.  It refuses them, which it never does of a
    stream whose parser reads a rate and a duration within the cap, or answers a
    duration within the cap: the units over the rate that the parser of its
    container reads, rounded up to the millisecond, except that 2^64 ms, one
    past what the sum holds, is answered as none. *)
Theorem every_upload_is_measured_or_refused mediaType data :
  holdable_size data ->
  (exists why, Milliseconds mediaType data = Refused why /\
     forall units perSecond, duration_of mediaType data = Ok (units, perSecond) ->
       perSecond = 0 \/ MaxMilliseconds < rounded_up units perSecond) \/
  exists ms units perSecond,
    Milliseconds mediaType data = Ok ms /\ 0 <= ms <= MaxMilliseconds /\
    duration_of mediaType data = Ok (units, perSecond) /\ 0 < perSecond /\
    (ms = rounded_up units perSecond \/ ms = 0 /\ rounded_up units perSecond = 2 ^ 64).
Proof.
  intros Hd. pose proof (duration_of_ok mediaType data Hd) as Hm. unfold Milliseconds.
  destruct (duration_of mediaType data) as [[units perSecond]|why| |]; [|left; by exists why|done|done].
  destruct Hm as [Hu Hp]. unfold fits in *. cbn [fst snd mbind Probe_bind] in *.
  destruct (Z.eqb_spec perSecond 0) as [->|]; [left; eexists; split; [done|intros ? ? [= <- <-]; by left]|].
  rewrite ceilMillis_exact by lia. change (- (- (units * 1000) / perSecond)) with (rounded_up units perSecond).
  assert (0 <= rounded_up units perSecond) as Hr by (unfold rounded_up; Z.to_euclidean_division_equations; nia).
  assert (MaxMilliseconds < 2 ^ 64) as Hmax by done.
  destruct (Z.leb_spec (2 ^ 64 * perSecond) (units * 1000)) as [Hge|Hlt].
  { left. eexists. split; [done|]. intros ? ? [= <- <-]. right. unfold rounded_up. Z.to_euclidean_division_equations; nia. }
  assert (rounded_up units perSecond <= 2 ^ 64) as Hr' by (unfold rounded_up; Z.to_euclidean_division_equations; nia).
  pose proof (u64_fits (rounded_up units perSecond)) as Hf. unfold fits in Hf.
  destruct (Z.ltb_spec MaxMilliseconds (u64 (rounded_up units perSecond))) as [Hover|Hcap].
  { left. eexists. split; [done|]. intros ? ? [= <- <-]. right. pose proof (Z.mod_le (rounded_up units perSecond) (2 ^ 64) Hr). unfold u64 in Hover. lia. }
  right. exists (u64 (rounded_up units perSecond)), units, perSecond. split_and!; try done; try lia. unfold u64.
  destruct (Z.eq_dec (rounded_up units perSecond) (2 ^ 64)) as [->|]; [by right; vm_compute|left].
  apply Z.mod_small. lia.
Qed.

(** * Streams described from outside *)

(** A loop over a file made of records reads them in order; the last may end
    the loop itself. *)
Lemma scan_records {S R} (I : S -> Prop) (enc : R -> Bytes) (f : R -> S -> S) guard body data rs :
  (forall offset, guard offset = true -> offset < size_of data) ->
  (forall pre r post s, data = pre ++ enc r ++ post -> r ∈ rs -> I s ->
    guard (size_of pre) = true /\ 0 < size_of (enc r) /\ I (f r s) /\
    (body (size_of pre) s = Ok (Next (size_of pre + size_of (enc r)) (f r s))
     \/ post = [] /\ body (size_of pre) s = Ok (Leave (f r s)))) ->
  forall fuel pre tail s, rs = pre.2 ++ tail -> data = pre.1 ++ flat_map enc tail ->
    size_of data - size_of pre.1 <= Z.of_nat fuel -> I s ->
    scan fuel guard body (size_of pre.1) s = Ok (foldl (fun s r => f r s) s tail).
Proof.
  intros Hg Hb fuel. induction fuel as [|fuel IH]; intros [pre done_] tail s Hrs Hdata Hf Hs; cbn [fst snd] in *.
  - assert (size_of (flat_map enc tail) = 0) as Hnil.
    { pose proof (size_of_nonneg (flat_map enc tail)). rewrite Hdata in Hf. unfold size_of in *. rewrite length_app in Hf. lia. }
    destruct tail as [|r tail].
    + cbn. destruct (guard (size_of pre)) eqn:E; [|done]. apply Hg in E. rewrite Hdata in E. cbn in E. rewrite app_nil_r in E. lia.
    + exfalso. destruct (Hb pre r (flat_map enc tail) s Hdata) as (_ & Hpos & _); [rewrite Hrs; set_solver|done|].
      cbn [flat_map] in Hnil. unfold size_of in *. rewrite length_app in Hnil. lia.
  - cbn [scan]. destruct tail as [|r tail].
    + destruct (guard (size_of pre)) eqn:E; [|done]. apply Hg in E. rewrite Hdata in E. cbn in E. rewrite app_nil_r in E. lia.
    + destruct (Hb pre r (flat_map enc tail) s Hdata) as (-> & Hpos & HI & Hstep); [rewrite Hrs; set_solver|done|].
      cbn [foldl]. destruct Hstep as [-> |[Hpost ->]]; cbn [mbind Probe_bind].
      * replace (size_of pre + size_of (enc r)) with (size_of (pre ++ enc r)) by (unfold size_of; rewrite length_app; lia).
        apply (IH (pre ++ enc r, done_ ++ [r])); cbn [fst snd]; [by rewrite <-app_assoc|by rewrite <-app_assoc| |done].
        unfold size_of in *. rewrite length_app. lia.
      * destruct tail as [|r' tail]; [done|]. exfalso.
        destruct (Hb (pre ++ enc r) r' (flat_map enc tail) (f r s)) as (_ & Hpos' & _); [|rewrite Hrs; set_solver|done|].
        { rewrite Hdata. cbn [flat_map]. by rewrite <-!app_assoc. }
        cbn [flat_map] in Hpost. unfold size_of in Hpos'. apply app_nil in Hpost as [Hpost _]. rewrite Hpost in Hpos'. done.
Qed.

(** ** Reads of what was written *)

Definition ascii_of (z : Z) : ascii := Ascii.ascii_of_N (Z.to_N z).

Lemma byte_ascii_of z : is_byte z -> byte (ascii_of z) = z.
Proof. intros Hz. unfold byte, ascii_of, is_byte in *. rewrite Ascii.N_ascii_embedding; lia. Qed.

Lemma at_lookup data i c : 0 <= i -> data !! Z.to_nat i = Some c -> at_ data i = Ok (byte c).
Proof.
  intros Hi Hc. unfold at_. apply lookup_lt_Some in Hc as Hl. rewrite (proj2 (andb_true_iff _ _)); [by rewrite Hc|].
  unfold size_of. lia.
Qed.

(** Reads of bytes written out. *)
Ltac at_known := repeat (erewrite at_lookup; [|lia|reflexivity]; cbn [mbind Probe_bind]).

Lemma from_app (pre post : Bytes) i : i = size_of pre -> from (pre ++ post) i = Ok post.
Proof.
  intros ->. unfold from, size_of. rewrite length_app. rewrite (proj2 (andb_true_iff _ _)) by (split; apply Z.leb_le; lia).
  by rewrite Nat2Z.id, drop_app_length.
Qed.

Lemma slice_app (pre part post : Bytes) lo hi : lo = size_of pre -> hi = size_of pre + size_of part ->
  slice (pre ++ part ++ post) lo hi = Ok part.
Proof.
  intros -> ->. unfold slice, size_of. rewrite !length_app.
  rewrite (proj2 (Z.leb_le _ _)), (proj2 (Z.leb_le _ _)), (proj2 (Z.leb_le _ _)) by lia. cbn.
  rewrite Nat2Z.id, drop_app_length. replace (Z.to_nat _) with (length part) by lia. by rewrite take_app_length.
Qed.

Definition le16_bytes (n : Z) : Bytes := [ascii_of (n mod 256); ascii_of (n / 256)].
Definition le32_bytes (n : Z) : Bytes :=
  [ascii_of (n mod 256); ascii_of (n / 256 mod 256); ascii_of (n / 65536 mod 256); ascii_of (n / 16777216)].

Lemma le16_written n rest : fits 16 n -> le16 (le16_bytes n ++ rest) = Ok n.
Proof.
  unfold fits. intros Hn. unfold le16, le16_bytes. cbn [app]. at_known. cbn.
  rewrite !byte_ascii_of by (unfold is_byte; Z.to_euclidean_division_equations; lia). f_equal.
  rewrite Z.lor_comm, lor_below by (Z.to_euclidean_division_equations; lia). Z.to_euclidean_division_equations; lia.
Qed.

Lemma le32_written n rest : fits 32 n -> le32 (le32_bytes n ++ rest) = Ok n.
Proof.
  unfold fits. intros Hn. unfold le32, le32_bytes. cbn [app]. at_known. cbn.
  rewrite !byte_ascii_of by (unfold is_byte; Z.to_euclidean_division_equations; lia). f_equal.
  rewrite Z.lor_comm, (Z.lor_comm _ (Z.shiftl (n / 65536 mod 256) 16)), (Z.lor_comm _ (Z.shiftl (n / 256 mod 256) 8)).
  assert (H0 : 0 <= n mod 256 < 2 ^ 8) by (Z.to_euclidean_division_equations; lia).
  assert (H1 : 0 <= n / 256 mod 256 < 2 ^ 8) by (Z.to_euclidean_division_equations; lia).
  assert (H2 : 0 <= n / 65536 mod 256 < 2 ^ 8) by (Z.to_euclidean_division_equations; lia).
  rewrite (lor_below (n / 256 mod 256) _ 8) by lia.
  rewrite (lor_below (n / 65536 mod 256) _ 16) by lia. rewrite (lor_below (n / 16777216) _ 24) by lia.
  Z.to_euclidean_division_equations; lia.
Qed.

(** ** WAV files

    A file is its chunks in order, each padded to an even length. *)

Definition pad_of (body : Bytes) : Bytes := if Z.odd (size_of body) then ["000"%char] else [].

Definition wav_record (chunk : string * Bytes) : Bytes :=
  String.list_ascii_of_string chunk.1 ++ le32_bytes (size_of chunk.2) ++ chunk.2 ++ pad_of chunk.2.

Definition wav_file (riffSize : Z) (chunks : list (string * Bytes)) : Bytes :=
  (String.list_ascii_of_string "RIFF" ++ le32_bytes riffSize ++ String.list_ascii_of_string "WAVE") ++ flat_map wav_record chunks.

Record Format := mkFormat { fmt_tag : Z; fmt_channels : Z; fmt_rate : Z; fmt_byteRate : Z; fmt_align : Z; fmt_bits : Z }.

Definition fmt_body (f : Format) : Bytes :=
  le16_bytes (fmt_tag f) ++ le16_bytes (fmt_channels f) ++ le32_bytes (fmt_rate f) ++ le32_bytes (fmt_byteRate f)
  ++ le16_bytes (fmt_align f) ++ le16_bytes (fmt_bits f).

(** A format whose samples take what their block alignment says: PCM, float,
    A-law or mu-law. *)
Definition uncompressed (f : Format) : Prop :=
  fmt_tag f ∈ [1; 3; 6; 7] /\ fits 32 (fmt_rate f) /\ 0 < fmt_rate f /\ fits 16 (fmt_align f) /\ 0 < fmt_align f.

(** The chunks of a file of that format: any number of others around it. *)
Definition chunk_of (f : Format) (chunk : string * Bytes) : Prop :=
  String.length chunk.1 = 4%nat /\ fits 32 (size_of chunk.2) /\ chunk.1 <> "fact" /\
  (chunk.1 = "fmt " -> exists extra, chunk.2 = fmt_body f ++ extra).

Definition chunk_read (f : Format) (chunk : string * Bytes) (w : WavRead) : WavRead :=
  if chunk.1 =s "fmt " then set_format (fmt_tag f) (fmt_rate f) (fmt_align f) w
  else if chunk.1 =s "data" then set_data (size_of chunk.2) w else w.

Lemma size_of_app (a b : Bytes) : size_of (a ++ b) = size_of a + size_of b.
Proof. unfold size_of. rewrite length_app. lia. Qed.

Lemma size_text s : size_of (String.list_ascii_of_string s) = Z.of_nat (String.length s).
Proof. unfold size_of. induction s as [|c s IH]; [done|]. cbn [String.list_ascii_of_string length String.length]. lia. Qed.

Lemma size_record chunk : size_of (wav_record chunk)
  = Z.of_nat (String.length chunk.1) + 4 + size_of chunk.2 + size_of (pad_of chunk.2).
Proof. unfold wav_record. rewrite !size_of_app, size_text. unfold le32_bytes. change (size_of [_; _; _; _]) with 4. lia. Qed.

Lemma size_pad body : size_of (pad_of body) = Z.land (size_of body) 1.
Proof.
  unfold pad_of. rewrite (Z.land_ones _ 1) by lia. change (2 ^ 1) with 2. rewrite Zmod_odd. by destruct (Z.odd (size_of body)).
Qed.

Lemma size_le32 n : size_of (le32_bytes n) = 4.
Proof. done. Qed.

Lemma size_fmt f : size_of (fmt_body f) = 16.
Proof. done. Qed.

Lemma fmt_chunk_read f extra rest : uncompressed f ->
  le16 ((fmt_body f ++ extra) ++ rest) = Ok (fmt_tag f) /\
  le32_at ((fmt_body f ++ extra) ++ rest) 4 = Ok (fmt_rate f) /\
  le16_at ((fmt_body f ++ extra) ++ rest) 12 = Ok (fmt_align f).
Proof.
  intros (Htag & Hrate & _ & Halign & _). unfold fmt_body, le32_at, le16_at. rewrite <-!app_assoc. split_and!.
  - apply le16_written. unfold fits. rewrite !elem_of_cons, elem_of_nil in Htag. lia.
  - rewrite (app_assoc (le16_bytes (fmt_tag f))), from_app by done. cbn [mbind Probe_bind]. by apply le32_written.
  - rewrite (app_assoc (le16_bytes (fmt_tag f))), (app_assoc _ (le32_bytes (fmt_rate f))), (app_assoc _ (le32_bytes (fmt_byteRate f))), from_app by done.
    cbn [mbind Probe_bind]. by apply le16_written.
Qed.

(** One chunk of a file, read where it lies. *)
Lemma wav_chunk_read f pre chunk post w :
  uncompressed f -> chunk_of f chunk ->
  wav_chunk (pre ++ wav_record chunk ++ post) chunk.1 (size_of chunk.2) (size_of pre + 8)
    (size_of chunk.2 + size_of (pad_of chunk.2) + size_of post) w = Ok (chunk_read f chunk w).
Proof.
  intros Hf (Hid & Hsize & Hfact & Hfmt). destruct chunk as [id body]. cbn [fst snd] in *. unfold wav_chunk, chunk_read. cbn [fst snd].
  pose proof (size_of_nonneg (pad_of body)). pose proof (size_of_nonneg post).
  destruct (String.eqb_spec id "fmt ") as [->|Hnf].
  - destruct Hfmt as [extra ->]; [done|]. set (body := fmt_body f ++ extra) in *.
    assert (16 <= size_of body) by (unfold body; rewrite size_of_app, size_fmt; pose proof (size_of_nonneg extra); lia).
    rewrite (proj2 (Z.ltb_ge _ _)), (proj2 (Z.ltb_ge _ _)) by lia. cbn [orb].
    assert (from (pre ++ wav_record ("fmt ", body) ++ post) (size_of pre + 8) = Ok (body ++ pad_of body ++ post)) as ->.
    { unfold wav_record. cbn [fst snd]. rewrite <-!app_assoc.
      rewrite (app_assoc pre), (app_assoc (pre ++ _)). apply from_app. rewrite !size_of_app, size_text, size_le32, Hid. lia. }
    destruct (fmt_chunk_read f extra (pad_of body ++ post) Hf) as (E1 & E2 & E3).
    change (fmt_body f ++ extra) with body in E1, E2, E3. cbn [mbind Probe_bind]. rewrite E1. cbn [mbind Probe_bind].
    rewrite E2. cbn [mbind Probe_bind]. rewrite E3. cbn [mbind Probe_bind].
    destruct Hf as (Htag & _). assert (fmt_tag f =? WAVE_FORMAT_EXTENSIBLE = false) as ->; [|done].
    rewrite !elem_of_cons, elem_of_nil in Htag. unfold WAVE_FORMAT_EXTENSIBLE. lia.
  - rewrite (proj2 (String.eqb_neq id "fact") Hfact). destruct (id =s "data"); [|done].
    by rewrite Z.min_l by lia.
Qed.

Lemma wav_body_read f pre chunk post w :
  uncompressed f -> chunk_of f chunk ->
  let data := pre ++ wav_record chunk ++ post in
  wav_body data (size_of pre) w = Ok (Next (size_of pre + size_of (wav_record chunk)) (chunk_read f chunk w))
  \/ post = [] /\ wav_body data (size_of pre) w = Ok (Leave (chunk_read f chunk w)).
Proof.
  intros Hf Hc data. pose proof Hc as (Hid & Hsize & _). unfold wav_body.
  assert (slice data (size_of pre) (size_of pre + 4) = Ok (String.list_ascii_of_string chunk.1)) as ->.
  { unfold data, wav_record. rewrite <-!app_assoc. apply slice_app; [done|]. rewrite size_text. lia. }
  cbn [mbind Probe_bind].
  assert (le32_at data (size_of pre + 4) = Ok (size_of chunk.2)) as ->.
  { unfold le32_at, data, wav_record. rewrite <-!app_assoc, (app_assoc pre), from_app by (rewrite size_of_app, size_text; lia).
    cbn [mbind Probe_bind]. by apply le32_written. }
  cbn [mbind Probe_bind]. cbv zeta. unfold text_of. rewrite String.string_of_list_ascii_of_string.
  assert (size_of data - (size_of pre + 8) = size_of chunk.2 + size_of (pad_of chunk.2) + size_of post) as ->.
  { unfold data. rewrite !size_of_app, size_record. lia. }
  unfold data. rewrite (wav_chunk_read f) by done. cbn [mbind Probe_bind].
  destruct (Z.leb_spec (size_of chunk.2 + size_of (pad_of chunk.2) + size_of post) (size_of chunk.2)) as [Hle|Hgt].
  - right. split; [|done]. pose proof (size_of_nonneg (pad_of chunk.2)). destruct post as [|c post]; [done|].
    unfold size_of in *. cbn [length] in Hle. lia.
  - left. do 2 f_equal. rewrite size_record, size_pad. lia.
Qed.

(** The reading of a file's chunks. *)
Lemma wav_scan f riffSize chunks :
  uncompressed f -> Forall (chunk_of f) chunks ->
  let data := wav_file riffSize chunks in
  scan (length data) (fun offset => offset + 8 <=? size_of data) (wav_body data) 12 no_wav
  = Ok (foldl (fun w chunk => chunk_read f chunk w) no_wav chunks).
Proof.
  intros Hf Hall data. set (header := String.list_ascii_of_string "RIFF" ++ le32_bytes riffSize ++ String.list_ascii_of_string "WAVE").
  change 12 with (size_of header).
  apply (scan_records (fun _ => True) wav_record (chunk_read f) _ _ data chunks) with (pre := (header, [])); try done.
  - intros offset. lia.
  - intros pre chunk post w Hdata Hin _. rewrite Forall_forall in Hall. specialize (Hall chunk Hin).
    pose proof Hall as (Hid & _). pose proof (size_record chunk) as Hr. rewrite Hid in Hr.
    pose proof (size_of_nonneg chunk.2). pose proof (size_of_nonneg (pad_of chunk.2)). pose proof (size_of_nonneg post).
    split; [apply Z.leb_le; rewrite Hdata, !size_of_app; lia|]. split; [lia|]. split; [done|].
    rewrite Hdata. by apply wav_body_read.
  - cbn [fst]. pose proof (size_of_nonneg header). unfold size_of in *. lia.
Qed.

Lemma wav_fold_format f chunks w :
  (w_haveFormat w = true /\ w_format w = fmt_tag f /\ w_rate w = fmt_rate f /\ w_blockAlign w = fmt_align f)
    \/ "fmt " ∈ chunks.*1 ->
  let w' := foldl (fun w chunk => chunk_read f chunk w) w chunks in
  w_haveFormat w' = true /\ w_format w' = fmt_tag f /\ w_rate w' = fmt_rate f /\ w_blockAlign w' = fmt_align f.
Proof.
  revert w. induction chunks as [|[id body] chunks IH]; intros w Hw; cbn [foldl].
  { destruct Hw as [Hw|Hw]; [done|]. by apply not_elem_of_nil in Hw. }
  apply IH. unfold chunk_read. cbn [fst snd fmap list_fmap] in *. destruct (String.eqb_spec id "fmt "); [by left|].
  destruct Hw as [Hw|Hw]; [left; by destruct (id =s "data")|]. apply elem_of_cons in Hw as [<-|Hw]; [done|by right].
Qed.

Lemma wav_fold_data f chunks w samples :
  (w_haveData w = true /\ w_dataBytes w = size_of samples /\ Forall (fun chunk => chunk.1 <> "data") chunks)
    \/ (exists before after, chunks = before ++ ("data", samples) :: after /\ Forall (fun chunk => chunk.1 <> "data") after) ->
  let w' := foldl (fun w chunk => chunk_read f chunk w) w chunks in w_haveData w' = true /\ w_dataBytes w' = size_of samples.
Proof.
  revert w. induction chunks as [|[id body] chunks IH]; intros w Hw; cbn [foldl].
  { destruct Hw as [(? & ? & _)|(before & after & Hb & _)]; [done|]. by destruct before. }
  apply IH. unfold chunk_read. cbn [fst snd].
  destruct Hw as [(Hd & Hs & Hn)|([|chunk before] & after & Hb & Ha)].
  - apply Forall_cons in Hn as [Hid Hn]. left. cbn in Hid. destruct (id =s "fmt "); [done|].
    by rewrite (proj2 (String.eqb_neq id "data")).
  - cbn in Hb. simplify_eq. left. done.
  - cbn in Hb. simplify_eq. right. by exists before, after.
Qed.


(** ** AAC streams

    A stream is its ADTS frames in order, each naming the rate, its length in
    13 bits and the blocks of 1024 samples it holds. *)

Record AdtsFrame := mkAdts { af_blocks : Z; af_payload : Bytes }.

Definition adts_size (f : AdtsFrame) : Z := 7 + size_of (af_payload f).

Definition adts_written (index : Z) (f : AdtsFrame) : Bytes :=
  [ascii_of 255; ascii_of 241; ascii_of (64 + index * 4); ascii_of (adts_size f / 2048);
   ascii_of (adts_size f / 8 mod 256); ascii_of (adts_size f mod 8 * 32 + 31); ascii_of (252 + (af_blocks f - 1))]
  ++ af_payload f.

Definition adts_frame (f : AdtsFrame) : Prop := 1 <= af_blocks f <= 4 /\ adts_size f < 8192.

Definition adts_counted (rate : Z) (f : AdtsFrame) (c : Counted) : Counted :=
  mkCounted (u64 (c_samples c + 1024 * af_blocks f)) rate (c_frames c + 1).

Lemma size_adts index f : size_of (adts_written index f) = adts_size f.
Proof. unfold adts_written, adts_size. rewrite size_of_app. change (size_of [_; _; _; _; _; _; _]) with 7. lia. Qed.

Lemma no_tag (rest : Bytes) : trailingTag (ascii_of 255 :: rest) = false.
Proof.
  unfold trailingTag, starts. cbn [String.length take text_of String.string_of_list_ascii].
  by destruct (_ =? 128).
Qed.

(** The fields of a header read back. *)
Lemma adts_fields index f : 0 <= index <= 12 -> adts_frame f ->
  let size := adts_size f in
  Z.land (Z.shiftr (64 + index * 4) 2) 15 = index /\
  Z.lor (Z.lor (Z.shiftl (Z.land (size / 2048) 3) 11) (Z.shiftl (size / 8 mod 256) 3)) (Z.shiftr (size mod 8 * 32 + 31) 5) = size /\
  Z.land (252 + (af_blocks f - 1)) 3 + 1 = af_blocks f.
Proof.
  intros Hi [Hb Hs] size. pose proof (size_of_nonneg (af_payload f)). assert (0 <= size < 8192) as Hsize by (unfold size, adts_size in *; lia).
  clearbody size. split_and!.
  - rewrite Z.shiftr_div_pow2, (Z.land_ones _ 4) by lia. change (2 ^ 2) with 4. change (2 ^ 4) with 16.
    Z.to_euclidean_division_equations; lia.
  - rewrite (Z.land_ones _ 2), Z.shiftr_div_pow2 by lia. change (2 ^ 2) with 4. change (2 ^ 5) with 32.
    assert (size / 2048 mod 4 = size / 2048) as -> by (Z.to_euclidean_division_equations; lia).
    assert ((size mod 8 * 32 + 31) / 32 = size mod 8) as -> by (Z.to_euclidean_division_equations; lia).
    assert (0 <= size / 8 mod 256 < 256) by (Z.to_euclidean_division_equations; lia).
    assert (0 <= size mod 8 < 8) by (Z.to_euclidean_division_equations; lia).
    rewrite (lor_below (size / 2048) _ 11) by (rewrite ?Z.shiftl_mul_pow2 by lia; lia).
    rewrite Z.shiftl_mul_pow2 by lia.
    replace (size / 2048 * 2 ^ 11 + size / 8 mod 256 * 2 ^ 3) with (Z.shiftl (size / 2048 * 256 + size / 8 mod 256) 3)
      by (rewrite Z.shiftl_mul_pow2 by lia; lia).
    rewrite lor_below by lia. Z.to_euclidean_division_equations; lia.
  - rewrite (Z.land_ones _ 2) by lia. change (2 ^ 2) with 4. Z.to_euclidean_division_equations; lia.
Qed.

Lemma adts_body_read index rate pre f post c :
  0 <= index <= 12 -> entry adtsSampleRates index = Ok rate -> adts_frame f ->
  c_rate c = 0 \/ c_rate c = rate ->
  adts_body (pre ++ adts_written index f ++ post) (size_of pre) c
  = Ok (Next (size_of pre + size_of (adts_written index f)) (adts_counted rate f c)).
Proof.
  intros Hi Hrate Hf Hc. unfold adts_body. rewrite from_app by done. cbn [mbind Probe_bind]. cbv zeta.
  pose proof Hf as [Hb Hs]. pose proof (size_of_nonneg (af_payload f)) as Hp. pose proof (size_of_nonneg post) as Hpost.
  destruct (adts_fields index f Hi Hf) as (E1 & E2 & E3). rewrite size_adts. set (size := adts_size f) in *.
  assert (7 <= size < 8192) as Hsize by (unfold size, adts_size in *; lia).
  assert (7 <= size_of (adts_written index f ++ post)) as H7 by (rewrite size_of_app, size_adts; lia).
  unfold adts_written in *. cbn [app] in *. rewrite no_tag, andb_false_r, (proj2 (Z.ltb_ge _ _)) by done.
  at_known. rewrite !byte_ascii_of by (unfold is_byte; lia). cbn [Z.eqb negb orb Pos.eqb].
  change (Z.land 241 246 =? 240) with true. cbn [negb]. at_known.
  fold size. rewrite !byte_ascii_of by (unfold is_byte; Z.to_euclidean_division_equations; lia).
  rewrite E1. change (Z.of_nat (length adtsSampleRates)) with 13.
  rewrite (proj2 (Z.leb_gt _ _)) by lia. rewrite Hrate. cbn [mbind Probe_bind].
  assert (negb (c_rate c =? 0) && negb (rate =? c_rate c) = false) as -> by (destruct Hc as [->| ->]; [done|by rewrite Z.eqb_refl, andb_false_r]).
  rewrite E2, (proj2 (Z.ltb_ge _ _)) by lia.
  unfold adts_counted. by rewrite E3.
Qed.

Definition blocks_total (frames : list AdtsFrame) : Z := foldr (fun f total => af_blocks f + total) 0 frames.

Lemma blocks_nonneg frames : Forall adts_frame frames -> 0 <= blocks_total frames.
Proof. induction 1 as [|f l [Hb _] _ IHl]; [done|]. unfold blocks_total in *. cbn [foldr]. lia. Qed.

Lemma adts_fold rate frames c : fits 64 (c_samples c + 1024 * blocks_total frames) -> Forall adts_frame frames -> fits 64 (c_samples c) ->
  c_samples (foldl (fun c f => adts_counted rate f c) c frames) = c_samples c + 1024 * blocks_total frames /\
  (frames <> [] -> c_rate (foldl (fun c f => adts_counted rate f c) c frames) = rate).
Proof.
  revert c. induction frames as [|f frames IH]; intros c Hfits Hall Hc; [split; [cbn; lia|done]|].
  apply Forall_cons in Hall as [[Hb _] Hall]. pose proof (blocks_nonneg frames Hall) as Hnn.
  change (blocks_total (f :: frames)) with (af_blocks f + blocks_total frames) in *. cbn [foldl].
  assert (c_samples (adts_counted rate f c) = c_samples c + 1024 * af_blocks f) as Hu.
  { cbn. unfold u64. apply Z.mod_small. unfold fits in *. lia. }
  destruct (IH (adts_counted rate f c)) as [IH1 IH2]; [|done| |].
  - rewrite Hu. unfold fits in *. lia.
  - rewrite Hu. unfold fits in *. lia.
  - rewrite IH1, Hu. split; [lia|]. intros _. destruct frames; [done|by apply IH2].
Qed.

(** A stream of ADTS frames plays its blocks: 1024 samples for every block
    of every frame, at the rate the frames name, whatever their payloads. *)
Theorem adts_counts_every_block index rate frames :
  0 <= index <= 12 -> adtsSampleRates !! Z.to_nat index = Some rate ->
  frames <> [] -> Forall adts_frame frames -> fits 64 (1024 * blocks_total frames) ->
  adtsDuration (flat_map (adts_written index) frames) = Ok (1024 * blocks_total frames, rate).
Proof.
  intros Hi Hrate Hne Hall Hfits. unfold adtsDuration, each.
  assert (entry adtsSampleRates index = Ok rate) as He by (unfold entry; by rewrite (proj2 (Z.leb_le _ _)), Hrate by lia).
  assert (0 < rate) as Hpos.
  { pose proof adts_rates_ok as Hr. rewrite Forall_lookup in Hr. specialize (Hr _ _ Hrate). unfold rate_ok in Hr. lia. }
  rewrite (scan_records (fun c => c_rate c = 0 \/ c_rate c = rate) (adts_written index) (adts_counted rate) _ _
    (flat_map (adts_written index) frames) frames) with (pre := ([], [])) (tail := frames); try done.
  - cbn [mbind Probe_bind]. destruct (adts_fold rate frames (mkCounted 0 0 0)) as [E1 E2]; [done|done|by vm_compute|].
    unfold counted_end. rewrite E1, E2 by done. cbn [c_samples]. rewrite Z.add_0_l.
    destruct (Z.eqb_spec (1024 * blocks_total frames) 0) as [Hz|]; [|done]. exfalso.
    destruct frames as [|f frames]; [done|]. apply Forall_cons in Hall as [[Hb _] Hall].
    pose proof (blocks_nonneg frames Hall). change (blocks_total (f :: frames)) with (af_blocks f + blocks_total frames) in Hz. lia.
  - intros offset. lia.
  - intros pre f post c Hdata Hin Hc. rewrite Forall_forall in Hall. specialize (Hall f Hin).
    pose proof (size_of_nonneg (af_payload f)). pose proof (size_of_nonneg pre). pose proof (size_of_nonneg post). pose proof (size_adts index f) as Hsz.
    unfold adts_size in Hsz. split; [apply Z.ltb_lt; rewrite Hdata, !size_of_app; lia|]. split; [lia|]. split; [by right|].
    left. rewrite Hdata. by apply adts_body_read.
  - unfold size_of. cbn. lia.
  - by left.
Qed.

(** * Examples *)

Definition bytes_of_list (l : list Z) : Bytes := ascii_of <$> l.

Definition example_format : Format := mkFormat 1 2 44100 176400 4 16.
Definition example_samples : Bytes := bytes_of_list (repeat 7 17).
Definition example_chunks : list (string * Bytes) :=
  [("LIST", bytes_of_list [1; 2; 3]); ("fmt ", fmt_body example_format ++ bytes_of_list [0; 0])].
Definition example_wav : Bytes := wav_file 1000 (example_chunks ++ [("data", example_samples)]).

Example example_wav_measured : Milliseconds "audio/wav" example_wav = Ok 1.
Proof. vm_compute. reflexivity. Qed.

Lemma every_upload_is_measured_or_refused_witness :
  holdable_size example_wav /\
  ((exists why, Milliseconds "audio/wav" example_wav = Refused why /\
      forall units perSecond, duration_of "audio/wav" example_wav = Ok (units, perSecond) ->
        perSecond = 0 \/ MaxMilliseconds < rounded_up units perSecond) \/
   exists ms units perSecond,
     Milliseconds "audio/wav" example_wav = Ok ms /\ 0 <= ms <= MaxMilliseconds /\
     duration_of "audio/wav" example_wav = Ok (units, perSecond) /\ 0 < perSecond /\
     (ms = rounded_up units perSecond \/ ms = 0 /\ rounded_up units perSecond = 2 ^ 64)).
Proof.
  assert (holdable_size example_wav) as H by (vm_compute; reflexivity).
  split; [exact H|]. exact (every_upload_is_measured_or_refused "audio/wav" example_wav H).
Defined.


Definition example_aac : list AdtsFrame := [mkAdts 1 (bytes_of_list (repeat 9 300)); mkAdts 4 []; mkAdts 2 (bytes_of_list [255; 241])].

Lemma adts_counts_every_block_witness :
  adtsDuration (flat_map (adts_written 4) example_aac) = Ok (7168, 44100).
Proof.
  apply (adts_counts_every_block 4 44100 example_aac); [lia|done|done| |by vm_compute].
  repeat constructor; vm_compute; congruence.
Defined.

(** An Ogg Vorbis stream that states 2^64 ms is measured as none. *)
Definition vorbis_head : Bytes := bytes_of_list ([1; 118; 111; 114; 98; 105; 115; 0; 0; 0; 0; 1; 231; 3; 0; 0] ++ repeat 0 14).
Definition endless_ogg : Bytes :=
  bytes_of_list ([79; 103; 103; 83; 0; 2] ++ [16; 88; 57; 180; 200; 118; 190; 255] ++ repeat 0 12 ++ [1; 30]) ++ vorbis_head.

Example endless_ogg_is_measured_as_nothing :
  exists units perSecond, oggDuration endless_ogg = Ok (units, perSecond) /\ rounded_up units perSecond = 2 ^ 64 /\
    Milliseconds "audio/ogg" endless_ogg = Ok 0.
Proof. eexists _, _. split; [vm_compute; reflexivity|]. split; vm_compute; reflexivity. Qed.

(** A fragmented MP4 whose runs add up past 64 bits: [total += ticks] wraps,
    where the sample table and the sum over fragments are checked. *)
Definition box (kind : string) (body : Bytes) : Bytes :=
  bytes_of_list [0; 0; (8 + size_of body) / 256; (8 + size_of body) mod 256] ++ String.list_ascii_of_string kind ++ body.
Definition be4 (n : Z) : list Z := [n / 16777216; n / 65536 mod 256; n / 256 mod 256; n mod 256].
Definition long_run : Bytes := box "trun" (bytes_of_list (be4 0 ++ be4 (2 ^ 31))).
Definition overflowing_mp4 : Bytes :=
  box "moov" (box "trak" (box "tkhd" (bytes_of_list (repeat 0 12 ++ be4 1))
    ++ box "mdia" (box "hdlr" (bytes_of_list (repeat 0 8) ++ String.list_ascii_of_string "soun")
      ++ box "mdhd" (bytes_of_list (repeat 0 12 ++ be4 (2 ^ 31))))))
  ++ box "moof" (box "traf" (box "tfhd" (bytes_of_list (be4 8 ++ be4 1 ++ be4 (2 ^ 31)))
      ++ long_run ++ long_run ++ long_run ++ long_run ++ box "trun" (bytes_of_list (be4 0 ++ be4 1)))).

Example overflowing_runs_are_measured_as_a_second : Milliseconds "audio/mp4" overflowing_mp4 = Ok 1000.
Proof. vm_compute. reflexivity. Qed.

(** A block that ends past 64 bits of nanoseconds does not extend the span. *)
Example wrapped_block_ends_nowhere :
  r_end (add_block (2 ^ 64 - 2) 10000000 (add_block 0 20000000 new_reader)) = 20000000.
Proof. reflexivity. Qed.
