(* ===== verification/RealtimeUpstream.v ===== *)
(** * One session with a realtime provider
    (internal/provider/openairealtime/session.go and wire.go, wireCommand)

    A session's own goroutine sends the client's commands; its reader takes
    the provider's events one by one and says what the contract calls them.
    The two share the session under its lock.  [translate] is one event taken
    by the reader, [Send] one command in its critical sections, with the
    provider's events that arrive between them. *)

From S2P Require Import Prelude Ids Text Contract Request Provider PublicContract RealtimeContract RealtimeParameters.
From S2P Require Import InputTranscript RealtimeWire Base64.
From S2P Require Meter.

Definition openEventID := "kaana-session-open".
Definition maxAudioFrameBytes : Z := 49152.
Definition RealtimeTranscriptOutput := "output_audio".

(** ** What is sent and what arrives *)

Record responseParameters := mkWireParameters {
  wp_Instructions : option string;
  wp_OutputModalities : option (list string);
  wp_Modalities : option (list string);
  wp_MaxOutputTokens : option Z;
  wp_ToolChoice : option ToolChoice;
}.

Record clientEvent := mkClientEvent {
  ce_Type : string;
  EventID : string;
  ce_Session : option sessionConfig;
  ce_Audio : option string;
  ce_PreviousItemID : option string;
  ce_Item : option item;
  ce_ItemID : option string;
  ce_ContentIndex : option Z;
  ce_AudioEndMs : option Z;
  ce_Response : option responseParameters;
  ce_ResponseID : option string;
}.

Definition client_event (kind eventID : string) : clientEvent :=
  mkClientEvent kind eventID None None None None None None None None None.

Record serverEvent := mkServerEvent {
  se_Type : string;
  se_Error : option wireError;
  se_Item : option item;
  se_PreviousItemID : option string;
  se_ItemID : string;
  se_ContentIndex : Z;
  AudioStartMs : Z;
  AudioEndMs : Z;
  se_ResponseID : string;
  se_Response : option response;
  Delta : string;
  se_Transcript : string;
  se_CallID : string;
  se_Name : string;
  se_Arguments : string;
  se_Usage : transcriptionUsage;
}.

(** ** The session *)

Record pendingUpdate := mkPending { pu_CommandID : string; pu_Update : RealtimeSessionConfigUpdate }.

Record session := mkSession {
  s_dialect : dialect;
  s_requestID : string;
  s_key : SessionKey;
  inputFormat : string;
  outputFormat : option string;
  s_config : RealtimeSessionConfig;
  s_pending : list pendingUpdate;
  toolNames : gmap string string;
  namedTool : gset string;
  streamed : gset string;
  queue : list UpstreamEvent;
  s_failure : option GoError;
  s_meter : option Meter.meter;
  openResponse : string;
  expected : list (option (list string));
  asked : gmap string (option (list string));
  speech : transcripts;
}.

Definition set_config (config : RealtimeSessionConfig) (pending : list pendingUpdate) (s : session) : session :=
  mkSession (s_dialect s) (s_requestID s) (s_key s) (inputFormat s) (outputFormat s) config pending (toolNames s)
    (namedTool s) (streamed s) (queue s) (s_failure s) (s_meter s) (openResponse s) (expected s) (asked s) (speech s).
Definition set_tools (names : gmap string string) (named heard : gset string) (s : session) : session :=
  mkSession (s_dialect s) (s_requestID s) (s_key s) (inputFormat s) (outputFormat s) (s_config s) (s_pending s) names
    named heard (queue s) (s_failure s) (s_meter s) (openResponse s) (expected s) (asked s) (speech s).
Definition set_queue (events : list UpstreamEvent) (s : session) : session :=
  mkSession (s_dialect s) (s_requestID s) (s_key s) (inputFormat s) (outputFormat s) (s_config s) (s_pending s)
    (toolNames s) (namedTool s) (streamed s) events (s_failure s) (s_meter s) (openResponse s) (expected s) (asked s) (speech s).
Definition set_failure (failure : option GoError) (s : session) : session :=
  mkSession (s_dialect s) (s_requestID s) (s_key s) (inputFormat s) (outputFormat s) (s_config s) (s_pending s)
    (toolNames s) (namedTool s) (streamed s) (queue s) failure (s_meter s) (openResponse s) (expected s) (asked s) (speech s).
Definition set_meter (meter : option Meter.meter) (s : session) : session :=
  mkSession (s_dialect s) (s_requestID s) (s_key s) (inputFormat s) (outputFormat s) (s_config s) (s_pending s)
    (toolNames s) (namedTool s) (streamed s) (queue s) (s_failure s) meter (openResponse s) (expected s) (asked s) (speech s).
Definition set_responses (open : string) (awaited : list (option (list string))) (given : gmap string (option (list string)))
    (s : session) : session :=
  mkSession (s_dialect s) (s_requestID s) (s_key s) (inputFormat s) (outputFormat s) (s_config s) (s_pending s)
    (toolNames s) (namedTool s) (streamed s) (queue s) (s_failure s) (s_meter s) open awaited given (speech s).
Definition set_speech (t : transcripts) (s : session) : session :=
  mkSession (s_dialect s) (s_requestID s) (s_key s) (inputFormat s) (outputFormat s) (s_config s) (s_pending s)
    (toolNames s) (namedTool s) (streamed s) (queue s) (s_failure s) (s_meter s) (openResponse s) (expected s) (asked s) t.

Definition newSession (d : dialect) (requestID : string) (config : RealtimeSessionConfig) (key : SessionKey) : session :=
  mkSession d requestID key (InputAudioFormat config) (wireOutputFormat d config) config [] ∅ ∅ ∅ [] None None "" [] ∅
    no_transcripts.

Definition parameters_of (s : session) : RealtimeParameters := Parameters (statement (s_dialect s)).

(** [transcribingInput]. *)
Definition transcribingInput (s : session) : bool := present (cfg_InputAudioTranscription (s_config s)).

Definition continues (s : session) : bool :=
  match transcription (s_dialect s) with Some t => continuesInterruptedTurns t | None => false end.

(** [projectedConfig]. *)
Definition projectedConfig (s : session) : RealtimeSessionConfig :=
  foldl (fun config pending => mergeUpdate config (pu_Update pending)) (s_config s) (s_pending s).

(** [expectResponse]. *)
Definition expectResponse (modalities : option (list string)) (s : session) : session :=
  set_responses (openResponse s) (expected s ++ [modalities]) (asked s) s.

(** [relayModalities], [emulated] and [relaysAudio]. *)
Definition relayModalities (id : string) (s : session) : option (list string) :=
  match asked s !! id with
  | Some (Some modalities) => Some modalities
  | _ => cfg_OutputModalities (s_config s)
  end.

Definition emulated (id : string) (s : session) : bool :=
  match relayModalities id s with
  | Some modalities => negb (ServesOutputModalities modalities (parameters_of s))
  | None => false
  end.

Definition relaysAudio (id : string) (s : session) : bool :=
  match relayModalities id s with Some modalities => isMember RealtimeOutputAudio modalities | None => true end.

Definition asks_for (modality id : string) (s : session) : bool := isMember modality (default [] (relayModalities id s)).

(** [itemID]. *)
Definition itemID (value : option string) : option string :=
  match value with Some id => if id =s "" then None else Some id | None => None end.

(** ** Tool calls *)

(** [rememberToolName]. *)
Definition rememberToolName (value : item) (s : session) : session :=
  match i_CallID value, i_Name value with
  | Some id, Some name =>
      if i_Type value =s "function_call" then set_tools (<[id := name]> (toolNames s)) (namedTool s) (streamed s) s else s
  | _, _ => s
  end.

(** [toolCall]. *)
Definition toolCall (event : serverEvent) (text : string) (complete : bool) (s : session) : RealtimeServerEvent * session :=
  let id := se_CallID event in
  let remembered := default "" (toolNames s !! id) in
  let name := if (remembered =s "") && negb (se_Name event =s "") then se_Name event else remembered in
  let names := negb (name =s "") && negb (bool_decide (id ∈ namedTool s)) in
  let named := if names then {[id]} ∪ namedTool s else namedTool s in
  let delta :=
    if (negb complete || negb (bool_decide (id ∈ streamed s))) && (negb (text =s "") || complete) then Some text else None in
  let heard := if negb complete && negb (text =s "") then {[id]} ∪ streamed s else streamed s in
  (EvToolCall (se_ResponseID event) (se_ItemID event) id (if names then Some name else None) delta complete,
   if complete then set_tools (delete id (toolNames s)) (named ∖ {[id]}) (heard ∖ {[id]}) s
   else set_tools (toolNames s) named heard s).

(** ** Responses *)

Definition Heard : Type := (list UpstreamEvent + GoError) * session.

(** [endedUnannounced]. *)
Definition endedUnannounced (id : string) (s : session) : RealtimeServerEvent :=
  EvResponseDone id RealtimeResponseCancelled (Some FinishCancelled) "" []
    (if tokenUsage (s_dialect s) then UsageProviderReported else UsageOxyMeasured).

(** The case [response.created]. *)
Definition responseCreated (event : serverEvent) (s : session) : Heard :=
  match se_Response event with
  | None => (inr (invalidEvent (s_dialect s)), s)
  | Some response =>
      if r_ID response =s "" then (inr (invalidEvent (s_dialect s)), s)
      else
        match statusReason (s_dialect s) response with
        | inr failure => (inr failure, s)
        | inl _ =>
            let created := r_ID response in
            let ended := openResponse s in
            let s' :=
              match expected s with
              | modalities :: rest => set_responses created rest (<[created := modalities]> (asked s)) s
              | [] => set_responses created [] (asked s) s
              end in
            let events := one (EvResponseCreated created) in
            (inl (if negb (ended =s "") && negb (ended =s created) then unanswered (endedUnannounced ended s) :: events
                  else events), s')
        end
  end.

(** [responseDone]. *)
Definition responseDone (event : serverEvent) (s : session) : Heard :=
  let d := s_dialect s in
  let unpartitioned :=
    ErrUpstream (mkUpstream CodeProviderError UpstreamUnknown 0 (Some (mkPassthrough (slug d) None None)) false) in
  match se_Response event with
  | None => (inr (invalidEvent d), s)
  | Some response =>
      if r_ID response =s "" then (inr (invalidEvent d), s)
      else
        match responseStatus (r_Status response) with
        | None => (inr (invalidEvent d), s)
        | Some status =>
            match statusReason d response with
            | inr failure => (inr failure, s)
            | inl reason =>
                let measured :=
                  if negb (tokenUsage d) then Some ([], UsageOxyMeasured)
                  else match r_Usage response with
                       | Some usage => units ← usage_units usage; Some (units, UsageProviderReported)
                       | None => Some ([], UsageProviderReported)
                       end in
                match measured with
                | None => (inr unpartitioned, s)
                | Some (units, source) =>
                    let id := r_ID response in
                    let s := if openResponse s =s id then set_responses "" (expected s) (asked s) s else s in
                    let s := set_speech (set_responseEnded true (speech s)) s in
                    (inl [mkUpstreamEvent (Some (EvResponseDone id status (finishReason response status reason) "" units source))
                            None units], s)
                end
            end
        end
  end.

(** ** Output *)

(** [outputTranscript]. *)
Definition outputTranscript (event : serverEvent) (finished : bool) (s : session) : list UpstreamEvent :=
  let id := se_ResponseID event in
  let spoken :=
    if negb (emulated id s) || asks_for RealtimeOutputAudio id s then
      one (if finished
           then EvTranscriptDone RealtimeTranscriptOutput (se_ItemID event) (se_ContentIndex event) (Some id) (se_Transcript event)
           else EvTranscriptDelta RealtimeTranscriptOutput (se_ItemID event) (se_ContentIndex event) (Some id) (Delta event))
    else [] in
  let written :=
    if emulated id s && asks_for RealtimeOutputText id s && negb finished && negb (Delta event =s "")
    then one (EvTextDelta id (se_ItemID event) (se_ContentIndex event) (Delta event)) else [] in
  spoken ++ written.

(** The loop of [audioFrames]; one turn for each byte is enough. *)
Fixpoint audio_chunks (fuel : nat) (audio : string) : list string :=
  match fuel with
  | O => []
  | S fuel =>
      if audio =s "" then []
      else
        let size := Z.to_nat (Z.min maxAudioFrameBytes (len audio)) in
        String.substring 0 size audio :: audio_chunks fuel (String.substring size (String.length audio - size) audio)
  end.

(** [audioFrames]. *)
Definition audioFrames (event : serverEvent) (s : session) : Heard :=
  match outputFormat s, base64_decode (Delta event) with
  | Some format, Some audio =>
      if audio =s "" then (inr (invalidEvent (s_dialect s)), s)
      else
        (inl ((fun chunk => unanswered (EvOutputAudioDelta (se_ResponseID event) (se_ItemID event) (se_ContentIndex event)
                                          format (base64_encode chunk)))
              <$> audio_chunks (String.length audio) audio),
         set_meter (Meter.output (len audio) <$> s_meter s) s)
  | _, _ => (inr (invalidEvent (s_dialect s)), s)
  end.

(** ** Errors *)

Fixpoint forget_update (id : string) (pending : list pendingUpdate) : list pendingUpdate :=
  match pending with
  | [] => []
  | update :: rest => if pu_CommandID update =s id then rest else update :: forget_update id rest
  end.

(** [errorEvent]. *)
Definition errorEvent (value : wireError) (s : session) : list UpstreamEvent * session :=
  let d := s_dialect s in
  let failure := classifyEvent d value (s_key s) in
  let upstream := default (mkUpstream CodeProviderError UpstreamUnknown 0 None false) (AsUpstream failure) in
  let s := if Category upstream =s UpstreamInvalidReq then s else set_failure (Some failure) s in
  let commandID :=
    match we_EventID value with
    | Some id => if negb (id =s "") && negb (id =s openEventID) && (len id <=? 128)%Z then Some id else None
    | None => None
    end in
  let s := match commandID with Some id => set_config (s_config s) (forget_update id (s_pending s)) s | None => s end in
  ([mkUpstreamEvent (Some (EvError false (ContractError (s_requestID s) upstream))) commandID []], s).

(** [inputTranscriptionFailed]. *)
Definition inputTranscriptionFailed (event : serverEvent) (s : session) : list UpstreamEvent :=
  if negb (transcribingInput s) then []
  else
    let reported := default (mkWireError "" None "" None) (se_Error event) in
    one (EvError false (ContractError (s_requestID s)
      (mkUpstream CodeProviderError UpstreamUnknown 0 (Some (passthroughFor (slug (s_dialect s)) reported (s_key s))) false))).

(** ** One event of the provider *)

Section Translate.
Context {tables : UnicodeTables}.

Definition on_speech (step : transcripts -> list RealtimeServerEvent * transcripts) (s : session) : Heard :=
  let '(events, t) := step (speech s) in (inl (unanswered <$> events), set_speech t s).

(** [session.inputTranscript]. *)
Definition transcriptCompleted (event : serverEvent) (s : session) : Heard :=
  match transcriptionUnits (s_dialect s) (se_Usage event) with
  | inr failure => (inr failure, s)
  | inl units =>
      match inputTranscript (continues s) (transcribingInput s) units (se_ItemID event) (se_ContentIndex event)
              (se_Transcript event) (speech s) with
      | None => (inr (invalidEvent (s_dialect s)), s)
      | Some (events, t) => (inl events, set_speech t s)
      end
  end.

(** [translate]. *)
Definition translate (event : serverEvent) (s : session) : Heard :=
  let d := s_dialect s in
  let kind := se_Type event in
  let id := se_ItemID event in
  if kind =s "error" then
    match se_Error event with
    | None => (inr (invalidEvent d), s)
    | Some value => let '(events, s) := errorEvent value s in (inl events, s)
    end
  else if kind =s "session.updated" then
    match s_pending s with
    | [] => (inl [], s)
    | confirmed :: rest =>
        let config := mergeUpdate (s_config s) (pu_Update confirmed) in
        (inl [mkUpstreamEvent (Some (EvSessionUpdated config)) (Some (pu_CommandID confirmed)) []], set_config config rest s)
    end
  else if (kind =s "conversation.item.added") || (kind =s "conversation.item.done") then
    match se_Item event with
    | None => (inr (invalidEvent d), s)
    | Some value =>
        let s := rememberToolName value s in
        match contractItem d (inputFormat s) (outputFormat s) value with
        | None => (inl [], s)
        | Some converted =>
            let name := default "" (item_ItemID converted) in
            (inl (one (if kind =s "conversation.item.done" then EvItemDone name converted
                       else EvItemAdded name (itemID (se_PreviousItemID event)) converted)), s)
        end
    end
  else if kind =s "conversation.item.deleted" then (inl (one (EvItemDeleted id)), s)
  else if kind =s "conversation.item.truncated" then
    (inl (one (EvItemTruncated id (se_ContentIndex event) (AudioEndMs event))), s)
  else if kind =s "input_audio_buffer.speech_started" then
    (inl (one (EvSpeechStarted id (AudioStartMs event))),
     set_speech (inputBegun (continues s) (transcribingInput s) id (speech s)) s)
  else if kind =s "input_audio_buffer.speech_stopped" then (inl (one (EvSpeechStopped id (AudioEndMs event))), s)
  else if kind =s "input_audio_buffer.committed" then
    let '(finals, t) := inputCommitted (continues s) (transcribingInput s) id (speech s) in
    (inl ((unanswered <$> finals) ++ one (EvInputAudioCommitted id (itemID (se_PreviousItemID event)))), set_speech t s)
  else if kind =s "input_audio_buffer.cleared" then (inl (one EvInputAudioCleared), s)
  else if kind =s "response.created" then responseCreated event s
  else if (kind =s "response.output_item.added") || (kind =s "response.output_item.done") then
    (inl [], match se_Item event with Some value => rememberToolName value s | None => s end)
  else if kind =s "response.output_audio.delta" then
    let '(frames, s) := audioFrames event s in
    (match frames with
     | inr failure => inr failure
     | inl events => inl (if relaysAudio (se_ResponseID event) s then events else [])
     end, s)
  else if kind =s "response.output_audio.done" then
    (inl (if relaysAudio (se_ResponseID event) s
          then one (EvOutputAudioDone (se_ResponseID event) id (se_ContentIndex event)) else []), s)
  else if kind =s "response.output_audio_transcript.delta" then (inl (outputTranscript event false s), s)
  else if kind =s "response.output_audio_transcript.done" then (inl (outputTranscript event true s), s)
  else if kind =s "response.output_text.delta" then
    (inl (one (EvTextDelta (se_ResponseID event) id (se_ContentIndex event) (Delta event))), s)
  else if kind =s "response.function_call_arguments.delta" then
    let '(call, s) := toolCall event (Delta event) false s in (inl (one call), s)
  else if kind =s "response.function_call_arguments.done" then
    let '(call, s) := toolCall event (se_Arguments event) true s in (inl (one call), s)
  else if kind =s "response.done" then responseDone event s
  else if kind =s "conversation.item.input_audio_transcription.delta" then
    if negb (transcribingInput s) || (Delta event =s "") then (inl [], s)
    else on_speech (inputRunning (continues s) id (se_ContentIndex event) (fun text => text +:+ Delta event)) s
  else if kind =s "conversation.item.input_audio_transcription.updated" then
    if negb (transcribingInput s) then (inl [], s)
    else on_speech (inputRunning (continues s) id (se_ContentIndex event) (fun _ => se_Transcript event)) s
  else if kind =s "conversation.item.input_audio_transcription.completed" then transcriptCompleted event s
  else if kind =s "conversation.item.input_audio_transcription.failed" then (inl (inputTranscriptionFailed event s), s)
  else (inl [], s).

(** ** Next *)

(** What one read of the connection gives; [now] is when it ended. *)
Inductive Read := Binary | NotAnEvent | Message (event : serverEvent) | Lost (ctx_err : option GoError) (normal : bool) (now : Instant).

Definition renamed (s : session) (event : serverEvent) : serverEvent :=
  match aliases (s_dialect s) !! se_Type event with
  | Some kind =>
      mkServerEvent kind (se_Error event) (se_Item event) (se_PreviousItemID event) (se_ItemID event) (se_ContentIndex event)
        (AudioStartMs event) (AudioEndMs event) (se_ResponseID event) (se_Response event) (Delta event) (se_Transcript event)
        (se_CallID event) (se_Name event) (se_Arguments event) (se_Usage event)
  | None => event
  end.

(** [ended]. *)
Definition ended (ctx_err : option GoError) (normal : bool) (now : Instant) (s : session) : GoError * session :=
  match ctx_err with
  | Some err => (err, s)
  | None =>
      let s := set_meter (Meter.end_ now <$> s_meter s) s in
      (match s_failure s with
       | Some failure => failure
       | None =>
           if normal then Sentinel "provider: the upstream ended the realtime session"
           else ErrUpstream (mkUpstream CodeProviderError UpstreamServerError 0 (Some (mkPassthrough (slug (s_dialect s)) None None)) false)
       end, s)
  end.

(** [Next]: the event, or why there is none, and the reads it left; [None]
    while the provider says nothing. *)
Fixpoint read_next (reads : list Read) (s : session) : option (UpstreamEvent + GoError) * list Read * session :=
  match reads with
  | [] => (None, [], s)
  | Lost ctx_err normal now :: rest => let '(err, s) := ended ctx_err normal now s in (Some (inr err), rest, s)
  | Binary :: rest | NotAnEvent :: rest => (Some (inr (invalidEvent (s_dialect s))), rest, s)
  | Message event :: rest =>
      match translate (renamed s event) s with
      | (inr failure, s) => (Some (inr failure), rest, s)
      | (inl [], s) => read_next rest s
      | (inl (first :: more), s) => (Some (inl first), rest, set_queue (queue s ++ more) s)
      end
  end.

Definition Next (reads : list Read) (s : session) : option (UpstreamEvent + GoError) * list Read * session :=
  match queue s with
  | next :: more => (Some (inl next), reads, set_queue more s)
  | [] => read_next reads s
  end.

(** [Close]. *)
Definition Close (now : Instant) (s : session) : session := set_meter (Meter.end_ now <$> s_meter s) s.

(** ** Send *)

(** [wireCommand] of a [response.create]; the projected configuration is read
    and the response expected at one point. *)
Definition wireResponseCreate (event : clientEvent) (parameters : option RealtimeResponseParameters) (s : session)
  : Written clientEvent * session :=
  let d := s_dialect s in
  let with_response r :=
    mkClientEvent (ce_Type event) (EventID event) None None None None None None None r None in
  let parameters :=
    match parameters with
    | None => if sessionModalities d then None else Some (mkResponseParameters None None None None)
    | given => given
    end in
  match parameters with
  | None => (Wrote event, expectResponse None s)
  | Some p =>
      match refuseUnservable d "response" (response_Fields p) with
      | Some param => (Refused param, s)
      | None =>
          let requested :=
            match rp_OutputModalities p with
            | None => if sessionModalities d then None else cfg_OutputModalities (projectedConfig s)
            | stated => stated
            end in
          let onWire := WireOutputModalities requested (parameters_of s) in
          let named := responseModalitiesField d =s "modalities" in
          (Wrote (with_response (Some (mkWireParameters (rp_Instructions p) (if named then None else onWire)
                    (if named then onWire else None) (wireMaxOutputTokens d (rp_MaxOutputTokens p))
                    (wireToolChoice d (rp_ToolChoice p))))),
           expectResponse (rp_OutputModalities p) s)
      end
  end.

(** [wireCommand]. *)
Definition wireCommand (command : RealtimeCommand) (s : session) : Written clientEvent * session :=
  let id := command_CommandID command in
  let d := s_dialect s in
  match command with
  | CmdSessionUpdate _ config =>
      (session ⇐ wireUpdate d config (projectedConfig s) ;;
       Wrote (mkClientEvent "session.update" id (Some session) None None None None None None None None), s)
  | CmdItemCreate _ previous value =>
      (wire ⇐ wireItem d value (inputFormat s) ;;
       Wrote (mkClientEvent "conversation.item.create" id None None previous (Some wire) None None None None None), s)
  | CmdItemDelete _ item =>
      (Wrote (mkClientEvent "conversation.item.delete" id None None None None (Some item) None None None None), s)
  | CmdItemTruncate _ item index stop =>
      (Wrote (mkClientEvent "conversation.item.truncate" id None None None None (Some item) (Some index) (Some stop) None None), s)
  | CmdInputAudioAppend _ data =>
      (Wrote (mkClientEvent "input_audio_buffer.append" id None (Some data) None None None None None None None), s)
  | CmdInputAudioCommit _ => (Wrote (client_event "input_audio_buffer.commit" id), s)
  | CmdInputAudioClear _ => (Wrote (client_event "input_audio_buffer.clear" id), s)
  | CmdResponseCreate _ parameters => wireResponseCreate (client_event "response.create" id) parameters s
  | CmdResponseCancel _ response =>
      (Wrote (mkClientEvent "response.cancel" id None None None None None None None None response), s)
  | CmdSessionResume _ _ | CmdSessionClose _ => (Refused "type", s)
  end.

(** The turn detection in effect once every update sent applies. *)
Definition pendingDetection (s : session) : string :=
  foldl (fun kind pending => match up_TurnDetection (pu_Update pending) with Some t => td_Type t | None => kind end)
    (td_Type (cfg_TurnDetection (s_config s))) (s_pending s).

(** [admitUpdate]: the field an update is refused for. *)
Definition admitUpdate (update : RealtimeSessionConfigUpdate) (s : session) : option string :=
  let d := s_dialect s in
  match up_TurnDetection update with
  | None => None
  | Some t =>
      if negb (billsClock d) then None
      else if Bool.eqb (clockBilled d (td_Type t)) (clockBilled d (pendingDetection s)) then None
      else Some "config.turnDetection"
  end.

Definition admits (command : RealtimeCommand) (s : session) : option string :=
  match command with CmdSessionUpdate _ config => admitUpdate config s | _ => None end.

Definition push_update (command : RealtimeCommand) (s : session) : session :=
  match command with
  | CmdSessionUpdate h config => set_config (s_config s) (s_pending s ++ [mkPending (cmd_CommandID h) config]) s
  | _ => s
  end.

(** Events the reader takes, and what it says of them; an event that cannot
    be read says nothing. *)
Definition hear (event : serverEvent) (s : session) : list UpstreamEvent * session :=
  let '(said, s) := translate (renamed s event) s in (match said with inl events => events | inr _ => [] end, s).

Fixpoint hear_all (heard : list serverEvent) (s : session) : list UpstreamEvent * session :=
  match heard with
  | [] => ([], s)
  | event :: heard => let '(events, s) := hear event s in let '(more, s) := hear_all heard s in (events ++ more, s)
  end.

(** How [Send] ended. *)
Inductive Sending :=
| NotSent (param : string)
| SentAs (event : clientEvent)
| WriteFailed (failure : GoError)
| SendPanics.

(** What arrives between [Send]'s critical sections: after the command is
    translated, after the update is admitted, and while it is written. *)
Record Meanwhile := mkMeanwhile { m_wired : list serverEvent; m_admitted : list serverEvent; m_writing : list serverEvent }.

(** [Send]; [write] is what the connection answers. *)
Definition Send (command : RealtimeCommand) (write : option GoError) (m : Meanwhile) (s : session)
  : Sending * list UpstreamEvent * session :=
  let '(event, s) := wireCommand command s in
  match event with
  | Refused param => (NotSent param, [], s)
  | Panics => (SendPanics, [], s)
  | Wrote event =>
      let '(events1, s) := hear_all (m_wired m) s in
      match admits command s with
      | Some param => (NotSent param, events1, s)
      | None =>
          let billed := match s_meter s with Some _ => Meter.measure command | None => Some Meter.nothing_billed end in
          match billed with
          | None => (NotSent "item.content", events1, s)
          | Some billed =>
              let '(events2, s) := hear_all (m_admitted m) s in
              let s := push_update command s in
              let '(events3, s) := hear_all (m_writing m) s in
              match write with
              | Some failure => (WriteFailed failure, events1 ++ events2 ++ events3, s)
              | None => (SentAs event, events1 ++ events2 ++ events3, set_meter (Meter.record billed <$> s_meter s) s)
              end
          end
      end
  end.

(** ** A session's life *)

Inductive Move := Hears (event : serverEvent) | Sends (command : RealtimeCommand) (write : option GoError) (m : Meanwhile).

Definition move (x : Move) (s : session) : list UpstreamEvent * session :=
  match x with
  | Hears event => hear event s
  | Sends command write m => let '(_, events, s) := Send command write m s in (events, s)
  end.

Fixpoint moves (xs : list Move) (s : session) : list UpstreamEvent * session :=
  match xs with
  | [] => ([], s)
  | x :: xs => let '(events, s) := move x s in let '(more, s) := moves xs s in (events ++ more, s)
  end.

(** What the client is told of them. *)
Definition told (events : list UpstreamEvent) : list RealtimeServerEvent := omap up_Event events.

End Translate.

(** The end of [Adapter.Open]: a provider that does not bill tokens is
    metered from the handshake it accepted. *)
Definition opened (d : dialect) (requestID : string) (config : RealtimeSessionConfig) (key : SessionKey) (handshakeAt : Instant)
  : session :=
  let s := newSession d requestID config key in
  if tokenUsage d then s
  else
    let clock := clockBilled d (td_Type (cfg_TurnDetection config)) in
    set_meter (Some (Meter.newMeter config (wireOutputFormat d config) clock handshakeAt)) s.

(** ** What one event changes *)

(** An event that is neither a response's bounds nor a tool call. *)
Definition plain (event : RealtimeServerEvent) : Prop :=
  match event with EvResponseCreated _ | EvResponseDone _ _ _ _ _ _ | EvToolCall _ _ _ _ _ _ => False | _ => True end.

Definition billing (s : session) : option bool := Meter.clock <$> s_meter s.

Record kept (s s' : session) : Prop := {
  kept_dialect : s_dialect s' = s_dialect s;
  kept_output : outputFormat s' = outputFormat s;
  kept_config : s_config s' = s_config s;
  kept_pending : s_pending s' = s_pending s;
  kept_named : namedTool s' = namedTool s;
  kept_streamed : streamed s' = streamed s;
  kept_open : openResponse s' = openResponse s;
  kept_billing : billing s' = billing s;
}.

Lemma kept_refl s : kept s s.
Proof. by split. Qed.

Lemma kept_speech t s : kept s (set_speech t s).
Proof. by split. Qed.

Lemma kept_name value s : kept s (rememberToolName value s).
Proof. unfold rememberToolName. repeat case_match; by split. Qed.

Lemma told_one event : told (one event) = [event].
Proof. done. Qed.

Lemma told_app l l' : told (l ++ l') = told l ++ told l'.
Proof. unfold told. by rewrite omap_app. Qed.

Lemma told_unanswered l : told (unanswered <$> l) = l.
Proof. induction l as [|e l IH]; [done|]. cbn. f_equal. exact IH. Qed.

(** What an event comes to: the cases a property is about, or nothing it is
    about. *)
Inductive Taken (event : serverEvent) (s : session) : Heard -> Prop :=
| TakenPlain events s' : kept s s' -> Forall plain (told events) -> Taken event s (inl events, s')
| TakenFailed failure s' : kept s s' -> Taken event s (inr failure, s')
| TakenCreated : se_Type event = "response.created" -> Taken event s (responseCreated event s)
| TakenDone : se_Type event = "response.done" -> Taken event s (responseDone event s)
| TakenDelta call s' : se_Type event = "response.function_call_arguments.delta" ->
    toolCall event (Delta event) false s = (call, s') -> Taken event s (inl (one call), s')
| TakenCall call s' : se_Type event = "response.function_call_arguments.done" ->
    toolCall event (se_Arguments event) true s = (call, s') -> Taken event s (inl (one call), s')
| TakenError value events s' : errorEvent value s = (events, s') -> Taken event s (inl events, s')
| TakenUpdate confirmed rest : s_pending s = confirmed :: rest ->
    Taken event s (inl [mkUpstreamEvent (Some (EvSessionUpdated (mergeUpdate (s_config s) (pu_Update confirmed))))
                          (Some (pu_CommandID confirmed)) []],
                   set_config (mergeUpdate (s_config s) (pu_Update confirmed)) rest s).

Lemma plain_one event : plain event -> Forall plain (told (one event)).
Proof. intros H. rewrite told_one. by repeat constructor. Qed.

Section Taken.
Context {tables : UnicodeTables}.

Lemma inputRunning_plain c id index next t events t' :
  inputRunning c id index next t = (events, t') -> Forall plain events.
Proof.
  unfold inputRunning. destruct (id =s ""); [intros [= <- <-]; constructor|]. destruct (begin_item c id index t) as [item t1].
  destruct (done item); [intros [= <- <-]; constructor|]. destruct (CutPrefix _ _) as [delta|]; [|intros [= <- <-]; constructor].
  destruct (delta =s ""); intros [= <- <-]; repeat constructor.
Qed.

Lemma settle_awaiting_plain id t others finals still t1 :
  foldl (fun acc other => settle_awaiting id other acc) ([], [], t) others = (finals, still, t1) ->
  Forall plain finals.
Proof.
  assert (H : forall finals0 still0 t0, Forall plain finals0 ->
    foldl (fun acc other => settle_awaiting id other acc) (finals0, still0, t0) others = (finals, still, t1) ->
    Forall plain finals); [|by apply H].
  induction others as [|other others IH]; intros finals0 still0 t0 H0; cbn [foldl]; [by intros [= <- <- <-]|].
  destruct (settle_awaiting id other (finals0, still0, t0)) as [[f s] t2] eqn:E. apply IH.
  unfold settle_awaiting in E. repeat case_match; simplify_eq; try done. apply Forall_app. split; [done|]. by repeat constructor.
Qed.

Lemma inputCommitted_plain c b id t events t' : inputCommitted c b id t = (events, t') -> Forall plain events.
Proof.
  unfold inputCommitted. destruct (_ || _); [intros [= <- <-]; constructor|].
  destruct (foldl _ _ _) as [[finals still] t1] eqn:E. apply settle_awaiting_plain in E.
  destruct (begin_item c id 0 t1) as [item t2]. destruct (_ && _); by intros [= <- <-].
Qed.

Lemma charge_plain units events : Forall plain (told events) -> Forall plain (told (charge units events)).
Proof.
  intros H. unfold charge. destruct units; [done|]. destruct (rev events) as [|last before] eqn:E; [constructor|].
  assert (events = rev before ++ [last]) as -> by (rewrite <-(rev_involutive events), E; done).
  rewrite told_app in *. apply Forall_app in H as [H1 H2]. apply Forall_app. split; [done|]. cbn in *. by destruct (up_Event last).
Qed.

Lemma inputTranscript_plain c b units id index text t events t' :
  inputTranscript c b units id index text t = Some (events, t') -> Forall plain (told events).
Proof.
  unfold inputTranscript. destruct (negb b); [intros [= <- <-]; apply charge_plain; constructor|].
  destruct (id =s ""); [done|]. unfold inputCompleted.
  destruct (inputRunning c id index _ t) as [events0 t0] eqn:E. apply inputRunning_plain in E.
  destruct (begin_item c id index t0) as [item t1]. destruct (_ && _); intros [= <- <-]; apply charge_plain;
    rewrite told_unanswered; [|done]. apply Forall_app. split; [done|]. by repeat constructor.
Qed.

Lemma outputTranscript_plain event finished s : Forall plain (told (outputTranscript event finished s)).
Proof.
  unfold outputTranscript. rewrite told_app. apply Forall_app. split; repeat case_match; repeat constructor.
Qed.

Lemma audioFrames_taken event s said s' : audioFrames event s = (said, s') ->
  kept s s' /\ match said with inl events => Forall plain (told events) | inr _ => True end.
Proof.
  unfold audioFrames. destruct (outputFormat s), (base64_decode (Delta event)) as [audio|];
    try (intros [= <- <-]; by split).
  destruct (audio =s ""); [intros [= <- <-]; by split|]. intros [= <- <-]. split.
  - split; try done. unfold billing. cbn. by destruct (s_meter s).
  - induction (audio_chunks _ _) as [|chunk chunks IH]; [constructor|]. cbn. by constructor.
Qed.

Local Ltac next_kind := match goal with |- Taken _ _ (if ?b then _ else _) => destruct b eqn:? end; bool_cases.

(** Every event is taken in one of those ways. *)
Lemma translate_taken event s : Taken event s (translate event s).
Proof.
  unfold translate. next_kind.
  { destruct (se_Error event) as [value|]; [|apply TakenFailed, kept_refl].
    destruct (errorEvent value s) as [events s'] eqn:E. by eapply TakenError. }
  next_kind. { destruct (s_pending s) eqn:E; [apply TakenPlain; [apply kept_refl|constructor]|by apply TakenUpdate]. }
  next_kind.
  { destruct (se_Item event) as [value|]; [|apply TakenFailed, kept_refl].
    destruct (contractItem _ _ _ _); apply TakenPlain; try apply kept_name; [|constructor].
    apply plain_one. by case_match. }
  do 2 (next_kind; [apply TakenPlain; [apply kept_refl|by apply plain_one]|]).
  next_kind; [apply TakenPlain; [apply kept_speech|by apply plain_one]|].
  next_kind; [apply TakenPlain; [apply kept_refl|by apply plain_one]|].
  next_kind.
  { destruct (inputCommitted _ _ _ _) as [finals t] eqn:E. apply inputCommitted_plain in E.
    apply TakenPlain; [apply kept_speech|]. rewrite told_app, told_unanswered. apply Forall_app. split; [done|by repeat constructor]. }
  next_kind; [apply TakenPlain; [apply kept_refl|by apply plain_one]|].
  next_kind; [by apply TakenCreated|].
  next_kind. { apply TakenPlain; [|constructor]. destruct (se_Item event); [apply kept_name|apply kept_refl]. }
  next_kind.
  { destruct (audioFrames event s) as [frames s'] eqn:E. apply audioFrames_taken in E as [Hk Hp].
    destruct frames as [events|failure]; [|by apply TakenFailed]. apply TakenPlain; [done|]. case_match; [done|constructor]. }
  next_kind. { apply TakenPlain; [apply kept_refl|]. case_match; [by apply plain_one|constructor]. }
  do 2 (next_kind; [apply TakenPlain; [apply kept_refl|apply outputTranscript_plain]|]).
  next_kind; [apply TakenPlain; [apply kept_refl|by apply plain_one]|].
  next_kind. { destruct (toolCall _ _ _ _) as [call s'] eqn:E. by eapply TakenDelta. }
  next_kind. { destruct (toolCall _ _ _ _) as [call s'] eqn:E. by eapply TakenCall. }
  next_kind; [by apply TakenDone|].
  next_kind.
  { next_kind; [apply TakenPlain; [apply kept_refl|constructor]|]. unfold on_speech.
    destruct (inputRunning _ _ _ _ _) as [events t] eqn:E. apply inputRunning_plain in E.
    apply TakenPlain; [apply kept_speech|by rewrite told_unanswered]. }
  next_kind.
  { next_kind; [apply TakenPlain; [apply kept_refl|constructor]|]. unfold on_speech.
    destruct (inputRunning _ _ _ _ _) as [events t] eqn:E. apply inputRunning_plain in E.
    apply TakenPlain; [apply kept_speech|by rewrite told_unanswered]. }
  next_kind.
  { unfold transcriptCompleted. destruct (transcriptionUnits _ _) as [units|]; [|apply TakenFailed, kept_refl].
    destruct (inputTranscript _ _ _ _ _ _ _) as [[events t]|] eqn:E; [|apply TakenFailed, kept_refl].
    apply inputTranscript_plain in E. apply TakenPlain; [apply kept_speech|done]. }
  next_kind; [|apply TakenPlain; [apply kept_refl|constructor]].
  apply TakenPlain; [apply kept_refl|]. unfold inputTranscriptionFailed. case_match; [constructor|by apply plain_one].
Qed.
End Taken.

(** ** What holds of a session's moves

    A relation between a state, what is told from it and the state it leads
    to holds of any run when it holds of each event and of each critical
    section of a send. *)

Section Moves.
Context {tables : UnicodeTables} (R : session -> list RealtimeServerEvent -> session -> Prop).
Context (R_refl : forall s, R s [] s)
  (R_trans : forall s1 s2 s3 l l', R s1 l s2 -> R s2 l' s3 -> R s1 (l ++ l') s3)
  (R_hear : forall event s events s', hear event s = (events, s') -> R s (told events) s')
  (R_expect : forall modalities s, R s [] (expectResponse modalities s))
  (R_push : forall command s1 s2 l, admits command s1 = None -> R s1 l s2 -> R s1 l (push_update command s2))
  (R_bill : forall billed s, R s [] (set_meter (Meter.record billed <$> s_meter s) s)).

Lemma hear_all_R heard s events s' : hear_all heard s = (events, s') -> R s (told events) s'.
Proof.
  revert s events s'. induction heard as [|event heard IH]; intros s events s'; cbn [hear_all]; [intros [= <- <-]; apply R_refl|].
  destruct (hear event s) as [events1 s1] eqn:E1. destruct (hear_all heard s1) as [events2 s2] eqn:E2. intros [= <- <-].
  rewrite told_app. eapply R_trans; [by eapply R_hear|by eapply IH].
Qed.

Lemma wireCommand_R command s event s' : wireCommand command s = (event, s') -> R s [] s'.
Proof.
  destruct command; cbn [wireCommand]; try (intros [= <- <-]; apply R_refl). unfold wireResponseCreate.
  repeat case_match; intros [= <- <-]; by auto.
Qed.

Lemma Send_R command write m s answer events s' : Send command write m s = (answer, events, s') -> R s (told events) s'.
Proof.
  unfold Send. destruct (wireCommand command s) as [event s0] eqn:E0. apply wireCommand_R in E0.
  destruct event as [event|param|]; [|by intros [= <- <- <-]..].
  destruct (hear_all (m_wired m) s0) as [events1 s1] eqn:E1. apply hear_all_R in E1.
  assert (H1 : R s (told events1) s1) by exact (R_trans _ _ _ _ _ E0 E1).
  destruct (admits command s1) eqn:Ea; [by intros [= <- <- <-]|].
  destruct (match s_meter s1 with Some _ => _ | None => _ end) as [billed|]; [|by intros [= <- <- <-]].
  destruct (hear_all (m_admitted m) s1) as [events2 s2] eqn:E2. apply hear_all_R in E2.
  destruct (hear_all (m_writing m) (push_update command s2)) as [events3 s3] eqn:E3. apply hear_all_R in E3.
  assert (H3 : R s (told (events1 ++ events2 ++ events3)) s3).
  { rewrite !told_app. eapply R_trans; [exact H1|]. eapply R_trans; [by apply R_push|exact E3]. }
  destruct write; intros [= <- <- <-]; [done|]. rewrite <-(app_nil_r (told _)). by eapply R_trans.
Qed.

Lemma moves_R xs s events s' : moves xs s = (events, s') -> R s (told events) s'.
Proof.
  revert s events s'. induction xs as [|x xs IH]; intros s events s'; cbn [moves]; [intros [= <- <-]; apply R_refl|].
  destruct (move x s) as [events1 s1] eqn:E1. destruct (moves xs s1) as [events2 s2] eqn:E2. intros [= <- <-].
  rewrite told_app. eapply R_trans; [|by eapply IH]. destruct x as [event|command write m]; cbn [move] in E1.
  - by eapply R_hear.
  - destruct (Send command write m s) as [[answer events0] s0] eqn:Es. injection E1 as <- <-. by eapply Send_R.
Qed.
End Moves.

(** ** Responses *)

(** Whether a client following the session counts a response as running. *)
Inductive Following := Idle | Answering (id : string) | Overlapping.

Definition follow (f : Following) (event : RealtimeServerEvent) : Following :=
  match event with
  | EvResponseCreated id =>
      match f with
      | Idle => Answering id
      | Answering other => if other =s id then f else Overlapping
      | Overlapping => Overlapping
      end
  | EvResponseDone id _ _ _ _ _ => match f with Answering other => if other =s id then Idle else f | _ => f end
  | _ => f
  end.

Definition following (s : session) : Following := if openResponse s =s "" then Idle else Answering (openResponse s).

Lemma follow_plain l f : Forall plain l -> foldl follow f l = f.
Proof. intros H. induction H as [|e l He _ IH]; [done|]. cbn [foldl]. rewrite <-IH at 2. by destruct e. Qed.

Lemma following_kept s s' : openResponse s' = openResponse s -> following s' = following s.
Proof. unfold following. by intros ->. Qed.

Lemma responseCreated_followed event s said s' : responseCreated event s = (said, s') ->
  foldl follow (following s) (told (match said with inl events => events | inr _ => [] end)) = following s'.
Proof.
  unfold responseCreated. destruct (se_Response event) as [r|]; [|by intros [= <- <-]].
  destruct (r_ID r =s "") eqn:Er; [by intros [= <- <-]|]. destruct (statusReason _ r); [|by intros [= <- <-]].
  intros [= <- <-]. assert (Ho : following (match expected s with
      | [] => set_responses (r_ID r) [] (asked s) s
      | modalities :: rest => set_responses (r_ID r) rest (<[r_ID r := modalities]> (asked s)) s end) = Answering (r_ID r)).
  { unfold following. destruct (expected s); cbn [openResponse set_responses]; by rewrite Er. }
  rewrite Ho. unfold following. destruct (openResponse s =s "") eqn:Eo; cbn [negb andb]; [done|].
  destruct (openResponse s =s r_ID r) eqn:E; cbn [negb].
  - bool_cases. rewrite E. cbn. by rewrite String.eqb_refl.
  - cbn. by rewrite String.eqb_refl.
Qed.

Lemma responseDone_followed event s said s' : responseDone event s = (said, s') ->
  foldl follow (following s) (told (match said with inl events => events | inr _ => [] end)) = following s'.
Proof.
  unfold responseDone. destruct (se_Response event) as [r|]; [|by intros [= <- <-]].
  destruct (r_ID r =s "") eqn:Er; [by intros [= <- <-]|]. destruct (responseStatus _) as [status|]; [|by intros [= <- <-]].
  destruct (statusReason _ r) as [reason|]; [|by intros [= <- <-]].
  destruct (if negb (tokenUsage (s_dialect s)) then _ else _) as [[units source]|]; [|by intros [= <- <-]].
  intros [= <- <-]. unfold following. destruct (openResponse s =s r_ID r) eqn:E.
  - apply String.eqb_eq in E. cbn [openResponse set_speech set_responses]. rewrite E, Er. cbn. by rewrite String.eqb_refl.
  - cbn [openResponse set_speech]. destruct (openResponse s =s "") eqn:Eo; [done|]. cbn. by rewrite E.
Qed.

Lemma forget_update_sub id pending update : update ∈ forget_update id pending -> update ∈ pending.
Proof.
  induction pending as [|p pending IH]; cbn [forget_update]; [done|]. destruct (_ =s _).
  - by right.
  - rewrite !elem_of_cons. intros [->|H]; [by left|right; by apply IH].
Qed.

(** An error event changes the failure and the updates that wait. *)
Lemma errorEvent_kept value s events s' : errorEvent value s = (events, s') ->
  Forall plain (told events) /\ exists s0, kept s s0 /\
    (s' = s0 \/ exists id, s' = set_config (s_config s0) (forget_update id (s_pending s0)) s0).
Proof.
  unfold errorEvent. intros [= <- <-]. split; [by repeat constructor|].
  set (failed := if Category _ =s UpstreamInvalidReq then s else _).
  exists failed. split; [unfold failed; case_match; by split|].
  repeat case_match; try (by left); right; by eexists.
Qed.

Section Followed.
Context {tables : UnicodeTables}.

Lemma hear_followed event s events s' : hear event s = (events, s') -> foldl follow (following s) (told events) = following s'.
Proof.
  unfold hear. pose proof (translate_taken (renamed s event) s) as H.
  destruct (translate (renamed s event) s) as [said s1] eqn:E. intros [= <- <-]. clear E.
  inversion H as [evs s2 Hk Hp|f s2 Hk|Hkind Hr|Hkind Hr|call s2 Hkind Ht|call s2 Hkind Ht|value evs s2 He|confirmed rest Hp]; subst.
  - rewrite follow_plain by done. symmetry. by apply following_kept, Hk.
  - symmetry. by apply following_kept, Hk.
  - by eapply responseCreated_followed.
  - by eapply responseDone_followed.
  - unfold toolCall in Ht. injection Ht as <- <-. done.
  - unfold toolCall in Ht. injection Ht as <- <-. done.
  - apply errorEvent_kept in He as (Hp & s0 & Hk & Hs). rewrite follow_plain by done. symmetry. apply following_kept.
    destruct Hs as [->|(id & ->)]; by apply Hk.
  - done.
Qed.

(** C26. Whatever the provider sends, and whatever the client sends meanwhile,
    a client following the session is never told of a response while it still
    counts another as running: every response told created is told done before
    the next, even when the provider says nothing of its end. *)
Theorem responses_never_overlap xs d requestID config key handshakeAt :
  let '(events, s) := moves xs (opened d requestID config key handshakeAt) in
  foldl follow Idle (told events) = (if openResponse s =s "" then Idle else Answering (openResponse s)).
Proof.
  destruct (moves xs _) as [events s] eqn:E.
  assert (H : foldl follow (following (opened d requestID config key handshakeAt)) (told events) = following s).
  { refine (moves_R (fun s l s' => foldl follow (following s) l = following s') _ _ _ _ _ _ xs _ _ _ E).
    - done.
    - intros s1 s2 s3 l l' H1 H2. by rewrite foldl_app, H1.
    - intros. by eapply hear_followed.
    - done.
    - intros command s1 s2 l _ ->. by destruct command.
    - done. }
  unfold following in H. rewrite <-H. f_equal. unfold opened. destruct (tokenUsage d); done.
Qed.

(** ** Billing *)

(** The session and every update that waits are billed one way. *)
Record billed_as (clock : bool) (s : session) : Prop := {
  billed_config : clockBilled (s_dialect s) (td_Type (cfg_TurnDetection (s_config s))) = clock;
  billed_pending : forall update t, update ∈ s_pending s -> up_TurnDetection (pu_Update update) = Some t ->
    clockBilled (s_dialect s) (td_Type t) = clock;
}.

Lemma billed_kept clock s s' :
  s_dialect s' = s_dialect s -> s_config s' = s_config s -> (forall update, update ∈ s_pending s' -> update ∈ s_pending s) ->
  billed_as clock s -> billed_as clock s'.
Proof. intros Hd Hc Hp [H1 H2]. split; rewrite ?Hd, ?Hc; [done|]. intros update t Hu. by apply H2, Hp. Qed.

Lemma mergeUpdate_detection config update :
  cfg_TurnDetection (mergeUpdate config update) = default (cfg_TurnDetection config) (up_TurnDetection update).
Proof. done. Qed.

Lemma clockBilled_unclocked d kind : billsClock d = false -> clockBilled d kind = false.
Proof.
  intros H. destruct (clockBilled d kind) eqn:E; [|done]. rewrite <-H. unfold billsClock. symmetry. apply existsb_exists.
  pose proof E as Ek. unfold clockBilled in Ek. destruct (TurnDetectionOf kind _) as [served|] eqn:Es; [|done].
  apply List.find_some in Es as [Hin Hk]. exists served. split; [done|]. apply String.eqb_eq in Hk. by rewrite Hk.
Qed.

(** What is projected of the updates is billed as the session is. *)
Lemma pendingDetection_billed clock s : billed_as clock s -> clockBilled (s_dialect s) (pendingDetection s) = clock.
Proof.
  intros [Hc Hp]. unfold pendingDetection. revert Hc Hp. generalize (td_Type (cfg_TurnDetection (s_config s))).
  induction (s_pending s) as [|update pending IH]; intros kind Hc Hp; cbn [foldl]; [done|]. apply IH.
  - destruct (up_TurnDetection (pu_Update update)) as [t|] eqn:E; [|done]. apply (Hp update t); [by left|done].
  - intros u t Hu. apply Hp. by right.
Qed.

Lemma admits_billed clock command s h config t :
  billed_as clock s -> admits command s = None -> command = CmdSessionUpdate h config -> up_TurnDetection config = Some t ->
  clockBilled (s_dialect s) (td_Type t) = clock.
Proof.
  intros Hb Ha -> Ht. cbn [admits] in Ha. unfold admitUpdate in Ha. rewrite Ht in Ha.
  rewrite <-(pendingDetection_billed clock s Hb). destruct (billsClock (s_dialect s)) eqn:Eb; cbn [negb] in Ha.
  - destruct (Bool.eqb _ _) eqn:E; [|done]. by apply eqb_prop in E.
  - by rewrite !clockBilled_unclocked.
Qed.

(** An update that was admitted is billed as the session was, and still is. *)
Lemma push_billed clock command s1 s2 :
  admits command s1 = None -> s_dialect s2 = s_dialect s1 -> (billed_as clock s1) -> billed_as clock s2 ->
  billed_as clock (push_update command s2).
Proof.
  intros Ha Hd H1 H2. destruct command as [h update| | | | | | | | | |]; try exact H2. destruct H2 as [B1 B2].
  split; cbn [push_update s_config s_dialect s_pending set_config]; [done|].
  intros u t [Hu|Hu%list_elem_of_singleton]%elem_of_app; [by apply B2|].
  subst u. cbn [pu_Update]. intros Ht. rewrite Hd. by eapply admits_billed.
Qed.

Lemma hear_billed event s events s' clock : hear event s = (events, s') ->
  (s_dialect s' = s_dialect s /\ billing s' = billing s) /\ (billed_as clock s -> billed_as clock s').
Proof.
  unfold hear. pose proof (translate_taken (renamed s event) s) as H.
  destruct (translate (renamed s event) s) as [said s1] eqn:E. intros [= <- <-]. clear E.
  assert (Hkept : forall s2, kept s s2 -> (s_dialect s2 = s_dialect s /\ billing s2 = billing s) /\ (billed_as clock s -> billed_as clock s2)).
  { intros s2 Hk. split; [split; apply Hk|]. apply billed_kept; try apply Hk. rewrite (kept_pending _ _ Hk). done. }
  inversion H as [evs s2 Hk Hp|f s2 Hk|Hkind Hr|Hkind Hr|call s2 Hkind Ht|call s2 Hkind Ht|value evs s2 He|confirmed rest Hp]; subst.
  - by apply Hkept.
  - by apply Hkept.
  - unfold responseCreated in Hr. repeat case_match; simplify_eq/=; (split; [done|]); by apply billed_kept.
  - unfold responseDone in Hr. repeat case_match; simplify_eq/=; (split; [done|]); by apply billed_kept.
  - unfold toolCall in Ht. injection Ht as <- <-. split; [done|]. by apply billed_kept.
  - unfold toolCall in Ht. injection Ht as <- <-. split; [done|]. by apply billed_kept.
  - apply errorEvent_kept in He as (_ & s0 & Hk & [->|(id & ->)]); [by apply Hkept|]. destruct (Hkept s0 Hk) as [H1 H2].
    split; [done|]. intros Hb. eapply billed_kept; [..|by apply H2]; try done. apply forget_update_sub.
  - split; [done|]. intros [H1 H2]. split; cbn [s_config s_dialect s_pending set_config].
    + rewrite mergeUpdate_detection. destruct (up_TurnDetection (pu_Update confirmed)) as [t|] eqn:Et; [|done].
      apply (H2 confirmed t); [|done]. rewrite Hp. by left.
    + intros u t Hu. apply H2. rewrite Hp. by right.
Qed.

(** The way a session is billed never changes while it is open: at every
    moment, whatever updates were sent, confirmed, refused or still wait, and
    however the provider's events interleave with them, the turn detection in
    effect and every one that waits is billed as the meter opened to bill. *)
Theorem billing_mode_never_changes xs d requestID config key handshakeAt :
  let s := snd (moves xs (opened d requestID config key handshakeAt)) in
  let clock := clockBilled d (td_Type (cfg_TurnDetection config)) in
  s_dialect s = d /\ clockBilled d (td_Type (cfg_TurnDetection (s_config s))) = clock /\
  (forall update t, update ∈ s_pending s -> up_TurnDetection (pu_Update update) = Some t -> clockBilled d (td_Type t) = clock) /\
  billing s = (if tokenUsage d then None else Some clock).
Proof.
  destruct (moves xs _) as [events s] eqn:E. cbv zeta. cbn [snd].
  assert (H : (s_dialect s = s_dialect (opened d requestID config key handshakeAt) /\
      billing s = billing (opened d requestID config key handshakeAt)) /\
    forall clock, billed_as clock (opened d requestID config key handshakeAt) -> billed_as clock s).
  { refine (moves_R (fun s _ s' => (s_dialect s' = s_dialect s /\ billing s' = billing s) /\
      forall clock, billed_as clock s -> billed_as clock s') _ _ _ _ _ _ xs _ _ _ E).
    - done.
    - intros s1 s2 s3 _ _ [[Hd Hm] H1] [[Hd' Hm'] H2]. split; [split; congruence|]. intros clock Hc. by apply H2, H1.
    - intros event s0 evs s1 He. split; [by destruct (hear_billed event s0 evs s1 true He)|].
      intros clock. by destruct (hear_billed event s0 evs s1 clock He).
    - intros modalities s0. split; [done|]. intros clock. by apply billed_kept.
    - intros command s1 s2 l Ha [Hs Hb]. split; [by destruct command|]. intros clock Hc.
      exact (push_billed clock command s1 s2 Ha (proj1 Hs) Hc (Hb clock Hc)).
    - intros billed s0. split; [split; [done|]; unfold billing; cbn; by destruct (s_meter s0)|]. intros clock. by apply billed_kept. }
  assert (Ho : s_dialect (opened d requestID config key handshakeAt) = d) by (unfold opened; by destruct (tokenUsage d)).
  destruct H as [[Hd Hm] Hb]. rewrite Ho in Hd.
  destruct (Hb (clockBilled d (td_Type (cfg_TurnDetection config)))) as [B1 B2].
  { split; rewrite Ho; unfold opened; destruct (tokenUsage d); try done; cbn; by intros u t H%not_elem_of_nil. }
  rewrite Hd in B1, B2. split; [done|]. split; [done|]. split; [done|]. rewrite Hm. unfold opened. by destruct (tokenUsage d).
Qed.
End Followed.

(** ** Tool calls *)

(** One call, as the provider streams it or as a client following the session
    accumulates it: the arguments so far, and those of the calls completed
    under its id. *)
Record calling := mkCalling { c_arguments : string; c_completed : list string }.

(** The provider: deltas, then the whole arguments. *)
Definition provider_call (id : string) (c : calling) (event : serverEvent) : calling :=
  if se_CallID event =s id then
    if se_Type event =s "response.function_call_arguments.delta" then mkCalling (c_arguments c +:+ Delta event) (c_completed c)
    else if se_Type event =s "response.function_call_arguments.done" then
      mkCalling "" (c_completed c ++ [if c_arguments c =s "" then se_Arguments event else c_arguments c])
    else c
  else c.

(** The client: every increment is appended. *)
Definition client_call (id : string) (c : calling) (event : RealtimeServerEvent) : calling :=
  match event with
  | EvToolCall _ _ call _ delta complete =>
      if call =s id then
        let text := c_arguments c +:+ default "" delta in
        if complete then mkCalling "" (c_completed c ++ [text]) else mkCalling text (c_completed c)
      else c
  | _ => c
  end.

(** The names told of a call since it began; more than one is a fault. *)
Inductive naming := Unnamed | Named | NamedTwice.

Definition client_name (id : string) (n : naming) (event : RealtimeServerEvent) : naming :=
  match event with
  | EvToolCall _ _ call name _ complete =>
      if call =s id then
        let n := match name, n with None, _ => n | Some _, Unnamed => Named | Some _, _ => NamedTwice end in
        match n with NamedTwice => NamedTwice | _ => if complete then Unnamed else n end
      else n
  | _ => n
  end.

(** The state of a call's increments is what was streamed of it. *)
Definition tells_call (id : string) (s : session) (c : calling) (n : naming) : Prop :=
  (id ∈ streamed s <-> c_arguments c <> "") /\ n = (if bool_decide (id ∈ namedTool s) then Named else Unnamed).

Lemma client_call_plain id l c : Forall plain l -> foldl (client_call id) c l = c.
Proof. intros H. induction H as [|e l He _ IH]; [done|]. cbn [foldl]. rewrite <-IH at 2. by destruct e. Qed.

Lemma client_name_plain id l n : Forall plain l -> foldl (client_name id) n l = n.
Proof. intros H. induction H as [|e l He _ IH]; [done|]. cbn [foldl]. rewrite <-IH at 2. by destruct e. Qed.

Lemma tells_call_kept id s s' c n :
  namedTool s' = namedTool s -> streamed s' = streamed s -> tells_call id s c n -> tells_call id s' c n.
Proof. unfold tells_call. by intros -> ->. Qed.

Lemma str_app_empty a b : a +:+ b = "" <-> a = "" /\ b = "".
Proof. destruct a; cbn; [by split; [auto|intros [_ ->]]|]. split; [done|by intros [H _]]. Qed.

Lemma named_iff (P Q : Prop) `{Decision P, Decision Q} :
  (P <-> Q) -> (if bool_decide P then Named else Unnamed) = (if bool_decide Q then Named else Unnamed).
Proof. intros H'. by rewrite (bool_decide_ext P Q H'). Qed.

(** One increment. *)
Lemma toolCall_tells id event text complete s call s' c n :
  toolCall event text complete s = (call, s') -> tells_call id s c n ->
  let c' :=
    if se_CallID event =s id
    then if complete then mkCalling "" (c_completed c ++ [if c_arguments c =s "" then text else c_arguments c])
         else mkCalling (c_arguments c +:+ text) (c_completed c)
    else c in
  client_call id c call = c' /\ tells_call id s' c' (client_name id n call).
Proof.
  unfold toolCall. set (name := if _ && negb _ then se_Name event else _).
  set (names := negb (name =s "") && _). intros [= <- <-] [Hs Hn]. cbn [client_call client_name].
  destruct (se_CallID event =s id) eqn:E; bool_cases.
  2: { split; [done|]. destruct complete; (split; [cbn; destruct (text =s ""); set_solver|]); rewrite Hn;
       destruct names; cbn; apply named_iff; set_solver. }
  subst id. destruct complete; cbn [negb andb orb].
  - rewrite orb_true_r, andb_true_r. assert (Ht : c_arguments c +:+ default "" (if negb (bool_decide (se_CallID event ∈ streamed s)) then Some text else None)
      = (if c_arguments c =s "" then text else c_arguments c)).
    { destruct (bool_decide_reflect (se_CallID event ∈ streamed s)) as [Hin|Hin]; cbn.
      - rewrite str_app_nil_r. destruct (c_arguments c =s "") eqn:Ec; [|done]. bool_cases. by apply Hs in Hin.
      - destruct (c_arguments c =s "") eqn:Ec; bool_cases; [by rewrite Ec|]. by destruct Hin; apply Hs. }
    rewrite Ht. split; [done|]. split; [cbn; set_solver|]. rewrite bool_decide_eq_false_2 by (cbn; set_solver).
    subst n. unfold names. destruct (negb (name =s "")), (bool_decide_reflect (se_CallID event ∈ namedTool s)); done.
  - rewrite orb_false_r. assert (Ht : default "" (if negb (text =s "") then Some text else None) = text).
    { destruct (text =s "") eqn:Et; [|done]. by bool_cases. }
    rewrite Ht. split; [done|]. split.
    + cbn [streamed set_tools c_arguments]. rewrite str_app_empty. destruct (text =s "") eqn:Et; bool_cases; cbn; [set_solver|].
      split; [|set_solver]. intros _ [_ H]. done.
    + subst n. cbn [namedTool set_tools]. unfold names.
      destruct (bool_decide (se_CallID event ∈ namedTool s)) eqn:Eb; rewrite ?andb_false_r, ?andb_true_r; cbn; rewrite ?Eb; [done|].
      destruct (name =s ""); cbn; rewrite ?Eb; [done|]. by rewrite bool_decide_eq_true_2 by set_solver.
Qed.

Section Calls.
Context {tables : UnicodeTables}.

(** The dialects rename no event of a call. *)
Lemma renamed_call s event kind :
  a_dialect (s_dialect s) -> kind ∈ ["response.function_call_arguments.delta"; "response.function_call_arguments.done"] ->
  (se_Type (renamed s event) = kind <-> se_Type event = kind).
Proof.
  unfold a_dialect, renamed. rewrite !elem_of_cons. intros [->|[->|H%not_elem_of_nil]] Hk; [..|done].
  - done.
  - unfold xAIDialect. cbn [aliases]. destruct (_ !! _) as [other|] eqn:E; [|done]. cbn. apply lookup_insert_Some in E as [[<- <-]|[_ E]].
    2: apply lookup_singleton_Some in E as [<- <-].
    all: split; intros ?; subst kind; destruct Hk as [Hk|[Hk|Hk%not_elem_of_nil]]; done.
Qed.

Lemma renamed_text s event :
  se_CallID (renamed s event) = se_CallID event /\ Delta (renamed s event) = Delta event /\
  se_Arguments (renamed s event) = se_Arguments event.
Proof. unfold renamed. by destruct (_ !! _). Qed.

Lemma translate_delta event s : se_Type event = "response.function_call_arguments.delta" ->
  translate event s = let '(call, s') := toolCall event (Delta event) false s in (inl (one call), s').
Proof. intros H. unfold translate. by rewrite H. Qed.

Lemma translate_call event s : se_Type event = "response.function_call_arguments.done" ->
  translate event s = let '(call, s') := toolCall event (se_Arguments event) true s in (inl (one call), s').
Proof. intros H. unfold translate. by rewrite H. Qed.

(** Every other event keeps the calls. *)
Lemma translate_no_call event s said s' :
  se_Type event <> "response.function_call_arguments.delta" -> se_Type event <> "response.function_call_arguments.done" ->
  translate event s = (said, s') ->
  namedTool s' = namedTool s /\ streamed s' = streamed s /\
  forall id c n, let l := told (match said with inl events => events | inr _ => [] end) in
    foldl (client_call id) c l = c /\ foldl (client_name id) n l = n.
Proof.
  intros Hn1 Hn2 E. pose proof (translate_taken event s) as H. rewrite E in H.
  inversion H as [evs s2 Hk Hp|f s2 Hk|Hkind Hr|Hkind Hr|call s2 Hkind Ht|call s2 Hkind Ht|value evs s2 He|confirmed rest Hp];
    subst; try done.
  - split; [apply Hk|]. split; [apply Hk|]. intros id c n. cbv zeta. by rewrite client_call_plain, client_name_plain.
  - split; [apply Hk|]. split; [apply Hk|]. done.
  - unfold responseCreated in Hr. repeat case_match; simplify_eq/=; done.
  - unfold responseDone in Hr. repeat case_match; simplify_eq/=; done.
  - apply errorEvent_kept in He as (Hp & s0 & Hk & Hs). split; [destruct Hs as [->|(id & ->)]; by apply Hk|].
    split; [destruct Hs as [->|(id & ->)]; by apply Hk|]. intros id c n. cbv zeta. by rewrite client_call_plain, client_name_plain.
Qed.

Lemma hear_tells_call id event s events s' c n :
  hear event s = (events, s') -> a_dialect (s_dialect s) -> tells_call id s c n ->
  a_dialect (s_dialect s') /\ foldl (client_call id) c (told events) = provider_call id c event /\
  tells_call id s' (provider_call id c event) (foldl (client_name id) n (told events)).
Proof.
  intros He Hd Hc. split; [by destruct (hear_billed event s events s' true He) as [[-> _] _]|].
  unfold hear in He. destruct (renamed_text s event) as (Hid & Hdelta & Hargs).
  pose proof (renamed_call s event _ Hd (list_elem_of_here _ _)) as Hk1.
  pose proof (renamed_call s event _ Hd (list_elem_of_further _ _ _ (list_elem_of_here _ _))) as Hk2.
  unfold provider_call. rewrite <-Hid.
  destruct (decide (se_Type event = "response.function_call_arguments.delta")) as [K1|K1];
    [|destruct (decide (se_Type event = "response.function_call_arguments.done")) as [K2|K2]].
  - rewrite translate_delta in He by (by apply Hk1). destruct (toolCall _ _ _ _) as [call s1] eqn:Et. injection He as <- <-.
    destruct (toolCall_tells id _ _ _ _ _ _ c n Et Hc) as [H1 H2]. cbn [told one omap list_omap unanswered up_Event foldl].
    rewrite K1, Hdelta in *. cbn [String.eqb]. split; [exact H1|exact H2].
  - rewrite translate_call in He by (by apply Hk2). destruct (toolCall _ _ _ _) as [call s1] eqn:Et. injection He as <- <-.
    destruct (toolCall_tells id _ _ _ _ _ _ c n Et Hc) as [H1 H2]. cbn [told one omap list_omap unanswered up_Event foldl].
    rewrite K2, Hargs in *. split; [exact H1|exact H2].
  - destruct (translate (renamed s event) s) as [said s1] eqn:E. injection He as <- <-.
    destruct (translate_no_call _ _ _ _ (fun h => K1 (proj1 Hk1 h)) (fun h => K2 (proj1 Hk2 h)) E) as (Hn & Hs & Hl).
    destruct (Hl id c n) as [H1 H2]. cbv zeta in H1, H2. rewrite H1, H2.
    rewrite (proj2 (String.eqb_neq _ _) K1), (proj2 (String.eqb_neq _ _) K2).
    assert ((if se_CallID (renamed s event) =s id then c else c) = c) as -> by (by destruct (se_CallID _ =s id)).
    split; [done|].
    by apply (tells_call_kept id s).
Qed.

(** A client that appends the increments of a tool call has, when the call
    completes, exactly the arguments the provider streamed, or the complete
    ones when it streamed none: nothing is lost or repeated, whatever other
    events come between and however often an id is used again; and a call is
    named at most once. *)
Theorem tool_calls_are_told_once d requestID config key handshakeAt heard id :
  a_dialect d ->
  let '(events, s) := hear_all heard (opened d requestID config key handshakeAt) in
  foldl (client_call id) (mkCalling "" []) (told events) = foldl (provider_call id) (mkCalling "" []) heard /\
  foldl (client_name id) Unnamed (told events) <> NamedTwice.
Proof.
  intros Hd. set (s0 := opened d requestID config key handshakeAt).
  assert (H0 : a_dialect (s_dialect s0) /\ tells_call id s0 (mkCalling "" []) Unnamed).
  { unfold s0, opened. destruct (tokenUsage d); split; done. }
  assert (H : forall heard s c n, a_dialect (s_dialect s) -> tells_call id s c n ->
    let '(events, s') := hear_all heard s in
    foldl (client_call id) c (told events) = foldl (provider_call id) c heard /\
    exists c', tells_call id s' c' (foldl (client_name id) n (told events))).
  { clear. intros heard. induction heard as [|event heard IH]; intros s c n Hd Hc; cbn [hear_all]; [by split; [|exists c]|].
    destruct (hear event s) as [events s1] eqn:E1. destruct (hear_tells_call id _ _ _ _ c n E1 Hd Hc) as (Hd1 & H1 & Hc1).
    specialize (IH s1 _ _ Hd1 Hc1). destruct (hear_all heard s1) as [more s2]. rewrite told_app, !foldl_app. cbn [foldl].
    by rewrite H1. }
  specialize (H heard s0 _ _ (proj1 H0) (proj2 H0)). destruct (hear_all heard s0) as [events s].
  destruct H as [H (c' & _ & Hn)]. split; [exact H|]. rewrite Hn. by case_match.
Qed.
End Calls.

Lemma tool_calls_are_told_once_witness :
  let delta text := mkServerEvent "response.function_call_arguments.delta" None None None "i" 0 0 0 "r" None text "" "call" "look_up" "" NoUsage in
  let finished := mkServerEvent "response.function_call_arguments.done" None None None "i" 0 0 0 "r" None "" "" "call" "look_up" "{12}" NoUsage in
  let config := mkSessionConfig None None None RealtimePCM16 None (mkTurnDetection TurnDetectionNone None None None None None None)
    None None None None None in
  a_dialect openAIDialect /\
  let '(events, s) := hear_all (tables := ascii_tables) [delta "{1"; delta "2}"; finished; finished]
                        (opened openAIDialect "req" config (mkSessionKey false "k") 5) in
  foldl (client_call "call") (mkCalling "" []) (told events) = mkCalling "" ["{12}"; "{12}"] /\
  foldl (client_name "call") Unnamed (told events) <> NamedTwice.
Proof.
  intros delta finished config. assert (Hd : a_dialect openAIDialect) by (by left). split; [exact Hd|].
  pose proof (tool_calls_are_told_once (tables := ascii_tables) openAIDialect "req" config (mkSessionKey false "k") 5
    [delta "{1"; delta "2}"; finished; finished] "call" Hd) as H.
  destruct (hear_all _ _) as [events s]. destruct H as [H1 H2]. split; [rewrite H1; vm_compute; reflexivity|exact H2].
Defined.

(** ** A refused response *)

(** What a [response.create] asked for waits for the next response created;
    when the provider refuses the command, the next response is another, and
    it is relayed as the refused one asked: here a spoken answer the provider
    begins on its own is not relayed at all. *)
Example refused_create_silences_the_next_response :
  let spoken := mkSessionConfig None (Some ["audio"]) None RealtimePCM16 (Some RealtimePCM16)
    (mkTurnDetection TurnDetectionServerVAD None None None None (Some true) (Some true)) None None None None None in
  let written := CmdResponseCreate (mkCommandHeader 1 "req" "cmd") (Some (mkResponseParameters None (Some ["text"]) None None)) in
  let event kind := mkServerEvent kind None None None "i" 0 0 0 "r" None "" "" "" "" "" NoUsage in
  let refusal := mkServerEvent "error" (Some (mkWireError "invalid_request_error" None "" (Some "cmd"))) None None "" 0 0 0 ""
    None "" "" "" "" "" NoUsage in
  let created := mkServerEvent "response.created" None None None "" 0 0 0 "" (Some (mkResponse "r" "" NoDetails [] None))
    "" "" "" "" "" NoUsage in
  let audio := mkServerEvent "response.output_audio.delta" None None None "i" 0 0 0 "r" None "AAAA" "" "" "" "" NoUsage in
  let s := opened openAIDialect "req" spoken (mkSessionKey false "k") 5 in
  let m := mkMeanwhile [] [] [] in
  told (fst (moves (tables := ascii_tables) [Hears created; Hears audio] s)) =
    [EvResponseCreated "r"; EvOutputAudioDelta "r" "i" 0 RealtimePCM16 "AAAA"] /\
  omap (fun e => match e with EvOutputAudioDelta _ _ _ _ data => Some data | _ => None end)
    (told (fst (moves (tables := ascii_tables) [Sends written None m; Hears refusal; Hears created; Hears audio] s))) = [].
Proof. vm_compute. split; reflexivity. Qed.

(** ** Audio frames *)

Lemma decode_buffer_app l l' held : decode_buffer (l ++ l') = Some held -> (length l mod 4 = 0)%nat ->
  (exists h, decode_buffer l = Some h) /\ exists h, decode_buffer l' = Some h.
Proof.
  revert held. induction l as [l IH] using (induction_ltof1 _ (@length ascii)). unfold ltof in IH. intros held H Hl.
  destruct l as [|a [|b [|c [|d l]]]]; try done; [by split; eexists|]. cbn [app decode_buffer] in H.
  destruct (quantum a b c d) as [q|] eqn:Eq; [|done]. cbn [mbind option_bind] in H.
  assert (Hl' : (length l mod 4 = 0)%nat).
  { cbn [length] in Hl. replace (S (S (S (S (length l))))) with (length l + 1 * 4)%nat in Hl by lia. by rewrite Nat.Div0.mod_add in Hl. }
  cbn [decode_buffer]. rewrite Eq. cbn [mbind option_bind]. destruct (q =? 3)%Z eqn:E3.
  - destruct (decode_buffer (l ++ l')) as [more|] eqn:Em; [|done].
    destruct (IH l ltac:(cbn; lia) _ Em Hl') as [(h & ->) H']. split; [by eexists|exact H'].
  - destruct l; [|done]. destruct l'; [|done]. split; by eexists.
Qed.

Lemma decode_stream_whole fuel buf rest held :
  (2 * length rest + (if (length buf <? 4)%nat then 1 else 2) <= fuel)%nat ->
  Forall (fun c => line_break c = false) rest -> (length buf <= decoder_buffer)%nat ->
  decode_buffer (buf ++ rest) = Some held -> exists h, decode_stream fuel buf rest = Some h.
Proof.
  revert buf rest held. induction fuel as [|fuel IH]; intros buf rest held Hf Hr Hb Hd; [destruct (_ <? _)%nat; lia|].
  cbn [decode_stream]. destruct (length buf <? 4)%nat eqn:E.
  - apply Nat.ltb_lt in E. destruct rest as [|c rest].
    { rewrite app_nil_r in Hd. apply decode_buffer_spec in Hd as (g & Hg & _). destruct buf; [by eexists|]. cbn [length] in *. lia. }
    set (room := (decoder_buffer - length buf)%nat). assert (Hroom : (1 <= room)%nat) by (unfold room, decoder_buffer; lia).
    assert (Hfilter : List.filter (fun c => negb (line_break c)) (take room (c :: rest)) = take room (c :: rest)).
    { pose proof (Forall_take _ room _ Hr) as Ht. revert Ht. generalize (take room (c :: rest)). intros l Hl.
      induction Hl as [|x l Hx _ IHl]; [done|]. cbn. rewrite Hx. cbn. by rewrite IHl. }
    rewrite Hfilter. apply (IH _ _ held).
    + rewrite length_drop. cbn [length] in *. destruct (_ <? 4)%nat; lia.
    + by apply Forall_drop.
    + rewrite length_app, length_take. unfold room. lia.
    + rewrite <-app_assoc, take_drop. exact Hd.
  - set (whole := (length buf / 4 * 4)%nat).
    assert (Hw : (whole <= length buf)%nat) by (unfold whole; pose proof (Nat.div_mod_eq (length buf) 4); lia).
    rewrite <-(take_drop whole buf), <-app_assoc in Hd.
    destruct (decode_buffer_app _ _ _ Hd) as [(h1 & H1) (h2 & H2)].
    { rewrite length_take_le by done. unfold whole. apply Nat.Div0.mod_mul. }
    rewrite H1. cbn [mbind option_bind].
    destruct (IH (drop whole buf) rest h2) as (h & Hh); [|done| |exact H2|rewrite Hh; by eexists].
    + assert (Hlow : (length (drop whole buf) < 4)%nat).
      { rewrite length_drop. pose proof (Nat.div_mod_eq (length buf) 4) as Hm.
        pose proof (Nat.mod_upper_bound (length buf) 4 ltac:(done)) as Hu. unfold whole. clear -Hm Hu.
        generalize dependent (length buf mod 4). generalize (length buf / 4). intros. lia. }
      rewrite (proj2 (Nat.ltb_lt _ _) Hlow). lia.
    + rewrite length_drop. lia.
Qed.

(** What the encoder writes is one whole buffer of the alphabet. *)
Lemma digit_alphabet n : digit n ->
  base64_alphabet (base64_digit n) = true /\ line_break (base64_digit n) = false /\ pad (base64_digit n) = false.
Proof.
  intros Hn. assert (H : forallb (fun k => let n := Z.of_nat k in
    base64_alphabet (base64_digit n) && negb (line_break (base64_digit n)) && negb (pad (base64_digit n)))
    (List.seq 0 64) = true) by (vm_compute; reflexivity).
  unfold digit in Hn. rewrite forallb_forall in H. specialize (H (Z.to_nat n)). rewrite Z2Nat.id in H by lia.
  rewrite !andb_true_iff, !negb_true_iff in H. destruct H as [[? ?] ?]; [|done]. apply in_seq. lia.
Qed.

Lemma encoded_buffer s :
  let l := String.list_ascii_of_string (base64_encode s) in
  Forall (fun c => line_break c = false) l /\ exists h, decode_buffer l = Some h.
Proof.
  induction s as [|a|a b|a b c s IH] using string_ind3; [split; [constructor|by eexists]|..].
  - destruct (base64_encode_one a) as (d0 & d1 & H0 & H1 & _ & ->).
    apply digit_alphabet in H0 as (A0 & B0 & C0), H1 as (A1 & B1 & C1). cbn. unfold quantum. rewrite A0, A1. cbn.
    split; [repeat constructor; done|by eexists].
  - destruct (base64_encode_two a b) as (d0 & d1 & d2 & H0 & H1 & H2 & _ & ->).
    apply digit_alphabet in H0 as (A0 & B0 & C0), H1 as (A1 & B1 & C1), H2 as (A2 & B2 & C2).
    cbn. unfold quantum. rewrite A0, A1, A2. cbn. split; [repeat constructor; done|by eexists].
  - destruct (base64_encode_three a b c s) as (d0 & d1 & d2 & d3 & H0 & H1 & H2 & H3 & _ & ->).
    apply digit_alphabet in H0 as (A0 & B0 & C0), H1 as (A1 & B1 & C1), H2 as (A2 & B2 & C2), H3 as (A3 & B3 & C3).
    destruct IH as [IH (h & Hh)]. cbn [String.list_ascii_of_string decode_buffer]. unfold quantum. rewrite A0, A1, A2, A3. cbn.
    rewrite Hh. split; [by repeat constructor|by eexists].
Qed.

(** A frame of bounded audio follows the contract. *)
Lemma encoded_frame_valid chunk : (1 <= len chunk <= maxAudioFrameBytes)%Z -> ValidateRealtimeAudioFrame (base64_encode chunk) = None.
Proof.
  intros Hc. unfold maxAudioFrameBytes in Hc. unfold ValidateRealtimeAudioFrame. rewrite base64_encode_length.
  apply or_else_None. split; apply refuse_if_None.
  - change MaxRealtimeAudioFrameBase64Length with 65536%Z. rewrite !orb_false_iff, negb_false_iff, !Z.ltb_ge, Z.eqb_eq.
    Z.to_euclidean_division_equations. lia.
  - destruct (encoded_buffer chunk) as [Hb (h & Hh)]. unfold decoded_bytes.
    destruct (decode_stream_whole (2 * length (String.list_ascii_of_string (base64_encode chunk)) + 2) []
      (String.list_ascii_of_string (base64_encode chunk)) h) as (held & ->); [cbn; lia|done|cbn; unfold decoder_buffer; lia|done|done].
Qed.

Lemma audio_chunks_spec fuel audio : (String.length audio <= fuel)%nat ->
  String.concat "" (audio_chunks fuel audio) = audio /\
  Forall (fun chunk => 1 <= len chunk <= maxAudioFrameBytes)%Z (audio_chunks fuel audio).
Proof.
  revert audio. induction fuel as [|fuel IH]; intros audio Hf; [by destruct audio; cbn in Hf; [split|lia]|].
  cbn [audio_chunks]. destruct (audio =s "") eqn:E; bool_cases; [by subst; split|].
  assert (Hl : (1 <= String.length audio)%nat) by (destruct audio; [done|cbn; lia]).
  set (size := Z.to_nat (Z.min maxAudioFrameBytes (len audio))).
  assert (Hs : (1 <= size <= String.length audio)%nat /\ (Z.of_nat size <= maxAudioFrameBytes)%Z).
  { unfold size, len, maxAudioFrameBytes. lia. }
  clearbody size. destruct (substring_split size audio) as (Hcut & Hl1 & Hl2); [lia|].
  destruct (IH (String.substring size (String.length audio - size) audio)) as [H1 H2]; [lia|]. split.
  - rewrite Hcut at 4. rewrite <-H1 at 2. destruct (audio_chunks fuel _); cbn; [by rewrite str_app_nil_r|done].
  - constructor; [|done]. unfold len. rewrite Hl1. lia.
Qed.

(** The audio a provider sends is relayed in frames that each follow the
    contract on their own and that, decoded and joined, are exactly the audio
    it sent; the meter is charged that audio once, whatever is relayed of it. *)
Theorem audio_is_framed_without_loss event s events s' :
  audioFrames event s = (inl events, s') ->
  exists format audio chunks, outputFormat s = Some format /\ base64_decode (Delta event) = Some audio /\
    told events = (fun chunk => EvOutputAudioDelta (se_ResponseID event) (se_ItemID event) (se_ContentIndex event) format
                                  (base64_encode chunk)) <$> chunks /\
    String.concat "" chunks = audio /\
    Forall (fun chunk => base64_decode (base64_encode chunk) = Some chunk /\ ValidateRealtimeAudioFrame (base64_encode chunk) = None) chunks /\
    s_meter s' = Meter.output (len audio) <$> s_meter s.
Proof.
  unfold audioFrames. destruct (outputFormat s) as [format|]; [|done]. destruct (base64_decode (Delta event)) as [audio|]; [|done].
  destruct (audio =s ""); [done|]. intros [= <- <-]. destruct (audio_chunks_spec (String.length audio) audio) as [H1 H2]; [lia|].
  exists format, audio, (audio_chunks (String.length audio) audio). split; [done|]. split; [done|]. split; [|split; [done|split; [|done]]].
  - rewrite <-(told_unanswered (_ <$> _)), <-list_fmap_compose. done.
  - eapply Forall_impl; [exact H2|]. intros chunk Hc. split; [apply base64_decode_encode|by apply encoded_frame_valid].
Qed.

Lemma audio_is_framed_without_loss_witness :
  let config := mkSessionConfig None None None RealtimePCM16 (Some RealtimeULaw)
    (mkTurnDetection TurnDetectionNone None None None None None None) None None None None None in
  let s := opened xAIDialect "req" config (mkSessionKey false "k") 5 in
  let event := mkServerEvent "response.output_audio.delta" None None None "i" 0 0 0 "r" None "AAECAwQ=" "" "" "" "" NoUsage in
  exists events s' chunks, audioFrames event s = (inl events, s') /\ String.concat "" chunks = default "" (base64_decode "AAECAwQ=") /\
    told events = (fun chunk => EvOutputAudioDelta "r" "i" 0 RealtimeULaw (base64_encode chunk)) <$> chunks.
Proof.
  intros config s event.
  assert (Hin : match fst (audioFrames event s) with inl _ => true | inr _ => false end = true) by (vm_compute; reflexivity).
  assert (Ho : outputFormat s = Some RealtimeULaw) by reflexivity. clearbody s. clear config.
  destruct (audioFrames event s) as [[events|] s'] eqn:E; [|discriminate Hin].
  destruct (audio_is_framed_without_loss event s events s' E) as (format & audio & chunks & Hf & Ha & Ht & Hc & _).
  rewrite Ho in Hf. injection Hf as <-. exists events, s', chunks. split; [reflexivity|].
  change (Delta event) with "AAECAwQ=" in Ha. rewrite Ha. split; [exact Hc|exact Ht].
Defined.
