(* ===== verification/ProviderConfig.v ===== *)
(** * Provider configuration (internal/providerconfig)

    The reviewed tables the serving process and the publisher both read: which
    request families and session kinds a slug's adapter can build under its
    protocol, which of them a model id requires, what a chat deployment
    produces, and the reasoning efforts and upstreams stated per model. *)

From S2P Require Import Prelude Ids Text Contract.

Definition ProtocolOpenAICompatible := "openai_compatible".
Definition ProtocolAnthropicMessages := "anthropic_messages".
Definition ProtocolDeepgramVoice := "deepgram_voice".
Definition ProtocolOpenAIAudio := "openai_audio".
Definition ProtocolOpenAIRealtime := "openai_realtime".
Definition ProtocolXAIRealtime := "xai_realtime".
Definition ProtocolXAISTT := "xai_stt".
Definition ProtocolElevenLabsSpeech := "elevenlabs_speech".

Definition RealtimeConversation := "conversation".
Definition RealtimeTranscription := "transcription".
Definition RealtimeTranslation := "translation".

(** ** What an adapter can build *)

(** [RealtimeSessionKinds]. *)
Definition RealtimeSessionKinds (slug protocol : string) : list string :=
  if protocol =s ProtocolOpenAIRealtime then [RealtimeConversation]
  else if protocol =s ProtocolXAIRealtime then [RealtimeConversation]
  else if protocol =s ProtocolXAISTT then [RealtimeTranscription]
  else [].

(** [ExecutableAPIFormats]. *)
Definition ExecutableAPIFormats (slug protocol : string) : list string :=
  if protocol =s ProtocolOpenAICompatible then
    if slug =s "openai-decisions" then [APIFormatDecisions]
    else
      [APIFormatResponses; APIFormatChatCompletions]
      ++ (if slug =s "openrouter" then [APIFormatEmbeddings; APIFormatDecisions]
          else if slug =s "siliconflow" then [APIFormatEmbeddings]
          else if slug =s "xai" then [APIFormatAudioSpeech; APIFormatAudioTranscriptions]
          else if slug =s "groq" then [APIFormatAudioTranscriptions]
          else [])
  else if protocol =s ProtocolAnthropicMessages then [APIFormatResponses; APIFormatChatCompletions]
  else if protocol =s ProtocolDeepgramVoice then [APIFormatAudioSpeech; APIFormatAudioTranscriptions]
  else if protocol =s ProtocolElevenLabsSpeech then [APIFormatAudioSpeech]
  else if protocol =s ProtocolOpenAIAudio then [APIFormatAudioTranscriptions; APIFormatChatCompletions]
  else [].

Record ChatOutput := mkChatOutput { Text_ : bool; Spoken : bool }.

(** [ChatOutputs]. *)
Definition ChatOutputs (slug protocol : string) : ChatOutput :=
  if protocol =s ProtocolOpenAIAudio then mkChatOutput false true
  else if protocol =s ProtocolOpenAICompatible then mkChatOutput true (slug =s "openrouter")
  else if protocol =s ProtocolAnthropicMessages then mkChatOutput true false
  else mkChatOutput false false.

(** ** What a model requires *)

(** [ModelFamily]: a request family, spoken or not, or a session kind; the
    zero value is neither. *)
Inductive ModelFamily :=
| FamilyNone
| FamilyFormat (format : string) (spoken : bool)
| FamilySession (kind : string).

#[export] Instance ModelFamily_eq_dec : EqDecision ModelFamily.
Proof. solve_decision. Defined.

Definition family_Format (f : ModelFamily) : string := match f with FamilyFormat format _ => format | _ => "" end.
Definition family_Spoken (f : ModelFamily) : bool := match f with FamilyFormat _ spoken => spoken | _ => false end.
Definition family_Session (f : ModelFamily) : string := match f with FamilySession kind => kind | _ => "" end.

(** [openAIFamily]; [None] is a model nothing of the contract expresses. *)
Definition openAIFamily (upstreamModelID : string) : option ModelFamily :=
  let id := ToLower upstreamModelID in
  let has := Contains id in
  if HasPrefix "gpt-live-transcribe" id || has "realtime" && (has "whisper" || has "transcribe")
  then Some (FamilySession RealtimeTranscription)
  else if has "realtime" && has "translate" then Some (FamilySession RealtimeTranslation)
  else if has "realtime" then Some (FamilySession RealtimeConversation)
  else if HasPrefix "gpt-live" id then None
  else if has "moderation" then None
  else if has "transcribe" || HasPrefix "whisper" id then Some (FamilyFormat APIFormatAudioTranscriptions false)
  else if has "tts" then Some (FamilyFormat APIFormatAudioSpeech false)
  else if has "audio" then Some (FamilyFormat APIFormatChatCompletions true)
  else if HasPrefix "dall-e" id || HasPrefix "gpt-image" id || HasPrefix "sora" id
  then Some (FamilyFormat APIFormatImagesGenerations false)
  else if has "embedding" then Some (FamilyFormat APIFormatEmbeddings false)
  else Some (FamilyFormat APIFormatChatCompletions false).

Definition xAIFamily (upstreamModelID : string) : ModelFamily :=
  let id := ToLower upstreamModelID in
  if HasPrefix "grok-voice-transcribe" id then FamilyFormat APIFormatAudioTranscriptions false
  else if HasPrefix "grok-voice" id then FamilySession RealtimeConversation
  else if id =s "tts" then FamilyFormat APIFormatAudioSpeech false
  else FamilyFormat APIFormatChatCompletions false.

Definition groqClassifierOnly (upstreamModelID : string) : bool :=
  HasPrefix "meta-llama/llama-prompt-guard" (ToLower upstreamModelID).

(** What [ClassifyModel] answers: nothing about the id, a family it requires,
    or that nothing can execute it. *)
Inductive Classified := Unclassified | Requires (family : ModelFamily) | Inexpressible.

Definition of_family (f : option ModelFamily) : Classified :=
  match f with Some f => Requires f | None => Inexpressible end.

Definition ClassifyModel (slug upstreamModelID : string) : Classified :=
  let id := ToLower upstreamModelID in
  if slug =s "openai-decisions" then
    if HasPrefix "gpt-6-luna" id then Requires (FamilyFormat APIFormatDecisions false) else Inexpressible
  else if isMember slug ["openai"; "openai-audio"; "openai-realtime"] then of_family (openAIFamily upstreamModelID)
  else if slug =s "openrouter" then
    if HasPrefix "typesafe/" id then Requires (FamilyFormat APIFormatDecisions false)
    else match CutPrefix upstreamModelID "openai/" with
         | Some rest => of_family (openAIFamily rest)
         | None => Unclassified
         end
  else if isMember slug ["xai"; "xai-realtime"] then Requires (xAIFamily upstreamModelID)
  else if slug =s "xai-stt" then
    if HasPrefix "grok-voice-transcribe" id then Requires (FamilySession RealtimeTranscription) else Inexpressible
  else if slug =s "elevenlabs" then Requires (FamilyFormat APIFormatAudioSpeech false)
  else if slug =s "groq" then
    if groqClassifierOnly upstreamModelID then Inexpressible
    else if HasPrefix "whisper-" id then Requires (FamilyFormat APIFormatAudioTranscriptions false)
    else Unclassified
  else Unclassified.

(** [SpeaksAloud]. *)
Definition SpeaksAloud (slug protocol upstreamModelID : string) : bool :=
  Spoken (ChatOutputs slug protocol)
  && match ClassifyModel slug upstreamModelID with
     | Requires f => (family_Format f =s APIFormatChatCompletions) && family_Spoken f
     | _ => false
     end.

(** ** Statements per model *)

Definition ReasoningEffortLow := "low".
Definition ReasoningEffortMedium := "medium".
Definition ReasoningEffortHigh := "high".

Definition xAIReasoningEfforts (model : string) : list string :=
  if isMember model ["grok-4.7"; "grok-4.6"; "grok-4.5"; "grok-4.3"]
  then [ReasoningEffortLow; ReasoningEffortMedium; ReasoningEffortHigh] else [].

(** [ReasoningEfforts]: the whole statement about a route, when there is one. *)
Definition ReasoningEfforts (slug upstreamModelID : string) : option (list string) :=
  if negb (slug =s "xai") then None
  else if negb (family_Format (xAIFamily upstreamModelID) =s APIFormatChatCompletions) then None
  else Some (xAIReasoningEfforts upstreamModelID).

(** [OpenRouterUpstreamOrder]. *)
Definition OpenRouterUpstreamOrder (upstreamModelID : string) : list string :=
  if upstreamModelID =s "qwen/qwen3-embedding-8b" then ["deepinfra"; "nebius"] else [].

(** ** The tables agree *)

(** A deployment that answers aloud is one whose adapter executes chat
    completions and whose model requires exactly that, spoken. *)
Lemma SpeaksAloud_executes slug protocol model :
  SpeaksAloud slug protocol model = true ->
  isMember APIFormatChatCompletions (ExecutableAPIFormats slug protocol) = true /\
  ClassifyModel slug model = Requires (FamilyFormat APIFormatChatCompletions true).
Proof.
  unfold SpeaksAloud. intros [Hs Hc]%andb_true_iff. split.
  - unfold ChatOutputs in Hs. destruct (protocol =s ProtocolOpenAIAudio) eqn:E1; bool_cases; [by subst|].
    destruct (protocol =s ProtocolOpenAICompatible) eqn:E2; [|by destruct (protocol =s ProtocolAnthropicMessages)]. cbn in Hs. bool_cases. by subst.
  - destruct (ClassifyModel slug model) as [|f|]; try done. apply andb_true_iff in Hc as [Hf Hsp]. bool_cases.
    destruct f as [|format spoken|]; cbn in *; try done. by subst.
Qed.
