(* ===== verification/Translated.v ===== *)
(** * Translations

    What the adapters' translations share: a value, a refusal that names the
    field at fault, or a panic; the paths refusals are annotated with; and the
    lemmas on what is answered for a request the contract accepts. *)

From S2P Require Import Prelude Ids Text Contract Request Provider Parameters.

(** ** Refusals *)

(** What a translation ends in: a value, an error, or a panic (a nil pointer
    dereferenced). *)
Inductive Translated (A : Type) :=
| Done (a : A)
| Fails (err : GoError)
| Panics.
Arguments Done {A} a.
Arguments Fails {A} err.
Arguments Panics {A}.

Definition translate_bind {A B} (m : Translated A) (k : A -> Translated B) : Translated B :=
  match m with Done a => k a | Fails err => Fails err | Panics => Panics end.
Notation "x <~ m ; k" := (translate_bind m (fun x => k)) (at level 20, m at level 100, k at level 200) : kaana_scope.

Definition unsupported {A} (code param : string) : Translated A := Fails (ErrUnsupported code param).

(** [annotate]: the path of what a refusal names. *)
Definition annotate_error (path : string) (err : GoError) : GoError :=
  match AsUnsupported err with
  | Some (code, param) => ErrUnsupported code (if param =s "" then path else path +:+ "." +:+ param)
  | None => err
  end.
Definition annotate {A} (path : string) (m : Translated A) : Translated A :=
  match m with Fails err => Fails (annotate_error path err) | m => m end.

Definition derefString (s : option string) : string := default "" s.

Definition index_path (name : string) (index : nat) : string := name +:+ "[" +:+ Itoa (Z.of_nat index) +:+ "]".

(** A number JSON can carry. *)
Definition finite (f : option float64) : bool :=
  match f with Some (S754_nan) | Some (S754_infinity _) => false | _ => true end.

(** What [ToolChoice.UnmarshalJSON] lets a decoded choice be. *)
Definition decoded_choice (choice : option ToolChoice) : Prop :=
  match choice with
  | None => True
  | Some choice =>
      match choice_Mode choice, choice_Function choice with
      | Some mode, None => isMember mode [ToolChoiceAuto; ToolChoiceNone; ToolChoiceRequired] = true
      | None, Some _ => True
      | _, _ => False
      end
  end.

(** ** What a translation succeeds in *)

Definition done_of {A} (m : Translated A) : option A := match m with Done a => Some a | _ => None end.

Lemma done_of_bind {A B} (m : Translated A) (k : A -> Translated B) : done_of (translate_bind m k) = done_of m ≫= fun a => done_of (k a).
Proof. by destruct m. Qed.

Lemma done_of_annotate {A} path (m : Translated A) : done_of (annotate path m) = done_of m.
Proof. by destruct m. Qed.

Lemma translate_bind_Done {A B} (m : Translated A) (k : A -> Translated B) b :
  translate_bind m k = Done b -> exists a, m = Done a /\ k a = Done b.
Proof. destruct m; cbn; [eauto|done|done]. Qed.

Lemma mapM_app_opt {A B} (f : A -> option B) l l' :
  mapM f (l ++ l') = (r ← mapM f l; r' ← mapM f l'; Some (r ++ r')).
Proof.
  induction l as [|x l IH]; cbn [app mapM]; [by destruct (mapM f l')|]. destruct (f x); [|done]. cbn. rewrite IH.
  destruct (mapM f l); [|done]. cbn. by destruct (mapM f l').
Qed.

(** ** Requests the contract accepts *)

(** A valid part is written, or refused with a code; it does not panic. *)
Definition answered {A} (m : Translated A) : Prop :=
  match m with Done _ => True | Fails err => exists code param, err = ErrUnsupported code param | Panics => False end.

Lemma answered_bind {A B} (m : Translated A) (k : A -> Translated B) :
  answered m -> (forall a, m = Done a -> answered (k a)) -> answered (translate_bind m k).
Proof. destruct m; cbn; auto. Qed.

Lemma answered_unsupported {A} code param : answered (@unsupported A code param).
Proof. by exists code, param. Qed.

(** A refusal on the path it is annotated with. *)
Definition refused_at (path : string) {A} (m : Translated A) : Prop :=
  match m with
  | Done _ => True
  | Fails err => exists code param, err = ErrUnsupported code param /\ HasPrefix path param = true
  | Panics => False
  end.

Lemma annotate_refused {A} path (m : Translated A) : answered m -> refused_at path (annotate path m).
Proof.
  destruct m as [a|err|]; cbn; [done| |done]. intros (code & param & ->). unfold annotate_error. cbn.
  eexists _, _. split; [done|]. destruct (param =s ""); [|apply HasPrefix_app].
  rewrite <-(str_app_nil_r path) at 2. apply HasPrefix_app.
Qed.

Lemma refused_answered path {A} (m : Translated A) : refused_at path m -> answered m.
Proof. destruct m; cbn; [done| |done]. intros (code & param & -> & _). by exists code, param. Qed.

Lemma refused_bind path {A B} (m : Translated A) (k : A -> Translated B) :
  refused_at path m -> (forall a, m = Done a -> refused_at path (k a)) -> refused_at path (translate_bind m k).
Proof. destruct m; cbn; auto. Qed.

Lemma HasPrefix_trans p q s : HasPrefix (p +:+ q) s = true -> HasPrefix p s = true.
Proof.
  revert s. induction p as [|c p IH]; intros s; [by destruct s|]. rewrite str_app_cons. destruct s as [|d s]; [done|].
  cbn. intros [-> H]%andb_true_iff. by apply IH.
Qed.

Lemma refused_weaken p q {A} (m : Translated A) : refused_at (p +:+ q) m -> refused_at p m.
Proof.
  destruct m; cbn; [done| |done]. intros (code & param & -> & H). exists code, param. split; [done|].
  by eapply HasPrefix_trans.
Qed.

Lemma message_parts_valid m : Message_validate m = None -> Forall (fun part => ContentPart_validate part = None) (Content m).
Proof.
  unfold Message_validate. rewrite !or_else_None. intros (_ & _ & _ & _ & H). revert H.
  rewrite first_refusal_None. intros H. eapply Forall_impl; [exact H|]. cbn. intros part Hp.
  by apply or_else_None in Hp as [_ ?].
Qed.
