(* ===== verification/ChatTranslate.v ===== *)
(** * Chat requests (internal/provider/openaicompat/adapter.go, wire.go)

    The chat completions body a request is translated to: the conversation,
    message by message, with the images a tool returned moved to a user message
    after its results; the controls of the request in the protocol's fields or
    refused; and the check of the body against what the route accepts.  The
    encoded body is the record of its fields. *)

From S2P Require Import Prelude Ids Text Contract Request Provider Adapter Parameters Translated ProviderConfig.

(** ** Content *)

Inductive WirePart :=
| TextPart (text : string)
| ImagePart (url : string) (detail : option string)
| AudioPart (data format : string)
| FilePart (file_data : string) (filename : option string).

Definition dataURI (mediaType data : string) : string := "data:" +:+ mediaType +:+ ";base64," +:+ data.

Definition contentURL (source : option ContentSource) : Translated string :=
  match source with
  | None => Panics
  | Some source =>
      if source_Kind source =s ContentSourceURL then Done (derefString (URL source))
      else if source_Kind source =s ContentSourceInline
      then Done (dataURI (derefString (MediaType source)) (derefString (Request.Data source)))
      else unsupported CodeInvalidRequest ""
  end.

(** [strings.SplitN(s, ";", 2)[0]]. *)
Fixpoint before_semicolon (s : string) : string :=
  match s with
  | EmptyString => ""
  | String c s => if Ascii.eqb c ";" then "" else String c (before_semicolon s)
  end.

Definition audioFormat (mediaType : string) : Translated string :=
  let name := ToLower (TrimSpace (before_semicolon mediaType)) in
  if isMember name ["audio/wav"; "audio/wave"; "audio/x-wav"] then Done "wav"
  else if isMember name ["audio/mpeg"; "audio/mp3"] then Done "mp3"
  else unsupported CodeUnsupportedModality "".

Definition inline (source : option ContentSource) : Translated ContentSource :=
  match source with
  | None => Panics
  | Some source =>
      if source_Kind source =s ContentSourceInline then Done source else unsupported CodeUnsupportedModality ""
  end.

Definition translateContentPart (part : ContentPart) : Translated WirePart :=
  if part_Type part =s ContentPartText then Done (TextPart (derefString (part_Text part)))
  else if part_Type part =s ContentPartImage then
    url <~ contentURL (part_Source part); Done (ImagePart url (part_Detail part))
  else if part_Type part =s ContentPartAudio then
    source <~ inline (part_Source part);
    format <~ audioFormat (derefString (MediaType source));
    Done (AudioPart (derefString (Request.Data source)) format)
  else if part_Type part =s ContentPartFile then
    source <~ inline (part_Source part);
    Done (FilePart (dataURI (derefString (MediaType source)) (derefString (Request.Data source))) (Filename part))
  else unsupported CodeUnsupportedModality "".

(** ** Messages *)

Inductive WireContent := NoContent | TextContent (text : string) | PartsContent (parts : list WirePart).

Record chatMessage := mkChatMessage {
  cm_Role : string;
  cm_Content : WireContent;
  cm_Name : option string;
  cm_ToolCallID : option string;
  cm_ToolCalls : list ToolCall;
}.

Fixpoint translate_parts (index : nat) (parts : list ContentPart) : Translated (list WirePart) :=
  match parts with
  | [] => Done []
  | part :: parts =>
      converted <~ annotate (index_path "content" index) (translateContentPart part);
      rest <~ translate_parts (S index) parts;
      Done (converted :: rest)
  end.

(** The content of a message whose parts were converted. *)
Definition wire_content (parts : list WirePart) : WireContent :=
  match parts with [] => NoContent | _ => PartsContent parts end.

Definition translateMessage (message : Message) : Translated chatMessage :=
  let translated content :=
    mkChatMessage (Role message) content (message_Name message) (ToolCallID message) (default [] (ToolCalls message)) in
  match Content message with
  | [part] =>
      if part_Type part =s ContentPartText then Done (translated (TextContent (derefString (part_Text part))))
      else parts <~ translate_parts 0 [part]; Done (translated (wire_content parts))
  | content => parts <~ translate_parts 0 content; Done (translated (wire_content parts))
  end.

Definition toolImagesFollow := "The result is the image in the next message.".

Definition is_image (part : ContentPart) : bool := part_Type part =s ContentPartImage.

Definition with_content (content : list ContentPart) (m : Message) : Message :=
  mkMessage (Role m) content (message_Name m) (ToolCallID m) (ToolCalls m).

Definition withoutImages (message : Message) : Message * list ContentPart :=
  let images := List.filter is_image (Content message) in
  let kept := List.filter (fun part => negb (is_image part)) (Content message) in
  match images with
  | [] => (message, [])
  | _ =>
      let kept :=
        match kept with
        | [] => [mkPart ContentPartText (Some toolImagesFollow) None None None]
        | _ => kept
        end in
      (with_content kept message, images)
  end.

(** The user message that carries the images of a run of tool results. *)
Definition carrier (images : list WirePart) : list chatMessage :=
  match images with [] => [] | _ => [mkChatMessage RoleUser (PartsContent images) None None []] end.

Definition is_tool (message : Message) : bool := Role message =s RoleTool.

(** The images of one tool message, with the path of each. *)
Fixpoint tool_images (path : string) (index : nat) (images : list ContentPart) : Translated (list WirePart) :=
  match images with
  | [] => Done []
  | part :: images =>
      converted <~ annotate (path +:+ "." +:+ index_path "content" index) (translateContentPart part);
      rest <~ tool_images path (S index) images;
      Done (converted :: rest)
  end.

(** The loop of [translateConversation]: [messages] and [toolImages] so far. *)
Fixpoint conversation_loop (index : nat) (messages : list chatMessage) (toolImages : list WirePart)
    (conversation : list Message) : Translated (list chatMessage) :=
  match conversation with
  | [] => Done (messages ++ carrier toolImages)
  | message :: conversation =>
      let path := index_path "input.messages" index in
      if is_tool message then
        let '(kept, images) := withoutImages message in
        converted <~ tool_images path 0 images;
        translated <~ annotate path (translateMessage kept);
        conversation_loop (S index) (messages ++ [translated]) (toolImages ++ converted) conversation
      else
        translated <~ annotate path (translateMessage message);
        conversation_loop (S index) ((messages ++ carrier toolImages) ++ [translated]) [] conversation
  end.

Definition translateConversation (conversation : list Message) : Translated (list chatMessage) :=
  conversation_loop 0 [] [] conversation.

(** ** The body *)

Definition ResponseFormatText := "text".
Definition ResponseFormatJSONObject := "json_object".
Definition ResponseFormatJSONSchema := "json_schema".

Inductive WireFormat :=
| JSONObjectFormat
| JSONSchemaFormat (name : string) (schema : list (string * Json)) (strict : option bool).

(** [translateResponseFormat]; nothing for a text format. *)
Definition translateResponseFormat (format : ResponseFormat) : Translated (option WireFormat) :=
  if format_Type format =s ResponseFormatText then Done None
  else if format_Type format =s ResponseFormatJSONObject then Done (Some JSONObjectFormat)
  else if format_Type format =s ResponseFormatJSONSchema then
    match format_Name format, Schema format with
    | Some name, Some schema => Done (Some (JSONSchemaFormat name schema (format_Strict format)))
    | _, _ => unsupported CodeInvalidRequest "responseFormat"
    end
  else unsupported CodeInvalidRequest "responseFormat.type".

Inductive reasoningDialect := reasoningUnreviewed | reasoningEffortField | reasoningObject.

Definition reasoningDialectFor (slug : string) : reasoningDialect :=
  if slug =s "openrouter" then reasoningObject
  else if isMember slug ["openai"; "groq"; "cerebras"; "xai"] then reasoningEffortField
  else reasoningUnreviewed.

(** [refuseUnstatedEffort]: whether the effort is one the route does not take. *)
Definition refuseUnstatedEffort (slug upstreamModelID effort : string) : bool :=
  match ReasoningEfforts slug upstreamModelID with
  | Some accepted => negb (isMember effort accepted)
  | None => false
  end.

Record openRouterProviderPolicy := mkPolicy { ZDR : bool; DataCollection : string; RequireParameters : bool }.
Definition openrouter_policy : openRouterProviderPolicy := mkPolicy true "deny" true.

Inductive WireToolChoice := ModeChoice (mode : string) | FunctionChoice (name : string).

Record chatTool := mkChatTool {
  ct_Name : string;
  ct_Description : option string;
  ct_Parameters : option (list (string * Json));
  ct_Strict : option bool;
}.

Record chatRequest := mkChatRequest {
  cr_Model : string;
  cr_Messages : list chatMessage;
  cr_Stream : bool;
  cr_IncludeUsage : bool;
  cr_Provider : option openRouterProviderPolicy;
  cr_MaxTokens : option Z;
  cr_Temperature : option float64;
  cr_TopP : option float64;
  cr_FrequencyPenalty : option float64;
  cr_PresencePenalty : option float64;
  cr_Seed : option Z;
  cr_Stop : list string;
  cr_ReasoningEffort : option string;
  cr_Reasoning : option string;
  cr_Tools : list chatTool;
  cr_ToolChoice : option WireToolChoice;
  cr_ResponseFormat : option WireFormat;
}.

(** Where a request's effort goes: [reasoning_effort], [reasoning]. *)
Definition reasoning_fields (slug model : string) (effort : option string)
    : Translated (option string * option string) :=
  match effort with
  | None => Done (None, None)
  | Some effort =>
      if refuseUnstatedEffort slug model effort then unsupported CodeInvalidRequest "reasoning.effort"
      else match reasoningDialectFor slug with
      | reasoningObject => Done (None, Some effort)
      | reasoningEffortField => Done (Some effort, None)
      | reasoningUnreviewed => unsupported CodeInvalidRequest "reasoning.effort"
      end
  end.

Definition wire_tool (tool : ToolDefinition) : chatTool :=
  mkChatTool (tool_Name tool) (Description tool) (Parameters_ tool) (tool_Strict tool).

(** [auto] is the default and is left unsaid. *)
Definition wire_tool_choice (choice : option ToolChoice) : option WireToolChoice :=
  match choice with
  | None => None
  | Some choice =>
      match choice_Mode choice, choice_Function choice with
      | Some mode, _ => if mode =s ToolChoiceAuto then None else Some (ModeChoice mode)
      | None, Some name => Some (FunctionChoice name)
      | None, None => None
      end
  end.

Definition encodable (body : chatRequest) : bool :=
  finite (cr_Temperature body) && finite (cr_TopP body) && finite (cr_FrequencyPenalty body)
  && finite (cr_PresencePenalty body).

(** The controls the encoded body carries ([wireParameters]): the fields its
    encoding does not omit. *)
Definition sent_parameters (body : chatRequest) : list string :=
  let when (present : bool) (p : string) := if present then [p] else [] in
  let some {A} (v : option A) := bool_decide (is_Some v) in
  when (some (cr_MaxTokens body)) "maxOutputTokens"
  ++ when (some (cr_Reasoning body) || some (cr_ReasoningEffort body)) "reasoning.effort"
  ++ when (some (cr_ResponseFormat body)) "responseFormat"
  ++ when (some (cr_FrequencyPenalty body)) "sampling.frequencyPenalty"
  ++ when (some (cr_PresencePenalty body)) "sampling.presencePenalty"
  ++ when (some (cr_Seed body)) "sampling.seed"
  ++ when (negb (Nat.eqb (length (cr_Stop body)) 0)) "sampling.stopSequences"
  ++ when (some (cr_Temperature body)) "sampling.temperature"
  ++ when (some (cr_TopP body)) "sampling.topP"
  ++ when (negb (Nat.eqb (length (cr_Tools body)) 0)) "tools"
  ++ match cr_ToolChoice body with
     | None => []
     | Some (ModeChoice mode) =>
         [ParameterToolChoice;
          if mode =s ToolChoiceNone then ParameterToolChoiceNone
          else if mode =s ToolChoiceRequired then ParameterToolChoiceRequired
          else ParameterToolChoice]
     | Some (FunctionChoice _) => [ParameterToolChoice; ParameterToolChoiceFunction]
     end.

(** [refuseUnacceptedParameters]. *)
Definition refuseUnacceptedParameters (body : chatRequest) (route : Route) : option GoError :=
  match UnacceptedParameter route (sent_parameters body) with
  | Some parameter => Some (ErrUnsupported CodeInvalidRequest (Field parameter))
  | None => None
  end.

(** A translated chat call: where it is sent, its body, and the framing asked
    of the upstream. *)
Record ChatCall := mkChatCall { cc_URL : string; cc_Body : chatRequest; cc_Stream : bool }.

(** The chat branch of [Adapter.Translate]. *)
Definition translateChat (slug baseURL : string) (request : Request) (route : Route) : Translated ChatCall :=
  if negb (Modality request =s ModalityText) then unsupported CodeUnsupportedModality "modality"
  else if negb (Format (request_Input request) =s InputMessages) then unsupported CodeUnsupportedModality "input.format"
  else
    messages <~ translateConversation (default [] (Messages (request_Input request)));
    effort <~ reasoning_fields slug (r_UpstreamModelID route) (Reasoning request);
    if bool_decide (is_Some (TopK (Sampling request))) then unsupported CodeInvalidRequest "sampling.topK"
    else
      format <~ match request_ResponseFormat request with
                | Some format => translateResponseFormat format
                | None => Done None
                end;
      let sampling := Sampling request in
      let body :=
        mkChatRequest (r_UpstreamModelID route) messages (Stream request) (Stream request)
          (if slug =s "openrouter" then Some openrouter_policy else None)
          (MaxOutputTokens request) (Temperature sampling) (TopP sampling) (FrequencyPenalty sampling)
          (PresencePenalty sampling) (Seed sampling) (default [] (StopSequences sampling))
          effort.1 effort.2 (wire_tool <$> Tools request) (wire_tool_choice (request_ToolChoice request)) format in
      if negb (encodable body) then Fails (Wrapped Opaque)
      else match refuseUnacceptedParameters body route with
      | Some err => Fails err
      | None => Done (mkChatCall (baseURL +:+ "/chat/completions") body (Stream request))
      end.

(** ** The conversation, as a reference reads it *)

(** Runs of tool messages, and every other message by itself. *)
Fixpoint groups (conversation : list Message) : list (list Message) :=
  match conversation with
  | [] => []
  | m :: rest =>
      match groups rest with
      | g :: gs => if is_tool m && forallb is_tool g then (m :: g) :: gs else [m] :: g :: gs
      | [] => [[m]]
      end
  end.

Definition kept_of (m : Message) : Message := if is_tool m then (withoutImages m).1 else m.
Definition images_of (m : Message) : list ContentPart := if is_tool m then (withoutImages m).2 else [].

(** A run is told message by message, then its images in one user message. *)
Definition translate_group (g : list Message) : option (list chatMessage) :=
  told ← mapM (fun m => done_of (translateMessage (kept_of m))) g;
  images ← mapM (fun part => done_of (translateContentPart part)) (concat (images_of <$> g));
  Some (told ++ carrier images).

Definition conversation_reference (conversation : list Message) : option (list chatMessage) :=
  @concat _ <$> mapM translate_group (groups conversation).

(** The images of a run still to come are sent with those already held. *)
Definition pending_reference (held : list WirePart) (gs : list (list Message)) : option (list chatMessage) :=
  match gs with
  | g :: rest =>
      if forallb is_tool g then
        told ← mapM (fun m => done_of (translateMessage (kept_of m))) g;
        images ← mapM (fun part => done_of (translateContentPart part)) (concat (images_of <$> g));
        rest ← mapM translate_group rest;
        Some (told ++ carrier (held ++ images) ++ concat rest)
      else out ← mapM translate_group gs; Some (carrier held ++ concat out)
  | [] => Some (carrier held)
  end.

Lemma tool_images_done path index images :
  done_of (tool_images path index images) = mapM (fun part => done_of (translateContentPart part)) images.
Proof.
  revert index. induction images as [|part images IH]; intros index; [done|]. cbn [tool_images mapM].
  rewrite done_of_bind, done_of_annotate. destruct (done_of (translateContentPart part)) as [w|]; [|done]. cbn.
  rewrite done_of_bind, IH. by destruct (mapM _ images).
Qed.

Lemma groups_head m conversation :
  exists g gs, groups (m :: conversation) = (m :: g) :: gs /\ forallb is_tool (m :: g) = is_tool m /\
    (is_tool m = false -> g = [] /\ gs = groups conversation).
Proof.
  cbn [groups]. destruct (groups conversation) as [|g gs]; [exists [], []; cbn; by rewrite andb_true_r|].
  destruct (is_tool m) eqn:Em; cbn [andb].
  - destruct (forallb is_tool g) eqn:Eg; [exists g, gs|exists [], (g :: gs)]; cbn; by rewrite Em, ?Eg.
  - exists [], (g :: gs). cbn. by rewrite Em.
Qed.

Lemma groups_tool m conversation held :
  is_tool m = true ->
  pending_reference held (groups (m :: conversation)) =
  (images ← mapM (fun part => done_of (translateContentPart part)) (images_of m);
   told ← done_of (translateMessage (kept_of m));
   out ← pending_reference (held ++ images) (groups conversation);
   Some (told :: out)).
Proof.
  intros Hm. cbn [groups]. destruct (groups conversation) as [|g gs] eqn:Eg.
  - unfold pending_reference. cbn [forallb fmap list_fmap concat mapM]. rewrite Hm, app_nil_r. cbn [andb].
    destruct (done_of (translateMessage _)) as [t|], (mapM _ (images_of m)) as [ws|]; try done. cbn. by rewrite !app_nil_r.
  - rewrite Hm. cbn [andb]. unfold pending_reference. destruct (forallb is_tool g) eqn:Et; cbn [forallb]; rewrite Hm, ?Et.
    + cbn [andb fmap list_fmap concat mapM]. rewrite mapM_app_opt.
      destruct (done_of (translateMessage (kept_of m))) as [t|]; [|by destruct (mapM _ (images_of m))]. cbn.
      destruct (mapM _ (images_of m)) as [ws|]; cbn; [|by destruct (mapM _ g)].
      destruct (mapM _ g) as [ts|]; [|done]. cbn. destruct (mapM _ (concat _)) as [ws'|]; [|done]. cbn.
      destruct (mapM translate_group gs) as [out|]; [|done]. cbn. by rewrite !app_assoc.
    + cbn [andb fmap list_fmap concat mapM]. rewrite app_nil_r.
      destruct (done_of (translateMessage (kept_of m))) as [t|]; [|by destruct (mapM _ (images_of m))]. cbn.
      destruct (mapM _ (images_of m)) as [ws|]; [|done]. cbn.
      destruct (translate_group g) as [o|]; [|done]. cbn. destruct (mapM translate_group gs) as [out|]; [|done]. done.
Qed.

Lemma translate_group_eq g :
  translate_group g =
  (told ← mapM (fun m => done_of (translateMessage (kept_of m))) g;
   images ← mapM (fun part => done_of (translateContentPart part)) (concat (images_of <$> g));
   Some (told ++ carrier images)).
Proof. done. Qed.

Lemma pending_nothing gs : pending_reference [] gs = @concat _ <$> mapM translate_group gs.
Proof.
  destruct gs as [|g gs]; [done|]. unfold pending_reference.
  destruct (forallb is_tool g); [|by destruct (mapM translate_group (g :: gs))]. cbn [mapM]. rewrite (translate_group_eq g).
  destruct (mapM _ g) as [ts|]; [|done]. cbn. destruct (mapM _ (concat _)) as [ws|]; [|done]. cbn.
  destruct (mapM translate_group gs) as [out|]; [|done]. cbn. by rewrite app_assoc.
Qed.

Lemma groups_other m conversation held :
  is_tool m = false ->
  pending_reference held (groups (m :: conversation)) =
  (told ← done_of (translateMessage m);
   out ← pending_reference [] (groups conversation);
   Some (carrier held ++ told :: out)).
Proof.
  intros Hm. destruct (groups_head m conversation) as (g & gs & -> & Ht & H). destruct (H Hm) as [-> ->].
  unfold pending_reference at 1. rewrite Ht, Hm. cbn [mapM]. rewrite (translate_group_eq [m]).
  cbn [mapM fmap list_fmap concat app]. unfold kept_of, images_of. rewrite Hm. cbn [mapM].
  destruct (done_of (translateMessage m)) as [t|]; [|done]. cbn.
  rewrite pending_nothing. by destruct (mapM translate_group (groups conversation)).
Qed.

Lemma conversation_loop_done index messages held conversation :
  done_of (conversation_loop index messages held conversation) =
  app messages <$> pending_reference held (groups conversation).
Proof.
  revert index messages held. induction conversation as [|m conversation IH]; intros index messages held; [done|].
  cbn [conversation_loop]. destruct (is_tool m) eqn:Em.
  - rewrite groups_tool by done. unfold images_of, kept_of. rewrite Em. destruct (withoutImages m) as [kept images].
    cbn [fst snd]. rewrite done_of_bind, tool_images_done. destruct (mapM _ images) as [ws|]; [|done]. cbn.
    rewrite done_of_bind, done_of_annotate. destruct (done_of (translateMessage kept)) as [t|]; [|done]. cbn.
    rewrite IH. destruct (pending_reference _ _) as [out|]; [|done]. cbn. by rewrite <-app_assoc.
  - rewrite groups_other by done. rewrite done_of_bind, done_of_annotate.
    destruct (done_of (translateMessage m)) as [t|]; [|done]. cbn.
    rewrite IH. destruct (pending_reference _ _) as [out|]; [|done]. cbn. by rewrite <-!app_assoc.
Qed.

(** ** What a conversation says

    The reading of a chat body by its protocol, stated on the two conversations
    alone. *)

Inductive url_says : ContentSource -> string -> Prop :=
| url_of_url s : source_Kind s = ContentSourceURL -> url_says s (derefString (URL s))
| url_of_bytes s : source_Kind s = ContentSourceInline ->
    url_says s ("data:" +:+ derefString (MediaType s) +:+ ";base64," +:+ derefString (Request.Data s)).

(** The type a media type names, before its parameters. *)
Definition media_name (mediaType name : string) : Prop :=
  exists front back, mediaType = front +:+ back /\ contains_char ";" front = false /\
    (back = "" \/ exists parameters, back = String ";" parameters) /\ name = ToLower (TrimSpace front).

Inductive part_says : ContentPart -> WirePart -> Prop :=
| says_text p : part_Type p = ContentPartText -> part_says p (TextPart (derefString (part_Text p)))
| says_image p s url : part_Type p = ContentPartImage -> part_Source p = Some s -> url_says s url ->
    part_says p (ImagePart url (part_Detail p))
| says_wav p s name : part_Type p = ContentPartAudio -> part_Source p = Some s -> source_Kind s = ContentSourceInline ->
    media_name (derefString (MediaType s)) name -> name ∈ ["audio/wav"; "audio/wave"; "audio/x-wav"] ->
    part_says p (AudioPart (derefString (Request.Data s)) "wav")
| says_mp3 p s name : part_Type p = ContentPartAudio -> part_Source p = Some s -> source_Kind s = ContentSourceInline ->
    media_name (derefString (MediaType s)) name -> name ∈ ["audio/mpeg"; "audio/mp3"] ->
    part_says p (AudioPart (derefString (Request.Data s)) "mp3")
| says_file p s url : part_Type p = ContentPartFile -> part_Source p = Some s -> source_Kind s = ContentSourceInline ->
    url_says s url -> part_says p (FilePart url (Filename p)).

(** A message of one text part is a text, any other the list of its parts. *)
Inductive content_says : list ContentPart -> WireContent -> Prop :=
| says_nothing : content_says [] NoContent
| says_one_text p : part_Type p = ContentPartText -> content_says [p] (TextContent (derefString (part_Text p)))
| says_parts p ps ws : (ps = [] -> part_Type p <> ContentPartText) -> Forall2 part_says (p :: ps) ws ->
    content_says (p :: ps) (PartsContent ws).

(** A message under its own role, name, call it answers and tool calls. *)
Record message_says (m : Message) (content : list ContentPart) (told : chatMessage) : Prop := {
  ms_role : cm_Role told = Role m;
  ms_name : cm_Name told = message_Name m;
  ms_call : cm_ToolCallID told = ToolCallID m;
  ms_calls : cm_ToolCalls told = default [] (ToolCalls m);
  ms_content : content_says content (cm_Content told);
}.

Definition images_in (m : Message) : list ContentPart := List.filter (fun p => part_Type p =s ContentPartImage) (Content m).
Definition words_in (m : Message) : list ContentPart :=
  List.filter (fun p => negb (part_Type p =s ContentPartImage)) (Content m).

(** A tool's result is told without its images; one that was only images says
    that they follow. *)
Definition result_says (m : Message) (told : chatMessage) : Prop :=
  message_says m
    (match images_in m, words_in m with
     | _ :: _, [] => [mkPart ContentPartText (Some toolImagesFollow) None None None]
     | _, words => words
     end) told.

(** The user message that follows a run of results with images. *)
Definition images_follow (images : list WirePart) (told : list chatMessage) : Prop :=
  match images with
  | [] => told = []
  | _ => exists c, told = [c] /\ cm_Role c = RoleUser /\ cm_Content c = PartsContent images /\
      cm_Name c = None /\ cm_ToolCallID c = None /\ cm_ToolCalls c = []
  end.

Definition no_result (conversation : list Message) : Prop :=
  match conversation with m :: _ => Role m <> RoleTool | [] => True end.

(** Message by message; a whole run of tool results, then its images. *)
Inductive conversation_says : list Message -> list chatMessage -> Prop :=
| says_end : conversation_says [] []
| says_message m told rest out : Role m <> RoleTool -> message_says m (Content m) told -> conversation_says rest out ->
    conversation_says (m :: rest) (told :: out)
| says_results results told images carried rest out :
    results <> [] -> Forall (fun m => Role m = RoleTool) results -> no_result rest ->
    Forall2 result_says results told -> Forall2 part_says (concat (images_in <$> results)) images ->
    images_follow images carried -> conversation_says rest out ->
    conversation_says (results ++ rest) (told ++ carried ++ out).

(** *** The translation says it *)

Lemma before_semicolon_spec mediaType : media_name mediaType (ToLower (TrimSpace (before_semicolon mediaType))).
Proof.
  enough (exists back, mediaType = before_semicolon mediaType +:+ back /\ contains_char ";" (before_semicolon mediaType) = false /\
    (back = "" \/ exists parameters, back = String ";" parameters)) as (back & H1 & H2 & H3) by by eexists _, back.
  induction mediaType as [|c s (back & H1 & H2 & H3)]; [exists ""; auto|]. cbn [before_semicolon].
  destruct (Ascii.eqb_spec c ";") as [->|Hc]; [exists (String ";" s); split_and!; [done|done|right; by eexists]|].
  exists back. split; [by rewrite str_app_cons, <-H1|]. split; [|done]. cbn [contains_char]. rewrite H2, orb_false_r.
  apply Ascii.eqb_neq. congruence.
Qed.

Lemma media_name_unique mediaType name name' : media_name mediaType name -> media_name mediaType name' -> name = name'.
Proof.
  intros (f & b & -> & Hf & Hb & ->) (f' & b' & He & Hf' & Hb' & ->). do 2 f_equal. revert f' He Hf'.
  induction f as [|c f IH]; intros [|c' f'] He Hf'; [done| | |].
  - rewrite str_app_cons in He. change ("" +:+ b) with b in He. destruct Hb as [->|[p ->]]; [done|]. injection He as <- _.
    cbn [contains_char] in Hf'. by rewrite Ascii.eqb_refl in Hf'.
  - rewrite str_app_cons in He. change ("" +:+ b') with b' in He. destruct Hb' as [->|[p ->]]; [done|]. injection He as -> _.
    cbn [contains_char] in Hf. by rewrite Ascii.eqb_refl in Hf.
  - rewrite !str_app_cons in He. injection He as -> He. cbn [contains_char] in Hf, Hf'.
    apply orb_false_iff in Hf as [_ Hf], Hf' as [_ Hf']. f_equal. by apply IH.
Qed.

Lemma contentURL_says s url : done_of (contentURL (Some s)) = Some url <-> url_says s url.
Proof.
  unfold contentURL. split.
  - destruct (_ =s ContentSourceURL) eqn:E; bool_cases; [intros [= <-]; by constructor|].
    destruct (_ =s ContentSourceInline) eqn:E'; bool_cases; [intros [= <-]; by constructor|done].
  - intros [s' Hs|s' Hs]; rewrite Hs; reflexivity.
Qed.

Lemma audioFormat_says mediaType format : done_of (audioFormat mediaType) = Some format <->
  exists name, media_name mediaType name /\
    (name ∈ ["audio/wav"; "audio/wave"; "audio/x-wav"] /\ format = "wav" \/
     name ∈ ["audio/mpeg"; "audio/mp3"] /\ format = "mp3").
Proof.
  pose proof (before_semicolon_spec mediaType) as Hn. unfold audioFormat. set (name := ToLower _) in *.
  split.
  - intros H. exists name. split; [done|].
    destruct (isMember name _) eqn:E; [apply isMember_spec in E; injection H as <-; by left|].
    destruct (isMember name ["audio/mpeg"; "audio/mp3"]) eqn:E'; [apply isMember_spec in E'; injection H as <-; by right|done].
  - intros (name' & Hn' & Hf). assert (name' = name) as -> by (by eapply media_name_unique).
    destruct Hf as [[Hm ->]|[Hm ->]].
    + apply isMember_spec in Hm. by rewrite Hm.
    + assert (isMember name ["audio/wav"; "audio/wave"; "audio/x-wav"] = false) as ->.
      { rewrite !elem_of_cons in Hm. by destruct Hm as [-> |[-> |Hm%elem_of_nil]]. }
      apply isMember_spec in Hm. by rewrite Hm.
Qed.

Lemma inline_says s : source_Kind s = ContentSourceInline -> done_of (inline (Some s)) = Some s.
Proof. intros H. unfold inline. by rewrite H. Qed.

Lemma part_says_iff p w : done_of (translateContentPart p) = Some w <-> part_says p w.
Proof.
  unfold translateContentPart. split.
  - destruct (part_Type p =s ContentPartText) eqn:Et; bool_cases; [intros [= <-]; by constructor|].
    destruct (part_Type p =s ContentPartImage) eqn:Ei; bool_cases.
    { rewrite done_of_bind. destruct (part_Source p) as [s|] eqn:Es; [|done].
      destruct (done_of (contentURL (Some s))) as [url|] eqn:Eu; [|done]. intros [= <-]. apply contentURL_says in Eu.
      by eapply says_image. }
    destruct (part_Type p =s ContentPartAudio) eqn:Ea; bool_cases.
    { rewrite done_of_bind. destruct (part_Source p) as [s|] eqn:Es; [|done]. unfold inline.
      destruct (source_Kind s =s ContentSourceInline) eqn:Ek; bool_cases; [|done]. cbn. rewrite done_of_bind.
      destruct (done_of (audioFormat _)) as [format|] eqn:Ef; [|done]. intros [= <-].
      apply audioFormat_says in Ef as (name & Hn & [[Hm ->]|[Hm ->]]); by econstructor. }
    destruct (part_Type p =s ContentPartFile) eqn:Ef; bool_cases; [|done].
    rewrite done_of_bind. destruct (part_Source p) as [s|] eqn:Es; [|done]. unfold inline.
    destruct (source_Kind s =s ContentSourceInline) eqn:Ek; bool_cases; [|done]. intros [= <-].
    by eapply says_file, url_of_bytes.
  - intros [p' Ht|p' s url Ht Hs Hu|p' s name Ht Hs Hk Hn Hm|p' s name Ht Hs Hk Hn Hm|p' s url Ht Hs Hk Hu]; rewrite Ht; [done| | | |];
      cbn -[done_of translate_bind contentURL audioFormat inline]; rewrite Hs, done_of_bind.
    + apply contentURL_says in Hu. by rewrite Hu.
    + rewrite inline_says by done. cbn -[done_of translate_bind audioFormat]. rewrite done_of_bind.
      by rewrite (proj2 (audioFormat_says _ "wav")) by eauto.
    + rewrite inline_says by done. cbn -[done_of translate_bind audioFormat]. rewrite done_of_bind.
      by rewrite (proj2 (audioFormat_says _ "mp3")) by eauto.
    + rewrite inline_says by done. inversion Hu as [s1 H1|s1 H1]; subst; [by rewrite Hk in H1|done].
Qed.

Lemma mapM_says {A B} (f : A -> option B) (R : A -> B -> Prop) l k :
  (forall a b, f a = Some b <-> R a b) -> mapM f l = Some k <-> Forall2 R l k.
Proof.
  intros H. rewrite mapM_Some. split; intros Hf; (eapply Forall2_impl; [exact Hf|]); intros a b; apply H.
Qed.

Lemma translate_parts_done index parts :
  done_of (translate_parts index parts) = mapM (fun part => done_of (translateContentPart part)) parts.
Proof.
  revert index. induction parts as [|part parts IH]; intros index; [done|]. cbn [translate_parts mapM].
  rewrite done_of_bind, done_of_annotate. destruct (done_of (translateContentPart part)) as [w|]; [|done]. cbn.
  rewrite done_of_bind, IH. by destruct (mapM _ parts).
Qed.

(** The content a message is given. *)
Definition told_content (content : list ContentPart) : option WireContent :=
  match content with
  | [part] =>
      if part_Type part =s ContentPartText then Some (TextContent (derefString (part_Text part)))
      else wire_content <$> mapM (fun part => done_of (translateContentPart part)) content
  | _ => wire_content <$> mapM (fun part => done_of (translateContentPart part)) content
  end.

Lemma translateMessage_done m :
  done_of (translateMessage m) =
  (fun content => mkChatMessage (Role m) content (message_Name m) (ToolCallID m) (default [] (ToolCalls m)))
    <$> told_content (Content m).
Proof.
  unfold translateMessage, told_content. destruct (Content m) as [|part [|part' parts]]; [done| |].
  - destruct (_ =s _); [done|]. rewrite done_of_bind, translate_parts_done. by destruct (mapM _ [part]).
  - rewrite done_of_bind, translate_parts_done. by destruct (mapM _ (part :: part' :: parts)).
Qed.

Lemma content_says_iff content told : told_content content = Some told <-> content_says content told.
Proof.
  assert (Hparts : forall p ps, (ps = [] -> part_Type p <> ContentPartText) ->
    wire_content <$> mapM (fun part => done_of (translateContentPart part)) (p :: ps) = Some told <-> content_says (p :: ps) told).
  { intros p ps Hp. split.
    - intros (ws & Hws & ->)%fmap_Some. apply (mapM_says _ _ _ _ part_says_iff) in Hws.
      destruct ws as [|w ws]; [by apply Forall2_length in Hws|]. by apply says_parts.
    - intros H. inversion H as [|p' Ht|p' ps' ws _ Hws]; subst; [by destruct (Hp eq_refl)|].
      apply (mapM_says _ _ _ _ part_says_iff) in Hws as Hm. rewrite Hm. apply Forall2_length in Hws. by destruct ws. }
  unfold told_content. destruct content as [|p [|p' ps]].
  - split; [intros [= <-]; constructor|by inversion 1].
  - destruct (part_Type p =s ContentPartText) eqn:E; bool_cases; [|by apply Hparts].
    split; [intros [= <-]; by constructor|]. inversion 1 as [|q Ht|q qs ws Hq]; subst; [done|]. by destruct (Hq eq_refl).
  - by apply Hparts.
Qed.

Lemma message_says_iff m content told :
  done_of (translateMessage (with_content content m)) = Some told <-> message_says m content told.
Proof.
  rewrite translateMessage_done, fmap_Some. cbn [with_content Content Role message_Name ToolCallID ToolCalls]. split.
  - intros (c & Hc & ->). apply content_says_iff in Hc. by constructor.
  - intros []. exists (cm_Content told). split; [by apply content_says_iff|]. destruct told. cbn in *. by subst.
Qed.

Lemma with_own_content m : with_content (Content m) m = m.
Proof. by destruct m. Qed.

Lemma filter_none {A} (f : A -> bool) l : List.filter f l = [] -> List.filter (fun x => negb (f x)) l = l.
Proof. induction l as [|x l IH]; [done|]. cbn. destruct (f x); [done|]. cbn. intros H. by rewrite IH. Qed.

Lemma result_says_iff m told : Role m = RoleTool ->
  done_of (translateMessage (kept_of m)) = Some told <-> result_says m told.
Proof.
  intros Hr. unfold kept_of, is_tool. rewrite Hr. unfold result_says, withoutImages.
  change (List.filter is_image (Content m)) with (images_in m).
  change (List.filter (fun part => negb (is_image part)) (Content m)) with (words_in m).
  change (RoleTool =s RoleTool) with true. cbn iota. destruct (images_in m) as [|i images] eqn:Ei.
  - assert (words_in m = Content m) as -> by by apply filter_none. cbn [fst].
    rewrite <-message_says_iff, with_own_content. done.
  - cbn [fst]. destruct (words_in m); apply message_says_iff.
Qed.

Lemma images_of_result m : Role m = RoleTool -> images_of m = images_in m.
Proof.
  intros Hr. unfold images_of, is_tool. rewrite Hr. change (RoleTool =s RoleTool) with true. cbn iota. unfold withoutImages.
  change (List.filter is_image (Content m)) with (images_in m). by destruct (images_in m).
Qed.

Lemma carrier_follows images told : told = carrier images <-> images_follow images told.
Proof.
  destruct images as [|i images]; [done|]. cbn. split; [intros ->; by eexists|].
  intros ([] & -> & H). cbn in H. destruct H as (-> & -> & -> & -> & ->). done.
Qed.

Lemma is_tool_spec m : is_tool m = true <-> Role m = RoleTool.
Proof. apply String.eqb_eq. Qed.

(** The groups of a run of results, and of another message. *)
Lemma groups_results results rest :
  results <> [] -> Forall (fun m => Role m = RoleTool) results -> no_result rest ->
  groups (results ++ rest) = results :: groups rest.
Proof.
  intros Hne Hr Hrest. induction Hr as [|m results Hm Hr IH]; [done|]. apply is_tool_spec in Hm.
  destruct results as [|m' results].
  - cbn [app groups]. destruct rest as [|m' rest]; [done|].
    destruct (groups_head m' rest) as (g & gs & -> & Ht & _). cbn [no_result] in Hrest.
    assert (is_tool m' = false) as Hf by (apply not_true_iff_false; by rewrite is_tool_spec). by rewrite Ht, Hf, andb_false_r.
  - rewrite <-app_comm_cons. cbn [groups]. rewrite IH by done. rewrite Hm.
    assert (forallb is_tool (m' :: results) = true) as ->; [|done].
    apply forallb_forall. intros x Hx%list_elem_of_In. rewrite Forall_forall in Hr. by apply is_tool_spec, Hr.
Qed.

Lemma results_told results out : Forall (fun m => Role m = RoleTool) results ->
  translate_group results = Some out <->
  exists told images carried, out = told ++ carried /\ Forall2 result_says results told /\
    Forall2 part_says (concat (images_in <$> results)) images /\ images_follow images carried.
Proof.
  intros Hr. rewrite translate_group_eq.
  assert (images_of <$> results = images_in <$> results) as ->.
  { apply list_fmap_ext. intros i m Hm. apply images_of_result. rewrite Forall_lookup in Hr. by eapply Hr. }
  assert (forall told, mapM (fun m => done_of (translateMessage (kept_of m))) results = Some told <-> Forall2 result_says results told) as Ht.
  { induction Hr as [|m results Hm Hr IH]; intros told; [split; [by intros [= <-]|by inversion 1]|].
    cbn [mapM]. split.
    - destruct (done_of _) as [c|] eqn:Ec; [|done]. cbn. destruct (mapM _ results) as [cs|] eqn:Ecs; [|done]. intros [= <-].
      constructor; [by apply result_says_iff|by apply IH].
    - inversion 1 as [|? c ? cs Hc Hcs]; subst. apply result_says_iff in Hc; [|done]. apply IH in Hcs. by rewrite Hc, Hcs. }
  split.
  - destruct (mapM _ results) as [told|] eqn:E; [|done]. cbn. destruct (mapM _ (concat _)) as [images|] eqn:Ei; [|done].
    intros [= <-]. exists told, images, (carrier images). split_and!; [done|by apply Ht| |by apply carrier_follows].
    by apply (mapM_says _ _ _ _ part_says_iff) in Ei.
  - intros (told & images & carried & -> & Htold & Hi & ->%carrier_follows). apply Ht in Htold as ->. cbn.
    apply (mapM_says _ _ _ _ part_says_iff) in Hi as ->. done.
Qed.

Lemma message_told m out : Role m <> RoleTool ->
  translate_group [m] = Some out <-> exists told, out = [told] /\ message_says m (Content m) told.
Proof.
  intros Hr. assert (is_tool m = false) as Hf by (apply not_true_iff_false; by rewrite is_tool_spec).
  rewrite translate_group_eq. cbn [mapM fmap list_fmap concat app]. unfold kept_of, images_of. rewrite Hf. cbn [mapM].
  rewrite <-(with_own_content m) at 1. setoid_rewrite <-message_says_iff. split.
  - destruct (done_of _) as [told|]; [|done]. intros [= <-]. by exists told.
  - intros (told & -> & ->). done.
Qed.

(** A conversation ends, starts with a message, or with a run of results. *)
Lemma conversation_split conversation :
  conversation = [] \/ (exists m rest, conversation = m :: rest /\ Role m <> RoleTool) \/
  exists results rest, conversation = results ++ rest /\ results <> [] /\ Forall (fun m => Role m = RoleTool) results /\
    no_result rest.
Proof.
  induction conversation as [|m rest IH]; [by left|]. right. destruct (decide (Role m = RoleTool)) as [Hm|Hm]; [|by left; exists m, rest].
  right. destruct IH as [->|[(m' & rest' & -> & Hm')|(results & rest' & -> & _ & Hr & Hn)]].
  - exists [m], []. split_and!; [done|done|by constructor|done].
  - exists [m], (m' :: rest'). split_and!; [done|done|by constructor|done].
  - exists (m :: results), rest'. split_and!; [done|done|by constructor|done].
Qed.

Lemma reference_says conversation out : conversation_reference conversation = Some out <-> conversation_says conversation out.
Proof.
  unfold conversation_reference. split.
  - revert out. induction conversation as [conversation IH] using (induction_ltof1 _ (@length Message)). unfold ltof in IH.
    intros out (outs & Ho & ->)%fmap_Some.
    destruct (conversation_split conversation) as [->|[(m & rest & -> & Hm)|(results & rest & -> & Hne & Hr & Hn)]].
    + injection Ho as <-. constructor.
    + destruct (groups_head m rest) as (g & gs & Hg & _ & H). rewrite Hg in Ho.
      destruct H as [-> ->]; [apply not_true_iff_false; by rewrite is_tool_spec|]. cbn [mapM] in Ho.
      destruct (translate_group [m]) as [o|] eqn:E; [|done]. cbn in Ho. destruct (mapM _ (groups rest)) as [os|] eqn:Eos; [|done].
      injection Ho as <-. apply message_told in E as (told & -> & Hsays); [|done]. cbn. constructor; [done..|].
      apply IH; [cbn; lia|]. by rewrite Eos.
    + rewrite groups_results in Ho by done. cbn [mapM] in Ho.
      destruct (translate_group results) as [o|] eqn:E; [|done]. cbn in Ho. destruct (mapM _ (groups rest)) as [os|] eqn:Eos; [|done].
      injection Ho as <-. apply results_told in E as (told & images & carried & -> & H1 & H2 & H3); [|done].
      cbn [concat]. rewrite <-app_assoc. eapply says_results; try done.
      apply IH; [rewrite length_app; destruct results; [done|cbn; lia]|]. by rewrite Eos.
  - induction 1 as [|m told rest out Hm Hsays _ IH|results told images carried rest out Hne Hr Hn H1 H2 H3 _ IH]; [done| |].
    + destruct (groups_head m rest) as (g & gs & -> & _ & H). destruct H as [-> ->]; [apply not_true_iff_false; by rewrite is_tool_spec|].
      cbn [mapM]. rewrite (proj2 (message_told m [told] Hm)) by eauto. cbn. apply fmap_Some in IH as (os & -> & ->). done.
    + rewrite groups_results by done. cbn [mapM]. rewrite (proj2 (results_told results (told ++ carried) Hr)) by eauto 10. cbn.
      apply fmap_Some in IH as (os & -> & ->). cbn. by rewrite app_assoc.
Qed.

(** C27. The model reads the conversation the caller wrote.  A chat body's
    messages are exactly those that say the conversation: every message in
    order, under its own role, name, tool call and tool calls, a single text as
    text and any other content part by part, each an exact copy (an image by
    its URL or its bytes, audio in the format its media type names, a file by
    its bytes); a run of tool results told without its images, which follow the
    whole run, in order, in one user message, a result that was only images
    saying so.  A conversation no messages can say is refused. *)
Theorem conversation_is_told_in_order conversation :
  match done_of (translateConversation conversation) with
  | Some told => forall out, conversation_says conversation out <-> out = told
  | None => forall out, ~ conversation_says conversation out
  end.
Proof.
  assert (done_of (translateConversation conversation) = conversation_reference conversation) as ->.
  { unfold translateConversation, conversation_reference. rewrite conversation_loop_done, pending_nothing.
    by destruct (mapM translate_group (groups conversation)). }
  destruct (conversation_reference conversation) as [told|] eqn:E; intros out; rewrite <-reference_says, E; [|done].
  split; [by intros [= ->]|by intros ->].
Qed.

Lemma contentURL_answered source : answered (contentURL (Some source)).
Proof. unfold contentURL. repeat case_match; try done. apply answered_unsupported. Qed.

Lemma inline_answered source : answered (inline (Some source)).
Proof. unfold inline. case_match; [done|apply answered_unsupported]. Qed.

Lemma audioFormat_answered mediaType : answered (audioFormat mediaType).
Proof. unfold audioFormat. repeat case_match; try done. apply answered_unsupported. Qed.

Lemma part_answered part : ContentPart_validate part = None -> answered (translateContentPart part).
Proof.
  unfold ContentPart_validate, translateContentPart. intros Hv.
  destruct (part_Type part =s ContentPartText); [done|]. cbn [orb] in Hv.
  destruct (part_Type part =s ContentPartRefusal) eqn:Er; bool_cases.
  { rewrite Er. apply answered_unsupported. }
  destruct (part_Source part) as [source|].
  - repeat case_match; try apply answered_unsupported; apply answered_bind;
      auto using contentURL_answered, inline_answered; intros s _; try done.
    apply answered_bind; [apply audioFormat_answered|done].
  - repeat case_match; try done. all: try apply answered_unsupported.
Qed.

Lemma parts_answered index parts :
  Forall (fun part => ContentPart_validate part = None) parts -> answered (translate_parts index parts).
Proof.
  intros H. revert index. induction H as [|part parts Hp _ IH]; intros index; [done|]. cbn [translate_parts].
  apply answered_bind; [by eapply refused_answered, annotate_refused, part_answered|]. intros w _.
  apply answered_bind; [apply IH|done].
Qed.

Lemma message_answered m :
  Forall (fun part => ContentPart_validate part = None) (Content m) -> answered (translateMessage m).
Proof.
  intros H. unfold translateMessage.
  assert (forall f : list WirePart -> chatMessage,
    answered (parts <~ translate_parts 0 (Content m); Done (f parts))) as Hp.
  { intros f. apply answered_bind; [by apply parts_answered|done]. }
  destruct (Content m) as [|part [|part' parts]]; [apply Hp| |apply Hp]. destruct (_ =s _); [done|apply Hp].
Qed.

Lemma images_refused path index images :
  Forall (fun part => ContentPart_validate part = None) images -> refused_at path (tool_images path index images).
Proof.
  intros H. revert index. induction H as [|part images Hp _ IH]; intros index; [done|]. cbn [tool_images].
  apply refused_bind; [by eapply refused_weaken, annotate_refused, part_answered|]. intros w _.
  apply refused_bind; [apply IH|done].
Qed.

Lemma withoutImages_valid m :
  Forall (fun part => ContentPart_validate part = None) (Content m) ->
  Forall (fun part => ContentPart_validate part = None) (Content (withoutImages m).1) /\
  Forall (fun part => ContentPart_validate part = None) (withoutImages m).2.
Proof.
  intros H. unfold withoutImages.
  assert (forall f, Forall (fun part => ContentPart_validate part = None) (List.filter f (Content m))) as Hf.
  { intros f. clear -H. induction H as [|x l Hx _ IH]; [constructor|]. cbn. destruct (f x); [by constructor|done]. }
  pose proof (Hf is_image) as Hi. pose proof (Hf (fun part => negb (is_image part))) as Hk.
  destruct (List.filter is_image (Content m)) as [|img imgs]; [by split|]. split; [|done]. cbn.
  destruct (List.filter (fun part => negb (is_image part)) (Content m)); [|done]. by repeat constructor.
Qed.

Lemma loop_refused index messages held conversation :
  Forall (fun m => Message_validate m = None) conversation ->
  refused_at "input.messages[" (conversation_loop index messages held conversation).
Proof.
  intros H. revert index messages held. induction H as [|m conversation Hm _ IH]; intros index messages held; [done|].
  apply message_parts_valid in Hm. cbn [conversation_loop].
  assert (Hpath : forall A (x : Translated A), refused_at (index_path "input.messages" index) x -> refused_at "input.messages[" x).
  { intros A x. exact (refused_weaken "input.messages[" (Itoa (Z.of_nat index) +:+ "]") x). }
  destruct (is_tool m).
  - destruct (withoutImages_valid m Hm) as [Hk Hi]. destruct (withoutImages m) as [kept images]. cbn [fst snd] in *.
    apply refused_bind; [by apply Hpath, images_refused|]. intros ws _.
    apply refused_bind; [by apply Hpath, annotate_refused, message_answered|]. intros t _. apply IH.
  - apply refused_bind; [by apply Hpath, annotate_refused, message_answered|]. intros t _. apply IH.
Qed.

(** A conversation the contract accepts is written, or refused naming the
    message at fault; nothing panics. *)
Theorem valid_conversations_are_answered conversation :
  Forall (fun m => Message_validate m = None) conversation ->
  refused_at "input.messages[" (translateConversation conversation).
Proof. apply loop_refused. Qed.

(** ** The controls *)

(** The controls a caller's request states. *)
Definition stated_controls (request : Request) : list string :=
  let when (present : bool) (p : string) := if present then [p] else [] in
  let some {A} (v : option A) := bool_decide (is_Some v) in
  let sampling := Sampling request in
  when (some (MaxOutputTokens request)) "maxOutputTokens"
  ++ when (some (Reasoning request)) "reasoning.effort"
  ++ match request_ResponseFormat request with
     | Some format => when (negb (format_Type format =s ResponseFormatText)) "responseFormat"
     | None => []
     end
  ++ when (some (FrequencyPenalty sampling)) "sampling.frequencyPenalty"
  ++ when (some (PresencePenalty sampling)) "sampling.presencePenalty"
  ++ when (some (Seed sampling)) "sampling.seed"
  ++ when (negb (Nat.eqb (length (default [] (StopSequences sampling))) 0)) "sampling.stopSequences"
  ++ when (some (Temperature sampling)) "sampling.temperature"
  ++ when (some (TopP sampling)) "sampling.topP"
  ++ when (negb (Nat.eqb (length (Tools request)) 0)) "tools"
  ++ ToolChoiceParameters (request_ToolChoice request).

Lemma choice_parameters choice :
  decoded_choice choice ->
  match wire_tool_choice choice with
  | None => []
  | Some (ModeChoice mode) =>
      [ParameterToolChoice;
       if mode =s ToolChoiceNone then ParameterToolChoiceNone
       else if mode =s ToolChoiceRequired then ParameterToolChoiceRequired
       else ParameterToolChoice]
  | Some (FunctionChoice _) => [ParameterToolChoice; ParameterToolChoiceFunction]
  end = ToolChoiceParameters choice.
Proof.
  destruct choice as [[mode fn]|]; [|done]. unfold decoded_choice, wire_tool_choice, ToolChoiceParameters. cbn [choice_Mode choice_Function].
  destruct mode as [mode|], fn as [fn|]; try done. intros H%isMember_spec.
  repeat (apply elem_of_cons in H as [->|H]; [done|]). by apply not_elem_of_nil in H.
Qed.

Lemma reasoning_fields_some slug model effort fields :
  reasoning_fields slug model effort = Done fields ->
  bool_decide (is_Some fields.2) || bool_decide (is_Some fields.1) = bool_decide (is_Some effort) /\
  (forall e, effort = Some e -> fields.1 = Some e \/ fields.2 = Some e).
Proof.
  destruct effort as [effort|]; cbn; [|by intros [= <-]]. destruct (refuseUnstatedEffort _ _ _); [done|].
  destruct (reasoningDialectFor slug); [done| |]; intros [= <-]; (split; [done|]); intros e [= <-]; [by left|by right].
Qed.

Lemma translateResponseFormat_some format wire :
  translateResponseFormat format = Done wire ->
  bool_decide (is_Some wire) = negb (format_Type format =s ResponseFormatText).
Proof.
  unfold translateResponseFormat. destruct (_ =s ResponseFormatText); [by intros [= <-]|].
  destruct (_ =s ResponseFormatJSONObject); [by intros [= <-]|]. destruct (_ =s ResponseFormatJSONSchema); [|done].
  destruct (format_Name format), (Schema format); try done. by intros [= <-].
Qed.

Lemma stated_known request p : p ∈ stated_controls request -> isMember p RequestParameters = true.
Proof.
  unfold stated_controls. rewrite !elem_of_app.
  assert (Hw : forall (b : bool) q, p ∈ (if b then [q] else []) -> p = q).
  { intros b q. destruct b; [apply list_elem_of_singleton|]. intros H. by apply not_elem_of_nil in H. }
  intros H.
  repeat match type of H with _ \/ _ => destruct H as [H|H] end; try (apply Hw in H; by subst).
  - destruct (request_ResponseFormat request); [apply Hw in H; by subst|]. by apply not_elem_of_nil in H.
  - revert H. destruct (request_ToolChoice request) as [[mode fn]|]; cbn; [|intros H; by apply not_elem_of_nil in H].
    destruct fn; [|destruct mode]; repeat case_match; intros Hin;
      repeat (apply elem_of_cons in Hin as [->|Hin]; [done|]); by apply not_elem_of_nil in Hin.
Qed.

(** A route that states what it accepts was asked for nothing else. *)
Lemma unrefused_accepted body route stated p :
  refuseUnacceptedParameters body route = None -> r_AcceptedParameters route = Some stated ->
  p ∈ sent_parameters body -> isMember p RequestParameters = true -> accepts stated p = true.
Proof.
  unfold refuseUnacceptedParameters, UnacceptedParameter. intros H Hs Hp Hk. rewrite Hs in H.
  destruct (List.find _ RequestParameters) eqn:Ef; [done|]. pose proof (List.find_none _ _ Ef p) as Hn.
  cbv beta in Hn. rewrite canonical_member, (proj2 (isMember_spec p _) Hp) in Hn.
  rewrite isMember_spec in Hk. specialize (Hn (proj1 (list_elem_of_In _ _) Hk)). by destruct (accepts stated p).
Qed.

(** No control of a request is dropped.  A chat call that is built carries
    in its body exactly the controls the caller stated, with the caller's
    values, under OpenRouter's fixed privacy policy where it goes to OpenRouter;
    top_k, which the protocol lacks, was not asked for; and where the route
    states what its upstream accepts, it accepts every one of them. *)
Theorem controls_are_sent_or_refused slug baseURL request route call :
  decoded_choice (request_ToolChoice request) ->
  translateChat slug baseURL request route = Done call ->
  let body := cc_Body call in
  sent_parameters body = stated_controls request /\ TopK (Sampling request) = None /\
  (forall stated p, r_AcceptedParameters route = Some stated -> p ∈ stated_controls request -> accepts stated p = true) /\
  cr_Provider body = (if slug =s "openrouter" then Some (mkPolicy true "deny" true) else None) /\
  cr_Model body = r_UpstreamModelID route /\ cr_MaxTokens body = MaxOutputTokens request /\
  (forall effort, Reasoning request = Some effort -> cr_ReasoningEffort body = Some effort \/ cr_Reasoning body = Some effort) /\
  mkSampling (cr_Temperature body) (cr_TopP body) None (cr_FrequencyPenalty body) (cr_PresencePenalty body)
    (cr_Seed body) (StopSequences (Sampling request)) = Sampling request /\
  cr_Stop body = default [] (StopSequences (Sampling request)) /\ cr_Tools body = wire_tool <$> Tools request /\
  cr_IncludeUsage body = Stream request.
Proof.
  intros Hch. unfold translateChat. destruct (negb (Modality request =s _)); [done|]. destruct (negb (Format _ =s _)); [done|].
  intros (messages & _ & H)%translate_bind_Done. apply translate_bind_Done in H as (effort & He & H).
  destruct (TopK (Sampling request)) eqn:Ek; [done|]. cbn [is_Some] in H. rewrite bool_decide_eq_false_2 in H by (by intros []).
  apply translate_bind_Done in H as (format & Hf & H). cbn zeta in H. set (body := mkChatRequest _ _ _ _ _ _ _ _ _ _ _ _ _ _ _ _ _) in H.
  destruct (negb (encodable body)); [done|]. destruct (refuseUnacceptedParameters body route) eqn:Er; [done|].
  injection H as <-. cbn [cc_Body]. destruct (reasoning_fields_some _ _ _ _ He) as [Hes Hev].
  assert (Hsent : sent_parameters body = stated_controls request).
  { unfold sent_parameters, stated_controls, body.
    cbn [cr_MaxTokens cr_Reasoning cr_ReasoningEffort cr_ResponseFormat cr_FrequencyPenalty cr_PresencePenalty cr_Seed
         cr_Stop cr_Temperature cr_TopP cr_Tools cr_ToolChoice].
    rewrite Hes, length_fmap, choice_parameters by done. repeat f_equal.
    destruct (request_ResponseFormat request) as [f|]; [by rewrite (translateResponseFormat_some _ _ Hf)|].
    by injection Hf as <-. }
  split_and!; try done.
  - intros stated p Hs Hp. eapply unrefused_accepted; [done|done|by rewrite Hsent|by eapply stated_known].
  - cbn. rewrite <-Ek. by destruct (Sampling request).
Qed.

Definition example_conversation : list Message :=
  [ mkMessage RoleUser [mkPart ContentPartText (Some "look") None None None] None None None;
    mkMessage RoleTool [mkPart ContentPartText (Some "taken") None None None;
                        mkPart ContentPartImage None (Some (mkSource ContentSourceInline None (Some "image/png") (Some "AA=="))) None None]
      None (Some "call_1") None;
    mkMessage RoleTool [mkPart ContentPartText (Some "sunny") None None None] None (Some "call_2") None;
    mkMessage RoleAssistant [mkPart ContentPartText (Some "a cat") None None None] None None None ].

Definition example_chat : Request :=
  mkRequest None None None 1 (request_Attribution example_request) (Target example_request) ModalityText
    (mkInput None InputMessages (Some example_conversation) None None) true (Some 64%Z)
    (mkSampling (Some (f64_of_Z 1)) None None None None (Some 7%Z) None) (Some "low")
    [mkTool "function" "f" None None None] (Some (mkToolChoice (Some ToolChoiceRequired) None)) None
    APIFormatChatCompletions [].

Definition example_chat_route : Route :=
  mkRoute "dep" "openrouter" "acme/m@1" "m" []
    (Some ["maxOutputTokens"; "reasoning.effort"; "sampling.seed"; "sampling.temperature"; "toolChoice.required"; "tools"])
    None None.

Definition example_chat_call : ChatCall :=
  match translateChat "openrouter" "https://openrouter.ai/api/v1" example_chat example_chat_route with
  | Done call => call
  | _ => mkChatCall "" (mkChatRequest "" [] false false None None None None None None None [] None None [] None None) false
  end.

Lemma example_chat_done :
  translateChat "openrouter" "https://openrouter.ai/api/v1" example_chat example_chat_route = Done example_chat_call.
Proof. vm_compute. reflexivity. Qed.

Example example_told :
  cr_Messages (cc_Body example_chat_call) =
  [ mkChatMessage RoleUser (TextContent "look") None None [];
    mkChatMessage RoleTool (TextContent "taken") None (Some "call_1") [];
    mkChatMessage RoleTool (TextContent "sunny") None (Some "call_2") [];
    mkChatMessage RoleUser (PartsContent [ImagePart "data:image/png;base64,AA==" None]) None None [];
    mkChatMessage RoleAssistant (TextContent "a cat") None None [] ].
Proof. vm_compute. reflexivity. Qed.

Lemma controls_are_sent_or_refused_witness :
  sent_parameters (cc_Body example_chat_call) =
    ["maxOutputTokens"; "reasoning.effort"; "sampling.seed"; "sampling.temperature"; "tools"; "toolChoice"; "toolChoice.required"] /\
  sent_parameters (cc_Body example_chat_call) = stated_controls example_chat.
Proof.
  split; [vm_compute; reflexivity|].
  destruct (controls_are_sent_or_refused "openrouter" "https://openrouter.ai/api/v1" example_chat example_chat_route
    example_chat_call eq_refl example_chat_done) as [H _]. exact H.
Defined.

(** The path of a refusal counts the parts left once a tool's images are taken
    out: the second part of this message is refused as its first. *)
Example moved_images_shift_the_path :
  translateConversation
    [mkMessage RoleTool
       [mkPart ContentPartImage None (Some (mkSource ContentSourceInline None (Some "image/png") (Some "AA=="))) None None;
        mkPart ContentPartAudio None (Some (mkSource ContentSourceURL (Some "https://a.example/a.wav") None None)) None None]
       None (Some "call_1") None] =
  Fails (ErrUnsupported CodeUnsupportedModality "input.messages[0].content[0]").
Proof. vm_compute. reflexivity. Qed.

(** A tool choice that names neither a mode nor a function is dropped, where
    the parameters it needs are described as refused by the adapter. *)
Example empty_tool_choice_is_dropped :
  let choice := Some (mkToolChoice None None) in
  wire_tool_choice choice = None /\ ToolChoiceParameters choice = [ParameterToolChoice].
Proof. split; reflexivity. Qed.
