(* ===== verification/StreamWatch.v ===== *)
(** * The idle watch of a stream (internal/provider/stall.go)

    A stream's derived context, and the timer that cancels it when no real
    frame came for a bound.  What happens to a watch is a sequence of events,
    each at an instant: the adapter arming it and reporting progress, the timer
    firing, the caller's own context ending, the adapter stopping it. *)

From S2P Require Import Prelude.

Definition DefaultStreamIdleTimeout : Duration := 300 * Second.

(** Why a context was cancelled. *)
Inductive Cause := CauseStalled | CauseCanceled | CauseParent.

#[export] Instance Cause_eq_dec : EqDecision Cause.
Proof. solve_decision. Defined.

(** [time.Timer] made by [AfterFunc]: not made yet, stopped or fired, or
    running towards a deadline. *)
Inductive Timer := NoTimer | TimerOff | TimerAt (deadline : Instant).

Record StreamWatch := mkWatch { cause : option Cause; idle : Duration; timer : Timer }.

(** [WatchStream]. *)
Definition WatchStream (parent_done : bool) (bound : Duration) : StreamWatch :=
  mkWatch (if parent_done then Some CauseParent else None)
    (if (bound <=? 0)%Z then DefaultStreamIdleTimeout else bound) NoTimer.

(** [context.CancelCauseFunc]: the first cause stays. *)
Definition cancel (why : Cause) (w : StreamWatch) : StreamWatch :=
  mkWatch (match cause w with Some c => Some c | None => Some why end) (idle w) (timer w).

Definition set_timer (t : Timer) (w : StreamWatch) : StreamWatch := mkWatch (cause w) (idle w) t.

Definition Arm (now : Instant) (w : StreamWatch) : StreamWatch :=
  match timer w with NoTimer => set_timer (TimerAt (Add now (idle w))) w | _ => w end.

Definition Progress (now : Instant) (w : StreamWatch) : StreamWatch :=
  match timer w with NoTimer => w | _ => set_timer (TimerAt (Add now (idle w))) w end.

Definition Stalled (w : StreamWatch) : bool := bool_decide (cause w = Some CauseStalled).

Definition Stop (w : StreamWatch) : StreamWatch :=
  cancel CauseCanceled (match timer w with NoTimer => w | _ => set_timer TimerOff w end).

(** The runtime runs the timer's function at its deadline or later. *)
Definition fire (now : Instant) (w : StreamWatch) : StreamWatch :=
  match timer w with
  | TimerAt deadline => if Before now deadline then w else cancel CauseStalled (set_timer TimerOff w)
  | _ => w
  end.

Inductive WatchEvent := Armed | Progressed | Fired | ParentDone | Stopped.

#[export] Instance WatchEvent_eq_dec : EqDecision WatchEvent.
Proof. solve_decision. Defined.

Definition watch_step (w : StreamWatch) (event : Instant * WatchEvent) : StreamWatch :=
  match event.2 with
  | Armed => Arm event.1 w
  | Progressed => Progress event.1 w
  | Fired => fire event.1 w
  | ParentDone => cancel CauseParent w
  | Stopped => Stop w
  end.

Definition watch (events : list (Instant * WatchEvent)) (w : StreamWatch) : StreamWatch := foldl watch_step w events.

(** The clock was last set at [t]: armed or progressed, and no progress since. *)
Definition set_at (events : list (Instant * WatchEvent)) (t : Instant) : Prop :=
  exists pre e mid, events = pre ++ (t, e) :: mid /\ e ∈ [Armed; Progressed] /\
    Forall (fun event => event.2 <> Progressed) mid.

(** It was silent for the bound: the clock was set, and ran out unreset. *)
Definition silent (bound : Duration) (events : list (Instant * WatchEvent)) : Prop :=
  exists before t u rest, events = before ++ (u, Fired) :: rest /\ set_at before t /\ (t + bound <= u)%Z.

Lemma watch_snoc events event w : watch (events ++ [event]) w = watch_step (watch events w) event.
Proof. apply foldl_snoc. Qed.

Lemma watch_idle events w : idle (watch events w) = idle w.
Proof.
  induction events as [|[now e] events IH] using rev_ind; [done|]. rewrite watch_snoc, <-IH.
  destruct e; cbn; unfold Arm, Progress, fire, Stop, cancel; repeat case_match; done.
Qed.

Lemma set_at_quiet events t now e : e <> Progressed -> set_at events t -> set_at (events ++ [(now, e)]) t.
Proof.
  intros He (pre & x & mid & -> & Hx & Hmid). exists pre, x, (mid ++ [(now, e)]). split; [by rewrite <-app_assoc|].
  split; [done|]. apply Forall_app. split; [done|]. by constructor.
Qed.

Lemma set_at_now events now e : e ∈ [Armed; Progressed] -> set_at (events ++ [(now, e)]) now.
Proof. intros He. by exists events, e, []. Qed.

Lemma silent_snoc bound events event : silent bound events -> silent bound (events ++ [event]).
Proof.
  intros (before & t & u & rest & -> & H). exists before, t, u, (rest ++ [event]). split; [by rewrite <-app_assoc|done].
Qed.

(** What the timer and the cause remember of the events. *)
Lemma watch_remembers parent_done bound events :
  let w := watch events (WatchStream parent_done bound) in
  (forall deadline, timer w = TimerAt deadline -> exists t, set_at events t /\ deadline = (t + idle w)%Z) /\
  (Stalled w = true -> silent (idle w) events).
Proof.
  cbn zeta. induction events as [|[now e] events IH] using rev_ind.
  { split; [done|]. by destruct parent_done. }
  rewrite watch_snoc. set (w := watch events _) in *. destruct IH as [Ht Hs]. unfold Stalled in *.
  assert (Hkept : forall deadline, e <> Progressed -> timer w = TimerAt deadline ->
    exists t, set_at (events ++ [(now, e)]) t /\ deadline = (t + idle w)%Z).
  { intros d He Hd. destruct (Ht d Hd) as (t & Hset & ->). exists t. split; [by apply set_at_quiet|done]. }
  assert (Hold : bool_decide (cause w = Some CauseStalled) = true -> silent (idle w) (events ++ [(now, e)]))
    by (intros H; by apply silent_snoc, Hs).
  destruct e; cbn [watch_step fst snd].
  - unfold Arm. destruct (timer w) eqn:Et; cbn [timer idle cause set_timer]; (split; [|done]); intros d Hd.
    + injection Hd as <-. exists now. split; [by apply set_at_now; set_solver|done].
    + congruence.
    + apply Hkept; congruence.
  - unfold Progress. destruct (timer w) eqn:Et; cbn [timer idle cause set_timer]; (split; [|done]); intros d Hd.
    + congruence.
    + injection Hd as <-. exists now. split; [by apply set_at_now; set_solver|done].
    + injection Hd as <-. exists now. split; [by apply set_at_now; set_solver|done].
  - unfold fire. destruct (timer w) as [| |deadline] eqn:Et; [split; [intros d Hd; congruence|done]..|].
    destruct (Before now deadline) eqn:Eb; [split; [intros d Hd; apply Hkept; [done|congruence]|done]|]. split; [done|]. cbn. intros _.
    destruct (Ht deadline eq_refl) as (t & Hset & ->). unfold Before in Eb. bool_cases.
    by exists events, t, now, [].
  - split; [intros d Hd; by apply Hkept|]. cbn. destruct (cause w); [done|]. by case_bool_decide.
  - unfold Stop. split; [by destruct (timer w) eqn:Et; cbn; rewrite ?Et|].
    destruct (timer w); cbn; destruct (cause w); try done; by case_bool_decide.
Qed.

(** A stream is called stalled only when it was: the watch was armed, and
    from the arming or the last progress report on, no frame came for the whole
    bound before the timer fired - whatever the caller, the timer and the
    adapter did besides, and in whatever order. *)
Theorem stalled_streams_were_silent parent_done bound events :
  (0 < bound)%Z -> Stalled (watch events (WatchStream parent_done bound)) = true -> silent bound events.
Proof.
  intros Hb H. apply watch_remembers in H. rewrite watch_idle in H. cbn in H.
  destruct (bound <=? 0)%Z eqn:E; [bool_cases; lia|done].
Qed.

Definition example_stall : list (Instant * WatchEvent) :=
  [(0, Progressed); (10, Armed); (20, Fired); (30, Progressed); (80, Fired); (81, ParentDone); (90, Stopped)]%Z.

Lemma stalled_streams_were_silent_witness :
  Stalled (watch example_stall (WatchStream false 50)) = true /\ silent 50 example_stall.
Proof. split; [reflexivity|]. by apply (stalled_streams_were_silent false 50 example_stall). Defined.

(** A silence that outlasts the bound is noticed: once armed, with no progress
    and nothing else ending the stream, the timer's firing stalls it. *)
Theorem silence_is_noticed bound t u :
  (0 < bound)%Z -> (t + bound <= u)%Z ->
  Stalled (watch [(t, Armed); (u, Fired)] (WatchStream false bound)) = true.
Proof.
  intros Hb Hu. unfold watch, WatchStream. cbn [foldl watch_step fst snd].
  destruct (bound <=? 0)%Z eqn:E; [bool_cases; lia|]. unfold Arm, fire. cbn [timer idle set_timer]. unfold Before, Add.
  destruct (u <? t + bound)%Z eqn:E2; [bool_cases; lia|]. done.
Qed.
