(* ===== verification/Reports.v ===== *)
(** * Adapters that report in order

    What the adapters share: an execution that makes a list of reports, one
    after another, and returns its outcome at the first the emitter refuses;
    and what a client hears of the reports an emitter took. *)

From S2P Require Import Prelude Ids Text Contract Provider KeyPool ProviderCost Adapter UsageEstimate Emitter.

(** ** Outcomes *)

Definition set_finish (reason : string) (o : AdapterOutcome) : AdapterOutcome :=
  mkOutcome (out_Decisions o) (out_Embedding o) (out_DetectedLanguage o) (out_Units o) (out_UsageSource o) reason
    (out_KeyID o) (out_KeyClass o) (out_ProviderReportedCost o) (out_AbandonedExchanges o).
Definition set_cost (cost : Money) (o : AdapterOutcome) : AdapterOutcome :=
  mkOutcome (out_Decisions o) (out_Embedding o) (out_DetectedLanguage o) (out_Units o) (out_UsageSource o)
    (out_FinishReason o) (out_KeyID o) (out_KeyClass o) (Some cost) (out_AbandonedExchanges o).
Definition set_key (key : Key) (o : AdapterOutcome) : AdapterOutcome :=
  mkOutcome (out_Decisions o) (out_Embedding o) (out_DetectedLanguage o) (out_Units o) (out_UsageSource o)
    (out_FinishReason o) (KeyPool.ID key) (key_Class key) (out_ProviderReportedCost o) (out_AbandonedExchanges o).

Definition unmeasured : AdapterOutcome := set_units [] UsageEstimated no_outcome.

(** ** Reports *)

Section Reports.
Variable clock : nat -> Instant.     (* the time at each report *)

(** Report in order; the first refusal is returned with the outcome so far. *)
Fixpoint reports (n : nat) (ops : list EmitterOp) (o : AdapterOutcome) (k : Script) : Script :=
  match ops with
  | [] => k
  | op :: ops =>
      Emit (clock n) op (fun answer =>
        match answer with Some err => Return o (Some err) | None => reports (S n) ops o k end)
  end.

Variable sink : Sink.

(** The reports of a list, up to the first refusal. *)
Fixpoint apply_ops (n : nat) (ops : list EmitterOp) : Op :=
  match ops with
  | [] => ok
  | op :: ops => apply_op sink (clock n) op ;>> apply_ops (S n) ops
  end.

Lemma play_reports n ops o k e :
  play sink (reports n ops o k) e =
  match apply_ops n ops e with
  | (Some err, e) => (o, Some err, e)
  | (None, e) => play sink k e
  end.
Proof.
  revert n e. induction ops as [|op ops IH]; intros n e; [done|]. cbn [reports play apply_ops]. unfold and_then.
  destruct (apply_op sink (clock n) op e) as [[err|] e']; [done|]. apply IH.
Qed.

Lemma apply_ops_app n ops ops' e :
  apply_ops n (ops ++ ops') e =
  match apply_ops n ops e with
  | (None, e) => apply_ops (n + length ops) ops' e
  | refused => refused
  end.
Proof.
  revert n e. induction ops as [|op ops IH]; intros n e; [by rewrite Nat.add_0_r|].
  cbn [app apply_ops length]. unfold and_then. destruct (apply_op sink (clock n) op e) as [[err|] e']; [done|].
  rewrite IH. by rewrite Nat.add_succ_r.
Qed.

(** What becomes of what an execution returns. *)
Fixpoint map_return (f : AdapterOutcome -> option GoError -> AdapterOutcome * option GoError) (s : Script) : Script :=
  match s with
  | Return o err => let '(o, err) := f o err in Return o err
  | Emit now op rest => Emit now op (fun answer => map_return f (rest answer))
  end.

Lemma play_map_return f s e :
  play sink (map_return f s) e =
  let '(o, err, e) := play sink s e in let '(o, err) := f o err in (o, err, e).
Proof.
  revert e. induction s as [o err|now op rest IH]; intros e; cbn [map_return play]; [by destruct (f o err)|].
  destruct (apply_op sink now op e) as [answer e1]. apply IH.
Qed.

(** ** What is heard

    A text read off the output events, and off the reports: nothing for a
    start, a usage or an empty delta. *)

Variable on_delta : Z -> string -> string -> string.   (* output index, channel, text *)
Variable on_call : string -> string -> string -> string.   (* call id, name, arguments *)
Hypothesis on_delta_empty : forall index channel, on_delta index channel "" = "".

Definition heard_event (event : StreamEvent) : string :=
  match event with
  | StreamDeltaEvent _ _ index channel text => on_delta index channel text
  | StreamToolCallEvent _ _ id name arguments _ => on_call id (default "" name) (default "" arguments)
  | _ => ""
  end.
Fixpoint heard (l : list StreamEvent) : string :=
  match l with [] => "" | event :: l => heard_event event +:+ heard l end.

Definition said_op (op : EmitterOp) : string :=
  match op with
  | OpDelta index channel text => on_delta index channel text
  | OpToolCall call => on_call (ID call) (Name call) (ArgumentsDelta call)
  | _ => ""
  end.
Fixpoint said (ops : list EmitterOp) : string :=
  match ops with [] => "" | op :: ops => said_op op +:+ said ops end.

Lemma heard_app l l' : heard (l ++ l') = heard l +:+ heard l'.
Proof. induction l as [|event l IH]; [done|]. cbn [app heard]. by rewrite IH, str_app_assoc. Qed.

Lemma said_app ops ops' : said (ops ++ ops') = said ops +:+ said ops'.
Proof. induction ops as [|op ops IH]; [done|]. cbn [app said]. by rewrite IH, str_app_assoc. Qed.

Lemma send_next_events event e e' :
  send_next sink event e = (None, e') -> events e' = events e ++ [event (sequence e)].
Proof.
  rewrite send_next_spec. destruct (terminated e); [done|]. cbn zeta. destruct (sink _ _); [done|]. intros [= <-].
  unfold events, push. cbn [log]. by rewrite fmap_app.
Qed.

Lemma send_next_heard event e e' s :
  send_next sink event e = (None, e') -> (forall n, heard_event (event n) = s) ->
  heard (events e') = heard (events e) +:+ s.
Proof.
  intros H Hs. rewrite (send_next_events _ _ _ H), heard_app. cbn. by rewrite Hs, str_app_nil_r.
Qed.

Lemma holdable_quiet id event n : holdable id event -> heard_event (stampSequence event n) = "".
Proof. destruct event; cbn; try done. intros [_ ->]. apply on_delta_empty. Qed.

Lemma send_held_heard id held e e' :
  Forall (holdable id) held -> send_held sink held e = (None, e') -> heard (events e') = heard (events e).
Proof.
  intros Hall. revert e. induction Hall as [|event held Hev Hall IH]; intros e; cbn [send_held]; [by intros [= <-]|].
  unfold and_then. destruct (send_next sink (stampSequence event) e) as [[err|] e1] eqn:E; [done|].
  intros H%IH. rewrite H, (send_next_heard _ _ _ "" E); [by rewrite str_app_nil_r|].
  intros n. by apply (holdable_quiet id).
Qed.

Lemma commit_heard u0 e e' :
  emitter_inv u0 e -> attemptStarted e = true -> commit sink e = (None, e') -> heard (events e') = heard (events e).
Proof.
  intros [_ _ Hs _ Hh] Ha. unfold commit. destruct (started e) eqn:Est; [by intros [= <-]|].
  destruct (Hs eq_refl Ha) as (resolved & at_ & _ & ->). unfold and_then.
  destruct (send_next sink _ _) as [[err|] e1] eqn:E; [done|].
  intros H%(send_held_heard (e_requestID e)); [|done].
  rewrite H, (send_next_heard _ _ _ "" E); [by rewrite str_app_nil_r|done].
Qed.

Lemma send_output_heard event account e e' s :
  send_output sink event account e = (None, e') -> (forall n, heard_event (event n) = s) ->
  heard (events e') = heard (events e) +:+ s.
Proof.
  unfold send_output. destruct (send_next sink event e) as [[err|] e1] eqn:E; [done|]. intros [= <-] Hs.
  exact (send_next_heard _ _ _ _ E Hs).
Qed.

Lemma sendOrHold_heard id event e e' :
  holdable id event -> sendOrHold sink event e = (None, e') -> heard (events e') = heard (events e).
Proof.
  intros Hh. unfold sendOrHold. destruct (started e); [|by intros [= <-]].
  intros H. rewrite (send_next_heard _ _ _ "" H); [by rewrite str_app_nil_r|]. intros n. by apply (holdable_quiet id).
Qed.

(** Output sent once the stream is committed. *)
Lemma committed_heard u0 event account e e' s :
  emitter_inv u0 e -> attemptStarted e = true ->
  (commit sink ;>> fun e => send_output sink (event e) account e) e = (None, e') ->
  (forall e n, heard_event (event e n) = s) ->
  heard (events e') = heard (events e) +:+ s.
Proof.
  intros Hinv Ha. unfold and_then. destruct (commit sink e) as [[err|] e1] eqn:E; [done|]. intros H Hs.
  by rewrite (send_output_heard _ _ _ _ _ H (Hs e1)), (commit_heard u0 _ _ Hinv Ha E).
Qed.

Lemma markOutput_inv u0 now e : emitter_inv u0 e -> emitter_inv u0 (markOutput now e).
Proof.
  intros [Hf Hc Hs Hi Hh]. constructor; try done. replace (current _) with (current e) by done.
  by apply (framed_ext _ _ e).
Qed.

(** A report the emitter takes is heard as said. *)
Lemma apply_op_heard u0 now op e e' :
  emitter_inv u0 e -> apply_op sink now op e = (None, e') -> heard (events e') = heard (events e) +:+ said_op op.
Proof.
  intros Hinv. destruct op as [resolved at_|index channel text|call|units source|index mediaType data];
    cbn [apply_op said_op].
  - unfold Start. repeat case_match; try done. intros [= <-]. by rewrite str_app_nil_r.
  - unfold Delta, and_then at 1 2, requireStarted, guard. destruct (attemptStarted e) eqn:Ea; [|done].
    destruct (index <? 0)%Z; [done|]. cbn [ok]. destruct (text =s "") eqn:Et; bool_cases.
    + intros H. rewrite Et, on_delta_empty, str_app_nil_r. by apply (sendOrHold_heard (e_requestID e)) in H.
    + intros H. by apply (committed_heard u0 (fun _ n => _) _ (markOutput now e) _ _ (markOutput_inv u0 now e Hinv) Ea H).
  - unfold ToolCall, and_then at 1 2, requireStarted, guard. destruct (attemptStarted e) eqn:Ea; [|done].
    destruct (ID call =s ""); [done|]. cbn [ok]. intros H.
    apply (committed_heard u0 _ _ _ _ _ Hinv Ea H). intros e0 n. cbn. unfold optional.
    destruct (Name call =s "") eqn:E1, (ArgumentsDelta call =s "") eqn:E2; bool_cases; cbn; congruence.
  - unfold Usage, and_then, requireStarted, guard. destruct (attemptStarted e) eqn:Ea; [|done].
    destruct (Nat.eqb _ _); [done|]. cbn [ok]. intros H. rewrite str_app_nil_r.
    by apply (sendOrHold_heard (e_requestID e)) in H.
  - unfold Audio, and_then at 1 2 3, requireStarted, guard. destruct (attemptStarted e) eqn:Ea; [|done].
    destruct (_ || _ || _); [done|]. cbn [ok]. destruct (negb _); [done|]. cbn [ok].
    intros H. by apply (committed_heard u0 (fun e n => _) _ (markOutput now e) _ "" (markOutput_inv u0 now e Hinv) Ea H).
Qed.

Lemma apply_ops_heard u0 n ops e e' :
  emitter_inv u0 e -> apply_ops n ops e = (None, e') -> heard (events e') = heard (events e) +:+ said ops.
Proof.
  revert n e. induction ops as [|op ops IH]; intros n e Hinv; cbn [apply_ops].
  { intros [= <-]. by rewrite str_app_nil_r. }
  unfold and_then. destruct (apply_op sink (clock n) op e) as [[err|] e1] eqn:E; [done|].
  intros H. pose proof (apply_op_ok sink u0 (clock n) op e Hinv) as Hok. rewrite E in Hok. cbn [snd said] in *.
  rewrite (IH _ _ (ok_inv _ _ _ Hok) H), (apply_op_heard u0 _ _ _ _ Hinv E), str_app_assoc. done.
Qed.

End Reports.
