(* ===== verification/ChatStream.v ===== *)
(** * Chat streams (internal/provider/openaicompat/stream.go, wire.go)

    What the adapter of the chat completions protocol does with an answer the
    upstream accepted: the frames of a stream, or one whole completion, told to
    the emitter as normalized events; the units a provider reports made
    disjoint; the failures of a response classified.  A reading is a
    [Script] played against the emitter.  Decoding a frame's JSON is the
    argument [Unmarshal]; a decoded frame is a record with the fields read. *)

From S2P Require Import Prelude Ids Text Contract Request Provider KeyPool ProviderCost Adapter UsageEstimate Emitter Reports.
From S2P Require Sse.

(** ** The wire (wire.go) *)

Record cheaperInferenceBilling := mkBilling { BilledCostUSD : string }.

Record streamCallFunction := mkCallFunction { cf_Name : option string; cf_Arguments : option string }.

Record streamToolCallRef := mkToolCallRef {
  ref_Index : Z;
  ref_ID : option string;
  ref_Function : option streamCallFunction;
}.

Record streamDelta := mkStreamDelta {
  sd_Content : option string;
  sd_Refusal : option string;
  sd_ReasoningContent : option string;
  sd_Reasoning : option string;
  sd_ToolCalls : list streamToolCallRef;
}.

Record streamChoice := mkStreamChoice { sc_Index : Z; sc_Delta : streamDelta; sc_FinishReason : option string }.

Record promptTokensDetails := mkPromptDetails { CachedTokens : option Z }.
Record completionTokensInfo := mkCompletionInfo { ReasoningTokens : option Z }.

Record chatUsage := mkChatUsage {
  PromptTokens : option Z;
  CompletionTokens : option Z;
  PromptTokensDetails : option promptTokensDetails;
  CompletionDetails : option completionTokensInfo;
}.

(** A JSON value of type [any], as far as it is read. *)
Inductive AnyValue := AnyString (s : string) | AnyNumber (f : float64) | AnyOther.

Record upstreamErrorMetadata := mkErrorMetadata { ErrorType : string; Reasons : list string }.

Record upstreamError := mkUpstreamError {
  ue_Message : string;
  ue_Type : string;
  ue_Code : option AnyValue;
  ue_Metadata : option upstreamErrorMetadata;
}.

Definition no_error : upstreamError := mkUpstreamError "" "" None None.

Record chatChunk := mkChunk {
  ck_Choices : list streamChoice;
  ck_Usage : option chatUsage;
  ck_Error : option upstreamError;
  ck_CheaperInference : option cheaperInferenceBilling;
}.

Record chatToolCall := mkChatToolCall { tc_ID : string; tc_Name : string; tc_Arguments : string }.

Record completionMessage := mkCompletionMessage {
  cm_Content : option string;
  cm_Refusal : option string;
  cm_ReasoningContent : option string;
  cm_ToolCalls : list chatToolCall;
}.

Record completionChoice := mkCompletionChoice {
  cc_Index : Z;
  cc_Message : completionMessage;
  cc_FinishReason : option string;
}.

Record chatCompletion := mkCompletion {
  cp_Choices : list completionChoice;
  cp_Usage : option chatUsage;
  cp_CheaperInference : option cheaperInferenceBilling;
}.

(** What [upstreamErrorBody.UnmarshalJSON] finds under [error], when it is
    there: a text, [null], or anything else with what the decoder fills of an
    [upstreamError] from it. *)
Inductive ErrorMember := MemberText (s : string) | MemberNull | MemberOther (decoded : upstreamError).

(** [json.Unmarshal] of a member into a string: [null] leaves it as it was. *)
Definition unmarshal_text (member : option ErrorMember) : option string :=
  match member with
  | Some (MemberText s) => Some s
  | Some MemberNull => Some ""
  | _ => None
  end.

(** [upstreamErrorBody.UnmarshalJSON] over the members of the envelope. *)
Definition UnmarshalJSON (error : option ErrorMember) (code : option AnyValue) (message : option ErrorMember)
    : upstreamError :=
  match unmarshal_text error with
  | Some text => mkUpstreamError text "" code None
  | None =>
      match error with
      | None | Some MemberNull =>
          match unmarshal_text message with
          | Some text => mkUpstreamError text "" None None
          | None => no_error
          end
      | Some (MemberOther decoded) => decoded
      | Some (MemberText _) => no_error
      end
  end.

(** [upstreamError.kind]. *)
Definition kind (e : upstreamError) : string :=
  let from_metadata := match ue_Metadata e with Some metadata => ErrorType metadata | None => "" end in
  if negb (ue_Type e =s "") then ue_Type e
  else if negb (from_metadata =s "") then from_metadata
  else match ue_Code e with
  | Some (AnyNumber code) =>
      let status := f64_to_int code in
      if (status =? 402)%Z then "billing_error"
      else if (status =? 401)%Z then "authentication_error"
      else if (status =? 429)%Z then "rate_limit_exceeded"
      else if (status =? 502)%Z then "server_error"
      else if (status =? 503)%Z then "overloaded_error"
      else ""
  | _ => ""
  end.

(** ** Usage *)

Definition nonNegative (value : Z) : Z := if (value <? 0)%Z then 0 else value.

Definition cached_of (usage : chatUsage) : Z :=
  match PromptTokensDetails usage ≫= CachedTokens with Some n => nonNegative n | None => 0 end.
Definition reasoning_of (usage : chatUsage) : Z :=
  match CompletionDetails usage ≫= ReasoningTokens with Some n => nonNegative n | None => 0 end.

Definition normalizeUsage (usage : chatUsage) : list UsageQuantity :=
  let cached := cached_of usage in
  let reasoning := reasoning_of usage in
  [mkQuantity UnitRequests 1]
  ++ match PromptTokens usage with
     | Some n => [mkQuantity UnitInputTokens (nonNegative (wrap64 (n - cached)))]
     | None => []
     end
  ++ (if (0 <? cached)%Z then [mkQuantity UnitCachedInputTokens cached] else [])
  ++ match CompletionTokens usage with
     | Some n => [mkQuantity UnitOutputTokens (nonNegative (wrap64 (n - reasoning)))]
     | None => []
     end
  ++ (if (0 <? reasoning)%Z then [mkQuantity UnitReasoningTokens reasoning] else []).

Definition mapFinishReason (reason : string) : string :=
  if reason =s "stop" then FinishStop
  else if (reason =s "length") || (reason =s "max_tokens") then FinishLength
  else if (reason =s "tool_calls") || (reason =s "function_call") then FinishToolCalls
  else if reason =s "content_filter" then FinishContentFilter
  else FinishStop.

(** ** What a choice is told as

    The reports each function makes, in order; the first the emitter refuses
    ends the reading ([reports] below). *)

Definition tell (index : Z) (channel : string) (text : option string) : list EmitterOp :=
  match text with
  | Some text => if text =s "" then [] else [OpDelta index channel text]
  | None => []
  end.

Definition emitDelta (choice : streamChoice) : list EmitterOp :=
  let delta := sc_Delta choice in
  tell (sc_Index choice) ChannelOutputText (sd_Content delta)
  ++ tell (sc_Index choice) ChannelRefusal (sd_Refusal delta)
  ++ tell (sc_Index choice) ChannelReasoning (sd_ReasoningContent delta)
  ++ tell (sc_Index choice) ChannelReasoning (sd_Reasoning delta).

Definition emitCompletionMessage (choice : completionChoice) : list EmitterOp :=
  let message := cc_Message choice in
  tell (cc_Index choice) ChannelReasoning (cm_ReasoningContent message)
  ++ tell (cc_Index choice) ChannelRefusal (cm_Refusal message)
  ++ tell (cc_Index choice) ChannelOutputText (cm_Content message).

Definition whole_call (call : chatToolCall) : EmitterOp :=
  OpToolCall (mkToolCall (tc_ID call) (tc_Name call) (tc_Arguments call) true).

(** *** toolCallAccumulator *)

Abbreviation toolCallAccumulator := (gmap Z string) (only parsing).

Definition identify (ids : toolCallAccumulator) (ref : streamToolCallRef) : toolCallAccumulator :=
  match ref_ID ref with
  | Some id => if id =s "" then ids else <[ref_Index ref := id]> ids
  | None => ids
  end.

(** What a fragment adds to the call of an id. *)
Definition fragment (id : string) (ref : streamToolCallRef) : list EmitterOp :=
  let name := default "" (ref_Function ref ≫= cf_Name) in
  let arguments := default "" (ref_Function ref ≫= cf_Arguments) in
  if (name =s "") && (arguments =s "") then [] else [OpToolCall (mkToolCall id name arguments false)].

Fixpoint absorb (ids : toolCallAccumulator) (refs : list streamToolCallRef) : list EmitterOp * toolCallAccumulator :=
  match refs with
  | [] => ([], ids)
  | ref :: refs =>
      let ids := identify ids ref in
      let '(ops, ids') := absorb ids refs in
      (match ids !! ref_Index ref with Some id => fragment id ref ++ ops | None => ops end, ids')
  end.

(** The calls a finish reason completes, by ascending index. *)
Definition complete (ids : toolCallAccumulator) : list EmitterOp :=
  (fun index => OpToolCall (mkToolCall (default "" (ids !! index)) "" "" true))
    <$> merge_sort Z.le (map_to_list ids).*1.

(** ** Failures *)

Definition failed (code category : string) (passthrough : option ProviderErrorPassthrough) : Upstream :=
  mkUpstream code category 0 passthrough false.

(** [Adapter.TransportFailure]; [first] and [second] are what [ctx.Err()]
    answers each time it is asked. *)
Definition TransportFailure (slug : string) (err : GoError) (first second : option GoError) : GoError :=
  let says (sentinel : string) (answer : option GoError) :=
    Is err sentinel || match answer with Some e => Is e sentinel | None => false end in
  if says "context canceled" first then ContextCanceled
  else if says "context deadline exceeded" second
  then ErrUpstream (failed CodeProviderTimeout UpstreamTimeout (Some (mkPassthrough slug None None)))
  else ErrUpstream (failed CodeProviderError UpstreamServerError (Some (mkPassthrough slug None None))).

(** [openRouterPolicyRefusal]: whether it has a detail to give. *)
Definition openRouterPolicyRefusal (message : string) : bool :=
  let normalized := ToLower (TrimSpace message) in
  HasPrefix "no endpoints found that " normalized
  || HasPrefix "no endpoints" normalized && Contains normalized "data policy".

(** The response [Adapter.Refuse] classifies: its status, what [RetryAfterMs]
    reads of its header, and the decoded body. *)
Record Refused := mkRefused { StatusCode : Z; rf_RetryAfterMs : Z; parsed : upstreamError }.

Definition Refuse (slug : string) (response : Refused) (key : Key) : GoError :=
  let status := StatusCode response in
  let e := parsed response in
  let passthrough := mkPassthrough slug (Some status) (if ue_Type e =s "" then None else Some (ue_Type e)) in
  let fails code category := failed code category (Some passthrough) in
  let after code category recurs := mkUpstream code category (rf_RetryAfterMs response) (Some passthrough) recurs in
  CustomerCredentialFailure (key_customerOwned key)
    (if (status =? 402)%Z then fails CodeProviderBillingRefused UpstreamQuota
     else if (status =? 429)%Z && (ue_Type e =s "insufficient_quota")
     then fails CodeProviderBillingRefused UpstreamQuota
     else if (status =? 429)%Z then after CodeRateLimited UpstreamRateLimit false
     else if (status =? 403)%Z && (slug =s "openrouter") then
       match ue_Metadata e ≫= fun metadata => head (Reasons metadata) with
       | Some _ => fails CodeUpstreamContentFiltered UpstreamContentFilter
       | None => fails CodePermissionDenied UpstreamInvalidReq
       end
     else if (status =? 401)%Z || (status =? 403)%Z then fails CodeProviderCredentialInvalid UpstreamAuthentication
     else if (status =? 404)%Z && (slug =s "openrouter") && openRouterPolicyRefusal (ue_Message e)
     then fails CodeInvalidRequest UpstreamInvalidReq
     else if (status =? 404)%Z then fails CodeModelNotFound UpstreamInvalidReq
     else if (status =? 408)%Z || (status =? 504)%Z then fails CodeProviderTimeout UpstreamTimeout
     else if (status =? 503)%Z then after CodeProviderOverloaded UpstreamOverloaded false
     else if (500 <=? status)%Z then fails CodeProviderError UpstreamServerError
     else if (ue_Type e =s "content_filter") || (ue_Type e =s "content_policy_violation")
     then fails CodeUpstreamContentFiltered UpstreamContentFilter
     else if (slug =s "groq") && (status =? 413)%Z && (ue_Type e =s "tokens")
             && match ue_Code e with Some (AnyString code) => code =s "rate_limit_exceeded" | _ => false end
     then after CodeRateLimited UpstreamRateLimit true
     else if (status =? 413)%Z then fails CodeRequestTooLarge UpstreamInvalidReq
     else fails CodeInvalidRequest UpstreamInvalidReq).

(** [Adapter.streamFailure]. *)
Definition streamFailure (slug : string) (reported : upstreamError) (key : Key) : GoError :=
  let kind := kind reported in
  let fails code category :=
    failed code category (Some (mkPassthrough slug None (if kind =s "" then None else Some kind))) in
  CustomerCredentialFailure (key_customerOwned key)
    (if isMember kind ["insufficient_quota"; "billing_error"]
     then fails CodeProviderBillingRefused UpstreamQuota
     else if isMember kind ["authentication_error"; "invalid_api_key"; "invalid_api_key_error"; "unauthorized"]
     then fails CodeProviderCredentialInvalid UpstreamAuthentication
     else if kind =s "rate_limit_exceeded" then fails CodeRateLimited UpstreamRateLimit
     else if isMember kind ["server_error"; "internal_error"; "overloaded_error"; "provider_overloaded"]
     then fails CodeProviderError UpstreamServerError
     else if isMember kind ["content_filter"; "content_policy_violation"]
     then fails CodeUpstreamContentFiltered UpstreamContentFilter
     else fails CodeProviderError UpstreamUnknown).

(** ** Reading an answer *)

Section Reading.
Variable slug : string.              (* a.config.Provider *)
Variable clock : nat -> Instant.     (* the time at each report *)

Definition measure (usage : option chatUsage) (o : AdapterOutcome) : AdapterOutcome :=
  match usage with
  | Some usage => set_units (normalizeUsage usage) UsageProviderReported o
  | None => o
  end.

(** The cost cheaperinference bills; [None] is one that is no decimal. *)
Definition bill (billing : option cheaperInferenceBilling) (o : AdapterOutcome) : option AdapterOutcome :=
  match billing with
  | Some billing =>
      if slug =s "cheaperinference"
      then cost ← ParseDecimal "USD" (BilledCostUSD billing); Some (set_cost cost o)
      else Some o
  | None => Some o
  end.

Definition bad_bill : GoError := ErrUpstream (failed CodeProviderError UpstreamUnknown None).

(** What ends both readings: the usage the provider reported, and a finish
    reason. *)
Definition final_usage (o : AdapterOutcome) : list EmitterOp :=
  if (out_UsageSource o =s UsageProviderReported) && negb (Nat.eqb (length (out_Units o)) 0)
  then [OpUsage (out_Units o) (out_UsageSource o)] else [].
Definition finished (o : AdapterOutcome) : AdapterOutcome :=
  if out_FinishReason o =s "" then set_finish FinishStop o else o.

(** The choices of a whole completion, and what ends it. *)
Fixpoint tell_completion (n : nat) (choices : list completionChoice) (o : AdapterOutcome) : Script :=
  match choices with
  | [] => reports clock n (final_usage o) o (Return (finished o) None)
  | choice :: choices =>
      let ops := emitCompletionMessage choice ++ (whole_call <$> cm_ToolCalls (cc_Message choice)) in
      reports clock n ops o
        (tell_completion (n + length ops) choices
           match cc_FinishReason choice with
           | Some reason => set_finish (mapFinishReason reason) o
           | None => o
           end)
  end.

(** *** readStream *)

Section Frames.
Variable Unmarshal : string -> option chatChunk.
Variable decoder_err : Sse.Ended -> GoError.   (* the error value the reader ended with *)
Variable ctx : option (nat * GoError).         (* when it was cancelled, if it was, and why *)
Variable key : Key.

(** What [ctx.Err()] answers the n-th time it is asked: once cancelled, a
    context stays so. *)
Definition ctx_err (n : nat) : option GoError :=
  match ctx with Some (since, why) => if Nat.leb since n then Some why else None | None => None end.

Fixpoint tell_choices (n : nat) (choices : list streamChoice) (calls : toolCallAccumulator) (o : AdapterOutcome)
    (k : nat -> toolCallAccumulator -> AdapterOutcome -> Script) : Script :=
  match choices with
  | [] => k n calls o
  | choice :: choices =>
      let '(ops, calls) := absorb calls (sd_ToolCalls (sc_Delta choice)) in
      let ops := emitDelta choice ++ ops in
      let m := (n + length ops)%nat in
      reports clock n ops o
        match sc_FinishReason choice with
        | None => tell_choices m choices calls o k
        | Some reason =>
            let o := set_finish (mapFinishReason reason) o in
            reports clock m (complete calls) o (tell_choices (m + length (complete calls)) choices ∅ o k)
        end
  end.

(** After the loop. *)
Definition end_stream (n : nat) (d : Sse.Decoder) (terminated : bool) (o : AdapterOutcome) : Script :=
  match Sse.err d with
  | Some e => Return o (Some (TransportFailure slug (decoder_err e) (ctx_err 0) (ctx_err 1)))
  | None =>
      match ctx_err 0 with
      | Some _ => Return o (ctx_err 1)
      | None =>
          if negb terminated then Return o (Some (TransportFailure slug (Sentinel "unexpected EOF") (ctx_err 1) (ctx_err 2)))
          else reports clock n (final_usage o) o (Return (finished o) None)
      end
  end.

Definition doneSentinel := "[DONE]".

(** The loop over the frames.  Every frame takes at least a byte of the body,
    so more fuel than bytes is never used up ([read_frames_fuel]). *)
Fixpoint read_frames (fuel n : nat) (d : Sse.Decoder) (calls : toolCallAccumulator) (o : AdapterOutcome) : Script :=
  match fuel with
  | O => Return o (Some Opaque)
  | S fuel =>
      match Sse.Next d with
      | (None, d) => end_stream n d false o
      | (Some frame, d) =>
          if Sse.Data frame =s "" then read_frames fuel n d calls o
          else if Sse.Data frame =s doneSentinel then end_stream n d true o
          else match Unmarshal (Sse.Data frame) with
          | None => read_frames fuel n d calls o
          | Some chunk =>
              match ck_Error chunk with
              | Some reported => Return o (Some (streamFailure slug reported key))
              | None =>
                  let o := measure (ck_Usage chunk) o in
                  match bill (ck_CheaperInference chunk) o with
                  | None => Return o (Some bad_bill)
                  | Some o => tell_choices n (ck_Choices chunk) calls o (fun n calls o => read_frames fuel n d calls o)
                  end
              end
          end
      end
  end.

Definition readStream (model : string) (body : Sse.Decoder) : Script :=
  reports clock 0 [OpStart model (clock 0)] unmeasured
    (read_frames (S (S (String.length (Sse.unread (Sse.scanner body))))) 1 body ∅ unmeasured).

End Frames.

(** *** readComplete *)

(** [raw] is what [io.ReadAll] read, or nothing when it failed; [Unmarshal]
    decodes it. *)
Definition readComplete (Unmarshal : string -> option chatCompletion) (model : string) (raw : option string) : Script :=
  match raw with
  | None => Return unmeasured (Some (Wrapped Opaque))
  | Some raw =>
      match Unmarshal raw with
      | None => Return unmeasured
          (Some (ErrUpstream (failed CodeProviderError UpstreamUnknown (Some (mkPassthrough slug None None)))))
      | Some completion =>
          let o := measure (cp_Usage completion) unmeasured in
          reports clock 0 [OpStart model (clock 0)] unmeasured
            match bill (cp_CheaperInference completion) o with
            | None => Return o (Some bad_bill)
            | Some o => tell_completion 1 (cp_Choices completion) o
            end
      end
  end.

(** *** readEmbedding *)

Record embeddingResponse := mkEmbeddingResponse {
  er_Data : list (Z * list float64);
  er_PromptTokens : Z;
  er_TotalTokens : Z;
}.

Definition EmbeddingDimension : Z := 1024.

(** The vectors are in order and of the one dimension. *)
Fixpoint in_order (index : Z) (data : list (Z * list float64)) : bool :=
  match data with
  | [] => true
  | (i, vector) :: data =>
      (i =? index)%Z && (Z.of_nat (length vector) =? EmbeddingDimension)%Z && in_order (index + 1) data
  end.

(** [response] is what the decoder read of the first 16 MiB, when it could. *)
Definition readEmbedding (response : option embeddingResponse) : AdapterOutcome * option GoError :=
  let outcome := set_units [] UsageProviderReported no_outcome in
  let refused := (outcome, Some (ErrUpstream (failed CodeProviderError UpstreamUnknown None))) in
  match response with
  | None => refused
  | Some response =>
      let data := er_Data response in
      if Nat.eqb (length data) 0 || negb (in_order 0 data) then refused
      else
        (mkOutcome None
           (Some (mkEmbedding EmbeddingDimension data (er_PromptTokens response) (er_TotalTokens response)))
           None
           [mkQuantity UnitInputTokens (er_PromptTokens response);
            mkQuantity UnitEmbeddings (Z.of_nat (length data))]
           UsageProviderReported "" "" "" None 0, None)
  end.

(** *** What Stream returns of a reading *)

(** A stream the watch ended is the timeout it is; [stalled] is what the watch
    answers once the reading returned. *)
Definition stall_error (stalled : bool) (err : option GoError) : option GoError :=
  match err with
  | Some _ => if stalled then Some (ErrUpstream (failed CodeProviderTimeout UpstreamTimeout None)) else err
  | None => None
  end.

(** The answer the walk accepted, read; the outcome names the key it spent. *)
Definition read_answer (key : Key) (stalled : bool) (reading : Script) : Script :=
  map_return (fun o err => (set_key key o, stall_error stalled err)) reading.

End Reading.

(** ** What a reading amounts to *)

Section Facts.
Variable sink : Sink.
Variable slug : string.
Variable clock : nat -> Instant.

(** *** The stream as a list of chunks *)

(** What a choice is told as, and the calls left open after it. *)
Definition choice_ops (calls : toolCallAccumulator) (choice : streamChoice) : list EmitterOp * toolCallAccumulator :=
  let '(ops, calls) := absorb calls (sd_ToolCalls (sc_Delta choice)) in
  let ops := emitDelta choice ++ ops in
  match sc_FinishReason choice with
  | None => (ops, calls)
  | Some _ => (ops ++ complete calls, ∅)
  end.

Fixpoint choices_ops (calls : toolCallAccumulator) (choices : list streamChoice)
    : list EmitterOp * toolCallAccumulator :=
  match choices with
  | [] => ([], calls)
  | choice :: choices =>
      let '(ops, calls) := choice_ops calls choice in
      let '(ops', calls) := choices_ops calls choices in (ops ++ ops', calls)
  end.

Definition finish_by (o : AdapterOutcome) (choice : streamChoice) : AdapterOutcome :=
  match sc_FinishReason choice with Some reason => set_finish (mapFinishReason reason) o | None => o end.

(** What a chunk makes of the outcome; nothing when it carries an error or a
    bill that is no decimal. *)
Definition chunk_outcome (o : AdapterOutcome) (chunk : chatChunk) : option AdapterOutcome :=
  match ck_Error chunk with
  | Some _ => None
  | None => o ← bill slug (ck_CheaperInference chunk) (measure (ck_Usage chunk) o);
            Some (foldl finish_by o (ck_Choices chunk))
  end.

Fixpoint stream_outcome (chunks : list chatChunk) (o : AdapterOutcome) : option AdapterOutcome :=
  match chunks with
  | [] => Some o
  | chunk :: chunks => o ← chunk_outcome o chunk; stream_outcome chunks o
  end.

Fixpoint stream_ops (calls : toolCallAccumulator) (chunks : list chatChunk) : list EmitterOp :=
  match chunks with
  | [] => []
  | chunk :: chunks =>
      let '(ops, calls) := choices_ops calls (ck_Choices chunk) in ops ++ stream_ops calls chunks
  end.

Lemma play_choices choices n calls o k e :
  exists o', play sink (tell_choices clock n choices calls o k) e =
    let '(ops, calls) := choices_ops calls choices in
    match apply_ops clock sink n ops e with
    | (Some err, e) => (o', Some err, e)
    | (None, e) => play sink (k (n + length ops)%nat calls (foldl finish_by o choices)) e
    end.
Proof.
  revert n calls o e. induction choices as [|choice choices IH]; intros n calls o e.
  { exists o. cbn. by rewrite Nat.add_0_r. }
  cbn [tell_choices choices_ops foldl]. unfold choice_ops, finish_by at 2.
  destruct (absorb calls _) as [ops calls1] eqn:Ea. destruct (sc_FinishReason choice) as [reason|] eqn:Ef.
  - set (o1 := set_finish _ o). set (front := emitDelta choice ++ ops) in *.
    rewrite play_reports. destruct (apply_ops clock sink n front e) as [[err|] e1] eqn:E1.
    { exists o. destruct (choices_ops ∅ choices) as [ops' calls'].
      by rewrite <-app_assoc, apply_ops_app, E1. }
    rewrite play_reports. destruct (apply_ops clock sink _ (complete calls1) e1) as [[err|] e2] eqn:E2.
    { exists o1. destruct (choices_ops ∅ choices) as [ops' calls'].
      by rewrite <-app_assoc, apply_ops_app, E1, apply_ops_app, E2. }
    destruct (IH (n + length front + length (complete calls1))%nat ∅ o1 e2) as [o' IH']. exists o'. rewrite IH'.
    destruct (choices_ops ∅ choices) as [ops' calls'].
    rewrite <-app_assoc, apply_ops_app, E1, apply_ops_app, E2. destruct (apply_ops clock sink _ ops' e2) as [[err|] e3]; [done|].
    by rewrite !length_app, !Nat.add_assoc.
  - set (front := emitDelta choice ++ ops) in *.
    rewrite play_reports. destruct (apply_ops clock sink n front e) as [[err|] e1] eqn:E1.
    { exists o. destruct (choices_ops calls1 choices) as [ops' calls']. by rewrite apply_ops_app, E1. }
    destruct (IH (n + length front)%nat calls1 o e1) as [o' IH']. exists o'. rewrite IH'.
    destruct (choices_ops calls1 choices) as [ops' calls'].
    rewrite apply_ops_app, E1. destruct (apply_ops clock sink _ ops' e1) as [[err|] e3]; [done|].
    by rewrite !length_app, !Nat.add_assoc.
Qed.

(** *** The frames of a stream *)

Section Frames.
Variable Unmarshal : string -> option chatChunk.
Variable decoder_err : Sse.Ended -> GoError.
Variable ctx : option (nat * GoError).
Variable key : Key.

(** The chunks a body carries up to its [DONE] frame, and the decoder there. *)
Inductive chunks_read : Sse.Decoder -> list chatChunk -> Sse.Decoder -> Prop :=
| read_done d frame d' :
    Sse.Next d = (Some frame, d') -> Sse.Data frame = doneSentinel -> chunks_read d [] d'
| read_skipped d frame d1 chunks d' :
    Sse.Next d = (Some frame, d1) -> Sse.Data frame = "" -> chunks_read d1 chunks d' -> chunks_read d chunks d'
| read_unreadable d frame d1 chunks d' :
    Sse.Next d = (Some frame, d1) -> Sse.Data frame <> "" -> Sse.Data frame <> doneSentinel ->
    Unmarshal (Sse.Data frame) = None -> chunks_read d1 chunks d' -> chunks_read d chunks d'
| read_chunk d frame d1 chunk chunks d' :
    Sse.Next d = (Some frame, d1) -> Sse.Data frame <> "" -> Sse.Data frame <> doneSentinel ->
    Unmarshal (Sse.Data frame) = Some chunk -> chunks_read d1 chunks d' -> chunks_read d (chunk :: chunks) d'.

Lemma chunks_read_next d frame d1 chunks d' :
  Sse.Next d = (Some frame, d1) ->
  chunks_read d chunks d' <->
  if Sse.Data frame =s "" then chunks_read d1 chunks d'
  else if Sse.Data frame =s doneSentinel then chunks = [] /\ d' = d1
  else match Unmarshal (Sse.Data frame) with
  | None => chunks_read d1 chunks d'
  | Some chunk => exists rest, chunks = chunk :: rest /\ chunks_read d1 rest d'
  end.
Proof.
  intros En. destruct (Sse.Data frame =s "") eqn:E0; [|destruct (Sse.Data frame =s doneSentinel) eqn:E1]; bool_cases;
    split; try (intros H0; inversion H0 as [? ? ? Hn|? ? ? ? ? Hn|? ? ? ? ? Hn|? ? ? ? ? ? Hn]; rewrite En in Hn;
      injection Hn as <- <-; unfold doneSentinel in *; simplify_eq; try congruence; try done).
  - intros H0. by eapply read_skipped.
  - intros [-> ->]. by eapply read_done.
  - by match goal with E : Unmarshal _ = None |- _ => rewrite E end.
  - match goal with E : Unmarshal _ = Some _ |- _ => rewrite E end. eauto.
  - destruct (Unmarshal (Sse.Data frame)) as [c|] eqn:Eu.
    + intros (rest & -> & H0). by eapply read_chunk.
    + intros H0. by eapply read_unreadable.
Qed.

Lemma chunks_read_det d chunks d' chunks' d'' :
  chunks_read d chunks d' -> chunks_read d chunks' d'' -> chunks = chunks' /\ d' = d''.
Proof.
  intros H. revert chunks' d''.
  induction H as [d f d1 En Ed|d f d1 cs d1' En Ed _ IH|d f d1 cs d1' En E0 E1 Eu _ IH|d f d1 c cs d1' En E0 E1 Eu _ IH];
    intros chunks' d'' H'; rewrite (chunks_read_next _ _ _ _ _ En) in H'.
  - rewrite Ed in H'. by destruct H' as [-> ->].
  - rewrite Ed in H'. by apply IH.
  - rewrite (proj2 (String.eqb_neq _ _) E0), (proj2 (String.eqb_neq _ _) E1), Eu in H'. by apply IH.
  - rewrite (proj2 (String.eqb_neq _ _) E0), (proj2 (String.eqb_neq _ _) E1), Eu in H'.
    destruct H' as (rest & -> & H'). by destruct (IH _ _ H') as [-> ->].
Qed.

(** The chunks, computed. *)
Fixpoint chunks_of (fuel : nat) (d : Sse.Decoder) : option (list chatChunk * Sse.Decoder) :=
  match fuel with
  | O => None
  | S fuel =>
      match Sse.Next d with
      | (None, _) => None
      | (Some frame, d) =>
          if Sse.Data frame =s "" then chunks_of fuel d
          else if Sse.Data frame =s doneSentinel then Some ([], d)
          else match Unmarshal (Sse.Data frame) with
          | None => chunks_of fuel d
          | Some chunk => '(chunks, d) ← chunks_of fuel d; Some (chunk :: chunks, d)
          end
      end
  end.

Lemma chunks_of_read fuel d chunks d' : chunks_of fuel d = Some (chunks, d') -> chunks_read d chunks d'.
Proof.
  revert d chunks. induction fuel as [|fuel IH]; intros d chunks; [done|]. cbn [chunks_of].
  destruct (Sse.Next d) as [[frame|] d1] eqn:En; [|done]. rewrite (chunks_read_next _ _ _ _ _ En).
  destruct (_ =s ""); [apply IH|]. destruct (_ =s _); [by intros [= <- <-]|].
  destruct (Unmarshal _) as [chunk|]; [|apply IH].
  destruct (chunks_of fuel d1) as [[rest d2]|] eqn:Er; [|done]. cbn. intros [= <- <-]. eauto.
Qed.

(** What ends a stream well: no error of the connection, and a live context. *)
Definition ends_well (d : Sse.Decoder) : Prop := Sse.err d = None /\ ctx_err ctx 0 = None.

Lemma ctx_err_sticky n m why : (n <= m)%nat -> ctx_err ctx n = Some why -> ctx_err ctx m = Some why.
Proof.
  unfold ctx_err. destruct ctx as [[since w]|]; [|done]. intros H.
  destruct (Nat.leb since n) eqn:E; [|done]. apply Nat.leb_le in E.
  assert (Nat.leb since m = true) as -> by (apply Nat.leb_le; lia). done.
Qed.

Lemma play_choices_ext choices n calls o k k' e :
  (forall n calls o e, play sink (k n calls o) e = play sink (k' n calls o) e) ->
  play sink (tell_choices clock n choices calls o k) e = play sink (tell_choices clock n choices calls o k') e.
Proof.
  intros Hk. revert n calls o e. induction choices as [|choice choices IH]; intros n calls o e; [apply Hk|].
  cbn [tell_choices]. destruct (absorb calls _) as [ops calls1]. rewrite !play_reports.
  destruct (apply_ops _ _ _ _ e) as [[err|] e1]; [done|]. destruct (sc_FinishReason choice); [|apply IH].
  rewrite !play_reports. destruct (apply_ops _ _ _ _ e1) as [[err|] e2]; [done|apply IH].
Qed.

(** Any fuel above the unread bytes reads the same: the loop ends by itself. *)
Lemma read_frames_fuel fuel fuel' n d calls o e :
  (String.length (Sse.unread (Sse.scanner d)) < fuel)%nat -> (String.length (Sse.unread (Sse.scanner d)) < fuel')%nat ->
  play sink (read_frames slug clock Unmarshal decoder_err ctx key fuel n d calls o) e =
  play sink (read_frames slug clock Unmarshal decoder_err ctx key fuel' n d calls o) e.
Proof.
  revert fuel' n d calls o e. induction fuel as [|fuel IH]; intros [|fuel'] n d calls o e H H'; [lia..|].
  cbn [read_frames]. destruct (Sse.Next d) as [[frame|] d1] eqn:En; [|done].
  pose proof (Sse.Next_progress _ _ _ En) as Hp. destruct (_ =s ""); [apply IH; lia|]. destruct (_ =s _); [done|].
  destruct (Unmarshal _) as [chunk|]; [|apply IH; lia]. destruct (ck_Error chunk); [done|].
  destruct (bill _ _ _) as [o1|]; [|done]. apply play_choices_ext. intros. apply IH; lia.
Qed.

Lemma play_end_stream n d terminated o e o' e' :
  play sink (end_stream slug clock decoder_err ctx n d terminated o) e = (o', None, e') <->
  terminated = true /\ ends_well d /\ o' = finished o /\ apply_ops clock sink n (final_usage o) e = (None, e').
Proof.
  unfold end_stream, ends_well. destruct (Sse.err d) as [x|]; [split; [done|by intros (_ & [??] & _)]|].
  destruct (ctx_err ctx 0) as [why|] eqn:E0.
  { rewrite (ctx_err_sticky 0 1 why) by (done || lia). split; [done|by intros (_ & [??] & _)]. }
  destruct terminated; cbn [negb]; [|split; [done|by intros [? _]]].
  rewrite play_reports. destruct (apply_ops clock sink n (final_usage o) e) as [[err|] e1]; cbn [play];
    [split; [done|by intros (_ & _ & _ & ?)]|].
  split; [intros [= <- <-]; done|]. by intros (_ & _ & -> & [= ->]).
Qed.

(** The loop, as what it succeeds in. *)
Lemma play_frames fuel n d calls o e o' e' :
  (String.length (Sse.unread (Sse.scanner d)) < fuel)%nat ->
  play sink (read_frames slug clock Unmarshal decoder_err ctx key fuel n d calls o) e = (o', None, e') <->
  exists chunks d' o1, chunks_read d chunks d' /\ ends_well d' /\ stream_outcome chunks o = Some o1 /\
    o' = finished o1 /\ apply_ops clock sink n (stream_ops calls chunks ++ final_usage o1) e = (None, e').
Proof.
  revert n d calls o e. induction fuel as [|fuel IH]; intros n d calls o e Hf; [lia|]. cbn [read_frames].
  destruct (Sse.Next d) as [[frame|] d1] eqn:En.
  2: { rewrite play_end_stream. split; [by intros [? _]|]. intros (? & ? & ? & H & _). inversion H; congruence. }
  pose proof (Sse.Next_progress _ _ _ En) as Hp.
  setoid_rewrite (chunks_read_next _ _ _ _ _ En).
  destruct (Sse.Data frame =s "") eqn:E0; [by rewrite IH by lia|].
  destruct (Sse.Data frame =s doneSentinel) eqn:E1.
  { rewrite play_end_stream. split.
    - intros (_ & He & -> & Ha). exists [], d1, o. split_and!; [done|done|apply He..|done|done|done].
    - intros (? & ? & o1 & [-> ->] & He & [= <-] & -> & Ha). done. }
  destruct (Unmarshal (Sse.Data frame)) as [chunk|] eqn:Eu; [|by rewrite IH by lia].
  destruct (ck_Error chunk) as [reported|] eqn:Ee.
  { split; [done|]. intros (? & d' & o1 & (rest & -> & _) & _ & Ho & _). cbn in Ho. unfold chunk_outcome in Ho.
    by rewrite Ee in Ho. }
  destruct (bill slug (ck_CheaperInference chunk) (measure (ck_Usage chunk) o)) as [o1|] eqn:Eb.
  2: { split; [done|]. intros (? & d' & o1 & (rest & -> & _) & _ & Ho & _). cbn in Ho. unfold chunk_outcome in Ho.
    by rewrite Ee, Eb in Ho. }
  destruct (play_choices (ck_Choices chunk) n calls o1
    (fun n calls o => read_frames slug clock Unmarshal decoder_err ctx key fuel n d1 calls o) e) as [oe ->].
  assert (Hout : chunk_outcome o chunk = Some (foldl finish_by o1 (ck_Choices chunk))).
  { unfold chunk_outcome. by rewrite Ee, Eb. }
  assert (Hops : forall rest o2, stream_ops calls (chunk :: rest) ++ final_usage o2 =
    (choices_ops calls (ck_Choices chunk)).1
      ++ (stream_ops (choices_ops calls (ck_Choices chunk)).2 rest ++ final_usage o2)).
  { intros. cbn [stream_ops]. destruct (choices_ops _ _). by rewrite <-app_assoc. }
  destruct (choices_ops calls (ck_Choices chunk)) as [ops calls1]. cbn [fst snd] in Hops.
  destruct (apply_ops clock sink n ops e) as [[err|] e1] eqn:Ea.
  - split; [done|]. intros (? & d' & o2 & (rest & -> & _) & _ & Ho & _ & Happ).
    by rewrite Hops, apply_ops_app, Ea in Happ.
  - rewrite IH by lia. split.
    + intros (rest & d' & o2 & H & He & Ho & -> & Happ). exists (chunk :: rest), d', o2. cbn [stream_outcome].
      rewrite Hout, Hops, apply_ops_app, Ea. split_and!; [by eexists|apply He..|done|done|done].
    + intros (? & d' & o2 & (rest & -> & H) & He & Ho & -> & Happ). cbn [stream_outcome] in Ho.
      rewrite Hout in Ho. rewrite Hops, apply_ops_app, Ea in Happ. exists rest, d', o2. by split_and!; [|apply He..| | |].
Qed.

(** [readStream], as what it succeeds in. *)
Lemma readStream_reads model body e o' e' :
  play sink (readStream slug clock Unmarshal decoder_err ctx key model body) e = (o', None, e') <->
  exists chunks d' o1, chunks_read body chunks d' /\ ends_well d' /\ stream_outcome chunks unmeasured = Some o1 /\
    o' = finished o1 /\
    apply_ops clock sink 0 (OpStart model (clock 0) :: stream_ops ∅ chunks ++ final_usage o1) e = (None, e').
Proof.
  unfold readStream. rewrite play_reports.
  assert (Hops : forall ops, apply_ops clock sink 0 (OpStart model (clock 0) :: ops) e =
    match apply_ops clock sink 0 [OpStart model (clock 0)] e with (None, e) => apply_ops clock sink 1 ops e | refused => refused end)
    by (intros ops; exact (apply_ops_app clock sink 0 [OpStart model (clock 0)] ops e)).
  destruct (apply_ops clock sink 0 [OpStart model (clock 0)] e) as [[err|] e1].
  - split; [done|]. intros (chunks & d' & o1 & _ & _ & _ & _ & H). by rewrite Hops in H.
  - rewrite play_frames by lia. split; intros (chunks & d' & o1 & H1 & H2 & H3 & H4 & H); exists chunks, d', o1;
      (split_and!; [done|apply H2..|done|done|]); [by rewrite Hops|by rewrite Hops in H].
Qed.

(** A stream succeeds exactly when its frames reach [DONE] with the
    connection intact and the context live, no chunk before it carries an error
    or an unreadable bill, and the emitter takes the start, every chunk's
    reports in order, and the usage if the provider reported any; its outcome
    is then the last usage, cost and finish reason of those chunks. *)
Theorem readStream_succeeds_iff model body e o' e' :
  play sink (readStream slug clock Unmarshal decoder_err ctx key model body) e = (o', None, e') <->
  exists chunks d' o1, chunks_read body chunks d' /\ ends_well d' /\ stream_outcome chunks unmeasured = Some o1 /\
    o' = finished o1 /\
    apply_ops clock sink 0 (OpStart model (clock 0) :: stream_ops ∅ chunks ++ final_usage o1) e = (None, e').
Proof. apply readStream_reads. Qed.

(** *** What the client hears *)

(** The text of a channel and an output index, and the arguments of a call. *)
Definition text_at (channel : string) (index : Z) (i : Z) (c text : string) : string :=
  if (i =? index)%Z && (c =s channel) then text else "".
Definition no_text (i : Z) (c text : string) : string := "".
Definition no_arguments (id name arguments : string) : string := "".
Definition arguments_of (id : string) (id' name arguments : string) : string := if id' =s id then arguments else "".

Definition heard_text channel index := heard (text_at channel index) no_arguments.
Definition heard_arguments id := heard no_text (arguments_of id).

Definition all_choices (chunks : list chatChunk) : list streamChoice := concat (ck_Choices <$> chunks).

(** The texts a delta carries on a channel. *)
Definition channel_text (channel : string) (delta : streamDelta) : string :=
  (if ChannelOutputText =s channel then default "" (sd_Content delta) else "")
  +:+ (if ChannelRefusal =s channel then default "" (sd_Refusal delta) else "")
  +:+ (if ChannelReasoning =s channel then default "" (sd_ReasoningContent delta) +:+ default "" (sd_Reasoning delta) else "").

Fixpoint text_in (channel : string) (index : Z) (choices : list streamChoice) : string :=
  match choices with
  | [] => ""
  | choice :: choices =>
      (if (sc_Index choice =? index)%Z then channel_text channel (sc_Delta choice) else "")
      +:+ text_in channel index choices
  end.

(** Every fragment belongs to a call that was announced since the last finish
    reason, and a call's id is the one of its index. *)
Fixpoint refs_announced (name : Z -> string) (open : gset Z) (refs : list streamToolCallRef) : Prop :=
  match refs with
  | [] => True
  | ref :: refs =>
      match ref_ID ref with
      | Some id => if id =s "" then ref_Index ref ∈ open else id = name (ref_Index ref)
      | None => ref_Index ref ∈ open
      end /\ refs_announced name ({[ref_Index ref]} ∪ open) refs
  end.

Fixpoint calls_announced (name : Z -> string) (open : gset Z) (choices : list streamChoice) : Prop :=
  match choices with
  | [] => True
  | choice :: choices =>
      let refs := sd_ToolCalls (sc_Delta choice) in
      refs_announced name open refs /\
      calls_announced name
        match sc_FinishReason choice with
        | None => list_to_set (ref_Index <$> refs) ∪ open
        | Some _ => ∅
        end choices
  end.

Definition ref_arguments (ref : streamToolCallRef) : string := default "" (ref_Function ref ≫= cf_Arguments).

(** The fragments of the calls named [id], joined. *)
Fixpoint joined_refs (name : Z -> string) (id : string) (refs : list streamToolCallRef) : string :=
  match refs with
  | [] => ""
  | ref :: refs => (if name (ref_Index ref) =s id then ref_arguments ref else "") +:+ joined_refs name id refs
  end.
Fixpoint joined (name : Z -> string) (id : string) (choices : list streamChoice) : string :=
  match choices with
  | [] => ""
  | choice :: choices => joined_refs name id (sd_ToolCalls (sc_Delta choice)) +:+ joined name id choices
  end.

Lemma text_at_empty channel index i c : text_at channel index i c "" = "".
Proof. unfold text_at. by case_match. Qed.

Lemma stream_ops_choices calls chunks : stream_ops calls chunks = (choices_ops calls (all_choices chunks)).1.
Proof.
  assert (Happ : forall cs cs' calls, choices_ops calls (cs ++ cs') =
    let '(ops, calls) := choices_ops calls cs in
    let '(ops', calls) := choices_ops calls cs' in (ops ++ ops', calls)).
  { intros cs cs'. induction cs as [|c cs IH]; intros cl; cbn [app choices_ops].
    - by destruct (choices_ops cl cs').
    - destruct (choice_ops cl c) as [ops cl1]. rewrite IH. destruct (choices_ops cl1 cs) as [ops1 cl2].
      destruct (choices_ops cl2 cs') as [ops2 cl3]. by rewrite <-app_assoc. }
  revert calls. induction chunks as [|chunk chunks IH]; intros calls; [done|]. cbn [stream_ops].
  change (all_choices (chunk :: chunks)) with (ck_Choices chunk ++ all_choices chunks). rewrite Happ.
  destruct (choices_ops calls (ck_Choices chunk)) as [ops calls1]. rewrite IH.
  by destruct (choices_ops calls1 (all_choices chunks)).
Qed.

Lemma said_tell f g index channel text :
  f index channel "" = "" -> said f g (tell index channel text) = f index channel (default "" text).
Proof. intros H. destruct text as [text|]; cbn; [|done]. destruct (text =s "") eqn:E; bool_cases; [by subst|]. cbn. apply str_app_nil_r. Qed.

(** Reports of tool calls say no text, and deltas no arguments. *)
Lemma said_calls f ids refs : said f no_arguments (absorb ids refs).1 = "".
Proof.
  revert ids. induction refs as [|ref refs IH]; intros ids; [done|]. cbn [absorb]. specialize (IH (identify ids ref)).
  destruct (absorb _ refs) as [ops ids']. cbn [fst] in *. destruct (identify ids ref !! _) as [id|]; [|done].
  unfold fragment. rewrite said_app, IH. by case_match.
Qed.

Lemma said_complete f g ids : (forall id name, g id name "" = "") -> said f g (complete ids) = "".
Proof.
  intros H. unfold complete. generalize (merge_sort Z.le (map_to_list ids).*1) as l.
  induction l as [|i l IH]; [done|]. rewrite fmap_cons. cbn. by rewrite IH, H.
Qed.

Lemma said_final f g o : said f g (final_usage o) = "".
Proof. unfold final_usage. by case_match. Qed.

Lemma said_delta channel index choice :
  said (text_at channel index) no_arguments (emitDelta choice) =
  if (sc_Index choice =? index)%Z then channel_text channel (sc_Delta choice) else "".
Proof.
  unfold emitDelta. rewrite !said_app, !said_tell; unfold text_at; try by case_match.
  unfold channel_text. destruct (sc_Index choice =? index)%Z; [|done]. cbn [andb].
  f_equal. f_equal. by case_match.
Qed.

Lemma said_choices channel index calls choices :
  said (text_at channel index) no_arguments (choices_ops calls choices).1 = text_in channel index choices.
Proof.
  revert calls. induction choices as [|choice choices IH]; intros calls; [done|]. cbn [choices_ops text_in].
  assert (Hc : said (text_at channel index) no_arguments (choice_ops calls choice).1 =
    if (sc_Index choice =? index)%Z then channel_text channel (sc_Delta choice) else "").
  { unfold choice_ops. pose proof (said_calls (text_at channel index) calls (sd_ToolCalls (sc_Delta choice))) as Ha.
    destruct (absorb _ _) as [ops calls1]. cbn [fst] in Ha.
    destruct (sc_FinishReason choice); cbn [fst]; rewrite ?said_app, Ha, said_delta, ?said_complete, ?str_app_nil_r; done. }
  destruct (choice_ops calls choice) as [ops calls1]. specialize (IH calls1).
  destruct (choices_ops calls1 choices) as [ops1 calls2]. cbn [fst] in *. by rewrite said_app, Hc, IH.
Qed.

(** The accumulator holds the calls announced, each under its own id. *)
Definition holds (name : Z -> string) (open : gset Z) (ids : toolCallAccumulator) : Prop :=
  open ⊆ dom ids /\ forall i id, ids !! i = Some id -> id = name i.

Lemma identify_holds name open ids ref :
  holds name open ids ->
  match ref_ID ref with
  | Some id => if id =s "" then ref_Index ref ∈ open else id = name (ref_Index ref)
  | None => ref_Index ref ∈ open
  end ->
  holds name ({[ref_Index ref]} ∪ open) (identify ids ref) /\
  identify ids ref !! ref_Index ref = Some (name (ref_Index ref)).
Proof.
  intros [Hd Hn] Hr. unfold identify.
  assert (Hkept : ref_Index ref ∈ open ->
    holds name ({[ref_Index ref]} ∪ open) ids /\ ids !! ref_Index ref = Some (name (ref_Index ref))).
  { intros Hin. split; [split; [set_solver|done]|]. apply Hd, elem_of_dom in Hin as [x Hx]. by rewrite (Hn _ _ Hx) in Hx. }
  destruct (ref_ID ref) as [id|]; [|auto]. destruct (id =s ""); [auto|]. subst id.
  split; [|by rewrite lookup_insert_eq]. split; [rewrite dom_insert; set_solver|].
  intros i id [[<- <-]|[_ H]]%lookup_insert_Some; [done|by apply Hn].
Qed.

Lemma absorb_joins name id open ids refs :
  holds name open ids -> refs_announced name open refs ->
  said no_text (arguments_of id) (absorb ids refs).1 = joined_refs name id refs /\
  holds name (list_to_set (ref_Index <$> refs) ∪ open) (absorb ids refs).2.
Proof.
  revert open ids. induction refs as [|ref refs IH]; intros open ids Hh; [intros _; split; [done|]|].
  { cbn. by rewrite union_empty_l_L. }
  intros [Hr Hrest]. destruct (identify_holds _ _ _ _ Hh Hr) as [Hh1 Hl]. destruct (IH _ _ Hh1 Hrest) as [Hs Hh2].
  cbn [absorb joined_refs]. destruct (absorb (identify ids ref) refs) as [ops ids'] eqn:Ea. cbn [fst snd] in *.
  rewrite Hl, said_app, Hs. split.
  - f_equal. unfold fragment, ref_arguments. destruct (_ && _) eqn:E; cbn [said said_op ID ArgumentsDelta].
    + bool_cases. by destruct (name (ref_Index ref) =s id).
    + by rewrite str_app_nil_r.
  - rewrite fmap_cons, list_to_set_cons. destruct Hh2 as [Hd Hn]. split; [set_solver|done].
Qed.

Lemma said_emitDelta id choice : said no_text (arguments_of id) (emitDelta choice) = "".
Proof. unfold emitDelta. by rewrite !said_app, !said_tell. Qed.

Lemma choices_join name id open calls choices :
  holds name open calls -> calls_announced name open choices ->
  said no_text (arguments_of id) (choices_ops calls choices).1 = joined name id choices.
Proof.
  revert open calls. induction choices as [|choice choices IH]; intros open calls Hh; [done|]. intros [Hr Hrest].
  destruct (absorb_joins name id _ _ _ Hh Hr) as [Hs Hh1]. cbn [choices_ops joined]. unfold choice_ops.
  destruct (absorb calls (sd_ToolCalls (sc_Delta choice))) as [ops calls1]. cbn [fst snd] in *.
  set (o := match sc_FinishReason choice with None => _ | Some _ => _ end) in Hrest.
  assert (Hc : exists ops' calls', match sc_FinishReason choice with
      | Some _ => ((emitDelta choice ++ ops) ++ complete calls1, ∅)
      | None => (emitDelta choice ++ ops, calls1) end = (ops', calls') /\
    said no_text (arguments_of id) ops' = joined_refs name id (sd_ToolCalls (sc_Delta choice)) /\ holds name o calls').
  { destruct (sc_FinishReason choice); eexists _, _; (split; [done|]);
      rewrite ?said_app, said_emitDelta, Hs, ?said_complete, ?str_app_nil_r; try done.
    intros id' nm. unfold arguments_of. by case_match. }
  destruct Hc as (ops' & calls' & -> & Hsaid & Hh2). specialize (IH _ _ Hh2 Hrest).
  destruct (choices_ops calls' choices) as [ops1 calls2]. cbn [fst] in *. by rewrite said_app, Hsaid, IH.
Qed.

(** What was said of a successful stream is what was heard. *)
Lemma stream_heard u0 f g model chunks o e e' :
  (forall i c, f i c "" = "") -> emitter_inv u0 e ->
  apply_ops clock sink 0 (OpStart model (clock 0) :: stream_ops ∅ chunks ++ final_usage o) e = (None, e') ->
  heard f g (events e') = heard f g (events e) +:+ said f g (choices_ops ∅ (all_choices chunks)).1.
Proof.
  intros Hf Hinv Ha. rewrite (apply_ops_heard _ _ f g Hf u0 _ _ _ _ Hinv Ha). cbn [said said_op].
  by rewrite said_app, said_final, str_app_nil_r, stream_ops_choices.
Qed.

(** C28. A stream that succeeds was told whole: on every channel and output
    index the client hears exactly the texts the chunks before [DONE] carry
    there, in order, nothing lost, repeated or put on another channel. *)
Theorem answer_is_told_whole u0 model body e o' e' :
  emitter_inv u0 e ->
  play sink (readStream slug clock Unmarshal decoder_err ctx key model body) e = (o', None, e') ->
  exists chunks d', chunks_read body chunks d' /\
    forall channel index, heard_text channel index (events e') =
      heard_text channel index (events e) +:+ text_in channel index (all_choices chunks).
Proof.
  intros Hinv (chunks & d' & o1 & Hr & _ & _ & _ & Ha)%readStream_reads. exists chunks, d'. split; [done|].
  intros channel index. unfold heard_text. rewrite (stream_heard u0 _ _ _ _ _ _ _ (text_at_empty _ _) Hinv Ha).
  by rewrite said_choices.
Qed.

(** The fragments of a streamed tool call are joined under its id: when
    every fragment's call was announced since the last finish reason, the
    arguments the client hears under an id are those of the id's fragments, in
    order. *)
Theorem tool_call_fragments_are_joined u0 name model body chunks d' e o' e' :
  emitter_inv u0 e -> chunks_read body chunks d' -> calls_announced name ∅ (all_choices chunks) ->
  play sink (readStream slug clock Unmarshal decoder_err ctx key model body) e = (o', None, e') ->
  forall id, heard_arguments id (events e') = heard_arguments id (events e) +:+ joined name id (all_choices chunks).
Proof.
  intros Hinv Hr Hann (chunks' & d'' & o1 & Hr' & _ & _ & _ & Ha)%readStream_reads id.
  destruct (chunks_read_det _ _ _ _ _ Hr Hr') as [<- <-]. unfold heard_arguments.
  rewrite (stream_heard u0 no_text (arguments_of id) _ _ _ _ _ ltac:(done) Hinv Ha).
  by rewrite (choices_join name id ∅ ∅) by (done || by split).
Qed.

End Frames.

End Facts.

(** A stall is a timeout of the provider, whatever the reading saw of it: the
    breaker counts it and the executor may go elsewhere. *)
Lemma stall_is_a_timeout key reading sink e o err e' :
  play sink reading e = (o, Some err, e') ->
  exists failure, play sink (read_answer key true reading) e = (set_key key o, Some failure, e') /\
    DeploymentAttributable failure = true /\ AsUpstream failure <> None /\
    (Code <$> AsUpstream failure) = Some CodeProviderTimeout.
Proof.
  intros H. unfold read_answer. rewrite play_map_return, H. cbn. eexists. split; [done|]. by split.
Qed.

(** *** The error envelope *)

(** An [error] member that is [null] hides the message beside it, though the
    branch that reads the message names [null] as one of its cases: the text
    decoder takes [null] first. *)
Example null_error_hides_the_message :
  UnmarshalJSON (Some MemberNull) None (Some (MemberText "monthly cap reached")) = no_error /\
  UnmarshalJSON None None (Some (MemberText "monthly cap reached")) =
    mkUpstreamError "monthly cap reached" "" None None.
Proof. done. Qed.

(** *** An example *)

(** Two chunks: a text with the first fragment of a call, then the rest of its
    arguments with the finish reason and the usage. *)
Definition example_chunks (frame : string) : option chatChunk :=
  if frame =s "a" then
    Some (mkChunk [mkStreamChoice 0 (mkStreamDelta (Some "hi") None None (Some "think")
            [mkToolCallRef 0 (Some "call_1") (Some (mkCallFunction (Some "f") (Some "{")))]) None] None None None)
  else if frame =s "b" then
    Some (mkChunk [mkStreamChoice 0 (mkStreamDelta (Some " there") None None None
            [mkToolCallRef 0 None (Some (mkCallFunction None (Some "}")))]) (Some "tool_calls")]
            (Some (mkChatUsage (Some 10%Z) (Some 7%Z) (Some (mkPromptDetails (Some 4%Z))) None)) None None)
  else None.

Definition example_frames (frames : list string) : Sse.Decoder :=
  Sse.NewDecoder (foldr (fun payload s => "data: " +:+ payload +:+ Sse.newline +:+ Sse.newline +:+ s) "" frames)
    Sse.EOF true.

Definition takes_all : Sink := fun _ _ => None.
Definition example_clock (n : nat) : Instant := 5%Z.
Definition example_key : Key := mkKey 0 "k1" KeyClassPaid FundingUnstated "secret" false false false.

Definition example_emitter : emitter := serving "acme" "dep" (newEmitter example_request None 5).
Definition read_example (frames : list string) : AdapterOutcome * option GoError * emitter :=
  play takes_all (readStream "acme" example_clock example_chunks (fun _ => Opaque) None example_key "acme/m@1"
    (example_frames frames)) example_emitter.

Definition example_told : AdapterOutcome :=
  set_finish FinishToolCalls
    (set_units [mkQuantity UnitRequests 1; mkQuantity UnitInputTokens 6; mkQuantity UnitCachedInputTokens 4;
                mkQuantity UnitOutputTokens 7] UsageProviderReported no_outcome).

(** Cut before [DONE], the same chunks end in a failure of the provider with
    the usage measured so far. *)
Example example_cut :
  (read_example ["a"; "b"]).1 =
  (example_told, Some (TransportFailure "acme" (Sentinel "unexpected EOF") None None)).
Proof. vm_compute. reflexivity. Qed.

Definition example_body := example_frames ["a"; "keep-alive"; "b"; "[DONE]"].
Definition example_final : emitter := (read_example ["a"; "keep-alive"; "b"; "[DONE]"]).2.

Lemma example_plays :
  play takes_all (readStream "acme" example_clock example_chunks (fun _ => Opaque) None example_key "acme/m@1" example_body)
    example_emitter = (example_told, None, example_final).
Proof. vm_compute. reflexivity. Qed.

Lemma example_emitter_inv : emitter_inv (newUsageEstimate example_request) example_emitter.
Proof. apply serving_inv, new_inv. reflexivity. Qed.

Lemma answer_is_told_whole_witness :
  heard_text ChannelOutputText 0 (events example_final) = "hi there" /\ heard_text ChannelReasoning 0 (events example_final) = "think" /\
  exists chunks d', chunks_read example_chunks example_body chunks d' /\
    forall channel index, heard_text channel index (events example_final) =
      heard_text channel index (events example_emitter) +:+ text_in channel index (all_choices chunks).
Proof.
  split; [vm_compute; reflexivity|]. split; [vm_compute; reflexivity|].
  exact (answer_is_told_whole takes_all "acme" example_clock example_chunks (fun _ => Opaque) None example_key
    (newUsageEstimate example_request) "acme/m@1" example_body example_emitter example_told example_final example_emitter_inv example_plays).
Defined.

Definition example_read : list chatChunk := default [] (mapM example_chunks ["a"; "b"]).

Lemma example_is_read : exists d', chunks_read example_chunks example_body example_read d'.
Proof.
  exists (snd (default ([], example_body) (chunks_of example_chunks 5 example_body))).
  apply (chunks_of_read _ 5). vm_compute. reflexivity.
Qed.

Lemma tool_call_fragments_are_joined_witness :
  heard_arguments "call_1" (events example_final) = "{}" /\
  heard_arguments "call_1" (events example_final) =
    heard_arguments "call_1" (events example_emitter) +:+ joined (fun _ => "call_1") "call_1" (all_choices example_read).
Proof.
  split; [vm_compute; reflexivity|]. destruct example_is_read as [d' Hr].
  refine (tool_call_fragments_are_joined takes_all "acme" example_clock example_chunks (fun _ => Opaque) None example_key
    (newUsageEstimate example_request) (fun _ => "call_1") "acme/m@1" example_body example_read d' example_emitter example_told
    example_final example_emitter_inv Hr _ example_plays "call_1").
  vm_compute. repeat split.
Defined.

(** *** Usage *)

Definition quantity_of (unit_ : string) (units : list UsageQuantity) : Z :=
  foldr (fun u n => if Unit u =s unit_ then Quantity u + n else n)%Z 0%Z units.

(** A usage whose counts nest as the protocol says they do. *)
Record nested (usage : chatUsage) : Prop := {
  nested_prompt : forall n, PromptTokens usage = Some n -> (cached_of usage <= n <= int64_max)%Z;
  nested_completion : forall n, CompletionTokens usage = Some n -> (reasoning_of usage <= n <= int64_max)%Z;
}.

Lemma nonNegative_bounds n : (0 <= nonNegative n)%Z.
Proof. unfold nonNegative. destruct (n <? 0)%Z eqn:E; bool_cases; lia. Qed.

Lemma cached_nonneg usage : (0 <= cached_of usage)%Z.
Proof. unfold cached_of. destruct (_ ≫= _); [apply nonNegative_bounds|done]. Qed.
Lemma reasoning_nonneg usage : (0 <= reasoning_of usage)%Z.
Proof. unfold reasoning_of. destruct (_ ≫= _); [apply nonNegative_bounds|done]. Qed.

Lemma difference part total : (0 <= part <= total)%Z -> (total <= int64_max)%Z ->
  nonNegative (wrap64 (total - part)) = (total - part)%Z.
Proof.
  intros H1 H2. unfold int64_max in *. rewrite wrap64_id by (unfold in_int64, int64_min, int64_max; lia).
  unfold nonNegative. destruct (_ <? _)%Z eqn:E; bool_cases; lia.
Qed.

Lemma counted (total : option Z) (part : Z) unit_ :
  (0 <= part)%Z ->
  exists a, match total with
    | Some n => [mkQuantity unit_ (nonNegative (wrap64 (n - part)))]
    | None => [] end = match a with Some q => [mkQuantity unit_ q] | None => [] end /\
  (forall q, a = Some q -> (0 <= q)%Z) /\
  (forall n, total = Some n -> (part <= n <= int64_max)%Z -> a = Some (n - part)%Z).
Proof.
  intros Hp. destruct total as [n|]; [|by exists None].
  exists (Some (nonNegative (wrap64 (n - part)))). split; [done|]. split; [intros q [= <-]; apply nonNegative_bounds|].
  intros m [= <-] H. rewrite difference; [done|lia|lia].
Qed.

(** C29. The quantities a provider's nested counts are reported as are
    disjoint: no unit appears twice, none is negative, exactly one request is
    counted, and where the counts nest the prompt is what its uncached and
    cached parts sum to and the completion what its visible and reasoning parts
    do - a price on every unit charges each token once. *)
Theorem usage_is_disjoint usage :
  NoDup (Unit <$> normalizeUsage usage) /\ Forall (fun u => 0 <= Quantity u)%Z (normalizeUsage usage) /\
  quantity_of UnitRequests (normalizeUsage usage) = 1%Z /\
  (nested usage ->
   (forall n, PromptTokens usage = Some n ->
      (quantity_of UnitInputTokens (normalizeUsage usage)
       + quantity_of UnitCachedInputTokens (normalizeUsage usage) = n)%Z) /\
   (forall n, CompletionTokens usage = Some n ->
      (quantity_of UnitOutputTokens (normalizeUsage usage)
       + quantity_of UnitReasoningTokens (normalizeUsage usage) = n)%Z)).
Proof.
  pose proof (cached_nonneg usage) as Hc. pose proof (reasoning_nonneg usage) as Hr. unfold normalizeUsage.
  destruct (counted (PromptTokens usage) (cached_of usage) UnitInputTokens Hc) as (a & -> & Ha0 & Ha).
  destruct (counted (CompletionTokens usage) (reasoning_of usage) UnitOutputTokens Hr) as (b & -> & Hb0 & Hb).
  set (c := cached_of usage) in *. set (r := reasoning_of usage) in *.
  assert (Hsum : nested usage -> (forall n, PromptTokens usage = Some n -> a = Some (n - c)%Z) /\
    (forall n, CompletionTokens usage = Some n -> b = Some (n - r)%Z)).
  { intros [Hp Hq]. split; intros n Hn; [apply Ha; [done|by apply Hp]|apply Hb; [done|by apply Hq]]. }
  clearbody c r. clear Ha Hb.
  destruct (0 <? c)%Z eqn:Ec, (0 <? r)%Z eqn:Er, a as [a|], b as [b|]; bool_cases; cbn [fmap option_fmap option_map app];
    (split; [apply (bool_decide_unpack _); vm_compute; reflexivity|];
     split; [repeat (apply Forall_cons; split; [cbn [Quantity]; first [lia | by apply Ha0 | by apply Hb0]|]); constructor|];
     split; [reflexivity|];
     intros [Hp Hq]%Hsum; split; intros n Hn; [specialize (Hp n Hn)|specialize (Hq n Hn)]; simplify_eq; cbn; lia).
Qed.

Example usage_example :
  let usage := mkChatUsage (Some 100%Z) (Some 50%Z) (Some (mkPromptDetails (Some 30%Z)))
                 (Some (mkCompletionInfo (Some 50%Z))) in
  nested usage /\ normalizeUsage usage =
    [mkQuantity UnitRequests 1; mkQuantity UnitInputTokens 70; mkQuantity UnitCachedInputTokens 30;
     mkQuantity UnitOutputTokens 0; mkQuantity UnitReasoningTokens 50].
Proof. split; [|reflexivity]. split; intros n [= <-]; vm_compute; done. Qed.

(** *** Refusals *)

Definition openrouter_slug := "openrouter".

(** The statuses that accuse the platform's own credential. *)
Definition refuses_key (slug : string) (r : Refused) : bool :=
  (StatusCode r =? 401)%Z || (StatusCode r =? 403)%Z && negb (slug =s openrouter_slug).
Definition refuses_payment (r : Refused) : bool :=
  (StatusCode r =? 402)%Z || (StatusCode r =? 429)%Z && (ue_Type (parsed r) =s "insufficient_quota").
Definition throttles (slug : string) (r : Refused) : bool :=
  (StatusCode r =? 429)%Z && negb (ue_Type (parsed r) =s "insufficient_quota")
  || (slug =s "groq") && (StatusCode r =? 413)%Z && (ue_Type (parsed r) =s "tokens")
     && match ue_Code (parsed r) with Some (AnyString code) => code =s "rate_limit_exceeded" | _ => false end.
Definition breaks_down (r : Refused) : bool := (StatusCode r =? 408)%Z || (500 <=? StatusCode r)%Z.

(** A refusal is laid to the one at fault, for every status, error type,
    provider and key.  A platform key is judged rejected exactly by a 401, or a
    403 of a provider other than OpenRouter; judged spent exactly by a 402 or a
    429 naming an exhausted quota; throttled exactly by any other 429 and Groq's
    413 of token capacity; and the deployment answers for those and for timeouts
    and server errors, for nothing else.  A customer's key leaves no verdict on
    the platform's pool, and its own faults do not accuse the deployment. *)
Theorem refusals_accuse_the_one_at_fault slug response key :
  let err := Refuse slug response key in
  let platform := negb (key_customerOwned key) in
  (CredentialVerdictFor err = CredentialRejected <-> platform && refuses_key slug response = true) /\
  (CredentialVerdictFor err = CredentialExhausted <-> platform && refuses_payment response = true) /\
  Throttled err = throttles slug response /\
  DeploymentAttributable err =
    breaks_down response
    || platform && (refuses_key slug response || refuses_payment response || throttles slug response).
Proof.
  cbn zeta. unfold Refuse, refuses_key, refuses_payment, throttles, breaks_down, openrouter_slug.
  set (status := StatusCode response). set (ty := ue_Type (parsed response)).
  set (capacity := match ue_Code (parsed response) with Some (AnyString code) => code =s "rate_limit_exceeded" | _ => false end).
  set (reasons := ue_Metadata (parsed response) ≫= _). set (policy := openRouterPolicyRefusal _).
  assert (Htok : (ty =s "tokens") = true -> (ty =s "content_filter") || (ty =s "content_policy_violation") = false)
    by (intros ->%String.eqb_eq; reflexivity).
  set (tokens := ty =s "tokens") in *. set (quota := ty =s "insufficient_quota").
  set (filtered := (ty =s "content_filter") || (ty =s "content_policy_violation")) in *.
  set (openrouter := slug =s "openrouter"). set (groq := slug =s "groq"). set (owned := key_customerOwned key).
  generalize (if ty =s "" then None else Some ty). intros code.
  clearbody capacity status reasons policy tokens quota filtered openrouter groq owned.
  repeat match goal with
  | |- context [(status =? ?n)%Z] => destruct (Z.eqb_spec status n) as [->|?]
  | |- context [(500 <=? status)%Z] => destruct (500 <=? status)%Z
  end; cbn [andb orb negb Z.eqb Pos.eqb Z.leb Z.compare Pos.compare Pos.compare_cont];
  repeat match goal with
  | |- context [if ?b then _ else _] => is_var b; destruct b; cbn [andb orb negb]
  | |- context [?b && _] => is_var b; destruct b; cbn [andb orb negb]
  | |- context [?b || _] => is_var b; destruct b; cbn [andb orb negb]
  end;
  try match goal with |- context [match ?o with Some _ => _ | None => _ end] => is_var o; destruct o end;
  try (specialize (Htok eq_refl); discriminate);
  try destruct owned; vm_compute; (split; [split; (done || congruence)|split; [split; (done || congruence)|by split]]).
Qed.
