(* ===== verification/AnthropicStream.v ===== *)
(** * Messages streams (internal/provider/anthropic/stream.go, wire.go)

    What the adapter of the Messages API does with an answer the upstream
    accepted: named events over indexed content blocks, cumulative token counts
    in two events, failures inside the stream; and the failures of a response
    classified by the provider's own error types.  A reading is a [Script]
    played against the emitter; decoding an event's JSON is the argument
    [Unmarshal]. *)

From S2P Require Import Prelude Ids Text Contract Request Provider KeyPool Adapter UsageEstimate Emitter Reports.
From S2P Require Sse ChatStream.

Definition Slug := "anthropic".

(** ** The wire (wire.go) *)

Record contentBlock := mkBlock {
  cb_Type : string;
  cb_Text : option string;
  cb_Thinking : option string;
  cb_ID : option string;
  cb_Name : option string;
  cb_Input : string;
}.

Record outputTokensDetails := mkOutputDetails { ThinkingTokens : option Z }.

Record usage := mkUsage {
  InputTokens : option Z;
  OutputTokens : option Z;
  CacheReadInputTokens : option Z;
  CacheCreationInputTokens : option Z;
  OutputTokensDetails : option outputTokensDetails;
}.

Record message := mkMessage { msg_Content : list contentBlock; msg_StopReason : option string; msg_Usage : option usage }.
Record streamMessage := mkStreamMessage { sm_Usage : option usage }.

Record streamDelta := mkDelta {
  sd_Type : string;
  sd_Text : option string;
  sd_Thinking : option string;
  sd_PartialJSON : option string;
  sd_StopReason : option string;
}.

Record errorDetail := mkDetail { ed_Type : string; ed_Message : string }.

Record streamEvent := mkStreamEvent {
  ev_Type : string;
  ev_Message : option streamMessage;
  ev_Index : option Z;
  ev_ContentBlock : option contentBlock;
  ev_Delta : option streamDelta;
  ev_Usage : option usage;
  ev_Error : option errorDetail;
}.

Definition eventMessageStart := "message_start".
Definition eventContentBlockStart := "content_block_start".
Definition eventContentBlockDelta := "content_block_delta".
Definition eventContentBlockStop := "content_block_stop".
Definition eventMessageDelta := "message_delta".
Definition eventMessageStop := "message_stop".
Definition eventError := "error".
Definition deltaText := "text_delta".
Definition deltaThinking := "thinking_delta".
Definition deltaInputJSON := "input_json_delta".
Definition blockText := "text".
Definition blockThinking := "thinking".
Definition blockToolUse := "tool_use".

Definition derefString (s : option string) : string := default "" s.

(** ** Usage *)

Record usageMeter := mkMeter {
  inputTokens : Z;
  cacheReadTokens : Z;
  cacheCreationTokens : Z;
  outputTokens : Z;
  thinkingTokens : Z;
  seenAny : bool;
  final : bool;
}.

Definition empty_meter : usageMeter := mkMeter 0 0 0 0 0 false false.
Definition nonNegative (value : Z) : Z := if (value <? 0)%Z then 0 else value.

(** A count the event states supersedes the one held. *)
Definition latest (held : Z) (reported : option Z) : Z := match reported with Some n => nonNegative n | None => held end.

Definition thinking_of (u : usage) : option Z := OutputTokensDetails u ≫= ThinkingTokens.

Definition absorb (reported : option usage) (last : bool) (m : usageMeter) : usageMeter :=
  match reported with
  | None => m
  | Some u =>
      mkMeter (latest (inputTokens m) (InputTokens u)) (latest (cacheReadTokens m) (CacheReadInputTokens u))
        (latest (cacheCreationTokens m) (CacheCreationInputTokens u)) (latest (outputTokens m) (OutputTokens u))
        (latest (thinkingTokens m) (thinking_of u)) true (final m || last)
  end.

Definition units (m : usageMeter) : list UsageQuantity * string :=
  if negb (seenAny m) then ([], UsageEstimated)
  else
    ([mkQuantity UnitRequests 1; mkQuantity UnitInputTokens (wrap64 (inputTokens m + cacheCreationTokens m))]
     ++ (if (0 <? cacheReadTokens m)%Z then [mkQuantity UnitCachedInputTokens (cacheReadTokens m)] else [])
     ++ [mkQuantity UnitOutputTokens (nonNegative (wrap64 (outputTokens m - thinkingTokens m)))]
     ++ (if (0 <? thinkingTokens m)%Z then [mkQuantity UnitReasoningTokens (thinkingTokens m)] else []),
     if final m then UsageProviderReported else UsageEstimated).

Definition measured (m : usageMeter) (o : AdapterOutcome) : AdapterOutcome :=
  let '(u, source) := units m in set_units u source o.

Definition mapStopReason (reason : string) : string :=
  if isMember reason ["end_turn"; "stop_sequence"; "pause_turn"] then FinishStop
  else if isMember reason ["max_tokens"; "model_context_window_exceeded"] then FinishLength
  else if reason =s "tool_use" then FinishToolCalls
  else if reason =s "refusal" then FinishRefusal
  else FinishStop.

(** ** Failures *)

Definition errorRateLimit := "rate_limit_error".
Definition errorBilling := "billing_error".
Definition errorAuthentication := "authentication_error".
Definition errorPermission := "permission_error".
Definition errorNotFound := "not_found_error".
Definition errorRequestTooLarge := "request_too_large".
Definition errorInvalidRequest := "invalid_request_error".
Definition errorOverloaded := "overloaded_error".
Definition errorTimeout := "timeout_error".
Definition errorAPI := "api_error".

(** [classifyByStatus]: the code and the category. *)
Definition classifyByStatus (status : Z) : string * string :=
  if (status =? 429)%Z then (CodeRateLimited, UpstreamRateLimit)
  else if (status =? 408)%Z || (status =? 504)%Z then (CodeProviderTimeout, UpstreamTimeout)
  else if (500 <=? status)%Z then (CodeProviderError, UpstreamServerError)
  else if (400 <=? status)%Z then (CodeInvalidRequest, UpstreamInvalidReq)
  else (CodeProviderError, UpstreamUnknown).

(** [classify]: the code and the category. *)
Definition classify (type : string) (status : Z) : string * string :=
  if type =s errorRateLimit then (CodeRateLimited, UpstreamRateLimit)
  else if type =s errorBilling then (CodeProviderBillingRefused, UpstreamQuota)
  else if (type =s errorAuthentication) || (type =s errorPermission)
  then (CodeProviderCredentialInvalid, UpstreamAuthentication)
  else if type =s errorNotFound then (CodeModelNotFound, UpstreamInvalidReq)
  else if type =s errorRequestTooLarge then (CodeRequestTooLarge, UpstreamInvalidReq)
  else if type =s errorTimeout then (CodeProviderTimeout, UpstreamTimeout)
  else if type =s errorOverloaded then (CodeProviderOverloaded, UpstreamOverloaded)
  else if type =s errorAPI then (CodeProviderError, UpstreamServerError)
  else if type =s errorInvalidRequest then (CodeInvalidRequest, UpstreamInvalidReq)
  else classifyByStatus status.

Definition failed (type : string) (status : option Z) (retryAfter : Z) : Upstream :=
  let '(code, category) := classify type (default 0%Z status) in
  mkUpstream code category retryAfter (Some (mkPassthrough Slug status (if type =s "" then None else Some type))) false.

(** A response [Refuse] classifies: its status, what [RetryAfterMs] reads of its
    header, and the decoded error. *)
Record Refused := mkRefused { StatusCode : Z; rf_RetryAfterMs : Z; parsed : errorDetail }.

Definition Refuse (response : Refused) (key : Key) : GoError :=
  let type := ed_Type (parsed response) in
  let code := (classify type (StatusCode response)).1 in
  let wait := if Retryable code && (0 <? rf_RetryAfterMs response)%Z then rf_RetryAfterMs response else 0%Z in
  CustomerCredentialFailure (key_customerOwned key) (failed type (Some (StatusCode response)) wait).

Definition midStreamFailure (detail : errorDetail) (key : Key) : GoError :=
  CustomerCredentialFailure (key_customerOwned key) (failed (ed_Type detail) None 0).

(** ** What an event is told as *)

(** The loop's variables: the tool call of each open block ([blockTracker]), the
    meter, the finish reason. *)
Record reading := mkReading { toolCalls : gmap Z string; meter : usageMeter; finish : string }.

Definition outcome_of (st : reading) : AdapterOutcome := measured (meter st) (set_finish (finish st) unmeasured).

Definition tell_call (id name arguments : string) (complete : bool) : list EmitterOp :=
  [OpToolCall (mkToolCall id name arguments complete)].

(** [blockTracker.start]. *)
Definition block_start (event : streamEvent) (calls : gmap Z string) : list EmitterOp * gmap Z string :=
  match ev_Index event, ev_ContentBlock event with
  | Some index, Some block =>
      let id := derefString (cb_ID block) in
      if negb (cb_Type block =s blockToolUse) || (id =s "") then ([], calls)
      else (tell_call id (derefString (cb_Name block)) "" false, <[index := id]> calls)
  | _, _ => ([], calls)
  end.

(** [blockTracker.stop]. *)
Definition block_stop (event : streamEvent) (calls : gmap Z string) : list EmitterOp * gmap Z string :=
  match ev_Index event with
  | Some index =>
      match calls !! index with
      | Some id => (tell_call id "" "" true, delete index calls)
      | None => ([], calls)
      end
  | None => ([], calls)
  end.

Definition emitDelta (event : streamEvent) (calls : gmap Z string) : list EmitterOp :=
  match ev_Delta event, ev_Index event with
  | Some delta, Some index =>
      if sd_Type delta =s deltaText then ChatStream.tell index ChannelOutputText (sd_Text delta)
      else if sd_Type delta =s deltaThinking then ChatStream.tell index ChannelReasoning (sd_Thinking delta)
      else if sd_Type delta =s deltaInputJSON then
        match calls !! index with
        | Some id =>
            let fragment := derefString (sd_PartialJSON delta) in
            if fragment =s "" then [] else tell_call id "" fragment false
        | None => []
        end
      else []
  | _, _ => []
  end.

Inductive Told := Tells (ops : list EmitterOp) (st : reading) | Stops | FailsWith (err : GoError).

(** One event of the stream. *)
Definition on_event (key : Key) (event : streamEvent) (st : reading) : Told :=
  let type := ev_Type event in
  if type =s eventMessageStart
  then Tells [] (mkReading (toolCalls st) (absorb (ev_Message event ≫= sm_Usage) false (meter st)) (finish st))
  else if type =s eventContentBlockStart then
    let '(ops, calls) := block_start event (toolCalls st) in Tells ops (mkReading calls (meter st) (finish st))
  else if type =s eventContentBlockDelta then Tells (emitDelta event (toolCalls st)) st
  else if type =s eventContentBlockStop then
    let '(ops, calls) := block_stop event (toolCalls st) in Tells ops (mkReading calls (meter st) (finish st))
  else if type =s eventMessageDelta then
    Tells [] (mkReading (toolCalls st) (absorb (ev_Usage event) true (meter st))
                match ev_Delta event ≫= sd_StopReason with Some reason => mapStopReason reason | None => finish st end)
  else if type =s eventError then FailsWith (midStreamFailure (default (mkDetail "" "") (ev_Error event)) key)
  else if type =s eventMessageStop then Stops
  else Tells [] st.

(** ** Reading an answer *)

Section Reading.
Variable clock : nat -> Instant.     (* the time at each report *)

Section Events.
Variable Unmarshal : string -> option streamEvent.
Variable decoder_err : Sse.Ended -> GoError.   (* the error value the reader ended with *)
Variable ctx : option (nat * GoError).         (* when it was cancelled, if it was, and why *)
Variable key : Key.

(** The loop of [readStream]; more fuel than bytes is never used up. *)
Fixpoint read_events (fuel n : nat) (d : Sse.Decoder) (st : reading) : Script :=
  match fuel with
  | O => Return (outcome_of st) (Some Opaque)
  | S fuel =>
      match Sse.Next d with
      | (None, d) => ChatStream.end_stream Slug clock decoder_err ctx n d false (outcome_of st)
      | (Some frame, d) =>
          if Sse.Data frame =s "" then read_events fuel n d st
          else match Unmarshal (Sse.Data frame) with
          | None => read_events fuel n d st
          | Some event =>
              match on_event key event st with
              | Tells ops st => reports clock n ops (outcome_of st) (read_events fuel (n + length ops) d st)
              | Stops => ChatStream.end_stream Slug clock decoder_err ctx n d true (outcome_of st)
              | FailsWith err => Return (outcome_of st) (Some err)
              end
          end
      end
  end.

Definition nothing_read : reading := mkReading ∅ empty_meter "".

Definition readStream (model : string) (body : Sse.Decoder) : Script :=
  reports clock 0 [OpStart model (clock 0)] unmeasured
    (read_events (S (S (String.length (Sse.unread (Sse.scanner body))))) 1 body nothing_read).

End Events.

(** The report of one block of a whole response. *)
Definition tell_block (index : nat) (block : contentBlock) : list EmitterOp :=
  if cb_Type block =s blockThinking then ChatStream.tell (Z.of_nat index) ChannelReasoning (cb_Thinking block)
  else if cb_Type block =s blockText then ChatStream.tell (Z.of_nat index) ChannelOutputText (cb_Text block)
  else if cb_Type block =s blockToolUse then
    tell_call (derefString (cb_ID block)) (derefString (cb_Name block))
      (if cb_Input block =s "" then "{}" else cb_Input block) true
  else [].

(** [readComplete]; [raw] is what [io.ReadAll] read, or nothing when it
    failed. *)
Definition readComplete (Unmarshal : string -> option message) (model : string) (raw : option string) : Script :=
  match raw with
  | None => Return unmeasured (Some (Wrapped Opaque))
  | Some raw =>
      match Unmarshal raw with
      | None => Return unmeasured
          (Some (ErrUpstream (mkUpstream CodeProviderError UpstreamUnknown 0 (Some (mkPassthrough Slug None None)) false)))
      | Some complete =>
          let m := absorb (msg_Usage complete) true empty_meter in
          let told := measured m unmeasured in
          let o := match msg_StopReason complete with
                   | Some reason => measured m (set_finish (mapStopReason reason) unmeasured) | None => told end in
          let ops := concat (imap tell_block (msg_Content complete)) in
          reports clock 0 [OpStart model (clock 0)] unmeasured
            (reports clock 1 ops told
               (reports clock (1 + length ops) (ChatStream.final_usage o) o (Return (ChatStream.finished o) None)))
      end
  end.

End Reading.

(** *** What Stream returns of a reading *)

(** The answer the walk accepted, read; the outcome names the key it spent. *)
Definition Stream (key : Key) (reading : Script) : Script := map_return (fun o err => (set_key key o, err)) reading.

(** ** The stream as a list of events *)

Section Facts.
Variable sink : Sink.
Variable clock : nat -> Instant.
Variable Unmarshal : string -> option streamEvent.
Variable decoder_err : Sse.Ended -> GoError.
Variable ctx : option (nat * GoError).
Variable key : Key.

(** The events a body carries up to its [message_stop], and the decoder
    there. *)
Inductive events_read : Sse.Decoder -> list streamEvent -> Sse.Decoder -> Prop :=
| read_stop d frame d' event :
    Sse.Next d = (Some frame, d') -> Sse.Data frame <> "" -> Unmarshal (Sse.Data frame) = Some event ->
    ev_Type event = eventMessageStop -> events_read d [] d'
| read_skipped d frame d1 events d' :
    Sse.Next d = (Some frame, d1) -> Sse.Data frame = "" \/ Unmarshal (Sse.Data frame) = None ->
    events_read d1 events d' -> events_read d events d'
| read_event d frame d1 event events d' :
    Sse.Next d = (Some frame, d1) -> Sse.Data frame <> "" -> Unmarshal (Sse.Data frame) = Some event ->
    ev_Type event <> eventMessageStop -> events_read d1 events d' -> events_read d (event :: events) d'.

Lemma events_read_next d frame d1 events d' :
  Sse.Next d = (Some frame, d1) ->
  events_read d events d' <->
  if Sse.Data frame =s "" then events_read d1 events d'
  else match Unmarshal (Sse.Data frame) with
  | None => events_read d1 events d'
  | Some event =>
      if ev_Type event =s eventMessageStop then events = [] /\ d' = d1
      else exists rest, events = event :: rest /\ events_read d1 rest d'
  end.
Proof.
  intros En. split.
  - intros H. inversion H as [? ? ? ? Hn H0 Hu Hs|? ? ? ? ? Hn H0 Hr|? ? ? ? ? ? Hn H0 Hu Hs Hr]; subst;
      rewrite En in Hn; injection Hn as <- <-.
    + apply String.eqb_neq in H0. apply String.eqb_eq in Hs. by rewrite H0, Hu, Hs.
    + destruct (Sse.Data frame =s "") eqn:E0; [done|]. destruct H0 as [H0|Hu]; [bool_cases; congruence|by rewrite Hu].
    + apply String.eqb_neq in H0. apply String.eqb_neq in Hs. rewrite H0, Hu, Hs. eauto.
  - destruct (Sse.Data frame =s "") eqn:E0; bool_cases; [intros H; eapply read_skipped; eauto|].
    destruct (Unmarshal (Sse.Data frame)) as [event|] eqn:Eu; [|intros H; eapply read_skipped; eauto].
    destruct (ev_Type event =s eventMessageStop) eqn:Es; bool_cases.
    + intros [-> ->]. by eapply read_stop.
    + intros (rest & -> & H). by eapply read_event.
Qed.

(** What an event leaves, and every event of a list. *)
Definition event_step (event : streamEvent) (st : reading) : list EmitterOp * reading :=
  match on_event key event st with Tells ops st => (ops, st) | _ => ([], st) end.

Fixpoint stream_steps (events : list streamEvent) (st : reading) : list EmitterOp * reading :=
  match events with
  | [] => ([], st)
  | event :: events =>
      let '(ops, st) := event_step event st in
      let '(ops', st) := stream_steps events st in (ops ++ ops', st)
  end.

Definition no_failure (events : list streamEvent) : Prop := Forall (fun event => ev_Type event <> eventError) events.

Lemma on_event_told event st :
  ev_Type event <> eventMessageStop ->
  on_event key event st =
    (if ev_Type event =s eventError
     then FailsWith (midStreamFailure (default (mkDetail "" "") (ev_Error event)) key)
     else let '(ops, st) := event_step event st in Tells ops st).
Proof.
  intros H. unfold event_step, on_event. 
  destruct (ev_Type event =s eventError) eqn:E; bool_cases.
  { by rewrite E. }
  apply String.eqb_neq in H. rewrite H.
  repeat case_match; congruence.
Qed.

(** The loop, as what it succeeds in. *)
Lemma play_events fuel n d st e o' e' :
  (String.length (Sse.unread (Sse.scanner d)) < fuel)%nat ->
  play sink (read_events clock Unmarshal decoder_err ctx key fuel n d st) e = (o', None, e') <->
  exists events d', events_read d events d' /\ ChatStream.ends_well ctx d' /\ no_failure events /\
    let o1 := outcome_of (stream_steps events st).2 in
    o' = ChatStream.finished o1 /\
    apply_ops clock sink n ((stream_steps events st).1 ++ ChatStream.final_usage o1) e = (None, e').
Proof.
  revert n d st e. induction fuel as [|fuel IH]; intros n d st e Hf; [lia|]. cbn [read_events].
  destruct (Sse.Next d) as [[frame|] d1] eqn:En.
  2: { rewrite ChatStream.play_end_stream. split; [by intros [? _]|]. intros (? & ? & H & _). inversion H; congruence. }
  pose proof (Sse.Next_progress _ _ _ En) as Hp.
  setoid_rewrite (events_read_next _ _ _ _ _ En).
  destruct (Sse.Data frame =s "") eqn:E0; [by rewrite IH by lia|].
  destruct (Unmarshal (Sse.Data frame)) as [event|] eqn:Eu; [|by rewrite IH by lia].
  destruct (ev_Type event =s eventMessageStop) eqn:Es.
  { assert (on_event key event st = Stops) as ->.
    { bool_cases. unfold on_event. rewrite Es. reflexivity. }
    rewrite ChatStream.play_end_stream. split.
    - intros (_ & He & -> & Ha). exists [], d1. split; [done|]. split; [exact He|]. by split; [constructor|].
    - intros (? & ? & [-> ->] & He & _ & -> & Ha). done. }
  bool_cases. rewrite (on_event_told _ st Es).
  destruct (ev_Type event =s eventError) eqn:Ee; bool_cases.
  { split; [done|]. intros (? & d' & (rest & -> & _) & _ & Ho & _). by inversion Ho. }
  assert (Hops : forall rest, stream_steps (event :: rest) st =
    ((event_step event st).1 ++ (stream_steps rest (event_step event st).2).1,
     (stream_steps rest (event_step event st).2).2)).
  { intros. cbn [stream_steps]. destruct (event_step event st) as [ops st1]. cbn [fst snd]. by destruct (stream_steps rest st1). }
  destruct (event_step event st) as [ops st1]. cbn [fst snd] in Hops. rewrite play_reports.
  destruct (apply_ops clock sink n ops e) as [[err|] e1] eqn:Ea.
  - split; [done|]. intros (? & d' & (rest & -> & _) & _ & _ & _ & Happ).
    rewrite Hops in Happ. cbn [fst snd] in Happ. by rewrite <-app_assoc, apply_ops_app, Ea in Happ.
  - rewrite IH by lia. split.
    + intros (rest & d' & H & He & Ho & -> & Happ). exists (event :: rest), d'.
      rewrite Hops. cbn [fst snd]. rewrite <-app_assoc, apply_ops_app, Ea.
      split; [by eexists|]. split; [exact He|]. by split; [constructor|].
    + intros (? & d' & (rest & -> & H) & He & Ho & -> & Happ). rewrite Hops in Happ |- *. cbn [fst snd] in Happ |- *.
      rewrite <-app_assoc, apply_ops_app, Ea in Happ. inversion Ho. by exists rest, d'.
Qed.

(** [readStream], as what it succeeds in. *)
Lemma messages_reads model body e o' e' :
  play sink (readStream clock Unmarshal decoder_err ctx key model body) e = (o', None, e') <->
  exists events d', events_read body events d' /\ ChatStream.ends_well ctx d' /\ no_failure events /\
    let o1 := outcome_of (stream_steps events nothing_read).2 in
    o' = ChatStream.finished o1 /\
    apply_ops clock sink 0
      (OpStart model (clock 0) :: (stream_steps events nothing_read).1 ++ ChatStream.final_usage o1) e = (None, e').
Proof.
  unfold readStream. rewrite play_reports.
  assert (Hops : forall ops, apply_ops clock sink 0 (OpStart model (clock 0) :: ops) e =
    match apply_ops clock sink 0 [OpStart model (clock 0)] e with (None, e) => apply_ops clock sink 1 ops e | refused => refused end)
    by (intros ops; exact (apply_ops_app clock sink 0 [OpStart model (clock 0)] ops e)).
  destruct (apply_ops clock sink 0 [OpStart model (clock 0)] e) as [[err|] e1].
  - split; [done|]. intros (events & d' & _ & _ & _ & _ & H). by rewrite Hops in H.
  - rewrite play_events by lia. split; intros (events & d' & H1 & H2 & H3 & H4 & H); exists events, d';
      (split; [done|]; split; [exact H2|]; split; [done|]; split; [done|]); [by rewrite Hops|by rewrite Hops in H].
Qed.

(** *** The reading, told from the events alone *)

Definition is_event (type : string) (event : streamEvent) : bool := ev_Type event =s type.

(** The counts an event states, and whether they are the final ones. *)
Definition usage_of (event : streamEvent) : option usage :=
  if is_event eventMessageStart event then ev_Message event ≫= sm_Usage
  else if is_event eventMessageDelta event then ev_Usage event
  else None.
Definition reports_total (event : streamEvent) : bool :=
  is_event eventMessageDelta event && match ev_Usage event with Some _ => true | None => false end.

(** The last count stated of a field, over the one held before. *)
Definition last_stated (held : Z) (field : usage -> option Z) (events : list streamEvent) : Z :=
  latest held (last (omap field (omap usage_of events))).

Definition last_meter (m : usageMeter) (events : list streamEvent) : usageMeter :=
  mkMeter (last_stated (inputTokens m) InputTokens events) (last_stated (cacheReadTokens m) CacheReadInputTokens events)
    (last_stated (cacheCreationTokens m) CacheCreationInputTokens events) (last_stated (outputTokens m) OutputTokens events)
    (last_stated (thinkingTokens m) thinking_of events)
    (seenAny m || match omap usage_of events with [] => false | _ => true end)
    (final m || existsb reports_total events).

Definition stop_reason_of (event : streamEvent) : option string :=
  if is_event eventMessageDelta event then ev_Delta event ≫= sd_StopReason else None.
Definition last_finish (held : string) (events : list streamEvent) : string :=
  match last (omap stop_reason_of events) with Some reason => mapStopReason reason | None => held end.

(** What an event says of the call at an index: opened under an id, or
    closed. *)
Definition opened (index : Z) (event : streamEvent) : option (option string) :=
  if bool_decide (ev_Index event = Some index) then
    if is_event eventContentBlockStart event then
      match ev_ContentBlock event with
      | Some block =>
          if (cb_Type block =s blockToolUse) && negb (derefString (cb_ID block) =s "")
          then Some (Some (derefString (cb_ID block))) else None
      | None => None
      end
    else if is_event eventContentBlockStop event then Some None
    else None
  else None.

(** The call open at an index after some events, over those open before. *)
Definition open_call (held : option string) (index : Z) (events : list streamEvent) : option string :=
  match last (omap (opened index) events) with Some call => call | None => held end.

Ltac by_type event :=
  repeat match goal with
  | |- context [ev_Type event =s ?t] => let Ht := fresh in destruct (String.eqb_spec (ev_Type event) t) as [Ht|_]; [try rewrite Ht; clear Ht|]
  end.

Lemma event_step_meter event st :
  meter (event_step event st).2 = absorb (usage_of event) (is_event eventMessageDelta event) (meter st).
Proof.
  unfold event_step, on_event, usage_of, is_event. by_type event; try reflexivity; cbn;
    [by destruct (block_start event (toolCalls st))|by destruct (block_stop event (toolCalls st))].
Qed.

Lemma event_step_finish event st :
  finish (event_step event st).2 = default (finish st) (mapStopReason <$> stop_reason_of event).
Proof.
  unfold event_step, on_event, stop_reason_of, is_event. by_type event; try reflexivity; cbn;
    [by destruct (block_start event (toolCalls st))|by destruct (block_stop event (toolCalls st))
    |by destruct (ev_Delta event ≫= sd_StopReason)].
Qed.

Lemma event_step_calls event st index :
  toolCalls (event_step event st).2 !! index = default (toolCalls st !! index) (opened index event).
Proof.
  unfold event_step, on_event, opened, is_event. by_type event; cbn; try by case_match.
  - unfold block_start. destruct (ev_Index event) as [i|]; [|done]. destruct (ev_ContentBlock event) as [block|].
    2: { cbn. by case_match. }
    destruct (cb_Type block =s blockToolUse), (derefString (cb_ID block) =s ""); cbn [negb orb andb]; cbn; try by case_match.
    case_bool_decide; simplify_eq; cbn; [by rewrite lookup_insert_eq|]. rewrite lookup_insert_ne; [done|congruence].
  - unfold block_stop. destruct (ev_Index event) as [i|]; [|done].
    destruct (toolCalls st !! i) as [id|] eqn:Ei; case_bool_decide; simplify_eq; cbn;
      [by rewrite lookup_delete_eq|rewrite lookup_delete_ne; [done|congruence]|done|done].
Qed.

Lemma last_over {A B} (f : A -> option B) (x : A) (l : list A) :
  last (omap f (x :: l)) = match last (omap f l) with Some y => Some y | None => f x end.
Proof. cbn [omap list_omap]. destruct (f x) as [y|]; [rewrite last_cons|]; by destruct (last _). Qed.

Lemma last_stated_cons held field event events :
  last_stated held field (event :: events) =
  last_stated (latest held (usage_of event ≫= field)) field events.
Proof.
  unfold last_stated. cbn [omap list_omap]. destruct (usage_of event) as [u|]; [|done]. rewrite last_over. cbn.
  by destruct (last _).
Qed.

Lemma absorb_last reported event events m :
  usage_of event = reported ->
  last_meter (absorb reported (is_event eventMessageDelta event) m) events = last_meter m (event :: events).
Proof.
  intros Hu. unfold last_meter. rewrite !last_stated_cons, Hu. cbn [omap list_omap existsb]. rewrite Hu.
  assert (reports_total event = match reported with Some _ => is_event eventMessageDelta event | None => false end) as ->.
  { subst reported. unfold reports_total, usage_of. destruct (is_event eventMessageDelta event) eqn:Ed; cbn [andb].
    - assert (is_event eventMessageStart event = false) as ->; [|done].
      unfold is_event in *. bool_cases. by rewrite Ed.
    - by case_match. }
  destruct m, reported; cbn; rewrite ?orb_true_r, ?orb_true_l, ?orb_assoc; reflexivity.
Qed.

(** A reading of some events holds the last of everything they state. *)
Lemma stream_steps_reading events st :
  let st' := (stream_steps events st).2 in
  meter st' = last_meter (meter st) events /\ finish st' = last_finish (finish st) events /\
  forall index, toolCalls st' !! index = open_call (toolCalls st !! index) index events.
Proof.
  revert st. induction events as [|event events IH]; intros st.
  { destruct st as [calls [] f]. split; [|done]. cbn. unfold last_meter, last_stated. cbn. by rewrite !orb_false_r. }
  cbn [stream_steps]. pose proof (event_step_meter event st) as Hm. pose proof (event_step_finish event st) as Hf.
  pose proof (event_step_calls event st) as Hc. destruct (event_step event st) as [ops st1]. cbn [snd] in *.
  destruct (IH st1) as (IHm & IHf & IHc). destruct (stream_steps events st1) as [ops' st']. cbn [snd] in *.
  rewrite IHm, IHf, Hm, Hf. split; [by apply absorb_last|]. split.
  - unfold last_finish. rewrite last_over. by destruct (last _), (stop_reason_of event).
  - intros index. rewrite IHc, Hc. unfold open_call. rewrite last_over. by destruct (last _), (opened index event).
Qed.

(** *** What the client hears *)

(** The text an event carries on a channel and an output index. *)
Definition block_text (channel : string) (index : Z) (event : streamEvent) : string :=
  match ev_Delta event with
  | Some delta =>
      if is_event eventContentBlockDelta event && bool_decide (ev_Index event = Some index) then
        if sd_Type delta =s deltaText then if ChannelOutputText =s channel then derefString (sd_Text delta) else ""
        else if sd_Type delta =s deltaThinking then if ChannelReasoning =s channel then derefString (sd_Thinking delta) else ""
        else ""
      else ""
  | None => ""
  end.

Fixpoint text_in (channel : string) (index : Z) (events : list streamEvent) : string :=
  match events with
  | [] => ""
  | event :: events => block_text channel index event +:+ text_in channel index events
  end.

(** The argument fragment an event carries: of which block, and what. *)
Definition fragment_of (event : streamEvent) : option (Z * string) :=
  delta ← ev_Delta event; index ← ev_Index event;
  if is_event eventContentBlockDelta event && (sd_Type delta =s deltaInputJSON)
  then Some (index, derefString (sd_PartialJSON delta)) else None.

(** The fragments of the calls open under an id, joined: [before] is what came
    before the events. *)
Fixpoint arguments_in (id : string) (before events : list streamEvent) : string :=
  match events with
  | [] => ""
  | event :: events =>
      match fragment_of event with
      | Some (index, text) => if bool_decide (open_call None index before = Some id) then text else ""
      | None => ""
      end +:+ arguments_in id (before ++ [event]) events
  end.

Lemma event_step_ops event st :
  (event_step event st).1 =
    if is_event eventContentBlockStart event then (block_start event (toolCalls st)).1
    else if is_event eventContentBlockDelta event then emitDelta event (toolCalls st)
    else if is_event eventContentBlockStop event then (block_stop event (toolCalls st)).1
    else [].
Proof.
  unfold event_step, on_event, is_event. by_type event; try reflexivity; cbn;
    [by destruct (block_start event (toolCalls st))|by destruct (block_stop event (toolCalls st))].
Qed.

(** A block that opens or closes says no text and no arguments. *)
Lemma said_block f g event calls :
  (forall id name, g id name "" = "") ->
  said f g (block_start event calls).1 = "" /\ said f g (block_stop event calls).1 = "".
Proof.
  intros Hg. split; [unfold block_start|unfold block_stop]; repeat case_match; cbn; by rewrite ?Hg.
Qed.

Lemma arguments_of_empty id id' name : ChatStream.arguments_of id id' name "" = "".
Proof. unfold ChatStream.arguments_of. by case_match. Qed.

Lemma said_event f g event st :
  (forall id name, g id name "" = "") ->
  said f g (event_step event st).1 =
    if is_event eventContentBlockDelta event then said f g (emitDelta event (toolCalls st)) else "".
Proof.
  intros Hg. rewrite event_step_ops. destruct (said_block f g event (toolCalls st) Hg) as [H1 H2].
  unfold is_event. by_type event; cbn [String.eqb Ascii.eqb Bool.eqb eventContentBlockStart eventContentBlockDelta eventContentBlockStop];
    done.
Qed.

Lemma said_event_text channel index event st :
  said (ChatStream.text_at channel index) ChatStream.no_arguments (event_step event st).1 = block_text channel index event.
Proof.
  rewrite said_event by done. unfold block_text, emitDelta.
  destruct (is_event eventContentBlockDelta event); [|by destruct (ev_Delta event)]. cbn [andb].
  destruct (ev_Delta event) as [delta|]; [|done]. destruct (ev_Index event) as [i|]; [|by case_bool_decide].
  assert (Hi : forall c text, said (ChatStream.text_at channel index) ChatStream.no_arguments (ChatStream.tell i c text) =
    if bool_decide (Some i = Some index) then if c =s channel then derefString text else "" else "").
  { intros c text. rewrite ChatStream.said_tell by apply ChatStream.text_at_empty. unfold ChatStream.text_at.
    destruct (Z.eqb_spec i index); case_bool_decide; by simplify_eq. }
  destruct (sd_Type delta =s deltaText); [apply Hi|]. destruct (sd_Type delta =s deltaThinking); [apply Hi|].
  assert (Hn : said (ChatStream.text_at channel index) ChatStream.no_arguments
    (if sd_Type delta =s deltaInputJSON then
       match toolCalls st !! i with
       | Some id => if derefString (sd_PartialJSON delta) =s "" then [] else tell_call id "" (derefString (sd_PartialJSON delta)) false
       | None => [] end else []) = "") by (by repeat case_match).
  cbn zeta. rewrite Hn. by case_bool_decide.
Qed.

Lemma said_event_arguments id event st :
  said ChatStream.no_text (ChatStream.arguments_of id) (event_step event st).1 =
    match fragment_of event with
    | Some (index, text) => if bool_decide (toolCalls st !! index = Some id) then text else ""
    | None => ""
    end.
Proof.
  rewrite said_event by apply arguments_of_empty. unfold fragment_of, emitDelta.
  destruct (ev_Delta event) as [delta|]; [|by case_match]. destruct (ev_Index event) as [i|]; [|by case_match].
  cbn [mbind option_bind]. destruct (is_event eventContentBlockDelta event); [|done]. cbn [andb].
  destruct (String.eqb_spec (sd_Type delta) deltaText) as [->|_]; [by rewrite ChatStream.said_tell|].
  destruct (String.eqb_spec (sd_Type delta) deltaThinking) as [->|_]; [by rewrite ChatStream.said_tell|].
  destruct (sd_Type delta =s deltaInputJSON); [|done]. set (text := derefString _). cbn zeta.
  destruct (toolCalls st !! i) as [id'|]; [|by case_bool_decide].
  destruct (String.eqb_spec text "") as [->|_]; [by case_bool_decide|]. cbn. unfold ChatStream.arguments_of.
  rewrite str_app_nil_r. destruct (String.eqb_spec id' id); case_bool_decide; by simplify_eq.
Qed.

Lemma said_events_text channel index events st :
  said (ChatStream.text_at channel index) ChatStream.no_arguments (stream_steps events st).1 = text_in channel index events.
Proof.
  revert st. induction events as [|event events IH]; intros st; [done|]. cbn [stream_steps text_in].
  pose proof (said_event_text channel index event st) as Hs. destruct (event_step event st) as [ops st1].
  specialize (IH st1). destruct (stream_steps events st1) as [ops' st']. cbn [fst] in *. by rewrite said_app, Hs, IH.
Qed.

Lemma said_events_arguments id before events st :
  (forall index, toolCalls st !! index = open_call None index before) ->
  said ChatStream.no_text (ChatStream.arguments_of id) (stream_steps events st).1 = arguments_in id before events.
Proof.
  revert before st. induction events as [|event events IH]; intros before st Hc; [done|]. cbn [stream_steps arguments_in].
  pose proof (said_event_arguments id event st) as Hs. pose proof (event_step_calls event st) as Hn.
  destruct (event_step event st) as [ops st1]. cbn [fst snd] in *.
  assert (Hc1 : forall index, toolCalls st1 !! index = open_call None index (before ++ [event])).
  { intros index. rewrite Hn, Hc. unfold open_call. rewrite omap_app. cbn [omap list_omap].
    destruct (opened index event) as [call|]; [by rewrite last_snoc|by rewrite app_nil_r]. }
  specialize (IH _ _ Hc1). destruct (stream_steps events st1) as [ops' st']. cbn [fst] in *. rewrite said_app, Hs, IH.
  f_equal. destruct (fragment_of event) as [[index text]|]; [|done]. by rewrite Hc.
Qed.

(** *** Theorems *)

Lemma outcome_of_measured st :
  (out_Units (outcome_of st), out_UsageSource (outcome_of st)) = units (meter st) /\
  out_FinishReason (outcome_of st) = finish st.
Proof. unfold outcome_of, measured. by destruct (units (meter st)). Qed.

Lemma finished_keeps o :
  (out_Units (ChatStream.finished o), out_UsageSource (ChatStream.finished o)) = (out_Units o, out_UsageSource o) /\
  out_FinishReason (ChatStream.finished o) = (if out_FinishReason o =s "" then FinishStop else out_FinishReason o).
Proof. unfold ChatStream.finished. by case_match. Qed.

Lemma nothing_open index : toolCalls nothing_read !! index = open_call None index [].
Proof. apply lookup_empty. Qed.

(** C35. An answer of the Messages API is told whole: a stream that succeeds
    reached [message_stop] with the connection intact, the context live and no
    error event, and the client heard on every channel and index exactly the
    texts of the deltas there, and under every call id exactly the argument
    fragments of the blocks last opened under it, in order.  The outcome is the
    last total stated of each count, never a sum, and the last stop reason. *)
Theorem message_is_told_whole u0 model body e o' e' :
  emitter_inv u0 e ->
  play sink (readStream clock Unmarshal decoder_err ctx key model body) e = (o', None, e') ->
  exists events d', events_read body events d' /\ ChatStream.ends_well ctx d' /\ no_failure events /\
    (forall channel index, ChatStream.heard_text channel index (Emitter.events e') =
      ChatStream.heard_text channel index (Emitter.events e) +:+ text_in channel index events) /\
    (forall id, ChatStream.heard_arguments id (Emitter.events e') =
      ChatStream.heard_arguments id (Emitter.events e) +:+ arguments_in id [] events) /\
    (out_Units o', out_UsageSource o') = units (last_meter empty_meter events) /\
    out_FinishReason o' = (if last_finish "" events =s "" then FinishStop else last_finish "" events).
Proof.
  intros Hinv (events & d' & Hr & He & Hn & -> & Ha)%messages_reads. exists events, d'.
  split; [done|]. split; [done|]. split; [done|].
  assert (Hheard : forall f g, (forall i c, f i c "" = "") -> heard f g (Emitter.events e') =
    heard f g (Emitter.events e) +:+ said f g (stream_steps events nothing_read).1).
  { intros f g Hf. rewrite (apply_ops_heard _ _ f g Hf u0 _ _ _ _ Hinv Ha). cbn [said said_op].
    by rewrite said_app, ChatStream.said_final, str_app_nil_r. }
  destruct (stream_steps_reading events nothing_read) as (Hm & Hf & _).
  destruct (outcome_of_measured (stream_steps events nothing_read).2) as [Hu Hfin].
  destruct (finished_keeps (outcome_of (stream_steps events nothing_read).2)) as [-> ->].
  rewrite Hu, Hfin, Hm, Hf. split; [|split; [|done]].
  - intros channel index. unfold ChatStream.heard_text. rewrite Hheard by apply ChatStream.text_at_empty.
    by rewrite said_events_text.
  - intros id. unfold ChatStream.heard_arguments. rewrite Hheard by done.
    by rewrite (said_events_arguments id []) by apply nothing_open.
Qed.

(** The events of a beginning of the body. *)
Inductive events_seen : Sse.Decoder -> list streamEvent -> Prop :=
| seen_none d : events_seen d []
| seen_skipped d frame d1 events :
    Sse.Next d = (Some frame, d1) -> Sse.Data frame = "" \/ Unmarshal (Sse.Data frame) = None ->
    events_seen d1 events -> events_seen d events
| seen_event d frame d1 event events :
    Sse.Next d = (Some frame, d1) -> Sse.Data frame <> "" -> Unmarshal (Sse.Data frame) = Some event ->
    events_seen d1 events -> events_seen d (event :: events).

(** Any ending of the loop measures the events it saw. *)
Lemma play_events_measured fuel n d st e o' err e' :
  (String.length (Sse.unread (Sse.scanner d)) < fuel)%nat ->
  play sink (read_events clock Unmarshal decoder_err ctx key fuel n d st) e = (o', err, e') ->
  exists events, events_seen d events /\
    (out_Units o', out_UsageSource o') = units (last_meter (meter st) events).
Proof.
  assert (Hend : forall st, units (last_meter (meter st) []) = (out_Units (outcome_of st), out_UsageSource (outcome_of st))).
  { intros s. destruct (stream_steps_reading [] s) as [<- _]. symmetry. apply outcome_of_measured. }
  assert (Hstop : forall n d terminated st e o' err e',
    play sink (ChatStream.end_stream Slug clock decoder_err ctx n d terminated (outcome_of st)) e = (o', err, e') ->
    (out_Units o', out_UsageSource o') = units (last_meter (meter st) [])).
  { intros n0 d0 term s e0 o0 er e1. rewrite Hend. unfold ChatStream.end_stream.
    destruct (Sse.err d0); [by intros [= <- _ _]|]. destruct (ChatStream.ctx_err ctx 0); [by intros [= <- _ _]|].
    destruct (negb term); [by intros [= <- _ _]|]. rewrite play_reports.
    destruct (apply_ops _ _ _ _ _) as [[x|] e2]; intros [= <- _ _]; [done|]. apply finished_keeps. }
  revert n d st e. induction fuel as [|fuel IH]; intros n d st e Hf; [lia|]. cbn [read_events].
  destruct (Sse.Next d) as [[frame|] d1] eqn:En; [|intros H%Hstop; exists []; split; [constructor|done]].
  pose proof (Sse.Next_progress _ _ _ En) as Hp.
  destruct (Sse.Data frame =s "") eqn:E0; bool_cases.
  { intros (events & Hs & Hu)%IH; [|lia]. exists events. split; [by eapply seen_skipped; eauto|done]. }
  destruct (Unmarshal (Sse.Data frame)) as [event|] eqn:Eu.
  2: { intros (events & Hs & Hu)%IH; [|lia]. exists events. split; [by eapply seen_skipped; eauto|done]. }
  pose proof (event_step_meter event st) as Hm. unfold event_step in Hm.
  destruct (on_event key event st) as [ops st1| |failure]; cbn [snd] in Hm.
  - rewrite play_reports. destruct (apply_ops clock sink n ops e) as [[x|] e1].
    + intros [= <- _ _]. exists [event]. split; [eapply seen_event; eauto using seen_none|].
      rewrite <-(absorb_last _ event [] (meter st) eq_refl), <-Hm. by rewrite Hend.
    + intros (events & Hs & Hu)%IH; [|lia]. exists (event :: events). split; [by eapply seen_event|].
      by rewrite Hu, Hm, absorb_last.
  - intros H%Hstop. exists []. by split; [constructor|].
  - intros [= <- _ _]. exists []. split; [constructor|]. by rewrite Hend.
Qed.

(** However a stream ends - cut off, cancelled, failed by an error event,
    refused by the client's side - its outcome is what the events seen so far
    state: each count is the last total stated of it, and the source is the
    provider's own only when a final [message_delta] was among them. *)
Theorem broken_streams_keep_their_measure model body e o' err e' :
  play sink (readStream clock Unmarshal decoder_err ctx key model body) e = (o', err, e') ->
  exists events, events_seen body events /\
    (out_Units o', out_UsageSource o') = units (last_meter empty_meter events) /\
    (out_UsageSource o' = UsageProviderReported <-> existsb reports_total events = true).
Proof.
  intros H.
  assert (exists events, events_seen body events /\
    (out_Units o', out_UsageSource o') = units (last_meter empty_meter events)) as (events & Hs & Hu).
  { revert H. unfold readStream. rewrite play_reports.
    destruct (apply_ops clock sink 0 [OpStart model (clock 0)] e) as [[x|] e1].
    - intros [= <- _ _]. exists []. by split; [constructor|].
    - apply play_events_measured. lia. }
  exists events. split; [done|]. split; [done|]. unfold units in Hu. cbn [seenAny final last_meter empty_meter orb] in Hu.
  assert (Hany : existsb reports_total events = true -> omap usage_of events <> []).
  { intros (event & Hin & Ht)%existsb_exists Hnil. unfold reports_total in Ht. bool_cases.
    apply list_elem_of_In in Hin. assert (exists u, usage_of event = Some u) as [u Hue].
    { unfold usage_of, is_event in *. bool_cases. destruct (ev_Usage event) as [u|] eqn:Eu; [|done].
      match goal with Ht : ev_Type event = _ |- _ => rewrite Ht end. by exists u. }
    assert (Hi : u ∈ omap usage_of events) by (apply list_elem_of_omap; eauto). by rewrite Hnil, elem_of_nil in Hi. }
  destruct (omap usage_of events) as [|u us]; cbn [negb] in Hu; injection Hu as _ ->.
  - split; [done|]. intros Ht. by destruct (Hany Ht).
  - by destruct (existsb reports_total events).
Qed.

End Facts.

(** ** Usage *)

Lemma nonNegative_spec n : nonNegative n = Z.max n 0.
Proof. unfold nonNegative. destruct (n <? 0)%Z eqn:E; bool_cases; lia. Qed.

Lemma last_stated_nonneg field events : (0 <= last_stated 0 field events)%Z.
Proof. unfold last_stated, latest. destruct (last _); [rewrite nonNegative_spec|]; lia. Qed.

(** What a Messages stream is billed as is a partition of what it
    consumed.  Nothing is billed when no event stated a usage; otherwise one
    request is, no unit twice and none negative, the cache reads as stated, the
    input as the uncached and the cache-creating tokens together, and the output
    and the reasoning as two parts of the stated output, when the thinking is
    within it. *)
Theorem totals_are_partitioned events :
  let stated field := last_stated 0 field events in
  let billed := (units (last_meter empty_meter events)).1 in
  let quantity unit_ := ChatStream.quantity_of unit_ billed in
  (omap usage_of events = [] -> billed = []) /\
  (omap usage_of events <> [] ->
     NoDup (Unit <$> billed) /\
     quantity UnitRequests = 1%Z /\
     quantity UnitCachedInputTokens = stated CacheReadInputTokens /\
     (stated InputTokens + stated CacheCreationInputTokens <= int64_max ->
        quantity UnitInputTokens = stated InputTokens + stated CacheCreationInputTokens)%Z /\
     (stated thinking_of <= stated OutputTokens <= int64_max ->
        quantity UnitOutputTokens + quantity UnitReasoningTokens = stated OutputTokens /\
        quantity UnitReasoningTokens = stated thinking_of)%Z).
Proof.
  cbn zeta. unfold units, last_meter. cbn [inputTokens cacheReadTokens cacheCreationTokens outputTokens thinkingTokens
    seenAny final empty_meter orb].
  pose proof (last_stated_nonneg InputTokens events). pose proof (last_stated_nonneg CacheReadInputTokens events).
  pose proof (last_stated_nonneg CacheCreationInputTokens events). pose proof (last_stated_nonneg OutputTokens events).
  pose proof (last_stated_nonneg thinking_of events).
  set (i := last_stated 0 InputTokens events) in *. set (c := last_stated 0 CacheReadInputTokens events) in *.
  set (w := last_stated 0 CacheCreationInputTokens events) in *. set (o := last_stated 0 OutputTokens events) in *.
  set (t := last_stated 0 thinking_of events) in *. clearbody i c w o t.
  destruct (omap usage_of events) as [|u us]; (split; [done|intros Hu]); [done|]. cbn [negb].
  assert (Hi : (i + w <= int64_max)%Z -> wrap64 (i + w) = (i + w)%Z).
  { intros Hb. apply wrap64_id. unfold in_int64, int64_min, int64_max in *. lia. }
  assert (Ho : (t <= o <= int64_max)%Z -> nonNegative (wrap64 (o - t)) = (o - t)%Z).
  { intros Hb. rewrite wrap64_id by (unfold in_int64, int64_min, int64_max in *; lia). rewrite nonNegative_spec. lia. }
  generalize dependent (wrap64 (i + w)). intros wi Hi. generalize dependent (nonNegative (wrap64 (o - t))). intros wo Ho.
  destruct (0 <? c)%Z eqn:Ec, (0 <? t)%Z eqn:Et; bool_cases; cbn [app fst];
    (split; [apply (bool_decide_unpack _); vm_compute; reflexivity|]);
    (split; [reflexivity|]); (split; [cbn; lia|]); (split; [intros Hb%Hi; cbn; lia|]); intros Hb; specialize (Ho Hb); cbn; lia.
Qed.

(** ** Classification *)

Definition known_types : list string :=
  [errorRateLimit; errorBilling; errorAuthentication; errorPermission; errorNotFound; errorRequestTooLarge;
   errorInvalidRequest; errorOverloaded; errorTimeout; errorAPI].

Definition refuses_key (type : string) : bool := (type =s errorAuthentication) || (type =s errorPermission).
Definition unknown (type : string) : bool := negb (isMember type known_types).

(** The response accuses the deployment of nothing the platform's own key did
    not cause: a timeout or a server error. *)
Definition breaks_down (type : string) (status : Z) : bool :=
  isMember type [errorTimeout; errorAPI; errorOverloaded]
  || unknown type && ((status =? 408)%Z || (500 <=? status)%Z).
Definition throttles (type : string) (status : Z) : bool :=
  (type =s errorRateLimit) || unknown type && (status =? 429)%Z.

(** Who a failure is laid to, given the status it came with and the wait it
    may carry. *)
Lemma failed_accuses (type : string) (status : option Z) (wait : Z) (owned : bool) :
  let err := CustomerCredentialFailure owned (failed type status wait) in
  let seen := default 0%Z status in
  (CredentialVerdictFor err = CredentialRejected <-> negb owned && refuses_key type = true) /\
  (CredentialVerdictFor err = CredentialExhausted <-> negb owned && (type =s errorBilling) = true) /\
  Throttled err = throttles type seen /\
  DeploymentAttributable err =
    breaks_down type seen || negb owned && (refuses_key type || (type =s errorBilling) || throttles type seen).
Proof.
  cbn zeta. unfold failed. set (seen := default 0%Z status). set (code := if type =s "" then None else Some type).
  clearbody seen code. unfold classify, refuses_key, throttles, breaks_down, unknown, known_types.
  repeat match goal with
  | |- context [type =s ?t] => destruct (String.eqb_spec type t) as [->|?];
      [destruct owned; vm_compute; (split; [split; (done || congruence)|split; [split; (done || congruence)|by split]])|]
  end.
  assert (isMember type [errorRateLimit; errorBilling; errorAuthentication; errorPermission; errorNotFound; errorRequestTooLarge;
    errorInvalidRequest; errorOverloaded; errorTimeout; errorAPI] = false) as ->.
  { apply isMember_false. rewrite !elem_of_cons, elem_of_nil. tauto. }
  assert (isMember type [errorTimeout; errorAPI; errorOverloaded] = false) as ->.
  { apply isMember_false. rewrite !elem_of_cons, elem_of_nil. tauto. }
  unfold classifyByStatus. cbn [negb andb orb].
  repeat match goal with
  | |- context [(seen =? ?n)%Z] => destruct (Z.eqb_spec seen n) as [->|?]
  end; cbn [andb orb negb Z.eqb Pos.eqb Z.leb Z.compare Pos.compare Pos.compare_cont];
    destruct owned; try destruct (500 <=? seen)%Z; try destruct (400 <=? seen)%Z;
    vm_compute; (split; [split; (done || congruence)|split; [split; (done || congruence)|by split]]).
Qed.

(** A failure of the Messages API is laid to the one at fault by the
    provider's own error type, whatever status it came with and also inside a
    stream, where there is none; only a type this build does not know is read
    by its status.  A platform key is judged rejected exactly by an
    authentication or permission error, spent exactly by a billing error; a
    customer's key leaves neither verdict.  A retry is asked to wait only for a
    failure that may be retried. *)
Theorem error_types_decide_who_is_accused response key :
  let type := ed_Type (parsed response) in
  let status := StatusCode response in
  let platform := negb (key_customerOwned key) in
  (forall err seen, (err, seen) = (Refuse response key, status) \/ (err, seen) = (midStreamFailure (parsed response) key, 0%Z) ->
     (CredentialVerdictFor err = CredentialRejected <-> platform && refuses_key type = true) /\
     (CredentialVerdictFor err = CredentialExhausted <-> platform && (type =s errorBilling) = true) /\
     Throttled err = throttles type seen /\
     DeploymentAttributable err =
       breaks_down type seen || platform && (refuses_key type || (type =s errorBilling) || throttles type seen)) /\
  (type ∈ known_types -> Code <$> AsUpstream (Refuse response key) = Code <$> AsUpstream (midStreamFailure (parsed response) key)) /\
  (forall failure, AsUpstream (Refuse response key) = Some failure -> RetryAfterMs failure <> 0%Z ->
     Retryable (Code failure) = true /\ RetryAfterMs failure = rf_RetryAfterMs response).
Proof.
  cbn zeta. split.
  { intros err seen [[= -> ->]|[= -> ->]]; [apply failed_accuses|].
    exact (failed_accuses (ed_Type (parsed response)) None 0 (key_customerOwned key)). }
  unfold Refuse, midStreamFailure, failed. split.
  - intros Hk. assert (forall status, classify (ed_Type (parsed response)) status = classify (ed_Type (parsed response)) 0%Z) as Hs.
    { intros status. unfold known_types in Hk. rewrite !elem_of_cons, elem_of_nil in Hk.
      destruct_or?; match goal with H : ed_Type _ = _ |- _ => rewrite H | H : False |- _ => destruct H end; reflexivity. }
    cbn [default id]. rewrite Hs. destruct (classify _ 0%Z) as [code category]. unfold CustomerCredentialFailure. cbn [Code].
    by repeat case_match.
  - cbn [default id]. destruct (classify _ (StatusCode response)) as [code category]. cbn [fst]. intros failure. unfold CustomerCredentialFailure. cbn [Code].
    assert (Hw : forall w f, AsUpstream (ErrUpstream (mkUpstream code category w f false)) = Some failure \/
      AsUpstream (ErrCustomerUpstream (mkUpstream code category w f false)) = Some failure -> Code failure = code /\ RetryAfterMs failure = w).
    { intros w f [[= <-]|[= <-]]; done. }
    set (w := if _ && _ then _ else _).
    assert (Hd : forall x, x = w -> x <> 0%Z -> Retryable code = true /\ x = rf_RetryAfterMs response).
    { intros x -> Hx. subst w. destruct (Retryable code && _) eqn:E; [|done]. bool_cases. done. }
    intros Hf Hne. assert (Code failure = code /\ RetryAfterMs failure = w) as [Hc Hr].
    { revert Hf. repeat case_match; intros Hf; try (eapply Hw; eauto; fail); done. }
    rewrite Hc. by apply Hd.
Qed.

(** A 401 whose body this build cannot read accuses nobody: no credential is
    retired and the next request spends the same key. *)
Example an_unreadable_401_keeps_the_key key :
  CredentialVerdictFor (Refuse (mkRefused 401 0 (mkDetail "" "")) key) = CredentialRequestFault.
Proof. unfold Refuse. cbn. unfold CustomerCredentialFailure. by destruct (negb (key_customerOwned key)). Qed.

(** ** An example *)

Definition block_event (type : string) (index : Z) (block : option contentBlock) (delta : option streamDelta) : streamEvent :=
  mkStreamEvent type None (Some index) block delta None None.

(** A thought, a text and a call told over interleaved blocks, the output count
    stated twice. *)
Definition example_events : list (string * streamEvent) :=
  [("a", mkStreamEvent eventMessageStart
           (Some (mkStreamMessage (Some (mkUsage (Some 10%Z) (Some 1%Z) (Some 3%Z) (Some 2%Z) None)))) None None None None None);
   ("b", block_event eventContentBlockStart 1 (Some (mkBlock blockToolUse None None (Some "call_1") (Some "f") "")) None);
   ("c", block_event eventContentBlockDelta 0 None (Some (mkDelta deltaThinking None (Some "hm") None None)));
   ("d", block_event eventContentBlockDelta 1 None (Some (mkDelta deltaInputJSON None None (Some "{") None)));
   ("e", block_event eventContentBlockDelta 0 None (Some (mkDelta deltaText (Some "hi") None None None)));
   ("f", block_event eventContentBlockDelta 1 None (Some (mkDelta deltaInputJSON None None (Some "}") None)));
   ("g", block_event eventContentBlockStop 1 None None);
   ("h", mkStreamEvent eventMessageDelta None None None (Some (mkDelta "" None None None (Some "tool_use")))
           (Some (mkUsage None (Some 9%Z) None None (Some (mkOutputDetails (Some 4%Z))))) None);
   ("z", mkStreamEvent eventMessageStop None None None None None None)].

Definition example_unmarshal (frame : string) : option streamEvent :=
  (fun found => found.2.2) <$> list_find (fun entry => entry.1 = frame) example_events.

Definition example_emitter : emitter := serving Slug "dep" (newEmitter example_request None 5).

Definition read_example (frames : list string) : AdapterOutcome * option GoError * emitter :=
  play ChatStream.takes_all (readStream ChatStream.example_clock example_unmarshal (fun _ => Opaque) None ChatStream.example_key
    "anthropic/m@1" (ChatStream.example_frames frames)) example_emitter.

Definition example_frames := ["a"; "b"; "c"; "ping"; "d"; "e"; "f"; "g"; "h"; "z"].
Definition example_final : emitter := (read_example example_frames).2.

Definition example_units : list UsageQuantity :=
  [mkQuantity UnitRequests 1; mkQuantity UnitInputTokens 12; mkQuantity UnitCachedInputTokens 3;
   mkQuantity UnitOutputTokens 5; mkQuantity UnitReasoningTokens 4].

Lemma message_plays :
  play ChatStream.takes_all (readStream ChatStream.example_clock example_unmarshal (fun _ => Opaque) None ChatStream.example_key
    "anthropic/m@1" (ChatStream.example_frames example_frames)) example_emitter =
  (set_finish FinishToolCalls (set_units example_units UsageProviderReported no_outcome), None, example_final).
Proof. vm_compute. reflexivity. Qed.

Lemma message_emitter_inv : emitter_inv (newUsageEstimate example_request) example_emitter.
Proof. apply serving_inv, new_inv. reflexivity. Qed.

Lemma message_is_told_whole_witness :
  ChatStream.heard_text ChannelReasoning 0 (events example_final) = "hm" /\
  ChatStream.heard_arguments "call_1" (events example_final) = "{}" /\
  exists evs d', events_read example_unmarshal (ChatStream.example_frames example_frames) evs d' /\
    forall id, ChatStream.heard_arguments id (events example_final) =
      ChatStream.heard_arguments id (events example_emitter) +:+ arguments_in id [] evs.
Proof.
  split; [vm_compute; reflexivity|]. split; [vm_compute; reflexivity|].
  destruct (message_is_told_whole ChatStream.takes_all ChatStream.example_clock example_unmarshal (fun _ => Opaque) None
    ChatStream.example_key (newUsageEstimate example_request) "anthropic/m@1" (ChatStream.example_frames example_frames)
    example_emitter _ example_final message_emitter_inv message_plays) as (evs & d' & Hr & _ & _ & _ & Ha & _).
  by exists evs, d'.
Defined.

Definition example_cut : list string := ["a"; "b"; "c"].

Lemma cut_splits {A B C} (r : A * B * C) : r = (r.1.1, r.1.2, r.2).
Proof. by destruct r as [[a b] c]. Qed.

(** Cut before the final count, the input is known and the output estimated. *)
Lemma broken_streams_keep_their_measure_witness :
  out_UsageSource (read_example example_cut).1.1 = UsageEstimated /\
  exists evs, events_seen example_unmarshal (ChatStream.example_frames example_cut) evs /\
    out_Units (read_example example_cut).1.1 = (units (last_meter empty_meter evs)).1.
Proof.
  split; [vm_compute; reflexivity|].
  destruct (broken_streams_keep_their_measure ChatStream.takes_all ChatStream.example_clock example_unmarshal (fun _ => Opaque) None
    ChatStream.example_key "anthropic/m@1" (ChatStream.example_frames example_cut) example_emitter
    (read_example example_cut).1.1 (read_example example_cut).1.2 (read_example example_cut).2
    (cut_splits _)) as (evs & Hs & Hu & _).
  exists evs. split; [exact Hs|]. by rewrite <-Hu.
Defined.

(** One whole response: blocks told at their index, the input of a call as one
    fragment. *)
Example a_whole_message_is_told :
  let complete := mkMessage [mkBlock blockThinking None (Some "hm") None None ""; mkBlock blockText (Some "hi") None None None "";
    mkBlock blockToolUse None None (Some "call_1") (Some "f") ""] (Some "end_turn") None in
  let '(o, err, e) := play ChatStream.takes_all
    (readComplete ChatStream.example_clock (fun _ => Some complete) "anthropic/m@1" (Some "body")) example_emitter in
  err = None /\ out_FinishReason o = FinishStop /\ out_Units o = [] /\
  ChatStream.heard_text ChannelReasoning 0 (events e) = "hm" /\ ChatStream.heard_text ChannelOutputText 1 (events e) = "hi" /\
  ChatStream.heard_arguments "call_1" (events e) = "{}".
Proof. vm_compute. repeat split. Qed.
