(* ===== verification/Anthropic.v ===== *)
(** * Messages requests (internal/provider/anthropic/adapter.go, parameters.go,
    wire.go)

    The Messages API body a request is translated to: instructions moved to the
    system prompt, tool results told as user content, the controls sent or
    refused; and the parameters a reviewed model accepts.  The encoded body is
    the record of its fields; decoding a tool call's arguments is the argument
    [Unmarshal]. *)

From S2P Require Import Prelude Ids Text Contract Request Provider Adapter Parameters Translated.
From S2P Require ChatTranslate.

(** ** The wire *)

(** [imageSource] and [documentSource]. *)
Record contentSource := mkContentSource { cs_Type : string; cs_MediaType : string; cs_Data : string; cs_URL : string }.

Definition object := list (string * Json).

Inductive blockParam :=
| textBlockParam (text : string)
| imageBlockParam (source : contentSource)
| documentBlockParam (source : contentSource) (title : option string)
| toolUseBlockParam (id name : string) (input : option object)   (* no input is [null] *)
| toolResultBlockParam (tool_use_id : string) (content : list blockParam).

Record messageParam := mkMessageParam { mp_Role : string; mp_Content : list blockParam }.

Record toolParam := mkToolParam { tp_Name : string; tp_Description : option string; tp_InputSchema : object }.
Record toolChoiceParam := mkToolChoiceParam { tc_Type : string; tc_Name : option string }.

Record messagesRequest := mkMessagesRequest {
  mr_Model : string;
  mr_Messages : list messageParam;
  mr_MaxTokens : Z;
  mr_Stream : bool;
  mr_System : list string;
  mr_Tools : list toolParam;
  mr_ToolChoice : option toolChoiceParam;
  mr_Effort : option string;
  mr_Temperature : option float64;
  mr_TopP : option float64;
  mr_TopK : option Z;
  mr_StopSequences : list string;
}.

(** ** Content *)

Definition sourceFor (source : option ContentSource) : Translated contentSource :=
  match source with
  | None => Panics
  | Some source =>
      if source_Kind source =s ContentSourceURL
      then Done (mkContentSource "url" "" "" (derefString (URL source)))
      else if source_Kind source =s ContentSourceInline
      then Done (mkContentSource "base64" (derefString (MediaType source)) (derefString (Request.Data source)) "")
      else unsupported CodeInvalidRequest ""
  end.

Definition translateContentPart (part : ContentPart) : Translated blockParam :=
  if part_Type part =s ContentPartText then Done (textBlockParam (derefString (part_Text part)))
  else if part_Type part =s ContentPartImage then source <~ sourceFor (part_Source part); Done (imageBlockParam source)
  else if part_Type part =s ContentPartFile then
    source <~ sourceFor (part_Source part); Done (documentBlockParam source (Filename part))
  else if part_Type part =s ContentPartAudio then unsupported CodeUnsupportedModality ""
  else unsupported CodeUnsupportedModality "".

Fixpoint translateParts (index : nat) (parts : list ContentPart) : Translated (list blockParam) :=
  match parts with
  | [] => Done []
  | part :: parts =>
      converted <~ annotate (index_path "content" index) (translateContentPart part);
      rest <~ translateParts (S index) parts;
      Done (converted :: rest)
  end.

Definition newline : string := String (ascii_of_nat 10) "".

(** The text parts, a line apart. *)
Fixpoint join_text (built : string) (parts : list ContentPart) : string :=
  match parts with
  | [] => built
  | part :: parts =>
      if part_Type part =s ContentPartText
      then join_text (built +:+ (if built =s "" then "" else newline) +:+ derefString (part_Text part)) parts
      else join_text built parts
  end.
Definition plainText (parts : list ContentPart) : string := join_text "" parts.

(** ** The conversation *)

Section Conversation.
(** What [json.Unmarshal] makes of a text asked for as an object: nothing when
    it is none, and no object for [null]. *)
Variable Unmarshal : string -> option (option object).

Definition translateToolCall (call : ToolCall) : Translated blockParam :=
  let trimmed := TrimSpace (Arguments_ call) in
  if trimmed =s "" then Done (toolUseBlockParam (call_ID call) (call_Name call) (Some []))
  else match Unmarshal trimmed with
  | None => unsupported CodeInvalidRequest "arguments"
  | Some input => Done (toolUseBlockParam (call_ID call) (call_Name call) input)
  end.

Fixpoint translate_calls (path : string) (index : nat) (calls : list ToolCall) : Translated (list blockParam) :=
  match calls with
  | [] => Done []
  | call :: calls =>
      translated <~ annotate (path +:+ "." +:+ index_path "toolCalls" index) (translateToolCall call);
      rest <~ translate_calls path (S index) calls;
      Done (translated :: rest)
  end.

(** One turn of the loop: what it adds to the system prompt and to the
    messages. *)
Definition translate_message (index : nat) (message : Message) : Translated (list string * list messageParam) :=
  let path := index_path "input.messages" index in
  if isMember (Role message) [RoleSystem; RoleDeveloper] then
    let text := plainText (Content message) in
    Done (if text =s "" then [] else [text], [])
  else if Role message =s RoleTool then
    content <~ annotate path (translateParts 0 (Content message));
    Done ([], [mkMessageParam "user" [toolResultBlockParam (derefString (ToolCallID message)) content]])
  else if isMember (Role message) [RoleUser; RoleAssistant] then
    content <~ annotate path (translateParts 0 (Content message));
    calls <~ translate_calls path 0 (default [] (ToolCalls message));
    Done ([], match content ++ calls with [] => [] | content => [mkMessageParam (Role message) content] end)
  else unsupported CodeInvalidRequest (path +:+ ".role").

Fixpoint conversation_loop (index : nat) (system : list string) (converted : list messageParam) (messages : list Message)
    : Translated (list string * list messageParam) :=
  match messages with
  | [] =>
      match converted with
      | [] => unsupported CodeInvalidRequest "input.messages"
      | _ => Done (system, converted)
      end
  | message :: messages =>
      told <~ translate_message index message;
      conversation_loop (S index) (system ++ told.1) (converted ++ told.2) messages
  end.

Definition translateConversation (messages : list Message) : Translated (list string * list messageParam) :=
  conversation_loop 0 [] [] messages.

(** ** The controls *)

Definition messagesControls : list string :=
  ["maxOutputTokens"; "reasoning.effort"; "sampling.stopSequences"; "sampling.temperature"; "sampling.topP";
   ParameterToolChoice; ParameterToolChoiceFunction; ParameterToolChoiceNone; ParameterToolChoiceRequired; "tools"].

Definition fixedSampling : list string := ["sampling.temperature"; "sampling.topP"].
Definition noForcedToolChoice : list string := [ParameterToolChoiceRequired; ParameterToolChoiceFunction].

Definition refusedByModel : list (string * list string) :=
  [("claude-fable-5-1", fixedSampling ++ noForcedToolChoice);
   ("claude-fable-5", fixedSampling);
   ("claude-opus-5-5", fixedSampling ++ noForcedToolChoice);
   ("claude-opus-5", fixedSampling);
   ("claude-opus-4-8", fixedSampling);
   ("claude-opus-4-7", fixedSampling);
   ("claude-opus-4-6", []);
   ("claude-opus-4-5-20251101", []);
   ("claude-sonnet-5-5", fixedSampling ++ noForcedToolChoice);
   ("claude-sonnet-5", fixedSampling);
   ("claude-sonnet-4-6", []);
   ("claude-haiku-5-5", fixedSampling);
   ("claude-haiku-4-5-20251001", [])].

(** [refusedByModel], looked up. *)
Definition refused_by (upstreamModelID : string) : option (list string) :=
  snd <$> List.find (fun entry => entry.1 =s upstreamModelID) refusedByModel.

Definition AcceptedParameters (upstreamModelID : string) : option (list string) :=
  refused ← refused_by upstreamModelID;
  Some (List.filter (fun p => negb (isMember p refused)) messagesControls).

Definition carriedParameters (request : Request) : list string :=
  let when (present : bool) (p : string) := if present then [p] else [] in
  let some {A} (v : option A) := bool_decide (is_Some v) in
  ["maxOutputTokens"]
  ++ when (some (Reasoning request)) "reasoning.effort"
  ++ when (negb (Nat.eqb (length (default [] (StopSequences (Sampling request)))) 0)) "sampling.stopSequences"
  ++ when (some (Temperature (Sampling request))) "sampling.temperature"
  ++ when (some (TopP (Sampling request))) "sampling.topP"
  ++ when (negb (Nat.eqb (length (Tools request)) 0)) "tools"
  ++ ToolChoiceParameters (request_ToolChoice request).

(** The route [refuseUnacceptedParameters] asks of a reviewed model. *)
Definition reviewed_route (accepted : list string) : Route := mkRoute "" "" "" "" [] (Some accepted) None None.

Definition refuseUnacceptedParameters (request : Request) (route : Route) : option GoError :=
  let carried := carriedParameters request in
  let reviewed :=
    match AcceptedParameters (r_UpstreamModelID route) with
    | Some accepted => UnacceptedParameter (reviewed_route accepted) carried
    | None => None
    end in
  match reviewed with
  | Some parameter => Some (ErrUnsupported CodeInvalidRequest (Field parameter))
  | None =>
      match UnacceptedParameter route carried with
      | Some parameter => Some (ErrUnsupported CodeInvalidRequest (Field parameter))
      | None => None
      end
  end.

(** ** The body *)

Definition empty_schema : object := [("properties", JObject []); ("type", JString "object")].

Definition wire_tool (tool : ToolDefinition) : toolParam :=
  mkToolParam (tool_Name tool) (Description tool) (default empty_schema (Parameters_ tool)).

Definition translateToolChoice (choice : ToolChoice) : Translated toolChoiceParam :=
  match choice_Function choice, choice_Mode choice with
  | Some name, _ => Done (mkToolChoiceParam "tool" (Some name))
  | None, None => unsupported CodeInvalidRequest "toolChoice"
  | None, Some mode =>
      if mode =s ToolChoiceAuto then Done (mkToolChoiceParam "auto" None)
      else if mode =s ToolChoiceNone then Done (mkToolChoiceParam "none" None)
      else if mode =s ToolChoiceRequired then Done (mkToolChoiceParam "any" None)
      else unsupported CodeInvalidRequest "toolChoice"
  end.

Definition wire_tool_choice (choice : option ToolChoice) : Translated (option toolChoiceParam) :=
  match choice with
  | None => Done None
  | Some choice => translated <~ translateToolChoice choice; Done (Some translated)
  end.

(** The controls this protocol has no field for, in the order they are
    refused. *)
Definition inexpressible (request : Request) : option string :=
  let some {A} (v : option A) := bool_decide (is_Some v) in
  if some (FrequencyPenalty (Sampling request)) then Some "sampling.frequencyPenalty"
  else if some (PresencePenalty (Sampling request)) then Some "sampling.presencePenalty"
  else if some (Seed (Sampling request)) then Some "sampling.seed"
  else match request_ResponseFormat request with
  | Some format => if format_Type format =s "text" then None else Some "responseFormat.type"
  | None => None
  end.

(** A translated call: where it is sent, its body, and the framing asked of
    the upstream. *)
Record MessagesCall := mkMessagesCall { mc_URL : string; mc_Body : messagesRequest; mc_Stream : bool }.

(** [Adapter.Translate]. *)
Definition Translate (baseURL : string) (request : Request) (route : Route) : Translated MessagesCall :=
  if negb (Modality request =s ModalityText) then unsupported CodeUnsupportedModality "modality"
  else if negb (Format (request_Input request) =s InputMessages) then unsupported CodeUnsupportedModality "input.format"
  else match MaxOutputTokens request with
  | None => unsupported CodeInvalidRequest "maxOutputTokens"
  | Some maximum =>
      conversation <~ translateConversation (default [] (Messages (request_Input request)));
      match inexpressible request with
      | Some parameter => unsupported CodeInvalidRequest parameter
      | None =>
          match refuseUnacceptedParameters request route with
          | Some err => Fails err
          | None =>
              choice <~ wire_tool_choice (request_ToolChoice request);
              let sampling := Sampling request in
              if negb (finite (Temperature sampling) && finite (TopP sampling)) then Fails (Wrapped Opaque)
              else
                Done (mkMessagesCall (baseURL +:+ "/messages")
                  (mkMessagesRequest (r_UpstreamModelID route) conversation.2 maximum (Stream request) conversation.1
                     (wire_tool <$> Tools request) choice (Reasoning request) (Temperature sampling) (TopP sampling)
                     (TopK sampling) (default [] (StopSequences sampling)))
                  (Stream request))
          end
      end
  end.

End Conversation.

(** ** The conversation, as a reference reads it *)

Section Reference.
Variable Unmarshal : string -> option (option object).

Definition is_instruction (m : Message) : bool := isMember (Role m) [RoleSystem; RoleDeveloper].

(** What a message that is no instruction is told as. *)
Definition turn (m : Message) : option (list messageParam) :=
  let parts := mapM (fun part => done_of (translateContentPart part)) (Content m) in
  if Role m =s RoleTool then
    content ← parts; Some [mkMessageParam RoleUser [toolResultBlockParam (derefString (ToolCallID m)) content]]
  else if isMember (Role m) [RoleUser; RoleAssistant] then
    content ← parts;
    calls ← mapM (fun call => done_of (translateToolCall Unmarshal call)) (default [] (ToolCalls m));
    Some (match content ++ calls with [] => [] | content => [mkMessageParam (Role m) content] end)
  else None.

(** The texts of the instructions, wherever they were. *)
Definition system_of (conversation : list Message) : list string :=
  List.filter (fun text => negb (text =s "")) ((fun m => plainText (Content m)) <$> List.filter is_instruction conversation).

Definition turns_of (conversation : list Message) : option (list messageParam) :=
  @concat _ <$> mapM turn (List.filter (fun m => negb (is_instruction m)) conversation).

Lemma translateParts_done index parts :
  done_of (translateParts index parts) = mapM (fun part => done_of (translateContentPart part)) parts.
Proof.
  revert index. induction parts as [|part parts IH]; intros index; [done|]. cbn [translateParts mapM].
  rewrite done_of_bind, done_of_annotate. destruct (done_of (translateContentPart part)) as [w|]; [|done]. cbn.
  rewrite done_of_bind, IH. by destruct (mapM _ parts).
Qed.

Lemma translate_calls_done path index calls :
  done_of (translate_calls Unmarshal path index calls) = mapM (fun call => done_of (translateToolCall Unmarshal call)) calls.
Proof.
  revert index. induction calls as [|call calls IH]; intros index; [done|]. cbn [translate_calls mapM].
  rewrite done_of_bind, done_of_annotate. destruct (done_of (translateToolCall Unmarshal call)) as [w|]; [|done]. cbn.
  rewrite done_of_bind, IH. by destruct (mapM _ calls).
Qed.

Lemma translate_message_done index m :
  done_of (translate_message Unmarshal index m) =
  if is_instruction m then Some (system_of [m], []) else told ← turn m; Some ([], told).
Proof.
  unfold translate_message, turn. change (isMember (Role m) [RoleSystem; RoleDeveloper]) with (is_instruction m).
  destruct (is_instruction m) eqn:Ei.
  { unfold system_of. cbn [List.filter]. rewrite Ei. cbn [fmap list_fmap List.filter done_of].
    by destruct (plainText (Content m) =s ""). }
  destruct (Role m =s RoleTool).
  - rewrite done_of_bind, done_of_annotate, translateParts_done. by destruct (mapM _ (Content m)).
  - destruct (isMember (Role m) [RoleUser; RoleAssistant]); [|done].
    rewrite done_of_bind, done_of_annotate, translateParts_done. destruct (mapM _ (Content m)) as [content|]; [|done]. cbn.
    rewrite done_of_bind, translate_calls_done. by destruct (mapM _ (default [] (ToolCalls m))).
Qed.

Lemma system_of_cons m conversation : system_of (m :: conversation) = system_of [m] ++ system_of conversation.
Proof.
  unfold system_of. cbn [List.filter]. destruct (is_instruction m); [|done]. cbn [fmap list_fmap List.filter].
  by destruct (negb (plainText (Content m) =s "")).
Qed.

Lemma messages_loop_done index system converted conversation :
  done_of (conversation_loop Unmarshal index system converted conversation) =
  told ← turns_of conversation;
  if Nat.eqb (length (converted ++ told)) 0 then None else Some (system ++ system_of conversation, converted ++ told).
Proof.
  revert index system converted. induction conversation as [|m conversation IH]; intros index system converted.
  { cbn. rewrite !app_nil_r. by destruct converted. }
  cbn [conversation_loop]. rewrite done_of_bind, translate_message_done, (system_of_cons m conversation).
  unfold turns_of. cbn [List.filter]. destruct (is_instruction m) eqn:Ei; cbn [negb mbind option_bind].
  - rewrite IH, app_nil_r, <-app_assoc. done.
  - assert (system_of [m] = []) as -> by (unfold system_of; cbn [List.filter]; by rewrite Ei).
    cbn [mapM]. destruct (turn m) as [told|]; [|done]. cbn [mbind option_bind fst snd]. rewrite IH, app_nil_r. unfold turns_of.
    destruct (mapM turn _) as [rest|]; [|done]. cbn. by rewrite app_assoc.
Qed.

(** The Messages API reads the conversation the caller wrote: its
    translation succeeds exactly when every message that is no instruction can
    be told and some message is left, and is then those messages in order - a
    tool's result as user content under its call's id, a message with nothing in
    it left out - with the text of every instruction, in order, in the system
    prompt. *)
Theorem instructions_become_the_system_prompt conversation :
  done_of (translateConversation Unmarshal conversation) =
  told ← turns_of conversation; if Nat.eqb (length told) 0 then None else Some (system_of conversation, told).
Proof. apply messages_loop_done. Qed.

(** *** Valid conversations are answered *)

Lemma sourceFor_answered source : answered (sourceFor (Some source)).
Proof. unfold sourceFor. repeat case_match; try done. apply answered_unsupported. Qed.

Lemma block_answered part : ContentPart_validate part = None -> answered (translateContentPart part).
Proof.
  unfold ContentPart_validate, translateContentPart. intros Hv.
  destruct (part_Type part =s ContentPartText); [done|]. cbn [orb] in Hv.
  destruct (part_Type part =s ContentPartRefusal) eqn:Er; bool_cases.
  { rewrite Er. apply answered_unsupported. }
  destruct (part_Source part) as [source|].
  - repeat case_match; try apply answered_unsupported; apply answered_bind; auto using sourceFor_answered; done.
  - repeat case_match; try done. all: try apply answered_unsupported.
Qed.

Lemma blocks_answered index parts :
  Forall (fun part => ContentPart_validate part = None) parts -> answered (translateParts index parts).
Proof.
  intros H. revert index. induction H as [|part parts Hp _ IH]; intros index; [done|]. cbn [translateParts].
  apply answered_bind; [by eapply refused_answered, annotate_refused, block_answered|]. intros w _.
  apply answered_bind; [apply IH|done].
Qed.

Lemma calls_refused path index calls : refused_at path (translate_calls Unmarshal path index calls).
Proof.
  revert index. induction calls as [|call calls IH]; intros index; [done|]. cbn [translate_calls].
  apply refused_bind; [|intros w _; apply refused_bind; [apply IH|done]].
  apply refused_weaken with ("." +:+ index_path "toolCalls" index), annotate_refused.
  unfold translateToolCall. repeat case_match; try done. apply answered_unsupported.
Qed.

Lemma message_refused index m :
  Message_validate m = None -> refused_at "input.messages" (translate_message Unmarshal index m).
Proof.
  intros Hv. pose proof (message_parts_valid m Hv) as Hp. unfold translate_message.
  assert (Hpath : forall A (x : Translated A), refused_at (index_path "input.messages" index) x -> refused_at "input.messages" x).
  { intros A x. exact (refused_weaken "input.messages" ("[" +:+ Itoa (Z.of_nat index) +:+ "]") x). }
  destruct (isMember (Role m) [RoleSystem; RoleDeveloper]); [done|].
  destruct (Role m =s RoleTool).
  { apply refused_bind; [by apply Hpath, annotate_refused, blocks_answered|done]. }
  destruct (isMember (Role m) [RoleUser; RoleAssistant]).
  - apply refused_bind; [by apply Hpath, annotate_refused, blocks_answered|]. intros content _.
    apply refused_bind; [apply Hpath, calls_refused|done].
  - eexists _, _. split; [done|]. exact (HasPrefix_app "input.messages" _).
Qed.

(** A conversation the contract accepts is told, or refused naming the message
    at fault; nothing panics. *)
Theorem valid_messages_are_answered conversation :
  Forall (fun m => Message_validate m = None) conversation ->
  refused_at "input.messages" (translateConversation Unmarshal conversation).
Proof.
  intros H. unfold translateConversation. generalize 0%nat, (@nil string), (@nil messageParam).
  induction H as [|m conversation Hm _ IH]; intros index system converted; cbn [conversation_loop].
  - destruct converted; [|done]. by eexists _, _.
  - apply refused_bind; [by apply message_refused|]. intros told _. apply IH.
Qed.

End Reference.

(** ** The controls *)

(** The controls an encoded body carries: the fields its encoding does not
    omit, and [auto] is what no choice means. *)
Definition sent_controls (body : messagesRequest) : list string :=
  let when (present : bool) (p : string) := if present then [p] else [] in
  let some {A} (v : option A) := bool_decide (is_Some v) in
  ["maxOutputTokens"]
  ++ when (some (mr_Effort body)) "reasoning.effort"
  ++ when (negb (Nat.eqb (length (mr_StopSequences body)) 0)) "sampling.stopSequences"
  ++ when (some (mr_Temperature body)) "sampling.temperature"
  ++ when (some (mr_TopP body)) "sampling.topP"
  ++ when (negb (Nat.eqb (length (mr_Tools body)) 0)) "tools"
  ++ match mr_ToolChoice body with
     | None => []
     | Some choice =>
         if tc_Type choice =s "tool" then [ParameterToolChoice; ParameterToolChoiceFunction]
         else if tc_Type choice =s "any" then [ParameterToolChoice; ParameterToolChoiceRequired]
         else if tc_Type choice =s "none" then [ParameterToolChoice; ParameterToolChoiceNone]
         else []
     end.

Lemma choice_sent choice wire :
  wire_tool_choice choice = Done wire ->
  match wire with
  | None => []
  | Some choice =>
      if tc_Type choice =s "tool" then [ParameterToolChoice; ParameterToolChoiceFunction]
      else if tc_Type choice =s "any" then [ParameterToolChoice; ParameterToolChoiceRequired]
      else if tc_Type choice =s "none" then [ParameterToolChoice; ParameterToolChoiceNone]
      else []
  end = ToolChoiceParameters choice.
Proof.
  destruct choice as [[mode fn]|]; cbn; [|by intros [= <-]]. unfold translateToolChoice. cbn [choice_Mode choice_Function].
  destruct fn as [name|]; [by intros [= <-]|]. destruct mode as [mode|]; [|done].
  destruct (mode =s ToolChoiceAuto); [by intros [= <-]|]. destruct (mode =s ToolChoiceNone); [by intros [= <-]|].
  destruct (mode =s ToolChoiceRequired); [by intros [= <-]|done].
Qed.

(** What a caller states of a request this protocol expresses is what it is
    asked to carry. *)
Lemma stated_carried request p :
  inexpressible request = None -> p ∈ ChatTranslate.stated_controls request -> p ∈ carriedParameters request.
Proof.
  unfold inexpressible, ChatTranslate.stated_controls, carriedParameters.
  destruct (FrequencyPenalty (Sampling request)); [done|]. destruct (PresencePenalty (Sampling request)); [done|].
  destruct (Seed (Sampling request)); [done|].
  assert (Hf : match request_ResponseFormat request with
    | Some format => if format_Type format =s "text" then None else Some "responseFormat.type" | None => None end = None ->
    match request_ResponseFormat request with
    | Some format => if negb (format_Type format =s ChatTranslate.ResponseFormatText) then ["responseFormat"] else []
    | None => [] end = []).
  { destruct (request_ResponseFormat request) as [format|]; [|done]. unfold ChatTranslate.ResponseFormatText. by case_match. }
  cbn [bool_decide]. intros H. cbn zeta. rewrite Hf by (cbn in H; done). cbn [app].
  rewrite !elem_of_app. clear. generalize (ToolChoiceParameters (request_ToolChoice request)). intros choice H.
  cbn in H. assert (Hn : p ∉ ([] : list string)) by apply not_elem_of_nil.
  assert (Hm : p ∈ (if bool_decide (is_Some (MaxOutputTokens request)) then ["maxOutputTokens"] else []) ->
    p = "maxOutputTokens") by (case_bool_decide; [apply list_elem_of_singleton|done]).
  rewrite elem_of_cons, !elem_of_app. tauto.
Qed.

(** An unrefused parameter of the vocabulary is accepted. *)
Lemma unrefused route carried stated p :
  UnacceptedParameter route carried = None -> r_AcceptedParameters route = Some stated ->
  p ∈ carried -> isMember p RequestParameters = true -> accepts stated p = true.
Proof.
  unfold UnacceptedParameter. intros H Hs Hp Hk. rewrite Hs in H.
  pose proof (List.find_none _ _ H p) as Hn. cbv beta in Hn.
  rewrite canonical_member, (proj2 (isMember_spec p _) Hp) in Hn.
  rewrite isMember_spec in Hk. specialize (Hn (proj1 (list_elem_of_In _ _) Hk)). by destruct (accepts stated p).
Qed.

(** A reviewed statement accepts what it lists, and nothing else. *)
Lemma reviewed_accepts model accepted p :
  AcceptedParameters model = Some accepted -> accepts accepted p = isMember p accepted.
Proof.
  unfold AcceptedParameters, refused_by. destruct (List.find _ refusedByModel) as [[name refused]|] eqn:Ef; [|done].
  apply List.find_some in Ef as [Hin _]. intros [= <-]. revert p. 
  assert (forall entry, In entry refusedByModel -> forall p,
    accepts (List.filter (fun q => negb (isMember q entry.2)) messagesControls) p =
    isMember p (List.filter (fun q => negb (isMember q entry.2)) messagesControls)) as H; [|exact (H _ Hin)].
  clear. intros entry Hin p.
  set (accepted := List.filter _ messagesControls).
  assert (Hall : forallb (fun q => eqb (present_in accepted q) (isMember q accepted)) RequestParameters = true /\
    forallb (fun q => isMember q RequestParameters) accepted = true).
  { subst accepted. revert entry Hin. apply List.Forall_forall. unfold refusedByModel.
    repeat (apply List.Forall_cons; [vm_compute; by split|]). apply List.Forall_nil. }
  destruct Hall as [H1 H2]. rewrite forallb_forall in H1, H2. unfold accepts.
  destruct (isMember p RequestParameters) eqn:Ep; cbn [andb].
  - apply isMember_spec, list_elem_of_In, H1 in Ep. by apply eqb_prop.
  - destruct (isMember p accepted) eqn:Ea; [|done]. apply isMember_spec, list_elem_of_In, H2 in Ea. congruence.
Qed.

Lemma carried_known request p : p ∈ carriedParameters request -> isMember p RequestParameters = true.
Proof.
  unfold carriedParameters. rewrite !elem_of_app.
  assert (Hw : forall (b : bool) q, p ∈ (if b then [q] else []) -> p = q).
  { intros b q. destruct b; [apply list_elem_of_singleton|]. intros H. by apply not_elem_of_nil in H. }
  intros H. repeat match type of H with _ \/ _ => destruct H as [H|H] end; try (apply Hw in H; by subst).
  - apply list_elem_of_singleton in H. by subst.
  - revert H. destruct (request_ToolChoice request) as [[mode fn]|]; cbn; [|intros H; by apply not_elem_of_nil in H].
    destruct fn; [|destruct mode]; repeat case_match; intros Hin;
      repeat (apply elem_of_cons in Hin as [->|Hin]; [done|]); by apply not_elem_of_nil in Hin.
Qed.

Lemma unaccepted_none route carried stated :
  r_AcceptedParameters route = Some stated ->
  (UnacceptedParameter route carried = None <->
   forall p, p ∈ carried -> isMember p RequestParameters = true -> accepts stated p = true).
Proof.
  intros Hs. split; [intros H p; by apply unrefused with route|].
  intros H. unfold UnacceptedParameter. rewrite Hs. destruct (List.find _ RequestParameters) as [p|] eqn:Ef; [|done].
  apply List.find_some in Ef as [Hin Hp]. apply andb_true_iff in Hp as [Hc Hn].
  rewrite canonical_member in Hn. apply isMember_spec in Hc. rewrite (H p Hc) in Hn; [done|].
  by apply isMember_spec, list_elem_of_In.
Qed.

(** The catalogue and the request path agree: a route that publishes a reviewed
    model's statement refuses a request exactly when it carries a control the
    statement leaves out. *)
Theorem reviewed_models_refuse_what_is_left_out request route accepted :
  AcceptedParameters (r_UpstreamModelID route) = Some accepted -> r_AcceptedParameters route = Some accepted ->
  refuseUnacceptedParameters request route = None <-> Forall (fun p => p ∈ accepted) (carriedParameters request).
Proof.
  intros Ha Hr. unfold refuseUnacceptedParameters. rewrite Ha, Forall_forall.
  assert (Hiff : forall r, r_AcceptedParameters r = Some accepted ->
    UnacceptedParameter r (carriedParameters request) = None <-> forall p, p ∈ carriedParameters request -> p ∈ accepted).
  { intros r Hs. rewrite (unaccepted_none r _ _ Hs). split.
    - intros H p Hp. apply isMember_spec. rewrite <-(reviewed_accepts _ _ _ Ha). apply H; [done|by eapply carried_known].
    - intros H p Hp _. rewrite (reviewed_accepts _ _ _ Ha). apply isMember_spec. auto. }
  rewrite <-(Hiff (reviewed_route accepted) eq_refl).
  destruct (UnacceptedParameter (reviewed_route accepted) (carriedParameters request)) eqn:E1; [done|].
  assert (UnacceptedParameter route (carriedParameters request) = None) as -> by (apply Hiff; [done|by apply (Hiff (reviewed_route accepted))]).
  done.
Qed.

(** No control of a request is dropped on its way to the Messages API: a
    call that is built carries every control the caller stated with the caller's
    value, none of them refused by the model's reviewed statement or by the
    route's published one; it always states a token limit, which is the
    caller's; and penalties, seeds and structured formats, which the protocol
    lacks, were not asked for. *)
Theorem messages_controls_are_sent Unmarshal baseURL request route call :
  Translate Unmarshal baseURL request route = Done call ->
  let body := mc_Body call in
  (forall p, p ∈ ChatTranslate.stated_controls request ->
     p ∈ sent_controls body /\
     (forall accepted, AcceptedParameters (r_UpstreamModelID route) = Some accepted -> p ∈ accepted) /\
     (forall stated, r_AcceptedParameters route = Some stated -> accepts stated p = true)) /\
  Some (mr_MaxTokens body) = MaxOutputTokens request /\ mr_Effort body = Reasoning request /\
  mkSampling (mr_Temperature body) (mr_TopP body) (mr_TopK body) None None None (StopSequences (Sampling request))
    = Sampling request /\
  mr_StopSequences body = default [] (StopSequences (Sampling request)) /\
  mr_Tools body = wire_tool <$> Tools request /\ mr_Model body = r_UpstreamModelID route /\
  mr_Stream body = Stream request /\
  Some (mr_System body, mr_Messages body) =
    done_of (translateConversation Unmarshal (default [] (Messages (request_Input request)))).
Proof.
  unfold Translate. destruct (negb (Modality request =s _)); [done|]. destruct (negb (Format _ =s _)); [done|].
  destruct (MaxOutputTokens request) as [maximum|] eqn:Em; [|done].
  intros ([system messages] & Hc & H)%translate_bind_Done.
  destruct (inexpressible request) eqn:Ei; [done|]. destruct (refuseUnacceptedParameters request route) eqn:Er; [done|].
  apply translate_bind_Done in H as (choice & Hch & H). cbn zeta in H. destruct (negb _); [done|].
  injection H as <-. cbn zeta.
  set (body := mc_Body _).
  assert (Hsent : sent_controls body = carriedParameters request).
  { unfold sent_controls, carriedParameters, body.
    cbn [mc_Body mr_Effort mr_StopSequences mr_Temperature mr_TopP mr_Tools mr_ToolChoice].
    by rewrite length_fmap, (choice_sent _ _ Hch). }
  split.
  { intros p Hp. rewrite Hsent. pose proof (stated_carried _ _ Ei Hp) as Hcarried. pose proof (carried_known _ _ Hcarried) as Hk.
    split; [done|]. unfold refuseUnacceptedParameters in Er. split.
    - intros accepted Ha. rewrite Ha in Er.
      destruct (UnacceptedParameter (reviewed_route accepted) _) eqn:Eu; [done|].
      apply isMember_spec. rewrite <-(reviewed_accepts _ _ _ Ha). by apply (unrefused _ _ _ _ Eu).
    - intros stated Hs. destruct (match AcceptedParameters _ with Some _ => _ | None => _ end); [done|].
      destruct (UnacceptedParameter route _) eqn:Eu; [done|]. by apply (unrefused _ _ _ _ Eu). }
  unfold body. cbn. split_and!; try done; [|by rewrite Hc].
  unfold inexpressible in Ei. destruct (Sampling request) as [te tp tk fp pp sd st]. cbn in *.
  destruct fp, pp, sd; by cbn in *.
Qed.

(** ** What is dropped or let through *)

(** An image in an instruction is dropped: the call is built without it. *)
Example instruction_images_are_dropped Unmarshal image :
  part_Type image = ContentPartImage ->
  translateConversation Unmarshal
    [mkMessage RoleSystem [image] None None None;
     mkMessage RoleUser [mkPart ContentPartText (Some "hi") None None None] None None None] =
  Done ([], [mkMessageParam RoleUser [textBlockParam "hi"]]).
Proof.
  intros H. unfold translateConversation. cbn [conversation_loop]. unfold translate_message at 1, plainText. cbn [Role Content join_text].
  rewrite H. reflexivity.
Qed.

(** Arguments that are the text [null], which is no object, pass the check for
    one, and the call's input is sent as [null]. *)
Example null_arguments_are_sent :
  translateToolCall (fun text => if text =s "null" then Some None else None) (Request.mkToolCall "call_1" "f" " null ") =
  Done (toolUseBlockParam "call_1" "f" None).
Proof. reflexivity. Qed.

Definition example_request (topK : option Z) : Request :=
  mkRequest None None None 1 (request_Attribution Request.example_request) (Target Request.example_request) ModalityText
    (mkInput None InputMessages
       (Some [mkMessage RoleSystem [mkPart ContentPartText (Some "be brief") None None None] None None None;
              mkMessage RoleUser [mkPart ContentPartText (Some "look") None None None] None None None;
              mkMessage RoleAssistant [] None None (Some [Request.mkToolCall "call_1" "f" ""]);
              mkMessage RoleTool [mkPart ContentPartText (Some "taken") None None None] None (Some "call_1") None;
              mkMessage RoleDeveloper [mkPart ContentPartText (Some "be kind") None None None] None None None])
       None None)
    true (Some 64%Z) (mkSampling None None topK None None None None) (Some "low")
    [mkTool "function" "f" None None None] (Some (mkToolChoice (Some ToolChoiceNone) None)) None
    APIFormatChatCompletions [].

Definition example_route : Route :=
  mkRoute "dep" "anthropic" "anthropic/m@1" "claude-opus-5-5" []
    (AcceptedParameters "claude-opus-5-5") None None.

Definition no_decoder (text : string) : option (option object) := None.

Definition example_call : MessagesCall :=
  match Translate no_decoder "https://api.anthropic.com/v1" (example_request (Some 40%Z)) example_route with
  | Done call => call
  | _ => mkMessagesCall "" (mkMessagesRequest "" [] 0 false [] [] None None None None None []) false
  end.

(** The request states a top_k, which the reviewed statements cite the model's
    documentation as refusing with the rest of its fixed sampling; it is sent. *)
Example a_refused_top_k_is_sent :
  mr_TopK (mc_Body example_call) = Some 40%Z /\ mr_Model (mc_Body example_call) = "claude-opus-5-5" /\
  refused_by "claude-opus-5-5" = Some (fixedSampling ++ noForcedToolChoice).
Proof. vm_compute. repeat split. Qed.

Example example_split :
  mr_System (mc_Body example_call) = ["be brief"; "be kind"] /\
  mr_Messages (mc_Body example_call) =
  [ mkMessageParam RoleUser [textBlockParam "look"];
    mkMessageParam RoleAssistant [toolUseBlockParam "call_1" "f" (Some [])];
    mkMessageParam RoleUser [toolResultBlockParam "call_1" [textBlockParam "taken"]] ].
Proof. vm_compute. repeat split. Qed.

Lemma example_translates :
  Translate no_decoder "https://api.anthropic.com/v1" (example_request (Some 40%Z)) example_route = Done example_call.
Proof. vm_compute. reflexivity. Qed.

Lemma messages_controls_are_sent_witness :
  sent_controls (mc_Body example_call) = ["maxOutputTokens"; "reasoning.effort"; "tools"; "toolChoice"; "toolChoice.none"] /\
  "toolChoice.none" ∈ sent_controls (mc_Body example_call).
Proof.
  split; [vm_compute; reflexivity|].
  destruct (messages_controls_are_sent no_decoder "https://api.anthropic.com/v1" (example_request (Some 40%Z)) example_route
    example_call example_translates) as [H _].
  refine (proj1 (H _ _)). apply isMember_spec. vm_compute. reflexivity.
Defined.
