(* ===== verification/Withholding.v ===== *)
(** * Withholding deployments from publication (internal/publisher/withholding.go)

    Which discovered deployments the publisher leaves out: the ones no key they
    may execute on can serve now, by what Kaana already knows of the keys and of
    the deployment's own attempts.  A decision is taken from one cycle's
    evidence, the policy and the time. *)

From S2P Require Import Prelude Ids Contract Provider.

(** ** Policy *)

Definition WithheldKeyRetired := "key_retired".
Definition WithheldNoUsableKey := "no_usable_key".
Definition WithheldCapacityExhausted := "capacity_exhausted".
Definition WithheldCredentialRefused := "credential_refused".
Definition WithheldDeploymentFailing := "deployment_failing".

Record Withholding := mkWithholding { wh_Reason : string; wh_KeyID : string; Until : Instant; wh_Failures : Z }.

Definition DefaultWithholdFailures : Z := 5.
Definition DefaultWithholdFailureSpan : Duration := 10 * Minute.
Definition DefaultWithholdMinQuarantine : Duration := 30 * Minute.
Definition DefaultWithholdMaxQuarantine : Duration := 6 * Hour.
Definition DefaultWithholdLookback : Duration := 24 * Hour.
Definition MaxWithholdLookback : Duration := 7 * 24 * Hour.

Record WithholdPolicy := mkWithholdPolicy {
  Failures : Z;
  FailureSpan : Duration;
  MinQuarantine : Duration;
  MaxQuarantine : Duration;
  Lookback : Duration;
  ReportOnly : bool;
}.

Definition DefaultWithholdPolicy : WithholdPolicy :=
  mkWithholdPolicy DefaultWithholdFailures DefaultWithholdFailureSpan DefaultWithholdMinQuarantine
    DefaultWithholdMaxQuarantine DefaultWithholdLookback false.

Definition WithholdPolicy_Validate (p : WithholdPolicy) : option string :=
  refuse_if (Failures p <? 1)%Z "would withhold deployments that never failed" ;;
  refuse_if (FailureSpan p <? 0)%Z "a withholding failure span cannot be negative" ;;
  refuse_if (MinQuarantine p <=? 0)%Z "a withholding quarantine has to be positive" ;;
  refuse_if (MaxQuarantine p <? MinQuarantine p)%Z "the maximum quarantine is shorter than the minimum" ;;
  refuse_if (Lookback p <=? MaxQuarantine p)%Z "a lookback must exceed the maximum quarantine" ;;
  refuse_if (MaxWithholdLookback <? Lookback p)%Z "a lookback exceeds what the database will read".

Definition quarantine (p : WithholdPolicy) (span : Duration) : Duration :=
  Z.min (Z.max span (MinQuarantine p)) (MaxQuarantine p).

(** ** Evidence *)

Record CapacityEvidence := mkCapacity {
  Kind : string;
  Window : string;
  ce_ObservedAt : Instant;
  FreshUntil : Instant;
  Empty : bool;
  ce_ExpiresAt : Instant;
}.

Record KeyEvidence := mkKeyEvidence {
  ke_KeyID : string;
  Retirement : string;
  RetiredUntil : Instant;
  Capacity : list CapacityEvidence;
}.

Record KeyBinding := mkKeyBinding { kb_Provider : string; kb_KeyID : string }.

Record FailureStreak := mkFailureStreak {
  fs_DeploymentID : string;
  fs_Provider : string;
  fs_KeyID : string;
  fs_Code : string;
  fs_Count : Z;
  First : Instant;
  Last : Instant;
}.

Record Evidence := mkEvidence {
  Keys : gmap string (list KeyEvidence);
  Bindings : gmap string KeyBinding;
  ev_Failures : list FailureStreak;
}.

Inductive failureClass := failureIgnored | failureCredential | failureDeployment.

Definition classifyFailure (code : string) : failureClass :=
  if isMember code [CodeProviderBillingRefused; CodeProviderCredentialInvalid] then failureCredential
  else if isMember code [CodeModelNotFound; CodePermissionDenied; CodeProviderError] then failureDeployment
  else failureIgnored.

(** *** Keys *)

Definition retired (now : Instant) (k : KeyEvidence) : bool :=
  negb (Retirement k =s "") && Before now (RetiredUntil k).

Definition fresh (now : Instant) (c : CapacityEvidence) : bool :=
  negb (IsZero (FreshUntil c)) && Before now (FreshUntil c).

Definition exhaustingQuotaWindow (window : string) : bool := isMember window ["day"; "month"; "lifetime"].

(** Whether fresh evidence says the key has nothing left. *)
Definition empties (now : Instant) (c : CapacityEvidence) : bool :=
  if Kind c =s "balance" then Empty c
  else if Kind c =s "quota" then Empty c && exhaustingQuotaWindow (Window c)
  else if Kind c =s "expiry" then negb (IsZero (ce_ExpiresAt c)) && negb (Before now (ce_ExpiresAt c))
  else false.

Definition capacityExhausted (now : Instant) (k : KeyEvidence) : option Instant :=
  FreshUntil <$> List.find (fun c => fresh now c && empties now c) (Capacity k).

Definition refilledAfter (at_ now : Instant) (k : KeyEvidence) : bool :=
  existsb (fun c => negb (negb (fresh now c) || negb (After (ce_ObservedAt c) at_) || Empty c)
                    && ((Kind c =s "balance") || (Kind c =s "quota") && exhaustingQuotaWindow (Window c)))
    (Capacity k).

(** *** Streaks *)

Record streakSummary := mkSummary { count : Z; first_ : Instant; last_ : Instant }.

Definition no_streak : streakSummary := mkSummary 0 0 0.

Definition merge (s other : streakSummary) : streakSummary :=
  if (count other =? 0)%Z then s
  else
    mkSummary (wrap64 (count s + count other))
      (if (count s =? 0)%Z || Before (first_ other) (first_ s) then first_ other else first_ s)
      (if (count s =? 0)%Z || After (last_ other) (last_ s) then last_ other else last_ s).

Definition add (s : streakSummary) (streak : FailureStreak) : streakSummary :=
  merge s (mkSummary (fs_Count streak) (First streak) (Last streak)).

Definition of_class (class : failureClass) (streak : FailureStreak) : bool :=
  match classifyFailure (fs_Code streak), class with
  | failureCredential, failureCredential | failureDeployment, failureDeployment => true
  | _, _ => false
  end.

(** The failures of one class, summed. *)
Definition summary (class : failureClass) (streaks : list FailureStreak) : streakSummary :=
  foldl (fun s streak => if of_class class streak then add s streak else s) no_streak streaks.

(** ** Decisions *)

Section Decider.
Variable evidence : Evidence.
Variable policy : WithholdPolicy.
Variable now : Instant.

(** [d.streaks] at one deployment and key. *)
Definition streaks_of (deploymentID keyID : string) : list FailureStreak :=
  List.filter (fun s => (fs_DeploymentID s =s deploymentID) && (fs_KeyID s =s keyID)) (ev_Failures evidence).

Definition failing (deployment : streakSummary) : bool :=
  (Failures policy <=? count deployment)%Z && (FailureSpan policy <=? Sub (last_ deployment) (first_ deployment))%Z.

(** The streak counted against a deployment on a key, and the reason. *)
Definition counted_streak (deploymentID : string) (key : KeyEvidence) : option (string * streakSummary) :=
  let streaks := streaks_of deploymentID (ke_KeyID key) in
  let credential := summary failureCredential streaks in
  let deployment := summary failureDeployment streaks in
  let credential := if (0 <? count credential)%Z && refilledAfter (last_ credential) now key then no_streak else credential in
  let refused := (0 <? count credential)%Z in
  let counted := if refused then credential else no_streak in
  if failing deployment
  then Some (if refused then WithheldCredentialRefused else WithheldDeploymentFailing, merge counted deployment)
  else if refused then Some (WithheldCredentialRefused, counted)
  else None.

Definition streak_until (counted : streakSummary) : Instant :=
  Add (last_ counted) (quarantine policy (Sub (last_ counted) (first_ counted))).

Definition streak (deploymentID : string) (key : KeyEvidence) : option Withholding :=
  '(reason, counted) ← counted_streak deploymentID key;
  let until := streak_until counted in
  if negb (Before now until) then None else Some (mkWithholding reason (ke_KeyID key) until (count counted)).

Definition decideKey (deploymentID : string) (key : KeyEvidence) : option Withholding :=
  if retired now key then Some (mkWithholding WithheldKeyRetired (ke_KeyID key) (RetiredUntil key) 0)
  else match capacityExhausted now key with
  | Some until => Some (mkWithholding WithheldCapacityExhausted (ke_KeyID key) until 0)
  | None => streak deploymentID key
  end.

(** The keys a deployment may execute on; nothing when its pin resolves to
    none. *)
Definition pool (deploymentID slug : string) (keys : list KeyEvidence) : option (list KeyEvidence) :=
  match Bindings evidence !! deploymentID with
  | Some binding =>
      if negb (kb_Provider binding =s slug) then None
      else match List.find (fun key => ke_KeyID key =s kb_KeyID binding) keys with
      | Some key => Some [key]
      | None => None
      end
  | None => match keys with [] => None | _ => Some keys end
  end.

Fixpoint no_usable_loop (keys : list KeyEvidence) (earliest : Instant) : option Withholding :=
  match keys with
  | [] => Some (mkWithholding WithheldNoUsableKey "" earliest 0)
  | key :: keys =>
      if negb (retired now key) then None
      else no_usable_loop keys
             (if IsZero earliest || Before (RetiredUntil key) earliest then RetiredUntil key else earliest)
  end.
Definition noUsableKey (keys : list KeyEvidence) : option Withholding :=
  match keys with [] => None | _ => no_usable_loop keys 0 end.

Fixpoint decide_loop (deploymentID : string) (keys : list KeyEvidence) (earliest : option Withholding)
    : option Withholding :=
  match keys with
  | [] => earliest
  | key :: keys =>
      match decideKey deploymentID key with
      | None => None
      | Some w =>
          decide_loop deploymentID keys
            match earliest with
            | Some e => if Before (Until w) (Until e) then Some w else Some e
            | None => Some w
            end
      end
  end.

(** [Decider.Decide]; nothing publishes the deployment. *)
Definition Decide (deploymentID slug : string) : option Withholding :=
  let keys := default [] (Keys evidence !! slug) in
  match pool deploymentID slug keys with
  | None => noUsableKey keys
  | Some keys => decide_loop deploymentID keys None
  end.

End Decider.

(** ** Keys over time *)

Lemma Before_lt t u : Before t u = true <-> (t < u)%Z.
Proof. unfold Before. apply Z.ltb_lt. Qed.

Lemma Before_false t u : Before t u = false <-> (u <= t)%Z.
Proof. unfold Before. apply Z.ltb_ge. Qed.

Lemma retired_until now k : retired now k = true -> (now < RetiredUntil k)%Z.
Proof. unfold retired. by intros [_ H%Before_lt]%andb_true_iff. Qed.

Lemma retired_later now now' k : retired now k = true -> (now' < RetiredUntil k)%Z -> retired now' k = true.
Proof. unfold retired. intros [-> _]%andb_true_iff H. by apply Before_lt in H as ->. Qed.

Lemma fresh_until now c : fresh now c = true -> (now < FreshUntil c)%Z.
Proof. unfold fresh. by intros [_ H%Before_lt]%andb_true_iff. Qed.

Lemma fresh_later now now' c : fresh now c = true -> (now' < FreshUntil c)%Z -> fresh now' c = true.
Proof. unfold fresh. intros [-> _]%andb_true_iff H. by apply Before_lt in H as ->. Qed.

Lemma fresh_earlier now now' c : (now <= now')%Z -> fresh now' c = true -> fresh now c = true.
Proof. intros Hle H. pose proof (fresh_until _ _ H). apply (fresh_later now'); [done|lia]. Qed.

Lemma empties_later now now' c : (now <= now')%Z -> empties now c = true -> empties now' c = true.
Proof.
  intros Hle. unfold empties. repeat case_match; try done. rewrite !andb_true_iff, !negb_true_iff.
  intros [-> Hexp%Before_false]. split; [done|]. apply Before_false. lia.
Qed.

Lemma capacityExhausted_until now k until :
  capacityExhausted now k = Some until -> (now < until)%Z /\
  exists c, c ∈ Capacity k /\ FreshUntil c = until /\ fresh now c = true /\ empties now c = true.
Proof.
  unfold capacityExhausted. destruct (List.find _ (Capacity k)) as [c|] eqn:Ef; [|done]. intros [= <-].
  apply List.find_some in Ef as [Hin [Hf He]%andb_true_iff]. split; [by apply fresh_until|].
  exists c. split; [by apply list_elem_of_In|done].
Qed.

Lemma capacityExhausted_later now now' k until :
  (now <= now')%Z -> (now' < until)%Z -> capacityExhausted now k = Some until -> is_Some (capacityExhausted now' k).
Proof.
  intros Hle Hlt (_ & c & Hin & <- & Hf & He)%capacityExhausted_until. unfold capacityExhausted.
  destruct (List.find _ (Capacity k)) as [c'|] eqn:Ef; [by eexists|].
  pose proof (List.find_none _ _ Ef c (proj1 (list_elem_of_In _ _) Hin)) as Hn. cbv beta in Hn.
  by rewrite (fresh_later _ _ _ Hf Hlt), (empties_later _ _ _ Hle He) in Hn.
Qed.

Lemma refilledAfter_earlier at_ now now' k :
  (now <= now')%Z -> refilledAfter at_ now' k = true -> refilledAfter at_ now k = true.
Proof.
  intros Hle (c & Hin & Hc)%existsb_exists. apply existsb_exists. exists c. split; [done|].
  apply andb_true_iff in Hc as [Hc Hk]. apply andb_true_iff. split; [|done].
  rewrite negb_true_iff, !orb_false_iff, !negb_false_iff in Hc |- *. destruct Hc as [[Hf Ha] He].
  split; [|done]. split; [by apply (fresh_earlier now now')|done].
Qed.

(** ** Streaks *)

(** A merged streak is at least as long and ends no earlier. *)
Lemma merge_covers s other :
  let m := merge s other in
  (count s <> 0%Z -> (first_ m <= first_ s)%Z /\ (last_ s <= last_ m)%Z) /\
  (count other <> 0%Z -> (first_ m <= first_ other)%Z /\ (last_ other <= last_ m)%Z).
Proof.
  cbn zeta. unfold merge. destruct (Z.eqb_spec (count other) 0) as [Ho|Ho]; [split; [lia|done]|].
  cbn [first_ last_]. unfold Before, After.
  destruct (Z.eqb_spec (count s) 0) as [Hs|Hs]; cbn [orb]; [split; [done|lia]|].
  destruct (Z.ltb_spec (first_ other) (first_ s)), (Z.ltb_spec (last_ s) (last_ other)); split; lia.
Qed.

Lemma quarantine_mono p span span' : (span <= span')%Z -> (quarantine p span <= quarantine p span')%Z.
Proof. unfold quarantine. lia. Qed.

Lemma clamp64_mono a b : (a <= b)%Z -> (clamp64 a <= clamp64 b)%Z.
Proof. unfold clamp64. lia. Qed.

Lemma streak_until_mono p s s' :
  (first_ s' <= first_ s)%Z -> (last_ s <= last_ s')%Z -> (streak_until p s <= streak_until p s')%Z.
Proof.
  intros Hf Hl. unfold streak_until, Add. pose proof (quarantine_mono p (Sub (last_ s) (first_ s)) (Sub (last_ s') (first_ s'))) as H.
  unfold Sub in *. specialize (H (clamp64_mono (last_ s - first_ s) (last_ s' - first_ s') ltac:(lia))). lia.
Qed.

Lemma merge_alone other :
  count other <> 0%Z -> first_ (merge no_streak other) = first_ other /\ last_ (merge no_streak other) = last_ other.
Proof. intros H. unfold merge. by destruct (Z.eqb_spec (count other) 0). Qed.

Section Time.
Variable evidence : Evidence.
Variable policy : WithholdPolicy.
Hypothesis valid : WithholdPolicy_Validate policy = None.

Lemma valid_policy : (1 <= Failures policy)%Z /\ (0 < MinQuarantine policy <= MaxQuarantine policy)%Z.
Proof.
  unfold WithholdPolicy_Validate in valid. rewrite !or_else_None, !refuse_if_None in valid.
  destruct valid as (H1 & _ & H2 & H3 & _). bool_cases. lia.
Qed.

(** A streak that counts keeps counting, and only grows, as refills stop being
    fresh. *)
Lemma counted_later now now' deploymentID key reason s :
  (now <= now')%Z -> counted_streak evidence policy now deploymentID key = Some (reason, s) ->
  exists reason' s', counted_streak evidence policy now' deploymentID key = Some (reason', s') /\
    (streak_until policy s <= streak_until policy s')%Z.
Proof.
  intros Hle. unfold counted_streak. cbn zeta.
  set (cred := summary failureCredential _). set (dep := summary failureDeployment _). clearbody cred dep.
  assert (Hdep : failing policy dep = true -> count dep <> 0%Z).
  { unfold failing. intros [H _]%andb_true_iff. apply Z.leb_le in H. pose proof valid_policy. lia. }
  pose proof (refilledAfter_earlier (last_ cred) now now' key Hle) as Href.
  destruct (Z.ltb_spec 0 (count cred)) as [Hc|Hc]; cbn [andb].
  2: { destruct (Z.ltb_spec 0 (count cred)); [lia|]. destruct (failing policy dep); [|done]. intros [= <- <-]. eexists _, _.
       split; [done|lia]. }
  destruct (refilledAfter (last_ cred) now key) eqn:Er; destruct (refilledAfter (last_ cred) now' key) eqn:Er'.
  - cbn. destruct (failing policy dep); [|done]. intros [= <- <-]. eexists _, _. split; [done|lia].
  - cbn. destruct (failing policy dep) eqn:Ef; [|done]. intros [= <- <-]. destruct (Z.ltb_spec 0 (count cred)); [|lia].
    eexists _, _. split; [done|]. destruct (merge_alone dep (Hdep eq_refl)) as [H1 H2].
    destruct (merge_covers cred dep) as [_ H3]. destruct (H3 (Hdep eq_refl)). apply streak_until_mono; lia.
  - by pose proof (Href eq_refl).
  - destruct (Z.ltb_spec 0 (count cred)); [|lia]. destruct (failing policy dep); intros [= <- <-]; (eexists _, _; split; [done|lia]).
Qed.

Lemma streak_later now now' deploymentID key w :
  (now <= now')%Z -> (now' < Until w)%Z -> streak evidence policy now deploymentID key = Some w ->
  is_Some (streak evidence policy now' deploymentID key).
Proof.
  intros Hle Hlt. unfold streak. destruct (counted_streak _ _ now _ _) as [[reason s]|] eqn:E; [|done]. cbn.
  destruct (counted_later _ _ _ _ _ _ Hle E) as (reason' & s' & -> & Hs). cbn.
  destruct (negb (Before now _)); [done|]. intros [= <-]. cbn in Hlt.
  assert (Before now' (streak_until policy s') = true) as -> by (apply Before_lt; lia). by eexists.
Qed.

(** A key that cannot serve a deployment goes on not serving it until the
    moment its evidence gives. *)
Lemma decideKey_later now now' deploymentID key w :
  (now <= now')%Z -> (now' < Until w)%Z -> decideKey evidence policy now deploymentID key = Some w ->
  is_Some (decideKey evidence policy now' deploymentID key).
Proof.
  intros Hle Hlt. unfold decideKey. destruct (retired now key) eqn:Er.
  { intros [= <-]. rewrite (retired_later _ _ _ Er Hlt). by eexists. }
  intros H. destruct (retired now' key); [by eexists|].
  destruct (capacityExhausted now key) as [until|] eqn:Ec.
  { injection H as <-. cbn in Hlt. destruct (capacityExhausted_later _ _ _ _ Hle Hlt Ec) as [u ->]. by eexists. }
  destruct (capacityExhausted now' key); [by eexists|]. by apply (streak_later now now' _ _ w).
Qed.

Lemma decideKey_future now deploymentID key w :
  decideKey evidence policy now deploymentID key = Some w -> (now < Until w)%Z.
Proof.
  unfold decideKey. destruct (retired now key) eqn:Er; [intros [= <-]; by apply retired_until|].
  destruct (capacityExhausted now key) as [until|] eqn:Ec.
  { intros [= <-]. by apply capacityExhausted_until in Ec as [? _]. }
  unfold streak. destruct (counted_streak _ _ _ _ _) as [[reason s]|]; [|done]. cbn.
  destruct (Before now _) eqn:Eb; [|done]. intros [= <-]. by apply Before_lt.
Qed.

(** A counted streak ends with one of the failures. *)
Lemma summary_last class streaks :
  count (summary class streaks) <> 0%Z -> exists s, s ∈ streaks /\ last_ (summary class streaks) = Last s.
Proof.
  unfold summary.
  assert (forall acc, (count acc <> 0%Z -> exists s, s ∈ streaks /\ last_ acc = Last s) -> forall l, (forall s, s ∈ l -> s ∈ streaks) ->
    let r := foldl (fun s streak => if of_class class streak then add s streak else s) acc l in
    count r <> 0%Z -> exists s, s ∈ streaks /\ last_ r = Last s) as H.
  2: { apply (H no_streak); [done|auto]. }
  intros acc Hacc l. revert acc Hacc. induction l as [|x l IH]; intros acc Hacc Hl; [done|]. cbn [foldl]. apply IH.
  2: { intros s Hs. apply Hl, elem_of_cons. by right. }
  destruct (of_class class x); [|done]. unfold add, merge. cbn [count first_ last_].
  destruct (Z.eqb_spec (fs_Count x) 0) as [|Hx]; [done|]. intros _. cbn [last_].
  assert (x ∈ streaks) as Hin by (apply Hl, elem_of_cons; by left).
  destruct (Z.eqb_spec (count acc) 0) as [|Hc]; cbn [orb]; [by exists x|]. destruct (After _ _); [by exists x|by apply Hacc].
Qed.

Lemma streaks_of_in deploymentID keyID s : s ∈ streaks_of evidence deploymentID keyID -> s ∈ ev_Failures evidence.
Proof. unfold streaks_of. rewrite !list_elem_of_In. by intros [? _]%filter_In. Qed.

Lemma counted_streak_last now deploymentID key reason s :
  counted_streak evidence policy now deploymentID key = Some (reason, s) ->
  exists f, f ∈ ev_Failures evidence /\ last_ s = Last f.
Proof.
  unfold counted_streak. cbn zeta.
  pose proof (summary_last failureCredential (streaks_of evidence deploymentID (ke_KeyID key))) as Hc.
  pose proof (summary_last failureDeployment (streaks_of evidence deploymentID (ke_KeyID key))) as Hd.
  set (cred := summary failureCredential _) in *. set (dep := summary failureDeployment _) in *. clearbody cred dep.
  assert (Hdep : failing policy dep = true -> count dep <> 0%Z).
  { unfold failing. intros [H _]%andb_true_iff. apply Z.leb_le in H. pose proof valid_policy. lia. }
  assert (Hmerge : failing policy dep = true -> forall c, (count c <> 0%Z -> exists f, f ∈ ev_Failures evidence /\ last_ c = Last f) ->
    exists f, f ∈ ev_Failures evidence /\ last_ (merge c dep) = Last f).
  { intros Hf c Hcc. destruct (Hd (Hdep Hf)) as (f & Hin & Hl). apply streaks_of_in in Hin. unfold merge.
    destruct (Z.eqb_spec (count dep) 0); [by destruct (Hdep Hf)|]. cbn [last_].
    destruct (Z.eqb_spec (count c) 0); cbn [orb]; [eauto|]. destruct (After _ _); [eauto|by apply Hcc]. }
  assert (Hcred : count cred <> 0%Z -> exists f, f ∈ ev_Failures evidence /\ last_ cred = Last f).
  { intros (f & Hin & Hl)%Hc. apply streaks_of_in in Hin. eauto. }
  set (cr := if _ && _ then no_streak else cred).
  assert (cr = no_streak \/ cr = cred) as [-> | ->] by (subst cr; destruct (_ && _); auto).
  - cbn. destruct (failing policy dep); [|done]. intros [= _ <-]. by apply Hmerge.
  - destruct (Z.ltb_spec 0 (count cred)) as [Hpos|].
    + destruct (failing policy dep); intros [= _ <-]; [by apply Hmerge|]. apply Hcred. lia.
    + destruct (failing policy dep); [|done]. intros [= _ <-]. by apply Hmerge.
Qed.

Definition key_over (now : Instant) (key : KeyEvidence) : Prop :=
  (RetiredUntil key <= now)%Z /\ Forall (fun c => FreshUntil c <= now)%Z (Capacity key).

(** Everything the evidence says of a key, over. *)
Lemma decideKey_over now deploymentID key :
  key_over now key -> Forall (fun s => Last s + MaxQuarantine policy <= now)%Z (ev_Failures evidence) ->
  decideKey evidence policy now deploymentID key = None.
Proof.
  intros [Hr Hc] Hf. unfold decideKey.
  assert (retired now key = false) as ->.
  { destruct (retired now key) eqn:E; [|done]. apply retired_until in E. lia. }
  assert (capacityExhausted now key = None) as ->.
  { destruct (capacityExhausted now key) as [u|] eqn:E; [|done]. apply capacityExhausted_until in E as (Hu & c & Hin & <- & _).
    rewrite Forall_forall in Hc. specialize (Hc c Hin). cbv beta in Hc. lia. }
  unfold streak. destruct (counted_streak _ _ _ _ _) as [[reason s]|] eqn:E; [|done]. cbn.
  apply counted_streak_last in E as (f & Hin & Hl). rewrite Forall_forall in Hf. specialize (Hf f Hin). cbv beta in Hf.
  assert (streak_until policy s <= now)%Z as Hu.
  { unfold streak_until, Add, quarantine. rewrite Hl. lia. }
  apply Before_false in Hu. by rewrite Hu.
Qed.

(** ** The decision over the keys *)

(** [w] is one of the decisions on the keys, and none is over earlier. *)
Definition earliest_of (now : Instant) (deploymentID : string) (keys : list KeyEvidence) (w : Withholding) : Prop :=
  (exists key, key ∈ keys /\ decideKey evidence policy now deploymentID key = Some w) /\
  Forall (fun key => exists w', decideKey evidence policy now deploymentID key = Some w' /\ (Until w <= Until w')%Z) keys.

Lemma decide_loop_some now deploymentID keys earliest w :
  decide_loop evidence policy now deploymentID keys earliest = Some w ->
  Forall (fun key => exists w', decideKey evidence policy now deploymentID key = Some w' /\ (Until w <= Until w')%Z) keys /\
  (forall e, earliest = Some e -> (Until w <= Until e)%Z) /\
  (earliest = Some w \/ exists key, key ∈ keys /\ decideKey evidence policy now deploymentID key = Some w).
Proof.
  revert earliest. induction keys as [|key keys IH]; intros earliest; cbn [decide_loop].
  { intros ->. split; [constructor|]. split; [by intros e [= <-]|by left]. }
  destruct (decideKey _ _ _ _ key) as [wk|] eqn:Ek; [|done]. intros (Hf & He & Hw)%IH.
  assert ((Until w <= Until wk)%Z /\ forall e, earliest = Some e -> (Until w <= Until e)%Z) as [Hk Hearlier].
  { destruct earliest as [e|]; [|split; [by apply He|done]].
    destruct (Before (Until wk) (Until e)) eqn:Eb; [apply Before_lt in Eb|apply Before_false in Eb];
      (split; [|intros e' [= <-]]); specialize (He _ eq_refl); lia. }
  split; [constructor; [by exists wk|done]|]. split; [done|].
  assert (match earliest with Some e => if Before (Until wk) (Until e) then Some wk else Some e | None => Some wk end = Some w ->
    earliest = Some w \/ wk = w) as Hcase.
  { destruct earliest as [e|]; [|intros [= <-]; by right]. destruct (Before _ _); intros [= <-]; [by right|by left]. }
  destruct Hw as [Hw|(key' & Hin & Hk')].
  - destruct (Hcase Hw) as [->| ->]; [by left|]. right. exists key. split; [apply elem_of_cons; by left|done].
  - right. exists key'. split; [apply elem_of_cons; by right|done].
Qed.

Lemma decide_loop_none now deploymentID keys earliest :
  decide_loop evidence policy now deploymentID keys earliest = None <->
  (keys = [] /\ earliest = None) \/ Exists (fun key => decideKey evidence policy now deploymentID key = None) keys.
Proof.
  revert earliest. induction keys as [|key keys IH]; intros earliest; cbn [decide_loop].
  { rewrite Exists_nil. tauto. }
  rewrite Exists_cons. destruct (decideKey _ _ _ _ key) as [wk|] eqn:Ek; [|tauto].
  rewrite IH. split.
  - intros [[_ H]|H]; [destruct earliest; [by case_match|done]|tauto].
  - intros [[? _]|[H|H]]; [done|done|tauto].
Qed.

Lemma no_usable_loop_none now keys earliest :
  no_usable_loop now keys earliest = None <-> Exists (fun key => retired now key = false) keys.
Proof.
  revert earliest. induction keys as [|key keys IH]; intros earliest; cbn [no_usable_loop]; [by rewrite Exists_nil|].
  rewrite Exists_cons. destruct (retired now key); cbn [negb]; [rewrite IH; intuition done|tauto].
Qed.

Lemma no_usable_loop_some now keys earliest w :
  (0 <= now)%Z -> (earliest = 0 \/ now < earliest)%Z -> no_usable_loop now keys earliest = Some w ->
  (earliest = 0 -> keys <> [] -> now < Until w)%Z /\ (now < earliest -> now < Until w <= earliest)%Z /\
  Forall (fun key => retired now key = true /\ (Until w <= RetiredUntil key)%Z) keys.
Proof.
  intros H0. revert earliest. induction keys as [|key keys IH]; intros earliest He; cbn [no_usable_loop].
  { intros [= <-]. cbn. split; [done|]. split; [lia|constructor]. }
  destruct (retired now key) eqn:Er; cbn [negb]; [|done]. apply retired_until in Er as Hr. unfold IsZero.
  destruct (Z.eqb_spec earliest 0) as [->|Hne]; cbn [orb].
  - intros H. destruct (IH (RetiredUntil key) (or_intror Hr) H) as (_ & Hw & Hf). specialize (Hw Hr).
    split; [lia|]. split; [lia|]. constructor; [|done]. split; [done|lia].
  - destruct (Before (RetiredUntil key) earliest) eqn:Eb; [apply Before_lt in Eb|apply Before_false in Eb].
    + intros H. destruct (IH (RetiredUntil key) (or_intror Hr) H) as (_ & Hw & Hf). specialize (Hw Hr).
      split; [lia|]. split; [lia|]. constructor; [|done]. split; [done|lia].
    + intros H. destruct (IH earliest He H) as (_ & Hw & Hf). assert (now < earliest)%Z as Hlt by lia. specialize (Hw Hlt).
      split; [lia|]. split; [lia|]. constructor; [|done]. split; [done|lia].
Qed.

(** ** Theorems *)

(** The keys a deployment's decision asks, when it resolves to some; otherwise
    all of its provider's. *)
Definition provider_keys (slug : string) : list KeyEvidence := default [] (Keys evidence !! slug).

Lemma pool_nonempty deploymentID slug keys : pool evidence deploymentID slug (provider_keys slug) = Some keys -> keys <> [].
Proof. unfold pool. repeat case_match; by intros [= <-]. Qed.

(** A deployment is withheld exactly while no key it may execute on can
    serve it: it is published when one key of its pool - its provider's enabled
    keys, or the pinned one alone - is not held back by its retirement, fresh
    evidence of no capacity, or the deployment's own failures on it; and until
    the earliest moment one of them gives.  A pin that resolves to no key is
    withheld only while every key of the provider is retired. *)
Theorem withheld_while_no_key_can_serve now deploymentID slug :
  match pool evidence deploymentID slug (provider_keys slug) with
  | Some keys =>
      keys <> [] /\
      (Decide evidence policy now deploymentID slug = None <->
         Exists (fun key => decideKey evidence policy now deploymentID key = None) keys) /\
      (forall w, Decide evidence policy now deploymentID slug = Some w -> earliest_of now deploymentID keys w)
  | None =>
      Decide evidence policy now deploymentID slug = None <->
      provider_keys slug = [] \/ Exists (fun key => retired now key = false) (provider_keys slug)
  end.
Proof.
  unfold Decide. fold (provider_keys slug). destruct (pool _ _ _ _) as [keys|] eqn:Ep.
  - pose proof (pool_nonempty _ _ _ Ep) as Hne. split; [done|]. split.
    + rewrite decide_loop_none. tauto.
    + intros w (Hf & _ & Hw)%decide_loop_some. split; [|done]. by destruct Hw.
  - unfold noUsableKey. destruct (provider_keys slug) as [|key keys]; [tauto|]. rewrite no_usable_loop_none. split; [tauto|].
    by intros [?|?].
Qed.

(** C37. Withholding neither flaps nor sticks.  While the evidence stays as it
    is, a withheld deployment stays withheld, without interruption, until the
    moment its decision names, which is in the future; and once every retirement
    and every capacity reading is over and the longest quarantine has passed
    since every failure, it is published again - though no request can have been
    served to clear it. *)
Theorem withheld_deployments_return_on_a_clock now now' deploymentID slug w :
  (0 <= now <= now')%Z -> Decide evidence policy now deploymentID slug = Some w ->
  (now < Until w)%Z /\
  ((now' < Until w)%Z -> is_Some (Decide evidence policy now' deploymentID slug)) /\
  (Forall (key_over now') (provider_keys slug) ->
   Forall (fun s => Last s + MaxQuarantine policy <= now')%Z (ev_Failures evidence) ->
   Decide evidence policy now' deploymentID slug = None).
Proof.
  intros Hnow. unfold Decide. fold (provider_keys slug). destruct (pool _ _ _ _) as [keys|] eqn:Ep.
  - pose proof (pool_nonempty _ _ _ Ep) as Hne. intros (Hf & _ & [?|(key & Hin & Hk)])%decide_loop_some; [done|].
    split; [by apply decideKey_future in Hk|]. split.
    + intros Hlt. destruct (decide_loop _ _ now' _ _ _) eqn:E; [by eexists|]. exfalso.
      apply decide_loop_none in E as [[? _]|(k & Hkin & Hnone)%Exists_exists]; [done|].
      rewrite Forall_forall in Hf. destruct (Hf k Hkin) as (wk & Hwk & Hle).
      destruct (decideKey_later now now' deploymentID k wk) as [w' Hw']; [lia|lia|done|]. congruence.
    + intros Hover Hfails. apply decide_loop_none. right. apply Exists_exists. exists key. split; [done|].
      apply decideKey_over; [|done]. rewrite Forall_forall in Hover. apply Hover.
      revert Ep Hin. unfold pool. destruct (Bindings evidence !! deploymentID) as [b|].
      * destruct (negb _); [done|]. destruct (List.find _ _) as [k|] eqn:Ef; [|done]. intros [= <-] ->%list_elem_of_singleton.
        apply list_elem_of_In. by apply List.find_some in Ef as [? _].
      * destruct (provider_keys slug); [done|]. by intros [= <-].
  - unfold noUsableKey. destruct (provider_keys slug) as [|key keys] eqn:Ekeys; [done|].
    intros Hw. destruct (no_usable_loop_some now (key :: keys) 0 w (proj1 Hnow) (or_introl eq_refl) Hw) as (Hz & _ & Hf).
    split; [by apply Hz|]. split.
    + intros Hlt. destruct (no_usable_loop now' _ _) eqn:E; [by eexists|]. exfalso.
      apply no_usable_loop_none, Exists_exists in E as (k & Hin & Hr). rewrite Forall_forall in Hf.
      destruct (Hf k Hin) as [Hr' Hle]. rewrite (retired_later now now') in Hr; [done|done|lia].
    + intros Hover _. apply no_usable_loop_none. constructor. inversion Hover as [|? ? [Hr _] _].
      destruct (retired now' key) eqn:E; [|done]. apply retired_until in E. lia.
Qed.

End Time.

(** ** What counts *)

Definition counts (s : FailureStreak) : bool :=
  match classifyFailure (fs_Code s) with failureIgnored => false | _ => true end.

Definition only_counted (evidence : Evidence) : Evidence :=
  mkEvidence (Keys evidence) (Bindings evidence) (List.filter counts (ev_Failures evidence)).

Lemma summary_counted class streaks : summary class (List.filter counts streaks) = summary class streaks.
Proof.
  unfold summary. generalize no_streak. induction streaks as [|s streaks IH]; intros acc; [done|]. cbn [List.filter foldl].
  destruct (counts s) eqn:Ec; cbn [foldl]; [apply IH|]. rewrite IH.
  assert (of_class class s = false) as ->; [|done]. unfold counts, of_class in *. by destruct (classifyFailure _), class.
Qed.

Lemma counted_streak_counted evidence policy now deploymentID key :
  counted_streak (only_counted evidence) policy now deploymentID key = counted_streak evidence policy now deploymentID key.
Proof.
  unfold counted_streak. cbn zeta.
  assert (streaks_of (only_counted evidence) deploymentID (ke_KeyID key) =
    List.filter counts (streaks_of evidence deploymentID (ke_KeyID key))) as ->.
  { unfold streaks_of, only_counted. cbn [ev_Failures]. generalize (ev_Failures evidence) as l.
    induction l as [|s l IH]; [done|]. cbn [List.filter].
    destruct (counts s) eqn:Ec, ((fs_DeploymentID s =s deploymentID) && (fs_KeyID s =s ke_KeyID key)) eqn:Em;
      cbn [List.filter]; rewrite ?Em, ?Ec; by rewrite ?IH. }
  by rewrite !summary_counted.
Qed.

(** Throttles, overloads, timeouts, request faults and filters never count,
    however many there are: the decision is the one without them. *)
Theorem transient_failures_never_withhold evidence policy now deploymentID slug :
  Decide evidence policy now deploymentID slug = Decide (only_counted evidence) policy now deploymentID slug.
Proof.
  unfold Decide. cbn [Keys only_counted]. change (pool (only_counted evidence)) with (pool evidence).
  destruct (pool _ _ _ _) as [keys|]; [|done]. generalize (@None Withholding) as e.
  induction keys as [|key keys IH]; intros e; [done|]. cbn [decide_loop].
  assert (decideKey (only_counted evidence) policy now deploymentID key = decideKey evidence policy now deploymentID key) as ->.
  { unfold decideKey, streak. by rewrite counted_streak_counted. }
  destruct (decideKey _ _ _ _ key); [apply IH|done].
Qed.

(** ** An example *)

Definition example_key_evidence (id : string) : KeyEvidence := mkKeyEvidence id "" 0 [].

(** Twenty minutes of provider errors on one key, and throttles on the other. *)
Definition example_evidence : Evidence :=
  mkEvidence {["acme" := [example_key_evidence "k1"]; "other" := [example_key_evidence "k1"; example_key_evidence "k2"]]} ∅
    [mkFailureStreak "dep" "acme" "k1" CodeProviderError 6 Hour (Hour + 20 * Minute);
     mkFailureStreak "dep" "acme" "k1" CodeRateLimited 90 0 (2 * Hour)].

Definition example_decision : Withholding :=
  mkWithholding WithheldDeploymentFailing "k1" (Hour + 50 * Minute) 6.

Lemma example_withheld :
  Decide example_evidence DefaultWithholdPolicy (Hour + 30 * Minute) "dep" "acme" = Some example_decision.
Proof. vm_compute. reflexivity. Qed.

Lemma withheld_while_no_key_can_serve_witness :
  pool example_evidence "dep" "other" (provider_keys example_evidence "other") =
    Some [example_key_evidence "k1"; example_key_evidence "k2"] /\
  (Decide example_evidence DefaultWithholdPolicy (Hour + 30 * Minute) "dep" "other" = None <->
   Exists (fun key => decideKey example_evidence DefaultWithholdPolicy (Hour + 30 * Minute) "dep" key = None)
     [example_key_evidence "k1"; example_key_evidence "k2"]).
Proof.
  split; [vm_compute; reflexivity|].
  exact (proj1 (proj2 (withheld_while_no_key_can_serve example_evidence DefaultWithholdPolicy (Hour + 30 * Minute) "dep" "other"))).
Defined.

Lemma withheld_deployments_return_on_a_clock_witness :
  is_Some (Decide example_evidence DefaultWithholdPolicy (Hour + 40 * Minute) "dep" "acme") /\
  Decide example_evidence DefaultWithholdPolicy (8 * Hour) "dep" "acme" = None.
Proof.
  split.
  - apply (withheld_deployments_return_on_a_clock example_evidence DefaultWithholdPolicy eq_refl (Hour + 30 * Minute)
      (Hour + 40 * Minute) "dep" "acme" example_decision); [vm_compute; split; discriminate|exact example_withheld|vm_compute; reflexivity].
  - apply (withheld_deployments_return_on_a_clock example_evidence DefaultWithholdPolicy eq_refl (Hour + 30 * Minute)
      (8 * Hour) "dep" "acme" example_decision); [vm_compute; split; discriminate|exact example_withheld| |].
    + change (provider_keys example_evidence "acme") with [example_key_evidence "k1"].
      constructor; [|constructor]. split; [vm_compute; discriminate|constructor].
    + unfold example_evidence. cbn [ev_Failures]. repeat constructor; vm_compute; discriminate.
Defined.
