(* ===== verification/Publisher.v ===== *)
(** * Publishing the inventory (internal/publisher/snapshot.go, publisher.go,
    attribution.go, families.go)

    One cycle of the publisher: the previous snapshot read, every provider asked
    what it serves, a snapshot built of what is attributed, executable and not
    withheld, and written.  A decoded file stands for its JSON; discovery over
    HTTP, the evidence and the object store are arguments. *)

From S2P Require Import Prelude Ids Text Sha256 Contract Provider Inventory ProviderConfig Withholding.

(** ** Dates

    The calendar date of an instant and its text, for the years 1 to 9999. *)

Definition digit (n : Z) : ascii := ascii_of_nat (Z.to_nat (48 + n)).
Definition digits2 (n : Z) (rest : string) : string := String (digit (n / 10)) (String (digit (n mod 10)) rest).

Definition leap (year : Z) : bool := (year mod 4 =? 0)%Z && (negb (year mod 100 =? 0)%Z || (year mod 400 =? 0)%Z).

(** Cut off the cycle of four of a unit whose last one is a day longer. *)
Definition cycles (days unit_ : Z) : Z := let n := (days / unit_)%Z in (n - n / 4)%Z.

(** The year and the day of the year of a day counted from January 1 of year
    1. *)
Definition year_day (days : Z) : Z * Z :=
  let d := (days mod 146097)%Z in
  let centuries := cycles d 36524 in
  let d := (d - 36524 * centuries)%Z in
  let fours := (d / 1461)%Z in
  let d := (d - 1461 * fours)%Z in
  let years := cycles d 365 in
  ((400 * (days / 146097) + 100 * centuries + 4 * fours + years + 1)%Z, (d - 365 * years)%Z).

Definition days_in (year_leap : bool) (month : Z) : Z :=
  if (month =? 2)%Z then if year_leap then 29 else 28
  else if (month =? 4)%Z || (month =? 6)%Z || (month =? 9)%Z || (month =? 11)%Z then 30
  else 31.

(** The month and the day of a day of the year. *)
Fixpoint month_from (fuel : nat) (year_leap : bool) (month day : Z) : Z * Z :=
  match fuel with
  | O => (month, (day + 1)%Z)
  | S fuel =>
      if (day <? days_in year_leap month)%Z then (month, (day + 1)%Z)
      else month_from fuel year_leap (month + 1) (day - days_in year_leap month)
  end.

Definition civil (at_ : Instant) : Z * Z * Z :=
  let '(year, day) := year_day (at_ / (24 * Hour)) in
  let '(month, day) := month_from 12 (leap year) 1 day in (year, month, day).

(** [at.UTC().Format("2006-01-02")]. *)
Definition date_text (at_ : Instant) : string :=
  let '(year, month, day) := civil at_ in
  digits2 (year / 100) (digits2 (year mod 100) (String "-" (digits2 month (String "-" (digits2 day ""))))).

Definition number2 (a b : ascii) : option Z := x ← digit_value a; y ← digit_value b; Some (10 * x + y)%Z.

(** Whether [time.Parse("2006-01-02", s)] reads a date. *)
Definition date_readable (s : string) : bool :=
  match s with
  | String a (String b (String c (String d (String s1 (String e (String f (String s2 (String g (String h "")))))))))=>
      Ascii.eqb s1 "-" && Ascii.eqb s2 "-"
      && match number2 a b, number2 c d, number2 e f, number2 g h with
         | Some century, Some years, Some month, Some day =>
             (1 <=? month)%Z && (month <=? 12)%Z && (1 <=? day)%Z && (day <=? days_in (leap (100 * century + years)) month)%Z
         | _, _, _, _ => false
         end
  | _ => false
  end.

Example dates_are_the_calendar :
  date_text 63899107200000000000 = "2025-11-19" /\ date_text 63844847940000000000 = "2024-02-29" /\ date_text 0 = "0001-01-01".
Proof. vm_compute. repeat split. Qed.

(** ** What is discovered and attributed *)

(** [Provider] of this package. *)
Record Source := mkSource { src_Slug : string; src_Regions : list string; src_Protocol : string }.

Record DiscoveredModel := mkDiscovered {
  dm_UpstreamModelID : string;
  dm_Observed : option Observed;
  Unservable : string;
  NotServed : string;
}.

Record Discovery := mkDiscovery { disc_Provider : Source; disc_Models : list DiscoveredModel }.

(** The attribution table, by provider and upstream model. *)
Abbreviation Attribution := (gmap string (gmap string string)) (only parsing).

Definition line_of (value : Json) : option string :=
  match value with JString line => if ModelID_Valid line then Some line else None | _ => None end.

(** [ParseAttribution], of the decoded table; nothing when it is refused. *)
Definition attributed_lines (models : gmap string Json) : option (gmap string string) :=
  if forallb (fun entry => negb (entry.1 =s "") && bool_decide (is_Some (line_of entry.2))) (map_to_list models)
  then Some (omap line_of models) else None.

Definition ParseAttribution (parsed : gmap string (gmap string Json)) : option Attribution :=
  if bool_decide (parsed = ∅) then None
  else if forallb (fun entry => ProviderSlug_Valid entry.1 && negb (bool_decide (entry.2 = ∅))
                                && bool_decide (is_Some (attributed_lines entry.2))) (map_to_list parsed)
  then Some (omap attributed_lines parsed) else None.

Definition ModelLine (attribution : Attribution) (slug upstreamModelID : string) : option string :=
  models ← attribution !! slug; models !! upstreamModelID.

(** [providerconfig.Known], its protocols. *)
Definition Known_Protocol (slug : string) : string :=
  if slug =s "deepgram" then ProtocolDeepgramVoice
  else if slug =s "elevenlabs" then ProtocolElevenLabsSpeech
  else if slug =s "openai-audio" then ProtocolOpenAIAudio
  else if slug =s "openai-realtime" then ProtocolOpenAIRealtime
  else if slug =s "xai-realtime" then ProtocolXAIRealtime
  else if slug =s "xai-stt" then ProtocolXAISTT
  else if slug =s "anthropic" then ProtocolAnthropicMessages
  else if isMember slug
    ["openai"; "openai-decisions"; "openrouter"; "cheaperinference"; "cerebras"; "groq"; "xai"; "mistral"; "deepseek";
     "sambanova"; "siliconflow"; "ai21"; "google"; "together"; "cohere"; "fireworks"; "hyperbolic"; "digitalocean"; "nvidia";
     "modelscope"; "zai"; "nebius"; "nscale"; "chutes"; "ovhcloud"; "alibaba"; "cloudflare"]
  then ProtocolOpenAICompatible
  else "".

(** [executable] (families.go). *)
Definition executable (target : Source) (upstreamModelID : string) : bool :=
  match ClassifyModel (src_Slug target) upstreamModelID with
  | Unclassified => true
  | Inexpressible => false
  | Requires required =>
      let protocol := if src_Protocol target =s "" then Known_Protocol (src_Slug target) else src_Protocol target in
      if negb (family_Session required =s "")
      then isMember (family_Session required) (RealtimeSessionKinds (src_Slug target) protocol)
      else
        let outputs := ChatOutputs (src_Slug target) protocol in
        if (family_Format required =s APIFormatChatCompletions)
           && (family_Spoken required && negb (Spoken outputs) || negb (family_Spoken required) && negb (Text_ outputs))
        then false
        else isMember (family_Format required) (ExecutableAPIFormats (src_Slug target) protocol)
  end.

(** ** The snapshot *)

Record snapshotWithheld := mkWithheld {
  sw_DeploymentID : string;
  sw_Provider : string;
  sw_ModelReference : string;
  sw_UpstreamModelID : string;
  sw_Reason : string;
  sw_Until : Timestamp;
  sw_Failures : Z;
}.

Record snapshotDeployment := mkRow {
  sd_DeploymentID : string;
  sd_Provider : string;
  sd_ModelReference : string;
  sd_UpstreamModelID : string;
  sd_Regions : list string;
  sd_Current : bool;
  sd_Observed : option Observed;
}.

Record snapshotFile := mkSnapshot {
  sf_SnapshotID : string;
  sf_IssuedAt : Timestamp;
  sf_Deployments : list snapshotDeployment;
  sf_Withheld : list snapshotWithheld;
}.

(** What the reader decodes of it. *)
Definition read_row (d : snapshotDeployment) : Deployment :=
  mkDeployment (sd_DeploymentID d) (sd_Provider d) (sd_ModelReference d) (sd_UpstreamModelID d) (sd_Regions d)
    (sd_Current d) (sd_Observed d).
Definition read_back (f : snapshotFile) : file :=
  mkFile (sf_SnapshotID f) (Some (sf_IssuedAt f)) (read_row <$> sf_Deployments f).

Definition revisionPrefix := "observed-".

Definition sanitize_char (c : ascii) : ascii :=
  if Ascii.eqb c "-" || Ascii.eqb c "." || Ascii.eqb c "/" || Ascii.eqb c ":" then "_"%char else c.
Fixpoint sanitize (s : string) : string :=
  match s with EmptyString => "" | String c s => String (sanitize_char c) (sanitize s) end.

Definition deploymentID (slug upstreamModelID observed : string) : string :=
  "dep_" +:+ sanitize slug +:+ "_" +:+ sanitize upstreamModelID +:+ "_" +:+ ("observed_" +:+ sanitize observed).

Definition NUL : string := String zero "".

(** A line of what [contentID] hashes: [%v] of the regions, [%t] of current. *)
Definition content_line (d : snapshotDeployment) : string :=
  sd_DeploymentID d +:+ NUL +:+ sd_Provider d +:+ NUL +:+ sd_ModelReference d +:+ NUL +:+ sd_UpstreamModelID d +:+ NUL
  +:+ "[" +:+ join " " (sd_Regions d) +:+ "]" +:+ NUL +:+ (if sd_Current d then "true" else "false")
  +:+ String (ascii_of_nat 10) "".

Definition contentID (deployments : list snapshotDeployment) : string :=
  "snap_" +:+ String.substring 0 16 (hex (Sum256 (join "" (content_line <$> deployments)))).

(** [Observations]: the first date each model line was seen. *)
Abbreviation Observations := (gmap string string) (only parsing).

Record WithheldDeployment := mkDecision {
  wd_DeploymentID : string;
  wd_Provider : string;
  wd_UpstreamModelID : string;
  wd_Withholding : Withholding;
}.

Record BuildResult := mkResult {
  Body : snapshotFile;
  SnapshotID : string;
  res_Deployments : Z;
  res_Observations : Observations;
  Unattributed : list string;
  Inexecutable : list string;
  res_Unservable : list string;
  res_NotServed : list string;
  Withheld : list WithheldDeployment;
  WouldWithhold : list WithheldDeployment;
}.

Inductive BuildError := NothingDiscovered | NotPinned | AllWithheld | AllUnattributed | ReaderRefuses.

(** The loop's variables. *)
Record building := mkBuilding {
  b_observations : Observations;
  b_deployments : list snapshotDeployment;
  b_unattributed : list string;
  b_inexecutable : list string;
  b_unservable : list string;
  b_notServed : list string;
  b_withheld : list snapshotWithheld;
  b_decisions : list WithheldDeployment;
}.

Definition name_of (target : Source) (model : DiscoveredModel) : string :=
  src_Slug target +:+ "/" +:+ dm_UpstreamModelID model.

Section Build.
Variable attribution : Attribution.
Variable withhold : option (string -> string -> option Withholding).   (* nothing withholds nothing *)
Variable reportOnly : bool.
Variable today : string.

(** One model of one discovery; nothing when its reference is no pinned one. *)
Definition build_model (target : Source) (b : building) (model : DiscoveredModel) : option building :=
  let '(mkBuilding obs deps una ine uns ns wh dec) := b in
  let name := name_of target model in
  match ModelLine attribution (src_Slug target) (dm_UpstreamModelID model) with
  | None => Some (mkBuilding obs deps (una ++ [name]) ine uns ns wh dec)
  | Some line =>
      if negb (executable target (dm_UpstreamModelID model)) then Some (mkBuilding obs deps una (ine ++ [name]) uns ns wh dec)
      else if negb (Unservable model =s "")
      then Some (mkBuilding obs deps una ine (uns ++ [name +:+ ": " +:+ Unservable model]) ns wh dec)
      else if negb (NotServed model =s "")
      then Some (mkBuilding obs deps una ine uns (ns ++ [name +:+ ": " +:+ NotServed model]) wh dec)
      else
        let observed := default today (obs !! line) in
        let obs := <[line := observed]> obs in
        let reference := line +:+ "@" +:+ revisionPrefix +:+ observed in
        if negb (ModelReference_Valid reference) || negb (Pinned reference) then None
        else
          let id := deploymentID (src_Slug target) (dm_UpstreamModelID model) observed in
          let row := mkRow id (src_Slug target) reference (dm_UpstreamModelID model) (src_Regions target) true (dm_Observed model) in
          match withhold ≫= fun withhold => withhold id (src_Slug target) with
          | Some decision =>
              let dec := dec ++ [mkDecision id (src_Slug target) (dm_UpstreamModelID model) decision] in
              if reportOnly then Some (mkBuilding obs (deps ++ [row]) una ine uns ns wh dec)
              else
                Some (mkBuilding obs deps una ine uns ns
                  (wh ++ [mkWithheld id (src_Slug target) reference (dm_UpstreamModelID model) (wh_Reason decision)
                            (NewTimestamp (Until decision)) (wh_Failures decision)]) dec)
          | None => Some (mkBuilding obs (deps ++ [row]) una ine uns ns wh dec)
          end
  end.

Fixpoint build_models (target : Source) (b : building) (models : list DiscoveredModel) : option building :=
  match models with [] => Some b | model :: models => b ← build_model target b model; build_models target b models end.

Fixpoint build_all (b : building) (discoveries : list Discovery) : option building :=
  match discoveries with
  | [] => Some b
  | d :: discoveries => b ← build_models (disc_Provider d) b (disc_Models d); build_all b discoveries
  end.

End Build.

(** [BuildSnapshotWithholding]. *)
Definition BuildSnapshotWithholding (discoveries : list Discovery) (attribution : Attribution) (previous : Observations)
    (at_ : Instant) (withhold : option (string -> string -> option Withholding)) (reportOnly : bool)
    : BuildResult + BuildError :=
  match discoveries with
  | [] => inr NothingDiscovered
  | _ =>
      match build_all attribution withhold reportOnly (date_text at_) (mkBuilding previous [] [] [] [] [] [] []) discoveries with
      | None => inr NotPinned
      | Some b =>
          match b_deployments b with
          | [] => inr (match b_withheld b with [] => AllUnattributed | _ => AllWithheld end)
          | _ =>
              let deployments := sort_by sd_DeploymentID (b_deployments b) in
              let withheld := sort_by sw_DeploymentID (b_withheld b) in
              let decisions := sort_by wd_DeploymentID (b_decisions b) in
              let body := mkSnapshot (contentID deployments) (NewTimestamp at_) deployments withheld in
              match Parse (read_back body) DefaultMaxSnapshotAge with
              | None => inr ReaderRefuses
              | Some _ =>
                  inl (mkResult body (sf_SnapshotID body) (Z.of_nat (length deployments)) (b_observations b)
                         (sort_by id (b_unattributed b)) (sort_by id (b_inexecutable b)) (sort_by id (b_unservable b))
                         (b_notServed b) (if reportOnly then [] else decisions) (if reportOnly then decisions else []))
              end
          end
      end
  end.

(** ** The publisher's memory *)

Fixpoint after_char (c : ascii) (s : string) : string :=
  match s with EmptyString => "" | String d s => if Ascii.eqb c d then s else after_char c s end.

Definition observe_reference (obs : Observations) (reference : string) : option Observations :=
  if negb (ModelReference_Valid reference) || negb (Pinned reference) then None
  else
    let revision := after_char "@" reference in
    if negb (HasPrefix revisionPrefix revision) then None
    else
      let date := TrimPrefix revisionPrefix revision in
      if negb (date_readable date) then None
      else
        let line := ModelID reference in
        if match obs !! line with Some existing => negb (existing =s date) | None => false end then None
        else Some (<[line := date]> obs).

Fixpoint observe_all (obs : Observations) (references : list string) : option Observations :=
  match references with [] => Some obs | r :: references => obs ← observe_reference obs r; observe_all obs references end.

Definition references_of (f : snapshotFile) : list string :=
  (sd_ModelReference <$> sf_Deployments f) ++ (sw_ModelReference <$> sf_Withheld f).

(** [ObservationsFrom]; no file is one that is not readable. *)
Definition ObservationsFrom (body : option snapshotFile) : option Observations :=
  parsed ← body; observe_all ∅ (references_of parsed).

(** [withholdingsFrom]. *)
Definition withholdingsFrom (body : snapshotFile) (now : Instant) : gmap string Withholding :=
  foldl (fun carried w =>
    match Timestamp_Time (sw_Until w) with
    | Some until =>
        if negb (Before now until) then carried
        else <[sw_DeploymentID w := mkWithholding (sw_Reason w) "" until (sw_Failures w)]> carried
    | None => carried
    end) ∅ (sf_Withheld body).

(** [withholdFor]; [evidence] is what the read answers, where there is one. *)
Definition withholdFor (evidence : option (option Evidence)) (policy : WithholdPolicy) (previous : option snapshotFile)
    (now : Instant) : option (string -> string -> option Withholding) :=
  match evidence with
  | None => None
  | Some (Some evidence) => Some (Decide evidence policy now)
  | Some None =>
      let carried := match previous with Some body => withholdingsFrom body now | None => ∅ end in
      Some (fun id _ => carried !! id)
  end.

(** What one cycle meets: whether the read of the store fails, what each
    provider answers, the evidence, the time, and whether the write fails. *)
Record Cycle := mkCycle {
  get_fails : bool;
  answers : list (Source * option (list DiscoveredModel));
  read_evidence : option (option Evidence);
  cycle_now : Instant;
  put_fails : bool;
}.

Definition discovered (c : Cycle) : list Discovery :=
  omap (fun answer => mkDiscovery answer.1 <$> answer.2) (answers c).

(** [PublishOnce]: what the store holds after it. *)
Definition PublishOnce (attribution : Attribution) (policy : WithholdPolicy) (c : Cycle) (published : option snapshotFile)
    : option snapshotFile :=
  if get_fails c then published
  else match match published with Some _ => ObservationsFrom published | None => Some ∅ end with
  | None => published
  | Some observations =>
      match discovered c with
      | [] => published
      | _ =>
          match BuildSnapshotWithholding (discovered c) attribution observations (cycle_now c)
                  (withholdFor (read_evidence c) policy published (cycle_now c)) (ReportOnly policy) with
          | inr _ => published
          | inl built => if put_fails c then published else Some (Body built)
          end
      end
  end.

(** ** Dates are readable *)

Definition day_ok (year_leap : bool) (day : Z) : bool :=
  let '(month, day) := month_from 12 year_leap 1 day in
  (1 <=? month)%Z && (month <=? 12)%Z && (1 <=? day)%Z && (day <=? days_in year_leap month)%Z && (day <=? 31)%Z.

Lemma every_day_ok (year_leap : bool) (day : Z) :
  (0 <= day < (if year_leap then 366 else 365))%Z -> day_ok year_leap day = true.
Proof.
  intros H. assert (forallb (day_ok year_leap) (seqZ 0 (if year_leap then 366 else 365)%Z) = true) as Hall
    by (destruct year_leap; vm_compute; reflexivity).
  rewrite forallb_forall in Hall. apply Hall, list_elem_of_In, elem_of_seqZ. lia.
Qed.

Lemma cycles_spec d unit_ :
  (0 < unit_)%Z -> (0 <= d <= 4 * unit_)%Z ->
  (0 <= cycles d unit_ <= 3)%Z /\ (0 <= d - unit_ * cycles d unit_ <= unit_)%Z /\
  (d - unit_ * cycles d unit_ = unit_ -> d = 4 * unit_)%Z /\ (cycles d unit_ < 3 -> d - unit_ * cycles d unit_ < unit_)%Z.
Proof.
  intros Hu Hd. unfold cycles. pose proof (Z.div_mod d unit_ ltac:(lia)) as Hdm. pose proof (Z.mod_pos_bound d unit_ Hu).
  assert (0 <= d / unit_ <= 4)%Z as Hq by (split; [apply Z.div_pos; lia|apply Z.div_le_upper_bound; lia]).
  set (q := (d / unit_)%Z) in *. clearbody q.
  assert (q / 4 = if (q =? 4)%Z then 1 else 0)%Z as ->.
  { assert (q = 0 \/ q = 1 \/ q = 2 \/ q = 3 \/ q = 4)%Z as [->|[->|[->|[->| ->]]]] by lia; reflexivity. }
  destruct (Z.eqb_spec q 4) as [->|]; nia.
Qed.

(** The first instant of the year 10000. *)
Definition date_limit : Instant := 3652059 * (24 * Hour).

Lemma year_day_ok days :
  (0 <= days < 3652059)%Z ->
  let '(year, day) := year_day days in (1 <= year <= 9999)%Z /\ (0 <= day < (if leap year then 366 else 365))%Z.
Proof.
  intros Hd. unfold year_day. pose proof (Z.div_mod days 146097 ltac:(lia)) as Hdm. pose proof (Z.mod_pos_bound days 146097 ltac:(lia)).
  assert (0 <= days / 146097 <= 24)%Z as Ha by (split; [apply Z.div_pos; lia|apply Z.lt_succ_r, Z.div_lt_upper_bound; lia]).
  set (a := (days / 146097)%Z) in *. set (d := (days mod 146097)%Z) in *. clearbody a d.
  destruct (cycles_spec d 36524) as (Hb & Hd1 & Hlast & _); [lia|lia|]. set (b := cycles d 36524) in *.
  set (d1 := (d - 36524 * b)%Z) in *.
  pose proof (Z.div_mod d1 1461 ltac:(lia)) as Hdm1. pose proof (Z.mod_pos_bound d1 1461 ltac:(lia)).
  assert (0 <= d1 / 1461 <= 24)%Z as Hc by (split; [apply Z.div_pos; lia|apply Z.lt_succ_r, Z.div_lt_upper_bound; lia]).
  set (c := (d1 / 1461)%Z) in *. set (d2 := (d1 - 1461 * c)%Z) in *.
  destruct (cycles_spec d2 365) as (He & Hd3 & Hlast2 & Hsmall); [lia|lia|]. set (e := cycles d2 365) in *.
  split; [|].
  - assert (d1 < 36524 \/ b = 3)%Z by lia. lia.
  - split; [lia|]. destruct (leap _) eqn:El; [lia|]. unfold leap in El.
    assert (d2 - 365 * e = 365 -> False)%Z as Hno; [|lia]. intros H365. specialize (Hlast2 H365).
    assert (e = 3)%Z as He3 by lia. rewrite He3 in El.
    assert ((400 * a + 100 * b + 4 * c + 3 + 1) mod 4 = 0)%Z as H4.
    { replace (400 * a + 100 * b + 4 * c + 3 + 1)%Z with (0 + (100 * a + 25 * b + c + 1) * 4)%Z by lia. by rewrite Z_mod_plus_full. }
    rewrite H4 in El. cbn [andb Z.eqb] in El. apply orb_false_iff in El as [E1 E2].
    apply negb_false_iff, Z.eqb_eq in E1. apply Z.eqb_neq in E2.
    assert (c = 24)%Z as Hc24.
    { apply Z.mod_divide in E1 as [k Hk]; [|lia]. lia. }
    destruct (Z.eq_dec b 3) as [Hb3|Hb3]; [|lia].
    apply E2. subst b c. rewrite Hc24, Hb3. replace (400 * a + 100 * 3 + 4 * 24 + 3 + 1)%Z with (0 + (a + 1) * 400)%Z by lia.
    by rewrite Z_mod_plus_full.
Qed.

Lemma civil_ok at_ :
  (0 <= at_ < date_limit)%Z ->
  let '(year, month, day) := civil at_ in
  (1 <= year <= 9999)%Z /\ (1 <= month <= 12)%Z /\ (1 <= day <= days_in (leap year) month)%Z /\ (day <= 31)%Z.
Proof.
  intros Hat. unfold civil.
  assert (0 <= at_ / (24 * Hour) < 3652059)%Z as Hdays.
  { unfold date_limit, Hour in *. split; [apply Z.div_pos; lia|apply Z.div_lt_upper_bound; lia]. }
  pose proof (year_day_ok _ Hdays) as H. destruct (year_day _) as [year day]. destruct H as [Hy Hday].
  pose proof (every_day_ok _ _ Hday) as Hok. unfold day_ok in Hok. destruct (month_from 12 (leap year) 1 day) as [month d].
  repeat (apply andb_true_iff in Hok as [Hok ?]). bool_cases. lia.
Qed.

Lemma digit_value_digit n : (0 <= n <= 9)%Z -> digit_value (digit n) = Some n.
Proof.
  intros H. assert (n ∈ seqZ 0 10) as Hin by (apply elem_of_seqZ; lia). revert n Hin H.
  assert (Forall (fun n => digit_value (digit n) = Some n) (seqZ 0 10)) as Hf by (vm_compute; repeat constructor).
  intros n Hin _. rewrite Forall_forall in Hf. by apply Hf.
Qed.

Lemma number2_digits n : (0 <= n <= 99)%Z -> number2 (digit (n / 10)) (digit (n mod 10)) = Some n.
Proof.
  intros H. pose proof (Z.div_mod n 10 ltac:(lia)). pose proof (Z.mod_pos_bound n 10 ltac:(lia)).
  unfold number2. rewrite !digit_value_digit by lia. cbn. f_equal. lia.
Qed.

Lemma date_text_readable at_ : (0 <= at_ < date_limit)%Z -> date_readable (date_text at_) = true.
Proof.
  intros Hat. pose proof (civil_ok at_ Hat) as H. unfold date_text. destruct (civil at_) as [[year month] day].
  destruct H as (Hy & Hm & Hd & Hd31). pose proof (Z.div_mod year 100 ltac:(lia)). pose proof (Z.mod_pos_bound year 100 ltac:(lia)).
  assert (0 <= year / 100 <= 99)%Z by lia.
  unfold digits2, date_readable. rewrite !number2_digits by lia.
  replace (100 * (year / 100) + year mod 100)%Z with year by lia.
  destruct (Z.leb_spec 1 month); [|lia]. destruct (Z.leb_spec month 12); [|lia]. destruct (Z.leb_spec 1 day); [|lia].
  destruct (Z.leb_spec day (days_in (leap year) month)); [done|lia].
Qed.

(** ** What a snapshot is built of *)

(** Every model of every provider that answered, in order. *)
Definition pairs (discoveries : list Discovery) : list (Source * DiscoveredModel) :=
  concat ((fun d => pair (disc_Provider d) <$> disc_Models d) <$> discoveries).

Section Spec.
Variable attribution : Attribution.
Variable previous : Observations.
Variable withhold : option (string -> string -> option Withholding).
Variable reportOnly : bool.
Variable today : string.

Definition first_seen (line : string) : string := default today (previous !! line).

(** The line of a model that may be published: attributed, executable, and
    refused by neither policy nor provider. *)
Definition servable_line (p : Source * DiscoveredModel) : option string :=
  line ← ModelLine attribution (src_Slug p.1) (dm_UpstreamModelID p.2);
  if executable p.1 (dm_UpstreamModelID p.2) && (Unservable p.2 =s "") && (NotServed p.2 =s "") then Some line else None.

Definition id_of (p : Source * DiscoveredModel) (line : string) : string :=
  deploymentID (src_Slug p.1) (dm_UpstreamModelID p.2) (first_seen line).
Definition reference_of (line : string) : string := line +:+ "@" +:+ revisionPrefix +:+ first_seen line.

Definition decision_on (p : Source * DiscoveredModel) (line : string) : option Withholding :=
  withhold ≫= fun withhold => withhold (id_of p line) (src_Slug p.1).

Definition row_for (p : Source * DiscoveredModel) : option snapshotDeployment :=
  line ← servable_line p;
  if bool_decide (is_Some (decision_on p line)) && negb reportOnly then None
  else Some (mkRow (id_of p line) (src_Slug p.1) (reference_of line) (dm_UpstreamModelID p.2) (src_Regions p.1) true (dm_Observed p.2)).

Definition withheld_for (p : Source * DiscoveredModel) : option snapshotWithheld :=
  line ← servable_line p;
  if reportOnly then None
  else decision ← decision_on p line;
       Some (mkWithheld (id_of p line) (src_Slug p.1) (reference_of line) (dm_UpstreamModelID p.2) (wh_Reason decision)
               (NewTimestamp (Until decision)) (wh_Failures decision)).

(** What the loop holds after some models: the dates kept and added, and the
    rows so far. *)
Record built_of (ps : list (Source * DiscoveredModel)) (b : building) : Prop := {
  bo_kept : forall line date, previous !! line = Some date -> b_observations b !! line = Some date;
  bo_added : forall line date, b_observations b !! line = Some date ->
    date = first_seen line /\ (previous !! line = Some date \/ exists p, p ∈ ps /\ servable_line p = Some line);
  bo_seen : forall p line, p ∈ ps -> servable_line p = Some line ->
    b_observations b !! line = Some (first_seen line) /\ ModelReference_Valid (reference_of line) = true;
  bo_rows : b_deployments b = omap row_for ps;
  bo_withheld : b_withheld b = omap withheld_for ps;
}.

Lemma built_none : built_of [] (mkBuilding previous [] [] [] [] [] [] []).
Proof.
  constructor; cbn; try done.
  - intros line date H. split; [unfold first_seen; by rewrite H|by left].
  - intros p line H. by apply not_elem_of_nil in H.
Qed.

Lemma omap_snoc_row {A B} (f : A -> option B) l x :
  omap f (l ++ [x]) = omap f l ++ match f x with Some y => [y] | None => [] end.
Proof. rewrite omap_app. cbn. by destruct (f x). Qed.

Lemma unservable_built ps b b' p :
  built_of ps b -> servable_line p = None ->
  b_observations b' = b_observations b -> b_deployments b' = b_deployments b -> b_withheld b' = b_withheld b ->
  built_of (ps ++ [p]) b'.
Proof.
  intros [Hk Ha Hs Hr Hw] Hn Eo Ed Ew.
  constructor; rewrite ?Eo, ?Ed, ?Ew; [done| | | |].
  - intros line date H. destruct (Ha _ _ H) as [-> [Hp|(q & Hin & Hq)]]; (split; [done|]); [by left|].
    right. exists q. split; [apply elem_of_app; by left|done].
  - intros q line [Hin| ->%list_elem_of_singleton]%elem_of_app Hq; [by apply Hs with q|congruence].
  - rewrite omap_snoc_row, Hr. assert (row_for p = None) as -> by (unfold row_for; by rewrite Hn). by rewrite app_nil_r.
  - rewrite omap_snoc_row, Hw. assert (withheld_for p = None) as -> by (unfold withheld_for; by rewrite Hn). by rewrite app_nil_r.
Qed.

Lemma build_model_built ps b target model b' :
  built_of ps b -> build_model attribution withhold reportOnly today target b model = Some b' ->
  built_of (ps ++ [(target, model)]) b'.
Proof.
  intros Hb. destruct b as [obs deps una ine uns ns wh dec]. unfold build_model.
  destruct (ModelLine attribution (src_Slug target) (dm_UpstreamModelID model)) as [line|] eqn:El.
  2: { intros [= <-]. eapply unservable_built; [exact Hb| |done..]. unfold servable_line. cbn. by rewrite El. }
  destruct (executable target (dm_UpstreamModelID model)) eqn:Ee; cbn [negb].
  2: { intros [= <-]. eapply unservable_built; [exact Hb| |done..]. unfold servable_line. cbn. by rewrite El, Ee. }
  destruct (Unservable model =s "") eqn:Eu; cbn [negb].
  2: { intros [= <-]. eapply unservable_built; [exact Hb| |done..]. unfold servable_line. cbn. by rewrite El, Ee, Eu. }
  destruct (NotServed model =s "") eqn:En; cbn [negb].
  2: { intros [= <-]. eapply unservable_built; [exact Hb| |done..]. unfold servable_line. cbn. by rewrite El, Ee, Eu, En. }
  assert (Hline : servable_line (target, model) = Some line).
  { unfold servable_line. cbn. by rewrite El, Ee, Eu, En. }
  destruct Hb as [Hk Ha Hs Hr Hw]. cbn in Hk, Ha, Hs, Hr, Hw.
  assert (Hdate : default today (obs !! line) = first_seen line).
  { unfold first_seen. destruct (previous !! line) as [date|] eqn:Ep; [by rewrite (Hk _ _ Ep)|].
    destruct (obs !! line) as [date|] eqn:Eo; [|done]. destruct (Ha _ _ Eo) as [-> _]. unfold first_seen. by rewrite Ep. }
  rewrite Hdate. fold (reference_of line). fold (id_of (target, model) line).
  destruct (ModelReference_Valid (reference_of line)) eqn:Ev; cbn [negb orb]; [|done].
  destruct (Pinned (reference_of line)); cbn [negb]; [|done].
  change (withhold ≫= _) with (decision_on (target, model) line).
  assert (Hobs : forall b', b_observations b' = <[line := first_seen line]> obs ->
    b_deployments b' = omap row_for (ps ++ [(target, model)]) -> b_withheld b' = omap withheld_for (ps ++ [(target, model)]) ->
    built_of (ps ++ [(target, model)]) b').
  { intros b1 Eo Ed Ew. constructor; try done; rewrite Eo.
    - intros l date Hp. destruct (decide (line = l)) as [<-|Hne]; [|rewrite lookup_insert_ne by done; by apply Hk].
      rewrite lookup_insert_eq. unfold first_seen. by rewrite Hp.
    - intros l date [[<- <-]|[Hne H]]%lookup_insert_Some.
      + split; [done|]. right. exists (target, model). split; [apply elem_of_app; right; by apply list_elem_of_singleton|done].
      + destruct (Ha _ _ H) as [-> [Hp|(q & Hin & Hq)]]; (split; [done|]); [by left|]. right. exists q.
        split; [apply elem_of_app; by left|done].
    - intros q l [Hin| ->%list_elem_of_singleton]%elem_of_app Hq.
      + destruct (Hs _ _ Hin Hq) as [Ho Hv]. split; [|done].
        destruct (decide (line = l)) as [<-|Hne]; [by rewrite lookup_insert_eq|by rewrite lookup_insert_ne].
      + assert (l = line) as -> by congruence. by rewrite lookup_insert_eq. }
  destruct (decision_on (target, model) line) as [decision|] eqn:Ed; [destruct reportOnly eqn:Ero|]; intros [= <-]; apply Hobs; cbn;
    rewrite ?omap_snoc_row, <-?Hr, <-?Hw; try done; unfold row_for, withheld_for; cbn [fst snd]; rewrite Hline; cbn; rewrite ?Ed, ?Ero; cbn;
    rewrite ?app_nil_r; try done; destruct reportOnly; by rewrite app_nil_r.
Qed.

Lemma build_all_built ps b discoveries b' :
  built_of ps b -> build_all attribution withhold reportOnly today b discoveries = Some b' ->
  built_of (ps ++ pairs discoveries) b'.
Proof.
  revert ps b. induction discoveries as [|d discoveries IH]; intros ps b Hb; cbn [build_all].
  { intros [= <-]. unfold pairs. cbn. by rewrite app_nil_r. }
  assert (Hm : forall models ps b b1, built_of ps b -> build_models attribution withhold reportOnly today (disc_Provider d) b models = Some b1 ->
    built_of (ps ++ (pair (disc_Provider d) <$> models)) b1).
  { clear. induction models as [|model models IH]; intros ps b b1 Hb; cbn [build_models].
    - intros [= <-]. by rewrite app_nil_r.
    - destruct (build_model _ _ _ _ _ b model) as [b2|] eqn:E; [|done]. cbn. intros H.
      apply (build_model_built ps) in E; [|done]. apply (IH _ _ _ E) in H. by rewrite <-app_assoc in H. }
  destruct (build_models _ _ _ _ _ b _) as [b1|] eqn:E; [|done]. cbn. intros H. apply (Hm _ ps) in E; [|done].
  apply (IH _ _ E) in H. unfold pairs in *. cbn. by rewrite <-app_assoc in H.
Qed.

End Spec.

(** *** The memory of lines *)

Definition attribution_ok (attribution : Attribution) : Prop :=
  forall slug upstream line, ModelLine attribution slug upstream = Some line -> ModelID_Valid line = true.

Lemma line_of_valid value line : line_of value = Some line -> ModelID_Valid line = true.
Proof. unfold line_of. destruct value; try done. case_match; [|done]. by intros [= <-]. Qed.

(** An attribution table that was read names model lines only. *)
Lemma ParseAttribution_ok parsed attribution : ParseAttribution parsed = Some attribution -> attribution_ok attribution.
Proof.
  unfold ParseAttribution. case_bool_decide; [done|]. destruct (forallb _ _); [|done]. intros [= <-] slug upstream line.
  unfold ModelLine. rewrite lookup_omap. destruct (parsed !! slug) as [models|]; [|done]. cbn. unfold attributed_lines.
  destruct (forallb _ _); [|done]. cbn. rewrite lookup_omap. destruct (models !! upstream) as [value|]; [|done]. cbn.
  apply line_of_valid.
Qed.

Lemma valid_line_no_at line : ModelID_Valid line = true -> contains_char "@" line = false.
Proof.
  unfold ModelID_Valid. intros [_ H]%andb_true_iff. apply Regex.matches_spec in H.
  apply Regex.in_seq_inv in H as (publisher & rest & -> & Hp & H).
  apply Regex.in_seq_inv in H as (slash & model & -> & Hs & Hm).
  inversion Hs as [|m c Hc | | | | |]; subst. apply Ascii.eqb_eq in Hc as <-.
  by rewrite !contains_char_app, (slug_no_at publisher), (slug_no_at model).
Qed.

Lemma after_char_app c s1 s2 : contains_char c s1 = false -> after_char c (s1 +:+ String c s2) = s2.
Proof.
  induction s1 as [|d s1 IH]; simpl; [by rewrite Ascii.eqb_refl|]. intros [-> H]%orb_false_iff. by apply IH.
Qed.

Definition spelled (line date : string) : string := line +:+ "@" +:+ revisionPrefix +:+ date.

Lemma observe_spelled obs line date :
  ModelID_Valid line = true -> ModelReference_Valid (spelled line date) = true -> date_readable date = true ->
  observe_reference obs (spelled line date) =
    (if match obs !! line with Some existing => negb (existing =s date) | None => false end then None
     else Some (<[line := date]> obs)).
Proof.
  intros Hl Hv Hd. pose proof (valid_line_no_at _ Hl) as Hno. unfold observe_reference. rewrite Hv.
  assert (Hsp : spelled line date = line +:+ String "@" (revisionPrefix +:+ date)) by done.
  assert (Pinned (spelled line date) = true) as Hpin.
  { unfold Pinned. rewrite Hsp, contains_char_app. cbn. apply orb_true_r. }
  assert (ModelID (spelled line date) = line) as ->.
  { unfold ModelID. rewrite Hpin, Hsp. by apply before_char_app. }
  rewrite Hpin, Hsp, after_char_app by done. cbn [negb orb].
  rewrite HasPrefix_app. cbn [negb]. by rewrite TrimPrefix_app, Hd.
Qed.

(** References spelled with one date per line are all remembered. *)
Lemma observe_all_spelled (date_of : string -> string) references lines obs :
  Forall2 (fun reference line => reference = spelled line (date_of line)) references lines ->
  Forall (fun line => ModelID_Valid line = true /\ ModelReference_Valid (spelled line (date_of line)) = true /\
            date_readable (date_of line) = true) lines ->
  (forall line date, obs !! line = Some date -> date = date_of line) ->
  exists obs', observe_all obs references = Some obs' /\
    forall line date, obs' !! line = Some date <-> obs !! line = Some date \/ (line ∈ lines /\ date = date_of line).
Proof.
  intros Hr. revert obs. induction Hr as [|reference line references lines -> _ IH]; intros obs Hok Hobs; cbn [observe_all].
  { exists obs. split; [done|]. intros line date. rewrite elem_of_nil. tauto. }
  inversion Hok as [|? ? (Hl & Hv & Hd) Hrest]; subst. rewrite observe_spelled by done.
  assert (match obs !! line with Some existing => negb (existing =s date_of line) | None => false end = false) as ->.
  { destruct (obs !! line) as [d|] eqn:E; [|done]. by rewrite (Hobs _ _ E), String.eqb_refl. }
  cbn [mbind option_bind]. destruct (IH (<[line := date_of line]> obs) Hrest) as (obs' & -> & H).
  { intros l d [[<- <-]|[_ E]]%lookup_insert_Some; [done|by apply Hobs]. }
  exists obs'. split; [done|]. intros l d. rewrite H, lookup_insert_Some, elem_of_cons. split.
  - intros [[[<- <-]|[_ E]]|[Hin ->]]; [right; by split; [left|]|by left|right; by split; [right|]].
  - intros [E|[[->|Hin] ->]]; [|left; by left|right; by split].
    destruct (decide (line = l)) as [<-|Hne]; [left; left; split; [done|]; symmetry; by apply Hobs|left; by right].
Qed.

(** What a memory read back holds was readable. *)
Lemma observe_all_readable obs references obs' :
  (forall line date, obs !! line = Some date -> date_readable date = true) -> observe_all obs references = Some obs' ->
  forall line date, obs' !! line = Some date -> date_readable date = true.
Proof.
  revert obs. induction references as [|r references IH]; intros obs Hobs; cbn [observe_all]; [by intros [= <-]|].
  unfold observe_reference. destruct (_ || _); [done|]. destruct (negb (HasPrefix _ _)); [done|].
  destruct (date_readable (TrimPrefix _ _)) eqn:Ed; cbn [negb]; [|done]. destruct (match obs !! _ with Some _ => _ | None => _ end); [done|].
  cbn. apply IH. intros l d [[<- <-]|[_ E]]%lookup_insert_Some; [done|by apply (Hobs l)].
Qed.

(** ** The snapshot that is built *)

Lemma build_spec discoveries attribution previous at_ withhold reportOnly r :
  BuildSnapshotWithholding discoveries attribution previous at_ withhold reportOnly = inl r ->
  let today := date_text at_ in
  let deployments := sort_by sd_DeploymentID (omap (row_for attribution previous withhold reportOnly today) (pairs discoveries)) in
  let withheld := sort_by sw_DeploymentID (omap (withheld_for attribution previous withhold reportOnly today) (pairs discoveries)) in
  exists b, built_of attribution previous withhold reportOnly today (pairs discoveries) b /\
    Body r = mkSnapshot (contentID deployments) (NewTimestamp at_) deployments withheld /\
    SnapshotID r = contentID deployments /\ res_Observations r = b_observations b /\
    res_Deployments r = Z.of_nat (length deployments) /\ deployments <> [] /\
    NoDup (sd_DeploymentID <$> deployments).
Proof.
  unfold BuildSnapshotWithholding. destruct discoveries as [|d ds] eqn:Eds; [done|]. rewrite <-Eds in *. cbn zeta.
  destruct (build_all _ _ _ _ _ discoveries) as [b|] eqn:E; [|done].
  apply (build_all_built _ previous _ _ _ []) in E; [|apply built_none]. cbn [app] in E.
  destruct (b_deployments b) as [|row rows] eqn:Erows; [done|]. rewrite <-Erows, (bo_rows _ _ _ _ _ _ _ E), (bo_withheld _ _ _ _ _ _ _ E).
  destruct (Parse _ _) as [i|] eqn:Ep; [|done]. intros [= <-]. exists b. cbn.
  split; [done|]. split; [done|]. split; [done|]. split; [done|]. split; [done|].
  apply Parse_ok in Ep as (s & Hok & _ & _ & _ & _ & Hne & _). split.
  - intros Hnil. rewrite Hnil in Hne. by destruct Hne.
  - pose proof (po_ids _ _ Hok) as Hnd. cbn in Hnd. by rewrite <-list_fmap_compose in Hnd.
Qed.

(** A snapshot lists exactly what can be served: a row for each discovered
    model that is attributed to a line, executable by its provider's adapter,
    refused by no policy and by no answer of the provider, and not withheld -
    under its line's first date, its provider's regions and its exact upstream
    name - and no other; the rows are in the order of their ids, no id twice.
    What is withheld is listed apart, never as a route. *)
Theorem snapshot_lists_what_can_be_served discoveries attribution previous at_ withhold reportOnly r :
  BuildSnapshotWithholding discoveries attribution previous at_ withhold reportOnly = inl r ->
  let row := row_for attribution previous withhold reportOnly (date_text at_) in
  let apart := withheld_for attribution previous withhold reportOnly (date_text at_) in
  (forall d, d ∈ sf_Deployments (Body r) <-> exists p, p ∈ pairs discoveries /\ row p = Some d) /\
  (forall w, w ∈ sf_Withheld (Body r) <-> exists p, p ∈ pairs discoveries /\ apart p = Some w) /\
  (forall p, row p = None \/ apart p = None) /\
  Sorted (key_le sd_DeploymentID) (sf_Deployments (Body r)) /\ NoDup (sd_DeploymentID <$> sf_Deployments (Body r)) /\
  sf_Deployments (Body r) <> [].
Proof.
  intros (b & _ & Hbody & _ & _ & _ & Hne & Hnd)%build_spec. cbn zeta. rewrite Hbody. cbn [sf_Deployments sf_Withheld].
  split; [intros d; by rewrite sort_by_permutation, list_elem_of_omap|].
  split; [intros w; by rewrite sort_by_permutation, list_elem_of_omap|].
  split; [|split; [apply sort_by_sorted|done]]. intros p. unfold row_for, withheld_for.
  destruct (servable_line attribution p) as [line|]; [|by left]. cbn. destruct reportOnly; [by right|].
  destruct (decision_on _ _ _ p line) as [w|]; [by left|by right].
Qed.

(** Routing, without the catalogue's metadata. *)
Definition routing (d : snapshotDeployment) : snapshotDeployment :=
  mkRow (sd_DeploymentID d) (sd_Provider d) (sd_ModelReference d) (sd_UpstreamModelID d) (sd_Regions d) (sd_Current d) None.

Lemma content_line_routing d : content_line (routing d) = content_line d.
Proof. done. Qed.

Lemma routing_unique l l' :
  Sorted (key_le sd_DeploymentID) l -> Sorted (key_le sd_DeploymentID) l' -> NoDup (sd_DeploymentID <$> l) ->
  routing <$> l ≡ₚ routing <$> l' -> routing <$> l = routing <$> l'.
Proof.
  intros Hs Hs' Hnd Hp.
  assert (Hsorted : forall l, Sorted (key_le sd_DeploymentID) l -> StronglySorted (key_le sd_DeploymentID) (routing <$> l)).
  { intros x Hx. apply StronglySorted_fmap, Sorted_StronglySorted; [|exact Hx]. intros a b c. unfold key_le. cbn. apply transitivity. }
  apply (StronglySorted_unique_strong (key_le sd_DeploymentID)); auto.
  intros x y Hx Hy Hxy Hyx. assert (sd_DeploymentID x = sd_DeploymentID y) as Hid by (by apply (anti_symm String.le)).
  rewrite <-Hp in Hy. apply list_elem_of_fmap in Hx as (dx & -> & Hdx). apply list_elem_of_fmap in Hy as (dy & -> & Hdy).
  cbn in Hid. apply list_elem_of_lookup_1 in Hdx as [i Hi]. apply list_elem_of_lookup_1 in Hdy as [j Hj].
  assert (i = j) as ->; [|by rewrite Hi in Hj; injection Hj as ->].
  eapply NoDup_lookup; [exact Hnd|rewrite list_lookup_fmap, Hi; cbn; reflexivity|rewrite list_lookup_fmap, Hj; cbn; by rewrite Hid].
Qed.

(** The snapshot's id says whether routing changed and nothing else: two
    snapshots whose routes are the same set - whatever the order the providers
    and models were discovered in, the metadata they published, the time, and
    what is withheld or why - have the same id and list the routes in the same
    order. *)
Theorem snapshot_id_moves_only_with_routing ds ds' attribution attribution' previous previous' at_ at_' withhold withhold' ro ro' r r' :
  BuildSnapshotWithholding ds attribution previous at_ withhold ro = inl r ->
  BuildSnapshotWithholding ds' attribution' previous' at_' withhold' ro' = inl r' ->
  (routing <$> sf_Deployments (Body r)) ≡ₚ (routing <$> sf_Deployments (Body r')) ->
  SnapshotID r = SnapshotID r' /\ routing <$> sf_Deployments (Body r) = routing <$> sf_Deployments (Body r').
Proof.
  intros (b & _ & Hb & Hid & _ & _ & _ & Hnd)%build_spec (b' & _ & Hb' & Hid' & _ & _ & _ & _)%build_spec Hp.
  rewrite Hb, Hb' in *. cbn [sf_Deployments] in *. rewrite Hid, Hid'.
  set (l := sort_by _ (omap _ (pairs ds))) in *. set (l' := sort_by _ (omap _ (pairs ds'))) in *.
  assert (routing <$> l = routing <$> l') as He by (apply routing_unique; [apply sort_by_sorted|apply sort_by_sorted|done|done]).
  split; [|done]. unfold contentID. do 4 f_equal.
  assert (forall x, content_line <$> x = content_line <$> (routing <$> x)) as Hc by (intros x; by rewrite <-list_fmap_compose).
  by rewrite (Hc l), (Hc l'), He.
Qed.

(** ** What the next cycle remembers *)

Lemma ModelID_spelled line date : ModelID_Valid line = true -> ModelID (spelled line date) = line.
Proof.
  intros Hl%valid_line_no_at. unfold ModelID, Pinned. change (spelled line date) with (line +:+ String "@" (revisionPrefix +:+ date)).
  rewrite contains_char_app. cbn [contains_char]. rewrite Ascii.eqb_refl, orb_true_r. by apply before_char_app.
Qed.

(** The references of the file: one for each line that may be published, and of
    no other, whether its models are listed or withheld. *)
Lemma references_built attribution previous withhold reportOnly today ps deployments withheld reference :
  deployments ≡ₚ omap (row_for attribution previous withhold reportOnly today) ps ->
  withheld ≡ₚ omap (withheld_for attribution previous withhold reportOnly today) ps ->
  reference ∈ (sd_ModelReference <$> deployments) ++ (sw_ModelReference <$> withheld) <->
  exists line, (exists p, p ∈ ps /\ servable_line attribution p = Some line) /\
    reference = spelled line (first_seen previous today line).
Proof.
  intros Hd Hw. rewrite elem_of_app, Hd, Hw. rewrite !list_elem_of_fmap. split.
  - intros [(d & -> & (p & Hin & Hp)%list_elem_of_omap)|(w & -> & (p & Hin & Hp)%list_elem_of_omap)]; revert Hp;
      unfold row_for, withheld_for; (destruct (servable_line attribution p) as [line|] eqn:El; [|done]); cbn;
      (case_match; [done|]); [|destruct (decision_on _ _ _ p line); [|done]]; intros [= <-]; exists line; split; try done; by exists p.
  - intros (line & (p & Hin & Hp) & ->).
    destruct (bool_decide (is_Some (decision_on previous withhold today p line)) && negb reportOnly) eqn:E.
    + right. apply andb_true_iff in E as [[w Hw']%bool_decide_eq_true Hr%negb_true_iff].
      eexists. split; [|apply list_elem_of_omap; exists p; split; [done|]; unfold withheld_for; rewrite Hp; cbn;
        rewrite Hr, Hw'; reflexivity]. done.
    + left. eexists. split; [|apply list_elem_of_omap; exists p; split; [done|]; unfold row_for; rewrite Hp; cbn;
        rewrite E; reflexivity]. done.
Qed.

Definition readable (obs : Observations) : Prop := forall line date, obs !! line = Some date -> date_readable date = true.

Lemma servable_valid attribution p line :
  attribution_ok attribution -> servable_line attribution p = Some line -> ModelID_Valid line = true.
Proof.
  unfold servable_line. destruct (ModelLine _ _ _) as [l|] eqn:E; [|done]. cbn. case_match; [|done]. intros Ha [= ->]. by eapply Ha.
Qed.

(** A snapshot that was built is remembered: its lines and no others, each at
    the date it was first seen. *)
Lemma built_is_remembered discoveries attribution previous at_ withhold reportOnly r :
  attribution_ok attribution -> readable previous -> (0 <= at_ < date_limit)%Z ->
  BuildSnapshotWithholding discoveries attribution previous at_ withhold reportOnly = inl r ->
  exists obs, ObservationsFrom (Some (Body r)) = Some obs /\
    forall line date, obs !! line = Some date <->
      (exists p, p ∈ pairs discoveries /\ servable_line attribution p = Some line) /\
      date = first_seen previous (date_text at_) line.
Proof.
  intros Hok Hread Hat (b & Hb & Hbody & _)%build_spec. set (today := date_text at_) in *.
  set (seen := fun line => exists p, p ∈ pairs discoveries /\ servable_line attribution p = Some line).
  assert (Hrefs : forall reference, reference ∈ references_of (Body r) <->
    exists line, seen line /\ reference = spelled line (first_seen previous today line)).
  { intros reference. rewrite Hbody. unfold references_of. cbn [sf_Deployments sf_Withheld].
    apply references_built with withhold reportOnly; apply sort_by_permutation. }
  assert (Hall : Forall (fun reference => seen (ModelID reference) /\ ModelID_Valid (ModelID reference) = true /\
    reference = spelled (ModelID reference) (first_seen previous today (ModelID reference))) (references_of (Body r))).
  { apply Forall_forall. intros reference (line & Hseen & ->)%Hrefs. pose proof Hseen as (p & _ & Hv%servable_valid); [|done].
    by rewrite ModelID_spelled. }
  destruct (observe_all_spelled (first_seen previous today) (references_of (Body r)) (ModelID <$> references_of (Body r)) ∅)
    as (obs & Hobs & Hspec).
  - apply Forall2_fmap_r, Forall_Forall2_diag. eapply Forall_impl; [exact Hall|]. by intros reference (_ & _ & H).
  - apply Forall_fmap. eapply Forall_impl; [exact Hall|]. intros reference (Hseen & Hv & _). split; [done|]. split.
    + destruct Hseen as (p & Hin & Hp). by apply (bo_seen _ _ _ _ _ _ _ Hb p).
    + cbn. unfold first_seen. destruct (previous !! _) as [date|] eqn:E; cbn; [by apply Hread in E|by apply date_text_readable].
  - intros line date. by rewrite lookup_empty.
  - exists obs. split; [done|]. intros line date. rewrite Hspec, lookup_empty. split.
    + intros [?|[(reference & -> & Hin)%list_elem_of_fmap ->]]; [done|]. rewrite Forall_forall in Hall. split; [|done]. by apply Hall.
    + intros [Hseen ->]. right. split; [|done]. apply list_elem_of_fmap. exists (spelled line (first_seen previous today line)).
      destruct Hseen as (p & Hin & Hp). rewrite ModelID_spelled by (by eapply servable_valid). split; [done|]. apply Hrefs.
      exists line. split; [by exists p|done].
Qed.

(** ** Cycle after cycle *)

(** What the publisher remembers of a line, of the file in the store. *)
Definition remembered (published : option snapshotFile) (line : string) : option string :=
  obs ← ObservationsFrom published; obs !! line.

(** The store is empty, or holds a file the publisher can read back. *)
Definition legible (published : option snapshotFile) : Prop := published = None \/ is_Some (ObservationsFrom published).

(** The file after each of some cycles. *)
Fixpoint files_of (attribution : Attribution) (policy : WithholdPolicy) (published : option snapshotFile) (cycles : list Cycle)
    : list (option snapshotFile) :=
  match cycles with
  | [] => []
  | c :: cycles =>
      let published := PublishOnce attribution policy c published in
      published :: files_of attribution policy published cycles
  end.

Definition cycle_ok (c : Cycle) : Prop := (0 <= cycle_now c < date_limit)%Z.

Lemma legible_readable published obs : ObservationsFrom published = Some obs -> readable obs.
Proof.
  unfold ObservationsFrom. destruct published as [f|]; [|done]. cbn. intros H line date. eapply observe_all_readable; [|exact H].
  intros l d. by rewrite lookup_empty.
Qed.

(** One cycle leaves the file, or writes one that remembers what was served and
    the dates the old one gave it. *)
Lemma PublishOnce_spec attribution policy c published :
  attribution_ok attribution -> cycle_ok c -> legible published ->
  PublishOnce attribution policy c published = published \/
  exists obs, ObservationsFrom (PublishOnce attribution policy c published) = Some obs /\
    forall line date, obs !! line = Some date <->
      (exists p, p ∈ pairs (discovered c) /\ servable_line attribution p = Some line) /\
      date = default (date_text (cycle_now c)) (remembered published line).
Proof.
  intros Hok Hc Hl. unfold PublishOnce. destruct (get_fails c); [by left|].
  set (previous := match published with Some _ => ObservationsFrom published | None => Some ∅ end).
  assert (exists obs, previous = Some obs /\ readable obs /\ forall line, remembered published line = obs !! line) as (obs & -> & Hread & Hrem).
  { subst previous. destruct Hl as [->|[obs Hobs]].
    - exists ∅. split; [done|]. split; [intros l d; by rewrite lookup_empty|]. intros line. by rewrite lookup_empty.
    - exists obs. destruct published; [|done]. rewrite Hobs. split; [done|]. split; [by eapply legible_readable|].
      intros line. unfold remembered. by rewrite Hobs. }
  destruct (discovered c) as [|d ds] eqn:Ed; [by left|]. rewrite <-Ed.
  destruct (BuildSnapshotWithholding _ _ _ _ _ _) as [r|] eqn:Eb; [|by left].
  destruct (put_fails c); [by left|]. right. eapply built_is_remembered in Eb as (obs' & Hobs' & Hspec); [|done..].
  exists obs'. split; [done|]. intros line date. rewrite Hspec. unfold first_seen. by rewrite Hrem.
Qed.

Lemma PublishOnce_legible attribution policy c published :
  attribution_ok attribution -> cycle_ok c -> legible published -> legible (PublishOnce attribution policy c published).
Proof.
  intros Hok Hc Hl. destruct (PublishOnce_spec attribution policy c published) as [E|(obs & Hobs & _)]; try done; [by rewrite E|].
  right. by exists obs.
Qed.

Lemma PublishOnce_keeps attribution policy c published line date :
  attribution_ok attribution -> cycle_ok c -> legible published ->
  remembered published line = Some date -> is_Some (remembered (PublishOnce attribution policy c published) line) ->
  remembered (PublishOnce attribution policy c published) line = Some date.
Proof.
  intros Hok Hc Hl Hrem. destruct (PublishOnce_spec attribution policy c published) as [E|(obs & Hobs & Hspec)]; try done; [by rewrite E|].
  unfold remembered at 1 2. rewrite Hobs. cbn. intros [d Hd]. rewrite Hd. apply Hspec in Hd as [_ ->]. by rewrite Hrem.
Qed.

(** *** As a customer reads the file *)

(** A published file gives a line this reference: one of its routes carries it,
    or one of the deployments it withholds. *)
Definition pins (file : option snapshotFile) (line reference : string) : Prop :=
  exists f, file = Some f /\ ModelID reference = line /\
    ((exists d, d ∈ sf_Deployments f /\ sd_ModelReference d = reference) \/
     (exists w, w ∈ sf_Withheld f /\ sw_ModelReference w = reference)).

Lemma char_cut c s : contains_char c s = true -> s = before_char c s +:+ String c (after_char c s).
Proof.
  induction s as [|d s IH]; [done|]. cbn [contains_char before_char after_char].
  destruct (Ascii.eqb_spec c d) as [->|Hd]; [done|].
  intros H. rewrite str_app_cons, <-IH; [done|]. bool_cases; done.
Qed.

Lemma observe_reference_spec obs reference obs' : observe_reference obs reference = Some obs' ->
  exists date, reference = spelled (ModelID reference) date /\ obs' = <[ModelID reference := date]> obs /\
    (obs !! ModelID reference = None \/ obs !! ModelID reference = Some date).
Proof.
  unfold observe_reference. destruct (negb (ModelReference_Valid reference) || _) eqn:Ev; [done|].
  apply orb_false_iff in Ev as [_ Hp]. apply negb_false_iff in Hp.
  destruct (HasPrefix _ _) eqn:Eh; cbn [negb]; [|done]. destruct (date_readable _) eqn:Ed; cbn [negb]; [|done].
  destruct (match obs !! _ with Some _ => _ | None => _ end) eqn:Ec; [done|]. intros [= <-].
  exists (TrimPrefix revisionPrefix (after_char "@" reference)). split; [|split; [done|]].
  - rewrite HasPrefix_CutPrefix in Eh. destruct (CutPrefix _ _) as [date|] eqn:E; [|done]. apply CutPrefix_Some in E.
    rewrite (char_cut "@" reference) at 1 by done. rewrite E, TrimPrefix_app. unfold spelled, ModelID. by rewrite Hp.
  - destruct (obs !! ModelID reference) as [d|]; [right|by left]. bool_cases. by subst.
Qed.

(** What is observed of references is what they spell, one date per line. *)
Lemma observe_all_spec obs references obs' : observe_all obs references = Some obs' ->
  obs ⊆ obs' /\
  (forall r, r ∈ references -> exists date, r = spelled (ModelID r) date /\ obs' !! ModelID r = Some date) /\
  (forall line date, obs' !! line = Some date -> obs !! line = Some date \/
     exists r, r ∈ references /\ ModelID r = line /\ r = spelled line date).
Proof.
  revert obs. induction references as [|r references IH]; intros obs; cbn [observe_all].
  { intros [= <-]. split; [done|]. split; [by intros r ?%elem_of_nil|by left]. }
  destruct (observe_reference obs r) as [obs1|] eqn:E; [|done]. cbn. intros (Hsub & Hall & Hback)%IH.
  apply observe_reference_spec in E as (date & Hr & -> & Hold).
  assert (obs' !! ModelID r = Some date) as Hin by (eapply lookup_weaken; [apply lookup_insert_eq|done]).
  split; [|split].
  - etrans; [|exact Hsub]. apply map_subseteq_spec. intros l d Hd. destruct (decide (l = ModelID r)) as [->|Hne].
    + rewrite lookup_insert_eq. destruct Hold; congruence.
    + by rewrite lookup_insert_ne.
  - intros x [->|Hx]%elem_of_cons; [by exists date|by apply Hall].
  - intros line d Hd. destruct (Hback line d Hd) as [H|(x & Hx & H)]; [|right; exists x; split; [by right|done]].
    apply lookup_insert_Some in H as [[<- <-]|[_ H]]; [|by left]. right. exists r. split; [by left|done].
Qed.

(** What the publisher remembers of a file it can read is what the file says. *)
Lemma remembered_pins file line reference : is_Some (ObservationsFrom file) ->
  pins file line reference <-> exists date, remembered file line = Some date /\ reference = spelled line date.
Proof.
  intros [obs Hobs]. unfold remembered. rewrite Hobs. cbn. unfold ObservationsFrom in Hobs. destruct file as [f|]; [|done].
  cbn in Hobs. apply observe_all_spec in Hobs as (_ & Hall & Hback).
  assert (forall r, r ∈ references_of f <->
    (exists d, d ∈ sf_Deployments f /\ sd_ModelReference d = r) \/ (exists w, w ∈ sf_Withheld f /\ sw_ModelReference w = r)) as Hrefs.
  { intros r. unfold references_of. rewrite elem_of_app, !list_elem_of_fmap. naive_solver. }
  split.
  - intros (f' & [= <-] & <- & Hr%Hrefs). destruct (Hall _ Hr) as (date & H1 & H2). by exists date.
  - intros (date & Hd & ->). destruct (Hback _ _ Hd) as [H|(r & Hr & Hl & ->)]; [by rewrite lookup_empty in H|].
    exists f. split; [done|]. split; [done|]. by apply Hrefs.
Qed.

Lemma files_keep attribution policy published cycles :
  attribution_ok attribution -> Forall cycle_ok cycles -> legible published ->
  Forall legible (files_of attribution policy published cycles) /\
  forall line date n, remembered published line = Some date ->
    Forall (fun file => is_Some (remembered file line)) (take n (files_of attribution policy published cycles)) ->
    Forall (fun file => remembered file line = Some date) (take n (files_of attribution policy published cycles)).
Proof.
  intros Hok Hc. revert published. induction Hc as [|c cycles Hc _ IH]; intros published Hl; cbn [files_of].
  { split; [done|]. intros line date n _ _. by rewrite take_nil. }
  destruct (IH (PublishOnce attribution policy c published)) as [Hlegible Hkeep]; [by apply PublishOnce_legible|].
  split; [constructor; [by apply PublishOnce_legible|done]|]. intros line date [|n] Hrem; [done|].
  rewrite !firstn_cons. intros Hin. inversion Hin as [|? ? Hnow Hlater]; subst.
  apply PublishOnce_keeps with (date := date) in Hnow; [|done..]. constructor; [done|by apply Hkeep].
Qed.

(** C36. A customer's pin is never re-pointed while its line is published.
    Whatever the cycles meet - a store that cannot be read or written, providers
    that fail, evidence that cannot be read, new days - the publisher can always
    read its own file back; and over any run of cycles in which some route or
    withheld deployment of a line stays in the file, every route and every
    withheld deployment of the line carries the one reference, with the one
    observation date, it had at the first of them. *)
Theorem published_lines_keep_their_date attribution policy published cycles :
  attribution_ok attribution -> Forall cycle_ok cycles -> legible published ->
  Forall legible (files_of attribution policy published cycles) /\
  forall line reference n, pins published line reference ->
    Forall (fun file => exists r, pins file line r) (take n (files_of attribution policy published cycles)) ->
    Forall (fun file => forall r, pins file line r <-> r = reference) (take n (files_of attribution policy published cycles)).
Proof.
  intros Hok Hc Hl. destruct (files_keep attribution policy published cycles Hok Hc Hl) as [Hleg Hkeep]. split; [done|].
  assert (forall file l r, legible file -> pins file l r -> exists date, remembered file l = Some date /\ r = spelled l date) as Hread.
  { intros file l r [->|Hs] Hp; [by destruct Hp as (? & ? & _)|by apply remembered_pins]. }
  intros line reference n Hp Hin. apply Hread in Hp as (date & Hd & ->); [|done].
  assert (Forall legible (take n (files_of attribution policy published cycles))) as Hleg' by by apply Forall_take.
  assert (Forall (fun file => is_Some (remembered file line)) (take n (files_of attribution policy published cycles))) as Hsome.
  { eapply Forall_impl; [apply Forall_and; split; [exact Hleg'|exact Hin]|]. intros file [Hf [r Hr]].
    apply Hread in Hr as (d & Hd' & _); [by exists d|done]. }
  eapply Forall_impl; [apply Forall_and; split; [exact Hleg'|exact (Hkeep line date n Hd Hsome)]|]. intros file [Hf Hr] r.
  destruct Hf as [->|Hs]; [done|]. rewrite remembered_pins by done. rewrite Hr. split; [by intros (? & [= <-] & ->)|intros ->; by exists date].
Qed.

(** ** Examples *)

Definition example_source (slug : string) : Source := mkSource slug ["eu-west"] "".
Definition example_model (name : string) : DiscoveredModel := mkDiscovered name None "" "".

(** Two providers, one model line each. *)
Definition example_attribution : Attribution :=
  {["cerebras" := {["gpt-oss-120b" := "openai/gpt-oss-120b"]}; "groq" := {["llama-4" := "meta/llama-4"]}]}.

Lemma example_attribution_ok : attribution_ok example_attribution.
Proof.
  intros slug upstream line. unfold ModelLine, example_attribution. intros (models & Hm & Hl)%bind_Some. revert Hm Hl.
  intros [[<- <-]|[_ [<- <-]%lookup_singleton_Some]]%lookup_insert_Some [<- <-]%lookup_singleton_Some; vm_compute; reflexivity.
Qed.

Definition November19 : Instant := 63899107200000000000.

Definition example_cycle (days : Z) (cerebras : option (list DiscoveredModel)) : Cycle :=
  mkCycle false [(example_source "cerebras", cerebras); (example_source "groq", Some [example_model "llama-4"])] None
    (November19 + days * (24 * Hour)) false.

Definition served_all : option (list DiscoveredModel) := Some [example_model "gpt-oss-120b"].

Lemma example_cycle_ok days cerebras : (0 <= days <= 100)%Z -> cycle_ok (example_cycle days cerebras).
Proof. unfold cycle_ok, date_limit, Hour. cbn. unfold November19, Hour. lia. Qed.

Definition example_files (cycles : list Cycle) : list (option snapshotFile) :=
  files_of example_attribution DefaultWithholdPolicy None cycles.

(** A line served in every cycle keeps its first date. *)
Lemma a_served_line_keeps_its_date :
  (fun file => remembered file "openai/gpt-oss-120b") <$>
    example_files [example_cycle 0 served_all; example_cycle 1 served_all; example_cycle 7 served_all] =
  [Some "2025-11-19"; Some "2025-11-19"; Some "2025-11-19"].
Proof. vm_compute. reflexivity. Qed.

(** One provider that cannot be asked in one cycle: its line leaves the file,
    and is given a new date, and so a new reference and a new deployment id, in
    the next. *)
Theorem a_failed_discovery_re_dates_a_line :
  (fun file => remembered file "openai/gpt-oss-120b") <$>
    example_files [example_cycle 0 served_all; example_cycle 1 None; example_cycle 2 served_all] =
  [Some "2025-11-19"; None; Some "2025-11-21"].
Proof. vm_compute. reflexivity. Qed.

Definition example_discoveries : list Discovery :=
  [mkDiscovery (example_source "cerebras") [example_model "gpt-oss-120b"; example_model "nobody-attributed"];
   mkDiscovery (example_source "groq") [example_model "llama-4"]].

Definition example_build (discoveries : list Discovery) (at_ : Instant) : BuildResult + BuildError :=
  BuildSnapshotWithholding discoveries example_attribution {["meta/llama-4" := "2025-11-01"; "openai/gpt-oss-120b" := "2025-11-19"]}
    at_ None false.

Lemma example_snapshots :
  match example_build example_discoveries November19, example_build (rev example_discoveries) (November19 + Hour) with
  | inl r, inl r' =>
      sd_DeploymentID <$> sf_Deployments (Body r) =
        ["dep_cerebras_gpt_oss_120b_observed_2025_11_19"; "dep_groq_llama_4_observed_2025_11_01"] /\
      routing <$> sf_Deployments (Body r) = routing <$> sf_Deployments (Body r') /\
      Unattributed r = ["cerebras/nobody-attributed"]
  | _, _ => False
  end.
Proof. vm_compute. repeat split. Qed.

Lemma snapshot_lists_what_can_be_served_witness :
  match BuildSnapshotWithholding example_discoveries example_attribution
          {["meta/llama-4" := "2025-11-01"; "openai/gpt-oss-120b" := "2025-11-19"]} November19 None false with
  | inl r => NoDup (sd_DeploymentID <$> sf_Deployments (Body r)) /\ sf_Deployments (Body r) <> []
  | inr _ => False
  end.
Proof.
  pose proof example_snapshots as H. unfold example_build in H.
  destruct (BuildSnapshotWithholding example_discoveries _ _ _ _ _) as [r|] eqn:E; [|done].
  apply (snapshot_lists_what_can_be_served _ _ _ _ _ _ _ E).
Defined.

Lemma snapshot_id_moves_only_with_routing_witness :
  match example_build example_discoveries November19, example_build (rev example_discoveries) (November19 + Hour) with
  | inl r, inl r' => SnapshotID r = SnapshotID r'
  | _, _ => False
  end.
Proof.
  pose proof example_snapshots as H.
  destruct (example_build example_discoveries _) as [r|] eqn:E; [|done].
  destruct (example_build (rev example_discoveries) _) as [r'|] eqn:E'; [|done]. destruct H as (_ & H & _).
  apply (snapshot_id_moves_only_with_routing _ _ _ _ _ _ _ _ _ _ _ _ r r' E E'). by rewrite H.
Defined.

Lemma published_lines_keep_their_date_witness :
  Forall (fun file => forall r, pins file "openai/gpt-oss-120b" r <-> r = "openai/gpt-oss-120b@observed-2025-11-19")
    (files_of example_attribution DefaultWithholdPolicy
       (PublishOnce example_attribution DefaultWithholdPolicy (example_cycle 0 served_all) None)
       [example_cycle 1 served_all; example_cycle 7 served_all]).
Proof.
  destruct (published_lines_keep_their_date example_attribution DefaultWithholdPolicy
    (PublishOnce example_attribution DefaultWithholdPolicy (example_cycle 0 served_all) None)
    [example_cycle 1 served_all; example_cycle 7 served_all] example_attribution_ok) as [_ Hkeep].
  - constructor; [|constructor; [|constructor]]; apply example_cycle_ok; lia.
  - apply PublishOnce_legible; [exact example_attribution_ok|apply example_cycle_ok; lia|left; reflexivity].
  - apply (Hkeep "openai/gpt-oss-120b" "openai/gpt-oss-120b@observed-2025-11-19" 2%nat).
    + apply remembered_pins; [vm_compute; by eexists|]. exists "2025-11-19". split; vm_compute; reflexivity.
    + cbn [files_of take].
      assert (forall file date, remembered file "openai/gpt-oss-120b" = Some date -> exists r, pins file "openai/gpt-oss-120b" r) as Hp.
      { intros file date H. exists (spelled "openai/gpt-oss-120b" date). apply remembered_pins; [|by exists date].
        unfold remembered in H. destruct (ObservationsFrom file); [by eexists|done]. }
      constructor; [|constructor; [|constructor]]; (eapply Hp; vm_compute; reflexivity).
Defined.
