(* ===== verification/PublicText.v ===== *)
(** * The text answers of the public lane (internal/publicapi/text.go and wire.go)

    What a customer of /v1/responses and /v1/chat/completions is answered, whole
    and streamed, of the events an execution emits.  An HTTP writer is what it
    answers to each frame; a decoded frame stands for its JSON. *)

From S2P Require Import Prelude Ids Text Base64 Contract Request Provider PublicContract.
From S2P Require Emitter KeyPool Settle ChatStream.

(** ** The answer, folded from its events *)

Definition maxSpeechAudioBytes : Z := 20971520.
Definition errAnswerTooLarge := Sentinel "publicapi: the answer exceeds what a whole response may buffer".

Record collected := mkCollected {
  col_started : bool;
  col_model : string;
  col_generationID : option string;
  col_startedAt : Timestamp;
  text : string;
  refusal : string;
  transcript : string;
  audio : string;
  toolOrder : list string;
  tools : gmap string ToolCall;
  finish : string;
  col_completedAt : Timestamp;
}.

Definition newCollected : collected := mkCollected false "" None NotAnInstant "" "" "" "" [] ∅ "" NotAnInstant.

Definition set_start (model : string) (gen : option string) (at_ : Timestamp) (c : collected) : collected :=
  mkCollected true model gen at_ (text c) (refusal c) (transcript c) (audio c) (toolOrder c) (tools c) (finish c) (col_completedAt c).

Definition add_text (channel more : string) (c : collected) : collected :=
  let on ch old := if channel =s ch then old +:+ more else old in
  mkCollected (col_started c) (col_model c) (col_generationID c) (col_startedAt c) (on ChannelOutputText (text c))
    (on ChannelRefusal (refusal c)) (on ChannelOutputAudioTranscript (transcript c)) (audio c) (toolOrder c) (tools c) (finish c)
    (col_completedAt c).

Definition add_audio (more : string) (c : collected) : collected :=
  mkCollected (col_started c) (col_model c) (col_generationID c) (col_startedAt c) (text c) (refusal c) (transcript c)
    (audio c +:+ more) (toolOrder c) (tools c) (finish c) (col_completedAt c).

Definition add_call (id : string) (name arguments : option string) (c : collected) : collected :=
  let call := default (mkToolCall id "" "") (tools c !! id) in
  mkCollected (col_started c) (col_model c) (col_generationID c) (col_startedAt c) (text c) (refusal c) (transcript c) (audio c)
    (match tools c !! id with Some _ => toolOrder c | None => toolOrder c ++ [id] end)
    (<[id := mkToolCall (call_ID call) (default (call_Name call) name) (Arguments_ call +:+ default "" arguments)]> (tools c))
    (finish c) (col_completedAt c).

Definition set_done (reason : string) (at_ : Timestamp) (gen : option string) (c : collected) : collected :=
  mkCollected (col_started c) (col_model c) (match gen with Some _ => gen | None => col_generationID c end) (col_startedAt c)
    (text c) (refusal c) (transcript c) (audio c) (toolOrder c) (tools c) reason at_.

(** [collected.fold]. *)
Definition fold (event : StreamEvent) (c : collected) : option GoError * collected :=
  match event with
  | StreamStartEvent _ _ gen model _ at_ => (None, set_start model gen at_ c)
  | StreamDeltaEvent _ _ _ channel more => (None, add_text channel more c)
  | StreamAudioEvent _ _ _ _ data =>
      match base64_decode data with
      | None => (Some Opaque, c)
      | Some decoded =>
          if (maxSpeechAudioBytes <? len (audio c) + len decoded)%Z then (Some errAnswerTooLarge, c)
          else (None, add_audio decoded c)
      end
  | StreamToolCallEvent _ _ id name arguments _ => (None, add_call id name arguments c)
  | StreamDoneEvent _ _ gen reason at_ => (None, set_done reason at_ gen c)
  | _ => (None, c)
  end.

(** The calls, as [c.tools[id]] reads them in their order. *)
Definition calls_of (c : collected) : list ToolCall := omap (fun id => tools c !! id) (toolOrder c).

Definition message (c : collected) : Message :=
  let said := text c +:+ transcript c in
  mkMessage RoleAssistant
    ((if negb (said =s "") then [mkPart ContentPartText (Some said) None None None] else []) ++
     (if (0 <? len (refusal c))%Z then [mkPart ContentPartRefusal (Some (refusal c)) None None None] else []))
    None None (match calls_of c with [] => None | calls => Some calls end).

Definition finishOr (reason : string) : string := if reason =s "" then FinishStop else reason.

(** [failureOf]. *)
Definition failureOf (result : Settle.Result) (requestID : string) : PublicError :=
  match Settle.Failure result with
  | Some failure => PublicErrorFrom failure
  | None => NewPublicError requestID CodeInternalError
  end.

(** What a whole answer of /v1/responses is: [response] beside what the grant
    and the clock add, or the refusal. *)
Definition responses_answer (requestID : string) (result : Settle.Result) (folded : collected)
    : (option string * string * string * Message * list UsageQuantity) + PublicError :=
  match Settle.Failure result, Settle.Report result with
  | None, Some report =>
      inl (col_generationID folded, ResolvedModelReference report, finishOr (finish folded), message folded, Units report)
  | _, _ => inr (failureOf result requestID)
  end.

(** ** The stream of /v1/responses *)

(** A public frame; the first two arguments are its request's id and its
    sequence.  [Copied] is an event that is told as it is. *)
Inductive PublicEvent :=
| ResponseStreamStartEvent (requestID : string) (seq : Z) (generationID : option string) (model : string) (startedAt : Timestamp)
| ResponseStreamUsageEvent (requestID : string) (seq : Z) (units : list UsageQuantity) (usageSource : string)
| ResponseStreamErrorEvent (requestID : string) (seq : Z) (error : PublicError)
| Copied (event : StreamEvent).

Record streamSink := mkStreamSink {
  opened : bool;
  sink_sequence : Z;
  sink_collected : collected;
  frames : list (PublicEvent * option GoError);
}.

Definition new_sink : streamSink := mkStreamSink false 0 newCollected [].

Definition stamped (requestID : string) (seq : Z) (event : StreamEvent) : StreamEvent :=
  match event with
  | StreamDeltaEvent _ _ index channel more => StreamDeltaEvent requestID seq index channel more
  | StreamAudioEvent _ _ index mediaType data => StreamAudioEvent requestID seq index mediaType data
  | StreamToolCallEvent _ _ id name arguments complete => StreamToolCallEvent requestID seq id name arguments complete
  | StreamDoneEvent _ _ gen reason at_ => StreamDoneEvent requestID seq gen reason at_
  | event => event
  end.

Section Sink.
Variable requestID : string.
Variable open_error : option GoError.                            (* [openSSE] *)
Variable write : list PublicEvent -> PublicEvent -> option GoError.  (* [writeFrame], after the frames before it *)

(** What an event is told as, its sequence still to come; nothing when it is
    not told. *)
Definition public_of (is_open : bool) (event : StreamEvent) : option (Z -> PublicEvent) :=
  match event with
  | StreamStartEvent _ _ gen model _ at_ => Some (fun n => ResponseStreamStartEvent requestID n gen model at_)
  | StreamDeltaEvent _ _ _ _ _ | StreamAudioEvent _ _ _ _ _ | StreamToolCallEvent _ _ _ _ _ _ | StreamDoneEvent _ _ _ _ _ =>
      Some (fun n => Copied (stamped requestID n event))
  | StreamUsageEvent _ _ _ units source => Some (fun n => ResponseStreamUsageEvent requestID n units source)
  | StreamErrorEvent _ _ error =>
      if is_open then Some (fun n => ResponseStreamErrorEvent requestID n (PublicErrorFrom error)) else None
  | StreamRouteSwitchEvent _ _ _ _ _ => None
  end.

(** [streamSink.sink]. *)
Definition sink_event (event : StreamEvent) (s : streamSink) : option GoError * streamSink :=
  match fold event (sink_collected s) with
  | (Some err, c) => (Some err, mkStreamSink (opened s) (sink_sequence s) c (frames s))
  | (None, c) =>
      match public_of (opened s) event with
      | None => (None, mkStreamSink (opened s) (sink_sequence s) c (frames s))
      | Some public =>
          match if opened s then None else open_error with
          | Some err => (Some err, mkStreamSink false (sink_sequence s) c (frames s))
          | None =>
              let frame := public (sink_sequence s) in
              let err := write (frames s).*1 frame in
              (err, mkStreamSink true (sink_sequence s + 1) c (frames s ++ [(frame, err)]))
          end
      end
  end.

Definition sink_after (events : list StreamEvent) : streamSink := foldl (fun s event => (sink_event event s).2) new_sink events.

(** The [kaana.Sink] the executor is given. *)
Definition text_sink : Emitter.Sink := fun before event => (sink_event event (sink_after before)).1.

(** What the handler answers once the executor returned. *)
Definition responses_stream (events : list StreamEvent) (result : Settle.Result) : list PublicEvent + PublicError :=
  let s := sink_after events in
  if opened s then inl (frames s).*1 else inr (failureOf result requestID).

End Sink.

(** ** Chat completions *)

Record chatUsage := mkChatUsage {
  PromptTokens : Z;
  CompletionTokens : Z;
  TotalTokens : Z;
  CachedTokens : Z;
  PromptAudioTokens : option Z;
  ReasoningTokens : Z;
  CompletionAudioTokens : option Z;
}.

(** The loop's counts. *)
Record counting := mkCounting { n_prompt : Z; n_completion : Z; n_cached : Z; n_reasoning : Z; audioIn : Z; audioOut : Z }.

Definition count_unit (n : counting) (q : UsageQuantity) : counting :=
  let '(mkCounting prompt completion cached reasoning a b) := n in
  let plus x := wrap64 (x + Quantity q) in
  if Unit q =s UnitInputTokens then mkCounting (plus prompt) completion cached reasoning a b
  else if Unit q =s UnitAudioInputTokens then mkCounting (plus prompt) completion cached reasoning (plus a) b
  else if Unit q =s UnitCachedInputTokens then mkCounting prompt completion (plus cached) reasoning a b
  else if Unit q =s UnitOutputTokens then mkCounting prompt (plus completion) cached reasoning a b
  else if Unit q =s UnitAudioOutputTokens then mkCounting prompt (plus completion) cached reasoning a (plus b)
  else if Unit q =s UnitReasoningTokens then mkCounting prompt completion cached (plus reasoning) a b
  else n.

Definition chatUsageOf (units : list UsageQuantity) : chatUsage :=
  let n := foldl count_unit (mkCounting 0 0 0 0 0 0) units in
  mkChatUsage (n_prompt n) (n_completion n) (wrap64 (n_prompt n + n_completion n)) (n_cached n)
    (if (0 <? audioIn n)%Z then Some (audioIn n) else None) (n_reasoning n)
    (if (0 <? audioOut n)%Z then Some (audioOut n) else None).

Record chatOutputToolCall := mkOutputCall { out_ID : string; out_Name : string; out_Arguments : string }.
Record chatOutputAudio := mkOutputAudio { aud_ID : string; aud_Data : string; aud_Transcript : string; aud_ExpiresAt : Z }.

(** The assistant message of a whole answer, with its audio when it is spoken. *)
Record chatChoiceMessage := mkChoiceMessage {
  choice_Content : option string;
  choice_Audio : option chatOutputAudio;
  choice_ToolCalls : list chatOutputToolCall;
}.

Record chatCompletion := mkCompletion {
  cc_ID : string;
  cc_Created : Z;
  cc_Model : string;
  cc_Message : chatChoiceMessage;
  cc_FinishReason : string;
  cc_Usage : chatUsage;
}.

(** [time.Time.Unix]. *)
Definition Unix (t : Instant) : Z := (t - KeyPool.unix_epoch) / Second.

(** The whole answer of [handleChatCompletions], [chatCompletionWithAudio]
    included, or its refusal. *)
Definition chat_answer (requestID : string) (receivedAt : Instant) (result : Settle.Result) (folded : collected)
    : chatCompletion + PublicError :=
  match Settle.Failure result, Settle.Report result with
  | None, Some report =>
      let said := text folded +:+ transcript folded in
      let content := if negb (said =s "") || bool_decide (toolOrder folded = []) then Some said else None in
      let calls := (fun c => mkOutputCall (call_ID c) (call_Name c) (Arguments_ c)) <$> calls_of folded in
      let spoken :=
        if (0 <? len (audio folded))%Z
        then Some (mkOutputAudio ("audio_" +:+ requestID) (base64_encode (audio folded)) (transcript folded)
                     (Unix (Add receivedAt Hour)))
        else None in
      inl (mkCompletion requestID (Unix receivedAt) (ResolvedModelReference report)
             (mkChoiceMessage content spoken calls) (finishOr (finish folded)) (chatUsageOf (Units report)))
  | _, _ => inr (failureOf result requestID)
  end.

(** *** The chunks of a stream *)

Record chatDeltaToolCall := mkDeltaCall {
  dc_Index : Z;
  dc_ID : option string;
  dc_Name : option string;
  dc_Arguments : option string;
}.

Record chatDelta := mkDelta {
  delta_Role : option string;
  delta_Content : option string;
  delta_Refusal : option string;
  delta_ToolCalls : list chatDeltaToolCall;
}.

Definition no_delta : chatDelta := mkDelta None None None [].

Record chatChunk := mkChunk {
  chunk_ID : string;
  chunk_Created : Z;
  chunk_Model : string;
  chunk_Delta : chatDelta;
  chunk_FinishReason : option string;
  chunk_Usage : option chatUsage;
}.

(** A [data:] frame. *)
Inductive ChatFrame := Chunk (c : chatChunk) | ErrorFrame (failure : PublicError) | DoneFrame.

Record chatSink := mkChatSink {
  chat_opened : bool;
  chat_folded : collected;
  chat_model : string;
  toolIndex : gmap string Z;
  chat_frames : list (ChatFrame * option GoError);
}.

Definition new_chat : chatSink := mkChatSink false newCollected "" ∅ [].

Section ChatStream.
Variable requestID : string.
Variable created : Z.
Variable open_error : option GoError.                           (* [openDataStream] *)
Variable write_frame : list ChatFrame -> ChatFrame -> option GoError.  (* [dataWriter.write] *)

Definition send_frame (frame : ChatFrame) (s : chatSink) : option GoError * chatSink :=
  match if chat_opened s then None else open_error with
  | Some err => (Some err, s)
  | None =>
      let err := write_frame (chat_frames s).*1 frame in
      (err, mkChatSink true (chat_folded s) (chat_model s) (toolIndex s) (chat_frames s ++ [(frame, err)]))
  end.

Definition chunk (s : chatSink) (delta : chatDelta) (finish : option string) (usage : option chatUsage) : ChatFrame :=
  Chunk (mkChunk requestID created (chat_model s) delta finish usage).

Definition set_folded (c : collected) (s : chatSink) : chatSink :=
  mkChatSink (chat_opened s) c (chat_model s) (toolIndex s) (chat_frames s).
Definition set_model (model : string) (s : chatSink) : chatSink :=
  mkChatSink (chat_opened s) (chat_folded s) model (toolIndex s) (chat_frames s).
Definition set_index (index : gmap string Z) (s : chatSink) : chatSink :=
  mkChatSink (chat_opened s) (chat_folded s) (chat_model s) index (chat_frames s).

(** The call a tool event tells, and the index kept for its id. *)
Definition delta_call (index : gmap string Z) (id : string) (name arguments : option string)
    : chatDeltaToolCall * gmap string Z :=
  let arguments := match arguments, name with None, None => Some "" | _, _ => arguments end in
  match index !! id with
  | Some i => (mkDeltaCall i None name arguments, index)
  | None =>
      let i := Z.of_nat (size index) in
      (mkDeltaCall i (Some id) name arguments, <[id := i]> index)
  end.

(** The sink of [chatStream]. *)
Definition chat_event (event : StreamEvent) (s : chatSink) : option GoError * chatSink :=
  match fold event (chat_folded s) with
  | (Some err, c) => (Some err, set_folded c s)
  | (None, c) =>
      let s := set_folded c s in
      match event with
      | StreamStartEvent _ _ _ model _ _ =>
          let s := set_model model s in send_frame (chunk s (mkDelta (Some "assistant") None None []) None None) s
      | StreamDeltaEvent _ _ _ channel more =>
          if channel =s ChannelOutputText then send_frame (chunk s (mkDelta None (Some more) None []) None None) s
          else if channel =s ChannelRefusal then send_frame (chunk s (mkDelta None None (Some more) []) None None) s
          else (None, s)
      | StreamToolCallEvent _ _ id name arguments complete =>
          if complete && bool_decide (arguments = None) && bool_decide (name = None) then (None, s)
          else
            let '(call, index) := delta_call (toolIndex s) id name arguments in
            let s := set_index index s in
            send_frame (chunk s (mkDelta None None None [call]) None None) s
      | _ => (None, s)
      end
  end.

Definition chat_after (events : list StreamEvent) : chatSink := foldl (fun s event => (chat_event event s).2) new_chat events.

Definition chat_sink : Emitter.Sink := fun before event => (chat_event event (chat_after before)).1.

(** The end of [chatStream]: the frames of the stream, or the HTTP error. *)
Definition chat_stream (events : list StreamEvent) (result : Settle.Result) : list ChatFrame + PublicError :=
  let s := chat_after events in
  if negb (chat_opened s) then inr (failureOf result requestID)
  else
    match Settle.Failure result, Settle.Report result with
    | None, Some report =>
        let last := chunk s no_delta (Some (finishOr (finish (chat_folded s)))) (Some (chatUsageOf (Units report))) in
        match send_frame last s with
        | (Some _, s) => inl (chat_frames s).*1
        | (None, s) => inl ((chat_frames s).*1 ++ [DoneFrame])
        end
    | _, _ => inl ((chat_frames s).*1 ++ [ErrorFrame (failureOf result requestID)])
    end.

End ChatStream.

(** [chatErrorOf], the type of the error body. *)
Definition chatErrorType (failure : PublicError) : string :=
  if pub_Code failure =s CodeAuthenticationFailed then "authentication_error"
  else if (pub_Code failure =s CodeRateLimited) || (pub_Code failure =s "quota_exceeded") then "rate_limit_error"
  else if pub_Retryable failure || (500 <=? HTTPStatus (pub_Code failure))%Z then "api_error"
  else if (HTTPStatus (pub_Code failure) =? 403)%Z || (HTTPStatus (pub_Code failure) =? 402)%Z then "permission_error"
  else "invalid_request_error".

(** ** The grammar of a public stream *)

Definition public_sequence (frame : PublicEvent) : Z :=
  match frame with
  | ResponseStreamStartEvent _ n _ _ _ | ResponseStreamUsageEvent _ n _ _ | ResponseStreamErrorEvent _ n _ => n
  | Copied event => Sequence event
  end.

Definition public_requestID (frame : PublicEvent) : string :=
  match frame with
  | ResponseStreamStartEvent id _ _ _ _ | ResponseStreamUsageEvent id _ _ _ | ResponseStreamErrorEvent id _ _ => id
  | Copied event => Emitter.EventRequestID event
  end.

(** One start, then output and usage, then at most one terminal frame. *)
Definition public_step (p : Emitter.phase) (frame : PublicEvent) : option Emitter.phase :=
  match p, frame with
  | Emitter.Opening, ResponseStreamStartEvent _ _ _ _ _ => Some Emitter.Streaming
  | Emitter.Streaming, ResponseStreamUsageEvent _ _ _ _ => Some Emitter.Streaming
  | Emitter.Streaming, ResponseStreamErrorEvent _ _ _ => Some Emitter.Closed
  | Emitter.Streaming, Copied event =>
      match EventType event with
      | EventDelta | EventAudio | EventToolCall => Some Emitter.Streaming
      | EventDone => Some Emitter.Closed
      | _ => None
      end
  | _, _ => None
  end.

Definition public_phase (l : list PublicEvent) : option Emitter.phase :=
  foldl (fun p frame => p ≫= fun p => public_step p frame) (Some Emitter.Opening) l.

Lemma public_phase_snoc l frame : public_phase (l ++ [frame]) = public_phase l ≫= fun p => public_step p frame.
Proof. unfold public_phase. by rewrite foldl_snoc. Qed.

Section Grammar.
Variable requestID : string.
Variable open_error : option GoError.
Variable write : list PublicEvent -> PublicEvent -> option GoError.

#[local] Abbreviation feed := (sink_event requestID open_error write).
#[local] Abbreviation after := (sink_after requestID open_error write).

Lemma sink_after_snoc l event : after (l ++ [event]) = (feed event (after l)).2.
Proof. unfold sink_after. by rewrite foldl_snoc. Qed.

(** The sink beside the stream it was fed: nothing written while it is closed,
    and what is written numbered, of this request and in the grammar. *)
Record sink_ok (p : Emitter.phase) (s : streamSink) : Prop := {
  so_closed : opened s = false -> frames s = [] /\ (p = Emitter.Streaming -> open_error <> None);
  so_open : opened s = true -> p <> Emitter.Opening /\ public_phase (frames s).*1 = Some p;
  so_sequence : public_sequence <$> (frames s).*1 = seqZ 0 (sink_sequence s) /\ (0 <= sink_sequence s)%Z;
  so_request : Forall (fun frame => public_requestID frame = requestID) (frames s).*1;
}.

Lemma public_of_spec is_open event public n :
  public_of requestID is_open event = Some public ->
  public_sequence (public n) = n /\ public_requestID (public n) = requestID.
Proof. destruct event; cbn; try done; try (destruct is_open; [|done]); by intros [= <-]. Qed.

(** A frame's step is its event's. *)
Lemma public_of_step is_open p p' event public n :
  Emitter.phase_step p event = Some p' -> public_of requestID is_open event = Some public ->
  (is_open = true -> p = Emitter.Streaming) -> (is_open = false -> p = Emitter.Opening) ->
  public_step p (public n) = Some p'.
Proof.
  intros Hp Hq Ho Hc. destruct is_open; [rewrite (Ho eq_refl) in *|rewrite (Hc eq_refl) in *];
    destruct event; cbn in *; try done; by injection Hq as <-.
Qed.

Lemma sink_event_ok p p' event s :
  sink_ok p s -> Emitter.phase_step p event = Some p' -> sink_ok p' (feed event s).2.
Proof.
  intros [Hclosed Hopen [Hseq H0] Hreq] Hp. unfold sink_event.
  assert (Hstay : forall c, (opened s = true -> p' = p) -> (opened s = false -> p' = Emitter.Streaming -> open_error <> None) ->
    sink_ok p' (mkStreamSink (opened s) (sink_sequence s) c (frames s))).
  { intros c Hsame Hs. constructor; cbn; [|intros Ho|done|done].
    - intros Ho. split; [by apply Hclosed|by apply Hs].
    - by rewrite (Hsame Ho); apply Hopen. }
  assert (Hwas : opened s = true -> p = Emitter.Streaming).
  { intros Ho. destruct (Hopen Ho) as [Hne _]. destruct p; [done|done|]. by destruct event. }
  destruct (fold event (sink_collected s)) as [[err|] c] eqn:Ef; cbn [snd].
  { destruct event; try done. apply Hstay; [intros Ho; rewrite (Hwas Ho) in *; by injection Hp as <-|].
    intros Ho ->. destruct (Hclosed Ho) as [_ H]. apply H. by destruct p. }
  destruct (public_of requestID (opened s) event) as [public|] eqn:Eq; cbn [snd].
  2: { apply Hstay.
    - intros Ho. rewrite (Hwas Ho) in *. destruct event; cbn in *; try done. by rewrite Ho in Eq.
    - intros Ho ->. destruct (Hclosed Ho) as [_ H]. apply H. by destruct p, event. }
  destruct (if opened s then None else open_error) as [err|] eqn:Eo; cbn [snd].
  { destruct (opened s) eqn:Ho; [done|]. constructor; cbn; [|done|done|done]. intros _. split; [by apply Hclosed|].
    intros _. by rewrite Eo. }
  assert (Hfrom : opened s = false -> p = Emitter.Opening).
  { intros Ho. rewrite Ho in Eo. destruct (Hclosed Ho) as [_ H]. destruct p; [done| |by destruct event].
    exfalso. by apply H. }
  destruct (public_of_spec _ _ _ (sink_sequence s) Eq) as [Hn Hid].
  pose proof (public_of_step (opened s) p p' event public (sink_sequence s) Hp Eq Hwas Hfrom) as Hstep.
  constructor; cbn; [done| | |].
  - intros _. split; [intros ->; by destruct p, (public (sink_sequence s)) as [| | |[]]|]. rewrite fmap_app. cbn [fmap list_fmap fst]. rewrite public_phase_snoc.
    assert (public_phase (frames s).*1 = Some p) as ->.
    { destruct (opened s) eqn:Ho; [by apply Hopen|]. destruct (Hclosed eq_refl) as [-> _]. by rewrite Hfrom. }
    exact Hstep.
  - rewrite !fmap_app, Hseq. cbn [fmap list_fmap fst]. rewrite Hn. split; [|lia].
    rewrite (seqZ_app 0 (sink_sequence s) 1) by lia. f_equal.
  - rewrite fmap_app. apply Forall_app. split; [done|]. by repeat constructor.
Qed.

Lemma sink_after_ok l p : Emitter.phase_of l = Some p -> sink_ok p (after l).
Proof.
  revert p. induction l as [|event l IH] using rev_ind; intros p.
  { intros [= <-]. constructor; cbn; [by split|done|done|constructor]. }
  rewrite Emitter.phase_of_snoc, sink_after_snoc. destruct (Emitter.phase_of l) as [q|]; [|done]. cbn.
  apply sink_event_ok. by apply IH.
Qed.

End Grammar.

(** ** What a customer can see *)

(** An error without what the provider said, and under its public code. *)
Definition erased_error (e : Error) : Error :=
  mkError (public_code (err_Code e)) false (err_RequestID e) (err_RetryAfterMs e)
    (if public_code (err_Code e) =s CodeInvalidRequest then err_Param e else None) (err_UpstreamCategory e) None.

(** An event without the provider, the deployment and its place in the
    executor's stream; nothing of a route switch. *)
Definition erased (event : StreamEvent) : option StreamEvent :=
  match event with
  | StreamStartEvent _ _ gen model _ at_ => Some (StreamStartEvent "" 0 gen model "" at_)
  | StreamUsageEvent _ _ _ units source => Some (StreamUsageEvent "" 0 "" units source)
  | StreamRouteSwitchEvent _ _ _ _ _ => None
  | StreamErrorEvent _ _ e => Some (StreamErrorEvent "" 0 (erased_error e))
  | event => Some (stamped "" 0 event)
  end.

Lemma public_code_public code : public_code (public_code code) = public_code code.
Proof.
  unfold public_code. cbv zeta. destruct (isMember code _) eqn:E; [vm_compute; reflexivity|].
  destruct (PublicErrorCode_Valid code) eqn:Ev; [by rewrite E, Ev|vm_compute; reflexivity].
Qed.

Lemma erased_error_told e : PublicErrorFrom (erased_error e) = PublicErrorFrom e.
Proof.
  apply PublicErrorFrom_view. unfold public_view, erased_error. cbn [err_Code err_RequestID err_RetryAfterMs err_Param err_UpstreamCategory].
  rewrite public_code_public. by destruct (_ =s _).
Qed.

Section Seen.
Variable requestID : string.
Variable open_error : option GoError.
Variable write : list PublicEvent -> PublicEvent -> option GoError.

#[local] Abbreviation feed := (sink_event requestID open_error write).
#[local] Abbreviation after := (sink_after requestID open_error write).

Lemma feed_erased event s : (feed event s).2 = match erased event with Some e => (feed e s).2 | None => s end.
Proof.
  unfold sink_event. destruct event; cbn [erased stamped fold public_of]; try reflexivity.
  - by destruct s.
  - cbn. destruct (opened s); [|reflexivity]. cbn. by rewrite erased_error_told.
Qed.

Lemma after_erased l : after l = after (omap erased l).
Proof.
  unfold sink_after. generalize new_sink as s. induction l as [|event l IH]; [done|]. intros s. cbn [foldl omap list_omap].
  rewrite feed_erased. destruct (erased event) as [e|]; cbn [foldl]; apply IH.
Qed.

(** C39. A customer's stream is well formed and names no provider.  Whatever the
    adapters report and however the connection fails, the frames written for
    the events of an execution are a start, then output and usage, then at most
    one terminal frame, in the phase the execution's own stream is in; they are
    numbered from zero without a gap although route switches are dropped, all
    carry the public request's id; nothing is written for a request that never
    started, which is answered as an HTTP error; and no two executions that
    differ only in the providers, the deployments, the routes tried or what a
    provider said of an error are told apart. *)
Theorem public_streams_are_well_formed request generationID at_ actions :
  let l := Emitter.events (Emitter.stream (text_sink requestID open_error write) request generationID at_ actions) in
  let s := after l in
  (if opened s then public_phase (frames s).*1 = Emitter.phase_of l /\ (frames s).*1 <> [] else (frames s).*1 = []) /\
  public_sequence <$> (frames s).*1 = seqZ 0 (Z.of_nat (length (frames s))) /\
  Forall (fun frame => public_requestID frame = requestID) (frames s).*1 /\
  (forall l', omap erased l' = omap erased l -> after l' = s).
Proof.
  cbn zeta. set (l := Emitter.events _).
  destruct (Emitter.stream_keeps (text_sink requestID open_error write) request generationID at_ actions) as [[[Hp _ _ _ _] _ _ _ _] _].
  pose proof (sink_after_ok requestID open_error write l _ Hp) as [Hclosed Hopen [Hseq H0] Hreq].
  split; [|split; [|split; [done|]]].
  - change (Emitter.phase_of l = Some (Emitter.current (Emitter.stream (text_sink requestID open_error write) request generationID at_ actions))) in Hp.
    destruct (opened (after l)); [|by rewrite (proj1 (Hclosed eq_refl))].
    destruct (Hopen eq_refl) as [Hne Hphase]. split; [by rewrite Hphase, Hp|]. intros Hnil. rewrite Hnil in Hphase. apply Hne. by injection Hphase.
  - pose proof (f_equal length Hseq) as Hl. rewrite !length_fmap, length_seqZ in Hl. rewrite Hseq. f_equal. lia.
  - intros l' Hl. rewrite (after_erased l'), Hl. by rewrite <-after_erased.
Qed.

End Seen.

(** ** A client of the chunks

    What [ChatFold] of packages/sdk/src/chat.ts puts together of a stream's one
    choice; the calls are kept in the order of their index. *)

Record toldCall := mkTold { tc_ID : string; tc_Name : string; tc_Arguments : string }.

Record chatFold := mkFold {
  cf_first : option chatChunk;
  cf_content : option string;
  cf_calls : list (Z * toldCall);
  cf_finish : option string;
  cf_usage : option chatUsage;
}.

Definition empty_fold : chatFold := mkFold None None [] None None.

Definition tell (d : chatDeltaToolCall) (c : toldCall) : toldCall :=
  mkTold (default (tc_ID c) (dc_ID d)) (tc_Name c +:+ default "" (dc_Name d)) (tc_Arguments c +:+ default "" (dc_Arguments d)).

Fixpoint tell_at (d : chatDeltaToolCall) (calls : list (Z * toldCall)) : list (Z * toldCall) :=
  match calls with
  | [] => [(dc_Index d, tell d (mkTold "" "" ""))]
  | (i, c) :: rest =>
      if (i =? dc_Index d)%Z then (i, tell d c) :: rest
      else if (dc_Index d <? i)%Z then (dc_Index d, tell d (mkTold "" "" "")) :: calls
      else (i, c) :: tell_at d rest
  end.

Definition client_add (c : chatChunk) (f : chatFold) : chatFold :=
  let delta := chunk_Delta c in
  mkFold (match cf_first f with Some first => Some first | None => Some c end)
    (match delta_Content delta with Some more => Some (default "" (cf_content f) +:+ more) | None => cf_content f end)
    (foldl (fun calls d => tell_at d calls) (cf_calls f) (delta_ToolCalls delta))
    (match chunk_FinishReason c with Some reason => Some reason | None => cf_finish f end)
    (match chunk_Usage c with Some usage => Some usage | None => cf_usage f end).

(** The fold of the frames up to [DONE]; nothing of a stream that fails. *)
Fixpoint client_fold (f : chatFold) (l : list ChatFrame) : option chatFold :=
  match l with
  | Chunk c :: l => client_fold (client_add c f) l
  | DoneFrame :: _ => Some f
  | _ => None
  end.

(** The completion it answers. *)
Definition client_completion (f : chatFold) : option chatCompletion :=
  first ← cf_first f;
  usage ← cf_usage f;
  Some (mkCompletion (chunk_ID first) (chunk_Created first) (chunk_Model first)
          (mkChoiceMessage (cf_content f) None ((fun c => mkOutputCall (tc_ID c.2) (tc_Name c.2) (tc_Arguments c.2)) <$> cf_calls f))
          (default FinishStop (cf_finish f)) usage).

(** ** Whole and streamed *)

(** A stream of text: one start, no speech, and every call named where it is
    first told and nowhere else. *)
Fixpoint spells_text (seen : list string) (l : list StreamEvent) : bool :=
  match l with
  | [] => true
  | StreamStartEvent _ _ _ _ _ _ :: _ | StreamAudioEvent _ _ _ _ _ :: _ => false
  | StreamDeltaEvent _ _ _ channel _ :: l => negb (channel =s ChannelOutputAudioTranscript) && spells_text seen l
  | StreamToolCallEvent _ _ id name _ _ :: l =>
      if bool_decide (id ∈ seen) then bool_decide (name = None) && spells_text seen l
      else bool_decide (is_Some name) && spells_text (id :: seen) l
  | _ :: l => spells_text seen l
  end.

(** The words the answer is told in, one piece an event. *)
Definition word_of (event : StreamEvent) : option string :=
  match event with
  | StreamDeltaEvent _ _ _ channel more => if channel =s ChannelOutputText then Some more else None
  | _ => None
  end.

Definition is_word (event : StreamEvent) : bool := bool_decide (is_Some (word_of event)).

Lemma is_word_delta id n i channel more : is_word (StreamDeltaEvent id n i channel more) = (channel =s ChannelOutputText).
Proof. unfold is_word. cbn. by destruct (_ =s _). Qed.

Definition words (l : list StreamEvent) : string := foldr String.append "" (omap word_of l).

Definition accepts_all : list ChatFrame -> ChatFrame -> option GoError := fun _ _ => None.

Definition collected_of (l : list StreamEvent) : collected := foldl (fun c event => (fold event c).2) newCollected l.

(** *** Calls by their index *)

Definition at_index (k : nat) (l : list toldCall) : list (Z * toldCall) := imap (fun i c => (Z.of_nat (k + i), c)) l.

Lemma at_index_cons k c l : at_index k (c :: l) = (Z.of_nat k, c) :: at_index (S k) l.
Proof.
  unfold at_index. rewrite imap_cons. rewrite Nat.add_0_r. f_equal. apply imap_ext. intros i x _. cbn. by rewrite Nat.add_succ_r.
Qed.

Lemma at_index_calls {A} (g : toldCall -> A) k l : (fun c => g c.2) <$> at_index k l = g <$> l.
Proof. revert k. induction l as [|c l IH]; intros k; [done|]. rewrite at_index_cons. cbn. by rewrite IH. Qed.

Lemma tell_at_new d k l :
  dc_Index d = Z.of_nat (k + length l) -> tell_at d (at_index k l) = at_index k (l ++ [tell d (mkTold "" "" "")]).
Proof.
  revert k. induction l as [|c l IH]; intros k Hd.
  - cbn in Hd. rewrite Nat.add_0_r in Hd. cbn. by rewrite Hd, Nat.add_0_r.
  - cbn [length app] in *. rewrite !at_index_cons. cbn [tell_at].
    destruct (Z.eqb_spec (Z.of_nat k) (dc_Index d)); [lia|]. destruct (Z.ltb_spec (dc_Index d) (Z.of_nat k)); [lia|].
    rewrite IH; [done|lia].
Qed.

Lemma tell_at_known d k l j c :
  dc_Index d = Z.of_nat (k + j) -> l !! j = Some c -> tell_at d (at_index k l) = at_index k (<[j := tell d c]> l).
Proof.
  revert k j. induction l as [|c' l IH]; intros k j Hd Hj; [done|]. rewrite at_index_cons. cbn [tell_at]. destruct j as [|j].
  - injection Hj as ->. rewrite Hd, Nat.add_0_r, Z.eqb_refl. cbn [insert list_insert]. by rewrite at_index_cons.
  - destruct (Z.eqb_spec (Z.of_nat k) (dc_Index d)); [lia|]. destruct (Z.ltb_spec (dc_Index d) (Z.of_nat k)); [lia|].
    cbn [insert list_insert]. rewrite at_index_cons. f_equal. apply IH; [lia|done].
Qed.

Lemma present_length (m : gmap string ToolCall) order :
  Forall (fun id => is_Some (m !! id)) order -> length (omap (fun id => m !! id) order) = length order.
Proof. induction 1 as [|id order [c Hc] _ IH]; [done|]. cbn. rewrite Hc. cbn. by rewrite IH. Qed.

Lemma present_lookup (m : gmap string ToolCall) order j id c :
  Forall (fun id => is_Some (m !! id)) order -> order !! j = Some id -> m !! id = Some c ->
  omap (fun id => m !! id) order !! j = Some c.
Proof.
  intros Hall. revert j. induction Hall as [|x order [d Hd] _ IH]; intros j Hj Hc; [done|]. cbn. rewrite Hd. cbn.
  destruct j as [|j]; [injection Hj as ->; cbn; rewrite <-Hd; exact Hc|by apply IH].
Qed.

Lemma present_insert (m : gmap string ToolCall) order j id c :
  Forall (fun id => is_Some (m !! id)) order -> NoDup order -> order !! j = Some id ->
  omap (fun x => <[id := c]> m !! x) order = <[j := c]> (omap (fun x => m !! x) order).
Proof.
  intros Hall. revert j. induction Hall as [|x order [d Hd] Hall IH]; intros j Hnd Hj; [done|].
  apply NoDup_cons in Hnd as [Hx Hnd]. cbn. rewrite Hd. cbn. destruct j as [|j].
  - injection Hj as ->. rewrite lookup_insert_eq. cbn. f_equal. apply list_omap_ext, Forall_Forall2_diag, Forall_forall. intros y Hy.
    rewrite lookup_insert_ne; [done|]. by intros ->.
  - rewrite lookup_insert_ne; [|intros ->; apply Hx; by eapply list_elem_of_lookup_2]. rewrite Hd. cbn. f_equal. by apply IH.
Qed.

Lemma fresh_insert (m : gmap string ToolCall) order id c :
  id ∉ order -> omap (fun x => <[id := c]> m !! x) (order ++ [id]) = omap (fun x => m !! x) order ++ [c].
Proof.
  intros Hid. rewrite omap_app. cbn. rewrite lookup_insert_eq. cbn. f_equal. apply list_omap_ext, Forall_Forall2_diag, Forall_forall. intros y Hy.
  rewrite lookup_insert_ne; [done|]. by intros ->.
Qed.

Section Client.
Variable requestID : string.
Variable created : Z.
#[local] Abbreviation hear := (chat_event requestID created None accepts_all).
#[local] Abbreviation heard := (chat_after requestID created None accepts_all).

(** The calls of the answer, at their index. *)
Definition indexed (c : collected) : list (Z * toldCall) :=
  at_index 0 ((fun call => mkTold (call_ID call) (call_Name call) (Arguments_ call)) <$> calls_of c).

(** What the client holds beside what the server folded, after some events of
    which the ids of [seen] were told. *)
Record in_step (seen : list string) (worded : bool) (model : string) (s : chatSink) (f : chatFold) : Prop := {
  is_opened : chat_opened s = true;
  is_model : chat_model s = model;
  is_first : exists delta, cf_first f = Some (mkChunk requestID created model delta None None);
  is_text : default "" (cf_content f) = text (chat_folded s);
  is_worded : worded = true <-> is_Some (cf_content f);
  is_silent : transcript (chat_folded s) = "" /\ audio (chat_folded s) = "";
  is_seen : forall id, id ∈ seen <-> id ∈ toolOrder (chat_folded s);
  is_distinct : NoDup (toolOrder (chat_folded s));
  is_tools : Forall (fun id => is_Some (tools (chat_folded s) !! id)) (toolOrder (chat_folded s));
  is_known : forall id, is_Some (tools (chat_folded s) !! id) -> id ∈ toolOrder (chat_folded s);
  is_index : forall id i, toolIndex s !! id = Some i <-> (0 <= i)%Z /\ toolOrder (chat_folded s) !! Z.to_nat i = Some id;
  is_size : size (toolIndex s) = length (toolOrder (chat_folded s));
  is_calls : cf_calls f = indexed (chat_folded s);
  is_open_end : cf_finish f = None /\ cf_usage f = None;
}.

Definition continues (s s' : chatSink) (f f' : chatFold) : Prop :=
  exists new, (chat_frames s').*1 = (chat_frames s).*1 ++ new /\ forall rest, client_fold f (new ++ rest) = client_fold f' rest.

Lemma continues_silent s s' f : chat_frames s' = chat_frames s -> continues s s' f f.
Proof. intros E. exists []. by rewrite E, app_nil_r. Qed.

Lemma continues_chunk s s' f c err :
  chat_frames s' = chat_frames s ++ [(Chunk c, err)] -> continues s s' f (client_add c f).
Proof. intros E. exists [Chunk c]. by rewrite E, fmap_app. Qed.

(** An event that leaves the calls alone. *)
Lemma in_step_texts seen worded worded' model s s' f f' :
  in_step seen worded model s f ->
  chat_opened s' = true -> chat_model s' = model -> toolIndex s' = toolIndex s ->
  toolOrder (chat_folded s') = toolOrder (chat_folded s) -> tools (chat_folded s') = tools (chat_folded s) ->
  transcript (chat_folded s') = transcript (chat_folded s) -> audio (chat_folded s') = audio (chat_folded s) ->
  cf_first f' = cf_first f -> cf_calls f' = cf_calls f -> cf_finish f' = cf_finish f -> cf_usage f' = cf_usage f ->
  default "" (cf_content f') = text (chat_folded s') -> (worded' = true <-> is_Some (cf_content f')) ->
  in_step seen worded' model s' f'.
Proof.
  intros [Ho Hm Hf Ht Hw Hs Hseen Hd Htools Hknown Hi Hsize Hc He] Ho' Hm' Ei Eo Et Etr Ea Ef Ec Efin Eu Htext Hworded.
  constructor; rewrite ?Ei, ?Eo, ?Et, ?Etr, ?Ea, ?Ef, ?Ec, ?Efin, ?Eu; try done.
  rewrite Hc. unfold indexed, calls_of. by rewrite Eo, Et.
Qed.

Lemma in_step_known seen worded model s f id call arguments :
  in_step seen worded model s f -> id ∈ seen -> tools (chat_folded s) !! id = Some call ->
  exists j, toolIndex s !! id = Some (Z.of_nat j) /\
    (forall s', chat_opened s' = true -> chat_model s' = model -> toolIndex s' = toolIndex s ->
       chat_folded s' = add_call id None arguments (chat_folded s) ->
       in_step seen worded model s' (mkFold (cf_first f) (cf_content f)
         (tell_at (mkDeltaCall (Z.of_nat j) None None arguments) (cf_calls f)) (cf_finish f) (cf_usage f))).
Proof.
  intros [Ho Hm Hf Ht Hw Hs Hseen Hd Htools Hknown Hi Hsize Hc He] Hid Hcall.
  pose proof Hid as [j Hj]%Hseen%list_elem_of_lookup_1. exists j.
  assert (toolIndex s !! id = Some (Z.of_nat j)) as Hij by (apply Hi; rewrite Nat2Z.id; split; [lia|done]).
  split; [done|]. intros s' Ho' Hm' Hi' Hc'.
  set (call' := mkToolCall (call_ID call) (call_Name call) (Arguments_ call +:+ default "" arguments)).
  assert (toolOrder (chat_folded s') = toolOrder (chat_folded s)) as Eo by (rewrite Hc'; cbn; by rewrite Hcall).
  assert (tools (chat_folded s') = <[id := call']> (tools (chat_folded s))) as Et by (rewrite Hc'; cbn; by rewrite Hcall).
  assert (text (chat_folded s') = text (chat_folded s) /\ transcript (chat_folded s') = transcript (chat_folded s) /\
    audio (chat_folded s') = audio (chat_folded s)) as (Ete & Etr & Ea) by (by rewrite Hc').
  constructor; cbn; rewrite ?Eo, ?Et, ?Ete, ?Etr, ?Ea, ?Hi'; try done.
  - eapply Forall_impl; [exact Htools|]. cbn. intros x Hx. destruct (decide (id = x)) as [<-|Hne];
      [rewrite lookup_insert_eq; by eexists|by rewrite lookup_insert_ne].
  - intros x. destruct (decide (id = x)) as [<-|Hne]; [intros _; by apply Hseen|rewrite lookup_insert_ne by done; apply Hknown].
  - rewrite Hc. unfold indexed, calls_of. rewrite Eo, Et, (present_insert _ _ j) by done. rewrite list_fmap_insert.
    rewrite (tell_at_known _ 0 _ j (mkTold (call_ID call) (call_Name call) (Arguments_ call))); [|done|].
    + do 2 f_equal. unfold tell, call'. cbn. by rewrite str_app_nil_r.
    + rewrite list_lookup_fmap. by rewrite (present_lookup _ _ j id call).
Qed.

Lemma in_step_new seen worded model s f id name arguments :
  in_step seen worded model s f -> id ∉ seen ->
  let i := Z.of_nat (size (toolIndex s)) in
  toolIndex s !! id = None /\
  (forall s', chat_opened s' = true -> chat_model s' = model -> toolIndex s' = <[id := i]> (toolIndex s) ->
     chat_folded s' = add_call id (Some name) arguments (chat_folded s) ->
     in_step (id :: seen) worded model s' (mkFold (cf_first f) (cf_content f)
       (tell_at (mkDeltaCall i (Some id) (Some name) arguments) (cf_calls f)) (cf_finish f) (cf_usage f))).
Proof.
  intros [Ho Hm Hf Ht Hw Hs Hseen Hd Htools Hknown Hi Hsize Hc He] Hid. cbn zeta.
  assert (id ∉ toolOrder (chat_folded s)) as Hfresh by (by rewrite <-Hseen).
  assert (tools (chat_folded s) !! id = None) as Hnone.
  { destruct (tools (chat_folded s) !! id) eqn:E; [|done]. exfalso. apply Hfresh, Hknown. by eexists. }
  assert (toolIndex s !! id = None) as Hindex.
  { destruct (toolIndex s !! id) as [i|] eqn:E; [|done]. apply Hi in E as [_ E]. by apply list_elem_of_lookup_2 in E. }
  split; [done|]. intros s' Ho' Hm' Hi' Hc'.
  set (call' := mkToolCall id name (default "" arguments)).
  assert (toolOrder (chat_folded s') = toolOrder (chat_folded s) ++ [id]) as Eo by (rewrite Hc'; cbn; by rewrite Hnone).
  assert (tools (chat_folded s') = <[id := call']> (tools (chat_folded s))) as Et by (rewrite Hc'; cbn; by rewrite Hnone).
  assert (text (chat_folded s') = text (chat_folded s) /\ transcript (chat_folded s') = transcript (chat_folded s) /\
    audio (chat_folded s') = audio (chat_folded s)) as (Ete & Etr & Ea) by (by rewrite Hc').
  constructor; cbn; rewrite ?Eo, ?Et, ?Ete, ?Etr, ?Ea, ?Hi'; try done.
  - intros x. rewrite elem_of_cons, elem_of_app, list_elem_of_singleton, Hseen. tauto.
  - apply NoDup_app. split_and!; [done| |apply NoDup_singleton]. intros x Hx ->%list_elem_of_singleton. done.
  - apply Forall_app. split; [|constructor; [rewrite lookup_insert_eq; by eexists|constructor]].
    eapply Forall_impl; [exact Htools|]. cbn. intros x Hx. destruct (decide (id = x)) as [<-|Hne];
      [rewrite lookup_insert_eq; by eexists|by rewrite lookup_insert_ne].
  - intros x. rewrite elem_of_app. destruct (decide (id = x)) as [<-|Hne]; [intros _; right; by apply list_elem_of_singleton|].
    rewrite lookup_insert_ne by done. left. by apply Hknown.
  - intros x i. rewrite lookup_insert_Some, Hi, Hsize. split.
    + intros [[<- <-]|[Hne [H0 H]]]; [rewrite Nat2Z.id; split; [lia|]; by rewrite lookup_app_r, Nat.sub_diag by lia|].
      split; [done|]. by apply lookup_app_l_Some.
    + intros [H0 H]. apply lookup_app_Some in H as [H|[Hge H]].
      * right. split; [|done]. intros ->. by apply list_elem_of_lookup_2 in H.
      * left. apply list_lookup_singleton_Some in H as [Hz <-]. split; [done|lia].
  - rewrite map_size_insert_None by done. rewrite length_app, Hsize. cbn. lia.
  - rewrite Hc. unfold indexed, calls_of. rewrite Eo, Et, fresh_insert by done. rewrite fmap_app.
    rewrite (tell_at_new _ 0); [done|]. cbn. rewrite length_fmap, present_length by done. by rewrite Hsize.
Qed.

Lemma add_call_silent seen worded model s f id :
  in_step seen worded model s f -> id ∈ seen -> add_call id None None (chat_folded s) = chat_folded s.
Proof.
  intros H Hid. destruct (proj1 (Forall_forall _ _) (is_tools _ _ _ _ _ H) id) as [call Hcall]; [by apply (is_seen _ _ _ _ _ H)|].
  unfold add_call. rewrite Hcall. cbn. rewrite str_app_nil_r, insert_id; [by destruct (chat_folded s)|]. by destruct call.
Qed.

Lemma with_first model s f c seen worded : in_step seen worded model s f -> match cf_first f with Some first => Some first | None => Some c end = cf_first f.
Proof. intros H. by destruct (is_first _ _ _ _ _ H) as [delta ->]. Qed.

(** One event: the client stays in step. *)
Lemma hear_in_step seen worded model s f event l :
  in_step seen worded model s f -> spells_text seen (event :: l) = true ->
  exists seen' f', in_step seen' (worded || is_word event) model (hear event s).2 f' /\ spells_text seen' l = true /\
    continues s (hear event s).2 f f' /\ chat_folded (hear event s).2 = (fold event (chat_folded s)).2.
Proof.
  intros H Hl. pose proof (is_opened _ _ _ _ _ H) as Ho. pose proof (is_model _ _ _ _ _ H) as Hm. pose proof (is_text _ _ _ _ _ H) as Htext.
  destruct event as [| ? ? ? channel more| |? ? id name arguments complete| | | |]; cbn [spells_text] in Hl; try done.
  - apply andb_true_iff in Hl as [Hch Hl]. apply negb_true_iff in Hch. rewrite is_word_delta. unfold chat_event. cbn [fold].
    pose proof (is_worded _ _ _ _ _ H) as Hworded.
    destruct (channel =s ChannelOutputText) eqn:E1; [|destruct (channel =s ChannelRefusal) eqn:E2].
    + unfold send_frame. cbn [set_folded chat_opened]. rewrite Ho. cbn [snd].
      eexists seen, _. split; [|split; [done|split; [by eapply continues_chunk|done]]].
      eapply in_step_texts; try exact H; try done; cbn; rewrite ?Hch, ?E1; [done|by eapply with_first|by rewrite Htext|].
      rewrite orb_true_r. split; [by eexists|done].
    + unfold send_frame. cbn [set_folded chat_opened]. rewrite Ho. cbn [snd].
      eexists seen, _. split; [|split; [done|split; [by eapply continues_chunk|done]]].
      eapply in_step_texts; try exact H; try done; cbn; rewrite ?Hch, ?E1; [done|by eapply with_first|done|by rewrite orb_false_r].
    + cbn [snd]. exists seen, f. split; [|split; [done|split; [by apply continues_silent|done]]].
      eapply in_step_texts; try exact H; try done; cbn; rewrite ?Hch, ?E1; try done. by rewrite orb_false_r.
  - match goal with |- context [worded || ?b] => assert (worded || b = worded) as -> by apply orb_false_r end.
    destruct (bool_decide (id ∈ seen)) eqn:Es; apply andb_true_iff in Hl as [Hn%bool_decide_eq_true Hl].
    + apply bool_decide_eq_true in Es. subst name. unfold chat_event. cbn [fold].
      destruct (proj1 (Forall_forall _ _) (is_tools _ _ _ _ _ H) id) as [call Hcall]; [by apply (is_seen _ _ _ _ _ H)|].
      destruct (in_step_known _ _ _ _ _ id call arguments H Es Hcall) as (j & Hj & _).
      destruct (complete && bool_decide (arguments = None) && bool_decide (@None string = None)) eqn:Eb; cbn [snd].
      * apply andb_true_iff in Eb as [[_ Ha]%andb_true_iff _]. apply bool_decide_eq_true in Ha as ->.
        rewrite (add_call_silent _ _ _ _ _ _ H Es). exists seen, f.
        split; [|split; [done|split; [by apply continues_silent|done]]].
        eapply in_step_texts; try exact H; try done. exact (is_worded _ _ _ _ _ H).
      * unfold delta_call. cbn [set_folded toolIndex]. rewrite Hj. unfold send_frame. cbn [set_index set_folded chat_opened]. rewrite Ho.
        cbn [snd]. set (told := match arguments with Some _ => arguments | None => Some "" end).
        destruct (in_step_known _ _ _ _ _ id call told H Es Hcall) as (j' & Hj' & Hstep). assert (j' = j) as -> by (rewrite Hj in Hj'; by simplify_eq).
        assert (add_call id None told (chat_folded s) = add_call id None arguments (chat_folded s)) as Eadd by (by destruct arguments).
        eexists seen, _. split; [|split; [done|split; [by eapply continues_chunk|done]]].
        eassert (client_add _ f = _) as ->; [|apply Hstep; try done; by rewrite Eadd].
        unfold client_add. cbn. rewrite (with_first _ _ _ _ _ _ H). reflexivity.
    + apply bool_decide_eq_false in Es. destruct Hn as [n ->]. unfold chat_event. cbn [fold].
      destruct (in_step_new _ _ _ _ _ id n arguments H Es) as (Hj & Hstep).
      assert (complete && bool_decide (arguments = None) && bool_decide (Some n = None) = false) as ->
        by (rewrite (bool_decide_eq_false_2 (Some n = None)) by done; apply andb_false_r).
      unfold delta_call. cbn [set_folded toolIndex]. rewrite Hj. unfold send_frame. cbn [set_index set_folded chat_opened]. rewrite Ho.
      cbn [snd]. assert (match arguments with Some _ | _ => arguments end = arguments) as -> by (by destruct arguments).
      eexists (id :: seen), _. split; [|split; [done|split; [by eapply continues_chunk|done]]].
      eassert (client_add _ f = _) as ->; [|by apply Hstep].
      unfold client_add. cbn. rewrite (with_first _ _ _ _ _ _ H). reflexivity.
  - unfold chat_event. cbn [fold snd]. exists seen, f. split; [|split; [done|split; [by apply continues_silent|done]]].
    eapply in_step_texts; try exact H; try done. rewrite orb_false_r. exact (is_worded _ _ _ _ _ H).
  - unfold chat_event. cbn [fold snd]. exists seen, f. split; [|split; [done|split; [by apply continues_silent|done]]].
    eapply in_step_texts; try exact H; try done. rewrite orb_false_r. exact (is_worded _ _ _ _ _ H).
  - unfold chat_event. cbn [fold snd]. exists seen, f. split; [|split; [done|split; [by apply continues_silent|done]]].
    eapply in_step_texts; try exact H; try done. rewrite orb_false_r. exact (is_worded _ _ _ _ _ H).
  - unfold chat_event. cbn [fold snd]. exists seen, f. split; [|split; [done|split; [by apply continues_silent|done]]].
    eapply in_step_texts; try exact H; try done. rewrite orb_false_r. exact (is_worded _ _ _ _ _ H).
Qed.

Lemma continues_trans s1 s2 s3 f1 f2 f3 : continues s1 s2 f1 f2 -> continues s2 s3 f2 f3 -> continues s1 s3 f1 f3.
Proof.
  intros (l & Hl & H) (l' & Hl' & H'). exists (l ++ l'). split; [by rewrite Hl', Hl, app_assoc|].
  intros rest. by rewrite <-app_assoc, H, H'.
Qed.

Lemma listen l seen worded model s f :
  in_step seen worded model s f -> spells_text seen l = true ->
  exists seen' f', in_step seen' (worded || existsb is_word l) model (foldl (fun s event => (hear event s).2) s l) f' /\
    continues s (foldl (fun s event => (hear event s).2) s l) f f' /\
    chat_folded (foldl (fun s event => (hear event s).2) s l) = foldl (fun c event => (fold event c).2) (chat_folded s) l.
Proof.
  revert seen worded s f. induction l as [|event l IH]; intros seen worded s f H Hl; cbn [existsb].
  { rewrite orb_false_r. exists seen, f. split; [done|]. split; [by apply continues_silent|done]. }
  destruct (hear_in_step _ _ _ _ _ _ _ H Hl) as (seen1 & f1 & H1 & Hl1 & Hc1 & Hf1).
  destruct (IH _ _ _ _ H1 Hl1) as (seen2 & f2 & H2 & Hc2 & Hf2). exists seen2, f2. split; [by rewrite <-orb_assoc in H2|].
  split; [by eapply continues_trans|]. cbn [foldl]. by rewrite Hf2, Hf1.
Qed.

(** A whole stream, from its start. *)
Lemma listen_start id n gen model slug at_ l :
  spells_text [] l = true ->
  let events := StreamStartEvent id n gen model slug at_ :: l in
  exists seen f, in_step seen (existsb is_word l) model (heard events) f /\ chat_folded (heard events) = collected_of events /\
    forall rest, client_fold empty_fold ((chat_frames (heard events)).*1 ++ rest) = client_fold f rest.
Proof.
  intros Hl. cbn zeta. unfold chat_after. cbn [foldl]. set (s := (hear _ new_chat).2).
  set (f := client_add (mkChunk requestID created model (mkDelta (Some "assistant") None None []) None None) empty_fold).
  destruct (listen l [] false model s f) as (seen & f' & H & (new & Hnew & Hc) & Hf); [|done|].
  { constructor; try done; cbn; try by constructor.
    - by eexists.
    - intros x. rewrite lookup_empty. by intros [].
    - intros x i. rewrite lookup_empty, lookup_nil. split; [done|by intros []]. }
  exists seen, f'. split; [done|]. split; [done|]. intros rest. rewrite Hnew. cbn. apply Hc.
Qed.

(** The answer given whole has the words of the stream. *)
Lemma folded_word event c : text (fold event c).2 = text c +:+ default "" (word_of event).
Proof.
  destruct event as [| ? ? ? channel more|? ? ? ? data|? ? id name arguments complete| | | |]; cbn [word_of fold snd default];
    rewrite ?str_app_nil_r; try done.
  - unfold add_text. destruct (channel =s ChannelOutputText); [done|].
    by destruct (channel =s ChannelRefusal), (channel =s ChannelOutputAudioTranscript); cbn; rewrite ?str_app_nil_r.
  - destruct (base64_decode data); [|done]. by destruct (_ <? _)%Z.
Qed.

Lemma folded_words l c : text (foldl (fun c event => (fold event c).2) c l) = text c +:+ words l.
Proof.
  revert c. induction l as [|event l IH]; intros c; [by rewrite str_app_nil_r|]. cbn [foldl]. rewrite IH, folded_word.
  unfold words. cbn. destruct (word_of event); cbn [default foldr]; [|rewrite str_app_nil_r; done].
  by rewrite <-str_app_assoc.
Qed.

Lemma calls_present {A} (g : ToolCall -> A) (c : collected) :
  Forall (fun id => is_Some (tools c !! id)) (toolOrder c) ->
  bool_decide (toolOrder c = []) = bool_decide (g <$> calls_of c = []).
Proof.
  intros Hall. apply bool_decide_ext. pose proof (present_length _ _ Hall) as Hlen. unfold calls_of.
  destruct (toolOrder c) as [|x order]; [done|]. destruct (omap _ _); [done|]. split; intros [=].
Qed.

End Client.

(** C38. A streamed chat completion is the completion.  For every execution of
    text whose calls are named once, and every frame of which is accepted, what
    a client of the chunks puts together up to [DONE] is the answer the same
    execution is given whole: the id, the time, the model - the start's, which
    the report repeats - the calls in their order with their names and
    arguments, the finish reason and the usage; and the content, except that
    where no words are said the client has none unless a piece told it so, and
    the whole answer the empty text unless it calls tools.  An execution that
    failed ends in one error frame with the public error of the whole answer, and
    is never read as a completion. *)
Theorem streamed_chats_are_the_whole_answer requestID receivedAt result id n gen model slug at_ l :
  spells_text [] l = true ->
  (forall report, Settle.Report result = Some report -> ResolvedModelReference report = model) ->
  let events := StreamStartEvent id n gen model slug at_ :: l in
  match chat_stream requestID (Unix receivedAt) None accepts_all events result,
        chat_answer requestID receivedAt result (collected_of events) with
  | inl frames, inl whole =>
      exists told, (client_fold empty_fold frames ≫= client_completion) = Some told /\
        cc_ID told = cc_ID whole /\ cc_Created told = cc_Created whole /\ cc_Model told = cc_Model whole /\
        (choice_Content (cc_Message told) = choice_Content (cc_Message whole) \/
         words l = "" /\ choice_Content (cc_Message told) = (if existsb is_word l then Some "" else None) /\
         choice_Content (cc_Message whole) = (if bool_decide (choice_ToolCalls (cc_Message whole) = []) then Some "" else None)) /\
        default "" (choice_Content (cc_Message told)) = words l /\
        choice_Audio (cc_Message told) = choice_Audio (cc_Message whole) /\
        choice_ToolCalls (cc_Message told) = choice_ToolCalls (cc_Message whole) /\
        cc_FinishReason told = cc_FinishReason whole /\ cc_Usage told = cc_Usage whole
  | inl frames, inr failure => client_fold empty_fold frames = None /\ last frames = Some (ErrorFrame failure)
  | inr _, _ => False
  end.
Proof.
  intros Hl Hmodel events.
  destruct (listen_start requestID (Unix receivedAt) id n gen model slug at_ l Hl) as (seen & f & H & Hf & Hc).
  assert (text (collected_of events) = words l) as Hwords by exact (folded_words l _).
  fold events in H, Hf, Hc. unfold chat_stream, chat_answer. set (s := chat_after _ _ _ _ events) in *.
  rewrite (is_opened _ _ _ _ _ _ _ H). cbn [negb].
  destruct (Settle.Failure result) as [failure|]; [|destruct (Settle.Report result) as [report|]].
  1, 3: by rewrite Hc, last_snoc.
  unfold send_frame. rewrite (is_opened _ _ _ _ _ _ _ H). cbn [accepts_all].
  change (accepts_all _ _) with (@None GoError). cbv iota. cbn [chat_frames].
  rewrite fmap_app, <-app_assoc, Hc. cbn [app fmap list_fmap fst client_fold mbind option_bind].
  destruct (is_first _ _ _ _ _ _ _ H) as [delta Hfirst]. destruct (is_silent _ _ _ _ _ _ _ H) as [Htr Hau].
  pose proof (is_text _ _ _ _ _ _ _ H) as Htext. pose proof (is_worded _ _ _ _ _ _ _ H) as Hworded.
  pose proof (is_tools _ _ _ _ _ _ _ H) as Hnone.
  rewrite Hf in Htr, Hau, Htext, Hnone. rewrite Hwords in Htext. clearbody s events.
  eexists. split; [unfold client_completion, client_add; cbn; rewrite Hfirst; reflexivity|].
  cbn. rewrite Hf, Htr, Hau, str_app_nil_r, Hwords. split_and!; try done.
  - symmetry. by apply Hmodel.
  - destruct (existsb is_word l) eqn:E.
    + destruct (proj1 Hworded eq_refl) as [told Htold]. rewrite Htold in Htext |- *. cbn in Htext. subst told.
      destruct (words l =s "") eqn:Ew; cbn [negb orb]; [right|by left].
      apply String.eqb_eq in Ew. rewrite Ew, (calls_present (fun c => mkOutputCall (call_ID c) (call_Name c) (Arguments_ c))) by exact Hnone. done.
    + assert (cf_content f = None) as Htold by (destruct (cf_content f); [exfalso; by assert (false = true) by (by apply Hworded; eexists)|done]).
      rewrite Htold in Htext |- *. cbn in Htext. rewrite <-Htext, (calls_present (fun c => mkOutputCall (call_ID c) (call_Name c) (Arguments_ c))) by exact Hnone. by right.
  - rewrite (is_calls _ _ _ _ _ _ _ H), Hf. unfold indexed. by rewrite (at_index_calls (fun c => mkOutputCall (tc_ID c) (tc_Name c) (tc_Arguments c))), <-list_fmap_compose.
Qed.

(** ** Usage *)

Definition sum_units (units : list UsageQuantity) : Z := foldr (fun q n => Quantity q + n)%Z 0%Z units.

Lemma sum_units_nonneg units : Forall (fun q => 0 <= Quantity q)%Z units -> (0 <= sum_units units)%Z.
Proof. unfold sum_units. induction 1 as [|q units Hq _ IH]; cbn; lia. Qed.

#[local] Abbreviation total_of := ChatStream.quantity_of.

(** The counts are the sums of their units while these fit an int. *)
Lemma count_units units n :
  Forall (fun q => 0 <= Quantity q)%Z units ->
  Forall (fun x => 0 <= x /\ x + sum_units units <= int64_max)%Z
    [n_prompt n; n_completion n; n_cached n; n_reasoning n; audioIn n; audioOut n] ->
  let m := foldl count_unit n units in
  n_prompt m = (n_prompt n + total_of UnitInputTokens units + total_of UnitAudioInputTokens units)%Z /\
  n_completion m = (n_completion n + total_of UnitOutputTokens units + total_of UnitAudioOutputTokens units)%Z /\
  n_cached m = (n_cached n + total_of UnitCachedInputTokens units)%Z /\
  n_reasoning m = (n_reasoning n + total_of UnitReasoningTokens units)%Z /\
  audioIn m = (audioIn n + total_of UnitAudioInputTokens units)%Z /\ audioOut m = (audioOut n + total_of UnitAudioOutputTokens units)%Z.
Proof.
  intros Hq. revert n. induction Hq as [|q units Hq Hrest IH]; intros [p c ca r a b] Hn; [cbn; lia|].
  pose proof (sum_units_nonneg units Hrest) as Hs. cbn [foldl].
  rewrite !Forall_cons in Hn. cbn [n_prompt n_completion n_cached n_reasoning audioIn audioOut sum_units foldr] in Hn.
  fold (sum_units units) in Hn. destruct Hn as (H1 & H2 & H3 & H4 & H5 & H6 & _).
  specialize (IH (count_unit (mkCounting p c ca r a b) q)). cbn zeta in IH. cbn [ChatStream.quantity_of foldr]. revert IH.
  unfold ChatStream.quantity_of, count_unit. cbn [foldr]. unfold int64_max in *.
  repeat match goal with |- context [Unit q =s ?u] => let E := fresh "E" in destruct (Unit q =s u) eqn:E; bool_cases;
    try (match goal with H : Unit q = ?u1, H' : Unit q = ?u2 |- _ => rewrite H in H'; discriminate end) end;
    rewrite ?wrap64_id by (unfold in_int64, int64_min, int64_max; lia); cbn [n_prompt n_completion n_cached n_reasoning audioIn audioOut];
    intros IH; (destruct IH as (I1 & I2 & I3 & I4 & I5 & I6); [repeat constructor; lia|]); rewrite I1, I2, I3, I4, I5, I6; lia.
Qed.

Lemma token_units_fit units :
  Forall (fun q => 0 <= Quantity q)%Z units ->
  Forall (fun u => 0 <= total_of u units)%Z [UnitInputTokens; UnitAudioInputTokens; UnitOutputTokens; UnitAudioOutputTokens] /\
  (total_of UnitInputTokens units + total_of UnitAudioInputTokens units + total_of UnitOutputTokens units
   + total_of UnitAudioOutputTokens units <= sum_units units)%Z.
Proof.
  intros Hq. rewrite !Forall_cons. induction Hq as [|q units Hq _ IH]; [cbn; split; [repeat split; lia || constructor|lia]|].
  destruct IH as ((H1 & H2 & H3 & H4 & _) & H). unfold ChatStream.quantity_of, sum_units in *. cbn [foldr].
  repeat match goal with |- context [Unit q =s ?u] => let E := fresh "E" in destruct (Unit q =s u) eqn:E; bool_cases;
    try (match goal with H : Unit q = ?u1, H' : Unit q = ?u2 |- _ => rewrite H in H'; discriminate end) end;
    (split; [repeat split; lia || constructor|lia]).
Qed.

(** The usage block counts every unit once.  While the units fit an int, the
    prompt is the uncached text and audio tokens read, the completion the
    visible text and audio tokens written, the total their sum, and the cached
    and reasoning tokens are told beside them. *)
Theorem chat_usage_counts_units units :
  Forall (fun q => 0 <= Quantity q)%Z units -> (sum_units units <= int64_max)%Z ->
  let u := chatUsageOf units in
  PromptTokens u = (total_of UnitInputTokens units + total_of UnitAudioInputTokens units)%Z /\
  CompletionTokens u = (total_of UnitOutputTokens units + total_of UnitAudioOutputTokens units)%Z /\
  TotalTokens u = (PromptTokens u + CompletionTokens u)%Z /\
  CachedTokens u = total_of UnitCachedInputTokens units /\ ReasoningTokens u = total_of UnitReasoningTokens units /\
  default 0%Z (PromptAudioTokens u) = total_of UnitAudioInputTokens units /\
  default 0%Z (CompletionAudioTokens u) = total_of UnitAudioOutputTokens units.
Proof.
  intros Hq Hsum. pose proof (sum_units_nonneg units Hq) as Hs.
  destruct (count_units units (mkCounting 0 0 0 0 0 0) Hq) as (E1 & E2 & E3 & E4 & E5 & E6); [by repeat constructor|].
  cbn [n_prompt n_completion n_cached n_reasoning audioIn audioOut] in *. unfold chatUsageOf. cbn zeta.
  cbn [PromptTokens CompletionTokens TotalTokens CachedTokens PromptAudioTokens ReasoningTokens CompletionAudioTokens].
  destruct (token_units_fit units Hq) as [Hfit Hle]. rewrite !Forall_cons in Hfit. destruct Hfit as (P1 & P2 & P3 & P4 & _).
  rewrite E1, E2, E3, E4, E5, E6, !Z.add_0_l.
  split_and!; try done; [rewrite wrap64_id; [done|unfold in_int64, int64_min, int64_max in *; lia]| |];
    [destruct (Z.ltb_spec 0 (total_of UnitAudioInputTokens units))|destruct (Z.ltb_spec 0 (total_of UnitAudioOutputTokens units))];
    cbn [default id]; lia.
Qed.

(** A stock client is told less than the provider told: the prompt of an
    OpenAI-compatible answer includes its cached tokens and the completion its
    reasoning, and the block says neither does. *)
Theorem cached_tokens_leave_the_prompt usage prompt completion :
  ChatStream.nested usage -> ChatStream.PromptTokens usage = Some prompt -> ChatStream.CompletionTokens usage = Some completion ->
  (prompt + completion <= int64_max)%Z ->
  let u := chatUsageOf (ChatStream.normalizeUsage usage) in
  PromptTokens u = (prompt - CachedTokens u)%Z /\ CompletionTokens u = (completion - ReasoningTokens u)%Z /\
  CachedTokens u = ChatStream.cached_of usage /\ ReasoningTokens u = ChatStream.reasoning_of usage.
Proof.
  intros [Hp Hc] Ep Ec Hle. specialize (Hp _ Ep). specialize (Hc _ Ec).
  pose proof (ChatStream.cached_nonneg usage). pose proof (ChatStream.reasoning_nonneg usage).
  unfold ChatStream.normalizeUsage. rewrite Ep, Ec, !ChatStream.difference by lia.
  set (cached := ChatStream.cached_of usage) in *. set (reasoning := ChatStream.reasoning_of usage) in *. clearbody cached reasoning.
  unfold int64_max in *. unfold chatUsageOf. destruct (0 <? cached)%Z eqn:E1, (0 <? reasoning)%Z eqn:E2; bool_cases; cbn;
    rewrite ?wrap64_id by (unfold in_int64, int64_min, int64_max; lia); repeat split; lia.
Qed.

(** ** Examples *)

Definition example_units : list UsageQuantity := [mkQuantity UnitInputTokens 60; mkQuantity UnitCachedInputTokens 40; mkQuantity UnitOutputTokens 9].

Definition example_usage_report : UsageReport :=
  mkReport UsageReportSchemaVersion "req_1" None (mkAttribution (mkPrincipal None "acct" "app" "cred" "production" None) None "req_1" None)
    OutcomeCompleted example_units UsageProviderReported "acme/m@1" "acme" "dep" 0 None (Spells 0) (Spells 1000000) None.

Definition example_settled : Settle.Result := Settle.mkResult None None None (Some example_usage_report) None Settle.no_cost.

Definition example_start : StreamEvent := StreamStartEvent "req_1" 0 None "acme/m@1" "acme" (Spells 0).

(** Text, and two calls whose arguments come interleaved. *)
Definition example_text : list StreamEvent :=
  [StreamDeltaEvent "req_1" 1 0 ChannelOutputText "Ho"; StreamDeltaEvent "req_1" 2 0 ChannelReasoning "hm";
   StreamToolCallEvent "req_1" 3 "call_a" (Some "look") None false; StreamToolCallEvent "req_1" 4 "call_b" (Some "find") (Some "{") false;
   StreamDeltaEvent "req_1" 5 0 ChannelOutputText "la"; StreamToolCallEvent "req_1" 6 "call_a" None (Some "{}") false;
   StreamToolCallEvent "req_1" 7 "call_b" None (Some "}") false; StreamToolCallEvent "req_1" 8 "call_a" None None true;
   StreamUsageEvent "req_1" 9 "dep" example_units UsageProviderReported; StreamDoneEvent "req_1" 10 None FinishToolCalls (Spells 1000000)].

Definition example_received : Instant := KeyPool.unix_epoch + 1700000000 * Second.

Lemma example_is_told :
  chat_answer "req_1" example_received example_settled (collected_of (example_start :: example_text)) =
    inl (mkCompletion "req_1" 1700000000 "acme/m@1"
           (mkChoiceMessage (Some "Hola") None [mkOutputCall "call_a" "look" "{}"; mkOutputCall "call_b" "find" "{}"])
           "tool_calls" (chatUsageOf example_units)).
Proof. vm_compute. reflexivity. Qed.

Lemma streamed_chats_are_the_whole_answer_witness :
  match chat_stream "req_1" (Unix example_received) None accepts_all (example_start :: example_text) example_settled with
  | inl frames =>
      exists told, (client_fold empty_fold frames ≫= client_completion) = Some told /\
        choice_ToolCalls (cc_Message told) = [mkOutputCall "call_a" "look" "{}"; mkOutputCall "call_b" "find" "{}"]
  | inr _ => False
  end.
Proof.
  assert (H : spells_text [] example_text = true) by (vm_compute; reflexivity).
  assert (Hm : forall report, Settle.Report example_settled = Some report -> ResolvedModelReference report = "acme/m@1")
    by (intros report E; injection E as <-; reflexivity).
  pose proof (streamed_chats_are_the_whole_answer "req_1" example_received example_settled "req_1" 0 None "acme/m@1" "acme" (Spells 0)
    example_text H Hm) as Hagree.
  cbv zeta in Hagree.
  change (StreamStartEvent "req_1" 0 None "acme/m@1" "acme" (Spells 0) :: example_text) with (example_start :: example_text) in Hagree.
  rewrite example_is_told in Hagree.
  destruct (chat_stream "req_1" (Unix example_received) None accepts_all (example_start :: example_text) example_settled) as [frames|]; [|done].
  destruct Hagree as (told & Htold & _ & _ & _ & _ & _ & _ & Hcalls & _). by exists told.
Defined.

Lemma chat_usage_counts_units_witness :
  PromptTokens (chatUsageOf example_units) = 60%Z /\ TotalTokens (chatUsageOf example_units) = 69%Z.
Proof.
  destruct (chat_usage_counts_units example_units) as (Hp & Hc & Ht & _).
  - unfold example_units. repeat constructor; vm_compute; discriminate.
  - vm_compute. discriminate.
  - split; [exact Hp|rewrite Ht, Hp, Hc; reflexivity].
Defined.

(** An answer that only refuses: the client of its stream is left without
    content, and the same answer whole says the empty text. *)
Definition example_refusal : list StreamEvent :=
  [StreamDeltaEvent "req_1" 1 0 ChannelRefusal "No."; StreamDoneEvent "req_1" 2 None FinishContentFilter (Spells 1000000)].

Lemma wordless_answers_differ :
  match chat_stream "req_1" (Unix example_received) None accepts_all (example_start :: example_refusal) example_settled,
        chat_answer "req_1" example_received example_settled (collected_of (example_start :: example_refusal)) with
  | inl frames, inl whole =>
      (fun told => choice_Content (cc_Message told)) <$> (client_fold empty_fold frames ≫= client_completion) = Some None /\
      choice_Content (cc_Message whole) = Some ""
  | _, _ => False
  end.
Proof. vm_compute. repeat split. Qed.

(** A spoken answer, and what of it a stream carries: neither its audio nor its
    words, though a streamed chat may ask for speech. *)
Definition example_speech : list StreamEvent :=
  [StreamAudioEvent "req_1" 1 0 "audio/pcm" "AAEC"; StreamDeltaEvent "req_1" 2 0 ChannelOutputAudioTranscript "Hola";
   StreamDoneEvent "req_1" 3 None FinishStop (Spells 1000000)].

Lemma spoken_streams_are_silent :
  chat_stream "req_1" 1700000000 None accepts_all (example_start :: example_speech) example_settled =
    inl [Chunk (mkChunk "req_1" 1700000000 "acme/m@1" (mkDelta (Some "assistant") None None []) None None);
         Chunk (mkChunk "req_1" 1700000000 "acme/m@1" no_delta (Some "stop") (Some (chatUsageOf example_units)));
         DoneFrame].
Proof. vm_compute. reflexivity. Qed.

(** The whole spoken answer: its words are its content too, and its audio is
    said to be kept for an hour. *)
Lemma spoken_answers_say_their_words_twice :
  match chat_answer "req_1" example_received example_settled (collected_of (example_start :: example_speech)) with
  | inl whole =>
      choice_Content (cc_Message whole) = Some "Hola" /\
      choice_Audio (cc_Message whole) = Some (mkOutputAudio "audio_req_1" "AAEC" "Hola" (cc_Created whole + 3600))
  | inr _ => False
  end.
Proof. vm_compute. split; reflexivity. Qed.

(** A refusal's finish is told as it is, and its words are not. *)
Lemma refusals_are_told_without_words :
  match chat_answer "req_1" example_received example_settled
          (collected_of [example_start; StreamDeltaEvent "req_1" 1 0 ChannelRefusal "No"; StreamDoneEvent "req_1" 2 None FinishRefusal (Spells 1000000)]) with
  | inl whole => cc_FinishReason whole = "refusal" /\ choice_Content (cc_Message whole) = Some ""
  | inr _ => False
  end.
Proof. vm_compute. split; reflexivity. Qed.
