(* ===== verification/PublicRequests.v ===== *)
(** * The text requests of the public lane (internal/publicapi/text.go and wire.go)

    From the decoded body of /v1/responses, /v1/chat/completions, /v1/embeddings
    and /v1/decisions to what Oxy is asked and what is executed, and the answers
    of the two that do not stream. *)

From S2P Require Import Prelude Ids Text Contract Request Provider Inventory PublicContract Grant PublicLane.
From S2P Require Adapter Answers ProviderCost Settle ChatStream PublicText.

(** ** Bodies (wire.go)

    The fields that are decoded by hand are read of their JSON; the rest is as
    encoding/json fills it. *)

Inductive modelTarget := Level (level : string) | Reference (reference : string) | NoTarget.

(** [modelTarget.UnmarshalJSON]; null is the empty string. *)
Definition modelTarget_of (value : Json) : option modelTarget :=
  match value with
  | JString s => if (ParsePowerLevel s).2 then Some (Level s) else if ModelReference_Valid s then Some (Reference s) else None
  | _ => None
  end.

(** [grantTarget], of a target that is there. *)
Definition grantTarget (t : modelTarget) : option GrantTarget :=
  match t with
  | Level level => Some (LevelTarget level)
  | Reference reference => Some (ModelTarget reference)
  | NoTarget => None
  end.

Definition text_part (s : string) : ContentPart := mkPart ContentPartText (Some s) None None None.

(** [responsesInput.UnmarshalJSON]; [messages_of] decodes a list of messages
    strictly. *)
Definition responsesInput_of (messages_of : Json -> option (list Message)) (value : Json) : option (list Message) :=
  match value with
  | JString s => if s =s "" then None else Some [mkMessage RoleUser [text_part s] None None None]
  | _ => messages ← messages_of value; match messages with [] => None | _ => Some messages end
  end.

(** [chatContent.UnmarshalJSON], of content that is not null. *)
Definition chatContent_of (parts_of : Json -> option (list ContentPart)) (value : Json) : option (list ContentPart) :=
  match value with JString s => Some [text_part s] | _ => parts_of value end.

(** The strings of a list; encoding/json reads null as the empty string. *)
Definition strings_of (value : Json) : option (list string) :=
  match value with
  | JArray items => mapM (fun item => match item with JString s => Some s | JNull => Some "" | _ => None end) items
  | JNull => Some []
  | _ => None
  end.

(** [chatStop.UnmarshalJSON], of a value that is not null. *)
Definition chatStop_of (value : Json) : option (list string) :=
  match value with
  | JString s => Some [s]
  | _ => l ← strings_of value; if (8 <? Z.of_nat (length l))%Z then None else Some l
  end.

(** [embeddingsInput.UnmarshalJSON]; null is the empty string. *)
Definition embeddingsInput_of (value : Json) : option (list string) :=
  match value with
  | JString s => if s =s "" then None else Some [s]
  | JNull => None
  | _ =>
      l ← strings_of value;
      if (Z.of_nat (length l) =? 0)%Z || (2048 <? Z.of_nat (length l))%Z || existsb (fun s => s =s "") l then None else Some l
  end.

Record responsesRequest := mkResponses {
  rr_Model : option modelTarget;
  rr_Input : list Message;
  rr_MaxOutputTokens : option Z;
  rr_Stream : option bool;
  rr_Sampling : SamplingParameters;
  rr_Tools : list ToolDefinition;
  rr_ToolChoice : option ToolChoice;
  rr_ResponseFormat : option ResponseFormat;
  rr_Reasoning : option string;
}.

Record chatToolCall := mkChatToolCall { tcl_ID : string; tcl_Type : string; tcl_Name : string; tcl_Arguments : string }.

Record chatMessage := mkChatMessage {
  cm_Role : string;
  cm_Content : option (list ContentPart);
  cm_Name : option string;
  cm_ToolCallID : option string;
  cm_ToolCalls : list chatToolCall;
}.

Record chatTool := mkChatTool {
  ctl_Type : string;
  ctl_Name : string;
  ctl_Description : option string;
  ctl_Parameters : option (list (string * Json));
  ctl_Strict : option bool;
}.

Record jsonSchema := mkJsonSchema { js_Name : string; js_Schema : option (list (string * Json)); js_Strict : option bool }.
Record chatResponseFormat := mkChatFormat { cf_Type : string; JSONSchema : option jsonSchema }.
Record chatAudio := mkChatAudio { ca_Voice : string; ca_Format : string }.

Record chatRequest := mkChatRequest {
  cr_Model : modelTarget;
  cr_Messages : list chatMessage;
  MaxTokens : option Z;
  MaxCompletionTokens : option Z;
  cr_Temperature : option float64;
  cr_TopP : option float64;
  cr_FrequencyPenalty : option float64;
  cr_PresencePenalty : option float64;
  cr_Seed : option Z;
  Stop : option (list string);
  cr_Stream : option bool;
  cr_Tools : list chatTool;
  cr_ToolChoice : option ToolChoice;
  cr_ResponseFormat : option chatResponseFormat;
  ReasoningEffort : option string;
  Modalities : option (list string);
  cr_Audio : option chatAudio;
  cr_User : option string;
}.

Record embeddingsRequest := mkEmbeddings {
  er_Model : string;
  er_Input : list string;
  EncodingFormat : option string;
  Dimensions : option Z;
  er_User : option string;
}.

Record decisionRequest := mkDecisions {
  dr_Model : option string;
  dr_Input : DecisionInput;
}.

(** ** What Oxy is asked of a text request *)

Record GrantRequestFacts := mkFacts {
  EstimatedInputTokens : Z;
  fact_MaxOutputTokens : option Z;
  EmbeddingInputs : option Z;
  InputImages : option Z;
  DeclaredTools : Z;
  fact_Stream : bool;
}.

Record textAsk := mkTextAsk { ta_ask : authorization; ta_target : option GrantTarget; ta_facts : GrantRequestFacts }.

Definition is_true (b : option bool) : bool := default false b.
Definition size_of {A} (l : list A) : Z := Z.of_nat (length l).

(** [estimatedTokens]. *)
Definition part_tokens (part : ContentPart) : Z :=
  match part_Text part with Some s => utf16Length s / 4 + 1 | None => 0 end +
  match part_Source part with
  | Some source =>
      match Data source with
      | Some data => if negb (part_Type part =s ContentPartImage) then len data / 4 / 4 else 0
      | None => 0
      end
  | None => 0
  end.

Definition message_tokens (m : Message) : Z :=
  (4 + foldr (fun part n => part_tokens part + n) 0 (Content m)
   + foldr (fun call n => len (Arguments_ call) / 4 + 1 + n) 0 (default [] (ToolCalls m)))%Z.

Definition estimatedTokens (messages : list Message) : Z := foldr (fun m n => message_tokens m + n)%Z 0%Z messages.

(** [ImageInputIssue.Param]. *)
Definition field_text (f : ImageIssueField) : string :=
  match f with
  | ImageIssueRole => "role" | ImageIssueSource => "source" | ImageIssueMediaType => "source.mediaType"
  | ImageIssueData => "source.data" | ImageIssueCount => "count"
  end.
Definition issue_param (prefix : string) (i : ImageInputIssue) : string :=
  match PartIndex i with
  | None => prefix
  | Some part => prefix +:+ "[" +:+ Itoa (MessageIndex i) +:+ "].content[" +:+ Itoa part +:+ "]." +:+ field_text (Field i)
  end.

(** [imageInput]: the count, or the parameter at fault. *)
Definition imageInput (messages : list Message) (prefix : string) : option Z + string :=
  match CheckImageInput messages with
  | (_, issue :: _) => inr (issue_param prefix issue)
  | (images, []) => inl (if (images =? 0)%Z then None else Some images)
  end.

Definition refused_at {A} (id param : string) : A + PublicError := inr (invalid id param).

(** *** /v1/responses *)

Fixpoint tool_repeated (seen : list string) (tools : list ToolDefinition) : bool :=
  match tools with
  | [] => false
  | tool :: rest => isMember (tool_Name tool) seen || tool_repeated (tool_Name tool :: seen) rest
  end.

Definition validateResponses (r : responsesRequest) : option string :=
  if match rr_MaxOutputTokens r with Some n => (n <? 1)%Z | None => false end then Some "maxOutputTokens"
  else if bool_decide (is_Some (rr_ToolChoice r)) && (size_of (rr_Tools r) =? 0)%Z then Some "toolChoice"
  else if (128 <? size_of (rr_Tools r))%Z then Some "tools"
  else if (8 <? size_of (default [] (StopSequences (rr_Sampling r))))%Z then Some "stopSequences"
  else if tool_repeated [] (rr_Tools r) then Some "tools"
  else None.

Definition responses_ask (id body : string) (r : responsesRequest) : textAsk + PublicError :=
  match validateResponses r with
  | Some param => refused_at id param
  | None =>
      match imageInput (rr_Input r) "input" with
      | inr param => refused_at id param
      | inl images =>
          inl (mkTextAsk (mkAuthorization "responses" body None) (rr_Model r ≫= grantTarget)
                 (mkFacts (estimatedTokens (rr_Input r)) (rr_MaxOutputTokens r) None images (size_of (rr_Tools r)) (is_true (rr_Stream r))))
      end
  end.

Definition messages_input (messages : list Message) : Input := mkInput None InputMessages (Some messages) None None.

Definition responses_envelope (a : admission) (r : responsesRequest) : Request :=
  let e := request a ModalityText APIFormatResponses (messages_input (rr_Input r)) in
  mkRequest None None None (SchemaVersion e) (request_Attribution e) (Target e) (Modality e) (request_Input e)
    (is_true (rr_Stream r)) (rr_MaxOutputTokens r) (rr_Sampling r) (rr_Reasoning r) (rr_Tools r) (rr_ToolChoice r)
    (rr_ResponseFormat r) (APIFormat e) (AuthorizedRoutes e).

(** *** /v1/chat/completions *)

Definition spoken_in (modalities : list string) : bool := isMember "audio" modalities.

(** The refusals of [chatMessages] before a message is read. *)
Definition chat_refusal (r : chatRequest) : option string :=
  let modalities := default ["text"] (Modalities r) in
  let spoken := spoken_in modalities in
  if (size_of (cr_Messages r) =? 0)%Z then Some "messages"
  else if bool_decide (is_Some (MaxTokens r)) && bool_decide (is_Some (MaxCompletionTokens r)) then Some "max_completion_tokens"
  else if negb (forallb (fun m => (m =s "text") || (m =s "audio")) modalities) then Some "modalities"
  else if negb (isMember "text" modalities) then Some "modalities"
  else if spoken && bool_decide (cr_Audio r = None) then Some "audio"
  else if negb spoken && bool_decide (is_Some (cr_Audio r)) then Some "modalities"
  else if spoken && is_true (cr_Stream r) && match cr_Audio r with Some a => negb (ca_Format a =s "pcm16") | None => false end
  then Some "audio.format"
  else if bool_decide (is_Some (cr_ToolChoice r)) && (size_of (cr_Tools r) =? 0)%Z then Some "tool_choice"
  else None.

Definition translate_call (call : chatToolCall) : option ToolCall :=
  if negb (tcl_Type call =s "function") then None else Some (mkToolCall (tcl_ID call) (tcl_Name call) (tcl_Arguments call)).

Definition translate_message (m : chatMessage) : option Message :=
  calls ← mapM translate_call (cm_ToolCalls m);
  Some (mkMessage (cm_Role m) (default [] (cm_Content m)) (cm_Name m) (cm_ToolCallID m)
          (match calls with [] => None | _ => Some calls end)).

Fixpoint translate_messages (index : Z) (l : list chatMessage) : list Message + string :=
  match l with
  | [] => inl []
  | m :: l =>
      match translate_message m with
      | None => inr ("messages[" +:+ Itoa index +:+ "].tool_calls")
      | Some translated =>
          match translate_messages (index + 1) l with inl rest => inl (translated :: rest) | inr param => inr param end
      end
  end.

(** [chatMessages]: the messages, or the parameter at fault. *)
Definition chatMessages (r : chatRequest) : list Message + string :=
  match chat_refusal r with Some param => inr param | None => translate_messages 0 (cr_Messages r) end.

Definition chat_max (r : chatRequest) : option Z :=
  match MaxCompletionTokens r with Some n => Some n | None => MaxTokens r end.

Definition chat_ask (id body : string) (r : chatRequest) : (list Message * textAsk) + PublicError :=
  match chatMessages r with
  | inr param => refused_at id param
  | inl messages =>
      match imageInput messages "messages" with
      | inr param => refused_at id param
      | inl images =>
          inl (messages,
               mkTextAsk (mkAuthorization "chat_completions" body (cr_User r)) (grantTarget (cr_Model r))
                 (mkFacts (estimatedTokens messages) (chat_max r) None images (size_of (cr_Tools r)) (is_true (cr_Stream r))))
      end
  end.

Definition chat_tool (t : chatTool) : ToolDefinition :=
  mkTool "function" (ctl_Name t) (ctl_Description t) (ctl_Parameters t) (ctl_Strict t).

Definition chat_format (f : chatResponseFormat) : ResponseFormat :=
  match JSONSchema f with
  | None => mkResponseFormat (cf_Type f) None None None
  | Some s => mkResponseFormat (cf_Type f) (Some (js_Name s)) (js_Schema s) (Some (is_true (js_Strict s)))
  end.

Definition chat_audio (a : chatAudio) : AudioOutputParameters :=
  mkAudioOutput (ca_Voice a) (if ca_Format a =s "pcm16" then AudioOutputPCM else ca_Format a).

Definition chat_envelope (a : admission) (messages : list Message) (r : chatRequest) : Request :=
  let e := request a ModalityText APIFormatChatCompletions (messages_input messages) in
  mkRequest None None (chat_audio <$> cr_Audio r) (SchemaVersion e) (request_Attribution e) (Target e) (Modality e) (request_Input e)
    (is_true (cr_Stream r)) (chat_max r)
    (mkSampling (cr_Temperature r) (cr_TopP r) None (cr_FrequencyPenalty r) (cr_PresencePenalty r) (cr_Seed r) (Stop r))
    (ReasoningEffort r) (chat_tool <$> cr_Tools r) (cr_ToolChoice r) (chat_format <$> cr_ResponseFormat r) (APIFormat e)
    (AuthorizedRoutes e).

(** *** /v1/embeddings *)

Definition user_bounded (user : option string) : bool :=
  match user with Some u => negb ((u =s "") || (64 <? len u)%Z) | None => true end.

Definition embeddings_refusal (r : embeddingsRequest) : option string :=
  if negb (ModelReference_Valid (er_Model r)) then Some "model"
  else if match EncodingFormat r with Some f => negb (f =s "float") | None => false end then Some "encoding_format"
  else if match Dimensions r with Some n => negb (n =? ChatStream.EmbeddingDimension)%Z | None => false end then Some "dimensions"
  else if negb (user_bounded (er_User r)) then Some "user"
  else None.

Definition texts_tokens (texts : list string) : Z := foldr (fun s n => utf16Length s / 4 + 1 + n)%Z 0%Z texts.

Definition embeddings_ask (id body : string) (r : embeddingsRequest) : textAsk + PublicError :=
  match embeddings_refusal r with
  | Some param => refused_at id param
  | None =>
      inl (mkTextAsk (mkAuthorization "embeddings" body (er_User r)) (Some (ModelTarget (er_Model r)))
             (mkFacts (texts_tokens (er_Input r)) None (Some (size_of (er_Input r))) None 0 false))
  end.

Definition embeddings_envelope (a : admission) (r : embeddingsRequest) : Request :=
  request a ModalityEmbedding APIFormatEmbeddings (mkInput None InputTextBatch None None (Some (er_Input r))).

(** The vectors, the model and the two counts of the answer. *)
Definition embeddings_answer (id : string) (result : Settle.Result)
    : (list (Z * list float64) * string * Z * Z) + PublicError :=
  match Settle.Failure result, Settle.res_Embedding result with
  | None, Some e =>
      let answer := Settle.es_Result e in
      inl (Adapter.Data answer, Settle.es_Model e, Adapter.emb_InputTokens answer, Adapter.emb_TotalTokens answer)
  | _, _ => inr (PublicText.failureOf result id)
  end.

(** *** /v1/decisions *)

(** [mayAnswer]. *)
Definition mayAnswer (snapshot : Inventory) (model : option string) (id : string) : bool :=
  match model with
  | None => true
  | Some reference =>
      match Inventory_Deployment id snapshot with Some route => Adapter.r_ModelReference route =s reference | None => false end
  end.

(** [text] is what [ValidateDecisionJSONUnicode] says of the body. *)
Definition decisions_ask (id body : string) (unicode_ok : bool) (snapshot : Inventory) (costs : option ProviderCost.Cards)
    (r : decisionRequest) : textAsk + PublicError :=
  if negb unicode_ok then inr (NewPublicError id CodeInvalidRequest)
  else if match dr_Model r with Some m => negb (ModelReference_Valid m) || negb (Pinned m) | None => false end then refused_at id "model"
  else if bool_decide (is_Some (DecisionInput_Validate (dr_Input r))) then refused_at id "questions"
  else
    let estimate :=
      ((Z.max (len body) (Total (Budget (dr_Input r))) + 3) / 4
       + ProviderCost.Cards_RequestInputTokens (mayAnswer snapshot (dr_Model r)) costs)%Z in
    inl (mkTextAsk (mkAuthorization "decisions" body None) (ModelTarget <$> dr_Model r)
           (mkFacts estimate None None None 0 false)).

Definition decisions_envelope (a : admission) (r : decisionRequest) : Request :=
  request a ModalityText APIFormatDecisions (mkInput (Some (dr_Input r)) InputDecisions None None None).

(** The answers, the model and the units, or the refusal. *)
Definition decisions_answer (id : string) (result : Settle.Result)
    : (string * list Answers.DecisionAnswer * list UsageQuantity) + PublicError :=
  match Settle.Failure result, Settle.res_Decisions result with
  | None, Some d => inl (Settle.dec_Model d, Settle.dec_Data d, Units (Settle.dec_Usage d))
  | _, _ =>
      let failure := PublicText.failureOf result id in
      inr (if negb (bool_decide (ProviderCost.Attempts (Settle.UpstreamCost result) = [])) && pub_Retryable failure
           then NewPublicError id CodeProviderError else failure)
  end.

(** ** Chat messages *)

(** What a chat body must be to be translated. *)
Record chat_accepts (r : chatRequest) : Prop := {
  ac_messages : cr_Messages r <> [];
  ac_max : MaxTokens r = None \/ MaxCompletionTokens r = None;
  ac_modalities : forall m, m ∈ default ["text"] (Modalities r) -> m = "text" \/ m = "audio";
  ac_text : "text" ∈ default ["text"] (Modalities r);
  ac_audio : is_Some (cr_Audio r) <-> "audio" ∈ default ["text"] (Modalities r);
  ac_streamed : is_true (cr_Stream r) = true -> forall a, cr_Audio r = Some a -> ca_Format a = "pcm16";
  ac_choice : is_Some (cr_ToolChoice r) -> cr_Tools r <> [];
  ac_calls : forall m call, m ∈ cr_Messages r -> call ∈ cm_ToolCalls m -> tcl_Type call = "function";
}.

(** A message and the message it is translated to. *)
Record same_message (m : chatMessage) (m' : Message) : Prop := {
  sm_role : Role m' = cm_Role m;
  sm_content : Content m' = default [] (cm_Content m);
  sm_name : message_Name m' = cm_Name m;
  sm_answers : ToolCallID m' = cm_ToolCallID m;
  sm_calls : default [] (ToolCalls m') = (fun c => mkToolCall (tcl_ID c) (tcl_Name c) (tcl_Arguments c)) <$> cm_ToolCalls m;
  sm_none : ToolCalls m' <> Some [];
}.

Lemma translate_calls_spec calls :
  match mapM translate_call calls with
  | Some l => l = ((fun c => mkToolCall (tcl_ID c) (tcl_Name c) (tcl_Arguments c)) <$> calls) /\
              Forall (fun c => tcl_Type c = "function") calls
  | None => Exists (fun c => tcl_Type c <> "function") calls
  end.
Proof.
  induction calls as [|c calls IH]; [by split; [|constructor]|].
  change (mapM translate_call (c :: calls)) with (x ← translate_call c; k ← mapM translate_call calls; mret (x :: k)).
  destruct (translate_call c) as [d|] eqn:Ed; unfold translate_call in Ed; destruct (tcl_Type c =s "function") eqn:E;
    try done; bool_cases; [injection Ed as <-|by left]; cbn [mbind option_bind].
  destruct (mapM translate_call calls) as [l|]; cbn [mbind option_bind]; [|by right]. destruct IH as [-> H]. split; [done|]. by constructor.
Qed.

Lemma translate_message_spec m :
  match translate_message m with
  | Some m' => same_message m m' /\ Forall (fun c => tcl_Type c = "function") (cm_ToolCalls m)
  | None => Exists (fun c => tcl_Type c <> "function") (cm_ToolCalls m)
  end.
Proof.
  unfold translate_message. pose proof (translate_calls_spec (cm_ToolCalls m)) as H.
  destruct (mapM translate_call (cm_ToolCalls m)) as [l|]; [|done]. destruct H as [-> H]. cbn. split; [|done].
  constructor; cbn; try done; by destruct (cm_ToolCalls m).
Qed.

Lemma translate_messages_spec l index :
  match translate_messages index l with
  | inl l' => Forall2 same_message l l' /\ Forall (fun m => Forall (fun c => tcl_Type c = "function") (cm_ToolCalls m)) l
  | inr param => exists i m, l !! i = Some m /\ Exists (fun c => tcl_Type c <> "function") (cm_ToolCalls m) /\
      param = "messages[" +:+ Itoa (index + Z.of_nat i) +:+ "].tool_calls"
  end.
Proof.
  revert index. induction l as [|m l IH]; intros index; cbn [translate_messages]; [by split; constructor|].
  pose proof (translate_message_spec m) as Hm. destruct (translate_message m) as [m'|].
  2: { exists 0%nat, m. split; [done|]. split; [done|]. by rewrite Z.add_0_r. }
  destruct Hm as [Hm Hc]. specialize (IH (index + 1)%Z). destruct (translate_messages (index + 1) l) as [l'|param].
  - destruct IH as [H H']. split; by constructor.
  - destruct IH as (i & x & Hi & Hx & ->). exists (S i), x. split; [done|]. split; [done|]. do 3 f_equal. lia.
Qed.

Lemma size_of_zero {A} (l : list A) : (size_of l =? 0)%Z = true <-> l = [].
Proof. unfold size_of. rewrite Z.eqb_eq. destruct l; cbn; [done|]. split; [lia|done]. Qed.

(** What the first checks let through. *)
Lemma chat_refusal_None r :
  chat_refusal r = None ->
  (Forall (fun m => Forall (fun c => tcl_Type c = "function") (cm_ToolCalls m)) (cr_Messages r) -> chat_accepts r).
Proof.
  unfold chat_refusal. cbn zeta. set (modalities := default ["text"] (Modalities r)).
  destruct (size_of (cr_Messages r) =? 0)%Z eqn:E1; [done|].
  destruct (_ && bool_decide (is_Some (MaxCompletionTokens r))) eqn:E2; [done|].
  destruct (forallb _ modalities) eqn:E3; cbn [negb]; [|done].
  destruct (isMember "text" modalities) eqn:E4; cbn [negb]; [|done].
  destruct (spoken_in modalities && _) eqn:E5; [done|]. destruct (negb (spoken_in modalities) && _) eqn:E6; [done|].
  destruct (_ && match cr_Audio r with Some _ => _ | None => _ end) eqn:E7; [done|].
  destruct (bool_decide (is_Some (cr_ToolChoice r)) && _) eqn:E8; [done|]. intros _ Hcalls.
  assert (Haudio : is_Some (cr_Audio r) <-> "audio" ∈ modalities).
  { unfold spoken_in in *. rewrite <-isMember_spec. destruct (cr_Audio r) as [a|], (isMember "audio" modalities); cbn in E5, E6.
    - split; [done|by eexists].
    - done.
    - done.
    - split; [by intros []|done]. }
  constructor; try done.
  - intros Hnil. apply size_of_zero in Hnil. congruence.
  - destruct (MaxTokens r) as [x|]; [right|by left]. destruct (MaxCompletionTokens r) as [y|]; [|done].
    rewrite !bool_decide_eq_true_2 in E2 by (by eexists). done.
  - intros m Hm. rewrite forallb_forall in E3. specialize (E3 m). rewrite <-list_elem_of_In in E3. apply E3 in Hm.
    apply orb_true_iff in Hm as [H|H]; bool_cases; [by left|by right].
  - by apply isMember_spec.
  - intros Hs a Ha. rewrite Ha, Hs in E7. assert (spoken_in modalities = true) as Hsp.
    { apply isMember_spec, Haudio. rewrite Ha. by eexists. }
    rewrite Hsp in E7. cbn in E7. by bool_cases.
  - intros Hc Hnil. apply size_of_zero in Hnil. rewrite Hnil, bool_decide_eq_true_2 in E8 by done. done.
  - intros m call Hm Hcall. rewrite Forall_forall in Hcalls. specialize (Hcalls m Hm). rewrite Forall_forall in Hcalls. by apply Hcalls.
Qed.

Lemma chat_refusal_of_accepted r : chat_accepts r -> chat_refusal r = None.
Proof.
  intros [Hm Hmax Hmod Htext Haudio Hs Hc _]. unfold chat_refusal. cbn zeta. set (modalities := default ["text"] (Modalities r)) in *.
  destruct (size_of (cr_Messages r) =? 0)%Z eqn:E1; [by apply size_of_zero in E1|].
  assert (bool_decide (is_Some (MaxTokens r)) && bool_decide (is_Some (MaxCompletionTokens r)) = false) as ->.
  { destruct Hmax as [-> | ->]; cbn; [done|apply andb_false_r]. }
  assert (forallb (fun m => (m =s "text") || (m =s "audio")) modalities = true) as ->.
  { apply forallb_forall. intros m Hin%list_elem_of_In. destruct (Hmod m Hin) as [-> | ->]; done. }
  assert (bool_decide (is_Some (cr_ToolChoice r)) && (size_of (cr_Tools r) =? 0)%Z = false) as ->.
  { apply andb_false_iff. destruct (size_of (cr_Tools r) =? 0)%Z eqn:Et; [left|by right]. apply size_of_zero in Et.
    apply bool_decide_eq_false_2. intros H. by apply Hc in H. }
  apply isMember_spec in Htext. rewrite Htext. cbn [negb]. unfold spoken_in.
  rewrite <-isMember_spec in Haudio. destruct (isMember "audio" modalities); cbn [negb andb].
  - destruct (proj2 Haudio eq_refl) as [a Ha]. rewrite Ha in *. cbn.
    destruct (is_true (cr_Stream r)); [by rewrite (Hs eq_refl a eq_refl)|done].
  - destruct (cr_Audio r) as [a|]; [|done]. assert (false = true) by (apply Haudio; by eexists). done.
Qed.

(** A chat body is translated whole or refused.  It is translated exactly
    when it has a message, one limit, modalities of text and audio among which
    text, audio settings exactly when it asks for speech (pcm16 when streamed),
    tools for its tool choice and only function calls; then every message keeps
    its place, role, content, name and calls, each call its id, name and
    arguments. *)
Theorem chat_messages_are_translated_whole r :
  match chatMessages r with
  | inl messages => chat_accepts r /\ Forall2 same_message (cr_Messages r) messages
  | inr _ => ~ chat_accepts r
  end.
Proof.
  unfold chatMessages. destruct (chat_refusal r) as [param|] eqn:E.
  { intros H%chat_refusal_of_accepted. congruence. }
  pose proof (translate_messages_spec (cr_Messages r) 0) as H. destruct (translate_messages 0 (cr_Messages r)) as [l|param].
  - destruct H as [H Hc]. split; [by apply chat_refusal_None|done].
  - destruct H as (i & m & Hi & Hx & _). intros [_ _ _ _ _ _ _ Hcalls]. apply Exists_exists in Hx as (c & Hc & Hne).
    apply Hne, (Hcalls m c); [by eapply list_elem_of_lookup_2|done].
Qed.

(** ** Envelopes *)

(** What a body decides of an execution, and nothing else does. *)
Definition asked_for (e : Request) : Input * bool * option Z * SamplingParameters * option string * list ToolDefinition
    * option ToolChoice * option ResponseFormat * option AudioOutputParameters * string :=
  (request_Input e, Stream e, MaxOutputTokens e, Sampling e, Reasoning e, Tools e, request_ToolChoice e, request_ResponseFormat e,
   AudioOutput e, APIFormat e).

(** A body decides what is said and nothing that was signed.  Whatever its
    body asks for, the request executed for a grant is the grant's: its
    attribution, its target and its routes; and what is executed is a function
    of the body alone, the same under any grant. *)
Theorem bodies_decide_nothing_signed a a' :
  (forall r, runs_admission a (responses_envelope a r) /\ asked_for (responses_envelope a' r) = asked_for (responses_envelope a r)) /\
  (forall messages r, runs_admission a (chat_envelope a messages r) /\
     asked_for (chat_envelope a' messages r) = asked_for (chat_envelope a messages r)) /\
  (forall r, runs_admission a (embeddings_envelope a r) /\ asked_for (embeddings_envelope a' r) = asked_for (embeddings_envelope a r)) /\
  (forall r, runs_admission a (decisions_envelope a r) /\ asked_for (decisions_envelope a' r) = asked_for (decisions_envelope a r)).
Proof. split_and!; intros; split; done. Qed.

(** Two dialects, one execution: a chat body executes as the Responses body that
    says the same. *)
Definition responses_of (messages : list Message) (r : chatRequest) : responsesRequest :=
  mkResponses None messages (chat_max r) (cr_Stream r)
    (mkSampling (cr_Temperature r) (cr_TopP r) None (cr_FrequencyPenalty r) (cr_PresencePenalty r) (cr_Seed r) (Stop r))
    (chat_tool <$> cr_Tools r) (cr_ToolChoice r) (chat_format <$> cr_ResponseFormat r) (ReasoningEffort r).

Definition without_dialect (e : Request) : Request :=
  mkRequest (Speech e) (Transcription e) None (SchemaVersion e) (request_Attribution e) (Target e) (Modality e) (request_Input e)
    (Stream e) (MaxOutputTokens e) (Sampling e) (Reasoning e) (Tools e) (request_ToolChoice e) (request_ResponseFormat e) ""
    (AuthorizedRoutes e).

Theorem chat_executes_as_responses a messages r :
  without_dialect (chat_envelope a messages r) = without_dialect (responses_envelope a (responses_of messages r)).
Proof. reflexivity. Qed.

(** ** The estimate *)

(** Two parts of the same sizes. *)
Definition same_size (p q : ContentPart) : Prop :=
  part_Type p = part_Type q /\
  utf16Length <$> part_Text p = utf16Length <$> part_Text q /\
  (part_Source p ≫= fun s => len <$> Data s) = (part_Source q ≫= fun s => len <$> Data s).

Definition same_sizes (m m' : Message) : Prop :=
  Forall2 same_size (Content m) (Content m') /\
  (fun c => len (Arguments_ c)) <$> default [] (ToolCalls m) = (fun c => len (Arguments_ c)) <$> default [] (ToolCalls m').

Lemma part_tokens_size p q : same_size p q -> part_tokens p = part_tokens q.
Proof.
  intros (Ht & Hx & Hd). unfold part_tokens. rewrite Ht. f_equal.
  - by destruct (part_Text p), (part_Text q); simplify_eq/=; try congruence.
  - destruct (part_Source p) as [s|], (part_Source q) as [s'|]; cbn in Hd; try done;
      [destruct (Data s), (Data s')|destruct (Data s)|destruct (Data s')]; cbn in Hd; try done; by injection Hd as ->.
Qed.

(** The estimate Oxy holds money for sees sizes, never what is said. *)
Theorem estimates_see_sizes_only messages messages' :
  Forall2 same_sizes messages messages' -> estimatedTokens messages = estimatedTokens messages'.
Proof.
  unfold estimatedTokens. induction 1 as [|m m' l l' [Hc Ht] _ IH]; [done|]. cbn [foldr]. rewrite IH. f_equal.
  unfold message_tokens. f_equal; [f_equal|].
  - induction Hc as [|p q ps qs Hp _ IHc]; [done|]. cbn [foldr]. by rewrite IHc, (part_tokens_size p q).
  - revert Ht. generalize (default [] (ToolCalls m')) as calls'. induction (default [] (ToolCalls m)) as [|c calls IHc];
      intros [|c' calls']; try done. cbn. intros [= -> H]. f_equal. by apply IHc.
Qed.

(** ** Examples *)

Definition example_chat (model : modelTarget) (modalities : option (list string)) (tool : string) : chatRequest :=
  mkChatRequest model [mkChatMessage RoleUser (Some [text_part "Hola"]) None None []] (Some 64%Z) None None None None None None None None
    [mkChatTool tool "look" None None None] None None None modalities None None.

(** The contract requires a model of a chat body, distinct modalities and
    function tools; a body without any of them is put to Oxy. *)
Lemma loose_chats_are_asked :
  match chat_ask "req_1" "" (example_chat NoTarget (Some ["text"; "text"]) "retrieval") with
  | inl (_, ask) => ta_target ask = None /\ DeclaredTools (ta_facts ask) = 1%Z
  | inr _ => False
  end /\
  tool_Type <$> (chat_tool <$> cr_Tools (example_chat NoTarget None "retrieval")) = ["function"].
Proof. vm_compute. repeat split. Qed.

(** A timeout after one attempt reached the provider. *)
Definition example_billed : Settle.Result :=
  Settle.mkResult None None None None (Some (NewError "req_1" CodeProviderTimeout))
    (ProviderCost.mkRecord "req_1"
       [ProviderCost.mkAttemptCost Settle.example_row_usage (ProviderCost.measure_attempt 0 None Settle.example_row_usage)] [] false).

(** What it is answered is an error that a client retries. *)
Lemma billed_decisions_invite_a_retry :
  decisions_answer "req_1" example_billed = inr (NewPublicError "req_1" CodeProviderError) /\
  pub_Retryable (NewPublicError "req_1" CodeProviderError) = true.
Proof. vm_compute. split; reflexivity. Qed.
